(* ===== verification/_CoqProject ===== *)
-Q . S2P
Prelude.v
SysTypes.v
Bank.v
BankSpec.v
Staking.v
StakingSpec.v
F64.v
Precompile.v
JobRegistry.v
Samples.v
JobSpec.v
JobSettle.v
JobDeadline.v
Compliance.v
ComplianceSpec.v
Tokenomics.v
Slashing.v
PouwEngine.v
Kernel.v
KernelSpec.v
KernelEscrow.v
Tee.v
TeeSpec.v
Zkp.v
ZkpSpec.v
ZkpBatch.v
TokenomicsSpec.v
TokenomicsLedger.v
SlashingSpec.v
SlashingFunds.v
PouwSpec.v
ConsensusTypes.v
Vrf.v
Election.v
Consensus.v
ConsensusSamples.v
ElectionSpec.v
ChainSpec.v
ConsensusSpec.v
Gas.v
GasSpec.v
CryptoPrecompiles.v
Registry.v
RegistrySpec.v
Host.v
VmSpec.v
Sorting.v
CoreHash.v
Hybrid.v
HybridSpec.v
CoreTx.v
CoreSamples.v
CoreSpec.v
F64Bounds.v
Mempool.v
MempoolChecks.v
MempoolSpec.v
MempoolAdmission.v
MempoolWallet.v
CoreBlock.v
CoreJob.v
CoreBlockSpec.v
CoreJobSpec.v
VaultReward.v
VaultArith.v
VaultRewardSpec.v
VaultSelect.v
VaultSelectSpec.v
VaultAttest.v
VaultAttestSpec.v
VaultServer.v
VaultServerSpec.v
VaultCalendar.v
Reputation.v
ReputationSpec.v
Governance.v
GovernanceSpec.v
Bridge.v
BridgeListen.v
BridgeSpec.v
