(* ===== verification/Prelude.v ===== *)
(** * Aethelred: system contracts, consensus, core, mempool, vault and bridge

    A model of the native contracts of the Aethelred VM, of the consensus that decides
    who proposes its blocks, of the transactions and blocks they exchange with their
    signatures, of the mempool that admits them, of the vault service that attests
    rewards and validator sets and of the relayer of the bridge to Ethereum (the Rust
    workspace under [crates/]: [vm], [consensus], [core], [mempool], [vault], [bridge])
    with the theorems that make them correct.

    ** The program

    The VM does not run its token, staking and job logic as user contracts but as
    a native _system kernel_ ([system_contracts/mod.rs]).  A requester submits a
    verifiable-compute job and the bid is locked; a prover is assigned, computes,
    and submits a proof (a TEE attestation, a zero-knowledge proof, both, or a
    re-execution hash); the proof is checked by the _precompiles_; on success the
    bid is split between the prover, the block proposer and the burn address.
    The kernel owns four components and routes the calls between them:

    - the _bank_: accounts with a locked part, escrows, supply and burns;
    - the _staking manager_: stakes locked in the bank, unbonding, slashing
      (through the bank's lock), the adaptive burn rate, the fee split;
    - the _job registry_: jobs, their lifecycle, verification and settlement;
      it calls the bank, the staking manager and the precompiles;
    - the _compliance module_: certifications, the sanctions list behind a Bloom
      filter, consents; the kernel runs it before a submission.

    Beside the kernel stand three economic modules that it has no instance of:
    _tokenomics_ (allocations, vesting, emission, adaptive burn), the _slashing
    manager_ (offenses, bans, fishermen's challenges and committees, sharing the
    bank through its lock) and the _proof-of-useful-work engine_ (rewards weighted
    by verified compute, compliance bonds, the congestion burn, the data oracle).

    The _consensus_ crate elects the proposer of each slot by a verifiable random
    function against a threshold that grows with stake and with the logarithm of
    useful work.  Its engine keeps validators and scores, produces and verifies
    credentials, validates headers and the compute results they commit to, and
    credits verified work; it owns an _election_ module with scores of its own and
    a _VRF_ engine.

    The _core_ crate holds what the nodes exchange: hashes with their domains and
    Merkle trees, hybrid signatures (ECDSA and Dilithium together, with a threat level
    that decides which is required), addresses, transactions, blocks, compute jobs and
    the seals of finished ones.  The _mempool_ takes the bytes of a signed transaction
    through a chain of middleware: rate limits, the hybrid signature, compliance, fees.

    The _vault_ is a service for an enclave, reached over HTTP.  It computes the rewards
    of an epoch with a Merkle tree of claims, selects validators under diversity caps and
    orders revealed blocks; each result is hashed into a canonical payload and signed
    together with a report of the hardware, for contracts on another chain to check.

    The _bridge_ relayer polls Ethereum and the chain, files deposits and burns in a state
    that it writes to a file after every change, proposes a mint for each final deposit and
    an unlock for each final burn, and counts the votes of the relayers on them.  Under
    [core/src/pillars] stands the _governance_: a house of token holders that votes on
    proposals and a council that can veto them.

    ** Files, in dependency order

    - [Prelude]: outcomes and the state-and-error monad, machine integers, locks,
      little-endian bytes, the shared lemmas, tactics and hint databases.
    - [SysTypes]: [types.rs], [error.rs], [events.rs], addresses of [mod.rs].
    - [Bank], [BankSpec]: [bank.rs]; one definition per method, then sequences of
      calls, the abstract ledger and escrows.
    - [Staking], [StakingSpec]: [staking.rs].
    - [F64]: the IEEE 754 expressions of the contracts and Rust's casts.
    - [Precompile]: [precompiles/mod.rs], the [Precompile] trait as a record and
      the class [Crypto] of what the job registry calls.
    - [JobRegistry], [Samples], [JobSpec], [JobSettle], [JobDeadline]:
      [job_registry.rs]; lifecycle and persistence, verification and settlement
      with runs on concrete inputs, deadlines and expiry.
    - [Compliance], [ComplianceSpec]: [compliance.rs].
    - [Tokenomics], [TokenomicsSpec], [TokenomicsLedger]: [tokenomics.rs]; the
      vesting and burn curves, then the manager's ledger.
    - [Slashing], [SlashingSpec], [SlashingFunds]: [slashing.rs]; records over all
      call sequences, then what slashes and challenges do to the shared bank.
    - [PouwEngine], [PouwSpec]: [pouw_engine.rs].
    - [Kernel], [KernelSpec], [KernelEscrow]: [mod.rs]; the kernel as a state
      machine, the compliance gate, solvency.
    - [Tee], [TeeSpec]: [precompiles/tee.rs]; the quote parsers and verifiers
      behind [Crypto]'s TEE verifier.
    - [Zkp], [ZkpSpec], [ZkpBatch]: [precompiles/zkp.rs]; the parsers and
      verifiers behind [Crypto]'s zero-knowledge verifier.
    - [ConsensusTypes]: [types.rs], [traits.rs], [error.rs] and [pouw/config.rs] of
      the consensus crate, and the signed and floating-point arithmetic it uses.
    - [Vrf]: [vrf.rs], as it is built without the [vrf] feature.
    - [Election], [ElectionSpec]: [pouw/election.rs].
    - [Consensus], [ConsensusSamples], [ChainSpec], [ConsensusSpec]:
      [pouw/consensus.rs]; concrete nodes and blocks, headers and chains, then the
      engine as a state machine.
    - [Gas], [GasSpec]: [gas.rs], [memory.rs] and [error.rs] of the virtual machine;
      the meter alone and shared between threads.
    - [CryptoPrecompiles]: [precompiles/crypto.rs].
    - [Registry], [RegistrySpec]: the registries of [precompiles/mod.rs] and
      [registry.rs]; the interfaces [Returning] and [Metered] with their instances.
    - [Host], [VmSpec]: [host.rs]; the registry, the meter and the host together.
    - [Sorting]: stable sorting by a key, used by the mempool and the vault.
    - [CoreHash], [Hybrid], [HybridSpec]: [crypto/mod.rs], [hash.rs] and [hybrid.rs] of
      the core crate; formats, keys, signing and verification.
    - [CoreTx], [CoreSamples], [CoreSpec]: [types/address.rs] and [transaction.rs].
    - [Mempool], [MempoolChecks], [MempoolSpec], [MempoolAdmission], [MempoolWallet]:
      the five files of [mempool/src/middleware]; the chain, what an admitted
      transaction has passed, and a wallet's transfer from signing to its verdict.
    - [CoreBlock], [CoreBlockSpec]: [types/block.rs]; header, roots and builder.
    - [CoreJob], [CoreJobSpec]: [types/job.rs] and [seal.rs], a module each.
    - [VaultReward], [VaultArith], [VaultRewardSpec]: [vault/src/reward_calculator.rs];
      256-bit arithmetic, then the claims and their tree.
    - [F64Bounds]: bounds on double-precision results, for the scores.
    - [VaultSelect], [VaultSelectSpec]: [validator_selection.rs], [mev_protection.rs].
    - [VaultAttest], [VaultAttestSpec]: [attestation.rs]; the class
      [HardwareAttestationProvider] is the trait, its instances are the providers.
    - [VaultServer], [VaultServerSpec], [VaultCalendar]: [server.rs]; hashes, handlers,
      layers and start-up, the service along every history of requests with runs on
      concrete inputs, its calendar.
    - [Reputation], [ReputationSpec]: [consensus/src/reputation.rs].
    - [Governance], [GovernanceSpec]: [core/src/pillars/bicameral_governance.rs].
    - [Bridge], [BridgeListen], [BridgeSpec]: the crate [bridge]; data, configuration,
      storage, events and votes ([storage.rs], [processor.rs], [consensus.rs], [lib.rs]),
      polling and parsing ([ethereum.rs], [aethelred.rs]); histories of a relayer, quorums,
      polls, the log of a deposit, a concrete codec and run.

    ** How the code is represented

    A struct is a [Record], an enum an [Inductive], a [HashMap] or [BTreeMap] a
    [gmap], a [Vec] a list, [[u8; 32]] the list of its bytes.  Unsigned integers
    are [N]; an operation that can leave its width says so: [sat_add], [sat_sub],
    [sat_mul] are the saturating methods, [u_add], [u_sub], [u_mul] the plain
    operators, which panic or wrap according to [overflow_checks] of the class
    [Build] (the cargo profile and features), [cast] is [as].

    A fallible function returns an [outcome]: [Ok], [Err], [Panic], or [Blocked]
    for a thread that waits on a lock it holds itself.  A method on [&mut self]
    is [M E S A], a function from the state to an outcome _and_ a state: Rust
    keeps the mutations made before an early [?], and so does the model; every
    theorem on calls covers the states failing calls leave behind.  A method that
    borrows two components runs on their pair ([on_fst], [on_snd]); the kernel
    lifts it to its own record.

    Loops are structural recursion over the collection they walk.  Seven are not:
    the hexadecimal printer of a [u64] runs for 16 digits, all a [u64] has; the
    gas loop of the batch precompile has the input's length as fuel, which is
    enough because every round consumes at least twelve bytes (proved in
    [ZkpBatch]); the digit loop of the PoUW engine runs for 39 digits, all a
    [u128] has (proved in [PouwSpec]); the probing loop of the committee selection
    has the number of nodes as fuel, and reaches a free one within it (proved in
    [SlashingSpec]); the Merkle loop has the number of leaves as fuel, and each
    round at least removes one (proved in [ChainSpec]), and so have the Merkle loop of
    the core crate (proved in [CoreSpec]) and the layers of the claim tree (proved in
    [VaultRewardSpec]).  The long division of the vault runs over its 256 bits.  A loop
    that draws random keys until one is valid walks the list of the draws, and blocks
    when none is valid.  Iteration orders of hash maps that the code lets escape (the
    unjail events of a block, statistics) are those of [map_to_list].

    ** Parameters

    SHA-256 and the two verifiers the registry calls are the class [Crypto], an
    interface: the registry's theorems hold for every instance, the theorems of
    [TeeSpec], [ZkpSpec] and [ZkpBatch] put the modelled precompiles in its place.
    Where collision freedom of the hash is needed the conclusion offers a
    collision instead of assuming there is none; in the vault, where a digest is
    known to consist of 32 octets, so that collisions exist, it names the two
    strings that were hashed ([sha256_clash]).  Code outside the repository is
    behind classes: the machine clock of the compliance audit log is [Clock],
    Intel's DCAP library, the CBOR, COSE, JSON and hexadecimal decoders and the
    clock of the TEE verifiers are [TeeEnv], the pairing library is [Arkworks],
    the JSON form of slashing evidence is [EvidenceFormat], SHA-256 and the
    platform's [log10] and [powi] in the consensus are [ConsensusEnv], the hash and
    signature libraries of the precompiles are [SignatureLib], those of the core crate
    [CoreLib], the regular expressions of the mempool [ScanEnv], its clock
    [InstantClock]; the vault's hashes are [VaultLib], the logarithm [VaultMath], the
    order of a hash map [VaultOrder], the curves [VaultCrypto], devices and relay
    [TeeHardware], crate features [VaultFeatures], JSON [VaultJson]; the libraries of the
    bridge are [BridgeLib], the answers of the two nodes [BridgeNet].
    The only laws assumed of them, where a theorem says so, are that their calls
    return ([env_returns], [ark_returns]), that a SHA-256 digest has 32 bytes
    ([digest_32], [SignatureLibLaws], [CoreLaws], [VaultLaws]), that hexadecimal text
    is decoded as it was encoded, that a signature a library makes is one it
    verifies or recovers the key from ([CoreLaws], [VaultCryptoLaws]), and that a stored
    state is read back as it was written ([BridgeLaws]).

    ** What is shown

    - Tokens: whatever calls are made, the supply, the burned total and the
      accounts add up ([kernel_conserves], [bank_ops_conserve], [genesis_wf]);
      the bank refines a ledger of free and held tokens ([bank_refines_ledger]);
      an escrow pays at most once.
    - Solvency: locked tokens cover stakes and bids of open jobs together
      ([kernel_solvent]), hence cancelling an open job and withdrawing a matured
      stake always succeed ([funds_always_redeemable]); the bid of an expired or
      failed job is beyond that.
    - Jobs: lifecycle and persistence over all call sequences; what a settled
      proof has passed; replay protection; who is paid what, to the last unit;
      deadlines exact in spite of floating point; expiry.
    - Staking: registry and bank agree, stakes round-trip, slashing, fee split
      and burn rate within their documented bounds.
    - Compliance: the Bloom filter decides like the plain set; [enforce] passes
      exactly when no rule is violated; a sanctioned requester cannot submit.
    - Precompiles: the registry's zk envelope and SGX quotes are decoded exactly
      and the verdict is the documented one; no input makes the TEE verifiers
      panic; without the [sgx] or [zkp] feature a registry that requires
      cryptographic verification accepts nothing; batches are read back entry by
      entry.
    - Virtual machine: no call through the precompile registry panics, its gas is
      covered by the limit, the two registries agree on the addresses both have, the
      hybrid verifier reads the documented layout; concurrent calls keep the limit of
      a shared gas meter unless an amount wraps its counter.
    - Tokenomics: vested amounts are monotone, bounded and complete; the manager's
      totals are the sums over its positions along every history; claims and
      revocations pay exactly; a fee is partitioned without loss.
    - Slashing: records are well-formed along every history and tombstones are for
      ever; committees are distinct members and their selection terminates; a
      slash takes exactly the tier's share; a challenger's stake is returned.
    - Useful work: the double-precision burn curve against its integer formula at
      every load, exact fee shares, rewards between one and two and a half times
      the base, liquidation of bonds with its cooldown.
    - Election: weighted totals along every history of calls; the verdict on a
      proposer; all ways to decide a leader agree; the active set is exact.
    - Reputation: along every history of blocks the daily limit is kept, counters and
      streaks are those of the accepted jobs, scores stay below their (rounded) cap.
    - Blocks: an accepted header has a registered, eligible proposer whose proof
      and threshold were checked; a chain's tip fixes the whole chain and the
      header its results, or a collision of SHA-256 is at hand.
    - Core: the verdict on a hybrid signature at every threat level; its wire formats
      and those of keys and addresses round-trip; what is signed with a key verifies
      under it; identifiers of transactions, blocks and seals bind what they name; a
      built block carries the root of its transactions, which keep its limits; a majority
      result is one that enough validators gave.
    - Mempool: the chain runs in order and stops at the first refusal; an admitted
      transaction has passed all four members on the bytes that were verified; the
      verdict on a wallet's transfer is the fee inequality; a window is never exceeded.
    - Vault: rewards are asset-backed to the unit and every claim has a proof;
      multiplication with division is exact beyond 128 bits; a selection keeps size and
      caps whatever floating-point telemetry is reported; reveals are ordered by time.
      A generated attestation verifies, binds its fields, vouches only for hardware
      that is there, never repeats a nonce.  The service changes nothing on a bad
      request, its counters agree, on a network it asks for the token, and its
      attestations pin down candidates, stakes and rewards; its dates are Gregorian.
    - Governance: tallies are the sums of the recorded votes, a verdict is the one the votes
      deserve, a passed veto is for ever and members at the threshold can always pass one.
    - Bridge: whatever fails, proposals come from reported deposits and burns and no vote
      is accepted; a successful change survives a restart; quorums intersect; a poll never
      goes back, and what it announces as final is confirmed and filed; the log of a
      deposit is read field by field.
    - Defects: theorems of the last group state behaviour that the code has and
      its comments deny: a settled job that settles again, a late proof that
      deadlocks the kernel, an expiry that is lost in the grace window, stakes
      stranded by a slash, a revoked certificate that passes, forged proofs
      accepted by the stub verifiers, attestations accepted although their
      verifier refuses them, an enterprise mode that cannot settle, an offender
      who has staked everything and cannot be slashed, useful work that the
      election records once and never weighs, credentials and evidence of work
      that anyone can forge, a documented proof layout that is refused, host
      functions that report success whatever the verdict, signature metadata that can
      be stripped, a batch that accepts foreign senders, residency rules no transaction
      meets, a reveal that chooses its own time, an attestation whose fields can be
      split elsewhere, a delegation root that phantom stakers move, a quorum that quadratic
      votes cannot reach, a veto by a minority.

    ** Conditions the code does not check

    Some theorems hold under conditions that no line of the code enforces.  Each is a
    hypothesis of its theorem, and a lemma shows what happens beyond it: genesis
    allocations within the initial supply ([oversized_genesis_validates]), a settlement
    none of whose shares is zero ([zero_share_not_settled]), histories of the kernel that
    end at a call that never returns ([late_proof_blocks]), weighted stakes that add up
    in 128 bits ([huge_stakes]), a target of a selection below [2^63] ([huge_target]), a
    gas price below a hundredth of 64 bits ([gas_price_panics]), vesting schedules of at
    most 100 percent ([generous_schedule_overpays]), slots before the last 32-bit day
    ([last_day_streak]), a build with overflow checks for the gas of a block
    ([block_gas_wraps]).  Tokens and votes of the governance are assumed to add up in 128
    bits, and transactions to be limited to [2^32 - 1] bytes by the configuration.

    ** What is not modelled

    Of the modelled files: event topics, serialisation, logging ([tracing]), the
    floating-point estimate of the Bloom filter's false-positive rate.  Of
    [crates/vm]: the WASM runtime, which binds wasmer.  Of [crates/consensus]: the
    elliptic-curve VRF, whose feature does not compile, and the Prometheus
    metrics.  Of [crates/core]: the network transport, the wrappers of single
    signature schemes and the other prototypes under [pillars], which nothing calls.
    Of [crates/vault]: the ioctl calls, the text of the health and metrics answers,
    and the interleaving of two requests inside a handler (the counters are atomic,
    the attestation is made by one call).  Of [crates/bridge]: the command line, the
    configuration file and the scheduling of its tasks (a call runs to its end
    before the next).  Tooling, SDKs, the Go node and the Solidity contracts are
    outside the Rust core. *)
From Stdlib Require Import ZArith Lia.
From stdpp Require Import base gmap list fin_maps strings pretty option numbers.

(** ** Build configuration

    What [cargo] decides: whether arithmetic overflow panics (the dev and test
    profiles) or wraps (the release profile: no [Cargo.toml] of the workspace
    sets [overflow-checks]), and the two crate features of
    [crates/vm/Cargo.toml] the contracts test with [cfg]. *)
Class Build := {
  overflow_checks : bool;
  feature_sgx : bool;
  feature_zkp : bool;
}.

(** ** Machine integers

    A Rust unsigned integer is an [N]; the operations write out what Rust does
    at the upper end of the range ([N] is already bounded below). *)
Abbreviation U8_MAX := 255%N.
Abbreviation U16_MAX := 65535%N.
Abbreviation U32_MAX := 4294967295%N.
Abbreviation U64_MAX := 18446744073709551615%N.
Abbreviation U128_MAX := 340282366920938463463374607431768211455%N.

#[local] Open Scope N_scope.

Definition sat_add (max a b : N) : N := N.min max (a + b).
Definition sat_sub (a b : N) : N := a - b.
Definition sat_mul (max a b : N) : N := N.min max (a * b).

(** [x as uK] from a wider unsigned type truncates. *)
Definition cast (max z : N) : N := z mod (max + 1).

(** ** Outcomes

    What a call can do: return [Ok], return [Err], unwind, or block for ever
    on a lock whose guard the calling thread holds itself. *)
Inductive outcome (E A : Type) : Type :=
| Ok (a : A)
| Err (e : E)
| Panic
| Blocked.
Global Arguments Ok {E A} a.
Global Arguments Err {E A} e.
Global Arguments Panic {E A}.
Global Arguments Blocked {E A}.

Definition is_ok {E A} (o : outcome E A) : bool :=
  match o with Ok _ => true | _ => false end.

#[export] Instance outcome_ret E : MRet (outcome E) := λ A a, Ok a.
#[export] Instance outcome_bind E : MBind (outcome E) := λ A B k o,
  match o with
  | Ok a => k a
  | Err e => Err e
  | Panic => Panic
  | Blocked => Blocked
  end.

(** Checked arithmetic: [+], [-], [*] of Rust, and [/], [%] which panic on a
    zero divisor in every profile. *)
Section checked.
Context {build : Build} {E : Type}.

Definition overflow (wrapped : N) : outcome E N :=
  if overflow_checks then Panic else Ok wrapped.

Definition u_add (max a b : N) : outcome E N :=
  if bool_decide (a + b <= max) then Ok (a + b) else overflow ((a + b) mod (max + 1)).
Definition u_sub (max a b : N) : outcome E N :=
  if bool_decide (b <= a) then Ok (a - b) else overflow ((max + 1 + a - b) mod (max + 1)).
Definition u_mul (max a b : N) : outcome E N :=
  if bool_decide (a * b <= max) then Ok (a * b) else overflow ((a * b) mod (max + 1)).
Definition u_div (a b : N) : outcome E N :=
  if bool_decide (b = 0) then Panic else Ok (a / b).
Definition u_rem (a b : N) : outcome E N :=
  if bool_decide (b = 0) then Panic else Ok (a mod b).

(** In range, every profile computes the mathematical result. *)
Lemma u_add_ok max a b : a + b <= max → u_add max a b = Ok (a + b).
Proof. intros H. unfold u_add. by rewrite bool_decide_true. Qed.
Lemma u_add_no_err max a b e : u_add max a b = Err e → False.
Proof. unfold u_add, overflow. case_bool_decide; [done|]. by destruct overflow_checks. Qed.
Lemma u_sub_ok max a b : b <= a → u_sub max a b = Ok (a - b).
Proof. intros H. unfold u_sub. by rewrite bool_decide_true. Qed.
Lemma u_mul_ok max a b : a * b <= max → u_mul max a b = Ok (a * b).
Proof. intros H. unfold u_mul. by rewrite bool_decide_true. Qed.
Lemma u_div_ok a b : b ≠ 0 → u_div a b = Ok (a / b).
Proof. intros H. unfold u_div. by rewrite bool_decide_false. Qed.
Lemma u_rem_ok a b : b ≠ 0 → u_rem a b = Ok (a mod b).
Proof. intros H. unfold u_rem. by rewrite bool_decide_false. Qed.
End checked.

(** Quotients as linear facts: every [a / d] is replaced by a fresh [q] with
    [d * q <= a < d * q + d], which [lia] can use. *)
Lemma div_bounds a d : d ≠ 0 → d * (a / d) <= a ∧ a < d * (a / d) + d.
Proof.
  intros Hd. pose proof (N.div_mod a d Hd) as Heq. pose proof (N.mod_lt a d Hd) as Hlt.
  generalize dependent (a mod d). generalize dependent (a / d). intros q r -> Hlt.
  generalize (d * q). intros. lia.
Qed.

Ltac div_elim_one a d :=
  let q := fresh "q" in
  pose proof (div_bounds a d ltac:(lia)); set (q := a / d) in *; clearbody q.
Ltac div_elim :=
  repeat match goal with
  | |- context [?a / ?d] => div_elim_one a d
  | _ : context [?a / ?d] |- _ => div_elim_one a d
  end.

(** The same without the bounds, where the divisor is not a constant. *)
Ltac div_abstract :=
  repeat match goal with
  | |- context [?a / ?d] => let q := fresh "q" in set (q := a / d) in *; clearbody q
  | _ : context [?a / ?d] |- _ => let q := fresh "q" in set (q := a / d) in *; clearbody q
  end.

(** ** State with errors

    [&mut self] methods: the state reached is kept on every exit, because Rust
    does not roll a mutation back when [?] returns early. *)
Definition M (E S A : Type) : Type := S → outcome E A * S.

#[export] Instance M_ret E S : MRet (M E S) := λ A a s, (Ok a, s).
#[export] Instance M_bind E S : MBind (M E S) := λ A B k m s,
  match m s with
  | (Ok a, s') => k a s'
  | (Err e, s') => (Err e, s')
  | (Panic, s') => (Panic, s')
  | (Blocked, s') => (Blocked, s')
  end.

Section state.
Context {E S : Type}.

Definition lift {A} (o : outcome E A) : M E S A := λ s, (o, s).
Definition fail {A} (e : E) : M E S A := λ s, (Err e, s).
Definition get : M E S S := λ s, (Ok s, s).
Definition gets {A} (f : S → A) : M E S A := λ s, (Ok (f s), s).
Definition put (s : S) : M E S unit := λ _, (Ok tt, s).
Definition modify (f : S → S) : M E S unit := λ s, (Ok tt, f s).

(** [if !b { return Err(e) }] *)
Definition ensure (b : bool) (e : E) : M E S unit :=
  if b then mret tt else fail e.

(** [o.ok_or(e)?] *)
Definition ok_or {A} (o : option A) (e : E) : M E S A :=
  match o with Some a => mret a | None => fail e end.

Definition when (b : bool) (m : M E S unit) : M E S unit :=
  if b then m else mret tt.

(** [for x in l { f(x)?; }] *)
Fixpoint for_each {A} (l : list A) (f : A → M E S unit) : M E S unit :=
  match l with
  | [] => mret tt
  | x :: l => f x ;; for_each l f
  end.
End state.

(** Running a method of a field of the state. *)
Definition zoom {E S T A} (gt : S → T) (st : T → S → S) (m : M E T A) : M E S A :=
  λ s, let r := m (gt s) in (r.1, st r.2 s).

(** ** Reasoning

    [stable R m]: whatever [m] returns, the state it leaves is related by [R]
    to the state it started from. With a preorder [R] the rules below compose;
    an invariant [I] is the preorder [maintains I]. *)
Definition stable {E S A} (R : relation S) (m : M E S A) : Prop := ∀ s, R s (m s).2.

Definition maintains {S} (I : S → Prop) : relation S := λ s s', I s → I s'.

#[export] Instance maintains_preorder {S} (I : S → Prop) : PreOrder (maintains I).
Proof. split; unfold maintains; repeat intro; auto. Qed.

Create HintDb stable discriminated.
#[export] Hint Constants Opaque : stable.

Section stable_rules.
Context {E S : Type} (R : relation S) `{!PreOrder R}.

Lemma stable_ret {A} (a : A) : stable (E:=E) R (mret a).
Proof. intros s. cbn. reflexivity. Qed.

Lemma stable_bind {A B} (m : M E S A) (k : A → M E S B) :
  stable R m → (∀ a, stable R (k a)) → stable R (m ≫= k).
Proof.
  intros Hm Hk s. specialize (Hm s). unfold mbind, M_bind.
  destruct (m s) as [[a|e| |] s'] eqn:Hms; cbn in *; try done.
  etrans; [exact Hm | apply Hk].
Qed.

Lemma stable_lift {A} (o : outcome E A) : stable R (lift o).
Proof. intros s. cbn. reflexivity. Qed.

Lemma stable_fail {A} (e : E) : stable R (fail (A:=A) e).
Proof. intros s. cbn. reflexivity. Qed.

Lemma stable_get : stable (E:=E) R get.
Proof. intros s. cbn. reflexivity. Qed.

Lemma stable_gets {A} (f : S → A) : stable (E:=E) R (gets f).
Proof. intros s. cbn. reflexivity. Qed.

Lemma stable_modify (f : S → S) : (∀ s, R s (f s)) → stable (E:=E) R (modify f).
Proof. intros Hf s. apply Hf. Qed.

Lemma stable_ensure b (e : E) : stable R (ensure b e).
Proof. destruct b; [apply stable_ret | apply stable_fail]. Qed.

Lemma stable_ok_or {A} (o : option A) (e : E) : stable R (ok_or o e).
Proof. destruct o; [apply stable_ret | apply stable_fail]. Qed.

Lemma stable_when b (m : M E S unit) : stable R m → stable R (when b m).
Proof. destruct b; [done | intros; apply stable_ret]. Qed.

Lemma stable_for_each {A} (l : list A) (f : A → M E S unit) :
  (∀ x, stable R (f x)) → stable R (for_each l f).
Proof.
  intros Hf. induction l as [|x l IH]; cbn; [apply stable_ret|].
  by apply stable_bind.
Qed.
End stable_rules.

Lemma stable_zoom {E S T A} (RS : relation S) (RT : relation T)
    (gt : S → T) (st : T → S → S) (m : M E T A) :
  stable RT m → (∀ s t, RT (gt s) t → RS s (st t s)) → stable RS (zoom gt st m).
Proof. intros Hm Hst s. cbn. apply Hst, Hm. Qed.

Lemma stable_weaken {E S A} (R R' : relation S) (m : M E S A) :
  stable R m → (∀ s s', R s s' → R' s s') → stable R' m.
Proof. intros Hm HR s. apply HR, Hm. Qed.

#[export] Hint Resolve stable_ret stable_lift stable_fail stable_get stable_gets
  stable_ensure stable_ok_or stable_when stable_for_each : stable.

(** Walks a monadic body: one goal per call the hint database does not close. *)
Ltac stable_step :=
  match goal with
  | |- stable _ (mbind _ _) => apply stable_bind; [apply _| |intros ?]
  | |- stable _ (match ?x with _ => _ end) => destruct x eqn:?
  | |- stable _ (let '_ := ?x in _) => destruct x eqn:?
  | |- stable _ _ => solve [eauto with stable typeclass_instances]
  end.
Ltac stable_body := repeat stable_step.

(** Successful runs. *)
Lemma bind_ok {E S A B} (m : M E S A) (k : A → M E S B) s b s' :
  (m ≫= k) s = (Ok b, s') ↔ ∃ a s1, m s = (Ok a, s1) ∧ k a s1 = (Ok b, s').
Proof.
  unfold mbind, M_bind. split.
  - destruct (m s) as [[a|e| |] s1] eqn:Hm; intros H; simplify_eq; eauto.
  - intros (a & s1 & -> & ?). done.
Qed.

Lemma obind_ret {E A B} (a : A) (k : A → outcome E B) : (Ok a ≫= k) = k a.
Proof. reflexivity. Qed.
Lemma obind_ok {E A B} (o : outcome E A) (k : A → outcome E B) b :
  (o ≫= k) = Ok b ↔ ∃ a, o = Ok a ∧ k a = Ok b.
Proof.
  split; [destruct o; intros H; simplify_eq/=; eauto|].
  by intros (a & -> & ?).
Qed.

Lemma ensure_ok {E S} b (e : E) (s : S) u s' :
  ensure b e s = (Ok u, s') ↔ b = true ∧ s' = s.
Proof. unfold ensure, fail, mret, M_ret. destruct b, u; split; intros; destruct_and?; simplify_eq; auto. Qed.

Lemma ok_or_ok {E S A} (o : option A) (e : E) (s : S) a s' :
  ok_or o e s = (Ok a, s') ↔ o = Some a ∧ s' = s.
Proof. unfold ok_or, fail, mret, M_ret. destruct o; split; intros; destruct_and?; simplify_eq; auto. Qed.

Lemma lift_ok {E S A} (o : outcome E A) (s : S) a s' :
  lift o s = (Ok a, s') ↔ o = Ok a ∧ s' = s.
Proof. unfold lift. split; intros; destruct_and?; simplify_eq; auto. Qed.

Lemma zoom_ok {E S T A} (gt : S → T) (st : T → S → S) (m : M E T A) s a s' :
  zoom gt st m s = (Ok a, s') ↔ ∃ t, m (gt s) = (Ok a, t) ∧ s' = st t s.
Proof.
  unfold zoom. destruct (m (gt s)) as [o t] eqn:Hm; cbn. split.
  - intros [= -> <-]. eauto.
  - by intros (t' & [= -> ->] & ->).
Qed.

(** Running a bound computation. *)
Lemma bind_get {E S B} (k : S → M E S B) s : (get ≫= k) s = k s s.
Proof. reflexivity. Qed.
Lemma bind_lift_ok {E S A B} (a : A) (k : A → M E S B) s : (lift (Ok a) ≫= k) s = k a s.
Proof. reflexivity. Qed.

(** Splits a hypothesis [body s = (Ok r, s')] along the body's statements. *)
Ltac ok_inv_step H :=
  lazymatch type of H with
  | (mbind _ _) _ = (Ok _, _) =>
      let a := fresh "v" in let s := fresh "s" in let H1 := fresh "H" in
      apply bind_ok in H as (a & s & H1 & H); try ok_inv_leaf H1
  | mbind _ _ = Ok _ =>
      let a := fresh "v" in let H1 := fresh "H" in
      apply obind_ok in H as (a & H1 & H)
  end
with ok_inv_leaf H :=
  lazymatch type of H with
  | ensure _ _ _ = (Ok _, _) =>
      apply ensure_ok in H as [? ->]
  | ok_or _ _ _ = (Ok _, _) => apply ok_or_ok in H as [? ->]
  | lift _ _ = (Ok _, _) => apply lift_ok in H as [? ->]
  | get _ = _ => injection H as <- <-
  | gets _ _ = _ => injection H as <- <-
  | put _ _ = _ => injection H as <- <-
  | modify _ _ = _ => injection H as <- <-
  | mret _ _ = _ => injection H as <- <-
  | zoom _ _ _ _ = (Ok _, _) =>
      let t := fresh "t" in apply zoom_ok in H as (t & H & ->)
  end.
Ltac ok_inv H := repeat ok_inv_step H; try ok_inv_leaf H; cbn in *.

(** Runs the next statement of a goal [body s = (Ok r, s')]: by computation, by
    the given tactic, or as a [lift]ed value the tactic computes. *)
Ltac mstep_to tac := apply bind_ok; do 2 eexists; split; [tac|].
Ltac mstep := mstep_to ltac:(reflexivity).
Ltac mstep_by tac := apply bind_ok; do 2 eexists; split; [apply lift_ok; split; [tac|reflexivity]|].

(** Evaluates a short body statement by statement. *)
Ltac mrun :=
  unfold zoom, ensure, ok_or, when, fail, lift, gets, get, put, modify,
    mbind, M_bind, mret, M_ret in *; cbn in *.

Ltac bool_facts :=
  repeat match goal with
  | H : bool_decide _ = true |- _ => apply bool_decide_eq_true in H
  | H : bool_decide _ = false |- _ => apply bool_decide_eq_false in H
  | H : negb _ = true |- _ => apply negb_true_iff in H
  | H : negb _ = false |- _ => apply negb_false_iff in H
  | H : andb _ _ = true |- _ => apply andb_true_iff in H as [? ?]
  | H : orb _ _ = false |- _ => apply orb_false_iff in H as [? ?]
  end.

(** ** Sums over the values of a map *)
Section map_sum.
Context {K V : Type} `{Countable K}.
Implicit Types (f : V → N) (m : gmap K V).

Definition map_sum f m : N := map_fold (λ _ v acc, f v + acc) 0 m.

Lemma map_sum_empty f : map_sum f ∅ = 0.
Proof. apply map_fold_empty. Qed.

Lemma map_sum_insert_None f m k v :
  m !! k = None → map_sum f (<[k:=v]> m) = f v + map_sum f m.
Proof.
  intros Hk. unfold map_sum. rewrite map_fold_insert_L; [done| |done].
  intros. lia.
Qed.

Lemma map_sum_delete f m k v :
  m !! k = Some v → map_sum f m = f v + map_sum f (delete k m).
Proof.
  intros Hk. rewrite <- (insert_delete_id m k v Hk) at 1.
  apply map_sum_insert_None. apply lookup_delete_eq.
Qed.

(** The update law: the old value's share is replaced. *)
Lemma map_sum_insert f m k v :
  map_sum f (<[k:=v]> m) + default 0 (f <$> m !! k) = map_sum f m + f v.
Proof.
  destruct (m !! k) as [w|] eqn:Hk; cbn.
  - rewrite <- insert_delete_eq, map_sum_insert_None by apply lookup_delete_eq.
    rewrite (map_sum_delete f m k w Hk). lia.
  - rewrite map_sum_insert_None by done. lia.
Qed.

Lemma map_sum_insert_Some f m k v w :
  m !! k = Some w → map_sum f (<[k:=v]> m) + f w = map_sum f m + f v.
Proof. intros Hk. pose proof (map_sum_insert f m k v) as H'. by rewrite Hk in H'. Qed.

Lemma map_sum_lookup_le f m k v : m !! k = Some v → f v <= map_sum f m.
Proof. intros Hk. rewrite (map_sum_delete f m k v Hk). lia. Qed.

Lemma map_sum_ext f g m :
  map_Forall (λ _ v, f v = g v) m → map_sum f m = map_sum g m.
Proof.
  induction m as [|k v m Hk IH] using map_ind; intros Hall; [done|].
  apply map_Forall_insert in Hall as [Hv Hall]; [|done].
  rewrite !map_sum_insert_None by done. rewrite Hv, IH; done.
Qed.
End map_sum.

(** ** Lists taken two at a time *)
Lemma pairs_ind {A} (P : list A → Prop) :
  P [] → (∀ a, P [a]) → (∀ a b l, P l → P (a :: b :: l)) → ∀ l, P l.
Proof.
  intros H0 H1 H2 l. enough (P l ∧ ∀ a, P (a :: l)) as [? _] by done.
  induction l as [|b l [IH1 IH2]]; [auto|]. split; [auto|]. intros a. by apply H2.
Qed.

(** ** Sums over lists *)
Definition sum_of {A} (f : A → N) (l : list A) : N := foldr (λ x n, f x + n) 0 l.

Lemma sum_of_app {A} (f : A → N) l1 l2 :
  sum_of f (l1 ++ l2) = sum_of f l1 + sum_of f l2.
Proof. induction l1 as [|x l1 IH]; cbn; [done|]. unfold sum_of in *. rewrite IH. lia. Qed.

Lemma sum_of_perm {A} (f : A → N) l1 l2 : l1 ≡ₚ l2 → sum_of f l1 = sum_of f l2.
Proof. unfold sum_of. induction 1; cbn; lia. Qed.

(** ** Sums and entries as the code computes them *)
Section counters.
Context `{Build}.

(** [iter().map(f).sum()] *)
Fixpoint sum_checked {E A} (max : N) (f : A → N) (l : list A) (acc : N) : outcome E N :=
  match l with
  | [] => Ok acc
  | x :: l => acc ← u_add max acc (f x); sum_checked max f l acc
  end.

(** [*map.entry(k).or_insert(0) += v]: the entry is there even if the addition
    panics. *)
Definition bump {E S K} `{Countable K} (max : N) (gt : S → gmap K N) (st : gmap K N → S → S)
  (k : K) (v : N) : M E S unit :=
  s ← get;
  let old := default 0 (gt s !! k) in
  modify (λ s, st (<[k := old]> (gt s)) s) ;;
  new ← lift (u_add max old v);
  modify (λ s, st (<[k := new]> (gt s)) s).

Lemma sum_checked_ok {E A} max (f : A → N) l acc :
  acc + sum_of f l <= max → sum_checked (E:=E) max f l acc = Ok (acc + sum_of f l).
Proof.
  revert acc. induction l as [|x l IH]; intros acc Hle; cbn in *; [by rewrite N.add_0_r|].
  fold (sum_of f l) in *. rewrite u_add_ok by lia. cbn. rewrite IH by lia. f_equal. lia.
Qed.

Lemma bump_ok {E S K} `{Countable K} max (gt : S → gmap K N) st k v (s : S) u s' :
  bump (E:=E) max gt st k v s = (Ok u, s') →
  let old := default 0 (gt s !! k) in
  let s1 := st (<[k := old]> (gt s)) s in
  ∃ n, u_add (E:=E) max old v = Ok n ∧ s' = st (<[k := n]> (gt s1)) s1.
Proof.
  unfold bump. cbv [get modify lift mbind M_bind].
  destruct (u_add max (default 0 (gt s !! k)) v) as [n|e| |] eqn:Hn; try done.
  intros [= <- <-]. by exists n.
Qed.
End counters.

(** ** Locks

    A [parking_lot::RwLock] as one thread sees it: the value, and whether the
    thread holds the write guard.  [write()] on a lock whose guard is held
    never returns: the lock is not reentrant. *)
Record RwLock (A : Type) := mkRwLock { rw_val : A; rw_held : bool }.
Global Arguments mkRwLock {A} rw_val rw_held.
Global Arguments rw_val {A} r.
Global Arguments rw_held {A} r.

(** [let mut g = lock.write(); m(&mut g)], the guard dropped afterwards. *)
Definition with_write {E A B} (m : M E A B) : M E (RwLock A) B := λ l,
  if l.(rw_held) then (Blocked, l)
  else let r := m l.(rw_val) in (r.1, mkRwLock r.2 false).

(** Two components side by side. *)
Definition on_fst {E S T A} (m : M E S A) : M E (S * T) A :=
  zoom fst (λ s p, (s, p.2)) m.
Definition on_snd {E S T A} (m : M E T A) : M E (S * T) A :=
  zoom snd (λ t p, (p.1, t)) m.

(** Pointwise comparison of two maps bounds the sums. *)
Lemma map_sum_mono {K V W} `{Countable K} (f : V → N) (g : W → N) (m : gmap K V) (n : gmap K W) :
  (∀ k, default 0 (f <$> m !! k) <= default 0 (g <$> n !! k)) → map_sum f m <= map_sum g n.
Proof.
  revert n. induction m as [|k v m Hk IH] using map_ind; intros n Hle.
  - rewrite map_sum_empty. lia.
  - rewrite map_sum_insert_None by done.
    assert (map_sum f m <= map_sum g (delete k n)) as Hrest.
    { apply IH. intros k'. destruct (decide (k = k')) as [<-|Hne].
      - rewrite Hk. cbn. lia.
      - specialize (Hle k'). by rewrite lookup_insert_ne, <- (lookup_delete_ne n k k') in Hle. }
    specialize (Hle k). rewrite lookup_insert_eq in Hle. cbn in Hle.
    destruct (n !! k) as [w|] eqn:Hn; cbn in Hle.
    + rewrite (map_sum_delete g n k w Hn). lia.
    + rewrite (delete_id n k Hn) in Hrest. lia.
Qed.

Lemma map_sum_fmap {K V} `{Countable K} (f : V → N) (h : V → V) (m : gmap K V) :
  (∀ v, f (h v) = f v) → map_sum f (h <$> m) = map_sum f m.
Proof.
  intros Hf. induction m as [|k v m Hk IH] using map_ind.
  - by rewrite fmap_empty.
  - rewrite fmap_insert, !map_sum_insert_None; [by rewrite Hf, IH|done|].
    by rewrite lookup_fmap, Hk.
Qed.

(** ** Relations on parts of the state *)
Definition snd_rel {S T} (R : relation T) : relation (S * T) := λ s s', R s.2 s'.2.

#[export] Instance snd_rel_preorder {S T} (R : relation T) `{!PreOrder R} :
  PreOrder (snd_rel (S:=S) R).
Proof. split; unfold snd_rel; [intros s|intros s s' s'' H1 H2]; [reflexivity|by etrans]. Qed.

Lemma stable_on_fst {E S T A} (R : relation T) `{!PreOrder R} (m : M E S A) :
  stable (snd_rel R) (on_fst m).
Proof. intros s. unfold snd_rel. cbn. reflexivity. Qed.

Lemma stable_on_snd {E S T A} (R : relation T) (m : M E T A) :
  stable R m → stable (snd_rel (S:=S) R) (on_snd m).
Proof. intros Hm s. apply Hm. Qed.

(** Under a lock: the value is related, the guard is as it was. *)
Definition lock_rel {A} (R : relation A) : relation (RwLock A) := λ l l',
  R l.(rw_val) l'.(rw_val) ∧ l'.(rw_held) = l.(rw_held).

#[export] Instance lock_rel_preorder {A} (R : relation A) `{!PreOrder R} :
  PreOrder (lock_rel R).
Proof.
  split; unfold lock_rel.
  - intros l. split; reflexivity.
  - intros l l' l'' [H1 H2] [H3 H4]. split; [by etrans|congruence].
Qed.

Lemma stable_with_write {E A B} (R : relation A) `{!PreOrder R} (m : M E A B) :
  stable R m → stable (lock_rel R) (with_write m).
Proof.
  intros Hm [v []]; unfold lock_rel, with_write; cbn; split; done || apply Hm || reflexivity.
Qed.

#[export] Hint Resolve stable_on_fst stable_on_snd stable_with_write : stable.
