(* ===== verification/SysTypes.v ===== *)
(** * Types shared by the system contracts

    [crates/vm/src/system_contracts/types.rs], [error.rs], the well-known
    addresses of [mod.rs] and the event enums of [events.rs] the modelled
    contracts emit.

    A [[u8; 32]] (address, hash, job id) is the list of its bytes, a
    [TokenAmount] the [N] it holds.  An error that carries [hex::encode] of
    some bytes carries the bytes themselves. *)
From S2P Require Import Prelude.
From stdpp Require Import base gmap list strings pretty.
From Stdlib Require Import ZArith Lia.
#[local] Open Scope N_scope.

Abbreviation bytes := (list N).
Abbreviation Address := (list N).
Abbreviation Hash := (list N).
Abbreviation JobId := (list N).
Abbreviation TokenAmount := N.

(** [[b; 32]] *)
Definition bytes32 (b : N) : bytes := replicate 32 b.

Definition ZERO_ADDRESS : Address := bytes32 0.
Definition is_zero_address (addr : Address) : bool := bool_decide (addr = ZERO_ADDRESS).

(** Well-known addresses: all zeros but the last byte. *)
Definition system_address (b : N) : Address := replicate 31 0 ++ [b].
Definition JOB_REGISTRY_ADDRESS : Address := system_address 1.
Definition STAKING_MANAGER_ADDRESS : Address := system_address 2.
Definition COMPLIANCE_MODULE_ADDRESS : Address := system_address 3.
Definition GOVERNANCE_MODULE_ADDRESS : Address := system_address 4.
Definition TREASURY_ADDRESS : Address := system_address 5.
Definition BURN_ADDRESS : Address := bytes32 255.

#[global] Arguments bytes32 : simpl never.
#[global] Arguments ZERO_ADDRESS : simpl never.
#[global] Arguments BURN_ADDRESS : simpl never.
#[global] Arguments system_address : simpl never.

(** ** Jobs *)
Inductive JobStatus :=
| Submitted | Assigned | Proving | Verifying | Verified
| Settled | Expired | Cancelled | Failed | Disputed.

#[export] Instance JobStatus_eq_dec : EqDecision JobStatus.
Proof. solve_decision. Defined.

Definition is_terminal (s : JobStatus) : bool :=
  match s with
  | Settled | Expired | Cancelled | Failed => true
  | _ => false
  end.

Definition can_cancel (s : JobStatus) : bool :=
  match s with
  | Submitted | Assigned => true
  | _ => false
  end.

Definition JobStatus_is_active (s : JobStatus) : bool :=
  match s with
  | Submitted | Assigned | Proving | Verifying => true
  | _ => false
  end.

Definition JobStatus_from_u8 (v : N) : option JobStatus :=
  match v with
  | 0 => Some Submitted
  | 1 => Some Assigned
  | 2 => Some Proving
  | 3 => Some Verifying
  | 4 => Some Verified
  | 5 => Some Settled
  | 6 => Some Expired
  | 7 => Some Cancelled
  | 8 => Some Failed
  | 9 => Some Disputed
  | _ => None
  end.

(** [status as u8] ([#[repr(u8)]]). *)
Definition JobStatus_as_u8 (s : JobStatus) : N :=
  match s with
  | Submitted => 0 | Assigned => 1 | Proving => 2 | Verifying => 3 | Verified => 4
  | Settled => 5 | Expired => 6 | Cancelled => 7 | Failed => 8 | Disputed => 9
  end.

(** [fmt::Display] *)
Definition JobStatus_to_string (s : JobStatus) : string :=
  match s with
  | Submitted => "SUBMITTED"
  | Assigned => "ASSIGNED"
  | Proving => "PROVING"
  | Verifying => "VERIFYING"
  | Verified => "VERIFIED"
  | Settled => "SETTLED"
  | Expired => "EXPIRED"
  | Cancelled => "CANCELLED"
  | Failed => "FAILED"
  | Disputed => "DISPUTED"
  end.

Inductive JobPriority := Low | Normal | High | Urgent.

#[export] Instance JobPriority_eq_dec : EqDecision JobPriority.
Proof. solve_decision. Defined.

Inductive VerificationMethod := TeeAttestationMethod | ZkProofMethod | Hybrid | ReExecution.

#[export] Instance VerificationMethod_eq_dec : EqDecision VerificationMethod.
Proof. solve_decision. Defined.

Definition VerificationMethod_as_u8 (m : VerificationMethod) : N :=
  match m with
  | TeeAttestationMethod => 0
  | ZkProofMethod => 1
  | Hybrid => 2
  | ReExecution => 3
  end.

(** [{:?}] *)
Definition VerificationMethod_debug (m : VerificationMethod) : string :=
  match m with
  | TeeAttestationMethod => "TeeAttestation"
  | ZkProofMethod => "ZkProof"
  | Hybrid => "Hybrid"
  | ReExecution => "ReExecution"
  end.

(** ** Enterprise-mode verification policy *)
Record EnterpriseModeConfig := {
  ent_enabled : bool;
  ent_required_method : VerificationMethod;
  ent_allow_zkml_fallback : bool;
  ent_require_registered_circuit : bool;
  ent_require_domain_binding : bool;
}.

Definition EnterpriseModeConfig_default : EnterpriseModeConfig := {|
  ent_enabled := true;
  ent_required_method := Hybrid;
  ent_allow_zkml_fallback := false;
  ent_require_registered_circuit := true;
  ent_require_domain_binding := true;
|}.

Definition validate_method (c : EnterpriseModeConfig) (method : VerificationMethod)
  : outcome string unit :=
  if negb c.(ent_enabled) then Ok tt
  else if negb (bool_decide (method = c.(ent_required_method))) then
    Err ("enterprise mode requires " +:+ VerificationMethod_debug c.(ent_required_method)
         +:+ " verification, got " +:+ VerificationMethod_debug method)
  else Ok tt.

(** ** Proofs of computation *)
Inductive TeeType := IntelSgx | AwsNitro | AmdSev.

Record TeeAttestation := {
  tee_type : TeeType;
  tee_attestation_bytes : bytes;
  tee_measurement : Hash;
  tee_timestamp : N;
}.

Inductive ZkSystem := Groth16 | Plonk | Stark | Ezkl | Halo2.

Record ZkProof := {
  zk_system : ZkSystem;
  zk_proof_bytes : bytes;
  zk_public_inputs : list Hash;
  zk_vk_hash : Hash;
}.

Record ProofMetadata := {
  execution_time_ms : N;
  memory_used : N;
  inference_ops : N;
  complexity : N;
}.

Record Proof := {
  pf_method : VerificationMethod;
  pf_tee_attestation : option TeeAttestation;
  pf_zk_proof : option ZkProof;
  pf_output_hash : Hash;
  pf_metadata : ProofMetadata;
}.

Definition is_enterprise_compliant (p : Proof) : bool :=
  bool_decide (p.(pf_method) = Hybrid)
  && bool_decide (is_Some p.(pf_tee_attestation))
  && bool_decide (is_Some p.(pf_zk_proof)).

(** ** Stakes *)
Inductive StakeRole := Validator | ComputeNode | Delegator.

#[export] Instance StakeRole_eq_dec : EqDecision StakeRole.
Proof. solve_decision. Defined.

Definition StakeRole_min_stake (r : StakeRole) : TokenAmount :=
  match r with
  | Validator => 10000000000000000000000
  | ComputeNode => 50000000000000000000000
  | Delegator => 100000000000000000000
  end.

(** ** Call parameters and results *)
Record ComplianceTag := {
  tag_name : string;
  tag_value : option string;
}.

Inductive ComplianceRequirement :=
| ReqGdprEu | ReqHipaaUs | ReqOfacSanctions | ReqCcpaCa
| ReqPdpaSg | ReqUaeDpl | ReqBaselIii | ReqAml.

Record SubmitJobParams := {
  sj_requester : Address;
  sj_model_hash : Hash;
  sj_input_hash : Hash;
  sj_max_bid : TokenAmount;
  sj_bid_amount : TokenAmount;
  sj_verification_method : VerificationMethod;
  sj_priority : JobPriority;
  sj_sla_timeout : N;
  sj_tags : list ComplianceTag;
  sj_encrypted_input : option bytes;
  sj_callback : option Address;
  sj_data_provider : option Address;
  sj_required_compliance : list ComplianceRequirement;
  sj_jurisdiction : option string;
}.

Record SubmitProofParams := {
  sp_job_id : JobId;
  sp_prover : Address;
  sp_proof : Proof;
  sp_result : bytes;
}.

Record JobSubmitResult := {
  jsr_job_id : JobId;
  jsr_escrowed : TokenAmount;
  jsr_sla_deadline : N;
}.

Record JobAssignResult := {
  jar_job_id : JobId;
  jar_prover : Address;
  jar_assigned_at : N;
}.

Record ProofSubmitResult := {
  psr_job_id : JobId;
  psr_verified : bool;
  psr_prover_reward : TokenAmount;
  psr_validator_reward : TokenAmount;
  psr_burned : TokenAmount;
}.

Record JobCancelResult := {
  jcr_job_id : JobId;
  jcr_refunded : TokenAmount;
  jcr_cancellation_fee : TokenAmount;
}.

(** [u64::to_le_bytes], [u32::to_le_bytes], ... for [n] bytes. *)
Fixpoint to_le_bytes (n : nat) (z : N) : bytes :=
  match n with
  | O => []
  | S n => z mod 256 :: to_le_bytes n (z / 256)
  end.

(** The UTF-8 bytes of an ASCII literal. *)
Fixpoint string_bytes (s : string) : bytes :=
  match s with
  | EmptyString => []
  | String c s => Ascii.N_of_ascii c :: string_bytes s
  end.

(** The bytes [generate_job_id] feeds to SHA-256, and the job id; SHA-256 is
    the [sha2] crate's, a parameter. *)
Definition job_id_preimage (requester : Address) (model_hash input_hash : Hash) (nonce : N)
  : bytes :=
  string_bytes "aethelred-job-v1:" ++ requester ++ model_hash ++ input_hash
  ++ to_le_bytes 8 nonce.

Definition generate_job_id (sha256 : bytes → Hash)
    (requester : Address) (model_hash input_hash : Hash) (nonce : N) : JobId :=
  sha256 (job_id_preimage requester model_hash input_hash nonce).

(** ** Block context *)
Record BlockContext := {
  ctx_height : N;
  ctx_timestamp : N;
  ctx_slot : N;
  ctx_proposer : Address;
  ctx_gas_limit : N;
  ctx_gas_used : N;
}.

Definition BlockContext_default : BlockContext := {|
  ctx_height := 0;
  ctx_timestamp := 0;
  ctx_slot := 0;
  ctx_proposer := bytes32 0;
  ctx_gas_limit := 30000000;
  ctx_gas_used := 0;
|}.

(** ** Errors *)
Inductive SystemContractError :=
| JobNotFound (job_id : bytes)
| InvalidJobStatus (expected actual : string)
| UnauthorizedProver (assigned attempted : bytes)
| SlaViolation (job_id : bytes) (deadline current : N)
| InsufficientBid (minimum actual : TokenAmount)
| JobAlreadyAssigned (job_id prover : bytes)
| CannotCancelJob (job_id : bytes) (status : JobStatus)
| OnlyRequesterCanCancel (requester caller : bytes)
| InsufficientStake (required actual : TokenAmount)
| StakerNotFound (address : bytes)
| CannotUnstake (requested available : TokenAmount)
| UnstakeInProgress (unlock_time : N)
| NothingToWithdraw
| SlashingInProgress
| InvalidStakeRole
| SanctionedEntity (entity_type : string) (address : bytes)
| MissingCertification (entity certification : string)
| CertificationRequired (tag certification : string)
| JurisdictionBlocked (reason : string)
| ComplianceModuleInactive (module : string)
| InvalidCertification (reason : string)
| ExpiredCertification (entity : string) (expired_at : N)
| InsufficientBalance (required available : TokenAmount)
| TransferFailed (reason : string)
| InvalidAmount (reason : string)
| AccountLockedError (address : bytes) (unlock_time : N)
| EscrowNotFound (escrow_id : bytes)
| InvalidProof (reason : string)
| TeeVerificationFailed (reason : string)
| ZkVerificationFailed (reason : string)
| MeasurementMismatch (expected actual : string)
| ProofMethodMismatch (required actual : VerificationMethod)
| SettlementFailed (reason : string)
| InvalidConfig (reason : string)
| GenesisError (reason : string)
| StateCorruption (reason : string)
| Unauthorized (caller : string)
| GovernanceRequired
| InvalidSignature (reason : string)
| InsufficientBond (required provided : TokenAmount)
| NodeInCooldown (until : N)
| NoBondFound
| BondExpired
| TokenomicsError (reason : string)
| ComplianceError (reason : string)
| SlashingError (reason : string)
| InternalError (reason : string)
| SerializationError (reason : string)
| OverflowError (reason : string).

Abbreviation Result A := (outcome SystemContractError A).

Definition error_code (e : SystemContractError) : N :=
  match e with
  | JobNotFound _ => 1000
  | InvalidJobStatus _ _ => 1001
  | UnauthorizedProver _ _ => 1002
  | SlaViolation _ _ _ => 1003
  | InsufficientBid _ _ => 1004
  | JobAlreadyAssigned _ _ => 1005
  | CannotCancelJob _ _ => 1006
  | OnlyRequesterCanCancel _ _ => 1007
  | InsufficientStake _ _ => 1100
  | StakerNotFound _ => 1101
  | CannotUnstake _ _ => 1102
  | UnstakeInProgress _ => 1103
  | NothingToWithdraw => 1104
  | SlashingInProgress => 1105
  | InvalidStakeRole => 1106
  | SanctionedEntity _ _ => 1200
  | MissingCertification _ _ => 1201
  | CertificationRequired _ _ => 1202
  | JurisdictionBlocked _ => 1203
  | ComplianceModuleInactive _ => 1204
  | InvalidCertification _ => 1205
  | ExpiredCertification _ _ => 1206
  | InsufficientBalance _ _ => 1300
  | TransferFailed _ => 1301
  | InvalidAmount _ => 1302
  | AccountLockedError _ _ => 1303
  | EscrowNotFound _ => 1304
  | InvalidProof _ => 1400
  | TeeVerificationFailed _ => 1401
  | ZkVerificationFailed _ => 1402
  | MeasurementMismatch _ _ => 1403
  | ProofMethodMismatch _ _ => 1404
  | SettlementFailed _ => 1405
  | InvalidConfig _ => 1500
  | GenesisError _ => 1501
  | StateCorruption _ => 1502
  | Unauthorized _ => 1600
  | GovernanceRequired => 1601
  | InvalidSignature _ => 1602
  | InsufficientBond _ _ => 1700
  | NodeInCooldown _ => 1701
  | NoBondFound => 1702
  | BondExpired => 1703
  | TokenomicsError _ => 1704
  | ComplianceError _ => 1705
  | SlashingError _ => 1706
  | InternalError _ => 1900
  | SerializationError _ => 1901
  | OverflowError _ => 1902
  end.

Definition is_recoverable (e : SystemContractError) : bool :=
  match e with
  | StateCorruption _ | InternalError _ | GenesisError _ => false
  | _ => true
  end.

Definition should_slash (e : SystemContractError) : bool :=
  match e with
  | SlaViolation _ _ _ | InvalidProof _ | MeasurementMismatch _ _ => true
  | _ => false
  end.

(** ** Events *)
Inductive BankEvent :=
| Transfer (from to : Address) (amount : TokenAmount) (block_height : N)
| EscrowCreated (escrow_id : Hash) (from : Address) (amount : TokenAmount)
    (release_conditions : string) (block_height : N)
| EscrowReleased (escrow_id : Hash) (to : Address) (amount : TokenAmount) (block_height : N)
| EscrowRefunded (escrow_id : Hash) (to : Address) (amount : TokenAmount) (reason : string)
    (block_height : N)
| AccountLocked (account : Address) (until : N) (reason : string) (block_height : N)
| AccountUnlocked (account : Address) (block_height : N).

Inductive StakingEvent :=
| Staked (staker : Address) (amount : TokenAmount) (role : StakeRole)
    (total_stake : TokenAmount) (block_height : N)
| UnstakeInitiated (staker : Address) (amount : TokenAmount) (unlock_time block_height : N)
| StakeWithdrawn (staker : Address) (amount : TokenAmount) (block_height : N)
| StakeSlashed (staker : Address) (amount : TokenAmount) (reason : string)
    (job_id : option JobId) (block_height : N)
| RewardsDistributed (staker : Address) (amount : TokenAmount) (source : string)
    (block_height : N)
| TokensBurned (amount : TokenAmount) (reason : string) (block_height : N)
| UtilizationUpdated (old_utilization new_utilization new_burn_rate block_height : N)
| Delegated (delegator validator : Address) (amount : TokenAmount) (block_height : N)
| Undelegated (delegator validator : Address) (amount : TokenAmount) (block_height : N)
| ValidatorJailed (validator : Address) (reason : string) (until block_height : N)
| ValidatorUnjailed (validator : Address) (block_height : N).

Inductive JobEvent :=
| JobSubmitted (job_id : JobId) (requester : Address) (model_hash : Hash)
    (bid_amount : TokenAmount) (sla_deadline block_height : N)
| JobAssigned (job_id : JobId) (prover : Address) (assigned_at block_height : N)
| JobStarted (job_id : JobId) (prover : Address) (started_at : N)
| ProofSubmitted (job_id : JobId) (prover : Address) (output_hash : Hash)
    (verification_method block_height : N)
| JobVerified (job_id : JobId) (prover : Address) (verified_at : N)
| JobSettled (job_id : JobId) (prover requester : Address)
    (prover_reward validator_reward burned : TokenAmount) (block_height : N)
| JobExpired (job_id : JobId) (prover : Address) (deadline expired_at : N)
    (slashed_amount : TokenAmount)
| JobCancelled (job_id : JobId) (requester : Address)
    (refunded cancellation_fee : TokenAmount) (block_height : N)
| JobFailed (job_id : JobId) (prover : Address) (reason : string)
    (slashed_amount : TokenAmount)
| JobDisputed (job_id : JobId) (disputer : Address) (reason : string)
    (dispute_bond : TokenAmount)
| DisputeResolved (job_id : JobId) (winner : Address) (resolution : string).

Definition JobEvent_job_id (e : JobEvent) : JobId :=
  match e with
  | JobSubmitted job_id _ _ _ _ _ => job_id
  | JobAssigned job_id _ _ _ => job_id
  | JobStarted job_id _ _ => job_id
  | ProofSubmitted job_id _ _ _ _ => job_id
  | JobVerified job_id _ _ => job_id
  | JobSettled job_id _ _ _ _ _ _ => job_id
  | JobExpired job_id _ _ _ _ => job_id
  | JobCancelled job_id _ _ _ _ => job_id
  | JobFailed job_id _ _ _ => job_id
  | JobDisputed job_id _ _ _ => job_id
  | DisputeResolved job_id _ _ => job_id
  end.

(** ** Facts *)
Lemma JobStatus_u8_roundtrip s : JobStatus_from_u8 (JobStatus_as_u8 s) = Some s.
Proof. by destruct s. Qed.

Lemma terminal_not_active s : is_terminal s = true → JobStatus_is_active s = false.
Proof. by destruct s. Qed.

Lemma length_to_le_bytes n z : length (to_le_bytes n z) = n.
Proof. revert z. induction n as [|n IH]; intros z; cbn; [done|]. by rewrite IH. Qed.

(** Little-endian decoding. *)
Fixpoint of_le_bytes (bs : bytes) : N :=
  match bs with
  | [] => 0
  | b :: bs => b + 256 * of_le_bytes bs
  end.

Definition of_be_bytes (bs : bytes) : N := of_le_bytes (reverse bs).

Lemma of_to_le_bytes n z : z < 256 ^ N.of_nat n → of_le_bytes (to_le_bytes n z) = z.
Proof.
  revert z. induction n as [|n IH]; intros z Hz; cbn [to_le_bytes of_le_bytes].
  - cbn in Hz. lia.
  - rewrite IH.
    + rewrite N.add_comm. symmetry. apply N.div_mod'.
    + rewrite Nat2N.inj_succ, N.pow_succ_r' in Hz. by apply N.Div0.div_lt_upper_bound.
Qed.

Lemma to_le_bytes_inj n z z' :
  z < 256 ^ N.of_nat n → z' < 256 ^ N.of_nat n →
  to_le_bytes n z = to_le_bytes n z' → z = z'.
Proof. intros Hz Hz' Heq. by rewrite <- (of_to_le_bytes n z), Heq, of_to_le_bytes. Qed.

(** The preimage of a job id determines the requester and the nonce. *)
Lemma job_id_preimage_inj r m i n r' m' i' n' :
  length r = 32%nat → length m = 32%nat → length i = 32%nat →
  length r' = 32%nat → length m' = 32%nat → length i' = 32%nat →
  n <= U64_MAX → n' <= U64_MAX →
  job_id_preimage r m i n = job_id_preimage r' m' i' n' →
  r = r' ∧ m = m' ∧ i = i' ∧ n = n'.
Proof.
  intros ? ? ? ? ? ? Hn Hn' Heq. unfold job_id_preimage in Heq.
  apply app_inv_head in Heq.
  apply app_inj_1 in Heq as [-> Heq]; [|congruence].
  apply app_inj_1 in Heq as [-> Heq]; [|congruence].
  apply app_inj_1 in Heq as [-> Heq]; [|congruence].
  apply to_le_bytes_inj in Heq; [done|cbn; lia..].
Qed.
