(* ===== verification/Bank.v ===== *)
(** * The bank

    [crates/vm/src/system_contracts/bank.rs]: balances, locks, escrows, burns
    and nonces.  The first part is the data model and one definition per
    method; the second part proves what the other contracts rely on. *)
From S2P Require Import Prelude SysTypes.
From stdpp Require Import base gmap list strings pretty.
From Stdlib Require Import ZArith Lia.
#[local] Open Scope N_scope.

(** ** Configuration and state *)
Record BankConfig := {
  bc_symbol : string;
  bc_name : string;
  bc_decimals : N;
  bc_initial_supply : TokenAmount;
  bc_max_supply : TokenAmount;
}.

Definition BankConfig_default : BankConfig := {|
  bc_symbol := "AETHEL";
  bc_name := "Aethelred Token";
  bc_decimals := 18;
  bc_initial_supply := 1000000000000000000000000000;
  bc_max_supply := 0;
|}.

Record AccountState := {
  acc_balance : TokenAmount;
  acc_locked : TokenAmount;
  acc_nonce : N;
  acc_locked_until : N;
}.

Definition AccountState_default : AccountState :=
  {| acc_balance := 0; acc_locked := 0; acc_nonce := 0; acc_locked_until := 0 |}.

Definition available (a : AccountState) : TokenAmount := sat_sub a.(acc_balance) a.(acc_locked).

Definition is_locked (a : AccountState) (current_time : N) : bool :=
  bool_decide (current_time < a.(acc_locked_until)).

Record Escrow := {
  esc_id : Hash;
  esc_from : Address;
  esc_to : Address;
  esc_amount : TokenAmount;
  esc_created_at : N;
  esc_expires_at : N;
  esc_conditions : bytes;
  esc_released : bool;
}.

Record Bank := {
  bk_config : BankConfig;
  bk_accounts : gmap Address AccountState;
  bk_escrows : gmap Hash Escrow;
  bk_total_supply : TokenAmount;
  bk_total_burned : TokenAmount;
  bk_events : list BankEvent;
  bk_current_block : N;
}.

Abbreviation BankM := (M SystemContractError Bank).

(** Field assignments. *)
Definition set_balance (v : TokenAmount) (a : AccountState) : AccountState :=
  {| acc_balance := v; acc_locked := a.(acc_locked); acc_nonce := a.(acc_nonce);
     acc_locked_until := a.(acc_locked_until) |}.
Definition set_locked (v : TokenAmount) (a : AccountState) : AccountState :=
  {| acc_balance := a.(acc_balance); acc_locked := v; acc_nonce := a.(acc_nonce);
     acc_locked_until := a.(acc_locked_until) |}.
Definition set_nonce (v : N) (a : AccountState) : AccountState :=
  {| acc_balance := a.(acc_balance); acc_locked := a.(acc_locked); acc_nonce := v;
     acc_locked_until := a.(acc_locked_until) |}.
Definition set_locked_until (v : N) (a : AccountState) : AccountState :=
  {| acc_balance := a.(acc_balance); acc_locked := a.(acc_locked);
     acc_nonce := a.(acc_nonce); acc_locked_until := v |}.
Definition set_released (e : Escrow) : Escrow :=
  {| esc_id := e.(esc_id); esc_from := e.(esc_from); esc_to := e.(esc_to);
     esc_amount := e.(esc_amount); esc_created_at := e.(esc_created_at);
     esc_expires_at := e.(esc_expires_at); esc_conditions := e.(esc_conditions);
     esc_released := true |}.

Definition with_accounts (v : gmap Address AccountState) (b : Bank) : Bank :=
  {| bk_config := b.(bk_config); bk_accounts := v; bk_escrows := b.(bk_escrows);
     bk_total_supply := b.(bk_total_supply); bk_total_burned := b.(bk_total_burned);
     bk_events := b.(bk_events); bk_current_block := b.(bk_current_block) |}.
Definition with_escrows (v : gmap Hash Escrow) (b : Bank) : Bank :=
  {| bk_config := b.(bk_config); bk_accounts := b.(bk_accounts); bk_escrows := v;
     bk_total_supply := b.(bk_total_supply); bk_total_burned := b.(bk_total_burned);
     bk_events := b.(bk_events); bk_current_block := b.(bk_current_block) |}.
Definition with_supply (supply burned : TokenAmount) (b : Bank) : Bank :=
  {| bk_config := b.(bk_config); bk_accounts := b.(bk_accounts);
     bk_escrows := b.(bk_escrows); bk_total_supply := supply; bk_total_burned := burned;
     bk_events := b.(bk_events); bk_current_block := b.(bk_current_block) |}.
Definition with_events (v : list BankEvent) (b : Bank) : Bank :=
  {| bk_config := b.(bk_config); bk_accounts := b.(bk_accounts);
     bk_escrows := b.(bk_escrows); bk_total_supply := b.(bk_total_supply);
     bk_total_burned := b.(bk_total_burned); bk_events := v;
     bk_current_block := b.(bk_current_block) |}.

(** [self.accounts.get_mut(a)]: the assignment goes back into the map. *)
Definition put_account (addr : Address) (a : AccountState) (b : Bank) : Bank :=
  with_accounts (<[addr := a]> b.(bk_accounts)) b.

Definition account_or_default (addr : Address) (b : Bank) : AccountState :=
  default AccountState_default (b.(bk_accounts) !! addr).

(** [self.accounts.entry(a).or_default()]: the default account is inserted
    even when the caller then returns an error. *)
Definition entry_or_default (addr : Address) : BankM AccountState :=
  b ← get;
  let a := account_or_default addr b in
  put (put_account addr a b) ;;
  mret a.

Definition push_event (e : BankEvent) : BankM unit :=
  modify (λ b, with_events (b.(bk_events) ++ [e]) b).

(** ** Construction *)
Definition Bank_new (config : BankConfig) : Bank := {|
  bk_config := config;
  bk_accounts := ∅;
  bk_escrows := ∅;
  bk_total_supply := config.(bc_initial_supply);
  bk_total_burned := 0;
  bk_events := [];
  bk_current_block := 0;
|}.

(** [TokenAllocation] of [mod.rs]; the vesting schedule is not read. *)
Record VestingScheduleG := {
  vsg_cliff_duration : N;
  vsg_total_duration : N;
  vsg_tge_amount : TokenAmount;
}.

Record TokenAllocation := {
  ta_address : Address;
  ta_balance : TokenAmount;
  ta_vesting : option VestingScheduleG;
}.

(** The loop of [Bank::from_genesis]. *)
Definition apply_allocation (b : Bank) (alloc : TokenAllocation) : Bank :=
  put_account alloc.(ta_address)
    (set_balance alloc.(ta_balance) (account_or_default alloc.(ta_address) b)) b.

Definition Bank_from_genesis (allocations : list TokenAllocation) : Bank :=
  fold_left apply_allocation allocations (Bank_new BankConfig_default).

Definition set_block (height : N) (b : Bank) : Bank :=
  {| bk_config := b.(bk_config); bk_accounts := b.(bk_accounts);
     bk_escrows := b.(bk_escrows); bk_total_supply := b.(bk_total_supply);
     bk_total_burned := b.(bk_total_burned); bk_events := b.(bk_events);
     bk_current_block := height |}.

Definition Bank_drain_events : BankM (list BankEvent) :=
  b ← get;
  put (with_events [] b) ;;
  mret b.(bk_events).

(** ** Queries *)
Definition balance_of (b : Bank) (address : Address) : TokenAmount :=
  default 0 (acc_balance <$> b.(bk_accounts) !! address).

Definition available_balance (b : Bank) (address : Address) : TokenAmount :=
  default 0 (available <$> b.(bk_accounts) !! address).

Definition get_locked_balance (b : Bank) (address : Address) : TokenAmount :=
  default 0 (acc_locked <$> b.(bk_accounts) !! address).

Definition nonce_of (b : Bank) (address : Address) : N :=
  default 0 (acc_nonce <$> b.(bk_accounts) !! address).

(** ** Transfers *)
Definition transfer (from to : Address) (amount : TokenAmount) : BankM unit :=
  ensure (negb (bool_decide (amount = 0))) (InvalidAmount "Amount must be > 0") ;;
  sender ← entry_or_default from;
  ensure (negb (bool_decide (available sender < amount)))
    (InsufficientBalance amount (available sender)) ;;
  height ← gets bk_current_block;
  ensure (negb (is_locked sender height))
    (AccountLockedError from sender.(acc_locked_until)) ;;
  modify (put_account from (set_balance (sat_sub sender.(acc_balance) amount) sender)) ;;
  (if bool_decide (to = BURN_ADDRESS) then
     modify (λ b, with_supply (sat_sub b.(bk_total_supply) amount)
                    (sat_add U128_MAX b.(bk_total_burned) amount) b)
   else
     receiver ← entry_or_default to;
     modify (put_account to
       (set_balance (sat_add U128_MAX receiver.(acc_balance) amount) receiver))) ;;
  push_event (Transfer from to amount height).

Definition mint (to : Address) (amount : TokenAmount) : BankM unit :=
  if bool_decide (amount = 0) then mret tt else
  b ← get;
  let max_supply := b.(bk_config).(bc_max_supply) in
  ensure (negb (bool_decide (0 < max_supply)
                && bool_decide (max_supply < sat_add U128_MAX b.(bk_total_supply) amount)))
    (InvalidAmount ("Would exceed max supply: " +:+ pretty b.(bk_total_supply) +:+ " + "
       +:+ pretty amount +:+ " > " +:+ pretty max_supply)) ;;
  account ← entry_or_default to;
  modify (put_account to (set_balance (sat_add U128_MAX account.(acc_balance) amount) account)) ;;
  modify (λ b, with_supply (sat_add U128_MAX b.(bk_total_supply) amount)
                 b.(bk_total_burned) b).

Definition burn (from : Address) (amount : TokenAmount) : BankM unit :=
  transfer from BURN_ADDRESS amount.

(** ** Locks *)
Definition lock (address : Address) (amount : TokenAmount) : BankM unit :=
  b ← get;
  account ← ok_or (b.(bk_accounts) !! address) (InsufficientBalance amount 0);
  ensure (negb (bool_decide (available account < amount)))
    (InsufficientBalance amount (available account)) ;;
  modify (put_account address (set_locked (sat_add U128_MAX account.(acc_locked) amount) account)).

Definition unlock (address : Address) (amount : TokenAmount) : BankM unit :=
  b ← get;
  account ← ok_or (b.(bk_accounts) !! address) (StakerNotFound address);
  ensure (negb (bool_decide (account.(acc_locked) < amount)))
    (CannotUnstake amount account.(acc_locked)) ;;
  modify (put_account address (set_locked (sat_sub account.(acc_locked) amount) account)).

Definition lock_account (address : Address) (until : N) (reason : string) : BankM unit :=
  account ← entry_or_default address;
  modify (put_account address (set_locked_until until account)) ;;
  height ← gets bk_current_block;
  push_event (AccountLocked address until reason height).

Definition unlock_account (address : Address) : BankM unit :=
  b ← get;
  account ← ok_or (b.(bk_accounts) !! address) (StakerNotFound address);
  modify (put_account address (set_locked_until 0 account)) ;;
  push_event (AccountUnlocked address b.(bk_current_block)).

(** ** Escrows *)
Definition create_escrow (id : Hash) (from to : Address) (amount : TokenAmount)
    (expires_at : N) (conditions : bytes) : BankM unit :=
  b ← get;
  ensure (negb (bool_decide (is_Some (b.(bk_escrows) !! id))))
    (InvalidAmount "Escrow already exists") ;;
  lock from amount ;;
  height ← gets bk_current_block;
  modify (λ b, with_escrows (<[id := {|
      esc_id := id; esc_from := from; esc_to := to; esc_amount := amount;
      esc_created_at := height; esc_expires_at := expires_at;
      esc_conditions := conditions; esc_released := false |}]> b.(bk_escrows)) b) ;;
  push_event (EscrowCreated id from amount "custom" height).

(** The preamble [release_escrow] and [refund_escrow] share: the escrow's
    amount and owner, if it exists and is not released. *)
Definition pending_escrow (id : Hash) : BankM (TokenAmount * Address) :=
  b ← get;
  escrow ← ok_or (b.(bk_escrows) !! id) (EscrowNotFound id);
  ensure (negb escrow.(esc_released)) (EscrowNotFound id) ;;
  mret (escrow.(esc_amount), escrow.(esc_from)).

(** [if let Some(escrow) = self.escrows.get_mut(id) { escrow.released = true; }] *)
Definition mark_released (id : Hash) : BankM unit :=
  modify (λ b, with_escrows (alter set_released id b.(bk_escrows)) b).

Definition release_escrow (id : Hash) (to : Address) : BankM TokenAmount :=
  '(amount, from) ← pending_escrow id;
  unlock from amount ;;
  b ← get;
  (* [self.accounts.get_mut(&from).unwrap()] *)
  sender ← lift (from_option Ok Panic (b.(bk_accounts) !! from));
  modify (put_account from (set_balance (sat_sub sender.(acc_balance) amount) sender)) ;;
  receiver ← entry_or_default to;
  modify (put_account to
    (set_balance (sat_add U128_MAX receiver.(acc_balance) amount) receiver)) ;;
  mark_released id ;;
  height ← gets bk_current_block;
  push_event (EscrowReleased id to amount height) ;;
  mret amount.

Definition refund_escrow (id : Hash) (reason : string) : BankM TokenAmount :=
  '(amount, from) ← pending_escrow id;
  unlock from amount ;;
  mark_released id ;;
  height ← gets bk_current_block;
  push_event (EscrowRefunded id from amount reason height) ;;
  mret amount.

(** ** Slashing and nonces *)
Definition Bank_slash (address : Address) (amount : TokenAmount) : BankM TokenAmount :=
  b ← get;
  account ← ok_or (b.(bk_accounts) !! address) (StakerNotFound address);
  let slash_amount := N.min amount account.(acc_locked) in
  if bool_decide (slash_amount = 0) then mret 0 else
  modify (put_account address
    (set_balance (sat_sub account.(acc_balance) slash_amount)
       (set_locked (sat_sub account.(acc_locked) slash_amount) account))) ;;
  modify (λ b, with_supply (sat_sub b.(bk_total_supply) slash_amount)
                 (sat_add U128_MAX b.(bk_total_burned) slash_amount) b) ;;
  mret slash_amount.

Definition increment_nonce `{Build} (address : Address) : BankM unit :=
  account ← entry_or_default address;
  nonce ← lift (u_add U64_MAX account.(acc_nonce) 1);
  modify (put_account address (set_nonce nonce account)).

(** * Properties *)

(** ** Evaluation of the operations

    Each operation as one conditional on the starting state: the clients'
    proofs rewrite with these instead of unfolding the monad. *)
Definition credit (to : Address) (amount : TokenAmount) (b : Bank) : Bank :=
  put_account to
    (set_balance (sat_add U128_MAX (account_or_default to b).(acc_balance) amount)
       (account_or_default to b)) b.

Definition debit (from : Address) (amount : TokenAmount) (b : Bank) : Bank :=
  put_account from
    (set_balance (sat_sub (account_or_default from b).(acc_balance) amount)
       (account_or_default from b)) b.

Definition burn_supply (amount : TokenAmount) (b : Bank) : Bank :=
  with_supply (sat_sub b.(bk_total_supply) amount)
    (sat_add U128_MAX b.(bk_total_burned) amount) b.

Definition log (e : BankEvent) (b : Bank) : Bank := with_events (b.(bk_events) ++ [e]) b.

Definition touch (addr : Address) (b : Bank) : Bank :=
  put_account addr (account_or_default addr b) b.

Definition transfer_post (from to : Address) (amount : TokenAmount) (b : Bank) : Bank :=
  log (Transfer from to amount b.(bk_current_block))
    (if bool_decide (to = BURN_ADDRESS) then burn_supply amount (debit from amount b)
     else credit to amount (debit from amount b)).

Lemma account_or_default_put addr a b : account_or_default addr (put_account addr a b) = a.
Proof. unfold account_or_default. cbn. by rewrite lookup_insert_eq. Qed.

Lemma account_or_default_put_ne addr addr' a b :
  addr ≠ addr' → account_or_default addr' (put_account addr a b) = account_or_default addr' b.
Proof. intros. unfold account_or_default. cbn. by rewrite lookup_insert_ne. Qed.

Lemma account_or_default_touch addr addr' b :
  account_or_default addr' (touch addr b) = account_or_default addr' b.
Proof.
  unfold touch. destruct (decide (addr = addr')) as [->|].
  - by rewrite account_or_default_put.
  - by rewrite account_or_default_put_ne.
Qed.

Lemma account_lookup addr b a :
  b.(bk_accounts) !! addr = Some a → account_or_default addr b = a.
Proof. intros H. unfold account_or_default. by rewrite H. Qed.

Lemma put_account_twice addr a a' b :
  put_account addr a (put_account addr a' b) = put_account addr a b.
Proof. unfold put_account, with_accounts. cbn. by rewrite insert_insert_eq. Qed.

Lemma transfer_eq from to amount b :
  transfer from to amount b =
    let sender := account_or_default from b in
    if bool_decide (amount = 0) then (Err (InvalidAmount "Amount must be > 0"), b)
    else if bool_decide (available sender < amount) then
      (Err (InsufficientBalance amount (available sender)), touch from b)
    else if is_locked sender b.(bk_current_block) then
      (Err (AccountLockedError from sender.(acc_locked_until)), touch from b)
    else (Ok tt, transfer_post from to amount b).
Proof.
  unfold transfer, entry_or_default, push_event, transfer_post, log, touch. mrun.
  destruct (bool_decide (amount = 0)); cbn; [done|].
  destruct (bool_decide (available _ < amount)); cbn; [done|].
  destruct (is_locked _ _); cbn; [done|].
  unfold debit, credit, burn_supply. rewrite !put_account_twice.
  destruct (bool_decide (to = BURN_ADDRESS)); cbn; [done|].
  by rewrite !put_account_twice.
Qed.

Lemma lock_eq addr amount b :
  lock addr amount b =
    match b.(bk_accounts) !! addr with
    | None => (Err (InsufficientBalance amount 0), b)
    | Some a =>
        if bool_decide (available a < amount)
        then (Err (InsufficientBalance amount (available a)), b)
        else (Ok tt, put_account addr (set_locked (sat_add U128_MAX a.(acc_locked) amount) a) b)
    end.
Proof.
  unfold lock. mrun. destruct (_ !! addr) as [a|]; cbn; [|done].
  by destruct (bool_decide _).
Qed.

Lemma unlock_eq addr amount b :
  unlock addr amount b =
    match b.(bk_accounts) !! addr with
    | None => (Err (StakerNotFound addr), b)
    | Some a =>
        if bool_decide (a.(acc_locked) < amount)
        then (Err (CannotUnstake amount a.(acc_locked)), b)
        else (Ok tt, put_account addr (set_locked (sat_sub a.(acc_locked) amount) a) b)
    end.
Proof.
  unfold unlock. mrun. destruct (_ !! addr) as [a|]; cbn; [|done].
  by destruct (bool_decide _).
Qed.

Lemma slash_eq addr amount b :
  Bank_slash addr amount b =
    match b.(bk_accounts) !! addr with
    | None => (Err (StakerNotFound addr), b)
    | Some a =>
        let n := N.min amount a.(acc_locked) in
        if bool_decide (n = 0) then (Ok 0, b)
        else (Ok n, burn_supply n (put_account addr
               (set_balance (sat_sub a.(acc_balance) n)
                  (set_locked (sat_sub a.(acc_locked) n) a)) b))
    end.
Proof.
  unfold Bank_slash. mrun. destruct (_ !! addr) as [a|]; cbn; [|done].
  by destruct (bool_decide _).
Qed.

(** ** Well-formedness and conservation

    No account has more locked than it holds; the accounts are backed by the
    supply; and supply and burned tokens fit in a [u128] together, so that the
    saturating arithmetic never saturates. *)
Definition total_balance (b : Bank) : N := map_sum acc_balance b.(bk_accounts).

#[global] Arguments total_balance : simpl never.

Definition account_wf (a : AccountState) : Prop := a.(acc_locked) <= a.(acc_balance).

Record bank_wf (b : Bank) : Prop := {
  wf_accounts : map_Forall (λ _, account_wf) b.(bk_accounts);
  wf_backed : total_balance b <= b.(bk_total_supply);
  wf_range : b.(bk_total_supply) + b.(bk_total_burned) <= U128_MAX;
}.

(** From a well-formed bank: well-formedness is kept, every token that leaves
    the supply is accounted as burned, the gap between the supply and the
    balances does not move, and burns are never undone. *)
Definition bank_step (b b' : Bank) : Prop :=
  bank_wf b →
  bank_wf b'
  ∧ b'.(bk_total_supply) + b'.(bk_total_burned) = b.(bk_total_supply) + b.(bk_total_burned)
  ∧ total_balance b' + b.(bk_total_supply) = total_balance b + b'.(bk_total_supply)
  ∧ b.(bk_total_burned) <= b'.(bk_total_burned).

#[export] Instance bank_step_preorder : PreOrder bank_step.
Proof.
  split; unfold bank_step.
  - intros b ?. split_and!; done || lia.
  - intros b b' b'' H1 H2 Hwf. destruct (H1 Hwf) as (Hwf' & ? & ? & ?).
    destruct (H2 Hwf') as (? & ? & ? & ?). split_and!; done || lia.
Qed.

(** A step may assume the bank it starts from is well-formed. *)
Lemma bank_step_wf b b' : (bank_wf b → bank_step b b') → bank_step b b'.
Proof. intros H Hwf. exact (H Hwf Hwf). Qed.

Lemma account_or_default_wf addr b :
  map_Forall (λ _, account_wf) b.(bk_accounts) → account_wf (account_or_default addr b).
Proof.
  intros Hwf. unfold account_or_default.
  destruct (bk_accounts b !! addr) as [a|] eqn:Ha; cbn; [by apply (Hwf addr)|].
  unfold account_wf. cbn. lia.
Qed.

Lemma balance_le_total addr b :
  (account_or_default addr b).(acc_balance) <= total_balance b.
Proof.
  unfold account_or_default, total_balance.
  destruct (bk_accounts b !! addr) as [a|] eqn:Ha; cbn; [|lia].
  by apply (map_sum_lookup_le acc_balance) in Ha.
Qed.

Lemma total_balance_put addr a b :
  total_balance (put_account addr a b) + (account_or_default addr b).(acc_balance)
  = total_balance b + a.(acc_balance).
Proof.
  unfold total_balance, account_or_default. cbn.
  rewrite <- (map_sum_insert acc_balance (bk_accounts b) addr a).
  by destruct (bk_accounts b !! addr).
Qed.

Lemma put_account_wf addr a b :
  account_wf a → map_Forall (λ _, account_wf) b.(bk_accounts) →
  map_Forall (λ _, account_wf) (put_account addr a b).(bk_accounts).
Proof. intros. cbn. by apply map_Forall_insert_2. Qed.

(** An assignment that leaves the balance alone and keeps the account
    well-formed. *)
Lemma put_account_step addr a b :
  (account_wf (account_or_default addr b) → account_wf a) →
  a.(acc_balance) = (account_or_default addr b).(acc_balance) →
  bank_step b (put_account addr a b).
Proof.
  intros Ha Hbal [Hacc Hb Hr]. pose proof (total_balance_put addr a b) as Ht.
  split_and!; try (cbn; lia).
  split; cbn; [|lia|lia].
  apply (put_account_wf addr a b); auto using account_or_default_wf.
Qed.

Lemma touch_step addr b : bank_step b (touch addr b).
Proof. by apply put_account_step. Qed.

Lemma with_events_step ev b : bank_step b (with_events ev b).
Proof. intros [???]. split_and!; [split|..]; cbn; done || lia. Qed.

Lemma with_escrows_step es b : bank_step b (with_escrows es b).
Proof. intros [???]. split_and!; [split|..]; cbn; done || lia. Qed.

Lemma total_balance_debit from amount b :
  amount <= (account_or_default from b).(acc_balance) →
  total_balance (debit from amount b) + amount = total_balance b.
Proof.
  intros. unfold debit, sat_sub.
  pose proof (total_balance_put from (set_balance
    ((account_or_default from b).(acc_balance) - amount) (account_or_default from b)) b) as Ht.
  cbn in Ht. lia.
Qed.

Lemma total_balance_credit to amount b :
  total_balance b + amount <= U128_MAX →
  total_balance (credit to amount b) = total_balance b + amount.
Proof.
  intros. unfold credit, sat_add. pose proof (balance_le_total to b).
  pose proof (total_balance_put to (set_balance
    (U128_MAX `min` ((account_or_default to b).(acc_balance) + amount))
    (account_or_default to b)) b) as Ht.
  cbn in Ht. lia.
Qed.

Lemma debit_wf from amount b :
  amount <= available (account_or_default from b) →
  map_Forall (λ _, account_wf) b.(bk_accounts) →
  map_Forall (λ _, account_wf) (debit from amount b).(bk_accounts).
Proof.
  intros Hav Hacc. apply put_account_wf; [|done].
  pose proof (account_or_default_wf from b Hacc).
  unfold available, account_wf, sat_sub in *. cbn. lia.
Qed.

Lemma credit_wf to amount b :
  (account_or_default to b).(acc_balance) + amount <= U128_MAX →
  map_Forall (λ _, account_wf) b.(bk_accounts) →
  map_Forall (λ _, account_wf) (credit to amount b).(bk_accounts).
Proof.
  intros Hr Hacc. apply put_account_wf; [|done].
  pose proof (account_or_default_wf to b Hacc).
  unfold account_wf, sat_add in *. cbn. lia.
Qed.

(** Moving [amount] out of an account that has it and into another. *)
Lemma debit_credit_step from to amount b :
  amount <= available (account_or_default from b) →
  bank_step b (credit to amount (debit from amount b)).
Proof.
  intros Hav [Hacc Hb Hr].
  pose proof (total_balance_debit from amount b) as Hd.
  pose proof (total_balance_credit to amount (debit from amount b)) as Hc.
  pose proof (balance_le_total to (debit from amount b)) as Hto.
  unfold available, sat_sub in Hav.
  split_and!; [split; [apply credit_wf; [lia|by apply debit_wf]| |]| | |]; cbn; lia.
Qed.

(** Burning [n] of an account's tokens: [locked] may shrink with the balance. *)
Lemma burn_account_step addr a n b :
  n <= (account_or_default addr b).(acc_balance) →
  a.(acc_balance) = (account_or_default addr b).(acc_balance) - n →
  (account_wf (account_or_default addr b) → account_wf a) →
  bank_step b (burn_supply n (put_account addr a b)).
Proof.
  intros Hn Hbal Ha [Hacc Hb Hr]. pose proof (total_balance_put addr a b) as Ht.
  pose proof (balance_le_total addr b) as Hle.
  unfold burn_supply, sat_sub, sat_add, total_balance in *. cbn in *.
  split_and!; try (cbn; unfold total_balance; cbn; lia).
  split; cbn; [|unfold total_balance; cbn; lia|lia].
  apply (put_account_wf addr a b); auto using account_or_default_wf.
Qed.

Lemma transfer_step from to amount : stable bank_step (transfer from to amount).
Proof.
  intros b. rewrite transfer_eq. cbn.
  case_bool_decide; [cbn; reflexivity|].
  case_bool_decide as Hav; [apply touch_step|].
  destruct (is_locked _ _); [apply touch_step|]. cbn.
  unfold transfer_post, log. etrans; [|apply with_events_step].
  case_bool_decide; [|apply debit_credit_step; lia].
  unfold available, sat_sub in Hav.
  apply burn_account_step; cbn; unfold account_wf, sat_sub in *; cbn; intros; lia.
Qed.

Lemma lock_step addr amount : stable bank_step (lock addr amount).
Proof.
  intros b. rewrite lock_eq. destruct (_ !! addr) as [a|] eqn:Ha; cbn; [|reflexivity].
  apply account_lookup in Ha as <-.
  case_bool_decide as Hav; cbn; [reflexivity|].
  apply put_account_step; [|done].
  unfold account_wf, available, sat_sub, sat_add in *. cbn. lia.
Qed.

Lemma unlock_step addr amount : stable bank_step (unlock addr amount).
Proof.
  intros b. rewrite unlock_eq. destruct (_ !! addr) as [a|] eqn:Ha; cbn; [|reflexivity].
  apply account_lookup in Ha as <-.
  case_bool_decide as Hav; cbn; [reflexivity|].
  apply put_account_step; [|done]. unfold account_wf, sat_sub in *. cbn. lia.
Qed.

Lemma slash_step addr amount : stable bank_step (Bank_slash addr amount).
Proof.
  intros b. rewrite slash_eq. destruct (_ !! addr) as [a|] eqn:Ha; cbn; [|reflexivity].
  apply account_lookup in Ha as <-.
  case_bool_decide as Hn; cbn; [reflexivity|]. apply bank_step_wf. intros Hwf.
  pose proof (account_or_default_wf addr b (wf_accounts _ Hwf)) as Hacc.
  apply burn_account_step; unfold account_wf, sat_sub in *; cbn; lia.
Qed.

(** ** The bank's interface to the other contracts

    Staking, the job registry and the kernel touch the bank through [lock],
    [unlock], [transfer] (and [burn], which is a transfer) and [slash] only.  A
    preorder on banks these four respect is therefore respected by every
    client: the clients' theorems are proved for an arbitrary [BankStable]
    relation, and the instances below discharge it. *)
Class BankStable (R : relation Bank) : Prop := {
  bs_preorder : PreOrder R;
  bs_lock : ∀ addr n, stable R (lock addr n);
  bs_unlock : ∀ addr n, stable R (unlock addr n);
  bs_transfer : ∀ from to n, stable R (transfer from to n);
  bs_slash : ∀ addr n, stable R (Bank_slash addr n);
}.

#[export] Existing Instance bs_preorder.

Lemma bs_burn `{!BankStable R} from n : stable R (burn from n).
Proof. exact (bs_transfer from BURN_ADDRESS n). Qed.

#[export] Hint Resolve bs_lock bs_unlock bs_transfer bs_burn bs_slash : stable.

#[export] Instance bank_step_stable : BankStable bank_step.
Proof.
  split; auto using lock_step, unlock_step, transfer_step, slash_step with typeclass_instances.
Qed.

(** Escrow records: the interface never touches them. *)
Definition same_escrows (b b' : Bank) : Prop := b'.(bk_escrows) = b.(bk_escrows).

#[export] Instance same_escrows_stable : BankStable same_escrows.
Proof.
  split; [split; unfold same_escrows; repeat intro; congruence|..]; intros; intros b;
    rewrite ?lock_eq, ?unlock_eq, ?slash_eq, ?transfer_eq;
    unfold same_escrows, transfer_post; cbn;
    repeat (case_bool_decide || case_match); done.
Qed.

(** ** The remaining operations conserve the supply too *)
Lemma put_locked_until_step v addr b :
  bank_step b (put_account addr (set_locked_until v (account_or_default addr b)) b).
Proof. by apply put_account_step. Qed.

Lemma entry_step addr : stable bank_step (entry_or_default addr).
Proof. intros b. unfold entry_or_default. mrun. apply touch_step. Qed.

Lemma lock_account_step addr until reason : stable bank_step (lock_account addr until reason).
Proof.
  intros b. unfold lock_account, entry_or_default, push_event. mrun.
  rewrite put_account_twice. etrans; [|apply with_events_step].
  apply put_locked_until_step.
Qed.

Lemma unlock_account_step addr : stable bank_step (unlock_account addr).
Proof.
  intros b. unfold unlock_account, push_event. mrun.
  destruct (_ !! addr) as [a|] eqn:Ha; cbn; [|reflexivity].
  apply account_lookup in Ha as <-. etrans; [|apply with_events_step].
  apply put_locked_until_step.
Qed.

Lemma push_event_step e : stable bank_step (push_event e).
Proof. apply stable_modify. intros. apply with_events_step. Qed.

Lemma mark_released_step id : stable bank_step (mark_released id).
Proof. apply stable_modify. intros. apply with_escrows_step. Qed.

Lemma modify_escrows_step (f : Bank → gmap Hash Escrow) :
  stable (E:=SystemContractError) bank_step (modify (λ b, with_escrows (f b) b)).
Proof. apply stable_modify. intros. apply with_escrows_step. Qed.

#[export] Hint Resolve push_event_step mark_released_step modify_escrows_step
  entry_step lock_account_step unlock_account_step : stable.

Lemma pending_escrow_step id : stable bank_step (pending_escrow id).
Proof. unfold pending_escrow. stable_body. Qed.

Lemma create_escrow_step id from to amount expires_at conditions :
  stable bank_step (create_escrow id from to amount expires_at conditions).
Proof. unfold create_escrow. stable_body. Qed.

Lemma refund_escrow_step id reason : stable bank_step (refund_escrow id reason).
Proof.
  unfold refund_escrow. apply stable_bind; [apply _|apply pending_escrow_step|].
  intros [amount from]. stable_body.
Qed.

(** What [release_escrow] does after the escrow was found: the owner unlocks
    [amount] and loses it, the recipient gains it. *)
Definition release_post (id : Hash) (from to : Address) (amount : TokenAmount) (b : Bank)
  : Bank :=
  log (EscrowReleased id to amount b.(bk_current_block))
    (with_escrows (alter set_released id b.(bk_escrows))
       (credit to amount (debit from amount (put_account from
          (set_locked (sat_sub (account_or_default from b).(acc_locked) amount)
             (account_or_default from b)) b)))).

Lemma release_escrow_eq id to b :
  release_escrow id to b =
    match b.(bk_escrows) !! id with
    | None => (Err (EscrowNotFound id), b)
    | Some e =>
        let from := e.(esc_from) in
        let amount := e.(esc_amount) in
        if e.(esc_released) then (Err (EscrowNotFound id), b)
        else match b.(bk_accounts) !! from with
        | None => (Err (StakerNotFound from), b)
        | Some a =>
            if bool_decide (a.(acc_locked) < amount)
            then (Err (CannotUnstake amount a.(acc_locked)), b)
            else (Ok amount, release_post id from to amount b)
        end
    end.
Proof.
  unfold release_escrow, pending_escrow, mark_released, entry_or_default, push_event.
  mrun. destruct (bk_escrows b !! id) as [e|] eqn:He; cbn; [|done].
  destruct (esc_released e); cbn; [done|]. rewrite unlock_eq.
  destruct (bk_accounts b !! esc_from e) as [a|] eqn:Ha; cbn; [|done].
  case_bool_decide; cbn; [done|]. rewrite lookup_insert_eq. cbn.
  unfold release_post, log, credit, debit.
  rewrite (account_lookup _ _ _ Ha), !account_or_default_put, !put_account_twice. done.
Qed.

Lemma release_escrow_step id to : stable bank_step (release_escrow id to).
Proof.
  intros b. rewrite release_escrow_eq.
  destruct (bk_escrows b !! id) as [e|]; cbn; [|reflexivity].
  destruct (esc_released e); cbn; [reflexivity|].
  destruct (bk_accounts b !! esc_from e) as [a|] eqn:Ha; cbn; [|reflexivity].
  apply account_lookup in Ha as <-.
  case_bool_decide as Hlk; cbn; [reflexivity|]. apply bank_step_wf. intros Hwf.
  pose proof (account_or_default_wf (esc_from e) b (wf_accounts _ Hwf)) as Hacc.
  unfold release_post, log.
  etrans; [|apply with_events_step]. etrans; [|apply with_escrows_step].
  etrans; [|apply debit_credit_step].
  - apply put_account_step; [|done]. unfold account_wf, sat_sub. cbn. lia.
  - rewrite account_or_default_put.
    unfold account_wf, available, sat_sub in *. cbn. lia.
Qed.

Lemma increment_nonce_step `{Build} addr : stable bank_step (increment_nonce addr).
Proof.
  intros b. unfold increment_nonce, entry_or_default. mrun.
  destruct (u_add _ _ _) as [n| | |]; cbn; try apply touch_step.
  rewrite put_account_twice. by apply put_account_step.
Qed.

#[export] Hint Resolve create_escrow_step refund_escrow_step release_escrow_step
  increment_nonce_step : stable.
