(* ===== verification/BankSpec.v ===== *)
(** * What the bank promises

    Theorems about [Bank]: sequences of calls conserve the supply, the account
    operations refine an abstract ledger, an escrow pays out at most once, and
    what the genesis allocations establish. *)
From S2P Require Import Prelude SysTypes Bank.
From stdpp Require Import base gmap list strings.
From Stdlib Require Import ZArith Lia.
#[local] Open Scope N_scope.

(** ** Sequences of calls *)
Inductive BankOp :=
| OpTransfer (from to : Address) (amount : TokenAmount)
| OpBurn (from : Address) (amount : TokenAmount)
| OpLock (addr : Address) (amount : TokenAmount)
| OpUnlock (addr : Address) (amount : TokenAmount)
| OpLockAccount (addr : Address) (until : N) (reason : string)
| OpUnlockAccount (addr : Address)
| OpCreateEscrow (id : Hash) (from to : Address) (amount : TokenAmount) (expires_at : N)
    (conditions : bytes)
| OpReleaseEscrow (id : Hash) (to : Address)
| OpRefundEscrow (id : Hash) (reason : string)
| OpSlash (addr : Address) (amount : TokenAmount)
| OpIncrementNonce (addr : Address)
| OpSetBlock (height : N)
| OpDrainEvents.

Section ops.
Context `{Build}.

Definition run_op (op : BankOp) : BankM unit :=
  match op with
  | OpTransfer from to n => transfer from to n
  | OpBurn from n => burn from n
  | OpLock a n => lock a n
  | OpUnlock a n => unlock a n
  | OpLockAccount a until reason => lock_account a until reason
  | OpUnlockAccount a => unlock_account a
  | OpCreateEscrow id from to n exp c => create_escrow id from to n exp c
  | OpReleaseEscrow id to => release_escrow id to ;; mret tt
  | OpRefundEscrow id reason => refund_escrow id reason ;; mret tt
  | OpSlash a n => Bank_slash a n ;; mret tt
  | OpIncrementNonce a => increment_nonce a
  | OpSetBlock h => modify (set_block h)
  | OpDrainEvents => Bank_drain_events ;; mret tt
  end.

(** The caller goes on after an error, with the state the error left. *)
Definition run_ops (ops : list BankOp) (b : Bank) : Bank :=
  fold_left (λ b op, (run_op op b).2) ops b.

Lemma run_ops_related (R : relation Bank) `{!PreOrder R} :
  (∀ op, stable R (run_op op)) → ∀ ops b, R b (run_ops ops b).
Proof.
  intros Hop ops. induction ops as [|op ops IH]; intros b; [cbn; reflexivity|].
  cbn. etrans; [apply Hop | apply IH].
Qed.

Lemma run_op_step op : stable bank_step (run_op op).
Proof.
  destruct op; cbn; stable_body.
  - apply stable_modify. intros b [???]. split_and!; [split|..]; cbn; done || lia.
  - intros b. apply with_events_step.
Qed.

(** Whatever sequence of bank calls runs, and whichever of them fail
    half-way, a well-formed bank stays well-formed (no account has more locked
    than it holds, the balances stay within the supply), every token that
    leaves the supply is counted as burned, the balances move exactly with the
    supply, and nothing burned comes back. *)
Lemma bank_ops_conserve ops b :
  bank_wf b →
  let b' := run_ops ops b in
  bank_wf b'
  ∧ b'.(bk_total_supply) + b'.(bk_total_burned) = b.(bk_total_supply) + b.(bk_total_burned)
  ∧ total_balance b' + b.(bk_total_supply) = total_balance b + b'.(bk_total_supply)
  ∧ b.(bk_total_burned) <= b'.(bk_total_burned).
Proof. apply (run_ops_related bank_step run_op_step ops b). Qed.
End ops.

(** ** Genesis *)
Definition allocated (allocs : list TokenAllocation) : N := sum_of ta_balance allocs.

Lemma apply_allocation_bound b alloc :
  total_balance (apply_allocation b alloc) <= total_balance b + alloc.(ta_balance).
Proof.
  unfold apply_allocation.
  pose proof (total_balance_put alloc.(ta_address) (set_balance alloc.(ta_balance)
    (account_or_default alloc.(ta_address) b)) b) as Ht. cbn in Ht. lia.
Qed.

(** The bank is loaded but nothing is locked yet, and the supply is the
    configured one. *)
Definition fresh_bank (supply : N) (b : Bank) : Prop :=
  map_Forall (λ _ a, acc_locked a = 0) b.(bk_accounts)
  ∧ b.(bk_total_supply) = supply ∧ b.(bk_total_burned) = 0.

Lemma apply_allocation_fresh supply b alloc :
  fresh_bank supply b → fresh_bank supply (apply_allocation b alloc).
Proof.
  intros (Hl & ? & ?). split_and!; [|done|done]. cbn.
  apply map_Forall_insert_2; [|done]. cbn. unfold account_or_default.
  destruct (bk_accounts b !! ta_address alloc) as [a|] eqn:Ha; [|done].
  exact (Hl _ _ Ha).
Qed.

Lemma fold_allocations_inv supply allocs b :
  fresh_bank supply b →
  fresh_bank supply (fold_left apply_allocation allocs b)
  ∧ total_balance (fold_left apply_allocation allocs b) <= total_balance b + allocated allocs.
Proof.
  revert b. induction allocs as [|al allocs IH]; intros b Hb; cbn [fold_left].
  - split; [done|]. unfold allocated. cbn. lia.
  - destruct (IH _ (apply_allocation_fresh supply b al Hb)) as [? Ht]. split; [done|].
    pose proof (apply_allocation_bound b al). unfold allocated, sum_of in *. cbn [foldr]. lia.
Qed.

Lemma genesis_bank allocs :
  allocated allocs <= BankConfig_default.(bc_initial_supply) →
  bank_wf (Bank_from_genesis allocs)
  ∧ (Bank_from_genesis allocs).(bk_total_supply) = BankConfig_default.(bc_initial_supply).
Proof.
  intros Hall. unfold Bank_from_genesis.
  destruct (fold_allocations_inv BankConfig_default.(bc_initial_supply) allocs
    (Bank_new BankConfig_default)) as [(Hl & Hs & Hbn) Ht]; [by split_and!|].
  unfold total_balance at 2 in Ht. cbn in Ht, Hs. rewrite map_sum_empty in Ht. cbn in Hall.
  split; [split|done].
  - intros k a Ha. apply Hl in Ha. unfold account_wf. lia.
  - rewrite Hs. lia.
  - rewrite Hs, Hbn. lia.
Qed.

Lemma genesis_not_burned allocs : (Bank_from_genesis allocs).(bk_total_burned) = 0.
Proof.
  apply (fold_allocations_inv BankConfig_default.(bc_initial_supply) allocs
    (Bank_new BankConfig_default)). by split_and!.
Qed.

(** A genesis whose allocations add up to at most the configured initial
    supply starts a well-formed bank, so conservation holds from block zero; the
    initial supply is 10^27 base units whatever is allocated. *)
Lemma genesis_wf allocs :
  allocated allocs <= BankConfig_default.(bc_initial_supply) →
  bank_wf (Bank_from_genesis allocs)
  ∧ (Bank_from_genesis allocs).(bk_total_supply) = 1000000000000000000000000000.
Proof. apply genesis_bank. Qed.

Lemma genesis_wf_witness :
  let allocs := [{| ta_address := TREASURY_ADDRESS; ta_balance := 200000000000000000000;
                    ta_vesting := None |}] in
  allocated allocs <= BankConfig_default.(bc_initial_supply)
  ∧ bank_wf (Bank_from_genesis allocs).
Proof.
  split; [vm_compute; discriminate|].
  apply (genesis_wf [{| ta_address := TREASURY_ADDRESS; ta_balance := 200000000000000000000;
                        ta_vesting := None |}]).
  vm_compute. discriminate.
Defined.

Lemma bank_ops_conserve_witness :
  let build := {| overflow_checks := true; feature_sgx := false; feature_zkp := false |} in
  let b := Bank_from_genesis [{| ta_address := bytes32 1; ta_balance := 1000;
                                 ta_vesting := None |}] in
  let b' := run_ops [OpTransfer (bytes32 1) (bytes32 2) 300; OpLock (bytes32 1) 200;
                     OpSlash (bytes32 1) 50; OpBurn (bytes32 2) 100;
                     OpTransfer (bytes32 3) (bytes32 1) 1] b in
  b'.(bk_total_burned) = 150 ∧ bank_wf b'.
Proof.
  split; [vm_compute; reflexivity|].
  apply (bank_ops_conserve (H := {| overflow_checks := true; feature_sgx := false;
                                   feature_zkp := false |})).
  apply genesis_bank. vm_compute. discriminate.
Defined.

(** ** The abstract ledger

    What a client of the bank sees: for every address the free and the held
    amount and whether it is frozen, the supply and the burned total.  Each
    operation is a partial function on ledgers; [None] is a refusal. *)
Record Ledger := {
  lg_free : Address → N;
  lg_held : Address → N;
  lg_frozen : Address → bool;
  lg_supply : N;
  lg_burned : N;
}.

(** Ledgers are compared pointwise. *)
#[export] Instance ledger_equiv : Equiv Ledger := λ l l',
  (∀ a, l.(lg_free) a = l'.(lg_free) a) ∧ (∀ a, l.(lg_held) a = l'.(lg_held) a)
  ∧ (∀ a, l.(lg_frozen) a = l'.(lg_frozen) a)
  ∧ l.(lg_supply) = l'.(lg_supply) ∧ l.(lg_burned) = l'.(lg_burned).

#[export] Instance ledger_equivalence : Equivalence (≡@{Ledger}).
Proof.
  split.
  - intros l. by split_and!.
  - intros l l' (?&?&?&?&?). by split_and!.
  - intros l l' l'' (H1&H2&H3&?&?) (H4&H5&H6&?&?).
    split_and!; [intros; by rewrite H1|intros; by rewrite H2|intros; by rewrite H3|..];
      congruence.
Qed.

Definition upd (f : Address → N) (a : Address) (v : N) : Address → N :=
  λ x, if decide (x = a) then v else f x.

Definition spec_transfer (from to : Address) (n : N) (l : Ledger) : option Ledger :=
  if bool_decide (n = 0) || bool_decide (l.(lg_free) from < n) || l.(lg_frozen) from
  then None
  else
    let free := upd l.(lg_free) from (l.(lg_free) from - n) in
    Some (if bool_decide (to = BURN_ADDRESS)
          then {| lg_free := free; lg_held := l.(lg_held); lg_frozen := l.(lg_frozen);
                  lg_supply := l.(lg_supply) - n; lg_burned := l.(lg_burned) + n |}
          else {| lg_free := upd free to (free to + n); lg_held := l.(lg_held);
                  lg_frozen := l.(lg_frozen); lg_supply := l.(lg_supply);
                  lg_burned := l.(lg_burned) |}).

Definition spec_move (addr : Address) (free held : N) (l : Ledger) : Ledger :=
  {| lg_free := upd l.(lg_free) addr free; lg_held := upd l.(lg_held) addr held;
     lg_frozen := l.(lg_frozen); lg_supply := l.(lg_supply); lg_burned := l.(lg_burned) |}.

Definition spec_lock (addr : Address) (n : N) (l : Ledger) : option Ledger :=
  if bool_decide (l.(lg_free) addr < n) then None
  else Some (spec_move addr (l.(lg_free) addr - n) (l.(lg_held) addr + n) l).

Definition spec_unlock (addr : Address) (n : N) (l : Ledger) : option Ledger :=
  if bool_decide (l.(lg_held) addr < n) then None
  else Some (spec_move addr (l.(lg_free) addr + n) (l.(lg_held) addr - n) l).

(** Only held tokens can be slashed; they are burned. *)
Definition spec_slash (addr : Address) (n : N) (l : Ledger) : Ledger :=
  let m := N.min n (l.(lg_held) addr) in
  {| lg_free := l.(lg_free); lg_held := upd l.(lg_held) addr (l.(lg_held) addr - m);
     lg_frozen := l.(lg_frozen); lg_supply := l.(lg_supply) - m;
     lg_burned := l.(lg_burned) + m |}.

Definition abs (b : Bank) : Ledger :=
  {| lg_free := λ a, available (account_or_default a b);
     lg_held := λ a, acc_locked (account_or_default a b);
     lg_frozen := λ a, is_locked (account_or_default a b) b.(bk_current_block);
     lg_supply := b.(bk_total_supply);
     lg_burned := b.(bk_total_burned) |}.

(** The observers of the source read the abstract ledger. *)
Lemma abs_observers b a :
  lg_free (abs b) a = available_balance b a ∧ lg_held (abs b) a = get_locked_balance b a
  ∧ balance_of b a = acc_balance (account_or_default a b).
Proof.
  unfold available_balance, get_locked_balance, balance_of. cbn. unfold account_or_default.
  by destruct (bk_accounts b !! a).
Qed.

(** A concrete call simulates an abstract operation: it succeeds exactly when
    the operation is defined, reaching its result, and a refusal is
    unobservable. *)
Definition simulates {A} (m : BankM A) (spec : Ledger → option Ledger) (b : Bank) : Prop :=
  match spec (abs b) with
  | Some l' => is_ok (m b).1 = true ∧ abs (m b).2 ≡ l'
  | None => is_ok (m b).1 = false ∧ abs (m b).2 ≡ abs b
  end.

Lemma account_or_default_lookup addr x a b :
  account_or_default x (put_account addr a b) =
    if decide (x = addr) then a else account_or_default x b.
Proof.
  case_decide as Hx; [subst; apply account_or_default_put|].
  by apply account_or_default_put_ne.
Qed.

Lemma abs_touch addr b : abs (touch addr b) ≡ abs b.
Proof. split_and!; intros; cbn; by rewrite ?account_or_default_touch. Qed.

Lemma abs_log e b : abs (log e b) ≡ abs b.
Proof. by split_and!. Qed.

Lemma account_or_default_supply x supply burned b :
  account_or_default x (with_supply supply burned b) = account_or_default x b.
Proof. done. Qed.

(** Reduces an observation of an updated bank to a case split on the address. *)
Ltac observe :=
  unfold credit, debit, burn_supply, spec_move, upd, abs, available, sat_sub, sat_add in *;
  split_and!; intros; cbn;
  rewrite ?account_or_default_supply, ?account_or_default_lookup in *;
  repeat case_decide; subst; cbn in *; try (done || lia).

(** A well-formed account's balance is bounded by the supply, hence by [u128]. *)
Lemma account_bounds addr b :
  bank_wf b →
  (account_or_default addr b).(acc_locked) <= (account_or_default addr b).(acc_balance)
  ∧ (account_or_default addr b).(acc_balance) <= total_balance b
  ∧ total_balance b <= b.(bk_total_supply)
  ∧ b.(bk_total_supply) + b.(bk_total_burned) <= U128_MAX.
Proof.
  intros [Hacc Hb Hr]. split_and!; [|apply balance_le_total|done|done].
  by apply (account_or_default_wf addr).
Qed.

Lemma transfer_simulates from to n b :
  bank_wf b → simulates (transfer from to n) (spec_transfer from to n) b.
Proof.
  intros Hwf. pose proof (account_bounds from b Hwf). pose proof (account_bounds to b Hwf).
  pose proof (total_balance_debit from n b).
  pose proof (balance_le_total to (debit from n b)).
  unfold simulates, spec_transfer. rewrite transfer_eq. cbn.
  case_bool_decide as Hn; cbn; [done|].
  case_bool_decide as Hav; cbn; [split; [done|apply abs_touch]|].
  destruct (is_locked _ _) eqn:Hl; cbn; [split; [done|apply abs_touch]|].
  split; [done|]. unfold transfer_post. rewrite abs_log.
  case_bool_decide; observe.
Qed.

Lemma lock_simulates addr n b :
  n ≠ 0 → bank_wf b → simulates (lock addr n) (spec_lock addr n) b.
Proof.
  intros Hn Hwf. pose proof (account_bounds addr b Hwf) as Hb.
  unfold simulates, spec_lock. rewrite lock_eq. cbn.
  destruct (bk_accounts b !! addr) as [a|] eqn:Ha.
  - apply account_lookup in Ha as <-.
    case_bool_decide; cbn; [done|]. split; [done|]. observe.
  - rewrite bool_decide_true; [done|]. unfold account_or_default. rewrite Ha. unfold available, sat_sub. cbn. lia.
Qed.

Lemma unlock_simulates addr n b :
  n ≠ 0 → bank_wf b → simulates (unlock addr n) (spec_unlock addr n) b.
Proof.
  intros Hn Hwf. pose proof (account_bounds addr b Hwf) as Hb.
  unfold simulates, spec_unlock. rewrite unlock_eq. cbn.
  destruct (bk_accounts b !! addr) as [a|] eqn:Ha.
  - apply account_lookup in Ha as <-.
    case_bool_decide; cbn; [done|]. split; [done|]. observe.
  - rewrite bool_decide_true; [done|]. unfold account_or_default. rewrite Ha. unfold available, sat_sub. cbn. lia.
Qed.

Lemma slash_simulates addr n b :
  bank_wf b → is_Some (b.(bk_accounts) !! addr) →
  simulates (Bank_slash addr n) (Some ∘ spec_slash addr n) b.
Proof.
  intros Hwf [a Ha]. pose proof (account_bounds addr b Hwf) as Hb.
  unfold simulates. rewrite slash_eq, Ha. apply account_lookup in Ha as <-. cbn.
  case_bool_decide as Hm; cbn; (split; [done|]); unfold spec_slash; observe.
Qed.


(** [slash] is defined for the accounts the bank knows. *)
Definition spec_slash_known (b : Bank) (addr : Address) (n : N) (l : Ledger) : option Ledger :=
  if bool_decide (is_Some (b.(bk_accounts) !! addr)) then Some (spec_slash addr n l) else None.

Lemma slash_known_simulates addr n b :
  bank_wf b → simulates (Bank_slash addr n) (spec_slash_known b addr n) b.
Proof.
  intros Hwf. unfold simulates, spec_slash_known. case_bool_decide as Ha.
  - by apply slash_simulates.
  - apply eq_None_not_Some in Ha. rewrite slash_eq, Ha. by split.
Qed.

(** C7: on a well-formed bank, [transfer], [lock], [unlock] and [slash]
    refine the abstract ledger: for a non-zero amount each succeeds exactly
    when the abstract operation is defined, moves exactly the amounts the
    abstract operation moves (transfers to the burn address move supply to the
    burned total; a slash takes held tokens only, at most those there are, and is
    defined exactly for the addresses that have an account record) for every
    address at once, and a refused call changes nothing a client can observe. *)
Theorem bank_refines_ledger b n :
  bank_wf b → n ≠ 0 →
  (∀ from to, simulates (transfer from to n) (spec_transfer from to n) b)
  ∧ (∀ addr, simulates (lock addr n) (spec_lock addr n) b)
  ∧ (∀ addr, simulates (unlock addr n) (spec_unlock addr n) b)
  ∧ (∀ addr, simulates (Bank_slash addr n) (spec_slash_known b addr n) b).
Proof.
  intros Hwf Hn. split_and!; intros;
    auto using transfer_simulates, lock_simulates, unlock_simulates, slash_known_simulates.
Qed.

Lemma bank_refines_ledger_witness :
  let b := Bank_from_genesis [{| ta_address := bytes32 1; ta_balance := 1000;
                                 ta_vesting := None |}] in
  simulates (transfer (bytes32 1) (bytes32 2) 300) (spec_transfer (bytes32 1) (bytes32 2) 300) b.
Proof.
  apply (bank_refines_ledger (Bank_from_genesis
    [{| ta_address := bytes32 1; ta_balance := 1000; ta_vesting := None |}]) 300).
  - apply genesis_bank. vm_compute. discriminate.
  - discriminate.
Defined.

(** ** Escrows pay out at most once *)
Lemma refund_escrow_eq id reason b :
  refund_escrow id reason b =
    match b.(bk_escrows) !! id with
    | None => (Err (EscrowNotFound id), b)
    | Some e =>
        if e.(esc_released) then (Err (EscrowNotFound id), b)
        else match b.(bk_accounts) !! e.(esc_from) with
        | None => (Err (StakerNotFound e.(esc_from)), b)
        | Some a =>
            if bool_decide (a.(acc_locked) < e.(esc_amount))
            then (Err (CannotUnstake e.(esc_amount) a.(acc_locked)), b)
            else (Ok e.(esc_amount),
                  log (EscrowRefunded id e.(esc_from) e.(esc_amount) reason b.(bk_current_block))
                    (with_escrows (alter set_released id b.(bk_escrows))
                       (put_account e.(esc_from)
                          (set_locked (sat_sub a.(acc_locked) e.(esc_amount)) a) b)))
        end
    end.
Proof.
  unfold refund_escrow, pending_escrow, mark_released, push_event. mrun.
  destruct (bk_escrows b !! id) as [e|]; cbn; [|done].
  destruct (esc_released e); cbn; [done|]. rewrite unlock_eq.
  destruct (bk_accounts b !! esc_from e) as [a|]; cbn; [|done].
  by case_bool_decide.
Qed.

Definition escrow_settled (id : Hash) (b : Bank) : Prop :=
  ∃ e, b.(bk_escrows) !! id = Some e ∧ e.(esc_released) = true.

Lemma settled_refused id b :
  escrow_settled id b →
  (∀ to, release_escrow id to b = (Err (EscrowNotFound id), b))
  ∧ (∀ reason, refund_escrow id reason b = (Err (EscrowNotFound id), b)).
Proof.
  intros (e & He & Hr). split; intros.
  - by rewrite release_escrow_eq, He, Hr.
  - by rewrite refund_escrow_eq, He, Hr.
Qed.

Lemma alter_released_settled (id id' : Hash) (m : gmap Hash Escrow) e :
  m !! id = Some e → e.(esc_released) = true →
  ∃ e', alter set_released id' m !! id = Some e' ∧ e'.(esc_released) = true.
Proof.
  intros He Hr. rewrite lookup_alter. case_decide; subst; rewrite He; cbn; eauto.
Qed.

Lemma same_escrows_settled {A} id (m : BankM A) :
  stable same_escrows m → stable (maintains (escrow_settled id)) m.
Proof.
  intros Hm. eapply stable_weaken; [exact Hm|].
  intros b b' Heq (e & He & Hr). exists e. by rewrite Heq.
Qed.

Lemma release_settled id id' to :
  stable (maintains (escrow_settled id)) (release_escrow id' to).
Proof.
  intros b (e & He & Hr). rewrite release_escrow_eq.
  destruct (bk_escrows b !! id') as [e'|]; cbn; [|by exists e].
  destruct (esc_released e'); cbn; [by exists e|].
  destruct (bk_accounts b !! esc_from e'); cbn; [|by exists e].
  case_bool_decide; cbn; [by exists e|].
  by apply (alter_released_settled id id' _ e).
Qed.

Lemma refund_settled id id' reason :
  stable (maintains (escrow_settled id)) (refund_escrow id' reason).
Proof.
  intros b (e & He & Hr). rewrite refund_escrow_eq.
  destruct (bk_escrows b !! id') as [e'|]; cbn; [|by exists e].
  destruct (esc_released e'); cbn; [by exists e|].
  destruct (bk_accounts b !! esc_from e'); cbn; [|by exists e].
  case_bool_decide; cbn; [by exists e|].
  by apply (alter_released_settled id id' _ e).
Qed.

Lemma create_settled id id' from to n expires_at conditions :
  stable (maintains (escrow_settled id)) (create_escrow id' from to n expires_at conditions).
Proof.
  intros b (e & He & Hr). unfold create_escrow, push_event. mrun.
  case_bool_decide as Hid; cbn; [by exists e|].
  rewrite lock_eq. destruct (bk_accounts b !! from); cbn; [|by exists e].
  case_bool_decide; cbn; [by exists e|].
  exists e. cbn. rewrite lookup_insert_ne; [done|]. intros ->. apply Hid. eauto.
Qed.

#[local] Hint Resolve release_settled refund_settled create_settled : stable.

Lemma run_op_settled `{Build} id op : stable (maintains (escrow_settled id)) (run_op op).
Proof.
  destruct op; cbn; stable_body; apply same_escrows_settled; auto with stable typeclass_instances.
  - intros b. unfold lock_account, entry_or_default, push_event. by mrun.
  - intros b. unfold unlock_account, push_event. mrun. by destruct (bk_accounts b !! addr).
  - intros b. unfold increment_nonce, entry_or_default. mrun. by destruct (u_add _ _ _).
  - by intros b.
  - by intros b.
Qed.

(** An escrow pays out at most once: after a successful release or
    refund, whatever calls follow, every further release or refund of that
    escrow is refused with [EscrowNotFound] and changes nothing. *)
Lemma escrow_pays_once `{Build} id b n b1 ops :
  (∃ to, release_escrow id to b = (Ok n, b1))
  ∨ (∃ reason, refund_escrow id reason b = (Ok n, b1)) →
  let b2 := run_ops ops b1 in
  (∀ to, release_escrow id to b2 = (Err (EscrowNotFound id), b2))
  ∧ (∀ reason, refund_escrow id reason b2 = (Err (EscrowNotFound id), b2)).
Proof.
  intros Hpaid. apply settled_refused.
  apply (run_ops_related (maintains (escrow_settled id)) (run_op_settled id) ops b1).
  destruct Hpaid as [[to Hp]|[reason Hp]]; revert Hp;
    rewrite ?release_escrow_eq, ?refund_escrow_eq;
    destruct (bk_escrows b !! id) as [e|] eqn:He; cbn; try done;
    destruct (esc_released e); try done; destruct (bk_accounts b !! esc_from e); try done;
    case_bool_decide; try done; intros [= <- <-];
    exists (set_released e); cbn; by rewrite lookup_alter_eq, He.
Qed.

Lemma escrow_pays_once_witness :
  let build := {| overflow_checks := false; feature_sgx := false; feature_zkp := false |} in
  let b0 := Bank_from_genesis [{| ta_address := bytes32 1; ta_balance := 1000;
                                  ta_vesting := None |}] in
  let b := (create_escrow (bytes32 100) (bytes32 1) (bytes32 3) 100 1000 [] b0).2 in
  let b1 := (release_escrow (bytes32 100) (bytes32 3) b).2 in
  let b2 := run_ops [OpCreateEscrow (bytes32 100) (bytes32 1) (bytes32 3) 5 0 []] b1 in
  release_escrow (bytes32 100) (bytes32 4) b2 = (Err (EscrowNotFound (bytes32 100)), b2).
Proof.
  apply (escrow_pays_once (bytes32 100)
    (create_escrow (bytes32 100) (bytes32 1) (bytes32 3) 100 1000 []
      (Bank_from_genesis [{| ta_address := bytes32 1; ta_balance := 1000;
                             ta_vesting := None |}])).2 100).
  left. exists (bytes32 3). vm_compute. reflexivity.
Defined.
