(* ===== verification/Staking.v ===== *)
(** * The staking manager

    [crates/vm/src/system_contracts/staking.rs]: stake registry, unbonding,
    slashing with jail and tombstone, fee split and adaptive burn rate.

    A method that takes [&mut Bank] runs on the pair of the manager and that
    bank; [slash], which goes through the manager's own [Arc<RwLock<Bank>>],
    runs on the pair of the manager and the lock. *)
From S2P Require Import Prelude SysTypes Bank.
From stdpp Require Import base gmap list strings.
From Stdlib Require Import ZArith Lia.
#[local] Open Scope N_scope.

(** ** Configuration *)
Record SlashingParams := {
  sla_violation_bps : N;
  invalid_proof_bps : N;
  double_sign_bps : N;
  downtime_bps : N;
  minor_jail_duration : N;
  major_jail_duration : N;
  tombstone_threshold : N;
}.

Definition SlashingParams_mainnet : SlashingParams := {|
  sla_violation_bps := 100;
  invalid_proof_bps := 500;
  double_sign_bps := 5000;
  downtime_bps := 10;
  minor_jail_duration := 24 * 3600;
  major_jail_duration := 7 * 24 * 3600;
  tombstone_threshold := 10;
|}.

Definition SlashingParams_testnet : SlashingParams := {|
  sla_violation_bps := 50;
  invalid_proof_bps := 200;
  double_sign_bps := 2000;
  downtime_bps := 5;
  minor_jail_duration := 3600;
  major_jail_duration := 24 * 3600;
  tombstone_threshold := 5;
|}.

Definition SlashingParams_devnet : SlashingParams := {|
  sla_violation_bps := 10;
  invalid_proof_bps := 50;
  double_sign_bps := 500;
  downtime_bps := 1;
  minor_jail_duration := 60;
  major_jail_duration := 300;
  tombstone_threshold := 3;
|}.

Record StakingConfig := {
  min_validator_stake : TokenAmount;
  min_compute_stake : TokenAmount;
  min_delegator_stake : TokenAmount;
  unbonding_period : N;
  base_burn_rate_bps : N;
  max_burn_rate_bps : N;
  congestion_threshold : N;
  high_congestion_threshold : N;
  sc_slashing : SlashingParams;
  max_validators : N;
  max_delegators_per_validator : N;
}.

Definition StakingConfig_mainnet : StakingConfig := {|
  min_validator_stake := 100000000000000000000000;
  min_compute_stake := 5000000000000000000000;
  min_delegator_stake := 100000000000000000000;
  unbonding_period := 21 * 24 * 3600;
  base_burn_rate_bps := 500;
  max_burn_rate_bps := 1500;
  congestion_threshold := 50;
  high_congestion_threshold := 80;
  sc_slashing := SlashingParams_mainnet;
  max_validators := 1000;
  max_delegators_per_validator := 10000;
|}.

Definition StakingConfig_testnet : StakingConfig := {|
  min_validator_stake := 10000000000000000000000;
  min_compute_stake := 500000000000000000000;
  min_delegator_stake := 10000000000000000000;
  unbonding_period := 7 * 24 * 3600;
  base_burn_rate_bps := 300;
  max_burn_rate_bps := 1000;
  congestion_threshold := 40;
  high_congestion_threshold := 70;
  sc_slashing := SlashingParams_testnet;
  max_validators := 200;
  max_delegators_per_validator := 1000;
|}.

Definition StakingConfig_devnet : StakingConfig := {|
  min_validator_stake := 1000000000000000000;
  min_compute_stake := 1000000000000000000;
  min_delegator_stake := 100000000000000000;
  unbonding_period := 60;
  base_burn_rate_bps := 500;
  max_burn_rate_bps := 1500;
  congestion_threshold := 50;
  high_congestion_threshold := 80;
  sc_slashing := SlashingParams_devnet;
  max_validators := 100;
  max_delegators_per_validator := 100;
|}.

Definition StakingConfig_validate (c : StakingConfig) : Result unit :=
  if bool_decide (c.(min_validator_stake) = 0) then
    Err (InvalidConfig "min_validator_stake must be > 0")
  else if bool_decide (c.(max_burn_rate_bps) < c.(base_burn_rate_bps)) then
    Err (InvalidConfig "base_burn_rate_bps must be <= max_burn_rate_bps")
  else if bool_decide (c.(high_congestion_threshold) <= c.(congestion_threshold)) then
    Err (InvalidConfig "congestion_threshold must be < high_congestion_threshold")
  else Ok tt.

(** ** State *)
Record FeeSplit := {
  fs_prover : TokenAmount;
  fs_validator : TokenAmount;
  fs_burn : TokenAmount;
}.

Record Delegation := {
  dg_delegator : Address;
  dg_amount : TokenAmount;
  dg_delegated_at : N;
}.

Record StakeInfo := {
  si_address : Address;
  si_role : StakeRole;
  si_staked : TokenAmount;
  si_unbonding : TokenAmount;
  si_unbonding_complete_time : N;
  si_slash_count : N;
  si_jailed_until : N;
  si_tombstoned : bool;
  si_total_rewards : TokenAmount;
  si_registered_at : N;
  si_delegators : list Delegation;
  si_useful_work_score : N;
}.

Definition StakeInfo_new (address : Address) (role : StakeRole) (amount : TokenAmount)
    (timestamp : N) : StakeInfo := {|
  si_address := address;
  si_role := role;
  si_staked := amount;
  si_unbonding := 0;
  si_unbonding_complete_time := 0;
  si_slash_count := 0;
  si_jailed_until := 0;
  si_tombstoned := false;
  si_total_rewards := 0;
  si_registered_at := timestamp;
  si_delegators := [];
  si_useful_work_score := 0;
|}.

Definition StakeInfo_is_active (i : StakeInfo) (current_time : N) : bool :=
  negb i.(si_tombstoned) && bool_decide (i.(si_jailed_until) <= current_time).

(** [iter().map(..).sum()] adds with the profile's [+]. *)
Definition effective_stake `{Build} (i : StakeInfo) : Result TokenAmount :=
  delegation_total ← foldl (λ acc d, t ← acc; u_add U128_MAX t d.(dg_amount)) (Ok 0)
                       i.(si_delegators);
  u_add U128_MAX i.(si_staked) delegation_total.

Record StakingManager := {
  sm_config : StakingConfig;
  sm_stakers : gmap Address StakeInfo;
  sm_total_staked : TokenAmount;
  sm_total_burned : TokenAmount;
  sm_network_utilization : N;
  sm_current_burn_rate_bps : N;
  sm_events : list StakingEvent;
  sm_current_block : N;
}.

Definition StakingManager_new (config : StakingConfig) : StakingManager := {|
  sm_config := config;
  sm_stakers := ∅;
  sm_total_staked := 0;
  sm_total_burned := 0;
  sm_network_utilization := 0;
  sm_current_burn_rate_bps := config.(base_burn_rate_bps);
  sm_events := [];
  sm_current_block := 0;
|}.

Abbreviation StakingM := (M SystemContractError StakingManager).

(** Field assignments. *)
Definition si_with_stake (staked unbonding complete : N) (i : StakeInfo) : StakeInfo :=
  {| si_address := i.(si_address); si_role := i.(si_role); si_staked := staked;
     si_unbonding := unbonding; si_unbonding_complete_time := complete;
     si_slash_count := i.(si_slash_count); si_jailed_until := i.(si_jailed_until);
     si_tombstoned := i.(si_tombstoned); si_total_rewards := i.(si_total_rewards);
     si_registered_at := i.(si_registered_at); si_delegators := i.(si_delegators);
     si_useful_work_score := i.(si_useful_work_score) |}.
Definition si_with_penalty (count jailed : N) (tombstoned : bool) (i : StakeInfo) : StakeInfo :=
  {| si_address := i.(si_address); si_role := i.(si_role); si_staked := i.(si_staked);
     si_unbonding := i.(si_unbonding);
     si_unbonding_complete_time := i.(si_unbonding_complete_time);
     si_slash_count := count; si_jailed_until := jailed; si_tombstoned := tombstoned;
     si_total_rewards := i.(si_total_rewards); si_registered_at := i.(si_registered_at);
     si_delegators := i.(si_delegators); si_useful_work_score := i.(si_useful_work_score) |}.
Definition si_with_rewards (rewards : N) (i : StakeInfo) : StakeInfo :=
  {| si_address := i.(si_address); si_role := i.(si_role); si_staked := i.(si_staked);
     si_unbonding := i.(si_unbonding);
     si_unbonding_complete_time := i.(si_unbonding_complete_time);
     si_slash_count := i.(si_slash_count); si_jailed_until := i.(si_jailed_until);
     si_tombstoned := i.(si_tombstoned); si_total_rewards := rewards;
     si_registered_at := i.(si_registered_at); si_delegators := i.(si_delegators);
     si_useful_work_score := i.(si_useful_work_score) |}.

Definition sm_with_stakers (v : gmap Address StakeInfo) (m : StakingManager) : StakingManager :=
  {| sm_config := m.(sm_config); sm_stakers := v; sm_total_staked := m.(sm_total_staked);
     sm_total_burned := m.(sm_total_burned);
     sm_network_utilization := m.(sm_network_utilization);
     sm_current_burn_rate_bps := m.(sm_current_burn_rate_bps); sm_events := m.(sm_events);
     sm_current_block := m.(sm_current_block) |}.
Definition sm_with_totals (staked burned : N) (m : StakingManager) : StakingManager :=
  {| sm_config := m.(sm_config); sm_stakers := m.(sm_stakers); sm_total_staked := staked;
     sm_total_burned := burned; sm_network_utilization := m.(sm_network_utilization);
     sm_current_burn_rate_bps := m.(sm_current_burn_rate_bps); sm_events := m.(sm_events);
     sm_current_block := m.(sm_current_block) |}.
Definition sm_with_utilization (utilization rate : N) (m : StakingManager) : StakingManager :=
  {| sm_config := m.(sm_config); sm_stakers := m.(sm_stakers);
     sm_total_staked := m.(sm_total_staked); sm_total_burned := m.(sm_total_burned);
     sm_network_utilization := utilization; sm_current_burn_rate_bps := rate;
     sm_events := m.(sm_events); sm_current_block := m.(sm_current_block) |}.
Definition sm_with_events (v : list StakingEvent) (m : StakingManager) : StakingManager :=
  {| sm_config := m.(sm_config); sm_stakers := m.(sm_stakers);
     sm_total_staked := m.(sm_total_staked); sm_total_burned := m.(sm_total_burned);
     sm_network_utilization := m.(sm_network_utilization);
     sm_current_burn_rate_bps := m.(sm_current_burn_rate_bps); sm_events := v;
     sm_current_block := m.(sm_current_block) |}.
Definition sm_with_block (v : N) (m : StakingManager) : StakingManager :=
  {| sm_config := m.(sm_config); sm_stakers := m.(sm_stakers);
     sm_total_staked := m.(sm_total_staked); sm_total_burned := m.(sm_total_burned);
     sm_network_utilization := m.(sm_network_utilization);
     sm_current_burn_rate_bps := m.(sm_current_burn_rate_bps); sm_events := m.(sm_events);
     sm_current_block := v |}.

Definition put_staker (addr : Address) (i : StakeInfo) : StakingM unit :=
  modify (λ m, sm_with_stakers (<[addr := i]> m.(sm_stakers)) m).

Definition push_staking_event (e : StakingEvent) : StakingM unit :=
  modify (λ m, sm_with_events (m.(sm_events) ++ [e]) m).

Definition Staking_drain_events : StakingM (list StakingEvent) :=
  m ← get;
  put (sm_with_events [] m) ;;
  mret m.(sm_events).

(** The minimum of a role, [match role { .. }] in [stake] and [unstake]. *)
Definition role_min_stake (c : StakingConfig) (role : StakeRole) : TokenAmount :=
  match role with
  | Validator => c.(min_validator_stake)
  | ComputeNode => c.(min_compute_stake)
  | Delegator => c.(min_delegator_stake)
  end.

Section staking.
Context `{Build}.

(** ** Adaptive burn *)
Definition congestion_burn_rate (c : StakingConfig) (utilization : N) : Result N :=
  if bool_decide (c.(high_congestion_threshold) < utilization) then Ok c.(max_burn_rate_bps)
  else if bool_decide (c.(congestion_threshold) < utilization) then
    range ← u_sub U16_MAX c.(max_burn_rate_bps) c.(base_burn_rate_bps);
    congestion_range ← u_sub U8_MAX c.(high_congestion_threshold) c.(congestion_threshold);
    excess ← u_sub U8_MAX utilization c.(congestion_threshold);
    product ← u_mul U32_MAX range excess;
    additional ← u_div product congestion_range;
    u_add U16_MAX c.(base_burn_rate_bps) (cast U16_MAX additional)
  else Ok c.(base_burn_rate_bps).

Definition update_utilization (utilization : N) : StakingM unit :=
  m ← get;
  let old_utilization := m.(sm_network_utilization) in
  let new_utilization := N.min utilization 100 in
  put (sm_with_utilization new_utilization m.(sm_current_burn_rate_bps) m) ;;
  new_burn_rate ← lift (congestion_burn_rate m.(sm_config) utilization);
  when (negb (bool_decide (new_burn_rate = m.(sm_current_burn_rate_bps))))
    (modify (sm_with_utilization new_utilization new_burn_rate) ;;
     push_staking_event (UtilizationUpdated old_utilization new_utilization
       (cast U8_MAX new_burn_rate) m.(sm_current_block))).

Definition calculate_fee_split (m : StakingManager) (fee : TokenAmount)
  : Result (TokenAmount * TokenAmount * TokenAmount) :=
  p ← u_mul U128_MAX fee 70;
  prover_amount ← u_div p 100;
  q ← u_mul U128_MAX fee m.(sm_current_burn_rate_bps);
  burn_amount ← u_div q 10000;
  let validator_amount := sat_sub (sat_sub fee prover_amount) burn_amount in
  Ok (prover_amount, validator_amount, burn_amount).

(** ** Staking *)
Definition stake (staker : Address) (amount : TokenAmount) (role : StakeRole)
  : M SystemContractError (StakingManager * Bank) unit :=
  m ← gets fst;
  let min_stake := role_min_stake m.(sm_config) role in
  ensure (negb (bool_decide (amount < min_stake))) (InsufficientStake min_stake amount) ;;
  on_snd (lock staker amount) ;;
  let info := default (StakeInfo_new staker role 0 m.(sm_current_block))
                (m.(sm_stakers) !! staker) in
  let info := si_with_stake (sat_add U128_MAX info.(si_staked) amount) info.(si_unbonding)
                info.(si_unbonding_complete_time) info in
  on_fst (put_staker staker info ;;
          modify (λ m, sm_with_totals (sat_add U128_MAX m.(sm_total_staked) amount)
                         m.(sm_total_burned) m) ;;
          push_staking_event (Staked staker amount role info.(si_staked) m.(sm_current_block))).

Definition unstake (staker : Address) (amount : TokenAmount) (ctx : BlockContext)
  : StakingM unit :=
  m ← get;
  info ← ok_or (m.(sm_stakers) !! staker) (StakerNotFound staker);
  ensure (negb (bool_decide (ctx.(ctx_timestamp) < info.(si_jailed_until)))) SlashingInProgress ;;
  let available := sat_sub info.(si_staked) info.(si_unbonding) in
  ensure (negb (bool_decide (available < amount))) (CannotUnstake amount available) ;;
  let remaining := sat_sub info.(si_staked) amount in
  let min_stake := role_min_stake m.(sm_config) info.(si_role) in
  ensure (negb (bool_decide (0 < remaining) && bool_decide (remaining < min_stake)))
    (InsufficientStake min_stake remaining) ;;
  let unbonding := sat_add U128_MAX info.(si_unbonding) amount in
  put_staker staker (si_with_stake info.(si_staked) unbonding
                       info.(si_unbonding_complete_time) info) ;;
  complete ← lift (u_add U64_MAX ctx.(ctx_timestamp) m.(sm_config).(unbonding_period));
  put_staker staker (si_with_stake info.(si_staked) unbonding complete info) ;;
  push_staking_event (UnstakeInitiated staker amount complete ctx.(ctx_height)).

Definition withdraw (staker : Address) (ctx : BlockContext)
  : M SystemContractError (StakingManager * Bank) TokenAmount :=
  m ← gets fst;
  info ← ok_or (m.(sm_stakers) !! staker) (StakerNotFound staker);
  ensure (negb (bool_decide (info.(si_unbonding) = 0))) NothingToWithdraw ;;
  ensure (negb (bool_decide (ctx.(ctx_timestamp) < info.(si_unbonding_complete_time))))
    (UnstakeInProgress info.(si_unbonding_complete_time)) ;;
  let amount := info.(si_unbonding) in
  on_fst (put_staker staker (si_with_stake (sat_sub info.(si_staked) amount) 0 0 info) ;;
          modify (λ m, sm_with_totals (sat_sub m.(sm_total_staked) amount)
                         m.(sm_total_burned) m)) ;;
  on_snd (unlock staker amount) ;;
  on_fst (push_staking_event (StakeWithdrawn staker amount ctx.(ctx_height))) ;;
  mret amount.

(** ** Slashing *)
Definition Staking_slash (staker : Address) (rate_bps : N) (reason : string) (jail : bool)
  : M SystemContractError (StakingManager * RwLock Bank) TokenAmount :=
  m ← gets fst;
  info ← ok_or (m.(sm_stakers) !! staker) (StakerNotFound staker);
  product ← lift (u_mul U128_MAX info.(si_staked) rate_bps);
  slash_amount ← lift (u_div product 10000);
  actual_slashed ← on_snd (with_write (Bank_slash staker slash_amount));
  let info := si_with_stake (sat_sub info.(si_staked) actual_slashed) info.(si_unbonding)
                info.(si_unbonding_complete_time) info in
  on_fst (put_staker staker info) ;;
  count ← lift (u_add U32_MAX info.(si_slash_count) 1);
  let info := si_with_penalty count info.(si_jailed_until) info.(si_tombstoned) info in
  on_fst (put_staker staker info ;;
          modify (λ m, sm_with_totals (sat_sub m.(sm_total_staked) actual_slashed)
                         (sat_add U128_MAX m.(sm_total_burned) actual_slashed) m)) ;;
  let params := m.(sm_config).(sc_slashing) in
  info ← (if jail then
      let jail_duration := if bool_decide (params.(double_sign_bps) <= rate_bps)
                           then params.(major_jail_duration)
                           else params.(minor_jail_duration) in
      until ← lift (u_add U64_MAX m.(sm_current_block) jail_duration);
      let info := si_with_penalty count until info.(si_tombstoned) info in
      on_fst (put_staker staker info ;;
              push_staking_event (ValidatorJailed staker reason until m.(sm_current_block))) ;;
      mret info
    else mret info);
  on_fst (when (bool_decide (params.(tombstone_threshold) <= count))
            (put_staker staker (si_with_penalty count info.(si_jailed_until) true info)) ;;
          push_staking_event (StakeSlashed staker actual_slashed reason None
            m.(sm_current_block))) ;;
  mret actual_slashed.

Definition slash_for_sla_violation (staker : Address)
  : M SystemContractError (StakingManager * RwLock Bank) TokenAmount :=
  m ← gets fst;
  Staking_slash staker m.(sm_config).(sc_slashing).(sla_violation_bps) "SLA violation" true.

Definition slash_for_invalid_proof (staker : Address)
  : M SystemContractError (StakingManager * RwLock Bank) TokenAmount :=
  m ← gets fst;
  Staking_slash staker m.(sm_config).(sc_slashing).(invalid_proof_bps) "Invalid proof" true.

Definition slash_for_double_sign (staker : Address)
  : M SystemContractError (StakingManager * RwLock Bank) TokenAmount :=
  m ← gets fst;
  Staking_slash staker m.(sm_config).(sc_slashing).(double_sign_bps) "Double signing" true.

(** ** Rewards *)
(** [if let Some(info) = self.stakers.get_mut(a) { info.total_rewards = .. }] *)
Definition add_rewards (addr : Address) (amount : TokenAmount) : StakingM unit :=
  modify (λ m, sm_with_stakers
    (alter (λ i, si_with_rewards (sat_add U128_MAX i.(si_total_rewards) amount) i) addr
       m.(sm_stakers)) m).

Definition distribute_rewards (fee : TokenAmount) (prover validator : Address)
  : StakingM FeeSplit :=
  m ← get;
  '(prover_amount, validator_amount, burn_amount) ← lift (calculate_fee_split m fee);
  add_rewards prover prover_amount ;;
  add_rewards validator validator_amount ;;
  modify (λ m, sm_with_totals m.(sm_total_staked)
                 (sat_add U128_MAX m.(sm_total_burned) burn_amount) m) ;;
  let height := m.(sm_current_block) in
  push_staking_event (RewardsDistributed prover prover_amount "job_completion" height) ;;
  push_staking_event (RewardsDistributed validator validator_amount "block_proposal" height) ;;
  push_staking_event (TokensBurned burn_amount "fee_burn" height) ;;
  mret {| fs_prover := prover_amount; fs_validator := validator_amount;
          fs_burn := burn_amount |}.
End staking.

(** ** End of block *)
Definition jail_over (ctx : BlockContext) (i : StakeInfo) : bool :=
  bool_decide (0 < i.(si_jailed_until)) && bool_decide (i.(si_jailed_until) <= ctx.(ctx_timestamp))
  && negb i.(si_tombstoned).

Definition unjail (ctx : BlockContext) (i : StakeInfo) : StakeInfo :=
  if jail_over ctx i then si_with_penalty i.(si_slash_count) 0 i.(si_tombstoned) i else i.

(** [for info in self.stakers.values_mut()]: the order in which a hash map
    yields its values is unspecified; the events are listed in [map_to_list]
    order. *)
Definition unjail_events (ctx : BlockContext) (m : StakingManager) : list StakingEvent :=
  (λ p, ValidatorUnjailed p.2.(si_address) ctx.(ctx_height)) <$>
    filter (λ p, jail_over ctx p.2 = true) (map_to_list m.(sm_stakers)).

Definition Staking_end_block (ctx : BlockContext) : StakingM (list StakingEvent) :=
  modify (sm_with_block ctx.(ctx_height)) ;;
  modify (λ m, sm_with_events (m.(sm_events) ++ unjail_events ctx m)
                 (sm_with_stakers (unjail ctx <$> m.(sm_stakers)) m)) ;;
  Staking_drain_events.

(** ** Queries *)
Record StakingStats := {
  ss_total_staked : TokenAmount;
  ss_total_burned : TokenAmount;
  ss_validator_count : N;
  ss_compute_node_count : N;
  ss_network_utilization : N;
  ss_current_burn_rate_bps : N;
}.

Definition stakers_with_role (role : StakeRole) (m : StakingManager) : list StakeInfo :=
  filter (λ i, i.(si_role) = role) (map_to_list m.(sm_stakers)).*2.

Definition Staking_validators (m : StakingManager) : list StakeInfo :=
  stakers_with_role Validator m.

Definition compute_nodes (m : StakingManager) : list StakeInfo :=
  stakers_with_role ComputeNode m.

Definition Staking_stats (m : StakingManager) : StakingStats := {|
  ss_total_staked := m.(sm_total_staked);
  ss_total_burned := m.(sm_total_burned);
  ss_validator_count := cast U32_MAX (N.of_nat (length (Staking_validators m)));
  ss_compute_node_count := cast U32_MAX (N.of_nat (length (compute_nodes m)));
  ss_network_utilization := m.(sm_network_utilization);
  ss_current_burn_rate_bps := m.(sm_current_burn_rate_bps);
|}.
