(* ===== verification/StakingSpec.v ===== *)
(** * What the staking manager promises

    The fee split and the burn rate stay in their documented ranges, the stake
    registry and the bank's locks agree, a stake round-trips, and what slashing
    breaks. *)
From S2P Require Import Prelude SysTypes Bank BankSpec Staking.
From stdpp Require Import base gmap list strings.
From Stdlib Require Import ZArith Lia.
#[local] Open Scope N_scope.

(** ** Fee split *)
Section fees.
Context `{Build}.

Lemma fee_split_eq m fee :
  fee * 70 <= U128_MAX → fee * m.(sm_current_burn_rate_bps) <= U128_MAX →
  calculate_fee_split m fee =
    Ok (fee * 70 / 100,
        fee - fee * 70 / 100 - fee * m.(sm_current_burn_rate_bps) / 10000,
        fee * m.(sm_current_burn_rate_bps) / 10000).
Proof.
  intros H1 H2. unfold calculate_fee_split.
  by rewrite (u_mul_ok _ fee 70), (u_mul_ok _ fee (sm_current_burn_rate_bps m)) by done.
Qed.

(** With a burn rate of at most 30% (every shipped configuration stays
    below 15%), the split of a fee that fits the arithmetic pays out exactly
    the fee: 70% rounded down to the prover, the burn rate rounded down to the
    burn, everything else, and never less than the remaining share, to the
    validator. *)
Lemma fee_split_exact m fee :
  m.(sm_current_burn_rate_bps) <= 3000 → fee * 3000 <= U128_MAX →
  ∃ prover validator burned,
    calculate_fee_split m fee = Ok (prover, validator, burned)
    ∧ prover + validator + burned = fee
    ∧ prover = fee * 70 / 100
    ∧ burned = fee * m.(sm_current_burn_rate_bps) / 10000
    ∧ fee * (3000 - m.(sm_current_burn_rate_bps)) / 10000 <= validator.
Proof.
  intros Hr Hf. set (r := m.(sm_current_burn_rate_bps)) in *.
  do 3 eexists. rewrite fee_split_eq; [split; [reflexivity|]|lia|fold r; nia].
  fold r.
  assert (fee * r + fee * (3000 - r) = fee * 3000) as Hx.
  { rewrite <- N.mul_add_distr_l. f_equal. lia. }
  clearbody r. div_elim. split_and!; done || lia.
Qed.
End fees.

Lemma fee_split_exact_witness :
  let build := {| overflow_checks := true; feature_sgx := false; feature_zkp := false |} in
  let m := StakingManager_new StakingConfig_mainnet in
  calculate_fee_split m 1000 = Ok (700, 250, 50)
  ∧ ∃ p v b, calculate_fee_split m 1000 = Ok (p, v, b) ∧ p + v + b = 1000.
Proof.
  split; [vm_compute; reflexivity|].
  destruct (fee_split_exact
    (H := {| overflow_checks := true; feature_sgx := false; feature_zkp := false |})
    (StakingManager_new StakingConfig_mainnet) 1000)
    as (p & v & b & He & Hs & _); [vm_compute; discriminate..|].
  eauto.
Defined.

(** ** Adaptive burn rate *)

(** A configuration that passed [validate], with the widths of its fields. *)
Record config_valid (c : StakingConfig) : Prop := {
  cv_validate : StakingConfig_validate c = Ok tt;
  cv_rate : c.(max_burn_rate_bps) <= U16_MAX;
  cv_threshold : c.(high_congestion_threshold) <= U8_MAX;
}.

Lemma validate_facts c :
  StakingConfig_validate c = Ok tt →
  0 < c.(min_validator_stake) ∧ c.(base_burn_rate_bps) <= c.(max_burn_rate_bps)
  ∧ c.(congestion_threshold) < c.(high_congestion_threshold).
Proof.
  unfold StakingConfig_validate. repeat case_bool_decide; intros; simplify_eq; lia.
Qed.

(** The rate in closed form. *)
Definition burn_rate_at (c : StakingConfig) (u : N) : N :=
  if bool_decide (c.(high_congestion_threshold) < u) then c.(max_burn_rate_bps)
  else if bool_decide (c.(congestion_threshold) < u) then
    c.(base_burn_rate_bps) +
      (c.(max_burn_rate_bps) - c.(base_burn_rate_bps)) * (u - c.(congestion_threshold))
        / (c.(high_congestion_threshold) - c.(congestion_threshold))
  else c.(base_burn_rate_bps).

(** Interpolation stays inside the interval. *)
Lemma interpolate_le range x y : y ≠ 0 → x <= y → range * x / y <= range.
Proof.
  intros Hy Hx. transitivity (range * y / y).
  - apply N.Div0.div_le_mono. by apply N.mul_le_mono_l.
  - rewrite N.div_mul by done. lia.
Qed.

Lemma congestion_burn_rate_eq `{Build} c u :
  config_valid c → congestion_burn_rate c u = Ok (burn_rate_at c u).
Proof.
  intros [Hv Hr Ht]. apply validate_facts in Hv as (_ & Hb & Hc).
  unfold congestion_burn_rate, burn_rate_at.
  case_bool_decide; [done|]. case_bool_decide; [|done].
  set (range := max_burn_rate_bps c - base_burn_rate_bps c).
  set (x := u - congestion_threshold c).
  set (y := high_congestion_threshold c - congestion_threshold c).
  pose proof (interpolate_le range x y ltac:(lia) ltac:(lia)).
  rewrite !u_sub_ok by lia. fold range x y. cbn.
  rewrite u_mul_ok by nia. cbn. rewrite u_div_ok by lia. cbn.
  div_abstract. unfold cast. rewrite N.mod_small by lia. apply u_add_ok. lia.
Qed.

Lemma burn_rate_at_range c u :
  config_valid c → c.(base_burn_rate_bps) <= burn_rate_at c u <= c.(max_burn_rate_bps).
Proof.
  intros [Hv _ _]. apply validate_facts in Hv as (_ & Hb & Hc).
  unfold burn_rate_at. case_bool_decide; [lia|]. case_bool_decide; [|lia].
  pose proof (interpolate_le (max_burn_rate_bps c - base_burn_rate_bps c)
    (u - congestion_threshold c)
    (high_congestion_threshold c - congestion_threshold c) ltac:(lia) ltac:(lia)).
  div_abstract. lia.
Qed.

Lemma burn_rate_at_mono c u u' :
  config_valid c → u <= u' → burn_rate_at c u <= burn_rate_at c u'.
Proof.
  intros Hcv Hu. pose proof (burn_rate_at_range c u Hcv). pose proof (burn_rate_at_range c u' Hcv).
  unfold burn_rate_at in *. repeat case_bool_decide; try lia.
  apply N.add_le_mono_l, N.Div0.div_le_mono, N.mul_le_mono_l. lia.
Qed.

(** For a validated configuration, updating the network utilization never
    panics, whatever the reading; the new burn rate is the documented
    interpolation, lies between the base and the maximum rate, does not
    decrease when the reading increases, and the stored utilization is at most
    100. *)
Lemma update_utilization_correct `{Build} m u :
  config_valid m.(sm_config) →
  let r := update_utilization u m in
  r.1 = Ok tt
  ∧ r.2.(sm_current_burn_rate_bps) = burn_rate_at m.(sm_config) u
  ∧ m.(sm_config).(base_burn_rate_bps) <= r.2.(sm_current_burn_rate_bps)
      <= m.(sm_config).(max_burn_rate_bps)
  ∧ r.2.(sm_network_utilization) <= 100
  ∧ ∀ u', u <= u' →
      r.2.(sm_current_burn_rate_bps) <= (update_utilization u' m).2.(sm_current_burn_rate_bps).
Proof.
  intros Hcv.
  assert (∀ v, (update_utilization v m).1 = Ok tt
    ∧ (update_utilization v m).2.(sm_current_burn_rate_bps) = burn_rate_at m.(sm_config) v
    ∧ (update_utilization v m).2.(sm_network_utilization) <= 100) as Hupd.
  { intros v. unfold update_utilization, push_staking_event. mrun.
    rewrite congestion_burn_rate_eq by done. case_bool_decide; cbn; split_and!; done || lia. }
  destruct (Hupd u) as (H1 & H2 & H3). split_and!; try done.
  - rewrite H2. by apply burn_rate_at_range.
  - rewrite H2. by apply burn_rate_at_range.
  - intros u' Hu. destruct (Hupd u') as (_ & -> & _). rewrite H2. by apply burn_rate_at_mono.
Qed.

Lemma update_utilization_correct_witness :
  let build := {| overflow_checks := true; feature_sgx := false; feature_zkp := false |} in
  let m := StakingManager_new StakingConfig_mainnet in
  (update_utilization 65 m).1 = Ok tt
  ∧ (update_utilization 65 m).2.(sm_current_burn_rate_bps) = 1000.
Proof.
  split; [|vm_compute; reflexivity].
  apply (update_utilization_correct (StakingManager_new StakingConfig_mainnet) 65).
  split; vm_compute; done || discriminate.
Defined.

(** ** The stake registry and the bank's locks

    Every recorded stake is covered by locked tokens of its owner, no more is
    unbonding than is staked, and the recorded total is the sum. *)
Definition backed (stakers : gmap Address StakeInfo) (b : Bank) : Prop :=
  ∀ a, default 0 (si_staked <$> stakers !! a) <= acc_locked (account_or_default a b).

Record staking_inv (s : StakingManager * Bank) : Prop := {
  inv_bank : bank_wf s.2;
  inv_total : s.1.(sm_total_staked) = map_sum si_staked s.1.(sm_stakers);
  inv_unbonding : map_Forall (λ _ i, i.(si_unbonding) <= i.(si_staked)) s.1.(sm_stakers);
  inv_backed : backed s.1.(sm_stakers) s.2;
}.

Lemma backed_sum stakers b :
  bank_wf b → backed stakers b → map_sum si_staked stakers <= U128_MAX.
Proof.
  intros [Hacc Hb Hr] Hbk. transitivity (total_balance b); [|lia].
  apply map_sum_mono. intros a. specialize (Hbk a). unfold account_or_default in Hbk.
  destruct (bk_accounts b !! a) as [acc|] eqn:Ha; cbn in *; [|lia].
  apply Hacc in Ha. unfold account_wf in Ha. lia.
Qed.

(** Replacing one staker's record while the owner's lock moves to [lk]. *)
Lemma backed_update stakers b b' addr i :
  backed stakers b →
  i.(si_staked) <= acc_locked (account_or_default addr b') →
  (∀ a, a ≠ addr → account_or_default a b' = account_or_default a b) →
  backed (<[addr := i]> stakers) b'.
Proof.
  intros Hbk Hi Hsame a. destruct (decide (a = addr)) as [->|Hne].
  - by rewrite lookup_insert_eq.
  - rewrite lookup_insert_ne by done. rewrite (Hsame a Hne). apply Hbk.
Qed.

Lemma staked_default (stakers : gmap Address StakeInfo) (addr : Address) d :
  d.(si_staked) = 0 →
  default 0 (si_staked <$> stakers !! addr) = si_staked (default d (stakers !! addr)).
Proof. intros. by destruct (stakers !! addr). Qed.

(** One staker's record and its owner's lock change together. *)
Lemma inv_update m b m' b' addr i :
  staking_inv (m, b) → bank_wf b' →
  m'.(sm_stakers) = <[addr := i]> m.(sm_stakers) →
  m'.(sm_total_staked) + default 0 (si_staked <$> m.(sm_stakers) !! addr)
    = m.(sm_total_staked) + i.(si_staked) →
  i.(si_unbonding) <= i.(si_staked) →
  i.(si_staked) <= acc_locked (account_or_default addr b') →
  (∀ a, a ≠ addr → account_or_default a b' = account_or_default a b) →
  staking_inv (m', b').
Proof.
  intros [Hwf Ht Hu Hb] Hwf' Hm Htot Hub Hlk Hsame. cbn in *.
  pose proof (map_sum_insert si_staked (sm_stakers m) addr i) as Hins.
  split; cbn; rewrite ?Hm; [done|lia|by apply map_Forall_insert_2|].
  by apply (backed_update _ b).
Qed.

(** Records whose stake is untouched (rewards, jail), over the same bank. *)
Lemma inv_same m m' b :
  m'.(sm_total_staked) = m.(sm_total_staked) →
  (∀ a, (λ i, (i.(si_staked), i.(si_unbonding))) <$> m'.(sm_stakers) !! a
      = (λ i, (i.(si_staked), i.(si_unbonding))) <$> m.(sm_stakers) !! a) →
  staking_inv (m, b) → staking_inv (m', b).
Proof.
  intros Ht Hs [Hwf Htot Hu Hb]. cbn in *.
  assert (∀ a, default 0 (si_staked <$> sm_stakers m' !! a)
             = default 0 (si_staked <$> sm_stakers m !! a)) as Hst.
  { intros a. specialize (Hs a).
    destruct (sm_stakers m' !! a), (sm_stakers m !! a); cbn in *; simplify_eq; congruence. }
  split; cbn; [done| | |].
  - rewrite Ht, Htot. apply N.le_antisymm; apply map_sum_mono; intros a; rewrite Hst; lia.
  - intros a i Hi. specialize (Hs a). rewrite Hi in Hs.
    destruct (sm_stakers m !! a) as [j|] eqn:Hj; cbn in *; [|done].
    apply Hu in Hj. cbn in Hj. simplify_eq. lia.
  - intros a. rewrite Hst. apply Hb.
Qed.

Lemma locked_of a b acc :
  b.(bk_accounts) !! a = Some acc → acc_locked (account_or_default a b) = acc.(acc_locked).
Proof. intros Ha. by rewrite (account_lookup _ _ _ Ha). Qed.

Section invariant.
Context `{Build}.

Lemma stake_maintains staker amount role :
  stable (maintains staking_inv) (stake staker amount role).
Proof.
  intros [m b] Hinv. pose proof Hinv as [Hwf Ht Hu Hb]. cbn in *.
  unfold stake, put_staker, push_staking_event, on_fst, on_snd. mrun.
  case_bool_decide; cbn; [done|].
  pose proof (lock_step staker amount b Hwf) as (Hwf' & _). revert Hwf'. rewrite lock_eq.
  destruct (bk_accounts b !! staker) as [a|] eqn:Ha; cbn; [|done].
  case_bool_decide as Hav; cbn; [done|]. intros Hwf'.
  set (i0 := default _ (sm_stakers m !! staker)).
  pose proof (staked_default (sm_stakers m) staker
    (StakeInfo_new staker role 0 (sm_current_block m)) eq_refl) as Hd. fold i0 in Hd.
  pose proof (Hb staker) as Hst. rewrite (locked_of _ _ _ Ha), Hd in Hst.
  pose proof (wf_accounts _ Hwf _ _ Ha) as Haw. unfold account_wf in Haw.
  pose proof (balance_le_total staker b) as Hle. rewrite (account_lookup _ _ _ Ha) in Hle.
  pose proof (wf_backed _ Hwf). pose proof (wf_range _ Hwf).
  assert (si_unbonding i0 <= si_staked i0).
  { unfold i0. destruct (sm_stakers m !! staker) as [i|] eqn:Hi; cbn; [exact (Hu _ _ Hi)|lia]. }
  assert (sm_total_staked m + amount <= U128_MAX) as Hmax.
  { rewrite Ht. set (lk := set_locked (sat_add U128_MAX (acc_locked a) amount) a) in Hwf'.
    set (i1 := si_with_stake (si_staked i0 + amount) 0 0 i0).
    pose proof (map_sum_insert si_staked (sm_stakers m) staker i1) as Hins.
    rewrite Hd in Hins. cbn in Hins.
    enough (map_sum si_staked (<[staker:=i1]> (sm_stakers m)) <= U128_MAX) by lia.
    apply (backed_sum _ (put_account staker lk b) Hwf'), (backed_update _ b); [done| |].
    - rewrite account_or_default_put. unfold available, sat_sub, sat_add in *. cbn. lia.
    - intros. by apply account_or_default_put_ne. }
  unfold available, sat_sub, sat_add in *.
  eapply (inv_update m b _ _ staker); [done|done|reflexivity|..]; cbn.
  - rewrite Hd. lia.
  - lia.
  - rewrite account_or_default_put. cbn. lia.
  - intros. by apply account_or_default_put_ne.
Qed.

Lemma unstake_maintains staker amount ctx :
  stable (maintains staking_inv) (on_fst (unstake staker amount ctx)).
Proof.
  intros [m b] Hinv. pose proof Hinv as [Hwf Ht Hu Hb]. cbn in *.
  unfold unstake, put_staker, push_staking_event, on_fst. mrun.
  destruct (sm_stakers m !! staker) as [i|] eqn:Hi; cbn; [|done].
  pose proof (Hu _ _ Hi) as Hui. cbn in Hui.
  pose proof (Hb staker) as Hbi. rewrite Hi in Hbi. cbn in Hbi.
  case_bool_decide; cbn; [done|]. case_bool_decide as Hav; cbn; [done|].
  destruct (_ && _); cbn; [done|].
  unfold sat_add, sat_sub in *.
  destruct (u_add _ _ _) as [t| | |]; cbn;
    (eapply (inv_update m b); [done|done|cbn; rewrite ?insert_insert_eq; reflexivity|..]); cbn;
    rewrite ?Hi; cbn; done || lia.
Qed.

(** Under the invariant the unlock of [withdraw] cannot fail. *)
Lemma withdraw_ok staker ctx m b i :
  staking_inv (m, b) → m.(sm_stakers) !! staker = Some i →
  i.(si_unbonding) ≠ 0 → i.(si_unbonding_complete_time) <= ctx.(ctx_timestamp) →
  ∃ a, b.(bk_accounts) !! staker = Some a ∧ i.(si_unbonding) <= a.(acc_locked) ∧
  withdraw staker ctx (m, b) =
    (Ok i.(si_unbonding),
     (sm_with_events (m.(sm_events) ++ [StakeWithdrawn staker i.(si_unbonding) ctx.(ctx_height)])
        (sm_with_totals (sat_sub m.(sm_total_staked) i.(si_unbonding)) m.(sm_total_burned)
           (sm_with_stakers
              (<[staker := si_with_stake (sat_sub i.(si_staked) i.(si_unbonding)) 0 0 i]>
                 m.(sm_stakers)) m)),
      put_account staker (set_locked (sat_sub a.(acc_locked) i.(si_unbonding)) a) b)).
Proof.
  intros [Hwf Ht Hu Hb] Hi Hn Hc. cbn in *.
  pose proof (Hu _ _ Hi) as Hui. pose proof (Hb staker) as Hbi. rewrite Hi in Hbi. cbn in *.
  unfold account_or_default in Hbi.
  destruct (bk_accounts b !! staker) as [a|] eqn:Ha; cbn in Hbi; [|lia].
  exists a. split_and!; [done|lia|].
  unfold withdraw, put_staker, push_staking_event, on_fst, on_snd. mrun. rewrite Hi. cbn.
  rewrite bool_decide_false by done. cbn. rewrite bool_decide_false by lia. cbn.
  rewrite unlock_eq, Ha. rewrite bool_decide_false by lia. done.
Qed.

Lemma withdraw_maintains staker ctx : stable (maintains staking_inv) (withdraw staker ctx).
Proof.
  intros [m b] Hinv. pose proof Hinv as [Hwf Ht Hu Hb]. cbn in *.
  destruct (sm_stakers m !! staker) as [i|] eqn:Hi;
    [|unfold withdraw; mrun; by rewrite Hi].
  destruct (decide (si_unbonding i = 0)) as [Hz|Hz];
    [unfold withdraw; mrun; rewrite Hi; cbn; by rewrite bool_decide_true|].
  destruct (decide (ctx_timestamp ctx < si_unbonding_complete_time i)) as [Hc|Hc];
    [unfold withdraw; mrun; rewrite Hi; cbn; rewrite bool_decide_false by done; cbn;
     by rewrite bool_decide_true|].
  pose proof (unlock_step staker (si_unbonding i) b Hwf) as (Hwf' & _).
  destruct (withdraw_ok staker ctx m b i) as (a & Ha & Hle & ->); [done..|lia|]. cbn.
  rewrite unlock_eq, Ha, bool_decide_false in Hwf' by lia. cbn in Hwf'.
  pose proof (Hu _ _ Hi) as Hui. cbn in Hui.
  pose proof (Hb staker) as Hbi. rewrite Hi, (locked_of _ _ _ Ha) in Hbi. cbn in Hbi.
  pose proof (map_sum_lookup_le si_staked _ _ _ Hi).
  unfold sat_sub in *.
  eapply (inv_update m b); [done|done|cbn; reflexivity|..]; cbn; rewrite ?Hi; cbn; try lia.
  - rewrite account_or_default_put. cbn. lia.
  - intros. by apply account_or_default_put_ne.
Qed.

Lemma update_utilization_maintains u :
  stable (maintains staking_inv) (on_fst (update_utilization u)).
Proof.
  intros [m b]. unfold update_utilization, push_staking_event, on_fst. mrun.
  destruct (congestion_burn_rate _ _); cbn; [case_bool_decide|..]; cbn; intros Hi;
    by apply (inv_same m).
Qed.

Lemma alter_rewards_same (a addr : Address) (n : N) (stakers : gmap Address StakeInfo) :
  (λ i, (i.(si_staked), i.(si_unbonding))) <$>
    alter (λ i, si_with_rewards (sat_add U128_MAX i.(si_total_rewards) n) i) addr stakers !! a
  = (λ i, (i.(si_staked), i.(si_unbonding))) <$> stakers !! a.
Proof. rewrite lookup_alter. case_decide; [subst|done]. by destruct (stakers !! a). Qed.

Lemma distribute_rewards_maintains fee prover validator :
  stable (maintains staking_inv) (on_fst (distribute_rewards fee prover validator)).
Proof.
  intros [m b]. unfold distribute_rewards, add_rewards, push_staking_event, on_fst. mrun.
  destruct (calculate_fee_split m fee) as [[[p v] n]| | |]; cbn; intros Hi;
    apply (inv_same m); try done.
  intros a. cbn. by rewrite !alter_rewards_same.
Qed.

Lemma unjail_same ctx i :
  (si_staked (unjail ctx i), si_unbonding (unjail ctx i)) = (si_staked i, si_unbonding i).
Proof. unfold unjail. by destruct (jail_over ctx i). Qed.

Lemma end_block_maintains ctx :
  stable (maintains staking_inv) (on_fst (Staking_end_block ctx)).
Proof.
  intros [m b]. unfold Staking_end_block, Staking_drain_events, on_fst. mrun.
  intros Hi. apply (inv_same m); [done| |done]. intros a. cbn. rewrite lookup_fmap, <- option_fmap_compose.
  apply option_fmap_ext. intros i. apply unjail_same.
Qed.

(** Every call of the manager but the slashes. *)
Inductive StakingOp :=
| OpStake (staker : Address) (amount : TokenAmount) (role : StakeRole)
| OpUnstake (staker : Address) (amount : TokenAmount) (ctx : BlockContext)
| OpWithdraw (staker : Address) (ctx : BlockContext)
| OpDistribute (fee : TokenAmount) (prover validator : Address)
| OpUtilization (u : N)
| OpEndBlock (ctx : BlockContext).

Definition run_staking_op (op : StakingOp)
  : M SystemContractError (StakingManager * Bank) unit :=
  match op with
  | OpStake staker amount role => stake staker amount role
  | OpUnstake staker amount ctx => on_fst (unstake staker amount ctx)
  | OpWithdraw staker ctx => withdraw staker ctx ;; mret tt
  | OpDistribute fee p v => on_fst (distribute_rewards fee p v) ;; mret tt
  | OpUtilization u => on_fst (update_utilization u)
  | OpEndBlock ctx => on_fst (Staking_end_block ctx) ;; mret tt
  end.

Definition run_staking_ops (ops : list StakingOp) (s : StakingManager * Bank)
  : StakingManager * Bank :=
  fold_left (λ s op, (run_staking_op op s).2) ops s.

#[local] Hint Resolve stake_maintains unstake_maintains withdraw_maintains
  update_utilization_maintains distribute_rewards_maintains end_block_maintains : stable.

Lemma run_staking_ops_maintain ops s : staking_inv s → staking_inv (run_staking_ops ops s).
Proof.
  revert s. induction ops as [|op ops IH]; intros s Hs; [done|]. apply IH.
  assert (stable (maintains staking_inv) (run_staking_op op)) as Hop; [|by apply Hop].
  destruct op; cbn; stable_body.
Qed.

(** As long as nobody is slashed, whatever calls are made on the staking
    manager and whichever of them fail, the recorded total is the sum of the
    recorded stakes, nobody has more unbonding than staked, and every recorded
    stake is covered by tokens locked in the bank by its owner. *)
Lemma staking_registry_sound ops s :
  staking_inv s → staking_inv (run_staking_ops ops s).
Proof. apply run_staking_ops_maintain. Qed.
End invariant.

Lemma staking_inv_new config b :
  bank_wf b → staking_inv (StakingManager_new config, b).
Proof.
  intros Hwf. split; cbn; [done|by rewrite map_sum_empty|apply map_Forall_empty|].
  intros a. rewrite lookup_empty. cbn. lia.
Qed.

(** ** A stake round-trips *)
Section roundtrip.
Context `{Build}.

Lemma checked_add_le max a b r : u_add (E:=SystemContractError) max a b = Ok r → r <= a + b.
Proof.
  unfold u_add, overflow. case_bool_decide; [intros [= <-]; lia|].
  destruct overflow_checks; [done|]. intros [= <-]. apply N.Div0.mod_le.
Qed.

(** Staking for the first time: what is recorded and what is locked. *)
Lemma stake_fresh m b staker amount role s1 :
  m.(sm_stakers) !! staker = None →
  stake staker amount role (m, b) = (Ok tt, s1) →
  ∃ a, b.(bk_accounts) !! staker = Some a ∧ amount <= available a
  ∧ s1.2 = put_account staker (set_locked (sat_add U128_MAX a.(acc_locked) amount) a) b
  ∧ s1.1.(sm_stakers) = <[staker := StakeInfo_new staker role (sat_add U128_MAX 0 amount)
      m.(sm_current_block)]> m.(sm_stakers)
  ∧ s1.1.(sm_config) = m.(sm_config)
  ∧ s1.1.(sm_total_staked) = sat_add U128_MAX m.(sm_total_staked) amount.
Proof.
  intros Hnone. unfold stake, put_staker, push_staking_event, on_fst, on_snd. mrun.
  case_bool_decide; cbn; [done|]. rewrite lock_eq, Hnone.
  destruct (bk_accounts b !! staker) as [a|] eqn:Ha; cbn; [|done].
  case_bool_decide as Hav; cbn; [done|]. intros [= <-]. cbn.
  exists a. split_and!; done || lia.
Qed.

Lemma unstake_all m i (b : Bank) staker ctx s2 :
  m.(sm_stakers) !! staker = Some i → i.(si_unbonding) = 0 → i.(si_staked) <= U128_MAX →
  on_fst (unstake staker i.(si_staked) ctx) (m, b) = (Ok tt, s2) →
  s2.2 = b ∧ s2.1.(sm_total_staked) = m.(sm_total_staked)
  ∧ ∃ t, t <= ctx.(ctx_timestamp) + m.(sm_config).(unbonding_period)
      ∧ s2.1.(sm_stakers) !! staker = Some (si_with_stake i.(si_staked) i.(si_staked) t i).
Proof.
  intros Hi Hz Hmax. unfold unstake, put_staker, push_staking_event, on_fst. mrun. rewrite Hi.
  cbn. case_bool_decide; cbn; [done|]. case_bool_decide; cbn; [done|].
  destruct (_ && _); cbn; [done|].
  destruct (u_add _ _ _) as [t| | |] eqn:Ht; cbn; try done. intros [= <-]. cbn.
  split_and!; [done..|]. exists t. split; [by apply (checked_add_le U64_MAX)|].
  rewrite lookup_insert_eq, Hz. unfold sat_add. do 2 f_equal. lia.
Qed.

(** A first stake comes back in full: stake, unstake the whole stake,
    and withdraw once the unbonding period has passed.  The withdrawal
    succeeds, returns the staked amount, leaves every bank account as it was
    before the stake and the recorded total unchanged. *)
Lemma stake_roundtrip m b staker amount role ctx ctx' s1 s2 :
  staking_inv (m, b) → m.(sm_stakers) !! staker = None → amount ≠ 0 →
  stake staker amount role (m, b) = (Ok tt, s1) →
  on_fst (unstake staker amount ctx) s1 = (Ok tt, s2) →
  ctx.(ctx_timestamp) + m.(sm_config).(unbonding_period) <= ctx'.(ctx_timestamp) →
  ∃ s3, withdraw staker ctx' s2 = (Ok amount, s3)
    ∧ s3.2.(bk_accounts) = b.(bk_accounts)
    ∧ s3.1.(sm_total_staked) = m.(sm_total_staked)
    ∧ si_staked <$> s3.1.(sm_stakers) !! staker = Some 0.
Proof.
  intros Hinv Hnone Hz Hst Hun Htime.
  pose proof (stake_maintains staker amount role (m, b) Hinv) as Hinv1.
  rewrite Hst in Hinv1. cbn in Hinv1.
  destruct (stake_fresh _ _ _ _ _ _ Hnone Hst) as (a & Ha & Hav & Hb1 & Hs1 & Hc1 & Ht1).
  pose proof (unstake_maintains staker amount ctx s1 Hinv1) as Hinv2. rewrite Hun in Hinv2.
  pose proof (account_bounds staker b (inv_bank _ Hinv)) as Hbd.
  rewrite (account_lookup _ _ _ Ha) in Hbd. cbn in Hbd.
  unfold available, sat_sub, sat_add in *.
  rewrite N.min_r in Hs1, Hb1 by lia. destruct s1 as [m1 b1]. cbn in *.
  assert (sm_stakers m1 !! staker = Some (StakeInfo_new staker role amount (sm_current_block m)))
    as Hi1 by (rewrite Hs1; apply lookup_insert_eq).
  destruct (unstake_all m1 _ b1 staker ctx s2 Hi1) as (Hb2 & Ht2 & t & Ht & Hi2);
    [done|cbn; lia|done|]. destruct s2 as [m2 b2]. cbn in *. subst b2.
  rewrite Hc1 in Ht.
  destruct (withdraw_ok staker ctx' m2 b1 _ Hinv2 Hi2) as (a2 & Ha2 & _ & Hw);
    [done|cbn; lia|].
  eexists. split; [exact Hw|]. cbn. subst b1. cbn in Ha2.
  rewrite lookup_insert_eq in Ha2. injection Ha2 as <-. cbn. unfold sat_sub.
  split_and!.
  - rewrite insert_insert_eq. apply insert_id. rewrite Ha. destruct a. unfold set_locked.
    cbn in *. by rewrite N.add_sub.
  - rewrite Ht2, Ht1. pose proof (inv_total _ Hinv1) as Htot. cbn in Htot.
    rewrite Hs1, map_sum_insert_None in Htot by done. cbn in Htot.
    pose proof (backed_sum _ _ (inv_bank _ Hinv1) (inv_backed _ Hinv1)) as Hs. cbn in Hs.
    pose proof (inv_total _ Hinv) as Htot0. cbn in Htot0. lia.
  - rewrite lookup_insert_eq. cbn. f_equal. lia.
Qed.
End roundtrip.

Lemma staking_registry_sound_witness :
  let build := {| overflow_checks := true; feature_sgx := false; feature_zkp := false |} in
  let b := Bank_from_genesis [{| ta_address := bytes32 1;
                                 ta_balance := 5000000000000000000; ta_vesting := None |}] in
  let ctx := BlockContext_default in
  let s := run_staking_ops [OpStake (bytes32 1) 3000000000000000000 Validator;
                            OpUnstake (bytes32 1) 1000000000000000000 ctx;
                            OpWithdraw (bytes32 1) ctx; OpEndBlock ctx]
             (StakingManager_new StakingConfig_devnet, b) in
  s.1.(sm_total_staked) = 3000000000000000000 ∧ staking_inv s.
Proof.
  split; [vm_compute; reflexivity|].
  apply (staking_registry_sound
    (H := {| overflow_checks := true; feature_sgx := false; feature_zkp := false |})).
  apply staking_inv_new, genesis_bank. vm_compute. discriminate.
Defined.

Lemma stake_roundtrip_witness :
  let build := {| overflow_checks := true; feature_sgx := false; feature_zkp := false |} in
  let b := Bank_from_genesis [{| ta_address := bytes32 1;
                                 ta_balance := 5000000000000000000; ta_vesting := None |}] in
  let m := StakingManager_new StakingConfig_devnet in
  let n := 2000000000000000000 in
  let late := {| ctx_height := 9; ctx_timestamp := 60; ctx_slot := 9; ctx_proposer := bytes32 7;
                 ctx_gas_limit := 1; ctx_gas_used := 0 |} in
  let s1 := (stake (bytes32 1) n Validator (m, b)).2 in
  let s2 := (on_fst (unstake (bytes32 1) n BlockContext_default) s1).2 in
  ∃ s3, withdraw (bytes32 1) late s2 = (Ok n, s3) ∧ s3.2.(bk_accounts) = b.(bk_accounts).
Proof.
  edestruct (stake_roundtrip
    (H := {| overflow_checks := true; feature_sgx := false; feature_zkp := false |})
    (StakingManager_new StakingConfig_devnet)
    (Bank_from_genesis [{| ta_address := bytes32 1;
                           ta_balance := 5000000000000000000; ta_vesting := None |}])
    (bytes32 1) 2000000000000000000 Validator BlockContext_default
    {| ctx_height := 9; ctx_timestamp := 60; ctx_slot := 9; ctx_proposer := bytes32 7;
       ctx_gas_limit := 1; ctx_gas_used := 0 |}) as (s3 & Hw & Hb & _).
  - apply staking_inv_new, genesis_bank. vm_compute. discriminate.
  - vm_compute. reflexivity.
  - discriminate.
  - vm_compute. reflexivity.
  - vm_compute. reflexivity.
  - vm_compute. discriminate.
  - exists s3. split; [exact Hw|exact Hb].
Defined.

(** ** Slashing *)
Section slashing.
Context `{Build}.

(** The record a slash of [n] tokens leaves behind. *)
Definition slashed_info (m : StakingManager) (rate n : N) (i : StakeInfo) : StakeInfo :=
  let p := m.(sm_config).(sc_slashing) in
  let until := m.(sm_current_block) +
    (if bool_decide (p.(double_sign_bps) <= rate) then p.(major_jail_duration)
     else p.(minor_jail_duration)) in
  si_with_penalty (i.(si_slash_count) + 1) until
    (i.(si_tombstoned) || bool_decide (p.(tombstone_threshold) <= i.(si_slash_count) + 1))
    (si_with_stake (i.(si_staked) - n) i.(si_unbonding) i.(si_unbonding_complete_time) i).

(** The quantities a slash computes are in range. *)
Record slash_in_range (m : StakingManager) (rate : N) (i : StakeInfo) : Prop := {
  sr_rate : rate <= 10000;
  sr_product : i.(si_staked) * rate <= U128_MAX;
  sr_count : i.(si_slash_count) < U32_MAX;
  sr_major : m.(sm_current_block) + m.(sm_config).(sc_slashing).(major_jail_duration) <= U64_MAX;
  sr_minor : m.(sm_current_block) + m.(sm_config).(sc_slashing).(minor_jail_duration) <= U64_MAX;
}.

Lemma slash_run m b staker rate reason i :
  staking_inv (m, b) → m.(sm_stakers) !! staker = Some i → i.(si_staked) ≠ 0 →
  slash_in_range m rate i →
  let n := i.(si_staked) * rate / 10000 in
  ∃ m', Staking_slash staker rate reason true (m, mkRwLock b false)
        = (Ok n, (m', mkRwLock (Bank_slash staker n b).2 false))
    ∧ (Bank_slash staker n b).1 = Ok n ∧ n <= i.(si_staked)
    ∧ m'.(sm_stakers) = <[staker := slashed_info m rate n i]> m.(sm_stakers)
    ∧ m'.(sm_total_staked) = m.(sm_total_staked) - n.
Proof.
  intros Hinv Hi Hz [Hr Hp Hc Hmaj Hmin] n.
  pose proof (inv_backed _ Hinv staker) as Hb. cbn in Hb. rewrite Hi in Hb. cbn in Hb.
  unfold account_or_default in Hb.
  destruct (bk_accounts b !! staker) as [a|] eqn:Ha; cbn in Hb; [|lia].
  assert (n <= si_staked i) as Hn.
  { unfold n. transitivity (si_staked i * 10000 / 10000).
    - apply N.Div0.div_le_mono. by apply N.mul_le_mono_l.
    - rewrite N.div_mul by done. lia. }
  assert ((Bank_slash staker n b).1 = Ok n) as Hsl.
  { rewrite slash_eq, Ha. cbn. rewrite N.min_l by lia. case_bool_decide; cbn; congruence. }
  unfold Staking_slash, put_staker, push_staking_event, on_fst, on_snd. mrun. rewrite Hi. cbn.
  rewrite u_mul_ok by done. cbn. rewrite u_div_ok by done. cbn. fold n.
  destruct (Bank_slash staker n b) as [o b'] eqn:Hbs. cbn in Hsl. subst o. cbn.
  rewrite u_add_ok by lia. cbn.
  rewrite u_add_ok by (case_bool_decide; done). cbn.
  case_bool_decide as Hd; cbn;
    (case_bool_decide as Ht; cbn; eexists; (split; [reflexivity|]); (split; [reflexivity|]);
     (split; [done|]); (split; [|done]); cbn; rewrite !insert_insert_eq; f_equal;
     unfold slashed_info; rewrite ?(bool_decide_true _ Hd), ?(bool_decide_false _ Hd),
       ?(bool_decide_true _ Ht), ?(bool_decide_false _ Ht), ?orb_true_r, ?orb_false_r; done).
Qed.

Lemma slash_burns staker n b a :
  bank_wf b → b.(bk_accounts) !! staker = Some a → n <= a.(acc_locked) →
  let b' := (Bank_slash staker n b).2 in
  b'.(bk_total_burned) = b.(bk_total_burned) + n
  ∧ acc_locked (account_or_default staker b') + n = a.(acc_locked)
  ∧ ∀ x, x ≠ staker → account_or_default x b' = account_or_default x b.
Proof.
  intros Hwf Ha Hn. pose proof (account_bounds staker b Hwf) as Hb.
  rewrite (account_lookup _ _ _ Ha) in Hb. cbn. rewrite slash_eq, Ha, N.min_l by done. cbn.
  case_bool_decide as Hz; cbn.
  - rewrite (account_lookup _ _ _ Ha), Hz. split_and!; [lia|lia|done].
  - unfold burn_supply, sat_add, sat_sub in *. cbn.
    rewrite account_or_default_supply, account_or_default_put. cbn. split_and!; [lia|lia|].
    intros. rewrite account_or_default_supply. by apply account_or_default_put_ne.
Qed.

(** Slashing a staker whose quantities are in range, with the bank's lock
    free, takes exactly [rate] basis points of the recorded stake (rounded
    down) out of the stake, the total and the owner's lock, counts them as
    burned in the bank, counts the offence, jails until [height + duration] and
    tombstones at the threshold; and the registry and the bank still agree
    provided what is left covers what is unbonding. *)
Lemma slash_correct m b staker rate reason i :
  staking_inv (m, b) → m.(sm_stakers) !! staker = Some i → i.(si_staked) ≠ 0 →
  slash_in_range m rate i →
  let n := i.(si_staked) * rate / 10000 in
  ∃ m' b', Staking_slash staker rate reason true (m, mkRwLock b false)
           = (Ok n, (m', mkRwLock b' false))
    ∧ m'.(sm_stakers) = <[staker := slashed_info m rate n i]> m.(sm_stakers)
    ∧ m'.(sm_total_staked) = m.(sm_total_staked) - n
    ∧ b'.(bk_total_burned) = b.(bk_total_burned) + n
    ∧ bank_step b b'
    ∧ (i.(si_unbonding) <= i.(si_staked) - n → staking_inv (m', b')).
Proof.
  intros Hinv Hi Hz Hr n. destruct Hinv as [Hwf Ht Hu Hb] eqn:Heq. cbn in *.
  destruct (slash_run m b staker rate reason i Hinv Hi Hz Hr) as (m' & Hrun & Hok & Hn & Hs & Htot).
  fold n in Hrun, Hok, Hn, Hs, Htot.
  pose proof (Hb staker) as Hbi. rewrite Hi in Hbi. cbn in Hbi. unfold account_or_default in Hbi.
  destruct (bk_accounts b !! staker) as [a|] eqn:Ha; cbn in Hbi; [|lia].
  destruct (slash_burns staker n b a Hwf Ha ltac:(lia)) as (Hbn & Hlk & Hoth).
  exists m', (Bank_slash staker n b).2. split_and!; try done; [apply slash_step|].
  intros Hub. pose proof (map_sum_lookup_le si_staked _ _ _ Hi).
  eapply (inv_update m b); [exact Hinv| |exact Hs|..]; cbn; rewrite ?Hi; cbn; try lia; [|done].
  by apply slash_step.
Qed.
End slashing.

Lemma slash_correct_witness :
  let build := {| overflow_checks := true; feature_sgx := false; feature_zkp := false |} in
  let b := Bank_from_genesis [{| ta_address := bytes32 1;
                                 ta_balance := 5000000000000000000; ta_vesting := None |}] in
  let s := run_staking_ops [OpStake (bytes32 1) 3000000000000000000 Validator]
             (StakingManager_new StakingConfig_devnet, b) in
  ∃ m' b', Staking_slash (bytes32 1) 500 "Double signing" true (s.1, mkRwLock s.2 false)
           = (Ok 150000000000000000, (m', mkRwLock b' false)) ∧ bank_step s.2 b'.
Proof.
  edestruct (slash_correct
    (H := {| overflow_checks := true; feature_sgx := false; feature_zkp := false |})
    (run_staking_ops (H := {| overflow_checks := true; feature_sgx := false;
                              feature_zkp := false |})
       [OpStake (bytes32 1) 3000000000000000000 Validator]
       (StakingManager_new StakingConfig_devnet, Bank_from_genesis
          [{| ta_address := bytes32 1; ta_balance := 5000000000000000000;
              ta_vesting := None |}])).1
    (run_staking_ops (H := {| overflow_checks := true; feature_sgx := false;
                              feature_zkp := false |})
       [OpStake (bytes32 1) 3000000000000000000 Validator]
       (StakingManager_new StakingConfig_devnet, Bank_from_genesis
          [{| ta_address := bytes32 1; ta_balance := 5000000000000000000;
              ta_vesting := None |}])).2
    (bytes32 1) 500 "Double signing"
    (StakeInfo_new (bytes32 1) Validator 3000000000000000000 0))
    as (m' & b' & Hrun & _ & _ & _ & Hst & _).
  - rewrite <- surjective_pairing. apply run_staking_ops_maintain, staking_inv_new, genesis_bank.
    vm_compute. discriminate.
  - vm_compute. reflexivity.
  - discriminate.
  - split; vm_compute; done || discriminate.
  - exists m', b'. split; [exact Hrun|exact Hst].
Defined.

(** ** What slashing breaks *)

(** A concrete staker: stakes 10, starts unbonding all of it, is slashed for
    double signing, and withdraws when the unbonding period is over. *)
Definition strand_trace `{Build} :
    outcome SystemContractError TokenAmount * (StakingManager * Bank) :=
  let b := Bank_from_genesis [{| ta_address := bytes32 1;
                                 ta_balance := 10000000000000000000; ta_vesting := None |}] in
  let s1 := run_staking_ops [OpStake (bytes32 1) 10000000000000000000 Validator;
                             OpUnstake (bytes32 1) 10000000000000000000 BlockContext_default]
              (StakingManager_new StakingConfig_devnet, b) in
  let s2 := (slash_for_double_sign (bytes32 1) (s1.1, mkRwLock s1.2 false)).2 in
  withdraw (bytes32 1)
    {| ctx_height := 1; ctx_timestamp := 1000; ctx_slot := 1; ctx_proposer := bytes32 9;
       ctx_gas_limit := 1; ctx_gas_used := 0 |} (s2.1, s2.2.(rw_val)).

(** A slash during unbonding strands the rest of the stake: [slash]
    lowers [staked] but not [unbonding], so the later withdrawal asks the bank
    for more than is locked and fails, after it has already zeroed the staker's
    record: 9.5 tokens stay locked in the bank with no record of a stake, and
    asking again reports that there is nothing to withdraw. *)
Lemma slash_while_unbonding_strands `{Build} :
  strand_trace.1 = Err (CannotUnstake 10000000000000000000 9500000000000000000)
  ∧ get_locked_balance strand_trace.2.2 (bytes32 1) = 9500000000000000000
  ∧ (λ i, (i.(si_staked), i.(si_unbonding))) <$> strand_trace.2.1.(sm_stakers) !! bytes32 1
    = Some (0, 0)
  ∧ strand_trace.2.1.(sm_total_staked) = 0
  ∧ (∀ ctx, (withdraw (bytes32 1) ctx strand_trace.2).1 = Err NothingToWithdraw).
Proof. destruct H as [[] sgx zkp]; split_and!; intros; vm_compute; reflexivity. Qed.

(** Splitting an unstake bypasses the minimum stake: the check compares
    the minimum with [staked - amount] and ignores what is already unbonding,
    so a validator with a minimum of 1 token that staked 3 can unbond 2 and
    then 0.5 and keep 0.5 staked, where unbonding 2.5 at once is refused. *)
Lemma split_unstake_below_minimum `{Build} :
  let b := Bank_from_genesis [{| ta_address := bytes32 1;
                                 ta_balance := 10000000000000000000; ta_vesting := None |}] in
  let ctx := BlockContext_default in
  let late := {| ctx_height := 1; ctx_timestamp := 1000; ctx_slot := 1;
                 ctx_proposer := bytes32 9; ctx_gas_limit := 1; ctx_gas_used := 0 |} in
  let s := run_staking_ops [OpStake (bytes32 1) 3000000000000000000 Validator]
             (StakingManager_new StakingConfig_devnet, b) in
  let s' := run_staking_ops [OpUnstake (bytes32 1) 2000000000000000000 ctx;
                             OpUnstake (bytes32 1) 500000000000000000 ctx;
                             OpWithdraw (bytes32 1) late] s in
  (unstake (bytes32 1) 2500000000000000000 ctx s.1).1
    = Err (InsufficientStake 1000000000000000000 500000000000000000)
  ∧ si_staked <$> s'.1.(sm_stakers) !! bytes32 1 = Some 500000000000000000
  ∧ s'.1.(sm_config).(min_validator_stake) = 1000000000000000000.
Proof. destruct H as [[] sgx zkp]; split_and!; vm_compute; reflexivity. Qed.

(** Jail is measured in block heights when it is set and in seconds when
    it is tested: the jail a slash sets ends at [current block + duration], so
    for a block time stamped later than that (any Unix time on a chain of fewer
    blocks than seconds) the slashed staker is active at once unless
    tombstoned, can unstake at once, and the next [end_block] clears the jail. *)
Lemma slash_jail_in_blocks `{Build} m b staker rate reason i ctx :
  staking_inv (m, b) → m.(sm_stakers) !! staker = Some i → i.(si_staked) ≠ 0 →
  slash_in_range m rate i →
  m.(sm_current_block) + m.(sm_config).(sc_slashing).(major_jail_duration) <= ctx.(ctx_timestamp) →
  m.(sm_current_block) + m.(sm_config).(sc_slashing).(minor_jail_duration) <= ctx.(ctx_timestamp) →
  ∃ i', (Staking_slash staker rate reason true (m, mkRwLock b false)).2.1.(sm_stakers) !! staker
        = Some i'
    ∧ StakeInfo_is_active i' ctx.(ctx_timestamp) = negb i'.(si_tombstoned)
    ∧ (i'.(si_tombstoned) = false → si_jailed_until (unjail ctx i') = 0)
    ∧ (unstake staker 0 ctx
         (Staking_slash staker rate reason true (m, mkRwLock b false)).2.1).1
      ≠ Err SlashingInProgress.
Proof.
  intros Hinv Hi Hz Hr Hmaj Hmin.
  destruct (slash_run m b staker rate reason i Hinv Hi Hz Hr) as (m' & Hrun & _ & _ & Hs & _).
  rewrite Hrun. cbn. exists (slashed_info m rate (si_staked i * rate / 10000) i).
  rewrite Hs, lookup_insert_eq.
  assert (si_jailed_until (slashed_info m rate (si_staked i * rate / 10000) i)
    <= ctx_timestamp ctx) as Hj by (cbn; case_bool_decide; lia).
  generalize dependent (slashed_info m rate (si_staked i * rate / 10000) i). intros i' Hs Hj.
  split_and!; [done|..].
  - unfold StakeInfo_is_active. rewrite bool_decide_true by done. apply andb_true_r.
  - intros Ht. unfold unjail, jail_over. rewrite Ht, (bool_decide_true (_ <= _)) by done. cbn.
    case_bool_decide; cbn; lia.
  - unfold unstake, put_staker, push_staking_event. mrun. rewrite Hs, lookup_insert_eq. cbn.
    rewrite bool_decide_false by lia. cbn. case_bool_decide; cbn; [done|].
    destruct (_ && _); cbn; [done|].
    destruct (u_add _ _ _) as [t|e| |] eqn:Ht; cbn; try done. by apply u_add_no_err in Ht.
Qed.

Lemma slash_jail_in_blocks_witness :
  let build := {| overflow_checks := true; feature_sgx := false; feature_zkp := false |} in
  let b := Bank_from_genesis [{| ta_address := bytes32 1;
                                 ta_balance := 5000000000000000000; ta_vesting := None |}] in
  let s := run_staking_ops [OpStake (bytes32 1) 3000000000000000000 Validator]
             (StakingManager_new StakingConfig_devnet, b) in
  let r := (Staking_slash (bytes32 1) 500 "Double signing" true (s.1, mkRwLock s.2 false)).2 in
  ∃ i', r.1.(sm_stakers) !! bytes32 1 = Some i'
    ∧ StakeInfo_is_active i' 1700000000 = negb i'.(si_tombstoned).
Proof.
  edestruct (slash_jail_in_blocks
    (H := {| overflow_checks := true; feature_sgx := false; feature_zkp := false |})
    (run_staking_ops (H := {| overflow_checks := true; feature_sgx := false;
                              feature_zkp := false |})
       [OpStake (bytes32 1) 3000000000000000000 Validator]
       (StakingManager_new StakingConfig_devnet, Bank_from_genesis
          [{| ta_address := bytes32 1; ta_balance := 5000000000000000000;
              ta_vesting := None |}])).1
    (run_staking_ops (H := {| overflow_checks := true; feature_sgx := false;
                              feature_zkp := false |})
       [OpStake (bytes32 1) 3000000000000000000 Validator]
       (StakingManager_new StakingConfig_devnet, Bank_from_genesis
          [{| ta_address := bytes32 1; ta_balance := 5000000000000000000;
              ta_vesting := None |}])).2
    (bytes32 1) 500 "Double signing"
    (StakeInfo_new (bytes32 1) Validator 3000000000000000000 0)
    {| ctx_height := 1; ctx_timestamp := 1700000000; ctx_slot := 1; ctx_proposer := bytes32 9;
       ctx_gas_limit := 1; ctx_gas_used := 0 |})
    as (i' & Hi & Hact & _).
  - rewrite <- surjective_pairing. apply run_staking_ops_maintain, staking_inv_new, genesis_bank.
    vm_compute. discriminate.
  - vm_compute. reflexivity.
  - discriminate.
  - split; vm_compute; done || discriminate.
  - vm_compute. discriminate.
  - vm_compute. discriminate.
  - exists i'. split; [exact Hi|exact Hact].
Defined.
