(* ===== verification/F64.v ===== *)
(** * [f64] as the contracts use it

    Two expressions of the system contracts go through floating point: the SLA
    timeout of a job (a [u64] times a priority multiplier, cast back) and the
    utilization reading at the end of a block.  A [f64] is the Standard
    Library's IEEE 754 binary64 ([SpecFloat] at precision 53 and maximal
    exponent 1024), the casts are Rust's [as]. *)
From S2P Require Import Prelude.
From stdpp Require Import base numbers.
From Stdlib Require Import ZArith Lia SpecFloat.
#[local] Open Scope Z_scope.

Abbreviation f64 := spec_float.

Definition f64_mul : f64 → f64 → f64 := SFmul 53 1024.
Definition f64_div : f64 → f64 → f64 := SFdiv 53 1024.

(** [n as f64] from an unsigned integer: round to nearest, ties to even. *)
Definition f64_of_N (n : N) : f64 := binary_normalize 53 1024 (Z.of_N n) 0 false.

(** The value [2^e]. *)
Definition f64_pow2 (e : Z) : f64 := binary_normalize 53 1024 1 e false.

(** [x as uK]: truncates towards zero and saturates; NaN and negative values
    give zero. *)
Definition f64_as (max : N) (x : f64) : N :=
  match x with
  | S754_finite false m e => N.min max (Z.to_N (Z.shiftl (Zpos m) e))
  | S754_infinity false => max
  | _ => 0%N
  end.

(** ** Scaling by a power of two is exact *)
Lemma digits2_iter_xO m k :
  digits2_pos (Pos.iter xO m k) = (digits2_pos m + k)%positive.
Proof.
  revert m. induction k as [|k IH] using Pos.peano_ind; intros m; cbn; [lia|].
  rewrite Pos.iter_succ. cbn. rewrite IH. lia.
Qed.

Lemma Zpos_iter_xO m k : Zpos (Pos.iter xO m k) = Z.shiftl (Zpos m) (Zpos k).
Proof.
  induction k as [|k IH] using Pos.peano_ind; [done|].
  rewrite Pos.iter_succ, Pos2Z.inj_succ, Z.shiftl_mul_pow2, Z.pow_succ_r by lia.
  rewrite Z.shiftl_mul_pow2 in IH by lia. lia.
Qed.

(** A 53-bit significand in range needs no rounding. *)
Lemma shr_normal m e :
  digits2_pos m = 53%positive → -1074 <= e →
  shr_fexp 53 1024 (Zpos m) e loc_Exact = (Build_shr_record (Zpos m) false false, e).
Proof.
  intros Hm He. unfold shr_fexp, Zdigits2. rewrite Hm.
  by replace (fexp 53 1024 (53 + e) - e) with 0 by (unfold fexp, emin; lia).
Qed.

Lemma round_normal m e :
  digits2_pos m = 53%positive → -1074 <= e <= 971 →
  binary_round_aux 53 1024 false (Zpos m) e loc_Exact = S754_finite false m e.
Proof.
  intros Hm He. unfold binary_round_aux. rewrite shr_normal by (done || lia). cbn.
  rewrite shr_normal by (done || lia). cbn.
  by rewrite (proj2 (Z.leb_le e (1024 - 53))) by lia.
Qed.

Lemma mul_pow2_normal m e j :
  digits2_pos m = 53%positive → -1022 <= e <= 900 → -52 <= j <= 52 →
  f64_mul (S754_finite false m e) (S754_finite false 4503599627370496 (j - 52))
  = S754_finite false m (e + j).
Proof.
  intros Hm He Hj. unfold f64_mul, SFmul. cbn [xorb].
  replace (m * 4503599627370496)%positive with (Pos.iter xO m 52)
    by (rewrite (Pos.mul_comm m); reflexivity).
  unfold binary_round_aux, shr_fexp at 1, Zdigits2.
  rewrite digits2_iter_xO, Hm.
  assert (fexp 53 1024 (Z.pos (53 + 52) + (e + (j - 52))) - (e + (j - 52)) = 52) as Hf
    by (unfold fexp, emin; lia).
  rewrite Hf. cbn. replace (e + (j - 52) + 52) with (e + j) by lia.
  rewrite shr_normal by (done || lia). cbn.
  by rewrite (proj2 (Z.leb_le (e + j) (1024 - 53))) by lia.
Qed.

Lemma digits_bound m : Zpos m < 2 ^ Zpos (digits2_pos m).
Proof.
  induction m as [m IH|m IH|]; cbn -[Z.pow]; [..|done];
    rewrite Pos2Z.inj_succ, Z.pow_succ_r by lia; lia.
Qed.

Lemma digits_le m d : 0 <= d → Zpos m < 2 ^ d → Zpos (digits2_pos m) <= d.
Proof.
  revert d. induction m as [m IH|m IH|]; intros d Hd Hm; cbn -[Z.pow];
    (destruct (Z.eq_dec d 0) as [->|]; [cbn in Hm; lia|]); [..|lia];
    replace d with (Z.succ (d - 1)) in Hm by lia; rewrite Z.pow_succ_r in Hm by lia;
    specialize (IH (d - 1)); lia.
Qed.

(** An integer below [2^53] converts exactly: its significand is shifted to 53
    bits. *)
Lemma of_N_exact p :
  Zpos p < 2 ^ 53 →
  ∃ m e, f64_of_N (Npos p) = S754_finite false m e ∧ digits2_pos m = 53%positive
    ∧ -52 <= e <= 0 ∧ Zpos m = Z.shiftl (Zpos p) (- e).
Proof.
  intros Hp. apply digits_le in Hp; [|lia].
  unfold f64_of_N. cbn [Z.of_N]. unfold binary_normalize, binary_round.
  set (d := digits2_pos p) in *.
  assert (fexp 53 1024 (Zpos d + 0) = Zpos d - 53) as Hf by (unfold fexp, emin; lia).
  rewrite Hf. unfold shl_align. rewrite Z.sub_0_r.
  destruct (Zpos d - 53) as [|k|k] eqn:Hk; [|lia|].
  - exists p, 0. assert (digits2_pos p = 53%positive) by (fold d; lia).
    split_and!; [by apply round_normal|done|lia|lia|done].
  - exists (Pos.iter xO p k), (Zneg k).
    assert (digits2_pos (Pos.iter xO p k) = 53%positive) as Hd
      by (rewrite digits2_iter_xO; fold d; lia).
    split_and!; [apply round_normal; [done|lia]|done|lia|lia|apply Zpos_iter_xO].
Qed.

(** The whole expression [(n as f64 * 2^j) as u64]. *)
Lemma scale_exact (max n : N) (j : Z) :
  (n < 2 ^ 53)%N → -52 <= j <= 52 →
  f64_as max (f64_mul (f64_of_N n) (S754_finite false 4503599627370496 (j - 52)))
  = N.min max (Z.to_N (Z.shiftl (Z.of_N n) j)).
Proof.
  intros Hn Hj. destruct n as [|p].
  - cbn. rewrite Z.shiftl_0_l. cbn. lia.
  - destruct (of_N_exact p) as (m & e & -> & Hm & He & Hv).
    { change (2 ^ 53) with (Z.of_N (2 ^ 53)). lia. }
    rewrite mul_pow2_normal by (done || lia). cbn [f64_as Z.of_N]. rewrite Hv.
    rewrite Z.shiftl_shiftl by lia. do 3 f_equal. lia.
Qed.

(** ** A number divided by itself is one *)
Lemma div_self m e :
  f64_div (S754_finite false m e) (S754_finite false m e)
  = S754_finite false 4503599627370496 (-52).
Proof.
  unfold f64_div, SFdiv. cbn [xorb]. unfold SFdiv_core_binary.
  rewrite !Z.sub_diag. change (fexp 53 1024 0) with (-53). change (Z.min (-53) 0) with (-53).
  change (0 - -53) with 53. cbv iota beta.
  assert (Z.div_eucl (Z.shiftl (Zpos m) 53) (Zpos m) = (2 ^ 53, 0)) as ->.
  { rewrite Z.shiftl_mul_pow2 by lia.
    pose proof (Z_div_mod (Zpos m * 2 ^ 53) (Zpos m) ltac:(lia)) as Hd.
    destruct (Z.div_eucl _ _) as [q r]. destruct Hd as [Hq Hr].
    assert (r = 0 ∧ q = 2 ^ 53) as [-> ->]; [|done].
    revert Hq. generalize (2 ^ 53). intros k Hq.
    assert (Zpos m * (k - q) = r) as Hk by nia. assert (k - q = 0) by nia. nia. }
  assert (new_location (Zpos m) 0 = loc_Exact) as ->.
  { unfold new_location, new_location_even, new_location_odd. by destruct (Z.even _). }
  reflexivity.
Qed.

(** [n as f64] of a positive integer below [2^53] divided by itself. *)
Lemma div_self_of_N n :
  (0 < n)%N → (n < 2 ^ 53)%N →
  f64_div (f64_of_N n) (f64_of_N n) = S754_finite false 4503599627370496 (-52).
Proof.
  intros H0 Hn. destruct n as [|p]; [lia|].
  destruct (of_N_exact p) as (m & e & -> & _).
  { change (2 ^ 53) with (Z.of_N (2 ^ 53)). lia. }
  apply div_self.
Qed.
