(* ===== verification/Precompile.v ===== *)
(** * The precompile interface

    [crates/vm/src/precompiles/mod.rs]: the error and result types and the two
    methods of the [Precompile] trait the contracts call.  The job registry's
    theorems are proved against this interface: the two verifiers it calls and
    SHA-256 are an instance of [Crypto], and they hold for every instance.  The
    verifiers themselves are [registry_tee_verifier] of [Tee] and
    [UnifiedZkpVerifyPrecompile] of [Zkp], which the theorems of [TeeSpec] and
    [ZkpSpec] put in their place. *)
From S2P Require Import Prelude SysTypes.
From stdpp Require Import base list strings pretty.
From Stdlib Require Import ZArith Lia.
#[local] Open Scope N_scope.

Inductive PrecompileError :=
| InvalidInputLength (expected actual : N)
| InvalidInputFormat (reason : string)
| VerificationFailed (reason : string)
| OutOfGas (required available : N)
| NotFound (address : N)
| PrecompileInternalError (reason : string)
| UnsupportedOperation (reason : string).

Record ExecutionResult := {
  er_output : bytes;
  er_gas_used : N;
  er_success : bool;
}.

Definition ExecutionResult_success (output : bytes) (gas_used : N) : ExecutionResult :=
  {| er_output := output; er_gas_used := gas_used; er_success := true |}.
Definition ExecutionResult_failure (gas_used : N) : ExecutionResult :=
  {| er_output := []; er_gas_used := gas_used; er_success := false |}.

(** Lower-case hexadecimal digits, least significant digit last; a [u64] has
    at most sixteen. *)
Definition hex_digit (d : N) : string :=
  match String.get (N.to_nat d) "0123456789abcdef" with
  | Some c => String c EmptyString
  | None => EmptyString
  end.

(** [hex::encode] *)
Fixpoint hex_encode (bs : bytes) : string :=
  match bs with
  | [] => EmptyString
  | b :: bs => hex_digit (b / 16) +:+ hex_digit (b mod 16) +:+ hex_encode bs
  end.

Fixpoint hex_digits (fuel : nat) (n : N) : string :=
  match fuel with
  | O => EmptyString
  | S fuel => (if bool_decide (n / 16 = 0) then EmptyString else hex_digits fuel (n / 16))
              +:+ hex_digit (n mod 16)
  end.

(** [{:#06x}]: the [0x] prefix and at least four digits. *)
Definition hex_06 (n : N) : string :=
  let ds := hex_digits 16 n in
  "0x" +:+ String.concat EmptyString (replicate (4 - String.length ds) "0") +:+ ds.

(** [fmt::Display] *)
Definition PrecompileError_to_string (e : PrecompileError) : string :=
  match e with
  | InvalidInputLength expected actual =>
      "Invalid input length: expected " +:+ pretty expected +:+ ", got " +:+ pretty actual
  | InvalidInputFormat r => "Invalid input format: " +:+ r
  | VerificationFailed r => "Verification failed: " +:+ r
  | OutOfGas required available =>
      "Out of gas: required " +:+ pretty required +:+ ", available " +:+ pretty available
  | NotFound a => "Precompile not found at address " +:+ hex_06 a
  | PrecompileInternalError r => "Internal error: " +:+ r
  | UnsupportedOperation r => "Unsupported operation: " +:+ r
  end.

(** The trait's methods the contracts use. *)
Record Precompile := {
  pc_gas_cost : bytes → N;
  pc_execute : bytes → N → outcome PrecompileError ExecutionResult;
}.

(** SHA-256, [UniversalTeeVerifyPrecompile] (with the enterprise flag) and
    [UnifiedZkpVerifyPrecompile]. *)
Class Crypto := {
  sha256 : bytes → Hash;
  universal_tee_verify : bool → Precompile;
  unified_zkp_verify : Precompile;
}.

(** ** Reading an input *)
Definition blen (bs : bytes) : N := N.of_nat (length bs).

(** [&bs[a..b]]: a range that is the wrong way round or ends outside panics. *)
Definition slice {E} (a b : N) (bs : bytes) : outcome E bytes :=
  if bool_decide (a <= b) && bool_decide (b <= blen bs)
  then Ok (take (N.to_nat (b - a)) (drop (N.to_nat a) bs)) else Panic.

(** [if gas > gas_limit { return Err(..) }] and
    [if input.len() < min { return Err(..) }] *)
Definition charge {A} (gas gas_limit : N) (k : outcome PrecompileError A)
  : outcome PrecompileError A :=
  if bool_decide (gas_limit < gas) then Err (OutOfGas gas gas_limit) else k.

Definition require_length {A} (expected : N) (input : bytes) (k : outcome PrecompileError A)
  : outcome PrecompileError A :=
  if bool_decide (blen input < expected)
  then Err (InvalidInputLength expected (blen input)) else k.

(** ** Lemmas on reading *)
Lemma blen_app a b : blen (a ++ b) = blen a + blen b.
Proof. unfold blen. rewrite length_app. lia. Qed.

Lemma blen_nat a n : length a = n → blen a = N.of_nat n.
Proof. unfold blen. by intros ->. Qed.

Lemma blen_le n z : blen (to_le_bytes n z) = N.of_nat n.
Proof. apply blen_nat, length_to_le_bytes. Qed.

Lemma slice_mid {E} pre mid post a b bs :
  bs = pre ++ mid ++ post → a = blen pre → b = a + blen mid → slice (E:=E) a b bs = Ok mid.
Proof.
  intros -> -> ->. unfold slice. rewrite !blen_app.
  rewrite !bool_decide_true by lia. cbn.
  replace (N.to_nat (blen pre + blen mid - blen pre)) with (length mid) by (unfold blen; lia).
  replace (N.to_nat (blen pre)) with (length pre) by (unfold blen; lia).
  by rewrite drop_app_length, take_app_length.
Qed.

Lemma charge_ok {A} gas limit (k : outcome PrecompileError A) : gas <= limit → charge gas limit k = k.
Proof. intros. unfold charge. by rewrite bool_decide_false by lia. Qed.

Lemma require_ok {A} n input (k : outcome PrecompileError A) :
  n <= blen input → require_length n input k = k.
Proof. intros. unfold require_length. by rewrite bool_decide_false by lia. Qed.

(** A call that comes back, with a value or an error. *)
Definition returns {E A} (o : outcome E A) : Prop :=
  match o with Ok _ | Err _ => True | Panic | Blocked => False end.

Lemma returns_bind {E A B} (o : outcome E A) (k : A → outcome E B) :
  returns o → (∀ a, returns (k a)) → returns (o ≫= k).
Proof. destruct o; cbn; auto. Qed.

Lemma slice_returns {E} a b bs : a <= b → b <= blen bs → returns (slice (E:=E) a b bs).
Proof. intros. unfold slice. by rewrite !bool_decide_true. Qed.
