(* ===== verification/JobRegistry.v ===== *)
(** * The job registry

    [crates/vm/src/system_contracts/job_registry.rs]: submission with escrow,
    assignment, proof verification and settlement, cancellation, expiry.

    [submit_proof] takes [&mut StakingManager] and [&mut Bank] while the
    manager holds its own [Arc<RwLock<Bank>>]: it runs on a [ProofState] that
    keeps the lock and the borrowed bank apart.  When the borrowed bank is the
    lock's own write guard, [rw_held] is set and the lock's value is stale until
    the guard is dropped. *)
From S2P Require Import Prelude SysTypes F64 Precompile Bank Staking.
From stdpp Require Import base gmap list strings pretty sorting.
From Stdlib Require Import ZArith Lia SpecFloat.
#[local] Open Scope N_scope.

(** ** Configuration *)
Record JobConfig := {
  min_bid : TokenAmount;
  max_bid : TokenAmount;
  default_sla_timeout : N;
  min_sla_timeout : N;
  max_sla_timeout : N;
  cancellation_fee_bps : N;
  late_grace_period : N;
  jc_late_penalty_bps : N;
  max_jobs_per_requester : N;
  max_active_jobs : N;
  jc_enterprise_mode : bool;
  require_cryptographic_verification : bool;
}.

Definition JobConfig_mainnet : JobConfig := {|
  min_bid := 100000000000000000;
  max_bid := 100000000000000000000000;
  default_sla_timeout := 3600;
  min_sla_timeout := 60;
  max_sla_timeout := 86400;
  cancellation_fee_bps := 500;
  late_grace_period := 60;
  jc_late_penalty_bps := 1000;
  max_jobs_per_requester := 100;
  max_active_jobs := 100000;
  jc_enterprise_mode := false;
  require_cryptographic_verification := true;
|}.

Definition JobConfig_testnet : JobConfig := {|
  min_bid := 1000000000000000;
  max_bid := 1000000000000000000000;
  default_sla_timeout := 600;
  min_sla_timeout := 30;
  max_sla_timeout := 7200;
  cancellation_fee_bps := 200;
  late_grace_period := 30;
  jc_late_penalty_bps := 500;
  max_jobs_per_requester := 1000;
  max_active_jobs := 1000000;
  jc_enterprise_mode := false;
  require_cryptographic_verification := true;
|}.

Definition JobConfig_devnet : JobConfig := {|
  min_bid := 0;
  max_bid := U128_MAX;
  default_sla_timeout := 120;
  min_sla_timeout := 10;
  max_sla_timeout := 3600;
  cancellation_fee_bps := 0;
  late_grace_period := 10;
  jc_late_penalty_bps := 0;
  max_jobs_per_requester := U32_MAX;
  max_active_jobs := U64_MAX;
  jc_enterprise_mode := false;
  require_cryptographic_verification := false;
|}.

Definition JobConfig_validate (c : JobConfig) : Result unit :=
  if bool_decide (c.(max_sla_timeout) <= c.(min_sla_timeout)) then
    Err (InvalidConfig "min_sla_timeout must be < max_sla_timeout")
  else if bool_decide (10000 < c.(cancellation_fee_bps)) then
    Err (InvalidConfig "cancellation_fee_bps must be <= 10000")
  else Ok tt.

(** ** SLA policy *)
Definition sla_multiplier (p : JobPriority) : f64 :=
  match p with
  | Low => f64_pow2 1
  | Normal => f64_pow2 0
  | High => f64_pow2 (-1)
  | Urgent => f64_pow2 (-2)
  end.

Record SlaPolicy := {
  sla_deadline : N;
  sla_grace_end : N;
  sla_late_penalty_bps : N;
}.

(** [Ord::clamp], which asserts that the interval is not empty. *)
Definition clamp {E} (v lo hi : N) : outcome E N :=
  if bool_decide (hi < lo) then Panic else Ok (N.max lo (N.min v hi)).

Definition SlaPolicy_new `{Build} (config : JobConfig) (priority : JobPriority)
    (submitted_at custom_timeout : N) : Result SlaPolicy :=
  base_timeout ← (if bool_decide (0 < custom_timeout)
                  then clamp custom_timeout config.(min_sla_timeout) config.(max_sla_timeout)
                  else Ok config.(default_sla_timeout));
  let adjusted_timeout :=
    f64_as U64_MAX (f64_mul (f64_of_N base_timeout) (sla_multiplier priority)) in
  deadline ← u_add U64_MAX submitted_at adjusted_timeout;
  grace_end ← u_add U64_MAX deadline config.(late_grace_period);
  Ok {| sla_deadline := deadline; sla_grace_end := grace_end;
        sla_late_penalty_bps := config.(jc_late_penalty_bps) |}.

Definition is_expired (s : SlaPolicy) (current_time : N) : bool :=
  bool_decide (s.(sla_grace_end) < current_time).

Definition is_late (s : SlaPolicy) (current_time : N) : bool :=
  bool_decide (s.(sla_deadline) < current_time)
  && bool_decide (current_time <= s.(sla_grace_end)).

Definition late_penalty `{Build} (s : SlaPolicy) (amount : TokenAmount) : Result TokenAmount :=
  p ← u_mul U128_MAX amount s.(sla_late_penalty_bps);
  u_div p 10000.

(** ** Job state *)
Record JobState := {
  job_id : JobId;
  job_requester : Address;
  job_assigned_prover : option Address;
  job_status : JobStatus;
  job_bid_amount : TokenAmount;
  job_model_hash : Hash;
  job_input_hash : Hash;
  job_output_hash : option Hash;
  job_verification_method : VerificationMethod;
  job_priority : JobPriority;
  job_sla : SlaPolicy;
  job_tags : list ComplianceTag;
  job_submitted_at : N;
  job_assigned_at : option N;
  job_proof_submitted_at : option N;
  job_verified_at : option N;
  job_settled_at : option N;
  job_callback : option Address;
  job_encrypted_input : option bytes;
  job_result : option bytes;
}.

Definition JobState_new `{Build} (id : JobId) (params : SubmitJobParams) (config : JobConfig)
    (submitted_at : N) : Result JobState :=
  sla ← SlaPolicy_new config params.(sj_priority) submitted_at params.(sj_sla_timeout);
  Ok {|
    job_id := id;
    job_requester := params.(sj_requester);
    job_assigned_prover := None;
    job_status := Submitted;
    job_bid_amount := params.(sj_bid_amount);
    job_model_hash := params.(sj_model_hash);
    job_input_hash := params.(sj_input_hash);
    job_output_hash := None;
    job_verification_method := params.(sj_verification_method);
    job_priority := params.(sj_priority);
    job_sla := sla;
    job_tags := params.(sj_tags);
    job_submitted_at := submitted_at;
    job_assigned_at := None;
    job_proof_submitted_at := None;
    job_verified_at := None;
    job_settled_at := None;
    job_callback := params.(sj_callback);
    job_encrypted_input := params.(sj_encrypted_input);
    job_result := None;
  |}.

Definition can_transition (from to : JobStatus) : bool :=
  match from, to with
  | Submitted, Assigned => true
  | Submitted, Cancelled => true
  | Assigned, Proving => true
  | Assigned, Cancelled => true
  | Assigned, Expired => true
  | Proving, Verifying => true
  | Proving, Expired => true
  | Verifying, Verified => true
  | Verifying, Failed => true
  | Verified, Settled => true
  | _, _ => false
  end.

Definition can_transition_to (j : JobState) (new_status : JobStatus) : bool :=
  can_transition j.(job_status) new_status.

(** Field assignments. *)
Definition set_status (s : JobStatus) (j : JobState) : JobState := {|
  job_id := j.(job_id); job_requester := j.(job_requester);
  job_assigned_prover := j.(job_assigned_prover); job_status := s;
  job_bid_amount := j.(job_bid_amount); job_model_hash := j.(job_model_hash);
  job_input_hash := j.(job_input_hash); job_output_hash := j.(job_output_hash);
  job_verification_method := j.(job_verification_method); job_priority := j.(job_priority);
  job_sla := j.(job_sla); job_tags := j.(job_tags); job_submitted_at := j.(job_submitted_at);
  job_assigned_at := j.(job_assigned_at); job_proof_submitted_at := j.(job_proof_submitted_at);
  job_verified_at := j.(job_verified_at); job_settled_at := j.(job_settled_at);
  job_callback := j.(job_callback); job_encrypted_input := j.(job_encrypted_input);
  job_result := j.(job_result) |}.

(** [assigned_prover], [assigned_at] and [status] of [assign_job]. *)
Definition set_assigned (prover : Address) (now : N) (j : JobState) : JobState := {|
  job_id := j.(job_id); job_requester := j.(job_requester);
  job_assigned_prover := Some prover; job_status := Assigned;
  job_bid_amount := j.(job_bid_amount); job_model_hash := j.(job_model_hash);
  job_input_hash := j.(job_input_hash); job_output_hash := j.(job_output_hash);
  job_verification_method := j.(job_verification_method); job_priority := j.(job_priority);
  job_sla := j.(job_sla); job_tags := j.(job_tags); job_submitted_at := j.(job_submitted_at);
  job_assigned_at := Some now; job_proof_submitted_at := j.(job_proof_submitted_at);
  job_verified_at := j.(job_verified_at); job_settled_at := j.(job_settled_at);
  job_callback := j.(job_callback); job_encrypted_input := j.(job_encrypted_input);
  job_result := j.(job_result) |}.

(** Step 5 of [submit_proof]. *)
Definition set_verified (output_hash : Hash) (result : bytes) (now : N) (j : JobState)
  : JobState := {|
  job_id := j.(job_id); job_requester := j.(job_requester);
  job_assigned_prover := j.(job_assigned_prover); job_status := Verified;
  job_bid_amount := j.(job_bid_amount); job_model_hash := j.(job_model_hash);
  job_input_hash := j.(job_input_hash); job_output_hash := Some output_hash;
  job_verification_method := j.(job_verification_method); job_priority := j.(job_priority);
  job_sla := j.(job_sla); job_tags := j.(job_tags); job_submitted_at := j.(job_submitted_at);
  job_assigned_at := j.(job_assigned_at); job_proof_submitted_at := Some now;
  job_verified_at := Some now; job_settled_at := j.(job_settled_at);
  job_callback := j.(job_callback); job_encrypted_input := j.(job_encrypted_input);
  job_result := Some result |}.

(** Step 8 of [submit_proof]. *)
Definition set_settled (now : N) (j : JobState) : JobState := {|
  job_id := j.(job_id); job_requester := j.(job_requester);
  job_assigned_prover := j.(job_assigned_prover); job_status := Settled;
  job_bid_amount := j.(job_bid_amount); job_model_hash := j.(job_model_hash);
  job_input_hash := j.(job_input_hash); job_output_hash := j.(job_output_hash);
  job_verification_method := j.(job_verification_method); job_priority := j.(job_priority);
  job_sla := j.(job_sla); job_tags := j.(job_tags); job_submitted_at := j.(job_submitted_at);
  job_assigned_at := j.(job_assigned_at); job_proof_submitted_at := j.(job_proof_submitted_at);
  job_verified_at := j.(job_verified_at); job_settled_at := Some now;
  job_callback := j.(job_callback); job_encrypted_input := j.(job_encrypted_input);
  job_result := j.(job_result) |}.

(** ** Registry *)
Record JobRegistry := {
  jr_config : JobConfig;
  jr_jobs : gmap JobId JobState;
  jr_jobs_by_requester : gmap Address (list JobId);
  jr_jobs_by_prover : gmap Address (list JobId);
  jr_jobs_by_deadline : gmap N (list JobId);
  jr_active_jobs : N;
  jr_total_jobs : N;
  jr_job_nonces : gmap Address N;
  jr_events : list JobEvent;
  jr_seen_attestation_hashes : gset Hash;
  jr_enterprise_mode : bool;
  jr_enterprise_zkml_config : EnterpriseModeConfig;
  jr_registered_circuits : gset Hash;
}.

Abbreviation RegM := (M SystemContractError JobRegistry).

(** [EnterpriseModeConfig { enabled, ..EnterpriseModeConfig::default() }] *)
Definition default_zkml_config (enabled : bool) : EnterpriseModeConfig := {|
  ent_enabled := enabled;
  ent_required_method := EnterpriseModeConfig_default.(ent_required_method);
  ent_allow_zkml_fallback := EnterpriseModeConfig_default.(ent_allow_zkml_fallback);
  ent_require_registered_circuit := EnterpriseModeConfig_default.(ent_require_registered_circuit);
  ent_require_domain_binding := EnterpriseModeConfig_default.(ent_require_domain_binding);
|}.

Definition JobRegistry_new (config : JobConfig) : JobRegistry := {|
  jr_config := config;
  jr_jobs := ∅;
  jr_jobs_by_requester := ∅;
  jr_jobs_by_prover := ∅;
  jr_jobs_by_deadline := ∅;
  jr_active_jobs := 0;
  jr_total_jobs := 0;
  jr_job_nonces := ∅;
  jr_events := [];
  jr_seen_attestation_hashes := ∅;
  jr_enterprise_mode := false;
  jr_enterprise_zkml_config := default_zkml_config false;
  jr_registered_circuits := ∅;
|}.

(** Field assignments. *)
Definition jr_with_jobs (v : gmap JobId JobState) (r : JobRegistry) : JobRegistry := {|
  jr_config := r.(jr_config); jr_jobs := v; jr_jobs_by_requester := r.(jr_jobs_by_requester);
  jr_jobs_by_prover := r.(jr_jobs_by_prover); jr_jobs_by_deadline := r.(jr_jobs_by_deadline);
  jr_active_jobs := r.(jr_active_jobs); jr_total_jobs := r.(jr_total_jobs);
  jr_job_nonces := r.(jr_job_nonces); jr_events := r.(jr_events);
  jr_seen_attestation_hashes := r.(jr_seen_attestation_hashes);
  jr_enterprise_mode := r.(jr_enterprise_mode);
  jr_enterprise_zkml_config := r.(jr_enterprise_zkml_config);
  jr_registered_circuits := r.(jr_registered_circuits) |}.

Definition jr_with_indexes (req prv : gmap Address (list JobId)) (dl : gmap N (list JobId))
    (r : JobRegistry) : JobRegistry := {|
  jr_config := r.(jr_config); jr_jobs := r.(jr_jobs); jr_jobs_by_requester := req;
  jr_jobs_by_prover := prv; jr_jobs_by_deadline := dl;
  jr_active_jobs := r.(jr_active_jobs); jr_total_jobs := r.(jr_total_jobs);
  jr_job_nonces := r.(jr_job_nonces); jr_events := r.(jr_events);
  jr_seen_attestation_hashes := r.(jr_seen_attestation_hashes);
  jr_enterprise_mode := r.(jr_enterprise_mode);
  jr_enterprise_zkml_config := r.(jr_enterprise_zkml_config);
  jr_registered_circuits := r.(jr_registered_circuits) |}.

Definition jr_with_counts (active total : N) (r : JobRegistry) : JobRegistry := {|
  jr_config := r.(jr_config); jr_jobs := r.(jr_jobs);
  jr_jobs_by_requester := r.(jr_jobs_by_requester);
  jr_jobs_by_prover := r.(jr_jobs_by_prover); jr_jobs_by_deadline := r.(jr_jobs_by_deadline);
  jr_active_jobs := active; jr_total_jobs := total;
  jr_job_nonces := r.(jr_job_nonces); jr_events := r.(jr_events);
  jr_seen_attestation_hashes := r.(jr_seen_attestation_hashes);
  jr_enterprise_mode := r.(jr_enterprise_mode);
  jr_enterprise_zkml_config := r.(jr_enterprise_zkml_config);
  jr_registered_circuits := r.(jr_registered_circuits) |}.

Definition jr_with_nonces (v : gmap Address N) (r : JobRegistry) : JobRegistry := {|
  jr_config := r.(jr_config); jr_jobs := r.(jr_jobs);
  jr_jobs_by_requester := r.(jr_jobs_by_requester);
  jr_jobs_by_prover := r.(jr_jobs_by_prover); jr_jobs_by_deadline := r.(jr_jobs_by_deadline);
  jr_active_jobs := r.(jr_active_jobs); jr_total_jobs := r.(jr_total_jobs);
  jr_job_nonces := v; jr_events := r.(jr_events);
  jr_seen_attestation_hashes := r.(jr_seen_attestation_hashes);
  jr_enterprise_mode := r.(jr_enterprise_mode);
  jr_enterprise_zkml_config := r.(jr_enterprise_zkml_config);
  jr_registered_circuits := r.(jr_registered_circuits) |}.

Definition jr_with_events (v : list JobEvent) (r : JobRegistry) : JobRegistry := {|
  jr_config := r.(jr_config); jr_jobs := r.(jr_jobs);
  jr_jobs_by_requester := r.(jr_jobs_by_requester);
  jr_jobs_by_prover := r.(jr_jobs_by_prover); jr_jobs_by_deadline := r.(jr_jobs_by_deadline);
  jr_active_jobs := r.(jr_active_jobs); jr_total_jobs := r.(jr_total_jobs);
  jr_job_nonces := r.(jr_job_nonces); jr_events := v;
  jr_seen_attestation_hashes := r.(jr_seen_attestation_hashes);
  jr_enterprise_mode := r.(jr_enterprise_mode);
  jr_enterprise_zkml_config := r.(jr_enterprise_zkml_config);
  jr_registered_circuits := r.(jr_registered_circuits) |}.

Definition jr_with_policy (seen : gset Hash) (enterprise : bool) (zkml : EnterpriseModeConfig)
    (circuits : gset Hash) (r : JobRegistry) : JobRegistry := {|
  jr_config := r.(jr_config); jr_jobs := r.(jr_jobs);
  jr_jobs_by_requester := r.(jr_jobs_by_requester);
  jr_jobs_by_prover := r.(jr_jobs_by_prover); jr_jobs_by_deadline := r.(jr_jobs_by_deadline);
  jr_active_jobs := r.(jr_active_jobs); jr_total_jobs := r.(jr_total_jobs);
  jr_job_nonces := r.(jr_job_nonces); jr_events := r.(jr_events);
  jr_seen_attestation_hashes := seen;
  jr_enterprise_mode := enterprise;
  jr_enterprise_zkml_config := zkml;
  jr_registered_circuits := circuits |}.

Definition JobRegistry_new_enterprise (config : JobConfig) : JobRegistry :=
  let registry := JobRegistry_new config in
  jr_with_policy registry.(jr_seen_attestation_hashes) true (default_zkml_config true)
    registry.(jr_registered_circuits) registry.

Definition set_enterprise_mode (enabled : bool) (r : JobRegistry) : JobRegistry :=
  jr_with_policy r.(jr_seen_attestation_hashes) enabled r.(jr_enterprise_zkml_config)
    r.(jr_registered_circuits) r.

Definition set_enterprise_zkml_config (c : EnterpriseModeConfig) (r : JobRegistry)
  : JobRegistry :=
  jr_with_policy r.(jr_seen_attestation_hashes) r.(jr_enterprise_mode) c
    r.(jr_registered_circuits) r.

Definition register_circuit (vk_hash : Hash) (r : JobRegistry) : JobRegistry :=
  jr_with_policy r.(jr_seen_attestation_hashes) r.(jr_enterprise_mode)
    r.(jr_enterprise_zkml_config) ({[vk_hash]} ∪ r.(jr_registered_circuits)) r.

Definition record_attestation (h : Hash) (r : JobRegistry) : JobRegistry :=
  jr_with_policy ({[h]} ∪ r.(jr_seen_attestation_hashes)) r.(jr_enterprise_mode)
    r.(jr_enterprise_zkml_config) r.(jr_registered_circuits) r.

Definition requires_cryptographic_verification (r : JobRegistry) : bool :=
  r.(jr_enterprise_mode) || r.(jr_config).(require_cryptographic_verification).

Definition Registry_drain_events : RegM (list JobEvent) :=
  r ← get;
  put (jr_with_events [] r) ;;
  mret r.(jr_events).

Definition push_job_event (e : JobEvent) : RegM unit :=
  modify (λ r, jr_with_events (r.(jr_events) ++ [e]) r).

(** An assignment through [self.jobs.get_mut(id)]. *)
Definition update_job (id : JobId) (f : JobState → JobState) : RegM unit :=
  modify (λ r, jr_with_jobs (alter f id r.(jr_jobs)) r).

(** [self.active_jobs = self.active_jobs.saturating_sub(1)] *)
Definition job_done : RegM unit :=
  modify (λ r, jr_with_counts (sat_sub r.(jr_active_jobs) 1) r.(jr_total_jobs) r).

(** [map.entry(k).or_default().push(id)] *)
Definition index_push {K} `{Countable K} (k : K) (id : JobId) (m : gmap K (list JobId))
  : gmap K (list JobId) :=
  <[k := default [] (m !! k) ++ [id]]> m.

(** ** Queries *)
Definition get_job (r : JobRegistry) (id : JobId) : option JobState := r.(jr_jobs) !! id.

Definition get_jobs_by_requester (r : JobRegistry) (requester : Address) : list JobState :=
  omap (λ id, r.(jr_jobs) !! id) (default [] (r.(jr_jobs_by_requester) !! requester)).

Definition get_jobs_by_prover (r : JobRegistry) (prover : Address) : list JobState :=
  omap (λ id, r.(jr_jobs) !! id) (default [] (r.(jr_jobs_by_prover) !! prover)).

Record JobRegistryStats := {
  jst_total_jobs : N;
  jst_active_jobs : N;
  jst_total_requesters : N;
  jst_total_provers : N;
}.

Definition Registry_stats (r : JobRegistry) : JobRegistryStats := {|
  jst_total_jobs := r.(jr_total_jobs);
  jst_active_jobs := r.(jr_active_jobs);
  jst_total_requesters := cast U64_MAX (N.of_nat (size r.(jr_jobs_by_requester)));
  jst_total_provers := cast U64_MAX (N.of_nat (size r.(jr_jobs_by_prover)));
|}.

Section registry.
Context `{Build, Crypto}.

(** ** Submission *)
Definition submit_job (params : SubmitJobParams) (ctx : BlockContext)
  : M SystemContractError (JobRegistry * Bank) JobSubmitResult :=
  r ← gets fst;
  let config := r.(jr_config) in
  let requester := params.(sj_requester) in
  ensure (negb (bool_decide (params.(sj_bid_amount) < config.(min_bid))))
    (InsufficientBid config.(min_bid) params.(sj_bid_amount)) ;;
  ensure (negb (bool_decide (config.(max_bid) < params.(sj_bid_amount))))
    (InsufficientBid config.(max_bid) params.(sj_bid_amount)) ;;
  let requester_jobs :=
    N.of_nat (length (default [] (r.(jr_jobs_by_requester) !! requester))) in
  ensure (negb (bool_decide (config.(max_jobs_per_requester) <= requester_jobs)))
    (InvalidAmount ("Max jobs per requester (" +:+ pretty config.(max_jobs_per_requester)
                    +:+ ") exceeded")) ;;
  ensure (negb (bool_decide (config.(max_active_jobs) <= r.(jr_active_jobs))))
    (InvalidAmount "Maximum active jobs in system reached") ;;
  let nonce := default 0 (r.(jr_job_nonces) !! requester) in
  on_fst (modify (λ r, jr_with_nonces (<[requester := nonce]> r.(jr_job_nonces)) r)) ;;
  let id := generate_job_id sha256 requester params.(sj_model_hash) params.(sj_input_hash)
              nonce in
  next ← lift (u_add U64_MAX nonce 1);
  on_fst (modify (λ r, jr_with_nonces (<[requester := next]> r.(jr_job_nonces)) r)) ;;
  on_snd (lock requester params.(sj_bid_amount)) ;;
  job ← lift (JobState_new id params config ctx.(ctx_timestamp));
  let deadline := job.(job_sla).(sla_deadline) in
  on_fst (modify (λ r, jr_with_jobs (<[id := job]> r.(jr_jobs)) r) ;;
          modify (λ r, jr_with_indexes (index_push requester id r.(jr_jobs_by_requester))
                         r.(jr_jobs_by_prover)
                         (index_push deadline id r.(jr_jobs_by_deadline)) r) ;;
          r ← get;
          active ← lift (u_add U64_MAX r.(jr_active_jobs) 1);
          modify (λ r, jr_with_counts active r.(jr_total_jobs) r) ;;
          total ← lift (u_add U64_MAX r.(jr_total_jobs) 1);
          modify (λ r, jr_with_counts active total r) ;;
          push_job_event (JobSubmitted id requester params.(sj_model_hash)
            params.(sj_bid_amount) deadline ctx.(ctx_height))) ;;
  mret {| jsr_job_id := id; jsr_escrowed := params.(sj_bid_amount);
          jsr_sla_deadline := deadline |}.

(** ** Assignment *)
Definition assign_job (id : JobId) (prover : Address) (ctx : BlockContext)
  : RegM JobAssignResult :=
  r ← get;
  job ← ok_or (r.(jr_jobs) !! id) (JobNotFound id);
  ensure (can_transition_to job Assigned)
    (InvalidJobStatus "Submitted" (JobStatus_to_string job.(job_status))) ;;
  match job.(job_assigned_prover) with
  | Some p => fail (JobAlreadyAssigned id p)
  | None =>
      ensure (negb (is_expired job.(job_sla) ctx.(ctx_timestamp)))
        (SlaViolation id job.(job_sla).(sla_deadline) ctx.(ctx_timestamp)) ;;
      update_job id (set_assigned prover ctx.(ctx_timestamp)) ;;
      modify (λ r, jr_with_indexes r.(jr_jobs_by_requester)
                     (index_push prover id r.(jr_jobs_by_prover)) r.(jr_jobs_by_deadline) r) ;;
      push_job_event (JobAssigned id prover ctx.(ctx_timestamp) ctx.(ctx_height)) ;;
      mret {| jar_job_id := id; jar_prover := prover; jar_assigned_at := ctx.(ctx_timestamp) |}
  end.

(** ** Proof verification *)

(** [{:?}] of a byte slice. *)
Definition debug_bytes (bs : bytes) : string :=
  "[" +:+ String.concat ", " (pretty <$> bs) +:+ "]".

Definition tee_failed {A} (reason : string) : RegM A := fail (TeeVerificationFailed reason).

(** The three unsuccessful arms of the TEE precompile match: a hard failure
    under the [sgx] feature, a hard failure in fail-closed mode, and tolerated
    otherwise. *)
Definition tee_soft_failure (sgx_reason closed_reason : string) : RegM unit :=
  if feature_sgx then tee_failed sgx_reason
  else r ← get; when (requires_cryptographic_verification r) (tee_failed closed_reason).

Definition platform_prefix (t : TeeType) : N :=
  match t with
  | AwsNitro => 1
  | IntelSgx => 2
  | AmdSev => 4
  end.

Definition tee_gas_limit : N := 1000000.

Definition verify_tee_attestation (att : TeeAttestation) (job : JobState) : RegM bool :=
  let raw := att.(tee_attestation_bytes) in
  ensure (negb (bool_decide (raw = []))) (TeeVerificationFailed "Empty attestation") ;;
  ensure (negb (bool_decide (att.(tee_measurement) = bytes32 0)))
    (TeeVerificationFailed "Invalid measurement (all zeros)") ;;
  ensure (bool_decide (att.(tee_measurement) = job.(job_model_hash)))
    (TeeVerificationFailed ("Measurement mismatch: expected "
       +:+ debug_bytes (take 4 job.(job_model_hash)) +:+ ", got "
       +:+ debug_bytes (take 4 att.(tee_measurement)))) ;;
  ensure (negb (bool_decide (att.(tee_timestamp) < job.(job_submitted_at))
                || bool_decide (job.(job_sla).(sla_deadline) < att.(tee_timestamp))))
    (TeeVerificationFailed "Attestation timestamp outside SLA window") ;;
  ensure (negb (bool_decide (length raw < 64)%nat))
    (TeeVerificationFailed ("Attestation too short: " +:+ pretty (N.of_nat (length raw))
       +:+ " bytes (minimum 64)")) ;;
  let att_hash := sha256 raw in
  r ← get;
  ensure (negb (bool_decide (att_hash ∈ r.(jr_seen_attestation_hashes))))
    (TeeVerificationFailed "attestation replay detected") ;;
  ensure (negb (r.(jr_enterprise_mode) && bool_decide (head raw = Some 255)))
    (TeeVerificationFailed "Enterprise mode rejects simulated TEE attestations") ;;
  let precompile_input := platform_prefix att.(tee_type) :: raw in
  (match pc_execute (universal_tee_verify r.(jr_enterprise_mode)) precompile_input
           tee_gas_limit with
   | Ok result =>
       when (negb result.(er_success))
         (tee_soft_failure "TEE precompile rejected attestation"
            "TEE precompile rejected attestation in fail-closed mode")
   | Err e =>
       tee_soft_failure ("TEE precompile error: " +:+ PrecompileError_to_string e)
         ("TEE precompile error in fail-closed mode: " +:+ PrecompileError_to_string e)
   | Panic =>
       tee_soft_failure "TEE precompile panicked during verification"
         "TEE precompile panicked during verification in fail-closed mode"
   | Blocked => lift Blocked
   end) ;;
  modify (record_attestation att_hash) ;;
  mret true.

Definition flatten_public_inputs (public_inputs : list Hash) : bytes := concat public_inputs.

(** [u32::try_from(n).map_err(..)?.to_le_bytes()] *)
Definition encode_len (max : N) (width : nat) (n : nat) (reason : string) : Result bytes :=
  if bool_decide (N.of_nat n <= max) then Ok (to_le_bytes width (N.of_nat n))
  else Err (ZkVerificationFailed reason).

(** [vec![0u8; n]] with a prefix of [bs] copied to its start. *)
Definition padded (n : nat) (bs : bytes) : bytes :=
  take n bs ++ replicate (n - length bs) 0.

Definition BN254_VK_SIZE : nat := 544.
Definition BN254_PROOF_SIZE : nat := 192.

Definition encode_unified_zkp_input (zk : ZkProof) (job : JobState) : Result bytes :=
  let inputs := zk.(zk_public_inputs) in
  let proof := zk.(zk_proof_bytes) in
  let vk := zk.(zk_vk_hash) in
  match zk.(zk_system) with
  | Plonk =>
      proof_len ← encode_len U32_MAX 4 (length proof)
                    "PLONK proof exceeds 4 GiB precompile envelope";
      num_inputs ← encode_len U32_MAX 4 (length inputs)
                     "too many PLONK public inputs for precompile envelope";
      Ok ([2] ++ proof_len ++ vk ++ num_inputs ++ flatten_public_inputs inputs ++ proof)
  | Ezkl =>
      num_inputs ← encode_len U16_MAX 2 (length inputs)
                     "too many EZKL public inputs for precompile envelope";
      proof_len ← encode_len U32_MAX 4 (length proof)
                    "EZKL proof exceeds 4 GiB precompile envelope";
      Ok ([3; 1; 0] ++ job.(job_model_hash) ++ vk ++ num_inputs ++ proof_len
          ++ flatten_public_inputs inputs ++ proof)
  | Halo2 => Ok ([4] ++ vk ++ flatten_public_inputs inputs ++ proof)
  | Groth16 =>
      Ok ([1] ++ padded BN254_VK_SIZE vk ++ padded BN254_PROOF_SIZE proof
          ++ flatten_public_inputs inputs)
  | Stark =>
      num_inputs ← encode_len U32_MAX 4 (length inputs)
                     "too many STARK public inputs for precompile envelope";
      Ok ([5] ++ vk ++ num_inputs ++ flatten_public_inputs inputs ++ proof)
  end.

(** [verify_zk_proof] and [verify_zk_proof_via_precompile] take [&self]. *)
Definition zk_ensure (b : bool) (reason : string) : Result unit :=
  if b then Ok tt else Err (ZkVerificationFailed reason).

Definition verify_zk_proof_via_precompile (r : JobRegistry) (zk : ZkProof) (job : JobState)
  : Result bool :=
  input ← encode_unified_zkp_input zk job;
  let gas_limit := pc_gas_cost unified_zkp_verify input in
  result ← (match pc_execute unified_zkp_verify input gas_limit with
            | Ok result => Ok result
            | Err e => Err (ZkVerificationFailed ("0x0300 precompile execution failed: "
                              +:+ PrecompileError_to_string e))
            | Panic => Panic
            | Blocked => Blocked
            end);
  let precompile_valid := bool_decide (last result.(er_output) = Some 1) in
  zk_ensure (negb (r.(jr_enterprise_zkml_config).(ent_enabled) && negb precompile_valid))
    "Enterprise mode: 0x0300 precompile reported an invalid proof (hard-fail)" ;;
  zk_ensure (negb (r.(jr_config).(require_cryptographic_verification) && negb precompile_valid))
    "0x0300 precompile reported an invalid proof in fail-closed mode" ;;
  zk_ensure (negb (feature_zkp && negb precompile_valid))
    "0x0300 precompile reported an invalid proof" ;;
  Ok true.

Definition verify_zk_proof (r : JobRegistry) (zk : ZkProof) (job : JobState) : Result bool :=
  let ent := r.(jr_enterprise_zkml_config) in
  let inputs := zk.(zk_public_inputs) in
  zk_ensure (negb (bool_decide (zk.(zk_proof_bytes) = []))) "Empty proof" ;;
  zk_ensure (negb (bool_decide (length inputs < 2)%nat))
    ("Insufficient public inputs: expected >= 2, got " +:+ pretty (N.of_nat (length inputs))) ;;
  zk_ensure (bool_decide (inputs !! 0%nat = Some job.(job_model_hash)))
    "Public input[0] (model hash) does not match job" ;;
  zk_ensure (bool_decide (inputs !! 1%nat = Some job.(job_input_hash)))
    "Public input[1] (input hash) does not match job" ;;
  zk_ensure (negb (bool_decide (zk.(zk_vk_hash) = bytes32 0)))
    "Zero verification key hash" ;;
  zk_ensure (negb (ent.(ent_enabled) && ent.(ent_require_registered_circuit)
                   && negb (bool_decide (zk.(zk_vk_hash) ∈ r.(jr_registered_circuits)))))
    "Enterprise mode: circuit vk_hash is not registered" ;;
  (if ent.(ent_enabled) && ent.(ent_require_domain_binding) then
     output_hash ← from_option Ok (Err (ZkVerificationFailed
       "Enterprise mode: job output_hash is required for domain binding but is None"))
       job.(job_output_hash);
     zk_ensure (negb (bool_decide (length inputs < 3)%nat))
       "Enterprise mode: domain binding requires >= 3 public inputs (model, input, output)" ;;
     zk_ensure (bool_decide (inputs !! 2%nat = Some output_hash))
       "Enterprise mode: public_input[2] (output commitment) does not match job output_hash"
   else Ok tt) ;;
  zk_ensure (negb (bool_decide (length zk.(zk_proof_bytes) < 128)%nat))
    ("Proof too short: " +:+ pretty (N.of_nat (length zk.(zk_proof_bytes)))
     +:+ " bytes (minimum 128)") ;;
  verify_zk_proof_via_precompile r zk job.

(** A [&self] method called from a [&mut self] method. *)
Definition with_self {A} (f : JobRegistry → Result A) : RegM A :=
  r ← get; lift (f r).

Definition verify_proof (proof : Proof) (job : JobState) : RegM bool :=
  match proof.(pf_method) with
  | TeeAttestationMethod =>
      att ← ok_or proof.(pf_tee_attestation)
              (InvalidProof "TEE attestation required but not provided");
      verify_tee_attestation att job
  | ZkProofMethod =>
      zk ← ok_or proof.(pf_zk_proof) (InvalidProof "ZK proof required but not provided");
      with_self (λ r, verify_zk_proof r zk job)
  | Hybrid =>
      att ← ok_or proof.(pf_tee_attestation)
              (InvalidProof "TEE attestation required for hybrid verification");
      zk ← ok_or proof.(pf_zk_proof)
             (InvalidProof "ZK proof required for hybrid verification");
      tee_valid ← verify_tee_attestation att job;
      zk_valid ← with_self (λ r, verify_zk_proof r zk job);
      mret (tee_valid && zk_valid)
  | ReExecution => mret (negb (bool_decide (proof.(pf_output_hash) = bytes32 0)))
  end.

End registry.

(** ** Settlement *)
Record ProofState := {
  ps_registry : JobRegistry;
  ps_staking : StakingManager;
  ps_lock : RwLock Bank;
  ps_bank : Bank;
}.

Abbreviation ProofM := (M SystemContractError ProofState).

Definition on_registry {A} (m : RegM A) : ProofM A :=
  zoom ps_registry (λ r s, {| ps_registry := r; ps_staking := s.(ps_staking);
                              ps_lock := s.(ps_lock); ps_bank := s.(ps_bank) |}) m.
Definition on_staking {A} (m : M SystemContractError (StakingManager * RwLock Bank) A)
  : ProofM A :=
  zoom (λ s, (s.(ps_staking), s.(ps_lock)))
    (λ p s, {| ps_registry := s.(ps_registry); ps_staking := p.1; ps_lock := p.2;
               ps_bank := s.(ps_bank) |}) m.
Definition on_bank {A} (m : BankM A) : ProofM A :=
  zoom ps_bank (λ b s, {| ps_registry := s.(ps_registry); ps_staking := s.(ps_staking);
                          ps_lock := s.(ps_lock); ps_bank := b |}) m.

Section settlement.
Context `{Build, Crypto}.

(** Phase 1: the checks before the proof is verified; the result is whether
    the submission is late, and the job. *)
Definition proof_prechecks (params : SubmitProofParams) (ctx : BlockContext)
  : ProofM (bool * JobState) :=
  s ← get;
  let r := s.(ps_registry) in
  let id := params.(sp_job_id) in
  let now := ctx.(ctx_timestamp) in
  job ← ok_or (r.(jr_jobs) !! id) (JobNotFound id);
  ensure (bool_decide (job.(job_assigned_prover) = Some params.(sp_prover)))
    (UnauthorizedProver (default (bytes32 0) job.(job_assigned_prover)) params.(sp_prover)) ;;
  let late := is_late job.(job_sla) now in
  (if is_expired job.(job_sla) now then
     slash_amount ← on_staking (slash_for_sla_violation params.(sp_prover));
     on_registry (update_job id (set_status Expired) ;; job_done ;;
       push_job_event (JobExpired id params.(sp_prover) job.(job_sla).(sla_deadline) now
         slash_amount)) ;;
     fail (SlaViolation id job.(job_sla).(sla_deadline) now)
   else mret tt) ;;
  ensure (bool_decide (params.(sp_proof).(pf_method) = job.(job_verification_method)))
    (ProofMethodMismatch job.(job_verification_method) params.(sp_proof).(pf_method)) ;;
  when r.(jr_config).(jc_enterprise_mode)
    (ensure (bool_decide (params.(sp_proof).(pf_method) = Hybrid))
       (SettlementFailed ("Enterprise mode requires Hybrid verification, got "
          +:+ VerificationMethod_debug params.(sp_proof).(pf_method))) ;;
     ensure (is_enterprise_compliant params.(sp_proof))
       (SettlementFailed "Enterprise mode requires both TEE attestation and ZK proof")) ;;
  mret (late, job).

(** The failed-verification branch. *)
Definition proof_rejected (params : SubmitProofParams) : ProofM unit :=
  let id := params.(sp_job_id) in
  slash_amount ← on_staking (slash_for_invalid_proof params.(sp_prover));
  on_registry (update_job id (set_status Failed) ;; job_done ;;
    push_job_event (JobFailed id params.(sp_prover) "Proof verification failed"
      slash_amount)) ;;
  fail (InvalidProof "Verification failed").

(** Steps 6 and 7: the late penalty, the fee split and the payments. *)
Definition settle_payments (job : JobState) (late : bool) (prover proposer : Address)
  : ProofM (TokenAmount * TokenAmount * TokenAmount) :=
  let requester := job.(job_requester) in
  fee ← (if late then
           penalty ← lift (late_penalty job.(job_sla) job.(job_bid_amount));
           let fee := sat_sub job.(job_bid_amount) penalty in
           on_bank (burn requester penalty) ;;
           mret fee
         else mret job.(job_bid_amount));
  m ← gets ps_staking;
  '(prover_reward, validator_reward, burn_amount) ← lift (calculate_fee_split m fee);
  on_bank (unlock requester job.(job_bid_amount) ;;
           transfer requester prover prover_reward ;;
           transfer requester proposer validator_reward ;;
           burn requester burn_amount) ;;
  mret (prover_reward, validator_reward, burn_amount).

Definition submit_proof (params : SubmitProofParams) (ctx : BlockContext)
  : ProofM ProofSubmitResult :=
  let id := params.(sp_job_id) in
  let proof := params.(sp_proof) in
  let now := ctx.(ctx_timestamp) in
  '(late, snapshot) ← proof_prechecks params ctx;
  verified ← on_registry (verify_proof proof snapshot);
  s ← get;
  (* [.expect("job must still exist after verify_proof")] *)
  job ← lift (from_option Ok Panic (s.(ps_registry).(jr_jobs) !! id));
  (if negb verified then proof_rejected params else mret tt) ;;
  on_registry (update_job id (set_verified proof.(pf_output_hash) params.(sp_result) now)) ;;
  '(prover_reward, validator_reward, burn_amount) ←
    settle_payments job late params.(sp_prover) ctx.(ctx_proposer);
  on_registry (update_job id (set_settled now) ;; job_done ;;
    push_job_event (ProofSubmitted id params.(sp_prover) proof.(pf_output_hash)
      (VerificationMethod_as_u8 proof.(pf_method)) ctx.(ctx_height)) ;;
    push_job_event (JobSettled id params.(sp_prover) job.(job_requester) prover_reward
      validator_reward burn_amount ctx.(ctx_height))) ;;
  mret {| psr_job_id := id; psr_verified := true; psr_prover_reward := prover_reward;
          psr_validator_reward := validator_reward; psr_burned := burn_amount |}.

(** ** Cancellation *)
Definition cancel_job (id : JobId) (requester : Address) (ctx : BlockContext)
  : M SystemContractError (JobRegistry * Bank) JobCancelResult :=
  r ← gets fst;
  job ← ok_or (r.(jr_jobs) !! id) (JobNotFound id);
  ensure (bool_decide (job.(job_requester) = requester))
    (OnlyRequesterCanCancel job.(job_requester) requester) ;;
  ensure (can_cancel job.(job_status)) (CannotCancelJob id job.(job_status)) ;;
  product ← lift (u_mul U128_MAX job.(job_bid_amount) r.(jr_config).(cancellation_fee_bps));
  cancellation_fee ← lift (u_div product 10000);
  let refund_amount := sat_sub job.(job_bid_amount) cancellation_fee in
  on_snd (unlock requester job.(job_bid_amount) ;;
          when (bool_decide (0 < cancellation_fee)) (burn requester cancellation_fee)) ;;
  on_fst (update_job id (set_status Cancelled) ;; job_done ;;
          push_job_event (JobCancelled id requester refund_amount cancellation_fee
            ctx.(ctx_height))) ;;
  mret {| jcr_job_id := id; jcr_refunded := refund_amount;
          jcr_cancellation_fee := cancellation_fee |}.
End settlement.

(** ** Expiry *)

(** The body of the inner loop of [process_expired_jobs]; [events] is the
    local vector. *)
Definition expire_job (current_time : N) (acc : JobRegistry * list JobEvent) (id : JobId)
  : JobRegistry * list JobEvent :=
  let '(r, events) := acc in
  match r.(jr_jobs) !! id with
  | Some job =>
      if JobStatus_is_active job.(job_status) && is_expired job.(job_sla) current_time then
        (jr_with_counts (sat_sub r.(jr_active_jobs) 1) r.(jr_total_jobs)
           (jr_with_jobs (<[id := set_status Expired job]> r.(jr_jobs)) r),
         events ++ [JobExpired id (default (bytes32 0) job.(job_assigned_prover))
                      job.(job_sla).(sla_deadline) current_time 0])
      else acc
  | None => acc
  end.

(** The body of the outer loop: the bucket is removed, then walked. *)
Definition expire_bucket (current_time : N) (acc : JobRegistry * list JobEvent)
    (deadline : N) : JobRegistry * list JobEvent :=
  let '(r, events) := acc in
  match r.(jr_jobs_by_deadline) !! deadline with
  | Some ids =>
      foldl (expire_job current_time)
        (jr_with_indexes r.(jr_jobs_by_requester) r.(jr_jobs_by_prover)
           (delete deadline r.(jr_jobs_by_deadline)) r, events) ids
  | None => acc
  end.

(** [self.jobs_by_deadline.range(..=t)], in the order of the [BTreeMap]. *)
Definition deadlines_until (current_time : N) (r : JobRegistry) : list N :=
  merge_sort N.le (filter (λ d, d <= current_time) (map_to_list r.(jr_jobs_by_deadline)).*1).

Definition process_expired_jobs (current_time : N) : RegM (list JobEvent) :=
  r ← get;
  let '(r', events) := foldl (expire_bucket current_time) (r, []) (deadlines_until current_time r) in
  put r' ;;
  mret events.
