(* ===== verification/Samples.v ===== *)
(** * Concrete runs

    One requester, one prover and one proposer on a development network, with
    verifiers that accept everything: the inputs the witnesses evaluate. *)
From S2P Require Import Prelude SysTypes F64 Precompile Bank Staking JobRegistry.
From stdpp Require Import base gmap list strings.
From Stdlib Require Import ZArith.
#[local] Open Scope N_scope.

Definition dev_build : Build :=
  {| overflow_checks := true; feature_sgx := false; feature_zkp := false |}.

(** A build without overflow checks. *)
Definition wrapping_build : Build :=
  {| overflow_checks := false; feature_sgx := false; feature_zkp := false |}.

(** Any function can stand for SHA-256 in a run; the identity has no
    collisions. *)
Definition dev_crypto : Crypto := {|
  sha256 := λ bs, bs;
  universal_tee_verify := λ _, {| pc_gas_cost := λ _, 0;
    pc_execute := λ _ _, Ok (ExecutionResult_success [1] 0) |};
  unified_zkp_verify := {| pc_gas_cost := λ _, 0;
    pc_execute := λ _ _, Ok (ExecutionResult_success [1] 0) |};
|}.

Definition alice : Address := bytes32 1.
Definition prover : Address := bytes32 2.
Definition proposer : Address := bytes32 3.
Definition one_token : N := 1000000000000000000.

Definition dev_bank : Bank :=
  Bank_from_genesis [{| ta_address := alice; ta_balance := 10 * one_token; ta_vesting := None |}].

Definition dev_params (m : VerificationMethod) : SubmitJobParams := {|
  sj_requester := alice; sj_model_hash := bytes32 8; sj_input_hash := bytes32 9;
  sj_max_bid := one_token; sj_bid_amount := one_token; sj_verification_method := m;
  sj_priority := Normal; sj_sla_timeout := 100; sj_tags := []; sj_encrypted_input := None;
  sj_callback := None; sj_data_provider := None; sj_required_compliance := [];
  sj_jurisdiction := None |}.

Definition dev_ctx (now : N) : BlockContext := {|
  ctx_height := now; ctx_timestamp := now; ctx_slot := now; ctx_proposer := proposer;
  ctx_gas_limit := 30000000; ctx_gas_used := 0 |}.

Definition dev_registry : JobRegistry := JobRegistry_new JobConfig_devnet.
Definition dev_job_id (nonce : N) : JobId :=
  generate_job_id (@sha256 dev_crypto) alice (bytes32 8) (bytes32 9) nonce.

Definition dev_submit (m : VerificationMethod) (s : JobRegistry * Bank) : JobRegistry * Bank :=
  (submit_job (H:=dev_build) (H0:=dev_crypto) (dev_params m) (dev_ctx 0) s).2.

Definition dev_assign (s : JobRegistry * Bank) : JobRegistry * Bank :=
  ((assign_job (dev_job_id 0) prover (dev_ctx 1) s.1).2, s.2).

Definition dev_proof (m : VerificationMethod) : Proof := {|
  pf_method := m;
  pf_tee_attestation := Some {| tee_type := IntelSgx; tee_attestation_bytes := replicate 64 7;
                                tee_measurement := bytes32 8; tee_timestamp := 2 |};
  pf_zk_proof := Some {| zk_system := Halo2; zk_proof_bytes := replicate 128 7;
                         zk_public_inputs := [bytes32 8; bytes32 9]; zk_vk_hash := bytes32 6 |};
  pf_output_hash := bytes32 5;
  pf_metadata := {| execution_time_ms := 1; memory_used := 1; inference_ops := 1;
                    complexity := 1 |} |}.

Definition dev_proof_params (m : VerificationMethod) : SubmitProofParams := {|
  sp_job_id := dev_job_id 0; sp_prover := prover; sp_proof := dev_proof m; sp_result := [42] |}.

(** The bank's lock is free, the borrowed bank is another one (as in the unit
    tests of the source). *)
Definition dev_state (s : JobRegistry * Bank) : ProofState := {|
  ps_registry := s.1; ps_staking := StakingManager_new StakingConfig_devnet;
  ps_lock := mkRwLock s.2 false; ps_bank := s.2 |}.

(** Two jobs submitted, the first assigned. *)
Definition dev_assigned (m : VerificationMethod) : JobRegistry * Bank :=
  dev_assign (dev_submit m (dev_submit m (dev_registry, dev_bank))).

(** The assigned job. *)
Definition dev_job (m : VerificationMethod) : JobState := {|
  job_id := dev_job_id 0; job_requester := alice; job_assigned_prover := Some prover;
  job_status := Assigned; job_bid_amount := one_token; job_model_hash := bytes32 8;
  job_input_hash := bytes32 9; job_output_hash := None; job_verification_method := m;
  job_priority := Normal;
  job_sla := {| sla_deadline := 100; sla_grace_end := 110; sla_late_penalty_bps := 0 |};
  job_tags := []; job_submitted_at := 0; job_assigned_at := Some 1;
  job_proof_submitted_at := None; job_verified_at := None; job_settled_at := None;
  job_callback := None; job_encrypted_input := None; job_result := None |}.
