(* ===== verification/JobSpec.v ===== *)
(** * What the job registry promises

    Tokens: every call conserves the bank's supply.  Lifecycle: which statuses
    a job can go through.  Verification: what a settled proof has passed.
    Settlement: who is paid what.  Deadlines: how they are computed and which
    jobs expire. *)
From S2P Require Import Prelude SysTypes F64 Precompile Bank BankSpec Staking StakingSpec JobRegistry.
From stdpp Require Import base gmap list strings sorting.
From Stdlib Require Import ZArith Lia SpecFloat.
#[local] Open Scope N_scope.

(** ** Calls respect what the bank's operations respect *)
Definition proof_rel (R : relation Bank) : relation ProofState := λ s s',
  R s.(ps_bank) s'.(ps_bank) ∧ lock_rel R s.(ps_lock) s'.(ps_lock).

#[export] Instance proof_rel_preorder (R : relation Bank) `{!PreOrder R} :
  PreOrder (proof_rel R).
Proof.
  split; unfold proof_rel.
  - intros s. split; reflexivity.
  - intros s s' s'' [] []. split; by etrans.
Qed.

Section clients.
Context `{Build} (R : relation Bank) `{!BankStable R}.

Lemma stake_bank staker amount role : stable (snd_rel R) (stake staker amount role).
Proof. unfold stake. stable_body. Qed.

Lemma withdraw_bank staker ctx : stable (snd_rel R) (withdraw staker ctx).
Proof. unfold withdraw. stable_body. Qed.

Lemma Staking_slash_bank staker rate reason jail :
  stable (snd_rel (lock_rel R)) (Staking_slash staker rate reason jail).
Proof. unfold Staking_slash. stable_body. Qed.

Context `{Crypto}.

Lemma submit_job_bank params ctx : stable (snd_rel R) (submit_job params ctx).
Proof. unfold submit_job. stable_body. Qed.

Lemma cancel_job_bank id requester ctx : stable (snd_rel R) (cancel_job id requester ctx).
Proof.
  assert (∀ a n k, stable (E:=SystemContractError) R (unlock a n ;; when (bool_decide (0 < k)) (burn a k))) as Hb
    by (intros; stable_body).
  unfold cancel_job. stable_body.
Qed.

Lemma on_registry_bank {A} (m : RegM A) : stable (proof_rel R) (on_registry m).
Proof. intros s. split; cbn; reflexivity. Qed.

Lemma on_bank_bank {A} (m : BankM A) : stable R m → stable (proof_rel R) (on_bank m).
Proof. intros Hm s. split; cbn; [apply Hm|reflexivity]. Qed.

Lemma on_staking_bank {A} (m : M SystemContractError (StakingManager * RwLock Bank) A) :
  stable (snd_rel (lock_rel R)) m → stable (proof_rel R) (on_staking m).
Proof. intros Hm s. split; [cbn; reflexivity|]. exact (Hm (ps_staking s, ps_lock s)). Qed.

Lemma slash_for_sla_violation_bank staker :
  stable (snd_rel (lock_rel R)) (slash_for_sla_violation staker).
Proof. unfold slash_for_sla_violation. stable_body. apply Staking_slash_bank. Qed.

Lemma slash_for_invalid_proof_bank staker :
  stable (snd_rel (lock_rel R)) (slash_for_invalid_proof staker).
Proof. unfold slash_for_invalid_proof. stable_body. apply Staking_slash_bank. Qed.

#[local] Hint Resolve on_registry_bank on_bank_bank on_staking_bank
  slash_for_sla_violation_bank slash_for_invalid_proof_bank : stable.

Lemma settle_payments_bank job late prover proposer :
  stable (proof_rel R) (settle_payments job late prover proposer).
Proof.
  unfold settle_payments. stable_body. apply on_bank_bank. stable_body.
Qed.

Lemma proof_prechecks_bank params ctx : stable (proof_rel R) (proof_prechecks params ctx).
Proof. unfold proof_prechecks. stable_body. apply stable_when; [apply _|]. stable_body. Qed.

Lemma proof_rejected_bank params : stable (proof_rel R) (proof_rejected params).
Proof. unfold proof_rejected. stable_body. Qed.

#[local] Hint Resolve settle_payments_bank proof_prechecks_bank proof_rejected_bank : stable.

Lemma submit_proof_bank params ctx : stable (proof_rel R) (submit_proof params ctx).
Proof. unfold submit_proof. stable_body. Qed.
End clients.

(** ** What a settled proof has passed *)
Section verification.
Context `{Build, Crypto}.

(** Without the [sgx] feature the precompile's verdict binds in fail-closed
    mode only. *)
Definition tee_binding (r : JobRegistry) : bool :=
  feature_sgx || requires_cryptographic_verification r.

Definition zk_binding (r : JobRegistry) : bool :=
  r.(jr_enterprise_zkml_config).(ent_enabled)
  || r.(jr_config).(require_cryptographic_verification) || feature_zkp.

Record tee_checked (r : JobRegistry) (att : TeeAttestation) (job : JobState) : Prop := {
  tc_measurement : att.(tee_measurement) = job.(job_model_hash);
  tc_nonzero : job.(job_model_hash) ≠ bytes32 0;
  tc_window : job.(job_submitted_at) <= att.(tee_timestamp) <= job.(job_sla).(sla_deadline);
  tc_length : (64 <= length att.(tee_attestation_bytes))%nat;
  tc_fresh : sha256 att.(tee_attestation_bytes) ∉ r.(jr_seen_attestation_hashes);
  tc_precompile : tee_binding r = true →
    ∃ res, pc_execute (universal_tee_verify r.(jr_enterprise_mode))
             (platform_prefix att.(tee_type) :: att.(tee_attestation_bytes)) tee_gas_limit
           = Ok res ∧ res.(er_success) = true;
}.

Lemma soft_failure_ok a b r u r1 :
  tee_soft_failure a b r = (Ok u, r1) → tee_binding r = false ∧ r1 = r.
Proof.
  unfold tee_soft_failure, tee_binding, tee_failed. destruct feature_sgx; [done|]. mrun.
  destruct (requires_cryptographic_verification r); [done|]. by intros [= _ <-].
Qed.

Lemma verify_tee_ok att job r v r1 :
  verify_tee_attestation att job r = (Ok v, r1) →
  v = true ∧ tee_checked r att job
  ∧ r1 = record_attestation (sha256 att.(tee_attestation_bytes)) r.
Proof.
  intros Hrun. unfold verify_tee_attestation in Hrun. ok_inv Hrun. bool_facts. subst.
  match goal with Hm : match pc_execute ?p ?i ?g with _ => _ end _ = (Ok _, ?s) |- _ =>
    rename Hm into Hpc; assert (s = r ∧ (tee_binding r = true →
      ∃ res, pc_execute p i g = Ok res ∧ er_success res = true)) as [-> Hbind] end.
  { destruct (pc_execute _ _ _) as [res|e| |]; [|by apply soft_failure_ok in Hpc as [-> ->]..|done].
    destruct (er_success res) eqn:Hs; cbn in Hpc.
    - injection Hpc as _ <-. eauto.
    - by apply soft_failure_ok in Hpc as [-> ->]. }
  split_and!; [congruence| |congruence]. split; try done; try lia.
  congruence.
Qed.

Lemma zk_ensure_ok b reason u : zk_ensure b reason = Ok u → b = true.
Proof. unfold zk_ensure. by destruct b. Qed.

Record zk_checked (r : JobRegistry) (zk : ZkProof) (job : JobState) : Prop := {
  zc_model : zk.(zk_public_inputs) !! 0%nat = Some job.(job_model_hash);
  zc_input : zk.(zk_public_inputs) !! 1%nat = Some job.(job_input_hash);
  zc_vk : zk.(zk_vk_hash) ≠ bytes32 0;
  zc_length : (128 <= length zk.(zk_proof_bytes))%nat;
  zc_circuit : r.(jr_enterprise_zkml_config).(ent_enabled) = true →
    r.(jr_enterprise_zkml_config).(ent_require_registered_circuit) = true →
    zk.(zk_vk_hash) ∈ r.(jr_registered_circuits);
  zc_binding : r.(jr_enterprise_zkml_config).(ent_enabled) = true →
    r.(jr_enterprise_zkml_config).(ent_require_domain_binding) = true →
    is_Some job.(job_output_hash) ∧ zk.(zk_public_inputs) !! 2%nat = job.(job_output_hash);
  zc_precompile : zk_binding r = true →
    ∃ input res, encode_unified_zkp_input zk job = Ok input
      ∧ pc_execute unified_zkp_verify input (pc_gas_cost unified_zkp_verify input) = Ok res
      ∧ last res.(er_output) = Some 1;
}.

Lemma via_precompile_ok r zk job v :
  verify_zk_proof_via_precompile r zk job = Ok v →
  v = true ∧ (zk_binding r = true →
    ∃ input res, encode_unified_zkp_input zk job = Ok input
      ∧ pc_execute unified_zkp_verify input (pc_gas_cost unified_zkp_verify input) = Ok res
      ∧ last res.(er_output) = Some 1).
Proof.
  unfold verify_zk_proof_via_precompile. intros Hrun. ok_inv Hrun.
  destruct (pc_execute _ _ _) as [res| | |] eqn:Hpc; simplify_eq.
  repeat match goal with Hz : zk_ensure _ _ = Ok _ |- _ => apply zk_ensure_ok in Hz end.
  split; [done|]. unfold zk_binding. intros Hb. exists v0, v1. split_and!; [done|done|].
  case_bool_decide; [done|]. cbn in *. rewrite andb_true_r in *.
  by repeat match goal with Hn : negb ?x = true |- _ => destruct x; cbn in *; try done end.
Qed.

Lemma verify_zk_ok r zk job v :
  verify_zk_proof r zk job = Ok v → v = true ∧ zk_checked r zk job.
Proof.
  unfold verify_zk_proof. intros Hrun. ok_inv Hrun.
  apply via_precompile_ok in Hrun as [-> Hpc]. split; [done|].
  repeat match goal with Hz : zk_ensure _ _ = Ok _ |- _ => apply zk_ensure_ok in Hz end.
  bool_facts. split; try done; try lia.
  - intros He Hr. rewrite He, Hr in *. cbn in *. by bool_facts.
  - intros He Hd. rewrite He, Hd in *. cbn in *.
    match goal with Hz : mbind _ _ = Ok _ |- _ => ok_inv Hz end.
    destruct (job_output_hash job) as [h|]; [|done]. cbn in *. simplify_eq.
    repeat match goal with Hz : zk_ensure _ _ = Ok _ |- _ => apply zk_ensure_ok in Hz end.
    bool_facts. split; [eauto|done].
Qed.

(** What [verify_proof] checks for the method it is given. *)
Definition proof_checked (r : JobRegistry) (proof : Proof) (job : JobState) : Prop :=
  match proof.(pf_method) with
  | TeeAttestationMethod =>
      ∃ att, proof.(pf_tee_attestation) = Some att ∧ tee_checked r att job
  | ZkProofMethod =>
      ∃ zk, proof.(pf_zk_proof) = Some zk ∧ zk_checked r zk job
  | Hybrid =>
      ∃ att zk, proof.(pf_tee_attestation) = Some att ∧ proof.(pf_zk_proof) = Some zk
        ∧ tee_checked r att job ∧ zk_checked r zk job
  | ReExecution => proof.(pf_output_hash) ≠ bytes32 0
  end.

Lemma verify_proof_ok proof job r r1 :
  verify_proof proof job r = (Ok true, r1) → proof_checked r proof job.
Proof.
  unfold verify_proof, proof_checked, with_self. intros Hrun.
  destruct (pf_method proof); [ok_inv Hrun..|injection Hrun as Hb _].
  - apply verify_tee_ok in Hrun as (_ & ? & _). eauto.
  - match goal with Hz : verify_zk_proof _ _ _ = _ |- _ =>
      apply verify_zk_ok in Hz as [_ ?] end. eauto.
  - match goal with Ht : verify_tee_attestation _ _ _ = _ |- _ =>
      apply verify_tee_ok in Ht as (-> & ? & ->) end.
    match goal with Hz : (get ≫= _) _ = _ |- _ => ok_inv Hz end.
    match goal with Hz : verify_zk_proof _ _ _ = _ |- _ =>
      apply verify_zk_ok in Hz as [-> Hzk] end.
    do 2 eexists. split_and!; [done..|]. by destruct Hzk.
  - by bool_facts.
Qed.
End verification.

(** ** What a call does to the registry *)
Lemma alter_twice {K V} `{Countable K} (f g : V → V) k (m : gmap K V) :
  alter f k (alter g k m) = alter (f ∘ g) k m.
Proof.
  apply map_eq. intros i. rewrite !lookup_alter.
  repeat case_decide; simplify_eq; by destruct (m !! i).
Qed.

(** The jobs and their indexes are untouched; attestations are only added. *)
Record same_jobs (r r' : JobRegistry) : Prop := {
  sj_jobs : r'.(jr_jobs) = r.(jr_jobs);
  sj_config : r'.(jr_config) = r.(jr_config);
  sj_nonces : r'.(jr_job_nonces) = r.(jr_job_nonces);
  sj_deadlines : r'.(jr_jobs_by_deadline) = r.(jr_jobs_by_deadline);
  sj_zkml : r'.(jr_enterprise_zkml_config) = r.(jr_enterprise_zkml_config);
  sj_mode : r'.(jr_enterprise_mode) = r.(jr_enterprise_mode);
  sj_circuits : r'.(jr_registered_circuits) = r.(jr_registered_circuits);
  sj_seen : r.(jr_seen_attestation_hashes) ⊆ r'.(jr_seen_attestation_hashes);
}.

#[export] Instance same_jobs_preorder : PreOrder same_jobs.
Proof.
  split; [intros r; by split|].
  intros r r' r'' [] []. split; try congruence. by etrans.
Qed.

Lemma record_attestation_same h r : same_jobs r (record_attestation h r).
Proof. split; cbn; try done. set_solver. Qed.

Section registry_calls.
Context `{Build, Crypto}.

Lemma tee_soft_failure_same a b : stable same_jobs (tee_soft_failure a b).
Proof. unfold tee_soft_failure, tee_failed. stable_body. Qed.

#[local] Hint Resolve tee_soft_failure_same : stable.

Lemma verify_tee_same att job : stable same_jobs (verify_tee_attestation att job).
Proof.
  unfold verify_tee_attestation. stable_body.
  apply stable_modify. intros. apply record_attestation_same.
Qed.

#[local] Hint Resolve verify_tee_same : stable.

Lemma verify_proof_same proof job : stable same_jobs (verify_proof proof job).
Proof. unfold verify_proof, with_self. stable_body. Qed.

(** Payments do not touch the registry or the staking manager. *)
Definition same_contracts (s s' : ProofState) : Prop :=
  s'.(ps_registry) = s.(ps_registry) ∧ s'.(ps_staking) = s.(ps_staking)
  ∧ s'.(ps_lock) = s.(ps_lock).

#[local] Instance same_contracts_preorder : PreOrder same_contracts.
Proof.
  split; unfold same_contracts; [by intros s|].
  intros s s' s'' (?&?&?) (?&?&?). split_and!; congruence.
Qed.

Lemma on_bank_same {A} (m : BankM A) : stable same_contracts (on_bank m).
Proof. by intros s. Qed.

#[local] Hint Resolve on_bank_same : stable.

Lemma settle_payments_same job late prover proposer :
  stable same_contracts (settle_payments job late prover proposer).
Proof. unfold settle_payments. stable_body. Qed.

(** One job is replaced, the rest of the registry's maps are untouched. *)
Record job_changed (id : JobId) (f : JobState → JobState) (r r' : JobRegistry) : Prop := {
  jch_jobs : r'.(jr_jobs) = alter f id r.(jr_jobs);
  jch_config : r'.(jr_config) = r.(jr_config);
  jch_nonces : r'.(jr_job_nonces) = r.(jr_job_nonces);
  jch_deadlines : r'.(jr_jobs_by_deadline) = r.(jr_jobs_by_deadline);
  jch_zkml : r'.(jr_enterprise_zkml_config) = r.(jr_enterprise_zkml_config);
  jch_seen : r.(jr_seen_attestation_hashes) ⊆ r'.(jr_seen_attestation_hashes);
}.

(** What the checks before verification establish, or how they fail. *)
Lemma prechecks_run params ctx s o s' :
  proof_prechecks params ctx s = (o, s') →
  match o with
  | Ok (late, job) =>
      s' = s ∧ s.(ps_registry).(jr_jobs) !! params.(sp_job_id) = Some job
      ∧ job.(job_assigned_prover) = Some params.(sp_prover)
      ∧ is_expired job.(job_sla) ctx.(ctx_timestamp) = false
      ∧ late = is_late job.(job_sla) ctx.(ctx_timestamp)
      ∧ params.(sp_proof).(pf_method) = job.(job_verification_method)
  | _ =>
      same_jobs s.(ps_registry) s'.(ps_registry)
      ∨ ∃ job, s.(ps_registry).(jr_jobs) !! params.(sp_job_id) = Some job
          ∧ job.(job_assigned_prover) = Some params.(sp_prover)
          ∧ is_expired job.(job_sla) ctx.(ctx_timestamp) = true
          ∧ job_changed params.(sp_job_id) (set_status Expired) s.(ps_registry) s'.(ps_registry)
  end.
Proof.
  unfold proof_prechecks. mrun.
  destruct (jr_jobs _ !! _) as [job|] eqn:Hj; cbn; [|by intros [= <- <-]; left].
  case_bool_decide as Hp; cbn; [|by intros [= <- <-]; left].
  destruct (is_expired _ _) eqn:Hx; cbn.
  - destruct (slash_for_sla_violation _ _) as [[n|e| |] p]; cbn; intros [= <- <-];
      [|by left..].
    right. exists job. split_and!; [done..|]. by split.
  - case_bool_decide as Hm; cbn; [|by intros [= <- <-]; left].
    destruct (jc_enterprise_mode _); cbn; [|by intros [= <- <-]].
    case_bool_decide; cbn; [|by intros [= <- <-]; left].
    destruct (is_enterprise_compliant _); cbn; intros [= <- <-]; [done|by left].
Qed.

(** The assignments [submit_proof] makes to the job it is about, with the
    checks that precede each. *)
Inductive proof_change (r : JobRegistry) (params : SubmitProofParams) (now : N)
    (job : JobState) : (JobState → JobState) → Prop :=
| pc_expired :
    is_expired job.(job_sla) now = true →
    proof_change r params now job (set_status Expired)
| pc_failed :
    is_expired job.(job_sla) now = false →
    proof_change r params now job (set_status Failed)
| pc_verified :
    is_expired job.(job_sla) now = false →
    params.(sp_proof).(pf_method) = job.(job_verification_method) →
    proof_checked r params.(sp_proof) job →
    proof_change r params now job
      (set_verified params.(sp_proof).(pf_output_hash) params.(sp_result) now)
| pc_settled :
    is_expired job.(job_sla) now = false →
    params.(sp_proof).(pf_method) = job.(job_verification_method) →
    proof_checked r params.(sp_proof) job →
    proof_change r params now job
      (set_settled now ∘ set_verified params.(sp_proof).(pf_output_hash) params.(sp_result) now).

Lemma same_then_changed r r1 r2 id f :
  same_jobs r r1 → job_changed id f r1 r2 → job_changed id f r r2.
Proof. intros [] []. split; try congruence. by etrans. Qed.

Lemma proof_rejected_run params s o s' :
  proof_rejected params s = (o, s') →
  is_ok o = false ∧
  (s'.(ps_registry) = s.(ps_registry)
   ∨ job_changed params.(sp_job_id) (set_status Failed) s.(ps_registry) s'.(ps_registry)).
Proof.
  unfold proof_rejected. mrun.
  destruct (slash_for_invalid_proof _ _) as [[n|e| |] p]; cbn; intros [= <- <-];
    (split; [done|]); [|by left..].
  right. by split.
Qed.

Lemma submit_proof_run params ctx s o s' :
  submit_proof params ctx s = (o, s') →
  let r := s.(ps_registry) in
  same_jobs r s'.(ps_registry)
  ∨ ∃ job f, r.(jr_jobs) !! params.(sp_job_id) = Some job
      ∧ job.(job_assigned_prover) = Some params.(sp_prover)
      ∧ proof_change r params ctx.(ctx_timestamp) job f
      ∧ job_changed params.(sp_job_id) f r s'.(ps_registry).
Proof.
  cbn. unfold submit_proof. unfold mbind at 1, M_bind at 1.
  destruct (proof_prechecks params ctx s) as [o1 s1] eqn:Hpre.
  apply prechecks_run in Hpre.
  destruct o1 as [[late job]|e| |]; cbn;
    [|intros [= <- <-]; destruct Hpre as [?|(job & ? & ? & ? & ?)];
      [by left|right; exists job; eauto 10 using proof_change]..].
  destruct Hpre as (-> & Hj & Hp & Hx & -> & Hm).
  pose proof (verify_proof_same (sp_proof params) job (ps_registry s)) as Hsame.
  unfold on_registry at 1, zoom, mbind at 1, M_bind at 1. cbn.
  destruct (verify_proof _ _ _) as [[verified|e| |] r1] eqn:Hv; cbn in *;
    [|by intros [= <- <-]; left..].
  unfold mbind at 1, M_bind at 1, get. cbn.
  rewrite (sj_jobs _ _ Hsame), Hj. unfold mbind at 1, M_bind at 1, lift. cbn.
  set (s1 := {| ps_registry := r1; ps_staking := ps_staking s; ps_lock := ps_lock s;
                ps_bank := ps_bank s |}).
  destruct verified; cbn.
  - apply verify_proof_ok in Hv. mrun.
    pose proof (settle_payments_same job (is_late (job_sla job) (ctx_timestamp ctx))
      (sp_prover params) (ctx_proposer ctx)) as Hset.
    match goal with |- context [settle_payments _ _ _ _ ?x] => specialize (Hset x) end.
    intros Heq. right. exists job.
    destruct (settle_payments _ _ _ _ _) as [[[[a b] c]|e| |] s2]; cbn in *;
      destruct Hset as [Hr _]; injection Heq as <- <-; eexists;
      (split_and!; [done|done| |]);
      [by apply pc_settled| |by apply pc_verified| |by apply pc_verified| |by apply pc_verified|];
      apply (same_then_changed _ r1 _ _ _ Hsame); split; cbn; rewrite ?Hr; cbn;
      done || apply alter_twice.
  - unfold mbind, M_bind. cbn.
    destruct (proof_rejected params s1) as [o2 s2] eqn:Hrej.
    apply proof_rejected_run in Hrej as [Hno Hrej].
    destruct o2; [done|..]; cbn; intros [= <- <-];
      (destruct Hrej as [->|Hrej]; [by left|right; exists job;
        eexists; split_and!; [done|done|by apply pc_failed|by eapply same_then_changed]]).
Qed.
End registry_calls.

(** ** Settlement *)
Section settling.
Context `{Build, Crypto}.

(** The state [settle_payments] starts from. *)
Definition verified_state (params : SubmitProofParams) (now : N) (r1 : JobRegistry)
    (s : ProofState) : ProofState := {|
  ps_registry := jr_with_jobs (alter
    (set_verified params.(sp_proof).(pf_output_hash) params.(sp_result) now)
    params.(sp_job_id) r1.(jr_jobs)) r1;
  ps_staking := s.(ps_staking);
  ps_lock := s.(ps_lock);
  ps_bank := s.(ps_bank) |}.

Lemma submit_proof_ok params ctx s res s' :
  submit_proof params ctx s = (Ok res, s') →
  let now := ctx.(ctx_timestamp) in
  ∃ job r1 s2 pr vr bn,
    s.(ps_registry).(jr_jobs) !! params.(sp_job_id) = Some job
    ∧ job.(job_assigned_prover) = Some params.(sp_prover)
    ∧ is_expired job.(job_sla) now = false
    ∧ params.(sp_proof).(pf_method) = job.(job_verification_method)
    ∧ verify_proof params.(sp_proof) job s.(ps_registry) = (Ok true, r1)
    ∧ settle_payments job (is_late job.(job_sla) now) params.(sp_prover) ctx.(ctx_proposer)
        (verified_state params now r1 s) = (Ok (pr, vr, bn), s2)
    ∧ s'.(ps_bank) = s2.(ps_bank)
    ∧ s'.(ps_registry).(jr_seen_attestation_hashes) = r1.(jr_seen_attestation_hashes)
    ∧ s'.(ps_registry).(jr_jobs) = alter (set_settled now ∘ set_verified
        params.(sp_proof).(pf_output_hash) params.(sp_result) now) params.(sp_job_id)
        s.(ps_registry).(jr_jobs)
    ∧ res = {| psr_job_id := params.(sp_job_id); psr_verified := true;
               psr_prover_reward := pr; psr_validator_reward := vr; psr_burned := bn |}.
Proof.
  intros Hrun. unfold submit_proof in Hrun.
  apply bind_ok in Hrun as ([late job] & s1 & Hpre & Hrun).
  apply prechecks_run in Hpre as (-> & Hj & Hp & Hx & -> & Hm).
  apply bind_ok in Hrun as (verified & s1 & Hv & Hrun).
  apply zoom_ok in Hv as (r1 & Hv & ->).
  pose proof (verify_proof_same (sp_proof params) job (ps_registry s)) as Hsame.
  rewrite Hv in Hsame. cbn in Hsame.
  apply bind_ok in Hrun as (? & ? & Hg & Hrun). injection Hg as <- <-.
  apply bind_ok in Hrun as (job' & ? & Hg & Hrun). apply lift_ok in Hg as [Hg ->].
  cbn in Hg. rewrite (sj_jobs _ _ Hsame), Hj in Hg. injection Hg as <-.
  apply bind_ok in Hrun as ([] & s2 & Hrej & Hrun). destruct verified;
    [injection Hrej as <-|by apply proof_rejected_run in Hrej as [? _]].
  apply bind_ok in Hrun as ([] & s2 & Hu & Hrun). injection Hu as <-.
  apply bind_ok in Hrun as ([[pr vr] bn] & s2 & Hset & Hrun).
  pose proof (settle_payments_same job (is_late (job_sla job) (ctx_timestamp ctx))
    (sp_prover params) (ctx_proposer ctx) (verified_state params (ctx_timestamp ctx) r1 s)) as Hs2.
  unfold verified_state in Hs2 at 2. rewrite Hset in Hs2. destruct Hs2 as [Hs2 _]. cbn in Hs2.
  exists job, r1, s2, pr, vr, bn. split_and!; try done;
    (apply bind_ok in Hrun as ([] & s3 & Hd & Hrun); injection Hd as <-;
     injection Hrun as <- <-); cbn; rewrite ?Hs2; cbn; try done.
  rewrite alter_twice. by rewrite (sj_jobs _ _ Hsame).
Qed.
End settling.

(** ** The registry as a state machine

    One step is one call, made with whatever bank and staking manager. *)
Section lifecycle.
Context `{Build, Crypto}.

(** A [[u8; 32]] has 32 bytes. *)
Definition sized (requester : Address) (model_hash input_hash : Hash) : Prop :=
  length requester = 32%nat ∧ length model_hash = 32%nat ∧ length input_hash = 32%nat.

Inductive reg_step (r : JobRegistry) : JobRegistry → Prop :=
| rs_submit params ctx b :
    sized params.(sj_requester) params.(sj_model_hash) params.(sj_input_hash) →
    reg_step r (submit_job params ctx (r, b)).2.1
| rs_assign id prover ctx : reg_step r (assign_job id prover ctx r).2
| rs_proof params ctx m l b :
    reg_step r (submit_proof params ctx {| ps_registry := r; ps_staking := m; ps_lock := l;
                                           ps_bank := b |}).2.(ps_registry)
| rs_cancel id requester ctx b : reg_step r (cancel_job id requester ctx (r, b)).2.1
| rs_expire now : reg_step r (process_expired_jobs now r).2
| rs_mode enabled : reg_step r (set_enterprise_mode enabled r)
| rs_zkml c : reg_step r (set_enterprise_zkml_config c r)
| rs_circuit h : reg_step r (register_circuit h r)
| rs_drain : reg_step r (Registry_drain_events r).2.

(** The id [submit_job] computes. *)
Definition next_job_id (r : JobRegistry) (params : SubmitJobParams) : JobId :=
  generate_job_id sha256 params.(sj_requester) params.(sj_model_hash) params.(sj_input_hash)
    (default 0 (r.(jr_job_nonces) !! params.(sj_requester))).

(** How far a submission gets: nothing, the nonce only, or the job. *)
Record submit_effect (params : SubmitJobParams) (now : N) (r r' : JobRegistry) : Prop := {
  se_jobs :
    r'.(jr_jobs) = r.(jr_jobs)
    ∨ (∃ job, JobState_new (next_job_id r params) params r.(jr_config) now = Ok job
       ∧ r'.(jr_jobs) = <[next_job_id r params := job]> r.(jr_jobs)
       ∧ (∃ next, u_add (E:=SystemContractError) U64_MAX
             (default 0 (r.(jr_job_nonces) !! params.(sj_requester))) 1 = Ok next
           ∧ r'.(jr_job_nonces) = <[params.(sj_requester) := next]> r.(jr_job_nonces)));
  se_nonces :
    r'.(jr_job_nonces) = r.(jr_job_nonces)
    ∨ (∃ n, r'.(jr_job_nonces) = <[params.(sj_requester) := n]> r.(jr_job_nonces)
       ∧ (n = default 0 (r.(jr_job_nonces) !! params.(sj_requester))
          ∨ u_add (E:=SystemContractError) U64_MAX
              (default 0 (r.(jr_job_nonces) !! params.(sj_requester))) 1 = Ok n));
  se_config : r'.(jr_config) = r.(jr_config);
  se_seen : r'.(jr_seen_attestation_hashes) = r.(jr_seen_attestation_hashes);
}.

Lemma submit_job_effect params ctx r b :
  submit_effect params ctx.(ctx_timestamp) r (submit_job params ctx (r, b)).2.1.
Proof.
  destruct (submit_job params ctx (r, b)) as [o [r' b']] eqn:Hrun. cbn. revert Hrun.
  unfold submit_job, push_job_event, on_fst, on_snd. mrun.
  do 4 (case_bool_decide; cbn; [intros [= <- <- <-]; split; auto|]).
  fold (next_job_id r params).
  destruct (u_add U64_MAX (default 0 (_ !! _)) 1) as [next| | |] eqn:Hn; cbn;
    [|intros [= <- <- <-]; split; cbn; eauto..].
  destruct (lock _ _ _) as [[u| | |] b1]; cbn;
    [|intros [= <- <- <-]; split; cbn; rewrite ?insert_insert_eq; eauto..].
  destruct (JobState_new _ _ _ _) as [job| | |] eqn:Hj; cbn;
    [|intros [= <- <- <-]; split; cbn; rewrite ?insert_insert_eq; eauto..].
  destruct (u_add U64_MAX (jr_active_jobs _) 1) as [?| | |]; cbn;
    [destruct (u_add U64_MAX (jr_total_jobs _) 1) as [?| | |]; cbn|..];
    intros [= <- <- <-]; split; cbn; rewrite ?insert_insert_eq; eauto 10.
Qed.

Lemma assign_job_effect id prover ctx r :
  let r' := (assign_job id prover ctx r).2 in
  r' = r
  ∨ ∃ job, r.(jr_jobs) !! id = Some job ∧ job.(job_status) = Submitted
      ∧ job.(job_assigned_prover) = None
      ∧ is_expired job.(job_sla) ctx.(ctx_timestamp) = false
      ∧ job_changed id (set_assigned prover ctx.(ctx_timestamp)) r r'.
Proof.
  destruct (assign_job id prover ctx r) as [o r'] eqn:Hrun. cbn. revert Hrun.
  unfold assign_job, update_job, push_job_event. mrun.
  destruct (jr_jobs r !! id) as [job|] eqn:Hj; cbn; [|intros [= <- <-]; auto].
  destruct (can_transition_to job Assigned) eqn:Ht; cbn; [|intros [= <- <-]; auto].
  destruct (job_assigned_prover job) eqn:Hp; cbn; [intros [= <- <-]; auto|].
  destruct (is_expired _ _) eqn:Hx; cbn; intros [= <- <-]; [auto|].
  right. exists job. split_and!; [done| |done|done|by split].
  unfold can_transition_to in Ht. by destruct (job_status job).
Qed.

Lemma cancel_job_effect id requester ctx r b :
  let r' := (cancel_job id requester ctx (r, b)).2.1 in
  r' = r
  ∨ ∃ job, r.(jr_jobs) !! id = Some job ∧ can_cancel job.(job_status) = true
      ∧ job.(job_requester) = requester ∧ job_changed id (set_status Cancelled) r r'.
Proof.
  destruct (cancel_job id requester ctx (r, b)) as [o [r' b']] eqn:Hrun. cbn. revert Hrun.
  unfold cancel_job, update_job, job_done, push_job_event, on_fst, on_snd. mrun.
  destruct (jr_jobs r !! id) as [job|] eqn:Hj; cbn; [|intros [= <- <- <-]; auto].
  case_bool_decide as Hreq; cbn; [|intros [= <- <- <-]; auto].
  destruct (can_cancel _) eqn:Hc; cbn; [|intros [= <- <- <-]; auto].
  destruct (u_mul _ _ _) as [p| | |]; cbn; try (intros [= <- <- <-]; by auto).
  destruct (u_div _ _) as [fee| | |]; cbn; try (intros [= <- <- <-]; by auto).
  destruct (unlock _ _ _) as [[?| | |] b1]; cbn; try (intros [= <- <- <-]; by auto).
  match goal with |- context [(?m b1).1] => destruct (m b1) as [[?| | |] b2] end; cbn;
    intros [= <- <- <-]; [|by auto..].
  right. exists job. split_and!; [done..|by split].
Qed.

(** Expiry: active jobs past their grace period become [Expired]; every other
    job is untouched. *)
Definition expires (now : N) (r r' : JobRegistry) : Prop :=
  (∀ id, r'.(jr_jobs) !! id = r.(jr_jobs) !! id
    ∨ ∃ job, r.(jr_jobs) !! id = Some job ∧ JobStatus_is_active job.(job_status) = true
        ∧ is_expired job.(job_sla) now = true
        ∧ r'.(jr_jobs) !! id = Some (set_status Expired job))
  ∧ r'.(jr_job_nonces) = r.(jr_job_nonces) ∧ r'.(jr_config) = r.(jr_config)
  ∧ r'.(jr_seen_attestation_hashes) = r.(jr_seen_attestation_hashes).

#[local] Instance expires_preorder now : PreOrder (expires now).
Proof.
  split; unfold expires.
  - intros r. split_and!; auto.
  - intros r r' r'' (Hr1 & ? & ? & ?) (Hr2 & ? & ? & ?). split_and!; [|congruence..].
    intros id. destruct (Hr2 id) as [->|(j & Hj & Ha & Hx & ->)]; [apply Hr1|].
    destruct (Hr1 id) as [<-|(j' & Hj' & _ & _ & Hj'')]; [eauto 10|].
    rewrite Hj in Hj''. injection Hj'' as ->. done.
Qed.

Lemma expire_job_expires now r evs id : expires now r (expire_job now (r, evs) id).1.
Proof.
  unfold expire_job. destruct (jr_jobs r !! id) as [job|] eqn:Hj; [|cbn; reflexivity].
  destruct (_ && _) eqn:Hc; cbn; [|reflexivity]. apply andb_true_iff in Hc as [Ha Hx].
  split; [|done]. intros id'. cbn. destruct (decide (id = id')) as [<-|].
  - right. exists job. by rewrite lookup_insert_eq.
  - left. by rewrite lookup_insert_ne.
Qed.

Lemma foldl_expires {A} now (f : JobRegistry * list JobEvent → A → JobRegistry * list JobEvent) l acc :
  (∀ r evs x, expires now r (f (r, evs) x).1) → expires now acc.1 (foldl f acc l).1.
Proof.
  intros Hf. revert acc. induction l as [|x l IH]; intros [r evs]; cbn; [reflexivity|].
  etrans; [apply (Hf r evs x)|apply IH].
Qed.

Lemma expire_bucket_expires now r evs d : expires now r (expire_bucket now (r, evs) d).1.
Proof.
  unfold expire_bucket. destruct (_ !! d) as [ids|]; [|cbn; reflexivity].
  etrans; [|apply foldl_expires; intros; apply expire_job_expires]. cbn.
  split_and!; auto.
Qed.

Lemma process_expired_effect now r : expires now r (process_expired_jobs now r).2.
Proof.
  unfold process_expired_jobs. mrun.
  pose proof (foldl_expires now (expire_bucket now) (deadlines_until now r) (r, [])
    (expire_bucket_expires now)) as Hf.
  by destruct (foldl _ _ _).
Qed.

(** The assignments a call makes to an existing job. *)
Inductive job_move (r : JobRegistry) (j : JobState) : (JobState → JobState) → Prop :=
| mv_assign prover now :
    j.(job_status) = Submitted → j.(job_assigned_prover) = None →
    is_expired j.(job_sla) now = false → job_move r j (set_assigned prover now)
| mv_cancel : can_cancel j.(job_status) = true → job_move r j (set_status Cancelled)
| mv_expire now :
    JobStatus_is_active j.(job_status) = true → is_expired j.(job_sla) now = true →
    job_move r j (set_status Expired)
| mv_proof params now f :
    j.(job_assigned_prover) = Some params.(sp_prover) → proof_change r params now j f →
    job_move r j f.

Lemma changed_lookup id id' f r r' job :
  r.(jr_jobs) !! id = Some job → job_changed id f r r' →
  r'.(jr_jobs) !! id' = r.(jr_jobs) !! id'
  ∨ (r.(jr_jobs) !! id' = Some job ∧ r'.(jr_jobs) !! id' = Some (f job)).
Proof.
  intros Hj [-> _ _ _ _ _]. rewrite lookup_alter. case_decide as Hd; [|by left].
  right. subst. by rewrite Hj.
Qed.

(** What one call can do to the entry of one id: nothing, one assignment to
    the job, or a fresh submission. *)
Lemma reg_step_jobs r r' id :
  reg_step r r' →
  r'.(jr_jobs) !! id = r.(jr_jobs) !! id
  ∨ (∃ job f, r.(jr_jobs) !! id = Some job ∧ job_move r job f
      ∧ r'.(jr_jobs) !! id = Some (f job))
  ∨ (∃ params now job, id = next_job_id r params
      ∧ sized params.(sj_requester) params.(sj_model_hash) params.(sj_input_hash)
      ∧ JobState_new id params r.(jr_config) now = Ok job ∧ r'.(jr_jobs) !! id = Some job
      ∧ ∃ next, u_add (E:=SystemContractError) U64_MAX
            (default 0 (r.(jr_job_nonces) !! params.(sj_requester))) 1 = Ok next
          ∧ r'.(jr_job_nonces) = <[params.(sj_requester) := next]> r.(jr_job_nonces)).
Proof.
  intros Hstep. destruct Hstep as [params ctx b Hsz|id' prover ctx|params ctx m l b|id' q ctx b|
    now|e|c|h|]; try by left.
  - destruct (submit_job_effect params ctx r b) as [[->|(job & Hnew & -> & Hnext)] _ _ _]; [by left|].
    destruct (decide (id = next_job_id r params)) as [->|Hne].
    + right. right. exists params, (ctx_timestamp ctx), job. by rewrite lookup_insert_eq.
    + left. by rewrite lookup_insert_ne.
  - destruct (assign_job_effect id' prover ctx r) as [->|(job & Hj & ? & ? & ? & Hch)];
      [by left|].
    destruct (changed_lookup _ id _ _ _ _ Hj Hch) as [?|[? ?]]; [by left|].
    right. left. eauto 10 using job_move.
  - destruct (submit_proof params ctx _) as [o s'] eqn:Hrun.
    apply submit_proof_run in Hrun as [Hs|(job & f & Hj & ? & ? & Hch)]; cbn in *.
    + left. by rewrite (sj_jobs _ _ Hs).
    + destruct (changed_lookup _ id _ _ _ _ Hj Hch) as [?|[? ?]]; [by left|].
      right. left. eauto 10 using job_move.
  - destruct (cancel_job_effect id' q ctx r b) as [->|(job & Hj & ? & ? & Hch)]; [by left|].
    destruct (changed_lookup _ id _ _ _ _ Hj Hch) as [?|[? ?]]; [by left|].
    right. left. eauto 10 using job_move.
  - destruct (process_expired_effect now r) as [Hx _].
    destruct (Hx id) as [?|(job & ? & ? & ? & ?)]; [by left|].
    right. left. eauto 10 using job_move.
Qed.

(** What every job of a reachable registry satisfies. *)
Record job_inv (j : JobState) : Prop := {
  ji_status : match j.(job_status) with
    | Submitted => j.(job_assigned_prover) = None
    | Assigned | Failed => is_Some j.(job_assigned_prover)
    | Verified | Settled => is_Some j.(job_assigned_prover) ∧ is_Some j.(job_verified_at)
    | Expired | Cancelled => True
    | Proving | Verifying | Disputed => False
    end;
  ji_assigned : is_Some j.(job_assigned_prover) ↔ is_Some j.(job_assigned_at);
  ji_output : is_Some j.(job_verified_at) ↔ is_Some j.(job_output_hash);
  ji_result : is_Some j.(job_verified_at) ↔ is_Some j.(job_result);
  ji_paid : is_Some j.(job_settled_at) → is_Some j.(job_verified_at);
  ji_settled : j.(job_status) = Settled → is_Some j.(job_settled_at);
}.

Lemma job_inv_new id params config now job :
  JobState_new id params config now = Ok job → job_inv job.
Proof.
  unfold JobState_new. destruct (SlaPolicy_new _ _ _ _); cbn; [|done..]. intros [= <-].
  split; cbn; try done; split; by intros [? ?].
Qed.

Lemma job_inv_move r j f : job_move r j f → job_inv j → job_inv (f j).
Proof.
  intros Hmv [Hs Ha Ho Hr Hp Hst]. destruct Hmv as [prover now Hsub Hn ?|Hc|now Hact ?|params now f Hp' Hch].
  - rewrite Hsub in Hs. split; cbn; try done.
  - split; cbn; try done.
  - split; cbn; try done.
  - destruct Hch; split; cbn; try done; rewrite ?Hp'; try (split; by eauto); eauto.
Qed.

Lemma job_inv_reachable config (enterprise : bool) r id j :
  rtc reg_step (if enterprise then JobRegistry_new_enterprise config
                else JobRegistry_new config) r →
  r.(jr_jobs) !! id = Some j → job_inv j.
Proof.
  intros Hreach. revert r Hreach id j.
  apply (rtc_ind_r (λ r, ∀ id j, r.(jr_jobs) !! id = Some j → job_inv j)).
  - by destruct enterprise.
  - intros r r' _ Hstep IH id j Hj.
    destruct (reg_step_jobs r r' id Hstep) as [Heq|[(job & f & Hjob & Hmv & Hj')|
      (params & now & job & -> & _ & Hnew & Hj' & _)]].
    + rewrite Heq in Hj. by eapply IH.
    + rewrite Hj in Hj'. injection Hj' as ->. eapply job_inv_move; [done|]. by eapply IH.
    + rewrite Hj in Hj'. injection Hj' as ->. by eapply job_inv_new.
Qed.

(** C9: in every registry reachable by calls from an empty one, each job is
    in a consistent state: a [Submitted] job has no prover and only jobs with a
    prover fail, verify or settle; the prover is recorded with its assignment
    time; the output hash, the result and the verification time are recorded
    together and before any settlement; and the statuses [Proving],
    [Verifying] and [Disputed] of the lifecycle are never entered. *)
Theorem job_lifecycle config (enterprise : bool) r id j :
  rtc reg_step (if enterprise then JobRegistry_new_enterprise config
                else JobRegistry_new config) r →
  r.(jr_jobs) !! id = Some j → job_inv j.
Proof. apply job_inv_reachable. Qed.

(** ** A job keeps its identity *)
Record job_evolves (j j' : JobState) : Prop := {
  ev_identity : (j'.(job_id), j'.(job_requester), j'.(job_bid_amount), j'.(job_model_hash),
      j'.(job_input_hash), j'.(job_verification_method), j'.(job_sla), j'.(job_submitted_at))
    = (j.(job_id), j.(job_requester), j.(job_bid_amount), j.(job_model_hash),
      j.(job_input_hash), j.(job_verification_method), j.(job_sla), j.(job_submitted_at));
  ev_prover : ∀ p, j.(job_assigned_prover) = Some p → j'.(job_assigned_prover) = Some p;
  ev_forward : j'.(job_status) = j.(job_status) ∨ j'.(job_status) ≠ Submitted;
  ev_assigned : j'.(job_status) = Assigned → j.(job_status) = Submitted ∨ j.(job_status) = Assigned;
  ev_closed : is_terminal j.(job_status) = true → j.(job_assigned_prover) = None → j' = j;
}.

Lemma job_evolves_refl j : job_evolves j j.
Proof. split; auto. Qed.

Lemma job_move_evolves r j f : job_move r j f → job_evolves j (f j).
Proof.
  intros [prover now Hs Hn ?|Hc|now Ha ?|params now f' Hp Hch].
  - split; cbn; try done; [congruence|auto|auto|]. rewrite Hs. done.
  - split; cbn; try done; [auto|]. by destruct (job_status j).
  - split; cbn; try done; [auto|]. by destruct (job_status j).
  - destruct Hch; split; cbn; try done; auto; congruence.
Qed.

(** Ids are hashes of the job's own fields and a nonce that is spent. *)
Record ids_inv (k : N) (r : JobRegistry) : Prop := {
  ids_nonces : ∀ a, default 0 (r.(jr_job_nonces) !! a) <= k;
  ids_spent : ∀ id j, r.(jr_jobs) !! id = Some j →
    sized j.(job_requester) j.(job_model_hash) j.(job_input_hash)
    ∧ ∃ n, n < default 0 (r.(jr_job_nonces) !! j.(job_requester))
        ∧ id = generate_job_id sha256 j.(job_requester) j.(job_model_hash) j.(job_input_hash) n;
}.

Lemma nonce_insert_le (nonces : gmap Address N) (a a' : Address) n :
  default 0 (nonces !! a) <= n →
  default 0 (nonces !! a') <= default 0 (<[a := n]> nonces !! a').
Proof.
  intros Hle. destruct (decide (a = a')) as [<-|]; [by rewrite lookup_insert_eq|].
  by rewrite lookup_insert_ne.
Qed.

(** A call bumps one nonce by at most one, while nonces do not overflow. *)
Lemma reg_step_nonces r r' k :
  reg_step r r' → k < U64_MAX → (∀ a, default 0 (r.(jr_job_nonces) !! a) <= k) →
  (∀ a, default 0 (r.(jr_job_nonces) !! a) <= default 0 (r'.(jr_job_nonces) !! a))
  ∧ ∀ a, default 0 (r'.(jr_job_nonces) !! a) <= k + 1.
Proof.
  intros Hstep Hk Hn.
  assert (r'.(jr_job_nonces) = r.(jr_job_nonces)
    ∨ ∃ a n, r'.(jr_job_nonces) = <[a := n]> r.(jr_job_nonces)
        ∧ default 0 (r.(jr_job_nonces) !! a) <= n <= k + 1) as [->|(a & n & -> & Hle)].
  { destruct Hstep as [params ctx b _|id prover ctx|params ctx m l b|id q ctx b|now|e|c|h|];
      try by left.
    - destruct (submit_job_effect params ctx r b) as [_ [->|(n & -> & Hor)] _ _]; [by left|].
      right. eexists _, _. split; [done|]. pose proof (Hn (sj_requester params)).
      destruct Hor as [->|Hadd]; [lia|].
      rewrite u_add_ok in Hadd by lia. injection Hadd as <-. lia.
    - destruct (assign_job_effect id prover ctx r) as [->|(? & _ & _ & _ & _ & Hch)];
        [by left|left; apply Hch].
    - destruct (submit_proof params ctx _) as [o s'] eqn:Hrun.
      apply submit_proof_run in Hrun as [Hs|(job & f & _ & _ & _ & Hch)];
        left; [apply Hs|apply Hch].
    - destruct (cancel_job_effect id q ctx r b) as [->|(? & _ & _ & _ & Hch)];
        [by left|left; apply Hch].
    - left. apply (process_expired_effect now r). }
  - split; intros a; [done|]. specialize (Hn a). lia.
  - split; intros a'.
    + apply nonce_insert_le, Hle.
    + destruct (decide (a = a')) as [<-|]; [rewrite lookup_insert_eq; cbn; lia|].
      rewrite lookup_insert_ne by done. specialize (Hn a'). lia.
Qed.

Lemma new_job_fields id params config now job :
  JobState_new id params config now = Ok job →
  job.(job_requester) = params.(sj_requester) ∧ job.(job_model_hash) = params.(sj_model_hash)
  ∧ job.(job_input_hash) = params.(sj_input_hash)
  ∧ job.(job_bid_amount) = params.(sj_bid_amount) ∧ job.(job_status) = Submitted
  ∧ job.(job_assigned_prover) = None.
Proof.
  unfold JobState_new. destruct (SlaPolicy_new _ _ _ _); cbn; [|done..]. by intros [= <-].
Qed.

Lemma move_fields r j f :
  job_move r j f → (f j).(job_requester) = j.(job_requester)
  ∧ (f j).(job_model_hash) = j.(job_model_hash) ∧ (f j).(job_input_hash) = j.(job_input_hash).
Proof. intros [| | |params now f' ? Hch]; [done..|]. by destruct Hch. Qed.

Lemma ids_inv_step k r r' :
  reg_step r r' → k < U64_MAX → ids_inv k r → ids_inv (k + 1) r'.
Proof.
  intros Hstep Hk [Hn Hs]. destruct (reg_step_nonces r r' k Hstep Hk Hn) as [Hmono Hn'].
  split; [done|]. intros id j Hj.
  destruct (reg_step_jobs r r' id Hstep) as [Heq|[(job & f & Hjob & Hmv & Hj')|
    (params & now & job & -> & Hsz & Hnew & Hj' & next & Hadd & Hnon)]].
  - rewrite Heq in Hj. destruct (Hs id j Hj) as (? & n & ? & ?). split; [done|].
    exists n. split; [|done]. eapply N.lt_le_trans; [done|apply Hmono].
  - rewrite Hj in Hj'. injection Hj' as ->. destruct (Hs id job Hjob) as (? & n & ? & ?).
    destruct (move_fields r job f Hmv) as (-> & -> & ->). split; [done|].
    exists n. split; [|done]. eapply N.lt_le_trans; [done|apply Hmono].
  - rewrite Hj in Hj'. injection Hj' as ->.
    destruct (new_job_fields _ _ _ _ _ Hnew) as (-> & -> & -> & _). split; [done|].
    eexists. split; [|reflexivity]. rewrite Hnon, lookup_insert_eq. cbn.
    specialize (Hn (sj_requester params)). rewrite u_add_ok in Hadd by lia.
    injection Hadd as <-. lia.
Qed.

Lemma ids_inv_reachable config k r :
  nsteps reg_step k (JobRegistry_new config) r → N.of_nat k <= U64_MAX →
  ids_inv (N.of_nat k) r.
Proof.
  revert r. induction k as [|k IH]; intros r Hsteps Hk.
  - inversion Hsteps; subst. by split.
  - apply nsteps_inv_r in Hsteps as (r1 & Hsteps & Hstep).
    rewrite Nat2N.inj_succ, <- N.add_1_r in *.
    apply (ids_inv_step _ r1); [done|lia|]. apply IH; [done|lia].
Qed.

Lemma next_id_taken k r params j :
  ids_inv k r → k <= U64_MAX →
  sized params.(sj_requester) params.(sj_model_hash) params.(sj_input_hash) →
  r.(jr_jobs) !! next_job_id r params = Some j →
  ∃ x y, x ≠ y ∧ sha256 x = sha256 y.
Proof.
  intros [Hn Hs] Hk (? & ? & ?) Hj. destruct (Hs _ _ Hj) as ((? & ? & ?) & n & Hlt & Hid).
  pose proof (Hn (job_requester j)). pose proof (Hn (sj_requester params)).
  eexists _, _. split; [|exact Hid]. intros Heq.
  apply job_id_preimage_inj in Heq as (Hr & _ & _ & Hnn); [|done..|lia|lia].
  rewrite Hr in Hnn. lia.
Qed.

(** C8: a job is never lost or overwritten, unless SHA-256 collides.  In a
    registry reached by [k] calls from the empty one, whatever call comes next,
    an existing job is still there with its id, requester, bid, hashes, method,
    SLA and submission time unchanged, its prover unchanged once assigned, never
    back in [Submitted] (nor in [Assigned] once past it), and untouched for good
    if it was closed before being assigned; or else two different inputs with
    the same SHA-256 hash have been found. *)
Theorem job_persistence config k r r' id j :
  nsteps reg_step k (JobRegistry_new config) r → N.of_nat k <= U64_MAX →
  reg_step r r' → r.(jr_jobs) !! id = Some j →
  (∃ j', r'.(jr_jobs) !! id = Some j' ∧ job_evolves j j')
  ∨ (∃ x y, x ≠ y ∧ sha256 x = sha256 y).
Proof.
  intros Hsteps Hk Hstep Hj. pose proof (ids_inv_reachable _ _ _ Hsteps Hk) as Hinv.
  destruct (reg_step_jobs r r' id Hstep) as [Heq|[(job & f & Hjob & Hmv & Hj')|
    (params & now & job & -> & Hsz & Hnew & Hj' & _)]].
  - left. exists j. rewrite Heq. split; [done|apply job_evolves_refl].
  - left. rewrite Hj in Hjob. injection Hjob as <-. eauto using job_move_evolves.
  - right. by eapply next_id_taken.
Qed.
End lifecycle.
