(* ===== verification/JobSettle.v ===== *)
(** * Settlement, verification and replay

    What a successful [submit_proof] has checked, that an attestation is used
    once, who is paid what on settlement and on cancellation, and what the
    missing status check of [submit_proof] allows. *)
From S2P Require Import Prelude SysTypes F64 Precompile Bank BankSpec Staking StakingSpec JobRegistry JobSpec Samples.
From stdpp Require Import base gmap list strings sorting relations.
From Stdlib Require Import ZArith Lia.
#[local] Open Scope N_scope.

(** ** Ledger operations in sequence *)
#[export] Instance spec_transfer_proper from to n :
  Proper ((≡@{Ledger}) ==> (≡@{option Ledger})) (spec_transfer from to n).
Proof.
  intros l l' (Hf & Hh & Hz & Hs & Hb). unfold spec_transfer. rewrite Hf, Hz.
  destruct (_ || _); [constructor|]. case_bool_decide; constructor;
    split_and!; intros; cbn; unfold upd; rewrite ?Hf, ?Hh, ?Hz, ?Hs, ?Hb; try done;
    repeat case_decide; by rewrite ?Hf.
Qed.

#[export] Instance spec_unlock_proper addr n :
  Proper ((≡@{Ledger}) ==> (≡@{option Ledger})) (spec_unlock addr n).
Proof.
  intros l l' (Hf & Hh & Hz & Hs & Hb). unfold spec_unlock. rewrite Hh.
  case_bool_decide; constructor. split_and!; intros; cbn; unfold upd;
    rewrite ?Hf, ?Hh, ?Hz, ?Hs, ?Hb; try done; case_decide; by rewrite ?Hf, ?Hh.
Qed.

(** [m] carries out [spec] wherever [spec] is defined. *)
Definition achieves {A} (m : BankM A) (spec : Ledger → option Ledger) (b : Bank) : Prop :=
  ∀ l, spec (abs b) = Some l → ∃ a b', m b = (Ok a, b') ∧ abs b' ≡ l.

Lemma simulates_achieves {A} (m : BankM A) spec b : simulates m spec b → achieves m spec b.
Proof.
  unfold simulates. intros Hs l Hl. rewrite Hl in Hs. destruct Hs as [Hok Habs].
  destruct (m b) as [[a| | |] b'] eqn:Hm; try done. eauto.
Qed.

Lemma achieves_seq {A B} (m : BankM A) (k : BankM B) f g b `{!Proper ((≡) ==> (≡)) g} :
  stable bank_step m → bank_wf b → achieves m f b → (∀ b', bank_wf b' → achieves k g b') →
  achieves (m ;; k) (λ l, f l ≫= g) b.
Proof.
  intros Hst Hwf Hm Hk l Hl. apply bind_Some in Hl as (l1 & Hf & Hg).
  destruct (Hm l1 Hf) as (a & b1 & Hrun & Heq).
  pose proof (Hst b Hwf) as [Hwf1 _]. rewrite Hrun in Hwf1. cbn in Hwf1.
  apply Proper0 in Heq. rewrite Hg in Heq.
  destruct (g (abs b1)) as [l2|] eqn:Hg2; [|by inversion Heq].
  apply Some_equiv_inj in Heq.
  destruct (Hk b1 Hwf1 l2 Hg2) as (c & b2 & Hrun2 & Heq2).
  exists c, b2. split; [|by rewrite Heq2].
  unfold mbind, M_bind. by rewrite Hrun.
Qed.

(** The payments of an on-time settlement. *)
Definition spec_settle (q p v : Address) (bid pr vr bn : N) (l : Ledger) : option Ledger :=
  spec_unlock q bid l ≫= λ l, spec_transfer q p pr l ≫= λ l, spec_transfer q v vr l ≫= λ l,
    spec_transfer q BURN_ADDRESS bn l.

#[export] Instance spec_bind_proper (f g : Ledger → option Ledger)
  `{!Proper ((≡) ==> (≡)) f, !Proper ((≡) ==> (≡)) g} :
  Proper ((≡) ==> (≡)) (λ l, f l ≫= g).
Proof.
  intros l l' Hl. assert (f l ≡ f l') as Hf by (by rewrite Hl).
  inversion Hf as [x y Hxy Hx Hy|Hx Hy]; cbn; [|done]. by rewrite Hxy.
Qed.

Lemma settle_achieves q p v bid pr vr bn b :
  bid ≠ 0 → bank_wf b →
  achieves (unlock q bid ;; transfer q p pr ;; transfer q v vr ;; burn q bn)
    (spec_settle q p v bid pr vr bn) b.
Proof.
  intros Hbid Hwf. unfold spec_settle.
  assert (∀ to n b, bank_wf b → achieves (transfer q to n) (spec_transfer q to n) b) as Htr
    by (intros; by apply simulates_achieves, transfer_simulates).
  apply achieves_seq; [apply _|apply unlock_step|done|by apply simulates_achieves, unlock_simulates|].
  intros b1 Hwf1. apply achieves_seq; [apply _|apply transfer_step|done|by apply Htr|].
  intros b2 Hwf2. apply achieves_seq; [apply _|apply transfer_step|done|by apply Htr|].
  intros b3 Hwf3. by apply Htr.
Qed.

(** A transfer the ledger allows. *)
Lemma spec_transfer_some q to n l :
  n ≠ 0 → n <= l.(lg_free) q → l.(lg_frozen) q = false → q ≠ to ∨ to = BURN_ADDRESS →
  ∃ l', spec_transfer q to n l = Some l'
    ∧ l'.(lg_held) = l.(lg_held) ∧ l'.(lg_frozen) = l.(lg_frozen)
    ∧ (∀ a, l'.(lg_free) a =
         if decide (a = q) then l.(lg_free) q - n
         else if decide (a = to ∧ to ≠ BURN_ADDRESS) then l.(lg_free) a + n else l.(lg_free) a)
    ∧ l'.(lg_supply) = l.(lg_supply) - (if decide (to = BURN_ADDRESS) then n else 0)
    ∧ l'.(lg_burned) = l.(lg_burned) + (if decide (to = BURN_ADDRESS) then n else 0).
Proof.
  intros Hn Hle Hfr Hto. unfold spec_transfer.
  rewrite Hfr, !bool_decide_false by lia. cbn. eexists. split; [done|].
  case_bool_decide as Hb; cbn; unfold upd; split_and!; try done; intros;
    repeat case_decide; destruct_and?; subst; try done; try lia; exfalso; tauto.
Qed.

(** With the bid held and split exactly, the payments go through: the bid
    leaves the requester's held tokens and nothing else of it moves. *)
Lemma settle_ledger q p v bid pr vr bn l :
  q ≠ p → q ≠ v → p ≠ BURN_ADDRESS → v ≠ BURN_ADDRESS →
  pr ≠ 0 → vr ≠ 0 → bn ≠ 0 → pr + vr + bn = bid →
  bid <= l.(lg_held) q → l.(lg_frozen) q = false →
  ∃ l', spec_settle q p v bid pr vr bn l = Some l'
    ∧ l'.(lg_held) q = l.(lg_held) q - bid
    ∧ (∀ a, a ≠ q → l'.(lg_held) a = l.(lg_held) a)
    ∧ (∀ a, l'.(lg_free) a = l.(lg_free) a + (if decide (a = p) then pr else 0)
                             + (if decide (a = v) then vr else 0))
    ∧ l'.(lg_frozen) = l.(lg_frozen)
    ∧ l'.(lg_supply) = l.(lg_supply) - bn ∧ l'.(lg_burned) = l.(lg_burned) + bn.
Proof.
  intros Hqp Hqv Hp Hv Hpr Hvr Hbn Hsum Hheld Hfr.
  unfold spec_settle, spec_unlock. rewrite bool_decide_false by lia. cbn.
  set (l0 := spec_move _ _ _ _).
  assert (l0.(lg_free) q = l.(lg_free) q + bid) as Hq0 by (cbn; unfold upd; by rewrite decide_True).
  assert (∀ a, a ≠ q → l0.(lg_free) a = l.(lg_free) a) as Ho0
    by (intros; cbn; unfold upd; by rewrite decide_False).
  destruct (spec_transfer_some q p pr l0) as (l1 & -> & Hh1 & Hf1 & Hfree1 & Hs1 & Hb1);
    [done|lia|done|by left|]. cbn.
  pose proof (Hfree1 q) as Hq1. rewrite decide_True in Hq1 by done.
  destruct (spec_transfer_some q v vr l1) as (l2 & -> & Hh2 & Hf2 & Hfree2 & Hs2 & Hb2);
    [done|lia|by rewrite Hf1|by left|]. cbn.
  pose proof (Hfree2 q) as Hq2. rewrite decide_True in Hq2 by done.
  destruct (spec_transfer_some q BURN_ADDRESS bn l2) as (l3 & -> & Hh3 & Hf3 & Hfree3 & Hs3 & Hb3);
    [done|lia|by rewrite Hf2, Hf1|by right|].
  rewrite (decide_False (P:=(p = _))) in Hs1, Hb1 by done.
  rewrite (decide_False (P:=(v = _))) in Hs2, Hb2 by done.
  rewrite decide_True in Hs3, Hb3 by done.
  assert (l0.(lg_supply) = l.(lg_supply) ∧ l0.(lg_burned) = l.(lg_burned)) as [Hs0 Hb0] by done.
  assert (l0.(lg_held) q = l.(lg_held) q - bid) as Hq3 by (cbn; unfold upd; by rewrite decide_True).
  assert (∀ a, a ≠ q → l0.(lg_held) a = l.(lg_held) a) as Ho3
    by (intros; cbn; unfold upd; by rewrite decide_False).
  assert (l0.(lg_frozen) = l.(lg_frozen)) as Hfz by done.
  clearbody l0. exists l3. rewrite Hh3, Hh2, Hh1. split_and!; try done; try lia; try congruence.
  intros a. rewrite (Hfree3 a). specialize (Hfree2 a). specialize (Hfree1 a). specialize (Ho0 a).
  repeat case_decide; destruct_and?; subst; try tauto; try specialize (Ho0 ltac:(done)); lia.
Qed.

Section settlement_claims.
Context `{Build, Crypto}.

(** An on-time proof of the assigned prover that verifies, for a job whose bid
    is still held, at least 10000 base units, and split at a burn rate strictly
    between 0 and 30%. *)
Record settle_ready (params : SubmitProofParams) (ctx : BlockContext) (s : ProofState)
    (job : JobState) (r1 : JobRegistry) : Prop := {
  rd_job : s.(ps_registry).(jr_jobs) !! params.(sp_job_id) = Some job;
  rd_prover : job.(job_assigned_prover) = Some params.(sp_prover);
  rd_time : ctx.(ctx_timestamp) <= job.(job_sla).(sla_deadline);
  rd_grace : job.(job_sla).(sla_deadline) <= job.(job_sla).(sla_grace_end);
  rd_method : params.(sp_proof).(pf_method) = job.(job_verification_method);
  rd_mode : s.(ps_registry).(jr_config).(jc_enterprise_mode) = false;
  rd_verified : verify_proof params.(sp_proof) job s.(ps_registry) = (Ok true, r1);
  rd_bank : bank_wf s.(ps_bank);
  rd_bid : 10000 <= job.(job_bid_amount) ∧ job.(job_bid_amount) * 3000 <= U128_MAX;
  rd_held : job.(job_bid_amount) <= get_locked_balance s.(ps_bank) job.(job_requester);
  rd_frozen : is_locked (account_or_default job.(job_requester) s.(ps_bank))
                s.(ps_bank).(bk_current_block) = false;
  rd_rate : 0 < s.(ps_staking).(sm_current_burn_rate_bps) < 3000;
  rd_parties : job.(job_requester) ≠ params.(sp_prover) ∧ job.(job_requester) ≠ ctx.(ctx_proposer)
    ∧ params.(sp_prover) ≠ BURN_ADDRESS ∧ ctx.(ctx_proposer) ≠ BURN_ADDRESS;
}.

Lemma prechecks_pass params ctx s job r1 :
  settle_ready params ctx s job r1 → proof_prechecks params ctx s = (Ok (false, job), s).
Proof.
  intros Hr. unfold proof_prechecks. mrun. rewrite (rd_job _ _ _ _ _ Hr). cbn.
  rewrite (bool_decide_true (job_assigned_prover job = _)) by apply Hr. cbn.
  pose proof (rd_time _ _ _ _ _ Hr). pose proof (rd_grace _ _ _ _ _ Hr).
  unfold is_expired, is_late. rewrite !(bool_decide_false (_ < _)) by lia. cbn.
  rewrite bool_decide_true by apply Hr. cbn. by rewrite (rd_mode _ _ _ _ _ Hr).
Qed.

Lemma fee_split_positive m fee :
  0 < m.(sm_current_burn_rate_bps) < 3000 → 10000 <= fee → fee * 3000 <= U128_MAX →
  ∃ pr vr bn, calculate_fee_split m fee = Ok (pr, vr, bn) ∧ pr + vr + bn = fee
    ∧ pr = fee * 70 / 100 ∧ bn = fee * m.(sm_current_burn_rate_bps) / 10000
    ∧ pr ≠ 0 ∧ vr ≠ 0 ∧ bn ≠ 0.
Proof.
  intros Hr Hf Hmax. set (r := m.(sm_current_burn_rate_bps)) in *.
  rewrite fee_split_eq by (fold r; nia). fold r.
  do 3 eexists. split; [reflexivity|].
  assert (10000 <= fee * r <= fee * 2999) by (clearbody r; nia). clearbody r.
  div_elim. split_and!; done || lia.
Qed.

(** A run of [submit_proof] once the split and the payments are known. *)
Lemma settled_run params ctx s job r1 pr vr bn b' :
  settle_ready params ctx s job r1 →
  calculate_fee_split s.(ps_staking) job.(job_bid_amount) = Ok (pr, vr, bn) →
  (unlock job.(job_requester) job.(job_bid_amount) ;;
   transfer job.(job_requester) params.(sp_prover) pr ;;
   transfer job.(job_requester) ctx.(ctx_proposer) vr ;;
   burn job.(job_requester) bn) s.(ps_bank) = (Ok tt, b') →
  ∃ s', submit_proof params ctx s
      = (Ok {| psr_job_id := params.(sp_job_id); psr_verified := true; psr_prover_reward := pr;
               psr_validator_reward := vr; psr_burned := bn |}, s')
    ∧ s'.(ps_bank) = b' ∧ s'.(ps_staking) = s.(ps_staking)
    ∧ s'.(ps_registry).(jr_config) = s.(ps_registry).(jr_config)
    ∧ s'.(ps_registry).(jr_jobs) !! params.(sp_job_id)
      = Some (set_settled ctx.(ctx_timestamp) (set_verified
          params.(sp_proof).(pf_output_hash) params.(sp_result) ctx.(ctx_timestamp) job)).
Proof.
  intros Hr Hsplit Hpay.
  pose proof (verify_proof_same (sp_proof params) job (ps_registry s)) as Hsame.
  rewrite (rd_verified _ _ _ _ _ Hr) in Hsame. cbn in Hsame.
  assert (jr_jobs r1 !! sp_job_id params = Some job) as Hj
    by (rewrite (sj_jobs _ _ Hsame); apply Hr).
  unfold submit_proof. unfold mbind at 1, M_bind at 1.
  rewrite (prechecks_pass params ctx s job r1 Hr).
  unfold on_registry at 1, zoom, mbind at 1, M_bind at 1. cbn.
  rewrite (rd_verified _ _ _ _ _ Hr). unfold mbind at 1, M_bind at 1, get. cbn.
  unfold mbind at 1, M_bind at 1, lift. cbn. rewrite Hj. cbn.
  unfold settle_payments. unfold mbind in Hpay. unfold M_bind in Hpay. mrun.
  rewrite Hsplit. unfold on_bank, zoom. cbn. rewrite Hpay. cbn.
  eexists. split; [reflexivity|]. cbn. split_and!; [done|done|apply Hsame|].
  by rewrite alter_twice, lookup_alter_eq, Hj.
Qed.

(** What a settlement does, with what a following call needs to know. *)
Definition settlement_post (params : SubmitProofParams) (ctx : BlockContext) (s : ProofState)
    (job : JobState) (pr vr bn : N) (s' : ProofState) : Prop :=
  let bid := job.(job_bid_amount) in
  pr + vr + bn = bid
  ∧ get_locked_balance s'.(ps_bank) job.(job_requester)
    = get_locked_balance s.(ps_bank) job.(job_requester) - bid
  ∧ (∀ a, a ≠ job.(job_requester) →
       get_locked_balance s'.(ps_bank) a = get_locked_balance s.(ps_bank) a)
  ∧ (∀ a, available_balance s'.(ps_bank) a = available_balance s.(ps_bank) a
       + (if decide (a = params.(sp_prover)) then pr else 0)
       + (if decide (a = ctx.(ctx_proposer)) then vr else 0))
  ∧ s'.(ps_bank).(bk_total_burned) = s.(ps_bank).(bk_total_burned) + bn
  ∧ s'.(ps_registry).(jr_jobs) !! params.(sp_job_id)
    = Some (set_settled ctx.(ctx_timestamp) (set_verified
        params.(sp_proof).(pf_output_hash) params.(sp_result) ctx.(ctx_timestamp) job)).

Lemma settlement_run params ctx s job r1 :
  settle_ready params ctx s job r1 →
  let bid := job.(job_bid_amount) in
  let bn := bid * s.(ps_staking).(sm_current_burn_rate_bps) / 10000 in
  let pr := bid * 70 / 100 in
  ∃ vr s', submit_proof params ctx s
      = (Ok {| psr_job_id := params.(sp_job_id); psr_verified := true; psr_prover_reward := pr;
               psr_validator_reward := vr; psr_burned := bn |}, s')
    ∧ settlement_post params ctx s job pr vr bn s'
    ∧ bank_wf s'.(ps_bank) ∧ s'.(ps_staking) = s.(ps_staking)
    ∧ s'.(ps_registry).(jr_config) = s.(ps_registry).(jr_config)
    ∧ lg_frozen (abs s'.(ps_bank)) job.(job_requester) = false.
Proof.
  intros Hr bid bn pr. destruct (rd_bid _ _ _ _ _ Hr) as [Hb1 Hb2].
  destruct (rd_parties _ _ _ _ _ Hr) as (? & ? & ? & ?).
  destruct (fee_split_positive (ps_staking s) bid (rd_rate _ _ _ _ _ Hr) Hb1 Hb2)
    as (pr' & vr & bn' & Hsplit & Hsum & -> & -> & ? & ? & ?).
  fold pr bn in Hsplit, Hsum.
  destruct (abs_observers (ps_bank s) (job_requester job)) as (_ & Hobs & _).
  destruct (settle_ledger (job_requester job) (sp_prover params) (ctx_proposer ctx) bid pr vr bn
    (abs (ps_bank s))) as (l' & Hl & Hq & Ho & Hfree & Hfz & _ & Hburn);
    try done; [rewrite Hobs; apply Hr|apply Hr|].
  destruct (settle_achieves _ _ _ bid pr vr bn (ps_bank s) ltac:(lia) (rd_bank _ _ _ _ _ Hr) l' Hl)
    as ([] & b' & Hrun & (Heqf & Heqh & Heqz & _ & Heqb)).
  destruct (settled_run params ctx s job r1 pr vr bn b' Hr Hsplit Hrun)
    as (s' & Hs' & Hb' & Hst & Hcf & Hj').
  pose proof (submit_proof_bank bank_step params ctx s) as [Hwf' _].
  rewrite Hs' in Hwf'. destruct (Hwf' (rd_bank _ _ _ _ _ Hr)) as [Hwf2 _]. cbn in Hwf2.
  exists vr, s'. unfold settlement_post. fold bid. rewrite Hb' in *. split_and!; try done.
  - destruct (abs_observers b' (job_requester job)) as (_ & <- & _). rewrite Heqh, Hq.
    by rewrite Hobs.
  - intros a Ha. destruct (abs_observers b' a) as (_ & <- & _).
    destruct (abs_observers (ps_bank s) a) as (_ & <- & _). by rewrite Heqh, Ho.
  - intros a. destruct (abs_observers b' a) as (<- & _).
    destruct (abs_observers (ps_bank s) a) as (<- & _). by rewrite Heqf, Hfree.
  - exact (eq_trans Heqb Hburn).
  - rewrite Heqz, Hfz. apply Hr.
Qed.

(** C4: the assigned prover's verified proof settles the job, and the bid is
    paid out exactly, when nothing stands in the way of the payments: the job is
    assigned to the submitter, the proof is of the job's method, arrives by the
    deadline (which the grace period does not end before) and verifies, outside
    enterprise mode; on a well-formed bank the requester still holds the bid and
    is not frozen; the bid is at least 10000 base units and 3000 times the bid
    fits 128 bits; the burn rate is strictly between 0 and 30%; the requester is
    neither the prover nor the proposer, and neither of them is the burn address.
    Then the call returns [Ok] with 70% of the bid (rounded down) for the prover,
    the burn share for the burn and the rest for the block proposer; the
    requester's held tokens fall by the bid and its free tokens do not move,
    prover and proposer gain their shares, the burn share leaves the supply, no
    other account changes, and the job is [Settled] with its output recorded.
    (A share that rounds to zero makes the settlement fail half-way.) *)
Theorem settlement_pays params ctx s job r1 :
  settle_ready params ctx s job r1 →
  let bid := job.(job_bid_amount) in
  let bn := bid * s.(ps_staking).(sm_current_burn_rate_bps) / 10000 in
  let pr := bid * 70 / 100 in
  ∃ vr s', submit_proof params ctx s
      = (Ok {| psr_job_id := params.(sp_job_id); psr_verified := true; psr_prover_reward := pr;
               psr_validator_reward := vr; psr_burned := bn |}, s')
    ∧ settlement_post params ctx s job pr vr bn s'.
Proof.
  intros Hr. destruct (settlement_run params ctx s job r1 Hr) as (vr & s' & ? & ? & _). eauto.
Qed.

(** C39: a settled job settles again: [submit_proof] does not look at the
    job's status, so the same re-execution proof, submitted twice, is paid
    twice.  The second payment comes out of tokens the requester has held for
    something else (another job's bid or a stake). *)
Theorem settled_job_settles_again params ctx s job r1 :
  settle_ready params ctx s job r1 → params.(sp_proof).(pf_method) = ReExecution →
  2 * job.(job_bid_amount) <= get_locked_balance s.(ps_bank) job.(job_requester) →
  ∃ res s1 s2, submit_proof params ctx s = (Ok res, s1)
    ∧ job_status <$> s1.(ps_registry).(jr_jobs) !! params.(sp_job_id) = Some Settled
    ∧ submit_proof params ctx s1 = (Ok res, s2)
    ∧ get_locked_balance s2.(ps_bank) job.(job_requester)
      = get_locked_balance s.(ps_bank) job.(job_requester) - 2 * job.(job_bid_amount).
Proof.
  intros Hr Hm H2. destruct (settlement_run params ctx s job r1 Hr)
    as (vr & s1 & Hrun1 & (Hs1 & Hq1 & _ & _ & _ & Hj1) & Hwf1 & Hst1 & Hcf1 & Hfz1).
  pose proof (rd_held _ _ _ _ _ Hr) as Hheld.
  assert (settle_ready params ctx s1 (set_settled ctx.(ctx_timestamp) (set_verified
    params.(sp_proof).(pf_output_hash) params.(sp_result) ctx.(ctx_timestamp) job))
    s1.(ps_registry)) as Hr1.
  { pose proof (rd_verified _ _ _ _ _ Hr) as Hv.
    unfold verify_proof in Hv. rewrite Hm in Hv. injection Hv as Hv _.
    destruct Hr. split; cbn; rewrite ?Hst1, ?Hcf1, ?Hq1; try done; [|lia].
    unfold verify_proof. rewrite Hm. cbn. by rewrite Hv. }
  destruct (settlement_run params ctx s1 _ _ Hr1)
    as (vr' & s2 & Hrun2 & (Hs2 & Hq2 & _) & _). cbn in *.
  rewrite Hst1 in *. assert (vr' = vr) as -> by (div_abstract; lia).
  do 3 eexists. split_and!; [exact Hrun1|by rewrite Hj1|exact Hrun2|]. rewrite Hq2, Hq1. lia.
Qed.

(** C5: nothing is paid for a proof that was not examined.  Whenever
    [submit_proof] returns [Ok], the job exists and is assigned to the submitter,
    the deadline and its grace period have not passed, the proof is of the job's
    own method, and the registry's checks of that method have passed: for a TEE
    attestation the measurement it states is the job's model hash, it states a
    time inside the SLA window and its bytes were never used before, and in
    fail-closed mode (or with the crate feature) the precompile's call returned
    with its success flag set (which the TEE precompile also does for a quote it
    refuses: the registry does not read the verdict in its output); for a zk
    proof the public inputs start with the job's model and input hashes, and
    in fail-closed mode (or with the crate feature) the verdict byte that ends the
    precompile's output is 1; for a re-execution the stated output hash is not
    zero. *)
Theorem settled_proof_checked params ctx s res s' :
  submit_proof params ctx s = (Ok res, s') →
  ∃ job, s.(ps_registry).(jr_jobs) !! params.(sp_job_id) = Some job
    ∧ job.(job_assigned_prover) = Some params.(sp_prover)
    ∧ ctx.(ctx_timestamp) <= job.(job_sla).(sla_grace_end)
    ∧ params.(sp_proof).(pf_method) = job.(job_verification_method)
    ∧ proof_checked s.(ps_registry) params.(sp_proof) job.
Proof.
  intros Hrun. apply submit_proof_ok in Hrun
    as (job & r1 & s2 & pr & vr & bn & Hj & Hp & Hx & Hm & Hv & _).
  exists job. split_and!; try done.
  - unfold is_expired in Hx. bool_facts. lia.
  - by eapply verify_proof_ok.
Qed.

(** ** Attestations are used once *)
Lemma reg_step_seen r r' :
  reg_step r r' → r.(jr_seen_attestation_hashes) ⊆ r'.(jr_seen_attestation_hashes).
Proof.
  intros [params ctx b _|id prover ctx|params ctx m l b|id q ctx b|now|e|c|h|]; try done.
  - by rewrite (se_seen _ _ _ _ (submit_job_effect params ctx r b)).
  - destruct (assign_job_effect id prover ctx r) as [->|(? & _ & _ & _ & _ & Hch)];
      [done|apply Hch].
  - destruct (submit_proof params ctx _) as [o s'] eqn:Hrun.
    apply submit_proof_run in Hrun as [Hs|(job & f & _ & _ & _ & Hch)]; [apply Hs|apply Hch].
  - destruct (cancel_job_effect id q ctx r b) as [->|(? & _ & _ & _ & Hch)];
      [done|apply Hch].
  - destruct (process_expired_effect now r) as (_ & _ & _ & ->). done.
Qed.

(** The proof relies on an attestation of these bytes. *)
Definition attests (raw : bytes) (proof : Proof) : Prop :=
  (proof.(pf_method) = TeeAttestationMethod ∨ proof.(pf_method) = Hybrid)
  ∧ tee_attestation_bytes <$> proof.(pf_tee_attestation) = Some raw.

Lemma attested_recorded raw proof job r r1 :
  attests raw proof → verify_proof proof job r = (Ok true, r1) →
  sha256 raw ∈ r1.(jr_seen_attestation_hashes)
  ∧ sha256 raw ∉ r.(jr_seen_attestation_hashes).
Proof.
  intros [Hm Hraw] Hv. apply fmap_Some in Hraw as (att & Hatt & ->).
  unfold verify_proof, with_self in Hv. rewrite Hatt in Hv.
  destruct Hm as [Hm|Hm]; rewrite Hm in Hv; cbn in Hv.
  - apply verify_tee_ok in Hv as (_ & Hc & ->). split; [cbn; set_solver|apply Hc].
  - ok_inv Hv. simplify_eq.
    match goal with Ht : verify_tee_attestation _ _ _ = _ |- _ =>
      apply verify_tee_ok in Ht as (_ & Hc & ->) end.
    match goal with Hz : (get ≫= _) _ = _ |- _ => ok_inv Hz end.
    injection Hv as _ <-. split; [cbn; set_solver|apply Hc].
Qed.

(** C10: an attestation settles at most one job: after a settlement that
    relied on an attestation, whatever calls follow, no proof that relies on
    the same attestation bytes is ever accepted again, for any job and by any
    prover. *)
Theorem attestation_used_once raw params ctx s res s' r params' ctx' s2 :
  submit_proof params ctx s = (Ok res, s') → attests raw params.(sp_proof) →
  rtc reg_step s'.(ps_registry) r →
  s2.(ps_registry) = r → attests raw params'.(sp_proof) →
  is_ok (submit_proof params' ctx' s2).1 = false.
Proof.
  intros Hrun Ha Hsteps <- Ha'. apply submit_proof_ok in Hrun
    as (job & r1 & _ & _ & _ & _ & _ & _ & _ & _ & Hv & _ & _ & Hseen & _).
  apply (attested_recorded raw) in Hv as [Hin _]; [|done]. rewrite <- Hseen in Hin.
  assert (sha256 raw ∈ (ps_registry s2).(jr_seen_attestation_hashes)) as Hin2.
  { clear -Hsteps Hin. revert Hsteps.
    induction 1 as [r|r r' r'' Hstep _ IH]; [done|]. apply IH. by apply (reg_step_seen r r'). }
  destruct (submit_proof params' ctx' s2) as [[res'| | |] s3] eqn:Hrun2; try done.
  apply submit_proof_ok in Hrun2 as (job' & r2 & _ & _ & _ & _ & _ & _ & _ & _ & Hv2 & _).
  by apply (attested_recorded raw) in Hv2 as [_ ?].
Qed.

(** ** Cancellation *)
Definition spec_cancel (q : Address) (bid fee : N) (l : Ledger) : option Ledger :=
  spec_unlock q bid l ≫= λ l,
    if bool_decide (0 < fee) then spec_transfer q BURN_ADDRESS fee l else Some l.

#[local] Instance spec_cancel_burn_proper q fee :
  Proper ((≡@{Ledger}) ==> (≡@{option Ledger}))
    (λ l, if bool_decide (0 < fee) then spec_transfer q BURN_ADDRESS fee l else Some l).
Proof. intros l l' Hl. case_bool_decide; [by rewrite Hl|by constructor]. Qed.

Lemma cancel_achieves q bid fee b :
  bid ≠ 0 → bank_wf b →
  achieves (unlock q bid ;; when (bool_decide (0 < fee)) (burn q fee)) (spec_cancel q bid fee) b.
Proof.
  intros Hbid Hwf. apply achieves_seq;
    [apply _|apply unlock_step|done|by apply simulates_achieves, unlock_simulates|].
  intros b1 Hwf1. case_bool_decide; cbn [when].
  - exact (simulates_achieves _ _ _ (transfer_simulates q BURN_ADDRESS fee b1 Hwf1)).
  - intros l [= <-]. by exists tt, b1.
Qed.

Lemma cancel_ledger q bid fee l :
  fee <= bid → bid <= l.(lg_held) q → l.(lg_frozen) q = false →
  ∃ l', spec_cancel q bid fee l = Some l'
    ∧ l'.(lg_held) q = l.(lg_held) q - bid ∧ (∀ a, a ≠ q → l'.(lg_held) a = l.(lg_held) a)
    ∧ (∀ a, l'.(lg_free) a = l.(lg_free) a + (if decide (a = q) then bid - fee else 0))
    ∧ l'.(lg_burned) = l.(lg_burned) + fee.
Proof.
  intros Hfee Hheld Hfr. unfold spec_cancel, spec_unlock.
  rewrite (bool_decide_false (lg_held l q < bid)) by lia. cbn.
  set (l0 := spec_move _ _ _ _).
  assert (l0.(lg_held) q = l.(lg_held) q - bid ∧ l0.(lg_free) q = l.(lg_free) q + bid) as [Hq Hq0]
    by (cbn; unfold upd; by rewrite !decide_True).
  assert (∀ a, a ≠ q → l0.(lg_held) a = l.(lg_held) a ∧ l0.(lg_free) a = l.(lg_free) a) as Ho
    by (intros; cbn; unfold upd; by rewrite !decide_False).
  case_bool_decide as Hz.
  - destruct (spec_transfer_some q BURN_ADDRESS fee l0)
      as (l1 & -> & Hh1 & Hf1 & Hfree1 & Hs1 & Hb1); [lia|lia|done|by right|].
    rewrite decide_True in Hb1 by done.
    exists l1. rewrite Hh1. split_and!; try done; [intros; by apply Ho|].
    intros a. rewrite (Hfree1 a). specialize (Ho a).
    repeat case_decide; destruct_and?; subst; try done; [lia|destruct Ho; [done|lia]].
  - exists l0. split_and!; try done; [intros; by apply Ho| |cbn; lia].
    intros a. specialize (Ho a). clearbody l0.
    case_decide; subst; [lia|destruct Ho; [done|lia]].
Qed.

Lemma cancel_run r b id requester ctx job :
  r.(jr_jobs) !! id = Some job → job.(job_requester) = requester →
  can_cancel job.(job_status) = true → job.(job_bid_amount) ≠ 0 →
  r.(jr_config).(cancellation_fee_bps) <= 10000 →
  job.(job_bid_amount) * r.(jr_config).(cancellation_fee_bps) <= U128_MAX →
  bank_wf b → job.(job_bid_amount) <= get_locked_balance b requester →
  is_locked (account_or_default requester b) b.(bk_current_block) = false →
  let bid := job.(job_bid_amount) in
  let fee := bid * r.(jr_config).(cancellation_fee_bps) / 10000 in
  ∃ r' b', cancel_job id requester ctx (r, b)
      = (Ok {| jcr_job_id := id; jcr_refunded := bid - fee; jcr_cancellation_fee := fee |}, (r', b'))
    ∧ fee <= bid
    ∧ get_locked_balance b' requester = get_locked_balance b requester - bid
    ∧ (∀ a, a ≠ requester → get_locked_balance b' a = get_locked_balance b a)
    ∧ (∀ a, available_balance b' a
            = available_balance b a + (if decide (a = requester) then bid - fee else 0))
    ∧ b'.(bk_total_burned) = b.(bk_total_burned) + fee
    ∧ job_status <$> r'.(jr_jobs) !! id = Some Cancelled
    ∧ (∀ q ctx2 b2, is_ok (cancel_job id q ctx2 (r', b2)).1 = false)
    ∧ (∀ p ctx2, is_ok (assign_job id p ctx2 r').1 = false).
Proof.
  intros Hj Hreq Hopen Hz Hbps Hmax Hwf Hheld Hfr bid fee.
  assert (fee <= bid) as Hfee.
  { unfold fee. apply (interpolate_le bid); [done|lia]. }
  destruct (abs_observers b requester) as (_ & Hobs & _).
  destruct (cancel_ledger requester bid fee (abs b)) as (l' & Hl & Hq & Ho & Hfree & Hburn);
    [done|by rewrite Hobs|done|].
  destruct (cancel_achieves requester bid fee b Hz Hwf l' Hl)
    as ([] & b' & Hrun & (Heqf & Heqh & _ & _ & Heqb)).
  assert (∃ r', cancel_job id requester ctx (r, b)
      = (Ok {| jcr_job_id := id; jcr_refunded := bid - fee; jcr_cancellation_fee := fee |}, (r', b'))
    ∧ r'.(jr_jobs) !! id = Some (set_status Cancelled job)) as (r' & Hcan & Hj').
  { unfold cancel_job, update_job, job_done, push_job_event, on_fst, on_snd.
    unfold mbind in Hrun. unfold M_bind in Hrun. mrun. rewrite Hj. cbn.
    rewrite bool_decide_true by done. cbn. rewrite Hopen. cbn. fold bid.
    rewrite u_mul_ok by done. cbn. rewrite u_div_ok by done. cbn. fold fee. rewrite Hrun. cbn.
    eexists. split; [reflexivity|]. cbn. by rewrite lookup_alter_eq, Hj. }
  exists r', b'. split_and!; try done.
  - destruct (abs_observers b' requester) as (_ & <- & _). by rewrite Heqh, Hq, Hobs.
  - intros a Ha. destruct (abs_observers b' a) as (_ & <- & _).
    destruct (abs_observers b a) as (_ & <- & _). by rewrite Heqh, Ho.
  - intros a. destruct (abs_observers b' a) as (<- & _).
    destruct (abs_observers b a) as (<- & _). by rewrite Heqf, Hfree.
  - exact (eq_trans Heqb Hburn).
  - by rewrite Hj'.
  - intros q ctx2 b2. unfold cancel_job. mrun. rewrite Hj'. cbn. by destruct (bool_decide (job_requester job = q)).
  - intros p ctx2. unfold assign_job. mrun. by rewrite Hj'.
Qed.

(** Cancelling an open job gives the escrow back: while the job is
    [Submitted] or [Assigned] and its bid is held, its requester's call returns
    [Ok], the refund and the cancellation fee add up to the bid, the held
    tokens fall by the bid, the refund is free again, the fee is burned, no
    other account changes, and the job is [Cancelled], so that cancelling or
    assigning it again is refused. *)
Lemma cancel_refunds r b id requester ctx job :
  r.(jr_jobs) !! id = Some job → job.(job_requester) = requester →
  can_cancel job.(job_status) = true → job.(job_bid_amount) ≠ 0 →
  r.(jr_config).(cancellation_fee_bps) <= 10000 →
  job.(job_bid_amount) * r.(jr_config).(cancellation_fee_bps) <= U128_MAX →
  bank_wf b → job.(job_bid_amount) <= get_locked_balance b requester →
  is_locked (account_or_default requester b) b.(bk_current_block) = false →
  let bid := job.(job_bid_amount) in
  let fee := bid * r.(jr_config).(cancellation_fee_bps) / 10000 in
  ∃ r' b', cancel_job id requester ctx (r, b)
      = (Ok {| jcr_job_id := id; jcr_refunded := bid - fee; jcr_cancellation_fee := fee |}, (r', b'))
    ∧ fee <= bid
    ∧ get_locked_balance b' requester = get_locked_balance b requester - bid
    ∧ (∀ a, a ≠ requester → get_locked_balance b' a = get_locked_balance b a)
    ∧ (∀ a, available_balance b' a
            = available_balance b a + (if decide (a = requester) then bid - fee else 0))
    ∧ b'.(bk_total_burned) = b.(bk_total_burned) + fee
    ∧ job_status <$> r'.(jr_jobs) !! id = Some Cancelled
    ∧ (∀ q ctx2 b2, is_ok (cancel_job id q ctx2 (r', b2)).1 = false)
    ∧ (∀ p ctx2, is_ok (assign_job id p ctx2 r').1 = false).
Proof. apply cancel_run. Qed.

(** ** Enterprise mode *)

(** Calls that leave the zkML policy alone. *)
Definition policy_step (r r' : JobRegistry) : Prop :=
  reg_step r r' ∧ r'.(jr_enterprise_zkml_config) = r.(jr_enterprise_zkml_config).

Definition needs_zk (m : VerificationMethod) : bool :=
  match m with ZkProofMethod | Hybrid => true | _ => false end.

Lemma bound_proof_needs_output r proof job :
  r.(jr_enterprise_zkml_config).(ent_enabled) = true →
  r.(jr_enterprise_zkml_config).(ent_require_domain_binding) = true →
  needs_zk proof.(pf_method) = true → proof_checked r proof job → is_Some job.(job_output_hash).
Proof.
  intros He Hd Hm Hc. unfold proof_checked in Hc. destruct (pf_method proof); try done.
  - destruct Hc as (zk & _ & Hz). by apply (zc_binding _ _ _ Hz).
  - destruct Hc as (att & zk & _ & _ & _ & Hz). by apply (zc_binding _ _ _ Hz).
Qed.

Lemma move_output r j f :
  job_move r j f → (f j).(job_verification_method) = j.(job_verification_method)
  ∧ ((f j).(job_output_hash) = j.(job_output_hash)
     ∨ ∃ proof, proof.(pf_method) = j.(job_verification_method) ∧ proof_checked r proof j).
Proof. intros [| | |params now f' _ Hch]; auto. destruct Hch; cbn; eauto 10. Qed.

Lemma enterprise_no_output config r :
  rtc policy_step (JobRegistry_new_enterprise config) r →
  r.(jr_enterprise_zkml_config) = default_zkml_config true
  ∧ ∀ id j, r.(jr_jobs) !! id = Some j → needs_zk j.(job_verification_method) = true →
      j.(job_output_hash) = None.
Proof.
  revert r. apply (rtc_ind_r (λ r, r.(jr_enterprise_zkml_config) = default_zkml_config true
    ∧ ∀ id j, r.(jr_jobs) !! id = Some j → needs_zk j.(job_verification_method) = true →
      j.(job_output_hash) = None)); [by split|].
  intros r r' _ [Hstep Hcf] [Hent IH]. split; [congruence|]. intros id j Hj Hm.
  destruct (reg_step_jobs r r' id Hstep) as [Heq|[(job & f & Hjob & Hmv & Hj')|
    (params & now & job & -> & _ & Hnew & Hj' & _)]].
  - rewrite Heq in Hj. eauto.
  - rewrite Hj in Hj'. injection Hj' as ->. destruct (move_output r job f Hmv) as [Hme Ho].
    rewrite Hme in Hm. specialize (IH id job Hjob Hm).
    destruct Ho as [->|(proof & Hpm & Hc)]; [done|].
    apply bound_proof_needs_output in Hc as [? ?]; [congruence|by rewrite Hent..|by rewrite Hpm].
  - rewrite Hj in Hj'. injection Hj' as ->. unfold JobState_new in Hnew.
    destruct (SlaPolicy_new _ _ _ _); [|done..]. by injection Hnew as <-.
Qed.

(** Under the default enterprise policy no zk or hybrid job is ever
    settled.  The domain-binding check compares a public input with the job's
    output hash, which is only recorded once a proof has been accepted: in every
    registry reachable from [new_enterprise] without changing the zkML policy,
    a job of such a method has no output hash and is neither [Verified] nor
    [Settled], and no proof for it is ever accepted. *)
Lemma enterprise_never_settles config r id j :
  rtc policy_step (JobRegistry_new_enterprise config) r →
  r.(jr_jobs) !! id = Some j → needs_zk j.(job_verification_method) = true →
  j.(job_status) ≠ Verified ∧ j.(job_status) ≠ Settled
  ∧ ∀ params ctx s, s.(ps_registry) = r → params.(sp_job_id) = id →
      is_ok (submit_proof params ctx s).1 = false.
Proof.
  intros Hreach Hj Hm. pose proof (enterprise_no_output config r Hreach) as [Hent Hno].
  specialize (Hno id j Hj Hm).
  assert (job_inv j) as Hinv.
  { apply (job_inv_reachable config true r id); [|done].
    eapply rtc_subrel; [|exact Hreach]. by intros ? ? []. }
  destruct Hinv as [Hs _ Ho _ _ _].
  assert (¬ is_Some (job_verified_at j)) as Hnv by (rewrite Ho, Hno; by intros []).
  split_and!; [intros Heq; rewrite Heq in Hs; tauto..|].
  intros params ctx s <- <-.
  destruct (submit_proof params ctx s) as [[res| | |] s'] eqn:Hrun; try done.
  apply submit_proof_ok in Hrun as (job & r1 & _ & _ & _ & _ & Hj' & _ & _ & Hpm & Hv & _).
  rewrite Hj in Hj'. injection Hj' as <-. apply verify_proof_ok in Hv.
  apply bound_proof_needs_output in Hv as [? ?]; [congruence|by rewrite Hent..|by rewrite Hpm].
Qed.
End settlement_claims.

(** * Concrete runs of the registry *)

#[local] Existing Instance dev_build.
#[local] Existing Instance dev_crypto.

Lemma dev_bank_wf : bank_wf dev_bank.
Proof. apply genesis_bank. vm_compute. discriminate. Qed.

Lemma dev_submit_step m s : reg_step s.1 (dev_submit m s).1.
Proof. destruct s as [r b]. apply rs_submit. by split_and!. Qed.

Lemma dev_assigned_reached m : nsteps reg_step 3 dev_registry (dev_assigned m).1.
Proof.
  unfold dev_assigned, dev_assign. cbn [fst].
  set (s1 := dev_submit m (dev_registry, dev_bank)). set (s2 := dev_submit m s1).
  apply (nsteps_l _ _ _ s1.1); [exact (dev_submit_step m (dev_registry, dev_bank))|].
  apply (nsteps_l _ _ _ s2.1); [exact (dev_submit_step m s1)|].
  apply nsteps_once, rs_assign.
Qed.

Lemma dev_submit_wf m s : bank_wf s.2 → bank_wf (dev_submit m s).2.
Proof. intros Hwf. by apply (submit_job_bank bank_step (dev_params m) (dev_ctx 0) s). Qed.

Lemma dev_assigned_wf m : bank_wf (dev_assigned m).2.
Proof. exact (dev_submit_wf m _ (dev_submit_wf m (dev_registry, dev_bank) dev_bank_wf)). Qed.

Lemma dev_job_found m : (dev_assigned m).1.(jr_jobs) !! dev_job_id 0 = Some (dev_job m).
Proof. destruct m; vm_compute; reflexivity. Qed.

Lemma dev_held : get_locked_balance (dev_assigned ReExecution).2 alice = 2 * one_token.
Proof. vm_compute. reflexivity. Qed.

Lemma dev_settle_ready :
  settle_ready (dev_proof_params ReExecution) (dev_ctx 50)
    (dev_state (dev_assigned ReExecution)) (dev_job ReExecution) (dev_assigned ReExecution).1.
Proof.
  split.
  - apply dev_job_found.
  - reflexivity.
  - vm_compute. discriminate.
  - vm_compute. discriminate.
  - reflexivity.
  - vm_compute. reflexivity.
  - assert (negb (bool_decide (bytes32 5 = bytes32 0)) = true) as Hb by (vm_compute; reflexivity).
    unfold verify_proof. cbn [pf_method dev_proof_params sp_proof dev_proof pf_output_hash].
    rewrite Hb. reflexivity.
  - apply dev_assigned_wf.
  - split; vm_compute; discriminate.
  - unfold dev_state. cbn [ps_bank job_requester dev_job job_bid_amount]. rewrite dev_held.
    vm_compute. discriminate.
  - vm_compute. reflexivity.
  - split; vm_compute; reflexivity.
  - split_and!; vm_compute; discriminate.
Qed.

Lemma job_lifecycle_witness : job_inv (dev_job Hybrid).
Proof.
  apply (job_lifecycle JobConfig_devnet false (dev_assigned Hybrid).1 (dev_job_id 0)).
  - exact (rtc_nsteps_2 _ _ _ (dev_assigned_reached Hybrid)).
  - apply dev_job_found.
Defined.

Lemma job_persistence_witness :
  (∃ j', (assign_job (dev_job_id 1) prover (dev_ctx 2) (dev_assigned Hybrid).1).2.(jr_jobs)
           !! dev_job_id 0 = Some j' ∧ job_evolves (dev_job Hybrid) j')
  ∨ (∃ x y, x ≠ y ∧ sha256 x = sha256 y).
Proof.
  apply (job_persistence JobConfig_devnet 3 (dev_assigned Hybrid).1).
  - apply dev_assigned_reached.
  - vm_compute. discriminate.
  - apply rs_assign.
  - apply dev_job_found.
Defined.

Lemma settlement_pays_witness :
  ∃ vr s', submit_proof (dev_proof_params ReExecution) (dev_ctx 50)
      (dev_state (dev_assigned ReExecution))
    = (Ok {| psr_job_id := dev_job_id 0; psr_verified := true;
             psr_prover_reward := 700000000000000000; psr_validator_reward := vr;
             psr_burned := 50000000000000000 |}, s').
Proof.
  destruct (settlement_pays _ _ _ _ _ dev_settle_ready) as (vr & s' & Hrun & _).
  exists vr, s'. rewrite Hrun. do 2 f_equal.
Defined.

Lemma settled_job_settles_again_witness :
  ∃ res s1 s2, submit_proof (dev_proof_params ReExecution) (dev_ctx 50)
      (dev_state (dev_assigned ReExecution)) = (Ok res, s1)
    ∧ submit_proof (dev_proof_params ReExecution) (dev_ctx 50) s1 = (Ok res, s2).
Proof.
  destruct (settled_job_settles_again _ _ _ _ _ dev_settle_ready)
    as (res & s1 & s2 & Hrun & _ & Hrun2 & _).
  - reflexivity.
  - unfold dev_state. cbn [ps_bank job_requester dev_job job_bid_amount]. rewrite dev_held.
    vm_compute. discriminate.
  - exists res, s1, s2. split; [exact Hrun|exact Hrun2].
Defined.

(** At a burn rate of zero the settlement of the same proof fails in its last
    payment: the bid is no longer held, prover and proposer are paid, and the job
    stays [Verified]. *)
Lemma zero_share_not_settled :
  let s := dev_state (dev_assigned ReExecution) in
  let s0 := {| ps_registry := s.(ps_registry); ps_staking := sm_with_utilization 0 0 s.(ps_staking);
               ps_lock := s.(ps_lock); ps_bank := s.(ps_bank) |} in
  let run := submit_proof (dev_proof_params ReExecution) (dev_ctx 50) s0 in
  is_ok run.1 = false
  ∧ job_status <$> run.2.(ps_registry).(jr_jobs) !! dev_job_id 0 = Some Verified
  ∧ get_locked_balance run.2.(ps_bank) alice = one_token.
Proof. split_and!; vm_compute; reflexivity. Qed.

(** A hybrid proof, verified and settled. *)
Definition hybrid_run : outcome SystemContractError ProofSubmitResult * ProofState :=
  submit_proof (dev_proof_params Hybrid) (dev_ctx 50) (dev_state (dev_assigned Hybrid)).

Lemma hybrid_run_ok : is_ok hybrid_run.1 = true.
Proof. vm_compute. reflexivity. Qed.

Lemma hybrid_run_eq : ∃ res, hybrid_run = (Ok res, hybrid_run.2).
Proof.
  pose proof hybrid_run_ok as Hok. destruct hybrid_run as [[res| | |] s'];
    [by exists res|discriminate Hok..].
Qed.

Lemma settled_proof_checked_witness :
  ∃ job, (dev_assigned Hybrid).1.(jr_jobs) !! dev_job_id 0 = Some job
    ∧ proof_checked (dev_assigned Hybrid).1 (dev_proof Hybrid) job.
Proof.
  destruct hybrid_run_eq as [res Hrun].
  destruct (settled_proof_checked _ _ _ _ _ Hrun) as (job & Hj & _ & _ & _ & Hc).
  exists job. split; [exact Hj|exact Hc].
Defined.

Lemma attestation_used_once_witness :
  is_ok (submit_proof {| sp_job_id := dev_job_id 1; sp_prover := prover;
                         sp_proof := dev_proof Hybrid; sp_result := [] |} (dev_ctx 60)
           {| ps_registry := (assign_job (dev_job_id 1) prover (dev_ctx 51)
                                hybrid_run.2.(ps_registry)).2;
              ps_staking := hybrid_run.2.(ps_staking); ps_lock := hybrid_run.2.(ps_lock);
              ps_bank := hybrid_run.2.(ps_bank) |}).1 = false.
Proof.
  destruct hybrid_run_eq as [res Hrun].
  apply (attestation_used_once (replicate 64 7) (dev_proof_params Hybrid) (dev_ctx 50)
    (dev_state (dev_assigned Hybrid)) res hybrid_run.2
    (assign_job (dev_job_id 1) prover (dev_ctx 51) hybrid_run.2.(ps_registry)).2).
  - exact Hrun.
  - split; [right; reflexivity|reflexivity].
  - apply rtc_once, rs_assign.
  - reflexivity.
  - split; [right; reflexivity|reflexivity].
Defined.

Lemma cancel_refunds_witness :
  ∃ r' b', cancel_job (dev_job_id 0) alice (dev_ctx 5) (dev_assigned ReExecution)
      = (Ok {| jcr_job_id := dev_job_id 0; jcr_refunded := one_token;
               jcr_cancellation_fee := 0 |}, (r', b')).
Proof.
  destruct (cancel_refunds (dev_assigned ReExecution).1 (dev_assigned ReExecution).2
    (dev_job_id 0) alice (dev_ctx 5) (dev_job ReExecution)) as (r' & b' & Hrun & _).
  - apply dev_job_found.
  - reflexivity.
  - reflexivity.
  - discriminate.
  - vm_compute. discriminate.
  - vm_compute. discriminate.
  - apply dev_assigned_wf.
  - rewrite dev_held. vm_compute. discriminate.
  - vm_compute. reflexivity.
  - exists r', b'. rewrite <- surjective_pairing in Hrun. exact Hrun.
Defined.

Lemma enterprise_never_settles_witness :
  is_ok (submit_proof (dev_proof_params Hybrid) (dev_ctx 50)
    (dev_state (dev_submit Hybrid (JobRegistry_new_enterprise JobConfig_devnet, dev_bank)))).1
  = false.
Proof.
  set (s := dev_submit Hybrid (JobRegistry_new_enterprise JobConfig_devnet, dev_bank)).
  assert (∃ j, s.1.(jr_jobs) !! dev_job_id 0 = Some j ∧ job_verification_method j = Hybrid)
    as (j & Hj & Hm) by (eexists; split; vm_compute; reflexivity).
  apply (enterprise_never_settles JobConfig_devnet s.1 (dev_job_id 0) j).
  - apply rtc_once. split; [|vm_compute; reflexivity].
    exact (dev_submit_step Hybrid (JobRegistry_new_enterprise JobConfig_devnet, dev_bank)).
  - exact Hj.
  - rewrite Hm. reflexivity.
  - reflexivity.
  - reflexivity.
Defined.
