(* ===== verification/JobDeadline.v ===== *)
(** * Deadlines and expiry

    The SLA timeout computed in floating point is the exact multiple of the
    base timeout; end-of-block expiry closes exactly the jobs that are due; and
    which jobs it loses. *)
From S2P Require Import Prelude SysTypes F64 Precompile Bank Staking JobRegistry Samples JobSpec.
From stdpp Require Import base gmap list strings sorting.
From Stdlib Require Import ZArith Lia SpecFloat.
#[local] Open Scope N_scope.

(** ** The SLA deadline *)

(** The timeout before the priority multiplier. *)
Definition base_timeout (c : JobConfig) (custom : N) : N :=
  if bool_decide (0 < custom) then N.max c.(min_sla_timeout) (N.min custom c.(max_sla_timeout))
  else c.(default_sla_timeout).

Definition scaled (p : JobPriority) (t : N) : N :=
  match p with
  | Low => 2 * t
  | Normal => t
  | High => t / 2
  | Urgent => t / 4
  end.

Lemma shiftr_to_N (t : N) (k : N) : Z.to_N (Z.shiftl (Z.of_N t) (- Z.of_N k)) = t / 2 ^ k.
Proof.
  rewrite Z.shiftl_opp_r, Z.shiftr_div_pow2 by lia.
  rewrite <- (N2Z.id (t / 2 ^ k)), N2Z.inj_div, N2Z.inj_pow. done.
Qed.

Lemma adjusted_timeout_exact p t :
  t < 2 ^ 53 → f64_as U64_MAX (f64_mul (f64_of_N t) (sla_multiplier p)) = scaled p t.
Proof.
  intros Ht.
  assert (t <= 9007199254740991) as Hb by (change (2 ^ 53) with 9007199254740992 in Ht; lia).
  destruct p; cbn [sla_multiplier scaled].
  - change (f64_pow2 1) with (S754_finite false 4503599627370496 (1 - 52)).
    rewrite (scale_exact U64_MAX t 1) by (done || lia).
    rewrite Z.shiftl_mul_pow2 by lia. lia.
  - change (f64_pow2 0) with (S754_finite false 4503599627370496 (0 - 52)).
    rewrite (scale_exact U64_MAX t 0) by (done || lia). rewrite Z.shiftl_0_r. lia.
  - change (f64_pow2 (-1)) with (S754_finite false 4503599627370496 ((-1) - 52)).
    rewrite (scale_exact U64_MAX t (-1)) by (done || lia).
    change (-1)%Z with (- Z.of_N 1)%Z. rewrite (shiftr_to_N t 1). change (2 ^ 1) with 2. div_elim. lia.
  - change (f64_pow2 (-2)) with (S754_finite false 4503599627370496 ((-2) - 52)).
    rewrite (scale_exact U64_MAX t (-2)) by (done || lia).
    change (-2)%Z with (- Z.of_N 2)%Z. rewrite (shiftr_to_N t 2). change (2 ^ 2) with 4. div_elim. lia.
Qed.

(** A job's deadline is exact although it is computed in floating point:
    for a validated configuration whose timeouts are below [2^53] seconds, the
    deadline is the submission time plus exactly twice, once, half or a quarter
    (rounded down) of the requested timeout clamped to the configured interval,
    the grace period ends the configured time later, and nothing overflows as
    long as the sum fits 64 bits. *)
Lemma sla_deadline_exact `{Build} c p submitted custom :
  JobConfig_validate c = Ok tt → base_timeout c custom < 2 ^ 53 →
  submitted + scaled p (base_timeout c custom) + c.(late_grace_period) <= U64_MAX →
  SlaPolicy_new c p submitted custom = Ok {|
    sla_deadline := submitted + scaled p (base_timeout c custom);
    sla_grace_end := submitted + scaled p (base_timeout c custom) + c.(late_grace_period);
    sla_late_penalty_bps := c.(jc_late_penalty_bps) |}.
Proof.
  intros Hv Hb Hmax.
  assert (min_sla_timeout c < max_sla_timeout c) as Hlt.
  { unfold JobConfig_validate in Hv. case_bool_decide; [done|lia]. }
  unfold SlaPolicy_new.
  assert ((if bool_decide (0 < custom)
           then clamp custom (min_sla_timeout c) (max_sla_timeout c)
           else Ok (default_sla_timeout c))
          = Ok (E:=SystemContractError) (base_timeout c custom)) as ->.
  { unfold base_timeout, clamp. case_bool_decide; [|done]. by rewrite bool_decide_false by lia. }
  cbn. rewrite adjusted_timeout_exact by done.
  rewrite u_add_ok by lia. cbn. by rewrite u_add_ok by lia.
Qed.

Lemma sla_deadline_exact_witness :
  SlaPolicy_new (H:=dev_build) JobConfig_mainnet Urgent 1000 86399
  = Ok {| sla_deadline := 22599; sla_grace_end := 22659; sla_late_penalty_bps := 1000 |}.
Proof.
  apply (sla_deadline_exact (H:=dev_build) JobConfig_mainnet Urgent 1000 86399).
  - reflexivity.
  - vm_compute. reflexivity.
  - vm_compute. discriminate.
Defined.

(** ** Expiry *)
Definition expire_due (now : N) (j : JobState) : JobState :=
  if JobStatus_is_active j.(job_status) && is_expired j.(job_sla) now
  then set_status Expired j else j.

Lemma expire_due_twice now j : expire_due now (expire_due now j) = expire_due now j.
Proof.
  unfold expire_due at 2 3.
  destruct (JobStatus_is_active (job_status j) && is_expired (job_sla j) now) eqn:Hd; [done|].
  unfold expire_due. by rewrite Hd.
Qed.

(** Every job is either as it was or expired if due. *)
Lemma expires_due now r r' id :
  expires now r r' →
  r'.(jr_jobs) !! id = r.(jr_jobs) !! id
  ∨ r'.(jr_jobs) !! id = expire_due now <$> r.(jr_jobs) !! id.
Proof.
  intros [Hx _]. destruct (Hx id) as [?|(j & -> & Ha & He & ->)]; [by left|right].
  cbn. unfold expire_due. by rewrite Ha, He.
Qed.

(** Once an entry is expired-if-due, further expiry at the same time keeps it. *)
Lemma expires_settled now r0 r r' id :
  r.(jr_jobs) !! id = expire_due now <$> r0.(jr_jobs) !! id → expires now r r' →
  r'.(jr_jobs) !! id = expire_due now <$> r0.(jr_jobs) !! id.
Proof.
  intros Hr Hx. destruct (expires_due now r r' id Hx) as [->| ->]; [done|].
  rewrite Hr, <- option_fmap_compose. apply option_fmap_ext. intros j. apply expire_due_twice.
Qed.

Lemma expire_job_self now r evs id :
  (expire_job now (r, evs) id).1.(jr_jobs) !! id = expire_due now <$> r.(jr_jobs) !! id.
Proof.
  unfold expire_job, expire_due. destruct (jr_jobs r !! id) as [j|] eqn:Hj; cbn; [|done].
  destruct (_ && _); cbn; [by rewrite lookup_insert_eq|done].
Qed.

(** Walking a list handles each of its members. *)
Lemma foldl_settles {A} now (f : JobRegistry * list JobEvent → A → JobRegistry * list JobEvent)
    (P : JobRegistry → A → Prop) id l x acc :
  (∀ r evs y, expires now r (f (r, evs) y).1) →
  (∀ r evs y, y ≠ x → P r x → P (f (r, evs) y).1 x) →
  (∀ r evs, P r x → (f (r, evs) x).1.(jr_jobs) !! id = expire_due now <$> r.(jr_jobs) !! id) →
  x ∈ l → P acc.1 x → EqDecision A →
  (foldl f acc l).1.(jr_jobs) !! id = expire_due now <$> acc.1.(jr_jobs) !! id.
Proof.
  intros Hf Hkeep Hx Hin HP Hdec. revert acc HP.
  induction l as [|y l IH]; [by apply not_elem_of_nil in Hin|].
  intros [r evs] HP. cbn. destruct (decide (y = x)) as [->|Hne].
  - apply (expires_settled now r (f (r, evs) x).1); [by apply Hx|].
    by apply (foldl_expires now f l (f (r, evs) x)).
  - apply elem_of_cons in Hin as [?|Hin]; [done|].
    rewrite IH; [|done|by apply Hkeep].
    destruct (expires_due now r _ id (Hf r evs y)) as [->| ->]; [done|].
    cbn. rewrite <- option_fmap_compose. apply option_fmap_ext. intros j. apply expire_due_twice.
Qed.

Lemma expire_job_buckets now acc id :
  (expire_job now acc id).1.(jr_jobs_by_deadline) = acc.1.(jr_jobs_by_deadline).
Proof.
  destruct acc as [r evs]. unfold expire_job. destruct (_ !! _); [|done]. by destruct (_ && _).
Qed.

Lemma foldl_buckets now ids acc :
  (foldl (expire_job now) acc ids).1.(jr_jobs_by_deadline) = acc.1.(jr_jobs_by_deadline).
Proof.
  revert acc. induction ids as [|id ids IH]; intros acc; cbn; [done|].
  by rewrite IH, expire_job_buckets.
Qed.

(** Processing a bucket removes it and keeps the others. *)
Lemma expire_bucket_buckets now r evs d :
  (expire_bucket now (r, evs) d).1.(jr_jobs_by_deadline) = delete d r.(jr_jobs_by_deadline).
Proof.
  unfold expire_bucket. destruct (_ !! d) as [ids|] eqn:Hd.
  - by rewrite foldl_buckets.
  - cbn. by rewrite delete_id.
Qed.

Lemma deadlines_until_elem t r d :
  d ∈ deadlines_until t r ↔ d <= t ∧ is_Some (r.(jr_jobs_by_deadline) !! d).
Proof.
  unfold deadlines_until. rewrite merge_sort_Permutation, list_elem_of_filter, list_elem_of_fmap.
  split.
  - intros [? ([d' ids] & -> & Hin)]. apply elem_of_map_to_list in Hin. eauto.
  - intros [? [ids Hd]]. split; [done|]. exists (d, ids). by rewrite elem_of_map_to_list.
Qed.

(** The job is filed under its deadline. *)
Definition filed (r : JobRegistry) (id : JobId) (d : N) : Prop :=
  ∃ ids, r.(jr_jobs_by_deadline) !! d = Some ids ∧ id ∈ ids.

Lemma expire_bucket_self now r evs d id :
  filed r id d →
  (expire_bucket now (r, evs) d).1.(jr_jobs) !! id = expire_due now <$> r.(jr_jobs) !! id.
Proof.
  intros (ids & Hd & Hin). unfold expire_bucket. rewrite Hd.
  rewrite (foldl_settles now (expire_job now) (λ _ _, True) id ids id); [done|..]; auto.
  - apply expire_job_expires.
  - intros. apply expire_job_self.
  - apply _.
Qed.

Lemma process_expired_fst now r :
  (process_expired_jobs now r).2
  = (foldl (expire_bucket now) (r, []) (deadlines_until now r)).1.
Proof. unfold process_expired_jobs. mrun. by destruct (foldl _ _ _). Qed.

(** End-of-block expiry closes exactly the jobs that are due: in a
    registry where a job is filed under its own deadline, processing at [now]
    leaves the job [Expired] if it is still active and its grace period is
    over, and untouched otherwise. *)
Lemma expiry_exact now r id j :
  r.(jr_jobs) !! id = Some j → filed r id j.(job_sla).(sla_deadline) →
  j.(job_sla).(sla_deadline) <= j.(job_sla).(sla_grace_end) →
  (process_expired_jobs now r).2.(jr_jobs) !! id = Some (expire_due now j).
Proof.
  intros Hj Hfiled Hgr. destruct (decide (sla_deadline (job_sla j) <= now)) as [Hle|Hgt].
  - rewrite process_expired_fst.
    rewrite (foldl_settles now (expire_bucket now) (λ r d, filed r id d) id _
      (sla_deadline (job_sla j)) (r, [])); [by cbn; rewrite Hj|..].
    + intros. apply expire_bucket_expires.
    + intros r1 evs d Hne (ids & Hd & Hin). exists ids.
      by rewrite expire_bucket_buckets, lookup_delete_ne.
    + intros. by apply expire_bucket_self.
    + apply deadlines_until_elem. split; [done|]. destruct Hfiled as (ids & -> & _). eauto.
    + done.
    + apply _.
  - destruct (process_expired_effect now r) as [Hx _].
    assert (is_expired (job_sla j) now = false) as Hne
      by (unfold is_expired; rewrite bool_decide_false by lia; done).
    destruct (Hx id) as [->|(j' & Hj' & _ & He & _)].
    + rewrite Hj. unfold expire_due. by rewrite Hne, andb_false_r.
    + rewrite Hj in Hj'. injection Hj' as <-. congruence.
Qed.

Lemma expiry_exact_witness :
  job_status <$> (process_expired_jobs 111 (dev_assigned Hybrid).1).2.(jr_jobs) !! dev_job_id 0
  = Some Expired.
Proof.
  rewrite (expiry_exact 111 (dev_assigned Hybrid).1 (dev_job_id 0) (dev_job Hybrid)).
  - vm_compute. reflexivity.
  - vm_compute. reflexivity.
  - exists [dev_job_id 0; dev_job_id 1]. split; [vm_compute; reflexivity|].
    apply elem_of_cons. left. reflexivity.
  - vm_compute. discriminate.
Defined.

(** ** Jobs that expiry loses *)
Definition unfiled (id : JobId) (r : JobRegistry) : Prop := ∀ d, ¬ filed r id d.

Lemma foldl_expire_untouched now ids acc id :
  id ∉ ids → (foldl (expire_job now) acc ids).1.(jr_jobs) !! id = acc.1.(jr_jobs) !! id.
Proof.
  revert acc. induction ids as [|x ids IH]; intros [r evs] Hin; cbn; [done|].
  apply not_elem_of_cons in Hin as [Hne Hin]. rewrite IH by done.
  unfold expire_job. destruct (jr_jobs r !! x) as [j|]; cbn; [|done].
  destruct (_ && _); cbn; [by rewrite lookup_insert_ne|done].
Qed.

Lemma unfiled_bucket now r evs d id :
  unfiled id r →
  unfiled id (expire_bucket now (r, evs) d).1
  ∧ (expire_bucket now (r, evs) d).1.(jr_jobs) !! id = r.(jr_jobs) !! id.
Proof.
  intros Hun. split.
  - intros d' (ids & Hd & Hin). rewrite expire_bucket_buckets in Hd.
    apply lookup_delete_Some in Hd as [_ Hd]. apply (Hun d'). by exists ids.
  - unfold expire_bucket. destruct (_ !! d) as [ids|] eqn:Hd; [|done].
    rewrite foldl_expire_untouched; [done|]. intros Hin. apply (Hun d). by exists ids.
Qed.

Lemma unfiled_foldl now ds acc id :
  unfiled id acc.1 →
  unfiled id (foldl (expire_bucket now) acc ds).1
  ∧ (foldl (expire_bucket now) acc ds).1.(jr_jobs) !! id = acc.1.(jr_jobs) !! id.
Proof.
  revert acc. induction ds as [|d ds IH]; intros [r evs] Hun; cbn; [done|].
  destruct (unfiled_bucket now r evs d id Hun) as [Hun' <-]. by apply IH.
Qed.

Lemma unfiled_process now r id :
  unfiled id r →
  unfiled id (process_expired_jobs now r).2
  ∧ (process_expired_jobs now r).2.(jr_jobs) !! id = r.(jr_jobs) !! id.
Proof. rewrite process_expired_fst. exact (unfiled_foldl now (deadlines_until now r) (r, []) id). Qed.

(** Processing removes every bucket up to the current time. *)
Lemma foldl_buckets_removed now ds acc d :
  (foldl (expire_bucket now) acc ds).1.(jr_jobs_by_deadline) !! d
  = if decide (d ∈ ds) then None else acc.1.(jr_jobs_by_deadline) !! d.
Proof.
  revert acc. induction ds as [|x ds IH]; intros [r evs]; cbn [foldl].
  - by rewrite decide_False by apply not_elem_of_nil.
  - rewrite IH, expire_bucket_buckets. destruct (decide (d ∈ ds)) as [Hin|Hin].
    + by rewrite decide_True by (apply elem_of_cons; auto).
    + destruct (decide (x = d)) as [->|Hne].
      * rewrite lookup_delete_eq. by rewrite decide_True by (apply elem_of_cons; auto).
      * rewrite lookup_delete_ne by done. rewrite decide_False; [done|].
        intros [?|?]%elem_of_cons; congruence.
Qed.

(** A job whose deadline passes is lost to expiry if a block ends inside
    its grace period.  Processing at a time between the deadline and the end of
    the grace period removes the job's bucket without expiring the job, so that
    no later processing, at whatever times, ever expires it: it stays as it was,
    its bid still held. *)
Lemma grace_window_never_expires r id j t times :
  r.(jr_jobs) !! id = Some j →
  (∀ d, filed r id d → d = j.(job_sla).(sla_deadline)) →
  j.(job_sla).(sla_deadline) <= t → t <= j.(job_sla).(sla_grace_end) →
  (fold_left (λ r now, (process_expired_jobs now r).2) times (process_expired_jobs t r).2)
    .(jr_jobs) !! id = Some j.
Proof.
  intros Hj Hfiled Hd Hg.
  assert ((process_expired_jobs t r).2.(jr_jobs) !! id = Some j) as Hj1.
  { destruct (process_expired_effect t r) as [Hx _].
    destruct (Hx id) as [->|(j' & Hj' & _ & He & _)]; [done|].
    rewrite Hj in Hj'. injection Hj' as <-. unfold is_expired in He. bool_facts. lia. }
  assert (unfiled id (process_expired_jobs t r).2) as Hun.
  { intros d (ids & Hids & Hin). rewrite process_expired_fst, foldl_buckets_removed in Hids.
    case_decide as Hdu; [done|]. cbn in Hids.
    pose proof (Hfiled d (ex_intro _ ids (conj Hids Hin))) as ->.
    apply Hdu, deadlines_until_elem. eauto. }
  revert Hj1 Hun. generalize (process_expired_jobs t r).2.
  induction times as [|now times IH]; intros r1 Hj1 Hun; [done|]. cbn [fold_left].
  destruct (unfiled_process now r1 id Hun) as [Hun' Heq]. apply IH; [by rewrite Heq|done].
Qed.

Lemma grace_window_never_expires_witness :
  job_status <$> (fold_left (λ r now, (process_expired_jobs now r).2) [111; 10000; 1000000]
    (process_expired_jobs 105 (dev_assigned Hybrid).1).2).(jr_jobs) !! dev_job_id 0
  = Some Assigned.
Proof.
  rewrite (grace_window_never_expires (dev_assigned Hybrid).1 (dev_job_id 0) (dev_job Hybrid)).
  - reflexivity.
  - vm_compute. reflexivity.
  - intros d (ids & Hd & _).
    assert ((dev_assigned Hybrid).1.(jr_jobs_by_deadline)
      = {[ 100 := [dev_job_id 0; dev_job_id 1] ]}) as Heq by (vm_compute; reflexivity).
    rewrite Heq in Hd. apply lookup_singleton_Some in Hd as [<- _]. reflexivity.
  - vm_compute. discriminate.
  - vm_compute. discriminate.
Defined.
