(* ===== verification/Compliance.v ===== *)
(** * The compliance module

    [crates/vm/src/system_contracts/compliance.rs]: certifications, the
    sanctions list behind a Bloom filter, consents, business associate
    agreements, jurisdictions, and [enforce], the check the kernel runs before a
    job submission.

    The audit log's timestamps come from the machine's clock: the reading for
    the n-th entry is a parameter ([Clock]). *)
From S2P Require Import Prelude SysTypes F64 Precompile.
From stdpp Require Import base gmap list strings pretty sets.
From Stdlib Require Import ZArith Lia Ascii.
#[local] Open Scope N_scope.

(** ** Constants and standards *)
Definition MAX_CERTIFICATIONS_PER_ENTITY : nat := 32.
Definition SANCTIONS_BLOOM_SIZE : N := 1048576.
Definition SANCTIONS_BLOOM_HASHES : nat := 7.
Definition CERTIFICATION_GRACE_PERIOD : N := 30 * 24 * 60 * 60.

Inductive ComplianceStandard :=
| GdprEu | HipaaUs | OfacSanctions | CcpaCa | PdpaSg | UaeDpl | BaselIii | Aml.

#[export] Instance ComplianceStandard_eq_dec : EqDecision ComplianceStandard.
Proof. solve_decision. Defined.

Definition standard_name (s : ComplianceStandard) : string :=
  match s with
  | GdprEu => "GDPR (EU)"
  | HipaaUs => "HIPAA (US)"
  | OfacSanctions => "OFAC Sanctions"
  | CcpaCa => "CCPA (California)"
  | PdpaSg => "PDPA (Singapore)"
  | UaeDpl => "UAE Data Protection"
  | BaselIii => "Basel III"
  | Aml => "AML"
  end.

Definition standard_jurisdiction (s : ComplianceStandard) : string :=
  match s with
  | GdprEu => "EU"
  | HipaaUs => "US"
  | OfacSanctions => "US"
  | CcpaCa => "US-CA"
  | PdpaSg => "SG"
  | UaeDpl => "AE"
  | BaselIii => "INTL"
  | Aml => "INTL"
  end.

Definition requires_certification (s : ComplianceStandard) : bool :=
  match s with
  | GdprEu | HipaaUs | CcpaCa | PdpaSg | UaeDpl => true
  | _ => false
  end.

Definition involves_sanctions (s : ComplianceStandard) : bool :=
  match s with
  | OfacSanctions | Aml => true
  | _ => false
  end.

Definition min_certification_level (s : ComplianceStandard) : N :=
  match s with
  | HipaaUs => 4
  | OfacSanctions => 3
  | BaselIii => 4
  | Aml => 3
  | _ => 2
  end.

(** [standard as u8] *)
Definition standard_as_u8 (s : ComplianceStandard) : N :=
  match s with
  | GdprEu => 1 | HipaaUs => 2 | OfacSanctions => 3 | CcpaCa => 4
  | PdpaSg => 5 | UaeDpl => 6 | BaselIii => 7 | Aml => 8
  end.

Definition standard_from_u8 (v : N) : option ComplianceStandard :=
  match v with
  | 1 => Some GdprEu
  | 2 => Some HipaaUs
  | 3 => Some OfacSanctions
  | 4 => Some CcpaCa
  | 5 => Some PdpaSg
  | 6 => Some UaeDpl
  | 7 => Some BaselIii
  | 8 => Some Aml
  | _ => None
  end.

Definition from_requirement (r : ComplianceRequirement) : ComplianceStandard :=
  match r with
  | ReqGdprEu => GdprEu
  | ReqHipaaUs => HipaaUs
  | ReqOfacSanctions => OfacSanctions
  | ReqCcpaCa => CcpaCa
  | ReqPdpaSg => PdpaSg
  | ReqUaeDpl => UaeDpl
  | ReqBaselIii => BaselIii
  | ReqAml => Aml
  end.

(** ** Violations and results *)
Inductive ViolationType :=
| VMissingCertification (standard : ComplianceStandard) (entity : Address)
| VExpiredCertification (standard : ComplianceStandard) (entity : Address) (expired_at : N)
| VSanctionedAddress (address : Address) (list_name : string)
| VJurisdictionBlocked (jurisdiction reason : string)
| VDataResidencyViolation (required_region actual_region : string)
| VMissingConsent (data_subject : Address) (purpose : string)
| VMissingBaa (covered_entity business_associate : Address)
| VAmlThresholdExceeded (amount threshold : TokenAmount)
| VKycRequired (entity : Address) (level_required : N).

Definition violation_error_code (v : ViolationType) : N :=
  match v with
  | VMissingCertification _ _ => 5001
  | VExpiredCertification _ _ _ => 5002
  | VSanctionedAddress _ _ => 5003
  | VJurisdictionBlocked _ _ => 5004
  | VDataResidencyViolation _ _ => 5005
  | VMissingConsent _ _ => 5006
  | VMissingBaa _ _ => 5007
  | VAmlThresholdExceeded _ _ => 5008
  | VKycRequired _ _ => 5009
  end.

Definition is_fatal (v : ViolationType) : bool :=
  match v with
  | VSanctionedAddress _ _ | VJurisdictionBlocked _ _ | VMissingCertification HipaaUs _ => true
  | _ => false
  end.

(** The weight of one violation. *)
Definition violation_score (v : ViolationType) : N :=
  match v with
  | VSanctionedAddress _ _ => 100
  | VJurisdictionBlocked _ _ => 80
  | VMissingCertification HipaaUs _ => 90
  | VMissingCertification _ _ => 50
  | VExpiredCertification _ _ _ => 30
  | VAmlThresholdExceeded _ _ => 70
  | VKycRequired _ _ => 40
  | _ => 20
  end.

Definition calculate_risk_score `{Build} (violations : list ViolationType) : Result N :=
  score ← foldl (λ acc v, s ← acc; u_add U32_MAX s (violation_score v)) (Ok 0) violations;
  Ok (N.min score 100).

Record ComplianceCheckResult := {
  ccr_passed : bool;
  ccr_violations : list ViolationType;
  ccr_standards_checked : list ComplianceStandard;
  ccr_checked_at : N;
  ccr_check_id : Hash;
  ccr_risk_score : N;
  ccr_warnings : list string;
}.

Definition ccr_pass (standards : list ComplianceStandard) (check_id : Hash) (timestamp : N)
  : ComplianceCheckResult := {|
  ccr_passed := true;
  ccr_violations := [];
  ccr_standards_checked := standards;
  ccr_checked_at := timestamp;
  ccr_check_id := check_id;
  ccr_risk_score := 0;
  ccr_warnings := [];
|}.

Definition ccr_fail `{Build} (violations : list ViolationType)
    (standards : list ComplianceStandard) (check_id : Hash) (timestamp : N)
  : Result ComplianceCheckResult :=
  risk_score ← calculate_risk_score violations;
  Ok {|
    ccr_passed := false;
    ccr_violations := violations;
    ccr_standards_checked := standards;
    ccr_checked_at := timestamp;
    ccr_check_id := check_id;
    ccr_risk_score := risk_score;
    ccr_warnings := [];
  |}.

(** [add_warning] for each warning, and the final [passed]. *)
Definition ccr_finish (passed : bool) (warnings : list string) (r : ComplianceCheckResult)
  : ComplianceCheckResult := {|
  ccr_passed := passed;
  ccr_violations := r.(ccr_violations);
  ccr_standards_checked := r.(ccr_standards_checked);
  ccr_checked_at := r.(ccr_checked_at);
  ccr_check_id := r.(ccr_check_id);
  ccr_risk_score := r.(ccr_risk_score);
  ccr_warnings := r.(ccr_warnings) ++ warnings;
|}.

Definition has_fatal_violations (r : ComplianceCheckResult) : bool :=
  existsb is_fatal r.(ccr_violations).

(** ** Identifiers *)
Record Did := {
  did_method : string;
  did_identifier : string;
}.

#[export] Instance Did_eq_dec : EqDecision Did.
Proof. solve_decision. Defined.

Definition Did_from_address (address : Address) : Did :=
  {| did_method := "aethelred"; did_identifier := hex_encode address |}.

Definition Did_to_string (d : Did) : string :=
  "did:" +:+ d.(did_method) +:+ ":" +:+ d.(did_identifier).

(** [s.split(':')] *)
Fixpoint split_colon (s : string) : list string :=
  match s with
  | EmptyString => [EmptyString]
  | String c s =>
      if decide (c = ":"%char) then EmptyString :: split_colon s
      else match split_colon s with
           | [] => [String c EmptyString]
           | p :: ps => String c p :: ps
           end
  end.

Definition Did_from_string (s : string) : option Did :=
  match split_colon s with
  | scheme :: method :: rest =>
      if bool_decide (rest = []) then None
      else if bool_decide (scheme = "did") then
        Some {| did_method := method; did_identifier := String.concat ":" rest |}
      else None
  | _ => None
  end.

(** ** Certifications *)
Record Certification := {
  cert_standard : ComplianceStandard;
  cert_entity_did : Did;
  cert_entity_address : Address;
  cert_issuer : Did;
  cert_level : N;
  cert_issued_at : N;
  cert_expires_at : N;
  cert_document_hash : Hash;
  cert_metadata : gmap string string;
  cert_revoked : bool;
  cert_revocation_reason : option string;
}.

Definition cert_is_valid (c : Certification) (current_time : N) : bool :=
  negb c.(cert_revoked) && bool_decide (current_time < c.(cert_expires_at)).

Definition cert_revoke (reason : string) (c : Certification) : Certification := {|
  cert_standard := c.(cert_standard); cert_entity_did := c.(cert_entity_did);
  cert_entity_address := c.(cert_entity_address); cert_issuer := c.(cert_issuer);
  cert_level := c.(cert_level); cert_issued_at := c.(cert_issued_at);
  cert_expires_at := c.(cert_expires_at); cert_document_hash := c.(cert_document_hash);
  cert_metadata := c.(cert_metadata); cert_revoked := true;
  cert_revocation_reason := Some reason |}.

Section certs.
Context `{Build}.

(** [&&] does not evaluate the sum unless the certification has expired. *)
Definition in_grace_period (c : Certification) (current_time : N) : Result bool :=
  if negb c.(cert_revoked) && bool_decide (c.(cert_expires_at) <= current_time) then
    t ← u_add U64_MAX c.(cert_expires_at) CERTIFICATION_GRACE_PERIOD;
    Ok (bool_decide (current_time < t))
  else Ok false.

Definition remaining_validity (c : Certification) (current_time : N) : Result (option N) :=
  if cert_is_valid c current_time then
    t ← u_sub U64_MAX c.(cert_expires_at) current_time; Ok (Some t)
  else Ok None.

(** [iter().any(f)] *)
Fixpoint any_ok {A} (f : A → Result bool) (l : list A) : Result bool :=
  match l with
  | [] => Ok false
  | x :: l => b ← f x; if b : bool then Ok true else any_ok f l
  end.
End certs.

(** ** Bloom filter *)
Record SanctionsBloomFilter := {
  bf_bits : list N;
  bf_num_hashes : nat;
  bf_count : N;
}.

Definition bloom_new : SanctionsBloomFilter := {|
  bf_bits := replicate (N.to_nat (SANCTIONS_BLOOM_SIZE / 64)) 0;
  bf_num_hashes := SANCTIONS_BLOOM_HASHES;
  bf_count := 0;
|}.

#[global] Arguments bloom_new : simpl never.

(** [u64] (and 64-bit [usize]) [wrapping_add] and [wrapping_mul]. *)
Definition wrapping_add (a b : N) : N := (a + b) mod (U64_MAX + 1).
Definition wrapping_mul (a b : N) : N := (a * b) mod (U64_MAX + 1).

Section bloom.
Context `{Build, Crypto}.

Definition compute_hashes (f : SanctionsBloomFilter) (address : Address) : list N :=
  let base_hash := sha256 address in
  let h1 := of_be_bytes (take 8 base_hash) in
  let h2 := of_be_bytes (take 8 (drop 8 base_hash)) in
  (λ i, wrapping_add h1 (wrapping_mul (N.of_nat i) h2) mod SANCTIONS_BLOOM_SIZE)
    <$> seq 0 f.(bf_num_hashes).

(** [self.bits[h / 64]]; an index out of range panics. *)
Definition bloom_word (bits : list N) (h : N) : Result N :=
  from_option Ok Panic (bits !! N.to_nat (h / 64)).

Definition bloom_set (bits : list N) (h : N) : Result (list N) :=
  w ← bloom_word bits h;
  Ok (<[N.to_nat (h / 64) := N.lor w (N.shiftl 1 (h mod 64))]> bits).

(** An insertion that panics is not seen half done: nothing reads the filter
    after a panic. *)
Definition bloom_add (f : SanctionsBloomFilter) (address : Address)
  : Result SanctionsBloomFilter :=
  bits ← foldl (λ acc h, bits ← acc; bloom_set bits h) (Ok f.(bf_bits))
           (compute_hashes f address);
  count ← u_add U64_MAX f.(bf_count) 1;
  Ok {| bf_bits := bits; bf_num_hashes := f.(bf_num_hashes); bf_count := count |}.

(** The loop of [possibly_contains]. *)
Fixpoint bloom_all_set (bits : list N) (hashes : list N) : Result bool :=
  match hashes with
  | [] => Ok true
  | h :: hs =>
      w ← bloom_word bits h;
      if bool_decide (N.land w (N.shiftl 1 (h mod 64)) = 0) then Ok false
      else bloom_all_set bits hs
  end.

Definition possibly_contains (f : SanctionsBloomFilter) (address : Address) : Result bool :=
  bloom_all_set f.(bf_bits) (compute_hashes f address).

Definition bloom_clear (f : SanctionsBloomFilter) : SanctionsBloomFilter := {|
  bf_bits := (λ _, 0) <$> f.(bf_bits); bf_num_hashes := f.(bf_num_hashes); bf_count := 0 |}.
End bloom.

(** ** Jurisdictions and consents *)
Record DataResidencyRule := {
  dr_allowed_regions : list string;
  dr_strict_localization : bool;
  dr_data_types : list string;
}.

Record JurisdictionConfig := {
  jur_code : string;
  jur_name : string;
  jur_blocked : bool;
  jur_block_reason : option string;
  jur_required_standards : list ComplianceStandard;
  jur_data_residency : option DataResidencyRule;
  jur_aml_threshold : TokenAmount;
  jur_risk_level : N;
}.

Record ConsentRecord := {
  cons_data_subject : Address;
  cons_data_controller : Address;
  cons_purposes : list string;
  cons_given_at : N;
  cons_expires_at : option N;
  cons_revoked : bool;
  cons_revoked_at : option N;
  cons_proof : Hash;
}.

Definition is_valid_for (c : ConsentRecord) (purpose : string) (current_time : N) : bool :=
  if c.(cons_revoked) then false
  else if from_option (λ e, bool_decide (e <= current_time)) false c.(cons_expires_at) then false
  else existsb (λ p, bool_decide (p = purpose) || bool_decide (p = "*")) c.(cons_purposes).

(** ** Configuration *)
Record ComplianceConfig := {
  cc_enabled : bool;
  cc_default_standards : list ComplianceStandard;
  cc_enforce_sanctions : bool;
  cc_allow_grace_period : bool;
  cc_trusted_issuers : list Did;
  cc_aml_threshold : TokenAmount;
  cc_risk_threshold : N;
  cc_audit_logging : bool;
  cc_certification_cache_size : N;
}.

Definition ComplianceConfig_mainnet : ComplianceConfig := {|
  cc_enabled := true;
  cc_default_standards := [OfacSanctions];
  cc_enforce_sanctions := true;
  cc_allow_grace_period := false;
  cc_trusted_issuers := [];
  cc_aml_threshold := 10000000000000;
  cc_risk_threshold := 50;
  cc_audit_logging := true;
  cc_certification_cache_size := 10000;
|}.

Definition ComplianceConfig_testnet : ComplianceConfig := {|
  cc_enabled := true;
  cc_default_standards := [];
  cc_enforce_sanctions := false;
  cc_allow_grace_period := true;
  cc_trusted_issuers := [];
  cc_aml_threshold := U128_MAX;
  cc_risk_threshold := 80;
  cc_audit_logging := true;
  cc_certification_cache_size := 1000;
|}.

Definition ComplianceConfig_devnet : ComplianceConfig := {|
  cc_enabled := false;
  cc_default_standards := [];
  cc_enforce_sanctions := false;
  cc_allow_grace_period := true;
  cc_trusted_issuers := [];
  cc_aml_threshold := U128_MAX;
  cc_risk_threshold := 100;
  cc_audit_logging := false;
  cc_certification_cache_size := 100;
|}.

Definition ComplianceConfig_validate (c : ComplianceConfig) : Result unit :=
  if bool_decide (100 < c.(cc_risk_threshold)) then
    Err (InvalidConfig "risk_threshold must be between 0 and 100")
  else if bool_decide (c.(cc_certification_cache_size) = 0) then
    Err (InvalidConfig "certification_cache_size must be > 0")
  else Ok tt.

(** ** Events *)
Inductive ComplianceEvent :=
| TransactionBlocked (tx_hash : Hash) (sender receiver : Address) (reason module : string)
    (block_height : N)
| EntityCertifiedEvent (entity : Address) (did certification : string) (expires_at : N)
    (certifier : Address) (block_height : N)
| CertificationRevoked (entity : Address) (certification reason : string) (revoker : Address)
    (block_height : N)
| SanctionsUpdated (added_count removed_count : N) (authority : Address) (block_height : N)
| ModuleStatusChanged (module : string) (enabled : bool) (block_height : N)
| ComplianceCheckPassed (tx_hash : Hash) (sender : Address) (tags checks_performed : list string)
    (block_height : N)
| CertificationAdded (entity : Address) (standard expires_at : N)
| AddressSanctioned (address : Address) (list_name : string)
| AddressUnsanctioned (address : Address)
| SanctionsListUpdated (list_name : string) (count : N)
| ConsentRevoked (data_subject data_controller : Address)
| BaaRegisteredEvent (covered_entity business_associate : Address)
| CheckPerformed (check_id : Hash) (requester : Address) (passed : bool) (risk_score : N).

Record EventLog := {
  el_index : N;
  el_block_height : N;
  el_timestamp : N;
  el_tx_hash : option Hash;
  el_event : ComplianceEvent;
}.

(** [SystemTime::now()]: its reading at the n-th log entry. *)
Class Clock := { system_time : nat → N }.

(** ** The module *)
Record ComplianceModule := {
  cm_config : ComplianceConfig;
  cm_certifications : gmap Address (list Certification);
  cm_sanctions_bloom : SanctionsBloomFilter;
  cm_sanctioned_addresses : gset Address;
  cm_jurisdictions : gmap string JurisdictionConfig;
  cm_consents : gmap Address (list ConsentRecord);
  cm_baas : gmap Address (gset Address);
  cm_audit_log : list EventLog;
  cm_current_time : N;
  cm_check_counter : N;
}.

Abbreviation CompM := (M SystemContractError ComplianceModule).

(** [init_default_jurisdictions] *)
Definition default_jurisdictions : gmap string JurisdictionConfig :=
  list_to_map [
    ("US", {| jur_code := "US"; jur_name := "United States"; jur_blocked := false;
              jur_block_reason := None; jur_required_standards := [OfacSanctions];
              jur_data_residency := None; jur_aml_threshold := 10000000000000;
              jur_risk_level := 1 |});
    ("EU", {| jur_code := "EU"; jur_name := "European Union"; jur_blocked := false;
              jur_block_reason := None; jur_required_standards := [GdprEu];
              jur_data_residency := Some {| dr_allowed_regions := ["EU"; "EEA"];
                dr_strict_localization := false; dr_data_types := ["PII"; "sensitive"] |};
              jur_aml_threshold := 15000000000000; jur_risk_level := 1 |});
    ("AE", {| jur_code := "AE"; jur_name := "United Arab Emirates"; jur_blocked := false;
              jur_block_reason := None; jur_required_standards := [UaeDpl];
              jur_data_residency := Some {| dr_allowed_regions := ["AE"; "GCC"];
                dr_strict_localization := true; dr_data_types := ["government"; "financial"] |};
              jur_aml_threshold := 50000000000000; jur_risk_level := 1 |});
    ("SG", {| jur_code := "SG"; jur_name := "Singapore"; jur_blocked := false;
              jur_block_reason := None; jur_required_standards := [PdpaSg];
              jur_data_residency := None; jur_aml_threshold := 20000000000000;
              jur_risk_level := 1 |});
    ("KP", {| jur_code := "KP"; jur_name := "North Korea"; jur_blocked := true;
              jur_block_reason := Some "OFAC comprehensive sanctions";
              jur_required_standards := []; jur_data_residency := None;
              jur_aml_threshold := 0; jur_risk_level := 5 |});
    ("IR", {| jur_code := "IR"; jur_name := "Iran"; jur_blocked := true;
              jur_block_reason := Some "OFAC comprehensive sanctions";
              jur_required_standards := []; jur_data_residency := None;
              jur_aml_threshold := 0; jur_risk_level := 5 |}) ].

Definition ComplianceModule_new (config : ComplianceConfig) : ComplianceModule := {|
  cm_config := config;
  cm_certifications := ∅;
  cm_sanctions_bloom := bloom_new;
  cm_sanctioned_addresses := ∅;
  cm_jurisdictions := default_jurisdictions;
  cm_consents := ∅;
  cm_baas := ∅;
  cm_audit_log := [];
  cm_current_time := 0;
  cm_check_counter := 0;
|}.

(** Field assignments. *)
Definition cm_with_certs (v : gmap Address (list Certification)) (m : ComplianceModule)
  : ComplianceModule := {|
  cm_config := m.(cm_config); cm_certifications := v;
  cm_sanctions_bloom := m.(cm_sanctions_bloom);
  cm_sanctioned_addresses := m.(cm_sanctioned_addresses);
  cm_jurisdictions := m.(cm_jurisdictions); cm_consents := m.(cm_consents);
  cm_baas := m.(cm_baas); cm_audit_log := m.(cm_audit_log);
  cm_current_time := m.(cm_current_time); cm_check_counter := m.(cm_check_counter) |}.

Definition cm_with_sanctions (bloom : SanctionsBloomFilter) (addrs : gset Address)
    (m : ComplianceModule) : ComplianceModule := {|
  cm_config := m.(cm_config); cm_certifications := m.(cm_certifications);
  cm_sanctions_bloom := bloom; cm_sanctioned_addresses := addrs;
  cm_jurisdictions := m.(cm_jurisdictions); cm_consents := m.(cm_consents);
  cm_baas := m.(cm_baas); cm_audit_log := m.(cm_audit_log);
  cm_current_time := m.(cm_current_time); cm_check_counter := m.(cm_check_counter) |}.

Definition cm_with_rules (jurs : gmap string JurisdictionConfig)
    (consents : gmap Address (list ConsentRecord)) (baas : gmap Address (gset Address))
    (m : ComplianceModule) : ComplianceModule := {|
  cm_config := m.(cm_config); cm_certifications := m.(cm_certifications);
  cm_sanctions_bloom := m.(cm_sanctions_bloom);
  cm_sanctioned_addresses := m.(cm_sanctioned_addresses);
  cm_jurisdictions := jurs; cm_consents := consents; cm_baas := baas;
  cm_audit_log := m.(cm_audit_log);
  cm_current_time := m.(cm_current_time); cm_check_counter := m.(cm_check_counter) |}.

Definition cm_with_meta (log : list EventLog) (now counter : N) (m : ComplianceModule)
  : ComplianceModule := {|
  cm_config := m.(cm_config); cm_certifications := m.(cm_certifications);
  cm_sanctions_bloom := m.(cm_sanctions_bloom);
  cm_sanctioned_addresses := m.(cm_sanctioned_addresses);
  cm_jurisdictions := m.(cm_jurisdictions); cm_consents := m.(cm_consents);
  cm_baas := m.(cm_baas); cm_audit_log := log;
  cm_current_time := now; cm_check_counter := counter |}.

Definition update_time (timestamp : N) (m : ComplianceModule) : ComplianceModule :=
  cm_with_meta m.(cm_audit_log) timestamp m.(cm_check_counter) m.

Definition set_jurisdiction (c : JurisdictionConfig) (m : ComplianceModule)
  : ComplianceModule :=
  cm_with_rules (<[c.(jur_code) := c]> m.(cm_jurisdictions)) m.(cm_consents) m.(cm_baas) m.

Definition get_jurisdiction (m : ComplianceModule) (code : string) : option JurisdictionConfig :=
  m.(cm_jurisdictions) !! code.

Definition is_jurisdiction_blocked (m : ComplianceModule) (code : string) : bool :=
  default false (jur_blocked <$> m.(cm_jurisdictions) !! code).

Definition get_audit_log_since (m : ComplianceModule) (since : N) : list EventLog :=
  filter (λ l, since <= l.(el_timestamp)) m.(cm_audit_log).

(** The first element that satisfies [p], updated in place. *)
Fixpoint update_first {A} (p : A → bool) (f : A → A) (l : list A) : option (list A) :=
  match l with
  | [] => None
  | x :: l => if p x then Some (f x :: l) else (x ::.) <$> update_first p f l
  end.

(** [if !v.contains(x) { v.push(x) }] *)
Definition push_new {A} `{EqDecision A} (v : list A) (x : A) : list A :=
  if bool_decide (x ∈ v) then v else v ++ [x].

Section module.
Context `{Build, Crypto, Clock}.

Definition EventLog_new (n : nat) (e : ComplianceEvent) : EventLog := {|
  el_index := 0; el_block_height := 0; el_timestamp := system_time n; el_tx_hash := None;
  el_event := e |}.

Definition emit_event (e : ComplianceEvent) : CompM unit :=
  modify (λ m, if m.(cm_config).(cc_audit_logging) then
    cm_with_meta (m.(cm_audit_log) ++ [EventLog_new (length m.(cm_audit_log)) e])
      m.(cm_current_time) m.(cm_check_counter) m else m).

(** ** Certifications *)
Definition add_certification (cert : Certification) : CompM unit :=
  m ← get;
  let issuers := m.(cm_config).(cc_trusted_issuers) in
  ensure (bool_decide (issuers = []) || bool_decide (cert.(cert_issuer) ∈ issuers))
    (ComplianceError ("Issuer " +:+ Did_to_string cert.(cert_issuer) +:+ " is not trusted")) ;;
  ensure (negb (bool_decide (cert.(cert_expires_at) <= m.(cm_current_time))))
    (ComplianceError "Certification has already expired") ;;
  let min_level := min_certification_level cert.(cert_standard) in
  ensure (negb (bool_decide (cert.(cert_level) < min_level)))
    (ComplianceError ("Certification level " +:+ pretty cert.(cert_level)
       +:+ " is below minimum " +:+ pretty min_level +:+ " for "
       +:+ standard_name cert.(cert_standard))) ;;
  let entity := cert.(cert_entity_address) in
  let certs := default [] (m.(cm_certifications) !! entity) in
  modify (λ m, cm_with_certs (<[entity := certs]> m.(cm_certifications)) m) ;;
  ensure (negb (bool_decide (MAX_CERTIFICATIONS_PER_ENTITY <= length certs)%nat))
    (ComplianceError ("Entity has maximum "
       +:+ pretty (N.of_nat MAX_CERTIFICATIONS_PER_ENTITY) +:+ " certifications")) ;;
  modify (λ m, cm_with_certs (<[entity :=
    filter (λ c, c.(cert_standard) ≠ cert.(cert_standard)) certs ++ [cert]]>
      m.(cm_certifications)) m) ;;
  emit_event (CertificationAdded entity (standard_as_u8 cert.(cert_standard))
    cert.(cert_expires_at)).

Definition revoke_certification (entity : Address) (standard : ComplianceStandard)
    (reason : string) : CompM unit :=
  m ← get;
  certs ← ok_or (m.(cm_certifications) !! entity) (ComplianceError "Entity not found");
  certs' ← ok_or (update_first (λ c, bool_decide (c.(cert_standard) = standard))
                    (cert_revoke reason) certs)
             (ComplianceError "Certification not found");
  modify (λ m, cm_with_certs (<[entity := certs']> m.(cm_certifications)) m) ;;
  emit_event (CertificationRevoked entity (standard_name standard) reason ZERO_ADDRESS 0).

Definition get_certifications (m : ComplianceModule) (entity : Address)
  : option (list Certification) := m.(cm_certifications) !! entity.

Definition has_valid_certification (m : ComplianceModule) (entity : Address)
    (standard : ComplianceStandard) : Result bool :=
  match m.(cm_certifications) !! entity with
  | Some certs =>
      any_ok (λ c,
        if bool_decide (c.(cert_standard) = standard) then
          if cert_is_valid c m.(cm_current_time) then Ok true
          else if m.(cm_config).(cc_allow_grace_period) then in_grace_period c m.(cm_current_time)
          else Ok false
        else Ok false) certs
  | None => Ok false
  end.

(** ** Sanctions *)
Definition is_sanctioned (m : ComplianceModule) (address : Address) : Result bool :=
  maybe ← possibly_contains m.(cm_sanctions_bloom) address;
  if negb maybe then Ok false else Ok (bool_decide (address ∈ m.(cm_sanctioned_addresses))).

(** [self.sanctions_bloom.add(&a); self.sanctioned_addresses.insert(a)] *)
Definition sanction_one (address : Address) : CompM unit :=
  m ← get;
  bloom ← lift (bloom_add m.(cm_sanctions_bloom) address);
  put (cm_with_sanctions bloom ({[address]} ∪ m.(cm_sanctioned_addresses)) m).

Definition add_sanctioned_address (address : Address) (list_name : string) : CompM unit :=
  sanction_one address ;;
  emit_event (AddressSanctioned address list_name).

Definition remove_sanctioned_address (address : Address) : CompM unit :=
  modify (λ m, cm_with_sanctions m.(cm_sanctions_bloom)
                 (m.(cm_sanctioned_addresses) ∖ {[address]}) m) ;;
  emit_event (AddressUnsanctioned address).

Definition bulk_add_sanctioned (addresses : list Address) (list_name : string) : CompM unit :=
  for_each addresses sanction_one ;;
  m ← get;
  emit_event (SanctionsListUpdated list_name
    (cast U32_MAX (N.of_nat (size m.(cm_sanctioned_addresses))))).

(** ** Consents *)
Definition merge_consent (new old : ConsentRecord) : ConsentRecord := {|
  cons_data_subject := old.(cons_data_subject);
  cons_data_controller := old.(cons_data_controller);
  cons_purposes := foldl push_new old.(cons_purposes) new.(cons_purposes);
  cons_given_at := new.(cons_given_at);
  cons_expires_at := new.(cons_expires_at);
  cons_revoked := old.(cons_revoked);
  cons_revoked_at := old.(cons_revoked_at);
  cons_proof := new.(cons_proof) |}.

Definition active_consent (controller : Address) (c : ConsentRecord) : bool :=
  bool_decide (c.(cons_data_controller) = controller) && negb c.(cons_revoked).

Definition record_consent (consent : ConsentRecord) : CompM unit :=
  m ← get;
  let subject := consent.(cons_data_subject) in
  let consents := default [] (m.(cm_consents) !! subject) in
  let consents' := default (consents ++ [consent])
    (update_first (active_consent consent.(cons_data_controller)) (merge_consent consent)
       consents) in
  put (cm_with_rules m.(cm_jurisdictions) (<[subject := consents']> m.(cm_consents))
         m.(cm_baas) m).

Definition revoked_consent (now : N) (c : ConsentRecord) : ConsentRecord := {|
  cons_data_subject := c.(cons_data_subject); cons_data_controller := c.(cons_data_controller);
  cons_purposes := c.(cons_purposes); cons_given_at := c.(cons_given_at);
  cons_expires_at := c.(cons_expires_at); cons_revoked := true; cons_revoked_at := Some now;
  cons_proof := c.(cons_proof) |}.

Definition revoke_consent (data_subject data_controller : Address) : CompM unit :=
  m ← get;
  consents ← ok_or (m.(cm_consents) !! data_subject) (ComplianceError "No consent records found");
  consents' ← ok_or (update_first (active_consent data_controller)
                       (revoked_consent m.(cm_current_time)) consents)
                (ComplianceError "Active consent not found");
  modify (λ m, cm_with_rules m.(cm_jurisdictions)
                 (<[data_subject := consents']> m.(cm_consents)) m.(cm_baas) m) ;;
  emit_event (ConsentRevoked data_subject data_controller).

Definition has_consent (m : ComplianceModule) (data_subject data_controller : Address)
    (purpose : string) : bool :=
  existsb (λ c, bool_decide (c.(cons_data_controller) = data_controller)
                && is_valid_for c purpose m.(cm_current_time))
    (default [] (m.(cm_consents) !! data_subject)).

(** ** Business associate agreements *)
Definition register_baa (covered_entity business_associate : Address) : CompM unit :=
  m ← get;
  covered ← lift (has_valid_certification m covered_entity HipaaUs);
  ensure covered (ComplianceError "Covered entity lacks HIPAA certification") ;;
  associate ← lift (has_valid_certification m business_associate HipaaUs);
  ensure associate (ComplianceError "Business associate lacks HIPAA certification") ;;
  modify (λ m, cm_with_rules m.(cm_jurisdictions) m.(cm_consents)
    (<[covered_entity := {[business_associate]} ∪ default ∅ (m.(cm_baas) !! covered_entity)]>
       m.(cm_baas)) m) ;;
  emit_event (BaaRegisteredEvent covered_entity business_associate).

Definition has_baa (m : ComplianceModule) (covered_entity business_associate : Address) : bool :=
  bool_decide (business_associate ∈ default ∅ (m.(cm_baas) !! covered_entity)).

(** ** The check *)
Definition generate_check_id : CompM Hash :=
  m ← get;
  counter ← lift (u_add U64_MAX m.(cm_check_counter) 1);
  put (cm_with_meta m.(cm_audit_log) m.(cm_current_time) counter m) ;;
  mret (sha256 (string_bytes "compliance-check:" ++ to_le_bytes 8 m.(cm_current_time)
                ++ to_le_bytes 8 counter)).

Definition all_standards (m : ComplianceModule) (required : list ComplianceStandard)
    (jurisdiction : option string) : list ComplianceStandard :=
  let base := foldl push_new m.(cm_config).(cc_default_standards) required in
  match jurisdiction ≫= λ j, m.(cm_jurisdictions) !! j with
  | Some jc => foldl push_new base jc.(jur_required_standards)
  | None => base
  end.

Definition jurisdiction_violations (m : ComplianceModule) (jurisdiction : option string)
    (amount : TokenAmount) : list ViolationType :=
  match jurisdiction with
  | Some jur =>
      match m.(cm_jurisdictions) !! jur with
      | Some jc =>
          (if jc.(jur_blocked)
           then [VJurisdictionBlocked jur (default "Blocked jurisdiction" jc.(jur_block_reason))]
           else [])
          ++ (if bool_decide (jc.(jur_aml_threshold) < amount)
              then [VAmlThresholdExceeded amount jc.(jur_aml_threshold)] else [])
      | None => []
      end
  | None => []
  end.

Definition sanction_violation (m : ComplianceModule) (address : Address)
  : Result (list ViolationType) :=
  b ← is_sanctioned m address;
  Ok (if b : bool then [VSanctionedAddress address "OFAC SDN"] else []).

Definition sanction_violations (m : ComplianceModule) (requester : Address)
    (data_provider : option Address) : Result (list ViolationType) :=
  if m.(cm_config).(cc_enforce_sanctions) then
    v1 ← sanction_violation m requester;
    v2 ← from_option (sanction_violation m) (Ok []) data_provider;
    Ok (v1 ++ v2)
  else Ok [].

(** What one standard adds for the requester: violations and warnings. *)
Definition requester_check (m : ComplianceModule) (requester : Address)
    (standard : ComplianceStandard) : Result (list ViolationType * list string) :=
  valid ← has_valid_certification m requester standard;
  if valid : bool then Ok ([], []) else
  match m.(cm_certifications) !! requester with
  | Some certs =>
      match List.find (λ c, bool_decide (c.(cert_standard) = standard)) certs with
      | Some cert =>
          grace ← in_grace_period cert m.(cm_current_time);
          if grace : bool then
            Ok ([], ["Certification for " +:+ standard_name standard +:+ " expires soon"])
          else if negb cert.(cert_revoked) then
            Ok ([VExpiredCertification standard requester cert.(cert_expires_at)], [])
          else Ok ([], [])
      | None => Ok ([VMissingCertification standard requester], [])
      end
  | None => Ok ([VMissingCertification standard requester], [])
  end.

Definition provider_check (m : ComplianceModule) (data_provider : option Address)
    (standard : ComplianceStandard) : Result (list ViolationType) :=
  match data_provider with
  | Some provider =>
      valid ← has_valid_certification m provider standard;
      Ok (if valid : bool then [] else [VMissingCertification standard provider])
  | None => Ok []
  end.

(** The loop of step 2. *)
Fixpoint certification_checks (m : ComplianceModule) (requester : Address)
    (data_provider : option Address) (standards : list ComplianceStandard)
  : Result (list ViolationType * list string) :=
  match standards with
  | [] => Ok ([], [])
  | s :: standards =>
      if requires_certification s then
        '(v1, w1) ← requester_check m requester s;
        v2 ← provider_check m data_provider s;
        '(v3, w3) ← certification_checks m requester data_provider standards;
        Ok (v1 ++ v2 ++ v3, w1 ++ w3)
      else certification_checks m requester data_provider standards
  end.

Definition baa_violations (m : ComplianceModule) (requester : Address)
    (data_provider : option Address) (standards : list ComplianceStandard)
  : list ViolationType :=
  match data_provider with
  | Some provider =>
      if bool_decide (HipaaUs ∈ standards) && negb (has_baa m requester provider)
         && negb (bool_decide (requester = provider))
      then [VMissingBaa requester provider] else []
  | None => []
  end.

Definition consent_violations (m : ComplianceModule) (requester : Address)
    (data_provider : option Address) (standards : list ComplianceStandard)
    (metadata : gmap string string) : list ViolationType :=
  let purpose := default "ai_computation" (metadata !! "purpose") in
  match data_provider with
  | Some provider =>
      if (bool_decide (GdprEu ∈ standards) || bool_decide (CcpaCa ∈ standards))
         && negb (has_consent m provider requester purpose)
      then [VMissingConsent provider purpose] else []
  | None => []
  end.

Definition residency_violations (m : ComplianceModule) (jurisdiction : option string)
    (metadata : gmap string string) : list ViolationType :=
  match (jurisdiction ≫= λ j, m.(cm_jurisdictions) !! j) ≫= jur_data_residency,
        metadata !! "data_region" with
  | Some rule, Some region =>
      if bool_decide (region ∈ rule.(dr_allowed_regions)) then []
      else [VDataResidencyViolation (String.concat ", " rule.(dr_allowed_regions)) region]
  | _, _ => []
  end.

Definition enforce (requester : Address) (data_provider : option Address)
    (required : list ComplianceStandard) (jurisdiction : option string) (amount : TokenAmount)
    (metadata : gmap string string) : CompM ComplianceCheckResult :=
  m0 ← get;
  check_id ← generate_check_id;
  if negb m0.(cm_config).(cc_enabled) then
    mret (ccr_pass required check_id m0.(cm_current_time))
  else
  m ← get;
  let standards := all_standards m required jurisdiction in
  sanctions ← lift (sanction_violations m requester data_provider);
  '(certs, warnings) ← lift (certification_checks m requester data_provider standards);
  let violations := jurisdiction_violations m jurisdiction amount ++ sanctions ++ certs
    ++ baa_violations m requester data_provider standards
    ++ consent_violations m requester data_provider standards metadata
    ++ residency_violations m jurisdiction metadata in
  result ← lift (if bool_decide (length violations = 0%nat)
                 then Ok (ccr_pass standards check_id m.(cm_current_time))
                 else ccr_fail violations standards check_id m.(cm_current_time));
  emit_event (CheckPerformed check_id requester result.(ccr_passed) result.(ccr_risk_score)) ;;
  mret (ccr_finish
    (result.(ccr_passed)
     && negb (bool_decide (m.(cm_config).(cc_risk_threshold) < result.(ccr_risk_score))))
    warnings result).
End module.

(** ** Statistics *)

(** All counters of [ComplianceStatistics] but the estimated false-positive
    rate, which is computed with [exp] and [powf]. *)
Record ComplianceStatistics := {
  cs_total_checks : N;
  cs_passed_checks : N;
  cs_failed_checks : N;
  cs_total_certifications : N;
  cs_active_certifications : N;
  cs_sanctioned_addresses : N;
  cs_bloom_filter_size : N;
  cs_registered_jurisdictions : N;
  cs_blocked_jurisdictions : N;
}.

Definition is_passed_check (l : EventLog) : bool :=
  match l.(el_event) with CheckPerformed _ _ true _ => true | _ => false end.

Definition Compliance_statistics (m : ComplianceModule) : ComplianceStatistics :=
  let passed := N.of_nat (length (List.filter is_passed_check m.(cm_audit_log))) in
  let certs := concat (map_to_list m.(cm_certifications)).*2 in
  {|
  cs_total_checks := m.(cm_check_counter);
  cs_passed_checks := passed;
  cs_failed_checks := sat_sub m.(cm_check_counter) passed;
  cs_total_certifications := N.of_nat (length certs);
  cs_active_certifications :=
    N.of_nat (length (List.filter (λ c, cert_is_valid c m.(cm_current_time)) certs));
  cs_sanctioned_addresses := N.of_nat (size m.(cm_sanctioned_addresses));
  cs_bloom_filter_size := SANCTIONS_BLOOM_SIZE;
  cs_registered_jurisdictions := N.of_nat (size m.(cm_jurisdictions));
  cs_blocked_jurisdictions :=
    N.of_nat (length (List.filter jur_blocked (map_to_list m.(cm_jurisdictions)).*2));
|}.
