(* ===== verification/ComplianceSpec.v ===== *)
(** * What the compliance module promises

    The Bloom filter never hides a sanctioned address, so that the filtered
    list behaves as the plain set; [enforce] is total and passes exactly when no
    rule is violated; what a passed check guarantees, and what it does not. *)
From S2P Require Import Prelude SysTypes F64 Precompile Bank Staking JobRegistry Samples Compliance.
From stdpp Require Import base gmap list strings sets.
From Stdlib Require Import ZArith Lia.
#[local] Open Scope N_scope.

(** ** The Bloom filter *)
Section bloom_facts.
Context `{Build, Crypto}.

Definition bit_set (bits : list N) (h : N) : Prop :=
  ∃ w, bits !! N.to_nat (h / 64) = Some w ∧ N.testbit w (h mod 64) = true.

(** Every bit position the hash functions produce exists. *)
Definition bloom_wf (f : SanctionsBloomFilter) : Prop :=
  length f.(bf_bits) = N.to_nat (SANCTIONS_BLOOM_SIZE / 64).

Lemma hash_in_range f a h : h ∈ compute_hashes f a → h < SANCTIONS_BLOOM_SIZE.
Proof.
  unfold compute_hashes. intros (i & -> & _)%list_elem_of_fmap.
  apply N.mod_lt. discriminate.
Qed.

Lemma word_exists (bits : list N) h :
  length bits = N.to_nat (SANCTIONS_BLOOM_SIZE / 64) → h < SANCTIONS_BLOOM_SIZE →
  ∃ w, bits !! N.to_nat (h / 64) = Some w.
Proof.
  intros Hlen Hh. apply lookup_lt_is_Some. rewrite Hlen.
  change (SANCTIONS_BLOOM_SIZE / 64) with 16384. change SANCTIONS_BLOOM_SIZE with 1048576 in Hh.
  div_elim. lia.
Qed.

Lemma land_bit w i : N.land w (N.shiftl 1 i) = 0 ↔ N.testbit w i = false.
Proof.
  split.
  - intros Hz. assert (N.testbit (N.land w (N.shiftl 1 i)) i = false) as Hb by (rewrite Hz; apply N.bits_0).
    rewrite N.land_spec, N.shiftl_spec_high' in Hb by lia.
    rewrite N.sub_diag in Hb. by rewrite andb_true_r in Hb.
  - intros Hb. apply N.bits_inj_0. intros j. rewrite N.land_spec.
    destruct (decide (j = i)) as [->|Hne]; [by rewrite Hb|].
    rewrite N.shiftl_1_l, N.pow2_bits_false by done. apply andb_false_r.
Qed.

(** Setting a bit sets it and clears none. *)
Lemma bloom_set_ok bits h :
  length bits = N.to_nat (SANCTIONS_BLOOM_SIZE / 64) → h < SANCTIONS_BLOOM_SIZE →
  ∃ bits', bloom_set bits h = Ok bits' ∧ length bits' = length bits
    ∧ bit_set bits' h ∧ ∀ h', bit_set bits h' → bit_set bits' h'.
Proof.
  intros Hlen Hh. destruct (word_exists bits h Hlen Hh) as [w Hw].
  unfold bloom_set, bloom_word. rewrite Hw. cbn. eexists. split; [done|].
  split; [apply length_insert|].
  assert (N.to_nat (h / 64) < length bits)%nat as Hlt by (by eapply lookup_lt_Some).
  assert (∀ j, N.testbit w j = true →
    N.testbit (N.lor w (N.shiftl 1 (h mod 64))) j = true) as Hmono.
  { intros j Hj. by rewrite N.lor_spec, Hj. }
  split.
  - eexists. rewrite list_lookup_insert_eq by done. split; [done|].
    rewrite N.lor_spec, N.shiftl_spec_high', N.sub_diag by lia. apply orb_true_r.
  - intros h' (w' & Hw' & Hb'). destruct (decide (N.to_nat (h' / 64) = N.to_nat (h / 64))) as [Heq|Hne].
    + rewrite Heq in Hw'. rewrite Hw in Hw'. injection Hw' as <-.
      eexists. rewrite Heq, list_lookup_insert_eq by done. split; [done|]. by apply Hmono.
    + exists w'. by rewrite list_lookup_insert_ne.
Qed.

Lemma bloom_set_all hs bits :
  length bits = N.to_nat (SANCTIONS_BLOOM_SIZE / 64) →
  (∀ h, h ∈ hs → h < SANCTIONS_BLOOM_SIZE) →
  ∃ bits', foldl (λ acc h, bits ← acc; bloom_set bits h) (Ok bits) hs = Ok bits'
    ∧ length bits' = length bits
    ∧ (∀ h, h ∈ hs → bit_set bits' h) ∧ ∀ h', bit_set bits h' → bit_set bits' h'.
Proof.
  revert bits. induction hs as [|h hs IH]; intros bits Hlen Hr.
  - exists bits. split_and!; try done. by intros h ?%not_elem_of_nil.
  - destruct (bloom_set_ok bits h Hlen) as (b1 & Hb1 & Hl1 & Hs1 & Hm1);
      [apply Hr, elem_of_cons; auto|].
    cbn. rewrite Hb1.
    destruct (IH b1) as (b2 & -> & Hl2 & Hs2 & Hm2);
      [congruence|intros; apply Hr, elem_of_cons; auto|].
    exists b2. split_and!; [done|congruence| |auto].
    intros h' [->|Hin]%elem_of_cons; auto.
Qed.

Lemma bloom_all_set_spec bits hs :
  length bits = N.to_nat (SANCTIONS_BLOOM_SIZE / 64) →
  (∀ h, h ∈ hs → h < SANCTIONS_BLOOM_SIZE) →
  ∃ b, bloom_all_set bits hs = Ok b ∧ ((∀ h, h ∈ hs → bit_set bits h) → b = true).
Proof.
  intros Hlen. induction hs as [|h hs IH]; intros Hr; cbn; [by exists true|].
  destruct (word_exists bits h Hlen) as [w Hw]; [apply Hr, elem_of_cons; auto|].
  unfold bloom_word. rewrite Hw. cbn.
  destruct IH as (b & -> & Hb); [intros; apply Hr, elem_of_cons; auto|].
  case_bool_decide as Hz.
  - exists false. split; [done|]. intros Hall.
    destruct (Hall h) as (w' & Hw' & Ht); [apply elem_of_cons; auto|].
    rewrite Hw in Hw'. injection Hw' as <-. apply land_bit in Hz. congruence.
  - exists b. split; [done|]. intros Hall. apply Hb. intros. apply Hall, elem_of_cons. auto.
Qed.

(** The addresses the filter answers "maybe" for. *)
Definition covers (f : SanctionsBloomFilter) (a : Address) : Prop :=
  ∀ h, h ∈ compute_hashes f a → bit_set f.(bf_bits) h.

Lemma bloom_add_ok f a :
  bloom_wf f → f.(bf_count) < U64_MAX →
  ∃ f', bloom_add f a = Ok f' ∧ bloom_wf f' ∧ f'.(bf_num_hashes) = f.(bf_num_hashes)
    ∧ f'.(bf_count) = f.(bf_count) + 1 ∧ covers f' a ∧ ∀ a', covers f a' → covers f' a'.
Proof.
  intros Hwf Hc.
  destruct (bloom_set_all (compute_hashes f a) (bf_bits f) Hwf (hash_in_range f a))
    as (bits & Hrun & Hl & Hset & Hmono).
  unfold bloom_add. rewrite Hrun. cbn. rewrite u_add_ok by lia. cbn.
  eexists. split; [done|]. split_and!; [by unfold bloom_wf; cbn; rewrite Hl|done|done|exact Hset|].
  intros a' Ha' h Hh. apply Hmono, Ha'. exact Hh.
Qed.

Lemma possibly_contains_ok f a :
  bloom_wf f → ∃ b, possibly_contains f a = Ok b ∧ (covers f a → b = true).
Proof. intros Hwf. by apply bloom_all_set_spec, hash_in_range. Qed.
End bloom_facts.

(** ** Calls on the module *)
Inductive ComplianceOp :=
| OpAddCertification (cert : Certification)
| OpRevokeCertification (entity : Address) (standard : ComplianceStandard) (reason : string)
| OpSanction (address : Address) (list_name : string)
| OpUnsanction (address : Address)
| OpBulkSanction (addresses : list Address) (list_name : string)
| OpRecordConsent (consent : ConsentRecord)
| OpRevokeConsent (subject controller : Address)
| OpRegisterBaa (covered associate : Address)
| OpEnforce (requester : Address) (provider : option Address)
    (required : list ComplianceStandard) (jurisdiction : option string) (amount : TokenAmount)
    (metadata : gmap string string)
| OpSetJurisdiction (c : JurisdictionConfig)
| OpUpdateTime (now : N).

Section sanctions.
Context `{Build, Crypto, Clock}.

Definition run_comp_op (op : ComplianceOp) : CompM unit :=
  match op with
  | OpAddCertification cert => add_certification cert
  | OpRevokeCertification e s reason => revoke_certification e s reason
  | OpSanction a l => add_sanctioned_address a l
  | OpUnsanction a => remove_sanctioned_address a
  | OpBulkSanction l n => bulk_add_sanctioned l n
  | OpRecordConsent c => record_consent c
  | OpRevokeConsent s c => revoke_consent s c
  | OpRegisterBaa c a => register_baa c a
  | OpEnforce q p req j n meta => enforce q p req j n meta ;; mret tt
  | OpSetJurisdiction c => modify (set_jurisdiction c)
  | OpUpdateTime t => modify (update_time t)
  end.

Definition run_comp_ops (ops : list ComplianceOp) (m : ComplianceModule) : ComplianceModule :=
  fold_left (λ m op, (run_comp_op op m).2) ops m.

(** The reference: a plain set. *)
Definition sanction_ref (s : gset Address) (op : ComplianceOp) : gset Address :=
  match op with
  | OpSanction a _ => {[a]} ∪ s
  | OpUnsanction a => s ∖ {[a]}
  | OpBulkSanction l _ => foldl (λ s a, {[a]} ∪ s) s l
  | _ => s
  end.

(** How many additions a call makes. *)
Definition additions (op : ComplianceOp) : N :=
  match op with
  | OpSanction _ _ => 1
  | OpBulkSanction l _ => N.of_nat (length l)
  | _ => 0
  end.

(** The filter covers the list, and [n] addresses have been added. *)
Record sanctions_inv (s : gset Address) (n : N) (m : ComplianceModule) : Prop := {
  si_bloom : bloom_wf m.(cm_sanctions_bloom);
  si_count : m.(cm_sanctions_bloom).(bf_count) = n;
  si_set : m.(cm_sanctioned_addresses) = s;
  si_covered : ∀ a, a ∈ s → covers m.(cm_sanctions_bloom) a;
}.

(** Calls that do not touch the sanctions list. *)
Definition same_sanctions (m m' : ComplianceModule) : Prop :=
  m'.(cm_sanctions_bloom) = m.(cm_sanctions_bloom)
  ∧ m'.(cm_sanctioned_addresses) = m.(cm_sanctioned_addresses).

#[local] Instance same_sanctions_preorder : PreOrder same_sanctions.
Proof.
  split; unfold same_sanctions; [by intros m|].
  intros m m' m'' [] []. split; congruence.
Qed.

Lemma same_sanctions_inv s n m m' :
  same_sanctions m m' → sanctions_inv s n m → sanctions_inv s n m'.
Proof. intros [Hb Hs] []. split; rewrite ?Hb, ?Hs; done. Qed.

Lemma emit_same e : stable same_sanctions (emit_event e).
Proof. apply stable_modify. intros m. by destruct (cc_audit_logging _). Qed.

Lemma put_same m m' : same_sanctions m m' → same_sanctions m ((put (E:=SystemContractError) m') m).2.
Proof. done. Qed.

Lemma generate_check_id_same : stable same_sanctions generate_check_id.
Proof.
  intros m. unfold generate_check_id. mrun. by destruct (u_add _ _ _).
Qed.

#[local] Hint Resolve emit_same generate_check_id_same : stable.

Lemma enforce_same q p req j n meta : stable same_sanctions (enforce q p req j n meta).
Proof. unfold enforce. stable_body. Qed.

Lemma modify_same (f : ComplianceModule → ComplianceModule) :
  (∀ m, same_sanctions m (f m)) → stable (E:=SystemContractError) same_sanctions (modify f).
Proof. apply stable_modify. Qed.

Definition touches_sanctions (op : ComplianceOp) : bool :=
  match op with OpSanction _ _ | OpUnsanction _ | OpBulkSanction _ _ => true | _ => false end.

Lemma other_ops_same op :
  touches_sanctions op = false → stable same_sanctions (run_comp_op op).
Proof.
  intros Ht. destruct op; cbn in Ht |- *; try discriminate Ht.
  - unfold add_certification. stable_body; by apply modify_same.
  - unfold revoke_certification. stable_body. by apply modify_same.
  - intros m. unfold record_consent. mrun. by split.
  - unfold revoke_consent. stable_body. by apply modify_same.
  - unfold register_baa. stable_body. by apply modify_same.
  - apply stable_bind; [apply _|apply enforce_same|intros; by apply stable_ret, _].
  - by apply modify_same.
  - by apply modify_same.
Qed.

Lemma sanction_one_inv a s n m :
  sanctions_inv s n m → n < U64_MAX →
  ∃ m', sanction_one a m = (Ok tt, m') ∧ sanctions_inv ({[a]} ∪ s) (n + 1) m'.
Proof.
  intros [Hb Hc Hs Hcov] Hn. unfold sanction_one. mrun.
  destruct (bloom_add_ok (cm_sanctions_bloom m) a Hb ltac:(lia))
    as (f & -> & Hwf & _ & Hcnt & Ha & Hmono).
  eexists. split; [done|]. split; cbn; [done|lia|by rewrite Hs|].
  intros a' [->%elem_of_singleton|Hin]%elem_of_union; auto.
Qed.

Lemma sanction_all_inv l s n m :
  sanctions_inv s n m → n + N.of_nat (length l) <= U64_MAX →
  ∃ m', for_each l sanction_one m = (Ok tt, m')
    ∧ sanctions_inv (foldl (λ s a, {[a]} ∪ s) s l) (n + N.of_nat (length l)) m'.
Proof.
  revert s n m. induction l as [|a l IH]; intros s n m Hinv Hn.
  - exists m. split; [done|]. by rewrite N.add_0_r.
  - destruct (sanction_one_inv a s n m Hinv) as (m1 & Hr1 & Hinv1); [cbn in Hn; lia|].
    destruct (IH _ _ _ Hinv1) as (m2 & Hr2 & Hinv2); [cbn in Hn; lia|].
    exists m2. split.
    + cbn. unfold mbind, M_bind. by rewrite Hr1, Hr2.
    + cbn [foldl length]. by replace (n + N.of_nat (S (length l)))
        with (n + 1 + N.of_nat (length l)) by lia.
Qed.

Lemma comp_op_inv op s n m :
  sanctions_inv s n m → n + additions op <= U64_MAX →
  sanctions_inv (sanction_ref s op) (n + additions op) (run_comp_op op m).2.
Proof.
  intros Hinv Hn. destruct (touches_sanctions op) eqn:Ht.
  - destruct op; try discriminate Ht; cbn in Hn |- *.
    + destruct (sanction_one_inv address s n m Hinv) as (m1 & Hr & Hinv1); [lia|].
      unfold add_sanctioned_address. unfold mbind, M_bind. rewrite Hr.
      apply (same_sanctions_inv _ _ m1); [exact (emit_same _ m1)|done].
    + rewrite N.add_0_r. apply (same_sanctions_inv _ _ (cm_with_sanctions
        m.(cm_sanctions_bloom) (m.(cm_sanctioned_addresses) ∖ {[address]}) m));
        [exact (emit_same (AddressUnsanctioned address) _)|].
      destruct Hinv as [Hb Hcnt Hs Hcov]. split; cbn; [done|done|by rewrite Hs|].
      intros a [Hin _]%elem_of_difference. by apply Hcov.
    + destruct (sanction_all_inv addresses s n m Hinv) as (m1 & Hr & Hinv1); [lia|].
      unfold bulk_add_sanctioned. unfold mbind, M_bind. rewrite Hr.
      apply (same_sanctions_inv _ _ m1); [exact (emit_same _ m1)|done].
  - apply (same_sanctions_inv s n m (run_comp_op op m).2) in Hinv; [|by apply other_ops_same].
    destruct op; try discriminate Ht; cbn; by rewrite N.add_0_r.
Qed.

Lemma comp_ops_inv ops s n m :
  sanctions_inv s n m → n + sum_of additions ops <= U64_MAX →
  sanctions_inv (foldl sanction_ref s ops) (n + sum_of additions ops) (run_comp_ops ops m).
Proof.
  revert s n m. induction ops as [|op ops IH]; intros s n m Hinv Hn; cbn in *.
  - by rewrite N.add_0_r.
  - unfold sum_of in *. rewrite N.add_assoc. apply IH; [|lia]. apply comp_op_inv; [done|lia].
Qed.

Lemma sanctions_inv_new config : sanctions_inv ∅ 0 (ComplianceModule_new config).
Proof.
  split; [apply length_replicate|done|done|]. intros a Ha. by apply elem_of_empty in Ha.
Qed.

Lemma is_sanctioned_ok s n m a :
  sanctions_inv s n m → is_sanctioned m a = Ok (bool_decide (a ∈ s)).
Proof.
  intros [Hb _ Hs Hcov]. unfold is_sanctioned.
  destruct (possibly_contains_ok (cm_sanctions_bloom m) a Hb) as (b & -> & Hcb). cbn.
  rewrite Hs. destruct b; cbn; [done|]. rewrite bool_decide_false; [done|].
  intros Hin. by specialize (Hcb (Hcov a Hin)).
Qed.

(** C35: the Bloom filter is only an optimisation: whatever calls are made on
    a new module (and whichever fail), [is_sanctioned] never panics and answers
    exactly whether the address is in the set obtained by adding and removing
    addresses; no sanctioned address is ever let through by the filter. *)
Theorem sanctions_exact config ops a :
  sum_of additions ops <= U64_MAX →
  is_sanctioned (run_comp_ops ops (ComplianceModule_new config)) a
  = Ok (bool_decide (a ∈ foldl sanction_ref ∅ ops)).
Proof.
  intros Hn. eapply is_sanctioned_ok, (comp_ops_inv ops ∅ 0); [apply sanctions_inv_new|lia].
Qed.
End sanctions.

(** ** The check in closed form *)
Definition grace (c : Certification) (t : N) : bool :=
  negb c.(cert_revoked) && bool_decide (c.(cert_expires_at) <= t)
  && bool_decide (t < c.(cert_expires_at) + CERTIFICATION_GRACE_PERIOD).

Definition cert_counts (m : ComplianceModule) (s : ComplianceStandard) (c : Certification) : bool :=
  bool_decide (c.(cert_standard) = s)
  && (cert_is_valid c m.(cm_current_time)
      || m.(cm_config).(cc_allow_grace_period) && grace c m.(cm_current_time)).

Definition certified (m : ComplianceModule) (e : Address) (s : ComplianceStandard) : bool :=
  existsb (cert_counts m s) (default [] (m.(cm_certifications) !! e)).

Definition requester_violations (m : ComplianceModule) (q : Address) (s : ComplianceStandard)
  : list ViolationType :=
  if certified m q s then [] else
  match List.find (λ c, bool_decide (c.(cert_standard) = s))
          (default [] (m.(cm_certifications) !! q)) with
  | Some c =>
      if grace c m.(cm_current_time) || c.(cert_revoked) then []
      else [VExpiredCertification s q c.(cert_expires_at)]
  | None => [VMissingCertification s q]
  end.

Definition provider_violations (m : ComplianceModule) (p : option Address)
    (s : ComplianceStandard) : list ViolationType :=
  from_option (λ p, if certified m p s then [] else [VMissingCertification s p]) [] p.

Definition cert_violations (m : ComplianceModule) (q : Address) (p : option Address)
    (standards : list ComplianceStandard) : list ViolationType :=
  standards ≫= λ s, if requires_certification s
                    then requester_violations m q s ++ provider_violations m p s else [].

Definition listed (sanctioned : gset Address) (a : Address) : list ViolationType :=
  if bool_decide (a ∈ sanctioned) then [VSanctionedAddress a "OFAC SDN"] else [].

(** All violations of a request. *)
Definition violations_of (m : ComplianceModule) (q : Address) (p : option Address)
    (required : list ComplianceStandard) (j : option string) (amount : TokenAmount)
    (meta : gmap string string) : list ViolationType :=
  let standards := all_standards m required j in
  jurisdiction_violations m j amount
  ++ (if m.(cm_config).(cc_enforce_sanctions)
      then listed m.(cm_sanctioned_addresses) q
           ++ from_option (listed m.(cm_sanctioned_addresses)) [] p else [])
  ++ cert_violations m q p standards
  ++ baa_violations m q p standards ++ consent_violations m q p standards meta
  ++ residency_violations m j meta.

(** The clock does not wrap within a grace period. *)
Definition time_ok (m : ComplianceModule) : Prop :=
  m.(cm_current_time) + CERTIFICATION_GRACE_PERIOD <= U64_MAX.

Section check.
Context `{Build, Crypto, Clock}.

Lemma in_grace_ok m c : time_ok m → in_grace_period c m.(cm_current_time) = Ok (grace c m.(cm_current_time)).
Proof.
  unfold time_ok, in_grace_period, grace. intros Ht.
  destruct (cert_revoked c); cbn; [done|]. case_bool_decide; cbn; [|done].
  by rewrite u_add_ok by lia.
Qed.

Lemma has_valid_ok m e s : time_ok m → has_valid_certification m e s = Ok (certified m e s).
Proof.
  intros Ht. unfold has_valid_certification, certified.
  destruct (cm_certifications m !! e) as [certs|]; cbn; [|done].
  induction certs as [|c certs IH]; cbn; [done|]. unfold cert_counts at 1.
  case_bool_decide; cbn; [|done].
  destruct (cert_is_valid c _); cbn; [done|].
  destruct (cc_allow_grace_period _); cbn; [|done].
  rewrite in_grace_ok by done. cbn. by destruct (grace c _).
Qed.

Lemma requester_check_ok m q s :
  time_ok m → ∃ w, requester_check m q s = Ok (requester_violations m q s, w).
Proof.
  intros Ht. unfold requester_check, requester_violations. rewrite has_valid_ok by done. cbn.
  destruct (certified m q s); cbn; [eauto|].
  destruct (cm_certifications m !! q) as [certs|]; cbn; [|eauto].
  destruct (List.find _ certs) as [c|]; [|eauto].
  rewrite in_grace_ok by done. cbn. destruct (grace c _); cbn; [eauto|].
  destruct (cert_revoked c); cbn; eauto.
Qed.

Lemma provider_check_ok m p s :
  time_ok m → provider_check m p s = Ok (provider_violations m p s).
Proof.
  intros Ht. unfold provider_check, provider_violations.
  destruct p as [p|]; cbn; [|done]. by rewrite has_valid_ok.
Qed.

Lemma certification_checks_ok m q p standards :
  time_ok m → ∃ w, certification_checks m q p standards = Ok (cert_violations m q p standards, w).
Proof.
  intros Ht. induction standards as [|s standards [w IH]]; cbn; [eauto|].
  destruct (requires_certification s); cbn; [|eauto].
  destruct (requester_check_ok m q s Ht) as [w1 ->]. cbn.
  rewrite provider_check_ok by done. cbn. rewrite IH. cbn. rewrite <- app_assoc. eauto.
Qed.

Lemma sanction_violations_ok n m q p :
  sanctions_inv m.(cm_sanctioned_addresses) n m →
  sanction_violations m q p = Ok (if m.(cm_config).(cc_enforce_sanctions)
    then listed m.(cm_sanctioned_addresses) q
         ++ from_option (listed m.(cm_sanctioned_addresses)) [] p else []).
Proof.
  intros Hinv. unfold sanction_violations, sanction_violation.
  destruct (cc_enforce_sanctions _); [|done].
  rewrite (is_sanctioned_ok _ _ _ q Hinv). cbn.
  destruct p as [p|]; cbn; [rewrite (is_sanctioned_ok _ _ _ p Hinv)|]; done.
Qed.

(** Every violation weighs something, so the score is zero only without any. *)
Lemma risk_score_fold vs n :
  n + 100 * N.of_nat (length vs) <= U32_MAX →
  ∃ t, foldl (λ acc v, s ← acc; u_add U32_MAX s (violation_score v)) (Ok (E:=SystemContractError) n) vs
       = Ok t ∧ n + 20 * N.of_nat (length vs) <= t.
Proof.
  revert n. induction vs as [|v vs IH]; intros n Hn; cbn [foldl length] in *; [exists n; split; [done|lia]|].
  assert (20 <= violation_score v <= 100) as Hv by (destruct v as [[]|?|?|?|?|?|?|?|?]; cbn; lia).
  cbn. rewrite u_add_ok by lia. destruct (IH (n + violation_score v)) as (t & -> & Ht); [lia|].
  exists t. split; [done|lia].
Qed.

Lemma risk_score_ok vs :
  vs ≠ [] → 100 * N.of_nat (length vs) <= U32_MAX →
  ∃ t, calculate_risk_score vs = Ok t ∧ 20 <= t <= 100.
Proof.
  intros Hne Hn. unfold calculate_risk_score.
  destruct (risk_score_fold vs 0) as (t & -> & Ht); [lia|]. cbn.
  eexists. split; [done|]. destruct vs; [done|]. cbn in Ht. lia.
Qed.

(** What the module needs for the check to be total. *)
Record check_ready (n : N) (m : ComplianceModule) : Prop := {
  cr_sanctions : sanctions_inv m.(cm_sanctioned_addresses) n m;
  cr_time : time_ok m;
  cr_counter : m.(cm_check_counter) < U64_MAX;
}.

Lemma enforce_run n m q p required j amount meta :
  check_ready n m → m.(cm_config).(cc_enabled) = true →
  100 * N.of_nat (length (violations_of m q p required j amount meta)) <= U32_MAX →
  ∃ res m', enforce q p required j amount meta m = (Ok res, m')
    ∧ res.(ccr_violations) = violations_of m q p required j amount meta
    ∧ res.(ccr_passed) = bool_decide (length (violations_of m q p required j amount meta) = 0%nat)
    ∧ res.(ccr_standards_checked) = all_standards m required j.
Proof.
  intros [Hs Ht Hc] Hen Hlen. unfold enforce, generate_check_id. mrun.
  rewrite u_add_ok by lia. cbn. rewrite Hen. cbn.
  set (m1 := cm_with_meta _ _ _ m).
  assert (sanctions_inv m1.(cm_sanctioned_addresses) n m1) as Hs1 by (by destruct Hs).
  rewrite (sanction_violations_ok n m1 q p Hs1). cbn.
  destruct (certification_checks_ok m1 q p (all_standards m1 required j) Ht) as [w ->]. cbn.
  change (jurisdiction_violations m1 j amount ++ _)
    with (violations_of m q p required j amount meta).
  revert Hlen. generalize (violations_of m q p required j amount meta) as vs. intros vs Hlen.
  case_bool_decide as Hz; cbn.
  - apply length_zero_iff_nil in Hz as ->. do 2 eexists. split; [reflexivity|]. cbn.
    by rewrite (bool_decide_false (_ < 0)) by lia.
  - destruct (risk_score_ok vs) as (t & Hr & Hb); [by intros ->|done|].
    unfold ccr_fail. rewrite Hr. cbn. do 2 eexists. split; [reflexivity|]. done.
Qed.

(** With compliance enabled, the check is total and its verdict is
    exactly the rules: from a module whose sanctions list is consistent (every
    reachable one is, by [comp_ops_inv]), [enforce] returns [Ok], reports
    precisely the violations of the reference [violations_of], and passes if and
    only if there are none.  In particular the configured risk threshold never
    changes a verdict: every violation already fails the check. *)
Lemma enforce_exact n m q p required j amount meta :
  check_ready n m → m.(cm_config).(cc_enabled) = true →
  100 * N.of_nat (length (violations_of m q p required j amount meta)) <= U32_MAX →
  ∃ res m', enforce q p required j amount meta m = (Ok res, m')
    ∧ res.(ccr_violations) = violations_of m q p required j amount meta
    ∧ (res.(ccr_passed) = true ↔ violations_of m q p required j amount meta = []).
Proof.
  intros Hr Hen Hlen. destruct (enforce_run n m q p required j amount meta Hr Hen Hlen)
    as (res & m' & Hrun & Hv & Hp & _).
  exists res, m'. split_and!; [done|done|]. rewrite Hp, bool_decide_eq_true.
  by rewrite length_zero_iff_nil.
Qed.

(** What a passed check implies about the request. *)
Record request_cleared (m : ComplianceModule) (q : Address) (p : option Address)
    (required : list ComplianceStandard) (j : option string) (amount : TokenAmount)
    (meta : gmap string string) : Prop := {
  rc_sanctions : m.(cm_config).(cc_enforce_sanctions) = true →
    (q ∉ m.(cm_sanctioned_addresses)) ∧ (∀ a, p = Some a → a ∉ m.(cm_sanctioned_addresses));
  rc_jurisdiction : ∀ code jc, j = Some code → m.(cm_jurisdictions) !! code = Some jc →
    jc.(jur_blocked) = false ∧ amount <= jc.(jur_aml_threshold);
  rc_provider : ∀ s a, s ∈ all_standards m required j → requires_certification s = true →
    p = Some a → certified m a s = true;
  rc_requester : ∀ s, s ∈ all_standards m required j → requires_certification s = true →
    certified m q s = true
    ∨ (∃ c, c ∈ default [] (m.(cm_certifications) !! q) ∧ c.(cert_standard) = s
        ∧ (grace c m.(cm_current_time) = true ∨ c.(cert_revoked) = true));
  rc_baa : ∀ a, HipaaUs ∈ all_standards m required j → p = Some a → q ≠ a → has_baa m q a = true;
  rc_consent : ∀ a, GdprEu ∈ all_standards m required j ∨ CcpaCa ∈ all_standards m required j →
    p = Some a → has_consent m a q (default "ai_computation" (meta !! "purpose")) = true;
}.

Lemma cert_violations_nil m q p standards s :
  cert_violations m q p standards = [] → s ∈ standards → requires_certification s = true →
  requester_violations m q s = [] ∧ provider_violations m p s = [].
Proof.
  unfold cert_violations. intros Hnil Hin Hreq.
  induction standards as [|x standards IH]; [by apply not_elem_of_nil in Hin|].
  cbn in Hnil. apply app_eq_nil in Hnil as [Hx Hrest].
  apply elem_of_cons in Hin as [->|Hin]; [|by apply IH].
  rewrite Hreq in Hx. by apply app_eq_nil in Hx.
Qed.

Lemma listed_nil S a : listed S a = [] → a ∉ S.
Proof. unfold listed. by case_bool_decide. Qed.

Lemma requester_violations_nil m q s :
  requester_violations m q s = [] →
  certified m q s = true
  ∨ ∃ c, c ∈ default [] (m.(cm_certifications) !! q) ∧ c.(cert_standard) = s
      ∧ (grace c m.(cm_current_time) = true ∨ c.(cert_revoked) = true).
Proof.
  unfold requester_violations. destruct (certified m q s); [by left|].
  destruct (List.find _ _) as [c|] eqn:Hf; [|done]. apply List.find_some in Hf as [Hin Hs].
  bool_facts. destruct (_ || _) eqn:Hor; [|done]. intros _. right. exists c.
  apply list_elem_of_In in Hin. apply orb_true_iff in Hor. done.
Qed.

Lemma violations_nil_cleared m q p required j amount meta :
  violations_of m q p required j amount meta = [] →
  request_cleared m q p required j amount meta.
Proof.
  unfold violations_of. intros Hv.
  repeat (apply app_eq_nil in Hv as [? Hv]).
  match goal with Hj : jurisdiction_violations _ _ _ = [] |- _ => rename Hj into Hjur end.
  match goal with Hc : cert_violations _ _ _ _ = [] |- _ => rename Hc into Hcert end.
  split.
  - intros He. rewrite He in *.
    match goal with Hl : listed _ _ ++ _ = [] |- _ => apply app_eq_nil in Hl as [Hq Hp] end.
    split; [by apply listed_nil|]. intros a ->. by apply listed_nil.
  - intros code jc -> Hjc. unfold jurisdiction_violations in Hjur. rewrite Hjc in Hjur.
    apply app_eq_nil in Hjur as [Hb Ha]. split; [by destruct (jur_blocked jc)|].
    case_bool_decide; [done|lia].
  - intros s a Hs Hreq ->. destruct (cert_violations_nil _ _ _ _ s Hcert Hs Hreq) as [_ Hp].
    cbn in Hp. by destruct (certified m a s).
  - intros s Hs Hreq. destruct (cert_violations_nil _ _ _ _ s Hcert Hs Hreq) as [Hq _].
    by apply requester_violations_nil.
  - intros a Hh -> Hne.
    match goal with Hb : baa_violations _ _ _ _ = [] |- _ =>
      unfold baa_violations in Hb; rewrite bool_decide_true in Hb by done;
      rewrite (bool_decide_false (q = a)) in Hb by done end.
    by destruct (has_baa m q a).
  - intros a Hs ->.
    match goal with Hb : consent_violations _ _ _ _ _ = [] |- _ => unfold consent_violations in Hb;
      revert Hb end.
    destruct (has_consent m a q _); [done|].
    destruct Hs as [Hs|Hs]; [rewrite (bool_decide_true (GdprEu ∈ _)) by done
      |rewrite (bool_decide_true (CcpaCa ∈ _)) by done; rewrite orb_true_r]; done.
Qed.

(** A passed check clears the request: neither party is sanctioned (where
    sanctions are enforced), the jurisdiction is not blocked and the amount
    within its threshold, the data provider holds a valid certification for
    every standard that needs one, has an agreement with the requester under
    HIPAA and has consented under GDPR and CCPA; the requester holds a
    certification record for every such standard, which is valid, in its grace
    period, or revoked. *)
Lemma passed_check_clears n m q p required j amount meta res m' :
  check_ready n m → m.(cm_config).(cc_enabled) = true →
  100 * N.of_nat (length (violations_of m q p required j amount meta)) <= U32_MAX →
  enforce q p required j amount meta m = (Ok res, m') → res.(ccr_passed) = true →
  request_cleared m q p required j amount meta.
Proof.
  intros Hr Hen Hlen Hrun Hpass.
  destruct (enforce_run n m q p required j amount meta Hr Hen Hlen) as (res' & m'' & Hrun' & _ & Hp & _).
  rewrite Hrun in Hrun'. injection Hrun' as <- <-. rewrite Hpass in Hp. symmetry in Hp.
  apply bool_decide_eq_true, length_zero_iff_nil in Hp. by apply violations_nil_cleared.
Qed.
End check.

(** ** Revocation *)
Section revocation.
Context `{Build, Crypto, Clock}.

(** The fields of the module that decide a check, apart from the certifications. *)
Definition same_rules (m m' : ComplianceModule) : Prop :=
  m'.(cm_config) = m.(cm_config) ∧ m'.(cm_sanctioned_addresses) = m.(cm_sanctioned_addresses)
  ∧ m'.(cm_current_time) = m.(cm_current_time)
  ∧ m'.(cm_check_counter) = m.(cm_check_counter).

Lemma revoke_run e s reason m m' :
  revoke_certification e s reason m = (Ok tt, m') →
  ∃ certs certs', m.(cm_certifications) !! e = Some certs
    ∧ update_first (λ c, bool_decide (c.(cert_standard) = s)) (cert_revoke reason) certs
      = Some certs'
    ∧ m'.(cm_certifications) !! e = Some certs' ∧ same_rules m m'.
Proof.
  unfold revoke_certification, emit_event. mrun.
  destruct (cm_certifications m !! e) as [certs|]; cbn; [|done].
  destruct (update_first _ _ _) as [certs'|] eqn:Hu; cbn; [|done].
  intros [= <-]. exists certs, certs'.
  destruct (cc_audit_logging _); cbn; rewrite lookup_insert_eq; unfold same_rules; by split_and!.
Qed.

(** Every certification of standard [s] that is left is revoked, and the
    lookup of [enforce] finds one. *)
Lemma revoked_all s reason certs certs' :
  NoDup (cert_standard <$> certs) →
  update_first (λ c, bool_decide (c.(cert_standard) = s)) (cert_revoke reason) certs
    = Some certs' →
  (∀ c, c ∈ certs' → c.(cert_standard) = s → c.(cert_revoked) = true)
  ∧ ∃ c, List.find (λ c, bool_decide (c.(cert_standard) = s)) certs' = Some c
      ∧ c.(cert_revoked) = true.
Proof.
  revert certs'. induction certs as [|c certs IH]; intros certs' Hnd; cbn in *; [done|].
  apply NoDup_cons in Hnd as [Hnew Hnd]. case_bool_decide as Hc.
  - intros [= <-]. split.
    + intros c' [->|Hin]%elem_of_cons Hs; [done|]. destruct Hnew. rewrite Hc, <- Hs.
      by apply list_elem_of_fmap_2.
    + exists (cert_revoke reason c). cbn. by rewrite bool_decide_true.
  - destruct (update_first _ _ certs) as [l|] eqn:Hu; cbn; [|done]. intros [= <-].
    destruct (IH l Hnd eq_refl) as [Hall Hf]. split.
    + intros c' [->|Hin]%elem_of_cons Hs; [done|]. by apply Hall.
    + cbn. by rewrite bool_decide_false.
Qed.

Lemma revoked_not_certified m e s certs :
  m.(cm_certifications) !! e = Some certs →
  (∀ c, c ∈ certs → c.(cert_standard) = s → c.(cert_revoked) = true) →
  certified m e s = false.
Proof.
  intros Hc Hall. unfold certified. rewrite Hc. cbn.
  apply not_true_iff_false. rewrite existsb_exists. intros (c & Hin%list_elem_of_In & Hcnt).
  unfold cert_counts, cert_is_valid, grace in Hcnt. apply andb_true_iff in Hcnt as [Hs Hv].
  bool_facts. rewrite (Hall c Hin Hs) in Hv. cbn in Hv. by rewrite andb_false_r in Hv.
Qed.

Lemma all_standards_one m s :
  all_standards m [s] None
  = if bool_decide (s ∈ m.(cm_config).(cc_default_standards))
    then m.(cm_config).(cc_default_standards) else m.(cm_config).(cc_default_standards) ++ [s].
Proof. done. Qed.

Lemma cert_violations_single m q s standards :
  requester_violations m q s = [] →
  (∀ d, d ∈ standards → d ≠ s → requires_certification d = false) →
  cert_violations m q None standards = [].
Proof.
  intros Hs Hd. unfold cert_violations.
  induction standards as [|d standards IH]; [done|].
  rewrite bind_cons, IH by (intros; apply Hd; [apply elem_of_cons|]; auto).
  cbn. rewrite !app_nil_r. destruct (decide (d = s)) as [->|Hne].
  - destruct (requires_certification s); [by rewrite Hs|done].
  - by rewrite Hd by (done || apply elem_of_cons; auto).
Qed.

(** Revocation does not stop its subject: after a successful
    [revoke_certification], the entity has no valid certification of the
    standard, yet a check of a request of its own that requires this standard
    passes without any violation: the branch of [enforce] for a certification
    that exists but is neither valid nor in its grace period reports it only
    when it is not revoked. *)
Lemma revoked_certificate_passes n m e s reason certs m1 amount meta :
  check_ready n m → m.(cm_config).(cc_enabled) = true →
  m.(cm_certifications) !! e = Some certs → NoDup (cert_standard <$> certs) →
  (∀ d, d ∈ m.(cm_config).(cc_default_standards) → d ≠ s → requires_certification d = false) →
  e ∉ m.(cm_sanctioned_addresses) →
  revoke_certification e s reason m = (Ok tt, m1) →
  has_valid_certification m1 e s = Ok false
  ∧ ∃ res m2, enforce e None [s] None amount meta m1 = (Ok res, m2)
      ∧ res.(ccr_passed) = true ∧ res.(ccr_violations) = []
      ∧ s ∈ res.(ccr_standards_checked).
Proof.
  intros [Hsi Ht Hcnt] Hen Hcerts Hnd Hdef Hns Hrun.
  pose proof (other_ops_same (OpRevokeCertification e s reason) eq_refl m) as Hsame.
  cbn in Hsame. rewrite Hrun in Hsame.
  destruct (revoke_run _ _ _ _ _ Hrun) as (cs & certs' & Hcs & Hu & Hcerts1 & Hcfg & Hsa & Htm & Hc).
  rewrite Hcerts in Hcs. injection Hcs as <-.
  destruct (revoked_all s reason certs certs' Hnd Hu) as (Hall & c & Hfind & Hrev).
  assert (time_ok m1) as Ht1 by (unfold time_ok in *; by rewrite Htm).
  pose proof (revoked_not_certified m1 e s certs' Hcerts1 Hall) as Hnot.
  split; [by rewrite has_valid_ok, Hnot|].
  assert (check_ready n m1) as Hr1.
  { split; [|done|by rewrite Hc]. rewrite Hsa. by apply (same_sanctions_inv _ _ m). }
  assert (violations_of m1 e None [s] None amount meta = []) as Hv.
  { unfold violations_of. cbn [jurisdiction_violations from_option baa_violations
      consent_violations residency_violations mbind option_bind app].
    rewrite (cert_violations_single m1 e s).
    - unfold listed. rewrite Hsa, bool_decide_false by done. by destruct (cc_enforce_sanctions _).
    - unfold requester_violations. rewrite Hnot, Hcerts1. cbn. rewrite Hfind, Hrev.
      by rewrite orb_true_r.
    - intros d. rewrite all_standards_one, Hcfg. case_bool_decide; [by apply Hdef|].
      intros [Hd|Hd%list_elem_of_singleton]%elem_of_app Hne; [by apply Hdef|done]. }
  destruct (enforce_run n m1 e None [s] None amount meta Hr1) as (res & m2 & Hres & Hvs & Hp & Hstd);
    [by rewrite Hcfg|rewrite Hv; cbn; lia|].
  exists res, m2. rewrite Hv in Hvs, Hp. split_and!; [done|done|done|].
  clear Hp. rewrite Hstd, all_standards_one. case_bool_decide; [done|].
  apply elem_of_app. right. by apply list_elem_of_singleton.
Qed.
End revocation.

(** ** Witnesses *)
Definition dev_clock : Clock := {| system_time := λ _, 0 |}.

#[local] Existing Instances dev_build dev_crypto dev_clock.

Definition dev_cert (who : Address) (s : ComplianceStandard) : Certification := {|
  cert_standard := s; cert_entity_did := Did_from_address who; cert_entity_address := who;
  cert_issuer := Did_from_address alice; cert_level := 4; cert_issued_at := 0;
  cert_expires_at := 1000; cert_document_hash := bytes32 0; cert_metadata := ∅;
  cert_revoked := false; cert_revocation_reason := None |}.

(** A main-network module with one sanctioned address and two certified ones. *)
Definition dev_comp_ops : list ComplianceOp :=
  [OpSanction (bytes32 66) "OFAC SDN"; OpAddCertification (dev_cert alice GdprEu);
   OpAddCertification (dev_cert prover GdprEu)].

Definition dev_compliance : ComplianceModule :=
  run_comp_ops dev_comp_ops (ComplianceModule_new ComplianceConfig_mainnet).

Lemma dev_comp_ready : check_ready 1 dev_compliance.
Proof.
  split.
  - replace (cm_sanctioned_addresses dev_compliance)
      with (foldl sanction_ref ∅ dev_comp_ops) by (vm_compute; reflexivity).
    apply (comp_ops_inv dev_comp_ops ∅ 0); [apply sanctions_inv_new|vm_compute; discriminate].
  - vm_compute. discriminate.
  - vm_compute. reflexivity.
Qed.

Lemma sanctions_exact_witness :
  is_sanctioned (run_comp_ops [OpSanction alice "a"; OpSanction prover "b"; OpUnsanction alice]
    (ComplianceModule_new ComplianceConfig_mainnet)) prover = Ok true.
Proof.
  rewrite (sanctions_exact ComplianceConfig_mainnet
    [OpSanction alice "a"; OpSanction prover "b"; OpUnsanction alice] prover);
    [vm_compute; reflexivity|vm_compute; discriminate].
Defined.

(** The provider is certified, and has not consented. *)
Lemma enforce_exact_witness :
  ∃ res m', enforce alice (Some prover) [GdprEu] None 5 ∅ dev_compliance = (Ok res, m')
    ∧ res.(ccr_violations) = [VMissingConsent prover "ai_computation"].
Proof.
  destruct (enforce_exact 1 dev_compliance alice (Some prover) [GdprEu] None 5 ∅ dev_comp_ready)
    as (res & m' & Hrun & Hv & _).
  - vm_compute. reflexivity.
  - vm_compute. discriminate.
  - exists res, m'. split; [exact Hrun|]. rewrite Hv. vm_compute. reflexivity.
Defined.

Lemma passed_check_clears_witness :
  request_cleared dev_compliance alice None [GdprEu] None 5 ∅.
Proof.
  destruct (enforce_run 1 dev_compliance alice None [GdprEu] None 5 ∅ dev_comp_ready)
    as (res & m' & Hrun & Hv & Hp & _).
  - vm_compute. reflexivity.
  - vm_compute. discriminate.
  - apply (passed_check_clears 1 dev_compliance alice None [GdprEu] None 5 ∅ res m' dev_comp_ready).
    + vm_compute. reflexivity.
    + vm_compute. discriminate.
    + exact Hrun.
    + rewrite Hp. vm_compute. reflexivity.
Defined.

Lemma revoked_certificate_passes_witness :
  let m1 := (revoke_certification alice GdprEu "fraud" dev_compliance).2 in
  has_valid_certification m1 alice GdprEu = Ok false
  ∧ ∃ res m2, enforce alice None [GdprEu] None 5 ∅ m1 = (Ok res, m2) ∧ res.(ccr_passed) = true.
Proof.
  destruct (revoked_certificate_passes 1 dev_compliance alice GdprEu "fraud"
    [dev_cert alice GdprEu] (revoke_certification alice GdprEu "fraud" dev_compliance).2 5 ∅
    dev_comp_ready) as (Hv & res & m2 & Hrun & Hp & _).
  - vm_compute. reflexivity.
  - vm_compute. reflexivity.
  - apply (bool_decide_unpack _). vm_compute. exact I.
  - intros d Hd Hne. change (d ∈ [OfacSanctions]) in Hd.
    apply list_elem_of_singleton in Hd as ->. reflexivity.
  - apply (bool_decide_unpack _). vm_compute. exact I.
  - vm_compute. reflexivity.
  - split; [exact Hv|]. exists res, m2. split; [exact Hrun|exact Hp].
Defined.
