(* ===== verification/Tokenomics.v ===== *)
(** * Token economics

    [crates/vm/src/system_contracts/tokenomics.rs]: the genesis allocation
    table, vesting schedules and positions, the adaptive burn engine, the mining
    emission schedule and the manager that coordinates them.

    A [Duration] is its number of seconds.  A [TokenAmount] is a [u128], a time a
    [u64]; differences the code takes under a guard that makes them non-negative
    are plain. *)
From S2P Require Import Prelude SysTypes.
From stdpp Require Import base gmap list strings.
From Stdlib Require Import ZArith.
#[local] Open Scope N_scope.

(** ** Constants *)
Definition DECIMALS : N := 18.
Definition ONE_AETHEL : TokenAmount := 1000000000000000000.
Definition UAETHEL_TO_WEI_SCALE : TokenAmount := 1000000000000.
Definition TOTAL_GENESIS_SUPPLY : TokenAmount := 10000000000 * ONE_AETHEL.
Definition COMPUTE_POUW_POOL : TokenAmount := 3000000000 * ONE_AETHEL.
Definition CORE_CONTRIBUTORS_POOL : TokenAmount := 2000000000 * ONE_AETHEL.
Definition ECOSYSTEM_GRANTS_POOL : TokenAmount := 1500000000 * ONE_AETHEL.
Definition STRATEGIC_SEED_POOL : TokenAmount := 550000000 * ONE_AETHEL.
Definition PUBLIC_SALES_POOL : TokenAmount := 750000000 * ONE_AETHEL.
Definition AIRDROP_SEALS_POOL : TokenAmount := 700000000 * ONE_AETHEL.
Definition TREASURY_MM_POOL : TokenAmount := 600000000 * ONE_AETHEL.
Definition INSURANCE_FUND_POOL : TokenAmount := 500000000 * ONE_AETHEL.
Definition CONTINGENCY_RESERVE_POOL : TokenAmount := 400000000 * ONE_AETHEL.
Definition HALVING_INTERVAL_SECS : N := 4 * 365 * 24 * 60 * 60.
Definition TOTAL_EMISSION_DURATION_SECS : N := 50 * 365 * 24 * 60 * 60.
Definition TOK_MIN_BURN_RATE_BPS : N := 500.
Definition TOK_MAX_BURN_RATE_BPS : N := 2000.
Definition SECONDS_PER_YEAR : N := 365 * 24 * 60 * 60.

(** ** Allocation categories *)
Inductive AllocationCategory :=
| ComputePoUW | CoreContributors | EcosystemGrants | StrategicSeed | PublicSales | AirdropSeals
| TreasuryMM | InsuranceFund | ContingencyReserve.

#[export] Instance AllocationCategory_eq_dec : EqDecision AllocationCategory.
Proof. solve_decision. Defined.

Definition all_categories : list AllocationCategory :=
  [ComputePoUW; CoreContributors; EcosystemGrants; StrategicSeed; PublicSales; AirdropSeals;
   TreasuryMM; InsuranceFund; ContingencyReserve].

Definition category_index (c : AllocationCategory) : nat :=
  match c with
  | ComputePoUW => 0 | CoreContributors => 1 | EcosystemGrants => 2 | StrategicSeed => 3
  | PublicSales => 4 | AirdropSeals => 5 | TreasuryMM => 6 | InsuranceFund => 7
  | ContingencyReserve => 8
  end.

#[export] Instance AllocationCategory_countable : Countable AllocationCategory.
Proof.
  refine (inj_countable category_index (λ n, all_categories !! n) _).
  intros []; reflexivity.
Defined.

Definition total_allocation (c : AllocationCategory) : TokenAmount :=
  match c with
  | ComputePoUW => COMPUTE_POUW_POOL
  | CoreContributors => CORE_CONTRIBUTORS_POOL
  | EcosystemGrants => ECOSYSTEM_GRANTS_POOL
  | StrategicSeed => STRATEGIC_SEED_POOL
  | PublicSales => PUBLIC_SALES_POOL
  | AirdropSeals => AIRDROP_SEALS_POOL
  | TreasuryMM => TREASURY_MM_POOL
  | InsuranceFund => INSURANCE_FUND_POOL
  | ContingencyReserve => CONTINGENCY_RESERVE_POOL
  end.

Definition percentage_bps (c : AllocationCategory) : N :=
  match c with
  | ComputePoUW => 3000
  | CoreContributors => 2000
  | EcosystemGrants => 1500
  | StrategicSeed => 550
  | PublicSales => 750
  | AirdropSeals => 700
  | TreasuryMM => 600
  | InsuranceFund => 500
  | ContingencyReserve => 400
  end.

Inductive VestingSchedule :=
| ImmediateVesting
| LinearVesting (cliff duration tge_percent : N)
| EmissionVesting (halving_interval total_duration : N)
| DaoControlled
| StrategicVesting.

Definition vesting_schedule (c : AllocationCategory) : VestingSchedule :=
  match c with
  | ComputePoUW => LinearVesting 0 (10 * SECONDS_PER_YEAR) 0
  | CoreContributors => LinearVesting (SECONDS_PER_YEAR / 2) (4 * SECONDS_PER_YEAR) 0
  | EcosystemGrants => LinearVesting (SECONDS_PER_YEAR / 2) (9 * SECONDS_PER_YEAR / 2) 2
  | StrategicSeed => LinearVesting SECONDS_PER_YEAR (3 * SECONDS_PER_YEAR) 0
  | PublicSales => LinearVesting 0 (3 * SECONDS_PER_YEAR / 2) 20
  | AirdropSeals => LinearVesting 0 SECONDS_PER_YEAR 25
  | TreasuryMM => LinearVesting 0 (3 * SECONDS_PER_YEAR) 25
  | InsuranceFund => LinearVesting 0 (5 * SECONDS_PER_YEAR / 2) 10
  | ContingencyReserve => LinearVesting SECONDS_PER_YEAR (5 * SECONDS_PER_YEAR) 0
  end.

Section tokenomics.
Context `{Build}.

(** ** Vesting *)

(** [for period in 0..full_periods]: from the period [period], [n] rounds. *)
Fixpoint sum_periods {E} (n : nat) (period : N) (current_emission total_emitted : TokenAmount)
  : outcome E TokenAmount :=
  match n with
  | O => Ok total_emitted
  | S n =>
      let current_emission :=
        if bool_decide (0 < period) then current_emission / 2 else current_emission in
      total_emitted ← u_add U128_MAX total_emitted current_emission;
      sum_periods n (period + 1) current_emission total_emitted
  end.

Definition calculate_emission_vested {E} (total_pool : TokenAmount)
  (elapsed_secs halving_interval total_duration : N) : outcome E TokenAmount :=
  if bool_decide (total_duration <= elapsed_secs) then Ok total_pool else
  full_periods ← u_div elapsed_secs halving_interval;
  remaining_in_period ← u_rem elapsed_secs halving_interval;
  let initial_period_emission := total_pool / 4 in
  total_emitted ← sum_periods (N.to_nat full_periods) 0 initial_period_emission 0;
  total_emitted ←
    (if bool_decide (0 < remaining_in_period) && bool_decide (full_periods < 13) then
       let period_emission :=
         if bool_decide (full_periods = 0) then initial_period_emission
         else initial_period_emission / N.shiftl 1 full_periods in
       product ← u_mul U128_MAX period_emission remaining_in_period;
       partial ← u_div product halving_interval;
       u_add U128_MAX total_emitted partial
     else Ok total_emitted);
  Ok (N.min total_emitted total_pool).

Definition vested_amount {E} (s : VestingSchedule) (total_amount : TokenAmount)
  (start_time current_time : N) : outcome E TokenAmount :=
  if bool_decide (current_time <= start_time) then
    match s with
    | ImmediateVesting => Ok total_amount
    | LinearVesting _ _ tge_percent =>
        product ← u_mul U128_MAX total_amount tge_percent; Ok (product / 100)
    | _ => Ok 0
    end
  else
  let elapsed := current_time - start_time in
  match s with
  | ImmediateVesting => Ok total_amount
  | LinearVesting cliff duration tge_percent =>
      product ← u_mul U128_MAX total_amount tge_percent;
      let tge_amount := product / 100 in
      vesting_amount ← u_sub U128_MAX total_amount tge_amount;
      if bool_decide (elapsed < cliff) then Ok tge_amount
      else if bool_decide (duration <= elapsed) then Ok total_amount
      else
        let vesting_elapsed := elapsed - cliff in
        let vesting_duration := duration - cliff in
        product ← u_mul U128_MAX vesting_amount vesting_elapsed;
        vested ← u_div product vesting_duration;
        u_add U128_MAX tge_amount vested
  | EmissionVesting halving_interval total_duration =>
      calculate_emission_vested total_amount elapsed halving_interval total_duration
  | DaoControlled | StrategicVesting => Ok 0
  end.

Record VestingPosition := {
  vp_id : N;
  vp_beneficiary : Address;
  vp_total_amount : TokenAmount;
  vp_claimed_amount : TokenAmount;
  vp_category : AllocationCategory;
  vp_custom_schedule : option VestingSchedule;
  vp_start_time : N;
  vp_revocable : bool;
  vp_revoked : bool;
  vp_revoked_at : option N;
}.

Definition vp_with_claimed (claimed : TokenAmount) (p : VestingPosition) : VestingPosition := {|
  vp_id := p.(vp_id); vp_beneficiary := p.(vp_beneficiary);
  vp_total_amount := p.(vp_total_amount); vp_claimed_amount := claimed;
  vp_category := p.(vp_category); vp_custom_schedule := p.(vp_custom_schedule);
  vp_start_time := p.(vp_start_time); vp_revocable := p.(vp_revocable);
  vp_revoked := p.(vp_revoked); vp_revoked_at := p.(vp_revoked_at) |}.

Definition vp_revoke (time : N) (p : VestingPosition) : VestingPosition := {|
  vp_id := p.(vp_id); vp_beneficiary := p.(vp_beneficiary);
  vp_total_amount := p.(vp_total_amount); vp_claimed_amount := p.(vp_claimed_amount);
  vp_category := p.(vp_category); vp_custom_schedule := p.(vp_custom_schedule);
  vp_start_time := p.(vp_start_time); vp_revocable := p.(vp_revocable);
  vp_revoked := true; vp_revoked_at := Some time |}.

Definition vp_schedule (p : VestingPosition) : VestingSchedule :=
  default (vesting_schedule p.(vp_category)) p.(vp_custom_schedule).

Definition position_vested_amount {E} (p : VestingPosition) (current_time : N)
  : outcome E TokenAmount :=
  if p.(vp_revoked) then
    let effective_time := default current_time p.(vp_revoked_at) in
    vested_amount (vp_schedule p) p.(vp_total_amount) p.(vp_start_time) effective_time
  else vested_amount (vp_schedule p) p.(vp_total_amount) p.(vp_start_time) current_time.

Definition claimable_amount {E} (p : VestingPosition) (current_time : N) : outcome E TokenAmount :=
  vested ← position_vested_amount p current_time;
  Ok (sat_sub vested p.(vp_claimed_amount)).

(** [claim]: the claimed amount and the position after it. *)
Definition claim {E} (p : VestingPosition) (current_time : N)
  : outcome E (TokenAmount * VestingPosition) :=
  claimable ← claimable_amount p current_time;
  claimed ← u_add U128_MAX p.(vp_claimed_amount) claimable;
  Ok (claimable, vp_with_claimed claimed p).

(** ** The burn engine *)
Record BurnConfig := {
  bcf_min_burn_rate_bps : N;
  bcf_max_burn_rate_bps : N;
  bcf_curve_exponent : N;
  bcf_smoothing_factor : N;
}.

Definition BurnConfig_default : BurnConfig := {|
  bcf_min_burn_rate_bps := TOK_MIN_BURN_RATE_BPS;
  bcf_max_burn_rate_bps := TOK_MAX_BURN_RATE_BPS;
  bcf_curve_exponent := 2;
  bcf_smoothing_factor := 50 |}.

Record AdaptiveBurnEngine := {
  be_config : BurnConfig;
  be_current_rate_bps : N;
  be_total_burned : TokenAmount;
  be_epoch_burned : TokenAmount;
  be_avg_utilization_bps : N;
  be_block_count : N;
}.

Definition AdaptiveBurnEngine_new (config : BurnConfig) : AdaptiveBurnEngine := {|
  be_config := config;
  be_current_rate_bps := config.(bcf_min_burn_rate_bps);
  be_total_burned := 0; be_epoch_burned := 0; be_avg_utilization_bps := 0; be_block_count := 0 |}.

(** The loop that raises [x] to the exponent, saturating at 64 bits. *)
Fixpoint sat_pow (n : nat) (x acc : N) : N :=
  match n with O => acc | S n => sat_pow n x (sat_mul U64_MAX acc x) end.

Definition tok_calculate_burn_rate {E} (c : BurnConfig) (block_fullness_bps : N) : outcome E N :=
  range ← u_sub U16_MAX c.(bcf_max_burn_rate_bps) c.(bcf_min_burn_rate_bps);
  let scale := 10000 in
  let numerator := sat_pow (N.to_nat c.(bcf_curve_exponent)) block_fullness_bps 1 in
  let denominator := sat_pow (N.to_nat c.(bcf_curve_exponent)) scale 1 in
  product ← u_mul U128_MAX range numerator;
  quotient ← u_div product denominator;
  u_add U16_MAX c.(bcf_min_burn_rate_bps) (cast U16_MAX quotient).

Definition tok_calculate_burn {E} (e : AdaptiveBurnEngine) (fee_amount : TokenAmount)
  (block_fullness_bps : N) : outcome E TokenAmount :=
  burn_rate ← tok_calculate_burn_rate e.(be_config) block_fullness_bps;
  product ← u_mul U128_MAX fee_amount burn_rate;
  Ok (product / 10000).

Definition be_with (rate burned epoch avg blocks : N) (e : AdaptiveBurnEngine)
  : AdaptiveBurnEngine := {|
  be_config := e.(be_config); be_current_rate_bps := rate; be_total_burned := burned;
  be_epoch_burned := epoch; be_avg_utilization_bps := avg; be_block_count := blocks |}.

(** [update_block]; the average is stored before the rate is computed. *)
Definition engine_update_block (gas_used gas_limit : N)
  : M SystemContractError AdaptiveBurnEngine unit :=
  fullness_bps ← (if bool_decide (0 < gas_limit) then
                    product ← lift (u_mul U128_MAX gas_used 10000);
                    quotient ← lift (u_div product gas_limit);
                    mret (cast U16_MAX quotient)
                  else mret 0);
  e ← get;
  let smoothing := e.(be_config).(bcf_smoothing_factor) in
  rest ← lift (u_sub U32_MAX 100 smoothing);
  old ← lift (u_mul U32_MAX e.(be_avg_utilization_bps) rest);
  new ← lift (u_mul U32_MAX fullness_bps smoothing);
  sum ← lift (u_add U32_MAX old new);
  let avg := cast U16_MAX (sum / 100) in
  modify (λ e, be_with e.(be_current_rate_bps) e.(be_total_burned) e.(be_epoch_burned) avg
                 e.(be_block_count) e) ;;
  rate ← lift (tok_calculate_burn_rate e.(be_config) avg);
  modify (λ e, be_with rate e.(be_total_burned) e.(be_epoch_burned) e.(be_avg_utilization_bps)
                 e.(be_block_count) e) ;;
  blocks ← lift (u_add U64_MAX e.(be_block_count) 1);
  modify (λ e, be_with e.(be_current_rate_bps) e.(be_total_burned) e.(be_epoch_burned)
                 e.(be_avg_utilization_bps) blocks e).

Definition engine_record_burn (amount : TokenAmount)
  : M SystemContractError AdaptiveBurnEngine unit :=
  e ← get;
  total ← lift (u_add U128_MAX e.(be_total_burned) amount);
  modify (λ e, be_with e.(be_current_rate_bps) total e.(be_epoch_burned)
                 e.(be_avg_utilization_bps) e.(be_block_count) e) ;;
  epoch ← lift (u_add U128_MAX e.(be_epoch_burned) amount);
  modify (λ e, be_with e.(be_current_rate_bps) e.(be_total_burned) epoch
                 e.(be_avg_utilization_bps) e.(be_block_count) e).

Definition engine_reset_epoch (e : AdaptiveBurnEngine) : AdaptiveBurnEngine :=
  be_with e.(be_current_rate_bps) e.(be_total_burned) 0 e.(be_avg_utilization_bps)
    e.(be_block_count) e.

(** ** Mining emission *)
Record EmissionCalculator := {
  ec_total_pool : TokenAmount;
  ec_halving_interval_secs : N;
  ec_total_duration_secs : N;
  ec_genesis_time : N;
  ec_total_emitted : TokenAmount;
  ec_last_calculation_time : N;
}.

Definition EmissionCalculator_new (total_pool : TokenAmount)
  (halving_interval_secs total_duration_secs genesis_time : N) : EmissionCalculator := {|
  ec_total_pool := total_pool; ec_halving_interval_secs := halving_interval_secs;
  ec_total_duration_secs := total_duration_secs; ec_genesis_time := genesis_time;
  ec_total_emitted := 0; ec_last_calculation_time := genesis_time |}.

Definition EmissionCalculator_default_with_genesis (genesis_time : N) : EmissionCalculator :=
  EmissionCalculator_new COMPUTE_POUW_POOL HALVING_INTERVAL_SECS TOTAL_EMISSION_DURATION_SECS
    genesis_time.

Definition current_rate_per_second {E} (c : EmissionCalculator) (current_time : N)
  : outcome E TokenAmount :=
  if bool_decide (current_time < c.(ec_genesis_time)) then Ok 0 else
  let elapsed := current_time - c.(ec_genesis_time) in
  if bool_decide (c.(ec_total_duration_secs) <= elapsed) then Ok 0 else
  initial_rate_per_sec ← u_div (c.(ec_total_pool) / 4) c.(ec_halving_interval_secs);
  halvings ← u_div elapsed c.(ec_halving_interval_secs);
  if bool_decide (13 <= halvings) then Ok 0
  else Ok (N.shiftr initial_rate_per_sec halvings).

Definition block_emission {E} (c : EmissionCalculator) (block_time block_duration_secs : N)
  : outcome E TokenAmount :=
  rate ← current_rate_per_second c block_time;
  u_mul U128_MAX rate block_duration_secs.

Definition total_emissions_at {E} (c : EmissionCalculator) (current_time : N)
  : outcome E TokenAmount :=
  if bool_decide (current_time <= c.(ec_genesis_time)) then Ok 0 else
  vested_amount (EmissionVesting c.(ec_halving_interval_secs) c.(ec_total_duration_secs))
    c.(ec_total_pool) c.(ec_genesis_time) current_time.

Definition calculator_update (current_time : N)
  : M SystemContractError EmissionCalculator TokenAmount :=
  c ← get;
  new_total ← lift (total_emissions_at c current_time);
  let new_emissions := sat_sub new_total c.(ec_total_emitted) in
  put {| ec_total_pool := c.(ec_total_pool);
         ec_halving_interval_secs := c.(ec_halving_interval_secs);
         ec_total_duration_secs := c.(ec_total_duration_secs);
         ec_genesis_time := c.(ec_genesis_time);
         ec_total_emitted := new_total; ec_last_calculation_time := current_time |} ;;
  mret new_emissions.

Definition remaining_emissions (c : EmissionCalculator) : TokenAmount :=
  sat_sub c.(ec_total_pool) c.(ec_total_emitted).

Record EmissionScheduleInfo := {
  esi_total_pool : TokenAmount;
  esi_total_emitted : TokenAmount;
  esi_remaining : TokenAmount;
  esi_current_rate_per_second : TokenAmount;
  esi_current_period : N;
  esi_next_halving_time : N;
  esi_time_to_next_halving : N;
  esi_percent_complete_bps : N;
}.

Definition schedule_info {E} (c : EmissionCalculator) (current_time : N)
  : outcome E EmissionScheduleInfo :=
  let elapsed := sat_sub current_time c.(ec_genesis_time) in
  current_period ← u_div elapsed c.(ec_halving_interval_secs);
  next_period ← u_add U64_MAX current_period 1;
  offset ← u_mul U64_MAX next_period c.(ec_halving_interval_secs);
  next_halving ← u_add U64_MAX c.(ec_genesis_time) offset;
  rate ← current_rate_per_second c current_time;
  product ← u_mul U128_MAX c.(ec_total_emitted) 10000;
  complete ← u_div product c.(ec_total_pool);
  Ok {| esi_total_pool := c.(ec_total_pool); esi_total_emitted := c.(ec_total_emitted);
        esi_remaining := remaining_emissions c; esi_current_rate_per_second := rate;
        esi_current_period := cast U32_MAX current_period; esi_next_halving_time := next_halving;
        esi_time_to_next_halving := sat_sub next_halving current_time;
        esi_percent_complete_bps := cast U16_MAX complete |}.

(** ** The manager *)
Record TokenomicsConfig := {
  tcf_genesis_time : N;
  tcf_burn_config : BurnConfig;
  tcf_adaptive_burn_enabled : bool;
  tcf_min_tx_fee : TokenAmount;
  tcf_prover_fee_bps : N;
  tcf_validator_fee_bps : N;
  tcf_burn_fee_bps : N;
}.

Definition TokenomicsConfig_mainnet : TokenomicsConfig := {|
  tcf_genesis_time := 0; tcf_burn_config := BurnConfig_default;
  tcf_adaptive_burn_enabled := true; tcf_min_tx_fee := 1000000000000;
  tcf_prover_fee_bps := 7000; tcf_validator_fee_bps := 2000; tcf_burn_fee_bps := 1000 |}.

Definition TokenomicsConfig_default : TokenomicsConfig := {|
  tcf_genesis_time := 0; tcf_burn_config := BurnConfig_default;
  tcf_adaptive_burn_enabled := true; tcf_min_tx_fee := 1000000000000;
  tcf_prover_fee_bps := 7000; tcf_validator_fee_bps := 2000; tcf_burn_fee_bps := 1000 |}.

Definition TokenomicsConfig_testnet : TokenomicsConfig := {|
  tcf_genesis_time := 0;
  tcf_burn_config := {| bcf_min_burn_rate_bps := 200; bcf_max_burn_rate_bps := 1000;
    bcf_curve_exponent := bcf_curve_exponent BurnConfig_default;
    bcf_smoothing_factor := bcf_smoothing_factor BurnConfig_default |};
  tcf_adaptive_burn_enabled := true; tcf_min_tx_fee := 100000000000;
  tcf_prover_fee_bps := 7000; tcf_validator_fee_bps := 2000; tcf_burn_fee_bps := 1000 |}.

Definition TokenomicsConfig_devnet : TokenomicsConfig := {|
  tcf_genesis_time := 0; tcf_burn_config := BurnConfig_default;
  tcf_adaptive_burn_enabled := false; tcf_min_tx_fee := 0;
  tcf_prover_fee_bps := 7000; tcf_validator_fee_bps := 2500; tcf_burn_fee_bps := 500 |}.

Record CategoryStats := {
  cs_total_allocated : TokenAmount;
  cs_total_vested : TokenAmount;
  cs_total_claimed : TokenAmount;
  cs_position_count : N;
}.

Definition CategoryStats_default : CategoryStats :=
  {| cs_total_allocated := 0; cs_total_vested := 0; cs_total_claimed := 0; cs_position_count := 0 |}.

Inductive TokenomicsEvent :=
| GenesisInitialized (total_supply circulating locked : TokenAmount)
| VestingPositionCreated (position_id : N) (beneficiary : Address) (amount : TokenAmount)
    (category : AllocationCategory)
| VestingClaimed (position_id : N) (beneficiary : Address) (amount : TokenAmount)
| VestingRevoked (position_id : N) (unvested_returned : TokenAmount)
| MiningEmission (amount total_emitted : TokenAmount)
| HalvingOccurred (period : N) (old_rate new_rate : TokenAmount)
| AdaptiveBurn (amount : TokenAmount) (block_fullness_bps effective_rate_bps : N)
    (total_burned : TokenAmount)
| FeeDistributed (total_fee prover_amount validator_amount burn_amount : TokenAmount)
| BurnRateUpdated (old_rate_bps new_rate_bps utilization_bps : N)
| SupplyUpdated (circulating burned locked : TokenAmount)
| DaoUnlockApproved (recipient : Address) (amount : TokenAmount) (proposal_id : N)
| FoundationDeployment (recipient : Address) (amount : TokenAmount) (purpose : string).

Record TokenomicsManager := {
  tk_config : TokenomicsConfig;
  tk_burn_engine : AdaptiveBurnEngine;
  tk_emission_calculator : EmissionCalculator;
  tk_vesting_positions : gmap N VestingPosition;
  tk_next_position_id : N;
  tk_circulating_supply : TokenAmount;
  tk_total_vesting_locked : TokenAmount;
  tk_category_stats : gmap AllocationCategory CategoryStats;
  tk_events : list TokenomicsEvent;
}.

Abbreviation TokM A := (M SystemContractError TokenomicsManager A).

Definition tk_with (engine : AdaptiveBurnEngine) (calculator : EmissionCalculator)
  (positions : gmap N VestingPosition) (next : N) (circulating locked : TokenAmount)
  (stats : gmap AllocationCategory CategoryStats) (events : list TokenomicsEvent)
  (m : TokenomicsManager) : TokenomicsManager := {|
  tk_config := m.(tk_config); tk_burn_engine := engine; tk_emission_calculator := calculator;
  tk_vesting_positions := positions; tk_next_position_id := next;
  tk_circulating_supply := circulating; tk_total_vesting_locked := locked;
  tk_category_stats := stats; tk_events := events |}.

Definition tk_set_engine (e : AdaptiveBurnEngine) (m : TokenomicsManager) : TokenomicsManager :=
  tk_with e m.(tk_emission_calculator) m.(tk_vesting_positions) m.(tk_next_position_id)
    m.(tk_circulating_supply) m.(tk_total_vesting_locked) m.(tk_category_stats) m.(tk_events) m.
Definition tk_set_calculator (c : EmissionCalculator) (m : TokenomicsManager) : TokenomicsManager :=
  tk_with m.(tk_burn_engine) c m.(tk_vesting_positions) m.(tk_next_position_id)
    m.(tk_circulating_supply) m.(tk_total_vesting_locked) m.(tk_category_stats) m.(tk_events) m.
Definition tk_set_positions (p : gmap N VestingPosition) (m : TokenomicsManager)
  : TokenomicsManager :=
  tk_with m.(tk_burn_engine) m.(tk_emission_calculator) p m.(tk_next_position_id)
    m.(tk_circulating_supply) m.(tk_total_vesting_locked) m.(tk_category_stats) m.(tk_events) m.
Definition tk_set_next (n : N) (m : TokenomicsManager) : TokenomicsManager :=
  tk_with m.(tk_burn_engine) m.(tk_emission_calculator) m.(tk_vesting_positions) n
    m.(tk_circulating_supply) m.(tk_total_vesting_locked) m.(tk_category_stats) m.(tk_events) m.
Definition tk_set_circulating (c : TokenAmount) (m : TokenomicsManager) : TokenomicsManager :=
  tk_with m.(tk_burn_engine) m.(tk_emission_calculator) m.(tk_vesting_positions)
    m.(tk_next_position_id) c m.(tk_total_vesting_locked) m.(tk_category_stats) m.(tk_events) m.
Definition tk_set_locked (l : TokenAmount) (m : TokenomicsManager) : TokenomicsManager :=
  tk_with m.(tk_burn_engine) m.(tk_emission_calculator) m.(tk_vesting_positions)
    m.(tk_next_position_id) m.(tk_circulating_supply) l m.(tk_category_stats) m.(tk_events) m.
Definition tk_set_stats (s : gmap AllocationCategory CategoryStats) (m : TokenomicsManager)
  : TokenomicsManager :=
  tk_with m.(tk_burn_engine) m.(tk_emission_calculator) m.(tk_vesting_positions)
    m.(tk_next_position_id) m.(tk_circulating_supply) m.(tk_total_vesting_locked) s m.(tk_events) m.
Definition tk_push (e : TokenomicsEvent) (m : TokenomicsManager) : TokenomicsManager :=
  tk_with m.(tk_burn_engine) m.(tk_emission_calculator) m.(tk_vesting_positions)
    m.(tk_next_position_id) m.(tk_circulating_supply) m.(tk_total_vesting_locked)
    m.(tk_category_stats) (m.(tk_events) ++ [e]) m.

Definition TokenomicsManager_new (config : TokenomicsConfig) : TokenomicsManager := {|
  tk_config := config;
  tk_burn_engine := AdaptiveBurnEngine_new config.(tcf_burn_config);
  tk_emission_calculator := EmissionCalculator_default_with_genesis config.(tcf_genesis_time);
  tk_vesting_positions := ∅; tk_next_position_id := 1; tk_circulating_supply := 0;
  tk_total_vesting_locked := 0; tk_category_stats := ∅; tk_events := [] |}.

Definition category_stats (m : TokenomicsManager) (category : AllocationCategory) : CategoryStats :=
  default CategoryStats_default (m.(tk_category_stats) !! category).

(** Updates the entry of a category, created with [or_default] when absent. *)
Definition on_stats (category : AllocationCategory) (f : CategoryStats → CategoryStats)
  (m : TokenomicsManager) : TokenomicsManager :=
  tk_set_stats (<[category := f (category_stats m category)]> m.(tk_category_stats)) m.

Definition stats_with (allocated claimed : TokenAmount) (count : N) (s : CategoryStats)
  : CategoryStats :=
  {| cs_total_allocated := allocated; cs_total_vested := s.(cs_total_vested);
     cs_total_claimed := claimed; cs_position_count := count |}.

Definition create_vesting_position (beneficiary : Address) (amount : TokenAmount)
  (category : AllocationCategory) (custom_schedule : option VestingSchedule) (start_time : N)
  (revocable : bool) : TokM N :=
  position_id ← gets tk_next_position_id;
  next ← lift (u_add U64_MAX position_id 1);
  modify (tk_set_next next) ;;
  let position := {|
    vp_id := position_id; vp_beneficiary := beneficiary; vp_total_amount := amount;
    vp_claimed_amount := 0; vp_category := category; vp_custom_schedule := custom_schedule;
    vp_start_time := start_time; vp_revocable := revocable; vp_revoked := false;
    vp_revoked_at := None |} in
  modify (λ m, tk_set_positions (<[position_id := position]> m.(tk_vesting_positions)) m) ;;
  locked ← gets tk_total_vesting_locked;
  locked ← lift (u_add U128_MAX locked amount);
  modify (tk_set_locked locked) ;;
  modify (on_stats category (λ stats, stats)) ;;
  stats ← gets (λ m, category_stats m category);
  allocated ← lift (u_add U128_MAX stats.(cs_total_allocated) amount);
  modify (on_stats category (stats_with allocated stats.(cs_total_claimed)
                               stats.(cs_position_count))) ;;
  count ← lift (u_add U64_MAX stats.(cs_position_count) 1);
  modify (on_stats category (stats_with allocated stats.(cs_total_claimed) count)) ;;
  modify (tk_push (VestingPositionCreated position_id beneficiary amount category)) ;;
  mret position_id.

Record GenesisAllocation := {
  ga_beneficiary : Address;
  ga_amount : TokenAmount;
  ga_category : AllocationCategory;
  ga_custom_schedule : option VestingSchedule;
  ga_revocable : bool;
}.

Definition initialize_genesis (allocations : list GenesisAllocation) : TokM unit :=
  for_each allocations (λ alloc,
    genesis_time ← gets (λ m, m.(tk_config).(tcf_genesis_time));
    create_vesting_position alloc.(ga_beneficiary) alloc.(ga_amount) alloc.(ga_category)
      alloc.(ga_custom_schedule) genesis_time alloc.(ga_revocable) ;;
    mret tt) ;;
  circulating ← gets tk_circulating_supply;
  circulating ← lift (u_add U128_MAX circulating PUBLIC_SALES_POOL);
  modify (tk_set_circulating circulating) ;;
  modify (λ m, tk_push (GenesisInitialized TOTAL_GENESIS_SUPPLY m.(tk_circulating_supply)
                          m.(tk_total_vesting_locked)) m).

Definition claim_vested (position_id : N) (claimer : Address) (current_time : N)
  : TokM TokenAmount :=
  m ← get;
  position ← ok_or (m.(tk_vesting_positions) !! position_id) (TokenomicsError "Position not found");
  ensure (bool_decide (position.(vp_beneficiary) = claimer))
    (TokenomicsError "Not position beneficiary") ;;
  '(claimable, position) ← lift (claim position current_time);
  modify (tk_set_positions (<[position_id := position]> m.(tk_vesting_positions))) ;;
  when (bool_decide (0 < claimable)) (
    locked ← lift (u_sub U128_MAX m.(tk_total_vesting_locked) claimable);
    modify (tk_set_locked locked) ;;
    circulating ← lift (u_add U128_MAX m.(tk_circulating_supply) claimable);
    modify (tk_set_circulating circulating) ;;
    match m.(tk_category_stats) !! position.(vp_category) with
    | Some stats =>
        claimed ← lift (u_add U128_MAX stats.(cs_total_claimed) claimable);
        modify (on_stats position.(vp_category)
                  (stats_with stats.(cs_total_allocated) claimed stats.(cs_position_count)))
    | None => mret tt
    end ;;
    modify (tk_push (VestingClaimed position_id position.(vp_beneficiary) claimable))) ;;
  mret claimable.

Definition revoke_position (position_id current_time : N) : TokM TokenAmount :=
  m ← get;
  position ← ok_or (m.(tk_vesting_positions) !! position_id) (TokenomicsError "Position not found");
  ensure position.(vp_revocable) (TokenomicsError "Position is not revocable") ;;
  ensure (negb position.(vp_revoked)) (TokenomicsError "Position already revoked") ;;
  vested ← lift (position_vested_amount position current_time);
  let unvested := sat_sub position.(vp_total_amount) vested in
  modify (tk_set_positions (<[position_id := vp_revoke current_time position]>
                              m.(tk_vesting_positions))) ;;
  locked ← lift (u_sub U128_MAX m.(tk_total_vesting_locked) unvested);
  modify (tk_set_locked locked) ;;
  modify (tk_push (VestingRevoked position_id unvested)) ;;
  mret unvested.

Record TokFeeDistribution := {
  fd_total_fee : TokenAmount;
  fd_prover_amount : TokenAmount;
  fd_validator_amount : TokenAmount;
  fd_burn_amount : TokenAmount;
  fd_effective_burn_rate_bps : N;
}.

Definition on_engine {A} : M SystemContractError AdaptiveBurnEngine A → TokM A :=
  zoom tk_burn_engine tk_set_engine.

Definition tok_process_fee (fee_amount : TokenAmount) (block_fullness_bps : N)
  : TokM TokFeeDistribution :=
  m ← get;
  let config := m.(tk_config) in
  burn_amount ← lift (
    if config.(tcf_adaptive_burn_enabled) then
      tok_calculate_burn m.(tk_burn_engine) fee_amount block_fullness_bps
    else product ← u_mul U128_MAX fee_amount config.(tcf_burn_fee_bps); Ok (product / 10000));
  on_engine (engine_record_burn burn_amount) ;;
  remaining ← lift (u_sub U128_MAX fee_amount burn_amount);
  product ← lift (u_mul U128_MAX remaining config.(tcf_prover_fee_bps));
  let prover_amount := product / 10000 in
  validator_amount ← lift (u_sub U128_MAX remaining prover_amount);
  product ← lift (u_mul U128_MAX burn_amount 10000);
  effective ← lift (u_div product fee_amount);
  mret {| fd_total_fee := fee_amount; fd_prover_amount := prover_amount;
          fd_validator_amount := validator_amount; fd_burn_amount := burn_amount;
          fd_effective_burn_rate_bps := cast U16_MAX effective |}.

Definition tok_update_block (gas_used gas_limit : N) : TokM unit :=
  on_engine (engine_update_block gas_used gas_limit).

Definition get_block_emission {E} (m : TokenomicsManager) (block_time block_duration_secs : N)
  : outcome E TokenAmount :=
  block_emission m.(tk_emission_calculator) block_time block_duration_secs.

Definition update_emissions (current_time : N) : TokM TokenAmount :=
  new_emissions ← zoom tk_emission_calculator tk_set_calculator (calculator_update current_time);
  when (bool_decide (0 < new_emissions))
    (modify (λ m, tk_push (MiningEmission new_emissions
                             m.(tk_emission_calculator).(ec_total_emitted)) m)) ;;
  mret new_emissions.

Record SupplyInfo := {
  si_total_supply : TokenAmount;
  si_circulating_supply : TokenAmount;
  si_total_burned : TokenAmount;
  si_total_locked : TokenAmount;
  si_total_vested : TokenAmount;
  si_mining_emitted : TokenAmount;
  si_mining_remaining : TokenAmount;
}.

(** [iter().map(f).sum()] *)
Fixpoint sum_map {E A} (f : A → outcome E N) (l : list A) (acc : N) : outcome E N :=
  match l with
  | [] => Ok acc
  | x :: l => v ← f x; acc ← u_add U128_MAX acc v; sum_map f l acc
  end.

Definition supply_info {E} (m : TokenomicsManager) (current_time : N) : outcome E SupplyInfo :=
  total_vested ← sum_map (λ p, position_vested_amount p current_time)
                   (map_to_list m.(tk_vesting_positions)).*2 0;
  Ok {| si_total_supply := TOTAL_GENESIS_SUPPLY;
        si_circulating_supply := m.(tk_circulating_supply);
        si_total_burned := m.(tk_burn_engine).(be_total_burned);
        si_total_locked := m.(tk_total_vesting_locked); si_total_vested := total_vested;
        si_mining_emitted := m.(tk_emission_calculator).(ec_total_emitted);
        si_mining_remaining := remaining_emissions m.(tk_emission_calculator) |}.

Record BurnStats := {
  bst_total_burned : TokenAmount;
  bst_epoch_burned : TokenAmount;
  bst_current_rate_bps : N;
  bst_avg_utilization_bps : N;
}.

Definition burn_stats (m : TokenomicsManager) : BurnStats :=
  let e := m.(tk_burn_engine) in
  {| bst_total_burned := e.(be_total_burned); bst_epoch_burned := e.(be_epoch_burned);
     bst_current_rate_bps := e.(be_current_rate_bps);
     bst_avg_utilization_bps := e.(be_avg_utilization_bps) |}.

Definition emission_info {E} (m : TokenomicsManager) (current_time : N)
  : outcome E EmissionScheduleInfo := schedule_info m.(tk_emission_calculator) current_time.

Definition tok_reset_epoch (m : TokenomicsManager) : TokenomicsManager :=
  tk_set_engine (engine_reset_epoch m.(tk_burn_engine)) m.

Definition tok_drain_events : TokM (list TokenomicsEvent) :=
  m ← get;
  put (tk_with m.(tk_burn_engine) m.(tk_emission_calculator) m.(tk_vesting_positions)
         m.(tk_next_position_id) m.(tk_circulating_supply) m.(tk_total_vesting_locked)
         m.(tk_category_stats) [] m) ;;
  mret m.(tk_events).
End tokenomics.
