(* ===== verification/Slashing.v ===== *)
(** * The slashing manager

    [crates/vm/src/system_contracts/slashing.rs]: slashing by offense tier,
    bans and tombstones, result challenges with a verification committee,
    attestation challenges, reliability scores.

    The manager shares its bank through [Arc<RwLock<Bank>>]: a method runs on
    the pair of the manager and the lock.  [evidence_json] is
    [serde_json::to_vec] of the evidence, which only the evidence hash of an
    event reads.  Where the code iterates over a [HashMap] the model uses the
    order of [map_to_list]; the order shows in evidence lists and in the order
    of returned conditions only. *)
From S2P Require Import Prelude SysTypes Bank F64 Precompile.
From stdpp Require Import base gmap list strings pretty.
From Stdlib Require Import ZArith Lia SpecFloat.
#[local] Open Scope N_scope.

(** ** Constants *)
Definition MAX_ATTESTATION_AGE_SECS : N := 24 * 60 * 60.
Definition ATTESTATION_CHALLENGE_INTERVAL_SECS : N := 4 * 60 * 60.
Definition ATTESTATION_CHALLENGE_SAMPLE_PERCENT : N := 5.
Definition CHALLENGE_RESPONSE_WINDOW_SECS : N := 10 * 60.
Definition VERIFICATION_COMMITTEE_SIZE : N := 3.
(** The [f64] literal [0.67]: [6034823500676465 / 2^53]. *)
Definition COMMITTEE_AGREEMENT_THRESHOLD : f64 := S754_finite false 6034823500676465 (-53).
Definition TOMBSTONE_DURATION_SECS : N := 100 * 365 * 24 * 60 * 60.
Definition TIER2_BAN_DURATION_SECS : N := 30 * 24 * 60 * 60.
Definition TIER3_SUSPENSION_DURATION_SECS : N := 24 * 60 * 60.
Definition CHALLENGER_REWARD_PERCENT : N := 50.
Definition SPAM_CHALLENGE_PENALTY_PERCENT : N := 20.

(** ** Offenses *)
Inductive OffenseSeverity := Performance | Malicious | Critical.

Definition slash_percent (s : OffenseSeverity) : N :=
  match s with Performance => 5 | Malicious => 50 | Critical => 100 end.

Definition ban_duration (s : OffenseSeverity) : N :=
  match s with
  | Performance => TIER3_SUSPENSION_DURATION_SECS
  | Malicious => TIER2_BAN_DURATION_SECS
  | Critical => TOMBSTONE_DURATION_SECS
  end.

Definition is_tombstone (s : OffenseSeverity) : bool :=
  match s with Critical => true | _ => false end.

Inductive OffenseType :=
| InvalidZkProof | ForgedTeeSignature | HardwareSpoofing | FabricatedResult | CommitteeManipulation
| DoubleSign | Equivocation | VoteTampering | CollusionDetected | ResultPlagiarism
| SlaTimeout | LateDelivery | IncompleteResult | AttestationChallengeFailure | JobAbandonment
| LowReliability.

Definition severity (o : OffenseType) : OffenseSeverity :=
  match o with
  | InvalidZkProof | ForgedTeeSignature | HardwareSpoofing | FabricatedResult
  | CommitteeManipulation => Critical
  | DoubleSign | Equivocation | VoteTampering | CollusionDetected | ResultPlagiarism => Malicious
  | SlaTimeout | LateDelivery | IncompleteResult | AttestationChallengeFailure | JobAbandonment
  | LowReliability => Performance
  end.

Definition description (o : OffenseType) : string :=
  match o with
  | InvalidZkProof => "Submitted cryptographically invalid zero-knowledge proof"
  | ForgedTeeSignature => "Forged or tampered TEE attestation signature"
  | HardwareSpoofing => "Hardware spoofing - misrepresented TEE enclave type"
  | FabricatedResult => "Fabricated computation result without valid proof"
  | CommitteeManipulation => "Attempted manipulation of verification committee"
  | DoubleSign => "Double-signed conflicting blocks at same height"
  | Equivocation => "Signed conflicting consensus messages"
  | VoteTampering => "Attempted to manipulate consensus votes"
  | CollusionDetected => "Detected collusion with other network participants"
  | ResultPlagiarism => "Copied computation results from another prover"
  | SlaTimeout => "Failed to deliver result within SLA timeout"
  | LateDelivery => "Delivered result after deadline but within grace"
  | IncompleteResult => "Submitted incomplete or partial results"
  | AttestationChallengeFailure => "Failed attestation verification challenge"
  | JobAbandonment => "Excessive job abandonment rate"
  | LowReliability => "Reliability score below minimum threshold"
  end.

(** ** Evidence *)
Record SignedBlockHeader := {
  sbh_height : N;
  sbh_round : N;
  sbh_block_hash : Hash;
  sbh_timestamp : N;
  sbh_proposer : Address;
  sbh_signature : bytes;
}.

Inductive VoteType := Prevote | Precommit.

#[export] Instance VoteType_eq_dec : EqDecision VoteType.
Proof. solve_decision. Defined.

Record SignedVote := {
  sv_height : N;
  sv_round : N;
  sv_vote_type : VoteType;
  sv_block_hash : Hash;
  sv_voter : Address;
  sv_timestamp : N;
  sv_signature : bytes;
}.

Record ProofSubmission := {
  psb_job_id : JobId;
  psb_prover : Address;
  psb_result_hash : Hash;
  psb_proof_hash : Hash;
  psb_submission_time : N;
  psb_block_height : N;
}.

Inductive SlashingEvidence :=
| DoubleSignEvidence (header_a header_b : SignedBlockHeader)
| EquivocationEvidence (vote_a vote_b : SignedVote)
| InvalidProofEvidence (proof_bytes : bytes) (expected_inputs_hash actual_inputs_hash : Hash)
    (failure_reason : string)
| ForgedTeeAttestationEvidence (attestation : TeeAttestation) (invalidity_reason : string)
| HardwareSpoofingEvidence (claimed_type : TeeType) (detected_type : option TeeType)
    (detection_method : string)
| SlaViolationEvidence (job_id : JobId) (deadline : N) (delivery_time : option N)
    (expected_result_hash : option Hash)
| ResultPlagiarismEvidence (original_submission copied_submission : ProofSubmission)
    (similarity_score : N)
| CommitteeVerification (original_result : bytes) (committee : list Address) (votes : list bool)
    (committee_results : list bytes)
| AttestationFailure (challenge_id : Hash) (challenge_time response_deadline : N)
    (response_received : bool)
| GenericEvidence (description : string) (data : bytes).

Record SlashingCondition := {
  cnd_offender : Address;
  cnd_offense_type : OffenseType;
  cnd_block_height : N;
  cnd_timestamp : N;
  cnd_evidence : SlashingEvidence;
  cnd_reporter : option Address;
  cnd_job_id : option JobId;
}.

Inductive SlashingEvent :=
| SlashedEvent (offender : Address) (offense_type : OffenseType)
    (slash_amount burn_amount reporter_reward : TokenAmount) (reporter : option Address)
    (ban_until : N) (tombstoned : bool) (evidence_hash : Hash)
| ChallengeSubmitted (challenge_id : Hash) (challenger prover : Address) (job_id : JobId)
    (committee : list Address)
| ChallengeResolvedProverFault (challenge_id : Hash) (prover challenger : Address)
    (slash_amount challenger_reward : TokenAmount)
| ChallengeResolvedChallengerFault (challenge_id : Hash) (challenger prover : Address)
    (spam_penalty : TokenAmount)
| SpamChallengePenalty (challenger : Address) (penalty_amount : TokenAmount) (challenge_id : Hash)
| AttestationChallengeIssued (challenge_id : Hash) (target : Address) (deadline : N)
| AttestationResponseReceived (challenge_id : Hash) (target : Address) (verified : bool)
| AttestationChallengeFailed (challenge_id : Hash) (target : Address) (slash_amount : TokenAmount)
| DoubleSignDetected (offender : Address) (height : N) (evidence_hash : Hash)
| EquivocationDetected (offender : Address) (height round : N) (evidence_hash : Hash)
| NodeTombstoned (offender : Address) (offense_type : OffenseType) (total_slashed : TokenAmount)
| BanExpired (node : Address)
| ReliabilityScoreUpdated (node : Address) (old_score new_score : N) (below_threshold : bool).

Record SlashingResult := {
  slr_slashed_address : Address;
  slr_burn_amount : TokenAmount;
  slr_reporter_reward : TokenAmount;
  slr_ban_until : N;
  slr_tombstoned : bool;
  slr_events : list SlashingEvent;
}.

(** ** Challenges *)
Inductive ChallengeState :=
| ChallengePending | ChallengeInProgress | ChallengeVoting | ResolvedProverFault
| ResolvedChallengerFault | ChallengeExpired.

Record ChallengeVote := {
  chv_voter : Address;
  chv_agrees_with_challenge : bool;
  chv_computed_result_hash : Hash;
  chv_vote_time : N;
  chv_signature : bytes;
}.

Record Challenge := {
  ch_id : Hash;
  ch_job_id : JobId;
  ch_prover : Address;
  ch_challenger : Address;
  ch_original_result_hash : Hash;
  ch_created_at : N;
  ch_expires_at : N;
  ch_state : ChallengeState;
  ch_committee : list Address;
  ch_committee_votes : gmap Address ChallengeVote;
  ch_challenger_stake_locked : TokenAmount;
}.

Definition ch_with (state : ChallengeState) (votes : gmap Address ChallengeVote) (c : Challenge)
  : Challenge := {|
  ch_id := c.(ch_id); ch_job_id := c.(ch_job_id); ch_prover := c.(ch_prover);
  ch_challenger := c.(ch_challenger); ch_original_result_hash := c.(ch_original_result_hash);
  ch_created_at := c.(ch_created_at); ch_expires_at := c.(ch_expires_at); ch_state := state;
  ch_committee := c.(ch_committee); ch_committee_votes := votes;
  ch_challenger_stake_locked := c.(ch_challenger_stake_locked) |}.

Record AttestationChallenge := {
  ac_id : Hash;
  ac_target : Address;
  ac_issued_at : N;
  ac_deadline : N;
  ac_response_received : bool;
  ac_attestation : option TeeAttestation;
  ac_verified : option bool;
}.

Definition ac_respond (attestation : TeeAttestation) (verified : bool) (c : AttestationChallenge)
  : AttestationChallenge := {|
  ac_id := c.(ac_id); ac_target := c.(ac_target); ac_issued_at := c.(ac_issued_at);
  ac_deadline := c.(ac_deadline); ac_response_received := true;
  ac_attestation := Some attestation; ac_verified := Some verified |}.

(** ** Reliability *)
Record ReliabilityMetrics := {
  rm_jobs_assigned : N;
  rm_jobs_completed : N;
  rm_jobs_failed : N;
  rm_jobs_late : N;
  rm_sla_violations : N;
  rm_last_score : N;
  rm_score_timestamp : N;
  rm_recent_outcomes : list bool;
}.

Definition ReliabilityMetrics_default : ReliabilityMetrics := {|
  rm_jobs_assigned := 0; rm_jobs_completed := 0; rm_jobs_failed := 0; rm_jobs_late := 0;
  rm_sla_violations := 0; rm_last_score := 0; rm_score_timestamp := 0; rm_recent_outcomes := [] |}.

Definition ROLLING_WINDOW_SIZE : N := 100.
Definition MIN_RELIABILITY_BPS : N := 9000.

Definition rm_with_score (score time : N) (m : ReliabilityMetrics) : ReliabilityMetrics := {|
  rm_jobs_assigned := m.(rm_jobs_assigned); rm_jobs_completed := m.(rm_jobs_completed);
  rm_jobs_failed := m.(rm_jobs_failed); rm_jobs_late := m.(rm_jobs_late);
  rm_sla_violations := m.(rm_sla_violations); rm_last_score := score; rm_score_timestamp := time;
  rm_recent_outcomes := m.(rm_recent_outcomes) |}.

Definition rm_with_counts (assigned completed failed : N) (outcomes : list bool)
  (m : ReliabilityMetrics) : ReliabilityMetrics := {|
  rm_jobs_assigned := assigned; rm_jobs_completed := completed; rm_jobs_failed := failed;
  rm_jobs_late := m.(rm_jobs_late); rm_sla_violations := m.(rm_sla_violations);
  rm_last_score := m.(rm_last_score); rm_score_timestamp := m.(rm_score_timestamp);
  rm_recent_outcomes := outcomes |}.

Definition llen {A} (l : list A) : N := N.of_nat (length l).

(** [while outcomes.len() > ROLLING_WINDOW_SIZE { outcomes.pop_front(); }] *)
Fixpoint trim_window (outcomes : list bool) : list bool :=
  match outcomes with
  | [] => []
  | _ :: rest =>
      if bool_decide (ROLLING_WINDOW_SIZE < llen outcomes) then trim_window rest else outcomes
  end.

Definition is_below_threshold (m : ReliabilityMetrics) : bool :=
  bool_decide (m.(rm_last_score) < MIN_RELIABILITY_BPS).

Section reliability.
Context `{Build}.

Definition calculate_score (current_time : N)
  : M SystemContractError ReliabilityMetrics N :=
  m ← get;
  if bool_decide (m.(rm_jobs_assigned) = 0) then mret 10000
  else if bool_decide (10 <= llen m.(rm_recent_outcomes)) then
    let successes := llen (filter (λ x, x = true) m.(rm_recent_outcomes)) in
    product ← lift (u_mul U64_MAX successes 10000);
    quotient ← lift (u_div product (llen m.(rm_recent_outcomes)));
    let score := cast U16_MAX quotient in
    modify (rm_with_score score current_time) ;;
    mret score
  else
    product ← lift (u_mul U64_MAX m.(rm_jobs_completed) 10000);
    quotient ← lift (u_div product m.(rm_jobs_assigned));
    let score := cast U16_MAX quotient in
    modify (rm_with_score score current_time) ;;
    mret score.

Definition record_outcome (success : bool) : M SystemContractError ReliabilityMetrics unit :=
  m ← get;
  assigned ← lift (u_add U64_MAX m.(rm_jobs_assigned) 1);
  modify (rm_with_counts assigned m.(rm_jobs_completed) m.(rm_jobs_failed)
            m.(rm_recent_outcomes)) ;;
  (if success then
     completed ← lift (u_add U64_MAX m.(rm_jobs_completed) 1);
     modify (rm_with_counts assigned completed m.(rm_jobs_failed) m.(rm_recent_outcomes))
   else
     failed ← lift (u_add U64_MAX m.(rm_jobs_failed) 1);
     modify (rm_with_counts assigned m.(rm_jobs_completed) failed m.(rm_recent_outcomes))) ;;
  modify (λ m, rm_with_counts m.(rm_jobs_assigned) m.(rm_jobs_completed) m.(rm_jobs_failed)
                 (trim_window (m.(rm_recent_outcomes) ++ [success])) m).
End reliability.

(** ** Bans *)
Record BanRecord := {
  ban_address : Address;
  ban_banned_at : N;
  ban_banned_until : N;
  ban_offense : OffenseType;
  ban_offense_count : N;
  ban_tombstoned : bool;
  ban_associated_ips : list string;
}.

Definition ban_is_active (b : BanRecord) (current_time : N) : bool :=
  b.(ban_tombstoned) || bool_decide (current_time < b.(ban_banned_until)).

(** ** Configuration *)
Record SlashingConfig := {
  slc_enabled : bool;
  slc_tier1_slash_percent : N;
  slc_tier2_slash_percent : N;
  slc_tier3_slash_percent : N;
  slc_challenger_reward_percent : N;
  slc_spam_penalty_percent : N;
  slc_challenge_window_secs : N;
  slc_committee_size : N;
  slc_committee_threshold : f64;
  slc_attestation_max_age_secs : N;
  slc_attestation_challenge_interval_secs : N;
  slc_attestation_sample_percent : N;
  slc_min_reliability_bps : N;
}.

Definition SlashingConfig_default : SlashingConfig := {|
  slc_enabled := true; slc_tier1_slash_percent := 100; slc_tier2_slash_percent := 50;
  slc_tier3_slash_percent := 5; slc_challenger_reward_percent := CHALLENGER_REWARD_PERCENT;
  slc_spam_penalty_percent := SPAM_CHALLENGE_PENALTY_PERCENT;
  slc_challenge_window_secs := CHALLENGE_RESPONSE_WINDOW_SECS;
  slc_committee_size := VERIFICATION_COMMITTEE_SIZE;
  slc_committee_threshold := COMMITTEE_AGREEMENT_THRESHOLD;
  slc_attestation_max_age_secs := MAX_ATTESTATION_AGE_SECS;
  slc_attestation_challenge_interval_secs := ATTESTATION_CHALLENGE_INTERVAL_SECS;
  slc_attestation_sample_percent := ATTESTATION_CHALLENGE_SAMPLE_PERCENT;
  slc_min_reliability_bps := MIN_RELIABILITY_BPS |}.

Definition SlashingConfig_mainnet : SlashingConfig := SlashingConfig_default.

Definition SlashingConfig_testnet : SlashingConfig := {|
  slc_enabled := true; slc_tier1_slash_percent := 50; slc_tier2_slash_percent := 25;
  slc_tier3_slash_percent := 2; slc_challenger_reward_percent := CHALLENGER_REWARD_PERCENT;
  slc_spam_penalty_percent := SPAM_CHALLENGE_PENALTY_PERCENT;
  slc_challenge_window_secs := 5 * 60;
  slc_committee_size := VERIFICATION_COMMITTEE_SIZE;
  slc_committee_threshold := COMMITTEE_AGREEMENT_THRESHOLD;
  slc_attestation_max_age_secs := MAX_ATTESTATION_AGE_SECS;
  slc_attestation_challenge_interval_secs := ATTESTATION_CHALLENGE_INTERVAL_SECS;
  slc_attestation_sample_percent := ATTESTATION_CHALLENGE_SAMPLE_PERCENT;
  slc_min_reliability_bps := MIN_RELIABILITY_BPS |}.

Definition SlashingConfig_devnet : SlashingConfig := {|
  slc_enabled := false; slc_tier1_slash_percent := 10; slc_tier2_slash_percent := 5;
  slc_tier3_slash_percent := 1; slc_challenger_reward_percent := CHALLENGER_REWARD_PERCENT;
  slc_spam_penalty_percent := SPAM_CHALLENGE_PENALTY_PERCENT;
  slc_challenge_window_secs := 60;
  slc_committee_size := VERIFICATION_COMMITTEE_SIZE;
  slc_committee_threshold := COMMITTEE_AGREEMENT_THRESHOLD;
  slc_attestation_max_age_secs := MAX_ATTESTATION_AGE_SECS;
  slc_attestation_challenge_interval_secs := 60;
  slc_attestation_sample_percent := ATTESTATION_CHALLENGE_SAMPLE_PERCENT;
  slc_min_reliability_bps := MIN_RELIABILITY_BPS |}.

Definition slash_percent_for_severity (c : SlashingConfig) (s : OffenseSeverity) : N :=
  match s with
  | Critical => c.(slc_tier1_slash_percent)
  | Malicious => c.(slc_tier2_slash_percent)
  | Performance => c.(slc_tier3_slash_percent)
  end.

(** ** The manager *)
Record SlashingManager := {
  sl_config : SlashingConfig;
  sl_challenges : gmap Hash Challenge;
  sl_attestation_challenges : gmap Hash AttestationChallenge;
  sl_bans : gmap Address BanRecord;
  sl_tombstones : gset Address;
  sl_reliability : gmap Address ReliabilityMetrics;
  sl_offense_history : gmap Address (list SlashingCondition);
  sl_total_slashed : TokenAmount;
  sl_total_burned : TokenAmount;
  sl_last_attestation_epoch : N;
  sl_pending_slashes : list SlashingCondition;
  sl_events : list SlashingEvent;
}.

Definition SlashingManager_new (config : SlashingConfig) : SlashingManager := {|
  sl_config := config; sl_challenges := ∅; sl_attestation_challenges := ∅; sl_bans := ∅;
  sl_tombstones := ∅; sl_reliability := ∅; sl_offense_history := ∅; sl_total_slashed := 0;
  sl_total_burned := 0; sl_last_attestation_epoch := 0; sl_pending_slashes := [];
  sl_events := [] |}.

(** Field assignments. *)
Definition sl_with_challenges (v : gmap Hash Challenge) (m : SlashingManager) : SlashingManager := {|
  sl_config := m.(sl_config); sl_challenges := v;
  sl_attestation_challenges := m.(sl_attestation_challenges); sl_bans := m.(sl_bans);
  sl_tombstones := m.(sl_tombstones); sl_reliability := m.(sl_reliability);
  sl_offense_history := m.(sl_offense_history); sl_total_slashed := m.(sl_total_slashed);
  sl_total_burned := m.(sl_total_burned);
  sl_last_attestation_epoch := m.(sl_last_attestation_epoch);
  sl_pending_slashes := m.(sl_pending_slashes); sl_events := m.(sl_events) |}.
Definition sl_with_attestations (epoch : N) (v : gmap Hash AttestationChallenge)
  (m : SlashingManager) : SlashingManager := {|
  sl_config := m.(sl_config); sl_challenges := m.(sl_challenges);
  sl_attestation_challenges := v; sl_bans := m.(sl_bans);
  sl_tombstones := m.(sl_tombstones); sl_reliability := m.(sl_reliability);
  sl_offense_history := m.(sl_offense_history); sl_total_slashed := m.(sl_total_slashed);
  sl_total_burned := m.(sl_total_burned); sl_last_attestation_epoch := epoch;
  sl_pending_slashes := m.(sl_pending_slashes); sl_events := m.(sl_events) |}.
Definition sl_with_bans (bans : gmap Address BanRecord) (tombstones : gset Address)
  (m : SlashingManager) : SlashingManager := {|
  sl_config := m.(sl_config); sl_challenges := m.(sl_challenges);
  sl_attestation_challenges := m.(sl_attestation_challenges); sl_bans := bans;
  sl_tombstones := tombstones; sl_reliability := m.(sl_reliability);
  sl_offense_history := m.(sl_offense_history); sl_total_slashed := m.(sl_total_slashed);
  sl_total_burned := m.(sl_total_burned);
  sl_last_attestation_epoch := m.(sl_last_attestation_epoch);
  sl_pending_slashes := m.(sl_pending_slashes); sl_events := m.(sl_events) |}.
Definition sl_with_totals (slashed burned : TokenAmount) (m : SlashingManager) : SlashingManager := {|
  sl_config := m.(sl_config); sl_challenges := m.(sl_challenges);
  sl_attestation_challenges := m.(sl_attestation_challenges); sl_bans := m.(sl_bans);
  sl_tombstones := m.(sl_tombstones); sl_reliability := m.(sl_reliability);
  sl_offense_history := m.(sl_offense_history); sl_total_slashed := slashed;
  sl_total_burned := burned; sl_last_attestation_epoch := m.(sl_last_attestation_epoch);
  sl_pending_slashes := m.(sl_pending_slashes); sl_events := m.(sl_events) |}.
Definition sl_with_reliability (v : gmap Address ReliabilityMetrics) (m : SlashingManager)
  : SlashingManager := {|
  sl_config := m.(sl_config); sl_challenges := m.(sl_challenges);
  sl_attestation_challenges := m.(sl_attestation_challenges); sl_bans := m.(sl_bans);
  sl_tombstones := m.(sl_tombstones); sl_reliability := v;
  sl_offense_history := m.(sl_offense_history); sl_total_slashed := m.(sl_total_slashed);
  sl_total_burned := m.(sl_total_burned);
  sl_last_attestation_epoch := m.(sl_last_attestation_epoch);
  sl_pending_slashes := m.(sl_pending_slashes); sl_events := m.(sl_events) |}.
Definition sl_with_history (v : gmap Address (list SlashingCondition)) (m : SlashingManager)
  : SlashingManager := {|
  sl_config := m.(sl_config); sl_challenges := m.(sl_challenges);
  sl_attestation_challenges := m.(sl_attestation_challenges); sl_bans := m.(sl_bans);
  sl_tombstones := m.(sl_tombstones); sl_reliability := m.(sl_reliability);
  sl_offense_history := v; sl_total_slashed := m.(sl_total_slashed);
  sl_total_burned := m.(sl_total_burned);
  sl_last_attestation_epoch := m.(sl_last_attestation_epoch);
  sl_pending_slashes := m.(sl_pending_slashes); sl_events := m.(sl_events) |}.
Definition sl_with_pending (v : list SlashingCondition) (events : list SlashingEvent)
  (m : SlashingManager) : SlashingManager := {|
  sl_config := m.(sl_config); sl_challenges := m.(sl_challenges);
  sl_attestation_challenges := m.(sl_attestation_challenges); sl_bans := m.(sl_bans);
  sl_tombstones := m.(sl_tombstones); sl_reliability := m.(sl_reliability);
  sl_offense_history := m.(sl_offense_history); sl_total_slashed := m.(sl_total_slashed);
  sl_total_burned := m.(sl_total_burned);
  sl_last_attestation_epoch := m.(sl_last_attestation_epoch);
  sl_pending_slashes := v; sl_events := events |}.

Abbreviation SlashM A := (M SystemContractError SlashingManager A).
Abbreviation SlashState := (SlashingManager * RwLock Bank)%type.

Definition push_slashing_event (e : SlashingEvent) : SlashM unit :=
  modify (λ m, sl_with_pending m.(sl_pending_slashes) (m.(sl_events) ++ [e]) m).

(** [self.bank.write().op(..)] *)
Definition bank_write {A} (op : BankM A) : M SystemContractError SlashState A :=
  on_snd (with_write op).

(** [self.bank.read()]: blocks while the thread holds the write guard itself. *)
Definition bank_read {A} (q : Bank → A) : M SystemContractError SlashState A := λ s,
  if s.2.(rw_held) then (Blocked, s) else (Ok (q s.2.(rw_val)), s).

(** ** Queries *)
Definition sl_is_banned (m : SlashingManager) (address : Address) (current_time : N) : bool :=
  bool_decide (address ∈ m.(sl_tombstones))
  || default false ((λ b, ban_is_active b current_time) <$> m.(sl_bans) !! address).

Definition is_tombstoned (m : SlashingManager) (address : Address) : bool :=
  bool_decide (address ∈ m.(sl_tombstones)).

Definition get_ban_record (m : SlashingManager) (address : Address) : option BanRecord :=
  m.(sl_bans) !! address.

Definition get_reliability_score (m : SlashingManager) (node : Address) : N :=
  default 10000 (rm_last_score <$> m.(sl_reliability) !! node).

Definition get_reliability_metrics (m : SlashingManager) (node : Address)
  : option ReliabilityMetrics := m.(sl_reliability) !! node.

Record SlashingStatistics := {
  sst_total_slashed : TokenAmount;
  sst_total_burned : TokenAmount;
  sst_active_bans : N;
  sst_tombstones : N;
  sst_active_challenges : N;
  sst_pending_attestation_challenges : N;
}.

Definition statistics (m : SlashingManager) : SlashingStatistics := {|
  sst_total_slashed := m.(sl_total_slashed); sst_total_burned := m.(sl_total_burned);
  sst_active_bans := N.of_nat (size m.(sl_bans));
  sst_tombstones := N.of_nat (size m.(sl_tombstones));
  sst_active_challenges := N.of_nat (size m.(sl_challenges));
  sst_pending_attestation_challenges := N.of_nat (size m.(sl_attestation_challenges)) |}.

(** [serde_json::to_vec] *)
Class EvidenceFormat := { evidence_json : SlashingEvidence → bytes }.

Section slashing.
Context `{Build, Crypto, EvidenceFormat}.

Definition hash_evidence (evidence : SlashingEvidence) : Hash := sha256 (evidence_json evidence).

Definition generate_challenge_id (job_id : JobId) (challenger : Address) (timestamp : N) : Hash :=
  sha256 (job_id ++ challenger ++ to_le_bytes 8 timestamp).

Definition generate_attestation_challenge_id (target : Address) (timestamp : N)
  (randomness : bytes) : Hash :=
  sha256 (string_bytes "attestation_challenge" ++ target ++ to_le_bytes 8 timestamp ++ randomness).

(** ** Slashing *)
Definition get_stake (address : Address) : M SystemContractError SlashState TokenAmount :=
  bank_read (λ b, get_locked_balance b address).

Definition record_ban (address : Address) (banned_at banned_until : N) (offense : OffenseType)
  (tombstoned : bool) : SlashM unit :=
  when tombstoned
    (modify (λ m, sl_with_bans m.(sl_bans) ({[address]} ∪ m.(sl_tombstones)) m)) ;;
  m ← get;
  offense_count ← lift (match m.(sl_bans) !! address with
                        | Some b => u_add U32_MAX b.(ban_offense_count) 1
                        | None => Ok 1
                        end);
  modify (λ m, sl_with_bans (<[address := {|
    ban_address := address; ban_banned_at := banned_at; ban_banned_until := banned_until;
    ban_offense := offense; ban_offense_count := offense_count; ban_tombstoned := tombstoned;
    ban_associated_ips := [] |}]> m.(sl_bans)) m.(sl_tombstones) m).

Definition execute_slash (condition : SlashingCondition)
  : M SystemContractError SlashState SlashingResult :=
  m ← gets fst;
  let config := m.(sl_config) in
  let offender := condition.(cnd_offender) in
  ensure config.(slc_enabled) (SlashingError "Slashing is disabled") ;;
  ensure (negb (bool_decide (offender ∈ m.(sl_tombstones))))
    (SlashingError "Address is already tombstoned") ;;
  let sev := severity condition.(cnd_offense_type) in
  stake ← get_stake offender;
  ensure (negb (bool_decide (stake = 0))) (SlashingError "Offender has no stake") ;;
  product ← lift (u_mul U128_MAX stake (slash_percent_for_severity config sev));
  let slash_amount := product / 100 in
  reporter_reward ← (match condition.(cnd_reporter) with
    | Some reporter =>
        product ← lift (u_mul U128_MAX slash_amount config.(slc_challenger_reward_percent));
        let reward := product / 100 in
        bank_write (transfer offender reporter reward) ;;
        mret reward
    | None => mret 0
    end);
  burn_amount ← lift (u_sub U128_MAX slash_amount reporter_reward);
  bank_write (burn offender burn_amount) ;;
  total_slashed ← lift (u_add U128_MAX m.(sl_total_slashed) slash_amount);
  on_fst (modify (λ m, sl_with_totals total_slashed m.(sl_total_burned) m)) ;;
  total_burned ← lift (u_add U128_MAX m.(sl_total_burned) burn_amount);
  on_fst (modify (sl_with_totals total_slashed total_burned)) ;;
  let current_time := condition.(cnd_timestamp) in
  ban_until ← lift (if is_tombstone sev then Ok U64_MAX
                    else u_add U64_MAX current_time (ban_duration sev));
  let tombstoned := is_tombstone sev in
  on_fst (record_ban offender current_time ban_until condition.(cnd_offense_type) tombstoned) ;;
  on_fst (modify (λ m, sl_with_history
    (<[offender := default [] (m.(sl_offense_history) !! offender) ++ [condition]]>
       m.(sl_offense_history)) m)) ;;
  let event := SlashedEvent offender condition.(cnd_offense_type) slash_amount burn_amount
                 reporter_reward condition.(cnd_reporter) ban_until tombstoned
                 (hash_evidence condition.(cnd_evidence)) in
  on_fst (push_slashing_event event) ;;
  mret {| slr_slashed_address := offender; slr_burn_amount := burn_amount;
          slr_reporter_reward := reporter_reward; slr_ban_until := ban_until;
          slr_tombstoned := tombstoned; slr_events := [event] |}.

Definition queue_slash (condition : SlashingCondition) : SlashM unit :=
  modify (λ m, sl_with_pending (m.(sl_pending_slashes) ++ [condition]) m.(sl_events) m).

(** A call whose [Result] is stored instead of propagated. *)
Definition attempt {E S A} (m : M E S A) : M E S (A + E) := λ s,
  match m s with
  | (Ok a, s') => (Ok (inl a), s')
  | (Err e, s') => (Ok (inr e), s')
  | (Panic, s') => (Panic, s')
  | (Blocked, s') => (Blocked, s')
  end.

(** [while let Some(condition) = self.pending_slashes.pop_front()]: [queue] is
    what is left of the queue, which [execute_slash] does not change. *)
Fixpoint drain_pending (queue : list SlashingCondition)
  : M SystemContractError SlashState (list (SlashingResult + SystemContractError)) :=
  match queue with
  | [] => mret []
  | condition :: rest =>
      on_fst (modify (λ m, sl_with_pending rest m.(sl_events) m)) ;;
      result ← attempt (execute_slash condition);
      results ← drain_pending rest;
      mret (result :: results)
  end.

Definition process_pending_slashes
  : M SystemContractError SlashState (list (SlashingResult + SystemContractError)) :=
  m ← gets fst;
  drain_pending m.(sl_pending_slashes).

(** ** Sampling *)

(** [while used_indices.contains(&i) { i = (i + 1) % len; }]: after [fuel]
    steps without a free index the loop runs for ever when [fuel >= len]. *)
Fixpoint probe (fuel : nat) (used : gset N) (len i : N) : outcome SystemContractError N :=
  if bool_decide (i ∈ used) then
    match fuel with
    | O => Blocked
    | S fuel => probe fuel used len ((i + 1) mod len)
    end
  else Ok i.

(** The sampling loop of [select_committee] and [select_random_nodes]: [n]
    rounds from round [i], [seed] hashed with the round number. *)
Fixpoint pick_nodes (n : nat) (i : N) (seed : bytes) (nodes : list Address) (used : gset N)
  : outcome SystemContractError (list Address) :=
  match n with
  | O => Ok []
  | S n =>
      let result := sha256 (seed ++ to_le_bytes 4 (cast U32_MAX i)) in
      index ← u_rem (of_le_bytes (take 8 result)) (llen nodes);
      final_index ← probe (length nodes) used (llen nodes) index;
      node ← from_option Ok Panic (nodes !! N.to_nat final_index);
      selected ← pick_nodes n (i + 1) seed nodes ({[final_index]} ∪ used);
      Ok (node :: selected)
  end.

Definition select_committee (config : SlashingConfig) (available : list Address)
  (challenge_id : Hash) : outcome SystemContractError (list Address) :=
  let size := config.(slc_committee_size) in
  if bool_decide (llen available < size) then
    Err (SlashingError ("Not enough nodes for committee (need " +:+ pretty size +:+ ", have "
           +:+ pretty (llen available) +:+ ")"))
  else pick_nodes (N.to_nat size) 0 challenge_id available ∅.

Definition select_random_nodes (available : list Address) (count : N) (randomness : bytes)
  : outcome SystemContractError (list Address) :=
  if bool_decide (llen available <= count) then Ok available
  else pick_nodes (N.to_nat count) 0 randomness available ∅.

(** ** Challenges *)
Definition submit_challenge (challenger : Address) (job_id : JobId) (prover : Address)
  (original_result_hash : Hash) (challenger_stake : TokenAmount) (current_time : N)
  (available_committee : list Address) : M SystemContractError SlashState Hash :=
  challenger_actual_stake ← get_stake challenger;
  ensure (negb (bool_decide (challenger_actual_stake < challenger_stake)))
    (SlashingError "Challenger has insufficient stake") ;;
  bank_write (lock challenger challenger_stake) ;;
  let challenge_id := generate_challenge_id job_id challenger current_time in
  config ← gets (λ s, s.1.(sl_config));
  committee ← lift (select_committee config available_committee challenge_id);
  expires_at ← lift (u_add U64_MAX current_time config.(slc_challenge_window_secs));
  let challenge := {|
    ch_id := challenge_id; ch_job_id := job_id; ch_prover := prover; ch_challenger := challenger;
    ch_original_result_hash := original_result_hash; ch_created_at := current_time;
    ch_expires_at := expires_at; ch_state := ChallengePending; ch_committee := committee;
    ch_committee_votes := ∅; ch_challenger_stake_locked := challenger_stake |} in
  on_fst (modify (λ m, sl_with_challenges (<[challenge_id := challenge]> m.(sl_challenges)) m)) ;;
  on_fst (push_slashing_event
            (ChallengeSubmitted challenge_id challenger prover job_id committee)) ;;
  mret challenge_id.

Definition submit_committee_vote (challenge_id : Hash) (voter : Address)
  (agrees_with_challenge : bool) (computed_result_hash : Hash) (signature : bytes)
  (current_time : N) : SlashM unit :=
  m ← get;
  challenge ← ok_or (m.(sl_challenges) !! challenge_id) (SlashingError "Challenge not found");
  ensure (bool_decide (voter ∈ challenge.(ch_committee)))
    (SlashingError "Voter is not in committee") ;;
  ensure (negb (bool_decide (is_Some (challenge.(ch_committee_votes) !! voter))))
    (SlashingError "Voter has already voted") ;;
  let votes := <[voter := {|
    chv_voter := voter; chv_agrees_with_challenge := agrees_with_challenge;
    chv_computed_result_hash := computed_result_hash; chv_vote_time := current_time;
    chv_signature := signature |}]> challenge.(ch_committee_votes) in
  let state := if bool_decide (length challenge.(ch_committee) <= size votes)%nat
               then ChallengeVoting else challenge.(ch_state) in
  modify (sl_with_challenges (<[challenge_id := ch_with state votes challenge]> m.(sl_challenges))).

Definition f64_ge (x y : f64) : bool := SFleb y x.

Definition vote_list (c : Challenge) : list ChallengeVote :=
  (map_to_list c.(ch_committee_votes)).*2.

(** [(votes_for_challenge as f64 / total_votes as f64) >= threshold] *)
Definition challenge_succeeds (threshold : f64) (c : Challenge) : bool :=
  let total_votes := llen (vote_list c) in
  let votes_for_challenge :=
    llen (filter (λ v, v.(chv_agrees_with_challenge) = true) (vote_list c)) in
  f64_ge (f64_div (f64_of_N votes_for_challenge) (f64_of_N total_votes)) threshold.

Definition finalize_challenge (challenge_id : Hash) (current_time : N)
  : M SystemContractError SlashState SlashingResult :=
  m ← gets fst;
  challenge ← ok_or (m.(sl_challenges) !! challenge_id) (SlashingError "Challenge not found");
  on_fst (modify (sl_with_challenges (delete challenge_id m.(sl_challenges)))) ;;
  let challenger := challenge.(ch_challenger) in
  let stake_locked := challenge.(ch_challenger_stake_locked) in
  if bool_decide (challenge.(ch_expires_at) < current_time) then
    bank_write (unlock challenger stake_locked) ;;
    fail (SlashingError "Challenge expired")
  else if challenge_succeeds m.(sl_config).(slc_committee_threshold) challenge then
    let condition := {|
      cnd_offender := challenge.(ch_prover); cnd_offense_type := FabricatedResult;
      cnd_block_height := 0; cnd_timestamp := current_time;
      cnd_evidence := CommitteeVerification [] challenge.(ch_committee)
        (chv_agrees_with_challenge <$> vote_list challenge)
        (chv_computed_result_hash <$> vote_list challenge);
      cnd_reporter := Some challenger; cnd_job_id := Some challenge.(ch_job_id) |} in
    bank_write (unlock challenger stake_locked) ;;
    execute_slash condition
  else
    product ← lift (u_mul U128_MAX stake_locked m.(sl_config).(slc_spam_penalty_percent));
    let spam_penalty := product / 100 in
    bank_write (unlock challenger stake_locked) ;;
    bank_write (burn challenger spam_penalty) ;;
    on_fst (push_slashing_event (SpamChallengePenalty challenger spam_penalty challenge_id)) ;;
    mret {| slr_slashed_address := challenger; slr_burn_amount := spam_penalty;
            slr_reporter_reward := 0; slr_ban_until := 0; slr_tombstoned := false;
            slr_events := [] |}.

(** ** Attestation challenges *)
Fixpoint issue_to (targets : list Address) (current_time : N) (randomness : bytes)
  : SlashM (list AttestationChallenge) :=
  match targets with
  | [] => mret []
  | target :: rest =>
      m ← get;
      let challenge_id := generate_attestation_challenge_id target current_time randomness in
      deadline ← lift (u_add U64_MAX current_time m.(sl_config).(slc_challenge_window_secs));
      let challenge := {|
        ac_id := challenge_id; ac_target := target; ac_issued_at := current_time;
        ac_deadline := deadline; ac_response_received := false; ac_attestation := None;
        ac_verified := None |} in
      modify (sl_with_attestations m.(sl_last_attestation_epoch)
                (<[challenge_id := challenge]> m.(sl_attestation_challenges))) ;;
      push_slashing_event (AttestationChallengeIssued challenge_id target deadline) ;;
      challenges ← issue_to rest current_time randomness;
      mret (challenge :: challenges)
  end.

Definition issue_attestation_challenges (eligible_nodes : list Address) (current_time : N)
  (randomness : bytes) : SlashM (list AttestationChallenge) :=
  m ← get;
  next_round ← lift (u_add U64_MAX m.(sl_last_attestation_epoch)
                       m.(sl_config).(slc_attestation_challenge_interval_secs));
  if bool_decide (current_time < next_round) then mret [] else
  modify (sl_with_attestations current_time m.(sl_attestation_challenges)) ;;
  product ← lift (u_mul U64_MAX (llen eligible_nodes)
                    m.(sl_config).(slc_attestation_sample_percent));
  let sample_count := N.min (N.max (product / 100) 1) (llen eligible_nodes) in
  selected ← lift (select_random_nodes eligible_nodes sample_count randomness);
  issue_to selected current_time randomness.

Definition sl_verify_sgx_attestation (a : TeeAttestation) : outcome SystemContractError bool :=
  let bs := a.(tee_attestation_bytes) in
  if bool_decide (blen bs < 436) then Ok false else
  version ← slice 0 2 bs;
  if negb (bool_decide (of_le_bytes version = 3)) then Ok false else
  kind ← slice 4 8 bs;
  if negb (bool_decide (of_le_bytes kind = 0)) then Ok false else
  measurement ← slice 112 144 bs;
  Ok (bool_decide (measurement = a.(tee_measurement))).

Definition sl_verify_nitro_attestation (a : TeeAttestation) : outcome SystemContractError bool :=
  let bs := a.(tee_attestation_bytes) in
  if bool_decide (blen bs < 100) then Ok false else
  if negb (bool_decide (take 1 bs = [132])) then Ok false else
  measurement ← slice 40 72 bs;
  Ok (bool_decide (measurement = a.(tee_measurement))).

Definition sl_verify_sev_attestation (a : TeeAttestation) : outcome SystemContractError bool :=
  let bs := a.(tee_attestation_bytes) in
  if bool_decide (blen bs < 672) then Ok false else
  version ← slice 0 4 bs;
  if negb (bool_decide (of_le_bytes version = 2)) then Ok false else
  measurement ← slice 80 112 bs;
  Ok (bool_decide (measurement = a.(tee_measurement))).

Definition sl_verify_attestation (config : SlashingConfig) (a : TeeAttestation) (current_time : N)
  : outcome SystemContractError bool :=
  if bool_decide (a.(tee_attestation_bytes) = []) || bool_decide (a.(tee_measurement) = bytes32 0)
  then Ok false else
  let age := sat_sub current_time a.(tee_timestamp) in
  if bool_decide (config.(slc_attestation_max_age_secs) < age) then Ok false else
  match a.(tee_type) with
  | IntelSgx => sl_verify_sgx_attestation a
  | AwsNitro => sl_verify_nitro_attestation a
  | AmdSev => sl_verify_sev_attestation a
  end.

Definition submit_attestation_response (challenge_id : Hash) (attestation : TeeAttestation)
  (current_time : N) : SlashM bool :=
  m ← get;
  deadline ← ok_or (m.(sl_attestation_challenges) !! challenge_id)
               (SlashingError "Attestation challenge not found");
  ensure (negb (bool_decide (deadline.(ac_deadline) < current_time)))
    (SlashingError "Attestation response too late") ;;
  verified ← lift (sl_verify_attestation m.(sl_config) attestation current_time);
  ensure verified (SlashingError "Invalid attestation response") ;;
  modify (sl_with_attestations m.(sl_last_attestation_epoch)
    (<[challenge_id := ac_respond attestation verified deadline]>
       m.(sl_attestation_challenges))) ;;
  mret verified.

Definition attestation_expired (current_time : N) (c : AttestationChallenge) : bool :=
  bool_decide (c.(ac_deadline) < current_time) && negb c.(ac_response_received).

Definition attestation_condition (current_time : N) (id : Hash) (c : AttestationChallenge)
  : SlashingCondition := {|
  cnd_offender := c.(ac_target); cnd_offense_type := AttestationChallengeFailure;
  cnd_block_height := 0; cnd_timestamp := current_time;
  cnd_evidence := AttestationFailure id c.(ac_issued_at) c.(ac_deadline) false;
  cnd_reporter := None; cnd_job_id := None |}.

(** The expired challenges are collected first, then removed one by one. *)
Definition process_expired_attestation_challenges (current_time : N)
  : SlashM (list SlashingCondition) :=
  m ← get;
  let expired := filter (λ p, attestation_expired current_time p.2 = true)
                   (map_to_list m.(sl_attestation_challenges)) in
  modify (sl_with_attestations m.(sl_last_attestation_epoch)
    (foldl (λ challenges p, delete p.1 challenges) m.(sl_attestation_challenges) expired)) ;;
  mret ((λ p, attestation_condition current_time p.1 p.2) <$> expired).

(** ** Reliability *)
Definition record_job_outcome (node : Address) (success : bool) (current_time : N) : SlashM unit :=
  let entry m := default ReliabilityMetrics_default (m.(sl_reliability) !! node) in
  let set v m := sl_with_reliability (<[node := v]> m.(sl_reliability)) m in
  zoom entry set (record_outcome success) ;;
  score ← zoom entry set (calculate_score current_time);
  m ← get;
  when (is_below_threshold (entry m)) (queue_slash {|
    cnd_offender := node; cnd_offense_type := LowReliability; cnd_block_height := 0;
    cnd_timestamp := current_time;
    cnd_evidence := GenericEvidence ("Reliability score " +:+ pretty score +:+ " below threshold "
                                       +:+ pretty m.(sl_config).(slc_min_reliability_bps)) [];
    cnd_reporter := None; cnd_job_id := None |}).

(** ** Consensus evidence *)
Definition refuse {A} (b : bool) (reason : string) (k : outcome SystemContractError A)
  : outcome SystemContractError A := if b then Err (SlashingError reason) else k.

Definition verify_double_sign (header_a header_b : SignedBlockHeader)
  : outcome SystemContractError SlashingCondition :=
  let sig_a := header_a.(sbh_signature) in
  let sig_b := header_b.(sbh_signature) in
  refuse (negb (bool_decide (header_a.(sbh_height) = header_b.(sbh_height))))
    "Headers are not at same height" $
  refuse (negb (bool_decide (header_a.(sbh_round) = header_b.(sbh_round))))
    "Headers are not in same round" $
  refuse (bool_decide (header_a.(sbh_block_hash) = header_b.(sbh_block_hash)))
    "Headers have same block hash - not double sign" $
  refuse (negb (bool_decide (header_a.(sbh_proposer) = header_b.(sbh_proposer))))
    "Headers from different proposers" $
  refuse (bool_decide (sig_a = [])) "Header A has empty signature" $
  refuse (bool_decide (sig_b = [])) "Header B has empty signature" $
  refuse (bool_decide (sig_a = sig_b))
    "Headers have identical signatures - not a valid double sign" $
  refuse (negb (bool_decide (blen sig_a = 64)) || negb (bool_decide (blen sig_b = 64)))
    ("Invalid signature lengths: " +:+ pretty (blen sig_a) +:+ " and " +:+ pretty (blen sig_b)
       +:+ " (expected 64)") $
  Ok {| cnd_offender := header_a.(sbh_proposer); cnd_offense_type := DoubleSign;
        cnd_block_height := header_a.(sbh_height);
        cnd_timestamp := N.max header_a.(sbh_timestamp) header_b.(sbh_timestamp);
        cnd_evidence := DoubleSignEvidence header_a header_b;
        cnd_reporter := None; cnd_job_id := None |}.

Definition verify_equivocation (vote_a vote_b : SignedVote)
  : outcome SystemContractError SlashingCondition :=
  refuse (negb (bool_decide (vote_a.(sv_height) = vote_b.(sv_height)))
          || negb (bool_decide (vote_a.(sv_round) = vote_b.(sv_round))))
    "Votes are not at same height/round" $
  refuse (negb (bool_decide (vote_a.(sv_vote_type) = vote_b.(sv_vote_type))))
    "Votes are different types" $
  refuse (bool_decide (vote_a.(sv_block_hash) = vote_b.(sv_block_hash)))
    "Votes for same block - not equivocation" $
  refuse (negb (bool_decide (vote_a.(sv_voter) = vote_b.(sv_voter))))
    "Votes from different voters" $
  Ok {| cnd_offender := vote_a.(sv_voter); cnd_offense_type := Equivocation;
        cnd_block_height := vote_a.(sv_height);
        cnd_timestamp := N.max vote_a.(sv_timestamp) vote_b.(sv_timestamp);
        cnd_evidence := EquivocationEvidence vote_a vote_b;
        cnd_reporter := None; cnd_job_id := None |}.

Definition sl_drain_events : SlashM (list SlashingEvent) :=
  m ← get;
  put (sl_with_pending m.(sl_pending_slashes) [] m) ;;
  mret m.(sl_events).
End slashing.
