(* ===== verification/PouwEngine.v ===== *)
(** * The proof-of-useful-work engine

    [crates/vm/src/system_contracts/pouw_engine.rs]: compute-weighted rewards,
    compliance bonds, the congestion-squared burn and sovereignty pricing.

    The engine keeps its own books and calls no other contract.  A [HashMap] that
    is only summed over is folded in the order of [map_to_list]. *)
From S2P Require Import Prelude SysTypes F64 Precompile.
From stdpp Require Import base gmap list strings.
From Stdlib Require Import ZArith Lia SpecFloat.
#[local] Open Scope N_scope.

(** ** Constants *)
Definition POUW_ONE_AETHEL : TokenAmount := 1000000000000000000.
Definition BASE_APY_BPS : N := 500.
Definition MAX_COMPUTE_MULTIPLIER_BPS : N := 2500.
Definition MIN_BURN_RATE_BPS : N := 500.
Definition MAX_BURN_RATE_BPS : N := 2500.
Definition COMPLIANCE_VICTIM_PAYOUT_BPS : N := 8000.
Definition COMPLIANCE_BURN_BPS : N := 2000.
Definition COMPUTE_VERIFICATION_WINDOW : N := 30 * 24 * 60 * 60.
Definition COMPUTE_TIER_THRESHOLD : N := 1000000.
Definition ATTESTATION_FAILURE_COOLDOWN : N := 30 * 24 * 60 * 60.

(** ** Compliance bonds *)
Inductive ComplianceBondType :=
| GdprProcessing | HipaaProcessing | FinancialData | UaeDpl | SingaporePdpa | Soc2TypeII | Iso27001
| PciDss.

#[export] Instance ComplianceBondType_eq_dec : EqDecision ComplianceBondType.
Proof. solve_decision. Defined.

(** [bond_type as u8] *)
Definition bond_type_u8 (t : ComplianceBondType) : N :=
  match t with
  | GdprProcessing => 1 | HipaaProcessing => 2 | FinancialData => 3 | UaeDpl => 4
  | SingaporePdpa => 5 | Soc2TypeII => 6 | Iso27001 => 7 | PciDss => 8
  end.

Definition required_bond (t : ComplianceBondType) : TokenAmount :=
  match t with
  | GdprProcessing => 5000 * POUW_ONE_AETHEL
  | HipaaProcessing => 10000 * POUW_ONE_AETHEL
  | FinancialData => 15000 * POUW_ONE_AETHEL
  | UaeDpl => 8000 * POUW_ONE_AETHEL
  | SingaporePdpa => 6000 * POUW_ONE_AETHEL
  | Soc2TypeII => 7500 * POUW_ONE_AETHEL
  | Iso27001 => 5000 * POUW_ONE_AETHEL
  | PciDss => 20000 * POUW_ONE_AETHEL
  end.

Definition risk_weight_bps (t : ComplianceBondType) : N :=
  match t with
  | GdprProcessing => 100 | HipaaProcessing => 200 | FinancialData => 300 | UaeDpl => 150
  | SingaporePdpa => 120 | Soc2TypeII => 110 | Iso27001 => 100 | PciDss => 350
  end.

Definition bond_type_name (t : ComplianceBondType) : string :=
  match t with
  | GdprProcessing => "GDPR" | HipaaProcessing => "HIPAA" | FinancialData => "FINANCIAL"
  | UaeDpl => "UAE_DPL" | SingaporePdpa => "SG_PDPA" | Soc2TypeII => "SOC2_TYPE_II"
  | Iso27001 => "ISO_27001" | PciDss => "PCI_DSS"
  end.

(** ** Sovereignty *)
Inductive SovereigntyRegion :=
| PublicRegion | EuropeanUnion | UnitedArabEmirates | Singapore | UnitedStates | Switzerland | Japan
| Australia | UnitedKingdom | China.

#[export] Instance SovereigntyRegion_eq_dec : EqDecision SovereigntyRegion.
Proof. solve_decision. Defined.

Definition region_u8 (r : SovereigntyRegion) : N :=
  match r with
  | PublicRegion => 0 | EuropeanUnion => 1 | UnitedArabEmirates => 2 | Singapore => 3
  | UnitedStates => 4 | Switzerland => 5 | Japan => 6 | Australia => 7 | UnitedKingdom => 8
  | China => 9
  end.

Definition premium_multiplier_bps (r : SovereigntyRegion) (verified : bool) : N :=
  let base := match r with
    | PublicRegion => 100 | EuropeanUnion => 300 | UnitedArabEmirates => 500 | Singapore => 350
    | UnitedStates => 250 | Switzerland => 600 | Japan => 280 | Australia => 220
    | UnitedKingdom => 280 | China => 400
    end in
  if verified then cast U16_MAX (base * 150 / 100) else base.

Definition region_code (r : SovereigntyRegion) : string :=
  match r with
  | PublicRegion => "INTL" | EuropeanUnion => "EU" | UnitedArabEmirates => "AE" | Singapore => "SG"
  | UnitedStates => "US" | Switzerland => "CH" | Japan => "JP" | Australia => "AU"
  | UnitedKingdom => "GB" | China => "CN"
  end.

Definition ascii_upper (c : Ascii.ascii) : Ascii.ascii :=
  let n := Ascii.N_of_ascii c in
  if bool_decide (97 <= n) && bool_decide (n <= 122) then Ascii.ascii_of_N (n - 32) else c.

(** [str::to_uppercase] on UTF-8 bytes: ASCII letters, and the characters whose
    uppercase is ASCII (dotless i, long s, sharp s, the Latin ligatures).  Every
    other character is kept: its uppercase is not ASCII either, so that it equals
    none of the names the result is compared with. *)
Fixpoint to_uppercase (s : string) : string :=
  match s with
  | EmptyString => EmptyString
  | String a s1 =>
      match Ascii.N_of_ascii a, s1 with
      | 195, String b s2 =>
          if bool_decide (Ascii.N_of_ascii b = 159) then "SS" +:+ to_uppercase s2
          else String a (to_uppercase s1)
      | 196, String b s2 =>
          if bool_decide (Ascii.N_of_ascii b = 177) then "I" +:+ to_uppercase s2
          else String a (to_uppercase s1)
      | 197, String b s2 =>
          if bool_decide (Ascii.N_of_ascii b = 191) then "S" +:+ to_uppercase s2
          else String a (to_uppercase s1)
      | 239, String b (String c s3) =>
          if bool_decide (Ascii.N_of_ascii b = 172) then
            match Ascii.N_of_ascii c with
            | 128 => "FF" +:+ to_uppercase s3
            | 129 => "FI" +:+ to_uppercase s3
            | 130 => "FL" +:+ to_uppercase s3
            | 131 => "FFI" +:+ to_uppercase s3
            | 132 => "FFL" +:+ to_uppercase s3
            | 133 | 134 => "ST" +:+ to_uppercase s3
            | _ => String a (to_uppercase s1)
            end
          else String a (to_uppercase s1)
      | _, _ => String (ascii_upper a) (to_uppercase s1)
      end
  end.

Definition region_from_str (s : string) : option SovereigntyRegion :=
  let u := to_uppercase s in
  let named names := bool_decide (u ∈ names) in
  if named ["INTL"; "PUBLIC"] then Some PublicRegion
  else if named ["EU"; "EUR"; "EUROPEAN_UNION"] then Some EuropeanUnion
  else if named ["AE"; "UAE"; "UNITED_ARAB_EMIRATES"] then Some UnitedArabEmirates
  else if named ["SG"; "SINGAPORE"] then Some Singapore
  else if named ["US"; "USA"; "UNITED_STATES"] then Some UnitedStates
  else if named ["CH"; "SWITZERLAND"] then Some Switzerland
  else if named ["JP"; "JAPAN"] then Some Japan
  else if named ["AU"; "AUSTRALIA"] then Some Australia
  else if named ["GB"; "UK"; "UNITED_KINGDOM"] then Some UnitedKingdom
  else if named ["CN"; "CHINA"] then Some China
  else None.

Inductive DataVerificationLevel :=
| Unverified | SelfAttested | ThirdPartyVerified | AuthorityVerified | TeeAttested | ZkProofVerified.

Definition verification_u8 (v : DataVerificationLevel) : N :=
  match v with
  | Unverified => 0 | SelfAttested => 1 | ThirdPartyVerified => 2 | AuthorityVerified => 3
  | TeeAttested => 4 | ZkProofVerified => 5
  end.

Definition verification_premium_bps (v : DataVerificationLevel) : N :=
  match v with
  | Unverified => 100 | SelfAttested => 110 | ThirdPartyVerified => 150 | AuthorityVerified => 200
  | TeeAttested => 250 | ZkProofVerified => 300
  end.

Definition level_is_verified (v : DataVerificationLevel) : bool :=
  match v with
  | ThirdPartyVerified | AuthorityVerified | TeeAttested | ZkProofVerified => true
  | _ => false
  end.

Inductive DataCategory :=
| PublicData | Financial | Healthcare | Identity | Commercial | Government | IoTSensor | AiModelData.

Definition category_u8 (c : DataCategory) : N :=
  match c with
  | PublicData => 0 | Financial => 1 | Healthcare => 2 | Identity => 3 | Commercial => 4
  | Government => 5 | IoTSensor => 6 | AiModelData => 7
  end.

Definition base_multiplier_bps (c : DataCategory) : N :=
  match c with
  | PublicData => 100 | Financial => 200 | Healthcare => 400 | Identity => 500 | Commercial => 300
  | Government => 350 | IoTSensor => 150 | AiModelData => 800
  end.

(** ** Compute registry *)
Inductive TeeVerificationType := TeeSgx | TeeNitro | TeeSev | TeeTrustzone | TeeSimulated.

Record ComputeOperationRecord := {
  cor_operation_id : Hash;
  cor_job_id : JobId;
  cor_timestamp : N;
  cor_verified_ops : N;
  cor_tee_type : TeeVerificationType;
  cor_proof_hash : Hash;
  cor_hardware_id : string;
  cor_zk_verified : bool;
}.

Inductive HardwareTier := EntryTier | BasicTier | StandardTier | ProfessionalTier | EnterpriseTier.

Definition tier_u8 (t : HardwareTier) : N :=
  match t with
  | EntryTier => 0 | BasicTier => 1 | StandardTier => 2 | ProfessionalTier => 3
  | EnterpriseTier => 4
  end.

Definition tier_bonus_bps (t : HardwareTier) : N :=
  match t with
  | EntryTier => 0 | BasicTier => 50 | StandardTier => 150 | ProfessionalTier => 300
  | EnterpriseTier => 500
  end.

Record NodeComputeStats := {
  ncs_node : Address;
  ncs_verified_ops_30d : N;
  ncs_verified_ops_total : N;
  ncs_jobs_completed : N;
  ncs_jobs_failed : N;
  ncs_success_rate_bps : N;
  ncs_avg_ops_per_job : N;
  ncs_hardware_tier : HardwareTier;
  ncs_last_updated : N;
  ncs_recent_operations : list ComputeOperationRecord;
}.

Definition NodeComputeStats_new (node : Address) : NodeComputeStats := {|
  ncs_node := node; ncs_verified_ops_30d := 0; ncs_verified_ops_total := 0;
  ncs_jobs_completed := 0; ncs_jobs_failed := 0; ncs_success_rate_bps := 10000;
  ncs_avg_ops_per_job := 0; ncs_hardware_tier := EntryTier; ncs_last_updated := 0;
  ncs_recent_operations := [] |}.

Definition ncs_with_total (total completed : N) (s : NodeComputeStats) : NodeComputeStats := {|
  ncs_node := s.(ncs_node); ncs_verified_ops_30d := s.(ncs_verified_ops_30d);
  ncs_verified_ops_total := total; ncs_jobs_completed := completed;
  ncs_jobs_failed := s.(ncs_jobs_failed); ncs_success_rate_bps := s.(ncs_success_rate_bps);
  ncs_avg_ops_per_job := s.(ncs_avg_ops_per_job); ncs_hardware_tier := s.(ncs_hardware_tier);
  ncs_last_updated := s.(ncs_last_updated);
  ncs_recent_operations := s.(ncs_recent_operations) |}.
Definition ncs_with_window (ops30 : N) (window : list ComputeOperationRecord)
  (s : NodeComputeStats) : NodeComputeStats := {|
  ncs_node := s.(ncs_node); ncs_verified_ops_30d := ops30;
  ncs_verified_ops_total := s.(ncs_verified_ops_total);
  ncs_jobs_completed := s.(ncs_jobs_completed); ncs_jobs_failed := s.(ncs_jobs_failed);
  ncs_success_rate_bps := s.(ncs_success_rate_bps);
  ncs_avg_ops_per_job := s.(ncs_avg_ops_per_job); ncs_hardware_tier := s.(ncs_hardware_tier);
  ncs_last_updated := s.(ncs_last_updated); ncs_recent_operations := window |}.
Definition ncs_with_rates (failed rate avg : N) (tier : HardwareTier) (updated : N)
  (s : NodeComputeStats) : NodeComputeStats := {|
  ncs_node := s.(ncs_node); ncs_verified_ops_30d := s.(ncs_verified_ops_30d);
  ncs_verified_ops_total := s.(ncs_verified_ops_total);
  ncs_jobs_completed := s.(ncs_jobs_completed); ncs_jobs_failed := failed;
  ncs_success_rate_bps := rate; ncs_avg_ops_per_job := avg; ncs_hardware_tier := tier;
  ncs_last_updated := updated; ncs_recent_operations := s.(ncs_recent_operations) |}.

(** [update_hardware_tier] *)
Definition hardware_tier_for (ops30 : N) : HardwareTier :=
  if bool_decide (1000000000000 <= ops30) then EnterpriseTier
  else if bool_decide (100000000000 <= ops30) then ProfessionalTier
  else if bool_decide (10000000000 <= ops30) then StandardTier
  else if bool_decide (1000000000 <= ops30) then BasicTier
  else EntryTier.

(** [while v > 0 { v /= 10; digits += 1; }]; a [u128] has at most 39 digits. *)
Fixpoint count_digits (fuel : nat) (v digits : N) : N :=
  match fuel with
  | O => digits
  | S fuel => if bool_decide (0 < v) then count_digits fuel (v / 10) (digits + 1) else digits
  end.

Definition log10_approx (value : N) : N :=
  if bool_decide (value = 0) then 0 else sat_sub (count_digits 39 value 0) 1.

Definition compute_multiplier_bps (s : NodeComputeStats) : N :=
  if bool_decide (s.(ncs_verified_ops_30d) = 0) then 1000
  else 1000 + N.min (log10_approx s.(ncs_verified_ops_30d) * 100) 1500.

Section engine.
Context `{Build}.

Definition prune_old_operations (current_time : N) (l : list ComputeOperationRecord)
  : list ComputeOperationRecord :=
  let cutoff := sat_sub current_time COMPUTE_VERIFICATION_WINDOW in
  filter (λ r, cutoff <= r.(cor_timestamp)) l.

(** The success rate of [completed] out of [completed + failed] jobs, [old] when
    there are none. *)
Definition success_rate {E} (completed failed old : N) : outcome E N :=
  total_jobs ← u_add U64_MAX completed failed;
  if bool_decide (0 < total_jobs) then
    product ← u_mul U128_MAX completed 10000;
    rate ← u_div product total_jobs;
    Ok (cast U16_MAX rate)
  else Ok old.

Definition add_operation (record : ComputeOperationRecord) (current_time : N)
  : M SystemContractError NodeComputeStats unit :=
  s ← get;
  total ← lift (u_add U128_MAX s.(ncs_verified_ops_total) record.(cor_verified_ops));
  modify (ncs_with_total total s.(ncs_jobs_completed)) ;;
  completed ← lift (u_add U64_MAX s.(ncs_jobs_completed) 1);
  modify (ncs_with_total total completed) ;;
  let window := prune_old_operations current_time (s.(ncs_recent_operations) ++ [record]) in
  modify (ncs_with_window s.(ncs_verified_ops_30d) window) ;;
  ops30 ← lift (sum_checked U128_MAX cor_verified_ops window 0);
  modify (ncs_with_window ops30 window) ;;
  let avg := if bool_decide (0 < completed) then total / completed else s.(ncs_avg_ops_per_job) in
  modify (ncs_with_rates s.(ncs_jobs_failed) s.(ncs_success_rate_bps) avg
            s.(ncs_hardware_tier) s.(ncs_last_updated)) ;;
  rate ← lift (success_rate completed s.(ncs_jobs_failed) s.(ncs_success_rate_bps));
  modify (ncs_with_rates s.(ncs_jobs_failed) rate avg (hardware_tier_for ops30) current_time).

Definition record_failure (current_time : N) : M SystemContractError NodeComputeStats unit :=
  s ← get;
  failed ← lift (u_add U64_MAX s.(ncs_jobs_failed) 1);
  modify (ncs_with_rates failed s.(ncs_success_rate_bps) s.(ncs_avg_ops_per_job)
            s.(ncs_hardware_tier) s.(ncs_last_updated)) ;;
  rate ← lift (success_rate s.(ncs_jobs_completed) failed s.(ncs_success_rate_bps));
  modify (ncs_with_rates failed rate s.(ncs_avg_ops_per_job) s.(ncs_hardware_tier) current_time).

(** ** Bonds *)
Record ComplianceBond := {
  cb_bond_id : Hash;
  cb_node : Address;
  cb_bond_type : ComplianceBondType;
  cb_amount : TokenAmount;
  cb_created_at : N;
  cb_expires_at : N;
  cb_active : bool;
  cb_jobs_processed : N;
  cb_data_value_processed : TokenAmount;
  cb_last_job_at : N;
}.

Definition ComplianceBond_new (bond_id : Hash) (node : Address) (bond_type : ComplianceBondType)
  (amount : TokenAmount) (created_at expires_at : N) : ComplianceBond := {|
  cb_bond_id := bond_id; cb_node := node; cb_bond_type := bond_type; cb_amount := amount;
  cb_created_at := created_at; cb_expires_at := expires_at; cb_active := true;
  cb_jobs_processed := 0; cb_data_value_processed := 0; cb_last_job_at := 0 |}.

Definition bond_is_valid (b : ComplianceBond) (current_time : N) : bool :=
  b.(cb_active)
  && (bool_decide (b.(cb_expires_at) = 0) || bool_decide (current_time < b.(cb_expires_at))).

Definition cb_with (jobs value last : N) (b : ComplianceBond) : ComplianceBond := {|
  cb_bond_id := b.(cb_bond_id); cb_node := b.(cb_node); cb_bond_type := b.(cb_bond_type);
  cb_amount := b.(cb_amount); cb_created_at := b.(cb_created_at);
  cb_expires_at := b.(cb_expires_at); cb_active := b.(cb_active); cb_jobs_processed := jobs;
  cb_data_value_processed := value; cb_last_job_at := last |}.

Definition bond_record_job (data_value : TokenAmount) (timestamp : N)
  : M SystemContractError ComplianceBond unit :=
  b ← get;
  jobs ← lift (u_add U64_MAX b.(cb_jobs_processed) 1);
  modify (cb_with jobs b.(cb_data_value_processed) b.(cb_last_job_at)) ;;
  value ← lift (u_add U128_MAX b.(cb_data_value_processed) data_value);
  modify (cb_with jobs value timestamp).

Inductive LiquidationReason :=
| TeeAttestationFailure | DataBreach | UnauthorizedAccess | AuditFailure | PrivacyViolation
| KeyCompromise.

Definition reason_u8 (r : LiquidationReason) : N :=
  match r with
  | TeeAttestationFailure => 1 | DataBreach => 2 | UnauthorizedAccess => 3 | AuditFailure => 4
  | PrivacyViolation => 5 | KeyCompromise => 6
  end.

Record BondLiquidation := {
  bl_liquidation_id : Hash;
  bl_bond_id : Hash;
  bl_node : Address;
  bl_victim : Address;
  bl_bond_amount : TokenAmount;
  bl_victim_payout : TokenAmount;
  bl_burned : TokenAmount;
  bl_reason : LiquidationReason;
  bl_evidence_hash : Hash;
  bl_timestamp : N;
}.

(** ** Congestion *)
Record CongestionMetrics := {
  cm_current_block_gas : N;
  cm_max_block_gas : N;
  cm_load_bps : N;
  cm_avg_load_bps : N;
  cm_current_burn_rate_bps : N;
  cm_epoch_burned : TokenAmount;
  cm_total_burned : TokenAmount;
  cm_block_count : N;
  cm_last_updated : N;
}.

Definition CongestionMetrics_default : CongestionMetrics := {|
  cm_current_block_gas := 0; cm_max_block_gas := 30000000; cm_load_bps := 0; cm_avg_load_bps := 0;
  cm_current_burn_rate_bps := MIN_BURN_RATE_BPS; cm_epoch_burned := 0; cm_total_burned := 0;
  cm_block_count := 0; cm_last_updated := 0 |}.

(** [(range as f64 * (avg as f64 / 10000.0)^2) as u16] *)
Definition dynamic_burn (avg_load_bps : N) : N :=
  let load_ratio := f64_div (f64_of_N avg_load_bps) (f64_of_N 10000) in
  let squared_factor := f64_mul load_ratio load_ratio in
  f64_as U16_MAX (f64_mul (f64_of_N (MAX_BURN_RATE_BPS - MIN_BURN_RATE_BPS)) squared_factor).

Definition pouw_burn_rate {E} (avg_load_bps : N) : outcome E N :=
  u_add U16_MAX MIN_BURN_RATE_BPS (dynamic_burn avg_load_bps).

Definition cm_with_load (gas limit load avg rate blocks updated : N) (m : CongestionMetrics)
  : CongestionMetrics := {|
  cm_current_block_gas := gas; cm_max_block_gas := limit; cm_load_bps := load;
  cm_avg_load_bps := avg; cm_current_burn_rate_bps := rate;
  cm_epoch_burned := m.(cm_epoch_burned); cm_total_burned := m.(cm_total_burned);
  cm_block_count := blocks; cm_last_updated := updated |}.
Definition cm_with_burned (epoch total : TokenAmount) (m : CongestionMetrics)
  : CongestionMetrics := {|
  cm_current_block_gas := m.(cm_current_block_gas); cm_max_block_gas := m.(cm_max_block_gas);
  cm_load_bps := m.(cm_load_bps); cm_avg_load_bps := m.(cm_avg_load_bps);
  cm_current_burn_rate_bps := m.(cm_current_burn_rate_bps); cm_epoch_burned := epoch;
  cm_total_burned := total; cm_block_count := m.(cm_block_count);
  cm_last_updated := m.(cm_last_updated) |}.

Definition congestion_update_block (gas_used gas_limit timestamp : N)
  : M SystemContractError CongestionMetrics unit :=
  m ← get;
  load ← (if bool_decide (0 < gas_limit) then
            product ← lift (u_mul U128_MAX gas_used 10000);
            quotient ← lift (u_div product gas_limit);
            mret (cast U16_MAX quotient)
          else mret 0);
  old ← lift (u_mul U32_MAX m.(cm_avg_load_bps) 90);
  new ← lift (u_mul U32_MAX load 10);
  sum ← lift (u_add U32_MAX old new);
  let avg := cast U16_MAX (sum / 100) in
  modify (cm_with_load gas_used gas_limit load avg m.(cm_current_burn_rate_bps)
            m.(cm_block_count) m.(cm_last_updated)) ;;
  rate ← lift (pouw_burn_rate avg);
  modify (cm_with_load gas_used gas_limit load avg rate m.(cm_block_count) m.(cm_last_updated)) ;;
  blocks ← lift (u_add U64_MAX m.(cm_block_count) 1);
  modify (cm_with_load gas_used gas_limit load avg rate blocks timestamp).

Definition congestion_burn {E} (m : CongestionMetrics) (fee : TokenAmount)
  : outcome E TokenAmount :=
  product ← u_mul U128_MAX fee m.(cm_current_burn_rate_bps);
  Ok (product / 10000).

Definition congestion_record_burn (amount : TokenAmount)
  : M SystemContractError CongestionMetrics unit :=
  m ← get;
  epoch ← lift (u_add U128_MAX m.(cm_epoch_burned) amount);
  modify (cm_with_burned epoch m.(cm_total_burned)) ;;
  total ← lift (u_add U128_MAX m.(cm_total_burned) amount);
  modify (cm_with_burned epoch total).

Definition congestion_reset_epoch (m : CongestionMetrics) : CongestionMetrics :=
  cm_with_burned 0 m.(cm_total_burned) m.

(** ** The sovereignty oracle *)
Record ProviderStats := {
  pst_provider : Address;
  pst_total_requests : N;
  pst_total_earnings : TokenAmount;
  pst_requests_by_region : gmap N N;
  pst_avg_premium_bps : N;
  pst_reputation_score : N;
  pst_last_active : N;
}.

Definition ProviderStats_new (provider : Address) : ProviderStats := {|
  pst_provider := provider; pst_total_requests := 0; pst_total_earnings := 0;
  pst_requests_by_region := ∅; pst_avg_premium_bps := 0; pst_reputation_score := 5000;
  pst_last_active := 0 |}.

Definition pst_with (requests earnings : N) (by_region : gmap N N) (active : N)
  (p : ProviderStats) : ProviderStats := {|
  pst_provider := p.(pst_provider); pst_total_requests := requests;
  pst_total_earnings := earnings; pst_requests_by_region := by_region;
  pst_avg_premium_bps := p.(pst_avg_premium_bps);
  pst_reputation_score := p.(pst_reputation_score); pst_last_active := active |}.

Definition provider_record_request (price : TokenAmount) (region : SovereigntyRegion)
  (timestamp : N) : M SystemContractError ProviderStats unit :=
  p ← get;
  requests ← lift (u_add U64_MAX p.(pst_total_requests) 1);
  modify (pst_with requests p.(pst_total_earnings) p.(pst_requests_by_region)
            p.(pst_last_active)) ;;
  earnings ← lift (u_add U128_MAX p.(pst_total_earnings) price);
  modify (pst_with requests earnings p.(pst_requests_by_region) p.(pst_last_active)) ;;
  bump U64_MAX pst_requests_by_region
    (λ m p, pst_with p.(pst_total_requests) p.(pst_total_earnings) m p.(pst_last_active) p)
    (region_u8 region) 1 ;;
  modify (λ p, pst_with p.(pst_total_requests) p.(pst_total_earnings)
                 p.(pst_requests_by_region) timestamp p).

Record OracleDataRequest := {
  odr_request_id : Hash;
  odr_requester : Address;
  odr_provider : Address;
  odr_region : SovereigntyRegion;
  odr_verification_level : DataVerificationLevel;
  odr_category : DataCategory;
  odr_base_price : TokenAmount;
  odr_premium_multiplier_bps : N;
  odr_final_price : TokenAmount;
  odr_timestamp : N;
  odr_fulfilled : bool;
}.

Record SovereigntyOracle := {
  so_base_price : TokenAmount;
  so_total_requests : N;
  so_total_premium_collected : TokenAmount;
  so_requests_by_region : gmap N N;
  so_revenue_by_region : gmap N N;
  so_provider_stats : gmap Address ProviderStats;
}.

Definition SovereigntyOracle_default : SovereigntyOracle := {|
  so_base_price := POUW_ONE_AETHEL / 100; so_total_requests := 0; so_total_premium_collected := 0;
  so_requests_by_region := ∅; so_revenue_by_region := ∅; so_provider_stats := ∅ |}.

Definition so_with (requests premium : N) (by_region revenue : gmap N N)
  (providers : gmap Address ProviderStats) (o : SovereigntyOracle) : SovereigntyOracle := {|
  so_base_price := o.(so_base_price); so_total_requests := requests;
  so_total_premium_collected := premium; so_requests_by_region := by_region;
  so_revenue_by_region := revenue; so_provider_stats := providers |}.

Definition calculate_price {E} (o : SovereigntyOracle) (region : SovereigntyRegion)
  (verification : DataVerificationLevel) (category : DataCategory)
  : outcome E (TokenAmount * N) :=
  let category_mult := base_multiplier_bps category in
  let sovereignty_mult := premium_multiplier_bps region (level_is_verified verification) in
  let verification_mult := verification_premium_bps verification in
  product ← u_mul U128_MAX category_mult sovereignty_mult;
  product ← u_mul U128_MAX product verification_mult;
  let combined_mult := product / 10000 in
  price ← u_mul U128_MAX o.(so_base_price) combined_mult;
  Ok (price / 100, cast U16_MAX combined_mult).

Definition process_request (request_id : Hash) (requester provider : Address)
  (region : SovereigntyRegion) (verification : DataVerificationLevel) (category : DataCategory)
  (timestamp : N) : M SystemContractError SovereigntyOracle OracleDataRequest :=
  o ← get;
  '(final_price, multiplier) ← lift (calculate_price o region verification category);
  requests ← lift (u_add U64_MAX o.(so_total_requests) 1);
  modify (λ o, so_with requests o.(so_total_premium_collected) o.(so_requests_by_region)
                 o.(so_revenue_by_region) o.(so_provider_stats) o) ;;
  premium ← lift (u_add U128_MAX o.(so_total_premium_collected) final_price);
  modify (λ o, so_with requests premium o.(so_requests_by_region)
                 o.(so_revenue_by_region) o.(so_provider_stats) o) ;;
  bump U64_MAX so_requests_by_region
    (λ m o, so_with o.(so_total_requests) o.(so_total_premium_collected) m
              o.(so_revenue_by_region) o.(so_provider_stats) o) (region_u8 region) 1 ;;
  bump U128_MAX so_revenue_by_region
    (λ m o, so_with o.(so_total_requests) o.(so_total_premium_collected)
              o.(so_requests_by_region) m o.(so_provider_stats) o) (region_u8 region) final_price ;;
  zoom (λ o, default (ProviderStats_new provider) (o.(so_provider_stats) !! provider))
    (λ p o, so_with o.(so_total_requests) o.(so_total_premium_collected)
              o.(so_requests_by_region) o.(so_revenue_by_region)
              (<[provider := p]> o.(so_provider_stats)) o)
    (provider_record_request final_price region timestamp) ;;
  mret {| odr_request_id := request_id; odr_requester := requester; odr_provider := provider;
          odr_region := region; odr_verification_level := verification; odr_category := category;
          odr_base_price := o.(so_base_price); odr_premium_multiplier_bps := multiplier;
          odr_final_price := final_price; odr_timestamp := timestamp; odr_fulfilled := false |}.

(** ** The engine *)
Record PoUWConfig := {
  pwc_base_apy_bps : N;
  pwc_max_compute_multiplier_bps : N;
  pwc_min_burn_rate_bps : N;
  pwc_max_burn_rate_bps : N;
  pwc_victim_payout_bps : N;
  pwc_bond_burn_bps : N;
  pwc_compute_window_secs : N;
  pwc_min_ops_for_bonus : N;
  pwc_enable_compute_weight : bool;
  pwc_enable_compliance_bonds : bool;
  pwc_enable_congestion_burn : bool;
  pwc_enable_sovereignty_premium : bool;
}.

Definition PoUWConfig_default : PoUWConfig := {|
  pwc_base_apy_bps := BASE_APY_BPS;
  pwc_max_compute_multiplier_bps := MAX_COMPUTE_MULTIPLIER_BPS;
  pwc_min_burn_rate_bps := MIN_BURN_RATE_BPS; pwc_max_burn_rate_bps := MAX_BURN_RATE_BPS;
  pwc_victim_payout_bps := COMPLIANCE_VICTIM_PAYOUT_BPS; pwc_bond_burn_bps := COMPLIANCE_BURN_BPS;
  pwc_compute_window_secs := COMPUTE_VERIFICATION_WINDOW;
  pwc_min_ops_for_bonus := COMPUTE_TIER_THRESHOLD; pwc_enable_compute_weight := true;
  pwc_enable_compliance_bonds := true; pwc_enable_congestion_burn := true;
  pwc_enable_sovereignty_premium := true |}.

Definition PoUWConfig_mainnet : PoUWConfig := PoUWConfig_default.

Definition pwc_network (min_rate max_rate min_ops : N) (bonds : bool) : PoUWConfig := {|
  pwc_base_apy_bps := BASE_APY_BPS;
  pwc_max_compute_multiplier_bps := MAX_COMPUTE_MULTIPLIER_BPS;
  pwc_min_burn_rate_bps := min_rate; pwc_max_burn_rate_bps := max_rate;
  pwc_victim_payout_bps := COMPLIANCE_VICTIM_PAYOUT_BPS; pwc_bond_burn_bps := COMPLIANCE_BURN_BPS;
  pwc_compute_window_secs := COMPUTE_VERIFICATION_WINDOW; pwc_min_ops_for_bonus := min_ops;
  pwc_enable_compute_weight := true; pwc_enable_compliance_bonds := bonds;
  pwc_enable_congestion_burn := true; pwc_enable_sovereignty_premium := true |}.
Definition PoUWConfig_testnet : PoUWConfig := pwc_network 300 1500 100000 true.
Definition PoUWConfig_devnet : PoUWConfig := pwc_network 100 1000 1000 false.

Inductive PoUWEvent :=
| ComputeMultiplierUpdated (node : Address) (old_multiplier_bps new_multiplier_bps : N)
    (verified_ops_30d hardware_tier : N)
| ComplianceBondPosted (bond_id : Hash) (node : Address) (bond_type : N) (amount : TokenAmount)
    (expires_at : N)
| ComplianceBondLiquidated (liquidation_id bond_id : Hash) (node victim : Address)
    (bond_amount victim_payout burned : TokenAmount) (reason : N)
| PoUWBurnRateUpdated (old_rate_bps new_rate_bps network_load_bps : N) (total_burned : TokenAmount)
| FeeProcessed (total_fee prover_amount validator_amount burn_amount : TokenAmount)
    (burn_rate_bps network_load_bps : N)
| SovereigntyPremiumCharged (request_id : Hash) (requester provider : Address)
    (region verification_level category : N) (base_price : TokenAmount)
    (premium_multiplier_bps : N) (final_price : TokenAmount)
| ComputeOperationVerified (operation_id : Hash) (node : Address) (job_id : JobId)
    (verified_ops tee_type : N) (zk_verified : bool)
| HardwareTierUpgraded (node : Address) (old_tier new_tier total_ops : N)
| ComputeWeightedRewardCalculated (node : Address) (base_reward final_reward : TokenAmount)
    (multiplier_bps tier_bonus_bps : N)
| ComplianceBondReleased (bond_id : Hash) (node : Address) (amount : TokenAmount)
| ComplianceCooldownStarted (node : Address) (cooldown_until : N) (reason : string)
| ComplianceCooldownExpired (node : Address)
| SignificantBurn (amount : TokenAmount) (tx_hash : Hash) (burn_rate_bps : N)
    (total_burned : TokenAmount)
| CongestionSpikeDetected (previous_load_bps current_load_bps new_burn_rate_bps block_height : N)
| DataProviderRegistered (provider : Address) (regions : list N) (verification_level : N)
| ProviderPremiumEarned (provider : Address) (amount : TokenAmount) (region : N)
    (total_earnings : TokenAmount)
| StatsSnapshot (block_height compute_nodes total_compute_ops_30d active_compliance_bonds : N)
    (total_bond_value : TokenAmount) (burn_rate_bps network_load_bps : N)
    (total_burned : TokenAmount)
| EpochStarted (epoch timestamp burn_rate_bps : N)
| EpochEnded (epoch timestamp : N) (total_burned total_rewards_distributed : TokenAmount).

Record PoUWEngine := {
  pe_config : PoUWConfig;
  pe_compute_registry : gmap Address NodeComputeStats;
  pe_compliance_bonds : gmap Address (list ComplianceBond);
  pe_bond_lookup : gmap Hash Address;
  pe_liquidation_history : list BondLiquidation;
  pe_congestion : CongestionMetrics;
  pe_sovereignty_oracle : SovereigntyOracle;
  pe_total_staked : TokenAmount;
  pe_node_stakes : gmap Address TokenAmount;
  pe_node_cooldowns : gmap Address N;
  pe_events : list PoUWEvent;
  pe_current_epoch : N;
  pe_current_time : N;
}.

Definition PoUWEngine_new (config : PoUWConfig) : PoUWEngine := {|
  pe_config := config; pe_compute_registry := ∅; pe_compliance_bonds := ∅; pe_bond_lookup := ∅;
  pe_liquidation_history := []; pe_congestion := CongestionMetrics_default;
  pe_sovereignty_oracle := SovereigntyOracle_default; pe_total_staked := 0; pe_node_stakes := ∅;
  pe_node_cooldowns := ∅; pe_events := []; pe_current_epoch := 0; pe_current_time := 0 |}.

Definition PoUWEngine_mainnet : PoUWEngine := PoUWEngine_new PoUWConfig_mainnet.

(** Field assignments. *)
Definition pe_with_registry (v : gmap Address NodeComputeStats) (e : PoUWEngine) : PoUWEngine := {|
  pe_config := e.(pe_config); pe_compute_registry := v;
  pe_compliance_bonds := e.(pe_compliance_bonds); pe_bond_lookup := e.(pe_bond_lookup);
  pe_liquidation_history := e.(pe_liquidation_history); pe_congestion := e.(pe_congestion);
  pe_sovereignty_oracle := e.(pe_sovereignty_oracle); pe_total_staked := e.(pe_total_staked);
  pe_node_stakes := e.(pe_node_stakes); pe_node_cooldowns := e.(pe_node_cooldowns);
  pe_events := e.(pe_events); pe_current_epoch := e.(pe_current_epoch);
  pe_current_time := e.(pe_current_time) |}.
Definition pe_with_bonds (bonds : gmap Address (list ComplianceBond)) (lookup : gmap Hash Address)
  (history : list BondLiquidation) (cooldowns : gmap Address N) (e : PoUWEngine) : PoUWEngine := {|
  pe_config := e.(pe_config); pe_compute_registry := e.(pe_compute_registry);
  pe_compliance_bonds := bonds; pe_bond_lookup := lookup; pe_liquidation_history := history;
  pe_congestion := e.(pe_congestion); pe_sovereignty_oracle := e.(pe_sovereignty_oracle);
  pe_total_staked := e.(pe_total_staked); pe_node_stakes := e.(pe_node_stakes);
  pe_node_cooldowns := cooldowns; pe_events := e.(pe_events);
  pe_current_epoch := e.(pe_current_epoch); pe_current_time := e.(pe_current_time) |}.
Definition pe_with_congestion (v : CongestionMetrics) (e : PoUWEngine) : PoUWEngine := {|
  pe_config := e.(pe_config); pe_compute_registry := e.(pe_compute_registry);
  pe_compliance_bonds := e.(pe_compliance_bonds); pe_bond_lookup := e.(pe_bond_lookup);
  pe_liquidation_history := e.(pe_liquidation_history); pe_congestion := v;
  pe_sovereignty_oracle := e.(pe_sovereignty_oracle); pe_total_staked := e.(pe_total_staked);
  pe_node_stakes := e.(pe_node_stakes); pe_node_cooldowns := e.(pe_node_cooldowns);
  pe_events := e.(pe_events); pe_current_epoch := e.(pe_current_epoch);
  pe_current_time := e.(pe_current_time) |}.
Definition pe_with_oracle (v : SovereigntyOracle) (e : PoUWEngine) : PoUWEngine := {|
  pe_config := e.(pe_config); pe_compute_registry := e.(pe_compute_registry);
  pe_compliance_bonds := e.(pe_compliance_bonds); pe_bond_lookup := e.(pe_bond_lookup);
  pe_liquidation_history := e.(pe_liquidation_history); pe_congestion := e.(pe_congestion);
  pe_sovereignty_oracle := v; pe_total_staked := e.(pe_total_staked);
  pe_node_stakes := e.(pe_node_stakes); pe_node_cooldowns := e.(pe_node_cooldowns);
  pe_events := e.(pe_events); pe_current_epoch := e.(pe_current_epoch);
  pe_current_time := e.(pe_current_time) |}.
Definition pe_with_stakes (total : TokenAmount) (stakes : gmap Address TokenAmount)
  (e : PoUWEngine) : PoUWEngine := {|
  pe_config := e.(pe_config); pe_compute_registry := e.(pe_compute_registry);
  pe_compliance_bonds := e.(pe_compliance_bonds); pe_bond_lookup := e.(pe_bond_lookup);
  pe_liquidation_history := e.(pe_liquidation_history); pe_congestion := e.(pe_congestion);
  pe_sovereignty_oracle := e.(pe_sovereignty_oracle); pe_total_staked := total;
  pe_node_stakes := stakes; pe_node_cooldowns := e.(pe_node_cooldowns);
  pe_events := e.(pe_events); pe_current_epoch := e.(pe_current_epoch);
  pe_current_time := e.(pe_current_time) |}.
Definition pe_with_clock (events : list PoUWEvent) (epoch time : N) (e : PoUWEngine)
  : PoUWEngine := {|
  pe_config := e.(pe_config); pe_compute_registry := e.(pe_compute_registry);
  pe_compliance_bonds := e.(pe_compliance_bonds); pe_bond_lookup := e.(pe_bond_lookup);
  pe_liquidation_history := e.(pe_liquidation_history); pe_congestion := e.(pe_congestion);
  pe_sovereignty_oracle := e.(pe_sovereignty_oracle); pe_total_staked := e.(pe_total_staked);
  pe_node_stakes := e.(pe_node_stakes); pe_node_cooldowns := e.(pe_node_cooldowns);
  pe_events := events; pe_current_epoch := epoch; pe_current_time := time |}.

Abbreviation PouwM A := (M SystemContractError PoUWEngine A).

Definition push_pouw_event (ev : PoUWEvent) : PouwM unit :=
  modify (λ e, pe_with_clock (e.(pe_events) ++ [ev]) e.(pe_current_epoch) e.(pe_current_time) e).

Definition on_congestion {A} : M SystemContractError CongestionMetrics A → PouwM A :=
  zoom pe_congestion pe_with_congestion.

(** The entry of a node in the compute registry, created when absent. *)
Definition on_node {A} (node : Address) : M SystemContractError NodeComputeStats A → PouwM A :=
  zoom (λ e, default (NodeComputeStats_new node) (e.(pe_compute_registry) !! node))
    (λ s e, pe_with_registry (<[node := s]> e.(pe_compute_registry)) e).

Section methods.
Context `{Crypto}.

Definition generate_operation_id (node : Address) (job_id : JobId) (timestamp : N) : Hash :=
  sha256 (string_bytes "pouw-op-v1:" ++ node ++ job_id ++ to_le_bytes 8 timestamp).
Definition generate_bond_id (node : Address) (bond_type : ComplianceBondType) (timestamp : N)
  : Hash :=
  sha256 (string_bytes "pouw-bond-v1:" ++ node ++ [bond_type_u8 bond_type]
            ++ to_le_bytes 8 timestamp).
Definition generate_liquidation_id (node : Address) (bond_id : Hash) (timestamp : N) : Hash :=
  sha256 (string_bytes "pouw-liq-v1:" ++ node ++ bond_id ++ to_le_bytes 8 timestamp).
Definition generate_request_id (requester provider : Address) (timestamp : N) : Hash :=
  sha256 (string_bytes "pouw-oracle-v1:" ++ requester ++ provider ++ to_le_bytes 8 timestamp).

(** ** Compute-weighted rewards *)
Definition calculate_epoch_reward {E} (e : PoUWEngine) (node : Address) (epoch_duration_secs : N)
  : outcome E TokenAmount :=
  let staked := default 0 (e.(pe_node_stakes) !! node) in
  if bool_decide (staked = 0) then Ok 0 else
  let seconds_per_year := 365 * 24 * 60 * 60 in
  product ← u_mul U128_MAX staked e.(pe_config).(pwc_base_apy_bps);
  product ← u_mul U128_MAX product epoch_duration_secs;
  let base_reward := product / (10000 * seconds_per_year) in
  if negb e.(pe_config).(pwc_enable_compute_weight) then Ok base_reward else
  let compute_stats := e.(pe_compute_registry) !! node in
  let multiplier_bps := default 1000 (compute_multiplier_bps <$> compute_stats) in
  let tier_bonus := default 0 ((λ s, tier_bonus_bps s.(ncs_hardware_tier)) <$> compute_stats) in
  total_multiplier_bps ← u_add U16_MAX multiplier_bps tier_bonus;
  let capped_multiplier :=
    N.min total_multiplier_bps e.(pe_config).(pwc_max_compute_multiplier_bps) in
  product ← u_mul U128_MAX base_reward capped_multiplier;
  Ok (product / 1000).

Definition register_compute_operation (node : Address) (job_id : JobId) (verified_ops : N)
  (tee_type : TeeVerificationType) (proof_hash : Hash) (hardware_id : string) (zk_verified : bool)
  : PouwM unit :=
  now ← gets pe_current_time;
  let record := {|
    cor_operation_id := generate_operation_id node job_id now; cor_job_id := job_id;
    cor_timestamp := now; cor_verified_ops := verified_ops; cor_tee_type := tee_type;
    cor_proof_hash := proof_hash; cor_hardware_id := hardware_id;
    cor_zk_verified := zk_verified |} in
  old_multiplier ← on_node node (gets compute_multiplier_bps);
  on_node node (add_operation record now) ;;
  stats ← on_node node get;
  let new_multiplier := compute_multiplier_bps stats in
  when (negb (bool_decide (new_multiplier = old_multiplier)))
    (push_pouw_event (ComputeMultiplierUpdated node old_multiplier new_multiplier
       stats.(ncs_verified_ops_30d) (tier_u8 stats.(ncs_hardware_tier)))).

Definition record_compute_failure (node : Address) : PouwM unit :=
  now ← gets pe_current_time;
  on_node node (record_failure now).

(** ** Compliance bonds *)
Definition post_compliance_bond (node : Address) (bond_type : ComplianceBondType)
  (amount : TokenAmount) (expires_at : N) : PouwM Hash :=
  e ← get;
  let required := required_bond bond_type in
  ensure (negb (bool_decide (amount < required))) (InsufficientBond required amount) ;;
  match e.(pe_node_cooldowns) !! node with
  | Some cooldown_until =>
      ensure (negb (bool_decide (e.(pe_current_time) < cooldown_until)))
        (NodeInCooldown cooldown_until)
  | None => mret tt
  end ;;
  let bond_id := generate_bond_id node bond_type e.(pe_current_time) in
  let bond := ComplianceBond_new bond_id node bond_type amount e.(pe_current_time) expires_at in
  modify (pe_with_bonds
    (<[node := default [] (e.(pe_compliance_bonds) !! node) ++ [bond]]> e.(pe_compliance_bonds))
    (<[bond_id := node]> e.(pe_bond_lookup)) e.(pe_liquidation_history) e.(pe_node_cooldowns)) ;;
  push_pouw_event (ComplianceBondPosted bond_id node (bond_type_u8 bond_type) amount expires_at) ;;
  mret bond_id.

Definition has_valid_bond (e : PoUWEngine) (node : Address) (bond_type : ComplianceBondType)
  : bool :=
  default false ((λ bonds, existsb (λ b, bool_decide (b.(cb_bond_type) = bond_type)
                   && bond_is_valid b e.(pe_current_time)) bonds)
                 <$> e.(pe_compliance_bonds) !! node).

Definition total_bond_amount {E} (e : PoUWEngine) (node : Address) : outcome E TokenAmount :=
  match e.(pe_compliance_bonds) !! node with
  | Some bonds => sum_checked U128_MAX cb_amount
                    (filter (λ b, bond_is_valid b e.(pe_current_time) = true) bonds) 0
  | None => Ok 0
  end.

(** [iter().position(p)] then [remove]: the first bond with the id, and the others. *)
Fixpoint take_bond (bond_id : Hash) (bonds : list ComplianceBond)
  : option (ComplianceBond * list ComplianceBond) :=
  match bonds with
  | [] => None
  | b :: bonds =>
      if bool_decide (b.(cb_bond_id) = bond_id) then Some (b, bonds)
      else '(b', rest) ← take_bond bond_id bonds; Some (b', b :: rest)
  end.

Definition execute_compliance_slash (node : Address) (bond_id : Hash) (victim : Address)
  (reason : LiquidationReason) (evidence_hash : Hash) : PouwM BondLiquidation :=
  e ← get;
  let now := e.(pe_current_time) in
  bonds ← ok_or (e.(pe_compliance_bonds) !! node) NoBondFound;
  '(bond, rest) ← ok_or (take_bond bond_id bonds) NoBondFound;
  modify (λ e, pe_with_bonds (<[node := rest]> e.(pe_compliance_bonds))
    (delete bond_id e.(pe_bond_lookup)) e.(pe_liquidation_history) e.(pe_node_cooldowns) e) ;;
  product ← lift (u_mul U128_MAX bond.(cb_amount) e.(pe_config).(pwc_victim_payout_bps));
  let victim_payout := product / 10000 in
  burned ← lift (u_sub U128_MAX bond.(cb_amount) victim_payout);
  let liquidation := {|
    bl_liquidation_id := generate_liquidation_id node bond_id now; bl_bond_id := bond_id;
    bl_node := node; bl_victim := victim; bl_bond_amount := bond.(cb_amount);
    bl_victim_payout := victim_payout; bl_burned := burned; bl_reason := reason;
    bl_evidence_hash := evidence_hash; bl_timestamp := now |} in
  modify (λ e, pe_with_bonds e.(pe_compliance_bonds) e.(pe_bond_lookup)
    (e.(pe_liquidation_history) ++ [liquidation]) e.(pe_node_cooldowns) e) ;;
  cooldown ← lift (u_add U64_MAX now ATTESTATION_FAILURE_COOLDOWN);
  modify (λ e, pe_with_bonds e.(pe_compliance_bonds) e.(pe_bond_lookup)
    e.(pe_liquidation_history) (<[node := cooldown]> e.(pe_node_cooldowns)) e) ;;
  on_congestion (congestion_record_burn burned) ;;
  push_pouw_event (ComplianceBondLiquidated liquidation.(bl_liquidation_id) bond_id node victim
    bond.(cb_amount) victim_payout burned (reason_u8 reason)) ;;
  mret liquidation.

(** ** Congestion burn *)
Definition pouw_update_block (gas_used gas_limit timestamp : N) : PouwM unit :=
  modify (λ e, pe_with_clock e.(pe_events) e.(pe_current_epoch) timestamp e) ;;
  e ← get;
  if negb e.(pe_config).(pwc_enable_congestion_burn) then mret tt else
  let old_rate := e.(pe_congestion).(cm_current_burn_rate_bps) in
  on_congestion (congestion_update_block gas_used gas_limit timestamp) ;;
  c ← gets pe_congestion;
  let new_rate := c.(cm_current_burn_rate_bps) in
  when (bool_decide (100 <= Z.to_N (Z.abs (Z.of_N new_rate - Z.of_N old_rate))))
    (push_pouw_event (PoUWBurnRateUpdated old_rate new_rate c.(cm_avg_load_bps)
                        c.(cm_total_burned))).

Definition pouw_calculate_burn {E} (e : PoUWEngine) (fee : TokenAmount)
  : outcome E (TokenAmount * N) :=
  if negb e.(pe_config).(pwc_enable_congestion_burn) then
    product ← u_mul U128_MAX fee e.(pe_config).(pwc_min_burn_rate_bps);
    Ok (product / 10000, e.(pe_config).(pwc_min_burn_rate_bps))
  else
    burn ← congestion_burn e.(pe_congestion) fee;
    Ok (burn, e.(pe_congestion).(cm_current_burn_rate_bps)).

Record PouwFeeDistribution := {
  pfd_total_fee : TokenAmount;
  pfd_prover_amount : TokenAmount;
  pfd_validator_amount : TokenAmount;
  pfd_burn_amount : TokenAmount;
  pfd_burn_rate_bps : N;
}.

Definition pouw_process_fee (fee : TokenAmount) : PouwM PouwFeeDistribution :=
  e ← get;
  '(burn_amount, burn_rate) ← lift (pouw_calculate_burn e fee);
  product ← lift (u_mul U128_MAX fee 70);
  let prover_amount := product / 100 in
  let validator_amount := sat_sub (sat_sub fee prover_amount) burn_amount in
  on_congestion (congestion_record_burn burn_amount) ;;
  push_pouw_event (FeeProcessed fee prover_amount validator_amount burn_amount burn_rate
                     e.(pe_congestion).(cm_avg_load_bps)) ;;
  mret {| pfd_total_fee := fee; pfd_prover_amount := prover_amount;
          pfd_validator_amount := validator_amount; pfd_burn_amount := burn_amount;
          pfd_burn_rate_bps := burn_rate |}.

(** ** Sovereignty pricing *)
Definition price_oracle_data {E} (e : PoUWEngine) (region : string)
  (verification : DataVerificationLevel) (category : DataCategory) : outcome E (TokenAmount * N) :=
  if negb e.(pe_config).(pwc_enable_sovereignty_premium) then
    Ok (e.(pe_sovereignty_oracle).(so_base_price), 100)
  else calculate_price e.(pe_sovereignty_oracle) (default PublicRegion (region_from_str region))
         verification category.

Definition process_oracle_request (requester provider : Address) (region : string)
  (verification : DataVerificationLevel) (category : DataCategory) : PouwM OracleDataRequest :=
  let sovereignty_region := default PublicRegion (region_from_str region) in
  now ← gets pe_current_time;
  let request_id := generate_request_id requester provider now in
  request ← zoom pe_sovereignty_oracle pe_with_oracle
    (process_request request_id requester provider sovereignty_region verification category now);
  push_pouw_event (SovereigntyPremiumCharged request_id requester provider
    (region_u8 sovereignty_region) (verification_u8 verification) (category_u8 category)
    request.(odr_base_price) request.(odr_premium_multiplier_bps) request.(odr_final_price)) ;;
  mret request.

(** ** Stakes *)
Definition register_stake (node : Address) (amount : TokenAmount) : PouwM unit :=
  e ← get;
  let current := default 0 (e.(pe_node_stakes) !! node) in
  sum ← lift (u_add U128_MAX current amount);
  modify (pe_with_stakes e.(pe_total_staked) (<[node := sum]> e.(pe_node_stakes))) ;;
  total ← lift (u_add U128_MAX e.(pe_total_staked) amount);
  modify (λ e, pe_with_stakes total e.(pe_node_stakes) e).

Definition reduce_stake (node : Address) (amount : TokenAmount) : PouwM unit :=
  e ← get;
  let current := default 0 (e.(pe_node_stakes) !! node) in
  ensure (negb (bool_decide (current < amount))) (InsufficientStake amount current) ;;
  modify (pe_with_stakes (sat_sub e.(pe_total_staked) amount)
            (<[node := current - amount]> e.(pe_node_stakes))).

(** ** Queries *)
Definition get_compute_stats (e : PoUWEngine) (node : Address) : option NodeComputeStats :=
  e.(pe_compute_registry) !! node.
Definition get_compliance_bonds (e : PoUWEngine) (node : Address)
  : option (list ComplianceBond) := e.(pe_compliance_bonds) !! node.

Record PoUWStats := {
  pws_compute_nodes : N;
  pws_total_compute_ops_30d : N;
  pws_active_compliance_bonds : N;
  pws_total_bond_value : TokenAmount;
  pws_total_liquidations : N;
  pws_current_burn_rate_bps : N;
  pws_network_load_bps : N;
  pws_total_burned : TokenAmount;
  pws_total_staked : TokenAmount;
  pws_oracle_requests : N;
  pws_oracle_revenue : TokenAmount;
}.

Definition pouw_stats {E} (e : PoUWEngine) : outcome E PoUWStats :=
  total_compute_ops ← sum_checked U128_MAX ncs_verified_ops_30d
                        (map_to_list e.(pe_compute_registry)).*2 0;
  let valid := filter (λ b, bond_is_valid b e.(pe_current_time) = true)
                 (concat (map_to_list e.(pe_compliance_bonds)).*2) in
  total_bond_value ← sum_checked U128_MAX cb_amount valid 0;
  Ok {| pws_compute_nodes := cast U32_MAX (N.of_nat (size e.(pe_compute_registry)));
        pws_total_compute_ops_30d := total_compute_ops;
        pws_active_compliance_bonds := N.of_nat (length valid);
        pws_total_bond_value := total_bond_value;
        pws_total_liquidations := N.of_nat (length e.(pe_liquidation_history));
        pws_current_burn_rate_bps := e.(pe_congestion).(cm_current_burn_rate_bps);
        pws_network_load_bps := e.(pe_congestion).(cm_avg_load_bps);
        pws_total_burned := e.(pe_congestion).(cm_total_burned);
        pws_total_staked := e.(pe_total_staked);
        pws_oracle_requests := e.(pe_sovereignty_oracle).(so_total_requests);
        pws_oracle_revenue := e.(pe_sovereignty_oracle).(so_total_premium_collected) |}.

(** ** Epochs *)
Definition set_time (timestamp : N) : PouwM unit :=
  modify (λ e, pe_with_clock e.(pe_events) e.(pe_current_epoch) timestamp e).

Definition start_epoch (epoch : N) : PouwM unit :=
  modify (λ e, pe_with_clock e.(pe_events) epoch e.(pe_current_time) e) ;;
  modify (λ e, pe_with_congestion (congestion_reset_epoch e.(pe_congestion)) e) ;;
  e ← get;
  push_pouw_event (EpochStarted epoch e.(pe_current_time)
                     e.(pe_congestion).(cm_current_burn_rate_bps)).

Definition pouw_drain_events : PouwM (list PoUWEvent) :=
  e ← get;
  put (pe_with_clock [] e.(pe_current_epoch) e.(pe_current_time) e) ;;
  mret e.(pe_events).

Definition end_epoch : PouwM (list PoUWEvent) :=
  e ← get;
  push_pouw_event (EpochEnded e.(pe_current_epoch) e.(pe_current_time)
                     e.(pe_congestion).(cm_epoch_burned) 0) ;;
  pouw_drain_events.
End methods.
End engine.
