(* ===== verification/Kernel.v ===== *)
(** * The system kernel

    [crates/vm/src/system_contracts/mod.rs]: the object that owns the bank, the
    job registry, the staking manager and the compliance module, dispatches the
    system calls to them, and runs the end of a block.

    The kernel's fields are behind locks.  A call is modelled from the moment
    no guard is held; within a call the only lock taken twice is the bank's
    ([SubmitProof] holds its write guard while the staking manager, which owns
    the same lock, may take it again to slash). *)
From S2P Require Import Prelude SysTypes F64 Precompile Tokenomics Slashing PouwEngine Bank Staking JobRegistry Compliance.
From stdpp Require Import base gmap list strings pretty.
From Stdlib Require Import ZArith Lia.
#[local] Open Scope N_scope.

(** ** Genesis configuration *)
Record ChainParameters := {
  cp_block_time_ms : N;
  cp_epoch_length : N;
  cp_max_block_gas : N;
  cp_min_tx_fee : TokenAmount;
}.

Record GenesisConfig := {
  gc_chain_id : string;
  gc_launch_timestamp : N;
  gc_allocations : list TokenAllocation;
  gc_job_config : JobConfig;
  gc_staking_config : StakingConfig;
  gc_compliance_config : ComplianceConfig;
  gc_parameters : ChainParameters;
}.

Definition GenesisConfig_mainnet : GenesisConfig := {|
  gc_chain_id := "aethelred-mainnet-1";
  gc_launch_timestamp := 0;
  gc_allocations := [{|
    ta_address := TREASURY_ADDRESS;
    ta_balance := 200000000000000000000;
    ta_vesting := Some {| vsg_cliff_duration := 365 * 24 * 3600;
                          vsg_total_duration := 4 * 365 * 24 * 3600;
                          vsg_tge_amount := 10000000000000000000 |} |}];
  gc_job_config := JobConfig_mainnet;
  gc_staking_config := StakingConfig_mainnet;
  gc_compliance_config := ComplianceConfig_mainnet;
  gc_parameters := {| cp_block_time_ms := 6000; cp_epoch_length := 43200;
                      cp_max_block_gas := 30000000; cp_min_tx_fee := 1000000000000 |};
|}.

Definition GenesisConfig_testnet : GenesisConfig := {|
  gc_chain_id := "aethelred-testnet-1";
  gc_launch_timestamp := 0;
  gc_allocations := [];
  gc_job_config := JobConfig_testnet;
  gc_staking_config := StakingConfig_testnet;
  gc_compliance_config := ComplianceConfig_testnet;
  gc_parameters := {| cp_block_time_ms := 3000; cp_epoch_length := 21600;
                      cp_max_block_gas := 50000000; cp_min_tx_fee := 100000000000 |};
|}.

Definition GenesisConfig_devnet : GenesisConfig := {|
  gc_chain_id := "aethelred-devnet";
  gc_launch_timestamp := 0;
  gc_allocations := [];
  gc_job_config := JobConfig_devnet;
  gc_staking_config := StakingConfig_devnet;
  gc_compliance_config := ComplianceConfig_devnet;
  gc_parameters := {| cp_block_time_ms := 1000; cp_epoch_length := 100;
                      cp_max_block_gas := 100000000; cp_min_tx_fee := 0 |};
|}.

Definition GenesisConfig_validate (g : GenesisConfig) : Result unit :=
  (if bool_decide (g.(gc_chain_id) = EmptyString)
   then Err (InvalidConfig "Empty chain_id") else Ok tt) ;;
  (if bool_decide (g.(gc_parameters).(cp_block_time_ms) = 0)
   then Err (InvalidConfig "Block time cannot be 0") else Ok tt) ;;
  (if bool_decide (g.(gc_parameters).(cp_epoch_length) = 0)
   then Err (InvalidConfig "Epoch length cannot be 0") else Ok tt) ;;
  JobConfig_validate g.(gc_job_config) ;;
  StakingConfig_validate g.(gc_staking_config) ;;
  ComplianceConfig_validate g.(gc_compliance_config).

(** ** System calls *)
Inductive SystemCall :=
| SubmitJob (params : SubmitJobParams)
| AssignJob (job_id : JobId) (prover : Address)
| SubmitProof (params : SubmitProofParams)
| CancelJob (job_id : JobId) (requester : Address)
| Stake (staker : Address) (amount : TokenAmount) (role : StakeRole)
| Unstake (staker : Address) (amount : TokenAmount)
| WithdrawStake (staker : Address)
| AddSanctionedAddress (address : Address) (list_name : string)
| AddCertification (cert : Certification)
| RegisterBaa (covered_entity business_associate : Address).

Inductive SystemCallResult :=
| ResJobSubmitted (r : JobSubmitResult)
| ResJobAssigned (r : JobAssignResult)
| ResProofSubmitted (r : ProofSubmitResult)
| ResJobCancelled (r : JobCancelResult)
| ResStaked (staker : Address) (amount : TokenAmount)
| ResUnstakeInitiated (staker : Address) (amount : TokenAmount)
| ResWithdrawn (staker : Address) (amount : TokenAmount)
| ResComplianceUpdated
| ResEntityCertified
| ResBaaRegistered.

(** The event envelope.  The kernel has no instance of the last three modules and
    never wraps their events. *)
Inductive SystemEvent :=
| SysJob (e : JobEvent)
| SysStaking (e : StakingEvent)
| SysCompliance (e : ComplianceEvent)
| SysBank (e : BankEvent)
| SysSlashing (e : SlashingEvent)
| SysTokenomics (e : TokenomicsEvent)
| SysPoUW (e : PoUWEvent).

(** ** The kernel *)
Record SystemKernel := {
  k_job_registry : JobRegistry;
  k_staking : StakingManager;
  k_compliance : ComplianceModule;
  k_bank : Bank;
  k_context : BlockContext;
}.

Abbreviation KernelM := (M SystemContractError SystemKernel).

Definition SystemKernel_from_genesis (g : GenesisConfig) : SystemKernel := {|
  k_job_registry := JobRegistry_new g.(gc_job_config);
  k_staking := StakingManager_new g.(gc_staking_config);
  k_compliance := ComplianceModule_new g.(gc_compliance_config);
  k_bank := Bank_from_genesis g.(gc_allocations);
  k_context := BlockContext_default;
|}.

Definition begin_block (ctx : BlockContext) (k : SystemKernel) : SystemKernel := {|
  k_job_registry := k.(k_job_registry); k_staking := k.(k_staking);
  k_compliance := k.(k_compliance); k_bank := k.(k_bank); k_context := ctx |}.

(** The guards a call takes: the registry's, the registry's and the bank's,
    the staking manager's, ... *)
Definition with_registry {A} (m : RegM A) : KernelM A :=
  zoom k_job_registry (λ r k, {| k_job_registry := r; k_staking := k.(k_staking);
    k_compliance := k.(k_compliance); k_bank := k.(k_bank); k_context := k.(k_context) |}) m.

Definition with_registry_bank {A} (m : M SystemContractError (JobRegistry * Bank) A)
  : KernelM A :=
  zoom (λ k, (k.(k_job_registry), k.(k_bank)))
    (λ p k, {| k_job_registry := p.1; k_staking := k.(k_staking);
       k_compliance := k.(k_compliance); k_bank := p.2; k_context := k.(k_context) |}) m.

Definition with_staking {A} (m : StakingM A) : KernelM A :=
  zoom k_staking (λ m k, {| k_job_registry := k.(k_job_registry); k_staking := m;
    k_compliance := k.(k_compliance); k_bank := k.(k_bank); k_context := k.(k_context) |}) m.

Definition with_staking_bank {A} (m : M SystemContractError (StakingManager * Bank) A)
  : KernelM A :=
  zoom (λ k, (k.(k_staking), k.(k_bank)))
    (λ p k, {| k_job_registry := k.(k_job_registry); k_staking := p.1;
       k_compliance := k.(k_compliance); k_bank := p.2; k_context := k.(k_context) |}) m.

Definition with_compliance {A} (m : CompM A) : KernelM A :=
  zoom k_compliance (λ m k, {| k_job_registry := k.(k_job_registry);
    k_staking := k.(k_staking); k_compliance := m; k_bank := k.(k_bank);
    k_context := k.(k_context) |}) m.

(** [SubmitProof]: registry, staking and bank are all borrowed, and the bank's
    lock, which the staking manager shares, is held. *)
Definition with_proof {A} (m : ProofM A) : KernelM A :=
  zoom (λ k, {| ps_registry := k.(k_job_registry); ps_staking := k.(k_staking);
                ps_lock := mkRwLock k.(k_bank) true; ps_bank := k.(k_bank) |})
    (λ s k, {| k_job_registry := s.(ps_registry); k_staking := s.(ps_staking);
       k_compliance := k.(k_compliance); k_bank := s.(ps_bank); k_context := k.(k_context) |}) m.

Section kernel.
Context `{Build, Crypto, Clock}.

(** [(gas_used as f64 / gas_limit as f64 * 100.0) as u8] *)
Definition block_utilization (ctx : BlockContext) : N :=
  f64_as U8_MAX (f64_mul (f64_div (f64_of_N ctx.(ctx_gas_used)) (f64_of_N ctx.(ctx_gas_limit)))
                   (f64_of_N 100)).

Definition Kernel_end_block : KernelM (list SystemEvent) :=
  ctx ← gets k_context;
  job_events ← with_registry (process_expired_jobs ctx.(ctx_timestamp));
  staking_events ← with_staking (Staking_end_block ctx);
  with_staking (update_utilization (block_utilization ctx)) ;;
  mret ((SysJob <$> job_events) ++ (SysStaking <$> staking_events)).

Definition check_compliance (requester : Address) (data_provider : option Address)
    (required : list ComplianceStandard) (jurisdiction : option string) (amount : TokenAmount)
    (metadata : gmap string string) : KernelM ComplianceCheckResult :=
  with_compliance (enforce requester data_provider required jurisdiction amount metadata).

Definition compliance_failed (r : ComplianceCheckResult) : SystemContractError :=
  ComplianceError ("Compliance check failed: "
    +:+ pretty (N.of_nat (length r.(ccr_violations))) +:+ " violations").

Definition execute (call : SystemCall) : KernelM SystemCallResult :=
  ctx ← gets k_context;
  match call with
  | SubmitJob params =>
      let required_standards := from_requirement <$> params.(sj_required_compliance) in
      compliance_result ← check_compliance params.(sj_requester) params.(sj_data_provider)
        required_standards params.(sj_jurisdiction) params.(sj_max_bid) ∅;
      ensure compliance_result.(ccr_passed) (compliance_failed compliance_result) ;;
      result ← with_registry_bank (submit_job params ctx);
      mret (ResJobSubmitted result)
  | AssignJob job_id prover =>
      result ← with_registry (assign_job job_id prover ctx);
      mret (ResJobAssigned result)
  | SubmitProof params =>
      result ← with_proof (submit_proof params ctx);
      mret (ResProofSubmitted result)
  | CancelJob job_id requester =>
      result ← with_registry_bank (cancel_job job_id requester ctx);
      mret (ResJobCancelled result)
  | Stake staker amount role =>
      with_staking_bank (stake staker amount role) ;;
      mret (ResStaked staker amount)
  | Unstake staker amount =>
      with_staking (unstake staker amount ctx) ;;
      mret (ResUnstakeInitiated staker amount)
  | WithdrawStake staker =>
      amount ← with_staking_bank (withdraw staker ctx);
      mret (ResWithdrawn staker amount)
  | AddSanctionedAddress address list_name =>
      with_compliance (add_sanctioned_address address list_name) ;;
      mret ResComplianceUpdated
  | AddCertification cert =>
      with_compliance (add_certification cert) ;;
      mret ResEntityCertified
  | RegisterBaa covered_entity business_associate =>
      with_compliance (register_baa covered_entity business_associate) ;;
      mret ResBaaRegistered
  end.
End kernel.
