(* ===== verification/KernelSpec.v ===== *)
(** * What the kernel promises

    The kernel as a state machine whose steps are system calls and block
    boundaries, with every failing call keeping the state it left and a call
    that never returns ending the history: conservation of the supply, the
    compliance gate, the end of a block, and the calls that never return. *)
From S2P Require Import Prelude SysTypes F64 Precompile Bank BankSpec Staking StakingSpec JobRegistry Samples JobSpec JobDeadline Compliance ComplianceSpec Kernel.
From stdpp Require Import base gmap list strings sets.
From Stdlib Require Import ZArith Lia.
#[local] Open Scope N_scope.

(** ** Steps *)
Section steps.
Context `{Build, Crypto, Clock}.

(** A call that waits for a lock its own thread holds never returns; one that
    returns an error has dropped its guards, and so has one that panics (the
    locks are [parking_lot]'s, which unwinding releases and does not poison). *)
Definition returns {E A} (o : outcome E A) : bool :=
  match o with Blocked => false | _ => true end.

(** One step: a block begins, a block ends, or a call is executed and returns,
    provided the call is one [allowed] in this state.  After a call that blocks
    there is no step: its thread keeps the guards it holds. *)
Inductive kernel_step (allowed : SystemKernel → SystemCall → Prop) (k : SystemKernel)
  : SystemKernel → Prop :=
| ks_begin ctx : kernel_step allowed k (begin_block ctx k)
| ks_end : kernel_step allowed k (Kernel_end_block k).2
| ks_call call : allowed k call → returns (execute call k).1 = true →
    kernel_step allowed k (execute call k).2.

Definition any_call (k : SystemKernel) (call : SystemCall) : Prop := True.

Lemma kernel_steps_related allowed (R : relation SystemKernel) `{!PreOrder R} :
  (∀ ctx k, R k (begin_block ctx k)) → stable R Kernel_end_block →
  (∀ k call, allowed k call → R k (execute call k).2) →
  ∀ k k', rtc (kernel_step allowed) k k' → R k k'.
Proof.
  intros Hb He Hc k k'. induction 1 as [k|k k1 k2 Hstep _ IH]; [reflexivity|].
  etrans; [|exact IH]. destruct Hstep as [ctx| |call Hok _]; [apply Hb|apply He|by apply Hc].
Qed.

(** ** The bank under the kernel *)
Definition kbank (R : relation Bank) : relation SystemKernel := λ k k',
  R k.(k_bank) k'.(k_bank).

#[export] Instance kbank_preorder (R : relation Bank) `{!PreOrder R} : PreOrder (kbank R).
Proof. split; unfold kbank; [intros k|intros k k1 k2 H1' H2']; [reflexivity|by etrans]. Qed.

Section bank_clients.
Context (R : relation Bank) `{!BankStable R}.

Lemma with_registry_bank_ok {A} (m : M SystemContractError (JobRegistry * Bank) A) :
  stable (snd_rel R) m → stable (kbank R) (with_registry_bank m).
Proof. intros Hm k. exact (Hm (k_job_registry k, k_bank k)). Qed.

Lemma with_staking_bank_ok {A} (m : M SystemContractError (StakingManager * Bank) A) :
  stable (snd_rel R) m → stable (kbank R) (with_staking_bank m).
Proof. intros Hm k. exact (Hm (k_staking k, k_bank k)). Qed.

Lemma with_proof_ok {A} (m : ProofM A) : stable (proof_rel R) m → stable (kbank R) (with_proof m).
Proof. intros Hm k. unfold kbank, with_proof, zoom. cbn.
  exact (proj1 (Hm {| ps_registry := k_job_registry k; ps_staking := k_staking k;
    ps_lock := mkRwLock (k_bank k) true; ps_bank := k_bank k |})). Qed.

Lemma with_registry_ok {A} (m : RegM A) : stable (kbank R) (with_registry m).
Proof. intros k. unfold kbank. cbn. reflexivity. Qed.
Lemma with_staking_ok {A} (m : StakingM A) : stable (kbank R) (with_staking m).
Proof. intros k. unfold kbank. cbn. reflexivity. Qed.
Lemma with_compliance_ok {A} (m : CompM A) : stable (kbank R) (with_compliance m).
Proof. intros k. unfold kbank. cbn. reflexivity. Qed.

#[local] Hint Resolve with_registry_bank_ok with_staking_bank_ok with_proof_ok with_registry_ok
  with_staking_ok with_compliance_ok submit_job_bank cancel_job_bank stake_bank withdraw_bank
  submit_proof_bank : stable.

Lemma execute_bank call : stable (kbank R) (execute call).
Proof. unfold execute, check_compliance. destruct call; stable_body. Qed.

Lemma end_block_bank : stable (kbank R) Kernel_end_block.
Proof. unfold Kernel_end_block. stable_body. Qed.

Lemma kernel_run_bank allowed k k' :
  rtc (kernel_step allowed) k k' → R k.(k_bank) k'.(k_bank).
Proof.
  apply (kernel_steps_related allowed (kbank R)).
  - intros ctx k1. unfold kbank. cbn. reflexivity.
  - apply end_block_bank.
  - intros k1 call _. apply execute_bank.
Qed.
End bank_clients.

(** C3: from a genesis whose allocations add up to at most the initial supply
    of 10^27 base units (the code does not check this, and a larger genesis
    starts with more in the accounts than there is supply), whatever blocks and
    system calls the kernel runs and whichever of them fail, until one never
    returns: the bank stays well-formed, the supply and the burned tokens add up
    to the initial 10^27 base units, the balances never exceed the supply, and a
    token no longer in the supply is never in an account: the gap between the
    supply and the balances is the genesis one. *)
Theorem kernel_conserves g k :
  allocated g.(gc_allocations) <= BankConfig_default.(bc_initial_supply) →
  rtc (kernel_step any_call) (SystemKernel_from_genesis g) k →
  bank_wf k.(k_bank)
  ∧ k.(k_bank).(bk_total_supply) + k.(k_bank).(bk_total_burned) = 1000000000000000000000000000
  ∧ total_balance k.(k_bank) <= k.(k_bank).(bk_total_supply)
  ∧ k.(k_bank).(bk_total_supply) - total_balance k.(k_bank)
    = 1000000000000000000000000000 - total_balance (Bank_from_genesis g.(gc_allocations)).
Proof.
  intros Halloc Hrun. destruct (genesis_bank (gc_allocations g) Halloc) as [Hwf Hs].
  pose proof (genesis_not_burned (gc_allocations g)) as Hb.
  destruct (kernel_run_bank bank_step _ _ _ Hrun Hwf) as (Hwf' & Hsum & Hgap & _). cbn in *.
  rewrite Hs, Hb in Hsum. rewrite Hs in Hgap. cbn in Hsum, Hgap.
  pose proof (wf_backed _ Hwf'). pose proof (wf_backed _ Hwf) as Hback. rewrite Hs in Hback.
  cbn in Hback. split_and!; [done|lia|lia|lia].
Qed.
End steps.

(** ** The compliance gate *)
Section gate.
Context `{Build, Crypto, Clock}.

(** The address is listed and the filter lets the lookup reach the list. *)
Definition listed_now (a : Address) (m : ComplianceModule) : Prop :=
  bloom_wf m.(cm_sanctions_bloom) ∧ a ∈ m.(cm_sanctioned_addresses)
  ∧ covers m.(cm_sanctions_bloom) a.

Lemma bloom_add_mono f x f' :
  bloom_wf f → bloom_add f x = Ok f' →
  bloom_wf f' ∧ covers f' x ∧ ∀ a, covers f a → covers f' a.
Proof.
  intros Hwf. destruct (bloom_set_all (compute_hashes f x) (bf_bits f) Hwf (hash_in_range f x))
    as (bits & Hrun & Hl & Hset & Hmono).
  unfold bloom_add. rewrite Hrun. cbn. destruct (u_add _ _ _); cbn; [|done..]. intros [= <-].
  split_and!; [by unfold bloom_wf; cbn; rewrite Hl|exact Hset|].
  intros a0 Ha h Hh. apply Hmono, Ha, Hh.
Qed.

Lemma sanction_one_listed a x : stable (maintains (listed_now a)) (sanction_one x).
Proof.
  intros m (Hwf & Hin & Hcov). unfold sanction_one. mrun.
  destruct (bloom_add _ x) as [f| | |] eqn:Hadd; cbn; [|done..].
  destruct (bloom_add_mono _ _ _ Hwf Hadd) as (? & _ & Hm). split_and!; cbn; [done|set_solver|].
  by apply Hm.
Qed.

Lemma same_sanctions_listed a m m' : same_sanctions m m' → listed_now a m → listed_now a m'.
Proof. intros [Hb Hs]. unfold listed_now. by rewrite Hb, Hs. Qed.

(** The compliance operations reachable from the kernel, and the module's
    configuration under them. *)
Definition comp_rel (a : Address) : relation ComplianceModule := λ m m',
  m'.(cm_config) = m.(cm_config) ∧ (bloom_wf m.(cm_sanctions_bloom) → bloom_wf m'.(cm_sanctions_bloom))
  ∧ (listed_now a m → listed_now a m').

#[local] Instance comp_rel_preorder a : PreOrder (comp_rel a).
Proof.
  split; unfold comp_rel; [by intros m|]. intros m m1 m2 (? & ? & ?) (? & ? & ?).
  split_and!; [congruence|auto..].
Qed.

Lemma same_comp_rel a m m' :
  same_sanctions m m' → m'.(cm_config) = m.(cm_config) → comp_rel a m m'.
Proof.
  intros Hs Hc. split_and!; [done| |by apply same_sanctions_listed].
  destruct Hs as [-> _]. done.
Qed.

Lemma modify_comp_rel a (f : ComplianceModule → ComplianceModule) :
  (∀ m, same_sanctions m (f m) ∧ (f m).(cm_config) = m.(cm_config)) →
  stable (E:=SystemContractError) (comp_rel a) (modify f).
Proof. intros Hf m. destruct (Hf m). by apply same_comp_rel. Qed.

Lemma emit_comp_rel a e : stable (comp_rel a) (emit_event e).
Proof. apply modify_comp_rel. intros m. by destruct (cc_audit_logging _). Qed.

Lemma check_id_comp_rel a : stable (comp_rel a) generate_check_id.
Proof.
  intros m. unfold generate_check_id. mrun. destruct (u_add _ _ _); cbn; [|reflexivity..].
  by apply same_comp_rel.
Qed.

Lemma sanction_one_comp_rel a x : stable (comp_rel a) (sanction_one x).
Proof.
  intros m. split_and!; [|intros Hwf|apply sanction_one_listed]; unfold sanction_one; mrun;
    (destruct (bloom_add _ x) eqn:Hadd; cbn; try done). by apply bloom_add_mono in Hadd as [? _].
Qed.

#[local] Hint Resolve emit_comp_rel check_id_comp_rel sanction_one_comp_rel : stable.

Lemma enforce_comp_rel a q p req j n meta : stable (comp_rel a) (enforce q p req j n meta).
Proof. unfold enforce. stable_body. Qed.

Lemma add_sanctioned_comp_rel a x l : stable (comp_rel a) (add_sanctioned_address x l).
Proof. unfold add_sanctioned_address. stable_body. Qed.

Lemma add_certification_comp_rel a c : stable (comp_rel a) (add_certification c).
Proof. unfold add_certification. stable_body; by apply modify_comp_rel. Qed.

Lemma register_baa_comp_rel a c x : stable (comp_rel a) (register_baa c x).
Proof. unfold register_baa. stable_body. by apply modify_comp_rel. Qed.

Definition kcomp (R : relation ComplianceModule) : relation SystemKernel := λ k k',
  R k.(k_compliance) k'.(k_compliance).

#[local] Instance kcomp_preorder R `{!PreOrder R} : PreOrder (kcomp R).
Proof. split; unfold kcomp; [intros k|intros k k1 k2 H1' H2']; [reflexivity|by etrans]. Qed.

Lemma with_compliance_rel {A} R (m : CompM A) : stable R m → stable (kcomp R) (with_compliance m).
Proof. intros Hm k. apply Hm. Qed.

Lemma zoom_other {T A} (gt : SystemKernel → T) st (m : M SystemContractError T A)
    R `{!PreOrder R} :
  (∀ t k, k_compliance (st t k) = k_compliance k) → stable (kcomp R) (zoom gt st m).
Proof. intros Hst k. unfold kcomp, zoom. cbn. rewrite Hst. reflexivity. Qed.

#[local] Hint Resolve with_compliance_rel enforce_comp_rel add_sanctioned_comp_rel
  add_certification_comp_rel register_baa_comp_rel : stable.

Lemma execute_comp a call : stable (kcomp (comp_rel a)) (execute call).
Proof.
  unfold execute, check_compliance. destruct call; stable_body; (apply zoom_other; [apply _|done]).
Qed.

Lemma end_block_comp a : stable (kcomp (comp_rel a)) Kernel_end_block.
Proof. unfold Kernel_end_block. stable_body; (apply zoom_other; [apply _|done]). Qed.

Lemma kernel_run_comp allowed a k k' :
  rtc (kernel_step allowed) k k' → comp_rel a k.(k_compliance) k'.(k_compliance).
Proof.
  apply (kernel_steps_related allowed (kcomp (comp_rel a))).
  - intros ctx k1. unfold kcomp. cbn. reflexivity.
  - apply end_block_comp.
  - intros k1 call _. apply execute_comp.
Qed.

(** ** A listed party is refused *)
Lemma listed_is_sanctioned a m : listed_now a m → is_sanctioned m a = Ok true.
Proof.
  intros (Hwf & Hin & Hcov). unfold is_sanctioned.
  destruct (possibly_contains_ok (cm_sanctions_bloom m) a Hwf) as (b & -> & Hcb). cbn.
  rewrite (Hcb Hcov). cbn. by rewrite bool_decide_true.
Qed.

Lemma listed_violations a m q p :
  m.(cm_config).(cc_enforce_sanctions) = true → listed_now a m → q = a ∨ p = Some a →
  ∀ vs, sanction_violations m q p = Ok vs → vs ≠ [].
Proof.
  intros He Hl Hq vs. unfold sanction_violations, sanction_violation. rewrite He.
  destruct Hq as [->| ->]; cbn.
  - rewrite listed_is_sanctioned by done. cbn.
    destruct (from_option _ _ p); cbn; intros; by simplify_eq.
  - rewrite (listed_is_sanctioned a) by done. destruct (is_sanctioned m q) as [[]| | |]; cbn;
      intros; by simplify_eq.
Qed.

Lemma enforce_refuses a q p req j n meta m res m' :
  m.(cm_config).(cc_enabled) = true → m.(cm_config).(cc_enforce_sanctions) = true →
  listed_now a m → q = a ∨ p = Some a →
  enforce q p req j n meta m = (Ok res, m') → res.(ccr_passed) = false.
Proof.
  intros Hen Hsan Hl Hq Hrun. unfold enforce in Hrun.
  apply bind_ok in Hrun as (m0 & ? & Hg & Hrun). injection Hg as <- <-.
  apply bind_ok in Hrun as (cid & m1 & Hid & Hrun).
  pose proof (check_id_comp_rel a m) as Hrel. rewrite Hid in Hrel.
  destruct Hrel as (Hcfg & _ & Hl1). specialize (Hl1 Hl). cbn in Hcfg, Hl1.
  rewrite Hen in Hrun. cbn in Hrun.
  apply bind_ok in Hrun as (? & ? & Hg & Hrun). injection Hg as <- <-.
  apply bind_ok in Hrun as (vs & ? & Hv & Hrun). apply lift_ok in Hv as [Hv ->].
  rewrite <- Hcfg in Hsan. pose proof (listed_violations a m1 q p Hsan Hl1 Hq vs Hv) as Hne.
  apply bind_ok in Hrun as ([certs warnings] & ? & Hc & Hrun). apply lift_ok in Hc as [_ ->].
  apply bind_ok in Hrun as (r & ? & Hr & Hrun). apply lift_ok in Hr as [Hr ->].
  apply bind_ok in Hrun as ([] & ? & _ & Hrun). injection Hrun as <- _. cbn.
  rewrite bool_decide_false in Hr.
  - unfold ccr_fail in Hr. apply obind_ok in Hr as (score & _ & Hr). by injection Hr as <-.
  - rewrite !length_app. destruct vs; [done|]. cbn. lia.
Qed.

(** C6: the compliance gate cannot be passed by a sanctioned party.  On a
    network with compliance and sanctions enforcement on, once the kernel has
    accepted [AddSanctionedAddress] for an address, then after any further
    blocks and calls that return every [SubmitJob] with that address as its requester or as
    its data provider is refused, and leaves the registry, the staking manager
    and the bank as they were. *)
Theorem sanctioned_cannot_submit g k0 a list_name res k1 k params :
  g.(gc_compliance_config).(cc_enabled) = true →
  g.(gc_compliance_config).(cc_enforce_sanctions) = true →
  rtc (kernel_step any_call) (SystemKernel_from_genesis g) k0 →
  execute (AddSanctionedAddress a list_name) k0 = (Ok res, k1) →
  rtc (kernel_step any_call) k1 k →
  params.(sj_requester) = a ∨ params.(sj_data_provider) = Some a →
  is_ok (execute (SubmitJob params) k).1 = false
  ∧ let k' := (execute (SubmitJob params) k).2 in
    k'.(k_job_registry) = k.(k_job_registry) ∧ k'.(k_staking) = k.(k_staking)
    ∧ k'.(k_bank) = k.(k_bank).
Proof.
  intros Hen Hsan Hrun0 Hadd Hrun Hq.
  destruct (kernel_run_comp _ a _ _ Hrun0) as (Hcfg0 & Hwf0 & _). cbn in Hcfg0, Hwf0.
  assert (listed_now a k1.(k_compliance)) as Hl1.
  { unfold execute in Hadd. apply bind_ok in Hadd as (? & ? & Hg & Hadd). injection Hg as <- <-.
    apply bind_ok in Hadd as ([] & ? & Hc & Hadd). injection Hadd as _ <-.
    apply zoom_ok in Hc as (m1 & Hc & ->). cbn.
    unfold add_sanctioned_address in Hc. apply bind_ok in Hc as ([] & m2 & Hone & Hemit).
    unfold sanction_one in Hone. mrun. destruct (bloom_add _ a) as [f| | |] eqn:Hb; [|done..].
    injection Hone as <-. cbn in Hemit.
    assert (bloom_wf (cm_sanctions_bloom (k_compliance k0))) as Hwf
      by (apply Hwf0, length_replicate).
    destruct (bloom_add_mono _ _ _ Hwf Hb) as (? & ? & _).
    set (m3 := cm_with_sanctions f _ _) in Hemit.
    pose proof (emit_comp_rel a (AddressSanctioned a list_name) m3) as (_ & _ & Hl).
    rewrite Hemit in Hl. apply Hl. split_and!; cbn; [done|set_solver|done]. }
  pose proof (execute_comp a (AddSanctionedAddress a list_name) k0) as Hc1.
  rewrite Hadd in Hc1. destruct Hc1 as [Hcfg1 _]. cbn in Hcfg1.
  destruct (kernel_run_comp _ a _ _ Hrun) as (Hcfg & _ & Hl). specialize (Hl Hl1).
  assert (k.(k_compliance).(cm_config) = g.(gc_compliance_config)) as Hcf by congruence.
  unfold execute, check_compliance, with_compliance. mrun.
  destruct (enforce _ _ _ _ _ _ _) as [[r| | |] m'] eqn:Henf; cbn; [|done..].
  rewrite (enforce_refuses a _ _ _ _ _ _ _ _ _
    ltac:(by rewrite Hcf) ltac:(by rewrite Hcf) Hl Hq Henf).
  done.
Qed.
End gate.

(** ** The end of a block *)
Section blocks.
Context `{Build, Crypto, Clock}.

Lemma update_utilization_run u m :
  config_valid m.(sm_config) →
  ∃ m', update_utilization u m = (Ok tt, m')
    ∧ m'.(sm_current_burn_rate_bps) = burn_rate_at m.(sm_config) u
    ∧ m'.(sm_stakers) = m.(sm_stakers) ∧ m'.(sm_total_staked) = m.(sm_total_staked)
    ∧ m'.(sm_config) = m.(sm_config) ∧ m'.(sm_current_block) = m.(sm_current_block).
Proof.
  intros Hcv. unfold update_utilization, push_staking_event. mrun.
  rewrite congestion_burn_rate_eq by done. case_bool_decide; cbn; eexists; split_and!; done.
Qed.

(** On a validated staking configuration the end of a block always
    succeeds, whatever the block's timestamp and gas figures (a zero gas limit
    included): it expires only active jobs past their grace period, releases
    the jails that are over and changes nothing else of any staker, records the
    block's height, and sets the burn rate for the block's utilization, between
    the base and the maximum rate; the bank and the compliance module are not
    touched. *)
Lemma end_block_total k :
  config_valid k.(k_staking).(sm_config) →
  let ctx := k.(k_context) in
  ∃ events k', Kernel_end_block k = (Ok events, k')
    ∧ k'.(k_bank) = k.(k_bank) ∧ k'.(k_compliance) = k.(k_compliance) ∧ k'.(k_context) = ctx
    ∧ (∀ id, k'.(k_job_registry).(jr_jobs) !! id = k.(k_job_registry).(jr_jobs) !! id
        ∨ k'.(k_job_registry).(jr_jobs) !! id
          = expire_due ctx.(ctx_timestamp) <$> k.(k_job_registry).(jr_jobs) !! id)
    ∧ k'.(k_staking).(sm_stakers) = unjail ctx <$> k.(k_staking).(sm_stakers)
    ∧ k'.(k_staking).(sm_total_staked) = k.(k_staking).(sm_total_staked)
    ∧ k'.(k_staking).(sm_current_block) = ctx.(ctx_height)
    ∧ k'.(k_staking).(sm_current_burn_rate_bps)
      = burn_rate_at k.(k_staking).(sm_config) (block_utilization ctx)
    ∧ k.(k_staking).(sm_config).(base_burn_rate_bps) <= k'.(k_staking).(sm_current_burn_rate_bps)
        <= k.(k_staking).(sm_config).(max_burn_rate_bps).
Proof.
  intros Hcv ctx.
  assert (∃ evs r', process_expired_jobs ctx.(ctx_timestamp) k.(k_job_registry) = (Ok evs, r'))
    as (evs & r' & Hexp).
  { unfold process_expired_jobs. mrun. destruct (foldl _ _ _). eauto. }
  pose proof (process_expired_effect ctx.(ctx_timestamp) k.(k_job_registry)) as Heff.
  rewrite Hexp in Heff. cbn in Heff.
  set (m1 := sm_with_events []
    (sm_with_events ((k_staking k).(sm_events) ++ unjail_events ctx (k_staking k))
       (sm_with_stakers (unjail ctx <$> sm_stakers (k_staking k))
          (sm_with_block (ctx_height ctx) (k_staking k))))).
  destruct (update_utilization_run (block_utilization ctx) m1 Hcv)
    as (m2 & Hupd & Hrate & Hst & Htot & Hcfg & Hblk).
  unfold Kernel_end_block, with_registry, with_staking, Staking_end_block, Staking_drain_events.
  mrun. fold ctx. rewrite Hexp. cbn.
  change (sm_with_events [] _) with m1. rewrite Hupd. cbn.
  do 2 eexists. split; [reflexivity|]. cbn. rewrite Hst, Htot, Hblk, Hrate.
  pose proof (burn_rate_at_range (sm_config (k_staking k)) (block_utilization ctx) Hcv).
  split_and!; try done; try apply (burn_rate_at_range (sm_config (k_staking k)) _ Hcv).
  intros id. by apply expires_due.
Qed.

(** ** A late proof never returns *)

(** With the bank's guard held, a slash of a registered staker blocks. *)
Lemma slash_blocks staker rate reason jail m l i :
  m.(sm_stakers) !! staker = Some i → i.(si_staked) * rate <= U128_MAX → l.(rw_held) = true →
  Staking_slash staker rate reason jail (m, l) = (Blocked, (m, l)).
Proof.
  intros Hi Hmul Hheld. unfold Staking_slash, on_snd, with_write. mrun. rewrite Hi. cbn.
  rewrite u_mul_ok by done. cbn. rewrite u_div_ok by done. cbn. by rewrite Hheld.
Qed.

(** C40: a proof submitted after the grace period hangs the node: when the
    assigned prover has a stake, [SubmitProof] holds the bank's write guard and
    calls into the staking manager, whose slash takes the same lock again; the
    call never returns, and neither slashes the prover nor closes the job. *)
Theorem late_proof_blocks k params job i :
  k.(k_job_registry).(jr_jobs) !! params.(sp_job_id) = Some job →
  job.(job_assigned_prover) = Some params.(sp_prover) →
  job.(job_sla).(sla_grace_end) < k.(k_context).(ctx_timestamp) →
  k.(k_staking).(sm_stakers) !! params.(sp_prover) = Some i →
  i.(si_staked) * k.(k_staking).(sm_config).(sc_slashing).(sla_violation_bps) <= U128_MAX →
  execute (SubmitProof params) k = (Blocked, k).
Proof.
  intros Hj Hp Hx Hi Hmul.
  unfold execute, with_proof, submit_proof, proof_prechecks, on_staking,
    slash_for_sla_violation. mrun. rewrite Hj. cbn. rewrite bool_decide_true by done. cbn.
  unfold is_expired. rewrite bool_decide_true by done. cbn.
  rewrite (slash_blocks _ _ _ _ _ _ i) by done. cbn. by destruct k.
Qed.
End blocks.
