(* ===== verification/KernelEscrow.v ===== *)
(** * Solvency of the kernel

    The bank holds one locked amount per account, which stakes and the bids of
    open jobs share.  As long as no proof is submitted for a job that is no
    longer open, every account's locked tokens cover its stake and the bids of
    its open jobs together, in every reachable state; so that cancelling an open
    job and withdrawing a matured stake always succeed. *)
From S2P Require Import Prelude SysTypes F64 Precompile Bank BankSpec Staking StakingSpec JobRegistry Samples JobSpec JobSettle JobDeadline Compliance ComplianceSpec Kernel KernelSpec.
From stdpp Require Import base gmap list strings sets.
From Stdlib Require Import ZArith Lia.
#[local] Open Scope N_scope.

(** ** What is committed *)
Definition open_bid (a : Address) (j : JobState) : N :=
  if bool_decide (j.(job_requester) = a) && can_cancel j.(job_status)
  then j.(job_bid_amount) else 0.

Definition open_bids (r : JobRegistry) (a : Address) : N := map_sum (open_bid a) r.(jr_jobs).

Definition staked (m : StakingManager) (a : Address) : N :=
  default 0 (si_staked <$> m.(sm_stakers) !! a).

Definition held (b : Bank) (a : Address) : N := acc_locked (account_or_default a b).

#[global] Arguments open_bids : simpl never.
#[global] Arguments staked : simpl never.
#[global] Arguments held : simpl never.

Lemma held_locked_balance b a : get_locked_balance b a = held b a.
Proof.
  unfold get_locked_balance, held, account_or_default. by destruct (bk_accounts b !! a).
Qed.

(** No account is frozen: the kernel has no call that freezes one. *)
Definition thawed (b : Bank) : Prop := ∀ a, acc_locked_until (account_or_default a b) = 0.

Definition stakes_ok (m : StakingManager) : Prop :=
  m.(sm_total_staked) = map_sum si_staked m.(sm_stakers)
  ∧ map_Forall (λ _ i, i.(si_unbonding) <= i.(si_staked)) m.(sm_stakers).

Record solvent (k : SystemKernel) : Prop := {
  sv_bank : bank_wf k.(k_bank);
  sv_stakes : stakes_ok k.(k_staking);
  sv_backed : ∀ a, staked k.(k_staking) a + open_bids k.(k_job_registry) a <= held k.(k_bank) a;
  sv_supply : k.(k_bank).(bk_total_supply) + k.(k_bank).(bk_total_burned)
              = BankConfig_default.(bc_initial_supply);
  sv_thawed : thawed k.(k_bank);
  sv_fee : k.(k_job_registry).(jr_config).(cancellation_fee_bps) <= 10000;
}.

(** ** Accounts after a bank call *)
Lemma account_put addr a b x :
  account_or_default x (put_account addr a b)
  = if decide (addr = x) then a else account_or_default x b.
Proof.
  case_decide; [subst; apply account_or_default_put|by apply account_or_default_put_ne].
Qed.

Lemma account_touch addr b x : account_or_default x (touch addr b) = account_or_default x b.
Proof. apply account_or_default_touch. Qed.

Ltac account_cases :=
  repeat match goal with
  | |- context [account_or_default _ (put_account _ _ _)] => rewrite !account_put
  | |- context [account_or_default _ (touch _ _)] => rewrite !account_touch
  | |- context [decide (?x = ?y)] => destruct (decide (x = y)); subst
  end.

(** The fields a transfer leaves alone. *)
Lemma transfer_accounts (X : Type) (f : AccountState → X) from to n b a :
  (∀ acc v, f (set_balance v acc) = f acc) →
  f (account_or_default a (transfer from to n b).2) = f (account_or_default a b).
Proof.
  intros Hf. rewrite transfer_eq. cbn.
  repeat (case_bool_decide || destruct (is_locked _ _)); cbn; rewrite ?account_touch; try done.
  unfold transfer_post, log, burn_supply, debit, credit.
  case_bool_decide;
    repeat match goal with |- context [account_or_default a (with_events _ ?b)] =>
      change (account_or_default a (with_events _ b)) with (account_or_default a b)
    | |- context [account_or_default a (with_supply _ _ ?b)] =>
      change (account_or_default a (with_supply _ _ b)) with (account_or_default a b) end;
    rewrite !account_put; repeat case_decide; subst; rewrite ?Hf, ?account_put;
    repeat case_decide; subst; rewrite ?Hf; done.
Qed.

Lemma transfer_held from to n b a : held (transfer from to n b).2 a = held b a.
Proof. by apply (transfer_accounts _ acc_locked). Qed.

Lemma burn_held from n b a : held (burn from n b).2 a = held b a.
Proof. exact (transfer_held from BURN_ADDRESS n b a). Qed.

(** A lock raises one account's held tokens by the amount, or does nothing. *)
Lemma lock_held addr n b :
  bank_wf b →
  match lock addr n b with
  | (Ok _, b') => ∀ a, held b' a = held b a + (if decide (a = addr) then n else 0)
  | (_, b') => b' = b
  end.
Proof.
  intros Hwf. rewrite lock_eq. destruct (bk_accounts b !! addr) as [acc|] eqn:Ha; [|done].
  case_bool_decide as Hav; [done|]. intros a. unfold held. rewrite account_put.
  pose proof (account_bounds addr b Hwf) as Hb. rewrite (account_lookup _ _ _ Ha) in Hb.
  repeat case_decide; subst; try done; [|lia]. rewrite (account_lookup _ _ _ Ha). cbn.
  unfold available, sat_sub, sat_add in *. cbn in Hb. lia.
Qed.

Lemma unlock_held addr n b :
  match unlock addr n b with
  | (Ok _, b') => n <= held b addr
      ∧ ∀ a, held b' a = held b a - (if decide (a = addr) then n else 0)
  | (_, b') => b' = b
  end.
Proof.
  rewrite unlock_eq. destruct (bk_accounts b !! addr) as [acc|] eqn:Ha; [|done].
  case_bool_decide as Hlk; [done|]. unfold held. rewrite (account_lookup _ _ _ Ha).
  split; [lia|]. intros a. rewrite account_put.
  repeat case_decide; subst; try done; [|lia]. by rewrite (account_lookup _ _ _ Ha).
Qed.

(** ** No call freezes an account *)
#[export] Instance thawed_stable : BankStable (maintains thawed).
Proof.
  split; [apply _|..]; intros; intros b Ht a.
  - rewrite lock_eq. destruct (bk_accounts b !! addr) as [acc|] eqn:Ha; [|apply Ht].
    case_bool_decide; [apply Ht|]. cbn. rewrite account_put. case_decide; [|apply Ht]. cbn.
    rewrite <- (account_lookup _ _ _ Ha). apply Ht.
  - rewrite unlock_eq. destruct (bk_accounts b !! addr) as [acc|] eqn:Ha; [|apply Ht].
    case_bool_decide; [apply Ht|]. cbn. rewrite account_put. case_decide; [|apply Ht]. cbn.
    rewrite <- (account_lookup _ _ _ Ha). apply Ht.
  - rewrite (transfer_accounts _ acc_locked_until) by done. apply Ht.
  - rewrite slash_eq. destruct (bk_accounts b !! addr) as [acc|] eqn:Ha; [|apply Ht]. cbn.
    case_bool_decide; [apply Ht|]. cbn. unfold burn_supply, account_or_default. cbn.
    destruct (decide (addr = a)) as [<-|Hne].
    + rewrite lookup_insert_eq. cbn. rewrite <- (account_lookup _ _ _ Ha). apply Ht.
    + rewrite lookup_insert_ne by done. apply Ht.
Qed.

Lemma genesis_thawed allocs : thawed (Bank_from_genesis allocs).
Proof.
  unfold Bank_from_genesis.
  assert (thawed (Bank_new BankConfig_default)) as Hb by done. revert Hb.
  generalize (Bank_new BankConfig_default). induction allocs as [|al allocs IH]; intros b Hb;
    [done|]. cbn. apply IH. intros a. unfold apply_allocation. rewrite account_put.
  case_decide; apply Hb.
Qed.

Lemma genesis_held allocs a : held (Bank_from_genesis allocs) a = 0.
Proof.
  unfold Bank_from_genesis.
  destruct (fold_allocations_inv BankConfig_default.(bc_initial_supply) allocs
    (Bank_new BankConfig_default)) as [(Hl & _) _]; [by split_and!|].
  unfold held, account_or_default. destruct (_ !! a) as [acc|] eqn:Ha; [|done].
  exact (Hl _ _ Ha).
Qed.

(** ** Bids when one job changes *)
Lemma open_bids_changed id f r r' job a :
  r.(jr_jobs) !! id = Some job → job_changed id f r r' →
  open_bids r' a + open_bid a job = open_bids r a + open_bid a (f job).
Proof.
  intros Hj [Hjobs _ _ _ _ _]. unfold open_bids. rewrite Hjobs.
  assert (alter f id r.(jr_jobs) = <[id := f job]> r.(jr_jobs)) as ->.
  { apply map_eq. intros i. rewrite lookup_alter. destruct (decide (id = i)) as [<-|].
    - by rewrite Hj, lookup_insert_eq.
    - by rewrite lookup_insert_ne. }
  by apply map_sum_insert_Some.
Qed.

Lemma open_bid_le id job r a :
  r.(jr_jobs) !! id = Some job → open_bid a job <= open_bids r a.
Proof. apply (map_sum_lookup_le (open_bid a)). Qed.

Lemma open_bid_self job :
  can_cancel job.(job_status) = true → open_bid job.(job_requester) job = job.(job_bid_amount).
Proof. intros Hc. unfold open_bid. by rewrite bool_decide_true, Hc by done. Qed.

Lemma open_bid_closed a job : can_cancel job.(job_status) = false → open_bid a job = 0.
Proof. intros Hc. unfold open_bid. by rewrite Hc, andb_false_r. Qed.

Lemma expires_open_bids now r r' a : expires now r r' → open_bids r' a <= open_bids r a.
Proof.
  intros [Hx _]. apply map_sum_mono. intros id.
  destruct (Hx id) as [->|(job & -> & _ & _ & ->)]; [done|]. cbn.
  rewrite open_bid_closed by done. lia.
Qed.

(** ** Calls on the registry and the bank *)
Section joint.
Context `{Build, Crypto}.

(** The locked tokens that are not committed: no call lowers them. *)
Definition slack_kept (r : JobRegistry) (b : Bank) (r' : JobRegistry) (b' : Bank) : Prop :=
  ∀ a, open_bids r' a + held b a <= open_bids r a + held b' a.

Lemma slack_same r b r' : r'.(jr_jobs) = r.(jr_jobs) → slack_kept r b r' b.
Proof. intros Hj a. unfold open_bids. by rewrite Hj. Qed.

Lemma submit_insert_slack r b b' r' id job params n :
  r'.(jr_jobs) = <[id := job]> r.(jr_jobs) →
  job.(job_requester) = params.(sj_requester) → job.(job_bid_amount) = n →
  (∀ a, held b' a = held b a + (if decide (a = params.(sj_requester)) then n else 0)) →
  slack_kept r b r' b'.
Proof.
  intros Hr' Hreq Hbid Hheld a. rewrite Hheld. unfold open_bids. rewrite Hr'.
  pose proof (map_sum_insert (open_bid a) r.(jr_jobs) id job) as Hins.
  assert (open_bid a job <= if decide (a = sj_requester params) then n else 0); [|lia].
  unfold open_bid. case_bool_decide; cbn; [|lia]. destruct (can_cancel _); [|lia].
  rewrite decide_True by congruence. lia.
Qed.

Lemma submit_job_slack params ctx r b :
  bank_wf b →
  let s' := (submit_job params ctx (r, b)).2 in
  slack_kept r b s'.1 s'.2 ∧ s'.1.(jr_config) = r.(jr_config).
Proof.
  intros Hwf. cbn. split; [|apply (se_config _ _ _ _ (submit_job_effect params ctx r b))].
  destruct (submit_job params ctx (r, b)) as [o [r' b']] eqn:Hrun. cbn. revert Hrun.
  unfold submit_job, push_job_event, on_fst, on_snd. mrun.
  do 4 (case_bool_decide; cbn; [intros [= <- <- <-]; by apply slack_same|]).
  destruct (u_add U64_MAX (default 0 (_ !! _)) 1) as [next| | |] eqn:Hn; cbn;
    [|intros [= <- <- <-]; by apply slack_same..].
  pose proof (lock_held (sj_requester params) (sj_bid_amount params) b Hwf) as Hlock.
  destruct (lock _ _ _) as [[u| | |] b1]; cbn; [|subst; intros [= <- <- <-]; by apply slack_same..].
  destruct (JobState_new _ _ _ _) as [job| | |] eqn:Hj; cbn;
    [|intros [= <- <- <-] a; rewrite Hlock; unfold open_bids; cbn; lia..].
  apply new_job_fields in Hj as (Hreq & _ & _ & Hbid & _).
  destruct (u_add U64_MAX (jr_active_jobs _) 1) as [?| | |]; cbn;
    [destruct (u_add U64_MAX (jr_total_jobs _) 1) as [?| | |]; cbn|..];
    intros [= <- <- <-];
    (eapply submit_insert_slack; [cbn; reflexivity|exact Hreq|exact Hbid|exact Hlock]).
Qed.

Lemma assign_job_slack id prover ctx r b :
  let r' := (assign_job id prover ctx r).2 in
  slack_kept r b r' b ∧ r'.(jr_config) = r.(jr_config).
Proof.
  cbn. destruct (assign_job_effect id prover ctx r) as [->|(job & Hj & Hs & _ & _ & Hch)];
    [split; [by apply slack_same|done]|].
  split; [|apply Hch]. intros a. pose proof (open_bids_changed _ _ _ _ _ a Hj Hch) as Heq.
  assert (open_bid a (set_assigned prover (ctx_timestamp ctx) job) = open_bid a job) as Hb
    by (unfold open_bid; cbn; by rewrite Hs). lia.
Qed.

(** ** Proofs, with the bank's guard held

    Under the held guard nothing but the payments touches the bank, and no
    slash happens. *)
Definition held_same (s s' : ProofState) : Prop :=
  s.(ps_lock).(rw_held) = true →
  s'.(ps_bank) = s.(ps_bank) ∧ s'.(ps_staking) = s.(ps_staking) ∧ s'.(ps_lock) = s.(ps_lock).

#[local] Instance held_same_preorder : PreOrder held_same.
Proof.
  split; unfold held_same; [by intros s|]. intros s s1 s2 H1 H2 Hl.
  destruct (H1 Hl) as (? & ? & Hl1). rewrite Hl1 in H2. destruct (H2 Hl) as (? & ? & ?).
  split_and!; congruence.
Qed.

Lemma slash_held_same staker rate reason jail m l :
  l.(rw_held) = true → (Staking_slash staker rate reason jail (m, l)).2 = (m, l).
Proof.
  intros Hl. unfold Staking_slash, on_snd, with_write. mrun.
  destruct (sm_stakers m !! staker) as [i|]; cbn; [|done].
  destruct (u_mul _ _ _); cbn; [|done..]. destruct (u_div _ _); cbn; [|done..]. by rewrite Hl.
Qed.

Lemma on_registry_held {A} (m : RegM A) : stable held_same (on_registry m).
Proof. by intros s. Qed.

Lemma on_staking_held {A} (m : M SystemContractError (StakingManager * RwLock Bank) A) :
  (∀ st l, l.(rw_held) = true → (m (st, l)).2 = (st, l)) → stable held_same (on_staking m).
Proof. intros Hm s Hl. unfold on_staking, zoom. cbn. by rewrite Hm. Qed.

Lemma slash_sla_held staker : stable held_same (on_staking (slash_for_sla_violation staker)).
Proof. apply on_staking_held. intros. unfold slash_for_sla_violation. mrun. by apply slash_held_same. Qed.

Lemma slash_proof_held staker : stable held_same (on_staking (slash_for_invalid_proof staker)).
Proof. apply on_staking_held. intros. unfold slash_for_invalid_proof. mrun. by apply slash_held_same. Qed.

#[local] Hint Resolve on_registry_held slash_sla_held slash_proof_held : stable.

Lemma prechecks_held params ctx : stable held_same (proof_prechecks params ctx).
Proof. unfold proof_prechecks. stable_body. apply stable_when; [apply _|]. stable_body. Qed.

Lemma rejected_held params : stable held_same (proof_rejected params).
Proof. unfold proof_rejected. stable_body. Qed.

(** One step of a body satisfies [P], the others the preorder [R]. *)
Lemma bind_then {E S A B} (R P : relation S) (m : M E S A) (k : A → M E S B) :
  (∀ s s', R s s' → P s s') → (∀ s s1 s2, R s s1 → P s1 s2 → P s s2) →
  stable R m → (∀ x, stable P (k x)) → stable P (m ≫= k).
Proof.
  intros Hsub Hcomp Hm Hk s. specialize (Hm s). unfold mbind, M_bind.
  destruct (m s) as [[x|e| |] s1]; cbn in *; eauto. eapply Hcomp; [done|apply Hk].
Qed.

Lemma then_bind {E S A B} (R P : relation S) (m : M E S A) (k : A → M E S B) :
  (∀ s s1 s2, P s s1 → R s1 s2 → P s s2) →
  stable P m → (∀ x, stable R (k x)) → stable P (m ≫= k).
Proof.
  intros Hcomp Hm Hk s. specialize (Hm s). unfold mbind, M_bind.
  destruct (m s) as [[x|e| |] s1]; cbn in *; eauto. eapply Hcomp; [done|apply Hk].
Qed.

Definition same_held (b b' : Bank) : Prop := ∀ a, held b' a = held b a.

#[local] Instance same_held_preorder : PreOrder same_held.
Proof. split; unfold same_held; [done|]. intros b b1 b2 H1 H2 a. by rewrite H2. Qed.

(** One account's held tokens fall by at most [n]. *)
Definition held_falls (q : Address) (n : N) (b b' : Bank) : Prop :=
  ∀ a, held b a <= held b' a + (if decide (a = q) then n else 0).

Lemma transfer_same_held from to n : stable same_held (transfer from to n).
Proof. intros b a. apply transfer_held. Qed.
Lemma burn_same_held from n : stable same_held (burn from n).
Proof. intros b a. apply burn_held. Qed.

Lemma unlock_falls q n : stable (held_falls q n) (unlock q n).
Proof.
  intros b a. pose proof (unlock_held q n b) as Hun. destruct (unlock q n b) as [[u| | |] b'];
    cbn; [destruct Hun as [? Hun]; rewrite Hun|subst..]; case_decide; subst; lia.
Qed.

Lemma falls_same q n b b1 b2 : held_falls q n b b1 → same_held b1 b2 → held_falls q n b b2.
Proof. intros Hf Hs a. rewrite Hs. apply Hf. Qed.

#[local] Hint Resolve transfer_same_held burn_same_held unlock_falls : stable.

(** The payments lower the requester's held tokens by at most the bid. *)
Definition ps_same_held (s s' : ProofState) : Prop := same_held s.(ps_bank) s'.(ps_bank).
Definition ps_falls (q : Address) (n : N) (s s' : ProofState) : Prop :=
  held_falls q n s.(ps_bank) s'.(ps_bank).

#[local] Instance ps_same_held_preorder : PreOrder ps_same_held.
Proof. split; unfold ps_same_held; [by intros s|]. intros s s1 s2 H1 H2. by etrans. Qed.

Lemma on_bank_same_held {A} (m : BankM A) : stable same_held m → stable ps_same_held (on_bank m).
Proof. intros Hm s. apply Hm. Qed.

Lemma on_bank_falls {A} q n (m : BankM A) :
  stable (held_falls q n) m → stable (ps_falls q n) (on_bank m).
Proof. intros Hm s. apply Hm. Qed.

Lemma same_ps_falls q n s s' : ps_same_held s s' → ps_falls q n s s'.
Proof. intros Hs a. rewrite Hs. lia. Qed.

Lemma same_falls_trans q n s s1 s2 : ps_same_held s s1 → ps_falls q n s1 s2 → ps_falls q n s s2.
Proof. intros Hs Hf a. rewrite <- (Hs a). apply Hf. Qed.

#[local] Hint Resolve on_bank_same_held : stable.

Lemma settle_payments_falls job late prover proposer :
  stable (ps_falls job.(job_requester) job.(job_bid_amount))
    (settle_payments job late prover proposer).
Proof.
  unfold settle_payments.
  apply (bind_then ps_same_held); [apply same_ps_falls|apply same_falls_trans|stable_body|].
  intros fee. apply (bind_then ps_same_held);
    [apply same_ps_falls|apply same_falls_trans|stable_body|].
  intros m. apply (bind_then ps_same_held);
    [apply same_ps_falls|apply same_falls_trans|stable_body|].
  intros [[pr vr] bn]. apply (then_bind ps_same_held);
    [intros s s1 s2; apply falls_same| |intros; stable_body].
  apply on_bank_falls, (then_bind same_held); [apply falls_same|auto with stable|].
  intros. stable_body.
Qed.

Lemma submit_proof_money params ctx s o s' :
  submit_proof params ctx s = (o, s') → s.(ps_lock).(rw_held) = true →
  s'.(ps_staking) = s.(ps_staking)
  ∧ (s'.(ps_bank) = s.(ps_bank)
     ∨ ∃ job j', s.(ps_registry).(jr_jobs) !! params.(sp_job_id) = Some job
         ∧ s'.(ps_registry).(jr_jobs) !! params.(sp_job_id) = Some j'
         ∧ can_cancel j'.(job_status) = false
         ∧ held_falls job.(job_requester) job.(job_bid_amount) s.(ps_bank) s'.(ps_bank)).
Proof.
  intros Hrun Hl. revert Hrun. unfold submit_proof. unfold mbind at 1, M_bind at 1.
  pose proof (prechecks_held params ctx s Hl) as Hpm.
  destruct (proof_prechecks params ctx s) as [o1 s1] eqn:Hpre.
  apply prechecks_run in Hpre. cbn in Hpm. destruct Hpm as (Hpb & Hps & _).
  destruct o1 as [[late job]|e| |]; cbn; [|intros [= <- <-]; auto..].
  destruct Hpre as (-> & Hj & _).
  pose proof (verify_proof_same (sp_proof params) job (ps_registry s)) as Hsame.
  unfold on_registry at 1, zoom, mbind at 1, M_bind at 1. cbn.
  destruct (verify_proof _ _ _) as [[verified|e| |] r1]; cbn in *; [|intros [= <- <-]; auto..].
  unfold mbind at 1, M_bind at 1, get. cbn.
  rewrite (sj_jobs _ _ Hsame), Hj. unfold mbind at 1, M_bind at 1, lift. cbn.
  set (s1 := {| ps_registry := r1; ps_staking := ps_staking s; ps_lock := ps_lock s;
                ps_bank := ps_bank s |}).
  destruct verified; cbn.
  - mrun. set (s2 := {| ps_registry := jr_with_jobs _ r1; ps_staking := _; ps_lock := _;
                        ps_bank := _ |}).
    assert (∃ j, s2.(ps_registry).(jr_jobs) !! params.(sp_job_id) = Some j
      ∧ j.(job_status) = Verified) as (j2 & Hj2 & Hv2).
    { cbn. rewrite lookup_alter_eq, (sj_jobs _ _ Hsame), Hj. cbn. eauto. }
    pose proof (settle_payments_same job late (sp_prover params) (ctx_proposer ctx) s2)
      as (Hr & Hst & _).
    pose proof (settle_payments_falls job late (sp_prover params) (ctx_proposer ctx) s2) as Hf.
    intros Heq. destruct (settle_payments _ _ _ _ s2) as [[[[pr vr] bn]|e| |] s3]; cbn in *;
      injection Heq as <- <-; cbn; rewrite ?Hr;
      (split; [done|]); right; exists job; eexists;
      (split_and!; [done| | |exact Hf]);
      [cbn; by rewrite lookup_alter_eq, Hj2|done|exact Hj2|by rewrite Hv2|exact Hj2|by rewrite Hv2
      |exact Hj2|by rewrite Hv2].
  - unfold mbind, M_bind. cbn.
    pose proof (rejected_held params s1 Hl) as Hrm.
    destruct (proof_rejected params s1) as [o2 s2] eqn:Hrej. cbn in Hrm.
    destruct Hrm as (Hb2 & Hs2 & _).
    apply proof_rejected_run in Hrej as [Hno _].
    destruct o2; [done|..]; cbn; intros [= <- <-]; auto.
Qed.

(** A call on an open job keeps the slack. *)
Lemma submit_proof_slack params ctx s o s' :
  submit_proof params ctx s = (o, s') → s.(ps_lock).(rw_held) = true →
  (∀ job, s.(ps_registry).(jr_jobs) !! params.(sp_job_id) = Some job →
     can_cancel job.(job_status) = true) →
  slack_kept s.(ps_registry) s.(ps_bank) s'.(ps_registry) s'.(ps_bank)
  ∧ s'.(ps_registry).(jr_config) = s.(ps_registry).(jr_config)
  ∧ s'.(ps_staking) = s.(ps_staking).
Proof.
  intros Hrun Hl Hopen. destruct (submit_proof_money _ _ _ _ _ Hrun Hl) as [Hst Hm].
  apply submit_proof_run in Hrun as [Hs|(job & f & Hj & _ & Hpc & Hch)].
  - split_and!; [|apply Hs|done]. destruct Hm as [->|(job & j' & Hj & Hj' & Hc & _)].
    + apply slack_same, Hs.
    + rewrite (sj_jobs _ _ Hs), Hj in Hj'. injection Hj' as <-.
      specialize (Hopen _ Hj). congruence.
  - split_and!; [|apply Hch|done]. intros a.
    pose proof (open_bids_changed _ _ _ _ _ a Hj Hch) as Heq.
    assert (open_bid a (f job) = 0) as Hz by (apply open_bid_closed; by destruct Hpc).
    destruct Hm as [->|(job' & j' & Hj' & _ & _ & Hf)]; [lia|].
    rewrite Hj in Hj'. injection Hj' as <-. specialize (Hf a).
    assert ((if decide (a = job_requester job) then job_bid_amount job else 0) = open_bid a job);
      [|lia].
    case_decide as Ha; [subst; by rewrite open_bid_self by eauto|].
    unfold open_bid. by rewrite bool_decide_false by done.
Qed.

(** ** Cancellation *)
Lemma held_le_supply b a : bank_wf b → held b a <= b.(bk_total_supply).
Proof.
  intros Hwf. pose proof (account_or_default_wf a b (wf_accounts _ Hwf)) as Ha.
  pose proof (balance_le_total a b). pose proof (wf_backed _ Hwf).
  unfold held, account_wf in *. lia.
Qed.

Lemma thawed_unlocked b a : thawed b → is_locked (account_or_default a b) b.(bk_current_block) = false.
Proof. intros Ht. unfold is_locked. rewrite (Ht a). apply bool_decide_false. lia. Qed.

Lemma cancel_free id requester ctx r b job :
  r.(jr_jobs) !! id = Some job → job.(job_bid_amount) = 0 →
  let s' := (cancel_job id requester ctx (r, b)).2 in ∀ a, held s'.2 a = held b a.
Proof.
  intros Hj Hz. cbn. intros a. unfold cancel_job, on_fst, on_snd, update_job, job_done, push_job_event.
  mrun. rewrite Hj. cbn. case_bool_decide; cbn; [|done]. destruct (can_cancel _); cbn; [|done].
  rewrite Hz, u_mul_ok by lia. cbn. rewrite N.mul_0_l. cbn.
  pose proof (unlock_held requester 0 b) as Hu.
  destruct (unlock requester 0 b) as [[u| | |] b1]; cbn; [|by subst..].
  destruct Hu as [_ Hu]. rewrite Hu. case_decide; lia.
Qed.

Lemma cancel_guard_fails id requester ctx r b :
  (∀ job, r.(jr_jobs) !! id = Some job → job.(job_requester) = requester →
     can_cancel job.(job_status) = true → False) →
  (cancel_job id requester ctx (r, b)).2 = (r, b).
Proof.
  intros Hno. unfold cancel_job. mrun. destruct (jr_jobs r !! id) as [job|] eqn:Hj; cbn; [|done].
  case_bool_decide as Hq; cbn; [|done]. destruct (can_cancel _) eqn:Hc; cbn; [|done].
  destruct (Hno job eq_refl Hq Hc).
Qed.

Lemma cancel_job_slack id requester ctx r b :
  bank_wf b → thawed b → b.(bk_total_supply) <= BankConfig_default.(bc_initial_supply) →
  r.(jr_config).(cancellation_fee_bps) <= 10000 → (∀ a, open_bids r a <= held b a) →
  let s' := (cancel_job id requester ctx (r, b)).2 in
  slack_kept r b s'.1 s'.2 ∧ s'.1.(jr_config) = r.(jr_config).
Proof.
  intros Hwf Hth Hsup Hfee Hback. cbn.
  destruct (jr_jobs r !! id) as [job|] eqn:Hj;
    [|rewrite cancel_guard_fails by (intros; congruence); split; [by apply slack_same|done]].
  destruct (decide (job.(job_requester) = requester ∧ can_cancel job.(job_status) = true))
    as [[Hq Hc]|Hno];
    [|rewrite cancel_guard_fails by (intros job' Hj' ? ?; rewrite Hj in Hj'; injection Hj' as <-; tauto); split; [by apply slack_same|done]].
  pose proof (cancel_job_effect id requester ctx r b) as Heff. cbn in Heff.
  pose proof (open_bid_le id job r requester Hj) as Hle. rewrite <- Hq, open_bid_self, Hq in Hle by done.
  specialize (Hback requester). pose proof (held_le_supply b requester Hwf). cbn in Hsup.
  split; [|destruct Heff as [->|(? & _ & _ & _ & Hch)]; [done|apply Hch]].
  destruct (decide (job.(job_bid_amount) = 0)) as [Hz|Hz].
  - pose proof (cancel_free id requester ctx r b job Hj Hz) as Hh. cbn in Hh.
    intros a. rewrite Hh. destruct Heff as [->|(job' & Hj' & _ & _ & Hch)]; [lia|].
    pose proof (open_bids_changed _ _ _ _ _ a Hj' Hch) as Heq.
    rewrite (open_bid_closed a (set_status Cancelled job')) in Heq by done. lia.
  - destruct (cancel_run r b id requester ctx job) as (r' & b' & Hrun & _ & Hh & Ho & _ & _ & Hst & _);
      try done; [nia|rewrite held_locked_balance; lia|by apply thawed_unlocked|].
    rewrite Hrun in *. cbn in *. destruct Heff as [->|(job' & Hj' & _ & _ & Hch)].
    { rewrite Hj in Hst. cbn in Hst. injection Hst as Hst. by rewrite Hst in Hc. }
    rewrite Hj in Hj'. injection Hj' as <-.
    intros a. pose proof (open_bids_changed _ _ _ _ _ a Hj Hch) as Heq.
    rewrite (open_bid_closed a (set_status Cancelled job)) in Heq by done.
    destruct (decide (a = requester)) as [->|Hne].
    + rewrite !held_locked_balance in Hh. rewrite <- Hq, open_bid_self, Hq in Heq by done. lia.
    + specialize (Ho a Hne). rewrite !held_locked_balance in Ho. lia.
Qed.
End joint.

(** ** Staking calls *)
Section staking_slack.
Context `{Build}.

Definition stake_slack (m : StakingManager) (b : Bank) (m' : StakingManager) (b' : Bank) : Prop :=
  ∀ a, staked m' a + held b a <= staked m a + held b' a.

Lemma stake_keeps_slack staker amount role m b :
  bank_wf b →
  let s' := (stake staker amount role (m, b)).2 in stake_slack m b s'.1 s'.2.
Proof.
  intros Hwf. cbn. unfold stake, put_staker, push_staking_event, on_fst, on_snd. mrun.
  case_bool_decide; cbn; [by intros a|].
  pose proof (lock_held staker amount b Hwf) as Hl.
  destruct (lock staker amount b) as [[u| | |] b1]; cbn; [|subst; by intros a..].
  intros a. rewrite Hl. unfold staked. cbn.
  destruct (decide (a = staker)) as [->|Hne].
  - rewrite lookup_insert_eq. cbn. unfold sat_add.
    destruct (sm_stakers m !! staker) as [i|]; cbn; lia.
  - rewrite lookup_insert_ne by done. lia.
Qed.

Lemma withdraw_keeps_slack staker ctx m b :
  staking_inv (m, b) →
  let s' := (withdraw staker ctx (m, b)).2 in stake_slack m b s'.1 s'.2.
Proof.
  intros Hinv. cbn. destruct (sm_stakers m !! staker) as [i|] eqn:Hi;
    [|unfold withdraw; mrun; rewrite Hi; by intros a].
  destruct (decide (si_unbonding i = 0)) as [Hz|Hz];
    [unfold withdraw; mrun; rewrite Hi; cbn; rewrite bool_decide_true by done; by intros a|].
  destruct (decide (ctx_timestamp ctx < si_unbonding_complete_time i)) as [Hc|Hc];
    [unfold withdraw; mrun; rewrite Hi; cbn; rewrite bool_decide_false by done; cbn;
     rewrite bool_decide_true by done; by intros a|].
  destruct (withdraw_ok staker ctx m b i) as (acc & Ha & Hle & ->); [done..|lia|]. cbn.
  pose proof (inv_unbonding _ Hinv _ _ Hi) as Hu. cbn in Hu.
  intros a. unfold staked, held. cbn. rewrite account_put.
  destruct (decide (staker = a)) as [<-|Hne].
  - rewrite lookup_insert_eq, Hi, (account_lookup _ _ _ Ha). cbn. unfold sat_sub. lia.
  - rewrite lookup_insert_ne by done. lia.
Qed.

(** Calls that do not move stakes. *)
Definition same_stakes (m m' : StakingManager) : Prop :=
  m'.(sm_total_staked) = m.(sm_total_staked)
  ∧ ∀ a, (λ i, (i.(si_staked))) <$> m'.(sm_stakers) !! a
       = (λ i, (i.(si_staked))) <$> m.(sm_stakers) !! a.

Lemma same_stakes_slack m b m' : same_stakes m m' → stake_slack m b m' b.
Proof. intros [_ Hs] a. unfold staked. by rewrite Hs. Qed.

Lemma unstake_same_stakes staker amount ctx m :
  same_stakes m (unstake staker amount ctx m).2.
Proof.
  unfold unstake, put_staker, push_staking_event. mrun.
  destruct (sm_stakers m !! staker) as [i|] eqn:Hi; cbn; [|done].
  case_bool_decide; cbn; [done|]. case_bool_decide; cbn; [done|]. destruct (_ && _); cbn; [done|].
  assert (∀ x, x.(si_staked) = i.(si_staked) → ∀ a, si_staked <$> <[staker := x]> (sm_stakers m) !! a
    = si_staked <$> sm_stakers m !! a) as Hins.
  { intros x Hx a. destruct (decide (staker = a)) as [<-|].
    - rewrite lookup_insert_eq, Hi. cbn. by rewrite Hx.
    - by rewrite lookup_insert_ne. }
  destruct (u_add _ _ _) as [t| | |]; cbn; split; try done; cbn; intros a; rewrite ?insert_insert_eq;
    by apply Hins.
Qed.

Lemma end_block_same_stakes ctx m : same_stakes m (Staking_end_block ctx m).2.
Proof.
  unfold Staking_end_block, Staking_drain_events. mrun. split; [done|]. intros a. cbn.
  rewrite lookup_fmap, <- option_fmap_compose. apply option_fmap_ext. intros i. cbn.
  pose proof (unjail_same ctx i). congruence.
Qed.

Lemma update_utilization_same_stakes u m : same_stakes m (update_utilization u m).2.
Proof.
  unfold update_utilization, push_staking_event. mrun.
  destruct (congestion_burn_rate _ _); cbn; [case_bool_decide|..]; done.
Qed.
End staking_slack.

(** ** The kernel *)
Section kernel_solvency.
Context `{Build, Crypto, Clock}.

(** The calls under which solvency is kept: a proof is only submitted for a
    job that is still open. *)
Definition open_target (k : SystemKernel) (call : SystemCall) : Prop :=
  match call with
  | SubmitProof params => ∀ job,
      k.(k_job_registry).(jr_jobs) !! params.(sp_job_id) = Some job →
      can_cancel job.(job_status) = true
  | _ => True
  end.

Record advances (k k' : SystemKernel) : Prop := {
  adv_config : k'.(k_job_registry).(jr_config) = k.(k_job_registry).(jr_config);
  adv_stakes : stakes_ok k'.(k_staking);
  adv_slack : ∀ a, staked k'.(k_staking) a + open_bids k'.(k_job_registry) a + held k.(k_bank) a
    <= staked k.(k_staking) a + open_bids k.(k_job_registry) a + held k'.(k_bank) a;
}.

Lemma solvent_step k k' :
  solvent k → kbank bank_step k k' → kbank (maintains thawed) k k' → advances k k' → solvent k'.
Proof.
  intros [Hwf Hst Hb Hs Ht Hf] Hstep Hth [Hc Hst' Hsl]. destruct (Hstep Hwf) as (Hwf' & Hsum & _).
  split; [done|done| |congruence|by apply Hth|by rewrite Hc].
  intros a. specialize (Hb a). specialize (Hsl a). lia.
Qed.

Lemma solvent_staking k : solvent k → staking_inv (k.(k_staking), k.(k_bank)).
Proof.
  intros [Hwf [Ht Hu] Hb _ _ _]. split; cbn; [done..|]. intros a. specialize (Hb a).
  unfold staked, held in Hb. lia.
Qed.

Lemma stakes_ok_inv m b : staking_inv (m, b) → stakes_ok m.
Proof. intros [_ Ht Hu _]. by split. Qed.

(** Advances by a call on two of the contracts. *)
Lemma advance_registry k r b :
  solvent k → slack_kept k.(k_job_registry) k.(k_bank) r b →
  r.(jr_config) = k.(k_job_registry).(jr_config) →
  ∀ c x, advances k {| k_job_registry := r; k_staking := k.(k_staking); k_compliance := c;
                       k_bank := b; k_context := x |}.
Proof.
  intros Hk Hs Hc c x. split; cbn; [done|apply Hk|]. intros a. specialize (Hs a). lia.
Qed.

Lemma advance_staking k m b :
  solvent k → staking_inv (m, b) → stake_slack k.(k_staking) k.(k_bank) m b →
  ∀ c x, advances k {| k_job_registry := k.(k_job_registry); k_staking := m; k_compliance := c;
                       k_bank := b; k_context := x |}.
Proof.
  intros Hk Hi Hs c x. split; cbn; [done|by eapply stakes_ok_inv|].
  intros a. specialize (Hs a). lia.
Qed.

Lemma advance_same k c x :
  solvent k → advances k {| k_job_registry := k.(k_job_registry); k_staking := k.(k_staking);
                            k_compliance := c; k_bank := k.(k_bank); k_context := x |}.
Proof. intros Hk. apply advance_registry; [done|by apply slack_same|done]. Qed.

Lemma bind_mret_snd {E S A B} (m : M E S A) (f : A → B) s : ((x ← m; mret (f x)) s).2 = (m s).2.
Proof. unfold mbind, M_bind. by destruct (m s) as [[]]. Qed.

Lemma execute_advances k call :
  solvent k → open_target k call → advances k (execute call k).2.
Proof.
  intros Hk Hopen. pose proof (solvent_staking k Hk) as Hinv.
  unfold execute. unfold mbind at 1, M_bind at 1, gets.
  destruct call as [params|id prover|params|id q|st n role|st n|st|a l|c|x y];
    rewrite ?bind_mret_snd.
  - unfold check_compliance, with_compliance, with_registry_bank. mrun.
    destruct (enforce _ _ _ _ _ _ _) as [[res| | |] m]; cbn; try by apply advance_same.
    destruct (ccr_passed res); cbn; [|by apply advance_same].
    pose proof (submit_job_slack params (k_context k) (k_job_registry k) (k_bank k)
      (sv_bank _ Hk)) as [Hs Hc].
    destruct (submit_job _ _ _) as [[| | |] [r b]]; cbn in *; by apply advance_registry.
  - unfold with_registry, zoom. cbn.
    destruct (assign_job_slack id prover (k_context k) (k_job_registry k) (k_bank k)).
    by apply advance_registry.
  - unfold with_proof, zoom. cbn.
    destruct (submit_proof params _ _) as [o s'] eqn:Hrun. cbn.
    apply submit_proof_slack in Hrun as (Hs & Hc & Hst); [|done|exact Hopen]. cbn in *.
    rewrite Hst. by apply advance_registry.
  - unfold with_registry_bank, zoom. cbn.
    pose proof (sv_supply _ Hk) as Hsup.
    destruct (cancel_job_slack id q (k_context k) (k_job_registry k) (k_bank k))
      as [Hs Hc]; [apply Hk|apply Hk|cbn in *; lia|apply Hk| |by apply advance_registry].
    intros a. pose proof (sv_backed _ Hk a). lia.
  - unfold with_staking_bank, zoom. cbn.
    pose proof (stake_maintains st n role _ Hinv) as Hi.
    pose proof (stake_keeps_slack st n role (k_staking k) _ (sv_bank _ Hk)) as Hs.
    destruct (stake st n role _) as [o [m b]]. by apply advance_staking.
  - unfold with_staking, zoom. cbn.
    pose proof (unstake_maintains st n (k_context k) _ Hinv) as Hi.
    apply advance_staking; [done|exact Hi|apply same_stakes_slack, unstake_same_stakes].
  - unfold with_staking_bank, zoom. cbn.
    pose proof (withdraw_maintains st (k_context k) _ Hinv) as Hi.
    pose proof (withdraw_keeps_slack st (k_context k) _ _ Hinv) as Hs.
    destruct (withdraw st _ _) as [o [m b]]. by apply advance_staking.
  - by apply advance_same.
  - by apply advance_same.
  - by apply advance_same.
Qed.

Lemma end_block_advances k : solvent k → advances k (Kernel_end_block k).2.
Proof.
  intros Hk. pose proof (solvent_staking k Hk) as Hinv.
  unfold Kernel_end_block. unfold mbind at 1, M_bind at 1, gets. cbn.
  set (ctx := k_context k).
  pose proof (process_expired_effect (ctx_timestamp ctx) (k_job_registry k)) as Hx.
  assert (slack_kept (k_job_registry k) (k_bank k)
    (process_expired_jobs (ctx_timestamp ctx) (k_job_registry k)).2 (k_bank k)) as Hs1.
  { intros a. pose proof (expires_open_bids _ _ _ a Hx). lia. }
  destruct Hx as (_ & _ & Hcfg & _).
  pose proof (end_block_maintains ctx _ Hinv) as Hi1.
  pose proof (end_block_same_stakes ctx (k_staking k)) as Hss1.
  unfold on_fst, zoom in Hi1. cbn in Hi1.
  unfold mbind at 1, M_bind at 1, with_registry, zoom.
  destruct (process_expired_jobs _ _) as [[evs| | |] r] eqn:Hr; cbn in *;
    try by apply advance_registry.
  unfold mbind at 1, M_bind at 1, with_staking, zoom. cbn.
  destruct (Staking_end_block ctx (k_staking k)) as [[evs2| | |] m] eqn:Hm; cbn in *;
    try (split; cbn; [done|by eapply stakes_ok_inv|]; intros a; specialize (Hs1 a);
         pose proof (same_stakes_slack _ (k_bank k) _ Hss1 a); lia).
  unfold mbind, M_bind. cbn.
  pose proof (update_utilization_maintains (block_utilization ctx) _ Hi1) as Hi2.
  pose proof (update_utilization_same_stakes (block_utilization ctx) m) as Hss2.
  unfold on_fst, zoom in Hi2. cbn in Hi2.
  destruct (update_utilization _ m) as [[u| | |] m2]; cbn in *;
    (split; cbn; [done|by eapply stakes_ok_inv|]; intros a; specialize (Hs1 a);
     pose proof (same_stakes_slack _ (k_bank k) _ Hss1 a);
     pose proof (same_stakes_slack _ (k_bank k) _ Hss2 a); lia).
Qed.

Lemma solvent_genesis g :
  allocated g.(gc_allocations) <= BankConfig_default.(bc_initial_supply) →
  GenesisConfig_validate g = Ok tt → solvent (SystemKernel_from_genesis g).
Proof.
  intros Hal Hval. destruct (genesis_bank _ Hal) as [Hwf Hs].
  split; cbn; [done| | | |apply genesis_thawed|].
  - split; cbn; [by rewrite map_sum_empty|apply map_Forall_empty].
  - intros a. rewrite genesis_held. unfold staked, open_bids. cbn.
    by rewrite lookup_empty, map_sum_empty.
  - rewrite Hs, genesis_not_burned. done.
  - unfold GenesisConfig_validate in Hval.
    repeat (apply obind_ok in Hval as (? & ? & Hval)).
    match goal with Hj : JobConfig_validate _ = _ |- _ => unfold JobConfig_validate in Hj;
      repeat case_bool_decide; simplify_eq; lia end.
Qed.

Lemma solvent_reachable g k :
  allocated g.(gc_allocations) <= BankConfig_default.(bc_initial_supply) →
  GenesisConfig_validate g = Ok tt →
  rtc (kernel_step open_target) (SystemKernel_from_genesis g) k → solvent k.
Proof.
  intros Hal Hval Hrun. pose proof (solvent_genesis g Hal Hval) as Hg. revert Hg.
  induction Hrun as [k|k k1 k2 Hstep _ IH]; intros Hk; [done|]. apply IH.
  destruct Hstep as [ctx| |call Hok _].
  - apply (solvent_step k); [done|unfold kbank; cbn; reflexivity..|by apply advance_same].
  - apply (solvent_step k); [done|apply (end_block_bank bank_step)|
      apply (end_block_bank (maintains thawed))|by apply end_block_advances].
  - apply (solvent_step k); [done|apply (execute_bank bank_step)|
      apply (execute_bank (maintains thawed))|by apply execute_advances].
Qed.

(** C1: the kernel stays solvent.  From a validated genesis whose allocations
    add up to at most the initial supply of 10^27 base units (which the
    validation does not check), whatever blocks and calls run and whichever of
    them fail, until one never returns, and as long as proofs are only submitted
    for jobs that are still [Submitted] or [Assigned]: every account's locked
    tokens cover its stake and the bids of all its open jobs together, and are
    covered by its balance.  (The restriction on proofs is needed: a settled job
    can be settled again out of other locked tokens.) *)
Theorem kernel_solvent g k a :
  allocated g.(gc_allocations) <= BankConfig_default.(bc_initial_supply) →
  GenesisConfig_validate g = Ok tt →
  rtc (kernel_step open_target) (SystemKernel_from_genesis g) k →
  staked k.(k_staking) a + open_bids k.(k_job_registry) a <= get_locked_balance k.(k_bank) a
  ∧ get_locked_balance k.(k_bank) a <= balance_of k.(k_bank) a.
Proof.
  intros Hal Hval Hrun. pose proof (solvent_reachable g k Hal Hval Hrun) as Hk.
  rewrite held_locked_balance. split; [apply Hk|].
  destruct (abs_observers (k_bank k) a) as (_ & _ & ->).
  exact (account_or_default_wf a (k_bank k) (wf_accounts _ (sv_bank _ Hk))).
Qed.

(** C2: the bids of open jobs and matured stakes can be got back.  From a
    validated genesis whose allocations add up to at most the initial supply, in
    every state reached by calls that return, with proofs only submitted for jobs
    that are still [Submitted] or [Assigned]: the requester of a job with a
    non-zero bid that is still [Submitted] or [Assigned] can cancel it and is
    refunded the bid less the configured fee, and a staker whose unbonding
    period is over can withdraw exactly the unbonding amount: neither call can
    fail.  (Nothing is said of the bid of a job that has expired or failed: no
    call gives it back.) *)
Theorem funds_always_redeemable g k :
  allocated g.(gc_allocations) <= BankConfig_default.(bc_initial_supply) →
  GenesisConfig_validate g = Ok tt →
  rtc (kernel_step open_target) (SystemKernel_from_genesis g) k →
  (∀ id job, k.(k_job_registry).(jr_jobs) !! id = Some job →
     can_cancel job.(job_status) = true → job.(job_bid_amount) ≠ 0 →
     let fee := job.(job_bid_amount) * k.(k_job_registry).(jr_config).(cancellation_fee_bps)
                / 10000 in
     ∃ k', execute (CancelJob id job.(job_requester)) k
         = (Ok (ResJobCancelled {| jcr_job_id := id;
              jcr_refunded := job.(job_bid_amount) - fee; jcr_cancellation_fee := fee |}), k')
       ∧ available_balance k'.(k_bank) job.(job_requester)
         = available_balance k.(k_bank) job.(job_requester) + (job.(job_bid_amount) - fee))
  ∧ (∀ staker i, k.(k_staking).(sm_stakers) !! staker = Some i → i.(si_unbonding) ≠ 0 →
     i.(si_unbonding_complete_time) <= k.(k_context).(ctx_timestamp) →
     ∃ k', execute (WithdrawStake staker) k = (Ok (ResWithdrawn staker i.(si_unbonding)), k')).
Proof.
  intros Hal Hval Hrun. pose proof (solvent_reachable g k Hal Hval Hrun) as Hk. split.
  - intros id job Hj Hc Hz fee.
    pose proof (open_bid_le id job _ (job_requester job) Hj) as Hle.
    rewrite open_bid_self in Hle by done.
    pose proof (sv_backed _ Hk (job_requester job)). pose proof (sv_supply _ Hk) as Hsup.
    pose proof (held_le_supply _ (job_requester job) (sv_bank _ Hk)).
    pose proof (sv_fee _ Hk). cbn in Hsup.
    destruct (cancel_run (k_job_registry k) (k_bank k) id (job_requester job) (k_context k) job)
      as (r' & b' & Hrun' & _ & _ & _ & Hav & _); try done;
      [nia|apply Hk|rewrite held_locked_balance; lia|apply thawed_unlocked, Hk|].
    unfold execute, with_registry_bank. mrun. rewrite Hrun'. cbn.
    eexists. split; [reflexivity|]. cbn. rewrite (Hav (job_requester job)).
    by rewrite decide_True.
  - intros staker i Hi Hu Ht.
    destruct (withdraw_ok staker (k_context k) _ _ i (solvent_staking k Hk) Hi Hu Ht)
      as (acc & _ & _ & Hw).
    unfold execute, with_staking_bank. mrun. rewrite Hw. cbn. eauto.
Qed.
End kernel_solvency.

(** * Concrete runs of the kernel *)

#[local] Existing Instances dev_build dev_crypto dev_clock.

Definition dev_genesis (c : ComplianceConfig) : GenesisConfig := {|
  gc_chain_id := "aethelred-devnet"; gc_launch_timestamp := 0;
  gc_allocations :=
    [{| ta_address := alice; ta_balance := 100 * one_token; ta_vesting := None |};
     {| ta_address := prover; ta_balance := 100 * one_token; ta_vesting := None |}];
  gc_job_config := JobConfig_devnet; gc_staking_config := StakingConfig_devnet;
  gc_compliance_config := c;
  gc_parameters := {| cp_block_time_ms := 1000; cp_epoch_length := 100;
                      cp_max_block_gas := 100000000; cp_min_tx_fee := 0 |} |}.

Definition dev_start (c : ComplianceConfig) : SystemKernel :=
  SystemKernel_from_genesis (dev_genesis c).

Definition dev_exec (call : SystemCall) (k : SystemKernel) : SystemKernel := (execute call k).2.

(** The bound on the allocations is a condition on the genesis file: the three
    networks the code ships meet it, and the validation does not ask for it. *)
Lemma shipped_genesis_fits :
  Forall (λ g, GenesisConfig_validate g = Ok tt
      ∧ allocated g.(gc_allocations) <= BankConfig_default.(bc_initial_supply))
    [GenesisConfig_mainnet; GenesisConfig_testnet; GenesisConfig_devnet].
Proof. repeat constructor; vm_compute; done. Qed.

Definition oversized_genesis : GenesisConfig :=
  let g := dev_genesis ComplianceConfig_devnet in {|
  gc_chain_id := g.(gc_chain_id); gc_launch_timestamp := g.(gc_launch_timestamp);
  gc_allocations :=
    [{| ta_address := alice; ta_balance := 2 * BankConfig_default.(bc_initial_supply);
        ta_vesting := None |}];
  gc_job_config := g.(gc_job_config); gc_staking_config := g.(gc_staking_config);
  gc_compliance_config := g.(gc_compliance_config); gc_parameters := g.(gc_parameters) |}.

Lemma oversized_genesis_validates :
  GenesisConfig_validate oversized_genesis = Ok tt
  ∧ let b := (SystemKernel_from_genesis oversized_genesis).(k_bank) in
    b.(bk_total_supply) < balance_of b alice.
Proof. split; by vm_compute. Qed.

(** A job that is settled, cancelled, expired or failed cannot be cancelled, by
    its requester or anybody else. *)
Lemma closed_job_not_cancelled k id job q :
  k.(k_job_registry).(jr_jobs) !! id = Some job → can_cancel job.(job_status) = false →
  is_ok (execute (CancelJob id q) k).1 = false ∧ (execute (CancelJob id q) k).2 = k.
Proof.
  intros Hj Hc. unfold execute, with_registry_bank, cancel_job. mrun. rewrite Hj. cbn.
  repeat (case_bool_decide || rewrite Hc || case_match); cbn; by destruct k.
Qed.

(** The prover stakes, alice submits two jobs, the first is assigned. *)
Definition dev_kernel : SystemKernel :=
  dev_exec (AssignJob (dev_job_id 0) prover)
    (begin_block (dev_ctx 1)
       (dev_exec (SubmitJob (dev_params ReExecution))
          (dev_exec (SubmitJob (dev_params ReExecution))
             (dev_exec (Stake prover (10 * one_token) ComputeNode)
                (begin_block (dev_ctx 0) (dev_start ComplianceConfig_devnet)))))).

Lemma dev_kernel_reachable allowed :
  (∀ k call, open_target k call → allowed k call) →
  rtc (kernel_step allowed) (dev_start ComplianceConfig_devnet) dev_kernel.
Proof.
  intros Hal. unfold dev_kernel, dev_exec.
  eapply rtc_l; [apply (ks_begin _ _ (dev_ctx 0))|].
  eapply rtc_l; [apply (ks_call _ _ (Stake prover (10 * one_token) ComputeNode)); [apply Hal; exact I|by vm_compute]|].
  do 2 (eapply rtc_l; [apply (ks_call _ _ (SubmitJob (dev_params ReExecution))); [apply Hal; exact I|by vm_compute]|]).
  eapply rtc_l; [apply (ks_begin _ _ (dev_ctx 1))|].
  eapply rtc_l; [apply (ks_call _ _ (AssignJob (dev_job_id 0) prover)); [apply Hal; exact I|by vm_compute]|].
  apply rtc_refl.
Qed.

(** The job is proved and settled, and the block ends. *)
Definition dev_settled : SystemKernel :=
  (Kernel_end_block (dev_exec (SubmitProof (dev_proof_params ReExecution)) dev_kernel)).2.

Lemma dev_settled_reachable :
  rtc (kernel_step open_target) (dev_start ComplianceConfig_devnet) dev_settled.
Proof.
  unfold dev_settled, dev_exec. etransitivity; [by apply dev_kernel_reachable|].
  eapply rtc_l; [apply (ks_call _ _ (SubmitProof (dev_proof_params ReExecution)))|].
  - intros job Hj.
    assert ((k_job_registry dev_kernel).(jr_jobs) !! dev_job_id 0 = Some (dev_job ReExecution))
      as Hd by (vm_compute; reflexivity).
    change (sp_job_id (dev_proof_params ReExecution)) with (dev_job_id 0) in Hj.
    rewrite Hd in Hj. injection Hj as <-. reflexivity.
  - by vm_compute.
  - eapply rtc_l; [apply ks_end|]. apply rtc_refl.
Qed.

Lemma kernel_conserves_witness :
  dev_settled.(k_bank).(bk_total_supply) + dev_settled.(k_bank).(bk_total_burned)
    = 1000000000000000000000000000
  ∧ dev_settled.(k_bank).(bk_total_burned) ≠ 0.
Proof.
  split; [|vm_compute; discriminate].
  apply (kernel_conserves (dev_genesis ComplianceConfig_devnet) dev_settled).
  - vm_compute. discriminate.
  - eapply rtc_subrel; [|exact dev_settled_reachable].
    intros k k' [ctx| |call _ Hr]; [apply ks_begin|apply ks_end|by apply ks_call].
Defined.

Lemma sanctioned_cannot_submit_witness :
  let k1 := dev_exec (AddSanctionedAddress alice "OFAC SDN") (dev_start ComplianceConfig_mainnet) in
  is_ok (execute (SubmitJob (dev_params Hybrid)) (begin_block (dev_ctx 5) k1)).1 = false.
Proof.
  apply (sanctioned_cannot_submit (dev_genesis ComplianceConfig_mainnet)
    (dev_start ComplianceConfig_mainnet) alice "OFAC SDN" ResComplianceUpdated
    (dev_exec (AddSanctionedAddress alice "OFAC SDN") (dev_start ComplianceConfig_mainnet))).
  - reflexivity.
  - reflexivity.
  - apply rtc_refl.
  - vm_compute. reflexivity.
  - eapply rtc_l; [apply (ks_begin _ _ (dev_ctx 5))|]. apply rtc_refl.
  - left. reflexivity.
Defined.

Lemma end_block_total_witness :
  ∃ events k', Kernel_end_block dev_kernel = (Ok events, k') ∧ k'.(k_bank) = dev_kernel.(k_bank).
Proof.
  destruct (end_block_total dev_kernel) as (events & k' & Hrun & Hb & _).
  - split; vm_compute; done || discriminate.
  - exists events, k'. split; [exact Hrun|exact Hb].
Defined.

Lemma late_proof_blocks_witness :
  let k := begin_block (dev_ctx 1000) dev_kernel in
  execute (SubmitProof (dev_proof_params ReExecution)) k = (Blocked, k).
Proof.
  eapply (late_proof_blocks (begin_block (dev_ctx 1000) dev_kernel)
    (dev_proof_params ReExecution) (dev_job ReExecution)).
  - vm_compute. reflexivity.
  - reflexivity.
  - vm_compute. reflexivity.
  - vm_compute. reflexivity.
  - vm_compute. discriminate.
Defined.

(** Before the settlement: ten tokens staked by the prover, two bids of alice. *)
Lemma kernel_solvent_witness :
  staked dev_kernel.(k_staking) alice + open_bids dev_kernel.(k_job_registry) alice
    <= get_locked_balance dev_kernel.(k_bank) alice
  ∧ open_bids dev_kernel.(k_job_registry) alice = 2 * one_token.
Proof.
  split; [|vm_compute; reflexivity].
  apply (kernel_solvent (dev_genesis ComplianceConfig_devnet) dev_kernel alice).
  - vm_compute. discriminate.
  - vm_compute. reflexivity.
  - apply dev_kernel_reachable. done.
Defined.

Lemma funds_always_redeemable_witness :
  ∃ k', execute (CancelJob (dev_job_id 0) alice) dev_kernel
    = (Ok (ResJobCancelled {| jcr_job_id := dev_job_id 0; jcr_refunded := one_token;
                              jcr_cancellation_fee := 0 |}), k').
Proof.
  destruct (funds_always_redeemable (dev_genesis ComplianceConfig_devnet) dev_kernel)
    as [Hcan _].
  - vm_compute. discriminate.
  - vm_compute. reflexivity.
  - apply dev_kernel_reachable. done.
  - destruct (Hcan (dev_job_id 0) (dev_job ReExecution)) as (k' & Hrun & _).
    + vm_compute. reflexivity.
    + reflexivity.
    + vm_compute. discriminate.
    + exists k'. exact Hrun.
Defined.
