(* ===== verification/Tee.v ===== *)
(** * The TEE precompiles

    [crates/vm/src/precompiles/tee.rs]: the registry of trusted measurements,
    the parsers and checks of SGX DCAP quotes, Nitro attestations and SEV-SNP
    reports, and the universal precompile the job registry calls.

    Intel's DCAP library, the COSE, CBOR, JSON and hexadecimal decoders and the
    clock are outside the repository: an instance of [TeeEnv]. *)
From S2P Require Import Prelude SysTypes Precompile.
From stdpp Require Import base gmap list strings pretty.
From Stdlib Require Import ZArith.
#[local] Open Scope N_scope.

(** ** Configuration *)
Record PlatformConfig := {
  nitro_enabled : bool;
  sgx_dcap_enabled : bool;
  sgx_epid_enabled : bool;
  sev_snp_enabled : bool;
  sgx_tcb_recovery_mode : bool;
}.

Record TeeVerifierConfig := {
  strict_mode : bool;
  max_attestation_age_secs : N;
  require_fresh_collateral : bool;
  collateral_freshness_secs : N;
  min_isv_svn : N;
  allow_debug_enclaves : bool;
  platform_config : PlatformConfig;
  tee_enterprise_mode : bool;
}.

Definition TeeVerifierConfig_devnet : TeeVerifierConfig := {|
  strict_mode := false;
  max_attestation_age_secs := 86400 * 7;
  require_fresh_collateral := false;
  collateral_freshness_secs := 86400 * 30;
  min_isv_svn := 0;
  allow_debug_enclaves := true;
  platform_config := {| nitro_enabled := true; sgx_dcap_enabled := true; sgx_epid_enabled := true;
                        sev_snp_enabled := true; sgx_tcb_recovery_mode := true |};
  tee_enterprise_mode := false |}.

Definition TeeVerifierConfig_testnet : TeeVerifierConfig := {|
  strict_mode := true;
  max_attestation_age_secs := 86400;
  require_fresh_collateral := false;
  collateral_freshness_secs := 86400 * 7;
  min_isv_svn := 0;
  allow_debug_enclaves := false;
  platform_config := {| nitro_enabled := true; sgx_dcap_enabled := true; sgx_epid_enabled := false;
                        sev_snp_enabled := true; sgx_tcb_recovery_mode := true |};
  tee_enterprise_mode := true |}.

Definition TeeVerifierConfig_mainnet : TeeVerifierConfig := {|
  strict_mode := true;
  max_attestation_age_secs := 3600;
  require_fresh_collateral := true;
  collateral_freshness_secs := 86400;
  min_isv_svn := 1;
  allow_debug_enclaves := false;
  platform_config := {| nitro_enabled := true; sgx_dcap_enabled := true; sgx_epid_enabled := false;
                        sev_snp_enabled := true; sgx_tcb_recovery_mode := false |};
  tee_enterprise_mode := true |}.

Definition TeeVerifierConfig_enterprise : TeeVerifierConfig := TeeVerifierConfig_mainnet.
Definition TeeVerifierConfig_default : TeeVerifierConfig := TeeVerifierConfig_enterprise.

(** ** Platforms and statuses *)
Inductive TeePlatform := PfNitro | PfSgxDcap | PfSgxEpid | PfSevSnp | PfUnknown.

#[export] Instance TeePlatform_eq_dec : EqDecision TeePlatform.
Proof. solve_decision. Defined.

Definition TeePlatform_as_u8 (p : TeePlatform) : N :=
  match p with PfNitro => 1 | PfSgxDcap => 2 | PfSgxEpid => 3 | PfSevSnp => 4 | PfUnknown => 255 end.

Definition TeePlatform_from_u8 (v : N) : TeePlatform :=
  match v with 1 => PfNitro | 2 => PfSgxDcap | 3 => PfSgxEpid | 4 => PfSevSnp | _ => PfUnknown end.

Inductive VerificationStatus :=
| VsOk | VsInvalidSignature | VsInvalidCertChain | VsUntrustedMeasurement | VsAttestationExpired
| VsTcbOutOfDate | VsCollateralExpired | VsDebugEnclaveRejected | VsPlatformDisabled | VsParseError
| VsReportDataMismatch | VsUnknown.

#[export] Instance VerificationStatus_eq_dec : EqDecision VerificationStatus.
Proof. solve_decision. Defined.

Definition VerificationStatus_as_u8 (s : VerificationStatus) : N :=
  match s with
  | VsOk => 0
  | VsInvalidSignature => 1
  | VsInvalidCertChain => 2
  | VsUntrustedMeasurement => 3
  | VsAttestationExpired => 4
  | VsTcbOutOfDate => 5
  | VsCollateralExpired => 6
  | VsDebugEnclaveRejected => 7
  | VsPlatformDisabled => 8
  | VsParseError => 9
  | VsReportDataMismatch => 10
  | VsUnknown => 255
  end.

Record TeeVerificationResult := {
  tvr_valid : bool;
  tvr_platform : TeePlatform;
  tvr_measurement : bytes;
  tvr_signer : option bytes;
  tvr_report_data : bytes;
  tvr_timestamp : N;
  tvr_status : VerificationStatus;
  tvr_is_debug : bool;
  tvr_security_version : N;
}.

(** ** What the verifiers rely on *)

(** [sgx_ql_qv_result_t]; the results the code does not name carry their
    [Debug] text. *)
Inductive QvResult := QvOk | QvConfigNeeded | QvOutOfDate | QvOutOfDateConfigNeeded | QvRevoked
| QvOther (debug : string).

Record MeasurementConfigJson := {
  mcj_version : N;
  mcj_measurements : gmap string (gmap string (list string));
  mcj_min_quote_age_seconds : N;
  mcj_last_updated : string;
}.

(** [utc_now] is [Utc::now().timestamp() as u64], [utc_now_millis] the same in
    milliseconds; [unix_secs] is [None] when the system clock is before 1970.
    [sgx_qv_verify_quote] returns the [Debug] text of a library error or a
    result.  [tee_sha256] is [Sha256::digest], [cose_payload] is the payload
    of [CoseSign1::from_tagged_slice]. *)
Class TeeEnv := {
  feature_mock_tee : bool;
  tee_sha256 : bytes → Hash;
  utc_now : N;
  utc_now_millis : N;
  unix_secs : option N;
  sgx_qv_verify_quote : bytes → N → outcome string QvResult;
  cose_payload : bytes → outcome string (option bytes);
  cbor_value : Type;
  cbor_from_reader : bytes → outcome string cbor_value;
  json_config : string → outcome string MeasurementConfigJson;
  hex_decode : string → outcome string bytes;
}.

(** ** Trusted measurements *)
Record TrustedMeasurement := {
  tm_measurement : bytes;
  tm_signer : option bytes;
  tm_description : string;
  tm_model_id : option string;
  tm_version : option string;
  tm_registered_at : N;
  tm_expires_at : N;
  tm_active : bool;
  tm_min_svn : N;
}.

Record MeasurementRegistry := {
  mr_nitro : gmap bytes TrustedMeasurement;
  mr_sgx_mrenclave : gmap bytes TrustedMeasurement;
  mr_sgx_mrsigner : gmap bytes TrustedMeasurement;
  mr_sev_measurement : gmap bytes TrustedMeasurement;
}.

Definition MeasurementRegistry_new : MeasurementRegistry :=
  {| mr_nitro := ∅; mr_sgx_mrenclave := ∅; mr_sgx_mrsigner := ∅; mr_sev_measurement := ∅ |}.

Definition register_nitro (m : TrustedMeasurement) (r : MeasurementRegistry) : MeasurementRegistry :=
  {| mr_nitro := <[m.(tm_measurement) := m]> r.(mr_nitro);
     mr_sgx_mrenclave := r.(mr_sgx_mrenclave); mr_sgx_mrsigner := r.(mr_sgx_mrsigner);
     mr_sev_measurement := r.(mr_sev_measurement) |}.

Definition register_sgx_mrenclave (m : TrustedMeasurement) (r : MeasurementRegistry)
  : MeasurementRegistry :=
  {| mr_nitro := r.(mr_nitro);
     mr_sgx_mrenclave := <[m.(tm_measurement) := m]> r.(mr_sgx_mrenclave);
     mr_sgx_mrsigner := r.(mr_sgx_mrsigner); mr_sev_measurement := r.(mr_sev_measurement) |}.

Definition register_sgx_mrsigner (m : TrustedMeasurement) (r : MeasurementRegistry)
  : MeasurementRegistry :=
  {| mr_nitro := r.(mr_nitro); mr_sgx_mrenclave := r.(mr_sgx_mrenclave);
     mr_sgx_mrsigner := <[default [] m.(tm_signer) := m]> r.(mr_sgx_mrsigner);
     mr_sev_measurement := r.(mr_sev_measurement) |}.

Definition register_sev (m : TrustedMeasurement) (r : MeasurementRegistry) : MeasurementRegistry :=
  {| mr_nitro := r.(mr_nitro); mr_sgx_mrenclave := r.(mr_sgx_mrenclave);
     mr_sgx_mrsigner := r.(mr_sgx_mrsigner);
     mr_sev_measurement := <[m.(tm_measurement) := m]> r.(mr_sev_measurement) |}.

(** The three lookups differ in the map and in the word of the message. *)
Definition is_trusted (what : string) (registry : gmap bytes TrustedMeasurement) (key : bytes)
  (current_time : N) : option string :=
  match registry !! key with
  | Some m =>
      if negb m.(tm_active) then Some (what +:+ " is deactivated")
      else if bool_decide (0 < m.(tm_expires_at)) && bool_decide (m.(tm_expires_at) < current_time)
           then Some (what +:+ " has expired")
      else None
  | None => Some (what +:+ " not in trusted registry")
  end.

Definition is_nitro_trusted (r : MeasurementRegistry) (pcr0 : bytes) (current_time : N) :=
  is_trusted "Measurement" r.(mr_nitro) pcr0 current_time.
Definition is_sgx_mrenclave_trusted (r : MeasurementRegistry) (mrenclave : bytes)
  (current_time : N) := is_trusted "MRENCLAVE" r.(mr_sgx_mrenclave) mrenclave current_time.
Definition is_sgx_mrsigner_trusted (r : MeasurementRegistry) (mrsigner : bytes)
  (current_time : N) := is_trusted "MRSIGNER" r.(mr_sgx_mrsigner) mrsigner current_time.
Definition get_sgx_measurement (r : MeasurementRegistry) (mrenclave : bytes)
  : option TrustedMeasurement := r.(mr_sgx_mrenclave) !! mrenclave.

Section tee.
Context `{Build, TeeEnv}.

(** *** The shared configuration file *)
Definition loaded_measurement (now : N) (measurement : bytes) (signer : option bytes)
  : TrustedMeasurement := {|
  tm_measurement := measurement; tm_signer := signer;
  tm_description := "Loaded from shared config"; tm_model_id := None; tm_version := None;
  tm_registered_at := now; tm_expires_at := 0; tm_active := true; tm_min_svn := 0 |}.

(** [for hex_str in list { decode; register }]; a list that is absent is
    skipped. *)
Fixpoint load_list (what : string) (register : bytes → MeasurementRegistry → MeasurementRegistry)
  (list : list string) (r : MeasurementRegistry) : outcome string MeasurementRegistry :=
  match list with
  | [] => Ok r
  | hex_str :: rest =>
      match hex_decode hex_str with
      | Ok bs => load_list what register rest (register bs r)
      | Err e => Err ("invalid hex for " +:+ what +:+ ": " +:+ e)
      | Panic => Panic
      | Blocked => Blocked
      end
  end.

Definition config_list (config : MeasurementConfigJson) (platform field : string) : list string :=
  default [] (config.(mcj_measurements) !! platform ≫= λ p, p !! field).

Definition from_config_json (json_str : string) : outcome string MeasurementRegistry :=
  config ← (match json_config json_str with
            | Err e => Err ("JSON parse error: " +:+ e)
            | o => o
            end);
  if negb (bool_decide (config.(mcj_version) = 1)) then
    Err ("unsupported config version: " +:+ pretty config.(mcj_version))
  else
  let now := utc_now in
  r ← load_list "aws-nitro pcr0"
        (λ bs, register_nitro (loaded_measurement now bs None))
        (config_list config "aws-nitro" "pcr0") MeasurementRegistry_new;
  r ← load_list "intel-sgx mrenclave"
        (λ bs, register_sgx_mrenclave (loaded_measurement now bs None))
        (config_list config "intel-sgx" "mrenclave") r;
  r ← load_list "intel-sgx mrsigner"
        (λ bs, register_sgx_mrsigner (loaded_measurement now [] (Some bs)))
        (config_list config "intel-sgx" "mrsigner") r;
  load_list "amd-sev measurement"
    (λ bs, register_sev (loaded_measurement now bs None))
    (config_list config "amd-sev" "measurement") r.

(** ** SGX quotes *)
Record SgxQuoteHeader := {
  qh_version : N;
  qh_att_key_type : N;
  qh_tee_type : N;
  qh_qe_svn : N;
  qh_pce_svn : N;
  qh_qe_vendor_id : bytes;
  qh_user_data : bytes;
}.

Record SgxAttributes := { sa_flags : N; sa_xfrm : N }.

Definition is_debug (a : SgxAttributes) : bool := negb (bool_decide (N.land a.(sa_flags) 2 = 0)).
Definition is_init (a : SgxAttributes) : bool := negb (bool_decide (N.land a.(sa_flags) 1 = 0)).
Definition is_64bit (a : SgxAttributes) : bool := negb (bool_decide (N.land a.(sa_flags) 4 = 0)).

Record SgxReportBody := {
  rb_cpu_svn : bytes;
  rb_misc_select : N;
  rb_reserved1 : bytes;
  rb_attributes : SgxAttributes;
  rb_mr_enclave : bytes;
  rb_reserved2 : bytes;
  rb_mr_signer : bytes;
  rb_reserved3 : bytes;
  rb_isv_prod_id : N;
  rb_isv_svn : N;
  rb_reserved4 : bytes;
  rb_report_data : bytes;
}.

Record SgxDcapQuote := {
  sq_header : SgxQuoteHeader;
  sq_report_body : SgxReportBody;
  sq_signature_len : N;
  sq_signature_data : bytes;
}.

(** [uK::from_le_bytes] of [n] bytes at [a]. *)
Definition le_uint {E} (n a : N) (bs : bytes) : outcome E N :=
  w ← slice a (a + n) bs; Ok (of_le_bytes w).

Definition parse_quote_header (q : bytes) : outcome PrecompileError SgxQuoteHeader :=
  version ← le_uint 2 0 q;
  if negb (bool_decide (version = 3)) then
    Err (InvalidInputFormat ("Unsupported quote version: " +:+ pretty version +:+ " (expected 3)"))
  else
  att_key_type ← le_uint 2 2 q;
  tee_type ← le_uint 4 4 q;
  if negb (bool_decide (tee_type = 0)) then
    Err (InvalidInputFormat ("Invalid TEE type: " +:+ pretty tee_type +:+ " (expected 0 for SGX)"))
  else
  qe_svn ← le_uint 2 8 q;
  pce_svn ← le_uint 2 10 q;
  qe_vendor_id ← slice 12 28 q;
  user_data ← slice 28 48 q;
  Ok {| qh_version := version; qh_att_key_type := att_key_type; qh_tee_type := tee_type;
        qh_qe_svn := qe_svn; qh_pce_svn := pce_svn; qh_qe_vendor_id := qe_vendor_id;
        qh_user_data := user_data |}.

Definition parse_report_body (q : bytes) : outcome PrecompileError SgxReportBody :=
  let report_offset := 48 in
  cpu_svn ← slice report_offset (report_offset + 16) q;
  misc_select ← le_uint 4 (report_offset + 16) q;
  reserved1 ← slice (report_offset + 20) (report_offset + 48) q;
  let attr_offset := report_offset + 48 in
  flags ← le_uint 8 attr_offset q;
  xfrm ← le_uint 8 (attr_offset + 8) q;
  mr_enclave ← slice (report_offset + 64) (report_offset + 96) q;
  reserved2 ← slice (report_offset + 96) (report_offset + 128) q;
  mr_signer ← slice (report_offset + 128) (report_offset + 160) q;
  reserved3 ← slice (report_offset + 160) (report_offset + 256) q;
  isv_prod_id ← le_uint 2 (report_offset + 256) q;
  isv_svn ← le_uint 2 (report_offset + 258) q;
  reserved4 ← slice (report_offset + 260) (report_offset + 320) q;
  report_data ← slice (report_offset + 320) (report_offset + 384) q;
  Ok {| rb_cpu_svn := cpu_svn; rb_misc_select := misc_select; rb_reserved1 := reserved1;
        rb_attributes := {| sa_flags := flags; sa_xfrm := xfrm |};
        rb_mr_enclave := mr_enclave; rb_reserved2 := reserved2; rb_mr_signer := mr_signer;
        rb_reserved3 := reserved3; rb_isv_prod_id := isv_prod_id; rb_isv_svn := isv_svn;
        rb_reserved4 := reserved4; rb_report_data := report_data |}.

Definition parse_dcap_quote (quote_bytes : bytes) : outcome PrecompileError SgxDcapQuote :=
  if bool_decide (blen quote_bytes < 436) then
    Err (InvalidInputFormat ("Quote too short: " +:+ pretty (blen quote_bytes)
           +:+ " bytes (minimum 436)"))
  else
  header ← parse_quote_header quote_bytes;
  report_body ← parse_report_body quote_bytes;
  let sig_len_offset := 48 + 384 in
  signature_len ← le_uint 4 sig_len_offset quote_bytes;
  let sig_data_offset := sig_len_offset + 4 in
  if bool_decide (blen quote_bytes < sig_data_offset + signature_len) then
    Err (InvalidInputFormat "Quote truncated: signature data incomplete")
  else
  signature_data ← slice sig_data_offset (sig_data_offset + signature_len) quote_bytes;
  Ok {| sq_header := header; sq_report_body := report_body; sq_signature_len := signature_len;
        sq_signature_data := signature_data |}.

(** With the [sgx] feature, Intel's library; without, structural checks. *)
Definition verify_quote_dcap (config : TeeVerifierConfig) (quote : SgxDcapQuote)
  (quote_bytes : bytes) : outcome PrecompileError VerificationStatus :=
  if feature_sgx then
    expiration_check_date ← from_option Ok Panic unix_secs;
    quote_verification_result ←
      (match sgx_qv_verify_quote quote_bytes expiration_check_date with
       | Ok r => Ok r
       | Err code =>
           Err (VerificationFailed ("DCAP verification failed with error: " +:+ code))
       | Panic => Panic
       | Blocked => Blocked
       end);
    match quote_verification_result with
    | QvOk => Ok VsOk
    | QvConfigNeeded | QvOutOfDate | QvOutOfDateConfigNeeded =>
        if config.(platform_config).(sgx_tcb_recovery_mode) then Ok VsTcbOutOfDate
        else Err (VerificationFailed "TCB out of date")
    | QvRevoked => Err (VerificationFailed "Quote revoked")
    | QvOther r => Err (VerificationFailed ("Quote verification failed: " +:+ r))
    end
  else if config.(tee_enterprise_mode) then
    Err (VerificationFailed
      "SGX DCAP cryptographic verification backend required in enterprise mode")
  else if negb (bool_decide (quote.(sq_header).(qh_version) = 3)) then
    Err (VerificationFailed ("Invalid quote version: " +:+ pretty quote.(sq_header).(qh_version)))
  else if negb (bool_decide (quote.(sq_header).(qh_att_key_type) = 2)) then
    Err (VerificationFailed ("Invalid attestation key type: "
           +:+ pretty quote.(sq_header).(qh_att_key_type)))
  else if bool_decide (quote.(sq_signature_data) = []) then
    Err (VerificationFailed "Missing signature data")
  else Ok VsOk.

Definition CREDIT_SCORE_V1_MRENCLAVE : bytes :=
  [171; 205; 239; 18; 52; 86; 120; 144; 17; 34; 51; 68; 85; 102; 119; 136; 153; 170; 187; 204;
   221; 238; 255; 0; 18; 52; 86; 120; 154; 188; 222; 240].
Definition FRAUD_DETECT_V1_MRENCLAVE : bytes :=
  [18; 52; 86; 120; 154; 188; 222; 240; 254; 220; 186; 152; 118; 84; 50; 16; 171; 205; 239; 18;
   52; 86; 120; 144; 17; 34; 51; 68; 85; 102; 119; 136].
Definition RISK_ASSESS_V1_MRENCLAVE : bytes :=
  [222; 173; 190; 239; 202; 254; 186; 190; 18; 52; 86; 120; 154; 188; 222; 240; 254; 220; 186; 152;
   118; 84; 50; 16; 171; 205; 239; 18; 52; 86; 120; 144].
Definition ZKML_INFERENCE_V1_MRENCLAVE : bytes :=
  [0; 17; 34; 51; 68; 85; 102; 119; 136; 153; 170; 187; 204; 221; 238; 255; 255; 238; 221; 204;
   187; 170; 153; 136; 119; 102; 85; 68; 51; 34; 17; 0].

Definition verify_mrenclave (registry : MeasurementRegistry) (mrenclave : bytes) : bool :=
  if bool_decide (mrenclave = CREDIT_SCORE_V1_MRENCLAVE)
     || bool_decide (mrenclave = FRAUD_DETECT_V1_MRENCLAVE)
     || bool_decide (mrenclave = RISK_ASSESS_V1_MRENCLAVE)
     || bool_decide (mrenclave = ZKML_INFERENCE_V1_MRENCLAVE) then true
  else bool_decide (is_sgx_mrenclave_trusted registry mrenclave utc_now = None).

(** [report_data] has 64 bytes. *)
Definition verify_report_data (report_data expected_hash : bytes) : bool :=
  bool_decide (take 32 report_data = expected_hash).

(** [n] bytes of a field: zeros unless the field has that many. *)
Definition out_field (n : nat) (bs : bytes) : bytes :=
  if bool_decide (n <= length bs)%nat then take n bs else replicate n 0.

Definition sgx_build_output (result : TeeVerificationResult) : bytes :=
  [if result.(tvr_valid) then 1 else 0; VerificationStatus_as_u8 result.(tvr_status);
   TeePlatform_as_u8 result.(tvr_platform); 0]
  ++ out_field 32 result.(tvr_measurement)
  ++ out_field 32 (default [] result.(tvr_signer))
  ++ out_field 64 result.(tvr_report_data).

(** *** Input encoding *)

(** [bytes] has 32 bytes, the last eight are read. *)
Definition u256_to_usize (bs : bytes) : N :=
  fold_left (λ val b, N.lor (cast U64_MAX (N.shiftl val 8)) b) (drop 24 bs) 0.

Definition checked_abi_slice (input : bytes) (offset length : N) (field_name : string)
  : outcome PrecompileError bytes :=
  if bool_decide (U64_MAX < offset + length) then
    Err (InvalidInputFormat (field_name +:+ " range overflows input bounds"))
  else if bool_decide (blen input < offset + length) then
    Err (InvalidInputFormat (field_name +:+ " extends beyond input"))
  else slice offset (offset + length) input.

(** The common prefix of the three verifiers: two 32-byte words, a 32-byte
    hash, and the range the words name. *)
Definition abi_input (too_short field_name : string) (input : bytes)
  : outcome PrecompileError (bytes * bytes) :=
  if bool_decide (blen input < 96) then Err (InvalidInputFormat too_short) else
  w0 ← slice 0 32 input;
  w1 ← slice 32 64 input;
  hash ← slice 64 96 input;
  data ← checked_abi_slice input (u256_to_usize w0) (u256_to_usize w1) field_name;
  Ok (hash, data).

(** A rejection before the quote is known, and one that reports its fields. *)
Definition sgx_rejected (status : VerificationStatus) : TeeVerificationResult := {|
  tvr_valid := false; tvr_platform := PfSgxDcap; tvr_measurement := []; tvr_signer := None;
  tvr_report_data := []; tvr_timestamp := 0; tvr_status := status; tvr_is_debug := false;
  tvr_security_version := 0 |}.

Definition sgx_result (valid : bool) (timestamp : N) (status : VerificationStatus)
  (body : SgxReportBody) : TeeVerificationResult := {|
  tvr_valid := valid; tvr_platform := PfSgxDcap; tvr_measurement := body.(rb_mr_enclave);
  tvr_signer := Some body.(rb_mr_signer); tvr_report_data := body.(rb_report_data);
  tvr_timestamp := timestamp; tvr_status := status; tvr_is_debug := is_debug body.(rb_attributes);
  tvr_security_version := body.(rb_isv_svn) |}.

Definition sgx_gas_cost (input : bytes) : N := 500000 + blen input / 1024 * 10000.

(** The checks on a parsed quote, in order. *)
Definition sgx_check (config : TeeVerifierConfig) (registry : MeasurementRegistry)
  (runtime_data_hash quote_bytes : bytes) (quote : SgxDcapQuote)
  : outcome PrecompileError TeeVerificationResult :=
  let body := quote.(sq_report_body) in
  if is_debug body.(rb_attributes) && negb config.(allow_debug_enclaves) then
    Ok (sgx_result false 0 VsDebugEnclaveRejected body)
  else if bool_decide (body.(rb_isv_svn) < config.(min_isv_svn)) then
    Ok (sgx_result false 0 VsTcbOutOfDate body)
  else if config.(strict_mode) && negb (verify_mrenclave registry body.(rb_mr_enclave)) then
    Ok (sgx_result false 0 VsUntrustedMeasurement body)
  else if negb (verify_report_data body.(rb_report_data) runtime_data_hash) then
    Ok (sgx_result false 0 VsReportDataMismatch body)
  else
  match verify_quote_dcap config quote quote_bytes with
  | Ok dcap_status =>
      let valid := bool_decide (dcap_status = VsOk)
        || (bool_decide (dcap_status = VsTcbOutOfDate)
            && config.(platform_config).(sgx_tcb_recovery_mode)) in
      Ok (sgx_result valid utc_now dcap_status body)
  | Err _ => Ok (sgx_result false 0 VsInvalidSignature body)
  | Panic => Panic
  | Blocked => Blocked
  end.

Definition sgx_execute (config : TeeVerifierConfig) (registry : MeasurementRegistry)
  (input : bytes) (gas_limit : N) : outcome PrecompileError ExecutionResult :=
  let gas := sgx_gas_cost input in
  charge gas gas_limit (
    if negb config.(platform_config).(sgx_dcap_enabled) then
      Ok (ExecutionResult_success (sgx_build_output (sgx_rejected VsPlatformDisabled)) gas)
    else
    '(runtime_data_hash, quote_bytes) ←
      abi_input "Input too short for ABI encoding" "Quote data" input;
    result ← (match parse_dcap_quote quote_bytes with
              | Ok quote => sgx_check config registry runtime_data_hash quote_bytes quote
              | Err _ => Ok (sgx_rejected VsParseError)
              | Panic => Panic
              | Blocked => Blocked
              end);
    Ok (ExecutionResult_success (sgx_build_output result) gas)).

Definition SgxDcapVerifyPrecompile (config : TeeVerifierConfig) (registry : MeasurementRegistry)
  : Precompile := {| pc_gas_cost := sgx_gas_cost; pc_execute := sgx_execute config registry |}.

(** ** Nitro attestations *)
Record NitroAttestation := {
  na_module_id : string;
  na_timestamp : N;
  na_digest : string;
  na_pcrs : gmap N bytes;
  na_certificate : bytes;
  na_cabundle : list bytes;
  na_public_key : option bytes;
  na_user_data : option bytes;
  na_nonce : option bytes;
}.

(** With the [mock-tee] feature PCR0 is read at a fixed offset; without, the
    envelope is decoded and then refused. *)
Definition parse_attestation (attestation : bytes) : outcome PrecompileError NitroAttestation :=
  if bool_decide (blen attestation < 100) then
    Err (InvalidInputFormat "Attestation document too short")
  else if feature_mock_tee then
    pcrs ← (if bool_decide (88 <= blen attestation) then
              pcr0 ← slice 40 88 attestation; Ok {[0 := pcr0]}
            else Ok ∅);
    Ok {| na_module_id := "mock-enclave"; na_timestamp := utc_now_millis; na_digest := "SHA384";
          na_pcrs := pcrs; na_certificate := []; na_cabundle := []; na_public_key := None;
          na_user_data := None; na_nonce := None |}
  else
  match cose_payload attestation with
  | Err e => Err (InvalidInputFormat ("Failed to parse COSE_Sign1: " +:+ e))
  | Ok None => Err (InvalidInputFormat "Missing COSE payload")
  | Ok (Some payload) =>
      match cbor_from_reader payload with
      | Err e => Err (InvalidInputFormat ("Failed to parse CBOR payload: " +:+ e))
      | Ok _ =>
          Err (InvalidInputFormat "Full CBOR parsing not implemented - enable mock-tee feature")
      | Panic => Panic
      | Blocked => Blocked
      end
  | Panic => Panic
  | Blocked => Blocked
  end.

Definition nitro_verify_signature (config : TeeVerifierConfig) (attestation : bytes)
  (parsed : NitroAttestation) : outcome PrecompileError bool :=
  if feature_mock_tee then
    if config.(tee_enterprise_mode) then
      Err (VerificationFailed
        "Nitro cryptographic verification backend required in enterprise mode")
    else Ok true
  else
    Err (VerificationFailed "Nitro COSE signature verification backend is not implemented").

Definition nitro_build_output (valid : bool) (status : VerificationStatus) (pcr0 : bytes) : bytes :=
  [if valid then 1 else 0; VerificationStatus_as_u8 status; TeePlatform_as_u8 PfNitro; 0]
  ++ take 32 pcr0 ++ replicate (64 - Nat.min 32 (length pcr0)) 0.

Definition nitro_gas_cost (input : bytes) : N := 200000 + blen input / 1024 * 5000.

(** The verdict on a parsed attestation. *)
Definition nitro_check (config : TeeVerifierConfig) (registry : MeasurementRegistry)
  (user_data_hash attestation_bytes : bytes) (attestation : NitroAttestation)
  : outcome PrecompileError (bool * VerificationStatus) :=
  let pcr0 := default [] (attestation.(na_pcrs) !! 0) in
  signed ← (match nitro_verify_signature config attestation_bytes attestation with
            | Ok b => Ok b
            | Err _ => Ok false
            | Panic => Panic
            | Blocked => Blocked
            end);
  if negb signed then Ok (false, VsInvalidSignature)
  else
  let current_time := utc_now in
  if config.(strict_mode)
     && negb (bool_decide (is_nitro_trusted registry pcr0 current_time = None)) then
    Ok (false, VsUntrustedMeasurement)
  else
  let age_secs := sat_sub current_time (attestation.(na_timestamp) / 1000) in
  if bool_decide (config.(max_attestation_age_secs) < age_secs) then
    Ok (false, VsAttestationExpired)
  else
  match attestation.(na_user_data) with
  | Some user_data =>
      if negb (bool_decide (tee_sha256 user_data = user_data_hash))
      then Ok (false, VsReportDataMismatch) else Ok (true, VsOk)
  | None => Ok (true, VsOk)
  end.

Definition nitro_execute (config : TeeVerifierConfig) (registry : MeasurementRegistry)
  (input : bytes) (gas_limit : N) : outcome PrecompileError ExecutionResult :=
  let gas := nitro_gas_cost input in
  charge gas gas_limit (
    if negb config.(platform_config).(nitro_enabled) then
      Ok (ExecutionResult_success (nitro_build_output false VsPlatformDisabled []) gas)
    else
    '(user_data_hash, attestation_bytes) ← abi_input "Input too short" "Attestation" input;
    match parse_attestation attestation_bytes with
    | Ok attestation =>
        '(valid, status) ← nitro_check config registry user_data_hash attestation_bytes attestation;
        Ok (ExecutionResult_success
              (nitro_build_output valid status (default [] (attestation.(na_pcrs) !! 0))) gas)
    | Err _ => Ok (ExecutionResult_success (nitro_build_output false VsParseError []) gas)
    | Panic => Panic
    | Blocked => Blocked
    end).

Definition NitroVerifyPrecompile (config : TeeVerifierConfig) (registry : MeasurementRegistry)
  : Precompile := {| pc_gas_cost := nitro_gas_cost; pc_execute := nitro_execute config registry |}.

(** ** SEV-SNP reports *)
Record SevSnpReport := {
  sr_version : N;
  sr_guest_svn : N;
  sr_policy : N;
  sr_family_id : bytes;
  sr_image_id : bytes;
  sr_vmpl : N;
  sr_signature_algo : N;
  sr_platform_version : N;
  sr_platform_info : N;
  sr_author_key_en : N;
  sr_measurement : bytes;
  sr_host_data : bytes;
  sr_id_key_digest : bytes;
  sr_author_key_digest : bytes;
  sr_report_id : bytes;
  sr_report_id_ma : bytes;
  sr_reported_tcb : N;
  sr_chip_id : bytes;
  sr_report_data : bytes;
  sr_signature : bytes;
}.

Definition parse_report (report : bytes) : outcome PrecompileError SevSnpReport :=
  if bool_decide (blen report < 672) then
    Err (InvalidInputFormat ("Report too short: " +:+ pretty (blen report)
           +:+ " bytes (minimum 672)"))
  else
  version ← le_uint 4 0 report;
  guest_svn ← le_uint 4 4 report;
  policy ← le_uint 8 8 report;
  family_id ← slice 16 32 report;
  image_id ← slice 32 48 report;
  vmpl ← le_uint 4 48 report;
  signature_algo ← le_uint 4 52 report;
  platform_version ← le_uint 8 56 report;
  platform_info ← le_uint 8 64 report;
  measurement ← slice 80 128 report;
  host_data ← slice 128 160 report;
  id_key_digest ← slice 160 208 report;
  author_key_digest ← slice 208 256 report;
  report_id ← slice 256 288 report;
  report_id_ma ← slice 288 320 report;
  reported_tcb ← le_uint 8 320 report;
  chip_id ← slice 328 392 report;
  report_data ← slice 392 456 report;
  signature ← (if bool_decide (672 + 512 <= blen report) then slice 672 (672 + 512) report
               else Ok []);
  Ok {| sr_version := version; sr_guest_svn := guest_svn; sr_policy := policy;
        sr_family_id := family_id; sr_image_id := image_id; sr_vmpl := vmpl;
        sr_signature_algo := signature_algo; sr_platform_version := platform_version;
        sr_platform_info := platform_info; sr_author_key_en := 0; sr_measurement := measurement;
        sr_host_data := host_data; sr_id_key_digest := id_key_digest;
        sr_author_key_digest := author_key_digest; sr_report_id := report_id;
        sr_report_id_ma := report_id_ma; sr_reported_tcb := reported_tcb; sr_chip_id := chip_id;
        sr_report_data := report_data; sr_signature := signature |}.

(** [measurement] has 48 bytes. *)
Definition sev_build_output (valid : bool) (status : VerificationStatus) (measurement : bytes)
  : bytes :=
  [if valid then 1 else 0; VerificationStatus_as_u8 status; TeePlatform_as_u8 PfSevSnp; 0]
  ++ take 32 measurement ++ replicate 32 0.

Definition sev_gas_cost (input : bytes) : N := 300000 + blen input / 1024 * 8000.

(** [registry.values().any(..)] *)
Definition sev_trusted (registry : MeasurementRegistry) (measurement : bytes) (current_time : N)
  : bool :=
  existsb (λ m, m.(tm_active) && bool_decide (m.(tm_measurement) = measurement)
                && (bool_decide (m.(tm_expires_at) = 0)
                    || bool_decide (current_time <= m.(tm_expires_at))))
    (map_to_list registry.(mr_sev_measurement)).*2.

Definition sev_check (config : TeeVerifierConfig) (registry : MeasurementRegistry)
  (expected_data_hash : bytes) (report : SevSnpReport) : bool * VerificationStatus :=
  if bool_decide (report.(sr_signature) = []) then (false, VsInvalidSignature)
  else if negb (bool_decide (take 32 report.(sr_report_data) = expected_data_hash)) then
    (false, VsReportDataMismatch)
  else if config.(strict_mode) && negb (bool_decide (registry.(mr_sev_measurement) = ∅))
          && negb (sev_trusted registry report.(sr_measurement) utc_now) then
    (false, VsUntrustedMeasurement)
  else if config.(tee_enterprise_mode) then (false, VsInvalidSignature)
  else (true, VsOk).

Definition sev_execute (config : TeeVerifierConfig) (registry : MeasurementRegistry)
  (input : bytes) (gas_limit : N) : outcome PrecompileError ExecutionResult :=
  let gas := sev_gas_cost input in
  charge gas gas_limit (
    if negb config.(platform_config).(sev_snp_enabled) then
      Ok (ExecutionResult_success (sev_build_output false VsPlatformDisabled (replicate 48 0)) gas)
    else
    '(expected_data_hash, report_bytes) ← abi_input "Input too short" "Report" input;
    match parse_report report_bytes with
    | Ok report =>
        let '(valid, status) := sev_check config registry expected_data_hash report in
        Ok (ExecutionResult_success (sev_build_output valid status report.(sr_measurement)) gas)
    | Err _ =>
        Ok (ExecutionResult_success (sev_build_output false VsParseError (replicate 48 0)) gas)
    | Panic => Panic
    | Blocked => Blocked
    end).

Definition SevSnpVerifyPrecompile (config : TeeVerifierConfig) (registry : MeasurementRegistry)
  : Precompile := {| pc_gas_cost := sev_gas_cost; pc_execute := sev_execute config registry |}.

(** ** The universal verifier *)
Definition detect_platform (input : bytes) : option TeePlatform :=
  match input with
  | [] => None
  | 1 :: _ => Some PfNitro
  | 2 :: _ => Some PfSgxDcap
  | 4 :: _ => Some PfSevSnp
  | _ =>
      if bool_decide (2 <= length input)%nat && bool_decide (of_le_bytes (take 2 input) = 3)
      then Some PfSgxDcap
      else if bool_decide (4 <= length input)%nat && bool_decide (of_le_bytes (take 4 input) = 2)
      then Some PfSevSnp
      else None
  end.

Definition tee_gas_cost (input : bytes) : N :=
  match detect_platform input with
  | Some PfSgxDcap => sgx_gas_cost input + 5000
  | Some PfNitro => nitro_gas_cost input + 5000
  | Some PfSevSnp => sev_gas_cost input + 5000
  | _ => 500000
  end.

(** [if matches!(input[0], 0x01..=0x04) { &input[1..] } else { input }] *)
Definition strip_platform (input : bytes) : bytes :=
  match input with
  | b :: data => if bool_decide (1 <= b <= 4) then data else input
  | [] => input
  end.

Definition tee_execute (config : TeeVerifierConfig) (registry : MeasurementRegistry)
  (input : bytes) (gas_limit : N) : outcome PrecompileError ExecutionResult :=
  charge (tee_gas_cost input) gas_limit (
    platform ← from_option Ok (Err (InvalidInputFormat "Cannot detect TEE platform"))
                 (detect_platform input);
    if config.(tee_enterprise_mode) && bool_decide (platform = PfUnknown) then
      Err (VerificationFailed "Enterprise mode rejects simulated/unknown TEE platform")
    else if negb feature_sgx && config.(tee_enterprise_mode) then
      Err (VerificationFailed
        "Enterprise mode requires real TEE verification (sgx feature not enabled)")
    else
    let data := strip_platform input in
    match platform with
    | PfSgxDcap | PfSgxEpid => sgx_execute config registry data gas_limit
    | PfNitro => nitro_execute config registry data gas_limit
    | PfSevSnp => sev_execute config registry data gas_limit
    | PfUnknown => Err (InvalidInputFormat "Unknown TEE platform")
    end).

Definition UniversalTeeVerifyPrecompile (config : TeeVerifierConfig)
  (registry : MeasurementRegistry) : Precompile :=
  {| pc_gas_cost := tee_gas_cost; pc_execute := tee_execute config registry |}.

Definition UniversalTee_with_defaults : Precompile :=
  UniversalTeeVerifyPrecompile TeeVerifierConfig_default MeasurementRegistry_new.
Definition UniversalTee_with_devnet : Precompile :=
  UniversalTeeVerifyPrecompile TeeVerifierConfig_devnet MeasurementRegistry_new.
Definition UniversalTee_with_enterprise : Precompile :=
  UniversalTeeVerifyPrecompile TeeVerifierConfig_enterprise MeasurementRegistry_new.

(** The verifier [verify_tee_attestation] constructs. *)
Definition registry_tee_verifier (enterprise_mode : bool) : Precompile :=
  if enterprise_mode then UniversalTee_with_enterprise else UniversalTee_with_defaults.
End tee.
