(* ===== verification/TeeSpec.v ===== *)
(** * What the TEE precompiles promise

    Quotes round-trip through the parser; the verdict on an SGX quote is the
    conjunction of the documented checks; no input makes a verifier panic; what
    the verdict is worth to the job registry, which does not read it. *)
From S2P Require Import Prelude SysTypes F64 Precompile Bank BankSpec Staking JobRegistry Samples JobSpec Tee.
From stdpp Require Import base gmap list strings pretty.
From Stdlib Require Import ZArith Lia.
#[local] Open Scope N_scope.
#[local] Arguments to_le_bytes : simpl never.

(** ** Fields at fixed offsets *)

(** A layout is a list of chunks with their sizes: the k-th chunk is found at the
    sum of the sizes before it. *)
Definition offset_of (sizes : list N) (k : nat) : N := foldr N.add 0 (take k sizes).

Lemma slice_chunk {E} chunks sizes tail k c a b :
  Forall2 (λ c n, blen c = n) chunks sizes → chunks !! k = Some c →
  a = offset_of sizes k → b = offset_of sizes (S k) →
  slice (E:=E) a b (concat chunks ++ tail) = Ok c.
Proof.
  intros Hcs Hk -> ->. pose proof (take_drop_middle _ _ _ Hk) as Hsplit.
  destruct (Forall2_lookup_l _ _ _ _ _ Hcs Hk) as (n & Hn & Hc).
  assert (∀ j, offset_of sizes j = blen (concat (take j chunks))) as Hoff.
  { clear -Hcs. intros j. unfold offset_of. revert j.
    induction Hcs as [|x n xs ns Hx _ IH]; intros [|j]; cbn [take firstn foldr concat]; try done.
    rewrite blen_app, <- IH, Hx. done. }
  apply (slice_mid (concat (take k chunks)) c (concat (drop (S k) chunks) ++ tail)).
  - rewrite <- Hsplit at 1. rewrite concat_app. cbn [concat]. by rewrite <- !app_assoc.
  - apply Hoff.
  - rewrite !Hoff, (take_S_r _ _ _ Hk), concat_app, blen_app. cbn [concat].
    by rewrite app_nil_r.
Qed.

Lemma le_uint_chunk {E} chunks sizes tail k w z n a b :
  Forall2 (λ c n, blen c = n) chunks sizes → chunks !! k = Some (to_le_bytes w z) →
  a = offset_of sizes k → b = offset_of sizes (S k) → a + n = b → z < 256 ^ N.of_nat w →
  le_uint (E:=E) n a (concat chunks ++ tail) = Ok z.
Proof.
  intros Hcs Hk Ha Hb Hn Hz. unfold le_uint. rewrite (slice_chunk chunks sizes tail k _ _ _ Hcs Hk);
    [|done|congruence]. cbn. by rewrite of_to_le_bytes.
Qed.

Lemma outcome_step {E A B} (o : outcome E A) a (k : A → outcome E B) r :
  o = Ok a → k a = r → (o ≫= k) = r.
Proof. intros ->. done. Qed.

(** ** The quote *)
Definition quote_chunks (q : SgxDcapQuote) : list bytes :=
  let h := q.(sq_header) in let b := q.(sq_report_body) in
  [to_le_bytes 2 h.(qh_version); to_le_bytes 2 h.(qh_att_key_type); to_le_bytes 4 h.(qh_tee_type);
   to_le_bytes 2 h.(qh_qe_svn); to_le_bytes 2 h.(qh_pce_svn); h.(qh_qe_vendor_id);
   h.(qh_user_data);
   b.(rb_cpu_svn); to_le_bytes 4 b.(rb_misc_select); b.(rb_reserved1);
   to_le_bytes 8 b.(rb_attributes).(sa_flags); to_le_bytes 8 b.(rb_attributes).(sa_xfrm);
   b.(rb_mr_enclave); b.(rb_reserved2); b.(rb_mr_signer); b.(rb_reserved3);
   to_le_bytes 2 b.(rb_isv_prod_id); to_le_bytes 2 b.(rb_isv_svn); b.(rb_reserved4);
   b.(rb_report_data); to_le_bytes 4 q.(sq_signature_len); q.(sq_signature_data)].

Definition quote_sizes (q : SgxDcapQuote) : list N :=
  [2; 2; 4; 2; 2; 16; 20; 16; 4; 28; 8; 8; 32; 32; 32; 96; 2; 2; 60; 64; 4; q.(sq_signature_len)].

Definition encode_quote (q : SgxDcapQuote) : bytes := concat (quote_chunks q).

(** A version 3 SGX quote whose fields have their widths. *)
Record quote_wf (q : SgxDcapQuote) : Prop := {
  qw_version : q.(sq_header).(qh_version) = 3;
  qw_tee_type : q.(sq_header).(qh_tee_type) = 0;
  qw_sizes : Forall2 (λ c n, blen c = n) (quote_chunks q) (quote_sizes q);
  qw_key : q.(sq_header).(qh_att_key_type) <= U16_MAX;
  qw_svn : q.(sq_header).(qh_qe_svn) <= U16_MAX ∧ q.(sq_header).(qh_pce_svn) <= U16_MAX;
  qw_misc : q.(sq_report_body).(rb_misc_select) <= U32_MAX;
  qw_attrs : q.(sq_report_body).(rb_attributes).(sa_flags) <= U64_MAX
             ∧ q.(sq_report_body).(rb_attributes).(sa_xfrm) <= U64_MAX;
  qw_isv : q.(sq_report_body).(rb_isv_prod_id) <= U16_MAX
           ∧ q.(sq_report_body).(rb_isv_svn) <= U16_MAX;
  qw_sig : q.(sq_signature_len) <= U32_MAX;
}.

Lemma blen_chunks chunks sizes :
  Forall2 (λ c n, blen c = n) chunks sizes → blen (concat chunks) = foldr N.add 0 sizes.
Proof. induction 1 as [|c n cs ns Hc _ IH]; cbn [concat foldr]; [done|]. by rewrite blen_app, Hc, IH. Qed.

Lemma blen_quote q : quote_wf q → blen (encode_quote q) = 436 + q.(sq_signature_len).
Proof. intros Hw. unfold encode_quote. rewrite (blen_chunks _ _ (qw_sizes _ Hw)). cbn. lia. Qed.

Section roundtrip.
Context (q : SgxDcapQuote) (tail : bytes) (Hq : quote_wf q).

Ltac field k :=
  eapply outcome_step;
  [first [apply (slice_chunk (quote_chunks q) (quote_sizes q) tail k _ _ _ (qw_sizes _ Hq) eq_refl);
            reflexivity
         |eapply (le_uint_chunk (quote_chunks q) (quote_sizes q) tail k _ _ _ _ _ (qw_sizes _ Hq)
            eq_refl); first [reflexivity|destruct Hq; cbn; lia]]
  |cbv beta].

Lemma quote_header_parsed :
  parse_quote_header (concat (quote_chunks q) ++ tail) = Ok q.(sq_header).
Proof.
  unfold parse_quote_header. field 0%nat. rewrite bool_decide_true by apply Hq. cbn [negb].
  field 1%nat. field 2%nat. rewrite bool_decide_true by apply Hq. cbn [negb].
  field 3%nat. field 4%nat. field 5%nat. field 6%nat.
  by destruct q as [[] [] ? ?].
Qed.

Lemma report_body_parsed :
  parse_report_body (concat (quote_chunks q) ++ tail) = Ok q.(sq_report_body).
Proof.
  unfold parse_report_body. cbn zeta.
  field 7%nat. field 8%nat. field 9%nat. field 10%nat. field 11%nat. field 12%nat. field 13%nat.
  field 14%nat. field 15%nat. field 16%nat. field 17%nat. field 18%nat. field 19%nat.
  by destruct q as [? [? ? ? [] ? ? ? ? ? ? ? ?] ? ?].
Qed.

Lemma quote_parsed : parse_dcap_quote (encode_quote q ++ tail) = Ok q.
Proof.
  assert (436 + q.(sq_signature_len) <= blen (encode_quote q ++ tail)) as Hlen
    by (rewrite blen_app, (blen_quote q Hq); lia).
  unfold parse_dcap_quote. rewrite bool_decide_false by lia. unfold encode_quote in *.
  eapply outcome_step; [apply quote_header_parsed|]. eapply outcome_step; [apply report_body_parsed|].
  cbv zeta beta.
  field 20%nat. rewrite bool_decide_false by lia.
  eapply outcome_step; [apply (slice_chunk (quote_chunks q) (quote_sizes q) tail 21 _ _ _
    (qw_sizes _ Hq) eq_refl); cbn; lia|].
  by destruct q.
Qed.
End roundtrip.

(** ** The envelope *)
Definition u256 (n : N) : bytes := replicate 24 0 ++ rev (to_le_bytes 8 n).

(** Two words, the hash the report must contain, and the data. *)
Definition abi_encode (hash data : bytes) : bytes :=
  u256 96 ++ u256 (blen data) ++ hash ++ data.

Lemma lor_shift_byte a b : b < 256 → N.lor (N.shiftl a 8) b = 256 * a + b.
Proof.
  intros Hb. assert (N.land (N.shiftl a 8) b = 0) as Hl.
  { apply N.bits_inj. intros n. rewrite N.land_spec, N.bits_0.
    destruct (N.lt_ge_cases n 8); [by rewrite N.shiftl_spec_low|].
    rewrite <- (N.mod_small b (2 ^ 8)), N.mod_pow2_bits_high by done. apply andb_false_r. }
  rewrite <- N.lxor_lor, <- N.add_nocarry_lxor by done.
  rewrite N.shiftl_mul_pow2. change (2 ^ 8) with 256. lia.
Qed.

Lemma fold_be_bytes k n :
  n <= U64_MAX → n < 256 ^ N.of_nat k →
  fold_left (λ val b, N.lor (cast U64_MAX (N.shiftl val 8)) b) (rev (to_le_bytes k n)) 0 = n.
Proof.
  revert n. induction k as [|k IH]; intros n Hmax Hn; unfold to_le_bytes; fold to_le_bytes.
  - cbn in *. lia.
  - cbn [rev]. rewrite fold_left_app, IH.
    2, 3: rewrite Nat2N.inj_succ, N.pow_succ_r' in Hn;
      pose proof (N.Div0.div_lt_upper_bound n 256 (256 ^ N.of_nat k) Hn);
      pose proof (N.Div0.div_le_upper_bound n 256 U64_MAX); lia.
    cbn [fold_left]. unfold cast. rewrite N.shiftl_mul_pow2. change (2 ^ 8) with 256.
    pose proof (N.div_mod n 256 ltac:(done)) as Hdm. pose proof (N.mod_lt n 256 ltac:(done)) as Hr.
    clear IH Hn. revert Hdm Hr. generalize (n / 256) (n mod 256). intros d r Hdm Hr.
    rewrite (N.mod_small (d * 256)) by lia. change (d * 256) with (d * 2 ^ 8).
    rewrite <- N.shiftl_mul_pow2, lor_shift_byte by done. lia.
Qed.

Lemma u256_read n : n <= U64_MAX → u256_to_usize (u256 n) = n.
Proof.
  intros Hn. unfold u256_to_usize, u256. rewrite drop_app_length' by done.
  apply fold_be_bytes; [done|]. cbn. lia.
Qed.

Lemma blen_u256 n : blen (u256 n) = 32.
Proof.
  unfold u256. rewrite blen_app. unfold blen. rewrite length_rev, length_to_le_bytes. done.
Qed.

Lemma abi_decoded too_short field hash data :
  length hash = 32%nat → 96 + blen data <= U64_MAX →
  abi_input too_short field (abi_encode hash data) = Ok (hash, data).
Proof.
  intros Hh Hd. apply (blen_nat _ 32) in Hh.
  assert (blen (abi_encode hash data) = 96 + blen data) as Hlen
    by (unfold abi_encode; rewrite !blen_app, !blen_u256, Hh; lia).
  unfold abi_input. rewrite bool_decide_false by lia.
  eapply outcome_step; [apply (slice_mid [] (u256 96) (u256 (blen data) ++ hash ++ data)); done|].
  eapply outcome_step; [apply (slice_mid (u256 96) (u256 (blen data)) (hash ++ data)); done|].
  eapply outcome_step; [apply (slice_mid (u256 96 ++ u256 (blen data)) hash data);
    [unfold abi_encode; by rewrite <- !app_assoc|rewrite blen_app, !blen_u256; done|lia]|].
  rewrite !u256_read by lia. unfold checked_abi_slice.
  rewrite !bool_decide_false by lia.
  eapply outcome_step; [|done].
  apply (slice_mid (u256 96 ++ u256 (blen data) ++ hash) data []);
    [unfold abi_encode; by rewrite <- !app_assoc, app_nil_r|rewrite !blen_app, !blen_u256; lia|done].
Qed.

(** ** The verdict on an SGX quote *)
Section verdict.
Context `{Build, TeeEnv}.

(** Calls to the outside come back. *)
Record env_returns : Prop := {
  er_clock : is_Some unix_secs;
  er_dcap : ∀ bs t, returns (sgx_qv_verify_quote bs t);
  er_cose : ∀ bs, returns (cose_payload bs);
  er_cbor : ∀ bs, returns (cbor_from_reader bs);
}.

(** The documented conditions: production mode, security version, known
    measurement, bound data, and a signature the DCAP backend accepts. *)
Definition sgx_accepts (config : TeeVerifierConfig) (registry : MeasurementRegistry)
  (hash quote_bytes : bytes) (q : SgxDcapQuote) : bool :=
  let body := q.(sq_report_body) in
  (negb (is_debug body.(rb_attributes)) || config.(allow_debug_enclaves))
  && bool_decide (config.(min_isv_svn) <= body.(rb_isv_svn))
  && (negb config.(strict_mode) || verify_mrenclave registry body.(rb_mr_enclave))
  && bool_decide (take 32 body.(rb_report_data) = hash)
  && match verify_quote_dcap config q quote_bytes with
     | Ok VsOk => true
     | Ok VsTcbOutOfDate => config.(platform_config).(sgx_tcb_recovery_mode)
     | _ => false
     end.

Lemma verify_quote_returns config q bs : env_returns → returns (verify_quote_dcap config q bs).
Proof.
  intros Henv. unfold verify_quote_dcap. destruct feature_sgx; [|by repeat case_match].
  destruct (er_clock Henv) as [t ->]. cbn.
  pose proof (er_dcap Henv bs t). destruct (sgx_qv_verify_quote bs t); cbn in *; try done.
  by repeat case_match.
Qed.

Lemma sgx_check_verdict config registry hash bs q :
  env_returns →
  ∃ status t, sgx_check config registry hash bs q
    = Ok (sgx_result (sgx_accepts config registry hash bs q) t status q.(sq_report_body)).
Proof.
  intros Henv. pose proof (verify_quote_returns config q bs Henv) as Hret.
  unfold sgx_check, sgx_accepts, verify_report_data. cbv zeta.
  set (svn := rb_isv_svn (sq_report_body q)). set (low := min_isv_svn config).
  destruct (is_debug _), (allow_debug_enclaves config); cbn [negb andb orb]; try by eauto.
  all: destruct (decide (svn < low));
    [rewrite (bool_decide_true (svn < low)), (bool_decide_false (low <= svn)) by lia; by eauto
    |rewrite (bool_decide_false (svn < low)), (bool_decide_true (low <= svn)) by lia].
  all: destruct (strict_mode config), (verify_mrenclave _ _); cbn [negb andb orb]; try by eauto.
  all: case_bool_decide; cbn [negb andb orb]; try by eauto.
  all: destruct (verify_quote_dcap config q bs) as [[]| | |]; cbn in *; try done; by eauto.
Qed.

Lemma out_field_exact n bs : length bs = n → out_field n bs = bs.
Proof. intros <-. unfold out_field. rewrite bool_decide_true by done. by rewrite take_ge. Qed.

Lemma quote_field_size q k c n :
  quote_wf q → quote_chunks q !! k = Some c → quote_sizes q !! k = Some (N.of_nat n) →
  length c = n.
Proof.
  intros Hq Hc Hn. pose proof (Forall2_lookup_lr _ _ _ _ _ _ (qw_sizes _ Hq) Hc Hn) as Hb.
  cbn in Hb. unfold blen in Hb. lia.
Qed.

(** An SGX quote is read back field by field from the documented envelope
    and accepted exactly under the documented conditions.  For every well-formed
    version 3 quote and every bytes after its signature, the precompile with
    enough gas returns a 132-byte output whose first byte is 1 precisely when
    the enclave is not in debug mode (or debug enclaves are allowed), its
    security version is at least the minimum, its measurement is approved (in
    strict mode), its report data starts with the expected hash and the DCAP
    backend accepts the signature (or reports an outdated TCB in recovery mode);
    bytes 4 to 131 are the quote's MRENCLAVE, MRSIGNER and report data. *)
Lemma sgx_verdict_exact config registry hash q tail limit :
  env_returns → quote_wf q → length hash = 32%nat →
  config.(platform_config).(sgx_dcap_enabled) = true →
  96 + blen (encode_quote q ++ tail) <= U64_MAX →
  let input := abi_encode hash (encode_quote q ++ tail) in
  let body := q.(sq_report_body) in
  pc_gas_cost (SgxDcapVerifyPrecompile config registry) input <= limit →
  ∃ status, pc_execute (SgxDcapVerifyPrecompile config registry) input limit
    = Ok (ExecutionResult_success
        ([if sgx_accepts config registry hash (encode_quote q ++ tail) q then 1 else 0;
          VerificationStatus_as_u8 status; 2; 0]
         ++ body.(rb_mr_enclave) ++ body.(rb_mr_signer) ++ body.(rb_report_data))
        (pc_gas_cost (SgxDcapVerifyPrecompile config registry) input)).
Proof.
  intros Henv Hq Hh Hen Hlen input body. cbn [pc_gas_cost pc_execute SgxDcapVerifyPrecompile].
  intros Hgas. unfold sgx_execute. rewrite charge_ok by done. rewrite Hen. cbn [negb].
  destruct (sgx_check_verdict config registry hash (encode_quote q ++ tail) q Henv)
    as (status & t & Hcheck). exists status.
  eapply outcome_step; [by apply abi_decoded|]. cbv beta iota. rewrite (quote_parsed q tail Hq), Hcheck.
  cbn [mbind outcome_bind]. unfold sgx_build_output, sgx_result.
  cbn [tvr_valid tvr_status tvr_platform tvr_measurement tvr_signer tvr_report_data default
    from_option id TeePlatform_as_u8].
  rewrite (out_field_exact 32 _ (quote_field_size q 12 _ 32 Hq eq_refl eq_refl)),
    (out_field_exact 32 _ (quote_field_size q 14 _ 32 Hq eq_refl eq_refl)),
    (out_field_exact 64 _ (quote_field_size q 19 _ 64 Hq eq_refl eq_refl)).
  done.
Qed.

(** ** Totality *)
Lemma le_uint_returns {E} n a bs : a + n <= blen bs → returns (le_uint (E:=E) n a bs).
Proof. intros. apply returns_bind; [apply slice_returns; lia|done]. Qed.

Lemma returns_charge {A} gas limit (k : outcome PrecompileError A) :
  returns k → returns (charge gas limit k).
Proof. intros. unfold charge. by case_bool_decide. Qed.

Lemma returns_catch {E E' A B} (o : outcome E A) (f : A → outcome E' B) g :
  returns o → (∀ a, returns (f a)) → (∀ e, returns (g e)) →
  returns (match o with Ok a => f a | Err e => g e | Panic => Panic | Blocked => Blocked end).
Proof. destruct o; cbn; auto. Qed.

Ltac returns_steps :=
  repeat first
    [ apply returns_bind; [first [apply slice_returns; lia|apply le_uint_returns; lia]|intros ?]
    | exact I ].

Lemma parse_quote_returns q : returns (parse_dcap_quote q).
Proof.
  unfold parse_dcap_quote. case_bool_decide; [done|].
  apply returns_bind; [|intros header; apply returns_bind].
  - unfold parse_quote_header. returns_steps. case_bool_decide; [|done]. cbn [negb].
    returns_steps. case_bool_decide; [|done]. cbn [negb]. returns_steps.
  - unfold parse_report_body. cbv zeta. returns_steps.
  - intros body. cbv zeta. returns_steps. case_bool_decide; [done|]. returns_steps.
Qed.

Lemma parse_report_returns r : returns (parse_report r).
Proof.
  unfold parse_report. case_bool_decide; [done|]. returns_steps.
  apply returns_bind; [|done]. case_bool_decide; [apply slice_returns; lia|done].
Qed.

Lemma abi_input_returns too_short field input : returns (abi_input too_short field input).
Proof.
  unfold abi_input. case_bool_decide; [done|]. returns_steps. apply returns_bind; [|done].
  unfold checked_abi_slice. do 2 (case_bool_decide; [done|]). apply slice_returns; lia.
Qed.

Lemma sgx_returns config registry input limit :
  env_returns → returns (sgx_execute config registry input limit).
Proof.
  intros Henv. apply returns_charge. destruct (negb _); [done|].
  apply returns_bind; [apply abi_input_returns|]. intros [hash bs].
  apply returns_bind; [|done]. apply returns_catch; [apply parse_quote_returns| |done].
  intros q. by destruct (sgx_check_verdict config registry hash bs q Henv) as (? & ? & ->).
Qed.

Lemma parse_attestation_returns bs : env_returns → returns (parse_attestation bs).
Proof.
  intros Henv. unfold parse_attestation. case_bool_decide; [done|]. destruct feature_mock_tee.
  - apply returns_bind; [|done]. case_bool_decide; [returns_steps|done].
  - apply returns_catch; [apply Henv| |done]. intros [payload|]; [|done].
    apply returns_catch; [apply Henv|done..].
Qed.

Lemma nitro_check_ok config registry hash bs att :
  ∃ v, nitro_check config registry hash bs att = Ok v.
Proof.
  unfold nitro_check, nitro_verify_signature.
  destruct feature_mock_tee; [destruct (tee_enterprise_mode config)|];
    cbn [mbind outcome_bind negb]; [by eauto| |by eauto].
  destruct (_ && _); [by eauto|]. case_bool_decide; [by eauto|].
  destruct (na_user_data att); [|by eauto]. case_bool_decide; by eauto.
Qed.

Lemma nitro_returns config registry input limit :
  env_returns → returns (nitro_execute config registry input limit).
Proof.
  intros Henv. apply returns_charge. destruct (negb _); [done|].
  apply returns_bind; [apply abi_input_returns|]. intros [hash bs].
  apply returns_catch; [by apply parse_attestation_returns| |done].
  intros att. by destruct (nitro_check_ok config registry hash bs att) as [[] ->].
Qed.

Lemma sev_returns config registry input limit : returns (sev_execute config registry input limit).
Proof.
  apply returns_charge. destruct (negb _); [done|].
  apply returns_bind; [apply abi_input_returns|]. intros [hash bs].
  apply returns_catch; [apply parse_report_returns| |done]. intros r. by destruct (sev_check _ _ _ _).
Qed.

(** No bytes make the universal TEE precompile panic.  Whatever the input
    (offsets and lengths that overflow, truncated quotes, signature lengths
    beyond the end, unknown platforms), the configuration and the measurement
    registry, the call returns a result or an error, provided the libraries it
    calls return. *)
Lemma tee_total config registry input limit :
  env_returns → returns (pc_execute (UniversalTeeVerifyPrecompile config registry) input limit).
Proof.
  intros Henv. apply returns_charge. destruct (detect_platform input) as [p|]; [|done].
  cbn [from_option mbind outcome_bind].
  destruct (_ && _); [done|]. destruct (_ && _); [done|].
  destruct p; [apply nitro_returns|apply sgx_returns|apply sgx_returns|apply sev_returns|]; done.
Qed.
End verdict.

(** ** What the job registry does with the verdict *)
Section registry.
Context `{Build, Crypto, TeeEnv}.

Lemma no_backend_rejects enterprise input limit res :
  feature_sgx = false → pc_execute (registry_tee_verifier enterprise) input limit = Ok res → False.
Proof.
  intros Hf. assert (registry_tee_verifier enterprise = UniversalTee_with_defaults) as ->
    by by destruct enterprise.
  cbn [pc_execute UniversalTee_with_defaults UniversalTeeVerifyPrecompile]. unfold tee_execute, charge.
  case_bool_decide; [done|]. destruct (detect_platform input) as [p|]; [|done].
  cbn [from_option mbind outcome_bind]. rewrite Hf. cbn. by destruct (bool_decide _).
Qed.

(** *** Verifiers whose envelope is well formed complete *)
Lemma abi_input_any t f t' f' input x :
  abi_input t f input = Ok x → abi_input t' f' input = Ok x.
Proof.
  unfold abi_input, checked_abi_slice. case_bool_decide; [done|].
  destruct (slice 0 32 input); cbn; try done. destruct (slice 32 64 input); cbn; try done.
  destruct (slice 64 96 input); cbn; try done. by do 2 (case_bool_decide; [done|]).
Qed.

Definition completes (r : outcome PrecompileError ExecutionResult) : Prop :=
  ∃ res, r = Ok res ∧ res.(er_success) = true.

Lemma completes_bind {A} (o : outcome PrecompileError A) a k :
  o = Ok a → completes (k a) → completes (o ≫= k).
Proof. by intros ->. Qed.

Lemma completes_success out gas : completes (Ok (ExecutionResult_success out gas)).
Proof. by eexists. Qed.

Lemma completes_charge gas limit k : gas <= limit → completes k → completes (charge gas limit k).
Proof. intros. by rewrite charge_ok. Qed.

Lemma sgx_completes config registry input limit x :
  env_returns → abi_input EmptyString EmptyString input = Ok x → sgx_gas_cost input <= limit →
  completes (sgx_execute config registry input limit).
Proof.
  intros Henv Habi Hg. apply completes_charge; [done|]. destruct (negb _); [apply completes_success|].
  eapply completes_bind; [by eapply abi_input_any|]. destruct x as [hash bs].
  pose proof (parse_quote_returns bs) as Hp. destruct (parse_dcap_quote bs) as [q| | |]; try done.
  - destruct (sgx_check_verdict config registry hash bs q Henv) as (? & ? & ->). apply completes_success.
  - apply completes_success.
Qed.

Lemma nitro_completes config registry input limit x :
  env_returns → abi_input EmptyString EmptyString input = Ok x → nitro_gas_cost input <= limit →
  completes (nitro_execute config registry input limit).
Proof.
  intros Henv Habi Hg. apply completes_charge; [done|]. destruct (negb _); [apply completes_success|].
  eapply completes_bind; [by eapply abi_input_any|]. destruct x as [hash bs].
  pose proof (parse_attestation_returns bs Henv) as Hp.
  destruct (parse_attestation bs) as [att| | |]; try done.
  - destruct (nitro_check_ok config registry hash bs att) as [[] ->]. apply completes_success.
  - apply completes_success.
Qed.

Lemma sev_completes config registry input limit x :
  abi_input EmptyString EmptyString input = Ok x → sev_gas_cost input <= limit →
  completes (sev_execute config registry input limit).
Proof.
  intros Habi Hg. apply completes_charge; [done|]. destruct (negb _); [apply completes_success|].
  eapply completes_bind; [by eapply abi_input_any|]. destruct x as [hash bs].
  pose proof (parse_report_returns bs) as Hp. destruct (parse_report bs) as [r| | |]; try done.
  - destruct (sev_check _ _ _ _). apply completes_success.
  - apply completes_success.
Qed.

Lemma registry_verifier_completes enterprise att x :
  feature_sgx = true → env_returns →
  abi_input EmptyString EmptyString att.(tee_attestation_bytes) = Ok x →
  blen att.(tee_attestation_bytes) < 51199 →
  completes (pc_execute (registry_tee_verifier enterprise)
    (platform_prefix att.(tee_type) :: att.(tee_attestation_bytes)) tee_gas_limit).
Proof.
  intros Hf Henv Habi Hlen. assert (registry_tee_verifier enterprise = UniversalTee_with_defaults)
    as -> by by destruct enterprise.
  set (raw := tee_attestation_bytes att) in *.
  assert (∀ t : N, blen (t :: raw) / 1024 <= 49 ∧ blen raw / 1024 <= 49) as Hkb.
  { intros t. assert (blen (t :: raw) = blen raw + 1) as -> by (unfold blen; cbn; lia).
    split; apply N.lt_succ_r; apply N.Div0.div_lt_upper_bound; lia. }
  cbn [pc_execute UniversalTee_with_defaults UniversalTeeVerifyPrecompile]. unfold tee_execute, tee_gas_limit.
  apply completes_charge.
  { destruct (Hkb (platform_prefix (tee_type att))) as [Hk _].
    destruct (tee_type att); cbn [platform_prefix] in *; unfold tee_gas_cost;
      cbn [detect_platform]; unfold sgx_gas_cost, nitro_gas_cost, sev_gas_cost; lia. }
  destruct (Hkb 0) as [_ Hr]. rewrite Hf.
  destruct (tee_type att);
    cbn [platform_prefix detect_platform from_option mbind outcome_bind negb andb strip_platform];
    (rewrite bool_decide_false by done); rewrite andb_false_r;
    (rewrite bool_decide_true by lia).
  - eapply sgx_completes; [done..|]. unfold sgx_gas_cost. lia.
  - eapply nitro_completes; [done..|]. unfold nitro_gas_cost. lia.
  - eapply sev_completes; [done..|]. unfold sev_gas_cost. lia.
Qed.

(** The TEE path fails closed without a backend.  On a node built without
    the [sgx] feature, a registry that requires cryptographic verification
    accepts no attestation of any platform: no job whose method needs one is
    ever settled. *)
Lemma tee_fails_closed params ctx s :
  feature_sgx = false → universal_tee_verify = registry_tee_verifier →
  requires_cryptographic_verification s.(ps_registry) = true →
  params.(sp_proof).(pf_method) = TeeAttestationMethod ∨ params.(sp_proof).(pf_method) = Hybrid →
  is_ok (submit_proof params ctx s).1 = false.
Proof.
  intros Hf Hu Hb Hm. destruct (submit_proof params ctx s) as [[res| | |] s'] eqn:Hrun; try done.
  apply submit_proof_ok in Hrun as (job & r1 & _ & _ & _ & _ & _ & _ & _ & _ & Hv & _).
  apply verify_proof_ok in Hv. unfold proof_checked in Hv.
  assert (∃ att, tee_checked (ps_registry s) att job) as (att & Hatt)
    by (destruct Hm as [Hm|Hm]; rewrite Hm in Hv;
        [destruct Hv as (att & _ & ?)|destruct Hv as (att & zk & _ & _ & ? & _)]; by exists att).
  destruct (tc_precompile _ _ _ Hatt) as (r & Hex & _).
  { unfold tee_binding. by rewrite Hb, orb_true_r. }
  rewrite Hu in Hex. by apply no_backend_rejects in Hex.
Qed.

(** What the registry checks itself. *)
Record attestation_plausible (r : JobRegistry) (att : TeeAttestation) (job : JobState) : Prop := {
  ap_measurement : att.(tee_measurement) = job.(job_model_hash);
  ap_nonzero : att.(tee_measurement) ≠ bytes32 0;
  ap_window : job.(job_submitted_at) <= att.(tee_timestamp) <= job.(job_sla).(sla_deadline);
  ap_length : 64 <= blen att.(tee_attestation_bytes);
  ap_fresh : sha256 att.(tee_attestation_bytes) ∉ r.(jr_seen_attestation_hashes);
  ap_real : head att.(tee_attestation_bytes) ≠ Some 255;
}.

(** With the [sgx] feature the registry accepts attestations the
    precompile finds invalid.  The verifiers report an invalid quote in the
    first output byte of a successful result, and [verify_tee_attestation] only
    tests for success: every attestation that passes the registry's own checks
    and whose envelope names a range inside its (less than 50 KiB) bytes is
    accepted, whatever these bytes are, whether they parse or not, with or
    without a valid signature, in enterprise mode too. *)
Lemma tee_verdict_ignored r att job hash data :
  feature_sgx = true → universal_tee_verify = registry_tee_verifier → env_returns →
  attestation_plausible r att job →
  abi_input EmptyString EmptyString att.(tee_attestation_bytes) = Ok (hash, data) →
  blen att.(tee_attestation_bytes) < 51199 →
  verify_tee_attestation att job r
  = (Ok true, record_attestation (sha256 att.(tee_attestation_bytes)) r).
Proof.
  intros Hf Hu Henv [Hm Hnz Hw Hlen Hfresh Hreal] Habi Hgas.
  destruct (registry_verifier_completes r.(jr_enterprise_mode) att _ Hf Henv Habi Hgas)
    as (res & Hex & Hs).
  unfold verify_tee_attestation. unfold blen in Hlen.
  rewrite (bool_decide_false (tee_attestation_bytes att = []))
    by (intros Hz; rewrite Hz in Hlen; cbn in Hlen; lia).
  rewrite (bool_decide_false (tee_measurement att = bytes32 0)),
    (bool_decide_true (tee_measurement att = job_model_hash job)) by done.
  rewrite (bool_decide_false (tee_timestamp att < _)), (bool_decide_false (_ < tee_timestamp att))
    by lia.
  rewrite (bool_decide_false (_ < 64)%nat) by lia. mrun.
  rewrite (bool_decide_false (_ ∈ _)) by done. mrun. rewrite (bool_decide_false (head _ = _)) by done.
  rewrite andb_false_r. mrun. rewrite Hu, Hex, Hs. done.
Qed.
End registry.

(** ** Concrete runs

    A node with and without the [sgx] feature, whose DCAP backend accepts or
    revokes every quote, and a registry that calls the modelled verifiers. *)
Definition tee_build (sgx : bool) : Build :=
  {| overflow_checks := true; feature_sgx := sgx; feature_zkp := false |}.

Definition tee_env (result : QvResult) : TeeEnv := {|
  feature_mock_tee := false; tee_sha256 := λ bs, bs; utc_now := 1700000000;
  utc_now_millis := 1700000000000; unix_secs := Some 1700000000;
  sgx_qv_verify_quote := λ _ _, Ok result; cose_payload := λ _, Ok None;
  cbor_value := unit; cbor_from_reader := λ _, Ok tt;
  json_config := λ _, Err "unused"; hex_decode := λ _, Err "unused" |}.

Definition tee_crypto (sgx : bool) (env : TeeEnv) : Crypto := {|
  sha256 := @sha256 dev_crypto;
  universal_tee_verify := registry_tee_verifier (H := tee_build sgx) (H0 := env);
  unified_zkp_verify := @unified_zkp_verify dev_crypto |}.

Lemma tee_env_returns r : env_returns (H0 := tee_env r).
Proof. split; [by eexists|intros; exact I..]. Qed.

(** A quote of an approved enclave, initialised and not in debug mode. *)
Definition sample_quote : SgxDcapQuote := {|
  sq_header := {| qh_version := 3; qh_att_key_type := 2; qh_tee_type := 0; qh_qe_svn := 7;
                  qh_pce_svn := 11; qh_qe_vendor_id := replicate 16 9;
                  qh_user_data := replicate 20 0 |};
  sq_report_body := {| rb_cpu_svn := replicate 16 1; rb_misc_select := 0;
                       rb_reserved1 := replicate 28 0;
                       rb_attributes := {| sa_flags := 5; sa_xfrm := 3 |};
                       rb_mr_enclave := FRAUD_DETECT_V1_MRENCLAVE; rb_reserved2 := replicate 32 0;
                       rb_mr_signer := replicate 32 4; rb_reserved3 := replicate 96 0;
                       rb_isv_prod_id := 1; rb_isv_svn := 2; rb_reserved4 := replicate 60 0;
                       rb_report_data := replicate 64 5 |};
  sq_signature_len := 64; sq_signature_data := replicate 64 8 |}.

Lemma sample_quote_wf : quote_wf sample_quote.
Proof. split; try (vm_compute; done); repeat constructor. Qed.

Lemma sgx_verdict_exact_witness :
  ∃ status, pc_execute
      (SgxDcapVerifyPrecompile (H := tee_build true) (H0 := tee_env QvOk) TeeVerifierConfig_mainnet
         MeasurementRegistry_new)
      (abi_encode (bytes32 5) (encode_quote sample_quote ++ [1])) 500000
    = Ok (ExecutionResult_success
        ([1; VerificationStatus_as_u8 status; 2; 0] ++ FRAUD_DETECT_V1_MRENCLAVE ++ replicate 32 4
         ++ replicate 64 5) 500000).
Proof.
  apply (sgx_verdict_exact (H := tee_build true) (H0 := tee_env QvOk) TeeVerifierConfig_mainnet
    MeasurementRegistry_new (bytes32 5) sample_quote [1] 500000 (tee_env_returns QvOk)
    sample_quote_wf); [reflexivity|reflexivity|vm_compute; discriminate|vm_compute; discriminate].
Defined.

Lemma tee_total_witness :
  returns (pc_execute (UniversalTeeVerifyPrecompile (H := tee_build true) (H0 := tee_env QvOk)
      TeeVerifierConfig_devnet MeasurementRegistry_new) (2 :: replicate 500 255) 1000000).
Proof.
  apply (tee_total (H := tee_build true) (H0 := tee_env QvOk)), tee_env_returns.
Defined.

(** A job assigned on a network that requires cryptographic verification. *)
Definition tee_state : ProofState := dev_state (dev_assign
  (dev_submit TeeAttestationMethod (JobRegistry_new JobConfig_testnet, dev_bank))).

Lemma tee_fails_closed_witness :
  (job_status <$> (tee_state.(ps_registry).(jr_jobs) !! dev_job_id 0) = Some Assigned)
  ∧ is_ok (submit_proof (H := tee_build false) (H0 := tee_crypto false (tee_env QvOk))
             (dev_proof_params TeeAttestationMethod) (dev_ctx 2) tee_state).1 = false.
Proof.
  split; [vm_compute; reflexivity|].
  apply (tee_fails_closed (H := tee_build false) (H0 := tee_crypto false (tee_env QvOk))
    (H1 := tee_env QvOk)); [reflexivity|reflexivity|vm_compute; reflexivity|by left].
Defined.

(** Bytes that are not a quote, in a well-formed envelope. *)
Definition garbage_attestation : TeeAttestation := {|
  tee_type := IntelSgx; tee_attestation_bytes := abi_encode (bytes32 5) [1; 2; 3];
  tee_measurement := bytes32 8; tee_timestamp := 2 |}.

Definition enterprise_registry : JobRegistry := JobRegistry_new_enterprise JobConfig_mainnet.

(** The precompile says no, the registry says yes. *)
Lemma tee_verdict_ignored_witness :
  (∃ res, pc_execute (registry_tee_verifier (H := tee_build true) (H0 := tee_env QvRevoked) true)
      (2 :: garbage_attestation.(tee_attestation_bytes)) tee_gas_limit = Ok res
    ∧ head res.(er_output) = Some 0)
  ∧ (verify_tee_attestation (H := tee_build true) (H0 := tee_crypto true (tee_env QvRevoked))
      garbage_attestation (dev_job TeeAttestationMethod) enterprise_registry).1 = Ok true.
Proof.
  split; [eexists; split; [vm_compute; reflexivity|reflexivity]|].
  rewrite (tee_verdict_ignored (H := tee_build true) (H0 := tee_crypto true (tee_env QvRevoked))
    (H1 := tee_env QvRevoked) enterprise_registry garbage_attestation (dev_job TeeAttestationMethod)
    (bytes32 5) [1; 2; 3]); [reflexivity|reflexivity|reflexivity|apply tee_env_returns| | |].
  - split; [reflexivity|by vm_compute|by vm_compute|by vm_compute|by vm_compute|by vm_compute].
  - vm_compute. reflexivity.
  - vm_compute. reflexivity.
Defined.
