(* ===== verification/Zkp.v ===== *)
(** * The zero-knowledge precompiles

    [crates/vm/src/precompiles/zkp.rs]: the parsers and verifiers behind the
    addresses of the proof systems, and the unified precompile the job registry
    calls.  Pairing arithmetic and its serialisation are the [arkworks] crates:
    an instance of [Arkworks].

    Offsets and sizes are [usize]; they are sums of input lengths and of
    [u32] fields (times at most 32) and stay far below 2^64, so they are plain
    [N]s here; the same holds for the gas figures. *)
From S2P Require Import Prelude SysTypes Precompile.
From stdpp Require Import base gmap list strings pretty.
From Stdlib Require Import ZArith.
#[local] Open Scope N_scope.

(** [ark_bn254], [ark_groth16] and [ark_serialize]: an error is a string. *)
Class Arkworks := {
  ark_vk : Type;
  ark_pvk : Type;
  ark_proof : Type;
  ark_fr : Type;
  ark_vk_deserialize : bytes → outcome string ark_vk;
  ark_proof_deserialize : bytes → outcome string ark_proof;
  ark_fr_deserialize : bytes → outcome string ark_fr;
  ark_prepare : ark_vk → ark_pvk;
  ark_verify : ark_pvk → ark_proof → list ark_fr → outcome string bool;
}.

(** ** Gas costs *)
Definition GROTH16_BASE : N := 150000.
Definition GROTH16_PER_PUBLIC_INPUT : N := 20000.
Definition PLONK_BASE : N := 200000.
Definition EZKL_BASE : N := 250000.
Definition BATCH_GROTH16_BASE : N := 100000.
Definition BATCH_GROTH16_PER_PROOF : N := 80000.
Definition BATCH_GROTH16_PER_PUBLIC_INPUT : N := 12000.
Definition STARK_BASE : N := 300000.
Definition ZKP_UNIFIED_OVERHEAD : N := 5000.

(** ** Slices *)

(** [u32::from_le_bytes([bs[a], .., bs[a + 3]]) as usize] *)
Definition le_u32 {E} (a : N) (bs : bytes) : outcome E N :=
  w ← slice a (a + 4) bs; Ok (of_le_bytes w).

(** [map_err(|e| format!("..{}", e))] *)
Definition map_err {A} (prefix : string) (o : outcome string A) : outcome string A :=
  match o with Err e => Err (prefix +:+ e) | o => o end.

(** [match verify(..) { Ok(result) => result, Err(e) => { warn!(..); false } }] *)
Definition or_invalid (v : outcome string bool) : outcome PrecompileError bool :=
  match v with
  | Ok b => Ok b
  | Err _ => Ok false
  | Panic => Panic
  | Blocked => Blocked
  end.

(** [vec![0u8; 32]] with its last byte set when the proof is valid. *)
Definition flag_output (valid : bool) : bytes :=
  replicate 31 0 ++ [if valid then 1 else 0].

Section zkp.
Context `{Build, Arkworks}.

(** ** Groth16 *)
Inductive Groth16Curve := Bn254 | Bls12_381.

Definition vk_size (c : Groth16Curve) : N :=
  match c with Bn254 => 544 | Bls12_381 => 816 end.
Definition proof_size (c : Groth16Curve) : N :=
  match c with Bn254 => 192 | Bls12_381 => 384 end.

(** The loop over the public inputs, from the [i]-th of [i + n]. *)
Fixpoint groth16_inputs (i : N) (n : nat) (bs : bytes) : outcome string (list ark_fr) :=
  match n with
  | O => Ok []
  | S n =>
      chunk ← slice (i * 32) (i * 32 + 32) bs;
      fr ← map_err ("Failed to deserialize public input " +:+ pretty i +:+ ": ")
             (ark_fr_deserialize chunk);
      rest ← groth16_inputs (i + 1) n bs;
      Ok (fr :: rest)
  end.

Definition verify_groth16_proof (vk_bytes proof_bytes public_inputs_bytes : bytes)
  : outcome string bool :=
  if feature_zkp then
    vk ← map_err "Failed to deserialize verifying key: " (ark_vk_deserialize vk_bytes);
    proof ← map_err "Failed to deserialize proof: " (ark_proof_deserialize proof_bytes);
    inputs ← groth16_inputs 0 (length public_inputs_bytes / 32) public_inputs_bytes;
    map_err "Proof verification error: " (ark_verify (ark_prepare vk) proof inputs)
  else Err "Groth16 verification requires 'zkp' feature to be enabled".

Definition groth16_gas_cost (c : Groth16Curve) (input : bytes) : N :=
  let fixed_overhead := vk_size c + proof_size c in
  if bool_decide (blen input <= fixed_overhead) then GROTH16_BASE
  else GROTH16_BASE + (blen input - fixed_overhead) / 32 * GROTH16_PER_PUBLIC_INPUT.

Definition groth16_execute (c : Groth16Curve) (input : bytes) (gas_limit : N)
  : outcome PrecompileError ExecutionResult :=
  let gas := groth16_gas_cost c input in
  charge gas gas_limit (require_length (vk_size c + proof_size c + 32) input (
    let vk_end := vk_size c in
    let proof_end := vk_end + proof_size c in
    verifying_key ← slice 0 vk_end input;
    proof ← slice vk_end proof_end input;
    public_inputs ← slice proof_end (blen input) input;
    valid ← or_invalid (verify_groth16_proof verifying_key proof public_inputs);
    Ok (ExecutionResult_success (flag_output valid) gas))).

Definition Groth16VerifyPrecompile (c : Groth16Curve) : Precompile :=
  {| pc_gas_cost := groth16_gas_cost c; pc_execute := groth16_execute c |}.

(** ** Batches of Groth16 proofs *)
Definition parse_num_proofs (input : bytes) : option N :=
  if bool_decide (blen input < 4) then None else Some (of_le_bytes (take 4 input)).

(** The header of an entry: the sizes of its key and proof and its number of
    inputs. *)
Definition entry_header {E} (offset : N) (input : bytes) : outcome E (N * N * N) :=
  vk ← le_u32 offset input;
  pf ← le_u32 (offset + 4) input;
  n ← le_u32 (offset + 8) input;
  Ok (vk, pf, n).

(** The gas loop.  Each round moves the offset by at least 12, so that the
    input's length bounds the number of rounds. *)
Fixpoint count_inputs (fuel : nat) (num_proofs offset total : N) (input : bytes) : N :=
  match fuel with
  | O => total
  | S fuel =>
      if bool_decide (num_proofs = 0) then total
      else if bool_decide (blen input < offset + 12) then total
      else match entry_header (E:=PrecompileError) offset input with
           | Ok (vk, pf, n) =>
               count_inputs fuel (num_proofs - 1) (offset + (12 + vk + pf + n * 32)) (total + n)
                 input
           | _ => total
           end
  end.

Definition count_total_public_inputs (input : bytes) : N * N :=
  match parse_num_proofs input with
  | None => (0, 0)
  | Some num_proofs =>
      (num_proofs, count_inputs (S (length input)) num_proofs 4 0 input)
  end.

Definition batch_gas_cost (input : bytes) : N :=
  let '(num_proofs, total_inputs) := count_total_public_inputs input in
  if bool_decide (num_proofs = 0) then BATCH_GROTH16_BASE
  else BATCH_GROTH16_BASE + num_proofs * BATCH_GROTH16_PER_PROOF
       + total_inputs * BATCH_GROTH16_PER_PUBLIC_INPUT.

(** The verification loop, from the [i]-th entry; [false] as soon as one proof
    is not valid. *)
Fixpoint batch_entries (n : nat) (i offset : N) (input : bytes) : outcome PrecompileError bool :=
  match n with
  | O => Ok true
  | S n =>
      if bool_decide (blen input < offset + 12) then
        Err (InvalidInputFormat ("Truncated header for proof " +:+ pretty i +:+ " at offset "
               +:+ pretty offset))
      else
      '(vk_size, proof_size, num_inputs) ← entry_header offset input;
      let data_start := offset + 12 in
      let total_entry_size := vk_size + proof_size + num_inputs * 32 in
      if bool_decide (blen input < data_start + total_entry_size) then
        Err (InvalidInputFormat ("Truncated data for proof " +:+ pretty i +:+ " (need "
               +:+ pretty total_entry_size +:+ " bytes at offset " +:+ pretty data_start
               +:+ ", have " +:+ pretty (blen input - data_start) +:+ ")"))
      else
      vk ← slice data_start (data_start + vk_size) input;
      proof ← slice (data_start + vk_size) (data_start + vk_size + proof_size) input;
      public_inputs ← slice (data_start + vk_size + proof_size) (data_start + total_entry_size)
                        input;
      valid ← or_invalid (verify_groth16_proof vk proof public_inputs);
      if valid : bool then batch_entries n (i + 1) (data_start + total_entry_size) input
      else Ok false
  end.

Definition batch_execute (input : bytes) (gas_limit : N)
  : outcome PrecompileError ExecutionResult :=
  let gas := batch_gas_cost input in
  charge gas gas_limit (require_length 4 input (
    let num_proofs := default 0 (parse_num_proofs input) in
    if bool_decide (num_proofs = 0) then
      Err (InvalidInputFormat "Batch must contain at least 1 proof")
    else if bool_decide (256 < num_proofs) then
      Err (InvalidInputFormat "Batch size exceeds maximum of 256 proofs")
    else
    valid ← batch_entries (N.to_nat num_proofs) 0 4 input;
    Ok (ExecutionResult_success (flag_output valid) gas))).

Definition BatchGroth16VerifyPrecompile : Precompile :=
  {| pc_gas_cost := batch_gas_cost; pc_execute := batch_execute |}.

(** ** PLONK *)
Definition verify_plonk_proof (vk_hash public_inputs proof : bytes) : outcome string bool :=
  if feature_zkp then
    if bool_decide (proof = []) then Err "Empty proof" else Ok true
  else Err "PLONK verification requires 'zkp' feature".

Definition plonk_min_length : N := 4 + 32 + 4 + 384.

Definition plonk_execute (input : bytes) (gas_limit : N)
  : outcome PrecompileError ExecutionResult :=
  let gas := PLONK_BASE in
  charge gas gas_limit (require_length plonk_min_length input (
    proof_size ← le_u32 0 input;
    vk_hash ← slice 4 36 input;
    num_inputs ← le_u32 36 input;
    let public_inputs_start := 40 in
    let public_inputs_end := public_inputs_start + num_inputs * 32 in
    let proof_end := public_inputs_end + proof_size in
    require_length proof_end input (
      public_inputs ← slice public_inputs_start public_inputs_end input;
      proof ← slice public_inputs_end proof_end input;
      valid ← or_invalid (verify_plonk_proof vk_hash public_inputs proof);
      Ok (ExecutionResult_success (flag_output valid) gas)))).

Definition PlonkVerifyPrecompile : Precompile :=
  {| pc_gas_cost := λ _, PLONK_BASE; pc_execute := plonk_execute |}.

(** ** EZKL *)
Inductive EzklBackend := EzklNative | EzklPlonk | EzklHalo2.

#[export] Instance EzklBackend_eq_dec : EqDecision EzklBackend.
Proof. solve_decision. Defined.

Definition EzklBackend_as_u8 (b : EzklBackend) : N :=
  match b with EzklNative => 0 | EzklPlonk => 1 | EzklHalo2 => 2 end.

Definition EzklBackend_debug (b : EzklBackend) : string :=
  match b with EzklNative => "EzklNative" | EzklPlonk => "Plonk" | EzklHalo2 => "Halo2" end.

Record EzklProofHeader := {
  ezkl_version : N;
  ezkl_backend : EzklBackend;
  ezkl_circuit_hash : Hash;
  ezkl_vk_hash : Hash;
  ezkl_num_public_inputs : N;
  ezkl_proof_size : N;
}.

(** All indices are below the 72 bytes the guard requires. *)
Definition parse_header (input : bytes) : option EzklProofHeader :=
  if bool_decide (blen input < 72) then None else
  backend ← (match nth 1 input 0 with
             | 0 => Some EzklNative
             | 1 => Some EzklPlonk
             | 2 => Some EzklHalo2
             | _ => None
             end);
  Some {| ezkl_version := nth 0 input 0;
          ezkl_backend := backend;
          ezkl_circuit_hash := take 32 (drop 2 input);
          ezkl_vk_hash := take 32 (drop 34 input);
          ezkl_num_public_inputs := of_le_bytes (take 2 (drop 66 input));
          ezkl_proof_size := of_le_bytes (take 4 (drop 68 input)) |}.

Definition verify_ezkl_proof (header : EzklProofHeader) (public_inputs proof : bytes)
  : outcome string bool :=
  if feature_zkp then
    match header.(ezkl_backend) with
    | EzklNative | EzklHalo2 => Ok true
    | EzklPlonk => Ok true
    end
  else Err "EZKL verification requires 'zkp' feature".

Definition ezkl_gas_cost (input : bytes) : N :=
  match parse_header input with
  | Some header =>
      EZKL_BASE + header.(ezkl_num_public_inputs) * 1000 + header.(ezkl_proof_size) / 100
  | None => EZKL_BASE
  end.

Definition ezkl_output (valid : bool) (header : EzklProofHeader) : bytes :=
  replicate 29 0 ++ [header.(ezkl_version); EzklBackend_as_u8 header.(ezkl_backend);
                     if valid then 1 else 0].

Definition ezkl_execute (supported_backends : list EzklBackend) (input : bytes) (gas_limit : N)
  : outcome PrecompileError ExecutionResult :=
  let gas := ezkl_gas_cost input in
  charge gas gas_limit (
    header ← from_option Ok (Err (InvalidInputFormat "Invalid EZKL proof header"))
               (parse_header input);
    if negb (bool_decide (header.(ezkl_backend) ∈ supported_backends)) then
      Err (UnsupportedOperation ("EZKL backend " +:+ EzklBackend_debug header.(ezkl_backend)
             +:+ " not supported"))
    else
    let public_inputs_start := 72 in
    let public_inputs_end := public_inputs_start + header.(ezkl_num_public_inputs) * 32 in
    let proof_end := public_inputs_end + header.(ezkl_proof_size) in
    require_length proof_end input (
      public_inputs ← slice public_inputs_start public_inputs_end input;
      proof ← slice public_inputs_end proof_end input;
      valid ← or_invalid (verify_ezkl_proof header public_inputs proof);
      Ok (ExecutionResult_success (ezkl_output valid header) gas))).

Definition EzklVerifyPrecompile : Precompile :=
  {| pc_gas_cost := ezkl_gas_cost;
     pc_execute := ezkl_execute [EzklNative; EzklPlonk; EzklHalo2] |}.

(** ** Halo2 *)
Definition verify_halo2_proof (input : bytes) : outcome string bool :=
  if feature_zkp then Ok true else Err "Halo2 verification requires 'zkp' feature".

Definition halo2_execute (input : bytes) (gas_limit : N)
  : outcome PrecompileError ExecutionResult :=
  let gas := PLONK_BASE in
  charge gas gas_limit (require_length 256 input (
    valid ← or_invalid (verify_halo2_proof input);
    Ok (ExecutionResult_success (flag_output valid) gas))).

Definition Halo2VerifyPrecompile : Precompile :=
  {| pc_gas_cost := λ _, PLONK_BASE; pc_execute := halo2_execute |}.

(** ** STARK *)
Definition verify_stark_proof (vk_hash public_inputs proof : bytes) : outcome string bool :=
  if feature_zkp then
    if bool_decide (proof = []) then Err "Empty STARK proof" else Ok true
  else Err "STARK verification requires 'zkp' feature".

Definition stark_min_length : N := 32 + 4 + 32 + 128.

Definition stark_execute (input : bytes) (gas_limit : N)
  : outcome PrecompileError ExecutionResult :=
  let gas := STARK_BASE in
  charge gas gas_limit (require_length stark_min_length input (
    vk_hash ← slice 0 32 input;
    num_inputs ← le_u32 32 input;
    let public_inputs_start := 36 in
    let public_inputs_end := public_inputs_start + num_inputs * 32 in
    require_length public_inputs_end input (
      public_inputs ← slice public_inputs_start public_inputs_end input;
      proof ← slice public_inputs_end (blen input) input;
      if bool_decide (proof = []) then
        Err (InvalidInputFormat "STARK proof bytes are empty")
      else
      valid ← or_invalid (verify_stark_proof vk_hash public_inputs proof);
      Ok (ExecutionResult_success (flag_output valid) gas)))).

Definition StarkVerifyPrecompile : Precompile :=
  {| pc_gas_cost := λ _, STARK_BASE; pc_execute := stark_execute |}.

(** ** The unified entry point *)
Definition detect_proof_system (tag : N) : option Precompile :=
  match tag with
  | 1 => Some (Groth16VerifyPrecompile Bn254)
  | 2 => Some PlonkVerifyPrecompile
  | 3 => Some EzklVerifyPrecompile
  | 4 => Some Halo2VerifyPrecompile
  | 5 => Some StarkVerifyPrecompile
  | _ => None
  end.

Definition unified_gas_cost (input : bytes) : N :=
  match input with
  | [] => GROTH16_BASE
  | tag :: data =>
      match detect_proof_system tag with
      | Some verifier => pc_gas_cost verifier data + ZKP_UNIFIED_OVERHEAD
      | None => GROTH16_BASE + ZKP_UNIFIED_OVERHEAD
      end
  end.

(** [{:02x}] of a byte. *)
Definition hex_02 (b : N) : string := hex_digit (b / 16) +:+ hex_digit (b mod 16).

Definition unified_execute (input : bytes) (gas_limit : N)
  : outcome PrecompileError ExecutionResult :=
  match input with
  | [] => Err (InvalidInputFormat ("Empty input: first byte must be proof system tag "
            +:+ "(0x01=Groth16, 0x02=PLONK, 0x03=EZKL, 0x04=Halo2, 0x05=STARK)"))
  | tag :: data =>
      charge (unified_gas_cost input) gas_limit (
        match detect_proof_system tag with
        | Some verifier => pc_execute verifier data gas_limit
        | None => Err (InvalidInputFormat ("Unknown proof system tag 0x" +:+ hex_02 tag
            +:+ ": expected 0x01=Groth16, 0x02=PLONK, 0x03=EZKL, 0x04=Halo2, 0x05=STARK"))
        end)
  end.

Definition UnifiedZkpVerifyPrecompile : Precompile :=
  {| pc_gas_cost := unified_gas_cost; pc_execute := unified_execute |}.
End zkp.

(** ** Verifying keys *)
Inductive ProofSystem := PsGroth16 | PsPlonk | PsEzkl | PsHalo2.

Record VerifyingKeyEntry := {
  vke_hash : Hash;
  vke_data : bytes;
  vke_system : ProofSystem;
  vke_circuit_id : option string;
  vke_registered_at : N;
}.

Record VerifyingKeyRegistry := { vkr_keys : gmap Hash VerifyingKeyEntry }.

Definition vkr_new : VerifyingKeyRegistry := {| vkr_keys := ∅ |}.
Definition vkr_register (entry : VerifyingKeyEntry) (r : VerifyingKeyRegistry)
  : VerifyingKeyRegistry := {| vkr_keys := <[entry.(vke_hash) := entry]> r.(vkr_keys) |}.
Definition vkr_get (r : VerifyingKeyRegistry) (hash : Hash) : option VerifyingKeyEntry :=
  r.(vkr_keys) !! hash.
Definition vkr_is_registered (r : VerifyingKeyRegistry) (hash : Hash) : bool :=
  bool_decide (is_Some (r.(vkr_keys) !! hash)).
Definition vkr_remove (hash : Hash) (r : VerifyingKeyRegistry)
  : option VerifyingKeyEntry * VerifyingKeyRegistry :=
  (r.(vkr_keys) !! hash, {| vkr_keys := delete hash r.(vkr_keys) |}).
