(* ===== verification/ZkpSpec.v ===== *)
(** * What the zero-knowledge precompiles promise

    The unified precompile decodes exactly the envelope the job registry
    encodes, so that its verdict is the verdict on the submitted proof; what
    that verdict is worth with and without the [zkp] feature; and a batch is
    accepted exactly when each of its proofs is. *)
From S2P Require Import Prelude SysTypes F64 Precompile Bank BankSpec Staking JobRegistry Samples JobSpec Zkp.
From stdpp Require Import base gmap list strings pretty.
From Stdlib Require Import ZArith Lia.
#[local] Open Scope N_scope.

(** ** Reading back what was written *)
Lemma le_u32_mid {E} pre n post a bs :
  bs = pre ++ to_le_bytes 4 n ++ post → a = blen pre → n <= U32_MAX → le_u32 (E:=E) a bs = Ok n.
Proof.
  intros Hbs Ha Hn. unfold le_u32.
  rewrite (slice_mid pre (to_le_bytes 4 n) post) by (done || by rewrite blen_le).
  cbn [mbind outcome_bind]. rewrite of_to_le_bytes; [done|]. cbn. lia.
Qed.

(** Public inputs are 32 bytes each. *)
Lemma blen_concat (inputs : list Hash) :
  Forall (λ h, length h = 32%nat) inputs → blen (concat inputs) = N.of_nat (length inputs) * 32.
Proof.
  induction 1 as [|h inputs Hh _ IH]; cbn; [done|]. rewrite blen_app, IH, (blen_nat h 32) by done. lia.
Qed.

Lemma blen_padded n bs : blen (padded n bs) = N.of_nat n.
Proof.
  unfold padded. rewrite blen_app. unfold blen. rewrite length_take, length_replicate. lia.
Qed.

Ltac app_eq := by rewrite <- ?app_assoc, ?app_nil_r.
Ltac blen_eq := rewrite ?blen_app, ?blen_le.

Section envelopes.
Context `{Build, Arkworks}.

(** The verdict as the result of a call. *)
Definition report (out : bool → bytes) (gas : N) (v : outcome string bool)
  : outcome PrecompileError ExecutionResult :=
  valid ← or_invalid v; Ok (ExecutionResult_success (out valid) gas).

Lemma plonk_run vk pi proof n limit :
  length vk = 32%nat → blen pi = n * 32 → n <= U32_MAX → blen proof <= U32_MAX →
  plonk_min_length <= 40 + n * 32 + blen proof → PLONK_BASE <= limit →
  plonk_execute (to_le_bytes 4 (blen proof) ++ vk ++ to_le_bytes 4 n ++ pi ++ proof) limit
  = report flag_output PLONK_BASE (verify_plonk_proof vk pi proof).
Proof.
  intros Hvk Hpi Hn Hp Hmin Hg. apply (blen_nat _ 32) in Hvk. set (input := _ ++ _).
  assert (blen input = 40 + n * 32 + blen proof) as Hlen by (unfold input; blen_eq; lia).
  unfold plonk_execute. rewrite charge_ok, require_ok by lia.
  rewrite (le_u32_mid [] (blen proof) (vk ++ to_le_bytes 4 n ++ pi ++ proof) 0) by done.
  cbn [mbind outcome_bind].
  rewrite (slice_mid (to_le_bytes 4 (blen proof)) vk (to_le_bytes 4 n ++ pi ++ proof) 4 36)
    by (app_eq || (blen_eq; lia)). cbn [mbind outcome_bind].
  rewrite (le_u32_mid (to_le_bytes 4 (blen proof) ++ vk) n (pi ++ proof) 36)
    by (app_eq || (blen_eq; lia) || done). cbn [mbind outcome_bind].
  rewrite require_ok by lia.
  rewrite (slice_mid (to_le_bytes 4 (blen proof) ++ vk ++ to_le_bytes 4 n) pi proof 40)
    by (app_eq || (blen_eq; lia)). cbn [mbind outcome_bind].
  rewrite (slice_mid (to_le_bytes 4 (blen proof) ++ vk ++ to_le_bytes 4 n ++ pi) proof [])
    by (app_eq || (blen_eq; lia)). done.
Qed.

Lemma stark_run vk pi proof n limit :
  length vk = 32%nat → blen pi = n * 32 → n <= U32_MAX → proof ≠ [] →
  stark_min_length <= 36 + n * 32 + blen proof → STARK_BASE <= limit →
  stark_execute (vk ++ to_le_bytes 4 n ++ pi ++ proof) limit
  = report flag_output STARK_BASE (verify_stark_proof vk pi proof).
Proof.
  intros Hvk Hpi Hn Hp Hmin Hg. apply (blen_nat _ 32) in Hvk. set (input := _ ++ _).
  assert (blen input = 36 + n * 32 + blen proof) as Hlen by (unfold input; blen_eq; lia).
  unfold stark_execute. rewrite charge_ok, require_ok by lia.
  rewrite (slice_mid [] vk (to_le_bytes 4 n ++ pi ++ proof) 0) by (done || (blen_eq; lia)).
  cbn [mbind outcome_bind].
  rewrite (le_u32_mid vk n (pi ++ proof) 32) by (app_eq || (blen_eq; lia) || done).
  cbn [mbind outcome_bind]. rewrite require_ok by lia.
  rewrite (slice_mid (vk ++ to_le_bytes 4 n) pi proof 36) by (app_eq || (blen_eq; lia)).
  cbn [mbind outcome_bind].
  rewrite (slice_mid (vk ++ to_le_bytes 4 n ++ pi) proof [])
    by (app_eq || (rewrite ?Hlen; blen_eq; lia)). cbn [mbind outcome_bind].
  by rewrite bool_decide_false.
Qed.

Lemma halo2_run input limit :
  256 <= blen input → PLONK_BASE <= limit →
  halo2_execute input limit = report flag_output PLONK_BASE (verify_halo2_proof input).
Proof. intros Hmin Hg. unfold halo2_execute. by rewrite charge_ok, require_ok. Qed.

Lemma groth16_run vk proof pi limit :
  blen vk = 544 → blen proof = 192 → 32 <= blen pi →
  groth16_gas_cost Bn254 (vk ++ proof ++ pi) <= limit →
  groth16_execute Bn254 (vk ++ proof ++ pi) limit
  = report flag_output (groth16_gas_cost Bn254 (vk ++ proof ++ pi))
      (verify_groth16_proof vk proof pi).
Proof.
  intros Hvk Hp Hpi Hg. unfold groth16_execute. rewrite charge_ok by done.
  rewrite require_ok by (rewrite !blen_app; cbn; lia). cbn [vk_size proof_size].
  rewrite (slice_mid [] vk (proof ++ pi) 0) by (done || (blen_eq; lia)). cbn [mbind outcome_bind].
  rewrite (slice_mid vk proof pi 544) by (done || (blen_eq; lia)). cbn [mbind outcome_bind].
  rewrite (slice_mid (vk ++ proof) pi []) by (app_eq || (rewrite ?blen_app; cbn; lia)). done.
Qed.

Lemma take_drop_mid (pre mid post : bytes) a n bs :
  bs = pre ++ mid ++ post → length pre = a → length mid = n → take n (drop a bs) = mid.
Proof. intros -> <- <-. by rewrite drop_app_length, take_app_length. Qed.

Definition ezkl_data (model vk : Hash) (n : N) (pi proof : bytes) : bytes :=
  [1; 0] ++ model ++ vk ++ to_le_bytes 2 n ++ to_le_bytes 4 (blen proof) ++ pi ++ proof.

Definition ezkl_header (model vk : Hash) (n : N) (proof : bytes) : EzklProofHeader := {|
  ezkl_version := 1; ezkl_backend := EzklNative; ezkl_circuit_hash := model; ezkl_vk_hash := vk;
  ezkl_num_public_inputs := n; ezkl_proof_size := blen proof |}.

Lemma ezkl_header_parsed model vk n pi proof :
  length model = 32%nat → length vk = 32%nat → n <= U16_MAX → blen proof <= U32_MAX →
  parse_header (ezkl_data model vk n pi proof) = Some (ezkl_header model vk n proof).
Proof.
  intros Hm Hvk Hn Hp. unfold parse_header.
  rewrite bool_decide_false.
  2: { unfold ezkl_data. blen_eq. rewrite (blen_nat model 32), (blen_nat vk 32) by done.
    change (blen [1; 0]) with 2. lia. }
  cbn -[take drop]. unfold ezkl_header. do 2 f_equal.
  - by apply (take_drop_mid [1; 0] model (vk ++ to_le_bytes 2 n ++ to_le_bytes 4 (blen proof)
      ++ pi ++ proof)).
  - apply (take_drop_mid ([1; 0] ++ model) vk (to_le_bytes 2 n ++ to_le_bytes 4 (blen proof)
      ++ pi ++ proof)); [app_eq| |done]. rewrite length_app, Hm. done.
  - rewrite (take_drop_mid ([1; 0] ++ model ++ vk) (to_le_bytes 2 n) (to_le_bytes 4 (blen proof)
      ++ pi ++ proof)); [|app_eq|rewrite !length_app, Hm, Hvk; done|done].
    apply of_to_le_bytes. cbn. lia.
  - rewrite (take_drop_mid ([1; 0] ++ model ++ vk ++ to_le_bytes 2 n) (to_le_bytes 4 (blen proof))
      (pi ++ proof)); [|app_eq|rewrite !length_app, Hm, Hvk; done|done].
    apply of_to_le_bytes. cbn. lia.
Qed.

Lemma ezkl_run model vk pi proof n limit :
  length model = 32%nat → length vk = 32%nat → blen pi = n * 32 → n <= U16_MAX →
  blen proof <= U32_MAX → ezkl_gas_cost (ezkl_data model vk n pi proof) <= limit →
  ezkl_execute [EzklNative; EzklPlonk; EzklHalo2] (ezkl_data model vk n pi proof) limit
  = report (λ v, ezkl_output v (ezkl_header model vk n proof))
      (ezkl_gas_cost (ezkl_data model vk n pi proof))
      (verify_ezkl_proof (ezkl_header model vk n proof) pi proof).
Proof.
  intros Hm Hvk Hpi Hn Hp Hg.
  assert (blen (ezkl_data model vk n pi proof) = 72 + n * 32 + blen proof) as Hlen.
  { unfold ezkl_data. blen_eq. rewrite (blen_nat model 32), (blen_nat vk 32) by done.
    change (blen [1; 0]) with 2. lia. }
  unfold ezkl_execute. rewrite charge_ok by done. rewrite ezkl_header_parsed by done.
  cbn [mbind outcome_bind from_option].
  change (ezkl_backend (ezkl_header model vk n proof)) with EzklNative.
  change (ezkl_num_public_inputs (ezkl_header model vk n proof)) with n.
  change (ezkl_proof_size (ezkl_header model vk n proof)) with (blen proof).
  rewrite bool_decide_true by (apply elem_of_cons; by left). cbn [negb].
  rewrite require_ok by lia.
  set (pre := [1; 0] ++ model ++ vk ++ to_le_bytes 2 n ++ to_le_bytes 4 (blen proof)).
  assert (blen pre = 72) as Hpre.
  { unfold pre. blen_eq. rewrite (blen_nat model 32), (blen_nat vk 32) by done. done. }
  rewrite (slice_mid pre pi proof 72) by (unfold pre; app_eq || (fold pre; lia)).
  cbn [mbind outcome_bind].
  rewrite (slice_mid (pre ++ pi) proof []) by
    (unfold pre, ezkl_data; app_eq || (fold pre; rewrite blen_app; lia)).
  done.
Qed.
End envelopes.

(** ** The envelope of the job registry *)
#[local] Arguments to_le_bytes : simpl never.

Section unified.
Context `{Build, Arkworks}.

(** The verdict on the submitted proof itself. *)
Definition zk_verdict (zk : ZkProof) (job : JobState) : outcome string bool :=
  let vk := zk.(zk_vk_hash) in
  let pi := flatten_public_inputs zk.(zk_public_inputs) in
  let proof := zk.(zk_proof_bytes) in
  match zk.(zk_system) with
  | Groth16 => verify_groth16_proof (padded BN254_VK_SIZE vk) (padded BN254_PROOF_SIZE proof) pi
  | Plonk => verify_plonk_proof vk pi proof
  | Ezkl => verify_ezkl_proof (ezkl_header job.(job_model_hash) vk
              (N.of_nat (length zk.(zk_public_inputs))) proof) pi proof
  | Halo2 => verify_halo2_proof (vk ++ pi ++ proof)
  | Stark => verify_stark_proof vk pi proof
  end.

(** The last byte of the output is the verdict. *)
Definition reports (v : outcome string bool) (r : outcome PrecompileError ExecutionResult) : Prop :=
  match v with
  | Ok b => ∃ res, r = Ok res ∧ last res.(er_output) = Some (if b then 1 else 0)
  | Err _ => ∃ res, r = Ok res ∧ last res.(er_output) = Some 0
  | Panic => r = Panic
  | Blocked => r = Blocked
  end.

(** Sizes of a proof that fits its precompile's minimal input length. *)
Record zk_fits (zk : ZkProof) (job : JobState) : Prop := {
  zf_vk : length zk.(zk_vk_hash) = 32%nat;
  zf_model : length job.(job_model_hash) = 32%nat;
  zf_inputs : Forall (λ h, length h = 32%nat) zk.(zk_public_inputs);
  zf_nonempty : zk.(zk_public_inputs) ≠ [] ∧ zk.(zk_proof_bytes) ≠ [];
  zf_min : match zk.(zk_system) with
    | Plonk => plonk_min_length
        <= 40 + N.of_nat (length zk.(zk_public_inputs)) * 32 + blen zk.(zk_proof_bytes)
    | Halo2 => 256
        <= 32 + N.of_nat (length zk.(zk_public_inputs)) * 32 + blen zk.(zk_proof_bytes)
    | Stark => stark_min_length
        <= 36 + N.of_nat (length zk.(zk_public_inputs)) * 32 + blen zk.(zk_proof_bytes)
    | Groth16 | Ezkl => True
    end;
}.

Lemma report_reports out gas v :
  (∀ b : bool, last (out b) = Some (if b then 1 else 0)) → reports v (report out gas v).
Proof. intros Hout. unfold report. destruct v; cbn;
  [eexists; split; [reflexivity|apply Hout]|eexists; split; [reflexivity|exact (Hout false)]|done..].
Qed.

Lemma last_flag (b : bool) : last (flag_output b) = Some (if b then 1 else 0).
Proof. done. Qed.

Lemma unified_dispatch tag data verifier :
  detect_proof_system tag = Some verifier →
  unified_execute (tag :: data) (unified_gas_cost (tag :: data))
  = pc_execute verifier data (pc_gas_cost verifier data + ZKP_UNIFIED_OVERHEAD).
Proof.
  intros Hd. unfold unified_execute. rewrite charge_ok by lia. rewrite Hd.
  unfold unified_gas_cost. by rewrite Hd.
Qed.

Lemma encode_len_ok max width n reason bs :
  encode_len max width n reason = Ok bs → N.of_nat n <= max ∧ bs = to_le_bytes width (N.of_nat n).
Proof. unfold encode_len. case_bool_decide; [|done]. by intros [= <-]. Qed.

Lemma ok_inj {E A} (a b : A) : Ok (E:=E) a = Ok b → a = b.
Proof. congruence. Qed.

Lemma envelope_run zk job input :
  zk_fits zk job → encode_unified_zkp_input zk job = Ok input →
  reports (zk_verdict zk job) (unified_execute input (unified_gas_cost input)).
Proof.
  intros [Hvk Hm Hpi [Hne Hpf] Hmin] Henc. unfold encode_unified_zkp_input in Henc.
  pose proof (blen_concat _ Hpi) as Hlen. unfold zk_verdict, flatten_public_inputs in *.
  destruct zk as [sys proof inputs vk]; cbn [zk_system zk_proof_bytes zk_public_inputs zk_vk_hash] in *.
  destruct sys.
  - injection Henc as <-. cbn [app]. rewrite (unified_dispatch 1 _ _ eq_refl). cbn [pc_execute pc_gas_cost Groth16VerifyPrecompile].
    rewrite groth16_run; [by apply report_reports|apply blen_padded|apply blen_padded| |lia].
    rewrite Hlen. destruct inputs; [done|]. cbn [length]. lia.
  - ok_inv Henc. repeat match goal with He : encode_len _ _ _ _ = Ok _ |- _ =>
      apply encode_len_ok in He as [? ->] end. apply ok_inj in Henc as <-.
    rewrite (unified_dispatch 2 _ _ eq_refl). cbn [pc_execute pc_gas_cost PlonkVerifyPrecompile].
    change (N.of_nat (length proof)) with (blen proof).
    rewrite plonk_run with (n := N.of_nat (length inputs)); try done; try lia. by apply report_reports.
  - ok_inv Henc. repeat match goal with He : encode_len _ _ _ _ = Ok _ |- _ =>
      apply encode_len_ok in He as [? ->] end. apply ok_inj in Henc as <-.
    rewrite (unified_dispatch 5 _ _ eq_refl). cbn [pc_execute pc_gas_cost StarkVerifyPrecompile].
    rewrite stark_run with (n := N.of_nat (length inputs)); try done; try lia. by apply report_reports.
  - ok_inv Henc. repeat match goal with He : encode_len _ _ _ _ = Ok _ |- _ =>
      apply encode_len_ok in He as [? ->] end. apply ok_inj in Henc as <-.
    rewrite (unified_dispatch 3 _ _ eq_refl). cbn [pc_execute pc_gas_cost EzklVerifyPrecompile].
    change (N.of_nat (length proof)) with (blen proof).
    change (1 :: 0 :: job_model_hash job ++ ?rest) with
      (ezkl_data (job_model_hash job) vk (N.of_nat (length inputs)) (concat inputs) proof).
    rewrite ezkl_run; try done; try lia. by apply report_reports.
  - injection Henc as <-. cbn [app]. rewrite (unified_dispatch 4 _ _ eq_refl).
    cbn [pc_execute pc_gas_cost Halo2VerifyPrecompile].
    rewrite halo2_run; [by apply report_reports| |lia].
    rewrite !blen_app, Hlen, (blen_nat vk 32) by done. lia.
Qed.
End unified.

(** ** Verdicts with and without the feature *)
Section verdicts.
Context `{Build, Crypto, Arkworks}.

(** The registry and the precompile agree on the envelope: whatever proof
    the registry encodes (with 32-byte public inputs and at least the
    precompile's minimal length), the unified precompile, called with the gas
    it asks for, decodes the verification key hash, the public inputs and the
    proof that were submitted, and the last byte of its output is the verdict of
    that proof system's verifier on exactly these (Groth16 reads them from the
    padded slots of its fixed layout). *)
Lemma zkp_envelope_exact zk job input :
  zk_fits zk job → encode_unified_zkp_input zk job = Ok input →
  reports (zk_verdict zk job)
    (pc_execute UnifiedZkpVerifyPrecompile input (pc_gas_cost UnifiedZkpVerifyPrecompile input)).
Proof. apply envelope_run. Qed.

(** Without the feature every run that completes reports an invalid proof. *)
Definition rejects (r : outcome PrecompileError ExecutionResult) : Prop :=
  ∀ res, r = Ok res → last res.(er_output) = Some 0.

Lemma rejects_charge gas limit k : rejects k → rejects (charge gas limit k).
Proof. intros Hk. unfold charge. by case_bool_decide. Qed.
Lemma rejects_require n input k : rejects k → rejects (require_length n input k).
Proof. intros Hk. unfold require_length. by case_bool_decide. Qed.
Lemma rejects_bind {A} (o : outcome PrecompileError A) k : (∀ a, rejects (k a)) → rejects (o ≫= k).
Proof. intros Hk. destruct o; cbn; [apply Hk|done..]. Qed.
Lemma rejects_report out gas v :
  (∀ b, v ≠ Ok b) → last (out false) = Some 0 → rejects (report out gas v).
Proof. intros Hv Ho res. destruct v as [b| | |]; cbn; try done; [by destruct (Hv b)|]. by intros [= <-]. Qed.

Lemma subverifiers_reject tag verifier data limit :
  feature_zkp = false → detect_proof_system tag = Some verifier →
  rejects (pc_execute verifier data limit).
Proof.
  intros Hf Hd.
  assert (verifier = Groth16VerifyPrecompile Bn254 ∨ verifier = PlonkVerifyPrecompile
    ∨ verifier = EzklVerifyPrecompile ∨ verifier = Halo2VerifyPrecompile
    ∨ verifier = StarkVerifyPrecompile) as Hv.
  { unfold detect_proof_system in Hd. repeat case_match; simplify_eq; tauto. }
  destruct Hv as [->|[->|[->|[->| ->]]]]; cbn [pc_execute Groth16VerifyPrecompile
    PlonkVerifyPrecompile EzklVerifyPrecompile Halo2VerifyPrecompile StarkVerifyPrecompile].
  - apply rejects_charge, rejects_require. do 3 (apply rejects_bind; intros).
    apply rejects_report; [|done]. intros. unfold verify_groth16_proof. by rewrite Hf.
  - apply rejects_charge, rejects_require. do 3 (apply rejects_bind; intros).
    apply rejects_require. do 2 (apply rejects_bind; intros).
    apply rejects_report; [|done]. intros. unfold verify_plonk_proof. by rewrite Hf.
  - apply rejects_charge, rejects_bind. intros header.
    destruct (negb _); [done|]. apply rejects_require. do 2 (apply rejects_bind; intros).
    apply (rejects_report (λ v, ezkl_output v header)); [|done].
    intros. unfold verify_ezkl_proof. by rewrite Hf.
  - apply rejects_charge, rejects_require, rejects_report; [|done].
    intros. unfold verify_halo2_proof. by rewrite Hf.
  - apply rejects_charge, rejects_require. do 2 (apply rejects_bind; intros).
    apply rejects_require. do 2 (apply rejects_bind; intros).
    case_bool_decide; [done|]. apply rejects_report; [|done].
    intros. unfold verify_stark_proof. by rewrite Hf.
Qed.

Lemma unified_rejects input limit :
  feature_zkp = false → rejects (unified_execute input limit).
Proof.
  intros Hf. destruct input as [|tag data]; [done|]. apply rejects_charge.
  destruct (detect_proof_system tag) as [v|] eqn:Hd; [|done]. by eapply subverifiers_reject.
Qed.

(** The zk path fails closed.  On a node built without the [zkp] feature
    and configured to require cryptographic verification (or in enterprise zkML
    mode), no proof of any system is accepted, however it is made: no job whose
    method needs a zk proof is ever settled. *)
Lemma zk_fails_closed params ctx s :
  feature_zkp = false → unified_zkp_verify = UnifiedZkpVerifyPrecompile →
  zk_binding s.(ps_registry) = true →
  params.(sp_proof).(pf_method) = ZkProofMethod ∨ params.(sp_proof).(pf_method) = Hybrid →
  is_ok (submit_proof params ctx s).1 = false.
Proof.
  intros Hf Hu Hb Hm. destruct (submit_proof params ctx s) as [[res| | |] s'] eqn:Hrun; try done.
  apply submit_proof_ok in Hrun as (job & r1 & _ & _ & _ & _ & _ & _ & _ & _ & Hv & _).
  apply verify_proof_ok in Hv. unfold proof_checked in Hv.
  assert (∃ zk, zk_checked (ps_registry s) zk job) as (zk & Hzk)
    by (destruct Hm as [Hm|Hm]; rewrite Hm in Hv;
        [destruct Hv as (zk & _ & ?)|destruct Hv as (att & zk & _ & _ & _ & ?)]; by exists zk).
  destruct (zc_precompile _ _ _ Hzk Hb) as (input & r & _ & Hex & Hlast).
  rewrite Hu in Hex. apply (unified_rejects _ _ Hf) in Hex. congruence.
Qed.

(** With the [zkp] feature, four of the five proof systems accept any
    bytes.  For PLONK, EZKL, Halo2 and STARK the registry's check succeeds for
    every proof string of sufficient length with the job's two hashes as public
    inputs, whatever the string contains: nothing is verified. *)
Lemma forged_zk_proof_accepted r zk job rest input :
  feature_zkp = true → unified_zkp_verify = UnifiedZkpVerifyPrecompile →
  r.(jr_enterprise_zkml_config).(ent_enabled) = false →
  zk.(zk_system) ≠ Groth16 →
  zk.(zk_public_inputs) = job.(job_model_hash) :: job.(job_input_hash) :: rest →
  zk.(zk_vk_hash) ≠ bytes32 0 → (128 <= length zk.(zk_proof_bytes))%nat →
  zk_fits zk job → encode_unified_zkp_input zk job = Ok input →
  verify_zk_proof r zk job = Ok true.
Proof.
  intros Hf Hu He Hsys Hpi Hvk Hlen Hfit Henc.
  assert (zk_verdict zk job = Ok true) as Hver.
  { unfold zk_verdict, verify_plonk_proof, verify_ezkl_proof, verify_halo2_proof,
      verify_stark_proof. rewrite Hf. destruct (zf_nonempty _ _ Hfit) as [_ Hne].
    destruct (zk_system zk); try done; by rewrite bool_decide_false. }
  pose proof (envelope_run zk job input Hfit Henc) as Hrep. rewrite Hver in Hrep.
  destruct Hrep as (res & Hex & Hlast).
  unfold verify_zk_proof. rewrite He, Hpi. cbn [length lookup list_lookup].
  rewrite (bool_decide_false (zk_proof_bytes zk = [])) by (intros Hz; rewrite Hz in Hlen; cbn in Hlen; lia).
  rewrite (bool_decide_false (S (S (length rest)) < 2)%nat) by lia.
  rewrite !(bool_decide_true (Some _ = Some _)) by done.
  rewrite (bool_decide_false (zk_vk_hash zk = _)) by done.
  rewrite (bool_decide_false (_ < 128)%nat) by lia.
  cbn [negb andb zk_ensure mbind outcome_bind].
  unfold verify_zk_proof_via_precompile. rewrite Henc, Hu.
  cbn [mbind outcome_bind pc_execute pc_gas_cost UnifiedZkpVerifyPrecompile].
  rewrite Hex. cbn [mbind outcome_bind]. rewrite Hlast, bool_decide_true by done.
  by rewrite !andb_false_r.
Qed.
End verdicts.
