(* ===== verification/ZkpBatch.v ===== *)
(** * Batches of Groth16 proofs

    The documented layout of a batch as an encoder, and the proof that the
    precompile's offset arithmetic reads every entry back: the batch is accepted
    exactly when each of its proofs is, at the documented price. *)
From S2P Require Import Prelude SysTypes F64 Precompile Bank BankSpec Staking JobRegistry Samples JobSpec Zkp ZkpSpec.
From stdpp Require Import base gmap list strings pretty.
From Stdlib Require Import ZArith Lia.
#[local] Open Scope N_scope.
#[local] Arguments to_le_bytes : simpl never.

Record batch_entry := { be_vk : bytes; be_proof : bytes; be_inputs : list Hash }.

Definition entry_inputs (e : batch_entry) : N := N.of_nat (length e.(be_inputs)).

Definition entry_sizes (e : batch_entry) : bytes :=
  to_le_bytes 4 (blen e.(be_vk)) ++ to_le_bytes 4 (blen e.(be_proof))
  ++ to_le_bytes 4 (entry_inputs e).

Definition encode_entry (e : batch_entry) : bytes :=
  entry_sizes e ++ e.(be_vk) ++ e.(be_proof) ++ concat e.(be_inputs).

Definition encode_batch (es : list batch_entry) : bytes :=
  to_le_bytes 4 (N.of_nat (length es)) ++ concat (encode_entry <$> es).

(** The sizes fit their 32-bit fields and public inputs are 32 bytes. *)
Record entry_fits (e : batch_entry) : Prop := {
  ef_vk : blen e.(be_vk) <= U32_MAX;
  ef_proof : blen e.(be_proof) <= U32_MAX;
  ef_count : entry_inputs e <= U32_MAX;
  ef_inputs : Forall (λ h, length h = 32%nat) e.(be_inputs);
}.

Definition total_inputs (es : list batch_entry) : N := foldr (λ e n, entry_inputs e + n) 0 es.

(** Where an entry sits, and the lengths of its parts. *)
Lemma blen_sizes e : blen (entry_sizes e) = 12.
Proof. unfold entry_sizes. by blen_eq. Qed.

Definition entry_length (e : batch_entry) : N :=
  blen e.(be_vk) + blen e.(be_proof) + entry_inputs e * 32.

Lemma blen_entry e : entry_fits e → blen (encode_entry e) = 12 + entry_length e.
Proof.
  intros [? ? ? Hi]. unfold encode_entry, entry_length, entry_inputs. rewrite !blen_app, blen_sizes.
  rewrite (blen_concat _ Hi). lia.
Qed.

Section entry.
Context (pre post : bytes) (e : batch_entry) (input : bytes).
Context (Hin : input = pre ++ encode_entry e ++ post) (He : entry_fits e).

Lemma entry_room : blen pre + 12 + entry_length e <= blen input.
Proof. rewrite Hin, !blen_app, (blen_entry e He). lia. Qed.

Lemma entry_header_read {E} :
  entry_header (E:=E) (blen pre) input = Ok (blen e.(be_vk), blen e.(be_proof), entry_inputs e).
Proof.
  destruct He. unfold encode_entry, entry_sizes in Hin. unfold entry_header.
  set (rest := be_vk e ++ be_proof e ++ concat (be_inputs e) ++ post).
  set (vk := to_le_bytes 4 (blen (be_vk e))). set (pf := to_le_bytes 4 (blen (be_proof e))).
  set (n := to_le_bytes 4 (entry_inputs e)).
  rewrite (le_u32_mid pre (blen (be_vk e)) (pf ++ n ++ rest) (blen pre)),
    (le_u32_mid (pre ++ vk) (blen (be_proof e)) (n ++ rest) (blen pre + 4)),
    (le_u32_mid (pre ++ vk ++ pf) (entry_inputs e) rest (blen pre + 8))
    by solve [lia | rewrite Hin; unfold rest; app_eq | unfold vk, pf; blen_eq; lia]. done.
Qed.

Lemma entry_vk_read {E} :
  slice (E:=E) (blen pre + 12) (blen pre + 12 + blen e.(be_vk)) input = Ok e.(be_vk).
Proof.
  apply (slice_mid (pre ++ entry_sizes e) (be_vk e) (be_proof e ++ concat (be_inputs e) ++ post));
    [rewrite Hin; unfold encode_entry; app_eq|by rewrite blen_app, blen_sizes|done].
Qed.

Lemma entry_proof_read {E} :
  slice (E:=E) (blen pre + 12 + blen e.(be_vk)) (blen pre + 12 + blen e.(be_vk) + blen e.(be_proof))
    input = Ok e.(be_proof).
Proof.
  apply (slice_mid (pre ++ entry_sizes e ++ be_vk e) (be_proof e) (concat (be_inputs e) ++ post));
    [rewrite Hin; unfold encode_entry; app_eq|rewrite !blen_app, blen_sizes; lia|done].
Qed.

Lemma entry_inputs_read {E} :
  slice (E:=E) (blen pre + 12 + blen e.(be_vk) + blen e.(be_proof)) (blen pre + 12 + entry_length e)
    input = Ok (concat e.(be_inputs)).
Proof.
  apply (slice_mid (pre ++ entry_sizes e ++ be_vk e ++ be_proof e) (concat (be_inputs e)) post);
    [rewrite Hin; unfold encode_entry; app_eq|rewrite !blen_app, blen_sizes; lia|].
  rewrite (blen_concat _ (ef_inputs _ He)). unfold entry_length, entry_inputs. lia.
Qed.
End entry.

Lemma returns_map_err {A} prefix (o : outcome string A) : returns o → returns (map_err prefix o).
Proof. by destruct o. Qed.
Section batch.
Context `{Build, Arkworks}.

(** The library's functions return a [Result]. *)
Record ark_returns : Prop := {
  ar_vk : ∀ bs, returns (ark_vk_deserialize bs);
  ar_proof : ∀ bs, returns (ark_proof_deserialize bs);
  ar_fr : ∀ bs, returns (ark_fr_deserialize bs);
  ar_verify : ∀ pvk proof inputs, returns (ark_verify pvk proof inputs);
}.

Lemma groth16_inputs_returns n i bs :
  ark_returns → (i + N.of_nat n) * 32 <= blen bs → returns (groth16_inputs i n bs).
Proof.
  intros Hark. revert i. induction n as [|n IH]; intros i Hlen; cbn [groth16_inputs]; [done|].
  apply returns_bind; [apply slice_returns; lia|]. intros chunk.
  apply returns_bind; [apply returns_map_err, Hark|]. intros fr.
  apply returns_bind; [apply IH; lia|done].
Qed.

Lemma verify_groth16_returns vk proof pi : ark_returns → returns (verify_groth16_proof vk proof pi).
Proof.
  intros Hark. unfold verify_groth16_proof. destruct feature_zkp; [|done].
  apply returns_bind; [apply returns_map_err, Hark|]. intros ?.
  apply returns_bind; [apply returns_map_err, Hark|]. intros ?.
  apply returns_bind; [|intros; apply returns_map_err, Hark].
  apply groth16_inputs_returns; [done|]. unfold blen.
  pose proof (Nat.Div0.mul_div_le (length pi) 32). lia.
Qed.

(** The verdict on one entry. *)
Definition entry_valid (e : batch_entry) : bool :=
  match verify_groth16_proof e.(be_vk) e.(be_proof) (concat e.(be_inputs)) with
  | Ok b => b
  | _ => false
  end.

Lemma or_invalid_entry e :
  ark_returns →
  or_invalid (verify_groth16_proof e.(be_vk) e.(be_proof) (concat e.(be_inputs)))
  = Ok (entry_valid e).
Proof.
  intros Hark. unfold entry_valid.
  pose proof (verify_groth16_returns (be_vk e) (be_proof e) (concat (be_inputs e)) Hark) as Hr.
  by destruct (verify_groth16_proof _ _ _).
Qed.

Lemma batch_entries_run es i pre tail input :
  ark_returns → Forall entry_fits es →
  input = pre ++ concat (encode_entry <$> es) ++ tail →
  batch_entries (length es) i (blen pre) input = Ok (forallb entry_valid es).
Proof.
  intros Hark Hes. revert i pre. induction Hes as [|e es He _ IH]; intros i pre Hin;
    cbn [length batch_entries forallb]; [done|].
  cbn [fmap list_fmap concat] in Hin. rewrite <- app_assoc in Hin.
  pose proof (entry_room _ _ _ _ Hin He) as Hroom.
  rewrite bool_decide_false by lia.
  rewrite (entry_header_read _ _ _ _ Hin He). cbn [mbind outcome_bind].
  fold (entry_length e). rewrite bool_decide_false by lia.
  rewrite (entry_vk_read _ _ _ _ Hin). cbn [mbind outcome_bind].
  rewrite (entry_proof_read _ _ _ _ Hin). cbn [mbind outcome_bind].
  rewrite (entry_inputs_read _ _ _ _ Hin He). cbn [mbind outcome_bind].
  rewrite or_invalid_entry by done. cbn [mbind outcome_bind].
  destruct (entry_valid e); [|done]. cbn [andb].
  rewrite <- (IH (i + 1) (pre ++ encode_entry e)); [|rewrite Hin; app_eq].
  by rewrite blen_app, (blen_entry e He), N.add_assoc.
Qed.

Lemma count_inputs_run es fuel pre tail input total :
  Forall entry_fits es → (length es < fuel)%nat →
  input = pre ++ concat (encode_entry <$> es) ++ tail →
  count_inputs fuel (N.of_nat (length es)) (blen pre) total input = total + total_inputs es.
Proof.
  intros Hes. revert fuel pre total.
  induction Hes as [|e es He _ IH]; intros [|fuel] pre total Hf Hin; cbn [length] in *; try lia.
  - cbn [count_inputs]. rewrite bool_decide_true by done. cbn [total_inputs foldr]. lia.
  - cbn [fmap list_fmap concat] in Hin. rewrite <- app_assoc in Hin.
    pose proof (entry_room _ _ _ _ Hin He) as Hroom. cbn [count_inputs].
    rewrite !bool_decide_false by lia. rewrite (entry_header_read _ _ _ _ Hin He).
    replace (N.of_nat (S (length es)) - 1) with (N.of_nat (length es)) by lia.
    replace (blen pre + _) with (blen (pre ++ encode_entry e))
      by (rewrite blen_app, (blen_entry e He); unfold entry_length; lia).
    rewrite IH; [cbn [total_inputs foldr]; fold (total_inputs es); lia|lia|rewrite Hin; app_eq].
Qed.

(** Entries are at least twelve bytes, so that the input's length is enough
    fuel for the gas loop. *)
Lemma blen_entries es :
  Forall entry_fits es → N.of_nat (length es) <= blen (concat (encode_entry <$> es)).
Proof.
  induction 1 as [|e es He _ IH]; cbn [length fmap list_fmap concat]; [done|].
  rewrite blen_app, (blen_entry e He). unfold entry_length. lia.
Qed.

Definition batch_price (es : list batch_entry) : N :=
  BATCH_GROTH16_BASE + N.of_nat (length es) * BATCH_GROTH16_PER_PROOF
  + total_inputs es * BATCH_GROTH16_PER_PUBLIC_INPUT.

Lemma parse_num_proofs_run es tail :
  N.of_nat (length es) <= U32_MAX →
  parse_num_proofs (encode_batch es ++ tail) = Some (N.of_nat (length es)).
Proof.
  intros Hn. unfold parse_num_proofs, encode_batch.
  rewrite bool_decide_false by (rewrite !blen_app, blen_le; lia).
  rewrite <- app_assoc, take_app_le, take_ge by (rewrite length_to_le_bytes; lia).
  rewrite of_to_le_bytes; [done|]. cbn. lia.
Qed.

Lemma batch_gas es tail :
  Forall entry_fits es → es ≠ [] → N.of_nat (length es) <= U32_MAX →
  batch_gas_cost (encode_batch es ++ tail) = batch_price es.
Proof.
  intros Hes Hne Hn. unfold batch_gas_cost, count_total_public_inputs.
  rewrite parse_num_proofs_run by done. unfold batch_price.
  rewrite <- (N.add_0_l (total_inputs es)).
  rewrite <- (count_inputs_run es (S (length (encode_batch es ++ tail)))
    (to_le_bytes 4 (N.of_nat (length es))) tail (encode_batch es ++ tail) 0 Hes).
  - rewrite blen_le. rewrite bool_decide_false by (destruct es; [done|cbn [length]; lia]). done.
  - pose proof (blen_entries es Hes) as Hl. unfold encode_batch, blen in *.
    rewrite !length_app. lia.
  - unfold encode_batch. app_eq.
Qed.

(** A batch in the documented layout, of 1 to 256 proofs, is read back
    entry by entry: whatever bytes follow it, the precompile called with the
    documented price (100,000 gas, 80,000 per proof and 12,000 per public input)
    returns the flag 1 when every proof of the batch verifies and 0 otherwise,
    charges exactly that price, and never panics on an offset. *)
Lemma batch_verdict es tail :
  ark_returns → Forall entry_fits es → (1 <= length es <= 256)%nat →
  pc_execute BatchGroth16VerifyPrecompile (encode_batch es ++ tail) (batch_price es)
  = Ok (ExecutionResult_success (flag_output (forallb entry_valid es)) (batch_price es)).
Proof.
  intros Hark Hes Hn. cbn [pc_execute BatchGroth16VerifyPrecompile]. unfold batch_execute.
  assert (es ≠ []) as Hne by (intros ->; cbn in Hn; lia).
  rewrite batch_gas by (done || lia). rewrite charge_ok by done.
  rewrite require_ok by (unfold encode_batch; rewrite !blen_app, blen_le; lia).
  rewrite parse_num_proofs_run by lia. cbn [from_option id].
  rewrite 2!bool_decide_false by (cbn; lia). rewrite Nat2N.id.
  pose proof (batch_entries_run es 0 (to_le_bytes 4 (N.of_nat (length es))) tail
    (encode_batch es ++ tail) Hark Hes) as Hrun.
  rewrite blen_le in Hrun. change (N.of_nat 4) with 4 in Hrun. rewrite Hrun; [done|]. unfold encode_batch. app_eq.
Qed.
End batch.

(** ** Concrete runs

    An instance of the pairing library that accepts a proof when its bytes are
    those of its key, on a node with and without the feature, and a registry that
    calls the modelled precompile. *)
Definition toy_arkworks : Arkworks := {|
  ark_vk := bytes; ark_pvk := bytes; ark_proof := bytes; ark_fr := bytes;
  ark_vk_deserialize := λ bs, Ok bs; ark_proof_deserialize := λ bs, Ok bs;
  ark_fr_deserialize := λ bs, Ok bs; ark_prepare := λ vk, vk;
  ark_verify := λ vk proof _, Ok (bool_decide (vk = proof));
|}.

Definition zk_build (zkp : bool) : Build :=
  {| overflow_checks := true; feature_sgx := false; feature_zkp := zkp |}.

Definition zk_crypto (zkp : bool) : Crypto := {|
  sha256 := @sha256 dev_crypto;
  universal_tee_verify := @universal_tee_verify dev_crypto;
  unified_zkp_verify := UnifiedZkpVerifyPrecompile (H := zk_build zkp) (H0 := toy_arkworks);
|}.

Lemma toy_ark_returns : ark_returns (H0 := toy_arkworks).
Proof. split; intros; exact I. Qed.

(** A valid and an invalid proof. *)
Definition toy_entry (proof : N) : batch_entry :=
  {| be_vk := [7; 8]; be_proof := [7; proof]; be_inputs := [bytes32 1; bytes32 2] |}.

Lemma toy_entry_fits proof : entry_fits (toy_entry proof).
Proof. split; [by vm_compute..|]. repeat constructor. Qed.

Lemma batch_verdict_witness :
  pc_execute (BatchGroth16VerifyPrecompile (H := zk_build true) (H0 := toy_arkworks))
    (encode_batch [toy_entry 8; toy_entry 8] ++ []) 308000
  = Ok (ExecutionResult_success (flag_output true) 308000)
  ∧ pc_execute (BatchGroth16VerifyPrecompile (H := zk_build true) (H0 := toy_arkworks))
      (encode_batch [toy_entry 8; toy_entry 9] ++ [1; 2; 3]) 308000
    = Ok (ExecutionResult_success (flag_output false) 308000).
Proof.
  split; [apply (batch_verdict (H := zk_build true) (H0 := toy_arkworks) [toy_entry 8; toy_entry 8] [])
         |apply (batch_verdict (H := zk_build true) (H0 := toy_arkworks) [toy_entry 8; toy_entry 9]
                   [1; 2; 3])];
    try exact toy_ark_returns; repeat constructor; done || apply toy_entry_fits.
Defined.

(** The job and a forged Halo2 proof of the development network. *)
Definition toy_zk (sys : ZkSystem) : ZkProof :=
  {| zk_system := sys; zk_proof_bytes := replicate 400 7;
     zk_public_inputs := [bytes32 8; bytes32 9]; zk_vk_hash := bytes32 6 |}.

Lemma toy_zk_fits sys : zk_fits (toy_zk sys) (dev_job ZkProofMethod).
Proof.
  split; [reflexivity|reflexivity|repeat constructor|done|].
  destruct sys; vm_compute; done.
Qed.

Lemma zkp_envelope_exact_witness :
  match encode_unified_zkp_input (toy_zk Plonk) (dev_job ZkProofMethod) with
  | Ok input => reports (Ok true) (pc_execute
      (UnifiedZkpVerifyPrecompile (H := zk_build true) (H0 := toy_arkworks)) input
      (pc_gas_cost (UnifiedZkpVerifyPrecompile (H := zk_build true) (H0 := toy_arkworks)) input))
  | _ => False
  end.
Proof.
  destruct (encode_unified_zkp_input _ _) as [input| | |] eqn:He; [|vm_compute in He; discriminate..].
  exact (zkp_envelope_exact (H := zk_build true) (H1 := toy_arkworks) _ _ _ (toy_zk_fits Plonk) He).
Defined.

(** A job that needs a zk proof, assigned on a network that requires
    cryptographic verification. *)
Definition strict_state : ProofState :=
  dev_state (dev_assign (dev_submit ZkProofMethod (JobRegistry_new JobConfig_testnet, dev_bank))).

Lemma zk_fails_closed_witness :
  (job_status <$> (strict_state.(ps_registry).(jr_jobs) !! dev_job_id 0) = Some Assigned)
  ∧ is_ok (submit_proof (H := zk_build false) (H0 := zk_crypto false)
             (dev_proof_params ZkProofMethod) (dev_ctx 2) strict_state).1 = false.
Proof.
  split; [vm_compute; reflexivity|].
  apply (zk_fails_closed (H := zk_build false) (H0 := zk_crypto false) (H1 := toy_arkworks));
    [reflexivity|reflexivity|vm_compute; reflexivity|by left].
Defined.

Lemma forged_zk_proof_accepted_witness :
  verify_zk_proof (H := zk_build true) (H0 := zk_crypto true) (JobRegistry_new JobConfig_testnet)
    (toy_zk Stark) (dev_job ZkProofMethod) = Ok true.
Proof.
  destruct (encode_unified_zkp_input (toy_zk Stark) (dev_job ZkProofMethod)) as [input| | |] eqn:He;
    [|vm_compute in He; discriminate..].
  refine (forged_zk_proof_accepted (H := zk_build true) (H0 := zk_crypto true) (H1 := toy_arkworks)
    _ (toy_zk Stark) (dev_job ZkProofMethod) [] input _ _ _ _ _ _ _ (toy_zk_fits Stark) He);
    try done; vm_compute; repeat constructor; discriminate.
Defined.
