(* ===== verification/TokenomicsSpec.v ===== *)
(** * What the token economics promise

    Vesting follows a closed-form curve that is monotone and bounded by the
    grant; the manager's totals are the sums over its positions along every
    history; the burn rate stays in its configured range; a fee is split
    exactly; the emission schedule stops at half its pool. *)
From S2P Require Import Prelude SysTypes Tokenomics.
From stdpp Require Import base gmap list strings.
From Stdlib Require Import ZArith Lia.
#[local] Open Scope N_scope.

(** ** The vesting curve *)

(** What [n] periods emit when the first emits [e] and each later one half of
    the one before. *)
Fixpoint periods_sum (e : N) (n : nat) : N :=
  match n with O => 0 | S n => e + periods_sum (e / 2) n end.

Definition emission_spec (pool elapsed interval duration : N) : N :=
  if bool_decide (duration <= elapsed) then pool
  else
    let full := elapsed / interval in
    periods_sum (pool / 4) (N.to_nat full)
    + (if bool_decide (full < 13) then
         pool / 4 / 2 ^ full * (elapsed mod interval) / interval
       else 0).

Definition linear_spec (total elapsed cliff duration tge : N) : N :=
  let unlocked := total * tge / 100 in
  if bool_decide (elapsed < cliff) then unlocked
  else if bool_decide (duration <= elapsed) then total
  else unlocked + (total - unlocked) * (elapsed - cliff) / (duration - cliff).

Definition vested_spec (s : VestingSchedule) (total start now : N) : N :=
  match s with
  | ImmediateVesting => total
  | LinearVesting cliff duration tge =>
      if bool_decide (now <= start) then total * tge / 100
      else linear_spec total (now - start) cliff duration tge
  | EmissionVesting interval duration =>
      if bool_decide (now <= start) then 0 else emission_spec total (now - start) interval duration
  | DaoControlled | StrategicVesting => 0
  end.

(** A schedule whose parameters keep the code's arithmetic inside 128 bits:
    percentages up to 100, durations up to the fifty years of the emission. *)
Definition schedule_ok (s : VestingSchedule) : Prop :=
  match s with
  | LinearVesting _ duration tge => tge <= 100 ∧ duration <= TOTAL_EMISSION_DURATION_SECS
  | EmissionVesting interval _ => 0 < interval ∧ interval <= TOTAL_EMISSION_DURATION_SECS
  | _ => True
  end.

(** The whole grant is vested. *)
Definition finished (s : VestingSchedule) (start now : N) : Prop :=
  match s with
  | ImmediateVesting => True
  | LinearVesting cliff duration _ => start < now ∧ start + cliff <= now ∧ start + duration <= now
  | EmissionVesting _ duration => start < now ∧ start + duration <= now
  | _ => False
  end.

Lemma category_schedule_ok c : schedule_ok (vesting_schedule c).
Proof. destruct c; cbn; vm_compute; split; discriminate. Qed.

Lemma periods_sum_le e n : periods_sum e n <= 2 * e.
Proof.
  revert e. induction n as [|n IH]; intros e; cbn; [lia|].
  specialize (IH (e / 2)). div_elim. lia.
Qed.

Lemma periods_sum_snoc e n : periods_sum e (S n) = periods_sum e n + e / 2 ^ N.of_nat n.
Proof.
  revert e. induction n as [|n IH]; intros e.
  - cbn. rewrite N.div_1_r. lia.
  - change (periods_sum e (S (S n))) with (e + periods_sum (e / 2) (S n)).
    rewrite IH. cbn [periods_sum]. rewrite N.Div0.div_div.
    by rewrite Nat2N.inj_succ, N.pow_succ_r', N.add_assoc.
Qed.

Lemma periods_sum_mono e n n' : (n <= n')%nat → periods_sum e n <= periods_sum e n'.
Proof.
  induction 1 as [|n' _ IH]; [lia|]. rewrite periods_sum_snoc. etrans; [exact IH|apply N.le_add_r].
Qed.

Lemma share_le range x y : x <= y → range * x / y <= range.
Proof.
  intros Hx. destruct (decide (y = 0)) as [->|Hy].
  { rewrite N.div_0_r. lia. }
  transitivity (range * y / y).
  - apply N.Div0.div_le_mono. by apply N.mul_le_mono_l.
  - rewrite N.div_mul by done. lia.
Qed.

(** Before its last second the emission is at most half of the pool. *)
Lemma emission_spec_half pool elapsed interval duration :
  interval ≠ 0 → elapsed < duration → 2 * emission_spec pool elapsed interval duration <= pool.
Proof.
  intros Hi He. unfold emission_spec. rewrite bool_decide_false by lia.
  set (full := elapsed / interval).
  transitivity (2 * periods_sum (pool / 4) (S (N.to_nat full))).
  - rewrite periods_sum_snoc, N2Nat.id.
    pose proof (share_le (pool / 4 / 2 ^ full) (elapsed mod interval) interval) as Hs.
    pose proof (N.mod_lt elapsed interval Hi).
    specialize (Hs ltac:(lia)). clearbody full. case_bool_decide; div_abstract; lia.
  - pose proof (periods_sum_le (pool / 4) (S (N.to_nat full))). div_elim_one pool 4. lia.
Qed.

Lemma emission_spec_le pool elapsed interval duration :
  interval ≠ 0 → emission_spec pool elapsed interval duration <= pool.
Proof.
  intros Hi. destruct (decide (elapsed < duration)) as [He|He].
  - pose proof (emission_spec_half pool elapsed interval duration Hi He). lia.
  - unfold emission_spec. by rewrite bool_decide_true by lia.
Qed.

Lemma emission_spec_mono pool e1 e2 interval duration :
  interval ≠ 0 → e1 <= e2 →
  emission_spec pool e1 interval duration <= emission_spec pool e2 interval duration.
Proof.
  intros Hi He. destruct (decide (duration <= e2)) as [Hd|Hd].
  { unfold emission_spec at 2. rewrite (bool_decide_true (duration <= e2)) by done.
    by apply emission_spec_le. }
  unfold emission_spec.
  rewrite (bool_decide_false (duration <= e1)), (bool_decide_false (duration <= e2)) by lia.
  pose proof (N.Div0.div_le_mono e1 e2 interval He) as Hq.
  set (f1 := e1 / interval) in *. set (f2 := e2 / interval) in *.
  pose proof (N.mod_lt e1 interval Hi) as Hm1.
  destruct (decide (f1 = f2)) as [Heq|Hne].
  - rewrite <- Heq. apply N.add_le_mono_l. case_bool_decide; [|lia].
    apply N.Div0.div_le_mono, N.mul_le_mono_l.
    pose proof (N.div_mod e1 interval Hi) as Hd1. pose proof (N.div_mod e2 interval Hi) as Hd2.
    fold f1 in Hd1. fold f2 in Hd2. rewrite <- Heq in Hd2. lia.
  - transitivity (periods_sum (pool / 4) (N.to_nat f2)); [|lia].
    transitivity (periods_sum (pool / 4) (S (N.to_nat f1)));
      [|apply periods_sum_mono; lia].
    rewrite periods_sum_snoc, N2Nat.id. apply N.add_le_mono_l.
    case_bool_decide; [|apply N.le_0_l]. apply share_le. lia.
Qed.

Lemma tge_le total tge : tge <= 100 → total * tge / 100 <= total.
Proof. intros. apply share_le. lia. Qed.

Lemma linear_spec_range total elapsed cliff duration tge :
  tge <= 100 →
  total * tge / 100 <= linear_spec total elapsed cliff duration tge <= total.
Proof.
  intros Ht. pose proof (tge_le total tge Ht). unfold linear_spec.
  case_bool_decide; [lia|]. case_bool_decide; [lia|].
  pose proof (share_le (total - total * tge / 100) (elapsed - cliff) (duration - cliff) ltac:(lia)).
  div_abstract. lia.
Qed.

Lemma linear_spec_mono total e1 e2 cliff duration tge :
  tge <= 100 → e1 <= e2 →
  linear_spec total e1 cliff duration tge <= linear_spec total e2 cliff duration tge.
Proof.
  intros Ht He.
  pose proof (linear_spec_range total e1 cliff duration tge Ht) as H1.
  pose proof (linear_spec_range total e2 cliff duration tge Ht) as H2.
  unfold linear_spec in *.
  repeat case_bool_decide; try (div_abstract; lia).
  apply N.add_le_mono_l, N.Div0.div_le_mono, N.mul_le_mono_l. lia.
Qed.

Lemma vested_spec_le s total start now :
  schedule_ok s → vested_spec s total start now <= total.
Proof.
  destruct s as [|cliff duration tge|interval duration| |]; cbn; intros Hs; try lia.
  - case_bool_decide; [apply tge_le; tauto | apply linear_spec_range; tauto].
  - case_bool_decide; [lia|]. apply emission_spec_le. lia.
Qed.

Lemma vested_spec_mono s total start t1 t2 :
  schedule_ok s → t1 <= t2 → vested_spec s total start t1 <= vested_spec s total start t2.
Proof.
  destruct s as [|cliff duration tge|interval duration| |]; cbn; intros Hs Ht; try lia.
  - repeat case_bool_decide; try lia.
    + apply linear_spec_range. tauto.
    + apply linear_spec_mono; [tauto|lia].
  - repeat case_bool_decide; try lia. apply emission_spec_mono; lia.
Qed.

Lemma vested_spec_finished s total start now :
  finished s start now → vested_spec s total start now = total.
Proof.
  destruct s as [|cliff duration tge|interval duration| |]; cbn; intros Hf; try done.
  - rewrite bool_decide_false by lia. unfold linear_spec.
    rewrite bool_decide_false, bool_decide_true by lia. done.
  - rewrite bool_decide_false by lia. unfold emission_spec.
    by rewrite bool_decide_true by lia.
Qed.

Section curve.
Context `{Build}.

Lemma sum_periods_later {E} n period cur tot :
  0 < period → tot + periods_sum (cur / 2) n <= U128_MAX →
  sum_periods (E := E) n period cur tot = Ok (tot + periods_sum (cur / 2) n).
Proof.
  revert period cur tot. induction n as [|n IH]; intros period cur tot Hp Hb; cbn.
  { f_equal. lia. }
  cbn in Hb. rewrite bool_decide_true by done.
  set (half := cur / 2) in *. clearbody half.
  rewrite u_add_ok by lia. cbn. rewrite IH by lia. f_equal. lia.
Qed.

Lemma sum_periods_eq {E} n e :
  2 * e <= U128_MAX → sum_periods (E := E) n 0 e 0 = Ok (periods_sum e n).
Proof.
  intros Hb. destruct n as [|n]; [done|]. cbn.
  pose proof (periods_sum_le (e / 2) n). pose proof (div_bounds e 2 ltac:(lia)).
  rewrite (bool_decide_false (0 < 0)) by lia. rewrite u_add_ok by lia. cbn. rewrite sum_periods_later by lia. f_equal.
Qed.

Lemma calculate_emission_vested_eq {E} pool elapsed interval duration :
  pool <= TOTAL_GENESIS_SUPPLY → 0 < interval → interval <= TOTAL_EMISSION_DURATION_SECS →
  calculate_emission_vested (E := E) pool elapsed interval duration
    = Ok (emission_spec pool elapsed interval duration).
Proof.
  intros Hp Hi0 Hi. unfold calculate_emission_vested.
  pose proof (emission_spec_le pool elapsed interval duration ltac:(lia)) as Hle.
  unfold emission_spec in *. case_bool_decide; [done|].
  rewrite u_div_ok, u_rem_ok by lia. cbn.
  set (full := elapsed / interval) in *.
  pose proof (N.mod_lt elapsed interval ltac:(lia)) as Hm.
  pose proof (div_bounds pool 4 ltac:(lia)) as Hq.
  change TOTAL_GENESIS_SUPPLY with 10000000000000000000000000000 in Hp.
  change TOTAL_EMISSION_DURATION_SECS with 1576800000 in Hi.
  rewrite sum_periods_eq by lia. cbn. cbn in Hle.
  set (rest := elapsed mod interval) in *. set (e0 := pool / 4) in *.
  assert (e0 / 2 ^ full <= e0) as Hhalf.
  { apply N.Div0.div_le_upper_bound. pose proof (N.pow_nonzero 2 full ltac:(lia)). nia. }
  destruct (bool_decide (full < 13)) eqn:Hf.
  2:{ rewrite andb_false_r. cbn. f_equal. rewrite N.add_0_r in Hle. lia. }
  rewrite andb_true_r. destruct (bool_decide (0 < rest)) eqn:Hr; bool_facts.
  - assert ((if bool_decide (full = 0) then e0 else e0 / N.shiftl 1 full) = e0 / 2 ^ full) as ->.
    { case_bool_decide as Hz; [by rewrite Hz, N.pow_0_r, N.div_1_r|].
      by rewrite N.shiftl_mul_pow2, N.mul_1_l. }
    rewrite u_mul_ok by nia. cbn. rewrite u_div_ok by lia. cbn.
    set (partial := _ / interval) in *. clearbody partial.
    rewrite u_add_ok by lia. cbn. f_equal. lia.
  - assert (rest = 0) as Hz by lia. rewrite Hz, N.mul_0_r, N.Div0.div_0_l in *. cbn. f_equal. lia.
Qed.

Lemma vested_amount_eq {E} s total start now :
  schedule_ok s → total <= TOTAL_GENESIS_SUPPLY →
  vested_amount (E := E) s total start now = Ok (vested_spec s total start now).
Proof.
  intros Hs Ht. unfold vested_amount.
  assert (Htge : ∀ p, p <= 100 → total * p <= U128_MAX).
  { intros p Hp. change TOTAL_GENESIS_SUPPLY with 10000000000000000000000000000 in Ht. nia. }
  destruct s as [|cliff duration tge|interval duration| |]; cbn in *;
    case_bool_decide; try done.
  - destruct Hs. by rewrite u_mul_ok by auto.
  - destruct Hs as [Hp Hd]. pose proof (tge_le total tge Hp) as Hle.
    rewrite u_mul_ok by auto. cbn. rewrite u_sub_ok by done. cbn.
    pose proof (linear_spec_range total (now - start) cliff duration tge Hp) as Hr.
    unfold linear_spec in *. do 2 (case_bool_decide; [done|]).
    rewrite u_mul_ok; cbn.
    + rewrite u_div_ok by lia. cbn. rewrite u_add_ok; [done|].
      change TOTAL_GENESIS_SUPPLY with 10000000000000000000000000000 in Ht. div_abstract. lia.
    + change TOTAL_GENESIS_SUPPLY with 10000000000000000000000000000 in Ht.
      change TOTAL_EMISSION_DURATION_SECS with 1576800000 in Hd.
      transitivity (10000000000000000000000000000 * 1576800000); [|done].
      apply N.mul_le_mono; div_abstract; lia.
  - destruct Hs. by apply calculate_emission_vested_eq.
Qed.
End curve.

Section schedules.
Context `{Build}.

(** The vesting curve.  For every schedule whose percentages and durations
    are in range, every grant up to the total supply and any two times in order,
    the code computes both vested amounts in every build profile, the later is
    at least the earlier, neither exceeds the grant, and once the schedule's
    duration has passed the whole grant is vested.  The nine categories'
    schedules are all in range. *)
Lemma vesting_curve s total start t1 t2 :
  schedule_ok s → total <= TOTAL_GENESIS_SUPPLY → t1 <= t2 →
  (∃ v1 v2, vested_amount (E := SystemContractError) s total start t1 = Ok v1
     ∧ vested_amount (E := SystemContractError) s total start t2 = Ok v2
     ∧ v1 <= v2 ∧ v2 <= total ∧ (finished s start t2 → v2 = total))
  ∧ ∀ c, schedule_ok (vesting_schedule c) ∧ total_allocation c <= TOTAL_GENESIS_SUPPLY.
Proof.
  intros Hs Ht Hle. split.
  - exists (vested_spec s total start t1), (vested_spec s total start t2).
    rewrite !vested_amount_eq by done. split_and!; try done.
    + by apply vested_spec_mono.
    + by apply vested_spec_le.
    + apply vested_spec_finished.
  - intros c. split; [apply category_schedule_ok | destruct c; vm_compute; discriminate].
Qed.

(** ** Mining emission *)
Definition calculator_ok (c : EmissionCalculator) : Prop :=
  c.(ec_total_pool) <= TOTAL_GENESIS_SUPPLY ∧ 0 < c.(ec_halving_interval_secs)
  ∧ c.(ec_halving_interval_secs) <= TOTAL_EMISSION_DURATION_SECS.

Lemma total_emissions_at_eq {E} c t :
  calculator_ok c →
  total_emissions_at (E := E) c t
    = Ok (vested_spec (EmissionVesting c.(ec_halving_interval_secs) c.(ec_total_duration_secs))
            c.(ec_total_pool) c.(ec_genesis_time) t).
Proof.
  intros (Hp & Hi0 & Hi). unfold total_emissions_at.
  case_bool_decide; [|by apply vested_amount_eq].
  cbn. by rewrite bool_decide_true.
Qed.

(** The emission schedule never reaches its pool gradually.  For every
    calculator in range, at every time before the end of the emission the total
    emitted is at most half of the pool (the halving series of a first period
    of a quarter of the pool sums to a half), and the update that first runs
    after the end mints the other half, or more, at once. *)
Lemma emission_half_then_all c t1 t2 :
  calculator_ok c → t1 < c.(ec_genesis_time) + c.(ec_total_duration_secs) →
  c.(ec_genesis_time) + c.(ec_total_duration_secs) <= t2 → c.(ec_genesis_time) < t2 →
  ∃ v c' last c'',
    calculator_update t1 c = (Ok v, c') ∧ 2 * c'.(ec_total_emitted) <= c.(ec_total_pool)
    ∧ calculator_update t2 c' = (Ok last, c'') ∧ c''.(ec_total_emitted) = c.(ec_total_pool)
    ∧ c.(ec_total_pool) <= 2 * last.
Proof.
  intros Hc Ht1 Ht2 Hg. pose proof Hc as (Hp & Hi0 & Hi).
  set (s := EmissionVesting c.(ec_halving_interval_secs) c.(ec_total_duration_secs)).
  set (spec := vested_spec s c.(ec_total_pool) c.(ec_genesis_time)).
  assert (2 * spec t1 <= c.(ec_total_pool)) as Hhalf.
  { unfold spec, s. cbn. case_bool_decide; [lia|]. apply emission_spec_half; lia. }
  assert (spec t2 = c.(ec_total_pool)) as Hfull.
  { apply vested_spec_finished. cbn. lia. }
  do 4 eexists. unfold calculator_update at 1. mrun.
  rewrite total_emissions_at_eq by done. cbn. fold s. fold spec.
  split; [reflexivity|]. split; [exact Hhalf|].
  unfold calculator_update. mrun. rewrite total_emissions_at_eq by done. cbn. fold s. fold spec.
  rewrite Hfull. split; [reflexivity|]. split; [done|]. unfold sat_sub. lia.
Qed.
End schedules.

Abbreviation debug_build :=
  {| overflow_checks := true; feature_sgx := false; feature_zkp := false |}.

Lemma vesting_curve_witness :
  let build := debug_build in
  ∃ v1 v2,
    vested_amount (E := SystemContractError) (vesting_schedule PublicSales) PUBLIC_SALES_POOL 0 1
      = Ok v1
    ∧ vested_amount (E := SystemContractError) (vesting_schedule PublicSales) PUBLIC_SALES_POOL 0
        (2 * SECONDS_PER_YEAR) = Ok v2
    ∧ v1 <= v2 ∧ v2 = PUBLIC_SALES_POOL.
Proof.
  destruct (vesting_curve (H := debug_build) (vesting_schedule PublicSales) PUBLIC_SALES_POOL 0 1
    (2 * SECONDS_PER_YEAR)) as [(v1 & v2 & H1 & H2 & Hle & _ & Hf) _];
    [apply category_schedule_ok|vm_compute; discriminate..|].
  exists v1, v2. split_and!; [done..|]. apply Hf. vm_compute. repeat split; discriminate.
Defined.

Lemma emission_half_then_all_witness :
  let build := debug_build in
  let c := EmissionCalculator_default_with_genesis 0 in
  ∃ v c' last c'',
    calculator_update (TOTAL_EMISSION_DURATION_SECS - 1) c = (Ok v, c')
    ∧ 2 * c'.(ec_total_emitted) <= COMPUTE_POUW_POOL
    ∧ calculator_update TOTAL_EMISSION_DURATION_SECS c' = (Ok last, c'')
    ∧ c''.(ec_total_emitted) = COMPUTE_POUW_POOL ∧ COMPUTE_POUW_POOL <= 2 * last.
Proof.
  apply (emission_half_then_all (H := debug_build)
    (EmissionCalculator_default_with_genesis 0)
    (TOTAL_EMISSION_DURATION_SECS - 1) TOTAL_EMISSION_DURATION_SECS);
    [split_and!; vm_compute; (reflexivity || discriminate)|vm_compute; (reflexivity || discriminate)..].
Defined.

(** ** The burn engine *)
Lemma sat_pow_mono n x y a b : x <= y → a <= b → sat_pow n x a <= sat_pow n y b.
Proof.
  revert a b. induction n as [|n IH]; intros a b Hx Ha; cbn; [done|].
  apply IH; [done|]. unfold sat_mul. apply N.min_le_compat_l. by apply N.mul_le_mono.
Qed.

Lemma sat_pow_max n x a : a <= U64_MAX → sat_pow n x a <= U64_MAX.
Proof.
  revert a. induction n as [|n IH]; intros a Ha; cbn; [done|].
  apply IH. unfold sat_mul. apply N.le_min_l.
Qed.

Lemma sat_pow_pos n x a : 0 < x → 0 < a → 0 < sat_pow n x a.
Proof.
  revert a. induction n as [|n IH]; intros a Hx Ha; cbn; [done|].
  apply IH; [done|]. unfold sat_mul. assert (0 < a * x) by (by apply N.mul_pos_pos). lia.
Qed.

Lemma sat_pow_exact n x a :
  0 < x → a * x ^ N.of_nat n <= U64_MAX → sat_pow n x a = a * x ^ N.of_nat n.
Proof.
  revert a. induction n as [|n IH]; intros a Hx Hle; [cbn; lia|].
  rewrite Nat2N.inj_succ, N.pow_succ_r' in *. cbn.
  assert (a * x <= U64_MAX) as Hax.
  { transitivity (a * (x * x ^ N.of_nat n)); [|done].
    assert (x ^ N.of_nat n ≠ 0) by (apply N.pow_nonzero; lia). nia. }
  unfold sat_mul. rewrite N.min_r by done. rewrite IH; [lia|done|lia].
Qed.

Definition burn_config_ok (c : BurnConfig) : Prop :=
  c.(bcf_min_burn_rate_bps) <= c.(bcf_max_burn_rate_bps) ∧ c.(bcf_max_burn_rate_bps) <= U16_MAX.

(** The rate in closed form. *)
Definition tok_rate_spec (c : BurnConfig) (fullness : N) : N :=
  let n := N.to_nat c.(bcf_curve_exponent) in
  c.(bcf_min_burn_rate_bps)
  + (c.(bcf_max_burn_rate_bps) - c.(bcf_min_burn_rate_bps)) * sat_pow n fullness 1
      / sat_pow n 10000 1.

Lemma tok_rate_spec_range c fullness :
  burn_config_ok c → fullness <= 10000 →
  c.(bcf_min_burn_rate_bps) <= tok_rate_spec c fullness <= c.(bcf_max_burn_rate_bps).
Proof.
  intros [Hmin Hmax] Hf. unfold tok_rate_spec.
  pose proof (sat_pow_mono (N.to_nat c.(bcf_curve_exponent)) fullness 10000 1 1 Hf ltac:(lia)).
  pose proof (share_le (c.(bcf_max_burn_rate_bps) - c.(bcf_min_burn_rate_bps)) _ _ H).
  div_abstract. lia.
Qed.

Lemma tok_calculate_burn_rate_eq `{Build} {E} c fullness :
  burn_config_ok c → fullness <= 10000 →
  tok_calculate_burn_rate (E := E) c fullness = Ok (tok_rate_spec c fullness).
Proof.
  intros Hc Hf. pose proof (tok_rate_spec_range c fullness Hc Hf) as Hr.
  destruct Hc as [Hmin Hmax]. unfold tok_calculate_burn_rate, tok_rate_spec in *.
  rewrite u_sub_ok by done. cbn.
  set (n := N.to_nat _) in *.
  pose proof (sat_pow_max n fullness 1 ltac:(lia)) as Hn.
  pose proof (sat_pow_pos n 10000 1 ltac:(lia) ltac:(lia)).
  rewrite u_mul_ok by nia. cbn. rewrite u_div_ok by lia. cbn.
  div_abstract. unfold cast. rewrite N.mod_small by lia. rewrite u_add_ok by lia. done.
Qed.

(** The adaptive burn rate.  For every burn configuration whose minimum is at
    most its maximum, whatever its exponent, and every two block fullnesses in
    order up to 100%, the rate is computed without panicking, lies between the
    configured minimum and maximum and grows with the fullness; a full block burns
    at the maximum, an empty one at the minimum, and an exponent of at most four
    is applied exactly. *)
Lemma burn_rate_curve `{Build} c f1 f2 :
  burn_config_ok c → f1 <= f2 → f2 <= 10000 →
  ∃ r1 r2,
    tok_calculate_burn_rate (E := SystemContractError) c f1 = Ok r1
    ∧ tok_calculate_burn_rate (E := SystemContractError) c f2 = Ok r2
    ∧ c.(bcf_min_burn_rate_bps) <= r1 ∧ r1 <= r2 ∧ r2 <= c.(bcf_max_burn_rate_bps)
    ∧ (f2 = 10000 → r2 = c.(bcf_max_burn_rate_bps))
    ∧ (0 < c.(bcf_curve_exponent) → f1 = 0 → r1 = c.(bcf_min_burn_rate_bps))
    ∧ (c.(bcf_curve_exponent) <= 4 → 0 < f2 →
       r2 = c.(bcf_min_burn_rate_bps)
            + (c.(bcf_max_burn_rate_bps) - c.(bcf_min_burn_rate_bps)) * f2 ^ c.(bcf_curve_exponent)
                / 10000 ^ c.(bcf_curve_exponent)).
Proof.
  intros Hc Hf Hf2. exists (tok_rate_spec c f1), (tok_rate_spec c f2).
  rewrite !tok_calculate_burn_rate_eq by (done || lia).
  pose proof (tok_rate_spec_range c f1 Hc ltac:(lia)) as Hr1.
  pose proof (tok_rate_spec_range c f2 Hc ltac:(lia)) as Hr2.
  split_and!; try done; try tauto; unfold tok_rate_spec in *.
  - apply N.add_le_mono_l, N.Div0.div_le_mono, N.mul_le_mono_l, sat_pow_mono; lia.
  - intros ->. rewrite N.div_mul; [destruct Hc; lia|].
    pose proof (sat_pow_pos (N.to_nat c.(bcf_curve_exponent)) 10000 1). lia.
  - intros He ->. destruct (N.to_nat c.(bcf_curve_exponent)) as [|n] eqn:Hn; [lia|].
    assert (∀ n, sat_pow n 0 0 = 0) as Hz by (clear; intros n; induction n; done).
    cbn [sat_pow]. change (sat_mul U64_MAX 1 0) with 0. rewrite Hz. rewrite N.mul_0_r, N.Div0.div_0_l. lia.
  - intros He Hpos.
    assert (∀ x, 0 < x → x <= 10000 → x ^ c.(bcf_curve_exponent) <= 10000 ^ 4) as Hpow.
    { intros x Hx Hx'. transitivity (x ^ 4); [apply N.pow_le_mono_r; lia|].
      by apply N.pow_le_mono_l. }
    assert (∀ x, 0 < x → x <= 10000 → sat_pow (N.to_nat c.(bcf_curve_exponent)) x 1
              = x ^ c.(bcf_curve_exponent)) as Hexact.
    { intros x Hx Hx'. rewrite sat_pow_exact; rewrite ?N2Nat.id, ?N.mul_1_l; try done.
      etrans; [by apply Hpow|vm_compute; discriminate]. }
    by rewrite !Hexact by lia.
Qed.

Lemma burn_rate_curve_witness :
  let build := debug_build in
  ∃ r1 r2,
    tok_calculate_burn_rate (E := SystemContractError) BurnConfig_default 0 = Ok r1
    ∧ tok_calculate_burn_rate (E := SystemContractError) BurnConfig_default 10000 = Ok r2
    ∧ r1 = 500 ∧ r2 = 2000.
Proof.
  destruct (burn_rate_curve (H := debug_build) BurnConfig_default 0 10000)
    as (r1 & r2 & H1 & H2 & _ & _ & _ & Hfull & Hempty & _);
    [split; vm_compute; discriminate|lia|lia|].
  exists r1, r2. split_and!; [done..| |by apply Hfull]. by apply Hempty.
Defined.
