(* ===== verification/TokenomicsLedger.v ===== *)
(** * The vesting ledger and the fee distribution

    Along every history of grants, claims, revocations and block processing,
    with time running forward, the manager's totals are the sums over its
    positions; a fee is distributed without loss. *)
From S2P Require Import Prelude SysTypes Tokenomics TokenomicsSpec.
From stdpp Require Import base gmap list strings.
From Stdlib Require Import ZArith Lia.
#[local] Open Scope N_scope.

(** ** Positions *)

(** The vested amount of a position, in closed form. *)
Definition pvest (p : VestingPosition) (t : N) : N :=
  vested_spec (vp_schedule p) p.(vp_total_amount) p.(vp_start_time)
    (if p.(vp_revoked) then default t p.(vp_revoked_at) else t).

(** What the beneficiary can still hope for in all: the grant, or what had vested
    when it was revoked. *)
Definition entitled (p : VestingPosition) : N :=
  if p.(vp_revoked) then pvest p 0 else p.(vp_total_amount).

Record pos_ok (t : N) (p : VestingPosition) : Prop := {
  po_schedule : schedule_ok (vp_schedule p);
  po_total : p.(vp_total_amount) <= TOTAL_GENESIS_SUPPLY;
  po_claimed : p.(vp_claimed_amount) <= pvest p t;
  po_revoked : p.(vp_revoked) = true → is_Some p.(vp_revoked_at);
}.

Lemma pvest_mono p t t' : schedule_ok (vp_schedule p) → t <= t' → pvest p t <= pvest p t'.
Proof.
  intros Hs Ht. unfold pvest. apply vested_spec_mono; [done|].
  destruct (vp_revoked p), (vp_revoked_at p); cbn; lia.
Qed.

Lemma pvest_entitled t p : pos_ok t p → pvest p t <= entitled p ∧ entitled p <= p.(vp_total_amount).
Proof.
  intros [Hs _ _ Hr]. unfold entitled.
  pose proof (vested_spec_le (vp_schedule p) (vp_total_amount p) (vp_start_time p)) as Hle.
  destruct (vp_revoked p) eqn:Hrev.
  - destruct (Hr eq_refl) as [r Hat]. unfold pvest. rewrite Hrev, Hat. cbn.
    split; [done|]. by apply Hle.
  - split; [by apply Hle|done].
Qed.

Lemma pos_ok_later t t' p : t <= t' → pos_ok t p → pos_ok t' p.
Proof.
  intros Ht [Hs Htot Hc Hr]. split; [done..| |done].
  etrans; [exact Hc|by apply pvest_mono].
Qed.

Lemma position_vested_eq `{Build} {E} t p :
  schedule_ok (vp_schedule p) → p.(vp_total_amount) <= TOTAL_GENESIS_SUPPLY →
  position_vested_amount (E := E) p t = Ok (pvest p t).
Proof.
  intros Hs Ht. unfold position_vested_amount, pvest.
  by destruct (vp_revoked p); rewrite vested_amount_eq.
Qed.

(** Revoking freezes the vested amount. *)
Lemma pos_ok_revoke t p : pos_ok t p → vp_revoked p = false → pos_ok t (vp_revoke t p).
Proof.
  intros [Hs Ht Hc _] Hr. split; [done..| |by eexists].
  unfold pvest in *. by rewrite Hr in Hc.
Qed.

Lemma entitled_revoke t p : vp_revoked p = false → entitled (vp_revoke t p) = pvest p t.
Proof. intros Hr. unfold entitled, pvest. cbn. by rewrite Hr. Qed.

(** ** The ledger *)
Definition in_category (f : VestingPosition → N) (c : AllocationCategory) (p : VestingPosition) : N :=
  if bool_decide (p.(vp_category) = c) then f p else 0.

Definition outstanding (p : VestingPosition) : N := entitled p - p.(vp_claimed_amount).

(** [base]: what genesis put into circulation. *)
Record ledger (base t : N) (m : TokenomicsManager) : Prop := {
  vl_base : base <= TOTAL_GENESIS_SUPPLY;
  vl_positions : map_Forall (λ id p, pos_ok t p ∧ id < m.(tk_next_position_id))
                   m.(tk_vesting_positions);
  vl_supply : map_sum vp_total_amount m.(tk_vesting_positions) <= TOTAL_GENESIS_SUPPLY;
  vl_count : map_sum (λ _, 1) m.(tk_vesting_positions) < m.(tk_next_position_id);
  vl_next : m.(tk_next_position_id) <= U64_MAX;
  vl_locked : m.(tk_total_vesting_locked) = map_sum outstanding m.(tk_vesting_positions);
  vl_circulating : m.(tk_circulating_supply)
                   = base + map_sum vp_claimed_amount m.(tk_vesting_positions);
  vl_stats : ∀ c,
    (category_stats m c).(cs_total_allocated)
      = map_sum (in_category vp_total_amount c) m.(tk_vesting_positions)
    ∧ (category_stats m c).(cs_total_claimed)
      = map_sum (in_category vp_claimed_amount c) m.(tk_vesting_positions)
    ∧ (category_stats m c).(cs_position_count)
      = map_sum (in_category (λ _, 1) c) m.(tk_vesting_positions);
  vl_entry : map_Forall (λ _ p, is_Some (m.(tk_category_stats) !! p.(vp_category)))
               m.(tk_vesting_positions);
}.

Lemma ledger_later base t t' m : t <= t' → ledger base t m → ledger base t' m.
Proof.
  intros Ht []. split; try done.
  intros id p Hp. destruct (vl_positions0 id p Hp). split; [by eapply pos_ok_later|done].
Qed.

(** A part of the positions' sum is at most the whole. *)
Lemma map_sum_le (f g : VestingPosition → N) (m : gmap N VestingPosition) :
  map_Forall (λ _ p, f p <= g p) m → map_sum f m <= map_sum g m.
Proof.
  intros Hle. apply map_sum_mono. intros k. destruct (m !! k) as [p|] eqn:Hk; cbn; [|done].
  by apply (Hle k).
Qed.

Lemma in_category_le f c m : map_sum (in_category f c) m <= map_sum f (m : gmap N VestingPosition).
Proof. apply map_sum_le. intros id p _. unfold in_category. case_bool_decide; lia. Qed.

Lemma claimed_le_total base t m :
  ledger base t m →
  map_sum vp_claimed_amount m.(tk_vesting_positions)
    + map_sum outstanding m.(tk_vesting_positions) <= TOTAL_GENESIS_SUPPLY.
Proof.
  intros L. etrans; [|exact (vl_supply _ _ _ L)].
  assert (map_Forall (λ _ p, p.(vp_claimed_amount) + outstanding p <= p.(vp_total_amount))
            m.(tk_vesting_positions)) as Hall.
  { intros id p Hp. destruct (vl_positions _ _ _ L id p Hp) as [Hok _].
    pose proof (pvest_entitled t p Hok). pose proof (po_claimed _ _ Hok).
    unfold outstanding. lia. }
  clear L. revert Hall. generalize (tk_vesting_positions m). intros ps.
  induction ps as [|id p ps Hid IH] using map_ind; intros Hall.
  { rewrite !map_sum_empty. lia. }
  apply map_Forall_insert in Hall as [Hp Hall]; [|done].
  rewrite !map_sum_insert_None by done. specialize (IH Hall). lia.
Qed.

(** Only these five fields matter. *)
Definition same_vesting : relation TokenomicsManager := λ m m',
  m'.(tk_vesting_positions) = m.(tk_vesting_positions)
  ∧ m'.(tk_next_position_id) = m.(tk_next_position_id)
  ∧ m'.(tk_circulating_supply) = m.(tk_circulating_supply)
  ∧ m'.(tk_total_vesting_locked) = m.(tk_total_vesting_locked)
  ∧ m'.(tk_category_stats) = m.(tk_category_stats).

#[export] Instance same_vesting_preorder : PreOrder same_vesting.
Proof. split; unfold same_vesting; repeat intro; destruct_and?; split_and!; congruence. Qed.

Lemma ledger_same base t m m' : same_vesting m m' → ledger base t m → ledger base t m'.
Proof.
  intros (Hp & Hn & Hc & Hl & Hs) []. split; unfold category_stats in *;
    rewrite ?Hp, ?Hn, ?Hc, ?Hl, ?Hs; done.
Qed.

Lemma stats_on_stats m c f c' :
  category_stats (on_stats c f m) c'
  = if bool_decide (c = c') then f (category_stats m c) else category_stats m c'.
Proof.
  unfold category_stats at 1. cbn. case_bool_decide as Hc.
  - subst. by rewrite lookup_insert_eq.
  - by rewrite lookup_insert_ne.
Qed.

Lemma supply_eq : TOTAL_GENESIS_SUPPLY = 10000000000000000000000000000.
Proof. reflexivity. Qed.

Section operations.
Context `{Build}.

Definition new_position (id : N) (beneficiary : Address) (amount : TokenAmount)
  (category : AllocationCategory) (custom : option VestingSchedule) (start : N) (revocable : bool)
  : VestingPosition := {|
  vp_id := id; vp_beneficiary := beneficiary; vp_total_amount := amount; vp_claimed_amount := 0;
  vp_category := category; vp_custom_schedule := custom; vp_start_time := start;
  vp_revocable := revocable; vp_revoked := false; vp_revoked_at := None |}.

Lemma ledger_create base t m beneficiary amount category custom start revocable :
  ledger base t m → schedule_ok (default (vesting_schedule category) custom) →
  map_sum vp_total_amount m.(tk_vesting_positions) + amount <= TOTAL_GENESIS_SUPPLY →
  m.(tk_next_position_id) < U64_MAX →
  ∃ m',
    create_vesting_position beneficiary amount category custom start revocable m
      = (Ok m.(tk_next_position_id), m')
    ∧ ledger base t m'
    ∧ m'.(tk_vesting_positions)
      = <[m.(tk_next_position_id) := new_position m.(tk_next_position_id) beneficiary amount
            category custom start revocable]> m.(tk_vesting_positions)
    ∧ m.(tk_vesting_positions) !! m.(tk_next_position_id) = None
    ∧ m'.(tk_next_position_id) = m.(tk_next_position_id) + 1
    ∧ m'.(tk_config) = m.(tk_config).
Proof.
  intros L Hs Ha Hn. pose proof (claimed_le_total _ _ _ L) as Hct.
  pose proof (in_category_le vp_total_amount category (tk_vesting_positions m)) as Hct1.
  pose proof (in_category_le (λ _, 1) category (tk_vesting_positions m)) as Hct2.
  pose proof L as []. set (id := tk_next_position_id m) in *.
  pose proof supply_eq as Hsup.
  destruct (vl_stats0 category) as (Hst1 & Hst2 & Hst3).
  assert (tk_vesting_positions m !! id = None) as Hfresh.
  { destruct (tk_vesting_positions m !! id) as [p|] eqn:Hp; [|done].
    destruct (vl_positions0 id p Hp). lia. }
  eexists. split.
  { unfold create_vesting_position. mstep. fold id.
    mstep_by ltac:(apply u_add_ok; lia). mstep. mstep. mstep.
    mstep_by ltac:(apply u_add_ok; cbn; rewrite vl_locked0; lia). mstep. mstep. mstep.
    rewrite stats_on_stats, bool_decide_true by done.
    change (category_stats (tk_set_locked _ _)) with (category_stats m).
    mstep_by ltac:(apply u_add_ok; rewrite Hst1; lia). mstep.
    mstep_by ltac:(apply u_add_ok; rewrite Hst3; lia). mstep. mstep. reflexivity. }
  split; [|cbn; split_and!; done].
  set (p := new_position id beneficiary amount category custom start revocable).
  split; try done; cbn.
  - apply map_Forall_insert; [done|]. split; [split; [|lia]|].
    + split; cbn; [done|lia|lia|done].
    + intros id' p' Hp'. destruct (vl_positions0 id' p' Hp'). split; [done|lia].
  - rewrite map_sum_insert_None by done. cbn. lia.
  - rewrite map_sum_insert_None by done. lia.
  - lia.
  - rewrite map_sum_insert_None by done. rewrite vl_locked0. cbn.
    unfold outstanding at 2. cbn. lia.
  - rewrite map_sum_insert_None by done. rewrite vl_circulating0. cbn. lia.
  - intros c. change (category_stats (tk_push _ ?x)) with (category_stats x).
    rewrite !stats_on_stats. rewrite !(map_sum_insert_None _ _ id) by done. unfold in_category at 1 3 5.
    cbn. case_bool_decide as Hc; [|exact (vl_stats0 c)].
    subst c. rewrite !bool_decide_true by done. cbn. rewrite Hst1, Hst2, Hst3. lia.
  - intros id' p' Hp'. apply lookup_insert_Some in Hp' as [[_ <-]|[_ Hp']]; cbn.
    { by rewrite lookup_insert_eq. }
    do 2 (apply lookup_insert_is_Some'; right). apply lookup_insert_is_Some'. right.
    by apply (vl_entry0 id').
Qed.

(** Replacing a position by one with the same grant moves each total by the
    position's own change. *)
Lemma ledger_replace base t m m' id p p' :
  ledger base t m → m.(tk_vesting_positions) !! id = Some p → pos_ok t p' →
  p'.(vp_total_amount) = p.(vp_total_amount) → p'.(vp_category) = p.(vp_category) →
  m'.(tk_vesting_positions) = <[id := p']> m.(tk_vesting_positions) →
  m'.(tk_next_position_id) = m.(tk_next_position_id) →
  m'.(tk_total_vesting_locked) + outstanding p = m.(tk_total_vesting_locked) + outstanding p' →
  m'.(tk_circulating_supply) + p.(vp_claimed_amount)
    = m.(tk_circulating_supply) + p'.(vp_claimed_amount) →
  (∀ c, (category_stats m' c).(cs_total_allocated) = (category_stats m c).(cs_total_allocated)
     ∧ (category_stats m' c).(cs_position_count) = (category_stats m c).(cs_position_count)
     ∧ (category_stats m' c).(cs_total_claimed) + in_category vp_claimed_amount c p
       = (category_stats m c).(cs_total_claimed) + in_category vp_claimed_amount c p') →
  (∀ c, is_Some (m.(tk_category_stats) !! c) → is_Some (m'.(tk_category_stats) !! c)) →
  ledger base t m'.
Proof.
  intros L Hp Hok' Htot Hcat Hps Hn Hl Hc Hst Hen. pose proof L as [].
  assert (∀ f, map_sum f (<[id := p']> m.(tk_vesting_positions)) + f p
               = map_sum f m.(tk_vesting_positions) + f p') as Hsum
    by (intros f; by apply map_sum_insert_Some).
  split; rewrite ?Hps, ?Hn; try done.
  - apply map_Forall_insert_2; [|done]. split; [done|].
    by destruct (vl_positions0 id p Hp).
  - specialize (Hsum vp_total_amount). lia.
  - specialize (Hsum (λ _, 1)). cbn in Hsum. lia.
  - specialize (Hsum outstanding). lia.
  - specialize (Hsum vp_claimed_amount). lia.
  - intros c. destruct (Hst c) as (-> & -> & Hclaimed), (vl_stats0 c) as (-> & Hc2 & ->).
    pose proof (Hsum (in_category vp_total_amount c)) as H1.
    pose proof (Hsum (in_category vp_claimed_amount c)) as H2.
    pose proof (Hsum (in_category (λ _, 1) c)) as H3.
    assert (in_category vp_total_amount c p' = in_category vp_total_amount c p) as E1
      by (unfold in_category; by rewrite Hcat, Htot).
    assert (in_category (λ _, 1) c p' = in_category (λ _, 1) c p) as E3
      by (unfold in_category; by rewrite Hcat).
    split_and!; lia.
  - apply map_Forall_insert_2; [|by intros id' q Hq; apply Hen, (vl_entry0 id')].
    rewrite Hcat. by apply Hen, (vl_entry0 id).
Qed.

Lemma stats_claimed m c s claimed c' :
  m.(tk_category_stats) !! c = Some s →
  category_stats (on_stats c (stats_with s.(cs_total_allocated) claimed s.(cs_position_count)) m) c'
  = if bool_decide (c = c') then stats_with s.(cs_total_allocated) claimed s.(cs_position_count) s
    else category_stats m c'.
Proof.
  intros Hs. rewrite stats_on_stats. case_bool_decide; [|done].
  unfold category_stats. by rewrite Hs.
Qed.

Lemma claim_eq t p :
  pos_ok t p →
  claim (E := SystemContractError) p t
  = Ok (pvest p t - p.(vp_claimed_amount), vp_with_claimed (pvest p t) p).
Proof.
  intros Hok. pose proof (pvest_entitled t p Hok). pose proof Hok as [Hs Ht Hc Hr].
  pose proof supply_eq. unfold claim, claimable_amount.
  rewrite position_vested_eq by done. cbn. unfold sat_sub.
  rewrite u_add_ok by lia. cbn. do 3 f_equal. lia.
Qed.

(** A claim by the beneficiary pays exactly what has vested and was not paid yet. *)
Lemma ledger_claim base t m id p :
  ledger base t m → m.(tk_vesting_positions) !! id = Some p →
  ∃ m',
    claim_vested id p.(vp_beneficiary) t m = (Ok (pvest p t - p.(vp_claimed_amount)), m')
    ∧ ledger base t m'
    ∧ m'.(tk_vesting_positions) = <[id := vp_with_claimed (pvest p t) p]> m.(tk_vesting_positions).
Proof.
  intros L Hp. pose proof (claimed_le_total _ _ _ L) as Hct. pose proof L as [].
  destruct (vl_positions0 id p Hp) as [Hok Hid].
  pose proof (pvest_entitled t p Hok) as [Hpe Het]. pose proof Hok as [Hs Ht Hc Hr].
  pose proof (map_sum_lookup_le outstanding _ _ _ Hp) as Hlocked.
  pose proof (map_sum_lookup_le vp_claimed_amount _ _ _ Hp) as Hclaimed.
  destruct (vl_entry0 id p Hp) as [s Hstats].
  destruct (vl_stats0 p.(vp_category)) as (_ & Hsc & _).
  unfold category_stats in Hsc. rewrite Hstats in Hsc. cbn in Hsc.
  pose proof (in_category_le vp_claimed_amount p.(vp_category) (tk_vesting_positions m)) as Hcat.
  pose proof supply_eq as Hsup. unfold outstanding in Hlocked at 1.
  assert (pos_ok t (vp_with_claimed (pvest p t) p)) as Hok' by (split; done).
  pose proof (claim_eq t p Hok) as Hclaim.
  destruct (bool_decide (0 < pvest p t - p.(vp_claimed_amount))) eqn:Hpos; bool_facts.
  - eexists. split.
    { unfold claim_vested. mstep. mstep_to ltac:(by rewrite Hp).
      mstep_to ltac:(by rewrite bool_decide_true by done).
      mstep_by ltac:(exact Hclaim). mstep. rewrite bool_decide_true by done.
      apply bind_ok. do 2 eexists. split; [|reflexivity]. cbn [when].
      mstep_by ltac:(apply u_sub_ok; rewrite vl_locked0; lia). mstep.
      mstep_by ltac:(apply u_add_ok; rewrite vl_circulating0; lia). mstep.
      apply bind_ok. do 2 eexists. split; [|reflexivity]. cbn [vp_category vp_with_claimed].
      rewrite Hstats. mstep_by ltac:(apply u_add_ok; rewrite Hsc; lia). reflexivity. }
    split; [|done]. eapply (ledger_replace base t m _ id p (vp_with_claimed (pvest p t) p)); try done.
    + cbn. unfold outstanding. cbn. rewrite vl_locked0.
      change (entitled (vp_with_claimed (pvest p t) p)) with (entitled p). lia.
    + cbn. lia.
    + intros c. change (category_stats (tk_push _ ?x)) with (category_stats x).
      rewrite stats_claimed by done. unfold in_category. cbn.
      case_bool_decide as Heq; [|by split_and!]. subst c.
      unfold category_stats. rewrite Hstats. cbn. split_and!; [done..|]. lia.
    + intros c Hc'. cbn. apply lookup_insert_is_Some'. by right.
  - assert (pvest p t = p.(vp_claimed_amount)) as Heq by lia.
    eexists. split.
    { unfold claim_vested. mstep. mstep_to ltac:(by rewrite Hp).
      mstep_to ltac:(by rewrite bool_decide_true by done).
      mstep_by ltac:(exact Hclaim). mstep. by rewrite bool_decide_false by done. }
    split; [|done]. eapply (ledger_replace base t m _ id p (vp_with_claimed (pvest p t) p)); try done;
      cbn; rewrite Heq; done || lia.
Qed.

Lemma ledger_revoke base t m id p :
  ledger base t m → m.(tk_vesting_positions) !! id = Some p →
  p.(vp_revocable) = true → p.(vp_revoked) = false →
  ∃ m',
    revoke_position id t m = (Ok (p.(vp_total_amount) - pvest p t), m')
    ∧ ledger base t m'
    ∧ m'.(tk_vesting_positions) = <[id := vp_revoke t p]> m.(tk_vesting_positions).
Proof.
  intros L Hp Hrev Hnot. pose proof L as [].
  destruct (vl_positions0 id p Hp) as [Hok Hid].
  pose proof (pvest_entitled t p Hok) as [Hpe Het]. pose proof Hok as [Hs Ht Hc Hr].
  pose proof (map_sum_lookup_le outstanding _ _ _ Hp) as Hlocked.
  pose proof (entitled_revoke t p Hnot) as Hent.
  unfold outstanding in Hlocked at 1. unfold entitled in Hlocked at 1. rewrite Hnot in Hlocked.
  eexists. split.
  { unfold revoke_position. mstep. mstep_to ltac:(by rewrite Hp).
    mstep_to ltac:(by rewrite Hrev).
    mstep_to ltac:(by rewrite Hnot).
    mstep_by ltac:(by apply position_vested_eq). mstep.
    mstep_by ltac:(apply u_sub_ok; rewrite vl_locked0; unfold sat_sub; lia).
    mstep. mstep. reflexivity. }
  split; [|done]. eapply (ledger_replace base t m _ id p (vp_revoke t p)); try done.
  - by apply pos_ok_revoke.
  - cbn. unfold outstanding. rewrite Hent. unfold entitled. rewrite Hnot, vl_locked0. cbn.
    unfold sat_sub. lia.
Qed.

(** Whatever the arguments, a claim or a revocation keeps the ledger. *)
Lemma ledger_claim_any base t m id claimer :
  ledger base t m → ledger base t (claim_vested id claimer t m).2.
Proof.
  intros L. destruct (tk_vesting_positions m !! id) as [p|] eqn:Hp.
  - destruct (decide (p.(vp_beneficiary) = claimer)) as [<-|Hne].
    + by destruct (ledger_claim base t m id p L Hp) as (m' & -> & ? & _).
    + unfold claim_vested. mrun. rewrite Hp. cbn. by rewrite bool_decide_false.
  - unfold claim_vested. mrun. by rewrite Hp.
Qed.

Lemma ledger_revoke_any base t m id :
  ledger base t m → ledger base t (revoke_position id t m).2.
Proof.
  intros L. destruct (tk_vesting_positions m !! id) as [p|] eqn:Hp.
  - destruct (vp_revocable p) eqn:Hrev, (vp_revoked p) eqn:Hnot;
      [| by destruct (ledger_revoke base t m id p L Hp Hrev Hnot) as (m' & -> & ? & _) | |];
      unfold revoke_position; mrun; rewrite Hp; cbn; rewrite Hrev; cbn; by rewrite ?Hnot.
  - unfold revoke_position. mrun. by rewrite Hp.
Qed.

(** Block processing does not touch the ledger. *)
Lemma on_engine_same {A} (e : M SystemContractError AdaptiveBurnEngine A) :
  stable same_vesting (on_engine e).
Proof. intros m. by split_and!. Qed.
#[local] Hint Resolve on_engine_same : stable.

Lemma process_fee_same fee fullness : stable same_vesting (tok_process_fee fee fullness).
Proof. unfold tok_process_fee. stable_body. Qed.

Lemma update_emissions_same t : stable same_vesting (update_emissions t).
Proof.
  unfold update_emissions. apply stable_bind; [apply _|intros m; by split_and!|intros v].
  apply stable_bind; [apply _| |intros; apply stable_ret; apply _].
  apply stable_when; [apply _|]. apply stable_modify. intros m. by split_and!.
Qed.

(** ** Histories *)
Inductive tok_op :=
| CreateOp (beneficiary : Address) (amount : TokenAmount) (category : AllocationCategory)
    (custom : option VestingSchedule) (start : N) (revocable : bool)
| ClaimOp (id : N) (claimer : Address)
| RevokeOp (id : N)
| FeeOp (fee : TokenAmount) (fullness : N)
| BlockOp (gas_used gas_limit : N)
| EmissionsOp
| ResetEpochOp
| DrainOp.

Definition tok_run (op : tok_op) (t : N) (m : TokenomicsManager) : TokenomicsManager :=
  match op with
  | CreateOp b a c s st r => (create_vesting_position b a c s st r m).2
  | ClaimOp id claimer => (claim_vested id claimer t m).2
  | RevokeOp id => (revoke_position id t m).2
  | FeeOp fee fullness => (tok_process_fee fee fullness m).2
  | BlockOp used limit => (tok_update_block used limit m).2
  | EmissionsOp => (update_emissions t m).2
  | ResetEpochOp => tok_reset_epoch m
  | DrainOp => (tok_drain_events m).2
  end.

(** The grants of the histories considered: together they do not exceed the
    supply, their schedules are in range, and the counter of position ids does
    not run out.  [create_vesting_position] checks none of this: a custom schedule
    out of range pays more than its grant ([generous_schedule_overpays]). *)
Definition tok_guard (op : tok_op) (m : TokenomicsManager) : Prop :=
  match op with
  | CreateOp _ amount category custom _ _ =>
      schedule_ok (default (vesting_schedule category) custom)
      ∧ map_sum vp_total_amount m.(tk_vesting_positions) + amount <= TOTAL_GENESIS_SUPPLY
      ∧ m.(tk_next_position_id) < U64_MAX
  | _ => True
  end.

Definition grants_ok (allocations : list GenesisAllocation) : Prop :=
  Forall (λ a, schedule_ok (default (vesting_schedule a.(ga_category)) a.(ga_custom_schedule)))
    allocations
  ∧ sum_of ga_amount allocations <= TOTAL_GENESIS_SUPPLY
  ∧ N.of_nat (length allocations) < U64_MAX - 1.

(** [tok_reach base t m]: from a new manager, after genesis or without, by any
    sequence of operations whose times do not decrease. *)
Inductive tok_reach : N → N → TokenomicsManager → Prop :=
| tok_reach_new config t : tok_reach 0 t (TokenomicsManager_new config)
| tok_reach_genesis config allocations t :
    grants_ok allocations →
    tok_reach PUBLIC_SALES_POOL t
      (initialize_genesis allocations (TokenomicsManager_new config)).2
| tok_reach_step base t t' m op :
    tok_reach base t m → t <= t' → tok_guard op m → tok_reach base t' (tok_run op t' m).

Lemma ledger_new config t : ledger 0 t (TokenomicsManager_new config).
Proof.
  split; cbn; rewrite ?map_sum_empty; try (lia || apply map_Forall_empty).
  - intros c. unfold category_stats. cbn. by rewrite lookup_empty, !map_sum_empty.
Qed.

Lemma ledger_grants base t allocations m :
  ledger base t m →
  Forall (λ a, schedule_ok (default (vesting_schedule a.(ga_category)) a.(ga_custom_schedule)))
    allocations →
  map_sum vp_total_amount m.(tk_vesting_positions) + sum_of ga_amount allocations
    <= TOTAL_GENESIS_SUPPLY →
  m.(tk_next_position_id) + N.of_nat (length allocations) <= U64_MAX →
  ∃ m',
    for_each allocations (λ alloc,
      genesis_time ← gets (λ m, m.(tk_config).(tcf_genesis_time));
      create_vesting_position alloc.(ga_beneficiary) alloc.(ga_amount) alloc.(ga_category)
        alloc.(ga_custom_schedule) genesis_time alloc.(ga_revocable) ;;
      mret tt) m = (Ok tt, m') ∧ ledger base t m'.
Proof.
  revert m. induction allocations as [|a l IH]; intros m L Hs Hsum Hn; [by eexists|].
  apply Forall_cons in Hs as [Ha Hs]. cbn [sum_of foldr length] in *.
  change (foldr (λ x n, ga_amount x + n) 0 l) with (sum_of ga_amount l) in *.
  destruct (ledger_create base t m (ga_beneficiary a) (ga_amount a) (ga_category a)
    (ga_custom_schedule a) (tcf_genesis_time (tk_config m)) (ga_revocable a) L Ha)
    as (m1 & Hrun & L1 & Hps & Hfresh & Hnext & _); [lia..|].
  destruct (IH m1 L1 Hs) as (m2 & Hrest & L2).
  { rewrite Hps, map_sum_insert_None by done. cbn. lia. }
  { rewrite Hnext. lia. }
  exists m2. split; [|done]. cbn [for_each].
  apply bind_ok. exists tt, m1. split; [|exact Hrest].
  mstep. apply bind_ok. do 2 eexists. split; [exact Hrun|reflexivity].
Qed.

Lemma ledger_genesis config t allocations :
  grants_ok allocations →
  ∃ m, initialize_genesis allocations (TokenomicsManager_new config) = (Ok tt, m)
       ∧ ledger PUBLIC_SALES_POOL t m.
Proof.
  intros (Hs & Hsum & Hlen).
  destruct (ledger_grants 0 t allocations (TokenomicsManager_new config))
    as (m & Hrun & L); [apply ledger_new|done|..].
  { cbn. rewrite map_sum_empty. lia. }
  { cbn. lia. }
  pose proof (claimed_le_total _ _ _ L) as Hct. pose proof supply_eq as Hsup.
  assert (PUBLIC_SALES_POOL = 750000000000000000000000000) as Hpub by reflexivity.
  pose proof L as []. eexists. split.
  { unfold initialize_genesis. apply bind_ok. exists tt, m. split; [exact Hrun|].
    mstep. mstep_by ltac:(apply u_add_ok; rewrite vl_circulating0; lia). mstep. reflexivity. }
  split; cbn; try done; lia.
Qed.

Lemma reach_ledger base t m : tok_reach base t m → ledger base t m.
Proof.
  induction 1 as [config t|config allocations t Hg|base t t' m op _ IH Ht Hguard].
  - apply ledger_new.
  - by destruct (ledger_genesis config t allocations Hg) as (m & -> & L).
  - apply (ledger_later base t t' m Ht) in IH. destruct op; cbn in *.
    + destruct Hguard as (Hs & Hsum & Hn).
      by edestruct (ledger_create base t' m) as (m' & -> & L & _).
    + by apply ledger_claim_any.
    + by apply ledger_revoke_any.
    + by eapply ledger_same; [apply process_fee_same|].
    + by eapply ledger_same; [apply on_engine_same|].
    + by eapply ledger_same; [apply update_emissions_same|].
    + by eapply ledger_same; [|exact IH].
    + by eapply ledger_same; [|exact IH].
Qed.
End operations.


(** Claims and revocations pay exactly.  In every reachable state and at every
    later time a claim by the beneficiary succeeds, pays what has vested less what
    was paid before, and leaves nothing to a second claim at that time; a claim by
    anyone else is refused and changes nothing; revoking a revocable position
    returns exactly the unvested part, and the beneficiary can still claim the
    rest. *)
Lemma claims_exact `{Build} base t t' m id p :
  tok_reach base t m → t <= t' → m.(tk_vesting_positions) !! id = Some p →
  ∃ v, position_vested_amount (E := SystemContractError) p t' = Ok v
  ∧ (∃ m', claim_vested id p.(vp_beneficiary) t' m = (Ok (v - p.(vp_claimed_amount)), m')
       ∧ m'.(tk_circulating_supply) = m.(tk_circulating_supply) + (v - p.(vp_claimed_amount))
       ∧ (claim_vested id p.(vp_beneficiary) t' m').1 = Ok 0)
  ∧ (∀ other, other ≠ p.(vp_beneficiary) →
       claim_vested id other t' m = (Err (TokenomicsError "Not position beneficiary"), m))
  ∧ (p.(vp_revocable) = true → p.(vp_revoked) = false →
       ∃ m', revoke_position id t' m = (Ok (p.(vp_total_amount) - v), m')
       ∧ ∀ t'', t' <= t'' →
           (claim_vested id p.(vp_beneficiary) t'' m').1 = Ok (v - p.(vp_claimed_amount))).
Proof.
  intros L%reach_ledger Ht Hp. apply (ledger_later _ _ t' _ Ht) in L.
  destruct (vl_positions _ _ _ L id p Hp) as [Hok _].
  exists (pvest p t'). split; [by destruct Hok; apply position_vested_eq|]. split_and!.
  - destruct (ledger_claim base t' m id p L Hp) as (m' & Hrun & L' & Hps).
    exists m'. split; [done|]. split.
    + rewrite (vl_circulating _ _ _ L), (vl_circulating _ _ _ L'), Hps.
      pose proof (map_sum_insert_Some vp_claimed_amount (tk_vesting_positions m) id
        (vp_with_claimed (pvest p t') p) p Hp) as Hs. cbn in Hs.
      pose proof (po_claimed _ _ Hok). lia.
    + destruct (ledger_claim base t' m' id (vp_with_claimed (pvest p t') p) L')
        as (m'' & Hrun' & _); [by rewrite Hps, lookup_insert_eq|].
      cbn [vp_beneficiary vp_with_claimed vp_claimed_amount] in Hrun'. rewrite Hrun'. cbn.
      f_equal. change (pvest (vp_with_claimed (pvest p t') p) t') with (pvest p t'). lia.
  - intros other Hne. unfold claim_vested. mrun. rewrite Hp. cbn. by rewrite bool_decide_false.
  - intros Hrev Hnot. destruct (ledger_revoke base t' m id p L Hp Hrev Hnot) as (m' & Hrun & L' & Hps).
    exists m'. split; [done|]. intros t'' Ht''. apply (ledger_later _ _ t'' _ Ht'') in L'.
    destruct (ledger_claim base t'' m' id (vp_revoke t' p) L') as (m'' & Hrun' & _);
      [by rewrite Hps, lookup_insert_eq|].
    cbn [vp_beneficiary vp_revoke vp_claimed_amount] in Hrun'. rewrite Hrun'. cbn.
    by unfold pvest; cbn; rewrite Hnot.
Qed.

(** ** Fee distribution *)
Definition fee_config_ok (m : TokenomicsManager) : Prop :=
  burn_config_ok m.(tk_burn_engine).(be_config)
  ∧ m.(tk_burn_engine).(be_config).(bcf_max_burn_rate_bps) <= 10000
  ∧ m.(tk_config).(tcf_burn_fee_bps) <= 10000 ∧ m.(tk_config).(tcf_prover_fee_bps) <= 10000.

(** The rate the manager burns at. *)
Definition fee_rate (m : TokenomicsManager) (fullness : N) : N :=
  if m.(tk_config).(tcf_adaptive_burn_enabled) then tok_rate_spec m.(tk_burn_engine).(be_config) fullness
  else m.(tk_config).(tcf_burn_fee_bps).

Lemma fee_rate_le m fullness : fee_config_ok m → fullness <= 10000 → fee_rate m fullness <= 10000.
Proof.
  intros (Hb & Hm & Hf & _) Hle. unfold fee_rate. destruct tcf_adaptive_burn_enabled; [|done].
  pose proof (tok_rate_spec_range _ fullness Hb Hle). lia.
Qed.

(** Fee distribution.  For every configuration whose rates are at most 100%
    and every positive fee whose products fit 128 bits, the prover's, the
    validator's and the burned share add up to the fee exactly, the burned share is
    the adaptive (or fixed) rate of the fee rounded down and is recorded once in
    the running and the epoch total, and the reported effective rate never
    exceeds it; a fee of zero, which the devnet configuration admits, panics. *)
Lemma fee_partition `{Build} m fee fullness :
  fee_config_ok m → fullness <= 10000 → 0 < fee → fee * 10000 <= U128_MAX →
  m.(tk_burn_engine).(be_total_burned) + fee <= U128_MAX →
  m.(tk_burn_engine).(be_epoch_burned) + fee <= U128_MAX →
  (∃ d m', tok_process_fee fee fullness m = (Ok d, m')
    ∧ d.(fd_prover_amount) + d.(fd_validator_amount) + d.(fd_burn_amount) = fee
    ∧ d.(fd_burn_amount) = fee * fee_rate m fullness / 10000
    ∧ d.(fd_prover_amount)
      = (fee - d.(fd_burn_amount)) * m.(tk_config).(tcf_prover_fee_bps) / 10000
    ∧ d.(fd_effective_burn_rate_bps) <= fee_rate m fullness
    ∧ m'.(tk_burn_engine).(be_total_burned)
      = m.(tk_burn_engine).(be_total_burned) + d.(fd_burn_amount)
    ∧ m'.(tk_burn_engine).(be_epoch_burned)
      = m.(tk_burn_engine).(be_epoch_burned) + d.(fd_burn_amount))
  ∧ (tok_process_fee 0 fullness m).1 = Panic.
Proof.
  intros Hc Hf Hpos Hmul Hb He.
  pose proof (fee_rate_le m fullness Hc Hf) as Hr. pose proof Hc as (Hcfg & Hmax & Hfix & Hprover).
  assert (∀ x, x * 10000 <= U128_MAX →
    (if m.(tk_config).(tcf_adaptive_burn_enabled) then
       tok_calculate_burn m.(tk_burn_engine) x fullness
     else product ← u_mul U128_MAX x m.(tk_config).(tcf_burn_fee_bps); Ok (product / 10000))
    = Ok (E := SystemContractError) (x * fee_rate m fullness / 10000)) as Hburn.
  { intros x Hx. unfold fee_rate in *. destruct tcf_adaptive_burn_enabled.
    - unfold tok_calculate_burn. rewrite tok_calculate_burn_rate_eq by done. cbn.
      by rewrite u_mul_ok by nia.
    - by rewrite u_mul_ok by nia. }
  split.
  2:{ unfold tok_process_fee, on_engine, engine_record_burn. mrun. rewrite Hburn by lia.
      rewrite N.mul_0_l, N.Div0.div_0_l. rewrite !u_add_ok by lia. cbn.
      rewrite u_sub_ok by lia. cbn. rewrite u_mul_ok by lia. cbn. rewrite u_sub_ok by done.
      cbn. rewrite u_mul_ok by lia. done. }
  set (rate := fee_rate m fullness) in *. set (burned := fee * rate / 10000).
  pose proof (share_le fee rate 10000 Hr) as Hble. fold burned in Hble.
  set (bps := m.(tk_config).(tcf_prover_fee_bps)) in *.
  pose proof (share_le (fee - burned) bps 10000 Hprover) as Hple.
  assert (burned * 10000 <= fee * rate) as Hback.
  { pose proof (div_bounds (fee * rate) 10000 ltac:(lia)). fold burned in H0. lia. }
  do 2 eexists. split.
  { unfold tok_process_fee, on_engine, engine_record_burn. mrun. rewrite Hburn by done.
    fold burned. rewrite !u_add_ok by lia. cbn.
    rewrite u_sub_ok by done. cbn. rewrite u_mul_ok by nia. cbn. fold bps. rewrite u_sub_ok by done.
    cbn. rewrite u_mul_ok by nia. cbn. rewrite u_div_ok by lia. reflexivity. }
  cbn. assert (burned * 10000 / fee <= rate) as Heff.
  { apply N.Div0.div_le_upper_bound. lia. }
  split_and!; try done.
  - div_abstract. lia.
  - unfold cast. rewrite N.mod_small by lia. done.
Qed.

(** ** On a concrete grant *)
Definition sample_grants : list GenesisAllocation :=
  [{| ga_beneficiary := bytes32 7; ga_amount := 1000; ga_category := AirdropSeals;
      ga_custom_schedule := None; ga_revocable := true |};
   {| ga_beneficiary := bytes32 8; ga_amount := 500; ga_category := CoreContributors;
      ga_custom_schedule := Some (LinearVesting 10 100 0); ga_revocable := false |}].

Definition sample_manager `{Build} : TokenomicsManager :=
  (initialize_genesis sample_grants (TokenomicsManager_new TokenomicsConfig_mainnet)).2.

Lemma sample_manager_reach `{Build} t : tok_reach PUBLIC_SALES_POOL t sample_manager.
Proof.
  apply tok_reach_genesis. split_and!; [|vm_compute; discriminate|vm_compute; reflexivity].
  repeat constructor; cbn; vm_compute; discriminate.
Qed.


(** A custom schedule that releases 150 percent at the start pays 150 for a grant
    of 100, out of what is locked for other positions. *)
Definition generous_manager : TokenomicsManager :=
  let build := debug_build in
  (create_vesting_position (bytes32 9) 100 CoreContributors (Some (LinearVesting 0 100 150)) 0 false
     sample_manager).2.

Lemma generous_schedule_overpays :
  let build := debug_build in
  (claim_vested 3 (bytes32 9) 0 generous_manager).1 = Ok 150.
Proof. vm_compute. reflexivity. Qed.

Lemma claims_exact_witness :
  let build := debug_build in
  ∃ v m', claim_vested 2 (bytes32 8) 55 sample_manager = (Ok v, m') ∧ v = 250.
Proof.
  assert (tk_vesting_positions (sample_manager (H := debug_build)) !! 2
          = Some (new_position 2 (bytes32 8) 500 CoreContributors
                    (Some (LinearVesting 10 100 0)) 0 false)) as Hp by (vm_compute; reflexivity).
  destruct (claims_exact (H := debug_build) PUBLIC_SALES_POOL 0 55 (sample_manager (H := debug_build)) 2 _
    (sample_manager_reach 0) ltac:(lia) Hp) as (v & Hv & (m' & Hrun & _) & _).
  exists (v - 0), m'. split; [exact Hrun|].
  vm_compute in Hv. by injection Hv as <-.
Defined.

Lemma fee_partition_witness :
  let build := debug_build in
  ∃ d m', tok_process_fee 1000 10000 sample_manager = (Ok d, m')
    ∧ d.(fd_burn_amount) = 200
    ∧ d.(fd_prover_amount) + d.(fd_validator_amount) + d.(fd_burn_amount) = 1000.
Proof.
  destruct (fee_partition (H := debug_build) (sample_manager (H := debug_build)) 1000 10000)
    as [(d & m' & Hrun & Hsum & Hb & _) _];
    [repeat split; vm_compute; discriminate|vm_compute; (discriminate || reflexivity)..|].
  exists d, m'. split; [done|]. split; [|done]. rewrite Hb. vm_compute. reflexivity.
Defined.
