(* ===== verification/SlashingSpec.v ===== *)
(** * What the slashing manager promises

    Committees are sampled without repetition and the sampling terminates; the
    manager's records are well formed along every history and a tombstone is
    permanent; an executed slash charges exactly its tier. *)
From S2P Require Import Prelude SysTypes Bank F64 Precompile Slashing.
From stdpp Require Import base gmap sets list strings.
From Stdlib Require Import ZArith Lia SpecFloat.
#[local] Open Scope N_scope.

(** ** Sampling *)

(** The indices [0 .. len - 1]. *)
Definition indices (len : N) : list N := N.of_nat <$> seq 0 (N.to_nat len).

Lemma elem_of_indices len j : j ∈ indices len ↔ j < len.
Proof.
  unfold indices. rewrite list_elem_of_fmap. setoid_rewrite elem_of_seq. split.
  - intros (k & -> & Hk). lia.
  - intros Hj. exists (N.to_nat j). lia.
Qed.

Lemma size_indices len : size (list_to_set (indices len) : gset N) = N.to_nat len.
Proof.
  rewrite size_list_to_set.
  - unfold indices. by rewrite length_fmap, length_seq.
  - unfold indices. apply NoDup_fmap_2; [apply _|apply NoDup_seq].
Qed.

Lemma probe_blocked fuel used len i :
  i < len → probe fuel used len i = Blocked →
  ∀ k, (k <= fuel)%nat → (i + N.of_nat k) mod len ∈ used.
Proof.
  revert i. induction fuel as [|fuel IH]; intros i Hi Hb k Hk; cbn in Hb;
    case_bool_decide as Hin; try done.
  - replace k with 0%nat by lia. by rewrite N.add_0_r, N.mod_small.
  - destruct k as [|k]; [by rewrite N.add_0_r, N.mod_small|].
    assert ((i + 1) mod len < len) as Hlt by (apply N.mod_lt; lia).
    specialize (IH _ Hlt Hb k ltac:(lia)).
    rewrite N.Div0.add_mod_idemp_l in IH. by replace (i + N.of_nat (S k)) with (i + 1 + N.of_nat k) by lia.
Qed.

Lemma probe_ok fuel used len i :
  i < len → probe fuel used len i = Blocked
            ∨ ∃ j, probe fuel used len i = Ok j ∧ j < len ∧ j ∉ used.
Proof.
  revert i. induction fuel as [|fuel IH]; intros i Hi; cbn; case_bool_decide; eauto.
  apply IH, N.mod_lt. lia.
Qed.

(** While an index is free, probing finds one. *)
Lemma probe_finds used len i :
  i < len → (size used < N.to_nat len)%nat →
  ∃ j, probe (N.to_nat len) used len i = Ok j ∧ j < len ∧ j ∉ used.
Proof.
  intros Hi Hfree. destruct (probe_ok (N.to_nat len) used len i Hi) as [Hb|]; [|done].
  assert (list_to_set (indices len) ⊆ used) as Hsub.
  { intros j Hj. apply elem_of_list_to_set, elem_of_indices in Hj.
    pose proof (probe_blocked _ _ _ _ Hi Hb (N.to_nat ((j + len - i) mod len))) as Hk.
    assert ((j + len - i) mod len < len) as Hm by (apply N.mod_lt; lia).
    rewrite N2Nat.id, N.Div0.add_mod_idemp_r in Hk.
    replace (i + (j + len - i)) with (j + 1 * len) in Hk by lia.
    rewrite N.Div0.mod_add in Hk. rewrite (N.mod_small j) in Hk by done. apply Hk. lia. }
  apply subseteq_size in Hsub. rewrite size_indices in Hsub. lia.
Qed.

Section sampling.
Context `{Build, Crypto}.

(** The positions picked are distinct, new and in range. *)
Lemma pick_nodes_spec n i seed nodes used :
  (size used + n <= length nodes)%nat →
  ∃ idxs selected,
    pick_nodes n i seed nodes used = Ok selected ∧ length idxs = n ∧ NoDup idxs
    ∧ Forall (λ j, (j ∉ used) ∧ j < llen nodes) idxs
    ∧ mapM (λ j, nodes !! N.to_nat j) idxs = Some selected.
Proof.
  revert i used. induction n as [|n IH]; intros i used Hs; cbn.
  { exists [], []. split_and!; try done. constructor. }
  assert (0 < llen nodes) as Hpos by (unfold llen; lia).
  rewrite u_rem_ok by lia. cbn.
  set (h := of_le_bytes _). assert (h mod llen nodes < llen nodes) as Hi by (apply N.mod_lt; lia).
  destruct (probe_finds used (llen nodes) _ Hi) as (j & Hp & Hj & Hnew); [unfold llen; lia|].
  replace (N.to_nat (llen nodes)) with (length nodes) in Hp by (unfold llen; lia).
  rewrite Hp. cbn.
  destruct (lookup_lt_is_Some_2 nodes (N.to_nat j)) as [node Hnode]; [unfold llen in Hj; lia|].
  rewrite Hnode. cbn.
  destruct (IH (i + 1) ({[j]} ∪ used)) as (idxs & sel & Hrun & Hlen & Hnd & Hall & Hmap).
  { rewrite size_union by set_solver. rewrite size_singleton. lia. }
  rewrite Hrun. cbn. exists (j :: idxs), (node :: sel). split_and!; try done.
  - cbn. by rewrite Hlen.
  - constructor; [|done]. intros Hin. rewrite Forall_forall in Hall.
    destruct (Hall j Hin) as [Hj' _]. apply Hj', elem_of_union_l, elem_of_singleton_2. done.
  - constructor; [done|]. eapply Forall_impl; [exact Hall|].
    intros x [Hx Hlt]. split; [set_solver|exact Hlt].
  - cbn. rewrite Hnode. cbn. by rewrite Hmap.
Qed.

Lemma mapM_lookup_nodup {A} (nodes : list A) idxs selected :
  NoDup nodes → NoDup idxs → mapM (λ j, nodes !! N.to_nat j) idxs = Some selected →
  NoDup selected ∧ selected ⊆ nodes.
Proof.
  intros Hn Hi Hm. apply mapM_Some in Hm. revert Hi.
  induction Hm as [|j x idxs selected Hj Hm IH]; intros Hi.
  { split; [constructor|set_solver]. }
  apply NoDup_cons in Hi as [Hnew Hi]. destruct (IH Hi) as [Hnd Hsub]. split.
  - constructor; [|done]. intros Hin. apply list_elem_of_lookup in Hin as [k Hk].
    destruct (Forall2_lookup_r _ _ _ _ _ Hm Hk) as (j' & Hj' & Hx').
    assert (N.to_nat j = N.to_nat j') as Heq
      by (eapply NoDup_lookup; [exact Hn|exact Hj|exact Hx']).
    apply Hnew. replace j with j' by lia. by apply list_elem_of_lookup_2 in Hj'.
  - intros y Hy. apply elem_of_cons in Hy as [->|Hy]; [by apply list_elem_of_lookup_2 in Hj|auto].
Qed.

(** Committee selection.  Whatever the hash function returns, sampling a
    committee from at least as many distinct nodes as its size ends with exactly
    that many distinct members of the list (the probing loop always finds a free
    position), the sampling of attestation targets likewise, and with too few
    nodes the committee is refused. *)
Lemma committee_selection config available count seed :
  NoDup available →
  (config.(slc_committee_size) <= llen available →
     ∃ committee, select_committee config available seed = Ok committee
       ∧ llen committee = config.(slc_committee_size) ∧ NoDup committee ∧ committee ⊆ available)
  ∧ (llen available < config.(slc_committee_size) →
     ∃ reason, select_committee config available seed = Err (SlashingError reason))
  ∧ ∃ targets, select_random_nodes available count seed = Ok targets
       ∧ llen targets = N.min count (llen available) ∧ NoDup targets ∧ targets ⊆ available.
Proof.
  intros Hnd.
  assert (∀ n, N.of_nat n <= llen available →
    ∃ sel, pick_nodes n 0 seed available ∅ = Ok sel ∧ llen sel = N.of_nat n ∧ NoDup sel
           ∧ sel ⊆ available) as Hpick.
  { intros n Hn. destruct (pick_nodes_spec n 0 seed available ∅)
      as (idxs & sel & Hrun & Hlen & Hi & _ & Hm).
    { rewrite size_empty. unfold llen in Hn. lia. }
    destruct (mapM_lookup_nodup _ _ _ Hnd Hi Hm) as [Hs Hsub].
    exists sel. split_and!; try done. unfold llen.
    apply mapM_Some, Forall2_length in Hm. lia. }
  split_and!.
  - intros Hle. unfold select_committee. rewrite bool_decide_false by lia.
    destruct (Hpick (N.to_nat (slc_committee_size config))) as (sel & -> & Hl & Hs & Hsub); [lia|].
    exists sel. rewrite N2Nat.id in Hl. done.
  - intros Hlt. unfold select_committee. rewrite bool_decide_true by done. eauto.
  - unfold select_random_nodes. case_bool_decide as Hc.
    + exists available. split_and!; try done. lia.
    + destruct (Hpick (N.to_nat count)) as (sel & -> & Hl & Hs & Hsub); [lia|].
      exists sel. split_and!; try done. lia.
Qed.
End sampling.

(** ** Well-formed managers *)
Record ban_wf (tombstones : gset Address) (a : Address) (r : BanRecord) : Prop := {
  bw_address : r.(ban_address) = a;
  bw_tombstoned : r.(ban_tombstoned) = true → a ∈ tombstones ∧ r.(ban_banned_until) = U64_MAX;
}.

(** A challenge is filed under its id, its committee has the configured size and
    only members have voted, each under their own name. *)
Record challenge_wf (committee_size : N) (id : Hash) (c : Challenge) : Prop := {
  chw_id : c.(ch_id) = id;
  chw_size : llen c.(ch_committee) = committee_size;
  chw_votes : map_Forall (λ a v, v.(chv_voter) = a ∧ a ∈ c.(ch_committee)) c.(ch_committee_votes);
}.

(** The rolling window holds at most 100 outcomes; until it has ten the counters
    are exact; the last score is a share in basis points. *)
Record metrics_wf (m : ReliabilityMetrics) : Prop := {
  mw_window : llen m.(rm_recent_outcomes) <= ROLLING_WINDOW_SIZE;
  mw_counts : llen m.(rm_recent_outcomes) < 10 →
    m.(rm_jobs_assigned) = llen m.(rm_recent_outcomes)
    ∧ m.(rm_jobs_completed) + m.(rm_jobs_failed) = m.(rm_jobs_assigned);
  mw_score : m.(rm_last_score) <= 10000;
}.

Record slashing_wf (config : SlashingConfig) (m : SlashingManager) : Prop := {
  sw_config : m.(sl_config) = config;
  sw_bans : map_Forall (ban_wf m.(sl_tombstones)) m.(sl_bans);
  sw_challenges : map_Forall (challenge_wf config.(slc_committee_size)) m.(sl_challenges);
  sw_attestations : map_Forall (λ id c, c.(ac_id) = id
                      ∧ (c.(ac_response_received) = true ↔ c.(ac_verified) = Some true))
                      m.(sl_attestation_challenges);
  sw_reliability : map_Forall (λ _, metrics_wf) m.(sl_reliability);
  sw_history : map_Forall (λ a, Forall (λ c, c.(cnd_offender) = a)) m.(sl_offense_history);
}.

Lemma slashing_wf_new config : slashing_wf config (SlashingManager_new config).
Proof. split; try done; apply map_Forall_empty. Qed.

Lemma ban_wf_grow ts ts' a r : ts ⊆ ts' → ban_wf ts a r → ban_wf ts' a r.
Proof. intros Hsub [Ha Ht]. split; [done|]. intros Htr. destruct (Ht Htr). auto. Qed.

(** *** Reliability *)
Section metrics.
Context `{Build}.

Lemma trim_window_length l :
  llen (trim_window l) = N.min (llen l) ROLLING_WINDOW_SIZE.
Proof.
  unfold llen, ROLLING_WINDOW_SIZE. induction l as [|x l IH]; cbn -[N.of_nat N.min]; [done|].
  case_bool_decide as Hd; unfold llen in Hd; cbn -[N.of_nat] in Hd.
  - rewrite IH. unfold ROLLING_WINDOW_SIZE in *. lia.
  - unfold ROLLING_WINDOW_SIZE in *. cbn -[N.of_nat N.min]. lia.
Qed.

(** With ten outcomes in the window the counters are not read any more. *)
Lemma metrics_wf_full m :
  10 <= llen m.(rm_recent_outcomes) → llen m.(rm_recent_outcomes) <= ROLLING_WINDOW_SIZE →
  m.(rm_last_score) <= 10000 → metrics_wf m.
Proof. intros H1 H2 H3. split; [done| |done]. lia. Qed.

Lemma record_outcome_wf success : stable (maintains metrics_wf) (record_outcome success).
Proof.
  intros m [Hw Hc Hs].
  pose proof (trim_window_length (rm_recent_outcomes m ++ [success])) as Hl.
  unfold llen at 2 in Hl. rewrite length_app in Hl. cbn [length] in Hl.
  unfold record_outcome. mrun. unfold ROLLING_WINDOW_SIZE in *.
  destruct (decide (llen (rm_recent_outcomes m) < 10)) as [Hlt|Hge].
  - destruct (Hc Hlt) as [Ha Hcomp]. unfold llen in Ha.
    rewrite u_add_ok by (unfold llen in Hlt; lia). cbn.
    destruct success; rewrite u_add_ok by (unfold llen in Hlt; lia); cbn;
      (split; cbn; unfold ROLLING_WINDOW_SIZE; unfold llen in Hlt; rewrite ?Hl; lia).
  - destruct success; repeat (destruct (u_add _ _ _); cbn);
      (apply metrics_wf_full; cbn; unfold ROLLING_WINDOW_SIZE; rewrite ?Hl; unfold llen in *; lia).
Qed.

Lemma score_le successes total : successes <= total → cast U16_MAX (successes * 10000 / total) <= 10000.
Proof.
  intros Hle. assert (successes * 10000 / total <= 10000) as Hq.
  { destruct (decide (total = 0)) as [->|]; [rewrite N.div_0_r; lia|].
    apply N.Div0.div_le_upper_bound. lia. }
  unfold cast. rewrite N.mod_small by lia. done.
Qed.

Lemma rm_with_score_wf score t m : score <= 10000 → metrics_wf m → metrics_wf (rm_with_score score t m).
Proof. intros Hs [Hw Hc _]. by split. Qed.

Lemma calculate_score_wf t : stable (maintains metrics_wf) (calculate_score t).
Proof.
  intros m Hm. pose proof Hm as [Hw Hc _]. unfold calculate_score. mrun.
  case_bool_decide; [done|]. case_bool_decide as Hten; cbn.
  - set (n := llen (filter _ _)).
    assert (n <= llen (rm_recent_outcomes m)) as Hn.
    { unfold n, llen. pose proof (length_filter (λ x, x = true) (rm_recent_outcomes m)). lia. }
    unfold ROLLING_WINDOW_SIZE in Hw. rewrite u_mul_ok by lia. cbn. rewrite u_div_ok by lia. cbn.
    apply rm_with_score_wf; [by apply score_le|done].
  - destruct (Hc ltac:(lia)) as [Ha Hcomp].
    rewrite u_mul_ok by lia. cbn. rewrite u_div_ok by done. cbn.
    apply rm_with_score_wf; [apply score_le; lia|done].
Qed.

Lemma metrics_default_wf : metrics_wf ReliabilityMetrics_default.
Proof. split; done. Qed.
End metrics.

(** *** Relations on the manager's side of the state *)
Definition fst_rel {S T} (R : relation S) : relation (S * T) := λ s s', R s.1 s'.1.

#[export] Instance fst_rel_preorder {S T} (R : relation S) `{!PreOrder R} :
  PreOrder (fst_rel (T:=T) R).
Proof. split; unfold fst_rel; [intros s|intros s s' s'' H1 H2]; [reflexivity|by etrans]. Qed.

Lemma fst_stable_on_fst {E S T A} (R : relation S) (m : M E S A) :
  stable R m → stable (fst_rel (T:=T) R) (on_fst m).
Proof. intros Hm s. apply Hm. Qed.

Lemma fst_stable_write {A} (R : relation SlashingManager) `{!PreOrder R} (op : BankM A) :
  stable (fst_rel R) (bank_write op).
Proof. intros s. unfold fst_rel. cbn. reflexivity. Qed.

Lemma fst_stable_read {A} (R : relation SlashingManager) `{!PreOrder R} (q : Bank → A) :
  stable (fst_rel R) (bank_read q).
Proof. intros s. unfold fst_rel, bank_read. destruct (rw_held _); cbn; reflexivity. Qed.

Lemma stable_attempt {E S A} (R : relation S) (m : M E S A) : stable R m → stable R (attempt m).
Proof. intros Hm s. specialize (Hm s). unfold attempt. by destruct (m s) as [[] s']. Qed.

#[export] Hint Resolve fst_stable_on_fst fst_stable_write fst_stable_read stable_attempt : stable.

(** A computed constant is known to the rest of the body. *)
Lemma stable_lift_Ok {E S A B} (R : relation S) (a : A) (k : A → M E S B) :
  stable R (k a) → stable R (lift (Ok a) ≫= k).
Proof. intros Hk s. apply Hk. Qed.

Lemma run_modify_fst {E S T A} (f : S → S) (k : () → M E (S * T) A) s :
  (on_fst (modify f) ≫= k) s = k tt (f s.1, s.2).
Proof. reflexivity. Qed.

Ltac known_step :=
  lazymatch goal with
  | |- stable _ (mbind _ (lift (Ok _))) => apply stable_lift_Ok
  | |- _ => stable_step
  end.

Section wf.
Context `{Build, Crypto, EvidenceFormat} (config : SlashingConfig).
Abbreviation keeps_wf := (maintains (slashing_wf config)).

Lemma record_ban_wf a at_ until offense tombstoned :
  (tombstoned = true → until = U64_MAX) →
  stable keeps_wf (record_ban a at_ until offense tombstoned).
Proof.
  intros Hu m Hm. unfold record_ban. mrun.
  set (ts := if tombstoned then {[a]} ∪ sl_tombstones m else sl_tombstones m).
  assert (sl_tombstones m ⊆ ts) as Hsub by (unfold ts; destruct tombstoned; set_solver).
  assert (map_Forall (ban_wf ts) (sl_bans m)) as Hold.
  { eapply map_Forall_impl; [exact (sw_bans _ _ Hm)|]. intros a' r. by apply ban_wf_grow. }
  assert (∀ count, ban_wf ts a {| ban_address := a; ban_banned_at := at_; ban_banned_until := until;
    ban_offense := offense; ban_offense_count := count; ban_tombstoned := tombstoned;
    ban_associated_ips := [] |}) as Hnew.
  { intros count. split; [done|]. cbn. intros Ht. split; [|auto]. unfold ts. rewrite Ht. set_solver. }
  destruct Hm. unfold ts in *. clear ts.
  destruct tombstoned; cbn; destruct (match sl_bans m !! a with Some _ => _ | None => _ end); cbn;
    split; try done; cbn; by apply map_Forall_insert_2.
Qed.

Lemma push_event_wf e : stable keeps_wf (push_slashing_event e).
Proof. apply stable_modify. intros m []. by split. Qed.

Lemma totals_wf x y : stable (E := SystemContractError) keeps_wf (modify (sl_with_totals x y)).
Proof. apply stable_modify. intros m []. by split. Qed.
Lemma totals_wf' x : stable (E := SystemContractError) keeps_wf
  (modify (λ m, sl_with_totals x m.(sl_total_burned) m)).
Proof. apply stable_modify. intros m []. by split. Qed.
Lemma pending_wf (f : SlashingManager → list SlashingCondition) :
  stable (E := SystemContractError) keeps_wf
    (modify (λ m, sl_with_pending (f m) m.(sl_events) m)).
Proof. apply stable_modify. intros m []. by split. Qed.
#[local] Hint Resolve push_event_wf totals_wf totals_wf' pending_wf : stable.

Lemma history_wf c :
  stable (E := SystemContractError) keeps_wf (modify (λ m, sl_with_history
    (<[cnd_offender c := default [] (m.(sl_offense_history) !! cnd_offender c) ++ [c]]>
       m.(sl_offense_history)) m)).
Proof.
  apply stable_modify. intros m []. split; try done. cbn.
  apply map_Forall_insert_2; [|done]. apply Forall_app. split; [|by repeat constructor].
  destruct (sl_offense_history m !! cnd_offender c) as [l|] eqn:Hl; cbn; [|constructor].
  by apply (sw_history0 _ l).
Qed.
#[local] Hint Resolve history_wf : stable.

Lemma execute_slash_wf c : stable (fst_rel keeps_wf) (execute_slash c).
Proof.
  unfold execute_slash, get_stake.
  destruct (severity (cnd_offense_type c)); cbn [is_tombstone ban_duration];
    repeat (known_step || (apply fst_stable_on_fst, record_ban_wf; done)).
Qed.

Lemma drain_pending_wf queue : stable (fst_rel keeps_wf) (drain_pending queue).
Proof.
  induction queue as [|c rest IH]; cbn [drain_pending]; [apply stable_ret; apply _|].
  apply stable_bind; [apply _| |intros _].
  { apply fst_stable_on_fst, pending_wf. }
  apply stable_bind; [apply _|apply stable_attempt, execute_slash_wf|intros r].
  apply stable_bind; [apply _|done|intros rs]. apply stable_ret. apply _.
Qed.

Lemma select_committee_size available id committee :
  select_committee config available id = Ok committee →
  llen committee = config.(slc_committee_size).
Proof.
  unfold select_committee. case_bool_decide as Hle; [done|]. intros Hrun.
  destruct (pick_nodes_spec (N.to_nat (slc_committee_size config)) 0 id available ∅)
    as (idxs & sel & Hrun' & Hlen & _ & _ & Hm).
  { rewrite size_empty. unfold llen in Hle. lia. }
  rewrite Hrun in Hrun'. injection Hrun' as <-. apply mapM_Some, Forall2_length in Hm.
  unfold llen. lia.
Qed.

Lemma submit_challenge_wf challenger job prover hash stake t nodes :
  stable (fst_rel keeps_wf) (submit_challenge challenger job prover hash stake t nodes).
Proof.
  unfold submit_challenge, get_stake. do 3 (apply stable_bind; [apply _|stable_body|intros ?]).
  intros s Hs. change ((gets (λ s0, sl_config s0.1) ≫= ?k) s) with (k (sl_config s.1) s).
  rewrite (sw_config _ _ Hs).
  destruct (select_committee config nodes _) as [committee|e| |] eqn:Hsel; try exact Hs.
  cbn [lift]. change ((lift (Ok committee) ≫= ?k) s) with (k committee s).
  destruct (u_add _ t _) as [expires|e| |]; try exact Hs.
  apply select_committee_size in Hsel. destruct Hs. split; try done. cbn.
  apply map_Forall_insert_2; [|done]. by split.
Qed.

Lemma submit_committee_vote_wf id voter agrees hash sig t :
  stable keeps_wf (submit_committee_vote id voter agrees hash sig t).
Proof.
  intros m Hm. unfold submit_committee_vote. mrun.
  destruct (sl_challenges m !! id) as [c|] eqn:Hc; cbn; [|done].
  case_bool_decide as Hin; cbn; [|done]. case_bool_decide; cbn; [done|].
  pose proof (sw_challenges _ _ Hm id c Hc) as [Hid Hsz Hv]. destruct Hm.
  split; try done. cbn. apply map_Forall_insert_2; [|done]. split; try done. cbn.
  by apply map_Forall_insert_2.
Qed.

Lemma delete_challenge_wf m id :
  slashing_wf config m → slashing_wf config (sl_with_challenges (delete id m.(sl_challenges)) m).
Proof. intros []. split; try done. cbn. by apply map_Forall_delete. Qed.

Lemma finalize_challenge_wf id t : stable (fst_rel keeps_wf) (finalize_challenge id t).
Proof.
  intros s Hs. unfold finalize_challenge.
  change ((gets fst ≫= ?k) s) with (k s.1 s). cbv beta zeta.
  destruct (sl_challenges s.1 !! id) as [c|]; [|exact Hs].
  apply (delete_challenge_wf _ id) in Hs.
  change ((ok_or (Some c) _ ≫= ?k) s) with (k c s).
  cbv beta zeta. rewrite run_modify_fst. cbv beta.
  set (s1 := (sl_with_challenges (delete id (sl_challenges s.1)) s.1, s.2)). change (slashing_wf config s1.1) in Hs.
  match goal with |- slashing_wf _ ((?f s1).2).1 => enough (stable (fst_rel keeps_wf) f) as Hf by exact (Hf s1 Hs) end.
  pose proof execute_slash_wf as He. clear Hs. stable_body; apply He.
Qed.

Lemma issue_to_wf targets t randomness : stable keeps_wf (issue_to targets t randomness).
Proof.
  induction targets as [|a rest IH]; cbn [issue_to]; [apply stable_ret; apply _|].
  intros m Hm. change ((get ≫= ?k) m) with (k m m). cbv beta zeta.
  destruct (u_add (E := SystemContractError) _ t _) as [deadline|e| |]; try exact Hm.
  change ((lift (Ok deadline) ≫= ?k) m) with (k deadline m). cbv beta zeta.
  change ((modify ?f ≫= ?k) m) with (k tt (f m)). cbv beta.
  match goal with |- slashing_wf _ ((?f ?s1).2) =>
    enough (stable keeps_wf f ∧ slashing_wf config s1) as [Hf Hs1] by exact (Hf s1 Hs1) end.
  split; [stable_body; exact IH|]. destruct Hm. split; try done. cbn.
  by apply map_Forall_insert_2.
Qed.

Lemma issue_attestation_challenges_wf nodes t randomness :
  stable keeps_wf (issue_attestation_challenges nodes t randomness).
Proof.
  intros m Hm. unfold issue_attestation_challenges. change ((get ≫= ?k) m) with (k m m). cbv beta zeta.
  destruct (u_add (E := SystemContractError) _ _ _) as [next|e| |]; try exact Hm.
  change ((lift (Ok next) ≫= ?k) m) with (k next m). cbv beta.
  case_bool_decide; [exact Hm|]. change ((modify ?f ≫= ?k) m) with (k tt (f m)). cbv beta.
  match goal with |- slashing_wf _ ((?f ?s1).2) =>
    enough (stable keeps_wf f ∧ slashing_wf config s1) as [Hf Hs1] by exact (Hf s1 Hs1) end.
  pose proof issue_to_wf as Hi. split; [stable_body; apply Hi|]. destruct Hm. by split.
Qed.

Lemma submit_attestation_response_wf id a t :
  stable keeps_wf (submit_attestation_response id a t).
Proof.
  intros m Hm. unfold submit_attestation_response. mrun.
  destruct (sl_attestation_challenges m !! id) as [c|] eqn:Hc; cbn; [|done].
  case_bool_decide; cbn; [done|]. destruct (sl_verify_attestation _ _ _) as [[]|e| |]; cbn; try done.
  pose proof (sw_attestations _ _ Hm id c Hc) as [Hid _]. destruct Hm. split; try done. cbn.
  by apply map_Forall_insert_2.
Qed.

Lemma process_expired_wf t : stable keeps_wf (process_expired_attestation_challenges t).
Proof.
  intros m Hm. unfold process_expired_attestation_challenges. mrun. destruct Hm.
  split; try done. cbn. generalize (filter (λ p, attestation_expired t p.2 = true)
    (map_to_list (sl_attestation_challenges m))). intros l.
  revert sw_attestations0. generalize (sl_attestation_challenges m).
  induction l as [|p l IH]; intros cs Hcs; cbn; [done|]. apply IH. by apply map_Forall_delete.
Qed.

Lemma metrics_zoom_wf {A} node (op : M SystemContractError ReliabilityMetrics A) :
  stable (maintains metrics_wf) op →
  stable keeps_wf (zoom (λ m, default ReliabilityMetrics_default (m.(sl_reliability) !! node))
                        (λ v m, sl_with_reliability (<[node := v]> m.(sl_reliability)) m) op).
Proof.
  intros Hop. eapply stable_zoom; [exact Hop|]. intros m v Hv Hm.
  assert (metrics_wf v) as Hnew.
  { apply Hv. destruct (sl_reliability m !! node) as [r|] eqn:Hr; cbn.
    - by apply (sw_reliability _ _ Hm node).
    - apply metrics_default_wf. }
  destruct Hm. split; try done. cbn. by apply map_Forall_insert_2.
Qed.

Lemma record_job_outcome_wf node success t : stable keeps_wf (record_job_outcome node success t).
Proof.
  unfold record_job_outcome, queue_slash.
  apply stable_bind; [apply _|apply metrics_zoom_wf, record_outcome_wf|intros _].
  apply stable_bind; [apply _|apply metrics_zoom_wf, calculate_score_wf|intros score].
  stable_body.
Qed.
End wf.

(** ** Tombstones *)
Definition tomb_rel : relation SlashingManager := λ m m',
  m.(sl_tombstones) ⊆ m'.(sl_tombstones)
  ∧ ∀ a, a ∈ m.(sl_tombstones) → m'.(sl_bans) !! a = m.(sl_bans) !! a.

#[export] Instance tomb_rel_preorder : PreOrder tomb_rel.
Proof.
  split; unfold tomb_rel.
  - intros m. by split.
  - intros m1 m2 m3 [H1 H2] [H3 H4]. split; [set_solver|].
    intros a Ha. rewrite (H4 a) by set_solver. auto.
Qed.

(** Only the records of [o] change. *)
Definition only_bans (o : Address) : relation SlashingManager := λ m m',
  m.(sl_tombstones) ⊆ m'.(sl_tombstones)
  ∧ ∀ a, a ≠ o → m'.(sl_bans) !! a = m.(sl_bans) !! a.

#[export] Instance only_bans_preorder o : PreOrder (only_bans o).
Proof.
  split; unfold only_bans.
  - intros m. by split.
  - intros m1 m2 m3 [H1 H2] [H3 H4]. split; [set_solver|]. intros a Ha. by rewrite H4, H2.
Qed.

(** An update of the other fields. *)
Definition same_bans (f : SlashingManager → SlashingManager) : Prop :=
  ∀ m, (f m).(sl_bans) = m.(sl_bans) ∧ (f m).(sl_tombstones) = m.(sl_tombstones).

Lemma modify_same_bans o f :
  same_bans f → stable (E := SystemContractError) (only_bans o) (modify f).
Proof. intros Hf. apply stable_modify. intros m. destruct (Hf m) as [Hb Ht]. split; [by rewrite Ht|by rewrite Hb]. Qed.

Lemma modify_same_tombs f :
  same_bans f → stable (E := SystemContractError) tomb_rel (modify f).
Proof. intros Hf. apply stable_modify. intros m. destruct (Hf m) as [Hb Ht]. split; [by rewrite Ht|by rewrite Hb]. Qed.

#[export] Hint Extern 3 (stable (only_bans _) (modify _)) =>
  apply modify_same_bans; intros ?; split; reflexivity : stable.
#[export] Hint Extern 3 (stable tomb_rel (modify _)) =>
  apply modify_same_tombs; intros ?; split; reflexivity : stable.
#[export] Hint Extern 3 (stable (only_bans _) (push_slashing_event _)) =>
  apply modify_same_bans; intros ?; split; reflexivity : stable.
#[export] Hint Extern 3 (stable tomb_rel (push_slashing_event _)) =>
  apply modify_same_tombs; intros ?; split; reflexivity : stable.

Section tombstones.
Context `{Build, Crypto, EvidenceFormat}.

Lemma record_ban_only o at_ until offense tombstoned :
  stable (only_bans o) (record_ban o at_ until offense tombstoned).
Proof.
  unfold record_ban. apply stable_bind; [apply _| |intros _].
  - apply stable_when; [apply _|]. apply stable_modify. intros m. split; [set_solver|done].
  - apply stable_bind; [apply _|apply stable_get; apply _|intros m0].
    apply stable_bind; [apply _|apply stable_lift; apply _|intros count].
    apply stable_modify. intros m. split; [done|]. intros a Ha. cbn.
    by rewrite lookup_insert_ne.
Qed.
#[local] Hint Resolve record_ban_only : stable.

Lemma execute_slash_only c : stable (fst_rel (only_bans (cnd_offender c))) (execute_slash c).
Proof. unfold execute_slash, get_stake. stable_body. Qed.

(** A tombstoned offender is refused before anything changes. *)
Lemma execute_slash_tombstoned c s :
  cnd_offender c ∈ s.1.(sl_tombstones) →
  execute_slash c s = (Err (SlashingError "Slashing is disabled"), s)
  ∨ execute_slash c s = (Err (SlashingError "Address is already tombstoned"), s).
Proof.
  intros Hin. unfold execute_slash. mrun.
  destruct (slc_enabled (sl_config s.1)); [right|by left].
  by rewrite bool_decide_true by done.
Qed.

Lemma execute_slash_tomb c : stable (fst_rel tomb_rel) (execute_slash c).
Proof.
  intros s. unfold fst_rel. destruct (decide (cnd_offender c ∈ s.1.(sl_tombstones))) as [Hin|Hnot].
  - by destruct (execute_slash_tombstoned c s Hin) as [-> | ->].
  - destruct (execute_slash_only c s) as [Hsub Hb]. split; [done|].
    intros a Ha. apply Hb. intros ->. done.
Qed.
#[local] Hint Resolve execute_slash_tomb : stable.

Lemma drain_pending_tomb queue : stable (fst_rel tomb_rel) (drain_pending queue).
Proof.
  induction queue as [|c rest IH]; cbn [drain_pending]; [apply stable_ret; apply _|].
  stable_body.
Qed.

Lemma issue_to_tomb targets t randomness : stable tomb_rel (issue_to targets t randomness).
Proof.
  induction targets as [|a rest IH]; cbn [issue_to]; [apply stable_ret; apply _|].
  stable_body.
Qed.
#[local] Hint Resolve drain_pending_tomb issue_to_tomb : stable.

Lemma metrics_zoom_tomb {A} node (op : M SystemContractError ReliabilityMetrics A) :
  stable tomb_rel (zoom (λ m, default ReliabilityMetrics_default (m.(sl_reliability) !! node))
                        (λ v m, sl_with_reliability (<[node := v]> m.(sl_reliability)) m) op).
Proof. intros m. by split. Qed.
#[local] Hint Resolve metrics_zoom_tomb : stable.

(** ** Histories *)
Inductive sl_op :=
| SlashOp (c : SlashingCondition)
| QueueOp (c : SlashingCondition)
| ProcessPendingOp
| ChallengeOp (challenger : Address) (job : JobId) (prover : Address) (hash : Hash)
    (stake : TokenAmount) (t : N) (nodes : list Address)
| VoteOp (id : Hash) (voter : Address) (agrees : bool) (hash : Hash) (sig : bytes) (t : N)
| FinalizeOp (id : Hash) (t : N)
| IssueOp (nodes : list Address) (t : N) (randomness : bytes)
| ResponseOp (id : Hash) (a : TeeAttestation) (t : N)
| ExpireOp (t : N)
| OutcomeOp (node : Address) (success : bool) (t : N)
| DrainEventsOp.

Definition sl_run (op : sl_op) (s : SlashState) : SlashState :=
  match op with
  | SlashOp c => (execute_slash c s).2
  | QueueOp c => (on_fst (queue_slash c) s).2
  | ProcessPendingOp => (process_pending_slashes s).2
  | ChallengeOp challenger job prover hash stake t nodes =>
      (submit_challenge challenger job prover hash stake t nodes s).2
  | VoteOp id voter agrees hash sig t =>
      (on_fst (submit_committee_vote id voter agrees hash sig t) s).2
  | FinalizeOp id t => (finalize_challenge id t s).2
  | IssueOp nodes t randomness => (on_fst (issue_attestation_challenges nodes t randomness) s).2
  | ResponseOp id a t => (on_fst (submit_attestation_response id a t) s).2
  | ExpireOp t => (on_fst (process_expired_attestation_challenges t) s).2
  | OutcomeOp node success t => (on_fst (record_job_outcome node success t) s).2
  | DrainEventsOp => (on_fst sl_drain_events s).2
  end.

(** Operations of the manager, interleaved with anything the other owners of the
    bank do to it. *)
Inductive sl_step : relation SlashState :=
| sl_step_op op s : sl_step s (sl_run op s)
| sl_step_bank m l l' : sl_step (m, l) (m, l').

Lemma sl_run_wf config op s : slashing_wf config s.1 → slashing_wf config (sl_run op s).1.
Proof.
  intros Hs. destruct op; cbn [sl_run].
  - by apply execute_slash_wf.
  - by apply (fst_stable_on_fst _ _ (pending_wf config (λ m, m.(sl_pending_slashes) ++ [c]))).
  - by apply drain_pending_wf.
  - by apply submit_challenge_wf.
  - by apply (fst_stable_on_fst _ _ (submit_committee_vote_wf config id voter agrees hash sig t)).
  - by apply finalize_challenge_wf.
  - by apply (fst_stable_on_fst _ _ (issue_attestation_challenges_wf config nodes t randomness)).
  - by apply (fst_stable_on_fst _ _ (submit_attestation_response_wf config id a t)).
  - by apply (fst_stable_on_fst _ _ (process_expired_wf config t)).
  - by apply (fst_stable_on_fst _ _ (record_job_outcome_wf config node success t)).
  - destruct Hs. by split.
Qed.

Lemma sl_run_tomb op s : tomb_rel s.1 (sl_run op s).1.
Proof.
  assert (∀ A (m : M SystemContractError SlashState A), stable (fst_rel tomb_rel) m →
    tomb_rel s.1 (m s).2.1) as Hrun by (intros A m Hm; apply Hm).
  destruct op; cbn [sl_run]; apply Hrun; try apply fst_stable_on_fst.
  - apply execute_slash_tomb.
  - unfold queue_slash. stable_body.
  - unfold process_pending_slashes. stable_body.
  - unfold submit_challenge, get_stake. stable_body.
  - unfold submit_committee_vote. stable_body.
  - unfold finalize_challenge. stable_body.
  - unfold issue_attestation_challenges. stable_body.
  - unfold submit_attestation_response. stable_body.
  - unfold process_expired_attestation_challenges. stable_body.
  - unfold record_job_outcome, queue_slash. stable_body.
  - intros m. by split.
Qed.
End tombstones.

(** C38: well-formed records.  From a new manager, whatever operations run and
    whatever other contracts do to the shared bank in between, every ban record is
    filed under its own address and a tombstoned one is in the tombstone set with no
    expiry, every open challenge is filed under its id with a committee of the
    configured size and votes of members only, an attestation challenge counts as
    answered exactly when its attestation was verified, every reliability score is
    at most 10000 basis points over at most 100 outcomes, and the offense history
    files each condition under its offender. *)
Theorem slashing_records_wf `{Build, Crypto, EvidenceFormat} config lock s :
  rtc sl_step (SlashingManager_new config, lock) s → slashing_wf config s.1.
Proof.
  intros Hr. assert (slashing_wf config (SlashingManager_new config, lock).1) as Hnew
    by apply slashing_wf_new. revert Hnew.
  induction Hr as [s|s1 s2 s3 Hstep _ IH]; intros Hs; [done|]. apply IH.
  destruct Hstep; [by apply sl_run_wf|done].
Qed.

(** A tombstone is permanent.  Once an address is tombstoned, after any further
    operations it still is, its ban record is unchanged, it is banned at every time,
    and every further slash of it is refused without any effect on the manager or
    the bank. *)
Lemma tombstone_permanent `{Build, Crypto, EvidenceFormat} s s' a :
  a ∈ s.1.(sl_tombstones) → rtc sl_step s s' →
  is_tombstoned s'.1 a = true
  ∧ get_ban_record s'.1 a = get_ban_record s.1 a
  ∧ (∀ t, sl_is_banned s'.1 a t = true)
  ∧ ∀ c, c.(cnd_offender) = a → ∃ e, execute_slash c s' = (Err e, s').
Proof.
  intros Ha Hr.
  assert (tomb_rel s.1 s'.1) as [Hsub Hb].
  { clear Ha. induction Hr as [s|s1 s2 s3 Hstep _ IH]; [done|]. etrans; [|exact IH].
    destruct Hstep; [apply sl_run_tomb|done]. }
  assert (a ∈ s'.1.(sl_tombstones)) as Ha' by set_solver. split_and!.
  - by apply bool_decide_eq_true.
  - by apply Hb.
  - intros t. unfold sl_is_banned. by rewrite bool_decide_true.
  - intros c <-. destruct (execute_slash_tombstoned c s' Ha') as [-> | ->]; eauto.
Qed.
