(* ===== verification/SlashingFunds.v ===== *)
(** * Slashing and the bank

    Which tokens a slash takes, that the stake of an open challenge is always
    there to be returned, and when a committee's votes convict. *)
From S2P Require Import Prelude SysTypes Bank BankSpec F64 Precompile Slashing SlashingSpec Samples.
From stdpp Require Import base gmap sets list strings.
From Stdlib Require Import ZArith Lia SpecFloat.
#[local] Open Scope N_scope.

(** ** Locked amounts *)
Lemma upd_same f a v : upd f a v a = v.
Proof. unfold upd. by rewrite decide_True. Qed.

Definition locked_of (a : Address) (b : Bank) : N := acc_locked (account_or_default a b).

Lemma get_locked_balance_eq b a : get_locked_balance b a = locked_of a b.
Proof. unfold locked_of. by destruct (abs_observers b a) as (_ & <- & _). Qed.

(** Transfers, and so burns, move free tokens only. *)
Lemma transfer_locked from to n b a : locked_of a (transfer from to n b).2 = locked_of a b.
Proof.
  unfold locked_of. rewrite transfer_eq. cbn.
  case_bool_decide; [done|]. case_bool_decide; [by cbn; rewrite account_or_default_touch|].
  destruct (is_locked _ _); [by cbn; rewrite account_or_default_touch|].
  unfold transfer_post, log. cbn. unfold credit, debit, burn_supply.
  case_bool_decide; cbn;
    change (account_or_default ?x (with_events _ ?b)) with (account_or_default x b);
    rewrite ?account_or_default_supply, ?account_or_default_lookup;
    repeat case_decide; subst; cbn; rewrite ?account_or_default_lookup; repeat case_decide; subst;
    done || congruence.
Qed.

Lemma transfer_wf from to n b : bank_wf b → bank_wf (transfer from to n b).2.
Proof. intros Hb. by apply transfer_step. Qed.

(** ** Stakes of open challenges *)
Definition stake_of (a : Address) (c : Challenge) : N :=
  if bool_decide (c.(ch_challenger) = a) then c.(ch_challenger_stake_locked) else 0.

Definition challenge_stakes (m : SlashingManager) (a : Address) : N :=
  map_sum (stake_of a) m.(sl_challenges).

Record challenges_backed (s : SlashState) : Prop := {
  bkd_wf : bank_wf s.2.(rw_val);
  bkd_locked : ∀ a, challenge_stakes s.1 a <= locked_of a s.2.(rw_val);
}.

(** From one state to the next: the challenges stay, the locks do not shrink. *)
Definition keeps_locks : relation SlashState := λ s s',
  s'.1.(sl_challenges) = s.1.(sl_challenges)
  ∧ (bank_wf s.2.(rw_val) → bank_wf s'.2.(rw_val))
  ∧ ∀ a, locked_of a s'.2.(rw_val) = locked_of a s.2.(rw_val).

#[export] Instance keeps_locks_preorder : PreOrder keeps_locks.
Proof.
  split; unfold keeps_locks.
  - intros s. by split_and!.
  - intros s1 s2 s3 (H1 & H2 & H3) (H4 & H5 & H6).
    split_and!; [congruence|auto|intros; by rewrite H6].
Qed.

Lemma keeps_locks_backed s s' : keeps_locks s s' → challenges_backed s → challenges_backed s'.
Proof.
  intros (Hc & Hwf & Hl) [Hb Hs]. split; [auto|]. intros a. rewrite Hl.
  unfold challenge_stakes. rewrite Hc. apply Hs.
Qed.

Lemma write_transfer_keeps from to n : stable keeps_locks (bank_write (transfer from to n)).
Proof.
  intros [m [b []]]; [change (keeps_locks (m, mkRwLock b true) (m, mkRwLock b true)); reflexivity|].
  change (keeps_locks (m, mkRwLock b false) (m, mkRwLock (transfer from to n b).2 false)).
  split; [reflexivity|]. split; [exact (transfer_wf from to n b)|exact (transfer_locked from to n b)].
Qed.

Lemma write_burn_keeps from n : stable keeps_locks (bank_write (burn from n)).
Proof. unfold burn. exact (write_transfer_keeps from BURN_ADDRESS n). Qed.

Lemma read_keeps {A} (q : Bank → A) : stable keeps_locks (bank_read q).
Proof. intros s. unfold bank_read. destruct (rw_held _); cbn; reflexivity. Qed.

(** An update of the manager that leaves the challenges alone. *)
Lemma on_fst_keeps {A} (op : SlashM A) :
  (∀ m, sl_challenges (op m).2 = sl_challenges m) → stable keeps_locks (on_fst op).
Proof. intros Hop s. split_and!; [apply Hop|done|done]. Qed.

#[export] Hint Resolve write_transfer_keeps write_burn_keeps read_keeps : stable.
#[export] Hint Extern 3 (stable keeps_locks (on_fst (modify _))) =>
  apply on_fst_keeps; intros ?; reflexivity : stable.
#[export] Hint Extern 3 (stable keeps_locks (on_fst (push_slashing_event _))) =>
  apply on_fst_keeps; intros ?; reflexivity : stable.

Section funds.
Context `{Build, Crypto, EvidenceFormat}.

Lemma record_ban_challenges a at_ until offense tombstoned m :
  sl_challenges (record_ban a at_ until offense tombstoned m).2 = sl_challenges m.
Proof.
  unfold record_ban. mrun. destruct tombstoned; cbn;
    by destruct (match sl_bans m !! a with Some _ => _ | None => _ end).
Qed.

Lemma record_ban_keeps a at_ until offense tombstoned :
  stable keeps_locks (on_fst (record_ban a at_ until offense tombstoned)).
Proof. apply on_fst_keeps. intros m. apply record_ban_challenges. Qed.
#[local] Hint Resolve record_ban_keeps : stable.

Lemma execute_slash_keeps c : stable keeps_locks (execute_slash c).
Proof. unfold execute_slash, get_stake. stable_body. Qed.
#[local] Hint Resolve execute_slash_keeps : stable.

Lemma drain_pending_keeps queue : stable keeps_locks (drain_pending queue).
Proof.
  induction queue as [|c rest IH]; cbn [drain_pending]; [apply stable_ret; apply _|].
  stable_body.
Qed.

Lemma issue_to_challenges targets t randomness m :
  sl_challenges (issue_to targets t randomness m).2 = sl_challenges m.
Proof.
  revert m. induction targets as [|a rest IH]; intros m; [done|]. cbn [issue_to]. mrun.
  destruct (u_add _ _ _); cbn; try done.
  match goal with |- context [issue_to rest t randomness ?m1] => specialize (IH m1) end.
  destruct (issue_to rest t randomness _) as [[] m2]; cbn in *; done.
Qed.

Lemma issue_challenges nodes t randomness m :
  sl_challenges (issue_attestation_challenges nodes t randomness m).2 = sl_challenges m.
Proof.
  unfold issue_attestation_challenges. mrun. destruct (u_add _ _ _); cbn; try done.
  case_bool_decide; [done|]. cbn. destruct (u_mul _ _ _); cbn; try done.
  destruct (select_random_nodes _ _ _); cbn; try done. by rewrite issue_to_challenges.
Qed.

(** ** The operations that open and close challenges *)
Lemma submit_challenge_backed challenger job prover hash stake t nodes s :
  challenges_backed s → challenges_backed (submit_challenge challenger job prover hash stake t nodes s).2.
Proof.
  intros Hs. destruct s as [m [b held]]. unfold submit_challenge, get_stake, bank_read.
  destruct held; [exact Hs|]. unfold bank_write, with_write. mrun.
  case_bool_decide; cbn; [done|]. rewrite lock_eq.
  destruct (bk_accounts b !! challenger) as [acc|] eqn:Hacc; cbn; [|done].
  case_bool_decide as Hav; cbn; [done|].
  set (b' := put_account challenger _ b).
  assert (bank_wf b') as Hwf'.
  { pose proof (lock_step challenger stake b) as Hst. rewrite lock_eq, Hacc in Hst. cbn in Hst.
    rewrite bool_decide_false in Hst by done. apply Hst, Hs. }
  assert (∀ a, locked_of a b' = locked_of a b + (if decide (a = challenger) then stake else 0)) as Hl.
  { intros a. unfold b', locked_of. rewrite account_or_default_lookup.
    apply account_lookup in Hacc as <-. pose proof (account_bounds challenger b (bkd_wf _ Hs)) as Hbd.
    case_decide; [subst a|lia]. cbn. unfold sat_add, available, sat_sub in *. lia. }
  assert (challenges_backed (m, mkRwLock b' false)) as Hs'.
  { split; [done|]. intros a. cbn. rewrite Hl. pose proof (bkd_locked _ Hs a) as Hb. cbn in Hb. lia. }
  destruct (select_committee _ _ _) as [committee|e| |]; cbn; try exact Hs'.
  destruct (u_add _ _ _) as [expires|e| |]; cbn; try exact Hs'.
  split; [done|]. intros a. cbn. rewrite Hl. pose proof (bkd_locked _ Hs a) as Hb. cbn in Hb.
  unfold challenge_stakes in *. cbn.
  match goal with |- map_sum _ (<[?k := ?c]> _) <= _ =>
    pose proof (map_sum_insert (stake_of a) (sl_challenges m) k c) as Hsum;
    assert (stake_of a c = if decide (a = challenger) then stake else 0) as Hst
  end.
  { unfold stake_of. cbn. case_bool_decide; case_decide; congruence. }
  rewrite Hst in Hsum. revert Hsum. generalize (if decide (a = challenger) then stake else 0). lia.
Qed.

(** Closing a challenge returns its stake. *)
Lemma delete_stakes m id c a :
  m.(sl_challenges) !! id = Some c →
  challenge_stakes m a
  = stake_of a c + challenge_stakes (sl_with_challenges (delete id m.(sl_challenges)) m) a.
Proof. intros Hc. unfold challenge_stakes. cbn. by apply map_sum_delete. Qed.

Lemma unlock_backed m b id c :
  challenges_backed (m, mkRwLock b false) → m.(sl_challenges) !! id = Some c →
  0 < c.(ch_challenger_stake_locked) →
  ∃ b', unlock c.(ch_challenger) c.(ch_challenger_stake_locked) b = (Ok tt, b')
  ∧ challenges_backed (sl_with_challenges (delete id m.(sl_challenges)) m, mkRwLock b' false)
  ∧ abs b' ≡ spec_move c.(ch_challenger)
      (lg_free (abs b) c.(ch_challenger) + c.(ch_challenger_stake_locked))
      (lg_held (abs b) c.(ch_challenger) - c.(ch_challenger_stake_locked)) (abs b).
Proof.
  intros Hs Hc Hpos. set (a := ch_challenger c). set (n := ch_challenger_stake_locked c).
  assert (∀ x, challenge_stakes m x
    = stake_of x c + challenge_stakes (sl_with_challenges (delete id m.(sl_challenges)) m) x) as Hd
    by (intros; by apply delete_stakes).
  assert (stake_of a c = n) as Hst by (unfold stake_of; by rewrite bool_decide_true).
  pose proof (bkd_locked _ Hs a) as Hle. cbn in Hle. rewrite Hd, Hst in Hle.
  pose proof (unlock_simulates a n b ltac:(lia) (bkd_wf _ Hs)) as Hsim.
  unfold simulates, spec_unlock in Hsim. cbn in Hsim. unfold locked_of in Hle.
  rewrite bool_decide_false in Hsim by lia. destruct Hsim as [Hok Habs].
  pose proof (unlock_step a n b (bkd_wf _ Hs)) as [Hwf' _].
  destruct (unlock a n b) as [o b'] eqn:Hun. destruct o as [[]| | |]; try done. exists b'.
  split; [done|]. split; [|exact Habs]. cbn in *. split; [done|]. intros x.
  destruct Habs as (_ & Hheld & _). specialize (Hheld x). cbn in Hheld. unfold locked_of. cbn.
  pose proof (bkd_locked _ Hs x) as Hx. cbn in Hx. rewrite Hd in Hx. unfold locked_of in Hx.
  rewrite Hheld. unfold upd. case_decide as Hxa; [subst x; lia|]. unfold stake_of in Hx.
  rewrite bool_decide_false in Hx by (intros Heq; by apply Hxa). lia.
Qed.

Lemma unlock_backed_any m b id c :
  challenges_backed (m, mkRwLock b false) → m.(sl_challenges) !! id = Some c →
  challenges_backed (sl_with_challenges (delete id m.(sl_challenges)) m,
          mkRwLock (unlock c.(ch_challenger) c.(ch_challenger_stake_locked) b).2 false).
Proof.
  intros Hs Hc. destruct (decide (ch_challenger_stake_locked c = 0)) as [Hz|Hnz].
  - rewrite Hz, unlock_eq. pose proof (delete_stakes m id c) as Hd.
    assert (∀ b', bank_wf b' → (∀ x, locked_of x b' = locked_of x b) →
      challenges_backed (sl_with_challenges (delete id m.(sl_challenges)) m, mkRwLock b' false)) as Hsame.
    { intros b' Hwf Hl. split; [done|]. intros x. cbn. rewrite Hl.
      pose proof (bkd_locked _ Hs x) as Hx. cbn in Hx. rewrite (Hd x Hc) in Hx. lia. }
    pose proof (unlock_step (ch_challenger c) 0 b (bkd_wf _ Hs)) as [Hwf' _].
    rewrite unlock_eq in Hwf'.
    destruct (bk_accounts b !! ch_challenger c) as [acc|] eqn:Ha; [|apply Hsame; [apply Hs|done]].
    rewrite (bool_decide_false (acc_locked acc < 0)) in * by lia.
    apply Hsame; [exact Hwf'|]. intros x. unfold locked_of. cbn [snd].
    rewrite account_or_default_lookup. case_decide; [|done]. subst x.
    apply account_lookup in Ha as ->. cbn. unfold sat_sub. lia.
  - destruct (unlock_backed m b id c Hs Hc ltac:(lia)) as (b' & -> & Hb' & _). exact Hb'.
Qed.

(** Everything after the unlock leaves the locks alone. *)
Lemma after_unlock {A} m b id c (k : () → M SystemContractError SlashState A) :
  challenges_backed (m, mkRwLock b false) → m.(sl_challenges) !! id = Some c →
  (∀ u, stable keeps_locks (k u)) →
  challenges_backed ((bank_write (unlock c.(ch_challenger) c.(ch_challenger_stake_locked)) ≫= k)
            (sl_with_challenges (delete id m.(sl_challenges)) m, mkRwLock b false)).2.
Proof.
  intros Hs Hc Hk. pose proof (unlock_backed_any m b id c Hs Hc) as Hb.
  unfold bank_write, on_snd, zoom, with_write, mbind, M_bind. cbn.
  destruct (unlock _ _ b) as [[[]|e| |] b'] eqn:Hun; cbn in *; try exact Hb.
  eapply keeps_locks_backed; [apply Hk|exact Hb].
Qed.

Lemma finalize_challenge_backed id t s : challenges_backed s → challenges_backed (finalize_challenge id t s).2.
Proof.
  intros Hs. destruct s as [m [b held]]. unfold finalize_challenge.
  change ((gets fst ≫= ?k) (m, ?l)) with (k m (m, l)). cbv beta zeta.
  destruct (sl_challenges m !! id) as [c|] eqn:Hc; [|exact Hs].
  change ((ok_or (Some c) _ ≫= ?k) ?s) with (k c s). cbv beta zeta. rewrite run_modify_fst. cbv beta.
  cbn [fst snd].
  assert (challenges_backed (sl_with_challenges (delete id (sl_challenges m)) m, mkRwLock b held)) as Hdel.
  { split; [apply Hs|]. intros a. cbn. pose proof (bkd_locked _ Hs a) as Ha. cbn in Ha.
    rewrite (delete_stakes m id c a Hc) in Ha. lia. }
  destruct held.
  { case_bool_decide; [exact Hdel|]. destruct (challenge_succeeds _ _); [exact Hdel|].
    destruct (u_mul (E := SystemContractError) _ _ _); exact Hdel. }
  case_bool_decide; [apply after_unlock; [done..|]; intros; stable_body|].
  destruct (challenge_succeeds _ _); [apply after_unlock; [done..|]; intros; stable_body|].
  destruct (u_mul (E := SystemContractError) _ _ _) as [product|e| |]; try exact Hdel.
  change ((lift (Ok product) ≫= ?k) ?s) with (k product s). cbv beta.
  apply after_unlock; [done..|]. intros. stable_body.
Qed.

Lemma submit_committee_vote_backed id voter agrees hash sig t s :
  challenges_backed s → challenges_backed (on_fst (submit_committee_vote id voter agrees hash sig t) s).2.
Proof.
  intros Hs. destruct s as [m l]. unfold on_fst, zoom, submit_committee_vote. mrun.
  destruct (sl_challenges m !! id) as [c|] eqn:Hc; cbn; [|done].
  case_bool_decide; cbn; [|done]. case_bool_decide; cbn; [done|].
  split; [apply Hs|]. intros a. cbn. pose proof (bkd_locked _ Hs a) as Ha. cbn in Ha.
  unfold challenge_stakes in *. cbn.
  match goal with |- map_sum _ (<[id := ?c']> _) <= _ =>
    pose proof (map_sum_insert_Some (stake_of a) _ id c' c Hc) as Hsum end.
  unfold stake_of in Hsum at 2 4. cbn in Hsum. lia.
Qed.

Lemma sl_run_backed op s : challenges_backed s → challenges_backed (sl_run op s).
Proof.
  intros Hs. destruct op; cbn [sl_run].
  - eapply keeps_locks_backed; [apply execute_slash_keeps|done].
  - eapply keeps_locks_backed; [|exact Hs]. by apply on_fst_keeps.
  - eapply keeps_locks_backed; [apply drain_pending_keeps|done].
  - by apply submit_challenge_backed.
  - by apply submit_committee_vote_backed.
  - by apply finalize_challenge_backed.
  - eapply keeps_locks_backed; [|exact Hs]. apply on_fst_keeps, issue_challenges.
  - eapply keeps_locks_backed; [|exact Hs]. apply on_fst_keeps. intros m.
    unfold submit_attestation_response. mrun.
    destruct (_ !! id); cbn; [|done]. case_bool_decide; [done|]. cbn.
    by destruct (sl_verify_attestation _ _ _) as [[]|e| |].
  - eapply keeps_locks_backed; [|exact Hs]. by apply on_fst_keeps.
  - eapply keeps_locks_backed; [|exact Hs]. apply on_fst_keeps. intros m.
    unfold record_job_outcome, queue_slash, zoom. mrun.
    destruct (record_outcome _ _) as [[]]; cbn; try done.
    destruct (calculate_score _ _) as [[]]; cbn; try done.
    by destruct (is_below_threshold _).
  - eapply keeps_locks_backed; [|exact Hs]. by apply on_fst_keeps.
Qed.
End funds.

(** Operations of the manager, and of the bank's other owners as long as they
    release only locks of their own. *)
Inductive fund_step `{Build, Crypto, EvidenceFormat} : relation SlashState :=
| fund_step_op op s : fund_step s (sl_run op s)
| fund_step_bank m l l' :
    bank_wf l'.(rw_val) → (∀ a, challenge_stakes m a <= locked_of a l'.(rw_val)) →
    fund_step (m, l) (m, l').

(** The stake of a challenge is always returned.  In every state reached from a
    new manager over a well-formed bank, by any operations of the manager and by
    other contracts that release only locks of their own, an open challenge that has
    expired can be closed: the call reports the expiry, removes the challenge and
    moves exactly its stake from the challenger's locked to his free balance; and a
    challenge the votes reject costs the challenger exactly the configured share
    of the stake, burned, the rest being free again. *)
Lemma challenge_stake_returned `{Build, Crypto, EvidenceFormat} config lock s id c t :
  bank_wf lock.(rw_val) → rtc fund_step (SlashingManager_new config, lock) s →
  s.2.(rw_held) = false → s.1.(sl_challenges) !! id = Some c →
  0 < c.(ch_challenger_stake_locked) →
  let a := c.(ch_challenger) in
  let n := c.(ch_challenger_stake_locked) in
  let l := abs s.2.(rw_val) in
  let penalty := n * s.1.(sl_config).(slc_spam_penalty_percent) / 100 in
  (c.(ch_expires_at) < t →
     ∃ s', finalize_challenge id t s = (Err (SlashingError "Challenge expired"), s')
     ∧ s'.1.(sl_challenges) = delete id s.1.(sl_challenges)
     ∧ abs s'.2.(rw_val) ≡ spec_move a (lg_free l a + n) (lg_held l a - n) l)
  ∧ (t <= c.(ch_expires_at) →
     challenge_succeeds s.1.(sl_config).(slc_committee_threshold) c = false →
     n * s.1.(sl_config).(slc_spam_penalty_percent) <= U128_MAX →
     0 < penalty → penalty <= n → lg_frozen l a = false →
     ∃ r s', finalize_challenge id t s = (Ok r, s') ∧ r.(slr_burn_amount) = penalty
     ∧ s'.1.(sl_challenges) = delete id s.1.(sl_challenges)
     ∧ lg_free (abs s'.2.(rw_val)) a = lg_free l a + (n - penalty)
     ∧ lg_held (abs s'.2.(rw_val)) a = lg_held l a - n
     ∧ lg_burned (abs s'.2.(rw_val)) = lg_burned l + penalty).
Proof.
  intros Hwf Hr Hheld Hc Hpos a n l penalty.
  assert (challenges_backed s) as Hs.
  { assert (challenges_backed (SlashingManager_new config, lock)) as Hnew.
    { split; [done|]. intros x. unfold challenge_stakes. cbn. rewrite map_sum_empty. lia. }
    clear -Hr Hnew. revert Hnew.
    induction Hr as [s|s1 s2 s3 Hstep _ IH]; intros Hs; [done|]. apply IH.
    destruct Hstep; [by apply sl_run_backed|by split]. }
  destruct s as [m [b held]]. cbn in Hheld. subst held. cbn in *.
  destruct (unlock_backed m b id c Hs Hc Hpos) as (b' & Hun & Hb' & Habs). fold a n l in Habs, Hun.
  split.
  - intros Ht. eexists. split.
    { unfold finalize_challenge, bank_write, with_write. mrun. rewrite Hc. cbn.
      rewrite bool_decide_true by done. cbn. fold a n. rewrite Hun. reflexivity. }
    split; [done|]. exact Habs.
  - intros Ht Hv Hmul Hpen Hle Hfroz.
    destruct Habs as (Hfree & Hheld & Hfz & Hsup & Hburned). cbn in Hfree, Hheld, Hfz, Hsup, Hburned.
    pose proof (transfer_simulates a BURN_ADDRESS penalty b' (bkd_wf _ Hb')) as Hsim.
    unfold simulates, spec_transfer in Hsim. cbn in Hsim.
    rewrite !Hfree, !Hfz in Hsim. rewrite !upd_same in Hsim.
    rewrite (bool_decide_false (penalty = 0)) in Hsim by lia.
    cbn in Hfroz. rewrite Hfroz in Hsim.
    rewrite (bool_decide_false (available _ + n < penalty)) in Hsim by lia. cbn in Hsim.
    rewrite (bool_decide_true (BURN_ADDRESS = BURN_ADDRESS)) in Hsim by done. destruct Hsim as [Hok (Hf2 & Hh2 & _ & _ & Hb2)].
    destruct (transfer a BURN_ADDRESS penalty b') as [o b''] eqn:Htr. destruct o as [[]| | |]; try done.
    cbn in Hf2, Hh2, Hb2. do 2 eexists. split.
    { unfold finalize_challenge, bank_write, with_write. mrun. rewrite Hc. cbn.
      rewrite bool_decide_false by lia. rewrite Hv. cbn. fold a n. rewrite u_mul_ok by done. cbn.
      fold penalty. rewrite Hun. cbn. unfold burn. rewrite Htr. reflexivity. }
    cbn. split_and!; try done.
    + rewrite Hf2, upd_same. lia.
    + by rewrite Hh2, Hheld, upd_same.
    + rewrite Hb2, Hburned. done.
Qed.

(** ** An executed slash *)

(** A burn of [n] free tokens, as the ledger sees it. *)
Lemma burn_ok a n b :
  bank_wf b → 0 < n → n <= lg_free (abs b) a → lg_frozen (abs b) a = false →
  ∃ b', burn a n b = (Ok tt, b') ∧ bank_wf b'
  ∧ (∀ x, lg_free (abs b') x = upd (lg_free (abs b)) a (lg_free (abs b) a - n) x)
  ∧ (∀ x, lg_held (abs b') x = lg_held (abs b) x)
  ∧ lg_burned (abs b') = lg_burned (abs b) + n.
Proof.
  intros Hwf Hn Hle Hf. pose proof (transfer_simulates a BURN_ADDRESS n b Hwf) as Hsim.
  pose proof (transfer_wf a BURN_ADDRESS n b Hwf) as Hwf'.
  unfold simulates, spec_transfer in Hsim. rewrite Hf in Hsim.
  rewrite (bool_decide_false (n = 0)) in Hsim by lia.
  rewrite (bool_decide_false (lg_free (abs b) a < n)) in Hsim by lia. cbn [orb] in Hsim.
  rewrite (bool_decide_true (BURN_ADDRESS = BURN_ADDRESS)) in Hsim by done.
  destruct Hsim as [Hok (H1 & H2 & _ & _ & H3)]. unfold burn.
  destruct (transfer a BURN_ADDRESS n b) as [[[]| | |] b']; try done. exists b'. by split_and!.
Qed.

(** A transfer of [n] free tokens to another account. *)
Lemma transfer_ok a r n b :
  bank_wf b → 0 < n → n <= lg_free (abs b) a → lg_frozen (abs b) a = false →
  r ≠ BURN_ADDRESS → r ≠ a →
  ∃ b', transfer a r n b = (Ok tt, b') ∧ bank_wf b'
  ∧ lg_free (abs b') a = lg_free (abs b) a - n ∧ lg_free (abs b') r = lg_free (abs b) r + n
  ∧ (∀ x, lg_held (abs b') x = lg_held (abs b) x)
  ∧ lg_frozen (abs b') a = false ∧ lg_burned (abs b') = lg_burned (abs b).
Proof.
  intros Hwf Hn Hle Hf Hr Hra. pose proof (transfer_simulates a r n b Hwf) as Hsim.
  pose proof (transfer_wf a r n b Hwf) as Hwf'.
  unfold simulates, spec_transfer in Hsim. rewrite Hf in Hsim.
  rewrite (bool_decide_false (n = 0)) in Hsim by lia.
  rewrite (bool_decide_false (lg_free (abs b) a < n)) in Hsim by lia. cbn [orb] in Hsim.
  rewrite (bool_decide_false (r = BURN_ADDRESS)) in Hsim by done.
  destruct Hsim as [Hok (H1 & H2 & H3 & _ & H4)].
  destruct (transfer a r n b) as [[[]| | |] b']; try done. exists b'.
  cbn [snd lg_free lg_held lg_frozen lg_burned] in *.
  split_and!; try done.
  - rewrite H1. unfold upd. by rewrite decide_False, decide_True by done.
  - rewrite H1. unfold upd. rewrite decide_True by done. by rewrite decide_False by done.
  - by rewrite H3.
Qed.

Section slash.
Context `{Build, Crypto, EvidenceFormat}.

(** What the manager keeps of an executed slash. *)
Definition slash_amount_of (config : SlashingConfig) (o : OffenseType) (stake : N) : N :=
  stake * slash_percent_for_severity config (severity o) / 100.

Definition slash_reward_of (config : SlashingConfig) (c : SlashingCondition) (slashed : N) : N :=
  match c.(cnd_reporter) with
  | Some _ => slashed * config.(slc_challenger_reward_percent) / 100
  | None => 0
  end.

(** The ban: at the end of [record_ban] the address is banned until its time,
    and tombstoned for a critical offense. *)
Lemma record_ban_bans a at_ until offense tombstoned m :
  (∀ r, m.(sl_bans) !! a = Some r → r.(ban_offense_count) < U32_MAX) →
  ∃ m', record_ban a at_ until offense tombstoned m = (Ok tt, m')
  ∧ (∀ t, t < until → sl_is_banned m' a t = true)
  ∧ (tombstoned = true → a ∈ m'.(sl_tombstones))
  ∧ m'.(sl_total_slashed) = m.(sl_total_slashed).
Proof.
  intros Hcount. unfold record_ban. mrun.
  assert (∃ n, (match sl_bans m !! a with
                | Some b => u_add (E := SystemContractError) U32_MAX (ban_offense_count b) 1
                | None => Ok 1 end) = Ok n) as [n Hn].
  { destruct (sl_bans m !! a) as [r|] eqn:Hr; [|by eexists].
    eexists. apply u_add_ok. specialize (Hcount r eq_refl). lia. }
  destruct tombstoned; cbn; rewrite Hn; cbn; eexists; (split; [reflexivity|]);
    (split; [|split; [|done]]); try done.
  - intros t Ht. unfold sl_is_banned. cbn. by rewrite bool_decide_true by set_solver.
  - set_solver.
  - intros t Ht. unfold sl_is_banned. cbn. rewrite lookup_insert_eq. cbn.
    unfold ban_is_active. cbn. rewrite (bool_decide_true (t < until)) by done. by rewrite orb_true_r.
Qed.

(** The payments of a slash: the reward to the reporter, the rest burned. *)
Lemma slash_payments c o slashed reward burned m b :
  bank_wf b → o = c.(cnd_offender) → reward + burned = slashed → 0 < burned →
  slashed <= lg_free (abs b) o → lg_frozen (abs b) o = false →
  match c.(cnd_reporter) with
  | Some r => 0 < reward ∧ r ≠ o ∧ r ≠ BURN_ADDRESS
  | None => reward = 0
  end →
  ∃ b1 b2,
    match c.(cnd_reporter) with
    | Some r => bank_write (transfer o r reward) (m, mkRwLock b false)
                = (Ok tt, (m, mkRwLock b1 false))
    | None => b1 = b
    end
    ∧ bank_write (burn o burned) (m, mkRwLock b1 false) = (Ok tt, (m, mkRwLock b2 false))
    ∧ lg_free (abs b2) o = lg_free (abs b) o - slashed
    ∧ (∀ x, lg_held (abs b2) x = lg_held (abs b) x)
    ∧ lg_burned (abs b2) = lg_burned (abs b) + burned
    ∧ ∀ r, c.(cnd_reporter) = Some r → lg_free (abs b2) r = lg_free (abs b) r + reward.
Proof.
  intros Hwf Ho Hsum Hb Hle Hf Hr. destruct (cnd_reporter c) as [r|].
  - destruct Hr as (Hpos & Hne & Hnb).
    destruct (transfer_ok o r reward b Hwf Hpos ltac:(lia) Hf Hnb Hne)
      as (b1 & Ht & Hwf1 & Hf1 & Hf1r & Hh1 & Hfz1 & Hb1).
    destruct (burn_ok o burned b1 Hwf1 Hb ltac:(lia) Hfz1) as (b2 & Hbn & _ & Hf2 & Hh2 & Hb2).
    exists b1, b2. split_and!.
    + unfold bank_write, on_snd, zoom, with_write. cbn [rw_held snd rw_val fst]. by rewrite Ht.
    + unfold bank_write, on_snd, zoom, with_write. cbn [rw_held snd rw_val fst]. by rewrite Hbn.
    + rewrite Hf2, upd_same. lia.
    + intros x. by rewrite Hh2, Hh1.
    + by rewrite Hb2, Hb1.
    + intros r' [= <-]. rewrite Hf2. unfold upd. by rewrite decide_False by done.
  - destruct (burn_ok o burned b Hwf Hb ltac:(lia) Hf) as (b2 & Hbn & _ & Hf2 & Hh2 & Hb2).
    exists b, b2. split_and!; try done.
    + unfold bank_write, on_snd, zoom, with_write. cbn [rw_held snd rw_val fst]. by rewrite Hbn.
    + rewrite Hf2, upd_same. lia.
Qed.

(** The run of [execute_slash], given what its calls return. *)
Lemma execute_slash_run c m b b1 b2 until m2 :
  let o := c.(cnd_offender) in
  let config := m.(sl_config) in
  let stake := lg_held (abs b) o in
  let slashed := slash_amount_of config c.(cnd_offense_type) stake in
  let reward := slash_reward_of config c slashed in
  let sev := severity c.(cnd_offense_type) in
  config.(slc_enabled) = true → o ∉ m.(sl_tombstones) →
  stake * slash_percent_for_severity config sev <= U128_MAX →
  slashed * config.(slc_challenger_reward_percent) <= U128_MAX → stake ≠ 0 →
  match c.(cnd_reporter) with
  | Some r => bank_write (transfer o r reward) (m, mkRwLock b false)
              = (Ok tt, (m, mkRwLock b1 false))
  | None => b1 = b
  end →
  bank_write (burn o (slashed - reward)) (m, mkRwLock b1 false) = (Ok tt, (m, mkRwLock b2 false)) →
  reward <= slashed → m.(sl_total_slashed) + slashed <= U128_MAX →
  m.(sl_total_burned) + (slashed - reward) <= U128_MAX →
  (if is_tombstone sev then Ok U64_MAX
   else u_add (E := SystemContractError) U64_MAX c.(cnd_timestamp) (ban_duration sev)) = Ok until →
  record_ban o c.(cnd_timestamp) until c.(cnd_offense_type) (is_tombstone sev)
    (sl_with_totals (m.(sl_total_slashed) + slashed) (m.(sl_total_burned) + (slashed - reward)) m)
    = (Ok tt, m2) →
  ∃ m',
    execute_slash c (m, mkRwLock b false)
      = (Ok {| slr_slashed_address := o; slr_burn_amount := slashed - reward;
               slr_reporter_reward := reward; slr_ban_until := until;
               slr_tombstoned := is_tombstone sev;
               slr_events := [SlashedEvent o c.(cnd_offense_type) slashed (slashed - reward) reward
                 c.(cnd_reporter) until (is_tombstone sev) (hash_evidence c.(cnd_evidence))] |},
         (m', mkRwLock b2 false))
    ∧ m'.(sl_total_slashed) = m2.(sl_total_slashed)
    ∧ m'.(sl_bans) = m2.(sl_bans) ∧ m'.(sl_tombstones) = m2.(sl_tombstones).
Proof.
  intros o config stake slashed reward sev Hen Hnt Hmul Hmul2 Hstake Hpay Hbn Hrew Hts Htb Hu Hban.
  eexists. split.
  - unfold execute_slash. mstep. cbn [fst]. fold config o.
    mstep_to ltac:(by rewrite Hen). mstep_to ltac:(by rewrite bool_decide_false by done).
    apply bind_ok. exists stake. eexists. split.
    { unfold get_stake, bank_read. cbn [snd rw_held rw_val]. by rewrite get_locked_balance_eq. }
    mstep_to ltac:(by rewrite bool_decide_false by done). mstep_by ltac:(by apply u_mul_ok).
    change (stake * _ / 100) with slashed. apply bind_ok. exists reward, (m, mkRwLock b1 false). split.
    { unfold reward, slash_reward_of in *. destruct (cnd_reporter c) as [r|]; [|by subst b1].
      mstep_by ltac:(by apply u_mul_ok). mstep_to ltac:(exact Hpay). done. }
    mstep_by ltac:(by apply u_sub_ok). mstep_to ltac:(exact Hbn).
    mstep_by ltac:(by apply u_add_ok). mstep. mstep_by ltac:(by apply u_add_ok). mstep.
    mstep_by ltac:(exact Hu). apply bind_ok. exists tt, (m2, mkRwLock b2 false). split.
    { unfold on_fst, zoom. cbn [fst snd].
      match goal with |- context [record_ban _ _ _ _ _ ?x] =>
        change x with (sl_with_totals (m.(sl_total_slashed) + slashed)
                         (m.(sl_total_burned) + (slashed - reward)) m) end.
      fold sev. by rewrite Hban. }
    mstep. mstep. reflexivity.
  - done.
Qed.

(** An executed slash.  For an offender whose free balance covers it, on an
    enabled manager, a slash takes exactly the tier's share of his stake: the
    reporter's share of it goes to the reporter, the rest is burned, both rounded
    down and together exact; the totals record it, the offender is banned until the
    tier's ban ends and for a critical offense tombstoned; the locked stake itself
    is not touched. *)
Lemma slash_exact c m b :
  let o := c.(cnd_offender) in
  let config := m.(sl_config) in
  let stake := lg_held (abs b) o in
  let slashed := slash_amount_of config c.(cnd_offense_type) stake in
  let reward := slash_reward_of config c slashed in
  config.(slc_enabled) = true → o ∉ m.(sl_tombstones) → bank_wf b →
  config.(slc_challenger_reward_percent) <= 100 →
  stake * slash_percent_for_severity config (severity c.(cnd_offense_type)) <= U128_MAX →
  slashed * 100 <= U128_MAX → 0 < slashed - reward →
  match c.(cnd_reporter) with
  | Some r => 0 < reward ∧ r ≠ o ∧ r ≠ BURN_ADDRESS
  | None => True
  end →
  slashed <= lg_free (abs b) o → lg_frozen (abs b) o = false →
  m.(sl_total_slashed) + slashed <= U128_MAX → m.(sl_total_burned) + slashed <= U128_MAX →
  c.(cnd_timestamp) + TIER2_BAN_DURATION_SECS <= U64_MAX →
  (∀ r, m.(sl_bans) !! o = Some r → r.(ban_offense_count) < U32_MAX) →
  ∃ res m' b',
    execute_slash c (m, mkRwLock b false) = (Ok res, (m', mkRwLock b' false))
    ∧ res.(slr_reporter_reward) = reward ∧ res.(slr_burn_amount) = slashed - reward
    ∧ lg_free (abs b') o = lg_free (abs b) o - slashed
    ∧ lg_held (abs b') o = stake
    ∧ lg_burned (abs b') = lg_burned (abs b) + (slashed - reward)
    ∧ (∀ r, c.(cnd_reporter) = Some r → lg_free (abs b') r = lg_free (abs b) r + reward)
    ∧ m'.(sl_total_slashed) = m.(sl_total_slashed) + slashed
    ∧ (∀ t, t < res.(slr_ban_until) → sl_is_banned m' o t = true)
    ∧ (is_tombstone (severity c.(cnd_offense_type)) = true → is_tombstoned m' o = true).
Proof.
  intros o config stake slashed reward Hen Hnt Hwf Hrp Hmul Hmul2 Hburn Hrep Hfree Hfroz
    Hts Htb Htime Hcount.
  assert (reward <= slashed) as Hrew.
  { unfold reward, slash_reward_of. destruct (cnd_reporter c); [|lia].
    apply N.Div0.div_le_upper_bound. fold config. nia. }
  assert (stake ≠ 0) as Hstake.
  { intros Hz. assert (slashed = 0) as Hs0; [|lia].
    unfold slashed, slash_amount_of. by rewrite Hz, N.mul_0_l, N.Div0.div_0_l. }
  destruct (slash_payments c o slashed reward (slashed - reward)
    m b Hwf eq_refl ltac:(lia) ltac:(lia) Hfree Hfroz) as (b1 & b2 & Hpay & Hbn & Hf & Hh & Hb & Hr).
  { unfold reward, slash_reward_of in *. by destruct (cnd_reporter c). }
  assert (∃ until, (if is_tombstone (severity (cnd_offense_type c)) then Ok U64_MAX
     else u_add (E := SystemContractError) U64_MAX (cnd_timestamp c)
            (ban_duration (severity (cnd_offense_type c)))) = Ok until) as [until Huntil].
  { clear -Htime. destruct (severity (cnd_offense_type c)); cbn [is_tombstone ban_duration];
      [..|by eexists]; eexists; apply u_add_ok;
      unfold TIER2_BAN_DURATION_SECS, TIER3_SUSPENSION_DURATION_SECS in *; lia. }
  set (m1 := sl_with_totals (m.(sl_total_slashed) + slashed)
               (m.(sl_total_burned) + (slashed - reward)) m).
  destruct (record_ban_bans o (cnd_timestamp c) until (cnd_offense_type c)
    (is_tombstone (severity (cnd_offense_type c))) m1 Hcount) as (m2 & Hban & Hbanned & Htomb & Htot).
  assert (m.(sl_total_burned) + (slashed - reward) <= U128_MAX) as Htb' by lia.
  destruct (execute_slash_run c m b b1 b2 until m2 Hen Hnt Hmul ltac:(fold o config stake slashed; nia)
    Hstake Hpay Hbn Hrew Hts Htb' Huntil Hban) as (m' & Hrun & Htot' & Hbans & Htombs).
  eexists _, m', b2. split; [exact Hrun|]. cbn. split_and!; try done.
  - exact (Hh o).
  - by rewrite Htot', Htot.
  - intros t Ht. unfold sl_is_banned. rewrite Hbans, Htombs. by apply Hbanned.
  - intros Ht. unfold is_tombstoned. rewrite Htombs. apply bool_decide_eq_true. auto.
Qed.
End slash.

(** ** Locked stakes cannot be slashed *)

(** A slash computes its amount from the locked stake but pays it from the free
    balance: an offender who has staked everything he holds is not slashed.  For
    every offense the call is refused, no ban is recorded, nothing is noted of the
    offense, and every balance is what it was. *)
Lemma staked_offender_escapes `{Build, Crypto, EvidenceFormat} c m b :
  lg_free (abs b) c.(cnd_offender) = 0 →
  lg_held (abs b) c.(cnd_offender) * 100 <= U128_MAX →
  slash_percent_for_severity m.(sl_config) (severity c.(cnd_offense_type)) <= 100 →
  m.(sl_config).(slc_challenger_reward_percent) <= 100 →
  ∃ e b', execute_slash c (m, mkRwLock b false) = (Err e, (m, mkRwLock b' false)) ∧ abs b' ≡ abs b.
Proof.
  intros Hfree Hstake Hpct Hrew.
  assert (∀ to n, ∃ e, (transfer (cnd_offender c) to n b).1 = Err e
            ∧ abs (transfer (cnd_offender c) to n b).2 ≡ abs b) as Hno.
  { intros to n. rewrite transfer_eq. cbn. case_bool_decide; cbn; [by eexists|].
    cbn in Hfree. rewrite Hfree. rewrite bool_decide_true by lia. cbn. eexists.
    split; [done|apply abs_touch]. }
  unfold execute_slash, get_stake, bank_read. mrun.
  destruct (slc_enabled _); [|do 2 eexists; by split]. cbn.
  case_bool_decide; [do 2 eexists; by split|]. cbn. rewrite get_locked_balance_eq.
  unfold locked_of. case_bool_decide; [do 2 eexists; by split|]. cbn.
  rewrite u_mul_ok by (cbn in Hstake; nia). cbn.
  set (stake := acc_locked _) in *. set (pct := slash_percent_for_severity _ _) in *.
  assert (stake * pct / 100 <= stake) as Hle by (apply N.Div0.div_le_upper_bound; nia).
  destruct (cnd_reporter c) as [r|].
  - rewrite u_mul_ok by (fold stake in Hstake; nia). cbn.
    destruct (Hno r (stake * pct / 100 * slc_challenger_reward_percent (sl_config m) / 100))
      as (e & He & Ha).
    destruct (transfer _ r _ b) as [o b'] eqn:Ht. cbn in *. subst o. eauto.
  - rewrite u_sub_ok by apply N.le_0_l. cbn. unfold burn.
    destruct (Hno BURN_ADDRESS (stake * pct / 100 - 0)) as (e & He & Ha).
    destruct (transfer _ BURN_ADDRESS _ b) as [o b'] eqn:Ht. cbn in *. subst o. eauto.
Qed.

(** ** The committee's verdict *)
Lemma filter_all {A} (P : A → Prop) `{∀ x, Decision (P x)} (l : list A) :
  llen (filter P l) <= llen l ∧ (llen (filter P l) = llen l ↔ Forall P l).
Proof.
  unfold llen. induction l as [|x l [Hle IH]]; [by split|]. rewrite filter_cons.
  rewrite Forall_cons, <- IH. case_decide; cbn -[N.of_nat]; split; try lia; split; lia || tauto || intuition lia.
Qed.

(** The committee's verdict.  With the shipped threshold of 0.67 and at most three
    votes, the committee size of every shipped configuration, a challenge succeeds
    exactly when at least one vote was cast and every vote cast agrees with it: two
    of three, which the documentation calls enough, never are (2/3 is below 0.67 in
    double precision), no votes at all reject the challenge (0/0 compares false),
    and there is no quorum: a single agreeing vote convicts the prover. *)
Lemma committee_verdict_exact c :
  (size c.(ch_committee_votes) <= 3)%nat →
  challenge_succeeds COMMITTEE_AGREEMENT_THRESHOLD c = true ↔
  c.(ch_committee_votes) ≠ ∅
  ∧ map_Forall (λ _ v, v.(chv_agrees_with_challenge) = true) c.(ch_committee_votes).
Proof.
  intros Hsize. unfold challenge_succeeds.
  assert (llen (vote_list c) = N.of_nat (size c.(ch_committee_votes))) as Hlen.
  { unfold llen, vote_list. by rewrite length_fmap, length_map_to_list. }
  pose proof (filter_all (λ v, v.(chv_agrees_with_challenge) = true) (vote_list c)) as [Hle Hall].
  assert (Forall (λ v, v.(chv_agrees_with_challenge) = true) (vote_list c)
    ↔ map_Forall (λ _ v, v.(chv_agrees_with_challenge) = true) c.(ch_committee_votes)) as <-.
  { unfold vote_list. rewrite Forall_fmap, map_Forall_to_list. apply Forall_iff. by intros []. }
  assert (c.(ch_committee_votes) ≠ ∅ ↔ llen (vote_list c) ≠ 0) as ->.
  { rewrite Hlen, <- map_size_empty_iff. lia. }
  rewrite <- Hall. assert (llen (vote_list c) <= 3) as Hmax by lia. clear Hall Hlen Hsize.
  revert Hle Hmax. generalize (llen (filter (λ v, chv_agrees_with_challenge v = true) (vote_list c))).
  generalize (llen (vote_list c)). intros n k Hk Hn.
  assert (n = 0 ∨ n = 1 ∨ n = 2 ∨ n = 3) as [-> | [-> | [-> | ->]]] by lia;
    (assert (k = 0 ∨ k = 1 ∨ k = 2 ∨ k = 3) as [-> | [-> | [-> | ->]]] by lia); try lia;
    vm_compute; split; intuition discriminate.
Qed.

(** ** Concrete runs *)
Definition dev_evidence : EvidenceFormat := {| evidence_json := λ _, [] |}.

(** Alice holds 3000 tokens, 1000 of them staked. *)
Definition slash_bank : Bank :=
  (lock alice 1000 (Bank_from_genesis
     [{| ta_address := alice; ta_balance := 3000; ta_vesting := None |}])).2.

Definition slash_start : SlashState :=
  (SlashingManager_new SlashingConfig_mainnet, mkRwLock slash_bank false).

Definition slash_condition (o : OffenseType) (reporter : option Address) : SlashingCondition := {|
  cnd_offender := alice; cnd_offense_type := o; cnd_block_height := 1; cnd_timestamp := 100;
  cnd_evidence := GenericEvidence "" []; cnd_reporter := reporter; cnd_job_id := None |}.

Definition four_nodes : list Address := [bytes32 11; bytes32 12; bytes32 13; bytes32 14].

Definition challenge_op : sl_op := ChallengeOp alice (bytes32 8) prover (bytes32 9) 400 100 four_nodes.

Definition challenged : SlashState :=
  sl_run (H := dev_build) (H0 := dev_crypto) (H1 := dev_evidence) challenge_op slash_start.

Definition tombstoned_alice : SlashState :=
  sl_run (H := dev_build) (H0 := dev_crypto) (H1 := dev_evidence)
    (SlashOp (slash_condition FabricatedResult (Some prover))) slash_start.

Lemma slash_bank_wf : bank_wf slash_bank.
Proof. apply lock_step. apply genesis_bank. vm_compute. discriminate. Qed.

Lemma four_nodes_nodup : NoDup four_nodes.
Proof. apply (bool_decide_unpack _). vm_compute. exact I. Qed.

Lemma committee_selection_witness :
  ∃ committee,
    select_committee (H0 := dev_crypto) SlashingConfig_mainnet four_nodes [5]
      = Ok committee
    ∧ llen committee = 3 ∧ NoDup committee.
Proof.
  destruct (committee_selection (H0 := dev_crypto) SlashingConfig_mainnet
    four_nodes 2 [5] four_nodes_nodup) as [Hc _].
  destruct Hc as (committee & Hs & Hl & Hn & _); [vm_compute; discriminate|].
  exists committee. split_and!; done.
Defined.

Lemma slashing_records_wf_witness : slashing_wf SlashingConfig_mainnet challenged.1.
Proof.
  apply (slashing_records_wf (H := dev_build) (H0 := dev_crypto) (H1 := dev_evidence)
    SlashingConfig_mainnet (mkRwLock slash_bank false)).
  apply rtc_once. exact (sl_step_op challenge_op slash_start).
Defined.

Lemma tombstone_permanent_witness :
  sl_is_banned tombstoned_alice.1 alice U64_MAX = true.
Proof.
  apply (tombstone_permanent (H := dev_build) (H0 := dev_crypto) (H1 := dev_evidence)
    tombstoned_alice tombstoned_alice alice); [|apply rtc_refl].
  apply (bool_decide_unpack _). vm_compute. exact I.
Defined.

Lemma challenge_stake_returned_witness :
  ∃ id c s', challenged.1.(sl_challenges) !! id = Some c ∧ c.(ch_challenger_stake_locked) = 400
  ∧ finalize_challenge (H := dev_build) (H0 := dev_crypto) (H1 := dev_evidence) id 1000 challenged
    = (Err (SlashingError "Challenge expired"), s')
  ∧ s'.1.(sl_challenges) = delete id challenged.1.(sl_challenges).
Proof.
  set (id := generate_challenge_id (H0 := dev_crypto) (bytes32 8) alice 100).
  assert (∃ c, challenged.1.(sl_challenges) !! id = Some c
    ∧ c.(ch_challenger_stake_locked) = 400 ∧ c.(ch_expires_at) = 700) as (c & Hc & Hn & He).
  { eexists. split; [vm_compute; reflexivity|]. split; reflexivity. }
  destruct (challenge_stake_returned (H := dev_build) (H0 := dev_crypto) (H1 := dev_evidence)
    SlashingConfig_mainnet (mkRwLock slash_bank false) challenged id c 1000) as [Hexp _];
    [apply slash_bank_wf|apply rtc_once; exact (fund_step_op challenge_op slash_start)
    |vm_compute; reflexivity|exact Hc|rewrite Hn; reflexivity|].
  destruct Hexp as (s' & Hrun & Hdel & _); [rewrite He; reflexivity|]. eauto 8.
Defined.

Lemma slash_exact_witness :
  ∃ res m' b',
    execute_slash (H := dev_build) (H0 := dev_crypto) (H1 := dev_evidence)
      (slash_condition DoubleSign (Some prover)) slash_start
      = (Ok res, (m', mkRwLock b' false))
    ∧ res.(slr_reporter_reward) = 250 ∧ res.(slr_burn_amount) = 250.
Proof.
  destruct (slash_exact (H := dev_build) (H0 := dev_crypto) (H1 := dev_evidence)
    (slash_condition DoubleSign (Some prover)) slash_start.1 slash_bank)
    as (res & m' & b' & Hrun & Hr & Hb & _);
    [reflexivity|set_solver|apply slash_bank_wf|vm_compute; discriminate..| | | | | | | | |].
  - vm_compute. reflexivity.
  - split_and!; [vm_compute; reflexivity|discriminate..].
  - vm_compute. discriminate.
  - vm_compute. reflexivity.
  - vm_compute. discriminate.
  - vm_compute. discriminate.
  - vm_compute. discriminate.
  - intros r Hr. cbn in Hr. rewrite lookup_empty in Hr. discriminate.
  - exists res, m', b'. split; [exact Hrun|]. rewrite Hr, Hb. vm_compute. split; reflexivity.
Defined.

Definition all_staked_bank : Bank :=
  (lock alice 3000 (Bank_from_genesis
     [{| ta_address := alice; ta_balance := 3000; ta_vesting := None |}])).2.

Lemma staked_offender_escapes_witness :
  ∃ e b', execute_slash (H := dev_build) (H0 := dev_crypto) (H1 := dev_evidence)
      (slash_condition FabricatedResult None)
      (SlashingManager_new SlashingConfig_mainnet, mkRwLock all_staked_bank false)
    = (Err e, (SlashingManager_new SlashingConfig_mainnet, mkRwLock b' false)).
Proof.
  destruct (staked_offender_escapes (H := dev_build) (H0 := dev_crypto) (H1 := dev_evidence)
    (slash_condition FabricatedResult None) (SlashingManager_new SlashingConfig_mainnet)
    all_staked_bank) as (e & b' & Hrun & _);
    [vm_compute; (reflexivity || discriminate)..|].
  exists e, b'. exact Hrun.
Defined.

Definition one_vote : Challenge := {|
  ch_id := bytes32 1; ch_job_id := bytes32 8; ch_prover := prover; ch_challenger := alice;
  ch_original_result_hash := bytes32 9; ch_created_at := 0; ch_expires_at := 600;
  ch_state := ChallengePending; ch_committee := take 3 four_nodes;
  ch_committee_votes := {[bytes32 11 := {| chv_voter := bytes32 11;
    chv_agrees_with_challenge := true; chv_computed_result_hash := bytes32 7; chv_vote_time := 1;
    chv_signature := [] |}]};
  ch_challenger_stake_locked := 400 |}.

Lemma committee_verdict_exact_witness :
  challenge_succeeds COMMITTEE_AGREEMENT_THRESHOLD one_vote = true.
Proof.
  apply (committee_verdict_exact one_vote).
  - vm_compute. lia.
  - split; [vm_compute; discriminate|]. intros a v Hv. cbn in Hv.
    by apply lookup_singleton_Some in Hv as [_ <-].
Defined.
