(* ===== verification/PouwSpec.v ===== *)
(** * What the proof-of-useful-work engine promises

    The floating-point burn curve against its integer definition, the fee
    split, the reward multiplier, the stake registry and the compliance bonds. *)
From S2P Require Import Prelude SysTypes F64 Precompile PouwEngine Samples.
From stdpp Require Import base gmap list strings.
From Stdlib Require Import ZArith Lia SpecFloat.
#[local] Open Scope N_scope.

(** ** The burn curve *)

(** The documented formula in whole basis points. *)
Definition burn_curve_spec (load : N) : N :=
  MIN_BURN_RATE_BPS + (MAX_BURN_RATE_BPS - MIN_BURN_RATE_BPS) * load ^ 2 / 10000 ^ 2.

(** One load: the double-precision value is the exact one, or one below it at the
    three loads named. *)
Definition curve_check (load : N) : bool :=
  bool_decide (MIN_BURN_RATE_BPS + dynamic_burn load
    + (if bool_decide (load = 3500 ∨ load = 7000 ∨ load = 8500) then 1 else 0)
    = burn_curve_spec load).

Fixpoint check_below (n : nat) (load : N) : bool :=
  match n with
  | O => true
  | S n => curve_check load && check_below n (load + 1)
  end.

Lemma check_below_spec n load k :
  check_below n load = true → load <= k → k < load + N.of_nat n → curve_check k = true.
Proof.
  revert load. induction n as [|n IH]; intros load Hc H1 H2; [lia|].
  cbn in Hc. apply andb_true_iff in Hc as [Hc Hrest].
  destruct (decide (load = k)) as [<-|]; [done|]. apply (IH (load + 1)); [done|lia..].
Qed.

Lemma curve_checked : check_below (N.to_nat 10001) 0 = true.
Proof. vm_compute. reflexivity. Qed.

Lemma burn_curve load :
  load <= 10000 →
  MIN_BURN_RATE_BPS + dynamic_burn load
    + (if bool_decide (load = 3500 ∨ load = 7000 ∨ load = 8500) then 1 else 0)
  = burn_curve_spec load.
Proof.
  intros Hl. apply (bool_decide_unpack _).
  apply Is_true_true. apply (check_below_spec (N.to_nat 10001) 0 load curve_checked); lia.
Qed.

Lemma burn_curve_spec_range load :
  load <= 10000 → MIN_BURN_RATE_BPS <= burn_curve_spec load <= MAX_BURN_RATE_BPS.
Proof.
  intros Hl. unfold burn_curve_spec, MIN_BURN_RATE_BPS, MAX_BURN_RATE_BPS.
  assert (load ^ 2 <= 10000 ^ 2) as Hsq by (by apply N.pow_le_mono_l).
  assert ((2500 - 500) * load ^ 2 / 10000 ^ 2 <= 2000) as Hq.
  { apply N.Div0.div_le_upper_bound. lia. }
  div_abstract. lia.
Qed.

Lemma burn_curve_spec_mono l1 l2 : l1 <= l2 → burn_curve_spec l1 <= burn_curve_spec l2.
Proof.
  intros Hl. apply N.add_le_mono_l, N.Div0.div_le_mono, N.mul_le_mono_l. by apply N.pow_le_mono_l.
Qed.

Lemma pouw_burn_rate_range `{Build} {E} load :
  load <= 10000 →
  ∃ rate, pouw_burn_rate (E := E) load = Ok rate
  ∧ MIN_BURN_RATE_BPS <= rate ∧ rate <= MAX_BURN_RATE_BPS ∧ rate <= burn_curve_spec load
  ∧ burn_curve_spec load <= rate + 1.
Proof.
  intros Hl. pose proof (burn_curve load Hl) as Hc. pose proof (burn_curve_spec_range load Hl) as Hr.
  unfold pouw_burn_rate. unfold MIN_BURN_RATE_BPS, MAX_BURN_RATE_BPS in *.
  rewrite u_add_ok by (case_bool_decide; lia). eexists. split; [reflexivity|].
  case_bool_decide; lia.
Qed.

(** The congestion burn curve.  At every network load up to 100% the rate the
    code computes in double precision is the integer formula (500 bps plus 2000 bps
    times the square of the load, rounded down), or one basis point less, which
    happens at exactly three loads (35%, 70%, 85%); it stays between 5% and 25%. *)
Lemma burn_curve_exact `{Build} load :
  load <= 10000 →
  ∃ rate, pouw_burn_rate (E := SystemContractError) load = Ok rate
  ∧ MIN_BURN_RATE_BPS <= rate ∧ rate <= MAX_BURN_RATE_BPS
  ∧ rate + (if bool_decide (load = 3500 ∨ load = 7000 ∨ load = 8500) then 1 else 0)
    = burn_curve_spec load.
Proof.
  intros Hl. destruct (pouw_burn_rate_range (E := SystemContractError) load Hl)
    as (rate & Hrun & Hmin & Hmax & _).
  exists rate. split_and!; try done. rewrite <- burn_curve by done.
  unfold pouw_burn_rate, u_add in Hrun. case_bool_decide; [by injection Hrun as <-|].
  exfalso. pose proof (burn_curve load Hl). pose proof (burn_curve_spec_range load Hl).
  unfold MIN_BURN_RATE_BPS, MAX_BURN_RATE_BPS in *. lia.
Qed.

Lemma burn_curve_exact_witness :
  ∃ rate, pouw_burn_rate (H := dev_build) (E := SystemContractError) 9000 = Ok rate ∧ rate = 2120.
Proof.
  destruct (burn_curve_exact (H := dev_build) 9000) as (rate & Hrun & _ & _ & Heq); [lia|].
  exists rate. split; [done|]. rewrite bool_decide_false in Heq by lia.
  change (burn_curve_spec 9000) with 2120 in Heq. lia.
Defined.

(** ** Loads and fees along a history *)

(** The load average and the rate are in range. *)
Record congestion_ok (m : CongestionMetrics) : Prop := {
  cgo_avg : m.(cm_avg_load_bps) <= 10000;
  cgo_min : MIN_BURN_RATE_BPS <= m.(cm_current_burn_rate_bps);
  cgo_max : m.(cm_current_burn_rate_bps) <= MAX_BURN_RATE_BPS;
}.

Section congestion.
Context `{Build}.

Lemma congestion_ok_default : congestion_ok CongestionMetrics_default.
Proof. split; vm_compute; discriminate. Qed.

Lemma congestion_update_keeps gas_used gas_limit t m :
  gas_used <= gas_limit → gas_limit <= U64_MAX → congestion_ok m →
  congestion_ok (congestion_update_block gas_used gas_limit t m).2.
Proof.
  intros Hg Hl Hm. pose proof (cgo_avg _ Hm) as Havg0.
  set (load := if bool_decide (0 < gas_limit) then gas_used * 10000 / gas_limit else 0).
  assert (load <= 10000) as Hload.
  { unfold load. case_bool_decide; [|lia]. apply N.Div0.div_le_upper_bound. nia. }
  set (avg := (m.(cm_avg_load_bps) * 90 + load * 10) / 100).
  assert (avg <= 10000) as Havg by (apply N.Div0.div_le_upper_bound; lia).
  destruct (pouw_burn_rate_range (E := SystemContractError) avg Havg) as (rate & Hrate & Hmin & Hmax & _).
  assert ((if bool_decide (0 < gas_limit) then
             product ← lift (u_mul U128_MAX gas_used 10000);
             quotient ← lift (u_div product gas_limit);
             mret (cast U16_MAX quotient)
           else mret 0) m = (Ok (E := SystemContractError) load, m)) as Hrun.
  { unfold load. case_bool_decide; [|reflexivity].
    mstep_by ltac:(apply u_mul_ok; lia). mstep_by ltac:(apply u_div_ok; lia).
    unfold cast. rewrite N.mod_small; [reflexivity|]. unfold load in Hload. div_abstract. lia. }
  unfold congestion_update_block. mrun. rewrite Hrun. cbn.
  rewrite !u_mul_ok by lia. cbn. rewrite u_add_ok by lia. cbn. fold avg.
  assert (cast U16_MAX avg = avg) as -> by (unfold cast; apply N.mod_small; lia).
  rewrite Hrate. cbn. destruct (u_add _ _ _); by split.
Qed.

Lemma congestion_burn_keeps n : stable (maintains congestion_ok) (congestion_record_burn n).
Proof. intros m []. unfold congestion_record_burn. mrun. repeat (destruct (u_add _ _ _); cbn); by split. Qed.
End congestion.

(** ** The engine's books *)
Definition bond_ok (node : Address) (b : ComplianceBond) : Prop :=
  b.(cb_node) = node ∧ required_bond b.(cb_bond_type) <= b.(cb_amount).

Record pouw_inv (e : PoUWEngine) : Prop := {
  pi_congestion : congestion_ok e.(pe_congestion);
  pi_staked : e.(pe_total_staked) = map_sum id e.(pe_node_stakes);
  pi_range : e.(pe_total_staked) <= U128_MAX;
  pi_bonds : map_Forall (λ node, Forall (bond_ok node)) e.(pe_compliance_bonds);
}.

Lemma pouw_inv_new config : pouw_inv (PoUWEngine_new config).
Proof.
  split; cbn; [apply congestion_ok_default|by rewrite map_sum_empty|lia|apply map_Forall_empty].
Qed.

(** Updates that leave the four parts alone. *)
Definition same_books : relation PoUWEngine := λ e e',
  e'.(pe_congestion) = e.(pe_congestion) ∧ e'.(pe_total_staked) = e.(pe_total_staked)
  ∧ e'.(pe_node_stakes) = e.(pe_node_stakes)
  ∧ e'.(pe_compliance_bonds) = e.(pe_compliance_bonds).

#[export] Instance same_books_preorder : PreOrder same_books.
Proof. split; unfold same_books; repeat intro; destruct_and?; split_and!; congruence. Qed.

Lemma same_books_inv e e' : same_books e e' → pouw_inv e → pouw_inv e'.
Proof. intros (Hc & Ht & Hs & Hb) []. split; rewrite ?Hc, ?Ht, ?Hs, ?Hb; done. Qed.

Lemma push_same ev : stable same_books (push_pouw_event ev).
Proof. intros e. by split_and!. Qed.
Lemma on_node_same {A} node (m : M SystemContractError NodeComputeStats A) :
  stable same_books (on_node node m).
Proof. intros e. by split_and!. Qed.
Lemma oracle_same {A} (m : M SystemContractError SovereigntyOracle A) :
  stable same_books (zoom pe_sovereignty_oracle pe_with_oracle m).
Proof. intros e. by split_and!. Qed.
#[export] Hint Resolve push_same on_node_same oracle_same : stable.

Lemma take_bond_ok P id bonds b rest :
  Forall P bonds → take_bond id bonds = Some (b, rest) → P b ∧ Forall P rest ∧ cb_bond_id b = id.
Proof.
  revert b rest. induction bonds as [|b0 bonds IH]; intros b rest Hall Ht; [done|].
  apply Forall_cons in Hall as [H0 Hall]. cbn in Ht. case_bool_decide as Hid.
  - by injection Ht as <- <-.
  - destruct (take_bond id bonds) as [[b1 rest1]|]; [|done]. cbn in Ht. injection Ht as <- <-.
    destruct (IH b1 rest1 Hall eq_refl) as (? & ? & ?). split_and!; try done. by constructor.
Qed.

Section books.
Context `{Build, Crypto}.

Lemma post_bond_inv node t amount expires :
  stable (maintains pouw_inv) (post_compliance_bond node t amount expires).
Proof.
  intros e He. unfold post_compliance_bond. mrun. case_bool_decide as Ham; cbn; [done|].
  match goal with |- context [match ?x with Some _ => _ | None => _ end] =>
    destruct x as [until|]; [case_bool_decide; cbn; [done|]|] end.
  all: cbn; destruct He; split; try done; cbn; apply map_Forall_insert_2; [|done];
    apply Forall_app; (split; [|repeat constructor; cbn; lia]);
    destruct (pe_compliance_bonds e !! node) as [l|] eqn:Hl; cbn; [by apply (pi_bonds0 node)|constructor].
Qed.

Lemma compliance_slash_inv node id victim reason ev :
  stable (maintains pouw_inv) (execute_compliance_slash node id victim reason ev).
Proof.
  intros e He. unfold execute_compliance_slash. mrun.
  destruct (pe_compliance_bonds e !! node) as [bonds|] eqn:Hb; cbn; [|done].
  destruct (take_bond id bonds) as [[b rest]|] eqn:Ht; cbn; [|done].
  destruct (take_bond_ok (bond_ok node) id bonds b rest (pi_bonds _ He node bonds Hb) Ht) as (_ & Hr & _).
  assert (map_Forall (λ node, Forall (bond_ok node)) (<[node := rest]> e.(pe_compliance_bonds))) as Hbs.
  { apply map_Forall_insert_2; [done|]. apply He. }
  destruct He. destruct (u_mul _ _ _); cbn; try by split.
  destruct (u_sub _ _ _) as [burned|e'| |]; cbn; try by split.
  destruct (u_add _ _ _); cbn; try by split.
  pose proof (congestion_burn_keeps burned (pe_congestion e) pi_congestion0) as Hc.
  unfold on_congestion, zoom. cbn. destruct (congestion_record_burn burned (pe_congestion e)) as [[] c];
    cbn in *; by split.
Qed.

Lemma process_fee_inv fee : stable (maintains pouw_inv) (pouw_process_fee fee).
Proof.
  intros e He. unfold pouw_process_fee. mrun.
  destruct (pouw_calculate_burn e fee) as [[burned rate]|e'| |]; cbn; try done.
  destruct (u_mul _ _ _); cbn; try done.
  pose proof (congestion_burn_keeps burned (pe_congestion e) (pi_congestion _ He)) as Hc.
  unfold on_congestion, zoom. cbn. destruct He.
  destruct (congestion_record_burn burned (pe_congestion e)) as [[] c]; cbn in *; by split.
Qed.

Lemma update_block_inv used limit t e :
  used <= limit → limit <= U64_MAX → pouw_inv e → pouw_inv (pouw_update_block used limit t e).2.
Proof.
  intros Hu Hl He. unfold pouw_update_block. mrun. destruct (pwc_enable_congestion_burn _); cbn;
    [|by destruct He; split].
  pose proof (congestion_update_keeps used limit t (pe_congestion e) Hu Hl (pi_congestion _ He)) as Hc.
  unfold on_congestion, zoom. cbn. destruct He.
  destruct (congestion_update_block used limit t (pe_congestion e)) as [[] c]; cbn in *; try by split.
  case_bool_decide; by split.
Qed.

Lemma register_stake_inv node amount e :
  e.(pe_total_staked) + amount <= U128_MAX → pouw_inv e → pouw_inv (register_stake node amount e).2.
Proof.
  intros Hr He. unfold register_stake. mrun. pose proof (pi_staked _ He) as Ht.
  pose proof (map_sum_insert id (pe_node_stakes e) node
    (default 0 (pe_node_stakes e !! node) + amount)) as Hsum.
  assert (default 0 (pe_node_stakes e !! node) <= e.(pe_total_staked)) as Hle.
  { rewrite Ht. destruct (pe_node_stakes e !! node) as [x|] eqn:Hx; cbn; [|lia].
    exact (map_sum_lookup_le id _ _ _ Hx). }
  rewrite !u_add_ok by lia. cbn. destruct He. split; try done. cbn.
  unfold id in Hsum at 2 4. destruct (pe_node_stakes e !! node); cbn in *; lia.
Qed.

Lemma reduce_stake_inv node amount : stable (maintains pouw_inv) (reduce_stake node amount).
Proof.
  intros e He. unfold reduce_stake. mrun. pose proof (pi_staked _ He) as Ht.
  case_bool_decide as Hlt; cbn; [done|].
  pose proof (map_sum_insert id (pe_node_stakes e) node
    (default 0 (pe_node_stakes e !! node) - amount)) as Hsum.
  assert (default 0 (pe_node_stakes e !! node) <= e.(pe_total_staked)) as Hle.
  { rewrite Ht. destruct (pe_node_stakes e !! node) as [x|] eqn:Hx; cbn; [|lia].
    exact (map_sum_lookup_le id _ _ _ Hx). }
  destruct He. split; try done; cbn; unfold sat_sub; [|lia].
  unfold id in Hsum at 2 4. destruct (pe_node_stakes e !! node); cbn in *; lia.
Qed.
End books.

(** ** Histories *)
Inductive pouw_op :=
| ComputeOp (node : Address) (job : JobId) (ops : N) (tee : TeeVerificationType) (proof : Hash)
    (hardware : string) (zk : bool)
| FailureOp (node : Address)
| PostBondOp (node : Address) (t : ComplianceBondType) (amount : TokenAmount) (expires : N)
| LiquidateOp (node : Address) (bond : Hash) (victim : Address) (reason : LiquidationReason)
    (evidence : Hash)
| PouwBlockOp (gas_used gas_limit t : N)
| PouwFeeOp (fee : TokenAmount)
| OracleOp (requester provider : Address) (region : string) (v : DataVerificationLevel)
    (c : DataCategory)
| StakeOp (node : Address) (amount : TokenAmount)
| UnstakeOp (node : Address) (amount : TokenAmount)
| SetTimeOp (t : N)
| StartEpochOp (epoch : N)
| EndEpochOp.

Section histories.
Context `{Build, Crypto}.

Definition pouw_run (op : pouw_op) (e : PoUWEngine) : PoUWEngine :=
  match op with
  | ComputeOp node job ops tee proof hardware zk =>
      (register_compute_operation node job ops tee proof hardware zk e).2
  | FailureOp node => (record_compute_failure node e).2
  | PostBondOp node t amount expires => (post_compliance_bond node t amount expires e).2
  | LiquidateOp node bond victim reason evidence =>
      (execute_compliance_slash node bond victim reason evidence e).2
  | PouwBlockOp used limit t => (pouw_update_block used limit t e).2
  | PouwFeeOp fee => (pouw_process_fee fee e).2
  | OracleOp requester provider region v c =>
      (process_oracle_request requester provider region v c e).2
  | StakeOp node amount => (register_stake node amount e).2
  | UnstakeOp node amount => (reduce_stake node amount e).2
  | SetTimeOp t => (set_time t e).2
  | StartEpochOp epoch => (start_epoch epoch e).2
  | EndEpochOp => (end_epoch e).2
  end.

(** A block uses at most its gas limit, a [u64]; the stakes fit a [u128]. *)
Definition pouw_guard (op : pouw_op) (e : PoUWEngine) : Prop :=
  match op with
  | PouwBlockOp used limit _ => used <= limit ∧ limit <= U64_MAX
  | StakeOp _ amount => e.(pe_total_staked) + amount <= U128_MAX
  | _ => True
  end.

Inductive pouw_reach (config : PoUWConfig) : PoUWEngine → Prop :=
| pouw_reach_new : pouw_reach config (PoUWEngine_new config)
| pouw_reach_step op e : pouw_reach config e → pouw_guard op e → pouw_reach config (pouw_run op e).

Lemma pouw_run_inv op e : pouw_guard op e → pouw_inv e → pouw_inv (pouw_run op e).
Proof.
  intros Hg He. destruct op; cbn in *.
  - eapply same_books_inv; [|exact He]. unfold register_compute_operation.
    assert (stable same_books (register_compute_operation node job ops tee proof hardware zk)) as Hs
      by (unfold register_compute_operation; stable_body). apply Hs.
  - eapply same_books_inv; [|exact He].
    assert (stable same_books (record_compute_failure node)) as Hs
      by (unfold record_compute_failure; stable_body). apply Hs.
  - by apply post_bond_inv.
  - by apply compliance_slash_inv.
  - by apply update_block_inv; tauto.
  - by apply process_fee_inv.
  - eapply same_books_inv; [|exact He].
    assert (stable same_books (process_oracle_request requester provider region v c)) as Hs
      by (unfold process_oracle_request; stable_body). apply Hs.
  - by apply register_stake_inv.
  - by apply reduce_stake_inv.
  - by eapply same_books_inv; [|exact He].
  - destruct He as [[] ? ? ?]. by split.
  - by eapply same_books_inv; [|exact He].
Qed.

Lemma pouw_reach_inv config e : pouw_reach config e → pouw_inv e.
Proof.
  induction 1 as [|op e _ IH Hg]; [apply pouw_inv_new|by apply pouw_run_inv].
Qed.

Lemma pouw_reach_config config e : pouw_reach config e → e.(pe_config) = config.
Proof.
  assert (∀ A (m : M SystemContractError PoUWEngine A), stable (λ e e', e'.(pe_config) = e.(pe_config)) m →
    ∀ e, (m e).2.(pe_config) = e.(pe_config)) as Hrun by (intros A m Hm; apply Hm).
  induction 1 as [|op e _ IH Hg]; [done|]. rewrite <- IH. clear IH Hg.
  assert (PreOrder (λ e e' : PoUWEngine, e'.(pe_config) = e.(pe_config))) as Hpre.
  { split; repeat intro; congruence. }
  assert (∀ A (m : M SystemContractError CongestionMetrics A),
    stable (λ e e', e'.(pe_config) = e.(pe_config)) (on_congestion m)) as H1 by done.
  assert (∀ A n (m : M SystemContractError NodeComputeStats A),
    stable (λ e e', e'.(pe_config) = e.(pe_config)) (on_node n m)) as H2 by done.
  assert (∀ A (m : M SystemContractError SovereigntyOracle A), stable
    (λ e e', e'.(pe_config) = e.(pe_config)) (zoom pe_sovereignty_oracle pe_with_oracle m)) as H3 by done.
  assert (∀ ev, stable (λ e e', e'.(pe_config) = e.(pe_config)) (push_pouw_event ev)) as H4 by done.
  destruct op; cbn [pouw_run]; apply Hrun;
    unfold register_compute_operation, record_compute_failure, post_compliance_bond,
      execute_compliance_slash, pouw_update_block, pouw_process_fee, process_oracle_request,
      register_stake, reduce_stake, set_time, start_epoch, end_epoch, pouw_drain_events;
    repeat first [apply H1 | apply H2 | apply H3 | apply H4
      | (apply stable_modify; intros; reflexivity) | stable_step | (intros ?; reflexivity)].
Qed.

(** The share of the fee that is burned. *)
Definition pouw_rate (e : PoUWEngine) : N :=
  if e.(pe_config).(pwc_enable_congestion_burn) then e.(pe_congestion).(cm_current_burn_rate_bps)
  else e.(pe_config).(pwc_min_burn_rate_bps).

(** The engine's fees.  Along every history in which blocks stay within their gas
    limit, the burn rate stays between 5% and 25% and every fee that fits the
    arithmetic is split exactly: 70% to the prover, the burn rate to the burn (both
    rounded down, recorded in the epoch and the running total) and all the rest, at
    least 5%, to the validator. *)
Lemma pouw_fee_exact config e fee :
  pouw_reach config e → config.(pwc_min_burn_rate_bps) <= 2500 → fee * 2500 <= U128_MAX →
  e.(pe_congestion).(cm_epoch_burned) + fee <= U128_MAX →
  e.(pe_congestion).(cm_total_burned) + fee <= U128_MAX →
  MIN_BURN_RATE_BPS <= e.(pe_congestion).(cm_current_burn_rate_bps)
  ∧ e.(pe_congestion).(cm_current_burn_rate_bps) <= MAX_BURN_RATE_BPS
  ∧ ∃ d e', pouw_process_fee fee e = (Ok d, e')
    ∧ d.(pfd_prover_amount) + d.(pfd_validator_amount) + d.(pfd_burn_amount) = fee
    ∧ d.(pfd_prover_amount) = fee * 70 / 100
    ∧ d.(pfd_burn_amount) = fee * pouw_rate e / 10000
    ∧ fee * 5 / 100 <= d.(pfd_validator_amount)
    ∧ e'.(pe_congestion).(cm_total_burned) = e.(pe_congestion).(cm_total_burned) + d.(pfd_burn_amount)
    ∧ e'.(pe_congestion).(cm_epoch_burned) = e.(pe_congestion).(cm_epoch_burned) + d.(pfd_burn_amount).
Proof.
  intros Hr Hmin Hfee He Ht. pose proof (pouw_reach_config _ _ Hr) as Hcfg.
  apply pouw_reach_inv in Hr as [[_ Hlo Hhi] _ _ _].
  unfold MIN_BURN_RATE_BPS, MAX_BURN_RATE_BPS in *.
  assert (pouw_rate e <= 2500) as Hrate.
  { unfold pouw_rate. rewrite Hcfg. by destruct (pwc_enable_congestion_burn config). }
  assert (pouw_calculate_burn (E := SystemContractError) e fee
          = Ok (fee * pouw_rate e / 10000, pouw_rate e)) as Hburn.
  { unfold pouw_calculate_burn, pouw_rate, congestion_burn in *.
    destruct (pwc_enable_congestion_burn _); cbn; by rewrite u_mul_ok by nia. }
  assert (fee * pouw_rate e <= fee * 2500) as Hmul by (by apply N.mul_le_mono_l).
  set (x := fee * pouw_rate e) in *. split_and!; try done. do 2 eexists. split.
  { unfold pouw_process_fee. mstep. mstep_by ltac:(exact Hburn). mstep_by ltac:(apply u_mul_ok; lia).
    apply bind_ok. eexists tt, _. split.
    { unfold on_congestion, congestion_record_burn. mrun. fold x.
      rewrite !u_add_ok by (div_elim; lia). reflexivity. }
    mstep. reflexivity. }
  cbn. unfold sat_sub. fold x. clearbody x. split_and!; try done; div_elim; lia.
Qed.
End histories.

(** ** Rewards *)
Lemma count_digits_spec fuel v d :
  0 < v → v < 10 ^ N.of_nat fuel →
  ∃ k, count_digits fuel v d = d + k + 1 ∧ 10 ^ k <= v ∧ v < 10 ^ (k + 1).
Proof.
  revert v d. induction fuel as [|fuel IH]; intros v d Hv Hf; cbn [count_digits].
  { cbn in Hf. lia. }
  rewrite Nat2N.inj_succ, N.pow_succ_r' in Hf. rewrite bool_decide_true by done.
  pose proof (div_bounds v 10 ltac:(lia)) as Hd.
  destruct (decide (v / 10 = 0)) as [Hz|Hnz].
  - exists 0. assert (count_digits fuel (v / 10) (d + 1) = d + 1) as ->.
    { rewrite Hz. by destruct fuel. }
    rewrite Hz in Hd. change (10 ^ 0) with 1. change (10 ^ (0 + 1)) with 10. lia.
  - destruct (IH (v / 10) (d + 1)) as (k & Hk & Hlo & Hhi).
    { clear IH. revert Hnz. generalize (v / 10). lia. }
    { apply N.Div0.div_lt_upper_bound. lia. }
    exists (k + 1). rewrite Hk. rewrite !N.pow_add_r in *. change (10 ^ 1) with 10 in *.
    revert Hd Hlo Hhi. generalize (v / 10), (10 ^ k). lia.
Qed.

(** [log10_approx] is the integer logarithm. *)
Lemma log10_approx_spec v :
  0 < v → v <= U128_MAX → 10 ^ log10_approx v <= v ∧ v < 10 ^ (log10_approx v + 1).
Proof.
  intros Hv Hmax. unfold log10_approx. rewrite bool_decide_false by lia.
  destruct (count_digits_spec 39 v 0 Hv) as (k & -> & Hlo & Hhi).
  { assert (U128_MAX < 10 ^ N.of_nat 39) by (vm_compute; reflexivity). lia. }
  unfold sat_sub. replace (0 + k + 1 - 1) with k by lia. done.
Qed.

Lemma multiplier_range s : 1000 <= compute_multiplier_bps s ∧ compute_multiplier_bps s <= 2500.
Proof. unfold compute_multiplier_bps. case_bool_decide; lia. Qed.

Lemma tier_bonus_range t : tier_bonus_bps t <= 500.
Proof. destruct t; cbn; lia. Qed.

(** The base reward of a stake for an epoch. *)
Definition base_reward (config : PoUWConfig) (staked secs : N) : N :=
  staked * config.(pwc_base_apy_bps) * secs / (10000 * (365 * 24 * 60 * 60)).

(** Compute-weighted rewards.  A node without stake earns nothing; one with stake
    earns its base reward times a factor between 1 and 2.5 (the configured cap): 1000
    plus 100 per decimal order of magnitude of its verified operations, at most 1500,
    plus the tier bonus.  The order of magnitude the digit loop computes is the
    integer logarithm. *)
Lemma epoch_reward_weighted `{Build} e node secs :
  let staked := default 0 (e.(pe_node_stakes) !! node) in
  let base := base_reward e.(pe_config) staked secs in
  e.(pe_config).(pwc_enable_compute_weight) = true →
  e.(pe_config).(pwc_max_compute_multiplier_bps) = MAX_COMPUTE_MULTIPLIER_BPS →
  staked * e.(pe_config).(pwc_base_apy_bps) * secs <= U128_MAX → base * 2500 <= U128_MAX →
  (0 < secs ∨ staked * e.(pe_config).(pwc_base_apy_bps) <= U128_MAX) →
  ∃ factor reward,
    calculate_epoch_reward (E := SystemContractError) e node secs = Ok reward
    ∧ reward = base * factor / 1000 ∧ base <= reward ∧ reward <= base * 5 / 2
    ∧ (staked = 0 → reward = 0)
    ∧ (e.(pe_compute_registry) !! node = None → factor = 1000)
    ∧ ∀ s, e.(pe_compute_registry) !! node = Some s →
        0 < s.(ncs_verified_ops_30d) → s.(ncs_verified_ops_30d) <= U128_MAX →
        ∃ k, 10 ^ k <= s.(ncs_verified_ops_30d) ∧ s.(ncs_verified_ops_30d) < 10 ^ (k + 1)
        ∧ factor = N.min (1000 + N.min (k * 100) 1500 + tier_bonus_bps s.(ncs_hardware_tier)) 2500.
Proof.
  intros staked base Hw Hcap Hfit Hfit2 Hsecs.
  set (stats := e.(pe_compute_registry) !! node).
  set (mult := default 1000 (compute_multiplier_bps <$> stats)).
  set (bonus := default 0 ((λ s, tier_bonus_bps s.(ncs_hardware_tier)) <$> stats)).
  assert (1000 <= mult ∧ mult <= 2500 ∧ bonus <= 500) as (Hm1 & Hm2 & Hb).
  { unfold mult, bonus. destruct stats as [s|]; cbn; [|lia].
    pose proof (multiplier_range s). pose proof (tier_bonus_range (ncs_hardware_tier s)). lia. }
  set (factor := N.min (mult + bonus) 2500).
  exists factor, (base * factor / 1000). split.
  { unfold calculate_epoch_reward. fold staked. case_bool_decide as Hz.
    - assert (base = 0) as -> by (unfold base, base_reward; by rewrite Hz). by rewrite N.mul_0_l.
    - rewrite u_mul_ok by nia. cbn [mbind outcome_bind]. rewrite u_mul_ok by done.
      cbn [mbind outcome_bind]. rewrite Hw. cbn [negb]. fold stats mult bonus.
      rewrite u_add_ok by lia. cbn [mbind outcome_bind]. rewrite Hcap.
      change (staked * _ * secs / _) with base. change (N.min (mult + bonus) _) with factor.
      rewrite u_mul_ok; [done|]. unfold factor. nia. }
  assert (1000 <= factor ∧ factor <= 2500) as [Hf1 Hf2] by (unfold factor; lia).
  split; [done|]. split_and!.
  - apply N.div_le_lower_bound; [lia|]. nia.
  - apply N.div_le_lower_bound; [lia|].
    pose proof (div_bounds (base * factor) 1000 ltac:(lia)). nia.
  - intros Hz. unfold base, base_reward. by rewrite Hz.
  - intros Hn. unfold factor, mult, bonus. fold stats in Hn. by rewrite Hn.
  - intros s Hs Hpos Hmax. exists (log10_approx (ncs_verified_ops_30d s)).
    destruct (log10_approx_spec _ Hpos Hmax) as [Hlo Hhi]. split_and!; try done.
    unfold factor, mult, bonus. fold stats in Hs. rewrite Hs. cbn. unfold compute_multiplier_bps.
    by rewrite bool_decide_false by lia.
Qed.

(** ** Bonds *)

(** Liquidation of a compliance bond.  Slashing a posted bond pays the victim
    80% of it (the configured share, rounded down), burns exactly the rest, removes
    the bond, and for thirty days every new bond of the node is refused, whatever its
    type and amount and whatever else is done to the engine's clock; an unknown bond
    is refused without any effect. *)
Lemma bond_liquidation `{Build, Crypto} e node id victim reason ev bonds :
  e.(pe_compliance_bonds) !! node = Some bonds →
  e.(pe_config).(pwc_victim_payout_bps) <= 10000 →
  match take_bond id bonds with
  | None => execute_compliance_slash node id victim reason ev e = (Err NoBondFound, e)
  | Some (b, rest) =>
      b.(cb_amount) * 10000 <= U128_MAX →
      e.(pe_current_time) + ATTESTATION_FAILURE_COOLDOWN <= U64_MAX →
      e.(pe_congestion).(cm_epoch_burned) + b.(cb_amount) <= U128_MAX →
      e.(pe_congestion).(cm_total_burned) + b.(cb_amount) <= U128_MAX →
      b.(cb_bond_id) = id
      ∧ ∃ l e', execute_compliance_slash node id victim reason ev e = (Ok l, e')
        ∧ l.(bl_victim_payout) + l.(bl_burned) = b.(cb_amount)
        ∧ l.(bl_victim_payout) = b.(cb_amount) * e.(pe_config).(pwc_victim_payout_bps) / 10000
        ∧ e'.(pe_compliance_bonds) !! node = Some rest
        ∧ S (length rest) = length bonds
        ∧ e'.(pe_congestion).(cm_total_burned)
          = e.(pe_congestion).(cm_total_burned) + l.(bl_burned)
        ∧ ∀ t type amount expires,
            t < e.(pe_current_time) + ATTESTATION_FAILURE_COOLDOWN → required_bond type <= amount →
            (post_compliance_bond node type amount expires (set_time t e').2).1
            = Err (NodeInCooldown (e.(pe_current_time) + ATTESTATION_FAILURE_COOLDOWN))
  end.
Proof.
  intros Hb Hpct. destruct (take_bond id bonds) as [[b rest]|] eqn:Ht.
  - intros Hfit Htime He Htot.
    assert (cb_bond_id b = id ∧ S (length rest) = length bonds) as [Hid Hlen].
    { clear -Ht. revert b rest Ht. induction bonds as [|b0 bs IH]; intros b rest Ht; [done|].
      cbn in Ht. case_bool_decide; [by injection Ht as <- <-|].
      destruct (take_bond id bs) as [[b1 r1]|]; [|done]. cbn in Ht. injection Ht as <- <-.
      destruct (IH b1 r1 eq_refl). split; [done|]. cbn. lia. }
    split; [done|]. set (bps := e.(pe_config).(pwc_victim_payout_bps)) in *.
    assert (b.(cb_amount) * bps <= b.(cb_amount) * 10000) as Hle by (by apply N.mul_le_mono_l).
    set (payout := b.(cb_amount) * bps / 10000).
    assert (payout <= b.(cb_amount)) as Hpay by (unfold payout; apply N.Div0.div_le_upper_bound; lia).
    do 2 eexists. split.
    { unfold execute_compliance_slash. mstep. mstep_to ltac:(by rewrite Hb).
      mstep_to ltac:(by rewrite Ht). mstep. mstep_by ltac:(apply u_mul_ok; fold bps; lia). fold bps.
      fold payout. mstep_by ltac:(by apply u_sub_ok). mstep. mstep_by ltac:(by apply u_add_ok). mstep.
      apply bind_ok. eexists tt, _. split.
      { unfold on_congestion, congestion_record_burn. mrun. rewrite !u_add_ok by lia. reflexivity. }
      mstep. reflexivity. }
    cbn. split_and!; try done; [lia|by rewrite lookup_insert_eq|].
    intros t type amount expires Hlt Hreq. unfold post_compliance_bond, set_time. mrun.
    rewrite bool_decide_false by lia. cbn. rewrite lookup_insert_eq.
    by rewrite bool_decide_true by done.
  - unfold execute_compliance_slash. mrun. rewrite Hb. cbn. by rewrite Ht.
Qed.

(** ** Concrete runs *)
Definition pouw_start : PoUWEngine := PoUWEngine_mainnet.

Definition pouw_staked : PoUWEngine :=
  pouw_run (H := dev_build) (H0 := dev_crypto) (StakeOp alice (1000000 * POUW_ONE_AETHEL)) pouw_start.

Definition pouw_bonded : PoUWEngine :=
  pouw_run (H := dev_build) (H0 := dev_crypto)
    (PostBondOp alice GdprProcessing (5000 * POUW_ONE_AETHEL) 0) pouw_start.

Lemma pouw_fee_exact_witness :
  ∃ d e', pouw_process_fee (H := dev_build) 1000 pouw_staked = (Ok d, e')
  ∧ d.(pfd_prover_amount) + d.(pfd_validator_amount) + d.(pfd_burn_amount) = 1000.
Proof.
  destruct (pouw_fee_exact (H := dev_build) (H0 := dev_crypto) PoUWConfig_mainnet pouw_staked 1000)
    as (_ & _ & d & e' & Hrun & Hsum & _).
  - apply (pouw_reach_step _ (StakeOp alice (1000000 * POUW_ONE_AETHEL))); [constructor|].
    vm_compute. discriminate.
  - vm_compute. discriminate.
  - vm_compute. discriminate.
  - vm_compute. discriminate.
  - vm_compute. discriminate.
  - eauto.
Defined.

Lemma epoch_reward_weighted_witness :
  ∃ reward, calculate_epoch_reward (H := dev_build) (E := SystemContractError) pouw_staked alice 86400
    = Ok reward ∧ 0 < reward.
Proof.
  destruct (epoch_reward_weighted (H := dev_build) pouw_staked alice 86400)
    as (f & reward & Hrun & _ & Hlo & _);
    [reflexivity|reflexivity|vm_compute; discriminate|vm_compute; discriminate|left; lia|].
  exists reward. split; [done|]. eapply N.lt_le_trans; [|exact Hlo]. vm_compute. reflexivity.
Defined.

Lemma bond_liquidation_witness :
  ∃ id l e', execute_compliance_slash (H := dev_build) (H0 := dev_crypto) alice id prover DataBreach
      (bytes32 4) pouw_bonded = (Ok l, e')
  ∧ l.(bl_victim_payout) + l.(bl_burned) = 5000 * POUW_ONE_AETHEL.
Proof.
  set (id := generate_bond_id (H0 := dev_crypto) alice GdprProcessing 0).
  pose proof (bond_liquidation (H := dev_build) (H0 := dev_crypto) pouw_bonded alice id prover
    DataBreach (bytes32 4) _ eq_refl ltac:(vm_compute; discriminate)) as Hl.
  destruct Hl as (_ & l & e' & Hrun & Hsum & _); [vm_compute; discriminate..|].
  exists id, l, e'. split; [exact Hrun|]. rewrite Hsum. vm_compute. reflexivity.
Defined.
