(* ===== verification/ConsensusTypes.v ===== *)
(** * Types of the consensus crate

    [crates/consensus/src]: [error.rs], [types.rs], the compute results of
    [traits.rs] and the configuration [pouw/config.rs].

    The functions of the platform's mathematical library and SHA-256 are a
    parameter, the class [ConsensusEnv]: Rust leaves the precision of [log10] and
    [powi] open, and nothing here depends on it unless a theorem says so.  The
    names of [pouw_engine.rs] that the crate declares again carry a prefix. *)
From S2P Require Import Prelude SysTypes F64 Precompile.
From stdpp Require Import base gmap list strings pretty.
From Stdlib Require Import ZArith Lia SpecFloat HexadecimalString.
#[local] Open Scope N_scope.

Abbreviation Slot := N.
Abbreviation Epoch := N.
Abbreviation EpochSeed := (list N).

(** SHA-256, [f64::log10] and [f64::powi]. *)
Class ConsensusEnv := {
  digest : bytes → Hash;
  f64_log10 : f64 → f64;
  f64_powi : f64 → Z → f64;
}.

(** ** Signed integers and the remaining operations on [f64] *)
Definition I64_MAX : Z := 9223372036854775807.
Definition I64_MIN : Z := -9223372036854775808.
Definition I32_MAX : Z := 2147483647.

(** [n as i64], [n as i32] of an unsigned integer; [z as u64] of a signed one. *)
Definition wrap_signed (max : Z) (z : Z) : Z :=
  ((z + max + 1) mod (2 * (max + 1)) - (max + 1))%Z.
Definition u64_of_Z (z : Z) : N := Z.to_N (z mod 2 ^ 64)%Z.

(** [a + b] on [i64]. *)
Definition i64_add `{Build} {E} (a b : Z) : outcome E Z :=
  if bool_decide (I64_MIN <= a + b <= I64_MAX)%Z then Ok (a + b)%Z
  else if overflow_checks then Panic else Ok (wrap_signed I64_MAX (a + b)).

(** [-a] on [i64], and its cast to [u64]. *)
Definition i64_neg_u64 `{Build} {E} (a : Z) : outcome E N :=
  if bool_decide (a = I64_MIN) then (if overflow_checks then Panic else Ok (u64_of_Z I64_MIN))
  else Ok (u64_of_Z (- a)).

Definition f64_add : f64 → f64 → f64 := SFadd 53 1024.
Definition f64_sub : f64 → f64 → f64 := SFsub 53 1024.
Definition f64_lt (x y : f64) : bool := SFltb x y.
Definition f64_le (x y : f64) : bool := SFleb x y.
Definition f64_of_Z (z : Z) : f64 := binary_normalize 53 1024 z 0 false.

Definition f64_is_nan (x : f64) : bool := match x with S754_nan => true | _ => false end.

(** [x.min(y)]: the other operand when one is NaN. *)
Definition f64_min (x y : f64) : f64 :=
  if f64_is_nan x then y else if f64_is_nan y then x else if f64_le x y then x else y.

(** [x as i64]: truncates towards zero and saturates; NaN gives zero. *)
Definition f64_as_i64 (x : f64) : Z :=
  match x with
  | S754_finite false m e => Z.min I64_MAX (Z.shiftl (Zpos m) e)
  | S754_finite true m e => Z.max I64_MIN (- Z.shiftl (Zpos m) e)
  | S754_infinity false => I64_MAX
  | S754_infinity true => I64_MIN
  | _ => 0%Z
  end.

(** Literals: the nearest binary64, [m * 2^e]. *)
Definition f64_lit (m : positive) (e : Z) : f64 := S754_finite false m e.
Definition F0_8 : f64 := f64_lit 7205759403792794 (-53).
Definition F0_9 : f64 := f64_lit 8106479329266893 (-53).
Definition F0_95 : f64 := f64_lit 8556839292003942 (-53).
Definition F1_0 : f64 := f64_lit 4503599627370496 (-52).
Definition F1_1 : f64 := f64_lit 4953959590107546 (-52).
Definition F1_5 : f64 := f64_lit 6755399441055744 (-52).
Definition F1_75 : f64 := f64_lit 7881299347898368 (-52).
Definition F2_0 : f64 := f64_lit 4503599627370496 (-51).
Definition F5_0 : f64 := f64_lit 5629499534213120 (-50).
Definition F6_0 : f64 := f64_lit 6755399441055744 (-50).
Definition F10_0 : f64 := f64_lit 5629499534213120 (-49).
Definition F50_0 : f64 := f64_lit 7036874417766400 (-47).
Definition F95_0 : f64 := f64_lit 6685030696878080 (-46).
Definition F500_0 : f64 := f64_lit 8796093022208000 (-44).

(** ** Encodings: [BigUint::to_str_radix(16)] *)
Definition to_str_radix_16 (n : N) : string := NilZero.string_of_uint (N.to_hex_uint n).

(** ** [error.rs] *)
Inductive ConsensusError :=
| VrfVerificationFailed (reason : string)
| MalformedVrfProof (expected actual : N)
| InvalidVrfKey (reason : string)
| VrfThresholdNotMet (output_hex threshold_hex : string)
| NotEligible (address reason : string)
| CInsufficientStake (required actual : N)
| ValidatorNotRegistered (address : string)
| CValidatorJailed (address : string) (until_slot : N)
| DoubleProposal (address : string) (slot : N)
| InvalidBlockHeader (reason : string)
| ParentNotFound (parent_hash : string)
| InvalidSlot (expected actual : N)
| InvalidStateRoot (expected computed : string)
| InvalidComputeResultsRoot (expected computed : string)
| UsefulWorkScoreMismatch (address : string) (claimed actual : N)
| CInvalidTimestamp (reason : string)
| SuspiciousActivity (address reason : string)
| InvalidUsefulWorkResult (reason : string)
| AiProofVerificationFailed (reason : string)
| CTeeAttestationFailed (reason : string)
| ZkmlProofFailed (reason : string)
| UnsupportedCategory (category : string)
| ReputationUpdateFailed (address reason : string)
| InvalidJobResult (reason : string)
| ReputationCorrupted (reason : string)
| EpochTransitionFailed (reason : string)
| InvalidEpochSeed (reason : string)
| EpochBoundaryNotReached (current boundary : N)
| NotFinalized (slot : N)
| ConflictingFinalization (reason : string)
| InsufficientAttestations (required actual : N)
| ConfigError (reason : string)
| StateAccess (reason : string)
| CryptoError (reason : string)
| InternalError (reason : string)
| TimeoutError (operation : string) (timeout_ms : N)
| NotValidator
| ValidatorNotFound (address : Address)
| ValidatorIneligible (address : Address)
| InvalidLeaderCredentials (reason : string)
| InvalidParentHash (expected got : Hash)
| BlockValidation (reason : string)
| SlotValidation (reason : string)
| TimestampValidation (reason : string)
| VrfValidation (reason : string)
| ComputeValidation (reason : string)
| FinalityValidation (reason : string).

Definition ConsensusError_is_recoverable (e : ConsensusError) : bool :=
  match e with
  | VrfThresholdNotMet _ _ | NotEligible _ _ | CInsufficientStake _ _ | TimeoutError _ _ => true
  | _ => false
  end.

Definition is_slashable (e : ConsensusError) : bool :=
  match e with DoubleProposal _ _ | ConflictingFinalization _ => true | _ => false end.

Definition ConsensusError_error_code (e : ConsensusError) : N :=
  match e with
  | VrfVerificationFailed _ => 1001 | MalformedVrfProof _ _ => 1002 | InvalidVrfKey _ => 1003
  | VrfThresholdNotMet _ _ => 1004
  | NotEligible _ _ => 2001 | CInsufficientStake _ _ => 2002 | ValidatorNotRegistered _ => 2003
  | CValidatorJailed _ _ => 2004 | DoubleProposal _ _ => 2005
  | InvalidBlockHeader _ => 3001 | ParentNotFound _ => 3002 | InvalidSlot _ _ => 3003
  | InvalidStateRoot _ _ => 3004 | InvalidComputeResultsRoot _ _ => 3005
  | UsefulWorkScoreMismatch _ _ _ => 3006 | CInvalidTimestamp _ => 3007
  | ReputationUpdateFailed _ _ => 4001 | InvalidJobResult _ => 4002 | ReputationCorrupted _ => 4003
  | EpochTransitionFailed _ => 5001 | InvalidEpochSeed _ => 5002
  | EpochBoundaryNotReached _ _ => 5003
  | NotFinalized _ => 6001 | ConflictingFinalization _ => 6002
  | InsufficientAttestations _ _ => 6003
  | ConfigError _ => 9001 | StateAccess _ => 9002 | CryptoError _ => 9003 | InternalError _ => 9004
  | TimeoutError _ _ => 9005
  | SuspiciousActivity _ _ => 7002 | InvalidUsefulWorkResult _ => 7003
  | AiProofVerificationFailed _ => 7004 | CTeeAttestationFailed _ => 7005
  | ZkmlProofFailed _ => 7006 | UnsupportedCategory _ => 7007
  | NotValidator => 8001 | ValidatorNotFound _ => 8002 | ValidatorIneligible _ => 8003
  | InvalidLeaderCredentials _ => 8004 | InvalidParentHash _ _ => 8005 | BlockValidation _ => 8006
  | SlotValidation _ => 8007 | TimestampValidation _ => 8008 | VrfValidation _ => 8009
  | ComputeValidation _ => 8010 | FinalityValidation _ => 8011
  end.

(** ** [pouw/config.rs]: categories and methods *)
Inductive UtilityCategory :=
| General | Financial | Medical | Scientific | Infrastructure | Environmental | Education
| Entertainment.

#[export] Instance UtilityCategory_eq_dec : EqDecision UtilityCategory.
Proof. solve_decision. Defined.

Definition category_as_u8 (c : UtilityCategory) : N :=
  match c with
  | General => 0 | Financial => 1 | Medical => 2 | Scientific => 3 | Infrastructure => 4
  | Environmental => 5 | Education => 6 | Entertainment => 7
  end.

Definition UtilityCategory_from_u8 (value : N) : option UtilityCategory :=
  match value with
  | 0 => Some General | 1 => Some Financial | 2 => Some Medical | 3 => Some Scientific
  | 4 => Some Infrastructure | 5 => Some Environmental | 6 => Some Education
  | 7 => Some Entertainment | _ => None
  end.

#[export] Instance UtilityCategory_countable : Countable UtilityCategory.
Proof.
  apply (inj_countable category_as_u8 UtilityCategory_from_u8). by intros [].
Defined.

Definition UtilityCategory_all : list UtilityCategory :=
  [General; Financial; Medical; Scientific; Infrastructure; Environmental; Education;
   Entertainment].

Definition default_multiplier_bps (c : UtilityCategory) : N :=
  match c with
  | General => 10000 | Financial => 15000 | Medical => 20000 | Scientific => 17500
  | Infrastructure => 14000 | Environmental => 16000 | Education => 13000 | Entertainment => 10000
  end.

Definition verification_strictness (c : UtilityCategory) : N :=
  match c with
  | General => 50 | Financial => 90 | Medical => 100 | Scientific => 80 | Infrastructure => 70
  | Environmental => 75 | Education => 60 | Entertainment => 40
  end.

Definition requires_tee (c : UtilityCategory) : bool :=
  match c with Financial | Medical | Infrastructure => true | _ => false end.

Definition supports_zkml (c : UtilityCategory) : bool := true.

Inductive CnComplianceLevel :=
| MinimalLevel | StandardLevel | MediumLevel | HighLevel | MaximumLevel.

Definition compliance_level (c : UtilityCategory) : CnComplianceLevel :=
  match c with
  | Medical => MaximumLevel
  | Financial | Infrastructure => HighLevel
  | Environmental | Scientific => MediumLevel
  | Education | General => StandardLevel
  | Entertainment => MinimalLevel
  end.

Definition required_certifications (l : CnComplianceLevel) : list string :=
  match l with
  | MinimalLevel => []
  | StandardLevel => ["KYC"]
  | MediumLevel => ["KYC"; "AML"]
  | HighLevel => ["KYC"; "AML"; "SOC2"]
  | MaximumLevel => ["KYC"; "AML"; "SOC2"; "HIPAA"; "GDPR"; "PCI-DSS"]
  end.

Definition audit_retention_days (l : CnComplianceLevel) : N :=
  match l with
  | MinimalLevel => 30 | StandardLevel => 90 | MediumLevel => 365 | HighLevel => 365 * 3
  | MaximumLevel => 365 * 7
  end.

Inductive PoUWVerificationMethod := PTeeAttestation | PZkProof | PHybrid | PReExecution | PAiProof.

#[export] Instance PoUWVerificationMethod_eq_dec : EqDecision PoUWVerificationMethod.
Proof. solve_decision. Defined.

Definition pouw_method_u8 (m : PoUWVerificationMethod) : N :=
  match m with
  | PTeeAttestation => 0 | PZkProof => 1 | PHybrid => 2 | PReExecution => 3 | PAiProof => 4
  end.

#[export] Instance PoUWVerificationMethod_countable : Countable PoUWVerificationMethod.
Proof.
  apply (inj_countable' pouw_method_u8 (λ n,
    match n with 0 => PTeeAttestation | 1 => PZkProof | 2 => PHybrid | 3 => PReExecution
    | _ => PAiProof end)). by intros [].
Defined.

(** ** [pouw/config.rs]: useful work *)
Record VerificationMultipliers := {
  vmu_tee_only_bps : N;
  vmu_zkml_only_bps : N;
  vmu_hybrid_bps : N;
  vmu_reexecution_bps : N;
  vmu_ai_proof_bps : N;
}.

Definition VerificationMultipliers_default : VerificationMultipliers := {|
  vmu_tee_only_bps := 10000; vmu_zkml_only_bps := 15000; vmu_hybrid_bps := 20000;
  vmu_reexecution_bps := 8000; vmu_ai_proof_bps := 17500 |}.

Record DecayConfig := {
  dcf_epoch_decay_factor : f64;
  dcf_rolling_window_epochs : N;
  dcf_minimum_score : N;
  dcf_inactivity_grace_epochs : N;
  dcf_inactive_decay_factor : f64;
}.

Definition DecayConfig_default : DecayConfig := {|
  dcf_epoch_decay_factor := F0_95; dcf_rolling_window_epochs := 30; dcf_minimum_score := 1;
  dcf_inactivity_grace_epochs := 3; dcf_inactive_decay_factor := F0_8 |}.

Record AntiGamingConfig := {
  agc_max_epoch_increase_pct : N;
  agc_min_unique_sources : N;
  agc_suspicious_ratio_threshold : f64;
  agc_suspicious_cooldown_epochs : N;
  agc_enable_sybil_checks : bool;
  agc_max_jobs_per_requester : N;
}.

Definition anti_gaming (sybil_checks : bool) : AntiGamingConfig := {|
  agc_max_epoch_increase_pct := 200; agc_min_unique_sources := 3;
  agc_suspicious_ratio_threshold := F10_0; agc_suspicious_cooldown_epochs := 5;
  agc_enable_sybil_checks := sybil_checks; agc_max_jobs_per_requester := 1000 |}.

Definition AntiGamingConfig_default : AntiGamingConfig := anti_gaming true.

Record UsefulWorkConfig := {
  uwc_base_uwu_per_inference : N;
  uwc_complexity_scaling_bps : N;
  uwc_max_uwu_per_job : N;
  uwc_min_complexity_threshold : N;
  uwc_max_complexity_threshold : N;
  uwc_category_multipliers : gmap UtilityCategory N;
  uwc_verification_multipliers : VerificationMultipliers;
  uwc_decay_config : DecayConfig;
  uwc_anti_gaming : AntiGamingConfig;
}.

(** The default, with the fields the networks change. *)
Definition useful_work_config (min_complexity : N) (decay : DecayConfig) (sybil_checks : bool)
  : UsefulWorkConfig := {|
  uwc_base_uwu_per_inference := 100; uwc_complexity_scaling_bps := 100;
  uwc_max_uwu_per_job := 1000000; uwc_min_complexity_threshold := min_complexity;
  uwc_max_complexity_threshold := 10000000;
  uwc_category_multipliers :=
    foldl (λ m c, <[c := default_multiplier_bps c]> m) ∅ UtilityCategory_all;
  uwc_verification_multipliers := VerificationMultipliers_default;
  uwc_decay_config := decay; uwc_anti_gaming := anti_gaming sybil_checks |}.

Definition UsefulWorkConfig_default : UsefulWorkConfig :=
  useful_work_config 1000 DecayConfig_default true.

(** ** [pouw/config.rs]: the configuration *)
Record CnPoUWConfig := {
  cc_slot_duration_ms : N;
  cc_slots_per_epoch : N;
  cc_block_timeout_ms : N;
  cc_max_clock_drift_secs : N;
  cc_min_stake : N;
  cc_max_validators : N;
  cc_unbonding_epochs : N;
  cc_min_self_delegation_bps : N;
  cc_max_useful_work_multiplier : f64;
  cc_useful_work_config : UsefulWorkConfig;
  cc_max_useful_work_score : N;
  cc_chain_id : N;
  cc_enable_key_rotation : bool;
  cc_vrf_bias_threshold : N;
  cc_justification_threshold_bps : N;
  cc_finalization_threshold_bps : N;
  cc_finalization_lookback_epochs : N;
  cc_enable_fast_finality : bool;
  cc_double_proposal_slash_bps : N;
  cc_conflicting_finality_slash_bps : N;
  cc_invalid_proof_slash_bps : N;
  cc_sla_violation_slash_bps : N;
  cc_minor_jail_duration : N;
  cc_major_jail_duration : N;
  cc_base_block_reward : N;
  cc_reward_per_uwu : N;
  cc_proposer_reward_bps : N;
  cc_attestor_reward_bps : N;
  cc_verifier_reward_bps : N;
  cc_min_reexecution_validators : N;
  cc_enable_ai_proof_verification : bool;
  cc_ai_proof_confidence_threshold_bps : N;
  cc_max_verification_time_ms : N;
}.

Definition CnPoUWConfig_mainnet : CnPoUWConfig := {|
  cc_slot_duration_ms := 6000; cc_slots_per_epoch := 432000; cc_block_timeout_ms := 4000;
  cc_max_clock_drift_secs := 30;
  cc_min_stake := 1000000000000000000; cc_max_validators := 200; cc_unbonding_epochs := 2;
  cc_min_self_delegation_bps := 1000;
  cc_max_useful_work_multiplier := F5_0; cc_useful_work_config := UsefulWorkConfig_default;
  cc_max_useful_work_score := U64_MAX / 2;
  cc_chain_id := 1; cc_enable_key_rotation := true; cc_vrf_bias_threshold := 100;
  cc_justification_threshold_bps := 6667; cc_finalization_threshold_bps := 8000;
  cc_finalization_lookback_epochs := 2; cc_enable_fast_finality := true;
  cc_double_proposal_slash_bps := 500; cc_conflicting_finality_slash_bps := 2000;
  cc_invalid_proof_slash_bps := 1000; cc_sla_violation_slash_bps := 300;
  cc_minor_jail_duration := 14400; cc_major_jail_duration := 432000;
  cc_base_block_reward := 1000000000000000000; cc_reward_per_uwu := 1000000;
  cc_proposer_reward_bps := 2500; cc_attestor_reward_bps := 5000; cc_verifier_reward_bps := 2500;
  cc_min_reexecution_validators := 3; cc_enable_ai_proof_verification := true;
  cc_ai_proof_confidence_threshold_bps := 9500; cc_max_verification_time_ms := 30000 |}.

Definition CnPoUWConfig_testnet : CnPoUWConfig := {|
  cc_slot_duration_ms := 3000; cc_slots_per_epoch := 86400; cc_block_timeout_ms := 2000;
  cc_max_clock_drift_secs := 60;
  cc_min_stake := 1000000000000; cc_max_validators := 100; cc_unbonding_epochs := 1;
  cc_min_self_delegation_bps := 500;
  cc_max_useful_work_multiplier := F5_0;
  cc_useful_work_config := useful_work_config 1000 DecayConfig_default false;
  cc_max_useful_work_score := U64_MAX / 2;
  cc_chain_id := 2; cc_enable_key_rotation := false; cc_vrf_bias_threshold := 50;
  cc_justification_threshold_bps := 5000; cc_finalization_threshold_bps := 6667;
  cc_finalization_lookback_epochs := 1; cc_enable_fast_finality := true;
  cc_double_proposal_slash_bps := 100; cc_conflicting_finality_slash_bps := 500;
  cc_invalid_proof_slash_bps := 200; cc_sla_violation_slash_bps := 50;
  cc_minor_jail_duration := 1000; cc_major_jail_duration := 10000;
  cc_base_block_reward := 10000000000000000000; cc_reward_per_uwu := 10000000;
  cc_proposer_reward_bps := 2500; cc_attestor_reward_bps := 5000; cc_verifier_reward_bps := 2500;
  cc_min_reexecution_validators := 2; cc_enable_ai_proof_verification := true;
  cc_ai_proof_confidence_threshold_bps := 9000; cc_max_verification_time_ms := 60000 |}.

Definition CnPoUWConfig_devnet : CnPoUWConfig := {|
  cc_slot_duration_ms := 1000; cc_slots_per_epoch := 100; cc_block_timeout_ms := 800;
  cc_max_clock_drift_secs := 120;
  cc_min_stake := 1; cc_max_validators := 10; cc_unbonding_epochs := 0;
  cc_min_self_delegation_bps := 0;
  cc_max_useful_work_multiplier := F5_0;
  cc_useful_work_config := useful_work_config 0 {|
    dcf_epoch_decay_factor := F1_0; dcf_rolling_window_epochs := 30; dcf_minimum_score := 1;
    dcf_inactivity_grace_epochs := 3; dcf_inactive_decay_factor := F0_8 |} false;
  cc_max_useful_work_score := U64_MAX;
  cc_chain_id := 999; cc_enable_key_rotation := false; cc_vrf_bias_threshold := 0;
  cc_justification_threshold_bps := 1; cc_finalization_threshold_bps := 1;
  cc_finalization_lookback_epochs := 0; cc_enable_fast_finality := true;
  cc_double_proposal_slash_bps := 0; cc_conflicting_finality_slash_bps := 0;
  cc_invalid_proof_slash_bps := 0; cc_sla_violation_slash_bps := 0;
  cc_minor_jail_duration := 0; cc_major_jail_duration := 0;
  cc_base_block_reward := 1000000000000000000000; cc_reward_per_uwu := 1000000000;
  cc_proposer_reward_bps := 3333; cc_attestor_reward_bps := 3333; cc_verifier_reward_bps := 3334;
  cc_min_reexecution_validators := 1; cc_enable_ai_proof_verification := true;
  cc_ai_proof_confidence_threshold_bps := 5000; cc_max_verification_time_ms := 120000 |}.

(** One guard of [validate]: [if bad { return Err(reason) }]. *)
Definition reject {E A} (bad : bool) (reason : E) (k : outcome E A) : outcome E A :=
  if bad then Err reason else k.

Definition CnPoUWConfig_validate `{Build} (c : CnPoUWConfig) : outcome string unit :=
  reject (bool_decide (c.(cc_slot_duration_ms) = 0)) "Slot duration must be > 0" $
  reject (bool_decide (c.(cc_slots_per_epoch) = 0)) "Slots per epoch must be > 0" $
  reject (bool_decide (c.(cc_slot_duration_ms) <= c.(cc_block_timeout_ms)))
    "Block timeout must be < slot duration" $
  reject (f64_le c.(cc_max_useful_work_multiplier) F1_0)
    "Max useful work multiplier must be > 1.0" $
  let decay := c.(cc_useful_work_config).(uwc_decay_config).(dcf_epoch_decay_factor) in
  reject (f64_le decay (S754_zero false) || f64_lt F1_0 decay)
    "Useful work decay factor must be in (0.0, 1.0]" $
  reject (bool_decide (10000 < c.(cc_justification_threshold_bps)))
    "Justification threshold cannot exceed 100%" $
  reject (bool_decide (10000 < c.(cc_finalization_threshold_bps)))
    "Finalization threshold cannot exceed 100%" $
  reject (bool_decide (c.(cc_finalization_threshold_bps) < c.(cc_justification_threshold_bps)))
    "Finalization threshold must be >= justification threshold" $
  reject (bool_decide (10000 < c.(cc_double_proposal_slash_bps)))
    "Slash percentage cannot exceed 100%" $
  partial ← u_add U64_MAX c.(cc_proposer_reward_bps) c.(cc_attestor_reward_bps);
  total_reward_bps ← u_add U64_MAX partial c.(cc_verifier_reward_bps);
  reject (negb (bool_decide (total_reward_bps = 10000)))
    ("Proposer + attestor + verifier rewards must equal 100% (got "
     +:+ pretty (total_reward_bps / 100) +:+ "%)") $
  reject (bool_decide (10000 < c.(cc_ai_proof_confidence_threshold_bps)))
    "AI proof confidence threshold cannot exceed 100%" $
  Ok tt.

Section config_methods.
Context `{Build} {E : Type}.

Definition cc_epoch_for_slot (c : CnPoUWConfig) (slot : N) : outcome E N :=
  u_div slot c.(cc_slots_per_epoch).

Definition cc_first_slot_of_epoch (c : CnPoUWConfig) (epoch : N) : outcome E N :=
  u_mul U64_MAX epoch c.(cc_slots_per_epoch).

Definition cc_is_epoch_boundary (c : CnPoUWConfig) (slot : N) : bool :=
  negb (bool_decide (c.(cc_slots_per_epoch) = 0))
  && bool_decide (slot mod c.(cc_slots_per_epoch) = 0).

Definition category_multiplier (c : CnPoUWConfig) (category : UtilityCategory) : N :=
  default (default_multiplier_bps category)
    (c.(cc_useful_work_config).(uwc_category_multipliers) !! category).

Definition method_multiplier_bps (m : VerificationMultipliers) (method : PoUWVerificationMethod)
  : N :=
  match method with
  | PTeeAttestation => m.(vmu_tee_only_bps)
  | PZkProof => m.(vmu_zkml_only_bps)
  | PHybrid => m.(vmu_hybrid_bps)
  | PReExecution => m.(vmu_reexecution_bps)
  | PAiProof => m.(vmu_ai_proof_bps)
  end.

(** The products are taken in [u128], where two [u64] always fit. *)
Definition calculate_uwu (c : CnPoUWConfig) (complexity : N) (category : UtilityCategory)
  (method : PoUWVerificationMethod) : N :=
  let config := c.(cc_useful_work_config) in
  if bool_decide (complexity < config.(uwc_min_complexity_threshold)) then 0 else
  let effective_complexity := N.min complexity config.(uwc_max_complexity_threshold) in
  let base := config.(uwc_base_uwu_per_inference) in
  let complexity_bonus :=
    cast U64_MAX (effective_complexity * config.(uwc_complexity_scaling_bps) / 10000) in
  let category_mult := category_multiplier c category in
  let verification_mult := method_multiplier_bps config.(uwc_verification_multipliers) method in
  let raw_uwu := sat_add U64_MAX base complexity_bonus in
  let with_category := cast U64_MAX (raw_uwu * category_mult / 10000) in
  let final_uwu := cast U64_MAX (with_category * verification_mult / 10000) in
  N.min final_uwu config.(uwc_max_uwu_per_job).
End config_methods.

(** ** [lib.rs] *)
Definition DEFAULT_SLOTS_PER_EPOCH : N := 432000.
Definition MAX_COMPUTE_MULTIPLIER : f64 := F5_0.
Definition MIN_STAKE_FOR_ELECTION : N := 1000000000000.

(** ** [types.rs]: block headers *)
Record PoUWBlockHeader := {
  hd_parent_hash : Hash;
  hd_height : N;
  hd_slot : Slot;
  hd_epoch : Epoch;
  hd_proposer_address : Address;
  hd_state_root : Hash;
  hd_transactions_root : Hash;
  hd_receipts_root : Hash;
  hd_timestamp : N;
  hd_vrf_proof : bytes;
  hd_compute_results_root : Hash;
  hd_compute_job_count : N;
  hd_compute_complexity : N;
  hd_proposer_useful_work_score : N;
  hd_proposer_stake : N;
  hd_last_justified_hash : Hash;
  hd_last_finalized_slot : Slot;
  hd_signature : bytes;
}.

Definition PoUWBlockHeader_genesis (timestamp : N) : PoUWBlockHeader := {|
  hd_parent_hash := bytes32 0; hd_height := 0; hd_slot := 0; hd_epoch := 0;
  hd_proposer_address := bytes32 0; hd_state_root := bytes32 0;
  hd_transactions_root := bytes32 0; hd_receipts_root := bytes32 0; hd_timestamp := timestamp;
  hd_vrf_proof := []; hd_compute_results_root := bytes32 0; hd_compute_job_count := 0;
  hd_compute_complexity := 0; hd_proposer_useful_work_score := 0; hd_proposer_stake := 0;
  hd_last_justified_hash := bytes32 0; hd_last_finalized_slot := 0; hd_signature := [] |}.

(** The bytes [hash] feeds to SHA-256: every field but the signature. *)
Definition header_preimage (h : PoUWBlockHeader) : bytes :=
  h.(hd_parent_hash) ++ to_le_bytes 8 h.(hd_height) ++ to_le_bytes 8 h.(hd_slot)
  ++ to_le_bytes 8 h.(hd_epoch) ++ h.(hd_proposer_address) ++ h.(hd_state_root)
  ++ h.(hd_transactions_root) ++ h.(hd_receipts_root) ++ to_le_bytes 8 h.(hd_timestamp)
  ++ h.(hd_vrf_proof) ++ h.(hd_compute_results_root) ++ to_le_bytes 4 h.(hd_compute_job_count)
  ++ to_le_bytes 8 h.(hd_compute_complexity) ++ to_le_bytes 8 h.(hd_proposer_useful_work_score)
  ++ to_le_bytes 16 h.(hd_proposer_stake) ++ h.(hd_last_justified_hash)
  ++ to_le_bytes 8 h.(hd_last_finalized_slot).

Definition header_hash `{ConsensusEnv} (h : PoUWBlockHeader) : Hash := digest (header_preimage h).

Definition signing_message `{ConsensusEnv} (h : PoUWBlockHeader) : Hash := header_hash h.

Definition is_genesis (h : PoUWBlockHeader) : bool :=
  bool_decide (h.(hd_height) = 0) && bool_decide (h.(hd_parent_hash) = bytes32 0).

Definition validate_structure (h : PoUWBlockHeader) : outcome string unit :=
  reject (negb (is_genesis h) && bool_decide (blen h.(hd_vrf_proof) < 100))
    ("VRF proof too short: " +:+ pretty (blen h.(hd_vrf_proof)) +:+ " bytes (expected >= 100)") $
  reject (bool_decide (h.(hd_timestamp) = 0) && negb (is_genesis h)) "Timestamp cannot be zero" $
  let expected_epoch := h.(hd_slot) / DEFAULT_SLOTS_PER_EPOCH in
  reject (negb (bool_decide (h.(hd_epoch) = expected_epoch)) && negb (is_genesis h))
    ("Epoch mismatch: expected " +:+ pretty expected_epoch +:+ ", got " +:+ pretty h.(hd_epoch)) $
  Ok tt.

(** ** [types.rs]: validators *)
Record ValidatorInfo := {
  vi_address : Address;
  vi_stake : N;
  vi_vrf_pubkey : bytes;
  vi_consensus_pubkey : bytes;
  vi_commission : N;
  vi_useful_work_score : N;
  vi_active : bool;
  vi_jailed_until : Slot;
  vi_registered_at : Slot;
  vi_last_proposal_slot : Slot;
  vi_blocks_proposed : N;
  vi_jobs_verified : N;
}.

Definition ValidatorInfo_new (address : Address) (stake : N) (vrf_pubkey consensus_pubkey : bytes)
  (commission registered_at : N) : ValidatorInfo := {|
  vi_address := address; vi_stake := stake; vi_vrf_pubkey := vrf_pubkey;
  vi_consensus_pubkey := consensus_pubkey; vi_commission := commission;
  vi_useful_work_score := 0; vi_active := true; vi_jailed_until := 0;
  vi_registered_at := registered_at; vi_last_proposal_slot := 0; vi_blocks_proposed := 0;
  vi_jobs_verified := 0 |}.

(** The fields a processed block changes. *)
Definition vi_with (score last_slot proposed jobs : N) (v : ValidatorInfo) : ValidatorInfo := {|
  vi_address := v.(vi_address); vi_stake := v.(vi_stake); vi_vrf_pubkey := v.(vi_vrf_pubkey);
  vi_consensus_pubkey := v.(vi_consensus_pubkey); vi_commission := v.(vi_commission);
  vi_useful_work_score := score; vi_active := v.(vi_active);
  vi_jailed_until := v.(vi_jailed_until); vi_registered_at := v.(vi_registered_at);
  vi_last_proposal_slot := last_slot; vi_blocks_proposed := proposed; vi_jobs_verified := jobs |}.

Definition is_eligible (v : ValidatorInfo) (current_slot : Slot) : bool :=
  v.(vi_active)
  && (bool_decide (v.(vi_jailed_until) = 0) || bool_decide (v.(vi_jailed_until) <= current_slot))
  && bool_decide (MIN_STAKE_FOR_ELECTION <= v.(vi_stake)).

(** [1.0 + (1.0 + score as f64).log10() / 6.0], capped. *)
Definition capped_multiplier `{ConsensusEnv} (cap : f64) (score : N) : f64 :=
  f64_min (f64_add F1_0 (f64_div (f64_log10 (f64_add F1_0 (f64_of_N score))) F6_0)) cap.

Definition compute_multiplier `{ConsensusEnv} (useful_work_score : N) : f64 :=
  capped_multiplier MAX_COMPUTE_MULTIPLIER useful_work_score.

Definition vi_weighted_stake `{ConsensusEnv} (v : ValidatorInfo) : N :=
  f64_as U128_MAX (f64_mul (f64_of_N v.(vi_stake)) (compute_multiplier v.(vi_useful_work_score))).

(** ** [types.rs]: slots *)
Record SlotTiming := {
  st_slot_duration_ms : N;
  st_slots_per_epoch : N;
  st_genesis_timestamp : N;
}.

Definition SlotTiming_default : SlotTiming := {|
  st_slot_duration_ms := 6000; st_slots_per_epoch := DEFAULT_SLOTS_PER_EPOCH;
  st_genesis_timestamp := 0 |}.

Section timing.
Context `{Build} {E : Type}.

Definition slot_for_timestamp (t : SlotTiming) (timestamp : N) : outcome E Slot :=
  if bool_decide (timestamp < t.(st_genesis_timestamp)) then Ok 0 else
  elapsed_ms ← u_mul U64_MAX (timestamp - t.(st_genesis_timestamp)) 1000;
  u_div elapsed_ms t.(st_slot_duration_ms).

Definition timestamp_for_slot (t : SlotTiming) (slot : Slot) : outcome E N :=
  elapsed_ms ← u_mul U64_MAX slot t.(st_slot_duration_ms);
  u_add U64_MAX t.(st_genesis_timestamp) (elapsed_ms / 1000).

Definition epoch_for_slot (t : SlotTiming) (slot : Slot) : outcome E Epoch :=
  u_div slot t.(st_slots_per_epoch).

Definition first_slot_of_epoch (t : SlotTiming) (epoch : Epoch) : outcome E Slot :=
  u_mul U64_MAX epoch t.(st_slots_per_epoch).

Definition last_slot_of_epoch (t : SlotTiming) (epoch : Epoch) : outcome E Slot :=
  next ← u_add U64_MAX epoch 1;
  first ← u_mul U64_MAX next t.(st_slots_per_epoch);
  u_sub U64_MAX first 1.

Definition is_epoch_boundary (t : SlotTiming) (slot : Slot) : bool :=
  negb (bool_decide (t.(st_slots_per_epoch) = 0))
  && bool_decide (slot mod t.(st_slots_per_epoch) = 0).
End timing.

(** ** [traits.rs]: compute results *)
Inductive TraitVerificationMethod := TTeeAttestation | TZkProof | THybrid | TReExecution.

Definition trait_method_u8 (m : TraitVerificationMethod) : N :=
  match m with TTeeAttestation => 0 | TZkProof => 1 | THybrid => 2 | TReExecution => 3 end.

Definition assurance_level (m : TraitVerificationMethod) : N :=
  match m with TReExecution => 1 | TTeeAttestation => 2 | TZkProof => 3 | THybrid => 4 end.

Definition score_multiplier (m : TraitVerificationMethod) : f64 :=
  match m with TReExecution => F0_8 | TTeeAttestation => F1_0 | TZkProof => F1_5 | THybrid => F2_0 end.

Definition TraitVerificationMethod_from_u8 (value : N) : option TraitVerificationMethod :=
  match value with
  | 0 => Some TTeeAttestation | 1 => Some TZkProof | 2 => Some THybrid | 3 => Some TReExecution
  | _ => None
  end.

Record ComputeResult := {
  cr_job_id : Hash;
  cr_model_hash : Hash;
  cr_input_hash : Hash;
  cr_output_hash : Hash;
  cr_complexity : N;
  cr_verification_method : TraitVerificationMethod;
  cr_attestation : bytes;
  cr_zk_proof : option bytes;
  cr_validator : Address;
  cr_confirmations : N;
}.

Definition ComputeResult_new (job_id model_hash input_hash output_hash : Hash) (complexity : N)
  (method : TraitVerificationMethod) (validator : Address) : ComputeResult := {|
  cr_job_id := job_id; cr_model_hash := model_hash; cr_input_hash := input_hash;
  cr_output_hash := output_hash; cr_complexity := complexity; cr_verification_method := method;
  cr_attestation := []; cr_zk_proof := None; cr_validator := validator; cr_confirmations := 1 |}.

(** A guarded computation succeeds when the guard lets it through. *)
Lemma reject_ok {X A} b (r : X) (k : outcome X A) a :
  reject b r k = Ok a ↔ b = false ∧ k = Ok a.
Proof. unfold reject. destruct b; naive_solver. Qed.
