(* ===== verification/Vrf.v ===== *)
(** * The verifiable random function

    [crates/consensus/src/vrf.rs] as the crate is built: without the [vrf]
    feature (with it [verify] names a variable that does not exist, so that only
    this build compiles).  Keys, proofs and their encoding, the domain tag, and
    the hash-based [prove]/[verify] pair. *)
From S2P Require Import Prelude SysTypes F64 Precompile ConsensusTypes.
From stdpp Require Import base gmap list strings.
From Stdlib Require Import ZArith Lia.
#[local] Open Scope N_scope.

Record VrfKeys := { vk_secret_key : bytes; vk_public_key : bytes }.

Record VrfProof := { vp_gamma : bytes; vp_c : bytes; vp_s : bytes }.

#[export] Instance VrfProof_eq_dec : EqDecision VrfProof.
Proof. solve_decision. Defined.

(** [VrfOutput] wraps 32 bytes. *)
Abbreviation VrfOutput := (list N).

Definition VrfProof_SIZE : N := 33 + 32 + 32.

Definition VrfProof_to_bytes (p : VrfProof) : bytes := p.(vp_gamma) ++ p.(vp_c) ++ p.(vp_s).

Definition VrfProof_from_bytes (bs : bytes) : outcome ConsensusError VrfProof :=
  if bool_decide (blen bs < VrfProof_SIZE) then Err (MalformedVrfProof VrfProof_SIZE (blen bs)) else
  gamma ← slice 0 33 bs;
  c ← slice 33 65 bs;
  s ← slice 65 97 bs;
  Ok {| vp_gamma := gamma; vp_c := c; vp_s := s |}.

(** [VrfOutput::to_bigint] *)
Definition to_bigint (o : VrfOutput) : N := of_be_bytes o.

Record VrfEngine := { ve_domain_tag : bytes }.

Definition VrfEngine_with_chain_id (chain_id : N) : VrfEngine :=
  {| ve_domain_tag := string_bytes "Aethelred-PoUW-VRF-v1:" ++ to_le_bytes 8 chain_id |}.

Definition VrfEngine_new : VrfEngine := VrfEngine_with_chain_id 1.

Definition construct_message (e : VrfEngine) (epoch_seed : EpochSeed) (slot : Slot) : bytes :=
  e.(ve_domain_tag) ++ epoch_seed ++ to_le_bytes 8 slot.

Section vrf.
Context `{ConsensusEnv}.

Definition VrfKeys_from_seed (seed : bytes) : VrfKeys := {|
  vk_secret_key := seed;
  vk_public_key := 2 :: digest (string_bytes "mock-vrf-pk:" ++ seed) |}.

Definition derive_epoch_keys (k : VrfKeys) (epoch : N) : VrfKeys :=
  VrfKeys_from_seed
    (digest (k.(vk_secret_key) ++ string_bytes "epoch_derive" ++ to_le_bytes 8 epoch)).

(** One component of the mock function: a tagged hash of the domain, the 32 bytes
    of the public key after its prefix, and the message. *)
Definition mock_hash (tag : string) (e : VrfEngine) (pk32 message : bytes) : bytes :=
  digest (string_bytes tag ++ e.(ve_domain_tag) ++ pk32 ++ message).

Definition mock_output (e : VrfEngine) (pk32 message : bytes) : VrfOutput :=
  mock_hash "mock-vrf-output:" e pk32 message.

Definition mock_proof (e : VrfEngine) (pk32 message : bytes) : VrfProof := {|
  vp_gamma := 2 :: mock_hash "mock-vrf-gamma:" e pk32 message;
  vp_c := mock_hash "mock-vrf-c:" e pk32 message;
  vp_s := mock_hash "mock-vrf-s:" e pk32 message |}.

Definition prove_mock (e : VrfEngine) (keys : VrfKeys) (message : bytes)
  : outcome ConsensusError (VrfOutput * VrfProof) :=
  pk32 ← slice 1 33 keys.(vk_public_key);
  Ok (mock_output e pk32 message, mock_proof e pk32 message).

Definition vrf_prove (e : VrfEngine) (keys : VrfKeys) (input : bytes)
  : outcome ConsensusError (VrfProof * VrfOutput) :=
  '(output, proof) ← prove_mock e keys input;
  Ok (proof, output).

Definition vrf_verify (e : VrfEngine) (public_key input : bytes) (proof : VrfProof)
  : outcome ConsensusError VrfOutput :=
  if bool_decide (blen public_key < 33) then Err (InvalidVrfKey "Too short") else
  pk32 ← slice 1 33 public_key;
  let expected := mock_proof e pk32 input in
  if negb (bool_decide (proof.(vp_gamma) = expected.(vp_gamma)))
  then Err (VrfVerificationFailed "Mock proof gamma mismatch") else
  if negb (bool_decide (proof.(vp_c) = expected.(vp_c)))
     || negb (bool_decide (proof.(vp_s) = expected.(vp_s)))
  then Err (VrfVerificationFailed "Mock proof c/s mismatch") else
  Ok (mock_output e pk32 input).

Definition verify_mock (e : VrfEngine) (public_key message : bytes) (output : VrfOutput)
  (proof : VrfProof) : outcome ConsensusError bool :=
  if bool_decide (blen public_key < 33) then Err (InvalidVrfKey "Too short") else
  pk32 ← slice 1 33 public_key;
  let expected := mock_proof e pk32 message in
  if negb (bool_decide (proof.(vp_gamma) = expected.(vp_gamma))) then Ok false else
  if negb (bool_decide (proof.(vp_c) = expected.(vp_c)))
     || negb (bool_decide (proof.(vp_s) = expected.(vp_s)))
  then Ok false else
  Ok (bool_decide (output = mock_output e pk32 message)).

Definition prove_for_slot (e : VrfEngine) (keys : VrfKeys) (epoch_seed : EpochSeed) (slot : Slot)
  : outcome ConsensusError (VrfOutput * VrfProof) :=
  prove_mock e keys (construct_message e epoch_seed slot).

Definition verify_for_slot (e : VrfEngine) (public_key : bytes) (epoch_seed : EpochSeed)
  (slot : Slot) (output : VrfOutput) (proof : VrfProof) : outcome ConsensusError bool :=
  verify_mock e public_key (construct_message e epoch_seed slot) output proof.
End vrf.

(** ** Lemmas *)

(** SHA-256 returns 32 bytes. *)
Definition digest_32 `{ConsensusEnv} : Prop := ∀ bs, length (digest bs) = 32%nat.

Definition proof_sized (p : VrfProof) : Prop :=
  length p.(vp_gamma) = 33%nat ∧ length p.(vp_c) = 32%nat ∧ length p.(vp_s) = 32%nat.

(** Whatever follows a serialised proof is ignored. *)
Lemma proof_from_bytes_app p rest :
  proof_sized p → VrfProof_from_bytes (VrfProof_to_bytes p ++ rest) = Ok p.
Proof.
  destruct p as [g c s]. intros (Hg & Hc & Hs). cbn in *.
  unfold VrfProof_from_bytes, VrfProof_to_bytes. cbn.
  rewrite bool_decide_false.
  2:{ rewrite !blen_app, (blen_nat g _ Hg), (blen_nat c _ Hc), (blen_nat s _ Hs). cbv [VrfProof_SIZE]. lia. }
  rewrite (slice_mid [] g (c ++ s ++ rest) 0 33); [|by rewrite <- !app_assoc|reflexivity|by rewrite (blen_nat g _ Hg)].
  cbn. rewrite (slice_mid g c (s ++ rest) 33 65);
    [|by rewrite <- !app_assoc|by rewrite (blen_nat g _ Hg)|by rewrite (blen_nat c _ Hc)].
  cbn. rewrite (slice_mid (g ++ c) s rest 65 97); [done|by rewrite <- !app_assoc| |by rewrite (blen_nat s _ Hs)].
  by rewrite blen_app, (blen_nat g _ Hg), (blen_nat c _ Hc).
Qed.

Lemma proof_from_bytes_sized bs p : VrfProof_from_bytes bs = Ok p → proof_sized p.
Proof.
  unfold VrfProof_from_bytes. case_bool_decide as Hlen; [done|]. unfold slice, VrfProof_SIZE in *.
  rewrite !bool_decide_true by lia. cbn. intros [= <-]. unfold proof_sized. cbn.
  unfold blen in Hlen. rewrite !length_take, !length_drop. lia.
Qed.

(** A proof is read from the first 97 bytes. *)
Lemma proof_from_bytes_iff bs p :
  VrfProof_from_bytes bs = Ok p ↔ proof_sized p ∧ take 97 bs = VrfProof_to_bytes p.
Proof.
  split.
  - intros Hp. pose proof (proof_from_bytes_sized _ _ Hp) as Hs. split; [done|].
    revert Hp. unfold VrfProof_from_bytes. case_bool_decide as Hlen; [done|].
    unfold slice, VrfProof_SIZE in *. rewrite !bool_decide_true by lia. cbn. intros [= <-].
    unfold VrfProof_to_bytes. cbn. change 97%nat with (33 + (32 + 32))%nat.
    by rewrite <- !take_take_drop, drop_drop.
  - intros [Hs Ht]. rewrite <- (take_drop 97 bs), Ht. by apply proof_from_bytes_app.
Qed.

Section vrf_lemmas.
Context `{ConsensusEnv}.

(** The 32 bytes the mock function reads of a public key. *)
Definition pk_body (pk : bytes) : bytes := take 32 (drop 1 pk).

Lemma pk_slice {E} pk : 33 <= blen pk → slice (E:=E) 1 33 pk = Ok (pk_body pk).
Proof. intros Hpk. unfold slice. rewrite !bool_decide_true by lia. done. Qed.

Lemma mock_proof_sized e pk msg : digest_32 → proof_sized (mock_proof e pk msg).
Proof. intros Hd. unfold proof_sized. cbn. unfold mock_hash. by rewrite !Hd. Qed.

(** The verifiers accept one proof per key and message, and it yields one output. *)
Lemma vrf_verify_iff e pk input proof out :
  vrf_verify e pk input proof = Ok out ↔
  33 <= blen pk ∧ proof = mock_proof e (pk_body pk) input ∧ out = mock_output e (pk_body pk) input.
Proof.
  unfold vrf_verify. case_bool_decide as Hlen; [split; [done|intros (? & _); lia]|].
  rewrite pk_slice by lia. cbn [mbind outcome_bind].
  destruct proof as [g c s]. cbn. unfold mock_proof.
  repeat case_bool_decide; cbn; split; try done; try naive_solver.
  - intros [= <-]. subst. split_and!; [lia|done|done].
Qed.

Lemma verify_mock_iff e pk msg out proof :
  verify_mock e pk msg out proof = Ok true ↔
  33 <= blen pk ∧ proof = mock_proof e (pk_body pk) msg ∧ out = mock_output e (pk_body pk) msg.
Proof.
  unfold verify_mock. case_bool_decide as Hlen; [split; [done|intros (? & _); lia]|].
  rewrite pk_slice by lia. cbn [mbind outcome_bind].
  destruct proof as [g c s]. cbn. unfold mock_proof.
  repeat case_bool_decide; cbn; split; try done; try naive_solver.
  - intros _. subst. split_and!; [lia|done|done].
Qed.

Lemma vrf_prove_ok e keys input :
  33 <= blen keys.(vk_public_key) →
  vrf_prove e keys input = Ok (mock_proof e (pk_body keys.(vk_public_key)) input,
                               mock_output e (pk_body keys.(vk_public_key)) input).
Proof. intros Hk. unfold vrf_prove, prove_mock. by rewrite pk_slice by done. Qed.
End vrf_lemmas.
