(* ===== verification/Election.v ===== *)
(** * Leader election

    [crates/consensus/src/pouw/election.rs]: the useful-work score of a validator
    with its rolling window, diversity and anti-gaming checks, the election with
    its totals and threshold cache, eligibility and its verification.

    The code keeps each field behind its own lock and takes [&self]; no method
    acquires a lock whose guard it holds, so that a call is a state transition of
    the record below.  Hash maps are walked in the order of [map_to_list]. *)
From S2P Require Import Prelude SysTypes F64 Precompile ConsensusTypes Vrf.
From stdpp Require Import base gmap list strings sorting.
From Stdlib Require Import ZArith Lia SpecFloat.
#[local] Open Scope N_scope.

Definition max_vrf_output : N := N.shiftl 1 256.
Definition PRECISION : N := 1000000.

(** ** Useful-work scores *)
Record UsefulWorkScore := {
  uws_total_uwu : N;
  uws_uwu_by_category : gmap UtilityCategory N;
  uws_jobs_by_method : gmap PoUWVerificationMethod N;
  uws_epoch_scores : gmap N N;
  uws_last_update_epoch : N;
  uws_total_jobs_verified : N;
  uws_average_complexity : N;
  uws_reputation_score : N;
  uws_suspicious_flags : N;
}.

Definition UsefulWorkScore_default : UsefulWorkScore := {|
  uws_total_uwu := 0; uws_uwu_by_category := ∅; uws_jobs_by_method := ∅; uws_epoch_scores := ∅;
  uws_last_update_epoch := 0; uws_total_jobs_verified := 0; uws_average_complexity := 0;
  uws_reputation_score := 500; uws_suspicious_flags := 0 |}.

Definition uws_with_totals (uwu jobs average epoch : N) (s : UsefulWorkScore) : UsefulWorkScore := {|
  uws_total_uwu := uwu; uws_uwu_by_category := s.(uws_uwu_by_category);
  uws_jobs_by_method := s.(uws_jobs_by_method); uws_epoch_scores := s.(uws_epoch_scores);
  uws_last_update_epoch := epoch; uws_total_jobs_verified := jobs;
  uws_average_complexity := average; uws_reputation_score := s.(uws_reputation_score);
  uws_suspicious_flags := s.(uws_suspicious_flags) |}.

Definition uws_with_maps (categories : gmap UtilityCategory N)
  (methods : gmap PoUWVerificationMethod N) (epochs : gmap N N) (s : UsefulWorkScore)
  : UsefulWorkScore := {|
  uws_total_uwu := s.(uws_total_uwu); uws_uwu_by_category := categories;
  uws_jobs_by_method := methods; uws_epoch_scores := epochs;
  uws_last_update_epoch := s.(uws_last_update_epoch);
  uws_total_jobs_verified := s.(uws_total_jobs_verified);
  uws_average_complexity := s.(uws_average_complexity);
  uws_reputation_score := s.(uws_reputation_score);
  uws_suspicious_flags := s.(uws_suspicious_flags) |}.

Definition uws_with_flags (uwu flags : N) (s : UsefulWorkScore) : UsefulWorkScore := {|
  uws_total_uwu := uwu; uws_uwu_by_category := s.(uws_uwu_by_category);
  uws_jobs_by_method := s.(uws_jobs_by_method); uws_epoch_scores := s.(uws_epoch_scores);
  uws_last_update_epoch := s.(uws_last_update_epoch);
  uws_total_jobs_verified := s.(uws_total_jobs_verified);
  uws_average_complexity := s.(uws_average_complexity);
  uws_reputation_score := s.(uws_reputation_score); uws_suspicious_flags := flags |}.

(** The order [partial_cmp] sorts the shares in. *)
Definition f64_ordered (x y : f64) : Prop := f64_le x y = true.
#[export] Instance f64_ordered_dec : RelDecision f64_ordered := λ x y, decide (f64_le x y = true).

Definition map_values {K V} `{Countable K} (m : gmap K V) : list V := (map_to_list m).*2.

Section score.
Context `{Build, ConsensusEnv}.

Definition add_uwu (uwu : N) (category : UtilityCategory) (method : PoUWVerificationMethod)
  (complexity current_epoch : N) : M ConsensusError UsefulWorkScore unit :=
  s ← get;
  modify (uws_with_totals (sat_add U64_MAX s.(uws_total_uwu) uwu) s.(uws_total_jobs_verified)
            s.(uws_average_complexity) s.(uws_last_update_epoch)) ;;
  jobs ← lift (u_add U64_MAX s.(uws_total_jobs_verified) 1);
  modify (λ s, uws_with_totals s.(uws_total_uwu) jobs s.(uws_average_complexity)
                 s.(uws_last_update_epoch) s) ;;
  bump U64_MAX uws_uwu_by_category
    (λ m s, uws_with_maps m s.(uws_jobs_by_method) s.(uws_epoch_scores) s) category uwu ;;
  bump U64_MAX uws_jobs_by_method
    (λ m s, uws_with_maps s.(uws_uwu_by_category) m s.(uws_epoch_scores) s) method 1 ;;
  bump U64_MAX uws_epoch_scores
    (λ m s, uws_with_maps s.(uws_uwu_by_category) s.(uws_jobs_by_method) m s) current_epoch uwu ;;
  before ← lift (u_sub U64_MAX jobs 1);
  total_complexity ← lift (u_mul U64_MAX s.(uws_average_complexity) before);
  sum ← lift (u_add U64_MAX total_complexity complexity);
  average ← lift (u_div sum jobs);
  modify (λ s, uws_with_totals s.(uws_total_uwu) jobs average current_epoch s).

(** [for epoch in epoch..epoch + n { .. }] of the rolling window. *)
Fixpoint decay_window (n : nat) (epoch current_epoch : N) (decay_factor : f64)
  (scores : gmap N N) (total_score : f64) : f64 :=
  match n with
  | O => total_score
  | S n =>
      decay_window n (epoch + 1) current_epoch decay_factor scores
        match scores !! epoch with
        | Some epoch_uwu =>
            let epochs_ago := current_epoch - epoch in
            f64_add total_score
              (f64_mul (f64_of_N epoch_uwu)
                 (f64_powi decay_factor (wrap_signed I32_MAX (Z.of_N epochs_ago))))
        | None => total_score
        end
  end.

Definition calculate_decayed_score (s : UsefulWorkScore) (current_epoch : N)
  (config : CnPoUWConfig) : N :=
  let decay_config := config.(cc_useful_work_config).(uwc_decay_config) in
  let first := sat_sub current_epoch decay_config.(dcf_rolling_window_epochs) in
  let total_score :=
    decay_window (N.to_nat (current_epoch + 1 - first)) first current_epoch
      decay_config.(dcf_epoch_decay_factor) s.(uws_epoch_scores) (S754_zero false) in
  let reputation_factor := f64_div (f64_of_N s.(uws_reputation_score)) F500_0 in
  f64_as U64_MAX (f64_mul total_score reputation_factor).

(** [gini_sum += (2.0 * (i as f64 + 1.0) - n - 1.0) * share] over the sorted shares. *)
Fixpoint gini_terms (i : N) (n : f64) (shares : list f64) (gini_sum : f64) : f64 :=
  match shares with
  | [] => gini_sum
  | share :: rest =>
      let weight :=
        f64_sub (f64_sub (f64_mul F2_0 (f64_add (f64_of_N i) F1_0)) n) F1_0 in
      gini_terms (i + 1) n rest (f64_add gini_sum (f64_mul weight share))
  end.

Definition category_diversity_score (s : UsefulWorkScore) : outcome ConsensusError N :=
  let active_categories := N.of_nat (size s.(uws_uwu_by_category)) in
  let total_categories := N.of_nat (length UtilityCategory_all) in
  if bool_decide (active_categories = 0) then Ok 0 else
  let values := map_values s.(uws_uwu_by_category) in
  total_uwu ← sum_checked U64_MAX id values 0;
  if bool_decide (total_uwu = 0) then Ok 0 else
  let shares := (λ v, f64_div (f64_of_N v) (f64_of_N total_uwu)) <$> values in
  if existsb f64_is_nan shares then Panic else
  let sorted_shares := merge_sort f64_ordered shares in
  let n := f64_of_N (N.of_nat (length sorted_shares)) in
  let gini := f64_div (gini_terms 0 n sorted_shares (S754_zero false)) n in
  let diversity_from_gini := f64_as U8_MAX (f64_mul (f64_sub F1_0 gini) F50_0) in
  let category_bonus :=
    f64_as U8_MAX
      (f64_mul (f64_div (f64_of_N active_categories) (f64_of_N total_categories)) F50_0) in
  sum ← u_add U8_MAX diversity_from_gini category_bonus;
  Ok (N.min sum 100).

(** [part as f64 / whole as f64 > limit] *)
Definition share_above (limit : f64) (part whole : N) : bool :=
  f64_lt limit (f64_div (f64_of_N part) (f64_of_N whole)).

Definition is_suspicious (s : UsefulWorkScore) : outcome ConsensusError bool :=
  if bool_decide (3 <= s.(uws_suspicious_flags)) then Ok true else
  total_uwu ← sum_checked U64_MAX id (map_values s.(uws_uwu_by_category)) 0;
  if bool_decide (0 < total_uwu)
     && existsb (λ v, share_above F0_95 v total_uwu) (map_values s.(uws_uwu_by_category))
  then Ok true else
  total_jobs ← sum_checked U64_MAX id (map_values s.(uws_jobs_by_method)) 0;
  if bool_decide (0 < total_jobs)
     && match s.(uws_jobs_by_method) !! PReExecution with
        | Some reexec_jobs => share_above F0_9 reexec_jobs total_jobs
        | None => false
        end
  then Ok true else Ok false.

Definition apply_penalty (penalty_pct : N) : M ConsensusError UsefulWorkScore unit :=
  s ← get;
  product ← lift (u_mul U64_MAX s.(uws_total_uwu) penalty_pct);
  let reduced := sat_sub s.(uws_total_uwu) (product / 100) in
  modify (uws_with_flags reduced s.(uws_suspicious_flags)) ;;
  flags ← lift (u_add U32_MAX s.(uws_suspicious_flags) 1);
  modify (uws_with_flags reduced flags).

Definition reset_flags : M ConsensusError UsefulWorkScore unit :=
  modify (λ s, uws_with_flags s.(uws_total_uwu) 0 s).
End score.

(** ** The election *)
Record ElectionStatistics := {
  es_total_elections : N;
  es_wins_by_top_category : gmap UtilityCategory N;
  es_avg_winner_score : N;
  es_median_winner_stake : N;
  es_multi_winner_slots : N;
  es_min_winning_score : N;
  es_max_losing_score : N;
}.

Definition ElectionStatistics_default : ElectionStatistics := {|
  es_total_elections := 0; es_wins_by_top_category := ∅; es_avg_winner_score := 0;
  es_median_winner_stake := 0; es_multi_winner_slots := 0; es_min_winning_score := 0;
  es_max_losing_score := 0 |}.

Definition es_with (total : N) (wins : gmap UtilityCategory N) (average lowest : N)
  (s : ElectionStatistics) : ElectionStatistics := {|
  es_total_elections := total; es_wins_by_top_category := wins; es_avg_winner_score := average;
  es_median_winner_stake := s.(es_median_winner_stake);
  es_multi_winner_slots := s.(es_multi_winner_slots); es_min_winning_score := lowest;
  es_max_losing_score := s.(es_max_losing_score) |}.

Record PoUWElection := {
  el_config : CnPoUWConfig;
  el_vrf_engine : VrfEngine;
  el_epoch_seed : EpochSeed;
  el_validators : gmap Address ValidatorInfo;
  el_useful_work_scores : gmap Address UsefulWorkScore;
  el_total_stake : N;
  el_total_weighted_stake : N;
  el_threshold_cache : gmap Address N;
  el_current_epoch : N;
  el_stats : ElectionStatistics;
}.

Definition PoUWElection_new (config : CnPoUWConfig) : PoUWElection := {|
  el_config := config; el_vrf_engine := VrfEngine_with_chain_id config.(cc_chain_id);
  el_epoch_seed := bytes32 0; el_validators := ∅; el_useful_work_scores := ∅;
  el_total_stake := 0; el_total_weighted_stake := 0; el_threshold_cache := ∅;
  el_current_epoch := 0; el_stats := ElectionStatistics_default |}.

Definition el_with_sets (validators : gmap Address ValidatorInfo)
  (scores : gmap Address UsefulWorkScore) (e : PoUWElection) : PoUWElection := {|
  el_config := e.(el_config); el_vrf_engine := e.(el_vrf_engine);
  el_epoch_seed := e.(el_epoch_seed); el_validators := validators;
  el_useful_work_scores := scores; el_total_stake := e.(el_total_stake);
  el_total_weighted_stake := e.(el_total_weighted_stake);
  el_threshold_cache := e.(el_threshold_cache); el_current_epoch := e.(el_current_epoch);
  el_stats := e.(el_stats) |}.

Definition el_with_totals (stake weighted : N) (e : PoUWElection) : PoUWElection := {|
  el_config := e.(el_config); el_vrf_engine := e.(el_vrf_engine);
  el_epoch_seed := e.(el_epoch_seed); el_validators := e.(el_validators);
  el_useful_work_scores := e.(el_useful_work_scores); el_total_stake := stake;
  el_total_weighted_stake := weighted; el_threshold_cache := e.(el_threshold_cache);
  el_current_epoch := e.(el_current_epoch); el_stats := e.(el_stats) |}.

Definition el_with_cache (cache : gmap Address N) (e : PoUWElection) : PoUWElection := {|
  el_config := e.(el_config); el_vrf_engine := e.(el_vrf_engine);
  el_epoch_seed := e.(el_epoch_seed); el_validators := e.(el_validators);
  el_useful_work_scores := e.(el_useful_work_scores); el_total_stake := e.(el_total_stake);
  el_total_weighted_stake := e.(el_total_weighted_stake); el_threshold_cache := cache;
  el_current_epoch := e.(el_current_epoch); el_stats := e.(el_stats) |}.

Definition el_with_epoch (seed : EpochSeed) (epoch : N) (e : PoUWElection) : PoUWElection := {|
  el_config := e.(el_config); el_vrf_engine := e.(el_vrf_engine); el_epoch_seed := seed;
  el_validators := e.(el_validators); el_useful_work_scores := e.(el_useful_work_scores);
  el_total_stake := e.(el_total_stake); el_total_weighted_stake := e.(el_total_weighted_stake);
  el_threshold_cache := e.(el_threshold_cache); el_current_epoch := epoch;
  el_stats := e.(el_stats) |}.

Definition el_with_stats (stats : ElectionStatistics) (e : PoUWElection) : PoUWElection := {|
  el_config := e.(el_config); el_vrf_engine := e.(el_vrf_engine);
  el_epoch_seed := e.(el_epoch_seed); el_validators := e.(el_validators);
  el_useful_work_scores := e.(el_useful_work_scores); el_total_stake := e.(el_total_stake);
  el_total_weighted_stake := e.(el_total_weighted_stake);
  el_threshold_cache := e.(el_threshold_cache); el_current_epoch := e.(el_current_epoch);
  el_stats := stats |}.

Abbreviation ElectM := (M ConsensusError PoUWElection).

Section election.
Context `{Build, ConsensusEnv}.

(** ** Weights and thresholds *)
Definition useful_work_multiplier (config : CnPoUWConfig) (useful_work_score : N) : f64 :=
  capped_multiplier config.(cc_max_useful_work_multiplier) useful_work_score.

Definition weighted_stake_internal (config : CnPoUWConfig) (stake useful_work_score : N) : N :=
  f64_as U128_MAX (f64_mul (f64_of_N stake) (useful_work_multiplier config useful_work_score)).

(** [weighted_stake] of [calculate_threshold], in millionths. *)
Definition scaled_weight (config : CnPoUWConfig) (stake useful_work_score : N) : N :=
  f64_as U128_MAX
    (f64_mul (f64_mul (f64_of_N stake) (useful_work_multiplier config useful_work_score))
       (f64_of_N PRECISION)).

Definition calculate_threshold (config : CnPoUWConfig)
  (stake useful_work_score total_weighted_stake : N) : N :=
  if bool_decide (total_weighted_stake = 0) then 0 else
  let numerator := max_vrf_output * scaled_weight config stake useful_work_score in
  let denominator := total_weighted_stake * PRECISION in
  if bool_decide (denominator = 0) then 0 else numerator / denominator.

Definition check_vrf_threshold (vrf_output : bytes) (threshold : N) : bool :=
  bool_decide (of_be_bytes vrf_output < threshold).

(** ** Queries *)
Definition el_get_useful_work_score (e : PoUWElection) (address : Address) : N :=
  match e.(el_useful_work_scores) !! address with
  | Some s => calculate_decayed_score s e.(el_current_epoch) e.(el_config)
  | None => 0
  end.

Definition el_weight (e : PoUWElection) (address : Address) (stake : N) : N :=
  weighted_stake_internal e.(el_config) stake (el_get_useful_work_score e address).

Definition el_active_validators (e : PoUWElection) (current_slot : Slot) : list ValidatorInfo :=
  filter (λ v, is_eligible v current_slot = true) (map_values e.(el_validators)).

(** ** State changes *)
Definition set_epoch_seed (seed : EpochSeed) : ElectM unit :=
  modify (λ e, el_with_epoch seed e.(el_current_epoch) e) ;;
  modify (el_with_cache ∅).

(** The sum of [recalculate_weighted_stakes]. *)
Fixpoint sum_weights (e : PoUWElection) (l : list (Address * ValidatorInfo)) (acc : N)
  : outcome ConsensusError N :=
  match l with
  | [] => Ok acc
  | (address, info) :: l =>
      acc ← u_add U128_MAX acc (el_weight e address info.(vi_stake));
      sum_weights e l acc
  end.

Definition recalculate_weighted_stakes : ElectM unit :=
  e ← get;
  total_weighted ← lift (sum_weights e (map_to_list e.(el_validators)) 0);
  modify (λ e, el_with_totals e.(el_total_stake) total_weighted e) ;;
  modify (el_with_cache ∅).

Definition set_current_epoch (epoch : N) : ElectM unit :=
  e ← get;
  when (bool_decide (e.(el_current_epoch) < epoch))
    (modify (λ e, el_with_epoch e.(el_epoch_seed) epoch e) ;;
     recalculate_weighted_stakes).

(** [if let Some(old) = validators.get(&address) { .. }] of a registration. *)
Definition retire_old (address : Address) : ElectM unit :=
  e ← get;
  match e.(el_validators) !! address with
  | Some old =>
      stake ← lift (u_sub U128_MAX e.(el_total_stake) old.(vi_stake));
      modify (λ e, el_with_totals stake e.(el_total_weighted_stake) e) ;;
      weight ← lift (u_sub U128_MAX e.(el_total_weighted_stake)
                       (el_weight e address old.(vi_stake)));
      modify (λ e, el_with_totals e.(el_total_stake) weight e)
  | None => mret tt
  end.

Definition el_register_validator (info : ValidatorInfo) : ElectM unit :=
  e ← get;
  ensure (negb (bool_decide (info.(vi_stake) < e.(el_config).(cc_min_stake))))
    (CInsufficientStake e.(el_config).(cc_min_stake) info.(vi_stake)) ;;
  let address := info.(vi_address) in
  let weighted := el_weight e address info.(vi_stake) in
  retire_old address ;;
  e ← get;
  stake ← lift (u_add U128_MAX e.(el_total_stake) info.(vi_stake));
  modify (λ e, el_with_totals stake e.(el_total_weighted_stake) e) ;;
  weight ← lift (u_add U128_MAX e.(el_total_weighted_stake) weighted);
  modify (λ e, el_with_totals e.(el_total_stake) weight e) ;;
  modify (λ e, el_with_sets (<[address := info]> e.(el_validators))
                 e.(el_useful_work_scores) e) ;;
  modify (λ e, el_with_sets e.(el_validators)
                 (<[address := default UsefulWorkScore_default
                                 (e.(el_useful_work_scores) !! address)]>
                    e.(el_useful_work_scores)) e) ;;
  modify (el_with_cache ∅).

Definition not_registered (address : Address) : ConsensusError :=
  ValidatorNotRegistered (hex_encode address).

Definition remove_validator (address : Address) : ElectM unit :=
  e ← get;
  info ← ok_or (e.(el_validators) !! address) (not_registered address);
  modify (λ e, el_with_sets (delete address e.(el_validators)) e.(el_useful_work_scores) e) ;;
  stake ← lift (u_sub U128_MAX e.(el_total_stake) info.(vi_stake));
  modify (λ e, el_with_totals stake e.(el_total_weighted_stake) e) ;;
  weight ← lift (u_sub U128_MAX e.(el_total_weighted_stake)
                   (el_weight e address info.(vi_stake)));
  modify (λ e, el_with_totals e.(el_total_stake) weight e) ;;
  modify (λ e, el_with_cache (delete address e.(el_threshold_cache)) e) ;;
  modify (λ e, el_with_sets e.(el_validators) (delete address e.(el_useful_work_scores)) e).

(** [old_score] and [new_score] are both read after the work was added. *)
Definition update_weighted_stake (address : Address) : ElectM unit :=
  e ← get;
  info ← ok_or (e.(el_validators) !! address) (not_registered address);
  let old_score := el_get_useful_work_score e address in
  let new_score := el_get_useful_work_score e address in
  let old_weighted := weighted_stake_internal e.(el_config) info.(vi_stake) old_score in
  let new_weighted := weighted_stake_internal e.(el_config) info.(vi_stake) new_score in
  modify (λ e, el_with_totals e.(el_total_stake)
                 (sat_add U128_MAX (sat_sub e.(el_total_weighted_stake) old_weighted) new_weighted)
                 e).

(** The score entry of an address, created when absent. *)
Definition on_score {A} (address : Address) : M ConsensusError UsefulWorkScore A → ElectM A :=
  zoom (λ e, default UsefulWorkScore_default (e.(el_useful_work_scores) !! address))
    (λ s e, el_with_sets e.(el_validators) (<[address := s]> e.(el_useful_work_scores)) e).

Definition record_useful_work (address : Address) (uwu : N) (category : UtilityCategory)
  (method : PoUWVerificationMethod) (complexity : N) : ElectM unit :=
  e ← get;
  let current_epoch := e.(el_current_epoch) in
  on_score address
    (score ← get;
     suspicious ← lift (is_suspicious score);
     ensure (negb suspicious)
       (SuspiciousActivity (hex_encode address)
          "Validator flagged for suspicious activity pattern") ;;
     add_uwu uwu category method complexity current_epoch) ;;
  update_weighted_stake address ;;
  modify (λ e, el_with_cache (delete address e.(el_threshold_cache)) e).

(** ** Election *)
Definition get_or_compute_threshold (validator : Address) : ElectM N :=
  e ← get;
  match e.(el_threshold_cache) !! validator with
  | Some threshold => mret threshold
  | None =>
      info ← ok_or (e.(el_validators) !! validator) (not_registered validator);
      let threshold :=
        calculate_threshold e.(el_config) info.(vi_stake) (el_get_useful_work_score e validator)
          e.(el_total_weighted_stake) in
      modify (el_with_cache (<[validator := threshold]> e.(el_threshold_cache))) ;;
      mret threshold
  end.

(** [iter().max_by_key(|(_, &v)| v)]: the last of the largest. *)
Definition top_category (m : gmap UtilityCategory N) : option UtilityCategory :=
  fst <$> foldl (λ best kv, match best with
                            | Some b => if bool_decide (b.2 <= kv.2) then Some kv else best
                            | None => Some kv
                            end) None (map_to_list m).

Definition on_statistics {A} : M ConsensusError ElectionStatistics A → ElectM A :=
  zoom el_stats el_with_stats.

Definition record_election_win (winner : Address) : ElectM unit :=
  e ← get;
  on_statistics
    (s ← get;
     total ← lift (u_add U64_MAX s.(es_total_elections) 1);
     modify (λ s, es_with total s.(es_wins_by_top_category) s.(es_avg_winner_score)
                    s.(es_min_winning_score) s) ;;
     match e.(el_useful_work_scores) !! winner with
     | None => mret tt
     | Some score =>
         match top_category score.(uws_uwu_by_category) with
         | Some category =>
             bump U64_MAX es_wins_by_top_category
               (λ m s, es_with s.(es_total_elections) m s.(es_avg_winner_score)
                         s.(es_min_winning_score) s) category 1
         | None => mret tt
         end ;;
         let winner_score := score.(uws_total_uwu) in
         before ← lift (u_sub U64_MAX total 1);
         product ← lift (u_mul U64_MAX s.(es_avg_winner_score) before);
         sum ← lift (u_add U64_MAX product winner_score);
         average ← lift (u_div sum total);
         modify (λ s, es_with s.(es_total_elections) s.(es_wins_by_top_category) average
                        s.(es_min_winning_score) s) ;;
         when (bool_decide (s.(es_min_winning_score) = 0)
               || bool_decide (winner_score < s.(es_min_winning_score)))
           (modify (λ s, es_with s.(es_total_elections) s.(es_wins_by_top_category)
                           s.(es_avg_winner_score) winner_score s))
     end).

Definition check_eligibility (validator : Address) (slot : Slot) (vrf_keys : VrfKeys)
  : ElectM (option (VrfOutput * VrfProof)) :=
  e ← get;
  info ← ok_or (e.(el_validators) !! validator) (not_registered validator);
  ensure (is_eligible info slot)
    (NotEligible (hex_encode validator) "Validator is not active or jailed") ;;
  '(output, proof) ← lift (prove_for_slot e.(el_vrf_engine) vrf_keys e.(el_epoch_seed) slot);
  threshold ← get_or_compute_threshold validator;
  if check_vrf_threshold output threshold
  then (record_election_win validator ;; mret (Some (output, proof)))
  else mret None.

Definition abs_diff (a b : N) : N := if bool_decide (a <= b) then b - a else a - b.

(** [(claimed as i128 - actual as i128).unsigned_abs() > (actual / 100) as u128] *)
Definition score_mismatch (claimed actual : N) : bool :=
  bool_decide (actual / 100 < abs_diff claimed actual).

Definition verify_proposer (e : PoUWElection) (proposer : Address) (slot : Slot)
  (claimed_useful_work_score : N) (vrf_output vrf_proof : bytes) : outcome ConsensusError unit :=
  match e.(el_validators) !! proposer with
  | None => Err (not_registered proposer)
  | Some info =>
      let actual_score := el_get_useful_work_score e proposer in
      reject (score_mismatch claimed_useful_work_score actual_score)
        (UsefulWorkScoreMismatch (hex_encode proposer) claimed_useful_work_score actual_score) $
      proof ← VrfProof_from_bytes vrf_proof;
      reject (negb (bool_decide (blen vrf_output = 32))) (MalformedVrfProof 32 (blen vrf_output)) $
      valid ← verify_for_slot e.(el_vrf_engine) info.(vi_vrf_pubkey) e.(el_epoch_seed) slot
                vrf_output proof;
      reject (negb valid) (VrfVerificationFailed "VRF proof verification failed") $
      let threshold :=
        calculate_threshold e.(el_config) info.(vi_stake) actual_score
          e.(el_total_weighted_stake) in
      reject (negb (check_vrf_threshold vrf_output threshold))
        (VrfThresholdNotMet (hex_encode vrf_output) (to_str_radix_16 threshold)) $
      Ok tt
  end.

Record ElectionStats := {
  els_total_validators : N;
  els_active_validators : N;
  els_total_stake : N;
  els_total_weighted_stake : N;
  els_total_useful_work_score : N;
  els_average_multiplier : f64;
}.

Definition election_stats (e : PoUWElection) : outcome ConsensusError ElectionStats :=
  let validators := map_values e.(el_validators) in
  total_useful_work ←
    sum_checked U64_MAX (λ s, calculate_decayed_score s e.(el_current_epoch) e.(el_config))
      (map_values e.(el_useful_work_scores)) 0;
  let sum :=
    foldl (λ acc v, f64_add acc (useful_work_multiplier e.(el_config)
                                   (el_get_useful_work_score e v.(vi_address))))
      (S754_zero false) validators in
  Ok {|
    els_total_validators := N.of_nat (size e.(el_validators));
    els_active_validators := N.of_nat (length (filter (λ v, v.(vi_active) = true) validators));
    els_total_stake := e.(el_total_stake);
    els_total_weighted_stake := e.(el_total_weighted_stake);
    els_total_useful_work_score := total_useful_work;
    els_average_multiplier :=
      if bool_decide (e.(el_validators) = ∅) then F1_0
      else f64_div sum (f64_of_N (N.of_nat (size e.(el_validators)))) |}.
End election.
