(* ===== verification/Consensus.v ===== *)
(** * The proof-of-useful-work consensus engine

    [crates/consensus/src/pouw/consensus.rs]: the shared consensus state with its
    active set, the verification of useful work, leader credentials and block
    validation.  The engine owns the state, an election, a VRF engine and a
    verification engine; each call is a transition of the record [PoUWConsensus].
    The guards on the state are taken and dropped in turn, never nested.  Atomic
    counters wrap around; hash maps are walked in the order of [map_to_list]. *)
From S2P Require Import Prelude SysTypes F64 Precompile ConsensusTypes Vrf Election.
From stdpp Require Import base gmap list strings pretty sorting.
From Stdlib Require Import ZArith Lia SpecFloat.
#[local] Open Scope N_scope.

(** ** Useful-work results *)
Record AiProof := {
  aip_verifier_model_hash : Hash;
  aip_confidence_bps : N;
  aip_result_embedding : list N;
  aip_verifier_signature : bytes;
  aip_metadata : gmap string string;
}.

Definition meets_threshold (p : AiProof) (threshold_bps : N) : bool :=
  bool_decide (threshold_bps <= p.(aip_confidence_bps)).

Definition aip_verify_signature (p : AiProof) (verifier_pubkey : bytes) : bool :=
  negb (bool_decide (p.(aip_verifier_signature) = [])) && negb (bool_decide (verifier_pubkey = [])).

Record UsefulWorkResult := {
  uwr_job_id : Hash;
  uwr_model_hash : Hash;
  uwr_input_hash : Hash;
  uwr_output_hash : Hash;
  uwr_useful_work_units : N;
  uwr_work_difficulty : N;
  uwr_category : UtilityCategory;
  uwr_verification_method : PoUWVerificationMethod;
  uwr_tee_attestation : bytes;
  uwr_zkml_proof : option bytes;
  uwr_ai_proof : option AiProof;
  uwr_validator : Address;
  uwr_requester : Address;
  uwr_confirmations : N;
  uwr_completed_at : N;
  uwr_sla_deadline : N;
}.

Definition non_empty (bs : bytes) : bool := negb (bool_decide (bs = [])).

Definition has_valid_attestation (r : UsefulWorkResult) : bool :=
  match r.(uwr_verification_method) with
  | PTeeAttestation => non_empty r.(uwr_tee_attestation)
  | PZkProof => bool_decide (is_Some r.(uwr_zkml_proof))
  | PHybrid => non_empty r.(uwr_tee_attestation) && bool_decide (is_Some r.(uwr_zkml_proof))
  | PReExecution => bool_decide (2 <= r.(uwr_confirmations))
  | PAiProof => match r.(uwr_ai_proof) with Some _ => true | None => false end
  end.

Definition sla_met (r : UsefulWorkResult) : bool :=
  bool_decide (r.(uwr_completed_at) <= r.(uwr_sla_deadline)).

Definition result_hash `{ConsensusEnv} (r : UsefulWorkResult) : Hash :=
  digest (r.(uwr_job_id) ++ r.(uwr_model_hash) ++ r.(uwr_input_hash) ++ r.(uwr_output_hash)
          ++ to_le_bytes 8 r.(uwr_useful_work_units) ++ to_le_bytes 8 r.(uwr_work_difficulty)
          ++ [category_as_u8 r.(uwr_category)] ++ [pouw_method_u8 r.(uwr_verification_method)]
          ++ r.(uwr_validator) ++ r.(uwr_requester)).

(** ** The consensus state *)
Record PendingUsefulWork := {
  puw_job_id : Hash;
  puw_output_hash : Hash;
  puw_useful_work_units : N;
  puw_work_difficulty : N;
  puw_category : UtilityCategory;
  puw_method : PoUWVerificationMethod;
  puw_submitted_slot : Slot;
  puw_validator : Address;
}.

Record CnCategoryStats := {
  ccs_total_jobs : N;
  ccs_total_uwu : N;
  ccs_avg_difficulty : N;
  ccs_avg_completion_time : N;
  ccs_sla_compliance_bps : N;
}.

Definition CnCategoryStats_default : CnCategoryStats := {|
  ccs_total_jobs := 0; ccs_total_uwu := 0; ccs_avg_difficulty := 0; ccs_avg_completion_time := 0;
  ccs_sla_compliance_bps := 0 |}.

Record PoUWState := {
  ps_current_slot : Slot;
  ps_current_epoch : Epoch;
  ps_epoch_seed : EpochSeed;
  ps_validators : gmap Address ValidatorInfo;
  ps_active_validators : list Address;
  ps_total_stake : N;
  ps_total_weighted_stake : N;
  ps_last_finalized_hash : Hash;
  ps_last_finalized_slot : Slot;
  ps_pending_results : gmap Hash PendingUsefulWork;
  ps_proposer_history : gmap Slot Address;
  ps_useful_work_scores : gmap Address N;
  ps_category_stats : gmap UtilityCategory CnCategoryStats;
}.

Definition PoUWState_new : PoUWState := {|
  ps_current_slot := 0; ps_current_epoch := 0; ps_epoch_seed := bytes32 0; ps_validators := ∅;
  ps_active_validators := []; ps_total_stake := 0; ps_total_weighted_stake := 0;
  ps_last_finalized_hash := bytes32 0; ps_last_finalized_slot := 0; ps_pending_results := ∅;
  ps_proposer_history := ∅; ps_useful_work_scores := ∅; ps_category_stats := ∅ |}.

Definition ps_with_clock (slot epoch : N) (s : PoUWState) : PoUWState := {|
  ps_current_slot := slot; ps_current_epoch := epoch; ps_epoch_seed := s.(ps_epoch_seed);
  ps_validators := s.(ps_validators); ps_active_validators := s.(ps_active_validators);
  ps_total_stake := s.(ps_total_stake); ps_total_weighted_stake := s.(ps_total_weighted_stake);
  ps_last_finalized_hash := s.(ps_last_finalized_hash);
  ps_last_finalized_slot := s.(ps_last_finalized_slot);
  ps_pending_results := s.(ps_pending_results); ps_proposer_history := s.(ps_proposer_history);
  ps_useful_work_scores := s.(ps_useful_work_scores);
  ps_category_stats := s.(ps_category_stats) |}.

Definition ps_with_sets (validators : gmap Address ValidatorInfo) (scores : gmap Address N)
  (s : PoUWState) : PoUWState := {|
  ps_current_slot := s.(ps_current_slot); ps_current_epoch := s.(ps_current_epoch);
  ps_epoch_seed := s.(ps_epoch_seed); ps_validators := validators;
  ps_active_validators := s.(ps_active_validators); ps_total_stake := s.(ps_total_stake);
  ps_total_weighted_stake := s.(ps_total_weighted_stake);
  ps_last_finalized_hash := s.(ps_last_finalized_hash);
  ps_last_finalized_slot := s.(ps_last_finalized_slot);
  ps_pending_results := s.(ps_pending_results); ps_proposer_history := s.(ps_proposer_history);
  ps_useful_work_scores := scores; ps_category_stats := s.(ps_category_stats) |}.

Definition ps_with_active (active : list Address) (stake weighted : N) (s : PoUWState)
  : PoUWState := {|
  ps_current_slot := s.(ps_current_slot); ps_current_epoch := s.(ps_current_epoch);
  ps_epoch_seed := s.(ps_epoch_seed); ps_validators := s.(ps_validators);
  ps_active_validators := active; ps_total_stake := stake; ps_total_weighted_stake := weighted;
  ps_last_finalized_hash := s.(ps_last_finalized_hash);
  ps_last_finalized_slot := s.(ps_last_finalized_slot);
  ps_pending_results := s.(ps_pending_results); ps_proposer_history := s.(ps_proposer_history);
  ps_useful_work_scores := s.(ps_useful_work_scores);
  ps_category_stats := s.(ps_category_stats) |}.

Definition ps_with_category_stats (stats : gmap UtilityCategory CnCategoryStats) (s : PoUWState)
  : PoUWState := {|
  ps_current_slot := s.(ps_current_slot); ps_current_epoch := s.(ps_current_epoch);
  ps_epoch_seed := s.(ps_epoch_seed); ps_validators := s.(ps_validators);
  ps_active_validators := s.(ps_active_validators); ps_total_stake := s.(ps_total_stake);
  ps_total_weighted_stake := s.(ps_total_weighted_stake);
  ps_last_finalized_hash := s.(ps_last_finalized_hash);
  ps_last_finalized_slot := s.(ps_last_finalized_slot);
  ps_pending_results := s.(ps_pending_results); ps_proposer_history := s.(ps_proposer_history);
  ps_useful_work_scores := s.(ps_useful_work_scores); ps_category_stats := stats |}.

Abbreviation StateM := (M ConsensusError PoUWState).

Section state.
Context `{Build, ConsensusEnv}.

Definition ps_multiplier (score : N) : f64 := capped_multiplier F5_0 score.

Definition ps_weighted_stake (stake useful_work_score : N) : N :=
  f64_as U128_MAX (f64_mul (f64_of_N stake) (ps_multiplier useful_work_score)).

Definition ps_score (s : PoUWState) (address : Address) : N :=
  default 0 (s.(ps_useful_work_scores) !! address).

Definition ps_get_stake (s : PoUWState) (address : Address) : N :=
  from_option vi_stake 0 (s.(ps_validators) !! address).

(** The weight of an address in the active set. *)
Definition ps_weight (s : PoUWState) (address : Address) : N :=
  match s.(ps_validators) !! address with
  | Some v => ps_weighted_stake v.(vi_stake) (ps_score s address)
  | None => 0
  end.

Definition is_validator_active (s : PoUWState) (address : Address) : bool :=
  bool_decide (address ∈ s.(ps_active_validators)).

(** [stake_b.cmp(&stake_a)]: heavier first. *)
Definition heavier (s : PoUWState) (a b : Address) : Prop := ps_weight s b <= ps_weight s a.
#[global] Instance heavier_dec s : RelDecision (heavier s) :=
  λ a b, decide (ps_weight s b <= ps_weight s a).

Definition recalculate_active_set : StateM unit :=
  s ← get;
  let eligible :=
    (filter (λ av, is_eligible av.2 s.(ps_current_slot) = true) (map_to_list s.(ps_validators))).*1 in
  let active := merge_sort (heavier s) eligible in
  modify (ps_with_active active 0 0) ;;
  for_each active (λ addr,
    match s.(ps_validators) !! addr with
    | None => mret tt
    | Some v =>
        t ← get;
        stake ← lift (u_add U128_MAX t.(ps_total_stake) v.(vi_stake));
        modify (λ t, ps_with_active active stake t.(ps_total_weighted_stake) t) ;;
        weighted ← lift (u_add U128_MAX t.(ps_total_weighted_stake)
                           (ps_weighted_stake v.(vi_stake) (ps_score s addr)));
        modify (λ t, ps_with_active active t.(ps_total_stake) weighted t)
    end).

(** [DECAY_FACTOR] is the literal [0.95]. *)
Definition decayed (score : N) : N := f64_as U64_MAX (f64_mul (f64_of_N score) F0_95).

Definition apply_score_decay : StateM unit :=
  modify (λ s, ps_with_sets s.(ps_validators) (decayed <$> s.(ps_useful_work_scores)) s).

Definition on_epoch_transition (new_epoch : Epoch) : StateM unit :=
  modify (λ s, ps_with_clock s.(ps_current_slot) new_epoch s) ;;
  apply_score_decay ;;
  recalculate_active_set.

Definition ps_advance_slot (slot : Slot) (timing : SlotTiming) : StateM unit :=
  modify (λ s, ps_with_clock slot s.(ps_current_epoch) s) ;;
  new_epoch ← lift (epoch_for_slot timing slot);
  s ← get;
  when (bool_decide (s.(ps_current_epoch) < new_epoch)) (on_epoch_transition new_epoch).

Definition ps_register_validator (info : ValidatorInfo) : StateM unit :=
  let addr := info.(vi_address) in
  modify (λ s, ps_with_sets (<[addr := info]> s.(ps_validators)) s.(ps_useful_work_scores) s) ;;
  modify (λ s, ps_with_sets s.(ps_validators)
                 (<[addr := ps_score s addr]> s.(ps_useful_work_scores)) s) ;;
  recalculate_active_set.

(** [score] moved by the signed [delta], at the ends of the [u64] range. *)
Definition score_moved (score : N) (delta : Z) : outcome ConsensusError N :=
  if bool_decide (0 <= delta)%Z then Ok (sat_add U64_MAX score (u64_of_Z delta))
  else magnitude ← i64_neg_u64 delta; Ok (sat_sub score magnitude).

Definition ps_update_useful_work_score (address : Address) (delta : Z) : StateM unit :=
  s ← get;
  v ← ok_or (s.(ps_validators) !! address) (ValidatorNotFound address);
  modify (ps_with_sets s.(ps_validators)
            (<[address := ps_score s address]> s.(ps_useful_work_scores))) ;;
  score ← lift (score_moved (ps_score s address) delta);
  modify (ps_with_sets s.(ps_validators) (<[address := score]> s.(ps_useful_work_scores))) ;;
  modify (λ s, ps_with_sets
                 (<[address := vi_with score v.(vi_last_proposal_slot) v.(vi_blocks_proposed)
                                 v.(vi_jobs_verified) v]> s.(ps_validators))
                 s.(ps_useful_work_scores) s) ;;
  recalculate_active_set.

(** [(average * old_jobs + value) / jobs] *)
Definition rolling_average (average old_jobs value jobs : N) : outcome ConsensusError N :=
  product ← u_mul U64_MAX average old_jobs;
  sum ← u_add U64_MAX product value;
  u_div sum jobs.

(** The entry of a category in the statistics, created when absent. *)
Definition on_category {A} (category : UtilityCategory)
  : M ConsensusError CnCategoryStats A → StateM A :=
  zoom (λ s, default CnCategoryStats_default (s.(ps_category_stats) !! category))
    (λ c s, ps_with_category_stats (<[category := c]> s.(ps_category_stats)) s).

Definition update_category_stats (category : UtilityCategory)
  (uwu difficulty completion_time : N) (sla_met : bool) : StateM unit :=
  on_category category
    (c ← get;
     jobs ← lift (u_add U64_MAX c.(ccs_total_jobs) 1);
     put {| ccs_total_jobs := jobs; ccs_total_uwu := c.(ccs_total_uwu);
            ccs_avg_difficulty := c.(ccs_avg_difficulty);
            ccs_avg_completion_time := c.(ccs_avg_completion_time);
            ccs_sla_compliance_bps := c.(ccs_sla_compliance_bps) |} ;;
     total ← lift (u_add U64_MAX c.(ccs_total_uwu) uwu);
     put {| ccs_total_jobs := jobs; ccs_total_uwu := total;
            ccs_avg_difficulty := c.(ccs_avg_difficulty);
            ccs_avg_completion_time := c.(ccs_avg_completion_time);
            ccs_sla_compliance_bps := c.(ccs_sla_compliance_bps) |} ;;
     avg_difficulty ← lift (rolling_average c.(ccs_avg_difficulty) c.(ccs_total_jobs) difficulty jobs);
     put {| ccs_total_jobs := jobs; ccs_total_uwu := total;
            ccs_avg_difficulty := avg_difficulty;
            ccs_avg_completion_time := c.(ccs_avg_completion_time);
            ccs_sla_compliance_bps := c.(ccs_sla_compliance_bps) |} ;;
     avg_time ← lift (rolling_average c.(ccs_avg_completion_time) c.(ccs_total_jobs)
                        completion_time jobs);
     put {| ccs_total_jobs := jobs; ccs_total_uwu := total;
            ccs_avg_difficulty := avg_difficulty; ccs_avg_completion_time := avg_time;
            ccs_sla_compliance_bps := c.(ccs_sla_compliance_bps) |} ;;
     scaled ← lift (u_mul U64_MAX c.(ccs_sla_compliance_bps) c.(ccs_total_jobs));
     met ← lift (u_add U64_MAX (scaled / 10000) (if sla_met then 1 else 0));
     product ← lift (u_mul U64_MAX met 10000);
     compliance ← lift (u_div product jobs);
     put {| ccs_total_jobs := jobs; ccs_total_uwu := total;
            ccs_avg_difficulty := avg_difficulty; ccs_avg_completion_time := avg_time;
            ccs_sla_compliance_bps := compliance |}).
End state.

(** ** The verification engine *)
Record VerifierCircuit := {
  vc_hash : Hash;
  vc_model_types : list string;
  vc_params : bytes;
}.

Record AiVerifierModel := {
  avm_hash : Hash;
  avm_min_confidence_bps : N;
  avm_categories : list UtilityCategory;
}.

Record VerificationEngine := {
  ven_config : CnPoUWConfig;
  ven_approved_measurements : gmap Hash string;
  ven_verifier_circuits : gmap Hash VerifierCircuit;
  ven_ai_verifier_models : gmap Hash AiVerifierModel;
}.

Definition VerificationEngine_new (config : CnPoUWConfig) : VerificationEngine := {|
  ven_config := config; ven_approved_measurements := ∅; ven_verifier_circuits := ∅;
  ven_ai_verifier_models := ∅ |}.

Definition register_measurement (hash : Hash) (description : string) (v : VerificationEngine)
  : VerificationEngine := {|
  ven_config := v.(ven_config);
  ven_approved_measurements := <[hash := description]> v.(ven_approved_measurements);
  ven_verifier_circuits := v.(ven_verifier_circuits);
  ven_ai_verifier_models := v.(ven_ai_verifier_models) |}.

Definition register_verifier_circuit (circuit : VerifierCircuit) (v : VerificationEngine)
  : VerificationEngine := {|
  ven_config := v.(ven_config); ven_approved_measurements := v.(ven_approved_measurements);
  ven_verifier_circuits := <[circuit.(vc_hash) := circuit]> v.(ven_verifier_circuits);
  ven_ai_verifier_models := v.(ven_ai_verifier_models) |}.

Definition register_ai_verifier (model : AiVerifierModel) (v : VerificationEngine)
  : VerificationEngine := {|
  ven_config := v.(ven_config); ven_approved_measurements := v.(ven_approved_measurements);
  ven_verifier_circuits := v.(ven_verifier_circuits);
  ven_ai_verifier_models := <[model.(avm_hash) := model]> v.(ven_ai_verifier_models) |}.

Definition is_measurement_allowed (v : VerificationEngine) (measurement : Hash) : bool :=
  if bool_decide (measurement = bytes32 0) then false else
  bool_decide (v.(ven_approved_measurements) = ∅)
  || bool_decide (is_Some (v.(ven_approved_measurements) !! measurement)).

Section verification.
Context `{ConsensusEnv}.

Definition ven_verify_sgx_attestation (v : VerificationEngine) (attestation : bytes)
  (expected_binding : Hash) : outcome ConsensusError bool :=
  version ← slice 0 2 attestation;
  if negb (bool_decide (of_le_bytes version = 3)) then Ok false else
  tee_type ← slice 4 8 attestation;
  if negb (bool_decide (of_le_bytes tee_type = 0)) then Ok false else
  measurement ← slice 112 144 attestation;
  if negb (is_measurement_allowed v measurement) then Ok false else
  report ← slice 368 400 attestation;
  Ok (bool_decide (report = expected_binding)).

Definition ven_verify_nitro_attestation (v : VerificationEngine) (attestation : bytes)
  : outcome ConsensusError bool :=
  measurement ← slice 40 72 attestation;
  Ok (is_measurement_allowed v measurement).

Definition ven_verify_sev_attestation (v : VerificationEngine) (attestation : bytes)
  (expected_binding : Hash) : outcome ConsensusError bool :=
  version ← slice 0 4 attestation;
  if negb (bool_decide (of_le_bytes version = 2)) then Ok false else
  measurement ← slice 80 112 attestation;
  if negb (is_measurement_allowed v measurement) then Ok false else
  report ← slice 392 424 attestation;
  Ok (bool_decide (report = expected_binding)).

Definition ven_verify_tee_attestation (v : VerificationEngine) (r : UsefulWorkResult)
  : outcome ConsensusError bool :=
  let attestation := r.(uwr_tee_attestation) in
  if bool_decide (attestation = []) then Ok false else
  let expected_binding := result_hash r in
  if bool_decide (436 <= blen attestation)
  then ven_verify_sgx_attestation v attestation expected_binding else
  if bool_decide (head attestation = Some 132) && bool_decide (100 <= blen attestation)
  then ven_verify_nitro_attestation v attestation else
  if bool_decide (672 <= blen attestation)
  then ven_verify_sev_attestation v attestation expected_binding else
  Ok false.

Definition verify_zkml_proof (v : VerificationEngine) (r : UsefulWorkResult)
  : outcome ConsensusError bool :=
  match r.(uwr_zkml_proof) with
  | None => Ok false
  | Some proof =>
      if bool_decide (proof = []) then Ok false else
      if bool_decide (blen proof < 200) then Ok false else Ok true
  end.

Definition verify_ai_proof (v : VerificationEngine) (r : UsefulWorkResult)
  : outcome ConsensusError bool :=
  match r.(uwr_ai_proof) with
  | None => Ok false
  | Some p =>
      if negb (meets_threshold p v.(ven_config).(cc_ai_proof_confidence_threshold_bps))
      then Ok false else
      if bool_decide (p.(aip_result_embedding) = []) then Ok false else
      if bool_decide (p.(aip_verifier_signature) = []) then Ok false else
      if bool_decide (map_to_list v.(ven_ai_verifier_models) = []) then Ok true else
      match v.(ven_ai_verifier_models) !! p.(aip_verifier_model_hash) with
      | None => Ok false
      | Some model =>
          if bool_decide (p.(aip_confidence_bps) < model.(avm_min_confidence_bps)) then Ok false else
          Ok (bool_decide (r.(uwr_category) ∈ model.(avm_categories)))
      end
  end.
End verification.

(** ** The engine *)
Record CachedBlock := {
  cb_header : PoUWBlockHeader;
  cb_validated : bool;
  cb_validation_time_ms : N;
}.

Record ConsensusMetrics := {
  cmx_blocks_proposed : N;
  cmx_blocks_validated : N;
  cmx_vrf_proofs_generated : N;
  cmx_elections_won : N;
  cmx_useful_work_verified : N;
  cmx_total_uwu_awarded : N;
  cmx_slashing_events : N;
  cmx_tee_verifications : N;
  cmx_zkml_verifications : N;
  cmx_ai_proof_verifications : N;
}.

Definition ConsensusMetrics_default : ConsensusMetrics := {|
  cmx_blocks_proposed := 0; cmx_blocks_validated := 0; cmx_vrf_proofs_generated := 0;
  cmx_elections_won := 0; cmx_useful_work_verified := 0; cmx_total_uwu_awarded := 0;
  cmx_slashing_events := 0; cmx_tee_verifications := 0; cmx_zkml_verifications := 0;
  cmx_ai_proof_verifications := 0 |}.

(** [fetch_add] on the counters the engine uses. *)
Definition metrics_add (validated generated verified uwu tee zkml ai : N) (m : ConsensusMetrics)
  : ConsensusMetrics := {|
  cmx_blocks_proposed := m.(cmx_blocks_proposed);
  cmx_blocks_validated := cast U64_MAX (m.(cmx_blocks_validated) + validated);
  cmx_vrf_proofs_generated := cast U64_MAX (m.(cmx_vrf_proofs_generated) + generated);
  cmx_elections_won := m.(cmx_elections_won);
  cmx_useful_work_verified := cast U64_MAX (m.(cmx_useful_work_verified) + verified);
  cmx_total_uwu_awarded := cast U64_MAX (m.(cmx_total_uwu_awarded) + uwu);
  cmx_slashing_events := m.(cmx_slashing_events);
  cmx_tee_verifications := cast U64_MAX (m.(cmx_tee_verifications) + tee);
  cmx_zkml_verifications := cast U64_MAX (m.(cmx_zkml_verifications) + zkml);
  cmx_ai_proof_verifications := cast U64_MAX (m.(cmx_ai_proof_verifications) + ai) |}.

Record PoUWConsensus := {
  pc_config : CnPoUWConfig;
  pc_state : PoUWState;
  pc_election : PoUWElection;
  pc_vrf_engine : VrfEngine;
  pc_timing : SlotTiming;
  pc_local_keys : option VrfKeys;
  pc_block_cache : gmap Hash CachedBlock;
  pc_metrics : ConsensusMetrics;
  pc_verification_engine : VerificationEngine;
}.

Definition PoUWConsensus_new (config : CnPoUWConfig) (genesis_timestamp : N) : PoUWConsensus := {|
  pc_config := config; pc_state := PoUWState_new; pc_election := PoUWElection_new config;
  pc_vrf_engine := VrfEngine_new;
  pc_timing := {| st_slot_duration_ms := config.(cc_slot_duration_ms);
                  st_slots_per_epoch := config.(cc_slots_per_epoch);
                  st_genesis_timestamp := genesis_timestamp |};
  pc_local_keys := None; pc_block_cache := ∅; pc_metrics := ConsensusMetrics_default;
  pc_verification_engine := VerificationEngine_new config |}.

Definition pc_with (state : PoUWState) (election : PoUWElection) (keys : option VrfKeys)
  (metrics : ConsensusMetrics) (c : PoUWConsensus) : PoUWConsensus := {|
  pc_config := c.(pc_config); pc_state := state; pc_election := election;
  pc_vrf_engine := c.(pc_vrf_engine); pc_timing := c.(pc_timing); pc_local_keys := keys;
  pc_block_cache := c.(pc_block_cache); pc_metrics := metrics;
  pc_verification_engine := c.(pc_verification_engine) |}.

Definition with_validator_keys (keys : VrfKeys) (c : PoUWConsensus) : PoUWConsensus :=
  pc_with c.(pc_state) c.(pc_election) (Some keys) c.(pc_metrics) c.

Definition pc_put_state (s : PoUWState) (c : PoUWConsensus) : PoUWConsensus :=
  pc_with s c.(pc_election) c.(pc_local_keys) c.(pc_metrics) c.
Definition pc_put_election (e : PoUWElection) (c : PoUWConsensus) : PoUWConsensus :=
  pc_with c.(pc_state) e c.(pc_local_keys) c.(pc_metrics) c.
Definition pc_put_metrics (m : ConsensusMetrics) (c : PoUWConsensus) : PoUWConsensus :=
  pc_with c.(pc_state) c.(pc_election) c.(pc_local_keys) m c.

Abbreviation ConsM := (M ConsensusError PoUWConsensus).

Definition on_state {A} : StateM A → ConsM A := zoom pc_state pc_put_state.
Definition on_election {A} : ElectM A → ConsM A := zoom pc_election pc_put_election.
Definition count (f : ConsensusMetrics → ConsensusMetrics) : ConsM unit :=
  modify (λ c, pc_put_metrics (f c.(pc_metrics)) c).

Record LeaderCredentials := {
  lc_slot : Slot;
  lc_address : Address;
  lc_vrf_proof : VrfProof;
  lc_vrf_output : VrfOutput;
  lc_stake : N;
  lc_useful_work_score : N;
}.

Definition vrf_proof_bytes (c : LeaderCredentials) : bytes :=
  c.(lc_vrf_output) ++ VrfProof_to_bytes c.(lc_vrf_proof).

Record UsefulWorkProcessingResult := {
  uwp_total_useful_work_units : N;
  uwp_verified_count : N;
  uwp_score_updates : gmap Address Z;
}.

Record StateSnapshot := {
  ss_current_slot : Slot;
  ss_current_epoch : Epoch;
  ss_validator_count : N;
  ss_total_stake : N;
  ss_total_weighted_stake : N;
  ss_last_finalized_slot : Slot;
}.

Definition state_snapshot (c : PoUWConsensus) : StateSnapshot :=
  let s := c.(pc_state) in {|
  ss_current_slot := s.(ps_current_slot); ss_current_epoch := s.(ps_current_epoch);
  ss_validator_count := N.of_nat (length s.(ps_active_validators));
  ss_total_stake := s.(ps_total_stake); ss_total_weighted_stake := s.(ps_total_weighted_stake);
  ss_last_finalized_slot := s.(ps_last_finalized_slot) |}.

(** The method multipliers of [calculate_score_contribution]. *)
Definition contribution_method (m : PoUWVerificationMethod) : f64 :=
  match m with
  | PTeeAttestation => F1_0 | PZkProof => F1_5 | PHybrid => F2_0 | PReExecution => F0_8
  | PAiProof => F1_75
  end.

Definition calculate_score_contribution (config : CnPoUWConfig) (r : UsefulWorkResult) : Z :=
  let base_score := wrap_signed I64_MAX (Z.of_N r.(uwr_useful_work_units)) in
  let category_mult :=
    f64_div (f64_of_N (category_multiplier config r.(uwr_category))) (f64_of_N 10000) in
  let sla_mult := if sla_met r then F1_1 else F0_9 in
  f64_as_i64
    (f64_mul (f64_mul (f64_mul (f64_of_Z base_score) category_mult)
                (contribution_method r.(uwr_verification_method))) sla_mult).

Definition compute_vrf_input (slot : Slot) (epoch_seed : EpochSeed) : bytes :=
  epoch_seed ++ to_le_bytes 8 slot.

Section engine.
Context `{Build, ConsensusEnv}.

Definition pc_advance_slot (slot : Slot) : ConsM unit :=
  c ← get;
  on_state (ps_advance_slot slot c.(pc_timing)) ;;
  epoch ← lift (epoch_for_slot c.(pc_timing) slot);
  on_election (set_current_epoch epoch).

Definition pc_register_validator (info : ValidatorInfo) : ConsM unit :=
  on_state (ps_register_validator info) ;;
  on_election (el_register_validator info).

Definition pc_update_useful_work_score (address : Address) (delta : Z) : ConsM unit :=
  on_state (ps_update_useful_work_score address delta).

Definition derive_address_from_keys (keys : VrfKeys) : Address := digest keys.(vk_public_key).

Definition local_keys (c : PoUWConsensus) : outcome ConsensusError VrfKeys :=
  match c.(pc_local_keys) with Some keys => Ok keys | None => Err NotValidator end.

Definition find_validator (c : PoUWConsensus) (address : Address)
  : outcome ConsensusError ValidatorInfo :=
  match c.(pc_state).(ps_validators) !! address with
  | Some v => Ok v
  | None => Err (ValidatorNotFound address)
  end.

(** [vrf_value < threshold] for a validator of the state. *)
Definition wins (c : PoUWConsensus) (stake score : N) (output : VrfOutput) : bool :=
  bool_decide (to_bigint output
    < calculate_threshold c.(pc_election).(el_config) stake score
        c.(pc_state).(ps_total_weighted_stake)).

Definition should_propose (c : PoUWConsensus) (slot : Slot) : outcome ConsensusError bool :=
  keys ← local_keys c;
  let address := derive_address_from_keys keys in
  validator ← find_validator c address;
  if negb (is_eligible validator slot) then Ok false else
  let useful_work_score := ps_score c.(pc_state) address in
  '(_, output) ← vrf_prove c.(pc_vrf_engine) keys
                   (compute_vrf_input slot c.(pc_state).(ps_epoch_seed));
  Ok (wins c (ps_get_stake c.(pc_state) address) useful_work_score output).

Definition generate_credentials (slot : Slot) : ConsM LeaderCredentials :=
  c ← get;
  keys ← lift (local_keys c);
  let address := derive_address_from_keys keys in
  validator ← lift (find_validator c address);
  let useful_work_score := ps_score c.(pc_state) address in
  '(proof, output) ← lift (vrf_prove c.(pc_vrf_engine) keys
                             (compute_vrf_input slot c.(pc_state).(ps_epoch_seed)));
  count (metrics_add 0 1 0 0 0 0 0) ;;
  mret {| lc_slot := slot; lc_address := address; lc_vrf_proof := proof; lc_vrf_output := output;
          lc_stake := validator.(vi_stake); lc_useful_work_score := useful_work_score |}.

Definition verify_credentials (c : PoUWConsensus) (cr : LeaderCredentials)
  : outcome ConsensusError bool :=
  validator ← find_validator c cr.(lc_address);
  reject (negb (is_eligible validator cr.(lc_slot))) (ValidatorIneligible cr.(lc_address)) $
  reject (negb (bool_decide (validator.(vi_stake) = cr.(lc_stake))))
    (InvalidLeaderCredentials "Stake mismatch") $
  let actual_score := ps_score c.(pc_state) cr.(lc_address) in
  reject (score_mismatch cr.(lc_useful_work_score) actual_score)
    (InvalidLeaderCredentials "Useful work score mismatch") $
  output ← vrf_verify c.(pc_vrf_engine) validator.(vi_vrf_pubkey)
             (compute_vrf_input cr.(lc_slot) c.(pc_state).(ps_epoch_seed)) cr.(lc_vrf_proof);
  Ok (wins c cr.(lc_stake) cr.(lc_useful_work_score) output).

(** ** Useful work *)
Definition verified_by_method (c : PoUWConsensus) (r : UsefulWorkResult)
  : outcome ConsensusError bool :=
  let v := c.(pc_verification_engine) in
  match r.(uwr_verification_method) with
  | PTeeAttestation => ven_verify_tee_attestation v r
  | PZkProof => verify_zkml_proof v r
  | PHybrid =>
      tee ← ven_verify_tee_attestation v r;
      if (tee : bool) then verify_zkml_proof v r else Ok false
  | PReExecution =>
      Ok (bool_decide (c.(pc_config).(cc_min_reexecution_validators) <= r.(uwr_confirmations)))
  | PAiProof => verify_ai_proof v r
  end.

Definition verify_useful_work (r : UsefulWorkResult) : ConsM bool :=
  if negb (has_valid_attestation r) then mret false else
  c ← get;
  verified ← lift (verified_by_method c r);
  when verified
    (count match r.(uwr_verification_method) with
           | PTeeAttestation => metrics_add 0 0 0 0 1 0 0
           | PZkProof => metrics_add 0 0 0 0 0 1 0
           | PHybrid => metrics_add 0 0 0 0 1 1 0
           | PAiProof => metrics_add 0 0 0 0 0 0 1
           | PReExecution => id
           end) ;;
  mret verified.

(** The loop over the results of a block. *)
Fixpoint collect_results (results : list UsefulWorkResult) (total_uwu verified_count : N)
  (updates : gmap Address Z) : ConsM (N * N * gmap Address Z) :=
  match results with
  | [] => mret (total_uwu, verified_count, updates)
  | r :: results =>
      verified ← verify_useful_work r;
      if negb verified then collect_results results total_uwu verified_count updates else
      let total_uwu := sat_add U64_MAX total_uwu r.(uwr_useful_work_units) in
      verified_count ← lift (u_add U32_MAX verified_count 1);
      c ← get;
      let score_delta := calculate_score_contribution c.(pc_config) r in
      delta ← lift (i64_add (default 0%Z (updates !! r.(uwr_validator))) score_delta);
      count (metrics_add 0 0 1 r.(uwr_useful_work_units) 0 0 0) ;;
      collect_results results total_uwu verified_count (<[r.(uwr_validator) := delta]> updates)
  end.

(** [if let Err(e) = op { warn }] *)
Definition logged {S} (op : M ConsensusError S unit) : M ConsensusError S unit := λ s,
  match op s with
  | (Err _, s') => (Ok tt, s')
  | other => other
  end.

Definition apply_update (update : Address * Z) : ConsM unit :=
  let '(address, delta) := update in
  c ← get;
  let s := c.(pc_state) in
  on_state (modify (ps_with_sets s.(ps_validators)
                      (<[address := ps_score s address]> s.(ps_useful_work_scores)))) ;;
  new_score ← lift (score_moved (ps_score s address) delta);
  on_state (modify (ps_with_sets s.(ps_validators)
                      (<[address := new_score]> s.(ps_useful_work_scores)))) ;;
  match s.(ps_validators) !! address with
  | None => mret tt
  | Some v =>
      on_state (modify (λ s, ps_with_sets
        (<[address := vi_with new_score v.(vi_last_proposal_slot) v.(vi_blocks_proposed)
                        v.(vi_jobs_verified) v]> s.(ps_validators)) s.(ps_useful_work_scores) s)) ;;
      jobs ← lift (u_add U64_MAX v.(vi_jobs_verified) 1);
      on_state (modify (λ s, ps_with_sets
        (<[address := vi_with new_score v.(vi_last_proposal_slot) v.(vi_blocks_proposed)
                        jobs v]> s.(ps_validators)) s.(ps_useful_work_scores) s)) ;;
      logged (on_election (record_useful_work address (u64_of_Z delta) General PTeeAttestation 0))
  end.

(** The proposer's statistics. *)
Definition credit_proposer (block : PoUWBlockHeader) : StateM unit :=
  s ← get;
  match s.(ps_validators) !! block.(hd_proposer_address) with
  | None => mret tt
  | Some p =>
      proposed ← lift (u_add U64_MAX p.(vi_blocks_proposed) 1);
      modify (ps_with_sets
        (<[block.(hd_proposer_address) := vi_with p.(vi_useful_work_score) block.(hd_slot) proposed
                                            p.(vi_jobs_verified) p]> s.(ps_validators))
        s.(ps_useful_work_scores))
  end.

Definition process_useful_work_results (block : PoUWBlockHeader) (results : list UsefulWorkResult)
  : ConsM UsefulWorkProcessingResult :=
  '(total_uwu, verified_count, updates) ← collect_results results 0 0 ∅;
  for_each (map_to_list updates) apply_update ;;
  on_state (credit_proposer block) ;;
  on_state recalculate_active_set ;;
  mret {| uwp_total_useful_work_units := total_uwu; uwp_verified_count := verified_count;
          uwp_score_updates := updates |}.

(** ** Block validation *)

(** [VrfProof::from_bytes(..).map_err(|e| VrfValidation(e.to_string()))]: the only
    error it returns is a proof that is too short. *)
Definition parse_vrf_proof (bs : bytes) : outcome ConsensusError VrfProof :=
  match VrfProof_from_bytes bs with
  | Err (MalformedVrfProof expected actual) =>
      Err (VrfValidation ("Malformed VRF proof: expected " +:+ pretty expected
                          +:+ " bytes, got " +:+ pretty actual))
  | other => other
  end.

Definition validate_vrf_proof (c : PoUWConsensus) (h : PoUWBlockHeader)
  : outcome ConsensusError unit :=
  if is_genesis h then Ok tt else
  reject (bool_decide (blen h.(hd_vrf_proof) < 100)) (VrfValidation "VRF proof too short") $
  validator ← find_validator c h.(hd_proposer_address);
  let score := ps_score c.(pc_state) h.(hd_proposer_address) in
  proof ← parse_vrf_proof h.(hd_vrf_proof);
  output ← vrf_verify c.(pc_vrf_engine) validator.(vi_vrf_pubkey)
             (compute_vrf_input h.(hd_slot) c.(pc_state).(ps_epoch_seed)) proof;
  reject (negb (wins c validator.(vi_stake) score output))
    (VrfValidation "VRF output does not meet threshold") $
  Ok tt.

Definition validate_proposer (c : PoUWConsensus) (h : PoUWBlockHeader)
  : outcome ConsensusError unit :=
  if is_genesis h then Ok tt else
  validator ← find_validator c h.(hd_proposer_address);
  reject (negb (is_eligible validator h.(hd_slot))) (ValidatorIneligible h.(hd_proposer_address)) $
  let actual_score := ps_score c.(pc_state) h.(hd_proposer_address) in
  reject (score_mismatch h.(hd_proposer_useful_work_score) actual_score)
    (BlockValidation ("Proposer useful work score mismatch: expected ~" +:+ pretty actual_score
                      +:+ ", got " +:+ pretty h.(hd_proposer_useful_work_score))) $
  reject (negb (bool_decide (validator.(vi_stake) = h.(hd_proposer_stake))))
    (BlockValidation ("Proposer stake mismatch: expected " +:+ pretty validator.(vi_stake)
                      +:+ ", got " +:+ pretty h.(hd_proposer_stake))) $
  Ok tt.

(** [validate_structure().map_err(BlockValidation)] *)
Definition structure_ok (h : PoUWBlockHeader) : outcome ConsensusError unit :=
  match validate_structure h with
  | Ok _ => Ok tt
  | Err reason => Err (BlockValidation reason)
  | Panic => Panic
  | Blocked => Blocked
  end.

(** The checks of [validate_header], up to its counter. *)
Definition header_checks (c : PoUWConsensus) (h parent : PoUWBlockHeader)
  : outcome ConsensusError unit :=
  structure_ok h ≫= λ _,
  let parent_hash := header_hash parent in
  reject (negb (bool_decide (h.(hd_parent_hash) = parent_hash)))
    (InvalidParentHash parent_hash h.(hd_parent_hash)) $
  expected_height ← u_add U64_MAX parent.(hd_height) 1;
  reject (negb (bool_decide (h.(hd_height) = expected_height)))
    (BlockValidation ("Invalid height: expected " +:+ pretty expected_height
                      +:+ ", got " +:+ pretty h.(hd_height))) $
  reject (bool_decide (h.(hd_slot) <= parent.(hd_slot)))
    (SlotValidation ("Slot " +:+ pretty h.(hd_slot) +:+ " not after parent slot "
                     +:+ pretty parent.(hd_slot))) $
  expected_timestamp ← timestamp_for_slot c.(pc_timing) h.(hd_slot);
  let drift := abs_diff h.(hd_timestamp) expected_timestamp in
  reject (bool_decide (c.(pc_config).(cc_max_clock_drift_secs) < drift))
    (TimestampValidation ("Timestamp drift " +:+ pretty drift +:+ " exceeds max "
                          +:+ pretty c.(pc_config).(cc_max_clock_drift_secs))) $
  validate_vrf_proof c h ≫= λ _,
  validate_proposer c h ≫= λ _,
  reject (bool_decide (h.(hd_slot) < h.(hd_last_finalized_slot)))
    (FinalityValidation "Finalized slot cannot be in the future") $
  Ok tt.

Definition validate_header (h parent : PoUWBlockHeader) : ConsM unit :=
  c ← get;
  lift (header_checks c h parent) ;;
  count (metrics_add 1 0 0 0 0 0 0).

(** The leaf of a result in the Merkle tree. *)
Definition leaf_preimage (r : ComputeResult) : bytes :=
  r.(cr_job_id) ++ r.(cr_output_hash) ++ to_le_bytes 8 r.(cr_complexity)
  ++ [trait_method_u8 r.(cr_verification_method)].

(** [hashes.chunks(2)]: a last odd hash is paired with itself. *)
Fixpoint next_level (hashes : list Hash) : list Hash :=
  match hashes with
  | [] => []
  | [a] => [digest (a ++ a)]
  | a :: b :: rest => digest (a ++ b) :: next_level rest
  end.

(** [while hashes.len() > 1]; a round at least halves a list of two or more, so
    that the length is fuel enough. *)
Fixpoint merkle_loop (fuel : nat) (hashes : list Hash) : outcome ConsensusError Hash :=
  match hashes, fuel with
  | [], _ => Panic
  | [root], _ => Ok root
  | _, O => Blocked
  | _, S fuel => merkle_loop fuel (next_level hashes)
  end.

Definition compute_results_merkle_root (results : list ComputeResult)
  : outcome ConsensusError Hash :=
  if bool_decide (length results = 0%nat) then Ok (bytes32 0) else
  merkle_loop (length results) ((λ r, digest (leaf_preimage r)) <$> results).

Definition validate_single_result (c : PoUWConsensus) (r : ComputeResult)
  : outcome ConsensusError unit :=
  reject (bool_decide (r.(cr_job_id) = bytes32 0))
    (ComputeValidation "Invalid job ID (all zeros)") $
  reject (bool_decide (r.(cr_model_hash) = bytes32 0))
    (ComputeValidation "Invalid model hash (all zeros)") $
  reject (bool_decide (r.(cr_complexity) = 0)) (ComputeValidation "Complexity cannot be zero") $
  validator ← find_validator c r.(cr_validator);
  Ok tt.

Fixpoint validate_each (c : PoUWConsensus) (results : list ComputeResult)
  : outcome ConsensusError unit :=
  match results with
  | [] => Ok tt
  | r :: results => validate_single_result c r ≫= λ _, validate_each c results
  end.

Definition validate_compute_results (c : PoUWConsensus) (h : PoUWBlockHeader)
  (results : list ComputeResult) : outcome ConsensusError unit :=
  let n := N.of_nat (length results) in
  reject (negb (bool_decide (n = h.(hd_compute_job_count))))
    (ComputeValidation ("Job count mismatch: header says " +:+ pretty h.(hd_compute_job_count)
                        +:+ ", got " +:+ pretty n)) $
  total_complexity ← sum_checked U64_MAX cr_complexity results 0;
  reject (negb (bool_decide (total_complexity = h.(hd_compute_complexity))))
    (ComputeValidation ("Complexity mismatch: header says " +:+ pretty h.(hd_compute_complexity)
                        +:+ ", computed " +:+ pretty total_complexity)) $
  computed_root ← compute_results_merkle_root results;
  reject (negb (bool_decide (computed_root = h.(hd_compute_results_root))))
    (ComputeValidation "Compute results root mismatch") $
  validate_each c results.

(** ** The [Consensus] trait *)
Definition is_leader (c : PoUWConsensus) (slot : Slot) (address : Address) (vrf_output : bytes)
  : outcome ConsensusError bool :=
  validator ← find_validator c address;
  if negb (is_eligible validator slot) then Ok false else
  reject (negb (bool_decide (blen vrf_output = 32))) (VrfValidation "Invalid VRF output length") $
  Ok (wins c validator.(vi_stake) (ps_score c.(pc_state) address) vrf_output).

Definition verify_leader_credentials (c : PoUWConsensus) (slot : Slot) (address : Address)
  (vrf_proof vrf_pubkey : bytes) : outcome ConsensusError bool :=
  validator ← find_validator c address;
  reject (negb (bool_decide (validator.(vi_vrf_pubkey) = vrf_pubkey)))
    (VrfValidation "VRF public key mismatch") $
  proof ← parse_vrf_proof vrf_proof;
  output ← vrf_verify c.(pc_vrf_engine) vrf_pubkey
             (compute_vrf_input slot c.(pc_state).(ps_epoch_seed)) proof;
  Ok (wins c validator.(vi_stake) (ps_score c.(pc_state) address) output).

Definition produce_vrf_proof (c : PoUWConsensus) (seed : bytes)
  : outcome ConsensusError (bytes * bytes) :=
  keys ← local_keys c;
  '(proof, output) ← vrf_prove c.(pc_vrf_engine) keys seed;
  Ok (VrfProof_to_bytes proof, output).

Definition get_epoch_seed (c : PoUWConsensus) : EpochSeed := c.(pc_state).(ps_epoch_seed).
End engine.
