(* ===== verification/ConsensusSamples.v ===== *)
(** * Concrete runs of the consensus

    A development network with two validators.  In a run any functions can stand
    for SHA-256 and the mathematical library: here the first 32 bytes (padded), a
    logarithm with two values and powers of one. *)
From S2P Require Import Prelude SysTypes F64 Precompile ConsensusTypes Vrf Election Consensus.
From stdpp Require Import base gmap list strings.
From Stdlib Require Import ZArith Lia SpecFloat.
#[local] Open Scope N_scope.

Definition cn_build : Build :=
  {| overflow_checks := true; feature_sgx := false; feature_zkp := false |}.

Definition cn_env : ConsensusEnv := {|
  digest := λ bs, take 32 (bs ++ replicate 32 0);
  f64_log10 := λ x, if f64_le x F1_0 then S754_zero false else F6_0;
  f64_powi := λ _ _, F1_0;
|}.

Lemma cn_env_digest : @digest_32 cn_env.
Proof. intros bs. cbn [digest cn_env]. rewrite length_take, length_app, length_replicate. lia. Qed.

Definition node_keys : VrfKeys := @VrfKeys_from_seed cn_env (bytes32 7).
Definition node_address : Address := @derive_address_from_keys cn_env node_keys.
Definition node_info : ValidatorInfo :=
  ValidatorInfo_new node_address 1000000000000 node_keys.(vk_public_key) [] 0 0.
Definition peer_address : Address := bytes32 9.
Definition peer_info : ValidatorInfo :=
  ValidatorInfo_new peer_address 1000000000000 (2 :: bytes32 8) [] 0 0.

(** The state after a sequence of calls. *)
Definition final {E S A} (r : outcome E A * S) : S := r.2.

Definition dev_election : PoUWElection :=
  final (@el_register_validator cn_build cn_env peer_info
    (final (@el_register_validator cn_build cn_env node_info
      (PoUWElection_new CnPoUWConfig_devnet)))).

Definition worked_election : PoUWElection :=
  final (@record_useful_work cn_build cn_env node_address 500 Medical PHybrid 10 dev_election).

(** ** A node with a block *)
Definition dev_consensus : PoUWConsensus :=
  final (@pc_register_validator cn_build cn_env peer_info
    (final (@pc_register_validator cn_build cn_env node_info
      (with_validator_keys node_keys (PoUWConsensus_new CnPoUWConfig_devnet 0))))).

Definition dev_message : bytes := compute_vrf_input 1 (bytes32 0).
Definition node_proof : VrfProof :=
  @mock_proof cn_env VrfEngine_new (pk_body node_keys.(vk_public_key)) dev_message.
Definition dev_output : VrfOutput :=
  @mock_output cn_env VrfEngine_new (pk_body node_keys.(vk_public_key)) dev_message.

Definition dev_credentials : LeaderCredentials := {|
  lc_slot := 1; lc_address := node_address; lc_vrf_proof := node_proof;
  lc_vrf_output := dev_output; lc_stake := 1000000000000; lc_useful_work_score := 0 |}.

Definition dev_result (model : N) : ComputeResult :=
  ComputeResult_new (bytes32 1) (bytes32 model) (bytes32 3) (bytes32 4) 77 TZkProof node_address.

Definition dev_root : Hash := @digest cn_env (leaf_preimage (dev_result 2)).

(** A block of the node on the genesis block, with the given proof bytes. *)
Definition dev_block (proof_bytes : bytes) : PoUWBlockHeader := {|
  hd_parent_hash := @header_hash cn_env (PoUWBlockHeader_genesis 0); hd_height := 1;
  hd_slot := 1; hd_epoch := 0; hd_proposer_address := node_address; hd_state_root := bytes32 0;
  hd_transactions_root := bytes32 0; hd_receipts_root := bytes32 0; hd_timestamp := 1;
  hd_vrf_proof := proof_bytes; hd_compute_results_root := dev_root; hd_compute_job_count := 1;
  hd_compute_complexity := 77; hd_proposer_useful_work_score := 0;
  hd_proposer_stake := 1000000000000; hd_last_justified_hash := bytes32 0;
  hd_last_finalized_slot := 0; hd_signature := [] |}.

Definition padded_block : PoUWBlockHeader := dev_block (VrfProof_to_bytes node_proof ++ [0; 0; 0]).
Definition documented_block : PoUWBlockHeader := dev_block (vrf_proof_bytes dev_credentials).
