(* ===== verification/ElectionSpec.v ===== *)
(** * What the election guarantees

    Totals along every history of calls, agreement of the two sides of an election
    (the candidate's check and the verifier's), and two defects of the score
    bookkeeping: a validator's second job is refused for ever, and recorded work
    does not reach the total the thresholds are divided by. *)
From S2P Require Import Prelude SysTypes F64 Precompile ConsensusTypes Vrf Election Consensus ConsensusSamples.
From stdpp Require Import base gmap list strings.
From Stdlib Require Import ZArith Lia SpecFloat.
#[local] Open Scope N_scope.

(** ** Histories *)
Inductive el_op :=
| ElSeed (seed : EpochSeed)
| ElEpoch (epoch : N)
| ElRegister (info : ValidatorInfo)
| ElRemove (address : Address)
| ElWork (address : Address) (uwu : N) (category : UtilityCategory)
    (method : PoUWVerificationMethod) (complexity : N)
| ElCheck (validator : Address) (slot : Slot) (keys : VrfKeys).

(** [stable] through conditionals and pairs, the field updates closed by
    computation. *)
Ltac el_stable :=
  repeat first [stable_step | apply stable_when; [apply _|]
               | match goal with |- stable _ (modify _) => apply stable_modify; by intros ? Ht end].

Section spec.
Context `{Build, ConsensusEnv}.

Definition el_exec (op : el_op) : ElectM unit :=
  match op with
  | ElSeed seed => set_epoch_seed seed
  | ElEpoch epoch => set_current_epoch epoch
  | ElRegister info => el_register_validator info
  | ElRemove address => remove_validator address
  | ElWork address uwu category method complexity =>
      record_useful_work address uwu category method complexity
  | ElCheck validator slot keys => check_eligibility validator slot keys ;; mret tt
  end.

(** ** Work is recorded once *)

(** A call that keeps the score of [a]. *)
Definition keeps_score (a : Address) (s : UsefulWorkScore) : relation PoUWElection :=
  maintains (λ e, e.(el_useful_work_scores) !! a = Some s).

Definition flagged (a : Address) : ConsensusError :=
  SuspiciousActivity (hex_encode a) "Validator flagged for suspicious activity pattern".

Lemma el_with_scores_id a s e :
  e.(el_useful_work_scores) !! a = Some s →
  el_with_sets e.(el_validators) (<[a := s]> e.(el_useful_work_scores)) e = e.
Proof. intros Hs. rewrite insert_id by done. by destruct e. Qed.

Lemma suspicious_refused a s e uwu category method complexity :
  is_suspicious s = Ok true → e.(el_useful_work_scores) !! a = Some s →
  record_useful_work a uwu category method complexity e = (Err (flagged a), e).
Proof.
  intros Hsus Hs. unfold record_useful_work, on_score, zoom. unfold mbind, M_bind, get, lift.
  rewrite Hs. cbn [default from_option id]. rewrite Hsus. cbn [ensure negb fail].
  by rewrite el_with_scores_id.
Qed.

Lemma stable_win a s w : stable (keeps_score a s) (record_election_win w).
Proof.
  unfold record_election_win, on_statistics. stable_step; [stable_step|].
  apply stable_zoom with (RT := λ _ _, True); [by intros ?|by intros ? ? _ Ht].
Qed.

Lemma stable_threshold a s v : stable (keeps_score a s) (get_or_compute_threshold v).
Proof.
  unfold get_or_compute_threshold. el_stable.
Qed.

Lemma stable_update_weight a s v : stable (keeps_score a s) (update_weighted_stake v).
Proof. unfold update_weighted_stake. el_stable. Qed.

(** Every call but the removal of [a] keeps a suspicious score of [a]. *)
Lemma el_exec_keeps a s op :
  is_suspicious s = Ok true → op ≠ ElRemove a → stable (keeps_score a s) (el_exec op).
Proof.
  intros Hsus Hop. destruct op as [seed|epoch|info|b|b uwu cat m cx|v slot keys]; cbn [el_exec].
  - unfold set_epoch_seed. el_stable.
  - unfold set_current_epoch, recalculate_weighted_stakes. el_stable.
  - unfold el_register_validator, retire_old. el_stable; apply stable_modify; intros e Ht; cbn;
    (destruct (decide (a = vi_address info)) as [->|Hne];
      [by rewrite Ht, lookup_insert_eq | by rewrite lookup_insert_ne]).
  - unfold remove_validator. el_stable. apply stable_modify. intros e Ht. cbn.
    rewrite lookup_delete_ne; [done|congruence].
  - destruct (decide (b = a)) as [->|Hne].
    { intros e Ht. by rewrite (suspicious_refused a s) by done. }
    unfold record_useful_work. apply stable_bind; [apply _|stable_step|intros e].
    apply stable_bind; [apply _| |intros _].
    { apply stable_zoom with (RT := λ _ _, True); [by intros ?|].
      intros e' t _ Ht. cbn. by rewrite lookup_insert_ne. }
    apply stable_bind; [apply _|apply stable_update_weight|intros _]. el_stable.
  - unfold check_eligibility.
    el_stable; solve [apply stable_threshold | apply stable_win].
Qed.

(** A score with a single category is suspicious: its share is one. *)
Lemma single_category_suspicious s category v :
  s.(uws_uwu_by_category) = {[category := v]} → 0 < v → v < 2 ^ 53 → is_suspicious s = Ok true.
Proof.
  intros Hs H0v Hv. unfold is_suspicious. case_bool_decide; [done|].
  unfold map_values. rewrite Hs, map_to_list_singleton. cbn [fmap list_fmap snd sum_checked].
  unfold id. rewrite u_add_ok by (change (2 ^ 53) with 9007199254740992 in Hv; lia).
  cbn [mbind outcome_bind existsb]. rewrite N.add_0_l, bool_decide_true by done.
  unfold share_above. by rewrite div_self_of_N.
Qed.

Lemma add_uwu_default uwu category method complexity epoch s :
  uwu < 2 ^ 53 →
  add_uwu uwu category method complexity epoch UsefulWorkScore_default = (Ok tt, s) →
  s.(uws_uwu_by_category) = {[category := uwu]}.
Proof.
  intros Hu Hrun. change (2 ^ 53) with 9007199254740992 in Hu.
  unfold add_uwu in Hrun. ok_inv Hrun.
  repeat match goal with Hb : bump _ _ _ _ _ _ = _ |- _ => apply bump_ok in Hb as (? & ? & ->) end.
  cbv [modify] in Hrun. simplify_eq/=.
  match goal with Ha : u_add _ (default 0 (∅ !! category)) uwu = Ok _ |- _ =>
    rewrite lookup_empty in Ha; cbn [default from_option] in Ha;
    rewrite u_add_ok in Ha by lia; injection Ha as <- end.
  by rewrite insert_insert_eq.
Qed.

(** What an unused score looks like: none at all, or the one registration creates. *)
Definition unused_score (e : PoUWElection) (a : Address) : Prop :=
  default UsefulWorkScore_default (e.(el_useful_work_scores) !! a) = UsefulWorkScore_default.

Lemma update_weighted_stake_ok a e u e' :
  update_weighted_stake a e = (Ok u, e') →
  ∃ info, e.(el_validators) !! a = Some info
  ∧ let w := el_weight e a info.(vi_stake) in
    e' = el_with_totals e.(el_total_stake)
           (sat_add U128_MAX (sat_sub e.(el_total_weighted_stake) w) w) e.
Proof.
  unfold update_weighted_stake. intros Hrun.
  apply bind_ok in Hrun as (? & ? & [= <- <-] & Hrun).
  apply bind_ok in Hrun as (info & ? & Hinfo & [= _ <-]). apply ok_or_ok in Hinfo as [Hinfo ->].
  by exists info.
Qed.

(** A recorded job: the new score, and the totals. *)
Lemma record_useful_work_ok a uwu category method complexity e u e1 :
  record_useful_work a uwu category method complexity e = (Ok u, e1) →
  let s := default UsefulWorkScore_default (e.(el_useful_work_scores) !! a) in
  ∃ t info, is_suspicious s = Ok false
  ∧ add_uwu uwu category method complexity e.(el_current_epoch) s = (Ok tt, t)
  ∧ e.(el_validators) !! a = Some info
  ∧ let e' := el_with_sets e.(el_validators) (<[a := t]> e.(el_useful_work_scores)) e in
    let w := el_weight e' a info.(vi_stake) in
    e1 = el_with_cache (delete a e.(el_threshold_cache))
           (el_with_totals e.(el_total_stake)
              (sat_add U128_MAX (sat_sub e.(el_total_weighted_stake) w) w) e').
Proof.
  unfold record_useful_work, on_score. intros Hrun.
  apply bind_ok in Hrun as (? & ? & [= <- <-] & Hrun).
  apply bind_ok in Hrun as ([] & e2 & Hadd & Hrun). apply zoom_ok in Hadd as (t & Ht & ->).
  apply bind_ok in Ht as (? & ? & [= <- <-] & Ht).
  apply bind_ok in Ht as (b & ? & Hb & Ht). apply lift_ok in Hb as [Hb ->].
  apply bind_ok in Ht as (? & ? & Hen & Ht). apply ensure_ok in Hen as [Hen ->].
  apply bind_ok in Hrun as (? & e3 & Hup & [= _ <-]).
  apply update_weighted_stake_ok in Hup as (info & Hinfo & ->).
  exists t, info. destruct b; [done|]. split_and!; done.
Qed.

(** One recorded job leaves a score that is suspicious. *)
Lemma recorded_job_suspicious e a uwu category method complexity e1 :
  unused_score e a → 0 < uwu → uwu < 2 ^ 53 →
  record_useful_work a uwu category method complexity e = (Ok tt, e1) →
  ∃ s, e1.(el_useful_work_scores) !! a = Some s ∧ is_suspicious s = Ok true.
Proof.
  intros Hnew H0u Hu Hrun.
  apply record_useful_work_ok in Hrun as (t & info & _ & Ht & _ & ->).
  rewrite Hnew in Ht. apply add_uwu_default in Ht; [|done]. cbn.
  exists t. split; [apply lookup_insert_eq|]. by eapply single_category_suspicious.
Qed.

(** A call other than the removal of [a], whatever its outcome. *)
Definition el_step_but (a : Address) : relation PoUWElection := λ e e',
  ∃ op, op ≠ ElRemove a ∧ e' = (el_exec op e).2.

Lemma el_steps_keep a s e e' :
  is_suspicious s = Ok true → e.(el_useful_work_scores) !! a = Some s →
  rtc (el_step_but a) e e' → e'.(el_useful_work_scores) !! a = Some s.
Proof.
  intros Hsus Hs Hsteps. induction Hsteps as [|e1 e2 e3 (op & Hop & ->) _ IH]; [done|].
  apply IH. by apply (el_exec_keeps a s op).
Qed.

(** Work is recorded once.  The check for a dominant category (more than 95% of
    the work) holds of any validator with work in a single category.  So once a
    first job was recorded for a validator, then after any further calls of the
    election, the passing of epochs included, every later job of that validator, in
    this or any other category, is refused as suspicious and changes nothing, until
    the validator is removed. *)
Lemma work_recorded_once e a uwu category method complexity e1 e2 :
  unused_score e a → 0 < uwu → uwu < 2 ^ 53 →
  record_useful_work a uwu category method complexity e = (Ok tt, e1) →
  rtc (el_step_but a) e1 e2 →
  ∀ uwu' category' method' complexity',
    record_useful_work a uwu' category' method' complexity' e2 = (Err (flagged a), e2).
Proof.
  intros Hnew H0u Hu Hrun Hsteps uwu' category' method' complexity'.
  destruct (recorded_job_suspicious _ _ _ _ _ _ _ Hnew H0u Hu Hrun) as (s & Hs & Hsus).
  apply (suspicious_refused a s); [done|]. by eapply el_steps_keep.
Qed.

(** ** The totals *)
Definition weights (e : PoUWElection) : N :=
  sum_of (λ av, el_weight e av.1 av.2.(vi_stake)) (map_to_list e.(el_validators)).

Lemma sum_weights_ok e l acc :
  acc + sum_of (λ av, el_weight e av.1 av.2.(vi_stake)) l <= U128_MAX →
  sum_weights e l acc = Ok (acc + sum_of (λ av, el_weight e av.1 av.2.(vi_stake)) l).
Proof.
  revert acc. induction l as [|[a v] l IH]; intros acc Hle; [by rewrite N.add_0_r|].
  cbn in *. fold (sum_of (λ av, el_weight e av.1 av.2.(vi_stake)) l) in *.
  rewrite u_add_ok by lia. cbn. rewrite IH by lia. f_equal. lia.
Qed.

(** The invariant: stakes add up, and every validator is filed under its address
    with at least the minimal stake. *)
Record election_wf (e : PoUWElection) : Prop := {
  ew_total : e.(el_total_stake) = map_sum vi_stake e.(el_validators);
  ew_fits : e.(el_total_stake) <= U128_MAX;
  ew_filed : map_Forall (λ a v, v.(vi_address) = a ∧ e.(el_config).(cc_min_stake) <= v.(vi_stake))
               e.(el_validators);
}.

(** Calls that return, with registrations that stay within the supply. *)
Definition in_supply (op : el_op) (e : PoUWElection) : Prop :=
  match op with
  | ElRegister info => e.(el_total_stake) + info.(vi_stake) <= U128_MAX
  | _ => True
  end.

Definition el_step : relation PoUWElection := λ e e',
  ∃ op, in_supply op e ∧ returns (el_exec op e).1 ∧ e' = (el_exec op e).2.

Lemma election_wf_ext e e' :
  e'.(el_config) = e.(el_config) → e'.(el_validators) = e.(el_validators) →
  e'.(el_total_stake) = e.(el_total_stake) → election_wf e → election_wf e'.
Proof. intros Hc Hv Ht []. split; by rewrite ?Ht, ?Hv, ?Hc. Qed.

(** Calls that touch neither validators nor the stake total. *)
Definition same_registered : relation PoUWElection := λ e e',
  e'.(el_config) = e.(el_config) ∧ e'.(el_validators) = e.(el_validators)
  ∧ e'.(el_total_stake) = e.(el_total_stake).

#[local] Instance same_stakes_preorder : PreOrder same_registered.
Proof.
  split; [done|]. intros e1 e2 e3 (H1 & H2 & H3) (H4 & H5 & H6). unfold same_registered. split_and!; congruence.
Qed.

Lemma same_stakes_zoom {T A} (gt : PoUWElection → T) st (m : M ConsensusError T A) :
  (∀ e t, same_registered e (st t e)) → stable same_registered (zoom gt st m).
Proof. intros Hst. apply stable_zoom with (RT := λ _ _, True); [by intros ?|auto]. Qed.

Lemma el_exec_same_stakes op :
  match op with ElRegister _ | ElRemove _ => False | _ => True end →
  stable same_registered (el_exec op).
Proof.
  destruct op as [seed|epoch|info|b|b uwu cat m cx|v slot keys]; intros Hop;
    try contradiction; cbn [el_exec].
  - unfold set_epoch_seed. el_stable; by apply stable_modify.
  - unfold set_current_epoch, recalculate_weighted_stakes. el_stable; by apply stable_modify.
  - unfold record_useful_work, update_weighted_stake, on_score. el_stable;
      solve [by apply stable_modify | by apply same_stakes_zoom].
  - unfold check_eligibility, get_or_compute_threshold, record_election_win, on_statistics.
    el_stable; solve [by apply stable_modify | by apply same_stakes_zoom].
Qed.

(** Computations that never return an error. *)
Definition no_err {S A} (m : M ConsensusError S A) : Prop := ∀ s x s', m s ≠ (Err x, s').

Lemma no_err_bind {S A B} (m : M ConsensusError S A) (k : A → M ConsensusError S B) :
  no_err m → (∀ a, no_err (k a)) → no_err (m ≫= k).
Proof.
  intros Hm Hk s x s'. cbv [mbind M_bind]. destruct (m s) as [[a|y| |] s1] eqn:E; try done.
  - apply Hk.
  - by apply Hm in E.
Qed.

Lemma no_err_arith {S A} (o : outcome ConsensusError A) :
  (∀ x, o ≠ Err x) → no_err (S := S) (lift o).
Proof. intros Ho s x s' [= Hx _]. by apply Ho in Hx. Qed.

Lemma u_add_not_err max a b x : u_add (E := ConsensusError) max a b ≠ Err x.
Proof. unfold u_add, overflow. by case_bool_decide; [|destruct overflow_checks]. Qed.
Lemma u_sub_not_err max a b x : u_sub (E := ConsensusError) max a b ≠ Err x.
Proof. unfold u_sub, overflow. by case_bool_decide; [|destruct overflow_checks]. Qed.

Ltac no_err_body :=
  repeat first
    [ apply no_err_bind; [|intros ?]
    | apply no_err_arith; intros ?; first [apply u_add_not_err | apply u_sub_not_err]
    | match goal with |- no_err (match ?x with _ => _ end) => destruct x end
    | by intros ? ? ? [=] ].

Lemma bind_returns {S A B} (m : M ConsensusError S A) (k : A → M ConsensusError S B) s o s' :
  (m ≫= k) s = (o, s') → returns o →
  (∃ x, m s = (Err x, s') ∧ o = Err x) ∨ ∃ a s1, m s = (Ok a, s1) ∧ k a s1 = (o, s').
Proof.
  cbv [mbind M_bind]. destruct (m s) as [[a|y| |] s1]; intros Heq Hr; [by eauto|left; naive_solver|..];
    by simplify_eq.
Qed.

Lemma no_err_returns {S A} (m : M ConsensusError S A) s o s' :
  m s = (o, s') → returns o → no_err m → ∃ a, o = Ok a.
Proof. destruct o as [a|x| |]; intros Hm Hr Hno; try done; [eauto|by apply Hno in Hm]. Qed.

Lemma ensure_err {S} b (e x : ConsensusError) (s s' : S) : ensure b e s = (Err x, s') → s' = s.
Proof. destruct b; cbv; congruence. Qed.

Lemma retire_old_ok a e u e1 :
  retire_old a e = (Ok u, e1) → e.(el_total_stake) = map_sum vi_stake e.(el_validators) →
  e1.(el_total_stake) + default 0 (vi_stake <$> e.(el_validators) !! a) = e.(el_total_stake)
  ∧ e1.(el_validators) = e.(el_validators) ∧ e1.(el_config) = e.(el_config).
Proof.
  unfold retire_old. intros Hrun Hsum. apply bind_ok in Hrun as (? & ? & [= <- <-] & Hrun).
  destruct (el_validators e !! a) as [old|] eqn:Ho.
  - pose proof (map_sum_lookup_le vi_stake _ _ _ Ho) as Hle.
    apply bind_ok in Hrun as (stake & ? & Hst & Hrun). apply lift_ok in Hst as [Hst ->].
    rewrite u_sub_ok in Hst by lia. ok_inv Hrun. simplify_eq/=. split_and!; [lia|done..].
  - injection Hrun as _ <-. cbn. split_and!; [lia|done..].
Qed.

(** Registration: refused below the minimal stake, otherwise the old record is
    replaced. *)
Lemma register_wf info e :
  election_wf e → in_supply (ElRegister info) e → returns (el_register_validator info e).1 →
  election_wf (el_register_validator info e).2.
Proof.
  intros [Hsum Hfits Hfiled] Hin Hret. cbn in Hin.
  destruct (el_register_validator info e) as [o e'] eqn:Hrun. cbn in Hret |- *.
  unfold el_register_validator in Hrun.
  apply bind_returns in Hrun as [(? & [=] & _)|(? & ? & [= <- <-] & Hrun)]; [|done].
  apply bind_returns in Hrun as [(x & Hen & ->)|([] & ? & Hen & Hrun)]; [..|done].
  { apply ensure_err in Hen as ->. by split. }
  apply ensure_ok in Hen as [Hmin ->]. bool_facts.
  destruct (no_err_returns _ _ _ _ Hrun Hret) as [[] ->]; [unfold retire_old; no_err_body|].
  apply bind_ok in Hrun as ([] & e1 & Hold & Hrun).
  apply retire_old_ok in Hold as (Ht1 & Hv1 & Hc1); [|done].
  ok_inv Hrun. simplify_eq/=. rewrite u_add_ok in * by lia. injection Hrun as <-. simplify_eq.
  pose proof (map_sum_insert vi_stake e.(el_validators) info.(vi_address) info) as Hins.
  split; cbn; rewrite ?Hv1, ?Hc1; [lia|lia|].
  apply map_Forall_insert_2; [split; [done|lia]|done].
Qed.

Lemma remove_wf a e :
  election_wf e → returns (remove_validator a e).1 → election_wf (remove_validator a e).2.
Proof.
  intros [Hsum Hfits Hfiled] Hret.
  destruct (remove_validator a e) as [o e'] eqn:Hrun. cbn in Hret |- *.
  unfold remove_validator in Hrun.
  apply bind_returns in Hrun as [(? & [=] & _)|(? & ? & [= <- <-] & Hrun)]; [|done].
  apply bind_returns in Hrun as [(x & Hen & ->)|(info & ? & Hen & Hrun)]; [..|done].
  { destruct (el_validators e !! a); cbv in Hen; [done|]. injection Hen as _ <-. by split. }
  apply ok_or_ok in Hen as [Hinfo ->].
  destruct (no_err_returns _ _ _ _ Hrun Hret) as [[] ->]; [no_err_body|].
  pose proof (map_sum_delete vi_stake _ _ _ Hinfo) as Hdel.
  ok_inv Hrun. simplify_eq/=. rewrite u_sub_ok in * by lia. injection Hrun as <-. simplify_eq.
  split; cbn; [lia|lia|]. by apply map_Forall_delete.
Qed.

Lemma election_step_wf e e' : el_step e e' → election_wf e → election_wf e'.
Proof.
  intros (op & Hin & Hret & ->) Hwf.
  destruct op as [seed|epoch|info|b|b uwu cat m cx|v slot keys].
  3:{ by apply register_wf. }
  3:{ by apply remove_wf. }
  all: match goal with |- election_wf (el_exec ?op ?x).2 =>
         destruct (el_exec_same_stakes op I x) as (Hc & Hv & Ht) end;
       by eapply election_wf_ext.
Qed.

(** The totals of the election.  Along every history of calls that return, with
    stakes within 128 bits, the total stake is the sum over the registered
    validators, each filed under its own address with at least the minimal stake;
    and entering a later epoch always succeeds (when the weights fit), makes the
    weighted total the sum of the validators' weights and clears every cached
    threshold. *)
Lemma election_totals config e :
  rtc el_step (PoUWElection_new config) e →
  e.(el_total_stake) = map_sum vi_stake e.(el_validators)
  ∧ map_Forall (λ a v, v.(vi_address) = a ∧ e.(el_config).(cc_min_stake) <= v.(vi_stake))
      e.(el_validators)
  ∧ ∀ epoch, e.(el_current_epoch) < epoch →
      weights (el_with_epoch e.(el_epoch_seed) epoch e) <= U128_MAX →
      ∃ e', set_current_epoch epoch e = (Ok tt, e')
      ∧ e'.(el_current_epoch) = epoch ∧ e'.(el_total_weighted_stake) = weights e'
      ∧ e'.(el_threshold_cache) = ∅.
Proof.
  intros Hsteps.
  assert (election_wf e) as [Hsum Hfits Hfiled].
  { assert (election_wf (PoUWElection_new config)) as Hnew.
    { split; cbn; [by rewrite map_sum_empty|lia|apply map_Forall_empty]. }
    revert Hnew. induction Hsteps as [|? ? ? Hs _ IH]; eauto using election_step_wf. }
  split_and!; [done..|]. intros epoch Hlt Hw.
  set (e2 := el_with_epoch (el_epoch_seed e) epoch e) in *.
  exists (el_with_cache ∅ (el_with_totals (el_total_stake e2) (weights e2) e2)).
  split_and!; try done. unfold set_current_epoch, recalculate_weighted_stakes.
  mstep. unfold when. rewrite bool_decide_true by done. mstep. fold e2. mstep.
  mstep_by ltac:(apply sum_weights_ok; exact Hw). rewrite N.add_0_l. reflexivity.
Qed.

(** Two sums over a list with distinct keys that differ at one key. *)
Lemma sum_of_update {V} (f g : Address * V → N) (l : list (Address * V)) a v :
  NoDup l.*1 → (a, v) ∈ l → (∀ kx, kx ∈ l → kx.1 ≠ a → g kx = f kx) →
  sum_of g l + f (a, v) = sum_of f l + g (a, v).
Proof.
  induction l as [|[b x] l IH]; intros Hnd Hin Hfg; [by apply elem_of_nil in Hin|].
  cbn in Hnd. apply NoDup_cons in Hnd as [Hb Hnd]. cbn. fold (sum_of f l) (sum_of g l).
  apply elem_of_cons in Hin as [[= <- <-]|Hin].
  - assert (sum_of g l = sum_of f l) as ->; [|lia]. clear IH.
    assert (∀ kx, kx ∈ l → g kx = f kx) as Heq.
    { intros kx Hkx. apply Hfg; [by right|]. intros <-. apply Hb. apply list_elem_of_fmap. eauto. }
    clear Hfg Hb Hnd. induction l as [|y l IH]; cbn; [done|]. fold (sum_of f l) (sum_of g l).
    rewrite Heq by left. rewrite IH; [done|]. intros; apply Heq; by right.
  - rewrite (Hfg (b, x)); [|by left|].
    + specialize (IH Hnd Hin ltac:(intros; apply Hfg; [by right|done])). lia.
    + cbn. intros ->. apply Hb. apply list_elem_of_fmap. by exists (a, v).
Qed.

Lemma f64_as_le max x : f64_as max x <= max.
Proof. unfold f64_as. destruct x as [?|[]| |[]]; lia. Qed.

(** Recorded work is not weighed.  Recording a job replaces the weighted total
    [T] by the maximum of [T] and the validator's new weight, whatever its old
    weight was, because both weights are read after the score changed.  So if the
    total was exact, the job raised the validator's weight and somebody else has
    weight too, the total is below the sum of the weights until the next epoch, and
    the thresholds, which are shares of it, add up to more than the whole range. *)
Lemma recorded_work_not_weighed e a uwu category method complexity e1 :
  record_useful_work a uwu category method complexity e = (Ok tt, e1) →
  e.(el_total_weighted_stake) <= U128_MAX →
  ∃ info, e.(el_validators) !! a = Some info
  ∧ let old := el_weight e a info.(vi_stake) in
    let new := el_weight e1 a info.(vi_stake) in
    e1.(el_total_weighted_stake) = N.max e.(el_total_weighted_stake) new
    ∧ (e.(el_total_weighted_stake) = weights e → old < new → old < weights e →
       e1.(el_total_weighted_stake) < weights e1).
Proof.
  intros Hrun Hfits.
  destruct (record_useful_work_ok _ _ _ _ _ _ _ _ Hrun) as (t & info & _ & _ & Hinfo & ->).
  exists info. split; [done|]. intros old new. cbn.
  set (e' := el_with_sets (el_validators e) (<[a:=t]> (el_useful_work_scores e)) e) in *.
  change new with (el_weight e' a (vi_stake info)). clear new.
  set (new := el_weight e' a (vi_stake info)).
  assert (new <= U128_MAX) as Hnew by apply f64_as_le.
  assert (sat_add U128_MAX (sat_sub (el_total_weighted_stake e) new) new
          = N.max (el_total_weighted_stake e) new) as -> by (unfold sat_add, sat_sub; lia).
  split; [done|]. intros Hexact Hlt Hother.
  enough (weights e' + old = weights e + new) as Hw.
  { change (weights (el_with_cache _ (el_with_totals _ _ e'))) with (weights e'). lia. }
  unfold weights. change (el_validators e') with (el_validators e).
  apply (sum_of_update (λ av, el_weight e av.1 av.2.(vi_stake))
           (λ av, el_weight e' av.1 av.2.(vi_stake)) _ a info).
  - apply NoDup_fst_map_to_list.
  - by apply elem_of_map_to_list.
  - intros [b x] _ Hb. cbn in *. unfold el_weight, el_get_useful_work_score. cbn.
    by rewrite lookup_insert_ne.
Qed.

(** ** The two sides of an election *)

(** What the candidate's check leaves alone. *)
Definition same_core : relation PoUWElection := λ e e',
  (e'.(el_config), e'.(el_vrf_engine), e'.(el_epoch_seed), e'.(el_validators),
   e'.(el_useful_work_scores), e'.(el_total_weighted_stake), e'.(el_current_epoch))
  = (e.(el_config), e.(el_vrf_engine), e.(el_epoch_seed), e.(el_validators),
     e.(el_useful_work_scores), e.(el_total_weighted_stake), e.(el_current_epoch)).

#[local] Instance same_core_preorder : PreOrder same_core.
Proof. split; [done|]. intros e1 e2 e3 H1 H2. unfold same_core in *. congruence. Qed.

Lemma check_eligibility_core v slot keys : stable same_core (check_eligibility v slot keys).
Proof.
  unfold check_eligibility, get_or_compute_threshold, record_election_win, on_statistics.
  el_stable; first [by apply stable_modify
                   | by apply stable_zoom with (RT := λ _ _, True); [intros ?|intros ? ? _]].
Qed.

(** The threshold of a validator of the election. *)
Definition threshold_of (e : PoUWElection) (p : Address) (info : ValidatorInfo) : N :=
  calculate_threshold e.(el_config) info.(vi_stake) (el_get_useful_work_score e p)
    e.(el_total_weighted_stake).

(** The message, the proof and the output of a validator in a slot. *)
Definition slot_message (e : PoUWElection) (slot : Slot) : bytes :=
  construct_message e.(el_vrf_engine) e.(el_epoch_seed) slot.
Definition slot_proof (e : PoUWElection) (pk : bytes) (slot : Slot) : VrfProof :=
  mock_proof e.(el_vrf_engine) (pk_body pk) (slot_message e slot).
Definition slot_output (e : PoUWElection) (pk : bytes) (slot : Slot) : VrfOutput :=
  mock_output e.(el_vrf_engine) (pk_body pk) (slot_message e slot).

Record proposer_legit (e : PoUWElection) (p : Address) (slot : Slot) (claimed : N)
  (out pf : bytes) (info : ValidatorInfo) : Prop := {
  pl_registered : e.(el_validators) !! p = Some info;
  pl_score : abs_diff claimed (el_get_useful_work_score e p) <= el_get_useful_work_score e p / 100;
  pl_key : 33 <= blen info.(vi_vrf_pubkey);
  pl_proof : take 97 pf = VrfProof_to_bytes (slot_proof e info.(vi_vrf_pubkey) slot);
  pl_output : out = slot_output e info.(vi_vrf_pubkey) slot;
  pl_threshold : of_be_bytes out < threshold_of e p info;
}.

Lemma verify_proposer_iff e p slot claimed out pf :
  digest_32 →
  verify_proposer e p slot claimed out pf = Ok tt ↔
  ∃ info, proposer_legit e p slot claimed out pf info.
Proof.
  intros Hd. unfold verify_proposer. split.
  - destruct (el_validators e !! p) as [info|] eqn:Hinfo; [|done].
    intros Hv. apply reject_ok in Hv as [Hscore Hv].
    apply obind_ok in Hv as (proof & Hp & Hv). apply reject_ok in Hv as [Hlen Hv].
    apply obind_ok in Hv as (valid & Hval & Hv). apply reject_ok in Hv as [Hvalid Hv].
    apply reject_ok in Hv as [Hthr _]. destruct valid; [|done].
    apply verify_mock_iff in Hval as (Hk & -> & Hout). apply proof_from_bytes_iff in Hp as [_ Hp].
    unfold score_mismatch, check_vrf_threshold in *. bool_facts.
    exists info. split; try done. lia.
  - intros (info & [Hinfo Hscore Hk Hp Hout Hthr]). rewrite Hinfo.
    apply reject_ok. split; [unfold score_mismatch; apply bool_decide_eq_false; lia|].
    apply obind_ok. exists (slot_proof e info.(vi_vrf_pubkey) slot).
    split; [apply proof_from_bytes_iff; split; [by apply mock_proof_sized|done]|].
    apply reject_ok. split.
    { rewrite bool_decide_true; [done|]. subst out. unfold slot_output, mock_output, mock_hash.
      by rewrite (blen_nat _ _ (Hd _)). }
    apply obind_ok. exists true. split; [by apply verify_mock_iff|].
    cbn [negb reject]. apply reject_ok. split; [|done].
    unfold check_vrf_threshold. by rewrite bool_decide_true.
Qed.

Lemma same_core_legit e e' p slot claimed out pf info :
  same_core e e' → proposer_legit e p slot claimed out pf info →
  proposer_legit e' p slot claimed out pf info.
Proof.
  intros Hc [Hinfo Hscore Hk Hp Hout Hthr]. injection Hc as Hcfg Heng Hseed Hval Hsc Htw Hep.
  split; unfold slot_output, slot_proof, slot_message, threshold_of, el_get_useful_work_score in *;
    rewrite ?Hcfg, ?Heng, ?Hseed, ?Hval, ?Hsc, ?Htw, ?Hep; done.
Qed.

(** A candidate that wins knows its slot proof and stays under its threshold. *)
Lemma check_eligibility_won e p slot keys info out proof e1 :
  e.(el_validators) !! p = Some info → 33 <= blen keys.(vk_public_key) →
  (∀ t, e.(el_threshold_cache) !! p = Some t → t = threshold_of e p info) →
  check_eligibility p slot keys e = (Ok (Some (out, proof)), e1) →
  is_eligible info slot = true
  ∧ proof = slot_proof e keys.(vk_public_key) slot ∧ out = slot_output e keys.(vk_public_key) slot
  ∧ of_be_bytes out < threshold_of e p info.
Proof.
  intros Hinfo Hk Hcache Hrun. unfold check_eligibility in Hrun.
  apply bind_ok in Hrun as (? & ? & [= <- <-] & Hrun).
  apply bind_ok in Hrun as (info' & ? & Hi & Hrun). apply ok_or_ok in Hi as [Hi ->].
  rewrite Hinfo in Hi. injection Hi as <-.
  apply bind_ok in Hrun as (? & ? & He & Hrun). apply ensure_ok in He as [He ->].
  apply bind_ok in Hrun as ([o pr] & ? & Hpr & Hrun). apply lift_ok in Hpr as [Hpr ->].
  unfold prove_for_slot, prove_mock in Hpr. rewrite pk_slice in Hpr by done. injection Hpr as <- <-.
  apply bind_ok in Hrun as (thr & e2 & Hthr & Hrun).
  assert (thr = threshold_of e p info) as ->.
  { unfold get_or_compute_threshold in Hthr. apply bind_ok in Hthr as (? & ? & [= <- <-] & Hthr).
    destruct (el_threshold_cache e !! p) as [t|] eqn:Ht; [injection Hthr as <- _; by apply Hcache|].
    rewrite Hinfo in Hthr. by injection Hthr as <- _. }
  unfold check_vrf_threshold in Hrun. case_bool_decide as Hlt; [|done].
  apply bind_ok in Hrun as (? & ? & _ & [= <- <- _]). done.
Qed.

(** The verifier's verdict.  A proposer is accepted exactly when it is registered,
    claims its score to within one percent, and presents the one proof and output
    that its registered key has for the slot, the output being below its threshold;
    in particular a won check of the candidate is always accepted by the verifier
    (when the candidate's cached threshold is up to date).  The verdict does not
    depend on whether the proposer is active or jailed. *)
Lemma proposer_verdict_exact e p slot claimed out pf :
  digest_32 →
  (verify_proposer e p slot claimed out pf = Ok tt ↔
   ∃ info, proposer_legit e p slot claimed out pf info)
  ∧ ∀ keys info proof e1,
      e.(el_validators) !! p = Some info → info.(vi_vrf_pubkey) = keys.(vk_public_key) →
      33 <= blen keys.(vk_public_key) →
      (∀ t, e.(el_threshold_cache) !! p = Some t → t = threshold_of e p info) →
      check_eligibility p slot keys e = (Ok (Some (out, proof)), e1) →
      verify_proposer e1 p slot (el_get_useful_work_score e1 p) out (VrfProof_to_bytes proof) = Ok tt.
Proof.
  intros Hd. split; [by apply verify_proposer_iff|].
  intros keys info proof e1 Hinfo Hpk Hk Hcache Hrun.
  pose proof (check_eligibility_core p slot keys e) as Hcore. rewrite Hrun in Hcore. cbn in Hcore.
  destruct (check_eligibility_won _ _ _ _ _ _ _ _ Hinfo Hk Hcache Hrun) as (_ & -> & -> & Hlt).
  apply verify_proposer_iff; [done|]. exists info. apply (same_core_legit e); [done|].
  assert (el_get_useful_work_score e1 p = el_get_useful_work_score e p) as ->.
  { injection Hcore as Hcfg _ _ _ Hsc _ Hep. unfold el_get_useful_work_score.
    by rewrite Hcfg, Hsc, Hep. }
  split; rewrite ?Hpk; try done.
  - unfold abs_diff. rewrite bool_decide_true by done. rewrite N.sub_diag. apply N.le_0_l.
  - rewrite take_ge; [done|]. unfold VrfProof_to_bytes.
    destruct (mock_proof_sized e.(el_vrf_engine) (pk_body keys.(vk_public_key)) (slot_message e slot) Hd)
      as (Hg & Hc & Hs). unfold slot_proof. rewrite !length_app, Hg, Hc, Hs. done.
Qed.
End spec.

(** ** Concrete elections *)
Lemma work_recorded_once_witness :
  @record_useful_work cn_build cn_env node_address 500 Medical PHybrid 10 dev_election
    = (Ok tt, worked_election)
  ∧ @record_useful_work cn_build cn_env node_address 70 Financial PZkProof 3
      (final (@set_current_epoch cn_build cn_env 1 worked_election))
    = (Err (flagged node_address), final (@set_current_epoch cn_build cn_env 1 worked_election)).
Proof.
  assert (@record_useful_work cn_build cn_env node_address 500 Medical PHybrid 10 dev_election
          = (Ok tt, worked_election)) as Hrun by (vm_compute; reflexivity).
  split; [exact Hrun|].
  apply (@work_recorded_once cn_build cn_env dev_election node_address 500 Medical PHybrid 10
           worked_election); [vm_compute; reflexivity|lia|vm_compute; reflexivity|exact Hrun|].
  apply rtc_once. exists (ElEpoch 1). split; [discriminate|reflexivity].
Defined.

Lemma election_totals_witness :
  dev_election.(el_total_stake) = map_sum vi_stake dev_election.(el_validators).
Proof.
  apply (@election_totals cn_build cn_env CnPoUWConfig_devnet).
  apply rtc_l with (final (@el_register_validator cn_build cn_env node_info
                             (PoUWElection_new CnPoUWConfig_devnet))).
  - exists (ElRegister node_info). vm_compute. split; [discriminate|]. split; [exact I|reflexivity].
  - apply rtc_once. exists (ElRegister peer_info).
    vm_compute. split; [discriminate|]. split; [exact I|reflexivity].
Defined.

Lemma recorded_work_not_weighed_witness :
  worked_election.(el_total_weighted_stake) < @weights cn_env worked_election.
Proof.
  assert (@record_useful_work cn_build cn_env node_address 500 Medical PHybrid 10 dev_election
          = (Ok tt, worked_election)) as Hrun by (vm_compute; reflexivity).
  destruct (@recorded_work_not_weighed cn_build cn_env dev_election node_address 500 Medical PHybrid
              10 worked_election Hrun) as (info & Hinfo & _ & Hshort);
    [vm_compute; discriminate|].
  vm_compute in Hinfo. injection Hinfo as <-.
  apply Hshort; vm_compute; reflexivity.
Defined.

Lemma proposer_verdict_exact_witness :
  @verify_proposer cn_env dev_election node_address 5 0
    (@slot_output cn_env dev_election node_keys.(vk_public_key) 5)
    (VrfProof_to_bytes (@slot_proof cn_env dev_election node_keys.(vk_public_key) 5)) = Ok tt.
Proof.
  apply (proj1 (@proposer_verdict_exact cn_build cn_env dev_election node_address 5 0
    (@slot_output cn_env dev_election node_keys.(vk_public_key) 5)
    (VrfProof_to_bytes (@slot_proof cn_env dev_election node_keys.(vk_public_key) 5)) cn_env_digest)).
  exists node_info. split; vm_compute; first [reflexivity | discriminate].
Defined.
