(* ===== verification/ChainSpec.v ===== *)
(** * What a validated block commits to

    The Merkle root of the compute results and the hash chain of headers: lists of
    results and chains that the engine accepts against the same root or tip are
    the same, or two inputs with the same SHA-256 hash are at hand.  And what a
    header must carry to be accepted, against the layout its documentation gives. *)
From S2P Require Import Prelude SysTypes F64 Precompile ConsensusTypes Vrf Election Consensus ConsensusSamples.
From stdpp Require Import base gmap list strings.
From Stdlib Require Import ZArith Lia.
#[local] Open Scope N_scope.

Section chain.
Context `{Build, ConsensusEnv}.

(** Two different inputs with the same hash. *)
Definition collision : Prop := ∃ x y, x ≠ y ∧ digest x = digest y.

Lemma digest_inj x y : digest x = digest y → x = y ∨ collision.
Proof. intros Heq. destruct (decide (x = y)); [by left|right]. by exists x, y. Qed.

(** ** Merkle roots *)
Lemma two_step_ind {A} (P : list A → Prop) :
  P [] → (∀ a, P [a]) → (∀ a b l, P l → P (a :: b :: l)) → ∀ l, P l.
Proof.
  intros Hnil Hone Htwo. fix IH 1. intros [|a [|b l]]; [exact Hnil|apply Hone|]. apply Htwo, IH.
Qed.

Lemma next_level_length l : length (next_level l) = Nat.div2 (S (length l)).
Proof. induction l as [|a|a b l IH] using two_step_ind; cbn; [done..|]. by rewrite IH. Qed.

Lemma next_level_32 l : digest_32 → Forall (λ h, length h = 32%nat) (next_level l).
Proof.
  intros Hd. induction l as [|a|a b l IH] using two_step_ind; cbn; repeat constructor; auto.
Qed.

Lemma app_eq_32 {A} (a b c d : list A) : length a = length c → a ++ b = c ++ d → a = c ∧ b = d.
Proof. intros Hl Heq. by apply app_inj_1. Qed.

(** A level determines the one below it. *)
Lemma next_level_inj l1 l2 :
  Forall (λ h, length h = 32%nat) l1 → Forall (λ h, length h = 32%nat) l2 →
  length l1 = length l2 → next_level l1 = next_level l2 → l1 = l2 ∨ collision.
Proof.
  revert l2. induction l1 as [|a|a b l IH] using two_step_ind; intros l2 H1 H2 Hlen Heq.
  - destruct l2; [by left|done].
  - destruct l2 as [|a' [|]]; try done. injection Heq as Heq.
    rewrite Forall_singleton in H1. rewrite Forall_singleton in H2.
    destruct (digest_inj _ _ Heq) as [Hab|]; [|by right].
    apply app_eq_32 in Hab as [-> _]; [by left|cbn in *; congruence].
  - destruct l2 as [|a' [|b' l']]; try done. injection Heq as Hd Heq. injection Hlen as Hlen.
    apply Forall_cons in H1 as [Ha H1]. apply Forall_cons in H1 as [Hb H1].
    apply Forall_cons in H2 as [Ha' H2]. apply Forall_cons in H2 as [Hb' H2].
    destruct (digest_inj _ _ Hd) as [Hab|]; [|by right].
    apply app_eq_32 in Hab as [-> ->]; [|cbn in *; congruence].
    destruct (IH l' H1 H2 Hlen Heq) as [->|]; [by left|by right].
Qed.

Lemma merkle_loop_inj fuel l1 l2 root :
  digest_32 → Forall (λ h, length h = 32%nat) l1 → Forall (λ h, length h = 32%nat) l2 →
  length l1 = length l2 → merkle_loop fuel l1 = Ok root → merkle_loop fuel l2 = Ok root →
  l1 = l2 ∨ collision.
Proof.
  intros Hd. revert l1 l2. induction fuel as [|fuel IH]; intros l1 l2 H1 H2 Hlen Hr1 Hr2.
  - destruct l1 as [|a [|]], l2 as [|a' [|]]; cbn in *; try done. left. congruence.
  - destruct l1 as [|a [|b l1]], l2 as [|a' [|b' l2]]; try done; [left; cbn in *; congruence|].
    assert (length (next_level (a :: b :: l1)) = length (next_level (a' :: b' :: l2))) as Hn
      by (rewrite !next_level_length, Hlen; done).
    destruct (IH _ _ (next_level_32 _ Hd) (next_level_32 _ Hd) Hn Hr1 Hr2) as [Hl|]; [|by right].
    by apply next_level_inj.
Qed.

(** Enough rounds: every list of hashes has a root. *)
Lemma merkle_loop_total fuel l :
  (0 < length l <= fuel)%nat → ∃ root, merkle_loop fuel l = Ok root.
Proof.
  revert l. induction fuel as [|fuel IH]; intros l Hl; [lia|].
  destruct l as [|a [|b l]]; [cbn in Hl; lia|by eexists|]. apply IH.
  rewrite next_level_length. cbn [length] in *. split; [cbn; lia|].
  pose proof (Nat.div2_decr (length l) (length l) ltac:(lia)) as Hd. cbn -[Nat.div2] in *.
  change (Nat.div2 (S (S (S (length l))))) with (S (Nat.div2 (S (length l)))).
  pose proof (Nat.le_div2 (length l)). lia.
Qed.

(** The fields the leaf of a result commits to. *)
Definition committed (r : ComputeResult) : Hash * Hash * N * TraitVerificationMethod :=
  (r.(cr_job_id), r.(cr_output_hash), r.(cr_complexity), r.(cr_verification_method)).

(** The widths of the fields. *)
Definition result_wf (r : ComputeResult) : Prop :=
  length r.(cr_job_id) = 32%nat ∧ length r.(cr_output_hash) = 32%nat ∧ r.(cr_complexity) <= U64_MAX.

Lemma leaf_preimage_inj r1 r2 :
  result_wf r1 → result_wf r2 → leaf_preimage r1 = leaf_preimage r2 → committed r1 = committed r2.
Proof.
  intros (Hj1 & Ho1 & Hc1) (Hj2 & Ho2 & Hc2) Heq. unfold leaf_preimage in Heq.
  apply app_eq_32 in Heq as [Hj Heq]; [|congruence].
  apply app_eq_32 in Heq as [Ho Heq]; [|congruence].
  apply app_eq_32 in Heq as [Hc Hm]; [|by rewrite !length_to_le_bytes].
  apply to_le_bytes_inj in Hc; [|cbn; lia..].
  unfold committed. rewrite Hj, Ho, Hc. f_equal.
  destruct (cr_verification_method r1), (cr_verification_method r2); try done.
Qed.

Lemma leaves_inj rs1 rs2 :
  Forall result_wf rs1 → Forall result_wf rs2 →
  (λ r, digest (leaf_preimage r)) <$> rs1 = (λ r, digest (leaf_preimage r)) <$> rs2 →
  committed <$> rs1 = committed <$> rs2 ∨ collision.
Proof.
  revert rs2. induction rs1 as [|r1 rs1 IH]; intros [|r2 rs2] H1 H2 Heq; try done; [by left|].
  apply Forall_cons in H1 as [Hr1 H1]. apply Forall_cons in H2 as [Hr2 H2].
  cbn in Heq. injection Heq as Hh Heq.
  destruct (digest_inj _ _ Hh) as [Hl|]; [|by right].
  destruct (IH rs2 H1 H2 Heq) as [Hrs|]; [|by right]. left.
  cbn. by rewrite Hrs, (leaf_preimage_inj r1 r2).
Qed.

Lemma leaves_32 (rs : list ComputeResult) :
  digest_32 → Forall (λ h, length h = 32%nat) ((λ r, digest (leaf_preimage r)) <$> rs).
Proof. intros Hd. apply Forall_fmap, Forall_true. intros r. apply Hd. Qed.

(** What the validation of a block's results has checked. *)
Lemma validate_compute_results_ok c h rs :
  validate_compute_results c h rs = Ok tt →
  N.of_nat (length rs) = h.(hd_compute_job_count)
  ∧ compute_results_merkle_root rs = Ok h.(hd_compute_results_root)
  ∧ validate_each c rs = Ok tt.
Proof.
  unfold validate_compute_results. intros Hv. rewrite reject_ok in Hv. destruct Hv as [Hn Hv].
  apply obind_ok in Hv as (total & _ & Hv). rewrite reject_ok in Hv. destruct Hv as [_ Hv].
  apply obind_ok in Hv as (root & Hroot & Hv). rewrite reject_ok in Hv. destruct Hv as [Hr Hv].
  bool_facts. subst root. done.
Qed.

(** A block commits to its results.  The root of any list of results is computed
    without failure, and if two lists of results (even by two nodes) pass validation
    against the same header, they agree, in order, on every job, output, complexity
    and method, unless two inputs with the same SHA-256 hash are at hand: the
    duplicated last hash of odd levels does no harm because the header also fixes
    the number of results. *)
Lemma results_bound_by_header c1 c2 h rs1 rs2 :
  digest_32 → Forall result_wf rs1 → Forall result_wf rs2 →
  (∀ rs, ∃ root, compute_results_merkle_root rs = Ok root)
  ∧ (validate_compute_results c1 h rs1 = Ok tt → validate_compute_results c2 h rs2 = Ok tt →
     committed <$> rs1 = committed <$> rs2 ∨ collision).
Proof.
  intros Hd H1 H2. split.
  - intros rs. unfold compute_results_merkle_root. case_bool_decide as Hn; [by eexists|].
    apply merkle_loop_total. rewrite length_fmap. lia.
  - intros (Hn1 & Hr1 & _)%validate_compute_results_ok (Hn2 & Hr2 & _)%validate_compute_results_ok.
    assert (length rs1 = length rs2) as Hlen by lia.
    unfold compute_results_merkle_root in *. rewrite <- Hlen in Hr2.
    case_bool_decide as Hz; [left; by destruct rs1, rs2|].
    destruct (merkle_loop_inj _ _ _ _ Hd (leaves_32 rs1 Hd) (leaves_32 rs2 Hd)
                ltac:(by rewrite !length_fmap) Hr1 Hr2) as [Hl|]; [|by right].
    by apply leaves_inj.
Qed.

(** ** The chain of headers *)

(** The widths of the header's fields. *)
Record header_wf (h : PoUWBlockHeader) : Prop := {
  hw_hashes : Forall (λ x, length x = 32%nat)
    [h.(hd_parent_hash); h.(hd_proposer_address); h.(hd_state_root); h.(hd_transactions_root);
     h.(hd_receipts_root); h.(hd_compute_results_root); h.(hd_last_justified_hash)];
  hw_u64 : Forall (λ x, x <= U64_MAX)
    [h.(hd_height); h.(hd_slot); h.(hd_epoch); h.(hd_timestamp); h.(hd_compute_complexity);
     h.(hd_proposer_useful_work_score); h.(hd_last_finalized_slot)];
  hw_u32 : h.(hd_compute_job_count) <= U32_MAX;
  hw_u128 : h.(hd_proposer_stake) <= U128_MAX;
}.

(** A header without its signature. *)
Definition unsigned (h : PoUWBlockHeader) : PoUWBlockHeader := {|
  hd_parent_hash := h.(hd_parent_hash); hd_height := h.(hd_height); hd_slot := h.(hd_slot);
  hd_epoch := h.(hd_epoch); hd_proposer_address := h.(hd_proposer_address);
  hd_state_root := h.(hd_state_root); hd_transactions_root := h.(hd_transactions_root);
  hd_receipts_root := h.(hd_receipts_root); hd_timestamp := h.(hd_timestamp);
  hd_vrf_proof := h.(hd_vrf_proof); hd_compute_results_root := h.(hd_compute_results_root);
  hd_compute_job_count := h.(hd_compute_job_count);
  hd_compute_complexity := h.(hd_compute_complexity);
  hd_proposer_useful_work_score := h.(hd_proposer_useful_work_score);
  hd_proposer_stake := h.(hd_proposer_stake); hd_last_justified_hash := h.(hd_last_justified_hash);
  hd_last_finalized_slot := h.(hd_last_finalized_slot); hd_signature := [] |}.

Lemma app_eq_tail {A} (a b c d : list A) : length b = length d → a ++ b = c ++ d → a = c ∧ b = d.
Proof. intros Hl Heq. by apply app_inj_2. Qed.

(** The hashed bytes determine every field but the signature: the VRF proof is the
    only part of variable length. *)
Lemma header_preimage_inj h1 h2 :
  header_wf h1 → header_wf h2 → header_preimage h1 = header_preimage h2 →
  unsigned h1 = unsigned h2.
Proof.
  intros [Hh1 Hn1 Hc1 Hs1] [Hh2 Hn2 Hc2 Hs2] Heq.
  rewrite !Forall_cons in Hh1. rewrite !Forall_cons in Hh2. rewrite !Forall_cons in Hn1.
  rewrite !Forall_cons in Hn2. destruct_and!.
  unfold header_preimage in Heq.
  do 9 (apply app_eq_32 in Heq as [? Heq]; [|rewrite ?length_to_le_bytes; congruence]).
  apply app_eq_tail in Heq as [? Heq];
    [|rewrite !length_app, ?length_to_le_bytes; congruence].
  do 6 (apply app_eq_32 in Heq as [? Heq]; [|rewrite ?length_to_le_bytes; congruence]).
  repeat match goal with
  | Hx : to_le_bytes _ _ = to_le_bytes _ _ |- _ => apply to_le_bytes_inj in Hx; [|cbn; lia..]
  end.
  unfold unsigned. f_equal; (assumption || reflexivity).
Qed.

(** Chains of headers, newest first: each accepted on top of its parent, by a node
    in some state. *)
Inductive valid_chain : list PoUWBlockHeader → Prop :=
| chain_genesis timestamp : valid_chain [PoUWBlockHeader_genesis timestamp]
| chain_block c h parent rest :
    valid_chain (parent :: rest) → header_checks c h parent = Ok tt →
    valid_chain (h :: parent :: rest).

Lemma header_checks_link c h parent :
  header_checks c h parent = Ok tt →
  h.(hd_parent_hash) = header_hash parent
  ∧ u_add (E := ConsensusError) U64_MAX parent.(hd_height) 1 = Ok h.(hd_height)
  ∧ parent.(hd_slot) < h.(hd_slot).
Proof.
  unfold header_checks. intros Hv. apply obind_ok in Hv as ([] & _ & Hv).
  apply reject_ok in Hv as [Hp Hv]. apply obind_ok in Hv as (height & Hh & Hv).
  apply reject_ok in Hv as [Hheight Hv]. apply reject_ok in Hv as [Hslot _].
  bool_facts. subst height. split_and!; [done|done|lia].
Qed.

Lemma chain_heights h l :
  valid_chain (h :: l) → N.of_nat (length l) <= U64_MAX → h.(hd_height) = N.of_nat (length l).
Proof.
  revert h. induction l as [|p l IH]; intros h Hc Hlen; inversion Hc as [|? ? ? ? Hrest Hv]; [done|].
  subst. apply header_checks_link in Hv as (_ & Hh & _). cbn [length] in *.
  rewrite (IH p Hrest) in Hh by lia. rewrite u_add_ok in Hh by lia. injection Hh as <-. lia.
Qed.

(** C24: a tip fixes its chain.  In a chain of headers each accepted on top of its
    parent, heights count the blocks and slots strictly increase; and two such
    chains whose tips have the same hash are the same chain, field by field except
    for the signatures, unless two inputs with the same SHA-256 hash are at hand. *)
Theorem tip_fixes_chain h1 l1 h2 l2 :
  valid_chain (h1 :: l1) → valid_chain (h2 :: l2) →
  Forall header_wf (h1 :: l1) → Forall header_wf (h2 :: l2) →
  N.of_nat (length l1) <= U64_MAX → N.of_nat (length l2) <= U64_MAX →
  h1.(hd_height) = N.of_nat (length l1)
  ∧ (∀ i j a b, (i < j)%nat → (h1 :: l1) !! i = Some a → (h1 :: l1) !! j = Some b →
       b.(hd_slot) < a.(hd_slot))
  ∧ (header_hash h1 = header_hash h2 →
     unsigned <$> (h1 :: l1) = unsigned <$> (h2 :: l2) ∨ collision).
Proof.
  intros Hc1 Hc2 Hw1 Hw2 Hn1 Hn2. split_and!; [by apply chain_heights| |].
  - clear -Hc1. revert h1 Hc1. induction l1 as [|p l1 IH]; intros h1 Hc1 i j a b Hij Hi Hj.
    { destruct j as [|j]; [lia|done]. }
    inversion Hc1 as [|? ? ? ? Hrest Hv]; subst.
    apply header_checks_link in Hv as (_ & _ & Hslot). destruct j as [|j]; [lia|].
    destruct i as [|i]; [|by apply (IH p Hrest i j a b); [lia|..]].
    injection Hi as <-. destruct j as [|j]; [by injection Hj as <-|].
    pose proof (IH p Hrest 0%nat (S j) p b ltac:(lia) eq_refl Hj). lia.
  - revert h2 l2 Hc2 Hw2 Hn2 h1 Hc1 Hw1.
    induction l1 as [|p1 l1 IH]; intros h2 l2 Hc2 Hw2 Hn2 h1 Hc1 Hw1 Heq;
      (destruct (digest_inj _ _ Heq) as [Hpre|]; [|by right]);
      pose proof (chain_heights _ _ Hc1 Hn1) as Hh1; pose proof (chain_heights _ _ Hc2 Hn2) as Hh2;
      apply Forall_cons in Hw1 as [Hw1 Hws1]; apply Forall_cons in Hw2 as [Hw2 Hws2];
      pose proof (header_preimage_inj h1 h2 Hw1 Hw2 Hpre) as Hu;
      assert (hd_height h1 = hd_height h2) as Hheight by (by injection Hu);
      assert (hd_parent_hash h1 = hd_parent_hash h2) as Hparent by (by injection Hu).
    + destruct l2 as [|p2 l2]; [|cbn in *; lia]. left. cbn. by rewrite Hu.
    + destruct l2 as [|p2 l2]; [cbn in *; lia|].
      inversion Hc1 as [|? ? ? ? Hr1 Hv1]; inversion Hc2 as [|? ? ? ? Hr2 Hv2]; subst.
      apply header_checks_link in Hv1 as (Hp1 & _). apply header_checks_link in Hv2 as (Hp2 & _).
      cbn [length] in Hn1, Hn2.
      destruct (IH ltac:(lia) p2 l2 Hr2 Hws2 ltac:(lia) p1 Hr1 Hws1 ltac:(congruence)) as [Hl|];
        [|by right].
      left. cbn in *. by rewrite Hu, Hl.
Qed.

(** ** What a header must carry *)

(** The message, proof and output a validator has for a slot. *)
Definition vrf_message (c : PoUWConsensus) (slot : Slot) : bytes :=
  compute_vrf_input slot c.(pc_state).(ps_epoch_seed).
Definition leader_proof (c : PoUWConsensus) (pk : bytes) (slot : Slot) : VrfProof :=
  mock_proof c.(pc_vrf_engine) (pk_body pk) (vrf_message c slot).
Definition leader_output (c : PoUWConsensus) (pk : bytes) (slot : Slot) : VrfOutput :=
  mock_output c.(pc_vrf_engine) (pk_body pk) (vrf_message c slot).

Lemma parse_vrf_proof_ok bs p : parse_vrf_proof bs = Ok p ↔ VrfProof_from_bytes bs = Ok p.
Proof.
  unfold parse_vrf_proof. split; [|by intros ->].
  destruct (VrfProof_from_bytes bs) as [q|[]| |]; done.
Qed.

Lemma find_validator_ok c a v :
  find_validator c a = Ok v ↔ c.(pc_state).(ps_validators) !! a = Some v.
Proof. unfold find_validator. destruct (_ !! _); naive_solver. Qed.

Lemma validate_vrf_proof_iff c h :
  digest_32 → is_genesis h = false →
  validate_vrf_proof c h = Ok tt ↔
  100 <= blen h.(hd_vrf_proof)
  ∧ ∃ v, c.(pc_state).(ps_validators) !! h.(hd_proposer_address) = Some v
    ∧ 33 <= blen v.(vi_vrf_pubkey)
    ∧ take 97 h.(hd_vrf_proof) = VrfProof_to_bytes (leader_proof c v.(vi_vrf_pubkey) h.(hd_slot))
    ∧ wins c v.(vi_stake) (ps_score c.(pc_state) h.(hd_proposer_address))
        (leader_output c v.(vi_vrf_pubkey) h.(hd_slot)) = true.
Proof.
  intros Hd Hg. unfold validate_vrf_proof. rewrite Hg. split.
  - intros Hv. apply reject_ok in Hv as [Hlen Hv]. bool_facts. split; [lia|].
    apply obind_ok in Hv as (v & Hfind & Hv). apply find_validator_ok in Hfind.
    apply obind_ok in Hv as (p & Hp & Hv). apply parse_vrf_proof_ok in Hp.
    apply obind_ok in Hv as (out & Hver & Hv). apply vrf_verify_iff in Hver as (Hk & -> & ->).
    apply reject_ok in Hv as [Hw _]. apply negb_false_iff in Hw.
    apply proof_from_bytes_iff in Hp as [_ Hp]. eauto 10.
  - intros (Hlen & v & Hfind & Hk & Hp & Hw).
    apply reject_ok. split; [apply bool_decide_eq_false; lia|].
    apply obind_ok. exists v. split; [by apply find_validator_ok|].
    apply obind_ok. exists (leader_proof c v.(vi_vrf_pubkey) h.(hd_slot)). split.
    { apply parse_vrf_proof_ok, proof_from_bytes_iff. split; [by apply mock_proof_sized|done]. }
    apply obind_ok. exists (leader_output c v.(vi_vrf_pubkey) h.(hd_slot)).
    split; [by apply vrf_verify_iff|]. apply reject_ok. by rewrite Hw.
Qed.

(** What the acceptance of a header says of its proposer. *)
Record header_legit (c : PoUWConsensus) (h : PoUWBlockHeader) (v : ValidatorInfo) : Prop := {
  hl_registered : c.(pc_state).(ps_validators) !! h.(hd_proposer_address) = Some v;
  hl_eligible : is_eligible v h.(hd_slot) = true;
  hl_stake : h.(hd_proposer_stake) = v.(vi_stake);
  hl_score : abs_diff h.(hd_proposer_useful_work_score)
      (ps_score c.(pc_state) h.(hd_proposer_address))
    <= ps_score c.(pc_state) h.(hd_proposer_address) / 100;
  hl_proof : take 97 h.(hd_vrf_proof)
    = VrfProof_to_bytes (leader_proof c v.(vi_vrf_pubkey) h.(hd_slot));
  hl_threshold : to_bigint (leader_output c v.(vi_vrf_pubkey) h.(hd_slot))
    < calculate_threshold c.(pc_election).(el_config) v.(vi_stake)
        (ps_score c.(pc_state) h.(hd_proposer_address)) c.(pc_state).(ps_total_weighted_stake);
  hl_finalized : h.(hd_last_finalized_slot) <= h.(hd_slot);
}.

Lemma child_not_genesis c h parent :
  header_checks c h parent = Ok tt → parent.(hd_height) < U64_MAX → is_genesis h = false.
Proof.
  intros (_ & Hh & _)%header_checks_link Hlt. rewrite u_add_ok in Hh by lia. injection Hh as Hh.
  unfold is_genesis. rewrite bool_decide_false by lia. done.
Qed.

(** C23: an accepted header has a legitimate proposer.  A header accepted on top of a
    parent links to it by hash, height and slot, stays within the configured clock
    drift, carries the epoch of its slot at the default epoch length, and its
    proposer is registered and eligible in that slot, with exactly the stake and
    (to one percent) the score it states, the one proof its key has for the slot,
    and an output below its threshold. *)
Theorem accepted_header_legit c h parent :
  digest_32 → header_checks c h parent = Ok tt → parent.(hd_height) < U64_MAX →
  h.(hd_parent_hash) = header_hash parent
  ∧ h.(hd_height) = parent.(hd_height) + 1 ∧ parent.(hd_slot) < h.(hd_slot)
  ∧ h.(hd_epoch) = h.(hd_slot) / DEFAULT_SLOTS_PER_EPOCH
  ∧ (∃ t, timestamp_for_slot (E := ConsensusError) c.(pc_timing) h.(hd_slot) = Ok t
       ∧ abs_diff h.(hd_timestamp) t <= c.(pc_config).(cc_max_clock_drift_secs))
  ∧ ∃ v, header_legit c h v.
Proof.
  intros Hd Hv Hmax. pose proof (child_not_genesis _ _ _ Hv Hmax) as Hg.
  pose proof (header_checks_link _ _ _ Hv) as (Hparent & Hheight & Hslot).
  rewrite u_add_ok in Hheight by lia. injection Hheight as Hheight.
  unfold header_checks in Hv. apply obind_ok in Hv as ([] & Hs & Hv).
  apply reject_ok in Hv as [_ Hv]. apply obind_ok in Hv as (? & _ & Hv).
  apply reject_ok in Hv as [_ Hv]. apply reject_ok in Hv as [_ Hv].
  apply obind_ok in Hv as (t & Ht & Hv). apply reject_ok in Hv as [Hdrift Hv].
  apply obind_ok in Hv as ([] & Hvrf & Hv). apply obind_ok in Hv as ([] & Hprop & Hv).
  apply reject_ok in Hv as [Hfin _].
  apply validate_vrf_proof_iff in Hvrf as (_ & v & Hfind & _ & Hproof & Hw); [|done..].
  unfold validate_proposer in Hprop. rewrite Hg in Hprop.
  apply obind_ok in Hprop as (v' & Hf & Hprop). apply find_validator_ok in Hf.
  rewrite Hfind in Hf. injection Hf as <-.
  apply reject_ok in Hprop as [Hel Hprop]. apply reject_ok in Hprop as [Hscore Hprop].
  apply reject_ok in Hprop as [Hstake _].
  unfold score_mismatch, wins in *. bool_facts.
  split_and!; [done|done|done| |exists t; split; [done|lia]|exists v; split; try done; lia].
  unfold structure_ok in Hs. destruct (validate_structure h) as [u| | |] eqn:Hst; try done.
  unfold validate_structure in Hst. rewrite Hg in Hst. destruct u.
  apply reject_ok in Hst as [_ Hst]. apply reject_ok in Hst as [_ Hst].
  apply reject_ok in Hst as [Hep _]. rewrite andb_true_r in Hep.
  by apply negb_false_iff, bool_decide_eq_true in Hep.
Qed.

Lemma shifted_layout (out g c s : bytes) :
  length out = 32%nat → length g = 32%nat → length c = 32%nat →
  take 97 (out ++ (2 :: g) ++ c ++ s) = (2 :: g) ++ c ++ s → g = c.
Proof.
  intros Lo Lg Lc Heq.
  change (out ++ (2 :: g) ++ c ++ s) with (out ++ [2] ++ (g ++ (c ++ s))) in Heq.
  rewrite (app_assoc out), take_app, take_ge, length_app, Lo in Heq
    by (rewrite length_app, Lo; cbn; lia).
  apply app_eq_32 in Heq as [_ Heq]; [|rewrite length_app, Lo; cbn; by rewrite Lg].
  rewrite take_app, take_ge in Heq by (cbn; lia). apply app_eq_32 in Heq as [-> _]; [done|congruence].
Qed.

(** The documented proof layout is refused.  The header's documentation and
    [vrf_proof_bytes] put the 32-byte output before the proof, but validation reads
    the proof from the first byte: a header with the bytes of its proposer's own
    credentials is refused in every state (or yields two inputs with the same
    SHA-256 hash), whereas the bare proof followed by any three or more bytes is
    accepted whenever the output wins, so that one proof has many valid headers. *)
Lemma documented_layout_refused c h v cr :
  digest_32 → is_genesis h = false →
  c.(pc_state).(ps_validators) !! h.(hd_proposer_address) = Some v →
  33 <= blen v.(vi_vrf_pubkey) →
  cr.(lc_vrf_proof) = leader_proof c v.(vi_vrf_pubkey) h.(hd_slot) →
  cr.(lc_vrf_output) = leader_output c v.(vi_vrf_pubkey) h.(hd_slot) →
  (h.(hd_vrf_proof) = vrf_proof_bytes cr → validate_vrf_proof c h ≠ Ok tt ∨ collision)
  ∧ ∀ rest, 3 <= blen rest → h.(hd_vrf_proof) = VrfProof_to_bytes cr.(lc_vrf_proof) ++ rest →
      (validate_vrf_proof c h = Ok tt ↔
       wins c v.(vi_stake) (ps_score c.(pc_state) h.(hd_proposer_address)) cr.(lc_vrf_output) = true).
Proof.
  intros Hd Hg Hv Hk Hp Ho.
  destruct (mock_proof_sized c.(pc_vrf_engine) (pk_body v.(vi_vrf_pubkey)) (vrf_message c h.(hd_slot)) Hd)
    as (Lg & Lc & Ls).
  split.
  - intros Hbytes. destruct (validate_vrf_proof c h) as [[]|x| |] eqn:Hval; [|by left..]. right.
    apply validate_vrf_proof_iff in Hval as (_ & v' & Hv' & _ & Htake & _); [|done..].
    rewrite Hv in Hv'. injection Hv' as <-. rewrite Hbytes in Htake.
    unfold vrf_proof_bytes in Htake. rewrite Hp, Ho in Htake.
    unfold leader_proof, leader_output, VrfProof_to_bytes, mock_proof in Htake. cbn in Lg, Lc, Ls.
    cbn [vp_gamma vp_c vp_s] in Htake.
    set (m := vrf_message c (hd_slot h)) in *. set (pk := pk_body (vi_vrf_pubkey v)) in *.
    set (e := pc_vrf_engine c) in *.
    assert (mock_hash "mock-vrf-gamma:" e pk m = mock_hash "mock-vrf-c:" e pk m) as Hcol.
    { exact (shifted_layout _ _ _ _ (Hd _) (Hd _) (Hd _) Htake). }
    eexists _, _; split; [|exact Hcol]. discriminate.
  - intros rest Hrest Hbytes. rewrite validate_vrf_proof_iff by done. rewrite Hbytes, Hp, Ho.
    fold (leader_proof c v.(vi_vrf_pubkey) h.(hd_slot)) in Lg, Lc, Ls.
    assert (length (VrfProof_to_bytes (leader_proof c v.(vi_vrf_pubkey) h.(hd_slot))) = 97%nat) as L.
    { unfold VrfProof_to_bytes. by rewrite !length_app, Lg, Lc, Ls. }
    split.
    + intros (_ & v' & Hv' & _ & _ & Hw). rewrite Hv in Hv'. by injection Hv' as <-.
    + intros Hw. rewrite blen_app, (blen_nat _ _ L). split; [lia|].
      exists v. split_and!; [done|done| |done]. rewrite take_app_le, take_ge by lia. done.
Qed.
End chain.

(** ** Concrete blocks *)
Lemma results_bound_by_header_witness :
  committed <$> [dev_result 2] = committed <$> [dev_result 5] ∨ @collision cn_env.
Proof.
  apply (@results_bound_by_header cn_build cn_env dev_consensus dev_consensus padded_block).
  - exact cn_env_digest.
  - repeat constructor. vm_compute. discriminate.
  - repeat constructor. vm_compute. discriminate.
  - vm_compute. reflexivity.
  - vm_compute. reflexivity.
Defined.

Lemma padded_block_wf : header_wf padded_block.
Proof.
  split; repeat (apply Forall_cons; split); try apply Forall_nil;
    try (vm_compute; first [reflexivity | discriminate | exact I]).
Qed.

Lemma genesis_wf_header : header_wf (PoUWBlockHeader_genesis 0).
Proof.
  split; repeat (apply Forall_cons; split); try apply Forall_nil;
    try (vm_compute; first [reflexivity | discriminate | exact I]).
Qed.

Lemma padded_block_accepted :
  @header_checks cn_build cn_env dev_consensus padded_block (PoUWBlockHeader_genesis 0) = Ok tt.
Proof. vm_compute. reflexivity. Qed.

Lemma tip_fixes_chain_witness :
  padded_block.(hd_height) = 1
  ∧ (PoUWBlockHeader_genesis 0).(hd_slot) < padded_block.(hd_slot).
Proof.
  assert (@valid_chain cn_build cn_env [padded_block; PoUWBlockHeader_genesis 0]) as Hc.
  { eapply chain_block; [apply chain_genesis|exact padded_block_accepted]. }
  assert (Forall header_wf [padded_block; PoUWBlockHeader_genesis 0]) as Hw.
  { apply Forall_cons; split; [apply padded_block_wf|].
    apply Forall_cons; split; [apply genesis_wf_header|by apply Forall_nil]. }
  destruct (@tip_fixes_chain cn_build cn_env padded_block [PoUWBlockHeader_genesis 0] padded_block
              [PoUWBlockHeader_genesis 0] Hc Hc Hw Hw) as (Hh & Hs & _);
    [vm_compute; discriminate..|].
  split; [exact Hh|]. apply (Hs 0%nat 1%nat); [lia|reflexivity|reflexivity].
Defined.

Lemma accepted_header_legit_witness :
  ∃ v, @header_legit cn_env dev_consensus padded_block v.
Proof.
  destruct (@accepted_header_legit cn_build cn_env dev_consensus padded_block
              (PoUWBlockHeader_genesis 0) cn_env_digest padded_block_accepted)
    as (_ & _ & _ & _ & _ & Hv); [vm_compute; reflexivity|exact Hv].
Defined.

Lemma documented_layout_refused_witness :
  @validate_vrf_proof cn_env dev_consensus documented_block ≠ Ok tt ∨ @collision cn_env.
Proof.
  apply (@documented_layout_refused cn_env dev_consensus documented_block node_info dev_credentials
           cn_env_digest); vm_compute; first [reflexivity | discriminate].
Defined.
