(* ===== verification/ConsensusSpec.v ===== *)
(** * What the consensus engine guarantees

    The active set after every change of the validators, agreement of all the ways
    to decide who leads a slot, and what an outsider can forge: with the VRF that
    is compiled in, the credentials of every validator, and with the verification
    engine as it is set up, evidence of useful work. *)
From S2P Require Import Prelude SysTypes F64 Precompile ConsensusTypes Vrf Election Consensus ConsensusSamples ChainSpec.
From stdpp Require Import base gmap list strings sorting.
From Stdlib Require Import ZArith Lia SpecFloat Sorted.
#[local] Open Scope N_scope.

Section spec.
Context `{Build, ConsensusEnv}.

(** ** The active set *)
Definition eligible_addresses (s : PoUWState) : list Address :=
  (filter (λ av, is_eligible av.2 s.(ps_current_slot) = true) (map_to_list s.(ps_validators))).*1.

(** The totals fit their type. *)
Definition totals_fit (s : PoUWState) : Prop :=
  sum_of (ps_get_stake s) (eligible_addresses s) <= U128_MAX
  ∧ sum_of (ps_weight s) (eligible_addresses s) <= U128_MAX.

Record active_exact (s : PoUWState) : Prop := {
  ae_members : ∀ a, a ∈ s.(ps_active_validators) ↔
    ∃ v, s.(ps_validators) !! a = Some v ∧ is_eligible v s.(ps_current_slot) = true;
  ae_nodup : NoDup s.(ps_active_validators);
  ae_sorted : StronglySorted (heavier s) s.(ps_active_validators);
  ae_stake : s.(ps_total_stake) = sum_of (ps_get_stake s) s.(ps_active_validators);
  ae_weight : s.(ps_total_weighted_stake) = sum_of (ps_weight s) s.(ps_active_validators);
}.

Lemma eligible_addresses_spec s a :
  a ∈ eligible_addresses s ↔
  ∃ v, s.(ps_validators) !! a = Some v ∧ is_eligible v s.(ps_current_slot) = true.
Proof.
  unfold eligible_addresses. rewrite list_elem_of_fmap. split.
  - intros ([b v] & -> & Hin). apply list_elem_of_filter in Hin as [He Hin].
    apply elem_of_map_to_list in Hin. eauto.
  - intros (v & Hv & He). exists (a, v). split; [done|]. apply list_elem_of_filter.
    split; [done|]. by apply elem_of_map_to_list.
Qed.

Lemma eligible_addresses_nodup s : NoDup (eligible_addresses s).
Proof.
  unfold eligible_addresses. eapply sublist_NoDup; [apply (NoDup_fst_map_to_list s.(ps_validators))|].
  apply fmap_sublist, sublist_filter.
Qed.

#[local] Instance heavier_total s : Total (heavier s).
Proof. intros a b. unfold heavier. lia. Qed.
#[local] Instance heavier_trans s : Transitive (heavier s).
Proof. intros a b c. unfold heavier. lia. Qed.

(** The accumulation loop. *)
Definition tally (s : PoUWState) (active : list Address) (addr : Address) : StateM unit :=
  match s.(ps_validators) !! addr with
  | None => mret tt
  | Some v =>
      t ← get;
      stake ← lift (u_add U128_MAX t.(ps_total_stake) v.(vi_stake));
      modify (λ t, ps_with_active active stake t.(ps_total_weighted_stake) t) ;;
      weighted ← lift (u_add U128_MAX t.(ps_total_weighted_stake)
                         (ps_weighted_stake v.(vi_stake) (ps_score s addr)));
      modify (λ t, ps_with_active active t.(ps_total_stake) weighted t)
  end.

Lemma tally_all s active l stake weight :
  stake + sum_of (ps_get_stake s) l <= U128_MAX → weight + sum_of (ps_weight s) l <= U128_MAX →
  for_each l (tally s active) (ps_with_active active stake weight s)
  = (Ok tt, ps_with_active active (stake + sum_of (ps_get_stake s) l)
              (weight + sum_of (ps_weight s) l) s).
Proof.
  revert stake weight. induction l as [|a l IH]; intros stake weight Hs Hw.
  { cbn. by rewrite !N.add_0_r. }
  cbn in Hs, Hw. fold (sum_of (ps_get_stake s) l) (sum_of (ps_weight s) l) in *.
  cbn [for_each]. apply bind_ok.
  exists tt, (ps_with_active active (stake + ps_get_stake s a) (weight + ps_weight s a) s). split.
  - unfold tally, ps_get_stake, ps_weight in *. destruct (ps_validators s !! a) as [v|]; cbn in *.
    + mstep. mstep_by ltac:(apply u_add_ok; cbn; lia). mstep.
      mstep_by ltac:(apply u_add_ok; cbn; lia). reflexivity.
    + rewrite !N.add_0_r. reflexivity.
  - rewrite IH by lia. do 2 f_equal; cbn; fold (sum_of (ps_get_stake s) l) (sum_of (ps_weight s) l); lia.
Qed.

Lemma recalculate_run s :
  totals_fit s →
  let active := merge_sort (heavier s) (eligible_addresses s) in
  recalculate_active_set s
  = (Ok tt, ps_with_active active (sum_of (ps_get_stake s) active) (sum_of (ps_weight s) active) s).
Proof.
  intros [Hs Hw] active.
  assert (active ≡ₚ eligible_addresses s) as Hp by apply merge_sort_Permutation.
  rewrite <- (sum_of_perm _ _ _ Hp) in Hs. rewrite <- (sum_of_perm _ _ _ Hp) in Hw.
  apply (tally_all s active active 0 0 Hs Hw).
Qed.

Lemma recalculate_exact s :
  totals_fit s → ∃ s', recalculate_active_set s = (Ok tt, s') ∧ active_exact s'.
Proof.
  intros Hfit. eexists. split; [by apply recalculate_run|].
  set (active := merge_sort (heavier s) (eligible_addresses s)).
  assert (active ≡ₚ eligible_addresses s) as Hp by apply merge_sort_Permutation.
  split; cbn [ps_active_validators ps_with_active ps_total_stake ps_total_weighted_stake]; try done.
  - intros a. rewrite Hp. exact (eligible_addresses_spec s a).
  - rewrite Hp. apply eligible_addresses_nodup.
  - apply (StronglySorted_merge_sort (heavier s)).
Qed.

(** Recalculation reads the validators, the scores and the slot and keeps them. *)
Definition same_inputs : relation PoUWState := λ s s',
  s'.(ps_validators) = s.(ps_validators)
  ∧ s'.(ps_useful_work_scores) = s.(ps_useful_work_scores)
  ∧ s'.(ps_current_slot) = s.(ps_current_slot).

#[local] Instance same_inputs_preorder : PreOrder same_inputs.
Proof.
  split; [done|]. intros s1 s2 s3 (? & ? & ?) (? & ? & ?). unfold same_inputs. split_and!; congruence.
Qed.

Lemma recalculate_inputs : stable same_inputs recalculate_active_set.
Proof.
  unfold recalculate_active_set. stable_body; try (by apply stable_modify).
  apply stable_for_each; [apply _|]. intros addr. stable_body; by apply stable_modify.
Qed.

(** So a call that ends with it leaves an exact active set. *)
Lemma after_recalculation s s' u :
  recalculate_active_set s = (Ok u, s') → totals_fit s' → active_exact s'.
Proof.
  intros Hrun Hfit. pose proof (recalculate_inputs s) as Hin. rewrite Hrun in Hin.
  destruct Hin as (Hv & Hsc & Hslot). cbn in *.
  assert (totals_fit s) as Hs.
  { unfold totals_fit, eligible_addresses in *. rewrite <- Hv, <- Hslot.
    assert (ps_weight s = ps_weight s') as ->.
    { unfold ps_weight, ps_score. by rewrite Hv, Hsc. }
    assert (ps_get_stake s = ps_get_stake s') as ->; [|done]. unfold ps_get_stake. by rewrite Hv. }
  destruct (recalculate_exact s Hs) as (s2 & Hrun2 & Hex). congruence.
Qed.

(** The active set is exact.  After a validator is registered, a score is changed,
    an epoch begins or the results of a block are processed, the active set lists
    exactly the validators eligible in the current slot, each once, by weighted
    stake from the heaviest to the lightest, and the two totals are the sums over
    it (as long as the sums fit 128 bits; then recalculation never fails). *)
Lemma active_set_exact s :
  (totals_fit s → ∃ s', recalculate_active_set s = (Ok tt, s') ∧ active_exact s')
  ∧ (∀ info s', ps_register_validator info s = (Ok tt, s') → totals_fit s' → active_exact s')
  ∧ (∀ a delta s', ps_update_useful_work_score a delta s = (Ok tt, s') →
       totals_fit s' → active_exact s')
  ∧ (∀ slot timing epoch s', epoch_for_slot (E := ConsensusError) timing slot = Ok epoch →
       s.(ps_current_epoch) < epoch → ps_advance_slot slot timing s = (Ok tt, s') →
       totals_fit s' → active_exact s')
  ∧ (∀ c c' block results r, process_useful_work_results block results c = (Ok r, c') →
       totals_fit c'.(pc_state) → active_exact c'.(pc_state)).
Proof.
  split_and!; [apply recalculate_exact|..].
  - intros info s' Hrun Hfit. unfold ps_register_validator in Hrun.
    apply bind_ok in Hrun as (? & ? & _ & Hrun). apply bind_ok in Hrun as (? & ? & _ & Hrun).
    by eapply after_recalculation.
  - intros a delta s' Hrun Hfit. unfold ps_update_useful_work_score in Hrun.
    do 6 (apply bind_ok in Hrun as (? & ? & _ & Hrun)). by eapply after_recalculation.
  - intros slot timing epoch s' Hep Hlt Hrun Hfit. unfold ps_advance_slot in Hrun.
    apply bind_ok in Hrun as (? & s1 & [= <- <-] & Hrun).
    apply bind_ok in Hrun as (n & ? & Hn & Hrun). apply lift_ok in Hn as [Hn ->].
    rewrite Hep in Hn. injection Hn as <-.
    apply bind_ok in Hrun as (? & ? & [= <- <-] & Hrun). unfold when in Hrun.
    rewrite bool_decide_true in Hrun by done. unfold on_epoch_transition in Hrun.
    do 2 (apply bind_ok in Hrun as (? & ? & _ & Hrun)). by eapply after_recalculation.
  - intros c c' block results r Hrun Hfit. unfold process_useful_work_results in Hrun.
    apply bind_ok in Hrun as ([[total verified] updates] & ? & _ & Hrun).
    do 2 (apply bind_ok in Hrun as (? & ? & _ & Hrun)).
    apply bind_ok in Hrun as (? & c1 & Hre & [= _ <-]). unfold on_state in Hre.
    apply zoom_ok in Hre as (t & Ht & ->). by eapply after_recalculation.
Qed.

(** ** Leaders *)
Lemma same_score_accepted n : score_mismatch n n = false.
Proof.
  unfold score_mismatch, abs_diff. rewrite (bool_decide_true (n <= n)) by done.
  rewrite N.sub_diag. apply bool_decide_eq_false. intros Hlt. by apply N.nlt_0_r in Hlt.
Qed.

(** What [verify_credentials] makes of the proof the VRF has for a validator. *)
Lemma verify_credentials_run c cr v :
  c.(pc_state).(ps_validators) !! cr.(lc_address) = Some v → is_eligible v cr.(lc_slot) = true →
  33 <= blen v.(vi_vrf_pubkey) → cr.(lc_stake) = v.(vi_stake) →
  cr.(lc_useful_work_score) = ps_score c.(pc_state) cr.(lc_address) →
  cr.(lc_vrf_proof) = leader_proof c v.(vi_vrf_pubkey) cr.(lc_slot) →
  verify_credentials c cr
  = Ok (wins c v.(vi_stake) (ps_score c.(pc_state) cr.(lc_address))
          (leader_output c v.(vi_vrf_pubkey) cr.(lc_slot))).
Proof.
  intros Hv He Hk Hst Hsc Hp. unfold verify_credentials.
  rewrite (proj2 (find_validator_ok _ _ _) Hv). cbn [mbind outcome_bind]. rewrite He, Hst, Hsc.
  rewrite bool_decide_true by done. rewrite same_score_accepted. cbn [negb reject].
  rewrite (proj2 (vrf_verify_iff _ _ _ _ (leader_output c v.(vi_vrf_pubkey) cr.(lc_slot))));
    [done|by split_and!].
Qed.

(** All ways to decide a leader agree.  A node whose keys belong to an eligible
    validator produces credentials; they change nothing but a counter, and the
    node's own decision to propose, the verification of the credentials by a node
    in the same state, the check of the bare output and the check of the proof's
    bytes give the same answer: whether the output is below the threshold of the
    validator's stake and score. *)
Lemma leader_decisions_agree c keys v slot :
  let a := derive_address_from_keys keys in
  digest_32 → c.(pc_local_keys) = Some keys → c.(pc_state).(ps_validators) !! a = Some v →
  v.(vi_vrf_pubkey) = keys.(vk_public_key) → 33 <= blen keys.(vk_public_key) →
  is_eligible v slot = true →
  ∃ cr m, generate_credentials slot c = (Ok cr, pc_put_metrics m c)
  ∧ let b := wins c v.(vi_stake) (ps_score c.(pc_state) a) cr.(lc_vrf_output) in
    should_propose c slot = Ok b
    ∧ verify_credentials c cr = Ok b
    ∧ is_leader c slot a cr.(lc_vrf_output) = Ok b
    ∧ verify_leader_credentials c slot a (VrfProof_to_bytes cr.(lc_vrf_proof)) v.(vi_vrf_pubkey)
      = Ok b.
Proof.
  intros a Hd Hkeys Hv Hpk Hk He. pose proof (proj2 (find_validator_ok _ _ _) Hv) as Hfind.
  pose proof Hk as Hk'. rewrite <- Hpk in Hk'.
  eexists {| lc_slot := slot; lc_address := a;
             lc_vrf_proof := leader_proof c v.(vi_vrf_pubkey) slot;
             lc_vrf_output := leader_output c v.(vi_vrf_pubkey) slot;
             lc_stake := v.(vi_stake); lc_useful_work_score := ps_score c.(pc_state) a |}, _.
  cbn [lc_vrf_output lc_vrf_proof]. split_and!.
  - unfold generate_credentials. mstep. unfold local_keys. rewrite Hkeys. mstep. fold a.
    rewrite Hfind. mstep. rewrite vrf_prove_ok by done. rewrite <- Hpk. mstep. mstep. reflexivity.
  - unfold should_propose, local_keys. rewrite Hkeys. cbn [mbind outcome_bind]. fold a.
    rewrite Hfind. cbn [mbind outcome_bind]. rewrite He. cbn [negb].
    rewrite vrf_prove_ok by done. rewrite <- Hpk. unfold ps_get_stake. by rewrite Hv.
  - by apply (verify_credentials_run c {| lc_slot := slot; lc_address := a |} v).
  - unfold is_leader. rewrite Hfind. cbn [mbind outcome_bind]. rewrite He. cbn [negb].
    unfold leader_output, mock_output, mock_hash. by rewrite (blen_nat _ _ (Hd _)).
  - unfold verify_leader_credentials. rewrite Hfind. cbn [mbind outcome_bind].
    rewrite bool_decide_true by done. cbn [negb reject].
    rewrite (proj2 (parse_vrf_proof_ok _ (leader_proof c v.(vi_vrf_pubkey) slot))).
    2:{ rewrite <- (app_nil_r (VrfProof_to_bytes _)). apply proof_from_bytes_app.
        by apply mock_proof_sized. }
    cbn [mbind outcome_bind].
    by rewrite (proj2 (vrf_verify_iff _ _ _ _ (leader_output c v.(vi_vrf_pubkey) slot))).
Qed.

(** ** What no call ever changes *)
Inductive pc_op :=
| PcAdvance (slot : Slot)
| PcRegister (info : ValidatorInfo)
| PcScore (address : Address) (delta : Z)
| PcProcess (block : PoUWBlockHeader) (results : list UsefulWorkResult)
| PcGenerate (slot : Slot)
| PcValidate (header parent : PoUWBlockHeader).

Definition pc_exec (op : pc_op) : ConsM unit :=
  match op with
  | PcAdvance slot => pc_advance_slot slot
  | PcRegister info => pc_register_validator info
  | PcScore address delta => pc_update_useful_work_score address delta
  | PcProcess block results => process_useful_work_results block results ;; mret tt
  | PcGenerate slot => generate_credentials slot ;; mret tt
  | PcValidate header parent => validate_header header parent
  end.

(** Any call, whatever its outcome. *)
Definition pc_step : relation PoUWConsensus := λ c c', ∃ op, c' = (pc_exec op c).2.

Definition same_fixed : relation PoUWConsensus := λ c c',
  c'.(pc_vrf_engine) = c.(pc_vrf_engine)
  ∧ c'.(pc_verification_engine) = c.(pc_verification_engine)
  ∧ c'.(pc_state).(ps_epoch_seed) = c.(pc_state).(ps_epoch_seed).

#[local] Instance same_fixed_preorder : PreOrder same_fixed.
Proof.
  split; [done|]. intros c1 c2 c3 (? & ? & ?) (? & ? & ?). unfold same_fixed. split_and!; congruence.
Qed.

Definition same_seed : relation PoUWState := λ s s', s'.(ps_epoch_seed) = s.(ps_epoch_seed).

#[local] Instance same_seed_preorder : PreOrder same_seed.
Proof. split; [done|]. intros s1 s2 s3 ? ?. unfold same_seed in *. congruence. Qed.

Lemma fixed_on_state {A} (m : StateM A) : stable same_seed m → stable same_fixed (on_state m).
Proof. intros Hm. apply stable_zoom with (RT := same_seed); [done|]. by intros c t Ht. Qed.

Lemma fixed_on_election {A} (m : ElectM A) : stable same_fixed (on_election m).
Proof. apply stable_zoom with (RT := λ _ _, True); [by intros ?|by intros c t _]. Qed.

Lemma fixed_count f : stable same_fixed (count f).
Proof. by apply stable_modify. Qed.

Ltac seed_stable :=
  repeat first [ stable_step | apply stable_when; [apply _|]
               | apply stable_for_each; [apply _|intros ?]
               | match goal with |- stable _ (modify _) => by apply stable_modify end ].

Lemma recalculate_seed : stable same_seed recalculate_active_set.
Proof. unfold recalculate_active_set. seed_stable. Qed.

Lemma advance_seed slot timing : stable same_seed (ps_advance_slot slot timing).
Proof.
  unfold ps_advance_slot, on_epoch_transition, apply_score_decay.
  seed_stable; apply recalculate_seed.
Qed.

Lemma register_seed info : stable same_seed (ps_register_validator info).
Proof. unfold ps_register_validator. seed_stable; apply recalculate_seed. Qed.

(** Validators and scores are replaced, with whatever the call has read. *)
Lemma sets_seed v sc : stable same_seed (modify (E := ConsensusError) (ps_with_sets v sc)).
Proof. by apply stable_modify. Qed.

Lemma score_seed a delta : stable same_seed (ps_update_useful_work_score a delta).
Proof. unfold ps_update_useful_work_score. seed_stable; apply recalculate_seed. Qed.

Lemma fixed_logged m : stable same_fixed m → stable same_fixed (logged m).
Proof.
  intros Hm c. unfold logged. specialize (Hm c). destruct (m c) as [[]]; done.
Qed.

Lemma verify_useful_work_fixed r : stable same_fixed (verify_useful_work r).
Proof. unfold verify_useful_work. seed_stable; apply fixed_count. Qed.

Lemma collect_results_fixed rs total count_ updates :
  stable same_fixed (collect_results rs total count_ updates).
Proof.
  revert total count_ updates. induction rs as [|r rs IH]; intros; cbn [collect_results]; seed_stable;
    auto using verify_useful_work_fixed, fixed_count.
Qed.

Lemma apply_update_fixed u : stable same_fixed (apply_update u).
Proof.
  destruct u as [a delta]. unfold apply_update.
  seed_stable; try (apply fixed_on_state; by apply stable_modify).
  apply fixed_logged, fixed_on_election.
Qed.

Lemma pc_exec_fixed op : stable same_fixed (pc_exec op).
Proof.
  destruct op as [slot|info|a delta|block results|slot|h parent]; cbn [pc_exec].
  - unfold pc_advance_slot. seed_stable;
      solve [apply fixed_on_state, advance_seed | apply fixed_on_election].
  - unfold pc_register_validator. seed_stable;
      solve [apply fixed_on_state, register_seed | apply fixed_on_election].
  - apply fixed_on_state, score_seed.
  - unfold process_useful_work_results, credit_proposer.
    seed_stable; first [apply collect_results_fixed | apply apply_update_fixed
                       | apply fixed_on_state; first [apply recalculate_seed | seed_stable]].
  - unfold generate_credentials. seed_stable; apply fixed_count.
  - unfold validate_header. seed_stable; apply fixed_count.
Qed.

Lemma reachable_fixed c c' : rtc pc_step c c' → same_fixed c c'.
Proof.
  induction 1 as [|c1 c2 c3 (op & ->) _ IH]; [done|]. transitivity (pc_exec op c1).2; [|done].
  apply pc_exec_fixed.
Qed.

(** An engine as it is constructed, with or without local keys. *)
Definition started (config : CnPoUWConfig) (genesis_timestamp : N) (c : PoUWConsensus) : Prop :=
  c = PoUWConsensus_new config genesis_timestamp
  ∨ ∃ keys, c = with_validator_keys keys (PoUWConsensus_new config genesis_timestamp).

Lemma started_fixed config t c0 c :
  started config t c0 → rtc pc_step c0 c →
  c.(pc_vrf_engine) = VrfEngine_new ∧ c.(pc_verification_engine) = VerificationEngine_new config
  ∧ c.(pc_state).(ps_epoch_seed) = bytes32 0.
Proof.
  intros Hst (Hv & Hver & Hs)%reachable_fixed. rewrite Hv, Hver, Hs.
  destruct Hst as [->|[keys ->]]; done.
Qed.

(** The credentials of a validator, from public data: its key, its stake, its score
    and the slot. *)
Definition public_credentials (v : ValidatorInfo) (score : N) (slot : Slot) : LeaderCredentials :=
  let message := bytes32 0 ++ to_le_bytes 8 slot in {|
  lc_slot := slot; lc_address := v.(vi_address);
  lc_vrf_proof := mock_proof VrfEngine_new (pk_body v.(vi_vrf_pubkey)) message;
  lc_vrf_output := mock_output VrfEngine_new (pk_body v.(vi_vrf_pubkey)) message;
  lc_stake := v.(vi_stake); lc_useful_work_score := score |}.

(** Credentials can be forged.  The VRF that is compiled in uses no secret, and
    no call ever changes the epoch seed, which stays zero, nor the engine's chain
    id, which is 1 on every network.  So in every state of every node, the
    credentials of any eligible validator for any slot, however far ahead, can be
    computed from public data, and they verify with the verdict of the genuine
    ones. *)
Lemma credentials_forgeable config t c0 c a v slot :
  started config t c0 → rtc pc_step c0 c →
  c.(pc_state).(ps_validators) !! a = Some v → v.(vi_address) = a →
  33 <= blen v.(vi_vrf_pubkey) → is_eligible v slot = true →
  let cr := public_credentials v (ps_score c.(pc_state) a) slot in
  verify_credentials c cr
    = Ok (wins c v.(vi_stake) (ps_score c.(pc_state) a) cr.(lc_vrf_output))
  ∧ ∀ keys, derive_address_from_keys keys = a → v.(vi_vrf_pubkey) = keys.(vk_public_key) →
      c.(pc_local_keys) = Some keys → (generate_credentials slot c).1 = Ok cr.
Proof.
  intros Hst Hreach Hv Ha Hk He cr.
  destruct (started_fixed _ _ _ _ Hst Hreach) as (Heng & _ & Hseed).
  assert (cr.(lc_vrf_proof) = leader_proof c v.(vi_vrf_pubkey) slot
          ∧ cr.(lc_vrf_output) = leader_output c v.(vi_vrf_pubkey) slot) as [Hp Ho].
  { unfold cr, leader_proof, leader_output, vrf_message, compute_vrf_input. by rewrite Heng, Hseed. }
  split.
  - assert (cr.(lc_address) = a) as Hcr by done.
    rewrite (verify_credentials_run c cr v); rewrite ?Hcr; try done. by rewrite Ho.
  - intros keys Hd Hpk Hkeys. unfold generate_credentials.
    rewrite bind_get. unfold local_keys. rewrite Hkeys, bind_lift_ok, Hd.
    rewrite (proj2 (find_validator_ok _ _ _) Hv), bind_lift_ok.
    rewrite vrf_prove_ok, <- Hpk, bind_lift_ok by (by rewrite <- Hpk).
    change (Ok {| lc_slot := slot; lc_address := a;
                  lc_vrf_proof := leader_proof c v.(vi_vrf_pubkey) slot;
                  lc_vrf_output := leader_output c v.(vi_vrf_pubkey) slot;
                  lc_stake := v.(vi_stake); lc_useful_work_score := ps_score c.(pc_state) a |}
            = Ok (E := ConsensusError) cr).
    rewrite <- Hp, <- Ho. unfold cr, public_credentials. by rewrite Ha.
Qed.

(** ** Forged work *)

(** A hundred bytes that begin like a COSE message and are otherwise ones. *)
Definition forged_attestation : bytes := 132 :: replicate 99 1.

Definition forged_zk_proof : bytes := replicate 200 0.

Lemma forged_attestation_verifies config r :
  r.(uwr_tee_attestation) = forged_attestation →
  ven_verify_tee_attestation (VerificationEngine_new config) r = Ok true.
Proof. intros Hatt. unfold ven_verify_tee_attestation. rewrite Hatt. vm_compute. reflexivity. Qed.

Lemma forged_zk_verifies v r :
  r.(uwr_zkml_proof) = Some forged_zk_proof → verify_zkml_proof v r = Ok true.
Proof. intros Hzk. unfold verify_zkml_proof. rewrite Hzk. vm_compute. reflexivity. Qed.

(** Work can be forged.  The engine is built without approved measurements,
    circuits or verifier models, and no call of the engine adds any.  So in every
    state, one fixed string of a hundred bytes is accepted as the TEE attestation of
    any result, whatever it claims, one string of two hundred zero bytes as the zk
    proof of any result, both together as hybrid evidence, and any AI proof with
    enough confidence and some embedding and signature. *)
Lemma work_forgeable config t c0 c r :
  started config t c0 → rtc pc_step c0 c →
  (r.(uwr_verification_method) = PTeeAttestation →
     r.(uwr_tee_attestation) = forged_attestation → (verify_useful_work r c).1 = Ok true)
  ∧ (r.(uwr_verification_method) = PZkProof →
     r.(uwr_zkml_proof) = Some forged_zk_proof → (verify_useful_work r c).1 = Ok true)
  ∧ (r.(uwr_verification_method) = PHybrid →
     r.(uwr_tee_attestation) = forged_attestation →
     r.(uwr_zkml_proof) = Some forged_zk_proof → (verify_useful_work r c).1 = Ok true)
  ∧ (∀ p, r.(uwr_verification_method) = PAiProof → r.(uwr_ai_proof) = Some p →
     config.(cc_ai_proof_confidence_threshold_bps) <= p.(aip_confidence_bps) →
     p.(aip_result_embedding) ≠ [] → p.(aip_verifier_signature) ≠ [] →
     (verify_useful_work r c).1 = Ok true).
Proof.
  intros Hst Hreach. destruct (started_fixed _ _ _ _ Hst Hreach) as (_ & Hver & _).
  assert (∀ m, r.(uwr_verification_method) = m → has_valid_attestation r = true →
    verified_by_method c r = Ok true → (verify_useful_work r c).1 = Ok true) as Hgo.
  { intros m Hm Hatt Hok. unfold verify_useful_work. rewrite Hatt. cbn [negb].
    rewrite bind_get, Hok, bind_lift_ok. by destruct (uwr_verification_method r). }
  split_and!.
  - intros Hm Ha. apply (Hgo _ Hm); unfold has_valid_attestation, verified_by_method; rewrite Hm.
    + by rewrite Ha.
    + rewrite Hver. by apply forged_attestation_verifies.
  - intros Hm Hz. apply (Hgo _ Hm); unfold has_valid_attestation, verified_by_method; rewrite Hm.
    + by rewrite Hz.
    + by apply forged_zk_verifies.
  - intros Hm Ha Hz. apply (Hgo _ Hm); unfold has_valid_attestation, verified_by_method; rewrite Hm.
    + by rewrite Ha, Hz.
    + rewrite Hver, forged_attestation_verifies by done. by apply forged_zk_verifies.
  - intros p Hm Hp Hc Hemb Hsig.
    apply (Hgo _ Hm); unfold has_valid_attestation, verified_by_method; rewrite Hm.
    + by rewrite Hp.
    + rewrite Hver. unfold verify_ai_proof, meets_threshold. rewrite Hp. cbn.
      rewrite bool_decide_true by done. cbn. rewrite !bool_decide_false by done. done.
Qed.
End spec.

(** ** On a concrete node *)
Lemma active_set_exact_witness : @active_exact cn_env dev_consensus.(pc_state).
Proof.
  destruct (@active_set_exact cn_build cn_env dev_consensus.(pc_state)) as ((s' & Hrun & Hex) & _).
  { vm_compute. split; discriminate. }
  assert (s' = dev_consensus.(pc_state)) as <-; [|exact Hex].
  apply (f_equal snd) in Hrun. cbn [snd] in Hrun. rewrite <- Hrun. vm_compute. reflexivity.
Defined.

Lemma leader_decisions_agree_witness :
  ∃ cr m, @generate_credentials cn_env 1 dev_consensus = (Ok cr, pc_put_metrics m dev_consensus)
  ∧ ∃ b, @should_propose cn_env dev_consensus 1 = Ok b.
Proof.
  destruct (@leader_decisions_agree cn_env dev_consensus node_keys node_info 1)
    as (cr & m & Hgen & Hshould & _);
    [exact cn_env_digest|vm_compute; first [reflexivity | discriminate]..|].
  exists cr, m. split; [exact Hgen|]. eexists. exact Hshould.
Defined.

Definition node_start : PoUWConsensus :=
  with_validator_keys node_keys (PoUWConsensus_new CnPoUWConfig_devnet 0).

Lemma dev_reachable : rtc (@pc_step cn_build cn_env) node_start dev_consensus.
Proof.
  eapply rtc_l; [exists (PcRegister node_info); reflexivity|].
  eapply rtc_l; [exists (PcRegister peer_info); reflexivity|]. apply rtc_refl.
Qed.

Lemma credentials_forgeable_witness :
  ∃ b, @verify_credentials cn_env dev_consensus (@public_credentials cn_env peer_info 0 77) = Ok b.
Proof.
  destruct (@credentials_forgeable cn_build cn_env CnPoUWConfig_devnet 0 node_start dev_consensus
              peer_address peer_info 77) as [Hv _];
    [right; by exists node_keys|exact dev_reachable
    |vm_compute; first [reflexivity | discriminate]..|].
  eexists. exact Hv.
Defined.

(** A claim of a billion units with nothing behind it. *)
Definition forged_result : UsefulWorkResult := {|
  uwr_job_id := bytes32 1; uwr_model_hash := bytes32 2; uwr_input_hash := bytes32 3;
  uwr_output_hash := bytes32 4; uwr_useful_work_units := 1000000000; uwr_work_difficulty := 1;
  uwr_category := Medical; uwr_verification_method := PTeeAttestation;
  uwr_tee_attestation := forged_attestation; uwr_zkml_proof := None; uwr_ai_proof := None;
  uwr_validator := peer_address; uwr_requester := bytes32 5; uwr_confirmations := 0;
  uwr_completed_at := 0; uwr_sla_deadline := 0 |}.

Lemma work_forgeable_witness :
  (@verify_useful_work cn_env forged_result dev_consensus).1 = Ok true.
Proof.
  destruct (@work_forgeable cn_build cn_env CnPoUWConfig_devnet 0 node_start dev_consensus
              forged_result) as (Htee & _); [right; by exists node_keys|exact dev_reachable|].
  apply Htee; reflexivity.
Defined.
