(* ===== verification/Gas.v ===== *)
(** * Gas, memory and errors of the virtual machine

    [crates/vm/src/gas.rs], [memory.rs] and [error.rs].  The gas meter is shared
    between threads ([SharedGasMeter]) and counts in an atomic: [consume] adds the
    amount first and takes it back when the limit is exceeded.  [consume] below is
    the method run alone; [meter_step] interleaves the atomic accesses of any number
    of calls. *)
From S2P Require Import Prelude SysTypes Precompile.
From stdpp Require Import base list relations strings pretty.
From Stdlib Require Import ZArith Lia.
#[local] Open Scope N_scope.

(** ** [gas.rs]: operations and calls *)
Inductive WasmOp :=
| Unreachable | Nop | Block | Loop | If | Else | End_ | Br | BrIf | BrTable | Return_ | Call
| CallIndirect
| I32Const | I64Const | F32Const | F64Const
| LocalGet | LocalSet | LocalTee | GlobalGet | GlobalSet
| I32Load | I64Load | F32Load | F64Load | I32Store | I64Store | F32Store | F64Store
| MemorySize | MemoryGrow
| I32Add | I32Sub | I32Mul | I32DivS | I32DivU | I32RemS | I32RemU
| I64Add | I64Sub | I64Mul | I64DivS | I64DivU | I64RemS | I64RemU
| I32And | I32Or | I32Xor | I64And | I64Or | I64Xor
| I32Shl | I32ShrS | I32ShrU | I64Shl | I64ShrS | I64ShrU
| F32Add | F32Sub | F32Mul | F32Div | F32Sqrt | F64Add | F64Sub | F64Mul | F64Div | F64Sqrt
| I32Eqz | I32Eq | I32Ne | I32LtS | I32LtU | I32GtS | I32GtU | I64Eqz | I64Eq | I64Ne
| I32WrapI64 | I64ExtendI32S | I64ExtendI32U
| F32ConvertI32S | F32ConvertI64S | F64ConvertI32S | F64ConvertI64S
| OtherOp.

Inductive HostCall :=
| HcLog | HcGetTime | HcRandom | HcStorageRead | HcStorageWrite | HcPrecompileCall | HcCryptoOp
| HcNetworkOp | HcOther.

Record GasConfig := {
  gc_wasm_base_cost : N;
  gc_wasm_instruction_cost : N;
  gc_memory_byte_cost : N;
  gc_memory_page_cost : N;
  gc_memory_grow_cost : N;
  gc_expensive_op_multiplier : N;
  gc_host_call_base : N;
  gc_storage_read_cost : N;
  gc_storage_write_cost : N;
  gc_precompile_call_base : N;
  gc_network_cost : N;
  gc_crypto_multiplier : N;
}.

Definition GasConfig_default : GasConfig := {|
  gc_wasm_base_cost := 1; gc_wasm_instruction_cost := 1; gc_memory_byte_cost := 1;
  gc_memory_page_cost := 65536; gc_memory_grow_cost := 1000; gc_expensive_op_multiplier := 10;
  gc_host_call_base := 100; gc_storage_read_cost := 200; gc_storage_write_cost := 5000;
  gc_precompile_call_base := 50; gc_network_cost := 10000; gc_crypto_multiplier := 100 |}.

Definition GasConfig_production : GasConfig := {|
  gc_wasm_base_cost := 10; gc_wasm_instruction_cost := 1; gc_memory_byte_cost := 3;
  gc_memory_page_cost := 200000; gc_memory_grow_cost := 10000; gc_expensive_op_multiplier := 100;
  gc_host_call_base := 1000; gc_storage_read_cost := 2100; gc_storage_write_cost := 20000;
  gc_precompile_call_base := 700; gc_network_cost := 100000; gc_crypto_multiplier := 1000 |}.

Definition GasConfig_testing : GasConfig := {|
  gc_wasm_base_cost := 0; gc_wasm_instruction_cost := 0; gc_memory_byte_cost := 0;
  gc_memory_page_cost := 0; gc_memory_grow_cost := 0; gc_expensive_op_multiplier := 1;
  gc_host_call_base := 0; gc_storage_read_cost := 0; gc_storage_write_cost := 0;
  gc_precompile_call_base := 0; gc_network_cost := 0; gc_crypto_multiplier := 1 |}.

Record GasExhausted := { ge_used : N; ge_limit : N; ge_attempted : N }.

Definition GasExhausted_to_string (e : GasExhausted) : string :=
  "Gas exhausted: used " +:+ pretty e.(ge_used) +:+ ", limit " +:+ pretty e.(ge_limit)
  +:+ ", attempted " +:+ pretty e.(ge_attempted).

Section costs.
Context `{Build} {E : Type}.

Definition wasm_cost (c : GasConfig) (op : WasmOp) : outcome E N :=
  let base := c.(gc_wasm_instruction_cost) in
  match op with
  | Unreachable | Nop => Ok base
  | Block | Loop | If | Else | End_ => Ok base
  | Br | BrIf => u_mul U64_MAX base 2
  | BrTable => u_mul U64_MAX base 3
  | Return_ | Call | CallIndirect => u_mul U64_MAX base 5
  | I32Const | I64Const | F32Const | F64Const => Ok base
  | LocalGet | LocalSet | LocalTee => Ok base
  | GlobalGet | GlobalSet => u_mul U64_MAX base 2
  | I32Load | I64Load | F32Load | F64Load => u_mul U64_MAX base 3
  | I32Store | I64Store | F32Store | F64Store => u_mul U64_MAX base 3
  | MemorySize | MemoryGrow => Ok c.(gc_memory_grow_cost)
  | I32Add | I32Sub | I32Mul | I64Add | I64Sub | I64Mul => Ok base
  | I32DivS | I32DivU | I32RemS | I32RemU | I64DivS | I64DivU | I64RemS | I64RemU =>
      u_mul U64_MAX base c.(gc_expensive_op_multiplier)
  | I32And | I32Or | I32Xor | I64And | I64Or | I64Xor => Ok base
  | I32Shl | I32ShrS | I32ShrU | I64Shl | I64ShrS | I64ShrU => Ok base
  | F32Add | F32Sub | F32Mul | F32Div | F64Add | F64Sub | F64Mul | F64Div =>
      u_mul U64_MAX base 3
  | F32Sqrt | F64Sqrt => u_mul U64_MAX base 5
  | I32Eqz | I32Eq | I32Ne | I32LtS | I32LtU | I32GtS | I32GtU | I64Eqz | I64Eq | I64Ne => Ok base
  | I32WrapI64 | I64ExtendI32S | I64ExtendI32U => u_mul U64_MAX base 2
  | F32ConvertI32S | F32ConvertI64S | F64ConvertI32S | F64ConvertI64S => u_mul U64_MAX base 3
  | OtherOp => u_mul U64_MAX base 2
  end.

Definition memory_cost (c : GasConfig) (n : N) : outcome E N :=
  u_mul U64_MAX c.(gc_memory_byte_cost) n.

Definition host_cost (c : GasConfig) (call : HostCall) : outcome E N :=
  match call with
  | HcLog | HcGetTime => Ok c.(gc_host_call_base)
  | HcRandom => u_mul U64_MAX c.(gc_host_call_base) 2
  | HcStorageRead => Ok c.(gc_storage_read_cost)
  | HcStorageWrite => Ok c.(gc_storage_write_cost)
  | HcPrecompileCall => Ok c.(gc_precompile_call_base)
  | HcCryptoOp => u_mul U64_MAX c.(gc_host_call_base) c.(gc_crypto_multiplier)
  | HcNetworkOp => Ok c.(gc_network_cost)
  | HcOther => Ok c.(gc_host_call_base)
  end.
End costs.

(** ** The meter *)
Record GasMeter := {
  gm_used : N;
  gm_limit : N;
  gm_config : GasConfig;
}.

Definition GasMeter_new (limit : N) (config : GasConfig) : GasMeter :=
  {| gm_used := 0; gm_limit := limit; gm_config := config |}.
Definition with_limit (limit : N) : GasMeter := GasMeter_new limit GasConfig_default.
Definition unlimited : GasMeter := GasMeter_new U64_MAX GasConfig_default.

Definition gm_set (used : N) (g : GasMeter) : GasMeter :=
  {| gm_used := used; gm_limit := g.(gm_limit); gm_config := g.(gm_config) |}.

(** [fetch_add] and [fetch_sub] of an [AtomicU64] wrap around in every profile. *)
Definition wrap_add (a b : N) : N := (a + b) mod (U64_MAX + 1).
Definition wrap_sub (a b : N) : N := (U64_MAX + 1 + a - b) mod (U64_MAX + 1).

Definition GasM := M GasExhausted GasMeter.

Definition fetch_add (amount : N) : GasM N :=
  g ← get; modify (gm_set (wrap_add g.(gm_used) amount)) ;; mret g.(gm_used).
Definition fetch_sub (amount : N) : GasM unit :=
  g ← get; modify (gm_set (wrap_sub g.(gm_used) amount)).

Definition consume (amount : N) : GasM unit :=
  current ← fetch_add amount;
  limit ← gets gm_limit;
  let exhausted := {| ge_used := current; ge_limit := limit; ge_attempted := amount |} in
  if bool_decide (U64_MAX < current + amount) then fetch_sub amount ;; fail exhausted
  else if bool_decide (limit < current + amount) then fetch_sub amount ;; fail exhausted
  else mret tt.

Definition consume_wasm_op `{Build} (op : WasmOp) : GasM unit :=
  g ← get; cost ← lift (wasm_cost g.(gm_config) op); consume cost.
Definition consume_memory `{Build} (n : N) : GasM unit :=
  g ← get; cost ← lift (memory_cost g.(gm_config) n); consume cost.
Definition consume_host_call `{Build} (call : HostCall) : GasM unit :=
  g ← get; cost ← lift (host_cost g.(gm_config) call); consume cost.

Definition remaining (g : GasMeter) : N := sat_sub g.(gm_limit) g.(gm_used).
Definition is_exhausted (g : GasMeter) : bool := bool_decide (g.(gm_limit) <= g.(gm_used)).
Definition gm_reset : GasM unit := modify (gm_set 0).

(** ** Calls from several threads

    A call of [consume] touches the shared counter once or twice: it adds the
    amount, decides from the value it read, and on a refusal subtracts again. *)
Inductive call_state :=
| Pending (amount : N)
| RollingBack (amount current : N)
| Granted (amount : N)
| Refused (amount : N) (e : GasExhausted).

Definition call_step (limit : N) (c : call_state) (used : N) : option (call_state * N) :=
  match c with
  | Pending amount =>
      let next := if bool_decide (U64_MAX < used + amount) then RollingBack amount used
                  else if bool_decide (limit < used + amount) then RollingBack amount used
                  else Granted amount in
      Some (next, wrap_add used amount)
  | RollingBack amount current =>
      Some (Refused amount {| ge_used := current; ge_limit := limit; ge_attempted := amount |},
            wrap_sub used amount)
  | Granted _ | Refused _ _ => None
  end.

Inductive meter_step (limit : N) : relation (N * list call_state) :=
| meter_step_call i calls c c' used used' :
    calls !! i = Some c → call_step limit c used = Some (c', used') →
    meter_step limit (used, calls) (used', <[i := c']> calls).

(** What a call has been asked for, and what it was given or holds for a moment. *)
Definition call_amount (c : call_state) : N :=
  match c with Pending a | RollingBack a _ | Granted a | Refused a _ => a end.
Definition granted (c : call_state) : N := match c with Granted a => a | _ => 0 end.
Definition in_flight (c : call_state) : N := match c with RollingBack a _ => a | _ => 0 end.
Definition call_finished (c : call_state) : Prop :=
  match c with Granted _ | Refused _ _ => True | _ => False end.

(** ** [memory.rs] *)
Record MemoryConfig := {
  mc_initial_pages : N;
  mc_max_pages : N;
  mc_bounds_checking : bool;
  mc_zero_on_alloc : bool;
  mc_guard_pages : bool;
  mc_stack_size : N;
}.

Definition MemoryConfig_default : MemoryConfig := {|
  mc_initial_pages := 16; mc_max_pages := 256; mc_bounds_checking := true;
  mc_zero_on_alloc := true; mc_guard_pages := true; mc_stack_size := 1024 * 1024 |}.
Definition MemoryConfig_production : MemoryConfig := {|
  mc_initial_pages := 16; mc_max_pages := 512; mc_bounds_checking := true;
  mc_zero_on_alloc := true; mc_guard_pages := true; mc_stack_size := 512 * 1024 |}.
Definition MemoryConfig_ml_workload : MemoryConfig := {|
  mc_initial_pages := 256; mc_max_pages := 8192; mc_bounds_checking := true;
  mc_zero_on_alloc := false; mc_guard_pages := true; mc_stack_size := 2 * 1024 * 1024 |}.
Definition MemoryConfig_testing : MemoryConfig := {|
  mc_initial_pages := 1; mc_max_pages := 16; mc_bounds_checking := false;
  mc_zero_on_alloc := false; mc_guard_pages := false; mc_stack_size := 64 * 1024 |}.

(** A [u32] of pages times 65536 fits a [u64]. *)
Definition mc_initial_bytes (c : MemoryConfig) : N := c.(mc_initial_pages) * 65536.
Definition mc_max_bytes (c : MemoryConfig) : N := c.(mc_max_pages) * 65536.

Definition MemoryConfig_validate (c : MemoryConfig) : outcome string unit :=
  if bool_decide (c.(mc_max_pages) < c.(mc_initial_pages)) then
    Err "Initial pages cannot exceed max pages"
  else if bool_decide (65536 < c.(mc_max_pages)) then
    Err "Max pages cannot exceed 65536 (4GB)"
  else if bool_decide (c.(mc_stack_size) = 0) then Err "Stack size cannot be zero"
  else Ok tt.

Record MemoryLimits := {
  ml_max_instance_memory : N;
  ml_max_total_memory : N;
  ml_max_stack_depth : N;
  ml_max_call_depth : N;
  ml_max_table_elements : N;
  ml_max_globals : N;
  ml_max_functions : N;
}.

Definition MemoryLimits_default : MemoryLimits := {|
  ml_max_instance_memory := 32 * 1024 * 1024; ml_max_total_memory := 512 * 1024 * 1024;
  ml_max_stack_depth := 10000; ml_max_call_depth := 1000; ml_max_table_elements := 10000;
  ml_max_globals := 1000; ml_max_functions := 10000 |}.
Definition MemoryLimits_production : MemoryLimits := {|
  ml_max_instance_memory := 64 * 1024 * 1024; ml_max_total_memory := 1024 * 1024 * 1024;
  ml_max_stack_depth := 50000; ml_max_call_depth := 500; ml_max_table_elements := 10000;
  ml_max_globals := 1000; ml_max_functions := 50000 |}.
Definition MemoryLimits_ml_workload : MemoryLimits := {|
  ml_max_instance_memory := 512 * 1024 * 1024; ml_max_total_memory := 2 * 1024 * 1024 * 1024;
  ml_max_stack_depth := 100000; ml_max_call_depth := 2000; ml_max_table_elements := 100000;
  ml_max_globals := 10000; ml_max_functions := 100000 |}.
Definition MemoryLimits_testing : MemoryLimits := {|
  ml_max_instance_memory := 1024 * 1024; ml_max_total_memory := 10 * 1024 * 1024;
  ml_max_stack_depth := 1000; ml_max_call_depth := 100; ml_max_table_elements := 1000;
  ml_max_globals := 100; ml_max_functions := 1000 |}.

(** The base pointer as the [u64] it is cast to. *)
Record MemoryRegion := {
  mr_base : N;
  mr_size : N;
  mr_readable : bool;
  mr_writable : bool;
  mr_executable : bool;
}.

(** [&&] does not evaluate the sums of an address below the base. *)
Definition region_contains `{Build} {E} (r : MemoryRegion) (address size : N) : outcome E bool :=
  if bool_decide (r.(mr_base) <= address) then
    last ← u_add U64_MAX address size;
    bound ← u_add U64_MAX r.(mr_base) r.(mr_size);
    Ok (bool_decide (last <= bound))
  else Ok false.

(** ** [error.rs] *)
Inductive VmError :=
| VmCompilation (reason : string)
| VmInstantiation (reason : string)
| VmExecution (reason : string)
| VmOutOfGas (used limit : N)
| VmMemoryViolation (address size : N)
| VmStackOverflow
| VmInvalidSignature (reason : string)
| VmFunctionNotFound (name : string)
| VmModuleNotFound (name : string)
| VmInvalidBinary (reason : string)
| VmMemoryLimitExceeded (requested max : N)
| VmTimeout (ms : N)
| VmPrecompile (e : PrecompileError)
| VmHostFunction (reason : string)
| VmImport (reason : string)
| VmExport (reason : string)
| VmTrap (reason : string)
| VmInternal (reason : string)
| VmConfig (reason : string).

Definition VmError_is_recoverable (e : VmError) : bool :=
  match e with VmOutOfGas _ _ | VmTimeout _ | VmMemoryLimitExceeded _ _ => true | _ => false end.
Definition VmError_is_trap (e : VmError) : bool :=
  match e with VmTrap _ | VmStackOverflow | VmMemoryViolation _ _ => true | _ => false end.

Definition VmError_error_code (e : VmError) : N :=
  match e with
  | VmCompilation _ => 1 | VmInstantiation _ => 2 | VmExecution _ => 3 | VmOutOfGas _ _ => 4
  | VmMemoryViolation _ _ => 5 | VmStackOverflow => 6 | VmInvalidSignature _ => 7
  | VmFunctionNotFound _ => 8 | VmModuleNotFound _ => 9 | VmInvalidBinary _ => 10
  | VmMemoryLimitExceeded _ _ => 11 | VmTimeout _ => 12 | VmPrecompile _ => 13
  | VmHostFunction _ => 14 | VmImport _ => 15 | VmExport _ => 16 | VmTrap _ => 17
  | VmInternal _ => 18 | VmConfig _ => 19
  end.
