(* ===== verification/GasSpec.v ===== *)
(** * What the gas meter guarantees

    Alone, [consume] takes exactly the amount or leaves the meter as it was.
    Between threads the same holds as long as the amounts in flight cannot wrap the
    64-bit counter; when they can, the limit is not kept. *)
From S2P Require Import Prelude SysTypes Precompile Gas.
From stdpp Require Import base list relations strings.
From Stdlib Require Import ZArith Lia.
#[local] Open Scope N_scope.

(** ** One thread *)
Record meter_wf (g : GasMeter) : Prop := {
  mw_limit : g.(gm_limit) <= U64_MAX;
  mw_used : g.(gm_used) <= g.(gm_limit);
}.

Lemma wrap_add_small a b : a + b <= U64_MAX → wrap_add a b = a + b.
Proof. intros. unfold wrap_add. apply N.mod_small. lia. Qed.

Lemma wrap_sub_small a b : a <= U64_MAX → b <= a → wrap_sub a b = a - b.
Proof.
  intros. unfold wrap_sub. replace (U64_MAX + 1 + a - b) with (a - b + 1 * (U64_MAX + 1)) by lia.
  rewrite N.Div0.mod_add. apply N.mod_small. lia.
Qed.

(** Subtracting what was added restores the counter, also through a wrap. *)
Lemma wrap_sub_add a b : a <= U64_MAX → b <= U64_MAX → wrap_sub (wrap_add a b) b = a.
Proof.
  intros Ha Hb. destruct (decide (a + b <= U64_MAX)) as [Hs|Hs].
  { rewrite wrap_add_small by done. rewrite wrap_sub_small by lia. lia. }
  assert (wrap_add a b = a + b - (U64_MAX + 1)) as ->.
  { unfold wrap_add.
    replace (a + b) with (a + b - (U64_MAX + 1) + 1 * (U64_MAX + 1)) at 1 by lia.
    rewrite N.Div0.mod_add. apply N.mod_small. lia. }
  unfold wrap_sub. replace (U64_MAX + 1 + (a + b - (U64_MAX + 1)) - b) with a by lia.
  apply N.mod_small. lia.
Qed.

Lemma gm_set_set x y g : gm_set x (gm_set y g) = gm_set x g.
Proof. done. Qed.

Lemma gm_set_same g : gm_set g.(gm_used) g = g.
Proof. by destruct g. Qed.

Definition refusal (amount : N) (g : GasMeter) : GasExhausted :=
  {| ge_used := g.(gm_used); ge_limit := g.(gm_limit); ge_attempted := amount |}.

Ltac consume_unfold :=
  cbv [consume fetch_add fetch_sub mbind M_bind mret M_ret get gets modify fail refusal];
  cbn [gm_used gm_limit gm_set].

(** [consume] takes the whole amount when it fits and otherwise fails with the
    figures of the meter, which it leaves as it was: its error is no loss. *)
Lemma consume_exact g amount :
  meter_wf g → amount <= U64_MAX →
  consume amount g
  = if bool_decide (g.(gm_used) + amount <= g.(gm_limit))
    then (Ok tt, gm_set (g.(gm_used) + amount) g) else (Err (refusal amount g), g).
Proof.
  intros [Hl Hu] Ha.
  transitivity (if bool_decide (U64_MAX < gm_used g + amount)
                then (Err (E:=GasExhausted) (A:=unit) (refusal amount g),
                      gm_set (wrap_sub (wrap_add (gm_used g) amount) amount) g)
                else if bool_decide (gm_limit g < gm_used g + amount)
                then (Err (refusal amount g), gm_set (wrap_sub (wrap_add (gm_used g) amount) amount) g)
                else (Ok tt, gm_set (wrap_add (gm_used g) amount) g)).
  { consume_unfold. repeat case_bool_decide; done. }
  rewrite wrap_sub_add, gm_set_same by lia.
  repeat case_bool_decide; try lia; try done; by rewrite wrap_add_small by lia.
Qed.

(** A thread that is not interrupted runs [consume]. *)
Lemma call_runs_consume g amount :
  consume amount g
  = match call_step g.(gm_limit) (Pending amount) g.(gm_used) with
    | Some (RollingBack a current, used) =>
        match call_step g.(gm_limit) (RollingBack a current) used with
        | Some (Refused _ e, used') => (Err e, gm_set used' g)
        | _ => (Panic, g)
        end
    | Some (_, used) => (Ok tt, gm_set used g)
    | None => (Panic, g)
    end.
Proof. consume_unfold. cbn. repeat case_bool_decide; done. Qed.

(** ** Many threads *)
Lemma sum_of_insert {A} (f : A → N) l i x y :
  l !! i = Some x → sum_of f (<[i := y]> l) + f x = sum_of f l + f y.
Proof.
  revert i. induction l as [|z l IH]; intros [|i] Hi; cbn in *; [done..| |].
  - injection Hi as ->. lia.
  - specialize (IH i Hi). change (f z + sum_of f (<[i := y]> l) + f x = f z + sum_of f l + f y). lia.
Qed.

Lemma sum_of_lookup {A} (f : A → N) l i x : l !! i = Some x → f x <= sum_of f l.
Proof.
  revert i. induction l as [|z l IH]; intros [|i] Hi; cbn in *; [done..| |].
  - injection Hi as ->. lia.
  - specialize (IH i Hi). unfold sum_of in *. lia.
Qed.

(** The counter is what was granted plus what refused calls still hold. *)
Record meter_inv (limit start total : N) (s : N * list call_state) : Prop := {
  mi_total : sum_of call_amount s.2 = total;
  mi_used : s.1 = start + sum_of granted s.2 + sum_of in_flight s.2;
  mi_limit : start + sum_of granted s.2 <= limit;
}.

Lemma held_below_asked (l : list call_state) :
  sum_of granted l + sum_of in_flight l <= sum_of call_amount l.
Proof. induction l as [|[] l IH]; cbn in *; unfold sum_of in *; lia. Qed.

(** A pending call has not been counted yet. *)
Lemma pending_uncounted l i amount :
  l !! i = Some (Pending amount) →
  sum_of granted l + sum_of in_flight l + amount <= sum_of call_amount l.
Proof.
  revert i. induction l as [|c l IH]; intros [|i] Hi; cbn in *; [done..| |].
  - injection Hi as ->. pose proof (held_below_asked l). cbn. unfold sum_of in *. lia.
  - specialize (IH i Hi). unfold sum_of in *. destruct c; cbn; lia.
Qed.

Lemma meter_inv_step limit start total s s' :
  start + total <= U64_MAX → meter_step limit s s' → meter_inv limit start total s →
  meter_inv limit start total s'.
Proof.
  intros Hfit [i calls c c' used used' Hi Hc] [Ht Hu Hl]. cbn [fst snd] in *.
  pose proof (sum_of_insert call_amount calls i c c' Hi) as Ha.
  pose proof (sum_of_insert granted calls i c c' Hi) as Hg.
  pose proof (sum_of_insert in_flight calls i c c' Hi) as Hf.
  pose proof (held_below_asked calls).
  destruct c as [amount|amount current| |]; cbn [call_step] in Hc; [| |discriminate..].
  - pose proof (pending_uncounted _ _ _ Hi). rewrite wrap_add_small in Hc by lia.
    repeat case_bool_decide; injection Hc as <- <-;
      cbn [call_amount granted in_flight] in *; split; cbn [fst snd]; lia.
  - pose proof (sum_of_lookup in_flight _ _ _ Hi) as Hin. cbn [in_flight] in Hin.
    rewrite wrap_sub_small in Hc by lia. injection Hc as <- <-.
    cbn [call_amount granted in_flight] in *. split; cbn [fst snd]; lia.
Qed.

Lemma finished_none_in_flight l : Forall call_finished l → sum_of in_flight l = 0.
Proof. induction 1 as [|[] l Hc _ IH]; cbn in *; try done. Qed.

(** Calls before their first access to the meter. *)
Definition pending_calls (amounts : list N) : list call_state := Pending <$> amounts.

Lemma pending_sums amounts :
  sum_of call_amount (pending_calls amounts) = sum_of id amounts
  ∧ sum_of granted (pending_calls amounts) = 0 ∧ sum_of in_flight (pending_calls amounts) = 0.
Proof.
  induction amounts as [|a l (IH1 & IH2 & IH3)]; [done|]. cbn. unfold sum_of, pending_calls in *.
  rewrite IH1, IH2, IH3. done.
Qed.

(** C34: concurrent calls keep the gas limit.  Any number of threads call [consume] on
    a shared meter and interleave their accesses in any order.  If the amounts
    together cannot wrap the counter, then at every moment the gas used before and
    the gas granted stay within the limit, and once all calls have returned the
    counter is exactly their sum: refused calls leave no trace. *)
Theorem concurrent_gas limit start amounts used calls :
  start <= limit → start + sum_of id amounts <= U64_MAX →
  rtc (meter_step limit) (start, pending_calls amounts) (used, calls) →
  start + sum_of granted calls <= limit
  ∧ start + sum_of granted calls <= used
  ∧ (Forall call_finished calls → used = start + sum_of granted calls).
Proof.
  intros Hs Hfit Hreach. destruct (pending_sums amounts) as (H1 & H2 & H3).
  assert (meter_inv limit start (sum_of id amounts) (used, calls)) as [_ Hu Hl].
  { revert Hreach. generalize (used, calls). intros s Hreach.
    remember (start, pending_calls amounts) as s0 eqn:Hs0.
    assert (meter_inv limit start (sum_of id amounts) s0) as Hinv.
    { subst s0. split; cbn [fst snd]; lia. }
    clear Hs0. induction Hreach; [done|]. eauto using meter_inv_step. }
  cbn [fst snd] in *. split_and!; [done|lia|]. intros Hfin. rewrite finished_none_in_flight in Hu by done. lia.
Qed.

(** An amount that wraps the counter lifts the limit.  On a meter of any limit up
    to half the 64-bit range, three concurrent calls, one of them for an amount that
    is refused, end with twice the limit granted: while the refused amount is in
    flight the counter has wrapped to zero, and the third call is measured against
    it. *)
Lemma gas_limit_overrun limit :
  0 < limit → 2 * limit <= U64_MAX →
  ∃ calls, rtc (meter_step limit)
    (0, pending_calls [limit; U64_MAX + 1 - limit; limit]) (2 * limit, calls)
  ∧ Forall call_finished calls ∧ sum_of granted calls = 2 * limit.
Proof.
  intros Hpos Hsmall.
  set (huge := U64_MAX + 1 - limit).
  exists [Granted limit; Refused huge {| ge_used := limit; ge_limit := limit; ge_attempted := huge |};
          Granted limit].
  assert (wrap_add 0 limit = limit) as H1 by (rewrite wrap_add_small by lia; lia).
  assert (wrap_add limit huge = 0) as H2.
  { unfold wrap_add, huge. replace (limit + (U64_MAX + 1 - limit)) with (U64_MAX + 1) by lia. done. }
  assert (wrap_sub limit huge = 2 * limit) as H3.
  { unfold wrap_sub, huge. replace (U64_MAX + 1 + limit - (U64_MAX + 1 - limit)) with (2 * limit) by lia.
    apply N.mod_small. lia. }
  split; [|split].
  - eapply rtc_l.
    { apply (meter_step_call limit 0 _ (Pending limit) (Granted limit) 0 limit); [done|].
      cbn. rewrite H1. rewrite !bool_decide_false by lia. done. }
    eapply rtc_l.
    { apply (meter_step_call limit 1 _ (Pending huge) (RollingBack huge limit) limit 0); [done|].
      cbn. rewrite H2. rewrite bool_decide_true by (unfold huge; lia). done. }
    eapply rtc_l.
    { apply (meter_step_call limit 2 _ (Pending limit) (Granted limit) 0 limit); [done|].
      cbn. rewrite H1. rewrite !bool_decide_false by lia. done. }
    eapply rtc_l.
    { eapply (meter_step_call limit 1 _ (RollingBack huge limit)); [done|]. cbn. by rewrite H3. }
    apply rtc_refl.
  - repeat constructor.
  - cbn. lia.
Qed.

(** ** Memory regions *)

(** Without overflow a region contains exactly the ranges that lie in it; in a
    release build a range that runs past the end of the address space is taken to
    lie in every region below it. *)
Lemma region_contains_exact `{Build} {E} r address size :
  address + size <= U64_MAX → r.(mr_base) + r.(mr_size) <= U64_MAX →
  region_contains (E:=E) r address size
  = Ok (bool_decide (r.(mr_base) <= address) && bool_decide (address + size <= r.(mr_base) + r.(mr_size))).
Proof.
  intros H1 H2. unfold region_contains. case_bool_decide; [|done].
  by rewrite !u_add_ok by done.
Qed.

Lemma region_contains_wraps `{Build} {E} r address :
  overflow_checks = false → 0 < address <= U64_MAX → r.(mr_base) <= address →
  r.(mr_base) + r.(mr_size) <= U64_MAX →
  region_contains (E:=E) r address (U64_MAX + 1 - address) = Ok true.
Proof.
  intros Ho Ha Hb Hr. unfold region_contains. rewrite bool_decide_true by done.
  rewrite (u_add_ok _ (mr_base r)) by done. unfold u_add, overflow.
  rewrite bool_decide_false by lia. rewrite Ho. cbn [mbind outcome_bind].
  replace (address + (U64_MAX + 1 - address)) with (U64_MAX + 1) by lia.
  rewrite bool_decide_true; [done|]. vm_compute ((U64_MAX + 1) mod (U64_MAX + 1)). apply N.le_0_l.
Qed.

Lemma MemoryConfig_presets_valid :
  Forall (λ c, MemoryConfig_validate c = Ok tt)
    [MemoryConfig_default; MemoryConfig_production; MemoryConfig_ml_workload; MemoryConfig_testing].
Proof. repeat constructor. Qed.

(** ** Concrete runs *)
Lemma concurrent_gas_witness :
  10 + sum_of granted [Granted 60; Pending 50] <= 100.
Proof.
  apply (concurrent_gas 100 10 [60; 50] 70 [Granted 60; Pending 50]); [lia|vm_compute; discriminate|].
  eapply rtc_l; [|apply rtc_refl].
  apply (meter_step_call 100 0 [Pending 60; Pending 50] (Pending 60) (Granted 60) 10 70); reflexivity.
Defined.

Lemma gas_limit_overrun_witness :
  ∃ calls, rtc (meter_step 1000) (0, pending_calls [1000; U64_MAX + 1 - 1000; 1000]) (2 * 1000, calls)
  ∧ Forall call_finished calls ∧ sum_of granted calls = 2 * 1000.
Proof. apply (gas_limit_overrun 1000); [lia|vm_compute; discriminate]. Defined.
