(* ===== verification/CryptoPrecompiles.v ===== *)
(** * The cryptographic precompiles

    [crates/vm/src/precompiles/crypto.rs]: hashing, data copy, public-key recovery,
    Dilithium, Kyber and hybrid signatures.  The libraries [sha2], [sha3], [k256],
    [pqcrypto_dilithium] and [pqcrypto_kyber] are an instance of [SignatureLib].

    Offsets are [usize], sums of an input length or a [u32] field and constants, far
    below 2^64: plain [N]s, as in [Zkp]. *)
From S2P Require Import Prelude SysTypes Precompile Zkp.
From stdpp Require Import base list strings.
From Stdlib Require Import ZArith Lia.
#[local] Open Scope N_scope.

Inductive DilithiumSet := Dilithium2 | Dilithium3 | Dilithium5.
Inductive KyberLevel := Kyber768 | Kyber1024.

(** What the libraries decide.  The [_ok] fields are the parsers [from_bytes],
    [try_from] and [from_sec1_bytes]; recovery returns the encoded public key. *)
Class SignatureLib := {
  lib_sha256 : bytes → bytes;
  lib_keccak256 : bytes → bytes;
  k256_recovery_id_ok : N → bool;
  k256_signature_ok : bytes → bool;
  k256_key_ok : bytes → bool;
  k256_verify : bytes → bytes → bytes → bool;
  k256_recover : bytes → bytes → N → option bytes;
  dilithium_key_bytes : DilithiumSet → N;
  dilithium_signature_bytes : DilithiumSet → N;
  dilithium_key_ok : DilithiumSet → bytes → bool;
  dilithium_signature_ok : DilithiumSet → bytes → bool;
  dilithium_verify : DilithiumSet → bytes → bytes → bytes → bool;
  kyber_ciphertext_ok : KyberLevel → bytes → bool;
  kyber_secret_ok : KyberLevel → bytes → bool;
  kyber_decapsulate : KyberLevel → bytes → bytes → bytes;
}.

(** ** Gas: constants and [word_gas_cost] of [mod.rs] *)
Definition SHA256_BASE : N := 60.
Definition SHA256_PER_WORD : N := 12.
Definition ECDSA_RECOVER_GAS : N := 3000.
Definition IDENTITY_BASE : N := 15.
Definition IDENTITY_PER_WORD : N := 3.
Definition DILITHIUM3_VERIFY_GAS : N := 10000.
Definition DILITHIUM5_VERIFY_GAS : N := 15000.
Definition KYBER768_DECAPS_GAS : N := 5000.
Definition KYBER1024_DECAPS_GAS : N := 7000.
Definition HYBRID_VERIFY_GAS : N := 13000.

Definition word_gas_cost (base per_word data_len : N) : N :=
  base + (data_len + 31) / 32 * per_word.

Section crypto.
Context `{SignatureLib}.

(** ** SHA-256 and identity *)
Definition sha256_gas_cost (input : bytes) : N :=
  word_gas_cost SHA256_BASE SHA256_PER_WORD (blen input).

Definition sha256_execute (input : bytes) (gas_limit : N)
  : outcome PrecompileError ExecutionResult :=
  let gas := sha256_gas_cost input in
  charge gas gas_limit (Ok (ExecutionResult_success (lib_sha256 input) gas)).

Definition Sha256Precompile : Precompile :=
  {| pc_gas_cost := sha256_gas_cost; pc_execute := sha256_execute |}.

Definition identity_gas_cost (input : bytes) : N :=
  word_gas_cost IDENTITY_BASE IDENTITY_PER_WORD (blen input).

Definition identity_execute (input : bytes) (gas_limit : N)
  : outcome PrecompileError ExecutionResult :=
  let gas := identity_gas_cost input in
  charge gas gas_limit (Ok (ExecutionResult_success input gas)).

Definition IdentityPrecompile : Precompile :=
  {| pc_gas_cost := identity_gas_cost; pc_execute := identity_execute |}.

(** ** ECDSA recovery *)

(** The last byte of the word [v]: 27 and 28, or 0 and 1. *)
Definition recovery_byte (v_byte : N) : option N :=
  if bool_decide (v_byte = 27) || bool_decide (v_byte = 28) then Some (v_byte - 27)
  else if bool_decide (v_byte = 0) || bool_decide (v_byte = 1) then Some v_byte
  else None.

Definition ecdsa_execute (input : bytes) (gas_limit : N)
  : outcome PrecompileError ExecutionResult :=
  let gas := ECDSA_RECOVER_GAS in
  let failure := Ok (ExecutionResult_failure gas) in
  charge gas gas_limit (
    if bool_decide (blen input < 128) then failure else
    hash ← slice 0 32 input;
    v ← slice 32 64 input;
    r ← slice 64 96 input;
    s ← slice 96 128 input;
    match recovery_byte (nth 31 v 0) with
    | None => failure
    | Some rec_id =>
        if negb (k256_recovery_id_ok rec_id) then failure else
        let sig_bytes := r ++ s in
        if negb (k256_signature_ok sig_bytes) then failure else
        match k256_recover hash sig_bytes rec_id with
        | None => failure
        | Some uncompressed =>
            pubkey_bytes ← slice 1 (blen uncompressed) uncompressed;
            tail ← slice 12 32 (lib_keccak256 pubkey_bytes);
            Ok (ExecutionResult_success (replicate 12 0 ++ tail) gas)
        end
    end).

Definition EcdsaRecoverPrecompile : Precompile :=
  {| pc_gas_cost := λ _, ECDSA_RECOVER_GAS; pc_execute := ecdsa_execute |}.

(** ** Dilithium *)
Inductive DilithiumLevel := Level3 | Level5.

Definition dilithium_set (l : DilithiumLevel) : DilithiumSet :=
  match l with Level3 => Dilithium3 | Level5 => Dilithium5 end.
Definition dilithium_public_key_size (l : DilithiumLevel) : N :=
  match l with Level3 => 1952 | Level5 => 2592 end.
Definition dilithium_signature_size (l : DilithiumLevel) : N :=
  match l with Level3 => 3293 | Level5 => 4595 end.
Definition dilithium_gas_cost (l : DilithiumLevel) : N :=
  match l with Level3 => DILITHIUM3_VERIFY_GAS | Level5 => DILITHIUM5_VERIFY_GAS end.
Definition dilithium_min_length (l : DilithiumLevel) : N :=
  4 + dilithium_public_key_size l + dilithium_signature_size l.

Definition dilithium_execute (l : DilithiumLevel) (input : bytes) (gas_limit : N)
  : outcome PrecompileError ExecutionResult :=
  let gas := dilithium_gas_cost l in
  let failure := Ok (ExecutionResult_failure gas) in
  charge gas gas_limit (
    if bool_decide (blen input < 4) then failure else
    msg_len ← le_u32 0 input;
    let pk_start := 4 + msg_len in
    let pk_end := pk_start + dilithium_public_key_size l in
    let sig_end := pk_end + dilithium_signature_size l in
    if bool_decide (blen input < sig_end) then failure else
    message ← slice 4 pk_start input;
    public_key_bytes ← slice pk_start pk_end input;
    signature_bytes ← slice pk_end sig_end input;
    if negb (dilithium_key_ok (dilithium_set l) public_key_bytes) then failure else
    if negb (dilithium_signature_ok (dilithium_set l) signature_bytes) then failure else
    let valid := dilithium_verify (dilithium_set l) signature_bytes message public_key_bytes in
    Ok (ExecutionResult_success (flag_output valid) gas)).

Definition DilithiumVerifyPrecompile (l : DilithiumLevel) : Precompile :=
  {| pc_gas_cost := λ _, dilithium_gas_cost l; pc_execute := dilithium_execute l |}.

(** ** Kyber *)
Definition kyber_secret_key_size (l : KyberLevel) : N :=
  match l with Kyber768 => 2400 | Kyber1024 => 3168 end.
Definition kyber_ciphertext_size (l : KyberLevel) : N :=
  match l with Kyber768 => 1088 | Kyber1024 => 1568 end.
Definition kyber_gas_cost (l : KyberLevel) : N :=
  match l with Kyber768 => KYBER768_DECAPS_GAS | Kyber1024 => KYBER1024_DECAPS_GAS end.
Definition kyber_min_length (l : KyberLevel) : N :=
  kyber_secret_key_size l + kyber_ciphertext_size l.
Definition kyber_name (l : KyberLevel) : string :=
  match l with Kyber768 => "Kyber768" | Kyber1024 => "Kyber1024" end.

Definition kyber_execute (l : KyberLevel) (input : bytes) (gas_limit : N)
  : outcome PrecompileError ExecutionResult :=
  let gas := kyber_gas_cost l in
  charge gas gas_limit (require_length (kyber_min_length l) input (
    let sk_end := kyber_secret_key_size l in
    secret_key_bytes ← slice 0 sk_end input;
    ciphertext_bytes ← slice sk_end (sk_end + kyber_ciphertext_size l) input;
    if negb (kyber_ciphertext_ok l ciphertext_bytes) then
      Err (InvalidInputFormat ("Invalid " +:+ kyber_name l +:+ " ciphertext"))
    else if negb (kyber_secret_ok l secret_key_bytes) then
      Err (InvalidInputFormat ("Invalid " +:+ kyber_name l +:+ " secret key"))
    else
      Ok (ExecutionResult_success (kyber_decapsulate l ciphertext_bytes secret_key_bytes) gas))).

Definition KyberDecapsPrecompile (l : KyberLevel) : Precompile :=
  {| pc_gas_cost := λ _, kyber_gas_cost l; pc_execute := kyber_execute l |}.

(** ** Hybrid signatures *)
Definition hybrid_public_key_size : N := 1 + 33 + 1 + 1952.
Definition hybrid_signature_size : N := 1 + 64 + 1 + 3293.
Definition hybrid_min_length : N := 1 + 4 + hybrid_public_key_size + hybrid_signature_size.

Definition hybrid_ecdsa_valid (message ecdsa_pk_bytes ecdsa_sig_bytes : bytes) : bool :=
  if negb (k256_key_ok ecdsa_pk_bytes) then false
  else if negb (k256_signature_ok ecdsa_sig_bytes) then false
  else k256_verify ecdsa_pk_bytes (lib_sha256 message) ecdsa_sig_bytes.

Definition hybrid_dilithium_valid (message dilithium_pk_bytes dilithium_sig_bytes : bytes) : bool :=
  if negb (dilithium_key_ok Dilithium3 dilithium_pk_bytes) then false
  else if negb (dilithium_signature_ok Dilithium3 dilithium_sig_bytes) then false
  else dilithium_verify Dilithium3 dilithium_sig_bytes message dilithium_pk_bytes.

Definition hybrid_output (valid : bool) (threat_level : N) : bytes :=
  replicate 30 0 ++ [threat_level; if valid then 1 else 0].

Definition hybrid_execute (input : bytes) (gas_limit : N)
  : outcome PrecompileError ExecutionResult :=
  let gas := HYBRID_VERIFY_GAS in
  let failure := Ok (ExecutionResult_failure gas) in
  charge gas gas_limit (
    if bool_decide (blen input < 5) then failure else
    threat_level ← slice 0 1 input;
    msg_len ← le_u32 1 input;
    let msg_end := 5 + msg_len in
    let pk_end := msg_end + hybrid_public_key_size in
    let sig_end := pk_end + hybrid_signature_size in
    if bool_decide (blen input < sig_end) then failure else
    message ← slice 5 msg_end input;
    public_key ← slice msg_end pk_end input;
    signature ← slice pk_end sig_end input;
    ecdsa_pk_bytes ← slice 1 34 public_key;
    dilithium_pk_bytes ← slice 35 (35 + 1952) public_key;
    ecdsa_sig_bytes ← slice 1 65 signature;
    dilithium_sig_bytes ← slice 66 (66 + 3293) signature;
    let valid := hybrid_ecdsa_valid message ecdsa_pk_bytes ecdsa_sig_bytes
                 && hybrid_dilithium_valid message dilithium_pk_bytes dilithium_sig_bytes in
    Ok (ExecutionResult_success (hybrid_output valid (nth 0 threat_level 0)) gas)).

Definition HybridVerifyPrecompile : Precompile :=
  {| pc_gas_cost := λ _, HYBRID_VERIFY_GAS; pc_execute := hybrid_execute |}.
End crypto.
