(* ===== verification/Registry.v ===== *)
(** * The precompile registries

    [crates/vm/src/precompiles/mod.rs] ([PrecompileRegistry], the one the virtual
    machine and the host functions use) and [registry.rs] ([DynamicRegistry], with
    registration at run time, and its builder). *)
From S2P Require Import Prelude SysTypes F64 Precompile Tee Zkp CryptoPrecompiles.
From stdpp Require Import base gmap list strings.
From Stdlib Require Import ZArith Lia SpecFloat.
#[local] Open Scope N_scope.

(** ** Addresses *)
Definition ADDR_ECDSA_RECOVER : N := 0x0001.
Definition ADDR_SHA256 : N := 0x0002.
Definition ADDR_RIPEMD160 : N := 0x0003.
Definition ADDR_IDENTITY : N := 0x0004.
Definition ADDR_MODEXP : N := 0x0005.
Definition ADDR_BN_ADD : N := 0x0006.
Definition ADDR_BN_MUL : N := 0x0007.
Definition ADDR_BN_PAIRING : N := 0x0008.
Definition ADDR_BLAKE2F : N := 0x0009.
Definition ADDR_DILITHIUM_VERIFY : N := 0x0100.
Definition ADDR_KYBER_DECAPS : N := 0x0101.
Definition ADDR_HYBRID_VERIFY : N := 0x0102.
Definition ADDR_ZKP_VERIFY : N := 0x0300.
Definition ADDR_GROTH16_VERIFY : N := 0x0301.
Definition ADDR_PLONK_VERIFY : N := 0x0302.
Definition ADDR_EZKL_VERIFY : N := 0x0303.
Definition ADDR_HALO2_VERIFY : N := 0x0304.
Definition ADDR_BATCH_GROTH16_VERIFY : N := 0x0305.
Definition ADDR_STARK_VERIFY : N := 0x0306.
Definition ADDR_TEE_VERIFY : N := 0x0400.
Definition ADDR_TEE_VERIFY_NITRO : N := 0x0401.
Definition ADDR_TEE_VERIFY_SGX : N := 0x0402.
Definition ADDR_TEE_VERIFY_SEV : N := 0x0403.

(** ** Objects: the remaining methods of the trait *)
Record PrecompileObject := {
  po_address : N;
  po_name : string;
  po_min_input_length : N;
  po_max_input_length : N;
  po_methods : Precompile;
}.

(** No implementation overrides the default of [max_input_length]. *)
Definition object (address : N) (name : string) (min_input : N) (p : Precompile)
  : PrecompileObject := {|
  po_address := address; po_name := name; po_min_input_length := min_input;
  po_max_input_length := 0; po_methods := p |}.

(** [1.0] *)
Definition ONE : f64 := S754_finite false 4503599627370496 (-52).

(** [(base_gas as f64 * multiplier) as u64] *)
Definition adjusted_gas (multiplier : f64) (base_gas : N) : N :=
  f64_as U64_MAX (f64_mul (f64_of_N base_gas) multiplier).

(** ** [PrecompileRegistry] *)
Record PrecompileRegistry := {
  pr_precompiles : gmap N PrecompileObject;
  pr_gas_multiplier : f64;
}.

Definition PrecompileRegistry_minimal : PrecompileRegistry := {| pr_precompiles := ∅; pr_gas_multiplier := ONE |}.

Definition pr_register (p : PrecompileObject) (r : PrecompileRegistry) : PrecompileRegistry :=
  {| pr_precompiles := <[p.(po_address) := p]> r.(pr_precompiles);
     pr_gas_multiplier := r.(pr_gas_multiplier) |}.

Definition pr_is_precompile (r : PrecompileRegistry) (address : N) : bool :=
  bool_decide (is_Some (r.(pr_precompiles) !! address)).

(** The body of [execute] in both registries. *)
Definition execute_at (precompiles : gmap N PrecompileObject) (multiplier : f64)
  (address : N) (input : bytes) (gas_limit : N) : outcome PrecompileError ExecutionResult :=
  match precompiles !! address with
  | None => Err (NotFound address)
  | Some p =>
      require_length p.(po_min_input_length) input (
        let max_len := p.(po_max_input_length) in
        if bool_decide (0 < max_len) && bool_decide (max_len < blen input) then
          Err (InvalidInputLength max_len (blen input))
        else
          let adjusted := adjusted_gas multiplier (pc_gas_cost p.(po_methods) input) in
          charge adjusted gas_limit (pc_execute p.(po_methods) input gas_limit))
  end.

Definition pr_execute (r : PrecompileRegistry) (address : N) (input : bytes) (gas_limit : N)
  : outcome PrecompileError ExecutionResult :=
  execute_at r.(pr_precompiles) r.(pr_gas_multiplier) address input gas_limit.

Definition pr_set_gas_multiplier (multiplier : f64) (r : PrecompileRegistry) : PrecompileRegistry :=
  {| pr_precompiles := r.(pr_precompiles); pr_gas_multiplier := multiplier |}.

Definition pr_addresses (r : PrecompileRegistry) : list N := (map_to_list r.(pr_precompiles)).*1.

Record PrecompileInfo := {
  pi_address : N;
  pi_name : string;
  pi_min_input : N;
  pi_max_input : N;
}.

Definition pr_info (r : PrecompileRegistry) (address : N) : option PrecompileInfo :=
  (λ p, {| pi_address := address; pi_name := p.(po_name); pi_min_input := p.(po_min_input_length);
           pi_max_input := p.(po_max_input_length) |}) <$> r.(pr_precompiles) !! address.

Section registry.
Context `{Build, Arkworks, TeeEnv, SignatureLib}.

Definition sha256_object := object ADDR_SHA256 "SHA256" 0 Sha256Precompile.
Definition identity_object := object ADDR_IDENTITY "IDENTITY" 0 IdentityPrecompile.
Definition ecdsa_object := object ADDR_ECDSA_RECOVER "ECDSA_RECOVER" 128 EcdsaRecoverPrecompile.
Definition dilithium_object :=
  object ADDR_DILITHIUM_VERIFY "DILITHIUM3_VERIFY" (dilithium_min_length Level3)
    (DilithiumVerifyPrecompile Level3).
Definition kyber_object :=
  object ADDR_KYBER_DECAPS "KYBER768_DECAPS" (kyber_min_length Kyber768)
    (KyberDecapsPrecompile Kyber768).
Definition hybrid_object :=
  object ADDR_HYBRID_VERIFY "HYBRID_VERIFY" hybrid_min_length HybridVerifyPrecompile.

Definition groth16_object :=
  object ADDR_GROTH16_VERIFY "GROTH16_VERIFY" (vk_size Bn254 + proof_size Bn254 + 32)
    (Groth16VerifyPrecompile Bn254).
Definition plonk_object :=
  object ADDR_PLONK_VERIFY "PLONK_VERIFY" plonk_min_length PlonkVerifyPrecompile.
Definition ezkl_object := object ADDR_EZKL_VERIFY "EZKL_VERIFY" 72 EzklVerifyPrecompile.
Definition halo2_object := object ADDR_HALO2_VERIFY "HALO2_VERIFY" 256 Halo2VerifyPrecompile.
Definition stark_object :=
  object ADDR_STARK_VERIFY "STARK_VERIFY" stark_min_length StarkVerifyPrecompile.
Definition batch_object :=
  object ADDR_BATCH_GROTH16_VERIFY "BATCH_GROTH16_VERIFY" 4 BatchGroth16VerifyPrecompile.
Definition unified_object := object ADDR_ZKP_VERIFY "ZKP_VERIFY" 2 UnifiedZkpVerifyPrecompile.

(** Both registries install the enterprise configuration and no measurements. *)
Definition tee_object :=
  object ADDR_TEE_VERIFY "TEE_VERIFY" 96
    (UniversalTeeVerifyPrecompile TeeVerifierConfig_enterprise MeasurementRegistry_new).
Definition nitro_object :=
  object ADDR_TEE_VERIFY_NITRO "NITRO_VERIFY" 196
    (NitroVerifyPrecompile TeeVerifierConfig_enterprise MeasurementRegistry_new).
Definition sgx_object :=
  object ADDR_TEE_VERIFY_SGX "SGX_DCAP_VERIFY" 532
    (SgxDcapVerifyPrecompile TeeVerifierConfig_enterprise MeasurementRegistry_new).
Definition sev_object :=
  object ADDR_TEE_VERIFY_SEV "SEV_SNP_VERIFY" (96 + 672)
    (SevSnpVerifyPrecompile TeeVerifierConfig_enterprise MeasurementRegistry_new).

Definition register_standard_precompiles (r : PrecompileRegistry) : PrecompileRegistry :=
  pr_register ecdsa_object (pr_register identity_object (pr_register sha256_object r)).

Definition register_pqc_precompiles (r : PrecompileRegistry) : PrecompileRegistry :=
  pr_register hybrid_object (pr_register kyber_object (pr_register dilithium_object r)).

Definition register_zkp_precompiles (r : PrecompileRegistry) : PrecompileRegistry :=
  pr_register batch_object
    (pr_register stark_object (pr_register halo2_object (pr_register ezkl_object
      (pr_register plonk_object (pr_register groth16_object (pr_register unified_object r)))))).

Definition register_tee_precompiles (r : PrecompileRegistry) : PrecompileRegistry :=
  pr_register sev_object
    (pr_register sgx_object (pr_register nitro_object (pr_register tee_object r))).

Definition PrecompileRegistry_new : PrecompileRegistry :=
  register_tee_precompiles (register_zkp_precompiles
    (register_pqc_precompiles (register_standard_precompiles PrecompileRegistry_minimal))).
End registry.

(** ** [DynamicRegistry] *)
Record DynamicRegistry := {
  dr_precompiles : gmap N PrecompileObject;
  dr_gas_multiplier : f64;
  dr_version : N;
}.

Definition DynamicRegistry_new : DynamicRegistry :=
  {| dr_precompiles := ∅; dr_gas_multiplier := ONE; dr_version := 0 |}.

Definition dr_with (p : gmap N PrecompileObject) (m : f64) (v : N) : DynamicRegistry :=
  {| dr_precompiles := p; dr_gas_multiplier := m; dr_version := v |}.

Definition DynM := M PrecompileError DynamicRegistry.

Section dynamic.
Context `{Build}.

Definition dr_bump_version : DynM unit :=
  r ← get;
  version ← lift (u_add U64_MAX r.(dr_version) 1);
  modify (λ r, dr_with r.(dr_precompiles) r.(dr_gas_multiplier) version).

Definition dr_register (p : PrecompileObject) : DynM bool :=
  r ← get;
  if bool_decide (is_Some (r.(dr_precompiles) !! p.(po_address))) then mret false
  else
  modify (λ r, dr_with (<[p.(po_address) := p]> r.(dr_precompiles)) r.(dr_gas_multiplier)
                 r.(dr_version)) ;;
  dr_bump_version ;;
  mret true.

Definition dr_unregister (address : N) : DynM bool :=
  r ← get;
  let removed := bool_decide (is_Some (r.(dr_precompiles) !! address)) in
  modify (λ r, dr_with (delete address r.(dr_precompiles)) r.(dr_gas_multiplier) r.(dr_version)) ;;
  when removed dr_bump_version ;;
  mret removed.

Definition dr_set_gas_multiplier (multiplier : f64) : DynM unit :=
  modify (λ r, dr_with r.(dr_precompiles) multiplier r.(dr_version)) ;;
  dr_bump_version.
End dynamic.

Definition dr_is_precompile (r : DynamicRegistry) (address : N) : bool :=
  bool_decide (is_Some (r.(dr_precompiles) !! address)).

Definition dr_execute (r : DynamicRegistry) (address : N) (input : bytes) (gas_limit : N)
  : outcome PrecompileError ExecutionResult :=
  execute_at r.(dr_precompiles) r.(dr_gas_multiplier) address input gas_limit.

Definition dr_addresses (r : DynamicRegistry) : list N := (map_to_list r.(dr_precompiles)).*1.

Record DynPrecompileInfo := {
  dpi_address : N;
  dpi_name : string;
  dpi_min_input : N;
  dpi_max_input : N;
  dpi_base_gas : N;
}.

Definition dyn_info (address : N) (p : PrecompileObject) : DynPrecompileInfo :=
  {| dpi_address := address; dpi_name := p.(po_name); dpi_min_input := p.(po_min_input_length);
     dpi_max_input := p.(po_max_input_length); dpi_base_gas := pc_gas_cost p.(po_methods) [] |}.

Definition dr_info (r : DynamicRegistry) (address : N) : option DynPrecompileInfo :=
  dyn_info address <$> r.(dr_precompiles) !! address.
Definition dr_all_info (r : DynamicRegistry) : list DynPrecompileInfo :=
  (λ ap, dyn_info ap.1 ap.2) <$> map_to_list r.(dr_precompiles).

(** ** The builder *)
Record RegistryBuilder := {
  rb_precompiles : list PrecompileObject;
  rb_gas_multiplier : f64;
}.

Definition RegistryBuilder_new : RegistryBuilder :=
  {| rb_precompiles := []; rb_gas_multiplier := ONE |}.
Definition rb_add (p : PrecompileObject) (b : RegistryBuilder) : RegistryBuilder :=
  {| rb_precompiles := b.(rb_precompiles) ++ [p]; rb_gas_multiplier := b.(rb_gas_multiplier) |}.
Definition with_gas_multiplier (multiplier : f64) (b : RegistryBuilder) : RegistryBuilder :=
  {| rb_precompiles := b.(rb_precompiles); rb_gas_multiplier := multiplier |}.

Section builder.
Context `{Build, Arkworks, TeeEnv, SignatureLib}.

Definition with_standard (b : RegistryBuilder) : RegistryBuilder :=
  rb_add ecdsa_object (rb_add identity_object (rb_add sha256_object b)).
Definition with_pqc (b : RegistryBuilder) : RegistryBuilder :=
  rb_add hybrid_object (rb_add kyber_object (rb_add dilithium_object b)).
Definition with_zkp (b : RegistryBuilder) : RegistryBuilder :=
  rb_add unified_object (rb_add halo2_object (rb_add ezkl_object
    (rb_add plonk_object (rb_add groth16_object b)))).
Definition with_tee (b : RegistryBuilder) : RegistryBuilder :=
  rb_add tee_object (rb_add sev_object (rb_add sgx_object (rb_add nitro_object b))).
Definition with_aethelred (b : RegistryBuilder) : RegistryBuilder :=
  with_tee (with_zkp (with_pqc (with_standard b))).

Definition rb_build (b : RegistryBuilder) : outcome PrecompileError DynamicRegistry :=
  match (dr_set_gas_multiplier b.(rb_gas_multiplier) ;;
         for_each b.(rb_precompiles) (λ p, dr_register p ;; mret tt)) DynamicRegistry_new with
  | (Ok _, r) => Ok r
  | (Err e, _) => Err e
  | (Panic, _) => Panic
  | (Blocked, _) => Blocked
  end.

Definition create_aethelred_registry : outcome PrecompileError DynamicRegistry :=
  rb_build (with_aethelred RegistryBuilder_new).
End builder.
