(* ===== verification/RegistrySpec.v ===== *)
(** * What the precompile registries guarantee

    Two interfaces that every precompile of the standard registry implements:
    [Returning], no input makes it panic, and [Metered], its gas is covered by the
    limit.  The theorems on the registry are proved from the interfaces. *)
From S2P Require Import Prelude SysTypes F64 Precompile Tee TeeSpec Zkp ZkpSpec ZkpBatch CryptoPrecompiles Registry.
From stdpp Require Import base gmap list strings.
From Stdlib Require Import ZArith Lia.
#[local] Open Scope N_scope.

Class Returning (p : Precompile) : Prop :=
  returning input limit : returns (pc_execute p input limit).

Class ExactlyMetered (p : Precompile) : Prop :=
  exactly_metered input limit r : pc_execute p input limit = Ok r →
    r.(er_gas_used) = pc_gas_cost p input ∧ pc_gas_cost p input <= limit.

Class Metered (p : Precompile) : Prop :=
  metered input limit r : pc_execute p input limit = Ok r →
    r.(er_gas_used) <= pc_gas_cost p input ∧ pc_gas_cost p input <= limit.

#[export] Instance exactly_metered_metered p : ExactlyMetered p → Metered p.
Proof. intros He input limit r Hr. destruct (He _ _ _ Hr). split; lia. Qed.

(** ** Gas *)

(** What holds of every result of the call. *)
Definition yields (P : ExecutionResult → Prop) (o : outcome PrecompileError ExecutionResult) : Prop :=
  ∀ r, o = Ok r → P r.

Lemma yields_bind {A} P (o : outcome PrecompileError A) k :
  (∀ a, yields P (k a)) → yields P (o ≫= k).
Proof. intros Hk r. destruct o as [a| | |]; cbn; [apply Hk|done..]. Qed.

Lemma yields_ok (P : ExecutionResult → Prop) r : P r → yields P (Ok r).
Proof. by intros HP ? [= <-]. Qed.

Lemma yields_err P e : yields P (Err e).
Proof. done. Qed.

Lemma yields_require P n input k : yields P k → yields P (require_length n input k).
Proof. intros Hk. unfold require_length. by case_bool_decide. Qed.

Lemma yields_charge P gas limit k r : yields P k → charge gas limit k = Ok r → P r ∧ gas <= limit.
Proof. intros Hk. unfold charge. case_bool_decide; [done|]. intros Hr. split; [by apply Hk|lia]. Qed.

Ltac yields_steps :=
  repeat first
    [ apply yields_err | apply yields_require | apply yields_bind; intros ?
    | match goal with
      | |- yields _ (let _ := _ in _) => progress cbv zeta
      | |- yields _ (let '_ := ?x in _) => destruct x eqn:?
      | |- yields _ (match ?x with _ => _ end) => destruct x eqn:?
      end
    | apply yields_ok | done ].
Ltac metered_by_charge :=
  intros input limit r; apply (yields_charge (λ r, r.(er_gas_used) = _)); yields_steps.

Section instances.
Context `{Build, Arkworks, TeeEnv, SignatureLib}.

#[export] Instance sha256_metered : ExactlyMetered Sha256Precompile.
Proof. metered_by_charge. Qed.
#[export] Instance identity_metered : ExactlyMetered IdentityPrecompile.
Proof. metered_by_charge. Qed.
#[export] Instance ecdsa_metered : ExactlyMetered EcdsaRecoverPrecompile.
Proof. metered_by_charge. Qed.
#[export] Instance dilithium_metered l : ExactlyMetered (DilithiumVerifyPrecompile l).
Proof. metered_by_charge. Qed.
#[export] Instance kyber_metered l : ExactlyMetered (KyberDecapsPrecompile l).
Proof. metered_by_charge. Qed.
#[export] Instance hybrid_metered : ExactlyMetered HybridVerifyPrecompile.
Proof. metered_by_charge. Qed.
#[export] Instance groth16_metered c : ExactlyMetered (Groth16VerifyPrecompile c).
Proof. metered_by_charge. Qed.
#[export] Instance batch_metered : ExactlyMetered BatchGroth16VerifyPrecompile.
Proof. metered_by_charge. Qed.
#[export] Instance plonk_metered : ExactlyMetered PlonkVerifyPrecompile.
Proof. metered_by_charge. Qed.
#[export] Instance ezkl_metered : ExactlyMetered EzklVerifyPrecompile.
Proof. metered_by_charge. Qed.
#[export] Instance halo2_metered : ExactlyMetered Halo2VerifyPrecompile.
Proof. metered_by_charge. Qed.
#[export] Instance stark_metered : ExactlyMetered StarkVerifyPrecompile.
Proof. metered_by_charge. Qed.
#[export] Instance sgx_metered config registry : ExactlyMetered (SgxDcapVerifyPrecompile config registry).
Proof. metered_by_charge. Qed.
#[export] Instance nitro_metered config registry : ExactlyMetered (NitroVerifyPrecompile config registry).
Proof. metered_by_charge. Qed.
#[export] Instance sev_metered config registry : ExactlyMetered (SevSnpVerifyPrecompile config registry).
Proof. metered_by_charge. Qed.
End instances.

(** ** Returning *)
Lemma returns_require {A} n input (k : outcome PrecompileError A) :
  (n <= blen input → returns k) → returns (require_length n input k).
Proof. intros Hk. unfold require_length. case_bool_decide; [done|]. apply Hk. lia. Qed.

Lemma returns_or_invalid v : returns v → returns (or_invalid v).
Proof. by destruct v. Qed.

Lemma le_u32_returns {E} a bs : a + 4 <= blen bs → returns (le_u32 (E:=E) a bs).
Proof. intros. apply returns_bind; [apply slice_returns; lia|done]. Qed.

Lemma blen_slice {E} a b bs x : slice (E:=E) a b bs = Ok x → blen x = b - a.
Proof.
  unfold slice. case_bool_decide; [|done]. case_bool_decide; [|done]. cbn. intros [= <-].
  unfold blen in *. rewrite length_take, length_drop. lia.
Qed.

(** The laws of the other libraries are interfaces too. *)
Existing Class ark_returns.
Existing Class env_returns.

(** What is left to the libraries: a Keccak digest has 32 bytes and an encoded key
    has some. *)
Class SignatureLibLaws `{SignatureLib} : Prop := {
  keccak_32 bs : length (lib_keccak256 bs) = 32%nat;
  recovered_key hash sig id key : k256_recover hash sig id = Some key → key ≠ [];
}.

(** A bind whose first part is known to return. *)
Lemma returns_bind_eq {E A B} (o : outcome E A) (k : A → outcome E B) :
  returns o → (∀ a, o = Ok a → returns (k a)) → returns (o ≫= k).
Proof. destruct o; cbn; auto. Qed.

Ltac returns_go :=
  repeat first
    [ exact I
    | apply returns_charge
    | apply returns_require; intros ?
    | case_bool_decide; [exact I|]
    | apply returns_bind_eq;
        [first [ apply slice_returns; unfold blen in *; lia
               | apply le_u32_returns; unfold blen in *; lia ]
        |intros ?; let Hs := fresh "Hs" in intros Hs; try apply blen_slice in Hs]
    | match goal with
      | |- returns (let _ := _ in _) => progress cbv zeta
      | |- returns (match ?x with _ => _ end) => destruct x eqn:?
      end ].

Section returning_instances.
Context `{Build, Arkworks, TeeEnv, SignatureLib}.

#[export] Instance sha256_returning : Returning Sha256Precompile.
Proof. intros input limit. apply returns_charge. exact I. Qed.
#[export] Instance identity_returning : Returning IdentityPrecompile.
Proof. intros input limit. apply returns_charge. exact I. Qed.

#[export] Instance ecdsa_returning : SignatureLibLaws → Returning EcdsaRecoverPrecompile.
Proof.
  intros Hlaws input limit. cbn [pc_execute EcdsaRecoverPrecompile]. unfold ecdsa_execute.
  returns_go. rename select (k256_recover _ _ _ = Some _) into Hkey.
  apply recovered_key in Hkey. apply returns_bind_eq.
  - apply slice_returns; [|lia]. destruct l; [done|]. unfold blen. cbn [length]. lia.
  - intros pk _. apply returns_bind_eq; [|done]. apply slice_returns; [lia|].
    unfold blen. by rewrite keccak_32.
Qed.

#[export] Instance dilithium_returning l : Returning (DilithiumVerifyPrecompile l).
Proof.
  intros input limit. cbn [pc_execute DilithiumVerifyPrecompile]. unfold dilithium_execute.
  returns_go.
Qed.

#[export] Instance kyber_returning l : Returning (KyberDecapsPrecompile l).
Proof.
  intros input limit. cbn [pc_execute KyberDecapsPrecompile]. unfold kyber_execute, kyber_min_length.
  returns_go.
Qed.

#[export] Instance hybrid_returning : Returning HybridVerifyPrecompile.
Proof.
  intros input limit. cbn [pc_execute HybridVerifyPrecompile].
  unfold hybrid_execute, hybrid_public_key_size, hybrid_signature_size. returns_go.
Qed.

#[export] Instance groth16_returning c : ark_returns → Returning (Groth16VerifyPrecompile c).
Proof.
  intros Hark input limit. cbn [pc_execute Groth16VerifyPrecompile]. unfold groth16_execute.
  returns_go. apply returns_bind; [|done]. by apply returns_or_invalid, verify_groth16_returns.
Qed.

Lemma entry_header_returns {E} offset input :
  offset + 12 <= blen input → returns (entry_header (E:=E) offset input).
Proof. intros. unfold entry_header. returns_go. Qed.

Lemma batch_entries_return n i offset input :
  ark_returns → returns (batch_entries n i offset input).
Proof.
  intros Hark. revert i offset. induction n as [|n IH]; intros i offset; cbn [batch_entries]; [done|].
  case_bool_decide; [done|]. apply returns_bind; [apply entry_header_returns; lia|].
  intros [[vk pf] k]. returns_go. apply returns_bind; [by apply returns_or_invalid, verify_groth16_returns|].
  intros []; [apply IH|done].
Qed.

#[export] Instance batch_returning : ark_returns → Returning BatchGroth16VerifyPrecompile.
Proof.
  intros Hark input limit. cbn [pc_execute BatchGroth16VerifyPrecompile]. unfold batch_execute.
  returns_go. apply returns_bind; [by apply batch_entries_return|done].
Qed.

#[export] Instance plonk_returning : Returning PlonkVerifyPrecompile.
Proof.
  intros input limit. cbn [pc_execute PlonkVerifyPrecompile]. unfold plonk_execute, plonk_min_length.
  returns_go. apply returns_bind; [|done]. apply returns_or_invalid. unfold verify_plonk_proof.
  destruct feature_zkp; [|done]. by case_bool_decide.
Qed.

#[export] Instance ezkl_returning : Returning EzklVerifyPrecompile.
Proof.
  intros input limit. cbn [pc_execute EzklVerifyPrecompile]. unfold ezkl_execute.
  apply returns_charge. destruct (parse_header input) as [header|]; [|done].
  cbn [from_option mbind outcome_bind]. destruct (negb _); [done|]. returns_go.
  apply returns_bind; [|done]. apply returns_or_invalid. unfold verify_ezkl_proof.
  destruct feature_zkp; [|done]. by destruct (ezkl_backend header).
Qed.

#[export] Instance halo2_returning : Returning Halo2VerifyPrecompile.
Proof.
  intros input limit. cbn [pc_execute Halo2VerifyPrecompile]. unfold halo2_execute, verify_halo2_proof.
  returns_go. by destruct feature_zkp.
Qed.

#[export] Instance stark_returning : Returning StarkVerifyPrecompile.
Proof.
  intros input limit. cbn [pc_execute StarkVerifyPrecompile]. unfold stark_execute, stark_min_length.
  returns_go. apply returns_bind; [|done]. apply returns_or_invalid. unfold verify_stark_proof.
  destruct feature_zkp; [|done]. by case_bool_decide.
Qed.

Lemma subverifier_interfaces tag verifier :
  detect_proof_system tag = Some verifier →
  ExactlyMetered verifier ∧ (ark_returns → Returning verifier).
Proof.
  unfold detect_proof_system. intros Htag.
  repeat match type of Htag with context [match ?t with _ => _ end] => destruct t end;
    try discriminate Htag; injection Htag as <-; (split; [apply _|intros ?; apply _]).
Qed.

#[export] Instance unified_returning : ark_returns → Returning UnifiedZkpVerifyPrecompile.
Proof.
  intros Hark [|tag data] limit; cbn [pc_execute UnifiedZkpVerifyPrecompile unified_execute]; [done|].
  apply returns_charge. destruct (detect_proof_system tag) as [v|] eqn:Ht; [|done].
  by apply (proj2 (subverifier_interfaces _ _ Ht)).
Qed.

#[export] Instance unified_metered : Metered UnifiedZkpVerifyPrecompile.
Proof.
  intros [|tag data] limit r; cbn [pc_execute UnifiedZkpVerifyPrecompile unified_execute]; [done|].
  unfold charge. case_bool_decide; [done|]. cbn [pc_gas_cost unified_gas_cost].
  destruct (detect_proof_system tag) as [v|] eqn:Ht; [|done]. intros Hr.
  destruct (proj1 (subverifier_interfaces _ _ Ht) _ _ _ Hr). cbn in *. rewrite Ht in *. lia.
Qed.

#[export] Instance sgx_returning config registry :
  env_returns → Returning (SgxDcapVerifyPrecompile config registry).
Proof. intros Henv input limit. by apply sgx_returns. Qed.
#[export] Instance nitro_returning config registry :
  env_returns → Returning (NitroVerifyPrecompile config registry).
Proof. intros Henv input limit. by apply nitro_returns. Qed.
#[export] Instance sev_returning config registry : Returning (SevSnpVerifyPrecompile config registry).
Proof. intros input limit. apply sev_returns. Qed.
#[export] Instance tee_returning config registry :
  env_returns → Returning (UniversalTeeVerifyPrecompile config registry).
Proof. intros Henv input limit. by apply tee_total. Qed.

Lemma strip_platform_shorter input : blen (strip_platform input) <= blen input.
Proof. destruct input as [|b data]; cbn; [done|]. case_bool_decide; unfold blen; cbn [length]; lia. Qed.

Lemma detects_no_epid input : detect_platform input ≠ Some PfSgxEpid.
Proof.
  unfold detect_platform. repeat case_match; discriminate.
Qed.

#[export] Instance tee_metered config registry : Metered (UniversalTeeVerifyPrecompile config registry).
Proof.
  intros input limit r. cbn [pc_execute UniversalTeeVerifyPrecompile pc_gas_cost].
  unfold tee_execute, charge, tee_gas_cost. case_bool_decide as Hgas; [done|].
  destruct (detect_platform input) as [p|] eqn:Hp; [|done]. cbn [from_option mbind outcome_bind].
  destruct (_ && _); [done|]. destruct (_ && _); [done|].
  pose proof (strip_platform_shorter input) as Hlen.
  apply (N.Div0.div_le_mono _ _ 1024) in Hlen.
  pose proof (detects_no_epid input).
  destruct p; intros Hr; try done.
  - apply (nitro_metered config registry) in Hr as [Hu _].
    cbn [pc_gas_cost NitroVerifyPrecompile] in Hu. unfold nitro_gas_cost in *. lia.
  - apply (sgx_metered config registry) in Hr as [Hu _].
    cbn [pc_gas_cost SgxDcapVerifyPrecompile] in Hu. unfold sgx_gas_cost in *. lia.
  - apply (sev_metered config registry) in Hr as [Hu _].
    cbn [pc_gas_cost SevSnpVerifyPrecompile] in Hu. unfold sev_gas_cost in *. lia.
Qed.
End returning_instances.
