(* ===== verification/Host.v ===== *)
(** * Host functions

    [crates/vm/src/host.rs]: what a WASM module can ask of the virtual machine.  The
    functions read the context and return a [HostResult]; those that run a precompile
    pass the gas that remains in the meter as its limit.  The clock and the log are
    left out. *)
From S2P Require Import Prelude SysTypes F64 Precompile Zkp CryptoPrecompiles Registry Gas.
From stdpp Require Import base gmap list strings pretty.
From Stdlib Require Import ZArith Lia.
#[local] Open Scope N_scope.

Record HostContext := {
  hc_gas_meter : GasMeter;
  hc_precompiles : PrecompileRegistry;
  hc_block_number : N;
  hc_block_timestamp : N;
  hc_chain_id : N;
  hc_caller : option Address;
  hc_contract : option Address;
}.

Definition HostContext_new (gas_meter : GasMeter) (precompiles : PrecompileRegistry)
  : HostContext := {|
  hc_gas_meter := gas_meter; hc_precompiles := precompiles; hc_block_number := 0;
  hc_block_timestamp := 0; hc_chain_id := 1; hc_caller := None; hc_contract := None |}.

Definition with_block_info (number timestamp chain_id : N) (c : HostContext) : HostContext := {|
  hc_gas_meter := c.(hc_gas_meter); hc_precompiles := c.(hc_precompiles);
  hc_block_number := number; hc_block_timestamp := timestamp; hc_chain_id := chain_id;
  hc_caller := c.(hc_caller); hc_contract := c.(hc_contract) |}.

Definition with_addresses (caller contract : Address) (c : HostContext) : HostContext := {|
  hc_gas_meter := c.(hc_gas_meter); hc_precompiles := c.(hc_precompiles);
  hc_block_number := c.(hc_block_number); hc_block_timestamp := c.(hc_block_timestamp);
  hc_chain_id := c.(hc_chain_id); hc_caller := Some caller; hc_contract := Some contract |}.

Inductive HostResult :=
| HostSuccess (data : bytes)
| HostError (code : N) (message : string).

Definition hr_is_success (r : HostResult) : bool :=
  match r with HostSuccess _ => true | HostError _ _ => false end.
Definition hr_data (r : HostResult) : option bytes :=
  match r with HostSuccess data => Some data | HostError _ _ => None end.
Definition hr_error_code (r : HostResult) : option N :=
  match r with HostSuccess _ => None | HostError code _ => Some code end.

(** A call of a precompile that unwinds takes the host function with it. *)
Definition host_run (o : outcome PrecompileError ExecutionResult)
  (on_result : ExecutionResult → HostResult) (on_error : PrecompileError → HostResult)
  : outcome string HostResult :=
  match o with
  | Ok result => Ok (on_result result)
  | Err e => Ok (on_error e)
  | Panic => Panic
  | Blocked => Blocked
  end.

Definition precompile_error (e : PrecompileError) : string :=
  "Precompile error: " +:+ PrecompileError_to_string e.

Section host.
Context `{SignatureLib}.

(** ** Signatures *)
Definition verify_ecdsa (message signature public_key : bytes) : HostResult :=
  if negb (bool_decide (blen signature = 64)) then HostError 1 "Invalid signature length"
  else if negb (bool_decide (blen public_key = 33)) && negb (bool_decide (blen public_key = 65)) then
    HostError 2 "Invalid public key length"
  else if negb (k256_signature_ok signature) then HostError 3 "Invalid ECDSA signature encoding"
  else if negb (k256_key_ok public_key) then HostError 4 "Invalid ECDSA public key"
  else if k256_verify public_key message signature then HostSuccess [1]
  else HostError 5 "ECDSA signature verification failed".

Definition set_name (s : DilithiumSet) : string :=
  match s with
  | Dilithium2 => "Dilithium2" | Dilithium3 => "Dilithium3" | Dilithium5 => "Dilithium5"
  end.

(** The sizes of the key and the signature choose the parameter set. *)
Definition sizes_match (s : DilithiumSet) (public_key signature : bytes) : bool :=
  bool_decide (blen public_key = dilithium_key_bytes s)
  && bool_decide (blen signature = dilithium_signature_bytes s).

Definition verify_dilithium_set (s : DilithiumSet) (message signature public_key : bytes)
  : HostResult :=
  if negb (dilithium_key_ok s public_key) then
    HostError 2 ("Invalid " +:+ set_name s +:+ " public key")
  else if negb (dilithium_signature_ok s signature) then
    HostError 3 ("Invalid " +:+ set_name s +:+ " signature")
  else if dilithium_verify s signature message public_key then HostSuccess [1]
  else HostError 4 "Dilithium signature verification failed".

Definition verify_dilithium (message signature public_key : bytes) : HostResult :=
  if sizes_match Dilithium2 public_key signature then
    verify_dilithium_set Dilithium2 message signature public_key
  else if sizes_match Dilithium3 public_key signature then
    verify_dilithium_set Dilithium3 message signature public_key
  else if sizes_match Dilithium5 public_key signature then
    verify_dilithium_set Dilithium5 message signature public_key
  else HostError 1 ("Unsupported Dilithium key/signature sizes: pk=" +:+ pretty (blen public_key)
                    +:+ " sig=" +:+ pretty (blen signature)).

Definition verify_hybrid (message classical_sig quantum_sig classical_pk quantum_pk : bytes)
  : HostResult :=
  if negb (hr_is_success (verify_ecdsa message classical_sig classical_pk)) then
    HostError 1 "Classical signature verification failed"
  else if negb (hr_is_success (verify_dilithium message quantum_sig quantum_pk)) then
    HostError 2 "Quantum signature verification failed"
  else HostSuccess [1].

Definition host_sha256 (data : bytes) : HostResult := HostSuccess (lib_sha256 data).
Definition host_keccak256 (data : bytes) : HostResult := HostSuccess (lib_keccak256 data).
End host.

(** ** Attestations *)
Definition tee_address (platform : N) : option N :=
  match platform with
  | 0 => Some ADDR_TEE_VERIFY_NITRO
  | 1 => Some ADDR_TEE_VERIFY_SGX
  | 2 => Some ADDR_TEE_VERIFY_SEV
  | _ => None
  end.

Definition tee_host_result (expected_measurement : bytes) (result : ExecutionResult) : HostResult :=
  if result.(er_success) then
    if negb (bool_decide (expected_measurement = [])) && bool_decide (32 <= blen result.(er_output))
       && negb (bool_decide (take 32 result.(er_output) = expected_measurement))
    then HostError 2 "Measurement mismatch"
    else HostSuccess result.(er_output)
  else HostError 3 "Attestation verification failed".

Definition host_verify_tee_attestation (ctx : HostContext) (platform : N)
  (attestation expected_measurement : bytes) : outcome string HostResult :=
  match tee_address platform with
  | None => Ok (HostError 1 "Unknown TEE platform")
  | Some address =>
      host_run (pr_execute ctx.(hc_precompiles) address attestation (remaining ctx.(hc_gas_meter)))
        (tee_host_result expected_measurement) (λ e, HostError 4 (precompile_error e))
  end.

(** ** Proofs *)
Definition zkp_address (proof_type : N) : option N :=
  match proof_type with
  | 0 => Some ADDR_GROTH16_VERIFY
  | 1 => Some ADDR_PLONK_VERIFY
  | 2 => Some ADDR_EZKL_VERIFY
  | 3 => Some ADDR_HALO2_VERIFY
  | _ => None
  end.

(** [(bs.len() as u32).to_le_bytes()] and the bytes. *)
Definition prefixed (bs : bytes) : bytes := to_le_bytes 4 (cast U32_MAX (blen bs)) ++ bs.

Definition zkp_input (proof verification_key public_inputs : bytes) : bytes :=
  prefixed proof ++ prefixed verification_key ++ prefixed public_inputs.

Definition zkp_host_result (result : ExecutionResult) : HostResult :=
  if result.(er_success) then HostSuccess result.(er_output)
  else HostError 2 "Proof verification failed".

Definition host_verify_zkp (ctx : HostContext) (proof_type : N)
  (proof verification_key public_inputs : bytes) : outcome string HostResult :=
  match zkp_address proof_type with
  | None => Ok (HostError 1 "Unknown proof type")
  | Some address =>
      host_run (pr_execute ctx.(hc_precompiles) address (zkp_input proof verification_key public_inputs)
                  (remaining ctx.(hc_gas_meter)))
        zkp_host_result (λ e, HostError 3 (precompile_error e))
  end.

(** ** Environment *)
Definition gas_remaining (ctx : HostContext) : N := remaining ctx.(hc_gas_meter).
Definition host_gas_used (ctx : HostContext) : N := ctx.(hc_gas_meter).(gm_used).

Inductive LogLevel := LlTrace | LlDebug | LlInfo | LlWarn | LlError.

Definition LogLevel_from (v : N) : LogLevel :=
  match v with 0 => LlTrace | 1 => LlDebug | 2 => LlInfo | 3 => LlWarn | _ => LlError end.
