(* ===== verification/VmSpec.v ===== *)
(** * The virtual machine's precompiles as a whole

    The standard registry never panics and never overspends, the two registries
    agree where both answer, the hybrid verifier reads the documented layout, and
    what the host functions make of a verdict. *)
From S2P Require Import Prelude SysTypes F64 Precompile Tee TeeSpec Zkp ZkpSpec ZkpBatch CryptoPrecompiles Registry RegistrySpec Gas Host.
From stdpp Require Import base gmap list strings.
From Stdlib Require Import ZArith Lia SpecFloat.
#[local] Open Scope N_scope.

Section registry.
Context `{Build, Arkworks, TeeEnv, SignatureLib}.

Definition standard_objects : list PrecompileObject :=
  [sha256_object; identity_object; ecdsa_object; dilithium_object; kyber_object; hybrid_object;
   unified_object; groth16_object; plonk_object; ezkl_object; halo2_object; stark_object;
   batch_object; tee_object; nitro_object; sgx_object; sev_object].

Definition standard_map : gmap N PrecompileObject := pr_precompiles PrecompileRegistry_new.

(** The registry holds exactly these objects, each at its own address. *)
Lemma standard_lookup a p : standard_map !! a = Some p → p ∈ standard_objects ∧ p.(po_address) = a.
Proof.
  unfold standard_map, PrecompileRegistry_new, register_tee_precompiles, register_zkp_precompiles,
    register_pqc_precompiles, register_standard_precompiles.
  cbn [pr_precompiles pr_register PrecompileRegistry_minimal]. intros Hp.
  repeat (apply lookup_insert_Some in Hp as [[<- <-]|[_ Hp]];
          [split; [unfold standard_objects; set_solver|done]|]).
  by rewrite lookup_empty in Hp.
Qed.

Lemma standard_registered p : p ∈ standard_objects → standard_map !! p.(po_address) = Some p.
Proof.
  unfold standard_objects. rewrite !elem_of_cons, elem_of_nil.
  intros Hp. repeat destruct Hp as [->|Hp]; [done..|destruct Hp].
Qed.

Lemma standard_at p q : p ∈ standard_objects → standard_map !! p.(po_address) = Some q → q = p.
Proof. intros Hp Hq. rewrite (standard_registered p Hp) in Hq. congruence. Qed.

Lemma standard_returning p `{!ark_returns, !env_returns, !SignatureLibLaws} :
  p ∈ standard_objects → Returning p.(po_methods).
Proof.
  unfold standard_objects. rewrite !elem_of_cons, elem_of_nil.
  intros Hp. repeat destruct Hp as [->|Hp]; [cbn [po_methods object]; apply _..|destruct Hp].
Qed.

Lemma standard_metered p :
  p ∈ standard_objects →
  Metered p.(po_methods)
  ∧ (p.(po_address) ≠ ADDR_ZKP_VERIFY → p.(po_address) ≠ ADDR_TEE_VERIFY →
     ExactlyMetered p.(po_methods)).
Proof.
  unfold standard_objects. rewrite !elem_of_cons, elem_of_nil.
  intros Hp. repeat destruct Hp as [->|Hp]; [..|destruct Hp];
    (split; [apply _|intros ? ?; first [done|apply _]]).
Qed.

Lemma execute_at_ok precompiles m a input limit r :
  execute_at precompiles m a input limit = Ok r →
  ∃ p, precompiles !! a = Some p
  ∧ pc_execute p.(po_methods) input limit = Ok r
  ∧ adjusted_gas m (pc_gas_cost p.(po_methods) input) <= limit.
Proof.
  unfold execute_at. destruct (precompiles !! a) as [p|]; [|done]. unfold require_length, charge.
  case_bool_decide; [done|]. destruct (_ && _); [done|]. cbv zeta. case_bool_decide; [done|].
  intros Hr. exists p. split_and!; [done|done|lia].
Qed.

(** C33: no call of a precompile panics.  Whatever the address, the input (truncated,
    with lengths that point outside, of unknown format), the gas limit and the gas
    multiplier, a call through the standard registry returns a result or an error,
    provided the libraries behind it return. *)
Theorem precompiles_return m a input limit :
  ark_returns → env_returns → SignatureLibLaws →
  returns (pr_execute (pr_set_gas_multiplier m PrecompileRegistry_new) a input limit).
Proof.
  intros Hark Henv Hlaws. unfold pr_execute. cbn [pr_set_gas_multiplier pr_precompiles].
  fold standard_map. unfold execute_at. destruct (standard_map !! a) as [p|] eqn:Hp; [|done].
  apply returns_require. intros _. destruct (_ && _); [done|]. apply returns_charge.
  apply standard_lookup in Hp as [Hp _]. by apply standard_returning.
Qed.

(** Gas is covered by the limit and the multiplier is never charged.  When a call
    through the standard registry returns a result, the precompile's price was within
    the limit and so was the price with the multiplier; the gas reported is at most
    the bare price, and equal to it at every address but the two unified ones, which
    do not report their routing overhead.  The result is the one the precompile gives
    without any multiplier. *)
Lemma gas_metered m a input limit r :
  pr_execute (pr_set_gas_multiplier m PrecompileRegistry_new) a input limit = Ok r →
  ∃ p, p ∈ standard_objects ∧ p.(po_address) = a
  ∧ let price := pc_gas_cost p.(po_methods) input in
    r.(er_gas_used) <= price ∧ price <= limit ∧ adjusted_gas m price <= limit
    ∧ (a ≠ ADDR_ZKP_VERIFY → a ≠ ADDR_TEE_VERIFY → r.(er_gas_used) = price)
    ∧ pc_execute p.(po_methods) input limit = Ok r.
Proof.
  intros Hr. apply execute_at_ok in Hr as (p & Hp & Hr & Hadj).
  apply standard_lookup in Hp as [Hin Ha]. destruct (standard_metered p Hin) as [Hm He].
  exists p. cbv zeta. destruct (Hm _ _ _ Hr). split_and!; try done.
  intros Hz Ht. rewrite Ha in He. by destruct (He Hz Ht _ _ _ Hr).
Qed.

(** With the multiplier the registry starts with, a price below 2^53 is exact. *)
Lemma adjusted_one price : price < 2 ^ 53 → adjusted_gas ONE price = price.
Proof.
  intros Hp. pose proof (scale_exact U64_MAX price 0 Hp ltac:(lia)) as Hs.
  change (0 - 52)%Z with (-52)%Z in Hs. unfold adjusted_gas, ONE. rewrite Hs, Z.shiftl_0_r, N2Z.id. apply N.min_r. change (2 ^ 53) with 9007199254740992 in Hp. lia.
Qed.

(** A call within its limits is the call of the precompile. *)
Lemma registry_run p input limit :
  p ∈ standard_objects → p.(po_max_input_length) = 0 → p.(po_min_input_length) <= blen input →
  pc_gas_cost p.(po_methods) input < 2 ^ 53 → pc_gas_cost p.(po_methods) input <= limit →
  pr_execute PrecompileRegistry_new p.(po_address) input limit = pc_execute p.(po_methods) input limit.
Proof.
  intros Hin Hmax Hmin Hsmall Hlimit. unfold pr_execute, execute_at. fold standard_map.
  rewrite (standard_registered p Hin), require_ok by done. rewrite Hmax. cbn [andb].
  cbv zeta. rewrite adjusted_one by done. by rewrite charge_ok.
Qed.

(** ** The two registries *)
Definition dynamic_objects : list PrecompileObject :=
  (with_aethelred RegistryBuilder_new).(rb_precompiles).

Definition add_object (m : gmap N PrecompileObject) (p : PrecompileObject)
  : gmap N PrecompileObject := <[p.(po_address) := p]> m.

(** Registering distinct addresses one after the other. *)
Lemma register_all l r :
  NoDup (po_address <$> l) → (∀ p, p ∈ l → dr_precompiles r !! p.(po_address) = None) →
  dr_version r + N.of_nat (length l) <= U64_MAX →
  for_each l (λ p, dr_register p ;; mret tt) r
  = (Ok tt, dr_with (fold_left add_object l r.(dr_precompiles)) r.(dr_gas_multiplier)
              (r.(dr_version) + N.of_nat (length l))).
Proof.
  revert r. induction l as [|p l IH]; intros r Hnd Hnew Hv; cbn [for_each fold_left length].
  { rewrite N.add_0_r. by destruct r. }
  cbn [fmap list_fmap] in Hnd. apply NoDup_cons in Hnd as [Hp Hnd].
  assert ((dr_register p ;; mret tt) r
    = (Ok tt, dr_with (add_object r.(dr_precompiles) p) r.(dr_gas_multiplier) (r.(dr_version) + 1)))
    as Hreg.
  { unfold dr_register, dr_bump_version. cbv [mbind M_bind get modify lift mret M_ret].
    rewrite bool_decide_false by (rewrite (Hnew p) by left; apply is_Some_None).
    cbn [dr_version dr_with]. rewrite u_add_ok by (cbn [length] in Hv; lia). done. }
  unfold mbind at 1, M_bind at 1. rewrite Hreg. rewrite IH; [|done|..].
  - cbn [dr_precompiles dr_gas_multiplier dr_version dr_with]. do 2 f_equal. cbn [length]. lia.
  - intros q Hq. cbn [dr_precompiles dr_with]. unfold add_object. rewrite lookup_insert_ne.
    + apply Hnew. by right.
    + intros Heq. apply Hp. rewrite Heq. apply list_elem_of_fmap. eauto.
  - cbn [dr_version dr_with]. cbn [length] in Hv. lia.
Qed.

Lemma create_registry_ok :
  create_aethelred_registry
  = Ok (dr_with (fold_left add_object dynamic_objects ∅) ONE (1 + N.of_nat (length dynamic_objects))).
Proof.
  unfold create_aethelred_registry, rb_build.
  set (b := with_aethelred RegistryBuilder_new).
  assert (dr_set_gas_multiplier (rb_gas_multiplier b) DynamicRegistry_new = (Ok tt, dr_with ∅ ONE 1))
    as Hset by (by vm_compute).
  unfold mbind at 1, M_bind at 1. rewrite Hset.
  rewrite register_all; [done|..].
  - unfold b. cbn. apply (bool_decide_unpack _). by vm_compute.
  - intros p _. apply lookup_empty.
  - cbn. lia.
Qed.

Lemma dynamic_is_standard :
  fold_left add_object dynamic_objects ∅
  = delete ADDR_BATCH_GROTH16_VERIFY (delete ADDR_STARK_VERIFY standard_map).
Proof. reflexivity. Qed.

(** The two registries agree.  The registry of [registry.rs] is built without
    error, and every call returns what the registry of the virtual machine returns,
    except at two addresses, which it lacks: batch Groth16 and STARK verification. *)
Lemma registries_agree :
  ∃ r, create_aethelred_registry = Ok r
  ∧ (∀ a input limit, a ≠ ADDR_BATCH_GROTH16_VERIFY → a ≠ ADDR_STARK_VERIFY →
       dr_execute r a input limit = pr_execute PrecompileRegistry_new a input limit)
  ∧ (∀ input limit,
       dr_execute r ADDR_BATCH_GROTH16_VERIFY input limit = Err (NotFound ADDR_BATCH_GROTH16_VERIFY)
       ∧ dr_execute r ADDR_STARK_VERIFY input limit = Err (NotFound ADDR_STARK_VERIFY)).
Proof.
  eexists. split; [apply create_registry_ok|].
  unfold dr_execute, pr_execute, execute_at. cbn [dr_precompiles dr_gas_multiplier dr_with].
  rewrite dynamic_is_standard. split.
  - intros a input limit Hb Hs. by rewrite !lookup_delete_ne by done.
  - intros input limit. split.
    + by rewrite lookup_delete_eq.
    + rewrite lookup_delete_ne by done. by rewrite lookup_delete_eq.
Qed.
End registry.

Ltac in_standard := unfold standard_objects; repeat first [left | right].

(** ** Hybrid signatures *)
Record hybrid_call := {
  hy_threat_level : N;
  hy_message : bytes;
  hy_ecdsa_pk : bytes;
  hy_dilithium_pk : bytes;
  hy_ecdsa_sig : bytes;
  hy_dilithium_sig : bytes;
}.

Record hybrid_sized (c : hybrid_call) : Prop := {
  hs_message : blen c.(hy_message) <= U32_MAX;
  hs_ecdsa_pk : length c.(hy_ecdsa_pk) = 33%nat;
  hs_dilithium_pk : length c.(hy_dilithium_pk) = 1952%nat;
  hs_ecdsa_sig : length c.(hy_ecdsa_sig) = 64%nat;
  hs_dilithium_sig : length c.(hy_dilithium_sig) = 3293%nat;
}.

(** The layout of the documentation; the four marker and separator bytes and
    anything after the signature are free. *)
Definition hybrid_public_key (m s : N) (c : hybrid_call) : bytes :=
  [m] ++ c.(hy_ecdsa_pk) ++ [s] ++ c.(hy_dilithium_pk).
Definition hybrid_signature (m s : N) (c : hybrid_call) : bytes :=
  [m] ++ c.(hy_ecdsa_sig) ++ [s] ++ c.(hy_dilithium_sig).
Definition encode_hybrid (m1 s1 m2 s2 : N) (c : hybrid_call) (rest : bytes) : bytes :=
  [c.(hy_threat_level)] ++ to_le_bytes 4 (blen c.(hy_message)) ++ c.(hy_message)
  ++ hybrid_public_key m1 s1 c ++ hybrid_signature m2 s2 c ++ rest.

Lemma blen_one x : blen [x] = 1.
Proof. done. Qed.

Section hybrid.
Context `{SignatureLib} (c : hybrid_call) (Hc : hybrid_sized c).

Lemma hybrid_lengths :
  blen c.(hy_ecdsa_pk) = 33 ∧ blen c.(hy_dilithium_pk) = 1952
  ∧ blen c.(hy_ecdsa_sig) = 64 ∧ blen c.(hy_dilithium_sig) = 3293.
Proof. destruct Hc as [_ H1 H2 H3 H4]. unfold blen. rewrite H1, H2, H3, H4. done. Qed.

Lemma blen_hybrid_public_key m s : blen (hybrid_public_key m s c) = hybrid_public_key_size.
Proof.
  destruct hybrid_lengths as (H1 & H2 & _). unfold hybrid_public_key.
  rewrite !blen_app, !blen_one, H1, H2. done.
Qed.

Lemma blen_hybrid_signature m s : blen (hybrid_signature m s c) = hybrid_signature_size.
Proof.
  destruct hybrid_lengths as (_ & _ & H3 & H4). unfold hybrid_signature.
  rewrite !blen_app, !blen_one, H3, H4. done.
Qed.

(** The parts of a key and of a signature, two fields between single bytes. *)
Lemma slice_fields {E} m s (x y : bytes) b a' b' :
  b = 1 + blen x → a' = 1 + b → b' = a' + blen y →
  slice (E:=E) 1 b ([m] ++ x ++ [s] ++ y) = Ok x
  ∧ slice (E:=E) a' b' ([m] ++ x ++ [s] ++ y) = Ok y.
Proof.
  intros -> -> ->. split.
  - by apply (slice_mid [m] x ([s] ++ y)).
  - apply (slice_mid ([m] ++ x ++ [s]) y []); [app_eq|rewrite !blen_app, !blen_one; lia|done].
Qed.

Definition hybrid_verdict : bool :=
  hybrid_ecdsa_valid c.(hy_message) c.(hy_ecdsa_pk) c.(hy_ecdsa_sig)
  && hybrid_dilithium_valid c.(hy_message) c.(hy_dilithium_pk) c.(hy_dilithium_sig).

Lemma hybrid_run m1 s1 m2 s2 rest limit :
  HYBRID_VERIFY_GAS <= limit →
  hybrid_execute (encode_hybrid m1 s1 m2 s2 c rest) limit
  = Ok (ExecutionResult_success (hybrid_output hybrid_verdict c.(hy_threat_level)) HYBRID_VERIFY_GAS).
Proof.
  intros Hg. set (input := encode_hybrid _ _ _ _ _ _).
  pose proof (blen_hybrid_public_key m1 s1) as Hpk. pose proof (blen_hybrid_signature m2 s2) as Hsig.
  destruct hybrid_lengths as (H1 & H2 & H3 & H4). set (n := blen c.(hy_message)) in *.
  assert (blen input = 5 + n + hybrid_public_key_size + hybrid_signature_size + blen rest) as Hlen.
  { unfold input, encode_hybrid. rewrite !blen_app, blen_one, blen_le, Hpk, Hsig. fold n. lia. }
  unfold hybrid_execute. rewrite charge_ok by done. rewrite bool_decide_false by lia.
  rewrite (slice_mid [] [c.(hy_threat_level)] (to_le_bytes 4 n ++ c.(hy_message)
    ++ hybrid_public_key m1 s1 c ++ hybrid_signature m2 s2 c ++ rest) 0 1) by done.
  cbn [mbind outcome_bind].
  rewrite (le_u32_mid [c.(hy_threat_level)] n (c.(hy_message) ++ hybrid_public_key m1 s1 c
    ++ hybrid_signature m2 s2 c ++ rest) 1) by (done || apply Hc). cbn [mbind outcome_bind].
  cbv zeta. rewrite bool_decide_false by lia.
  rewrite (slice_mid ([c.(hy_threat_level)] ++ to_le_bytes 4 n) c.(hy_message)
    (hybrid_public_key m1 s1 c ++ hybrid_signature m2 s2 c ++ rest) 5)
    by (app_eq || (rewrite blen_app, blen_one, blen_le; done) || done). cbn [mbind outcome_bind].
  rewrite (slice_mid ([c.(hy_threat_level)] ++ to_le_bytes 4 n ++ c.(hy_message))
    (hybrid_public_key m1 s1 c) (hybrid_signature m2 s2 c ++ rest) (5 + n))
    by (app_eq || (rewrite !blen_app, blen_one, blen_le; fold n; lia) || (rewrite Hpk; lia)).
  cbn [mbind outcome_bind].
  rewrite (slice_mid ([c.(hy_threat_level)] ++ to_le_bytes 4 n ++ c.(hy_message)
    ++ hybrid_public_key m1 s1 c) (hybrid_signature m2 s2 c) rest
    (5 + n + hybrid_public_key_size));
    [|app_eq|rewrite !blen_app, blen_one, blen_le, Hpk; fold n; lia|by rewrite Hsig].
  cbn [mbind outcome_bind].
  destruct (slice_fields (E:=PrecompileError) m1 s1 c.(hy_ecdsa_pk) c.(hy_dilithium_pk) 34 35 (35 + 1952))
    as [Hp1 Hp2]; [by rewrite H1|done|by rewrite H2|].
  destruct (slice_fields (E:=PrecompileError) m2 s2 c.(hy_ecdsa_sig) c.(hy_dilithium_sig) 65 66 (66 + 3293))
    as [Hs1 Hs2]; [by rewrite H3|done|by rewrite H4|].
  unfold hybrid_public_key, hybrid_signature.
  rewrite Hp1. cbn [mbind outcome_bind]. rewrite Hp2. cbn [mbind outcome_bind].
  rewrite Hs1. cbn [mbind outcome_bind]. by rewrite Hs2.
Qed.
End hybrid.

(** The hybrid verifier reads the documented layout.  On a call laid out as
    documented, sent through the registry with enough gas, the answer is the threat
    level and one flag: set exactly when both signatures verify, the ECDSA signature
    over the SHA-256 digest of the message.  The marker and separator bytes and what
    follows the signature make no difference. *)
Lemma hybrid_envelope_exact `{Build, Arkworks, TeeEnv, SignatureLib} c m1 s1 m2 s2 rest limit :
  hybrid_sized c → HYBRID_VERIFY_GAS <= limit →
  pr_execute PrecompileRegistry_new ADDR_HYBRID_VERIFY (encode_hybrid m1 s1 m2 s2 c rest) limit
  = Ok (ExecutionResult_success
          (replicate 30 0 ++ [c.(hy_threat_level); if hybrid_verdict c then 1 else 0])
          HYBRID_VERIFY_GAS).
Proof.
  intros Hc Hg. rewrite (registry_run hybrid_object); [by apply hybrid_run|..]; try done.
  - in_standard.
  - unfold encode_hybrid. rewrite !blen_app, blen_one, blen_le, blen_hybrid_public_key,
      blen_hybrid_signature by done. cbn [po_min_input_length hybrid_object object].
    unfold hybrid_min_length. lia.
Qed.

(** ** The host's reading of a verdict *)
Section host.
Context `{Build, Arkworks, TeeEnv, SignatureLib}.

(** The output of the three attestation verifiers begins with the verdict, the
    status, the platform and a zero; the measurement comes after these. *)
Definition verdict_first (r : ExecutionResult) : Prop :=
  ∃ v status platform rest,
    r.(er_output) = [v; status; platform; 0] ++ rest ∧ (28 <= length rest)%nat.

Lemma out_field_length n bs : length (out_field n bs) = n.
Proof.
  unfold out_field. case_bool_decide; [rewrite length_take; lia|apply length_replicate].
Qed.

Lemma sgx_output_headed res gas : verdict_first (ExecutionResult_success (sgx_build_output res) gas).
Proof.
  eexists _, _, _, _. split; [reflexivity|]. rewrite !length_app, !out_field_length. lia.
Qed.

Lemma nitro_output_headed v st pcr gas :
  verdict_first (ExecutionResult_success (nitro_build_output v st pcr) gas).
Proof.
  eexists _, _, _, _. split; [reflexivity|]. rewrite !length_app, length_take, length_replicate. lia.
Qed.

Lemma sev_output_headed v st m gas :
  verdict_first (ExecutionResult_success (sev_build_output v st m) gas).
Proof.
  eexists _, _, _, _. split; [reflexivity|]. rewrite !length_app, length_replicate. lia.
Qed.

Lemma attestation_headed a p input limit r :
  (∃ platform, tee_address platform = Some a) → standard_map !! a = Some p →
  pc_execute p.(po_methods) input limit = Ok r → verdict_first r.
Proof.
  intros [platform Ha] Hp.
  assert (p = nitro_object ∨ p = sgx_object ∨ p = sev_object) as Hcase.
  { unfold tee_address in Ha.
    repeat match type of Ha with context [match ?t with _ => _ end] => destruct t end;
      try discriminate Ha; injection Ha as <-.
    - left. apply (standard_at nitro_object); [in_standard|exact Hp].
    - right; right. apply (standard_at sev_object); [in_standard|exact Hp].
    - right; left. apply (standard_at sgx_object); [in_standard|exact Hp]. }
  destruct Hcase as [->|[->| ->]]; intros Hr;
    eapply yields_charge in Hr as [? _]; try done; yields_steps;
    auto using sgx_output_headed, nitro_output_headed, sev_output_headed.
Qed.

(** Bytes that mean nothing. *)
Definition zeros (n : nat) : bytes := replicate n 0.

(** The call completes and its verdict, the first or last byte of the output, is
    negative. *)
Definition completes_refused (verdict : bytes → option N)
  (o : outcome PrecompileError ExecutionResult) : Prop :=
  ∃ out gas, o = Ok (ExecutionResult_success out gas) ∧ verdict out = Some 0.

Lemma zeros_attested p limit :
  p ∈ [nitro_object; sgx_object; sev_object] → 1000000 <= limit →
  completes_refused head (pc_execute p.(po_methods) (zeros 800) limit).
Proof.
  intros Hp Hl. assert (∀ gas, gas <= 1000000 → gas <= limit) as Hgas by (intros; lia).
  rewrite !elem_of_cons, elem_of_nil in Hp. destruct Hp as [->|[->|[->|[]]]];
    cbn [po_methods object nitro_object sgx_object sev_object pc_execute NitroVerifyPrecompile
         SgxDcapVerifyPrecompile SevSnpVerifyPrecompile];
    unfold nitro_execute, sgx_execute, sev_execute;
    (rewrite charge_ok by (apply Hgas; vm_compute; discriminate));
    eexists _, _; (split; [vm_compute; reflexivity|vm_compute; reflexivity]).
Qed.

Definition zeros_zkp : bytes := zkp_input (zeros 512) (zeros 32) (zeros 256).

Lemma zeros_proved p limit :
  feature_zkp = false → p ∈ [groth16_object; plonk_object; ezkl_object; halo2_object] →
  1000000 <= limit → completes_refused last (pc_execute p.(po_methods) zeros_zkp limit).
Proof.
  intros Hf Hp Hl. assert (∀ gas, gas <= 1000000 → gas <= limit) as Hgas by (intros; lia).
  rewrite !elem_of_cons, elem_of_nil in Hp. destruct Hp as [->|[->|[->|[->|[]]]]];
    cbn [po_methods object groth16_object plonk_object ezkl_object halo2_object pc_execute
         Groth16VerifyPrecompile PlonkVerifyPrecompile EzklVerifyPrecompile Halo2VerifyPrecompile];
    unfold groth16_execute, plonk_execute, ezkl_execute, halo2_execute, verify_groth16_proof,
      verify_plonk_proof, verify_ezkl_proof, verify_halo2_proof; rewrite Hf;
    (rewrite charge_ok by (apply Hgas; vm_compute; discriminate));
    eexists _, _; (split; [vm_compute; reflexivity|vm_compute; reflexivity]).
Qed.

(** What the host makes of a completed call. *)
Lemma host_run_refused verdict p input limit k e :
  p ∈ standard_objects → p.(po_max_input_length) = 0 → p.(po_min_input_length) <= blen input →
  pc_gas_cost p.(po_methods) input <= 1000000 → 1000000 <= limit →
  completes_refused verdict (pc_execute p.(po_methods) input limit) →
  (∀ r, r.(er_success) = true → k r = HostSuccess r.(er_output)) →
  ∃ out, host_run (pr_execute PrecompileRegistry_new p.(po_address) input limit) k e
         = Ok (HostSuccess out) ∧ verdict out = Some 0.
Proof.
  intros Hin Hmax Hmin Hgas Hl (out & gas & Hrun & Hv) Hk. exists out. split; [|done].
  rewrite registry_run; [|done..| |lia].
  - rewrite Hrun. cbn [host_run]. by rewrite Hk.
  - change (2 ^ 53) with 9007199254740992. lia.
Qed.

(** The host functions do not look at the verdict.  A module that asks the host to
    verify an attestation or a proof is told success whenever the precompile
    completes, also when its output says that verification failed: with a million
    gas, strings of zeros are a successful attestation on all three platforms and,
    in a build without any proof backend, a successful proof in all four systems.
    And an expected measurement is compared with the first bytes of the output,
    which hold the verdict: only a value whose fourth byte is zero can ever match. *)
Lemma host_verdicts_ignored ctx :
  ctx.(hc_precompiles) = PrecompileRegistry_new → 1000000 <= remaining ctx.(hc_gas_meter) →
  (∀ platform, platform <= 2 →
     ∃ out, host_verify_tee_attestation ctx platform (zeros 800) [] = Ok (HostSuccess out)
            ∧ head out = Some 0)
  ∧ (feature_zkp = false → ∀ proof_type, proof_type <= 3 →
     ∃ out, host_verify_zkp ctx proof_type (zeros 512) (zeros 32) (zeros 256) = Ok (HostSuccess out)
            ∧ last out = Some 0)
  ∧ (∀ platform attestation expected out, expected ≠ [] →
     host_verify_tee_attestation ctx platform attestation expected = Ok (HostSuccess out) →
     expected !! 3%nat = Some 0).
Proof.
  intros Hreg Hgas. unfold host_verify_tee_attestation, host_verify_zkp. rewrite Hreg.
  set (limit := remaining _) in *. clearbody limit. split_and!.
  - intros platform Hp.
    assert (platform = 0 ∨ platform = 1 ∨ platform = 2) as [->|[->| ->]] by lia; cbn [tee_address];
      [apply (host_run_refused head nitro_object)|apply (host_run_refused head sgx_object)
      |apply (host_run_refused head sev_object)];
      try done; try in_standard; try (apply zeros_attested; [set_solver|done]);
      intros r Hr; unfold tee_host_result; by rewrite Hr.
  - intros Hf t Ht.
    assert (t = 0 ∨ t = 1 ∨ t = 2 ∨ t = 3) as [->|[->|[->| ->]]] by lia; cbn [zkp_address];
      [apply (host_run_refused last groth16_object)|apply (host_run_refused last plonk_object)
      |apply (host_run_refused last ezkl_object)|apply (host_run_refused last halo2_object)];
      try done; try in_standard; try (apply zeros_proved; [done|set_solver|done]);
      intros r Hr; unfold zkp_host_result; by rewrite Hr.
  - intros platform att expected out Hne Hrun.
    destruct (tee_address platform) as [a|] eqn:Ha; [|done].
    destruct (pr_execute _ a att limit) as [r| | |] eqn:Hr; cbn [host_run] in Hrun; [|done..].
    apply execute_at_ok in Hr as (p & Hp & Hr & _).
    destruct (attestation_headed a p att limit r ltac:(eauto) Hp Hr) as (v & st & pf & rest & Hout & Hlen).
    unfold tee_host_result in Hrun. destruct (er_success r); [|done].
    rewrite (bool_decide_false (expected = [])) in Hrun by done.
    rewrite bool_decide_true in Hrun by (rewrite Hout; unfold blen; rewrite length_app; cbn; lia).
    case_bool_decide as Heq; [|done]. by rewrite <- Heq, Hout.
Qed.
End host.

(** ** Concrete runs

    Libraries for which a signature is valid when it begins like its key. *)
Definition toy_signatures : SignatureLib := {|
  lib_sha256 := λ bs, take 32 (bs ++ zeros 32); lib_keccak256 := λ bs, take 32 (bs ++ zeros 32);
  k256_recovery_id_ok := λ n, bool_decide (n <= 3); k256_signature_ok := λ _, true;
  k256_key_ok := λ _, true; k256_verify := λ pk _ sig, bool_decide (head pk = head sig);
  k256_recover := λ _ _ _, Some (zeros 65);
  dilithium_key_bytes := λ _, 1952; dilithium_signature_bytes := λ _, 3293;
  dilithium_key_ok := λ _ _, true; dilithium_signature_ok := λ _ _, true;
  dilithium_verify := λ _ sig _ pk, bool_decide (head sig = head pk);
  kyber_ciphertext_ok := λ _ _, true; kyber_secret_ok := λ _ _, true;
  kyber_decapsulate := λ _ _ sk, sk |}.

Lemma toy_signature_laws : SignatureLibLaws (H := toy_signatures).
Proof.
  split.
  - intros bs. cbn [lib_keccak256 toy_signatures]. unfold zeros.
    rewrite length_take, length_app, length_replicate. lia.
  - by intros hash sig id key [= <-].
Qed.

Definition vm_registry : PrecompileRegistry :=
  PrecompileRegistry_new (H := tee_build true) (H0 := toy_arkworks) (H1 := tee_env QvOk)
    (H2 := toy_signatures).

Lemma precompiles_return_witness :
  returns (pr_execute (pr_set_gas_multiplier ONE vm_registry) ADDR_ZKP_VERIFY (zeros 40) 1000000).
Proof.
  apply (precompiles_return (H := tee_build true) (H0 := toy_arkworks) (H1 := tee_env QvOk)
           (H2 := toy_signatures));
    [apply toy_ark_returns|apply tee_env_returns|apply toy_signature_laws].
Defined.

Lemma gas_metered_witness :
  ∃ r, pr_execute (pr_set_gas_multiplier ONE vm_registry) ADDR_SHA256 [1; 2; 3] 100 = Ok r
  ∧ r.(er_gas_used) <= 100.
Proof.
  exists (ExecutionResult_success ([1; 2; 3] ++ zeros 29) 72). split; [vm_compute; reflexivity|].
  destruct (gas_metered (H := tee_build true) (H0 := toy_arkworks) (H1 := tee_env QvOk)
              (H2 := toy_signatures) ONE ADDR_SHA256 [1; 2; 3] 100
              (ExecutionResult_success ([1; 2; 3] ++ zeros 29) 72)) as (p & _ & _ & Hu & Hp & _);
    [vm_compute; reflexivity|]. cbv zeta in Hu, Hp. etrans; [exact Hu|exact Hp].
Defined.

Definition toy_hybrid : hybrid_call := {|
  hy_threat_level := 3; hy_message := [10; 20; 30]; hy_ecdsa_pk := replicate 33 5;
  hy_dilithium_pk := replicate 1952 6; hy_ecdsa_sig := replicate 64 5;
  hy_dilithium_sig := replicate 3293 6 |}.

Lemma hybrid_envelope_exact_witness :
  pr_execute vm_registry ADDR_HYBRID_VERIFY (encode_hybrid 3 255 3 255 toy_hybrid [9; 9]) 13000
  = Ok (ExecutionResult_success (zeros 30 ++ [3; 1]) 13000).
Proof.
  apply (hybrid_envelope_exact (H := tee_build true) (H0 := toy_arkworks) (H1 := tee_env QvOk)
           (H2 := toy_signatures) toy_hybrid 3 255 3 255 [9; 9] 13000); [|done].
  split; [vm_compute; discriminate|reflexivity..].
Defined.

Lemma host_verdicts_ignored_witness :
  ∃ out, host_verify_tee_attestation (HostContext_new (with_limit 1000000) vm_registry) 1 (zeros 800) []
         = Ok (HostSuccess out).
Proof.
  destruct (host_verdicts_ignored (H := tee_build true) (H0 := toy_arkworks) (H1 := tee_env QvOk)
              (H2 := toy_signatures) (HostContext_new (with_limit 1000000) vm_registry)) as (Ht & _);
    [reflexivity|vm_compute; discriminate|].
  destruct (Ht 1 ltac:(lia)) as (out & Hout & _). by exists out.
Defined.
