(* ===== verification/Sorting.v ===== *)
(** * Stable sorting

    [slice::sort], [sort_by] and [sort_by_key]: the sorted list is a permutation, it is
    ordered, and elements that compare equal keep their order. *)
From S2P Require Import Prelude SysTypes.
From stdpp Require Import base list sorting strings.
From Stdlib Require Import ZArith Lia.
#[local] Open Scope N_scope.

(** [leb x y]: [x] does not come after [y]. *)
Fixpoint insert_with {A} (leb : A → A → bool) (x : A) (l : list A) : list A :=
  match l with
  | [] => [x]
  | y :: l => if leb x y then x :: y :: l else y :: insert_with leb x l
  end.
Definition sort_with {A} (leb : A → A → bool) (l : list A) : list A := foldr (insert_with leb) [] l.

Section sorting.
Context {A : Type} (leb : A → A → bool).

Lemma insert_with_perm x l : insert_with leb x l ≡ₚ x :: l.
Proof. induction l as [|y l IH]; cbn; [done|]. destruct (leb x y); [done|]. rewrite IH. constructor. Qed.

Lemma sort_with_perm l : sort_with leb l ≡ₚ l.
Proof. induction l as [|x l IH]; cbn; [done|]. by rewrite insert_with_perm, IH. Qed.

(** The elements of a class whose members all compare equal keep their order. *)
Lemma insert_with_stable (P : A → Prop) `{!∀ x, Decision (P x)} x l :
  (∀ a b, P a → P b → leb a b = true) → filter P (insert_with leb x l) = filter P (x :: l).
Proof.
  intros HP. induction l as [|y l IH]; cbn [insert_with]; [done|]. destruct (leb x y) eqn:Hle; [done|].
  rewrite (filter_cons _ y), IH, !(filter_cons _ x), (filter_cons _ y).
  destruct (decide (P x)), (decide (P y)); try done. by rewrite HP in Hle.
Qed.

Lemma sort_with_stable (P : A → Prop) `{!∀ x, Decision (P x)} l :
  (∀ a b, P a → P b → leb a b = true) → filter P (sort_with leb l) = filter P l.
Proof.
  intros HP. induction l as [|x l IH]; cbn [sort_with foldr]; [done|].
  by rewrite (insert_with_stable P _ _ HP), !filter_cons, <- IH.
Qed.

Context (R : relation A) `{!Transitive R}.
Context (Hle : ∀ x y, leb x y = true → R x y) (Hgt : ∀ x y, leb x y = false → R y x).

Lemma insert_with_sorted x l : StronglySorted R l → StronglySorted R (insert_with leb x l).
Proof.
  induction 1 as [|y l Hs IH Hall]; cbn; [repeat constructor|]. destruct (leb x y) eqn:Hxy.
  - constructor; [by constructor|]. constructor; [auto|].
    eapply Forall_impl; [exact Hall|]. intros z Hz. etrans; [by apply Hle|done].
  - constructor; [done|]. rewrite insert_with_perm. constructor; [auto|done].
Qed.

Lemma sort_with_sorted l : StronglySorted R (sort_with leb l).
Proof. induction l as [|x l IH]; cbn; [constructor|]. by apply insert_with_sorted. Qed.
End sorting.

(** ** By a numeric key, ascending *)
Definition sort_by_key {A} (key : A → N) (l : list A) : list A :=
  sort_with (λ x y, bool_decide (key x <= key y)) l.

Section by_key.
Context {A : Type} (key : A → N).

Lemma sort_by_key_perm l : sort_by_key key l ≡ₚ l.
Proof. apply sort_with_perm. Qed.

Lemma sort_by_key_sorted l : StronglySorted (λ x y, key x <= key y) (sort_by_key key l).
Proof. apply sort_with_sorted; [intros x y z; lia|..]; intros x y Hb; bool_facts; lia. Qed.

Lemma sort_by_key_stable k l : filter (λ y, key y = k) (sort_by_key key l) = filter (λ y, key y = k) l.
Proof. apply sort_with_stable. intros a b <- Hb. apply bool_decide_true. lia. Qed.
End by_key.

(** ** By text: strings compare bytewise *)
Fixpoint bytes_leb (a b : bytes) : bool :=
  match a, b with
  | [], _ => true
  | _ :: _, [] => false
  | x :: a, y :: b => if bool_decide (x < y) then true
                      else if bool_decide (y < x) then false else bytes_leb a b
  end.

Lemma bytes_leb_antisym a b : bytes_leb a b = true → bytes_leb b a = true → a = b.
Proof.
  revert b. induction a as [|x a IH]; intros [|y b]; cbn; try done.
  repeat case_bool_decide; try lia; intros; try done. f_equal; [lia|auto].
Qed.
Lemma bytes_leb_total a b : bytes_leb a b = false → bytes_leb b a = true.
Proof.
  revert b. induction a as [|x a IH]; intros [|y b]; cbn; try done.
  repeat case_bool_decide; try lia; intros; try done. auto.
Qed.
Lemma bytes_leb_trans a b c : bytes_leb a b = true → bytes_leb b c = true → bytes_leb a c = true.
Proof.
  revert b c. induction a as [|x a IH]; intros [|y b] [|z c]; cbn; try done.
  repeat case_bool_decide; try lia; intros; try done. eauto.
Qed.

Definition text_leb (a b : string) : bool := bytes_leb (string_bytes a) (string_bytes b).
Definition sort_by_text {A} (key : A → string) (l : list A) : list A :=
  sort_with (λ x y, text_leb (key x) (key y)) l.

Lemma sort_by_text_perm {A} (key : A → string) l : sort_by_text key l ≡ₚ l.
Proof. apply sort_with_perm. Qed.

Lemma sort_by_text_sorted {A} (key : A → string) l :
  StronglySorted (λ x y, text_leb (key x) (key y) = true) (sort_by_text key l).
Proof.
  apply sort_with_sorted; [intros x y z; apply bytes_leb_trans|done|]. intros x y. apply bytes_leb_total.
Qed.
