(* ===== verification/CoreHash.v ===== *)
(** * Hashes and identifiers of the core crate

    [crates/core/src/crypto/mod.rs] and [hash.rs].  The libraries the core crate
    calls ([sha2], [sha3], [blake3], [hmac], [hex], [k256], [pqcrypto_dilithium]) are
    an instance of [CoreLib]; [CoreLaws] states what they document.  A [Hash256] is
    the list of its 32 bytes. *)
From S2P Require Import Prelude SysTypes Precompile.
From stdpp Require Import base list strings pretty.
From Stdlib Require Import ZArith Lia.
#[local] Open Scope N_scope.

Abbreviation Hash256 := (list N).

(** What the libraries compute.  The [_error] fields are the parsers: the text of
    the error when they refuse their input.  [full_pqc] is the crate's feature. *)
Class CoreLib := {
  full_pqc : bool;
  core_sha256 : bytes → Hash256;
  core_sha512 : bytes → bytes;
  core_keccak256 : bytes → Hash256;
  core_blake3 : bytes → Hash256;
  core_hmac : bytes → bytes → Hash256;
  core_hex_decode : string → bytes + string;
  secp_signature_error : bytes → option string;
  secp_key_error : bytes → option string;
  secp_secret_error : bytes → option string;
  secp_public : bytes → bytes;
  secp_uncompressed : bytes → bytes;
  secp_sign : bytes → bytes → bytes;
  secp_verify : bytes → bytes → bytes → bool;
  dil3_signature_ok : bytes → bool;
  dil3_key_ok : bytes → bool;
  dil3_secret_ok : bytes → bool;
  dil3_sign : bytes → bytes → bytes;
  dil3_verify : bytes → bytes → bytes → bool;
}.

(** What the libraries document: the sizes of their outputs, that [hex::decode]
    inverts [hex::encode], and that the curve library parses what it produces and
    verifies what it signs.  A Dilithium key pair is a pair for which the library
    verifies what it signs. *)
Class CoreLaws `{CoreLib} : Prop := {
  sha256_32 bs : length (core_sha256 bs) = 32%nat;
  sha512_64 bs : length (core_sha512 bs) = 64%nat;
  keccak256_32 bs : length (core_keccak256 bs) = 32%nat;
  hex_decode_encode bs : Forall (λ b, b < 256) bs → core_hex_decode (hex_encode bs) = inl bs;
  secp_public_33 sk : length (secp_public sk) = 33%nat;
  secp_public_ok sk : secp_secret_error sk = None → secp_key_error (secp_public sk) = None;
  secp_sign_64 sk m : length (secp_sign sk m) = 64%nat;
  secp_sign_ok sk m : secp_signature_error (secp_sign sk m) = None;
  secp_sign_verifies sk m :
    secp_secret_error sk = None → secp_verify (secp_public sk) m (secp_sign sk m) = true;
}.

Definition dil3_keypair `{CoreLib} (sk pk : bytes) : Prop :=
  dil3_secret_ok sk = true ∧ dil3_key_ok pk = true
  ∧ length sk = 4032%nat ∧ length pk = 1952%nat
  ∧ ∀ m, dil3_signature_ok (dil3_sign m sk) = true ∧ length (dil3_sign m sk) = 3309%nat
         ∧ dil3_verify (dil3_sign m sk) m pk = true.

(** ** [mod.rs] *)
Inductive CryptoError :=
| InvalidSignatureLength (expected actual : N)
| InvalidPublicKeyLength (expected actual : N)
| InvalidSecretKeyLength (expected actual : N)
| CryptoVerificationFailed
| KeyGenerationFailed (reason : string)
| SigningFailed (reason : string)
| InvalidKeyFormat (reason : string)
| UnsupportedAlgorithm (reason : string)
| HybridComponentMismatch
| QuantumThreatActive
| KeyDerivationFailed (reason : string)
| DecapsulationFailed.

(** [fmt::Display] *)
Definition CryptoError_to_string (e : CryptoError) : string :=
  match e with
  | InvalidSignatureLength expected actual =>
      "Invalid signature length: expected " +:+ pretty expected +:+ ", got " +:+ pretty actual
  | InvalidPublicKeyLength expected actual =>
      "Invalid public key length: expected " +:+ pretty expected +:+ ", got " +:+ pretty actual
  | InvalidSecretKeyLength expected actual =>
      "Invalid secret key length: expected " +:+ pretty expected +:+ ", got " +:+ pretty actual
  | CryptoVerificationFailed => "Signature verification failed"
  | KeyGenerationFailed r => "Key generation failed: " +:+ r
  | SigningFailed r => "Signing failed: " +:+ r
  | InvalidKeyFormat r => "Invalid key format: " +:+ r
  | UnsupportedAlgorithm r => "Unsupported algorithm: " +:+ r
  | HybridComponentMismatch => "Hybrid signature component mismatch"
  | QuantumThreatActive => "Quantum threat level requires PQC-only signatures"
  | KeyDerivationFailed r => "Key derivation failed: " +:+ r
  | DecapsulationFailed => "Decapsulation failed"
  end.

Module SignatureAlgorithm.
Inductive t := EcdsaSecp256k1 | Dilithium3 | Hybrid | Dilithium5.

#[export] Instance t_eq_dec : EqDecision t.
Proof. solve_decision. Defined.

Definition from_byte (b : N) : option t :=
  match b with
  | 1 => Some EcdsaSecp256k1
  | 2 => Some Dilithium3
  | 3 => Some Hybrid
  | 4 => Some Dilithium5
  | _ => None
  end.

Definition to_byte (a : t) : N :=
  match a with EcdsaSecp256k1 => 1 | Dilithium3 => 2 | Hybrid => 3 | Dilithium5 => 4 end.

Definition is_quantum_safe (a : t) : bool :=
  match a with Dilithium3 | Dilithium5 | Hybrid => true | EcdsaSecp256k1 => false end.

Definition signature_size (a : t) : N :=
  match a with
  | EcdsaSecp256k1 => 64
  | Dilithium3 => 3309
  | Dilithium5 => 4627
  | Hybrid => 64 + 3309 + 1
  end.

Definition public_key_size (a : t) : N :=
  match a with
  | EcdsaSecp256k1 => 33
  | Dilithium3 => 1952
  | Dilithium5 => 2592
  | Hybrid => 33 + 1952 + 1
  end.
End SignatureAlgorithm.

(** [QuantumThreatLevel(pub u8)] *)
Module QuantumThreatLevel.
Definition NONE : N := 0.
Definition EARLY_WARNING : N := 1.
Definition ELEVATED : N := 2.
Definition HIGH : N := 3.
Definition CRITICAL : N := 4.
Definition Q_DAY : N := 5.

Definition skip_classical (l : N) : bool := bool_decide (5 <= l).
Definition classical_optional (l : N) : bool := bool_decide (3 <= l).
Definition quantum_only (l : N) : bool := bool_decide (5 <= l).
End QuantumThreatLevel.

(** ** [hash.rs] *)
Definition HASH_SIZE_256 : N := 32.
Definition HASH_SIZE_512 : N := 64.

Module Hash256.
Definition ZERO : Hash256 := replicate 32 0.

Definition from_slice (s : bytes) : option Hash256 :=
  if bool_decide (blen s = HASH_SIZE_256) then Some s else None.

Definition to_hex (h : Hash256) : string := hex_encode h.

(** [Err(e)] of [hex::decode], or [InvalidStringLength]. *)
Definition from_hex `{CoreLib} (s : string) : Hash256 + string :=
  match core_hex_decode s with
  | inr e => inr e
  | inl bs => match from_slice bs with
              | Some h => inl h
              | None => inr "Invalid string length"%string
              end
  end.

Definition is_zero (h : Hash256) : bool := forallb (λ b, bool_decide (b = 0)) h.
End Hash256.

Section hash.
Context `{CoreLib}.

(** [Sha256Hasher]: its state is what it was fed. *)
Definition Sha256Hasher_update (fed data : bytes) : bytes := fed ++ data.
Definition Sha256Hasher_finalize (fed : bytes) : Hash256 := core_sha256 fed.
Definition Sha256Hasher_hash (data : bytes) : Hash256 :=
  Sha256Hasher_finalize (Sha256Hasher_update [] data).
Definition Sha256Hasher_hash_many (inputs : list bytes) : Hash256 :=
  Sha256Hasher_finalize (foldl Sha256Hasher_update [] inputs).

Definition sha256_of (data : bytes) : Hash256 := Sha256Hasher_hash data.
Definition double_sha256 (data : bytes) : Hash256 := sha256_of (sha256_of data).

Definition transaction_hash (tx_bytes : bytes) : Hash256 :=
  Sha256Hasher_hash_many [string_bytes "aethelred:transaction:v1:"; tx_bytes].
Definition block_hash (block_bytes : bytes) : Hash256 :=
  Sha256Hasher_hash_many [string_bytes "aethelred:block:v1:"; block_bytes].
Definition commitment_hash (value blinding : bytes) : Hash256 :=
  Sha256Hasher_hash_many [string_bytes "aethelred:commitment:v1:"; value; blinding].

(** ** Merkle trees *)
Definition merkle_combine (left right : Hash256) : Hash256 :=
  Sha256Hasher_hash_many [string_bytes "aethelred:merkle:v1:"; left; right].

(** One level: [chunks(2)], the last chunk paired with itself. *)
Fixpoint merkle_level (level : list Hash256) : list Hash256 :=
  match level with
  | a :: b :: level => merkle_combine a b :: merkle_level level
  | [a] => [merkle_combine a a]
  | [] => []
  end.

(** [while current_level.len() > 1] *)
Fixpoint merkle_loop (fuel : nat) (level : list Hash256) : list Hash256 :=
  match fuel with
  | O => level
  | S fuel => if bool_decide (1 < length level)%nat then merkle_loop fuel (merkle_level level)
              else level
  end.

(** Each level is shorter, so as many turns as there are leaves are enough. *)
Definition merkle_root {E} (leaves : list Hash256) : outcome E Hash256 :=
  match leaves with
  | [] => Ok Hash256.ZERO
  | [leaf] => Ok leaf
  | _ => match merkle_loop (length leaves) leaves with
         | root :: _ => Ok root
         | [] => Panic
         end
  end.

Record MerkleProof := {
  mp_path : list (Hash256 * bool);
  mp_leaf_index : N;
}.

Definition merkle_step (current : Hash256) (step : Hash256 * bool) : Hash256 :=
  if step.2 then merkle_combine step.1 current else merkle_combine current step.1.

Definition MerkleProof_verify (p : MerkleProof) (leaf root : Hash256) : bool :=
  bool_decide (foldl merkle_step leaf p.(mp_path) = root).

Definition hmac_sha256 (key data : bytes) : Hash256 := core_hmac key data.
End hash.
