(* ===== verification/Hybrid.v ===== *)
(** * Hybrid signatures

    [crates/core/src/crypto/hybrid.rs]: keys and signatures that pair ECDSA on
    secp256k1 with Dilithium, their wire formats (version 2, and version 1 for
    reading), signing and verification under a [VerifierConfig].  The reading of the
    system clock is an argument ([None] when it is before the Unix epoch), the
    randomness of key generation the generated keys.  The builds modelled are the
    ones outside the tests, with and without the feature [full-pqc].

    Offsets are [usize], sums of constants and of a [u16] field: plain [N]s. *)
From S2P Require Import Prelude SysTypes Precompile CoreHash.
From stdpp Require Import base list strings pretty.
From Stdlib Require Import ZArith Lia.
#[local] Open Scope N_scope.

Inductive DilithiumSecurityLevel := Level2 | Level3 | Level5.

#[export] Instance DilithiumSecurityLevel_eq_dec : EqDecision DilithiumSecurityLevel.
Proof. solve_decision. Defined.

(** [level as u8], which the derived order follows. *)
Definition level_u8 (l : DilithiumSecurityLevel) : N :=
  match l with Level2 => 2 | Level3 => 3 | Level5 => 5 end.

(** [{:?}] *)
Definition level_debug (l : DilithiumSecurityLevel) : string :=
  match l with Level2 => "Level2" | Level3 => "Level3" | Level5 => "Level5" end.

Definition public_key_size (l : DilithiumSecurityLevel) : N :=
  match l with Level2 => 1312 | Level3 => 1952 | Level5 => 2592 end.
Definition secret_key_size (l : DilithiumSecurityLevel) : N :=
  match l with Level2 => 2528 | Level3 => 4032 | Level5 => 4896 end.
Definition signature_size (l : DilithiumSecurityLevel) : N :=
  match l with Level2 => 2420 | Level3 => 3309 | Level5 => 4627 end.

Record VerifierConfig := {
  vc_panic_mode_qc : bool;
  vc_min_dilithium_level : DilithiumSecurityLevel;
  vc_allow_legacy_ecdsa_only : bool;
  vc_require_dual_sig_always : bool;
  vc_max_signature_age_secs : option N;
  vc_chain_id : N;
}.

Definition VerifierConfig_default : VerifierConfig := {|
  vc_panic_mode_qc := false; vc_min_dilithium_level := Level3;
  vc_allow_legacy_ecdsa_only := false; vc_require_dual_sig_always := false;
  vc_max_signature_age_secs := None; vc_chain_id := 1 |}.

Definition VerifierConfig_devnet : VerifierConfig := {|
  vc_panic_mode_qc := false; vc_min_dilithium_level := Level2;
  vc_allow_legacy_ecdsa_only := false; vc_require_dual_sig_always := false;
  vc_max_signature_age_secs := Some 3600; vc_chain_id := 9999 |}.

Definition VerifierConfig_testnet : VerifierConfig := {|
  vc_panic_mode_qc := false; vc_min_dilithium_level := Level3;
  vc_allow_legacy_ecdsa_only := false; vc_require_dual_sig_always := false;
  vc_max_signature_age_secs := Some 7200; vc_chain_id := 2 |}.

Definition VerifierConfig_mainnet : VerifierConfig := {|
  vc_panic_mode_qc := false; vc_min_dilithium_level := Level3;
  vc_allow_legacy_ecdsa_only := false; vc_require_dual_sig_always := true;
  vc_max_signature_age_secs := None; vc_chain_id := 1 |}.

Definition enter_panic_mode (c : VerifierConfig) : VerifierConfig := {|
  vc_panic_mode_qc := true; vc_min_dilithium_level := c.(vc_min_dilithium_level);
  vc_allow_legacy_ecdsa_only := false;
  vc_require_dual_sig_always := c.(vc_require_dual_sig_always);
  vc_max_signature_age_secs := c.(vc_max_signature_age_secs);
  vc_chain_id := c.(vc_chain_id) |}.

Definition HYBRID_MARKER : N := 0x03.
Definition COMPONENT_SEPARATOR : N := 0xFF.
Definition SIGNATURE_VERSION_V1 : N := 0x01.
Definition SIGNATURE_VERSION_V2 : N := 0x02.
Definition SIGNATURE_VERSION : N := SIGNATURE_VERSION_V2.

(** ** Data *)
Record HybridSignature := {
  hs_classical : bytes;
  hs_quantum : bytes;
  hs_level : DilithiumSecurityLevel;
  hs_timestamp : option N;
  hs_chain_id : option N;
}.

Definition HybridSignature_new (classical quantum : bytes) (level : DilithiumSecurityLevel)
  : HybridSignature := {|
  hs_classical := classical; hs_quantum := quantum; hs_level := level;
  hs_timestamp := None; hs_chain_id := None |}.

Definition HybridSignature_with_metadata (classical quantum : bytes)
    (level : DilithiumSecurityLevel) (timestamp chain_id : N) : HybridSignature := {|
  hs_classical := classical; hs_quantum := quantum; hs_level := level;
  hs_timestamp := Some timestamp; hs_chain_id := Some chain_id |}.

Record EcdsaPublicKey := { ek_bytes : bytes }.
Record DilithiumPublicKey := { dk_bytes : bytes; dk_level : DilithiumSecurityLevel }.
Record HybridPublicKey := { hk_classical : EcdsaPublicKey; hk_quantum : DilithiumPublicKey }.
Record EcdsaSecretKey := { es_bytes : bytes }.
Record DilithiumSecretKey := { ds_bytes : bytes; ds_level : DilithiumSecurityLevel }.
Record HybridSecretKey := { sk_classical : EcdsaSecretKey; sk_quantum : DilithiumSecretKey }.
Record HybridKeyPair := { kp_public_key : HybridPublicKey; kp_secret_key : HybridSecretKey }.

#[export] Instance HybridSignature_eq_dec : EqDecision HybridSignature.
Proof. solve_decision. Defined.
#[export] Instance EcdsaPublicKey_eq_dec : EqDecision EcdsaPublicKey.
Proof. solve_decision. Defined.
#[export] Instance DilithiumPublicKey_eq_dec : EqDecision DilithiumPublicKey.
Proof. solve_decision. Defined.
#[export] Instance HybridPublicKey_eq_dec : EqDecision HybridPublicKey.
Proof. solve_decision. Defined.

(** [bs[i]] *)
Definition byte_at {E} (i : N) (bs : bytes) : outcome E N :=
  match bs !! N.to_nat i with Some b => Ok b | None => Panic end.

(** [if cond { return Err(e) }] *)
Definition refuse {E A} (cond : bool) (e : E) (k : outcome E A) : outcome E A :=
  if cond then Err e else k.

Section hybrid.
Context `{CoreLib}.

(** ** Verification *)
Definition ecdsa_size_error (n : N) : string :=
  "Invalid ECDSA signature size: expected 64, got " +:+ pretty n.

Definition validate_format (s : HybridSignature) : outcome string unit :=
  refuse (negb (bool_decide (blen s.(hs_classical) = 64)))
    (ecdsa_size_error (blen s.(hs_classical))) $
  refuse (negb (bool_decide (blen s.(hs_quantum) = signature_size s.(hs_level))))
    ("Invalid Dilithium signature size: expected exactly "
       +:+ pretty (signature_size s.(hs_level)) +:+ ", got " +:+ pretty (blen s.(hs_quantum))) $
  Ok tt.

Definition verify_dilithium (s : HybridSignature) (msg_hash : bytes) (pubkey : DilithiumPublicKey)
  : outcome string bool :=
  if full_pqc then
    refuse (negb (dil3_signature_ok s.(hs_quantum))) "Malformed Dilithium signature"%string $
    refuse (negb (dil3_key_ok pubkey.(dk_bytes))) "Malformed Dilithium public key"%string $
    Ok (dil3_verify s.(hs_quantum) msg_hash pubkey.(dk_bytes))
  else
    Err "SECURITY: Dilithium verification requires the 'full-pqc' feature in non-test builds"%string.

Definition verify_ecdsa (s : HybridSignature) (msg_hash : bytes) (pubkey : EcdsaPublicKey)
  : outcome string bool :=
  refuse (negb (bool_decide (blen s.(hs_classical) = 64)))
    (ecdsa_size_error (blen s.(hs_classical))) $
  match secp_signature_error s.(hs_classical) with
  | Some e => Err ("Malformed ECDSA Signature: " +:+ e)
  | None =>
      match secp_key_error pubkey.(ek_bytes) with
      | Some e => Err ("Malformed ECDSA Public Key: " +:+ e)
      | None => Ok (secp_verify pubkey.(ek_bytes) msg_hash s.(hs_classical))
      end
  end.

(** The age check, made only when both sides give a value. *)
Definition check_age (s : HybridSignature) (config : VerifierConfig) (now : option N)
  : outcome string unit :=
  match config.(vc_max_signature_age_secs), s.(hs_timestamp) with
  | Some max_age, Some sig_timestamp =>
      match now with
      | None => Err "System clock is before UNIX epoch - cannot verify signature age"%string
      | Some now =>
          refuse (bool_decide (sig_timestamp < now) && bool_decide (max_age < now - sig_timestamp))
            ("Signature expired: age " +:+ pretty (now - sig_timestamp) +:+ " > max "
               +:+ pretty max_age) $
          Ok tt
      end
  | _, _ => Ok tt
  end.

Definition check_chain_id (s : HybridSignature) (config : VerifierConfig) : outcome string unit :=
  match s.(hs_chain_id) with
  | Some sig_chain_id =>
      refuse (negb (bool_decide (sig_chain_id = config.(vc_chain_id))))
        ("Chain ID mismatch: signature=" +:+ pretty sig_chain_id +:+ ", config="
           +:+ pretty config.(vc_chain_id)) $
      Ok tt
  | None => Ok tt
  end.

Definition verify (s : HybridSignature) (message : bytes) (pubkey : HybridPublicKey)
    (config : VerifierConfig) (now : option N) : outcome string unit :=
  validate_format s ;;
  refuse (bool_decide (level_u8 s.(hs_level) < level_u8 config.(vc_min_dilithium_level)))
    ("Dilithium security level " +:+ level_debug s.(hs_level) +:+ " below minimum "
       +:+ level_debug config.(vc_min_dilithium_level)) $
  check_age s config now ;;
  check_chain_id s config ;;
  let msg_hash := core_keccak256 message in
  quantum_valid ← verify_dilithium s msg_hash pubkey.(hk_quantum);
  refuse (negb quantum_valid) "Invalid Post-Quantum Dilithium Signature"%string $
  if config.(vc_panic_mode_qc) then Ok tt
  else
    classical_valid ← verify_ecdsa s msg_hash pubkey.(hk_classical);
    refuse (negb classical_valid) "Invalid Classical ECDSA Signature"%string $
    Ok tt.

(** ** The signature on the wire *)
Definition flagged (v : option N) : bytes :=
  match v with Some n => 0x01 :: to_le_bytes 8 n | None => [0x00] end.

(** The length goes through [u16::try_from(..).expect(..)]. *)
Definition to_bytes {E} (s : HybridSignature) : outcome E bytes :=
  if bool_decide (blen s.(hs_quantum) <= U16_MAX) then
    Ok ([SIGNATURE_VERSION_V2; HYBRID_MARKER] ++ s.(hs_classical) ++ [COMPONENT_SEPARATOR]
          ++ [level_u8 s.(hs_level)] ++ to_le_bytes 2 (blen s.(hs_quantum)) ++ s.(hs_quantum)
          ++ flagged s.(hs_timestamp) ++ flagged s.(hs_chain_id))
  else Panic.

(** One optional [u64] of the metadata and the offset behind it. *)
Definition parse_flagged (bs : bytes) (cursor : N) : option (option N * N) :=
  match bs !! N.to_nat cursor with
  | None => None
  | Some 0x00 => Some (None, cursor + 1)
  | Some 0x01 =>
      if bool_decide (blen bs < cursor + 9) then None
      else Some (Some (of_le_bytes (take 8 (drop (N.to_nat (cursor + 1)) bs))), cursor + 9)
  | Some _ => None
  end.

Definition parse_signature_metadata (bs : bytes) (offset : N)
  : option (option N * option N * N) :=
  '(timestamp, cursor) ← parse_flagged bs offset;
  '(chain_id, cursor) ← parse_flagged bs cursor;
  Some (timestamp, chain_id, cursor).

Definition parse_level_byte (level_byte : N) : outcome CryptoError DilithiumSecurityLevel :=
  match level_byte with
  | 2 => Ok Level2
  | 3 => Ok Level3
  | 5 => Ok Level5
  | _ => Err (InvalidKeyFormat ("Invalid Dilithium level: " +:+ pretty level_byte))
  end.

Definition parse_signature_v2 (bs : bytes) : outcome CryptoError HybridSignature :=
  refuse (bool_decide (blen bs < 72)) (InvalidSignatureLength 72 (blen bs)) $
  classical ← slice 2 66 bs;
  sep ← byte_at 66 bs;
  refuse (negb (bool_decide (sep = COMPONENT_SEPARATOR)))
    (InvalidKeyFormat "Missing component separator") $
  level_byte ← byte_at 67 bs;
  level ← parse_level_byte level_byte;
  len_bytes ← slice 68 70 bs;
  let quantum_len := of_le_bytes len_bytes in
  let max_quantum_len := signature_size level in
  refuse (bool_decide (quantum_len = 0) || bool_decide (max_quantum_len < quantum_len))
    (InvalidKeyFormat ("Invalid Dilithium signature length " +:+ pretty quantum_len
       +:+ " for level " +:+ level_debug level +:+ " (max " +:+ pretty max_quantum_len +:+ ")")) $
  let quantum_end := 70 + quantum_len in
  refuse (bool_decide (blen bs < quantum_end + 2))
    (InvalidSignatureLength (quantum_end + 2) (blen bs)) $
  match parse_signature_metadata bs quantum_end with
  | None => Err (InvalidKeyFormat "Malformed hybrid signature metadata")
  | Some (timestamp, chain_id, consumed) =>
      refuse (negb (bool_decide (consumed = blen bs)))
        (InvalidKeyFormat "Trailing bytes in hybrid signature") $
      quantum ← slice 70 quantum_end bs;
      Ok {| hs_classical := classical; hs_quantum := quantum; hs_level := level;
            hs_timestamp := timestamp; hs_chain_id := chain_id |}
  end.

(** The loop over the candidate levels of version 1. *)
Fixpoint parse_v1_levels (bs classical : bytes) (levels : list DilithiumSecurityLevel)
  : outcome CryptoError HybridSignature :=
  match levels with
  | [] => Err (InvalidKeyFormat "Invalid hybrid signature encoding for all supported levels")
  | level :: levels =>
      let level_offset := 67 + signature_size level in
      if bool_decide (blen bs <= level_offset) then parse_v1_levels bs classical levels else
      level_byte ← byte_at level_offset bs;
      if negb (bool_decide (level_byte = level_u8 level)) then parse_v1_levels bs classical levels
      else
        match parse_signature_metadata bs (level_offset + 1) with
        | None => parse_v1_levels bs classical levels
        | Some (timestamp, chain_id, consumed) =>
            if negb (bool_decide (consumed = blen bs)) then parse_v1_levels bs classical levels
            else
              quantum ← slice 67 (67 + signature_size level) bs;
              Ok {| hs_classical := classical; hs_quantum := quantum; hs_level := level;
                    hs_timestamp := timestamp; hs_chain_id := chain_id |}
        end
  end.

Definition parse_signature_v1 (bs : bytes) : outcome CryptoError HybridSignature :=
  refuse (bool_decide (blen bs < 70)) (InvalidSignatureLength 70 (blen bs)) $
  classical ← slice 2 66 bs;
  sep ← byte_at 66 bs;
  refuse (negb (bool_decide (sep = COMPONENT_SEPARATOR)))
    (InvalidKeyFormat "Missing component separator") $
  parse_v1_levels bs classical [Level2; Level3; Level5].

Definition HybridSignature_from_bytes (bs : bytes) : outcome CryptoError HybridSignature :=
  refuse (bool_decide (blen bs < 2)) (InvalidSignatureLength 2 (blen bs)) $
  version ← byte_at 0 bs;
  marker ← byte_at 1 bs;
  refuse (negb (bool_decide (marker = HYBRID_MARKER)))
    (InvalidKeyFormat ("Expected hybrid signature marker 0x" +:+ hex_encode [HYBRID_MARKER]
       +:+ ", got 0x" +:+ hex_encode [marker])) $
  if bool_decide (version = SIGNATURE_VERSION_V2) then parse_signature_v2 bs
  else if bool_decide (version = SIGNATURE_VERSION_V1) then parse_signature_v1 bs
  else Err (InvalidKeyFormat ("Unsupported signature version: " +:+ pretty version)).

Definition HybridSignature_serialized_size (s : HybridSignature) : N :=
  2 + 64 + 1 + 1 + 2 + blen s.(hs_quantum) + 2 + 16.

(** ** Public keys *)
Definition EcdsaPublicKey_from_bytes (bs : bytes) : outcome CryptoError EcdsaPublicKey :=
  refuse (negb (bool_decide (blen bs = 33)) && negb (bool_decide (blen bs = 65)))
    (InvalidPublicKeyLength 33 (blen bs)) $
  match secp_key_error bs with
  | Some e => Err (InvalidKeyFormat e)
  | None => Ok {| ek_bytes := bs |}
  end.

(** The last twenty bytes of the hash of the uncompressed point without its
    prefix byte; [from_sec1_bytes(..).unwrap()]. *)
Definition EcdsaPublicKey_to_eth_address {E} (k : EcdsaPublicKey) : outcome E bytes :=
  match secp_key_error k.(ek_bytes) with
  | Some _ => Panic
  | None =>
      let point := secp_uncompressed k.(ek_bytes) in
      tail ← slice 1 (blen point) point;
      slice 12 32 (core_keccak256 tail)
  end.

Definition DilithiumPublicKey_from_bytes (bs : bytes) (level : DilithiumSecurityLevel)
  : outcome CryptoError DilithiumPublicKey :=
  refuse (negb (bool_decide (blen bs = public_key_size level)))
    (InvalidPublicKeyLength (public_key_size level) (blen bs)) $
  Ok {| dk_bytes := bs; dk_level := level |}.

Definition HybridPublicKey_from_bytes (bs : bytes) : outcome CryptoError HybridPublicKey :=
  refuse (bool_decide (blen bs < 36)) (InvalidPublicKeyLength 36 (blen bs)) $
  b0 ← byte_at 0 bs;
  b1 ← byte_at 1 bs;
  refuse (negb (bool_decide (b0 = SIGNATURE_VERSION)) || negb (bool_decide (b1 = HYBRID_MARKER)))
    (InvalidKeyFormat "Invalid hybrid key header") $
  ec ← slice 2 35 bs;
  classical ← EcdsaPublicKey_from_bytes ec;
  sep ← byte_at 35 bs;
  refuse (negb (bool_decide (sep = COMPONENT_SEPARATOR)))
    (InvalidKeyFormat "Missing component separator") $
  match last bs with
  | None => Err (InvalidKeyFormat "Missing level byte")
  | Some level_byte =>
      level ← parse_level_byte level_byte;
      let expected_len := 36 + public_key_size level + 1 in
      refuse (negb (bool_decide (blen bs = expected_len)))
        (InvalidPublicKeyLength expected_len (blen bs)) $
      qu ← slice 36 (36 + public_key_size level) bs;
      quantum ← DilithiumPublicKey_from_bytes qu level;
      Ok {| hk_classical := classical; hk_quantum := quantum |}
  end.

Definition HybridPublicKey_to_bytes (k : HybridPublicKey) : bytes :=
  [SIGNATURE_VERSION; HYBRID_MARKER] ++ k.(hk_classical).(ek_bytes) ++ [COMPONENT_SEPARATOR]
    ++ k.(hk_quantum).(dk_bytes) ++ [level_u8 k.(hk_quantum).(dk_level)].

Definition HybridPublicKey_serialized_size (k : HybridPublicKey) : N :=
  2 + blen k.(hk_classical).(ek_bytes) + 1 + blen k.(hk_quantum).(dk_bytes) + 1.

Definition fingerprint (k : HybridPublicKey) : Hash256 := core_sha256 (HybridPublicKey_to_bytes k).

Definition HybridPublicKey_to_address {E} (k : HybridPublicKey) : outcome E string :=
  fp ← slice 0 20 (fingerprint k);
  Ok ("aethel1" +:+ hex_encode fp).

Definition HybridPublicKey_to_eth_address {E} (k : HybridPublicKey) : outcome E string :=
  addr ← EcdsaPublicKey_to_eth_address k.(hk_classical);
  Ok ("0x" +:+ hex_encode addr).

(** ** Secret keys *)
Definition EcdsaSecretKey_from_bytes (bs : bytes) : outcome CryptoError EcdsaSecretKey :=
  refuse (negb (bool_decide (blen bs = 32))) (InvalidSecretKeyLength 32 (blen bs)) $
  Ok {| es_bytes := bs |}.

Definition EcdsaSecretKey_public_key (k : EcdsaSecretKey) : outcome CryptoError EcdsaPublicKey :=
  match secp_secret_error k.(es_bytes) with
  | Some e => Err (KeyGenerationFailed e)
  | None => EcdsaPublicKey_from_bytes (secp_public k.(es_bytes))
  end.

Definition DilithiumSecretKey_from_bytes (bs : bytes) (level : DilithiumSecurityLevel)
  : outcome CryptoError DilithiumSecretKey :=
  refuse (negb (bool_decide (blen bs = secret_key_size level)))
    (InvalidSecretKeyLength (secret_key_size level) (blen bs)) $
  Ok {| ds_bytes := bs; ds_level := level |}.

(** [vec![0; n]] filled with [source[(i + shift) % m]]. *)
Definition cycle (source : bytes) (m shift n : nat) : bytes :=
  (λ i, nth ((i + shift) mod m) source 0) <$> seq 0 n.

Definition derive_dilithium_public_key (sk : DilithiumSecretKey)
  : outcome CryptoError DilithiumPublicKey :=
  let hash := core_sha256 (string_bytes "dilithium-derive-pk:" ++ sk.(ds_bytes)) in
  DilithiumPublicKey_from_bytes
    (cycle hash 32 0 (N.to_nat (public_key_size sk.(ds_level)))) sk.(ds_level).

Definition HybridSecretKey_public_key (sk : HybridSecretKey) : outcome CryptoError HybridPublicKey :=
  classical ← EcdsaSecretKey_public_key sk.(sk_classical);
  quantum ← derive_dilithium_public_key sk.(sk_quantum);
  Ok {| hk_classical := classical; hk_quantum := quantum |}.

Definition sign_ecdsa (msg_hash : bytes) (sk : EcdsaSecretKey) : outcome CryptoError bytes :=
  match secp_secret_error sk.(es_bytes) with
  | Some e => Err (SigningFailed e)
  | None => Ok (secp_sign sk.(es_bytes) msg_hash)
  end.

Definition sign_dilithium (msg_hash : bytes) (sk : DilithiumSecretKey) : outcome CryptoError bytes :=
  if full_pqc then
    refuse (negb (dil3_secret_ok sk.(ds_bytes))) (InvalidKeyFormat "Invalid Dilithium secret key") $
    Ok (dil3_sign msg_hash sk.(ds_bytes))
  else
    let hash := core_sha256 (string_bytes "dilithium-sign:" ++ msg_hash ++ sk.(ds_bytes)) in
    Ok (cycle hash 32 0 (N.to_nat (signature_size sk.(ds_level)))).

Definition HybridSecretKey_sign (sk : HybridSecretKey) (message : bytes)
  : outcome CryptoError HybridSignature :=
  let msg_hash := core_keccak256 message in
  classical ← sign_ecdsa msg_hash sk.(sk_classical);
  quantum ← sign_dilithium msg_hash sk.(sk_quantum);
  Ok {| hs_classical := classical; hs_quantum := quantum; hs_level := sk.(sk_quantum).(ds_level);
        hs_timestamp := None; hs_chain_id := None |}.

(** ** Key pairs *)

(** [(pk, sk) = dilithium3::keypair()] with the feature, random bytes of the sizes
    of the level without it. *)
Definition generate_dilithium_keypair (level : DilithiumSecurityLevel) (pk sk : bytes)
  : outcome CryptoError (DilithiumSecretKey * DilithiumPublicKey) :=
  if full_pqc && negb (bool_decide (level = Level3)) then
    Err (UnsupportedAlgorithm ("Dilithium " +:+ level_debug level +:+ " not yet supported"))
  else
    secret ← DilithiumSecretKey_from_bytes sk level;
    public ← DilithiumPublicKey_from_bytes pk level;
    Ok (secret, public).

Definition generate_dilithium_keypair_from_seed (seed : bytes) (level : DilithiumSecurityLevel)
  : outcome CryptoError (DilithiumSecretKey * DilithiumPublicKey) :=
  let expanded := core_sha512 (string_bytes "dilithium-keygen:" ++ [level_u8 level] ++ seed) in
  secret ← DilithiumSecretKey_from_bytes
             (cycle expanded 64 0 (N.to_nat (secret_key_size level))) level;
  public ← DilithiumPublicKey_from_bytes
             (cycle expanded 64 32 (N.to_nat (public_key_size level))) level;
  Ok (secret, public).

(** [ecdsa_sk]: the bytes of [SigningKey::random]. *)
Definition generate_with_level (level : DilithiumSecurityLevel) (ecdsa_sk pk sk : bytes)
  : outcome CryptoError HybridKeyPair :=
  classical_sk ← EcdsaSecretKey_from_bytes ecdsa_sk;
  classical_pk ← EcdsaPublicKey_from_bytes (secp_public ecdsa_sk);
  '(quantum_sk, quantum_pk) ← generate_dilithium_keypair level pk sk;
  Ok {| kp_public_key := {| hk_classical := classical_pk; hk_quantum := quantum_pk |};
        kp_secret_key := {| sk_classical := classical_sk; sk_quantum := quantum_sk |} |}.

Definition generate (ecdsa_sk pk sk : bytes) : outcome CryptoError HybridKeyPair :=
  generate_with_level Level3 ecdsa_sk pk sk.

Definition from_seed (seed : bytes) : outcome CryptoError HybridKeyPair :=
  first ← slice 0 32 seed;
  match secp_secret_error first with
  | Some e => Err (KeyGenerationFailed e)
  | None =>
      classical_sk ← EcdsaSecretKey_from_bytes first;
      classical_pk ← EcdsaPublicKey_from_bytes (secp_public first);
      second ← slice 32 64 seed;
      '(quantum_sk, quantum_pk) ← generate_dilithium_keypair_from_seed second Level3;
      Ok {| kp_public_key := {| hk_classical := classical_pk; hk_quantum := quantum_pk |};
            kp_secret_key := {| sk_classical := classical_sk; sk_quantum := quantum_sk |} |}
  end.

Definition sign_with_config (kp : HybridKeyPair) (message : bytes) (timestamp chain_id : option N)
  : outcome CryptoError HybridSignature :=
  let msg_hash := core_keccak256 message in
  classical ← sign_ecdsa msg_hash kp.(kp_secret_key).(sk_classical);
  quantum ← sign_dilithium msg_hash kp.(kp_secret_key).(sk_quantum);
  Ok {| hs_classical := classical; hs_quantum := quantum;
        hs_level := kp.(kp_secret_key).(sk_quantum).(ds_level);
        hs_timestamp := timestamp; hs_chain_id := chain_id |}.

Definition HybridKeyPair_sign (kp : HybridKeyPair) (message : bytes)
  : outcome CryptoError HybridSignature := sign_with_config kp message None None.

Definition HybridKeyPair_verify {E} (kp : HybridKeyPair) (message : bytes) (s : HybridSignature)
    (config : VerifierConfig) (now : option N) : outcome E bool :=
  match verify s message kp.(kp_public_key) config now with
  | Ok _ => Ok true
  | Err _ => Ok false
  | Panic => Panic
  | Blocked => Blocked
  end.

(** The zipped loop of [batch_verify]; one clock reading per signature. *)
Fixpoint batch_loop {E} (items : list (bytes * HybridSignature * HybridPublicKey))
    (config : VerifierConfig) (now : nat → option N) : outcome E bool :=
  match items with
  | [] => Ok true
  | (message, signature, public_key) :: items =>
      match verify signature message public_key config (now O) with
      | Ok _ => batch_loop items config (λ i, now (S i))
      | Err _ => Ok false
      | Panic => Panic
      | Blocked => Blocked
      end
  end.

Definition batch_verify (messages : list bytes) (signatures : list HybridSignature)
    (public_keys : list HybridPublicKey) (config : VerifierConfig) (now : nat → option N)
  : outcome CryptoError bool :=
  refuse (negb (bool_decide (length messages = length signatures))
          || negb (bool_decide (length signatures = length public_keys)))
    (InvalidSignatureLength (N.of_nat (length messages)) (N.of_nat (length signatures))) $
  batch_loop (zip (zip messages signatures) public_keys) config now.
End hybrid.
