(* ===== verification/HybridSpec.v ===== *)
(** * Theorems on hybrid signatures

    The wire formats of signatures and public keys are decoded to what was encoded,
    and version 2 has one encoding per signature; a signature made with a key pair
    verifies; what verification guarantees, and what its metadata does not. *)
From S2P Require Import Prelude SysTypes Precompile Zkp ZkpSpec CoreHash Hybrid.
From stdpp Require Import base list strings pretty.
From Stdlib Require Import ZArith Lia.
#[local] Open Scope N_scope.
#[local] Arguments to_le_bytes : simpl never.
#[local] Arguments of_le_bytes : simpl never.

(** ** Reading bytes *)
Abbreviation octets := (Forall (λ b : N, b < 256)).

Lemma to_of_le_bytes bs : octets bs → to_le_bytes (length bs) (of_le_bytes bs) = bs.
Proof.
  induction 1 as [|b bs Hb _ IH]; [done|]. unfold of_le_bytes, to_le_bytes in *. cbn.
  fold of_le_bytes to_le_bytes in *.
  rewrite (N.mul_comm 256), N.div_add, N.div_small, N.add_0_l by lia.
  by rewrite N.Div0.mod_add, N.mod_small, IH by lia.
Qed.

Lemma of_le_bytes_bound bs : octets bs → of_le_bytes bs < 256 ^ blen bs.
Proof.
  unfold blen. induction 1 as [|b bs Hb _ IH]; [done|]. cbn [length].
  rewrite Nat2N.inj_succ, N.pow_succ_r'. unfold of_le_bytes in *. cbn. lia.
Qed.

Lemma byte_at_mid {E} pre b post i bs :
  bs = pre ++ b :: post → i = blen pre → byte_at (E:=E) i bs = Ok b.
Proof.
  intros -> ->. unfold byte_at, blen. rewrite Nat2N.id.
  by rewrite lookup_app_r, Nat.sub_diag by lia.
Qed.

(** Reading in order: what is left from an offset on starts with what is read. *)
Abbreviation rest bs i := (drop (A:=N) (N.to_nat i) bs).

Lemma byte_at_rest {E} i bs b : byte_at (E:=E) i bs = Ok b → rest bs i = b :: rest bs (i + 1).
Proof.
  unfold byte_at. destruct (bs !! N.to_nat i) as [x|] eqn:Hx; [|done]. intros [= ->].
  replace (N.to_nat (i + 1)) with (S (N.to_nat i)) by lia. by apply drop_S.
Qed.

Lemma slice_rest {E} a b bs x :
  slice (E:=E) a b bs = Ok x → rest bs a = x ++ rest bs b ∧ blen x = b - a.
Proof.
  unfold slice. case_bool_decide; [|done]. case_bool_decide as Hb; [|done]. cbn. intros [= <-].
  split.
  - rewrite <- (take_drop (N.to_nat (b - a)) (rest bs a)) at 1. f_equal.
    rewrite drop_drop. f_equal. lia.
  - unfold blen in *. rewrite length_take, length_drop. lia.
Qed.

Lemma rest_all bs i : i = blen bs → rest bs i = [].
Proof. intros ->. unfold blen. rewrite Nat2N.id. apply drop_all. Qed.

Lemma rest_mid pre post bs i : bs = pre ++ post → i = blen pre → rest bs i = post.
Proof. intros -> ->. unfold blen. rewrite Nat2N.id. apply drop_app_length. Qed.

Lemma rest_add bs i j : rest bs (i + j) = drop (N.to_nat j) (rest bs i).
Proof. rewrite drop_drop. f_equal. lia. Qed.

Lemma at_rest bs i : bs !! N.to_nat i = rest bs i !! 0%nat.
Proof. by rewrite lookup_drop, Nat.add_0_r. Qed.

Lemma blen_rest bs i : blen (rest bs i) = blen bs - i.
Proof. unfold blen. rewrite length_drop. lia. Qed.

(** ** Metadata *)
Definition small (v : option N) : Prop := match v with Some n => n <= U64_MAX | None => True end.

Lemma blen_flagged v : blen (flagged v) = match v with Some _ => 9 | None => 1 end.
Proof. destruct v; cbn [flagged]; [|done]. unfold blen. cbn. by rewrite length_to_le_bytes. Qed.

Lemma parse_flagged_mid pre v post bs c :
  small v → bs = pre ++ flagged v ++ post → c = blen pre →
  parse_flagged bs c = Some (v, c + blen (flagged v)).
Proof.
  intros Hv Hbs Hc. pose proof (rest_mid pre (flagged v ++ post) bs c Hbs Hc) as Hr.
  unfold parse_flagged. rewrite at_rest, rest_add, Hr, blen_flagged.
  destruct v as [n|]; cbn; [|done].
  rewrite bool_decide_false.
  - change (N.to_nat 1) with 1%nat. cbn [drop].
    rewrite drop_0, take_app_le, take_ge by (rewrite length_to_le_bytes; lia).
    rewrite of_to_le_bytes; [done|]. cbn in Hv |- *. lia.
  - subst. rewrite !blen_app, blen_flagged. lia.
Qed.

Lemma parse_flagged_rest bs c v c' :
  octets bs → parse_flagged bs c = Some (v, c') →
  rest bs c = flagged v ++ rest bs c' ∧ small v ∧ c' = c + blen (flagged v).
Proof.
  unfold parse_flagged. intros Hbs. rewrite at_rest.
  assert (octets (rest bs c)) as Ho by by apply Forall_drop.
  destruct (rest bs c) as [|b r] eqn:Hr; [done|].
  assert (rest bs (c + 1) = r) as Hr1 by by rewrite rest_add, Hr.
  destruct b as [|[p|p|]]; cbn -[drop]; [|done..|].
  - intros [= <- <-]. by rewrite Hr1.
  - case_bool_decide as Hlen; [done|]. intros [= <- <-]. rewrite Hr1.
    assert (8 <= length r)%nat as Hl.
    { pose proof (blen_rest bs (c + 1)) as Hb. rewrite Hr1 in Hb. unfold blen in *. lia. }
    apply Forall_cons in Ho as [_ Ho].
    assert (length (take 8 r) = 8%nat) as H8 by (rewrite length_take; lia).
    pose proof (to_of_le_bytes (take 8 r) ltac:(by apply Forall_take)) as Hle. rewrite H8 in Hle.
    cbn [flagged small]. rewrite Hle. split_and!.
    + replace (c + 9) with (c + 1 + 8) by lia. rewrite rest_add, Hr1.
      cbn [app]. f_equal. symmetry. apply take_drop.
    + pose proof (of_le_bytes_bound (take 8 r) ltac:(by apply Forall_take)) as Hbd.
      unfold blen in Hbd. rewrite H8 in Hbd. cbn in Hbd |- *. lia.
    + unfold blen. cbn. rewrite H8. lia.
Qed.

Lemma parse_metadata_mid pre ts ch bs c :
  small ts → small ch → bs = pre ++ flagged ts ++ flagged ch → c = blen pre →
  parse_signature_metadata bs c = Some (ts, ch, blen bs).
Proof.
  intros Hts Hch Hbs Hc. unfold parse_signature_metadata.
  rewrite (parse_flagged_mid pre ts (flagged ch)) by done. cbn.
  rewrite (parse_flagged_mid (pre ++ flagged ts) ch [])
    by (try done; subst; rewrite ?app_nil_r, ?app_assoc, ?blen_app; done).
  cbn. subst. by rewrite !blen_app, N.add_assoc.
Qed.

Lemma parse_metadata_rest bs c ts ch c' :
  octets bs → parse_signature_metadata bs c = Some (ts, ch, c') →
  rest bs c = flagged ts ++ flagged ch ++ rest bs c' ∧ small ts ∧ small ch
  ∧ c + 2 <= c' <= c + 18.
Proof.
  intros Ho. unfold parse_signature_metadata.
  destruct (parse_flagged bs c) as [[v c1]|] eqn:H1; [|done]. cbn.
  destruct (parse_flagged bs c1) as [[w c2]|] eqn:H2; [|done]. cbn. intros [= <- <- <-].
  apply parse_flagged_rest in H1 as (-> & ? & ->), H2 as (-> & ? & ->); [|done..].
  split_and!; [done..| |]; rewrite !blen_flagged; destruct v, w; lia.
Qed.

Lemma octets_le n z : octets (to_le_bytes n z).
Proof.
  revert z. induction n as [|n IH]; intros z; unfold to_le_bytes; constructor; [|apply IH].
  by apply N.mod_lt.
Qed.

Lemma octets_flagged v : octets (flagged v).
Proof. destruct v; cbn [flagged]; apply Forall_cons_2; try done; apply octets_le. Qed.

(** ** Signatures on the wire *)
Record sig_encodable (s : HybridSignature) : Prop := {
  se_classical : blen s.(hs_classical) = 64;
  se_quantum : 1 <= blen s.(hs_quantum) <= signature_size s.(hs_level);
  se_timestamp : small s.(hs_timestamp);
  se_chain_id : small s.(hs_chain_id);
}.

Lemma signature_size_u16 l : signature_size l <= U16_MAX.
Proof. by destruct l. Qed.

Lemma parse_level_u8 l : parse_level_byte (level_u8 l) = Ok l.
Proof. by destruct l. Qed.

Lemma parse_level_ok b l : parse_level_byte b = Ok l → b = level_u8 l.
Proof. unfold parse_level_byte. repeat case_match; intros; by simplify_eq. Qed.

Lemma refuse_false {E A} b (e : E) (k : outcome E A) : b = false → refuse b e k = k.
Proof. by intros ->. Qed.

Lemma refuse_ok {E A} b (e : E) (k : outcome E A) a :
  refuse b e k = Ok a ↔ b = false ∧ k = Ok a.
Proof. destruct b; cbn; naive_solver. Qed.

(** Steps over the next check or read of a parser, the bytes being known. *)
Ltac list_eq := subst; cbn [app]; rewrite <- ?app_assoc; cbn [app]; rewrite ?app_nil_r; reflexivity.
Ltac blen_go :=
  unfold blen in *; cbn [app length] in *;
  repeat (rewrite ?length_app, ?length_to_le_bytes in *; cbn [app length] in *); lia.
Ltac read_byte pre b post :=
  lazymatch goal with
  | |- (byte_at ?i ?bs ≫= ?k) = _ =>
      rewrite (byte_at_mid pre b post i bs) by first [list_eq | blen_go]; rewrite obind_ret
  end.
Ltac read_slice pre mid post :=
  lazymatch goal with
  | |- (slice ?a ?b ?bs ≫= ?k) = _ =>
      rewrite (slice_mid pre mid post a b bs) by first [list_eq | blen_go]; rewrite obind_ret
  end.

Section wire.
Context `{CoreLib}.

(** The parser of version 2 on the fields in their order. *)
Lemma parse_v2_fields c q l t i n tail bs :
  blen c = 64 → 1 <= blen q <= signature_size l → small t → small i →
  n = to_le_bytes 2 (blen q) → tail = flagged t ++ flagged i →
  bs = [SIGNATURE_VERSION_V2; HYBRID_MARKER] ++ c ++ COMPONENT_SEPARATOR :: level_u8 l :: n ++ q ++ tail →
  parse_signature_v2 bs = Ok {| hs_classical := c; hs_quantum := q; hs_level := l;
                                hs_timestamp := t; hs_chain_id := i |}.
Proof.
  intros Hc Hq Ht Hi Hn Htail Hbs. pose proof (signature_size_u16 l) as Hl.
  assert (2 <= blen tail) as Hf
    by (subst tail; rewrite blen_app, !blen_flagged; destruct t, i; lia).
  assert (blen n = 2) as Hn2 by (subst n; apply blen_le).
  assert (blen bs = 70 + blen q + blen tail) as Hlen by (subst bs; blen_go).
  assert (of_le_bytes n = blen q) as Hval by (subst n; apply of_to_le_bytes; cbn; lia).
  assert (parse_signature_metadata bs (70 + blen q) = Some (t, i, blen bs)) as Hmeta.
  { apply (parse_metadata_mid ([SIGNATURE_VERSION_V2; HYBRID_MARKER] ++ c ++ [COMPONENT_SEPARATOR; level_u8 l] ++ n ++ q));
      [done..|list_eq|blen_go]. }
  unfold parse_signature_v2. rewrite refuse_false by (apply bool_decide_false; lia).
  clear Hn Htail.
  read_slice [SIGNATURE_VERSION_V2; HYBRID_MARKER] c (COMPONENT_SEPARATOR :: level_u8 l :: n ++ q ++ tail).
  read_byte ([SIGNATURE_VERSION_V2; HYBRID_MARKER] ++ c) COMPONENT_SEPARATOR (level_u8 l :: n ++ q ++ tail).
  rewrite refuse_false by done.
  read_byte ([SIGNATURE_VERSION_V2; HYBRID_MARKER] ++ c ++ [COMPONENT_SEPARATOR]) (level_u8 l) (n ++ q ++ tail).
  rewrite parse_level_u8, obind_ret.
  read_slice ([SIGNATURE_VERSION_V2; HYBRID_MARKER] ++ c ++ [COMPONENT_SEPARATOR; level_u8 l]) n (q ++ tail).
  rewrite Hval. cbv zeta. rewrite refuse_false by (by rewrite !bool_decide_false by lia).
  rewrite refuse_false by (apply bool_decide_false; lia). rewrite Hmeta.
  rewrite refuse_false by (by rewrite bool_decide_true).
  by read_slice ([SIGNATURE_VERSION_V2; HYBRID_MARKER] ++ c ++ [COMPONENT_SEPARATOR; level_u8 l] ++ n) q tail.
Qed.

Lemma from_bytes_v2 bs :
  HybridSignature_from_bytes ([SIGNATURE_VERSION_V2; HYBRID_MARKER] ++ bs)
  = parse_signature_v2 ([SIGNATURE_VERSION_V2; HYBRID_MARKER] ++ bs).
Proof.
  unfold HybridSignature_from_bytes. by rewrite refuse_false by (apply bool_decide_false; blen_go).
Qed.

Lemma from_bytes_v1 bs :
  HybridSignature_from_bytes ([SIGNATURE_VERSION_V1; HYBRID_MARKER] ++ bs)
  = parse_signature_v1 ([SIGNATURE_VERSION_V1; HYBRID_MARKER] ++ bs).
Proof.
  unfold HybridSignature_from_bytes. by rewrite refuse_false by (apply bool_decide_false; blen_go).
Qed.

Lemma signature_v2_decodes s :
  sig_encodable s →
  ∃ bs, to_bytes (E:=CryptoError) s = Ok bs ∧ HybridSignature_from_bytes bs = Ok s.
Proof.
  intros [Hc Hq Ht Hi]. pose proof (signature_size_u16 (hs_level s)) as Hl.
  eexists. unfold to_bytes. rewrite bool_decide_true by lia. split; [done|].
  rewrite from_bytes_v2. destruct s as [c q l t i].
  by apply (parse_v2_fields c q l t i _ _ _ Hc Hq Ht Hi eq_refl eq_refl).
Qed.

(** Version 1: the quantum part has the full size of its level, the level follows. *)
Definition v1_bytes (s : HybridSignature) : bytes :=
  [SIGNATURE_VERSION_V1; HYBRID_MARKER] ++ s.(hs_classical) ++ COMPONENT_SEPARATOR :: s.(hs_quantum)
    ++ level_u8 s.(hs_level) :: flagged s.(hs_timestamp) ++ flagged s.(hs_chain_id).

(** A level whose size is too short leaves bytes over, one whose size is too long
    has none to read. *)
Lemma parse_v1_skip bs c l levels :
  octets bs → blen bs <= 67 + signature_size l ∨ 67 + signature_size l + 19 < blen bs →
  parse_v1_levels bs c (l :: levels) = parse_v1_levels bs c levels.
Proof.
  intros Ho Hlen. cbn [parse_v1_levels]. case_bool_decide as Hle; [done|].
  destruct Hlen as [?|Hlen]; [lia|].
  assert (∃ b, byte_at (E:=CryptoError) (67 + signature_size l) bs = Ok b) as [b ->].
  { unfold byte_at. destruct (lookup_lt_is_Some_2 bs (N.to_nat (67 + signature_size l))) as [b ->];
      [unfold blen in *; lia|eauto]. }
  rewrite obind_ret. case_bool_decide; [|done]. cbn [negb].
  destruct (parse_signature_metadata bs _) as [[[ts ch] c']|] eqn:Hm; [|done].
  apply parse_metadata_rest in Hm as (_ & _ & _ & Hc'); [|done].
  by rewrite bool_decide_false by lia.
Qed.

Lemma parse_v1_hit c q l t i levels bs :
  blen c = 64 → blen q = signature_size l → small t → small i →
  bs = [SIGNATURE_VERSION_V1; HYBRID_MARKER] ++ c ++ COMPONENT_SEPARATOR :: q
         ++ level_u8 l :: flagged t ++ flagged i →
  parse_v1_levels bs c (l :: levels)
  = Ok {| hs_classical := c; hs_quantum := q; hs_level := l; hs_timestamp := t; hs_chain_id := i |}.
Proof.
  intros Hc Hq Ht Hi Hbs. pose (pre := [SIGNATURE_VERSION_V1; HYBRID_MARKER] ++ c ++ [COMPONENT_SEPARATOR]).
  assert (blen pre = 67) as Hpre by (unfold pre; blen_go).
  assert (bs = pre ++ q ++ level_u8 l :: flagged t ++ flagged i) as Hbs' by (unfold pre; list_eq).
  clear Hbs. clearbody pre. cbn [parse_v1_levels].
  rewrite bool_decide_false by (rewrite Hbs'; blen_go).
  read_byte (pre ++ q) (level_u8 l) (flagged t ++ flagged i).
  rewrite bool_decide_true by done. cbn [negb].
  rewrite (parse_metadata_mid (pre ++ q ++ [level_u8 l]) t i) by first [done|list_eq|blen_go].
  rewrite bool_decide_true by done. cbn [negb].
  by read_slice pre q (level_u8 l :: flagged t ++ flagged i).
Qed.

Lemma signature_v1_decodes s :
  sig_encodable s → blen s.(hs_quantum) = signature_size s.(hs_level) →
  octets s.(hs_classical) → octets s.(hs_quantum) →
  HybridSignature_from_bytes (v1_bytes s) = Ok s.
Proof.
  intros [Hc Hq Ht Hi] Hex Hoc Hoq. unfold v1_bytes. rewrite from_bytes_v1.
  destruct s as [c q l t i]; cbn [hs_classical hs_quantum hs_level hs_timestamp hs_chain_id] in *.
  set (bs := _ ++ _).
  assert (octets bs) as Ho.
  { subst bs. repeat first [apply Forall_app_2 | apply Forall_cons_2 | done | apply octets_flagged];
      destruct l; done. }
  assert (70 + signature_size l <= blen bs <= 86 + signature_size l) as Hlen.
  { subst bs. unfold blen in *. cbn. rewrite !length_app. cbn. rewrite !length_app. cbn.
    rewrite !length_app. fold (blen (flagged t)). pose proof (blen_flagged t). pose proof (blen_flagged i).
    unfold blen in *. destruct t, i; lia. }
  assert (bs = [SIGNATURE_VERSION_V1; HYBRID_MARKER] ++ c ++ COMPONENT_SEPARATOR :: q
         ++ level_u8 l :: flagged t ++ flagged i) as Hbs by done. clearbody bs.
  unfold parse_signature_v1. rewrite refuse_false by (apply bool_decide_false; destruct l; cbn in *; lia).
  read_slice [SIGNATURE_VERSION_V1; HYBRID_MARKER] c (COMPONENT_SEPARATOR :: q ++ level_u8 l :: flagged t ++ flagged i).
  read_byte ([SIGNATURE_VERSION_V1; HYBRID_MARKER] ++ c) COMPONENT_SEPARATOR (q ++ level_u8 l :: flagged t ++ flagged i).
  rewrite refuse_false by done.
  destruct l; repeat (rewrite parse_v1_skip by (try done; cbn in *; lia)); by apply parse_v1_hit.
Qed.

(** Whatever the parser of version 2 accepts is the encoding of its result. *)
Lemma signature_v2_canonical bs s :
  octets bs → bs !! 0%nat = Some SIGNATURE_VERSION_V2 →
  HybridSignature_from_bytes bs = Ok s → sig_encodable s ∧ to_bytes (E:=CryptoError) s = Ok bs.
Proof.
  intros Ho Hv Hok. unfold HybridSignature_from_bytes in Hok.
  apply refuse_ok in Hok as [_ Hok].
  apply obind_ok in Hok as (v & H0 & Hok). apply obind_ok in Hok as (m & H1 & Hok).
  apply refuse_ok in Hok as [Hm Hok].
  assert (v = SIGNATURE_VERSION_V2) as -> by (unfold byte_at in H0; change (N.to_nat 0) with 0%nat in H0; rewrite Hv in H0; congruence).
  rewrite bool_decide_true in Hok by done. unfold parse_signature_v2 in Hok.
  apply refuse_ok in Hok as [_ Hok]. apply obind_ok in Hok as (c & H2 & Hok).
  apply obind_ok in Hok as (sep & H66 & Hok). apply refuse_ok in Hok as [Hsep Hok].
  apply obind_ok in Hok as (lb & H67 & Hok). apply obind_ok in Hok as (l & Hl & Hok).
  apply obind_ok in Hok as (n & H68 & Hok). apply refuse_ok in Hok as [Hn Hok].
  apply refuse_ok in Hok as [_ Hok].
  destruct (parse_signature_metadata bs _) as [[[ts ch] e]|] eqn:Hmeta; [|done].
  apply refuse_ok in Hok as [He Hok]. apply obind_ok in Hok as (q & H70 & Hok).
  injection Hok as <-. bool_facts. subst m sep e.
  apply parse_level_ok in Hl as ->. set (w := of_le_bytes n) in *.
  apply byte_at_rest in H0, H1, H66, H67. apply slice_rest in H2 as [H2 ?], H68 as [H68 Hn2], H70 as [H70 Hq].
  apply parse_metadata_rest in Hmeta as (Hmeta & ? & ? & _); [|done].
  rewrite (rest_all bs (blen bs) eq_refl), app_nil_r in Hmeta.
  assert (octets n) as Hon.
  { apply (Forall_app _ n (rest bs 70)). rewrite <- H68. by apply Forall_drop. }
  assert (length n = 2%nat) as Hn2' by (unfold blen in Hn2; lia).
  assert (blen q = w) as Hqw by lia. pose proof (signature_size_u16 l).
  assert (n = to_le_bytes 2 w) as Hnw by (rewrite <- Hn2'; symmetry; by apply to_of_le_bytes).
  split; [split; cbn; lia || done|]. unfold to_bytes.
  cbn [hs_classical hs_quantum hs_level hs_timestamp hs_chain_id].
  rewrite bool_decide_true by lia. f_equal. rewrite Hqw, <- Hnw, <- Hmeta, <- H70.
  cbn [app]. rewrite <- H68. change 68 with (67 + 1) at 1. rewrite <- H67. change 67 with (66 + 1) at 1.
  rewrite <- H66, <- H2. change 2 with (1 + 1) at 1. rewrite <- H1. change (rest bs 1) with (rest bs (0 + 1)).
  by rewrite <- H0.
Qed.
End wire.

(** ** Public keys on the wire *)
Record key_encodable `{CoreLib} (k : HybridPublicKey) : Prop := {
  ke_classical : blen k.(hk_classical).(ek_bytes) = 33;
  ke_point : secp_key_error k.(hk_classical).(ek_bytes) = None;
  ke_quantum : blen k.(hk_quantum).(dk_bytes) = public_key_size k.(hk_quantum).(dk_level);
}.

Section keys.
Context `{CoreLib}.

Lemma public_key_decodes k :
  key_encodable k → HybridPublicKey_from_bytes (HybridPublicKey_to_bytes k) = Ok k.
Proof.
  intros [Hc Hp Hq]. destruct k as [[c] [q l]]; cbn [hk_classical hk_quantum ek_bytes dk_bytes dk_level] in *.
  unfold HybridPublicKey_to_bytes. cbn [hk_classical hk_quantum ek_bytes dk_bytes dk_level].
  remember (_ ++ _) as bs eqn:Hbs.
  assert (blen bs = 37 + public_key_size l) as Hlen by (subst; blen_go).
  unfold HybridPublicKey_from_bytes. rewrite refuse_false by (apply bool_decide_false; lia).
  read_byte ([] : bytes) SIGNATURE_VERSION (HYBRID_MARKER :: c ++ COMPONENT_SEPARATOR :: q ++ [level_u8 l]).
  read_byte [SIGNATURE_VERSION] HYBRID_MARKER (c ++ COMPONENT_SEPARATOR :: q ++ [level_u8 l]).
  rewrite refuse_false by done.
  read_slice [SIGNATURE_VERSION; HYBRID_MARKER] c (COMPONENT_SEPARATOR :: q ++ [level_u8 l]).
  unfold EcdsaPublicKey_from_bytes.
  rewrite refuse_false, Hp, obind_ret by (by rewrite bool_decide_true).
  read_byte ([SIGNATURE_VERSION; HYBRID_MARKER] ++ c) COMPONENT_SEPARATOR (q ++ [level_u8 l]).
  rewrite refuse_false by done.
  assert (last bs = Some (level_u8 l)) as ->.
  { subst bs. by rewrite !app_assoc, last_snoc. }
  rewrite parse_level_u8, obind_ret. rewrite refuse_false by (rewrite bool_decide_true by lia; done).
  read_slice ([SIGNATURE_VERSION; HYBRID_MARKER] ++ c ++ [COMPONENT_SEPARATOR]) q [level_u8 l].
  unfold DilithiumPublicKey_from_bytes. by rewrite refuse_false by (by rewrite bool_decide_true).
Qed.

(** An uncompressed curve point is accepted as a key, but the format has no room for
    it. *)
Lemma uncompressed_key_lost k k' :
  blen k.(hk_classical).(ek_bytes) = 65 →
  blen k.(hk_quantum).(dk_bytes) = public_key_size k.(hk_quantum).(dk_level) →
  HybridPublicKey_from_bytes (HybridPublicKey_to_bytes k) ≠ Ok k'.
Proof.
  intros Hc Hq Hok. unfold HybridPublicKey_from_bytes in Hok.
  repeat (first [apply refuse_ok in Hok as [_ Hok]
                | apply obind_ok in Hok as (? & _ & Hok)]).
  assert (last (HybridPublicKey_to_bytes k) = Some (level_u8 (dk_level (hk_quantum k)))) as Hl.
  { unfold HybridPublicKey_to_bytes. by rewrite !app_assoc, last_snoc. }
  rewrite Hl, parse_level_u8, obind_ret in Hok. apply refuse_ok in Hok as [Hlen _].
  bool_facts. unfold HybridPublicKey_to_bytes in Hlen. revert Hlen. blen_go.
Qed.

(** ** Verification *)
Definition age_ok (s : HybridSignature) (config : VerifierConfig) (now : option N) : Prop :=
  ∀ max_age ts, config.(vc_max_signature_age_secs) = Some max_age → s.(hs_timestamp) = Some ts →
    ∃ t, now = Some t ∧ (t <= ts ∨ t - ts <= max_age).

Definition quantum_ok (s : HybridSignature) (message : bytes) (pk : HybridPublicKey) : Prop :=
  full_pqc = true ∧ dil3_signature_ok s.(hs_quantum) = true ∧ dil3_key_ok pk.(hk_quantum).(dk_bytes) = true
  ∧ dil3_verify s.(hs_quantum) (core_keccak256 message) pk.(hk_quantum).(dk_bytes) = true.

Definition classical_ok (s : HybridSignature) (message : bytes) (pk : HybridPublicKey) : Prop :=
  secp_signature_error s.(hs_classical) = None ∧ secp_key_error pk.(hk_classical).(ek_bytes) = None
  ∧ secp_verify pk.(hk_classical).(ek_bytes) (core_keccak256 message) s.(hs_classical) = true.

Lemma check_age_ok s config now : check_age s config now = Ok tt ↔ age_ok s config now.
Proof.
  unfold check_age, age_ok.
  destruct (vc_max_signature_age_secs config) as [m|]; [|naive_solver].
  destruct (hs_timestamp s) as [ts|]; [|naive_solver].
  destruct now as [t|]; [|split; [done|by intros Ha; destruct (Ha m ts) as (?&?&_)]].
  rewrite refuse_ok. split.
  - intros [Hc _] ? ? [= <-] [= <-]. exists t. split; [done|].
    apply andb_false_iff in Hc as [?|?]; bool_facts; lia.
  - intros Ha. destruct (Ha m ts) as (? & [= <-] & Hle); [done..|]. split; [|done].
    apply andb_false_iff. rewrite !bool_decide_eq_false. lia.
Qed.

Lemma check_chain_ok s config :
  check_chain_id s config = Ok tt ↔ ∀ id, s.(hs_chain_id) = Some id → id = config.(vc_chain_id).
Proof.
  unfold check_chain_id. destruct (hs_chain_id s) as [id|]; [|naive_solver].
  rewrite refuse_ok. split.
  - intros [Hc _] ? [= <-]. by bool_facts.
  - intros Ha. by rewrite bool_decide_true by auto.
Qed.

Lemma verify_dilithium_ok s m pk :
  verify_dilithium s (core_keccak256 m) pk.(hk_quantum) = Ok true ↔ quantum_ok s m pk.
Proof.
  unfold verify_dilithium, quantum_ok. destruct full_pqc; [|naive_solver].
  rewrite !refuse_ok, !negb_false_iff. naive_solver congruence.
Qed.

Lemma verify_ecdsa_ok s m pk :
  blen s.(hs_classical) = 64 →
  verify_ecdsa s (core_keccak256 m) pk.(hk_classical) = Ok true ↔ classical_ok s m pk.
Proof.
  intros Hl. unfold verify_ecdsa, classical_ok. rewrite refuse_false by (by rewrite bool_decide_true).
  destruct (secp_signature_error _); [naive_solver|].
  destruct (secp_key_error _); [by split; [|intros (_ & ? & _)]|].
  split; [by intros [= ->]|by intros (_ & _ & ->)].
Qed.

Lemma bind_true {E A} (o : outcome E bool) (e : E) (k : outcome E A) a :
  (o ≫= λ b, refuse (negb b) e k) = Ok a ↔ o = Ok true ∧ k = Ok a.
Proof. destruct o as [[]| | |]; cbn; naive_solver. Qed.

Lemma bind_unit {E A} (o : outcome E unit) (k : outcome E A) a :
  (o ;; k) = Ok a ↔ o = Ok tt ∧ k = Ok a.
Proof. destruct o as [[]| | |]; cbn; naive_solver. Qed.

(** The verdict, exactly. *)
Lemma verify_ok s m pk config now :
  verify s m pk config now = Ok tt ↔
    blen s.(hs_classical) = 64 ∧ blen s.(hs_quantum) = signature_size s.(hs_level)
    ∧ level_u8 config.(vc_min_dilithium_level) <= level_u8 s.(hs_level)
    ∧ age_ok s config now ∧ (∀ id, s.(hs_chain_id) = Some id → id = config.(vc_chain_id))
    ∧ quantum_ok s m pk ∧ (config.(vc_panic_mode_qc) = false → classical_ok s m pk).
Proof.
  unfold verify, validate_format. rewrite !bind_unit, !refuse_ok.
  rewrite check_age_ok, check_chain_ok. cbv zeta. rewrite bind_true, verify_dilithium_ok.
  rewrite !negb_false_iff, !bool_decide_eq_true, bool_decide_eq_false, N.nlt_ge.
  destruct (vc_panic_mode_qc config); [naive_solver|]. rewrite bind_true.
  split.
  - intros ((Hl & ? & _) & [? ?] & ? & ? & Hec & _). rewrite verify_ecdsa_ok in Hec by done. naive_solver.
  - intros (? & ? & ? & ? & ? & ? & Hec). rewrite verify_ecdsa_ok by done. naive_solver.
Qed.

(** What a relay can do to the metadata. *)
Definition strip_metadata (s : HybridSignature) : HybridSignature :=
  HybridSignature_new s.(hs_classical) s.(hs_quantum) s.(hs_level).

(** ** Signing *)
Section signing.
Context `{!CoreLaws}.

Lemma generate_ok ecdsa_sk pk sk kp :
  full_pqc = true → secp_secret_error ecdsa_sk = None → dil3_keypair sk pk →
  generate ecdsa_sk pk sk = Ok kp ↔
    blen ecdsa_sk = 32 ∧
    kp = {| kp_public_key := {| hk_classical := {| ek_bytes := secp_public ecdsa_sk |};
                                hk_quantum := {| dk_bytes := pk; dk_level := Level3 |} |};
            kp_secret_key := {| sk_classical := {| es_bytes := ecdsa_sk |};
                                sk_quantum := {| ds_bytes := sk; ds_level := Level3 |} |} |}.
Proof.
  intros Hf Hs (_ & _ & Hsk & Hpk & _).
  unfold generate, generate_with_level, EcdsaSecretKey_from_bytes, EcdsaPublicKey_from_bytes.
  destruct (decide (blen ecdsa_sk = 32)) as [Hl|Hl];
    [|rewrite (bool_decide_false (blen ecdsa_sk = 32)) by done; cbn; naive_solver].
  rewrite (bool_decide_true (blen ecdsa_sk = 32)) by done. cbn [refuse negb]. rewrite obind_ret.
  rewrite (blen_nat (secp_public ecdsa_sk) 33) by apply secp_public_33.
  rewrite secp_public_ok by done. rewrite refuse_false by done. rewrite obind_ret.
  unfold generate_dilithium_keypair. rewrite Hf. cbn [andb negb].
  rewrite bool_decide_true by done. cbn [negb].
  unfold DilithiumSecretKey_from_bytes, DilithiumPublicKey_from_bytes.
  rewrite (blen_nat sk 4032), (blen_nat pk 1952) by done. cbn [refuse negb].
  naive_solver.
Qed.

(** A key pair signs, and verification accepts what it signed. *)
Lemma signed_verifies ecdsa_sk pk sk kp message ts ch :
  full_pqc = true → secp_secret_error ecdsa_sk = None → dil3_keypair sk pk →
  generate ecdsa_sk pk sk = Ok kp →
  ∃ s, sign_with_config kp message ts ch = Ok s
    ∧ s.(hs_timestamp) = ts ∧ s.(hs_chain_id) = ch ∧ s.(hs_level) = Level3
    ∧ blen s.(hs_classical) = 64 ∧ blen s.(hs_quantum) = 3309
    ∧ key_encodable kp.(kp_public_key)
    ∧ quantum_ok s message kp.(kp_public_key) ∧ classical_ok s message kp.(kp_public_key).
Proof.
  intros Hf Hs Hkp Hg. apply generate_ok in Hg as [Hl ->]; [|done..].
  destruct Hkp as (Hsk & Hpk & _ & Hpl & Hv). destruct (Hv (core_keccak256 message)) as (? & Hlen & ?).
  eexists. unfold sign_with_config, sign_ecdsa, sign_dilithium.
  cbn [kp_secret_key sk_classical sk_quantum es_bytes ds_bytes ds_level]. rewrite Hs, obind_ret, Hf, Hsk.
  cbn [negb refuse]. rewrite obind_ret. split; [done|].
  cbn. split_and!; try done.
  - apply (blen_nat _ 64), secp_sign_64.
  - by apply (blen_nat _ 3309).
  - split; cbn; [apply (blen_nat _ 33), secp_public_33|by apply secp_public_ok|by apply (blen_nat _ 1952)].
  - split; cbn; [apply secp_sign_ok|]. split; [by apply secp_public_ok|by apply secp_sign_verifies].
Qed.
End signing.
End keys.
