(* ===== verification/CoreTx.v ===== *)
(** * Addresses and transactions of the core crate

    [crates/core/src/types/address.rs] and [transaction.rs].  An address is its type
    and twenty bytes; its "bech32" form is a prefix and hexadecimal digits.  A
    transaction is serialised for signing, hashed with a domain separator, signed and
    wrapped into an envelope of three length-prefixed parts.  The reading of the
    system clock is an argument. *)
From S2P Require Import Prelude SysTypes Precompile CoreHash Hybrid.
From stdpp Require Import base list strings pretty.
From Stdlib Require Import ZArith Lia Ascii.
#[local] Open Scope N_scope.

(** ** [address.rs] *)
Inductive AddressError :=
| InvalidLength (expected actual : N)
| InvalidPrefix (expected actual : string)
| InvalidChecksum
| InvalidEncoding (reason : string)
| InvalidType (b : N).

Inductive AddressType := User | Contract | Validator | System | Oracle.

#[export] Instance AddressType_eq_dec : EqDecision AddressType.
Proof. solve_decision. Defined.

Definition AddressType_from_byte (b : N) : option AddressType :=
  match b with
  | 0 => Some User
  | 1 => Some Contract
  | 2 => Some Validator
  | 3 => Some System
  | 4 => Some Oracle
  | _ => None
  end.

Definition AddressType_to_byte (t : AddressType) : N :=
  match t with User => 0 | Contract => 1 | Validator => 2 | System => 3 | Oracle => 4 end.

Definition AddressType_prefix (t : AddressType) : string :=
  match t with
  | User => "aethel"
  | Contract => "aethelc"
  | Validator => "aethelv"
  | System => "aethels"
  | Oracle => "aethelo"
  end.

Definition ADDRESS_SIZE : N := 20.

Record CoreAddress := { ad_type : AddressType; ad_bytes : bytes }.

#[export] Instance CoreAddress_eq_dec : EqDecision CoreAddress.
Proof. solve_decision. Defined.

Definition Address_ZERO : CoreAddress := {| ad_type := User; ad_bytes := replicate 20 0 |}.
Definition Address_TREASURY : CoreAddress := {| ad_type := System; ad_bytes := replicate 20 0x01 |}.
Definition Address_REWARDS : CoreAddress := {| ad_type := System; ad_bytes := replicate 20 0x02 |}.

Definition Address_from_slice (s : bytes) (t : AddressType) : outcome AddressError CoreAddress :=
  refuse (negb (bool_decide (blen s = ADDRESS_SIZE))) (InvalidLength ADDRESS_SIZE (blen s)) $
  Ok {| ad_type := t; ad_bytes := s |}.

Section address.
Context `{CoreLib}.

Definition Address_from_public_key (k : HybridPublicKey) : CoreAddress :=
  {| ad_type := User; ad_bytes := take 20 (sha256_of (HybridPublicKey_to_bytes k)) |}.

Definition Address_create_contract (deployer : CoreAddress) (nonce : N) : CoreAddress :=
  {| ad_type := Contract; ad_bytes := take 20 (sha256_of (deployer.(ad_bytes) ++ to_le_bytes 8 nonce)) |}.

Definition Address_from_validator_key (k : HybridPublicKey) : CoreAddress :=
  {| ad_type := Validator; ad_bytes := take 20 (sha256_of (HybridPublicKey_to_bytes k)) |}.

Definition Address_is_zero (a : CoreAddress) : bool := forallb (λ b, bool_decide (b = 0)) a.(ad_bytes).
Definition Address_is_system (a : CoreAddress) : bool := bool_decide (a.(ad_type) = System).

Definition Address_to_bech32 (a : CoreAddress) : string :=
  AddressType_prefix a.(ad_type) +:+ "1" +:+ hex_encode a.(ad_bytes).

(** [s.find('1')]: what is before the first [1] and what is behind it. *)
Fixpoint split_at_one (s : string) : option (string * string) :=
  match s with
  | EmptyString => None
  | String c s =>
      if bool_decide (c = "1"%char) then Some (EmptyString, s)
      else '(prefix, data) ← split_at_one s; Some (String c prefix, data)
  end.

Definition AddressType_of_prefix (prefix : string) : option AddressType :=
  if bool_decide (prefix = "aethel") then Some User
  else if bool_decide (prefix = "aethelc") then Some Contract
  else if bool_decide (prefix = "aethelv") then Some Validator
  else if bool_decide (prefix = "aethels") then Some System
  else if bool_decide (prefix = "aethelo") then Some Oracle
  else None.

Definition Address_from_bech32 (s : string) : outcome AddressError CoreAddress :=
  match split_at_one s with
  | None => Err (InvalidEncoding "Missing separator")
  | Some (prefix, data) =>
      match AddressType_of_prefix prefix with
      | None => Err (InvalidPrefix "aethel/aethelc/aethelv/aethels/aethelo" prefix)
      | Some t =>
          match core_hex_decode data with
          | inr e => Err (InvalidEncoding e)
          | inl bs => Address_from_slice bs t
          end
      end
  end.

Definition Address_checksum (a : CoreAddress) : bytes := take 4 (sha256_of a.(ad_bytes)).

Definition Address_serialize (a : CoreAddress) : bytes :=
  AddressType_to_byte a.(ad_type) :: a.(ad_bytes).

Definition Address_deserialize (bs : bytes) : outcome AddressError CoreAddress :=
  refuse (negb (bool_decide (blen bs = ADDRESS_SIZE + 1)))
    (InvalidLength (ADDRESS_SIZE + 1) (blen bs)) $
  b ← byte_at 0 bs;
  match AddressType_from_byte b with
  | None => Err (InvalidType b)
  | Some t =>
      addr_bytes ← slice 1 (blen bs) bs;
      Ok {| ad_type := t; ad_bytes := addr_bytes |}
  end.
End address.

(** ** [transaction.rs]: types *)
Inductive TransactionError :=
| InvalidSignature (reason : string)
| TxVerificationFailed
| MissingSignature
| InvalidNonce (expected actual : N)
| InsufficientBalance (required available : N)
| TxExpired (expiry current : N)
| InvalidTxType
| SerializationError (reason : string)
| TxCryptoError (reason : string).

(** [From<CryptoError>], and [?] on a [CryptoResult]. *)
Definition TransactionError_from (e : CryptoError) : TransactionError :=
  TxCryptoError (CryptoError_to_string e).

Definition crypto_try {A} (o : outcome CryptoError A) : outcome TransactionError A :=
  match o with
  | Ok a => Ok a
  | Err e => Err (TransactionError_from e)
  | Panic => Panic
  | Blocked => Blocked
  end.

Inductive TransactionType :=
| Transfer | ComputeJob | Seal | Stake | Unstake | Propose | Vote | OracleUpdate | Deploy | Call.

#[export] Instance TransactionType_eq_dec : EqDecision TransactionType.
Proof. solve_decision. Defined.

Definition TransactionType_from_byte (b : N) : option TransactionType :=
  match b with
  | 0x01 => Some Transfer
  | 0x02 => Some ComputeJob
  | 0x03 => Some Seal
  | 0x04 => Some Stake
  | 0x05 => Some Unstake
  | 0x06 => Some Propose
  | 0x07 => Some Vote
  | 0x08 => Some OracleUpdate
  | 0x09 => Some Deploy
  | 0x0A => Some Call
  | _ => None
  end.

Definition TransactionType_to_byte (t : TransactionType) : N :=
  match t with
  | Transfer => 0x01 | ComputeJob => 0x02 | Seal => 0x03 | Stake => 0x04 | Unstake => 0x05
  | Propose => 0x06 | Vote => 0x07 | OracleUpdate => 0x08 | Deploy => 0x09 | Call => 0x0A
  end.

Definition requires_compute (t : TransactionType) : bool :=
  match t with ComputeJob | Seal => true | _ => false end.

Definition base_gas (t : TransactionType) : N :=
  match t with
  | Transfer => 21000
  | ComputeJob => 100000
  | Seal => 50000
  | Stake | Unstake => 30000
  | Propose => 200000
  | Vote => 25000
  | OracleUpdate => 50000
  | Deploy => 500000
  | Call => 21000
  end.

(** *** Payloads *)
Record TransferTx := { tf_to : CoreAddress; tf_amount : N; tf_memo : option bytes }.

Definition TransferTx_new (to : CoreAddress) (amount : N) : TransferTx :=
  {| tf_to := to; tf_amount := amount; tf_memo := None |}.
Definition TransferTx_with_memo (t : TransferTx) (memo : bytes) : TransferTx :=
  {| tf_to := t.(tf_to); tf_amount := t.(tf_amount); tf_memo := Some memo |}.

Definition TransferTx_to_bytes (t : TransferTx) : bytes :=
  Address_serialize t.(tf_to) ++ to_le_bytes 16 t.(tf_amount)
  ++ match t.(tf_memo) with
     | Some memo => 1 :: to_le_bytes 2 (cast U16_MAX (blen memo)) ++ memo
     | None => [0]
     end.

Inductive VerificationMethod := TeeOnly | ZkmlOnly | HybridVm | Mpc.

Definition VerificationMethod_from_byte (b : N) : option VerificationMethod :=
  match b with
  | 0x01 => Some TeeOnly | 0x02 => Some ZkmlOnly | 0x03 => Some HybridVm | 0x04 => Some Mpc
  | _ => None
  end.
Definition VerificationMethod_to_byte (m : VerificationMethod) : N :=
  match m with TeeOnly => 0x01 | ZkmlOnly => 0x02 | HybridVm => 0x03 | Mpc => 0x04 end.

Inductive HardwareTier := Standard | Gpu | TeeTier | Fpga | TeeGpu.
Definition HardwareTier_u8 (t : HardwareTier) : N :=
  match t with Standard => 0 | Gpu => 1 | TeeTier => 2 | Fpga => 3 | TeeGpu => 4 end.

Record ComputeSLA := {
  sla_max_latency_ms : N;
  sla_min_attestations : N;
  sla_hardware_tier : HardwareTier;
  sla_geo_restrictions : list string;
}.

Definition ComputeSLA_default : ComputeSLA := {|
  sla_max_latency_ms := 30000; sla_min_attestations := 2;
  sla_hardware_tier := Standard; sla_geo_restrictions := [] |}.

Definition ComputeSLA_to_bytes (s : ComputeSLA) : bytes :=
  to_le_bytes 8 s.(sla_max_latency_ms) ++ to_le_bytes 4 s.(sla_min_attestations)
  ++ [HardwareTier_u8 s.(sla_hardware_tier)]
  ++ [cast U8_MAX (N.of_nat (length s.(sla_geo_restrictions)))]
  ++ concat (string_bytes <$> s.(sla_geo_restrictions)).

Inductive ComplianceFramework := Gdpr | Hipaa | PciDss | Sox | Ccpa.
Definition ComplianceFramework_u8 (f : ComplianceFramework) : N :=
  match f with Gdpr => 0x01 | Hipaa => 0x02 | PciDss => 0x03 | Sox => 0x04 | Ccpa => 0x05 end.

Record ComplianceRequirements := {
  cr_frameworks : list ComplianceFramework;
  cr_data_residency : option string;
  cr_audit_required : bool;
}.

Definition ComplianceRequirements_default : ComplianceRequirements :=
  {| cr_frameworks := []; cr_data_residency := None; cr_audit_required := false |}.

Definition ComplianceRequirements_to_bytes (c : ComplianceRequirements) : bytes :=
  cast U8_MAX (N.of_nat (length c.(cr_frameworks))) :: (ComplianceFramework_u8 <$> c.(cr_frameworks))
  ++ match c.(cr_data_residency) with
     | Some r => 1 :: cast U8_MAX (N.of_nat (String.length r)) :: string_bytes r
     | None => [0]
     end
  ++ [if c.(cr_audit_required) then 1 else 0].

(** A present byte string with its length as a [u32], or a zero. *)
Definition optional_ref (r : option bytes) : bytes :=
  match r with
  | Some d => 1 :: to_le_bytes 4 (cast U32_MAX (blen d)) ++ d
  | None => [0]
  end.

Record ComputeJobTx := {
  cj_model_hash : Hash256;
  cj_input_hash : Hash256;
  cj_encrypted_input_ref : option bytes;
  cj_verification_method : VerificationMethod;
  cj_max_fee : N;
  cj_sla : ComputeSLA;
  cj_compliance : ComplianceRequirements;
}.

Definition ComputeJobTx_to_bytes (j : ComputeJobTx) : bytes :=
  j.(cj_model_hash) ++ j.(cj_input_hash) ++ [VerificationMethod_to_byte j.(cj_verification_method)]
  ++ to_le_bytes 16 j.(cj_max_fee) ++ ComputeSLA_to_bytes j.(cj_sla)
  ++ ComplianceRequirements_to_bytes j.(cj_compliance) ++ optional_ref j.(cj_encrypted_input_ref).

Record ValidatorAttestation := {
  va_validator : CoreAddress;
  va_tee_attestation : bytes;
  va_signature : HybridSignature;
  va_timestamp : N;
}.

(** Serialising a signature can panic, so everything that contains one can. *)
Definition ValidatorAttestation_to_bytes {E} (a : ValidatorAttestation) : outcome E bytes :=
  sig ← to_bytes a.(va_signature);
  Ok (Address_serialize a.(va_validator)
      ++ to_le_bytes 4 (cast U32_MAX (blen a.(va_tee_attestation))) ++ a.(va_tee_attestation)
      ++ sig ++ to_le_bytes 8 a.(va_timestamp)).

Record SealTx := {
  se_job_id : Hash256;
  se_output_hash : Hash256;
  se_attestations : list ValidatorAttestation;
  se_zkml_proof : option bytes;
}.

Fixpoint attestations_to_bytes {E} (l : list ValidatorAttestation) : outcome E bytes :=
  match l with
  | [] => Ok []
  | a :: l => x ← ValidatorAttestation_to_bytes a; y ← attestations_to_bytes l; Ok (x ++ y)
  end.

Definition SealTx_to_bytes {E} (s : SealTx) : outcome E bytes :=
  atts ← attestations_to_bytes s.(se_attestations);
  Ok (s.(se_job_id) ++ s.(se_output_hash)
      ++ [cast U8_MAX (N.of_nat (length s.(se_attestations)))] ++ atts
      ++ optional_ref s.(se_zkml_proof)).

Inductive TransactionPayload :=
| TransferP (t : TransferTx)
| ComputeJobP (j : ComputeJobTx)
| SealP (s : SealTx)
| RawP (data : bytes).

(** ** Unsigned transactions *)
Record Transaction := {
  tx_version : N;
  tx_type : TransactionType;
  tx_sender : CoreAddress;
  tx_nonce : N;
  tx_gas_price : N;
  tx_gas_limit : N;
  tx_chain_id : N;
  tx_expiry : N;
  tx_payload : TransactionPayload;
}.

Definition Transaction_transfer (sender to : CoreAddress) (amount nonce : N) : Transaction := {|
  tx_version := 1; tx_type := Transfer; tx_sender := sender; tx_nonce := nonce;
  tx_gas_price := 1; tx_gas_limit := base_gas Transfer; tx_chain_id := 1; tx_expiry := 0;
  tx_payload := TransferP (TransferTx_new to amount) |}.

Definition Transaction_compute_job (sender : CoreAddress) (model_hash input_hash : Hash256) (nonce : N)
  : Transaction := {|
  tx_version := 1; tx_type := ComputeJob; tx_sender := sender; tx_nonce := nonce;
  tx_gas_price := 1; tx_gas_limit := base_gas ComputeJob; tx_chain_id := 1; tx_expiry := 0;
  tx_payload := ComputeJobP {|
    cj_model_hash := model_hash; cj_input_hash := input_hash; cj_encrypted_input_ref := None;
    cj_verification_method := HybridVm; cj_max_fee := 0; cj_sla := ComputeSLA_default;
    cj_compliance := ComplianceRequirements_default |} |}.

Definition with_gas (t : Transaction) (price limit : N) : Transaction := {|
  tx_version := t.(tx_version); tx_type := t.(tx_type); tx_sender := t.(tx_sender);
  tx_nonce := t.(tx_nonce); tx_gas_price := price; tx_gas_limit := limit;
  tx_chain_id := t.(tx_chain_id); tx_expiry := t.(tx_expiry); tx_payload := t.(tx_payload) |}.
Definition with_chain_id (t : Transaction) (chain_id : N) : Transaction := {|
  tx_version := t.(tx_version); tx_type := t.(tx_type); tx_sender := t.(tx_sender);
  tx_nonce := t.(tx_nonce); tx_gas_price := t.(tx_gas_price); tx_gas_limit := t.(tx_gas_limit);
  tx_chain_id := chain_id; tx_expiry := t.(tx_expiry); tx_payload := t.(tx_payload) |}.
Definition with_expiry (t : Transaction) (expiry : N) : Transaction := {|
  tx_version := t.(tx_version); tx_type := t.(tx_type); tx_sender := t.(tx_sender);
  tx_nonce := t.(tx_nonce); tx_gas_price := t.(tx_gas_price); tx_gas_limit := t.(tx_gas_limit);
  tx_chain_id := t.(tx_chain_id); tx_expiry := expiry; tx_payload := t.(tx_payload) |}.

Definition payload_bytes {E} (p : TransactionPayload) : outcome E bytes :=
  match p with
  | TransferP t => Ok (TransferTx_to_bytes t)
  | ComputeJobP j => Ok (ComputeJobTx_to_bytes j)
  | SealP s => SealTx_to_bytes s
  | RawP data => Ok data
  end.

(** The fixed part in front of the payload: 63 bytes. *)
Definition signing_header (t : Transaction) : bytes :=
  [t.(tx_version); TransactionType_to_byte t.(tx_type)] ++ Address_serialize t.(tx_sender)
  ++ to_le_bytes 8 t.(tx_nonce) ++ to_le_bytes 8 t.(tx_gas_price) ++ to_le_bytes 8 t.(tx_gas_limit)
  ++ to_le_bytes 8 t.(tx_chain_id) ++ to_le_bytes 8 t.(tx_expiry).

Definition to_signing_bytes {E} (t : Transaction) : outcome E bytes :=
  payload ← payload_bytes t.(tx_payload);
  Ok (signing_header t ++ payload).

(** [now]: seconds since the epoch; [duration_since(..).unwrap()]. *)
Definition is_expired {E} (t : Transaction) (now : option N) : outcome E bool :=
  if bool_decide (t.(tx_expiry) = 0) then Ok false
  else match now with
       | None => Panic
       | Some now => Ok (bool_decide (t.(tx_expiry) < now))
       end.

Definition total_gas_cost (t : Transaction) : N := t.(tx_gas_price) * t.(tx_gas_limit).

(** ** Signed transactions *)
Record SignedTransaction := {
  st_tx : Transaction;
  st_signature : HybridSignature;
  st_public_key : HybridPublicKey;
}.

Definition verifier_config_for (threat_level chain_id : N) : VerifierConfig :=
  let config := {|
    vc_panic_mode_qc := VerifierConfig_default.(vc_panic_mode_qc);
    vc_min_dilithium_level := VerifierConfig_default.(vc_min_dilithium_level);
    vc_allow_legacy_ecdsa_only := VerifierConfig_default.(vc_allow_legacy_ecdsa_only);
    vc_require_dual_sig_always := VerifierConfig_default.(vc_require_dual_sig_always);
    vc_max_signature_age_secs := VerifierConfig_default.(vc_max_signature_age_secs);
    vc_chain_id := chain_id |} in
  if QuantumThreatLevel.quantum_only threat_level then enter_panic_mode config else config.

Section transaction.
Context `{CoreLib}.

Definition Transaction_hash {E} (t : Transaction) : outcome E Hash256 :=
  bs ← to_signing_bytes t;
  Ok (transaction_hash bs).

Definition Transaction_sign (t : Transaction) (kp : HybridKeyPair)
  : outcome TransactionError SignedTransaction :=
  hash ← Transaction_hash t;
  signature ← crypto_try (HybridKeyPair_sign kp hash);
  Ok {| st_tx := t; st_signature := signature; st_public_key := kp.(kp_public_key) |}.

Definition Transaction_sign_with_key (t : Transaction) (secret_key : HybridSecretKey)
    (public_key : HybridPublicKey) : outcome TransactionError SignedTransaction :=
  hash ← Transaction_hash t;
  signature ← crypto_try (HybridSecretKey_sign secret_key hash);
  Ok {| st_tx := t; st_signature := signature; st_public_key := public_key |}.

Definition SignedTransaction_verify_signature {E} (s : SignedTransaction) (threat_level : N)
    (now : option N) : outcome E bool :=
  if negb (bool_decide (Address_from_public_key s.(st_public_key) = s.(st_tx).(tx_sender)))
  then Ok false
  else
    hash ← Transaction_hash s.(st_tx);
    match verify s.(st_signature) hash s.(st_public_key)
            (verifier_config_for threat_level s.(st_tx).(tx_chain_id)) now with
    | Ok _ => Ok true
    | Err _ => Ok false
    | Panic => Panic
    | Blocked => Blocked
    end.

Definition SignedTransaction_verify {E} (s : SignedTransaction) (now : option N) : outcome E bool :=
  SignedTransaction_verify_signature s QuantumThreatLevel.NONE now.

(** A part of the envelope behind its length, cast to [u32]. *)
Definition part (bs : bytes) : bytes := to_le_bytes 4 (cast U32_MAX (blen bs)) ++ bs.

Definition SignedTransaction_to_bytes {E} (s : SignedTransaction) : outcome E bytes :=
  tx_bytes ← to_signing_bytes s.(st_tx);
  sig_bytes ← to_bytes s.(st_signature);
  Ok (part tx_bytes ++ part sig_bytes ++ part (HybridPublicKey_to_bytes s.(st_public_key))).

Definition SignedTransaction_size {E} (s : SignedTransaction) : outcome E N :=
  bs ← SignedTransaction_to_bytes s; Ok (blen bs).

Definition requires_compute_verification (s : SignedTransaction) : bool :=
  requires_compute s.(st_tx).(tx_type).

Definition compliance_requirements (s : SignedTransaction) : option ComplianceRequirements :=
  match s.(st_tx).(tx_payload) with
  | ComputeJobP j => Some j.(cj_compliance)
  | _ => None
  end.

(** [TransactionBatch] is the list of its transactions. *)
Definition batch_push (b : list SignedTransaction) (s : SignedTransaction) : list SignedTransaction :=
  b ++ [s].

Fixpoint batch_messages {E} (b : list SignedTransaction) : outcome E (list Hash256) :=
  match b with
  | [] => Ok []
  | s :: b => h ← Transaction_hash s.(st_tx); hs ← batch_messages b; Ok (h :: hs)
  end.

Definition verify_all (b : list SignedTransaction) (threat_level : N) (now : nat → option N)
  : outcome TransactionError bool :=
  messages ← batch_messages b;
  let chain_id := match head b with Some s => s.(st_tx).(tx_chain_id) | None => 1 end in
  crypto_try (batch_verify messages (st_signature <$> b) (st_public_key <$> b)
                (verifier_config_for threat_level chain_id) now).
End transaction.
