(* ===== verification/CoreSamples.v ===== *)
(** * A concrete instance of the core crate's libraries

    Hashes that pad their input, a curve and a lattice scheme whose keys and
    signatures begin with the same byte, and the hexadecimal decoder: enough to
    satisfy [CoreLaws] and to run the theorems of the core crate and of the mempool on
    concrete keys. *)
From S2P Require Import Prelude SysTypes Precompile CoreHash Hybrid HybridSpec.
From stdpp Require Import base list strings pretty.
From Stdlib Require Import ZArith Lia Ascii.
#[local] Open Scope N_scope.

Definition pad (n : nat) (bs : bytes) : bytes := take n (bs ++ replicate n 0).

Lemma length_pad n bs : length (pad n bs) = n.
Proof. unfold pad. rewrite length_take, length_app, length_replicate. lia. Qed.

(** [hex::decode] *)
Definition unhex (c : ascii) : option N :=
  let n := N_of_ascii c in
  if bool_decide (48 <= n <= 57) then Some (n - 48)
  else if bool_decide (97 <= n <= 102) then Some (n - 87)
  else if bool_decide (65 <= n <= 70) then Some (n - 55)
  else None.

Fixpoint toy_hex_decode (s : string) : bytes + string :=
  match s with
  | EmptyString => inl []
  | String a (String b s) =>
      match unhex a, unhex b, toy_hex_decode s with
      | Some x, Some y, inl bs => inl (16 * x + y :: bs)
      | _, _, inr e => inr e
      | _, _, _ => inr "Invalid character"%string
      end
  | String _ EmptyString => inr "Odd number of digits"%string
  end.

Lemma hex_digit_char d : d < 16 → ∃ c, hex_digit d = String c EmptyString ∧ unhex c = Some d.
Proof.
  intros Hd.
  assert (d ∈ [0; 1; 2; 3; 4; 5; 6; 7; 8; 9; 10; 11; 12; 13; 14; 15]) as Hin by (rewrite !elem_of_cons; lia).
  repeat (apply elem_of_cons in Hin as [->|Hin]; [eexists; split; [reflexivity|reflexivity]|]).
  by apply not_elem_of_nil in Hin.
Qed.

Lemma toy_hex bs : octets bs → toy_hex_decode (hex_encode bs) = inl bs.
Proof.
  induction 1 as [|b bs Hb _ IH]; [done|]. cbn [hex_encode].
  destruct (hex_digit_char (b / 16)) as (c1 & -> & H1); [by apply N.Div0.div_lt_upper_bound|].
  destruct (hex_digit_char (b mod 16)) as (c2 & -> & H2); [by apply N.mod_lt|].
  change (toy_hex_decode (String c1 (String c2 (hex_encode bs))) = inl (b :: bs)). cbn [toy_hex_decode].
  rewrite H1, H2, IH. f_equal. f_equal. symmetry. apply N.div_mod'.
Qed.

Definition toy_core : CoreLib := {|
  full_pqc := true;
  core_sha256 := pad 32; core_sha512 := pad 64; core_keccak256 := pad 32; core_blake3 := pad 32;
  core_hmac := λ k d, pad 32 (k ++ d);
  core_hex_decode := toy_hex_decode;
  secp_signature_error := λ _, None; secp_key_error := λ _, None; secp_secret_error := λ _, None;
  secp_public := λ sk, 2 :: pad 32 sk;
  secp_uncompressed := λ pk, pad 65 pk;
  secp_sign := λ sk _, pad 64 sk;
  secp_verify := λ pk _ sig, bool_decide (nth 1 pk 0 = nth 0 sig 0);
  dil3_signature_ok := λ _, true; dil3_key_ok := λ _, true; dil3_secret_ok := λ _, true;
  dil3_sign := λ _ sk, pad 3309 sk;
  dil3_verify := λ sig _ pk, bool_decide (nth 0 sig 0 = nth 0 pk 0) |}.

Lemma pad_first n bs : (n ≠ 0)%nat → nth 0 (pad n bs) 0 = nth 0 bs 0.
Proof. intros. unfold pad. destruct n; [done|]. by destruct bs. Qed.

#[export] Instance toy_core_laws : CoreLaws (H := toy_core).
Proof.
  split; cbn; intros; try done; rewrite ?length_pad; try done.
  - by apply toy_hex.
  - apply bool_decide_true. by rewrite !pad_first.
Qed.

(** A key pair: Alice's. *)
Definition alice_ecdsa : bytes := replicate 32 7.
Definition alice_pk : bytes := replicate 1952 9.
Definition alice_sk : bytes := replicate 4032 9.

Lemma alice_pair : dil3_keypair (H := toy_core) alice_sk alice_pk.
Proof.
  unfold dil3_keypair, alice_sk, alice_pk. split_and!; try done; try apply length_replicate.
Qed.

Definition alice : HybridKeyPair := {|
  kp_public_key := {| hk_classical := {| ek_bytes := secp_public (CoreLib := toy_core) alice_ecdsa |};
                      hk_quantum := {| dk_bytes := alice_pk; dk_level := Level3 |} |};
  kp_secret_key := {| sk_classical := {| es_bytes := alice_ecdsa |};
                      sk_quantum := {| ds_bytes := alice_sk; ds_level := Level3 |} |} |}.

Lemma alice_generated : generate (H := toy_core) alice_ecdsa alice_pk alice_sk = Ok alice.
Proof. apply generate_ok; [done|done|apply alice_pair|by split]. Qed.
