(* ===== verification/CoreSpec.v ===== *)
(** * Theorems on the core crate: Merkle trees, addresses, transactions

    A Merkle root binds the leaves of a list of known length and not their number;
    addresses survive both of their encodings; the identifier of a transaction binds
    its header, and a transfer entirely. *)
From S2P Require Import Prelude SysTypes Precompile CoreHash Hybrid HybridSpec CoreTx CoreSamples.
From stdpp Require Import base list strings pretty.
From Stdlib Require Import ZArith Lia Ascii.
#[local] Open Scope N_scope.
#[local] Arguments to_le_bytes : simpl never.
#[local] Arguments of_le_bytes : simpl never.

(** ** Merkle trees *)
Abbreviation hashes := (Forall (λ h : Hash256, length h = 32%nat)).

Section merkle.
Context `{CoreLib}.

Definition sha_collision : Prop := ∃ x y, x ≠ y ∧ core_sha256 x = core_sha256 y.


Lemma combine_preimage a b :
  merkle_combine a b = core_sha256 (string_bytes "aethelred:merkle:v1:" ++ a ++ b).
Proof.
  unfold merkle_combine, Sha256Hasher_hash_many, Sha256Hasher_finalize, Sha256Hasher_update. cbn [foldl].
  by rewrite app_nil_l, <- app_assoc.
Qed.

Lemma combine_binds a b a' b' :
  length a = 32%nat → length a' = 32%nat →
  merkle_combine a b = merkle_combine a' b' → (a = a' ∧ b = b') ∨ sha_collision.
Proof.
  rewrite !combine_preimage. intros Ha Ha' Heq.
  destruct (decide (string_bytes "aethelred:merkle:v1:" ++ a ++ b
                    = string_bytes "aethelred:merkle:v1:" ++ a' ++ b')) as [He|Hne]; [left|right; by do 2 eexists].
  apply app_inv_head, app_inj_1 in He; [done|congruence].
Qed.

Lemma length_level l : length (merkle_level l) = Nat.div2 (S (length l)).
Proof. induction l using pairs_ind; cbn [merkle_level length]; [done..|]. rewrite IHl. done. Qed.

Lemma level_length l :
  (2 <= length l → 1 <= length (merkle_level l) < length l)%nat.
Proof.
  intros. rewrite length_level. pose proof (Nat.div2_odd (S (length l))) as Hd.
  destruct (Nat.odd (S (length l))); cbn [Nat.b2n] in Hd; lia.
Qed.

Lemma level_hashes `{!CoreLaws} l : hashes (merkle_level l).
Proof.
  induction l using pairs_ind; cbn [merkle_level]; repeat constructor; try done;
    rewrite combine_preimage; apply sha256_32.
Qed.

Lemma level_binds l l' :
  length l = length l' → hashes l → hashes l' → merkle_level l = merkle_level l' → l = l' ∨ sha_collision.
Proof.
  revert l'. induction l as [|a|a b l IH] using pairs_ind; intros l' Hlen Hl Hl' Heq.
  - left. by destruct l'.
  - destruct l' as [|a' [|]]; try done. cbn in Heq. injection Heq as Heq.
    decompose_Forall. apply combine_binds in Heq as [[-> _]|]; auto.
  - destruct l' as [|a' [|b' l']]; try done. cbn in Heq. injection Heq as Hc Heq.
    decompose_Forall. apply combine_binds in Hc as [[-> ->]|]; auto.
    destruct (IH l') as [->|]; auto.
Qed.

(** The loop ends with one hash; more turns than leaves change nothing. *)
Lemma loop_done n l : (length l <= 1)%nat → merkle_loop n l = l.
Proof. intros. destruct n; cbn; [done|]. by rewrite bool_decide_false by lia. Qed.

Lemma loop_one n l :
  (1 <= length l <= n → ∃ root, merkle_loop n l = [root])%nat.
Proof.
  revert l. induction n as [|n IH]; intros l Hl; [lia|]. cbn. case_bool_decide as Hlt.
  - apply IH. pose proof (level_length l). lia.
  - destruct l as [|r [|]]; cbn in *; try lia. by exists r.
Qed.

Lemma loop_fuel n m l : (length l <= n → length l <= m → merkle_loop n l = merkle_loop m l)%nat.
Proof.
  revert m l. induction n as [|n IH]; intros m l Hn Hm; [by rewrite !loop_done by lia|].
  destruct m as [|m]; [by rewrite !loop_done by lia|]. cbn. case_bool_decide; [|done].
  pose proof (level_length l). apply IH; lia.
Qed.

Lemma loop_binds `{!CoreLaws} n l l' :
  length l = length l' → hashes l → hashes l' → merkle_loop n l = merkle_loop n l' → l = l' ∨ sha_collision.
Proof.
  revert l l'. induction n as [|n IH]; intros l l' Hlen Hl Hl'; cbn; [auto|]. rewrite <- Hlen.
  case_bool_decide; [|auto]. intros Heq. apply IH in Heq as [Heq|]; [|auto|..|auto].
  - by apply level_binds in Heq.
  - by rewrite !length_level, Hlen.
  - apply level_hashes.
  - apply level_hashes.
Qed.

(** The root is the end of the loop. *)
Lemma merkle_root_loop {E} l :
  l ≠ [] → ∃ root, merkle_root (E:=E) l = Ok root ∧ merkle_loop (length l) l = [root].
Proof.
  intros Hne. destruct l as [|a [|b l]]; [done|by exists a|].
  destruct (loop_one (length (a :: b :: l)) (a :: b :: l)) as [root Hr]; [cbn; lia|].
  exists root. split; [|done]. unfold merkle_root. by rewrite Hr.
Qed.

Lemma level_duplicate l x : Nat.Even (length l) → merkle_level (l ++ [x]) = merkle_level (l ++ [x; x]).
Proof.
  induction l as [|a|a b l IH] using pairs_ind; intros Hev; [done|by destruct Hev; cbn in *; lia|].
  cbn. rewrite IH; [done|]. destruct Hev as [k Hk]. cbn in Hk. exists (k - 1)%nat. lia.
Qed.

End merkle.

(** ** Addresses *)
Section addresses.
Context `{CoreLib}.

Lemma prefix_split t data :
  split_at_one (AddressType_prefix t +:+ "1" +:+ data) = Some (AddressType_prefix t, data).
Proof. by destruct t. Qed.

Lemma prefix_type t : AddressType_of_prefix (AddressType_prefix t) = Some t.
Proof. by destruct t. Qed.

Lemma type_byte t : AddressType_from_byte (AddressType_to_byte t) = Some t.
Proof. by destruct t. Qed.
Lemma type_byte_inv b t : AddressType_from_byte b = Some t → b = AddressType_to_byte t.
Proof. unfold AddressType_from_byte. repeat case_match; intros; by simplify_eq. Qed.
End addresses.

(** ** Transactions *)
Record header_wf (t : Transaction) : Prop := {
  hw_sender : length t.(tx_sender).(ad_bytes) = 20%nat;
  hw_nonce : t.(tx_nonce) <= U64_MAX;
  hw_gas_price : t.(tx_gas_price) <= U64_MAX;
  hw_gas_limit : t.(tx_gas_limit) <= U64_MAX;
  hw_chain_id : t.(tx_chain_id) <= U64_MAX;
  hw_expiry : t.(tx_expiry) <= U64_MAX;
}.

Lemma blen_header t : length t.(tx_sender).(ad_bytes) = 20%nat → blen (signing_header t) = 63.
Proof. intros. unfold signing_header, Address_serialize. blen_go. Qed.


(** The header has a fixed layout, so the signing bytes determine it. *)
Lemma header_inj t t' p p' :
  header_wf t → header_wf t' → signing_header t ++ p = signing_header t' ++ p' →
  t.(tx_version) = t'.(tx_version) ∧ t.(tx_type) = t'.(tx_type) ∧ t.(tx_sender) = t'.(tx_sender)
  ∧ t.(tx_nonce) = t'.(tx_nonce) ∧ t.(tx_gas_price) = t'.(tx_gas_price)
  ∧ t.(tx_gas_limit) = t'.(tx_gas_limit) ∧ t.(tx_chain_id) = t'.(tx_chain_id)
  ∧ t.(tx_expiry) = t'.(tx_expiry) ∧ p = p'.
Proof.
  intros [Hs Hn Hg Hl Hc He] [Hs' Hn' Hg' Hl' Hc' He'] Heq. unfold signing_header, Address_serialize in Heq.
  rewrite <- !app_assoc in Heq. apply app_inj_1 in Heq as [Hvt Heq]; [|done].
  apply app_inj_1 in Heq as [Had Heq]; [|cbn; congruence]. injection Hvt as Hv Hty. injection Had as Hat Had.
  do 5 (apply app_inj_1 in Heq as [? Heq]; [|by rewrite !length_to_le_bytes]).
  repeat match goal with
  | E : to_le_bytes 8 _ = to_le_bytes 8 _ |- _ => apply to_le_bytes_inj in E; [|cbn; lia..]
  end.
  split_and!; try done.
  - by destruct (tx_type t), (tx_type t').
  - destruct (tx_sender t) as [ty bs], (tx_sender t') as [ty' bs']; cbn in *. subst.
    by destruct ty, ty'.
Qed.

Record transfer_wf (f : TransferTx) : Prop := {
  tw_to : length f.(tf_to).(ad_bytes) = 20%nat;
  tw_amount : f.(tf_amount) <= U128_MAX;
}.

Lemma transfer_payload_inj f f' :
  transfer_wf f → transfer_wf f' → TransferTx_to_bytes f = TransferTx_to_bytes f' → f = f'.
Proof.
  intros [Hto Ha] [Hto' Ha'] Heq. destruct f as [[ty bs] am me], f' as [[ty' bs'] am' me']; cbn in *.
  unfold TransferTx_to_bytes, Address_serialize in Heq. cbn [tf_to tf_amount tf_memo ad_type ad_bytes app] in Heq.
  apply (app_inj_1 (AddressType_to_byte ty :: bs) (AddressType_to_byte ty' :: bs')) in Heq as [Had Heq];
    [|cbn; congruence].
  injection Had as Hty ->. assert (ty = ty') as -> by by destruct ty, ty'.
  apply app_inj_1 in Heq as [Ham Heq]; [|by rewrite !length_to_le_bytes].
  apply to_le_bytes_inj in Ham as ->; [|cbn; lia..]. f_equal.
  destruct me as [m|], me' as [m'|]; try done.
  apply (app_inj_1 (1 :: to_le_bytes 2 _) (1 :: to_le_bytes 2 _)) in Heq as [_ ->]; [done|].
  cbn. by rewrite !length_to_le_bytes.
Qed.

Section identifiers.
Context `{CoreLib}.

Lemma transaction_hash_binds x y : transaction_hash x = transaction_hash y → x = y ∨ sha_collision.
Proof.
  unfold transaction_hash, Sha256Hasher_hash_many, Sha256Hasher_finalize, Sha256Hasher_update. cbn [foldl].
  rewrite !app_nil_l. intros Heq.
  destruct (decide (string_bytes "aethelred:transaction:v1:" ++ x = string_bytes "aethelred:transaction:v1:" ++ y))
    as [He|Hne]; [left; by apply app_inv_head in He|right; by do 2 eexists].
Qed.

Lemma hash_binds {E} t t' h :
  header_wf t → header_wf t' → Transaction_hash (E:=E) t = Ok h → Transaction_hash (E:=E) t' = Ok h →
  (∃ p, payload_bytes (E:=E) t.(tx_payload) = Ok p ∧ payload_bytes (E:=E) t'.(tx_payload) = Ok p
     ∧ signing_header t = signing_header t') ∨ sha_collision.
Proof.
  intros Hwf Hwf' Hh Hh'. unfold Transaction_hash, to_signing_bytes in *.
  apply obind_ok in Hh as (bs & Hb & Hh), Hh' as (bs' & Hb' & Hh').
  apply obind_ok in Hb as (p & Hp & Hb), Hb' as (p' & Hp' & Hb').
  assert (bs = signing_header t ++ p ∧ bs' = signing_header t' ++ p') as [-> ->] by (split; congruence).
  assert (transaction_hash (signing_header t ++ p) = transaction_hash (signing_header t' ++ p')) as Heq by congruence.
  apply transaction_hash_binds in Heq as [Heq|]; [left|by right].
  pose proof (header_inj _ _ _ _ Hwf Hwf' Heq) as Hi. destruct Hi as (_ & _ & _ & _ & _ & _ & _ & _ & <-).
  exists p. split_and!; [done..|]. by apply app_inv_tail in Heq.
Qed.
End identifiers.

(** ** What the core crate promises *)
Section promises.
Context `{CoreLib}.

(** C22: the wire format of hybrid signatures is a faithful encoding: what version 2
    writes is read back, what version 1 wrote is read back although its level is only
    found by trying (so no level is mistaken for another), and a version 2 input that is
    accepted is the one encoding of the signature it yields, so that the bytes of a
    signature cannot be altered without altering the signature. *)
Theorem hybrid_wire_roundtrip s :
  (sig_encodable s →
   ∃ bs, to_bytes (E:=CryptoError) s = Ok bs ∧ HybridSignature_from_bytes bs = Ok s)
  ∧ (sig_encodable s → blen s.(hs_quantum) = signature_size s.(hs_level) →
     octets s.(hs_classical) → octets s.(hs_quantum) → HybridSignature_from_bytes (v1_bytes s) = Ok s)
  ∧ (∀ bs, octets bs → bs !! 0%nat = Some SIGNATURE_VERSION_V2 →
     HybridSignature_from_bytes bs = Ok s → to_bytes (E:=CryptoError) s = Ok bs).
Proof.
  split_and!; [apply signature_v2_decodes|apply signature_v1_decodes|].
  intros bs Ho Hv Hok. by apply (signature_v2_canonical bs s).
Qed.

(** C21: verification accepts exactly the signatures whose sizes fit their level, whose
    level reaches the minimum, whose chain id (if any) is the configured one, that are
    not too old (if they say when they were made), whose Dilithium part the library
    verifies over the Keccak hash of the message, and, unless panic mode is on, whose
    ECDSA part it verifies too; the outcome does not depend on
    [require_dual_sig_always] or [allow_legacy_ecdsa_only]. *)
Theorem hybrid_verdict_exact s m pk config now legacy dual :
  (verify s m pk config now = Ok tt ↔
    blen s.(hs_classical) = 64 ∧ blen s.(hs_quantum) = signature_size s.(hs_level)
    ∧ level_u8 config.(vc_min_dilithium_level) <= level_u8 s.(hs_level)
    ∧ age_ok s config now ∧ (∀ id, s.(hs_chain_id) = Some id → id = config.(vc_chain_id))
    ∧ quantum_ok s m pk ∧ (config.(vc_panic_mode_qc) = false → classical_ok s m pk))
  ∧ verify s m pk {| vc_panic_mode_qc := config.(vc_panic_mode_qc);
                     vc_min_dilithium_level := config.(vc_min_dilithium_level);
                     vc_allow_legacy_ecdsa_only := legacy; vc_require_dual_sig_always := dual;
                     vc_max_signature_age_secs := config.(vc_max_signature_age_secs);
                     vc_chain_id := config.(vc_chain_id) |} now
    = verify s m pk config now.
Proof. split; [apply verify_ok|done]. Qed.

(** The timestamp and the chain id of a signature are not covered by it: whoever
    relays an accepted signature can remove them, and the result is accepted by every
    configuration with the same mode and minimum level, at any time and on any chain. *)
Lemma metadata_strippable s m pk config now config' now' :
  verify s m pk config now = Ok tt →
  config'.(vc_panic_mode_qc) = config.(vc_panic_mode_qc) →
  config'.(vc_min_dilithium_level) = config.(vc_min_dilithium_level) →
  verify (strip_metadata s) m pk config' now' = Ok tt.
Proof.
  rewrite !verify_ok. intros (Hc & Hq & Hl & _ & _ & Hqu & Hcl) Hp Hm. rewrite Hp, Hm.
  split_and!; done.
Qed.

(** An address survives both of its encodings, and both decoders accept only what
    the encoders write: twenty-one bytes, and the prefix, the separator and the
    hexadecimal digits of the textual form. *)
Lemma address_roundtrips `{!CoreLaws} a :
  length a.(ad_bytes) = 20%nat → octets a.(ad_bytes) →
  Address_deserialize (Address_serialize a) = Ok a
  ∧ Address_from_bech32 (Address_to_bech32 a) = Ok a
  ∧ (∀ bs b, Address_deserialize bs = Ok b → Address_serialize b = bs ∧ length b.(ad_bytes) = 20%nat).
Proof.
  intros Hl Ho. split_and!.
  - destruct a as [t bs]; cbn in *. unfold Address_deserialize, Address_serialize. cbn [ad_type ad_bytes].
    rewrite refuse_false by (rewrite bool_decide_true; [done|unfold blen, ADDRESS_SIZE; cbn; lia]).
    change (byte_at 0 _) with (Ok (E:=AddressError) (AddressType_to_byte t)). rewrite obind_ret, type_byte.
    by rewrite (slice_mid [AddressType_to_byte t] bs []), obind_ret by (rewrite ?app_nil_r; done || blen_go).
  - unfold Address_from_bech32, Address_to_bech32. rewrite prefix_split, prefix_type, hex_decode_encode by done.
    unfold Address_from_slice.
    rewrite refuse_false by (rewrite bool_decide_true; [done|unfold blen, ADDRESS_SIZE; lia]).
    by destruct a.
  - intros bs b Hok. unfold Address_deserialize in Hok. apply refuse_ok in Hok as [Hlen Hok].
    apply obind_ok in Hok as (t & Ht & Hok). destruct (AddressType_from_byte t) as [ty|] eqn:Hty; [|done].
    apply obind_ok in Hok as (x & Hx & Hok). injection Hok as <-. apply type_byte_inv in Hty as ->.
    apply byte_at_rest in Ht. apply slice_rest in Hx as [Hx Hxl]. bool_facts. unfold ADDRESS_SIZE in Hlen.
    change (rest bs 0) with bs in Ht. change (rest bs (0 + 1)) with (rest bs 1) in Ht. rewrite Hx, (rest_all bs (blen bs) eq_refl), app_nil_r in Ht.
    split; [by rewrite Ht at 1|cbn; unfold blen in *; lia].
Qed.

(** The identifier of a transfer determines it: two well-formed transfers (with or
    without memo) that hash to one identifier are equal, or a collision of SHA-256 is
    at hand. *)
Lemma transfer_id_binds t t' f f' h :
  header_wf t → header_wf t' → transfer_wf f → transfer_wf f' →
  t.(tx_payload) = TransferP f → t'.(tx_payload) = TransferP f' →
  Transaction_hash (E:=TransactionError) t = Ok h → Transaction_hash (E:=TransactionError) t' = Ok h →
  t = t' ∨ sha_collision.
Proof.
  intros Hwf Hwf' Hf Hf' Hp Hp' Hh Hh'.
  destruct (hash_binds _ _ _ Hwf Hwf' Hh Hh') as [(p & Hb & Hb' & Hhd)|]; [left|by right].
  rewrite Hp in Hb. rewrite Hp' in Hb'. unfold payload_bytes in Hb, Hb'.
  assert (f = f') as <- by (apply transfer_payload_inj; (done || congruence)).
  assert (signing_header t ++ [] = signing_header t' ++ []) as Hhd' by by rewrite Hhd.
  destruct (header_inj _ _ _ _ Hwf Hwf' Hhd') as (? & ? & ? & ? & ? & ? & ? & ? & _).
  destruct t, t'; cbn in *. congruence.
Qed.

(** Two lists of hashes of one length with one Merkle root are equal, or a
    collision of SHA-256 is at hand; and the root always exists. *)
Lemma merkle_root_binds `{!CoreLaws} l l' :
  (∃ root, merkle_root (E:=CryptoError) l = Ok root)
  ∧ (length l = length l' → hashes l → hashes l' →
     merkle_root (E:=CryptoError) l = merkle_root (E:=CryptoError) l' → l = l' ∨ sha_collision).
Proof.
  split.
  - destruct (decide (l = [])) as [->|Hne]; [by eexists|].
    destruct (merkle_root_loop (E:=CryptoError) l Hne) as (root & -> & _). by eexists.
  - intros Hlen Hl Hl' Heq. destruct (decide (l = [])) as [->|Hne]; [left; by destruct l'|].
    assert (l' ≠ []) as Hne' by (intros ->; by destruct l).
    destruct (merkle_root_loop (E:=CryptoError) l Hne) as (r & Hr & Hloop).
    destruct (merkle_root_loop (E:=CryptoError) l' Hne') as (r' & Hr' & Hloop').
    apply (loop_binds (length l)); [done..|]. rewrite Hloop, Hlen, Hloop'. congruence.
Qed.

(** The Merkle root does not determine how many leaves there are: a list of odd
    length (three or more) and the list with its last leaf repeated have the same
    root. *)
Lemma merkle_duplicate_leaf l x :
  Nat.Even (length l) → l ≠ [] →
  merkle_root (E:=CryptoError) (l ++ [x]) = merkle_root (E:=CryptoError) (l ++ [x; x]).
Proof.
  intros Hev Hne. assert (2 <= length l)%nat as Hlen.
  { destruct Hev as [k Hk], l as [|a [|]]; cbn in *; [done|lia|lia]. }
  destruct (merkle_root_loop (E:=CryptoError) (l ++ [x])) as (r & -> & Hr); [by destruct l|].
  destruct (merkle_root_loop (E:=CryptoError) (l ++ [x; x])) as (r' & -> & Hr'); [by destruct l|].
  assert (∀ k, (length l + 1 <= k)%nat → merkle_loop (S k) (l ++ [x]) = merkle_loop (S k) (l ++ [x; x])) as Heq.
  { intros k Hk. cbn [merkle_loop].
    rewrite !bool_decide_true by (rewrite length_app; cbn; lia). by rewrite level_duplicate. }
  rewrite (loop_fuel _ (S (length l + 1))) in Hr by (rewrite !length_app; cbn; lia).
  rewrite (loop_fuel _ (S (length l + 1))) in Hr' by (rewrite !length_app; cbn; lia).
  rewrite Heq in Hr by lia. congruence.
Qed.

Section key_pair.
Context `{!CoreLaws}.
Context (ecdsa_sk pk sk : bytes) (kp : HybridKeyPair).
Context (Hpqc : full_pqc = true) (Hsecret : secp_secret_error ecdsa_sk = None).
Context (Hpair : dil3_keypair sk pk) (Hkp : generate ecdsa_sk pk sk = Ok kp).

(** A generated key pair signs every message, the signature and the public key
    survive the wire, and verification accepts what came over the wire under every
    configuration whose minimum level is at most 3, whose chain id the signature names
    (if it names one) and whose age limit it meets (if it says when it was made), in
    panic mode or not. *)
Lemma hybrid_signing_complete message ts ch config now :
  small ts → small ch → level_u8 config.(vc_min_dilithium_level) <= 3 →
  (∀ id, ch = Some id → id = config.(vc_chain_id)) →
  (∀ max_age t, config.(vc_max_signature_age_secs) = Some max_age → ts = Some t →
     ∃ n, now = Some n ∧ (n <= t ∨ n - t <= max_age)) →
  ∃ s bs, sign_with_config kp message ts ch = Ok s ∧ to_bytes (E:=CryptoError) s = Ok bs
    ∧ HybridSignature_from_bytes bs = Ok s
    ∧ HybridPublicKey_from_bytes (HybridPublicKey_to_bytes kp.(kp_public_key)) = Ok kp.(kp_public_key)
    ∧ verify s message kp.(kp_public_key) config now = Ok tt.
Proof.
  intros Hts Hch Hlev Hchain Hage.
  destruct (signed_verifies ecdsa_sk pk sk kp message ts ch Hpqc Hsecret Hpair Hkp)
    as (s & Hsign & Hst & Hsc & Hsl & Hcl & Hql & Hkey & Hqok & Hcok).
  assert (sig_encodable s) as Henc by (split; rewrite ?Hst, ?Hsc, ?Hsl; done || (cbn; lia)).
  destruct (signature_v2_decodes s Henc) as (bs & Hbs & Hdec).
  exists s, bs. split_and!; [done..|by apply public_key_decodes|]. apply verify_ok.
  rewrite Hsl, Hsc. split_and!; try done. intros max_age t Hm Ht. apply Hage; [done|congruence].
Qed.

(** Batch verification does not compare the sender with the key: a transaction
    signed by somebody else than its sender is refused on its own and accepted in a
    batch, at every threat level. *)
Lemma batch_ignores_sender t body threat clock :
  to_signing_bytes (E:=TransactionError) t = Ok body →
  t.(tx_sender) ≠ Address_from_public_key kp.(kp_public_key) →
  ∃ s, Transaction_sign t kp = Ok s
    ∧ SignedTransaction_verify_signature (E:=TransactionError) s threat (clock 0%nat) = Ok false
    ∧ verify_all [s] threat clock = Ok true.
Proof.
  intros Hbody Hsender.
  assert (Transaction_hash (E:=TransactionError) t = Ok (transaction_hash body)) as Hhash.
  { unfold Transaction_hash. by rewrite Hbody. }
  destruct (signed_verifies ecdsa_sk pk sk kp (transaction_hash body) None None Hpqc Hsecret Hpair Hkp)
    as (s & Hsign & Hst & Hsc & Hsl & Hcl & Hql & Hkey & Hqok & Hcok).
  exists {| st_tx := t; st_signature := s; st_public_key := kp.(kp_public_key) |}. split_and!.
  - unfold Transaction_sign. rewrite Hhash, obind_ret. unfold HybridKeyPair_sign. by rewrite Hsign.
  - unfold SignedTransaction_verify_signature. cbn [st_tx st_public_key].
    by rewrite bool_decide_false by congruence.
  - unfold verify_all. cbn [batch_messages st_tx]. rewrite Hhash, !obind_ret. cbv zeta. cbn [head st_tx fmap list_fmap].
    unfold batch_verify. rewrite refuse_false by done. cbn [zip zip_with batch_loop st_signature st_public_key].
    rewrite (proj2 (verify_ok _ _ _ _ _)); [done|]. rewrite Hsl, Hsc.
    split_and!; try done; [|unfold age_ok; by rewrite Hst].
    unfold verifier_config_for. by destruct (QuantumThreatLevel.quantum_only threat).
Qed.
End key_pair.
End promises.

(** The places a compute job may run at are written one behind the other: lists that
    split one text differently have one encoding. *)
Lemma geo_ambiguous latency attestations tier :
  ComputeSLA_to_bytes {| sla_max_latency_ms := latency; sla_min_attestations := attestations;
                         sla_hardware_tier := tier; sla_geo_restrictions := ["US"; "AE"]%string |}
  = ComputeSLA_to_bytes {| sla_max_latency_ms := latency; sla_min_attestations := attestations;
                           sla_hardware_tier := tier; sla_geo_restrictions := ["USA"; "E"]%string |}.
Proof. reflexivity. Qed.

(** ** Concrete runs *)
#[local] Existing Instance toy_core.

Definition sample_signature : HybridSignature := {|
  hs_classical := replicate 64 7; hs_quantum := replicate 3309 9; hs_level := Level3;
  hs_timestamp := Some 1700000000; hs_chain_id := Some 1 |}.

Lemma hybrid_wire_roundtrip_witness :
  HybridSignature_from_bytes (v1_bytes sample_signature) = Ok sample_signature.
Proof.
  apply hybrid_wire_roundtrip; [split; vm_compute; split_and?; done|reflexivity|..];
    apply Forall_replicate; lia.
Defined.

Lemma metadata_strippable_witness :
  verify sample_signature [1; 2; 3] alice.(kp_public_key) VerifierConfig_testnet (Some 9999999999) ≠ Ok tt
  ∧ verify (strip_metadata sample_signature) [1; 2; 3] alice.(kp_public_key)
      VerifierConfig_testnet (Some 9999999999) = Ok tt.
Proof.
  split; [vm_compute; discriminate|].
  apply (metadata_strippable _ _ _ VerifierConfig_mainnet (Some 0)); vm_compute; reflexivity.
Defined.

Lemma address_roundtrips_witness :
  Address_deserialize (Address_serialize Address_TREASURY) = Ok Address_TREASURY
  ∧ Address_from_bech32 (Address_to_bech32 Address_TREASURY) = Ok Address_TREASURY.
Proof.
  destruct (address_roundtrips Address_TREASURY) as (H1 & H2 & _);
    [reflexivity|apply Forall_replicate; lia|by split].
Defined.

Definition sample_transfer (nonce : N) : Transaction :=
  Transaction_transfer Address_ZERO Address_REWARDS 1000 nonce.

Lemma transfer_id_binds_witness :
  sample_transfer 1 = sample_transfer 2 ∨ sha_collision.
Proof.
  apply (transfer_id_binds _ _ (TransferTx_new Address_REWARDS 1000) (TransferTx_new Address_REWARDS 1000)
    (pad 32 (string_bytes "aethelred:transaction:v1:" ++ [1; 1; 0]))); try reflexivity;
    split; vm_compute; (reflexivity || discriminate).
Defined.

Lemma merkle_root_binds_witness :
  [Hash256.ZERO; replicate 32 1] = [Hash256.ZERO; replicate 32 2] ∨ sha_collision.
Proof.
  apply (proj2 (merkle_root_binds _ _)); [reflexivity|repeat constructor|repeat constructor|reflexivity].
Defined.

Lemma merkle_duplicate_leaf_witness :
  merkle_root (E:=CryptoError) [Hash256.ZERO; replicate 32 1; replicate 32 2]
  = merkle_root (E:=CryptoError) [Hash256.ZERO; replicate 32 1; replicate 32 2; replicate 32 2].
Proof. apply (merkle_duplicate_leaf [Hash256.ZERO; replicate 32 1]); [by exists 1%nat|done]. Defined.

Lemma hybrid_signing_complete_witness :
  ∃ s bs, sign_with_config alice [1; 2; 3] (Some 1700000000) (Some 2) = Ok s
    ∧ to_bytes (E:=CryptoError) s = Ok bs ∧ HybridSignature_from_bytes bs = Ok s
    ∧ HybridPublicKey_from_bytes (HybridPublicKey_to_bytes alice.(kp_public_key)) = Ok alice.(kp_public_key)
    ∧ verify s [1; 2; 3] alice.(kp_public_key) VerifierConfig_testnet (Some 1700003600) = Ok tt.
Proof.
  apply (hybrid_signing_complete (H := toy_core) alice_ecdsa alice_pk alice_sk alice eq_refl eq_refl alice_pair alice_generated);
    try (cbn; lia).
  - by intros id [= <-].
  - intros max_age t [= <-] [= <-]. exists 1700003600. split; [done|right; vm_compute; discriminate].
Defined.

Lemma batch_ignores_sender_witness :
  ∃ s, Transaction_sign (sample_transfer 1) alice = Ok s
    ∧ SignedTransaction_verify_signature (E:=TransactionError) s 0 None = Ok false
    ∧ verify_all [s] 0 (λ _, None) = Ok true.
Proof.
  eapply (batch_ignores_sender (H := toy_core) alice_ecdsa alice_pk alice_sk alice eq_refl eq_refl alice_pair alice_generated
            (sample_transfer 1) _ 0 (λ _, None)); [reflexivity|vm_compute; discriminate].
Defined.
