(* ===== verification/F64Bounds.v ===== *)
(** * Bounds of [f64] expressions

    Every operation rounds; a score computed in [f64] is nevertheless bounded, because rounding
    never carries a value past a power of two.  [upto k x]: the value of [x] is below [2^k], or not
    a positive number.  [atleast k x]: [x] is a positive number of at least [2^k] (or infinite).
    The lemmas say how the operations carry these bounds, which is enough to show that sums of
    casts stay below [2^32]. *)
From S2P Require Import Prelude F64 ConsensusTypes.
From stdpp Require Import base numbers.
From Stdlib Require Import ZArith Lia SpecFloat.
#[local] Open Scope Z_scope.

Definition upto (k : Z) (x : f64) : Prop :=
  match x with
  | S754_finite false m e => Zpos m < 2 ^ (k - e)
  | S754_infinity false => False
  | _ => True
  end.
Definition atleast (k : Z) (x : f64) : Prop :=
  match x with
  | S754_finite false m e => 2 ^ (k - e) <= Zpos m
  | S754_infinity false => True
  | _ => False
  end.
(** The significand of a result has at most 53 bits. *)
Definition narrow (x : f64) : Prop :=
  match x with S754_finite _ m _ => Zpos m < 2 ^ 53 | _ => True end.
(** Not below zero: no negative sign. *)
Definition unsigned (x : f64) : Prop :=
  match x with S754_finite true _ _ | S754_infinity true => False | _ => True end.
(** A number that is not below zero. *)
Definition nonneg (x : f64) : Prop :=
  match x with S754_zero false | S754_infinity false | S754_finite false _ _ => True | _ => False end.

(** ** Arithmetic of powers of two *)
Lemma pow_split a b : 0 <= a → 0 <= b → 2 ^ (a + b) = 2 ^ a * 2 ^ b.
Proof. intros. by apply Z.pow_add_r. Qed.

Lemma pow_pos a : 0 <= a → 0 < 2 ^ a.
Proof. intros. by apply Z.pow_pos_nonneg. Qed.

Lemma pow_le a b : a <= b → 2 ^ a <= 2 ^ b.
Proof. intros. by apply Z.pow_le_mono_r. Qed.

Lemma lt_pow_nonneg m k : Zpos m < 2 ^ k → 0 <= k.
Proof. destruct (Z.le_gt_cases 0 k); [done|]. rewrite Z.pow_neg_r by done. lia. Qed.

Lemma digits_ge m : 2 ^ (Zpos (digits2_pos m) - 1) <= Zpos m.
Proof.
  induction m as [m IH|m IH|]; cbn -[Z.pow]; [..|done];
    rewrite Pos2Z.inj_succ;
    replace (Z.succ (Zpos (digits2_pos m)) - 1) with (Z.succ (Zpos (digits2_pos m) - 1)) by lia;
    rewrite Z.pow_succ_r by lia; lia.
Qed.

(** ** Shifting right *)
Lemma iter_pos_iter {A} (f : A → A) n x : iter_pos f n x = Pos.iter f x n.
Proof.
  revert x. induction n as [n IH|n IH|]; intros x; cbn; [..|done]; rewrite !IH; [|done].
  by rewrite <- !Pos.iter_swap.
Qed.

Lemma shr_1_m r : 0 <= shr_m r → shr_m (shr_1 r) = shr_m r / 2 ∧ 0 <= shr_m (shr_1 r).
Proof.
  destruct r as [m r s]; cbn. intros Hm. rewrite <- Z.div2_div. destruct m as [|[p|p|]|p]; cbn; lia.
Qed.

Lemma shr_iter_m n r :
  0 <= shr_m r →
  shr_m (iter_pos shr_1 n r) = shr_m r / 2 ^ Zpos n ∧ 0 <= shr_m (iter_pos shr_1 n r).
Proof.
  intros Hr. rewrite iter_pos_iter.
  induction n as [|n [IH1 IH2]] using Pos.peano_ind; [by apply shr_1_m|].
  rewrite Pos.iter_succ. destruct (shr_1_m _ IH2) as [H1 H2]. split; [|done].
  pose proof (pow_pos (Zpos n)). rewrite H1, IH1, Z.div_div by lia.
  f_equal. rewrite Pos2Z.inj_succ, Z.pow_succ_r by lia. lia.
Qed.

Lemma shr_record_m m l : shr_m (shr_record_of_loc m l) = m.
Proof. by destruct l as [|[]]. Qed.

(** Bringing a significand into 53 bits: the shift [n] is what the exponent moves by. *)
Lemma shr_fexp_m m e l r e' :
  0 <= m → shr_fexp 53 1024 m e l = (r, e') →
  ∃ n, 0 <= n ∧ e' = e + n ∧ shr_m r = m / 2 ^ n ∧ m / 2 ^ n < 2 ^ 53
    ∧ -1074 <= e' ∧ (0 < n → e' = Z.max (Zdigits2 m + e - 53) (-1074)).
Proof.
  intros Hm. unfold shr_fexp, fexp, emin.
  set (n := Z.max (Zdigits2 m + e - 53) (3 - 1024 - 53) - e).
  assert (m / 2 ^ Z.max 0 n < 2 ^ 53) as Hb.
  { apply Z.div_lt_upper_bound; [apply pow_pos; lia|]. rewrite <- pow_split by lia.
    destruct m as [|p|p]; [apply pow_pos; lia| |lia].
    eapply Z.lt_le_trans; [apply digits_bound|]. apply pow_le. cbn [Zdigits2] in n. lia. }
  unfold shr. destruct n as [|p|p] eqn:Hn; intros [= <- <-].
  - exists 0. rewrite shr_record_m, Z.div_1_r in *. split_and!; try done; lia.
  - exists (Zpos p). destruct (shr_iter_m p (shr_record_of_loc m l)) as [-> _]; rewrite shr_record_m; [done|].
    split_and!; try done; lia.
  - exists 0. rewrite shr_record_m, Z.div_1_r in *. split_and!; try done; lia.
Qed.

Lemma round_even_bounds m l : m <= round_nearest_even m l <= m + 1.
Proof. destruct l as [|[]]; cbn; [lia| |lia|lia]. destruct (Z.even m); lia. Qed.

(** ** Rounding *)
Section round.
Context (s : bool) (m e : Z) (l : location) (Hm : 0 <= m).

Lemma round_steps :
  ∃ m1 n1 m2 n2, 0 <= n1 ∧ 0 <= n2 ∧ m / 2 ^ n1 <= m1 <= m / 2 ^ n1 + 1 ∧ m2 = m1 / 2 ^ n2
    ∧ 0 <= m1 ∧ m2 < 2 ^ 53 ∧ -1074 <= e + n1
    ∧ (0 < n1 → e + n1 = Z.max (Zdigits2 m + e - 53) (-1074))
    ∧ (0 < n2 → e + n1 + n2 = Z.max (Zdigits2 m1 + (e + n1) - 53) (-1074))
    ∧ binary_round_aux 53 1024 s m e l
      = match m2 with
        | Z0 => S754_zero s
        | Zpos p => if e + n1 + n2 <=? 971 then S754_finite s p (e + n1 + n2) else S754_infinity s
        | _ => S754_nan
        end.
Proof.
  unfold binary_round_aux. destruct (shr_fexp 53 1024 m e l) as [r1 e1] eqn:H1.
  apply shr_fexp_m in H1 as (n1 & Hn1 & -> & Hr1 & _ & Hlo & He1); [|done].
  pose proof (round_even_bounds (shr_m r1) (loc_of_shr_record r1)) as Hrb. rewrite Hr1 in *.
  set (m1 := round_nearest_even _ _) in *.
  assert (0 <= m / 2 ^ n1) by (apply Z.div_pos; [done|by apply pow_pos]).
  destruct (shr_fexp 53 1024 m1 (e + n1) loc_Exact) as [r2 e2] eqn:H2.
  apply shr_fexp_m in H2 as (n2 & Hn2 & -> & Hr2 & Hs & _ & He2); [|lia].
  exists m1, n1, (m1 / 2 ^ n2), n2. split_and!; try done; try lia. by rewrite Hr2.
Qed.

Lemma round_narrow : narrow (binary_round_aux 53 1024 s m e l).
Proof.
  destruct round_steps as (m1 & n1 & m2 & n2 & ? & ? & ? & ? & ? & Hs & _ & _ & _ & ->).
  destruct m2; [done| |done]. destruct (_ <=? _); done.
Qed.

Lemma round_nonneg : s = false → nonneg (binary_round_aux 53 1024 s m e l).
Proof.
  intros Hs. destruct round_steps as (m1 & n1 & m2 & n2 & ? & ? & ? & H2 & ? & _ & _ & _ & _ & ->).
  assert (0 <= m2) by (rewrite H2; apply Z.div_pos; [done|by apply pow_pos]).
  rewrite Hs. destruct m2; [done| |done]. by destruct (_ <=? _).
Qed.

(** A negative value stays below every bound. *)
Lemma round_negative k : s = true → upto k (binary_round_aux 53 1024 s m e l).
Proof.
  intros Hs. destruct round_steps as (m1 & n1 & m2 & n2 & ? & ? & ? & ? & ? & _ & _ & _ & _ & ->).
  rewrite Hs. destruct m2; [done| |done]. by destruct (_ <=? _).
Qed.

(** A value below [2^k] is rounded to at most [2^k]. *)
Lemma round_upto k :
  m < 2 ^ (k - e) → -1074 <= k <= 971 → upto (k + 1) (binary_round_aux 53 1024 s m e l).
Proof.
  intros Hk Hr. destruct round_steps as (m1 & n1 & m2 & n2 & Hn1 & Hn2 & H1 & H2 & H0 & Hs & Hlo & He1 & He2 & ->).
  assert (0 <= k - e) as Hke.
  { destruct (Z.le_gt_cases 0 (k - e)); [done|]. rewrite Z.pow_neg_r in Hk by done. lia. }
  assert (e + n1 <= k) as Hke1.
  { destruct (Z.eq_dec n1 0) as [->|]; [lia|]. rewrite He1 by lia.
    destruct m as [|p|p]; [cbn; lia| |lia]. apply digits_le in Hk; cbn; lia. }
  assert (m1 <= 2 ^ (k - (e + n1))) as Hm1.
  { assert (m / 2 ^ n1 < 2 ^ (k - (e + n1))); [|lia].
    apply Z.div_lt_upper_bound; [by apply pow_pos|]. rewrite <- pow_split by lia.
    by replace (n1 + _) with (k - e) by lia. }
  destruct m2 as [|p|p]; [done| |done].
  assert (Zpos p * 2 ^ n2 <= m1) as Hp.
  { rewrite H2, Z.mul_comm. apply Z.mul_div_le. by apply pow_pos. }
  assert (e + n1 + n2 <= k) as Hle.
  { destruct (Z.le_gt_cases (e + n1 + n2) k); [done|].
    assert (2 ^ (k - (e + n1)) < 2 ^ n2) by (apply Z.pow_lt_mono_r; lia). nia. }
  rewrite (proj2 (Z.leb_le _ _)) by lia. destruct s; [done|]. cbn [upto].
  apply Z.le_lt_trans with (2 ^ (k - (e + n1 + n2))); [|apply Z.pow_lt_mono_r; lia].
  rewrite (Z.mul_le_mono_pos_r _ _ (2 ^ n2)) by (by apply pow_pos).
  rewrite <- pow_split by lia. replace (k - (e + n1 + n2) + n2) with (k - (e + n1)) by lia. lia.
Qed.

(** A value of at least [2^k] stays there. *)
Lemma round_atleast k :
  s = false → 2 ^ (k - e) <= m → 0 < m → -1074 <= k → atleast k (binary_round_aux 53 1024 s m e l).
Proof.
  intros Hs Hk Hm0 Hk0.
  destruct round_steps as (m1 & n1 & m2 & n2 & Hn1 & Hn2 & H1 & H2 & H0 & _ & Hlo & He1 & He2 & ->). subst s.
  assert (2 ^ (k - (e + n1)) <= m1 ∧ 0 < m1) as [Hm1 Hpos].
  { destruct (Z.le_gt_cases (e + n1) k).
    - pose proof (pow_pos (k - (e + n1)) ltac:(lia)).
      assert (2 ^ (k - (e + n1)) <= m / 2 ^ n1); [|lia].
      apply Z.div_le_lower_bound; [by apply pow_pos|]. rewrite <- pow_split by lia.
      by replace (n1 + _) with (k - e) by lia.
    - rewrite (Z.pow_neg_r 2 (k - (e + n1))) by lia. destruct m as [|p|p]; [lia| |lia].
      assert (0 < Zpos p / 2 ^ n1); [|lia].
      apply Z.div_str_pos. split; [by apply pow_pos|].
      destruct (Z.eq_dec n1 0) as [->|]; [cbn; lia|].
      etrans; [|apply digits_ge]. apply pow_le. cbn in He1. lia. }
  assert (2 ^ (k - (e + n1 + n2)) <= m2 ∧ 0 < m2) as [Hm2 Hpos2].
  { destruct (Z.eq_dec n2 0) as [->|]; [rewrite H2, Z.div_1_r, Z.add_0_r; done|].
    destruct m1 as [|p|p]; [lia| |lia]. cbn in He2.
    assert (2 ^ n2 <= Zpos p).
    { etrans; [|apply digits_ge]. apply pow_le. lia. }
    split; [|rewrite H2; apply Z.div_str_pos; split; [by apply pow_pos|done]].
    destruct (Z.le_gt_cases (e + n1 + n2) k).
    - rewrite H2. apply Z.div_le_lower_bound; [by apply pow_pos|]. rewrite <- pow_split by lia.
      by replace (n2 + _) with (k - (e + n1)) by lia.
    - rewrite Z.pow_neg_r by lia. rewrite H2. apply Z.div_pos; [lia|by apply pow_pos]. }
  destruct m2 as [|p|p]; [lia| |lia]. by destruct (_ <=? _).
Qed.
End round.

(** ** Aligning and normalizing *)
Lemma shl_align_value m e e' mz ez :
  shl_align m e e' = (mz, ez) → ez <= e ∧ Zpos mz = Zpos m * 2 ^ (e - ez).
Proof.
  unfold shl_align. destruct (e' - e) as [|d|d] eqn:Hd; intros [= <- <-].
  1,2: rewrite Z.sub_diag; cbn; lia.
  split; [lia|]. rewrite Zpos_iter_xO, Z.shiftl_mul_pow2 by lia. do 2 f_equal. lia.
Qed.

Lemma align_value m e e' : e' <= e → Zpos (fst (shl_align m e e')) = Zpos m * 2 ^ (e - e').
Proof.
  intros He. unfold shl_align. destruct (e' - e) as [|d|d] eqn:Hd; cbn [fst]; [|lia|].
  - replace (e - e') with 0 by lia. rewrite Z.pow_0_r. lia.
  - rewrite Zpos_iter_xO, Z.shiftl_mul_pow2 by lia. do 2 f_equal. lia.
Qed.

Lemma scaled_lt m e ez k : ez <= e → Zpos m < 2 ^ (k - e) → Zpos m * 2 ^ (e - ez) < 2 ^ (k - ez).
Proof.
  intros He Hm. pose proof (lt_pow_nonneg _ _ Hm).
  replace (k - ez) with ((k - e) + (e - ez)) by lia. rewrite pow_split by lia.
  apply Z.mul_lt_mono_pos_r; [apply pow_pos; lia|done].
Qed.

Lemma scaled_ge m e ez k : ez <= e → 2 ^ (k - e) <= Zpos m → 2 ^ (k - ez) <= Zpos m * 2 ^ (e - ez).
Proof.
  intros He Hm. pose proof (pow_pos (e - ez) ltac:(lia)). destruct (Z.le_gt_cases e k).
  - replace (k - ez) with ((k - e) + (e - ez)) by lia. rewrite pow_split by lia. nia.
  - assert (2 ^ (k - ez) <= 2 ^ (e - ez)) by (apply pow_le; lia). nia.
Qed.

Lemma binary_round_upto s m e k :
  Zpos m < 2 ^ (k - e) → -1074 <= k <= 971 → upto (k + 1) (binary_round 53 1024 s m e).
Proof.
  intros Hm Hk. unfold binary_round. destruct (shl_align _ _ _) as [mz ez] eqn:Ha.
  apply shl_align_value in Ha as [He Hv]. apply round_upto; [lia| |done]. rewrite Hv.
  by apply scaled_lt.
Qed.

Lemma binary_round_atleast m e k :
  2 ^ (k - e) <= Zpos m → -1074 <= k → atleast k (binary_round 53 1024 false m e).
Proof.
  intros Hm Hk. unfold binary_round. destruct (shl_align _ _ _) as [mz ez] eqn:Ha.
  apply shl_align_value in Ha as [He Hv]. apply round_atleast; [lia|done| |lia|done].
  rewrite Hv. by apply scaled_ge.
Qed.

Lemma binary_round_narrow s m e : narrow (binary_round 53 1024 s m e).
Proof. unfold binary_round. destruct (shl_align _ _ _). by apply round_narrow. Qed.

Lemma binary_round_nonneg m e : nonneg (binary_round 53 1024 false m e).
Proof. unfold binary_round. destruct (shl_align _ _ _). by apply round_nonneg. Qed.

(** ** The operations *)
Lemma upto_mono j k x : j <= k → upto j x → upto k x.
Proof.
  intros Hjk. destruct x as [| []| |[] m e]; cbn; try done. intros Hm.
  eapply Z.lt_le_trans; [exact Hm|]. apply pow_le. lia.
Qed.

Lemma narrow_mul x y : narrow (f64_mul x y).
Proof.
  destruct x as [| []| |[] m e], y as [| []| |[] m' e']; cbn -[binary_round_aux]; try done;
    by apply round_narrow.
Qed.

Lemma narrow_add x y : narrow x → narrow y → narrow (f64_add x y).
Proof.
  destruct x as [[]| []| |sx m e], y as [[]| []| |sy m' e']; intros Hx Hy; try done.
  unfold f64_add, SFadd, binary_normalize. destruct (_ + _); [done|apply binary_round_narrow..].
Qed.

Lemma narrow_opp x : narrow x → narrow (SFopp x).
Proof. by destruct x. Qed.

Lemma div_core_value m1 e1 m2 e2 q e l :
  SFdiv_core_binary 53 1024 (Zpos m1) e1 (Zpos m2) e2 = (q, e, l) →
  0 <= q ∧ e <= e1 - e2 ∧ q = Zpos m1 * 2 ^ (e1 - e2 - e) / Zpos m2
    ∧ e <= Z.max (Zpos (digits2_pos m1) + e1 - (Zpos (digits2_pos m2) + e2) - 53) (-1074).
Proof.
  unfold SFdiv_core_binary. set (e' := Z.min _ _).
  set (m' := match _ with Z0 => _ | Zpos _ => _ | Zneg _ => _ end).
  assert (m' = Zpos m1 * 2 ^ (e1 - e2 - e')) as Hm'.
  { subst m'. assert (0 <= e1 - e2 - e') by lia.
    destruct (e1 - e2 - e') eqn:Hd; [lia| |lia]. by rewrite Z.shiftl_mul_pow2. }
  assert (0 <= m') by (rewrite Hm'; pose proof (pow_pos (e1 - e2 - e') ltac:(lia)); nia).
  destruct (Z.div_eucl m' (Zpos m2)) as [q0 r] eqn:Hq. intros [= <- <- <-].
  assert (q0 = m' / Zpos m2) as -> by (unfold Z.div; by rewrite Hq).
  rewrite <- Hm'. split_and!; [by apply Z.div_pos|lia|done|].
  subst e'. unfold fexp, emin, Zdigits2. lia.
Qed.

Lemma narrow_div x y : narrow (f64_div x y).
Proof.
  destruct x as [| []| |[] m e], y as [| []| |[] m' e']; cbn -[binary_round_aux SFdiv_core_binary]; try done;
    destruct (SFdiv_core_binary _ _ _ _ _ _) as [[q f] l] eqn:Hd; apply div_core_value in Hd as [? _];
    by apply round_narrow.
Qed.

Lemma nonneg_unsigned x : nonneg x → unsigned x.
Proof. by destruct x as [[]| []| |[] m e]. Qed.

Lemma unsigned_div x y : nonneg x → nonneg y → unsigned (f64_div x y).
Proof.
  destruct x as [[]| []| |[] m e], y as [[]| []| |[] m' e'];
    cbn -[binary_round_aux SFdiv_core_binary]; try done.
  destruct (SFdiv_core_binary _ _ _ _ _ _) as [[q f] l] eqn:Hd; apply div_core_value in Hd as [? _].
  intros. by apply nonneg_unsigned, round_nonneg.
Qed.

Lemma nonneg_mul x m e : nonneg x → nonneg (f64_mul x (f64_lit m e)).
Proof. destruct x as [[]| []| |[] m' e']; try done. intros _. by apply round_nonneg. Qed.

(** A product with a positive constant. *)
Lemma upto_mul a b x m e :
  upto a x → Zpos m < 2 ^ (b - e) → -1074 <= a + b <= 971 → upto (a + b + 1) (f64_mul x (f64_lit m e)).
Proof.
  destruct x as [[]| []| |[] m' e']; intros Hx Hm Hab; try done.
  - by apply round_negative.
  - cbn in Hx |- *. apply round_upto; [lia| |done]. rewrite Pos2Z.inj_mul.
    pose proof (lt_pow_nonneg _ _ Hx). pose proof (lt_pow_nonneg _ _ Hm).
    replace (a + b - (e' + e)) with ((a - e') + (b - e)) by lia. rewrite pow_split by lia.
    apply Z.mul_lt_mono_nonneg; lia.
Qed.

(** A quotient by a number of at least [2^b]. *)
Lemma upto_div a b x y :
  upto a x → atleast b y → -1074 <= a - b <= 971 → upto (a - b + 1) (f64_div x y).
Proof.
  destruct x as [[]| []| |[] m e], y as [[]| []| |[] m' e']; intros Hx Hy Hab; try done;
    cbn -[binary_round_aux SFdiv_core_binary];
    destruct (SFdiv_core_binary _ _ _ _ _ _) as [[q f] l] eqn:Hd; apply div_core_value in Hd as (Hq & Hf & Hv & Hf2).
  - by apply round_negative.
  - cbn in Hx, Hy. apply round_upto; [done| |done]. subst q.
    pose proof (lt_pow_nonneg _ _ Hx). pose proof (digits_le m (a - e) ltac:(lia) Hx).
    assert (b - e' < Zpos (digits2_pos m')) as Hd'.
    { apply (Z.pow_lt_mono_r_iff 2); [lia..|]. eapply Z.le_lt_trans; [exact Hy|]. apply digits_bound. }
    assert (f <= a - b) by lia.
    apply (scaled_lt _ _ (e' + f)) in Hx; [|lia]. replace (e - (e' + f)) with (e - e' - f) in Hx by lia.
    apply Z.div_lt_upper_bound; [lia|]. eapply Z.lt_le_trans; [exact Hx|].
    pose proof (pow_pos (a - b - f) ltac:(lia)). destruct (Z.le_gt_cases e' b).
    + replace (a - (e' + f)) with ((b - e') + (a - b - f)) by lia. rewrite pow_split by lia. nia.
    + assert (2 ^ (a - (e' + f)) <= 2 ^ (a - b - f)) by (apply pow_le; lia). nia.
Qed.

(** ** Sums *)
Lemma normalize_upto z e k :
  z < 2 ^ (k - e) → -1074 <= k <= 971 → upto (k + 1) (binary_normalize 53 1024 z e false).
Proof.
  intros Hz Hk. destruct z as [|p|p]; cbn; [done|by apply binary_round_upto|].
  unfold binary_round. destruct (shl_align _ _ _). by apply round_negative.
Qed.

(** A term of a sum in the common exponent. *)
Lemma term_bound a s m e ez :
  upto a (S754_finite s m e) → ez <= e →
  cond_Zopp s (Zpos (fst (shl_align m e ez))) < 0
  ∨ cond_Zopp s (Zpos (fst (shl_align m e ez))) < 2 ^ (a - ez) ∧ ez <= a.
Proof.
  intros Hx He. pose proof (align_value m e ez He) as Hv. destruct s; cbn in *; [lia|]. right.
  pose proof (lt_pow_nonneg _ _ Hx). rewrite Hv. split; [by apply scaled_lt|lia].
Qed.

Lemma sum_bound t t' a ez :
  t < 0 ∨ t < 2 ^ (a - ez) ∧ ez <= a → t' < 0 ∨ t' < 2 ^ (a - ez) ∧ ez <= a → t + t' < 2 ^ (a + 1 - ez).
Proof.
  intros Ht Ht'. destruct (Z.le_gt_cases ez a) as [Hle|Hgt].
  - replace (a + 1 - ez) with (Z.succ (a - ez)) by lia. rewrite Z.pow_succ_r by lia.
    pose proof (pow_pos (a - ez) ltac:(lia)). lia.
  - assert (0 <= 2 ^ (a + 1 - ez)) by (by apply Z.pow_nonneg). lia.
Qed.

(** A term that is not positive does not raise a sum. *)
Lemma upto_add a x y : upto a x → upto a y → -1074 <= a <= 960 → upto (a + 2) (f64_add x y).
Proof.
  destruct x as [[]| []| |sx m e], y as [[]| []| |sy m' e']; intros Hx Hy Ha; try done;
    try (apply (upto_mono a); [lia|done]).
  replace (a + 2) with (a + 1 + 1) by lia. apply normalize_upto; [|lia].
  apply sum_bound; apply term_bound; (done || lia).
Qed.

(** [x - y] for [y] not negative. *)
Lemma upto_sub a x y : upto a x → unsigned y → -1074 <= a <= 960 → upto (a + 2) (f64_sub x y).
Proof.
  destruct x as [[]| []| |sx m e], y as [[]| []| |[] m' e']; intros Hx Hy Ha; try done;
    try (apply (upto_mono a); [lia|done]).
  replace (a + 2) with (a + 1 + 1) by lia. apply normalize_upto; [|lia].
  cbn [cond_Zopp]. rewrite <- Z.add_opp_r. apply sum_bound; [apply term_bound; (done || lia)|lia].
Qed.

(** Adding a number that is not negative keeps a lower bound. *)
Lemma atleast_add k x y :
  atleast k x → nonneg y → -1074 <= k → atleast k (f64_add x y).
Proof.
  destruct x as [[]| []| |[] m e], y as [[]| []| |[] m' e']; intros Hx Hy Hk; try done.
  unfold f64_add, SFadd. cbn [cond_Zopp]. set (ez := Z.min e e').
  pose proof (align_value m e ez ltac:(lia)) as Hv.
  apply binary_round_atleast; [|done]. rewrite Pos2Z.inj_add, Hv.
  pose proof (scaled_ge m e ez k ltac:(lia) Hx). lia.
Qed.

Lemma nonneg_add_comm x y : nonneg x → nonneg y → f64_add x y = f64_add y x.
Proof.
  destruct x as [[]| []| |[] m e], y as [[]| []| |[] m' e']; try done. intros _ _.
  unfold f64_add, SFadd. by rewrite (Z.min_comm e), Z.add_comm.
Qed.

(** ** Integers, casts and [clamp] *)
Lemma of_N_nonneg n : nonneg (f64_of_N n).
Proof. destruct n as [|p]; [done|]. apply binary_round_nonneg. Qed.

Lemma of_N_upto n k : Z.of_N n < 2 ^ k → 0 <= k <= 971 → upto (k + 1) (f64_of_N n).
Proof. intros Hn Hk. apply normalize_upto; [by rewrite Z.sub_0_r|lia]. Qed.

Lemma of_N_atleast n k : 2 ^ k <= Z.of_N n → (0 < n)%N → 0 <= k → atleast k (f64_of_N n).
Proof.
  intros Hn H0 Hk. destruct n as [|p]; [lia|]. apply binary_round_atleast; [by rewrite Z.sub_0_r|lia].
Qed.

(** [as uK] of a bounded number. *)
Lemma as_upto max k x : upto k x → 0 <= k → Z.of_N (f64_as max x) < 2 ^ k.
Proof.
  intros Hx Hk. pose proof (pow_pos k Hk). destruct x as [[]| []| |[] m e]; cbn in *; try lia.
  pose proof (lt_pow_nonneg _ _ Hx). assert (Z.shiftl (Zpos m) e < 2 ^ k); [|lia].
  destruct (Z.le_gt_cases 0 e) as [He|He].
  - rewrite Z.shiftl_mul_pow2 by done. replace k with (k - e + e) by lia. rewrite pow_split by lia.
    apply Z.mul_lt_mono_pos_r; [by apply pow_pos|done].
  - rewrite Z.shiftl_div_pow2 by lia. apply Z.div_lt_upper_bound; [apply pow_pos; lia|].
    rewrite <- pow_split by lia. by replace (- e + k) with (k - e) by lia.
Qed.

(** [x.clamp(0.0, 1.0)]: a NaN stays one. *)
Definition clamp01 (x : f64) : f64 :=
  let x := if f64_lt x (S754_zero false) then S754_zero false else x in
  if f64_lt F1_0 x then F1_0 else x.

Lemma clamp01_bounds x : narrow x → upto 1 (clamp01 x) ∧ unsigned (clamp01 x).
Proof.
  unfold clamp01. destruct x as [[]| []| |[] m e]; try done. intros Hn. cbv zeta.
  change (f64_lt (S754_finite false m e) (S754_zero false)) with false. cbv iota.
  unfold f64_lt, SFltb, F1_0, f64_lit, SFcompare. change (Zpos m < 2 ^ 53) in Hn.
  destruct (Z.compare_spec (-52) e) as [<-|He|He]; [|split; done|].
  - destruct (Pos.compare_cont Eq 4503599627370496 m); (split; [|done]); done.
  - split; [|done]. eapply Z.lt_le_trans; [exact Hn|]. apply pow_le. lia.
Qed.

(** The share of one number in a sum is at most one, up to rounding. *)
Lemma share_upto n y :
  (0 < n < 2 ^ 64)%N → nonneg y → upto 3 (f64_div (f64_of_N n) (f64_add (f64_of_N n) y)).
Proof.
  intros Hn Hy. destruct (N.log2_spec n ltac:(lia)) as [Hlo Hhi].
  assert (N.log2 n < 64)%N by (apply N.log2_lt_pow2; lia). set (t := N.log2 n) in *.
  replace 3 with ((Z.of_N t + 2) - Z.of_N t + 1) by lia.
  apply N2Z.inj_le in Hlo. apply N2Z.inj_lt in Hhi. rewrite N2Z.inj_pow in Hlo, Hhi.
  rewrite N2Z.inj_succ in Hhi. cbn [Z.of_N] in Hlo, Hhi. apply upto_div; [..|lia].
  - replace (Z.of_N t + 2) with (Z.succ (Z.of_N t) + 1) by lia. apply of_N_upto; [done|lia].
  - apply atleast_add; [|done|lia]. apply of_N_atleast; [done|lia..].
Qed.

(** ** Lower bounds through a product and a cast *)
Lemma atleast_mul a b x m e :
  atleast a x → 2 ^ (b - e) <= Zpos m → -1074 <= a + b → atleast (a + b) (f64_mul x (f64_lit m e)).
Proof.
  destruct x as [[]| []| |[] mx ex]; cbn -[binary_round_aux Z.mul Z.pow]; intros Hx Hm Hab; try done.
  apply round_atleast; [lia|done| |lia|done].
  rewrite Pos2Z.inj_mul. replace (a + b - (ex + e)) with ((a - ex) + (b - e)) by lia.
  destruct (Z.le_gt_cases 0 (a - ex)), (Z.le_gt_cases 0 (b - e)).
  - rewrite pow_split by done. apply Z.mul_le_mono_nonneg; try done; apply Z.lt_le_incl; by apply pow_pos.
  - assert (2 ^ (a - ex + (b - e)) <= 2 ^ (a - ex)) by (apply pow_le; lia). nia.
  - assert (2 ^ (a - ex + (b - e)) <= 2 ^ (b - e)) by (apply pow_le; lia). nia.
  - rewrite Z.pow_neg_r by lia. lia.
Qed.

Lemma as_atleast max k x : atleast k x → 0 <= k → 2 ^ k <= Z.of_N max → 2 ^ k <= Z.of_N (f64_as max x).
Proof.
  intros Hx Hk Hmax. destruct x as [[]| []| |[] m e]; cbn in *; try done.
  assert (2 ^ k <= Z.shiftl (Zpos m) e); [|lia].
  destruct (Z.le_gt_cases 0 e) as [He|He].
  - rewrite Z.shiftl_mul_pow2 by done. destruct (Z.le_gt_cases e k).
    + replace k with (k - e + e) by lia. rewrite pow_split by lia.
      apply Z.mul_le_mono_nonneg_r; [apply Z.lt_le_incl, pow_pos; lia|done].
    + assert (2 ^ k <= 2 ^ e) by (apply pow_le; lia). nia.
  - rewrite Z.shiftl_div_pow2 by lia. apply Z.div_le_lower_bound; [apply pow_pos; lia|].
    rewrite <- pow_split by lia. by replace (- e + k) with (k - e) by lia.
Qed.

(** ** Square roots *)
Lemma sqrt_core_value m e q e' l :
  SFsqrt_core_binary 53 1024 (Zpos m) e = (q, e', l) →
  0 <= q ∧ 2 * e' <= e ∧ q * q <= Zpos m * 2 ^ (e - 2 * e').
Proof.
  unfold SFsqrt_core_binary. set (e0 := Z.min _ _).
  assert (2 * e0 <= e) as He0.
  { subst e0. pose proof (Z.le_min_r (fexp 53 1024 (Z.div2 (Zdigits2 (Zpos m) + e + 1))) (Z.div2 e)).
    rewrite Z.div2_div in *. pose proof (Z.mul_div_le e 2 ltac:(lia)). lia. }
  set (m' := match _ with Z0 => _ | Zpos _ => _ | Zneg _ => _ end).
  assert (m' = Zpos m * 2 ^ (e - 2 * e0)) as Hm'.
  { subst m'. destruct (e - 2 * e0) as [|d|d] eqn:Hd; [rewrite Z.pow_0_r; lia| |lia]. by rewrite Z.shiftl_mul_pow2. }
  assert (0 <= m') as H0 by (rewrite Hm'; pose proof (pow_pos (e - 2 * e0) ltac:(lia)); nia).
  pose proof (Z.sqrtrem_spec m' H0) as Hsq. destruct (Z.sqrtrem m') as [q0 r]. intros [= <- <- <-].
  rewrite <- Hm'. split_and!; [|done|lia]. nia.
Qed.

Lemma upto_sqrt k x : upto (2 * k) x → 0 <= k <= 971 → upto (k + 1) (SFsqrt 53 1024 x).
Proof.
  destruct x as [[]| []| |[] m e]; cbn -[binary_round_aux SFsqrt_core_binary Z.mul]; try done. intros Hm Hk.
  destruct (SFsqrt_core_binary 53 1024 (Zpos m) e) as [[q e'] l] eqn:Hc.
  apply sqrt_core_value in Hc as (Hq & He & Hqq). apply round_upto; [done| |lia].
  apply (scaled_lt _ _ (2 * e')) in Hm; [|done].
  destruct (Z.le_gt_cases 0 (k - e')) as [Hke|Hke].
  - apply Z.square_lt_simpl_nonneg; [by apply Z.lt_le_incl, pow_pos|]. rewrite <- pow_split by lia.
    replace (k - e' + (k - e')) with (2 * k - 2 * e') by lia. lia.
  - rewrite (Z.pow_neg_r 2 (2 * k - 2 * e')) in Hm by lia. nia.
Qed.

(** ** Numbers of at least one *)
Lemma of_N_narrow n : narrow (f64_of_N n).
Proof. unfold f64_of_N, binary_normalize. destruct (Z.of_N n); [done|apply binary_round_narrow..]. Qed.

Lemma nonneg_add x y : nonneg x → nonneg y → nonneg (f64_add x y).
Proof.
  destruct x as [[]| []| |[] m e], y as [[]| []| |[] m' e']; intros Hx Hy; try done.
  unfold f64_add, SFadd. cbn [cond_Zopp]. apply binary_round_nonneg.
Qed.

Lemma nonneg_div_lit x m e : nonneg x → nonneg (f64_div x (f64_lit m e)).
Proof.
  destruct x as [[]| []| |[] m' e']; try done. intros _. cbn -[binary_round_aux SFdiv_core_binary].
  destruct (SFdiv_core_binary _ _ _ _ _ _) as [[q f] l] eqn:Hd; apply div_core_value in Hd as [? _].
  by apply round_nonneg.
Qed.

(** Where significands have at most 53 bits, a lower bound of one is what the comparison sees. *)
Lemma atleast_one x : atleast 0 x → narrow x → f64_le F1_0 x = true.
Proof.
  destruct x as [[]| []| |[] m e]; try done. cbn [atleast narrow]. intros Ha Hn.
  assert (-53 < e) as He.
  { destruct (decide (e <= -53)); [|lia]. pose proof (pow_le 53 (0 - e) ltac:(lia)). lia. }
  unfold f64_le, F1_0, f64_lit, SFleb, SFcompare. cbv iota beta zeta.
  destruct (Z.compare_spec (-52) e) as [<-|Hlt|]; [|done|lia].
  change (Pos.compare_cont Eq 4503599627370496 m) with (4503599627370496 ?= m)%positive.
  destruct (Pos.compare_spec 4503599627370496 m) as [|Hlt|Hgt]; [done..|].
  exfalso. apply Pos2Z.pos_lt_pos in Hgt. cbn in Ha. lia.
Qed.
