(* ===== verification/Mempool.v ===== *)
(** * The mempool's middleware

    [crates/mempool/src/middleware/mod.rs], [fee.rs] and [rate_limit.rs]: the chain
    every incoming transaction goes through, the fee check and the token buckets.
    A middleware is a method on the state [Pool]: the context it is handed, the
    buckets the rate limiter keeps behind its locks, and how often the clock was read.
    The n-th reading of [Instant::now()] is [instant n], in nanoseconds from an
    origin of the platform's choice. *)
From S2P Require Import Prelude SysTypes Sorting F64 Precompile ConsensusTypes CoreHash.
From stdpp Require Import base gmap list strings pretty.
From Stdlib Require Import ZArith Lia SpecFloat.
#[local] Open Scope N_scope.

Class InstantClock := {
  instant : nat → Z;
  instant_representable : Z → bool;
}.

(** ** [mod.rs]: data *)
Inductive MiddlewareError :=
| SignatureError (reason : string)
| MwComplianceError (reason : string)
| RateLimitExceeded (reason : string)
| FeeError (reason : string)
| Rejected (reason : string)
| MwInternalError (reason : string).

Inductive MiddlewareAction :=
| Continue
| Accept
| Reject (reason : string)
| Delay (milliseconds : N) (reason : string).

Record ComplianceMetadata := {
  md_required_frameworks : list string;
  md_data_residency : option string;
  md_audit_required : bool;
  md_pii_detected : bool;
  md_pii_types : list string;
}.

Definition ComplianceMetadata_default : ComplianceMetadata := {|
  md_required_frameworks := []; md_data_residency := None; md_audit_required := false;
  md_pii_detected := false; md_pii_types := [] |}.

Record ParsedTransaction := {
  pt_tx_id : Hash256;
  pt_sender : bytes;
  pt_tx_type : N;
  pt_nonce : N;
  pt_gas_price : N;
  pt_gas_limit : N;
  pt_chain_id : N;
  pt_size : N;
  pt_signature_valid : bool;
  pt_compliance_metadata : option ComplianceMetadata;
}.

Record ComplianceCheckResult := {
  ck_check_name : string;
  ck_passed : bool;
  ck_framework : option string;
  ck_details : option string;
}.

Record MiddlewareMetadata := {
  mm_tags : list (string * string);
  mm_timestamps : list (string * N);
  mm_compliance_results : list ComplianceCheckResult;
  mm_warnings : list string;
}.

Definition MiddlewareMetadata_default : MiddlewareMetadata := {|
  mm_tags := []; mm_timestamps := []; mm_compliance_results := []; mm_warnings := [] |}.

Record MiddlewareConfig := {
  mc_enabled_frameworks : list string;
  mc_quantum_threat_level : N;
  mc_min_gas_price : N;
  mc_max_tx_size : N;
  mc_rate_limit_per_address : N;
  mc_global_rate_limit : N;
  mc_blocked_addresses : list bytes;
  mc_compute_requires_compliance : bool;
  mc_enable_pii_scanning : bool;
}.

Definition MiddlewareConfig_default : MiddlewareConfig := {|
  mc_enabled_frameworks := ["GDPR"; "HIPAA"; "PCI-DSS"]%string;
  mc_quantum_threat_level := 0; mc_min_gas_price := 1; mc_max_tx_size := 1048576;
  mc_rate_limit_per_address := 60; mc_global_rate_limit := 10000; mc_blocked_addresses := [];
  mc_compute_requires_compliance := true; mc_enable_pii_scanning := true |}.

Record MiddlewareContext := {
  mx_tx_bytes : bytes;
  mx_parsed_tx : option ParsedTransaction;
  mx_metadata : MiddlewareMetadata;
  mx_config : MiddlewareConfig;
}.

Definition MiddlewareContext_new (tx_bytes : bytes) (config : MiddlewareConfig) : MiddlewareContext := {|
  mx_tx_bytes := tx_bytes; mx_parsed_tx := None; mx_metadata := MiddlewareMetadata_default;
  mx_config := config |}.

Definition set_metadata (f : MiddlewareMetadata → MiddlewareMetadata) (c : MiddlewareContext)
  : MiddlewareContext := {|
  mx_tx_bytes := c.(mx_tx_bytes); mx_parsed_tx := c.(mx_parsed_tx);
  mx_metadata := f c.(mx_metadata); mx_config := c.(mx_config) |}.

Definition set_parsed (p : ParsedTransaction) (c : MiddlewareContext) : MiddlewareContext := {|
  mx_tx_bytes := c.(mx_tx_bytes); mx_parsed_tx := Some p;
  mx_metadata := c.(mx_metadata); mx_config := c.(mx_config) |}.

Definition add_tag (key value : string) : MiddlewareContext → MiddlewareContext :=
  set_metadata (λ m, {|
    mm_tags := m.(mm_tags) ++ [(key, value)]; mm_timestamps := m.(mm_timestamps);
    mm_compliance_results := m.(mm_compliance_results); mm_warnings := m.(mm_warnings) |}).

Definition push_warning (w : string) : MiddlewareContext → MiddlewareContext :=
  set_metadata (λ m, {|
    mm_tags := m.(mm_tags); mm_timestamps := m.(mm_timestamps);
    mm_compliance_results := m.(mm_compliance_results); mm_warnings := m.(mm_warnings) ++ [w] |}).

Definition push_timestamp (name : string) (t : N) : MiddlewareContext → MiddlewareContext :=
  set_metadata (λ m, {|
    mm_tags := m.(mm_tags); mm_timestamps := m.(mm_timestamps) ++ [(name, t)];
    mm_compliance_results := m.(mm_compliance_results); mm_warnings := m.(mm_warnings) |}).

Definition extend_results (rs : list ComplianceCheckResult) : MiddlewareContext → MiddlewareContext :=
  set_metadata (λ m, {|
    mm_tags := m.(mm_tags); mm_timestamps := m.(mm_timestamps);
    mm_compliance_results := m.(mm_compliance_results) ++ rs; mm_warnings := m.(mm_warnings) |}).

Definition tags (c : MiddlewareContext) : list (string * string) := c.(mx_metadata).(mm_tags).

Definition has_tag (key : string) (c : MiddlewareContext) : bool :=
  existsb (λ kv, bool_decide (kv.1 = key)) (tags c).
Definition get_tag (key : string) (c : MiddlewareContext) : option string :=
  snd <$> List.find (λ kv, bool_decide (kv.1 = key)) (tags c).

(** ** [rate_limit.rs]: token buckets *)
Definition NANOS_PER_SEC : N := 1000000000.

(** [Duration::as_secs_f64] of a duration in nanoseconds. *)
Definition as_secs_f64 (nanos : N) : f64 :=
  f64_add (f64_of_N (nanos / NANOS_PER_SEC))
          (f64_div (f64_of_N (nanos mod NANOS_PER_SEC)) (f64_of_N NANOS_PER_SEC)).

(** [Duration::from_secs]. *)
Definition from_secs (n : N) : N := n * NANOS_PER_SEC.

(** [now.duration_since(t)], [t.elapsed()]: zero when the clock has gone back. *)
Definition duration_since (now t : Z) : N := Z.to_N (now - t).

Record RateLimiter := {
  rl_capacity : N;
  rl_tokens : f64;
  rl_refill_rate : f64;
  rl_last_update : Z;
  rl_last_activity : Z;
}.

Definition RateLimiter_new (limit interval : N) (now1 now2 : Z) : RateLimiter := {|
  rl_capacity := limit; rl_tokens := f64_of_N limit;
  rl_refill_rate := f64_div (f64_of_N limit) (as_secs_f64 interval);
  rl_last_update := now1; rl_last_activity := now2 |}.

Definition refill (l : RateLimiter) (now : Z) : RateLimiter := {|
  rl_capacity := l.(rl_capacity);
  rl_tokens :=
    f64_min (f64_add l.(rl_tokens)
               (f64_mul (as_secs_f64 (duration_since now l.(rl_last_update))) l.(rl_refill_rate)))
      (f64_of_N l.(rl_capacity));
  rl_refill_rate := l.(rl_refill_rate); rl_last_update := now;
  rl_last_activity := l.(rl_last_activity) |}.

(** [now1] is read by [refill], [now2] for the last activity. *)
Definition try_acquire (l : RateLimiter) (now1 now2 : Z) : bool * RateLimiter :=
  let l := refill l now1 in
  let enough := f64_le F1_0 l.(rl_tokens) in
  (enough, {|
    rl_capacity := l.(rl_capacity);
    rl_tokens := if enough then f64_sub l.(rl_tokens) F1_0 else l.(rl_tokens);
    rl_refill_rate := l.(rl_refill_rate); rl_last_update := l.(rl_last_update);
    rl_last_activity := now2 |}).

Definition is_stale (l : RateLimiter) (now : Z) : bool :=
  bool_decide (from_secs 300 < duration_since now l.(rl_last_activity)).

Definition remaining (l : RateLimiter) : N := f64_as U32_MAX l.(rl_tokens).

Record RateLimitMiddleware := {
  rm_address_limiters : gmap bytes RateLimiter;
  rm_type_limiters : gmap N RateLimiter;
  rm_global_limiter : RateLimiter;
  rm_last_cleanup : Z;
}.

(** [new] reads the clock three times. *)
Definition RateLimitMiddleware_new (now1 now2 now3 : Z) : RateLimitMiddleware := {|
  rm_address_limiters := ∅; rm_type_limiters := ∅;
  rm_global_limiter := RateLimiter_new 10000 (from_secs 1) now1 now2;
  rm_last_cleanup := now3 |}.

Definition set_address_limiters (m : gmap bytes RateLimiter) (r : RateLimitMiddleware)
  : RateLimitMiddleware := {|
  rm_address_limiters := m; rm_type_limiters := r.(rm_type_limiters);
  rm_global_limiter := r.(rm_global_limiter); rm_last_cleanup := r.(rm_last_cleanup) |}.
Definition set_type_limiters (m : gmap N RateLimiter) (r : RateLimitMiddleware)
  : RateLimitMiddleware := {|
  rm_address_limiters := r.(rm_address_limiters); rm_type_limiters := m;
  rm_global_limiter := r.(rm_global_limiter); rm_last_cleanup := r.(rm_last_cleanup) |}.
Definition set_global_limiter (l : RateLimiter) (r : RateLimitMiddleware) : RateLimitMiddleware := {|
  rm_address_limiters := r.(rm_address_limiters); rm_type_limiters := r.(rm_type_limiters);
  rm_global_limiter := l; rm_last_cleanup := r.(rm_last_cleanup) |}.
Definition set_last_cleanup (t : Z) (r : RateLimitMiddleware) : RateLimitMiddleware := {|
  rm_address_limiters := r.(rm_address_limiters); rm_type_limiters := r.(rm_type_limiters);
  rm_global_limiter := r.(rm_global_limiter); rm_last_cleanup := t |}.

(** ** The state of a call *)
Record Pool := {
  po_ctx : MiddlewareContext;
  po_limits : RateLimitMiddleware;
  po_reads : nat;
}.

Definition set_ctx (f : MiddlewareContext → MiddlewareContext) (p : Pool) : Pool :=
  {| po_ctx := f p.(po_ctx); po_limits := p.(po_limits); po_reads := p.(po_reads) |}.
Definition set_limits (f : RateLimitMiddleware → RateLimitMiddleware) (p : Pool) : Pool :=
  {| po_ctx := p.(po_ctx); po_limits := f p.(po_limits); po_reads := p.(po_reads) |}.

Abbreviation MW := (M MiddlewareError Pool).

(** [trait Middleware] *)
Record Middleware := {
  mw_name : string;
  mw_priority : N;
  mw_process : MW MiddlewareAction;
}.

Section mempool.
Context `{Build, InstantClock}.

(** [Instant::now()] *)
Definition now : MW Z := λ p,
  (Ok (instant p.(po_reads)),
   {| po_ctx := p.(po_ctx); po_limits := p.(po_limits); po_reads := S p.(po_reads) |}).

Definition tag (key value : string) : MW unit := modify (set_ctx (add_tag key value)).

(** ** [rate_limit.rs]: the middleware *)

(** [retain(|_, l| !l.is_stale())]: one reading per entry; the order of a hash map
    is not specified, [map_to_list] is one. *)
Fixpoint retain_fresh {K} (l : list (K * RateLimiter)) : MW (list (K * RateLimiter)) :=
  match l with
  | [] => mret []
  | (k, limiter) :: l =>
      t ← now;
      rest ← retain_fresh l;
      mret (if is_stale limiter t then rest else (k, limiter) :: rest)
  end.

Definition cleanup_if_needed : MW unit :=
  t ← now;
  p ← get;
  when (bool_decide (from_secs 60 < duration_since t p.(po_limits).(rm_last_cleanup))) (
    addresses ← retain_fresh (map_to_list p.(po_limits).(rm_address_limiters));
    modify (set_limits (set_address_limiters (list_to_map addresses))) ;;
    types ← retain_fresh (map_to_list p.(po_limits).(rm_type_limiters));
    modify (set_limits (set_type_limiters (list_to_map types))) ;;
    t ← now;
    modify (set_limits (set_last_cleanup t))).

(** [entry(k).or_insert_with(|| RateLimiter::new(..))] *)
Definition limiter_or_new (l : option RateLimiter) (limit interval : N) : MW RateLimiter :=
  match l with
  | Some l => mret l
  | None => t1 ← now; t2 ← now; mret (RateLimiter_new limit interval t1 t2)
  end.

Definition acquire (l : RateLimiter) : MW (bool * RateLimiter) :=
  t1 ← now; t2 ← now; mret (try_acquire l t1 t2).

Definition get_address_limiter (address : bytes) (limit : N) : MW bool :=
  p ← get;
  l ← limiter_or_new (p.(po_limits).(rm_address_limiters) !! address) limit (from_secs 60);
  '(granted, l) ← acquire l;
  modify (set_limits (λ r, set_address_limiters (<[address := l]> r.(rm_address_limiters)) r)) ;;
  mret granted.

Definition type_limit (tx_type : N) : N :=
  match tx_type with
  | 0x01 => 1000
  | 0x02 => 100
  | 0x03 => 100
  | 0x04 => 10
  | 0x05 => 10
  | 0x06 => 1
  | 0x07 => 100
  | _ => 100
  end.

Definition get_type_limiter (tx_type : N) : MW bool :=
  p ← get;
  l ← limiter_or_new (p.(po_limits).(rm_type_limiters) !! tx_type) (type_limit tx_type) (from_secs 1);
  '(granted, l) ← acquire l;
  modify (set_limits (λ r, set_type_limiters (<[tx_type := l]> r.(rm_type_limiters)) r)) ;;
  mret granted.

Definition check_global : MW bool :=
  p ← get;
  '(granted, l) ← acquire p.(po_limits).(rm_global_limiter);
  modify (set_limits (set_global_limiter l)) ;;
  mret granted.

Definition rate_limit_process : MW MiddlewareAction :=
  cleanup_if_needed ;;
  p ← get;
  match p.(po_ctx).(mx_parsed_tx) with
  | None => mret Continue
  | Some parsed =>
      let per_address_limit := p.(po_ctx).(mx_config).(mc_rate_limit_per_address) in
      global ← check_global;
      if negb global then
        tag "rate_limit_type" "global" ;;
        mret (Reject "Global rate limit exceeded")
      else
        address ← get_address_limiter parsed.(pt_sender) per_address_limit;
        if negb address then
          tag "rate_limit_type" "address" ;;
          mret (Delay 1000 ("Address rate limit exceeded (" +:+ pretty per_address_limit +:+ "/min)"))
        else
          typed ← get_type_limiter parsed.(pt_tx_type);
          if negb typed then
            tag "rate_limit_type" "tx_type" ;;
            mret (Delay 500 ("Transaction type " +:+ pretty parsed.(pt_tx_type)
                               +:+ " rate limit exceeded"))
          else
            tag "rate_limited" "false" ;;
            mret Continue
  end.

Definition rate_limit_middleware : Middleware :=
  {| mw_name := "rate_limit"; mw_priority := 30; mw_process := rate_limit_process |}.

(** ** Sliding windows *)
Record SlidingWindowLimiter := {
  sw_window : N;
  sw_max_requests : N;
  sw_timestamps : list Z;
}.

Definition SlidingWindowLimiter_new (max_requests window : N) : SlidingWindowLimiter :=
  {| sw_window := window; sw_max_requests := max_requests; sw_timestamps := [] |}.

Definition set_timestamps (ts : list Z) (w : SlidingWindowLimiter) : SlidingWindowLimiter :=
  {| sw_window := w.(sw_window); sw_max_requests := w.(sw_max_requests); sw_timestamps := ts |}.

(** [now - window], which panics when the result cannot be represented, and the
    [retain]. *)
Definition prune {E} (t : Z) : M E SlidingWindowLimiter unit :=
  w ← get;
  let cutoff := (t - Z.of_N w.(sw_window))%Z in
  if instant_representable cutoff then
    modify (set_timestamps (filter (λ x, cutoff < x)%Z w.(sw_timestamps)))
  else lift Panic.

Definition sliding_try_acquire {E} (t : Z) : M E SlidingWindowLimiter bool :=
  prune t ;;
  w ← get;
  if bool_decide (w.(sw_max_requests) <= N.of_nat (length w.(sw_timestamps))) then mret false
  else
    modify (set_timestamps (w.(sw_timestamps) ++ [t])) ;;
    mret true.

Definition current_count {E} (t : Z) : M E SlidingWindowLimiter N :=
  prune t ;;
  w ← get;
  mret (cast U32_MAX (N.of_nat (length w.(sw_timestamps)))).

Definition sliding_remaining {E} (t : Z) : M E SlidingWindowLimiter N :=
  w ← get;
  c ← current_count t;
  mret (sat_sub w.(sw_max_requests) c).

(** ** [fee.rs] *)
Record FeeMiddleware := {
  fm_min_gas_price : N;
  fm_max_gas_limit : N;
  fm_base_gas : gmap N N;
}.

Definition FeeMiddleware_new : FeeMiddleware := {|
  fm_min_gas_price := 1; fm_max_gas_limit := 10000000;
  fm_base_gas := list_to_map
    [(0x01, 21000); (0x02, 100000); (0x03, 50000); (0x04, 30000); (0x05, 30000);
     (0x06, 200000); (0x07, 25000); (0x08, 50000); (0x09, 500000); (0x0A, 21000)] |}.

Definition with_min_gas_price (f : FeeMiddleware) (price : N) : FeeMiddleware :=
  {| fm_min_gas_price := price; fm_max_gas_limit := f.(fm_max_gas_limit); fm_base_gas := f.(fm_base_gas) |}.
Definition with_max_gas_limit (f : FeeMiddleware) (limit : N) : FeeMiddleware :=
  {| fm_min_gas_price := f.(fm_min_gas_price); fm_max_gas_limit := limit; fm_base_gas := f.(fm_base_gas) |}.

Definition get_base_gas (f : FeeMiddleware) (tx_type : N) : N :=
  default 21000 (f.(fm_base_gas) !! tx_type).

Definition calculate_min_fee {E} (f : FeeMiddleware) (tx_type data_size : N) : outcome E N :=
  let base := get_base_gas f tx_type in
  data_gas ← u_mul U128_MAX data_size 16;
  sum ← u_add U128_MAX base data_gas;
  u_mul U128_MAX sum f.(fm_min_gas_price).

Definition estimate_gas {E} (f : FeeMiddleware) (tx_type data_size : N) : outcome E N :=
  let base := get_base_gas f tx_type in
  data_gas ← u_mul U64_MAX data_size 16;
  u_add U64_MAX base data_gas.

Definition calculate_priority_score {E} (gas_price size : N) : outcome E N :=
  efficiency_bonus ←
    (if bool_decide (0 < size) then
       scaled ← u_mul U64_MAX gas_price 100;
       u_div scaled size
     else Ok 0);
  Ok (sat_add U64_MAX gas_price efficiency_bonus).

Definition fee_process (f : FeeMiddleware) : MW MiddlewareAction :=
  p ← get;
  match p.(po_ctx).(mx_parsed_tx) with
  | None => mret Continue
  | Some parsed =>
      let tx_type := parsed.(pt_tx_type) in
      let gas_price := parsed.(pt_gas_price) in
      let gas_limit := parsed.(pt_gas_limit) in
      let size := parsed.(pt_size) in
      let min_gas_price := N.max p.(po_ctx).(mx_config).(mc_min_gas_price) f.(fm_min_gas_price) in
      if bool_decide (gas_price < min_gas_price) then
        mret (Reject ("Gas price " +:+ pretty gas_price +:+ " below minimum " +:+ pretty min_gas_price))
      else
      let base := get_base_gas f tx_type in
      if bool_decide (gas_limit < base) then
        mret (Reject ("Gas limit " +:+ pretty gas_limit +:+ " below minimum " +:+ pretty base
                        +:+ " for transaction type " +:+ pretty tx_type))
      else
      if bool_decide (f.(fm_max_gas_limit) < gas_limit) then
        mret (Reject ("Gas limit " +:+ pretty gas_limit +:+ " exceeds maximum "
                        +:+ pretty f.(fm_max_gas_limit)))
      else
      estimated_gas ← lift (estimate_gas f tx_type size);
      when (bool_decide (gas_limit < estimated_gas))
        (modify (set_ctx (push_warning ("Gas limit " +:+ pretty gas_limit
           +:+ " may be insufficient (estimated: " +:+ pretty estimated_gas +:+ ")")))) ;;
      total_fee ← lift (u_mul U128_MAX gas_price gas_limit);
      min_required_fee ← lift (calculate_min_fee f tx_type size);
      if bool_decide (total_fee < min_required_fee) then
        mret (Reject ("Total fee " +:+ pretty total_fee +:+ " below minimum required "
                        +:+ pretty min_required_fee))
      else
      tag "gas_price" (pretty gas_price) ;;
      tag "gas_limit" (pretty gas_limit) ;;
      tag "total_fee" (pretty total_fee) ;;
      tag "estimated_gas" (pretty estimated_gas) ;;
      tag "min_required_fee" (pretty min_required_fee) ;;
      priority_score ← lift (calculate_priority_score gas_price size);
      tag "priority_score" (pretty priority_score) ;;
      mret Continue
  end.

Definition fee_middleware : Middleware :=
  {| mw_name := "fee"; mw_priority := 40; mw_process := fee_process FeeMiddleware_new |}.
End mempool.

(** ** The fee estimator *)
Record FeeEstimator := {
  fe_recent_prices : list N;
  fe_max_samples : nat;
  fe_base_fees : gmap N N;
}.

Definition FeeEstimator_new : FeeEstimator :=
  {| fe_recent_prices := []; fe_max_samples := 100; fe_base_fees := ∅ |}.

Definition record_gas_price (e : FeeEstimator) (price : N) : FeeEstimator :=
  let prices := e.(fe_recent_prices) ++ [price] in
  {| fe_recent_prices := if bool_decide (e.(fe_max_samples) < length prices)%nat then drop 1 prices
                         else prices;
     fe_max_samples := e.(fe_max_samples); fe_base_fees := e.(fe_base_fees) |}.

Definition F100_0 : f64 := f64_lit 7036874417766400 (-46).

Definition suggest_gas_price {E} (e : FeeEstimator) (percentile : f64) : outcome E N :=
  match e.(fe_recent_prices) with
  | [] => Ok 1
  | _ =>
      let sorted := sort_by_key id e.(fe_recent_prices) in
      let n := N.of_nat (length sorted) in
      let index := f64_as U64_MAX (f64_div (f64_mul (f64_of_N n) percentile) F100_0) in
      let index := N.min index (n - 1) in
      match sorted !! N.to_nat index with Some p => Ok p | None => Panic end
  end.

Record GasPriceTiers := { gt_slow : N; gt_medium : N; gt_fast : N; gt_instant : N }.

Definition F25_0 : f64 := f64_lit 7036874417766400 (-48).
Definition F75_0 : f64 := f64_lit 5277655813324800 (-46).

Definition get_gas_price_tiers {E} (e : FeeEstimator) : outcome E GasPriceTiers :=
  slow ← suggest_gas_price e F25_0;
  medium ← suggest_gas_price e F50_0;
  fast ← suggest_gas_price e F75_0;
  instant ← suggest_gas_price e F95_0;
  Ok {| gt_slow := slow; gt_medium := medium; gt_fast := fast; gt_instant := instant |}.

Inductive FeeSpeed := Slow | Medium | Fast | InstantSpeed.

Record FeeEstimate := {
  fs_gas_price : N;
  fs_gas_limit : N;
  fs_total_fee : N;
  fs_estimated_wait : string;
}.

Definition estimate_fee `{Build} {E} (e : FeeEstimator) (tx_type data_size : N) (speed : FeeSpeed)
  : outcome E FeeEstimate :=
  tiers ← get_gas_price_tiers e;
  let gas_price := match speed with
                   | Slow => tiers.(gt_slow)
                   | Medium => tiers.(gt_medium)
                   | Fast => tiers.(gt_fast)
                   | InstantSpeed => tiers.(gt_instant)
                   end in
  let base := default 21000 (e.(fe_base_fees) !! tx_type) in
  data_gas ← u_mul U64_MAX data_size 16;
  gas_limit ← u_add U64_MAX base data_gas;
  total_fee ← u_mul U128_MAX gas_price gas_limit;
  Ok {| fs_gas_price := gas_price; fs_gas_limit := gas_limit; fs_total_fee := total_fee;
        fs_estimated_wait := match speed with
                             | Slow => "~10 blocks"
                             | Medium => "~5 blocks"
                             | Fast => "~2 blocks"
                             | InstantSpeed => "Next block"
                             end |}.

Record Eip1559Config := { ei_base_fee : N; ei_max_fee_per_gas : N; ei_max_priority_fee : N }.

Definition effective_gas_price (c : Eip1559Config) : N :=
  let priority_fee := N.min c.(ei_max_priority_fee) (sat_sub c.(ei_max_fee_per_gas) c.(ei_base_fee)) in
  sat_add U64_MAX c.(ei_base_fee) priority_fee.
Definition is_sufficient (c : Eip1559Config) : bool :=
  bool_decide (c.(ei_base_fee) <= c.(ei_max_fee_per_gas)).

(** ** [mod.rs]: the chain *)
Record MiddlewareStepResult := {
  sr_middleware_name : string;
  sr_action : MiddlewareAction;
  sr_duration_us : N;
}.

Record ProcessingResult := {
  pr_accepted : bool;
  pr_rejection_reason : option string;
  pr_steps : list MiddlewareStepResult;
  pr_metadata : MiddlewareMetadata;
}.

Record MiddlewareChain := {
  ch_middlewares : list Middleware;
  ch_config : MiddlewareConfig;
}.

Definition MiddlewareChain_new (config : MiddlewareConfig) : MiddlewareChain :=
  {| ch_middlewares := []; ch_config := config |}.

Definition chain_add (c : MiddlewareChain) (m : Middleware) : MiddlewareChain :=
  {| ch_middlewares := sort_by_key mw_priority (c.(ch_middlewares) ++ [m]); ch_config := c.(ch_config) |}.

Section chain.
Context `{InstantClock}.

Definition finish (accepted : bool) (reason : option string) (steps : list MiddlewareStepResult)
  : MW ProcessingResult :=
  p ← get;
  mret {| pr_accepted := accepted; pr_rejection_reason := reason; pr_steps := steps;
          pr_metadata := p.(po_ctx).(mx_metadata) |}.

(** The loop over the middleware. *)
Fixpoint process_steps (ms : list Middleware) (results : list MiddlewareStepResult)
  : MW ProcessingResult :=
  match ms with
  | [] => finish true None results
  | m :: ms =>
      start ← now;
      action ← m.(mw_process);
      t ← now;
      let elapsed := cast U64_MAX (duration_since t start / 1000) in
      modify (set_ctx (push_timestamp m.(mw_name) elapsed)) ;;
      let results := results ++ [{| sr_middleware_name := m.(mw_name); sr_action := action;
                                    sr_duration_us := elapsed |}] in
      match action with
      | Continue => process_steps ms results
      | Accept => finish true None results
      | Reject reason => finish false (Some reason) results
      | Delay _ _ => finish false (Some "Transaction delayed"%string) results
      end
  end.

Definition chain_process (c : MiddlewareChain) (tx_bytes : bytes) : MW ProcessingResult :=
  modify (set_ctx (λ _, MiddlewareContext_new tx_bytes c.(ch_config))) ;;
  process_steps c.(ch_middlewares) [].
End chain.
