(* ===== verification/MempoolChecks.v ===== *)
(** * Signature and compliance checks of the mempool

    [crates/mempool/src/middleware/signature.rs] and [compliance.rs].  The signature
    middleware parses the envelope of [SignedTransaction_to_bytes] and calls the hybrid
    verification of [Hybrid]; the compliance middleware scans the bytes for personal
    data and asks the validators of the frameworks a job requires and of those the
    configuration enables.  The regular expressions ([regex]), the order in which a
    hash set is drained and the wall clock are an instance of [ScanEnv]. *)
From S2P Require Import Prelude SysTypes F64 Precompile CoreHash Hybrid CoreTx Mempool.
From stdpp Require Import base gmap list strings pretty.
From Stdlib Require Import ZArith Lia Ascii.
#[local] Open Scope N_scope.

(** [regex_is_match p text]: the expression [p] matches somewhere in the text. *)
Class ScanEnv := {
  regex_is_match : string → bytes → bool;
  drain_order : list string → list string;
  unix_now : nat → option N;
}.

(** ** Text *)

(** [std::str::from_utf8(bs).is_ok()] *)
Definition between (lo hi b : N) : bool := bool_decide (lo <= b) && bool_decide (b <= hi).
Definition continuation (b : N) : bool := between 0x80 0xBF b.

Fixpoint utf8_valid (bs : bytes) : bool :=
  match bs with
  | [] => true
  | a :: bs1 =>
      if bool_decide (a < 0x80) then utf8_valid bs1 else
      match bs1 with
      | [] => false
      | b :: bs2 =>
          if between 0xC2 0xDF a then continuation b && utf8_valid bs2 else
          match bs2 with
          | [] => false
          | c :: bs3 =>
              if between 0xE0 0xEF a then
                (if bool_decide (a = 0xE0) then between 0xA0 0xBF b
                 else if bool_decide (a = 0xED) then between 0x80 0x9F b
                 else continuation b)
                && continuation c && utf8_valid bs3
              else
              match bs3 with
              | [] => false
              | d :: bs4 =>
                  between 0xF0 0xF4 a
                  && (if bool_decide (a = 0xF0) then between 0x90 0xBF b
                      else if bool_decide (a = 0xF4) then between 0x80 0x8F b
                      else continuation b)
                  && continuation c && continuation d && utf8_valid bs4
              end
          end
      end
  end.

(** A text is the string of its bytes. *)
Fixpoint string_of_bytes (bs : bytes) : string :=
  match bs with
  | [] => EmptyString
  | b :: bs => String (ascii_of_N b) (string_of_bytes bs)
  end.

(** [s.contains(needle)] *)
Definition str_contains (needle s : string) : bool :=
  match String.index 0 needle s with Some _ => true | None => false end.

(** ** [signature.rs] *)
Section signature.
Context `{CoreLib, ScanEnv}.

(** Eight bytes from an offset. *)
Definition le_u64 {E} (a : N) (bs : bytes) : outcome E N :=
  w ← slice a (a + 8) bs; Ok (of_le_bytes w).
Definition le_len {E} (a : N) (bs : bytes) : outcome E N :=
  w ← slice a (a + 4) bs; Ok (of_le_bytes w).

Definition compute_tx_hash (tx_bytes : bytes) : Hash256 :=
  core_sha256 (string_bytes "aethelred:transaction:v1:" ++ tx_bytes).

Definition parse_transaction {E} (tx_bytes : bytes) : outcome E (option ParsedTransaction) :=
  if bool_decide (blen tx_bytes < 100) then Ok None else
  offset ← (if bool_decide (4 < blen tx_bytes) then
              len ← le_len 0 tx_bytes;
              Ok (if bool_decide (0 < len) && bool_decide (len < blen tx_bytes) then 4 else 0)
            else Ok 0);
  if bool_decide (blen tx_bytes < offset + 63) then Ok None else
  tx_type ← byte_at (offset + 1) tx_bytes;
  sender ← slice (offset + 2) (offset + 23) tx_bytes;
  nonce ← le_u64 (offset + 23) tx_bytes;
  gas_price ← le_u64 (offset + 31) tx_bytes;
  gas_limit ← le_u64 (offset + 39) tx_bytes;
  chain_id ← le_u64 (offset + 47) tx_bytes;
  Ok (Some {|
    pt_tx_id := compute_tx_hash tx_bytes; pt_sender := sender; pt_tx_type := tx_type;
    pt_nonce := nonce; pt_gas_price := gas_price; pt_gas_limit := gas_limit;
    pt_chain_id := chain_id; pt_size := blen tx_bytes; pt_signature_valid := false;
    pt_compliance_metadata := None |}).

Definition verifier_config (chain_id quantum_threat_level : N) : VerifierConfig :=
  let config :=
    if bool_decide (chain_id = 9999) then VerifierConfig_devnet
    else if bool_decide (chain_id = 2) then VerifierConfig_testnet
    else if bool_decide (chain_id = 1) then VerifierConfig_mainnet
    else {| vc_panic_mode_qc := VerifierConfig_default.(vc_panic_mode_qc);
            vc_min_dilithium_level := VerifierConfig_default.(vc_min_dilithium_level);
            vc_allow_legacy_ecdsa_only := VerifierConfig_default.(vc_allow_legacy_ecdsa_only);
            vc_require_dual_sig_always := VerifierConfig_default.(vc_require_dual_sig_always);
            vc_max_signature_age_secs := VerifierConfig_default.(vc_max_signature_age_secs);
            vc_chain_id := chain_id |} in
  if bool_decide (5 <= quantum_threat_level) then enter_panic_mode config else config.

(** [map_err(|e| format!("{prefix}{e}"))?] *)
Definition describe {A} (prefix : string) (o : outcome CryptoError A) : outcome string A :=
  match o with
  | Ok a => Ok a
  | Err e => Err (prefix +:+ CryptoError_to_string e)
  | Panic => Panic
  | Blocked => Blocked
  end.

Definition verify_signature (tx_bytes : bytes) (quantum_threat_level : N) (clock : option N)
  : outcome string bool :=
  refuse (bool_decide (blen tx_bytes < 8)) "Transaction too short"%string $
  tx_len ← le_len 0 tx_bytes;
  refuse (bool_decide (blen tx_bytes < 4 + tx_len + 4)) "Invalid transaction format"%string $
  let sig_offset := 4 + tx_len in
  sig_len ← le_len sig_offset tx_bytes;
  refuse (bool_decide (blen tx_bytes < sig_offset + 4 + sig_len + 4))
    "Invalid signature section"%string $
  let pk_offset := sig_offset + 4 + sig_len in
  pk_len ← le_len pk_offset tx_bytes;
  refuse (bool_decide (blen tx_bytes < pk_offset + 4 + pk_len)) "Invalid public key section"%string $
  tx_data ← slice 4 (4 + tx_len) tx_bytes;
  sig_bytes ← slice (sig_offset + 4) (sig_offset + 4 + sig_len) tx_bytes;
  key_bytes ← slice (pk_offset + 4) (pk_offset + 4 + pk_len) tx_bytes;
  refuse (bool_decide (blen tx_data < 23)) "Transaction body too short"%string $
  signer ← describe "Invalid hybrid public key: " (HybridPublicKey_from_bytes key_bytes);
  signature ← describe "Invalid hybrid signature: " (HybridSignature_from_bytes sig_bytes);
  expected_sender ← slice 2 23 tx_data;
  if negb (bool_decide (Address_serialize (Address_from_public_key signer) = expected_sender))
  then Ok false else
  refuse (bool_decide (blen tx_data < 47 + 8)) "Transaction body missing chain id"%string $
  chain_id ← le_u64 47 tx_data;
  verify signature (transaction_hash tx_data) signer (verifier_config chain_id quantum_threat_level) clock ;;
  Ok true.

Definition set_signature_valid (p : ParsedTransaction) : ParsedTransaction := {|
  pt_tx_id := p.(pt_tx_id); pt_sender := p.(pt_sender); pt_tx_type := p.(pt_tx_type);
  pt_nonce := p.(pt_nonce); pt_gas_price := p.(pt_gas_price); pt_gas_limit := p.(pt_gas_limit);
  pt_chain_id := p.(pt_chain_id); pt_size := p.(pt_size); pt_signature_valid := true;
  pt_compliance_metadata := p.(pt_compliance_metadata) |}.

Definition signature_process : MW MiddlewareAction :=
  p ← get;
  let ctx := p.(po_ctx) in
  let config := ctx.(mx_config) in
  if bool_decide (config.(mc_max_tx_size) < blen ctx.(mx_tx_bytes)) then
    mret (Reject ("Transaction size " +:+ pretty (blen ctx.(mx_tx_bytes)) +:+ " exceeds maximum "
                    +:+ pretty config.(mc_max_tx_size)))
  else
  parsed ← lift (parse_transaction ctx.(mx_tx_bytes));
  match parsed with
  | None => mret (Reject "Failed to parse transaction")
  | Some parsed =>
      if existsb (λ blocked, bool_decide (parsed.(pt_sender) = blocked)) config.(mc_blocked_addresses)
      then mret (Reject "Sender address is blocked")
      else
      match verify_signature ctx.(mx_tx_bytes) config.(mc_quantum_threat_level) (unix_now p.(po_reads)) with
      | Panic => lift Panic
      | Blocked => lift Blocked
      | Err e => mret (Reject ("Signature verification error: " +:+ e))
      | Ok false => mret (Reject "Signature verification failed")
      | Ok true =>
          modify (set_ctx (set_parsed (set_signature_valid parsed))) ;;
          tag "signature_verified" "true" ;;
          tag "signature_type" "hybrid" ;;
          tag "quantum_threat_level" (pretty config.(mc_quantum_threat_level)) ;;
          mret Continue
      end
  end.

Definition signature_middleware : Middleware :=
  {| mw_name := "signature"; mw_priority := 10; mw_process := signature_process |}.

(** *** Batches *)
Record BatchSignatureVerifier := { bv_transactions : list bytes; bv_max_batch_size : N }.

Definition BatchSignatureVerifier_new (max_batch_size : N) : BatchSignatureVerifier :=
  {| bv_transactions := []; bv_max_batch_size := max_batch_size |}.

Definition batch_add (b : BatchSignatureVerifier) (tx_bytes : bytes) : bool * BatchSignatureVerifier :=
  if bool_decide (b.(bv_max_batch_size) <= N.of_nat (length b.(bv_transactions))) then (false, b)
  else (true, {| bv_transactions := b.(bv_transactions) ++ [tx_bytes];
                 bv_max_batch_size := b.(bv_max_batch_size) |}).

(** [.unwrap_or(false)] per transaction; the i-th reading of the clock. *)
Fixpoint batch_verdicts {E} (txs : list bytes) (threat : N) (i : nat) : outcome E (list bool) :=
  match txs with
  | [] => Ok []
  | tx :: txs =>
      v ← match verify_signature tx threat (unix_now i) with
          | Ok v => Ok v
          | Err _ => Ok false
          | Panic => Panic
          | Blocked => Blocked
          end;
      vs ← batch_verdicts txs threat (S i);
      Ok (v :: vs)
  end.

Definition batch_verify_all {E} (b : BatchSignatureVerifier) (threat : N) : outcome E (list bool) :=
  batch_verdicts b.(bv_transactions) threat 0.

Definition batch_clear (b : BatchSignatureVerifier) : BatchSignatureVerifier :=
  {| bv_transactions := []; bv_max_batch_size := b.(bv_max_batch_size) |}.
End signature.

(** ** [compliance.rs] *)
Definition TX_TYPE_COMPUTE_JOB : N := 0x02.
Definition TX_TYPE_SEAL : N := 0x03.
Definition COMPLIANCE_MARKER : N := 0xC0.

(** [tx_bytes.iter().position(..)] and the slice from there on. *)
Fixpoint from_marker (bs : bytes) : option bytes :=
  match bs with
  | [] => None
  | b :: rest => if bool_decide (b = COMPLIANCE_MARKER) then Some bs else from_marker rest
  end.

Definition framework_of_byte (b : N) : option string :=
  match b with
  | 0x01 => Some "GDPR"%string
  | 0x02 => Some "HIPAA"%string
  | 0x03 => Some "PCI-DSS"%string
  | 0x04 => Some "SOX"%string
  | 0x05 => Some "CCPA"%string
  | _ => None
  end.

(** [for _ in 0..framework_count]: an unknown byte is not skipped. *)
Fixpoint parse_frameworks (count : nat) (data : bytes) (offset : nat) (acc : list string)
  : list string * nat :=
  match count with
  | O => (acc, offset)
  | S count =>
      match data !! offset with
      | None => (acc, offset)
      | Some b =>
          match framework_of_byte b with
          | Some f => parse_frameworks count data (S offset) (acc ++ [f])
          | None => parse_frameworks count data offset acc
          end
      end
  end.

(** The residency and the offset behind it. *)
Definition parse_residency (data : bytes) (offset : nat) : option string * nat :=
  if bool_decide (data !! offset = Some 1) then
    match data !! S offset with
    | None => (None, S offset)
    | Some len =>
        let start := S (S offset) in
        let len := N.to_nat len in
        if bool_decide (start + len <= length data)%nat then
          let text := take len (drop start data) in
          ((if utf8_valid text then Some (string_of_bytes text) else None), (start + len)%nat)
        else (None, start)
    end
  else (None, S offset).

Definition parse_compliance_section (tx_bytes : bytes) : option ComplianceMetadata :=
  match from_marker tx_bytes with
  | None => Some ComplianceMetadata_default
  | Some data =>
      match data with
      | _ :: count :: _ :: _ =>
          let '(frameworks, offset) := parse_frameworks (N.to_nat count) data 2 [] in
          let '(residency, offset) := parse_residency data offset in
          Some {| md_required_frameworks := frameworks; md_data_residency := residency;
                  md_audit_required := bool_decide (data !! offset = Some 1);
                  md_pii_detected := false; md_pii_types := [] |}
      | _ => Some ComplianceMetadata_default
      end
  end.

Definition needs_compliance (tx_type : N) : bool :=
  bool_decide (tx_type = TX_TYPE_COMPUTE_JOB) || bool_decide (tx_type = TX_TYPE_SEAL).

Definition extract_compliance_metadata (ctx : MiddlewareContext) : option ComplianceMetadata :=
  parsed ← ctx.(mx_parsed_tx);
  if negb (needs_compliance parsed.(pt_tx_type)) then None
  else parse_compliance_section ctx.(mx_tx_bytes).

(** *** Personal data *)
Record PiiPattern := { pp_name : string; pp_regex : string }.

Definition pii_patterns : list PiiPattern := [
  {| pp_name := "EMAIL"; pp_regex := "[a-zA-Z0-9._%+-]+@[a-zA-Z0-9.-]+\.[a-zA-Z]{2,}" |};
  {| pp_name := "PHONE"; pp_regex := "\b\d{3}[-.]?\d{3}[-.]?\d{4}\b" |};
  {| pp_name := "SSN"; pp_regex := "\b\d{3}-\d{2}-\d{4}\b" |};
  {| pp_name := "CREDIT_CARD"; pp_regex := "\b\d{4}[- ]?\d{4}[- ]?\d{4}[- ]?\d{4}\b" |};
  {| pp_name := "IP_ADDRESS"; pp_regex := "\b\d{1,3}\.\d{1,3}\.\d{1,3}\.\d{1,3}\b" |};
  {| pp_name := "DATE_OF_BIRTH"; pp_regex := "\b\d{1,2}[/-]\d{1,2}[/-]\d{2,4}\b" |} ].

Definition is_sensitive_pii (pii_type : string) : bool :=
  bool_decide (pii_type = "SSN") || bool_decide (pii_type = "MEDICAL_RECORD")
  || bool_decide (pii_type = "FINANCIAL_ACCOUNT") || bool_decide (pii_type = "CREDIT_CARD")
  || bool_decide (pii_type = "BIOMETRIC").

(** *** Validators *)
Record FrameworkValidator := {
  fv_name : string;
  fv_validate : MiddlewareContext → ComplianceMetadata → ComplianceCheckResult;
}.

(** [if cond { issues.push(text) }] *)
Definition issue (cond : bool) (text : string) : list string := if cond then [text] else [].

Definition verdict (framework : string) (issues : list string) : ComplianceCheckResult :=
  match issues with
  | [] => {| ck_check_name := framework +:+ " compliance"; ck_passed := true;
             ck_framework := Some framework; ck_details := None |}
  | _ => {| ck_check_name := framework +:+ " compliance"; ck_passed := false;
            ck_framework := Some framework; ck_details := Some (String.concat "; " issues) |}
  end.

Definition eu_countries : list string :=
  ["AT"; "BE"; "BG"; "HR"; "CY"; "CZ"; "DK"; "EE"; "FI"; "FR"; "DE"; "GR"; "HU"; "IE"; "IT"; "LV";
   "LT"; "LU"; "MT"; "NL"; "PL"; "PT"; "RO"; "SK"; "SI"; "ES"; "SE"]%string.
Definition adequacy_countries : list string := ["GB"; "CH"; "JP"; "KR"; "CA"; "NZ"]%string.

Definition signature_missing (ctx : MiddlewareContext) : bool :=
  match ctx.(mx_parsed_tx) with Some p => negb p.(pt_signature_valid) | None => false end.

Definition GdprValidator : FrameworkValidator := {|
  fv_name := "GDPR";
  fv_validate := λ ctx md,
    verdict "GDPR" (
      match md.(md_data_residency) with
      | Some r => issue (negb (bool_decide (r ∈ eu_countries)) && negb (bool_decide (r ∈ adequacy_countries)))
                    ("Data residency '" +:+ r +:+ "' not in EU/EEA or adequacy list")
      | None => []
      end
      ++ issue (negb md.(md_audit_required)) "GDPR requires audit trail for accountability"
      ++ issue (has_tag "pii_detected" ctx && negb (has_tag "consent_verified" ctx))
           "PII processing requires documented consent (Article 6)") |}.

Definition HipaaValidator : FrameworkValidator := {|
  fv_name := "HIPAA";
  fv_validate := λ ctx md,
    verdict "HIPAA" (
      match md.(md_data_residency) with
      | Some r => issue (negb (bool_decide (r = "US"%string)))
                    ("HIPAA requires US data residency, got '" +:+ r +:+ "'")
      | None => []
      end
      ++ issue (negb md.(md_audit_required)) "HIPAA requires full audit trail (45 CFR 164.312)"
      ++ issue (signature_missing ctx) "HIPAA requires verified access controls") |}.

Definition PciDssValidator : FrameworkValidator := {|
  fv_name := "PCI-DSS";
  fv_validate := λ ctx md,
    verdict "PCI-DSS" (
      (if has_tag "pii_types" ctx then
         issue (str_contains "CREDIT_CARD" (default EmptyString (get_tag "pii_types" ctx)))
           "PCI-DSS prohibits storing plaintext cardholder data (Req 3)"
       else [])
      ++ issue (signature_missing ctx) "PCI-DSS requires strong authentication (Req 8)"
      ++ issue (negb md.(md_audit_required)) "PCI-DSS requires audit logging (Req 10)") |}.

Definition CcpaValidator : FrameworkValidator := {|
  fv_name := "CCPA";
  fv_validate := λ ctx md,
    verdict "CCPA"
      (issue (has_tag "pii_detected" ctx && negb md.(md_audit_required))
         "CCPA requires tracking personal information access") |}.

Definition framework_validators : list FrameworkValidator :=
  [GdprValidator; HipaaValidator; PciDssValidator; CcpaValidator].

Definition find_validator (framework : string) : option FrameworkValidator :=
  List.find (λ v, bool_decide (v.(fv_name) = framework)) framework_validators.

Definition check_required (ctx : MiddlewareContext) (md : ComplianceMetadata) (framework : string)
  : ComplianceCheckResult :=
  match find_validator framework with
  | Some v => v.(fv_validate) ctx md
  | None => {| ck_check_name := framework +:+ " compliance"; ck_passed := false;
               ck_framework := Some framework;
               ck_details := Some ("Validator for " +:+ framework +:+ " not found") |}
  end.

Definition check_enabled (ctx : MiddlewareContext) (md : ComplianceMetadata) (enabled : string)
  : list ComplianceCheckResult :=
  if bool_decide (enabled ∈ md.(md_required_frameworks)) then []
  else match find_validator enabled with
       | Some v => [v.(fv_validate) ctx md]
       | None => []
       end.

Definition validate_frameworks (ctx : MiddlewareContext) (md : ComplianceMetadata)
  : list ComplianceCheckResult :=
  (check_required ctx md <$> md.(md_required_frameworks))
  ++ concat (check_enabled ctx md <$> ctx.(mx_config).(mc_enabled_frameworks)).

Definition failure_details (r : ComplianceCheckResult) : string :=
  r.(ck_check_name) +:+ ": " +:+ default "Check failed"%string r.(ck_details).

Section compliance.
Context `{ScanEnv}.

(** [PiiDetector::scan] with the patterns of [new]. *)
Definition pii_scan (data : bytes) : list string :=
  if utf8_valid data then
    drain_order (remove_dups (pp_name <$> filter (λ p, regex_is_match p.(pp_regex) data = true) pii_patterns))
  else [].

Definition check_pii : MW (list string) :=
  p ← get;
  if negb p.(po_ctx).(mx_config).(mc_enable_pii_scanning) then mret []
  else
    let findings := pii_scan p.(po_ctx).(mx_tx_bytes) in
    match findings with
    | [] => mret []
    | _ =>
        tag "pii_detected" "true" ;;
        tag "pii_types" (String.concat "," findings) ;;
        mret findings
    end.

(** Steps 4 to 6: the validators and the tags. *)
Definition run_validators (md : ComplianceMetadata) : MW MiddlewareAction :=
  p ← get;
  let framework_results := validate_frameworks p.(po_ctx) md in
  modify (set_ctx (extend_results framework_results)) ;;
  let failures := filter (λ r, ck_passed r = false) framework_results in
  match failures with
  | _ :: _ =>
      mret (Reject ("Compliance check failed: " +:+ String.concat "; " (failure_details <$> failures)))
  | [] =>
      tag "compliance_checked" "true" ;;
      tag "compliance_frameworks" (String.concat "," md.(md_required_frameworks)) ;;
      match md.(md_data_residency) with
      | Some r => tag "data_residency" r
      | None => mret tt
      end ;;
      when md.(md_audit_required) (tag "audit_required" "true") ;;
      mret Continue
  end.

Definition compliance_process : MW MiddlewareAction :=
  p ← get;
  match p.(po_ctx).(mx_parsed_tx) with
  | None => mret Continue
  | Some parsed =>
      if negb (needs_compliance parsed.(pt_tx_type)) then mret Continue
      else
      let md := default ComplianceMetadata_default (extract_compliance_metadata p.(po_ctx)) in
      pii_findings ← check_pii;
      if negb (bool_decide (pii_findings = []))
         && p.(po_ctx).(mx_config).(mc_compute_requires_compliance) then
        modify (set_ctx (push_warning ("PII detected in transaction: "
                                         +:+ String.concat ", " pii_findings))) ;;
        let pii_allowed := existsb (λ f, bool_decide (f = "HIPAA"%string) || bool_decide (f = "GDPR"%string))
                             md.(md_required_frameworks) in
        if negb pii_allowed && existsb is_sensitive_pii pii_findings then
          mret (Reject ("Sensitive PII detected (" +:+ String.concat ", " pii_findings
                          +:+ ") without appropriate compliance framework"))
        else run_validators md
      else run_validators md
  end.

Definition compliance_middleware : Middleware :=
  {| mw_name := "compliance"; mw_priority := 20; mw_process := compliance_process |}.
End compliance.

(** *** The report *)
Record ComplianceReport := {
  rp_tx_id : Hash256;
  rp_compliant : bool;
  rp_frameworks_checked : list string;
  rp_check_results : list ComplianceCheckResult;
  rp_pii_findings : list string;
  rp_data_residency : option string;
  rp_audit_enabled : bool;
  rp_recommendations : list string;
}.

(** [s.split(',')] *)
Fixpoint split_commas (s : string) : list string :=
  match s with
  | EmptyString => [EmptyString]
  | String c s =>
      match split_commas s with
      | piece :: pieces =>
          if bool_decide (c = ","%char) then EmptyString :: piece :: pieces
          else String c piece :: pieces
      | [] => []
      end
  end.

Definition recommendation (r : ComplianceCheckResult) : option string :=
  if r.(ck_passed) then None
  else details ← r.(ck_details);
       Some ("Fix " +:+ default "Unknown"%string r.(ck_framework) +:+ " issue: " +:+ details).

Definition ComplianceReport_from_context (ctx : MiddlewareContext) : option ComplianceReport :=
  parsed ← ctx.(mx_parsed_tx);
  let results := ctx.(mx_metadata).(mm_compliance_results) in
  Some {|
    rp_tx_id := parsed.(pt_tx_id);
    rp_compliant := forallb ck_passed results;
    rp_frameworks_checked := omap ck_framework results;
    rp_check_results := results;
    rp_pii_findings := match get_tag "pii_types" ctx with Some s => split_commas s | None => [] end;
    rp_data_residency := get_tag "data_residency" ctx;
    rp_audit_enabled := has_tag "audit_required" ctx;
    rp_recommendations := omap recommendation results |}.

(** ** [create_default_chain] *)
Definition create_default_chain `{Build, InstantClock, CoreLib, ScanEnv} (config : MiddlewareConfig)
  : MiddlewareChain :=
  chain_add (chain_add (chain_add (chain_add (MiddlewareChain_new config)
    signature_middleware) compliance_middleware) rate_limit_middleware) fee_middleware.
