(* ===== verification/MempoolSpec.v ===== *)
(** * Theorems on the mempool's middleware

    The order of the chain and what a run of it reports; the sliding window; the fee
    verdict; the compliance verdict of the default configuration. *)
From S2P Require Import Prelude SysTypes Sorting F64 Precompile ConsensusTypes CoreHash Hybrid CoreTx Mempool MempoolChecks.
From stdpp Require Import base gmap list sorting strings pretty.
From Stdlib Require Import ZArith Lia SpecFloat.
#[local] Open Scope N_scope.

(** ** Runs of the chain *)
Section runs.
Context `{InstantClock}.

Abbreviation step_names r := (sr_middleware_name <$> r.(pr_steps)).

Definition outcome_of (a : MiddlewareAction) : bool * option string :=
  match a with
  | Continue | Accept => (true, None)
  | Reject reason => (false, Some reason)
  | Delay _ _ => (false, Some "Transaction delayed"%string)
  end.

(** What a finished run reports, for the middleware [ms] that were left. *)
Inductive run_report (ms : list Middleware) : list MiddlewareStepResult → bool → option string → Prop :=
| report_end : ms = [] → run_report ms [] true None
| report_stop m ms' st :
    ms = m :: ms' → sr_middleware_name st = mw_name m → sr_action st ≠ Continue →
    run_report ms [st] (outcome_of (sr_action st)).1 (outcome_of (sr_action st)).2
| report_continue m ms' st steps b r :
    ms = m :: ms' → sr_middleware_name st = mw_name m → sr_action st = Continue →
    run_report ms' steps b r → run_report ms (st :: steps) b r.

Lemma process_steps_report ms results p r p' :
  process_steps ms results p = (Ok r, p') →
  ∃ steps, r.(pr_steps) = results ++ steps ∧ run_report ms steps r.(pr_accepted) r.(pr_rejection_reason)
    ∧ r.(pr_metadata) = p'.(po_ctx).(mx_metadata).
Proof.
  revert results p. induction ms as [|m ms IH]; intros results p Hrun; cbn [process_steps] in Hrun.
  - ok_inv Hrun. injection Hrun as <- <-. exists []. cbn. rewrite app_nil_r. split_and!; [done|by constructor|done].
  - apply bind_ok in Hrun as (start & p1 & _ & Hrun). apply bind_ok in Hrun as (action & p2 & _ & Hrun).
    apply bind_ok in Hrun as (t & p3 & _ & Hrun). apply bind_ok in Hrun as ([] & p4 & _ & Hrun).
    set (st := {| sr_middleware_name := mw_name m |}) in Hrun.
    destruct action as [| |reason|ms' reason].
    + apply IH in Hrun as (steps & -> & Hrep & Hmd). exists (st :: steps).
      rewrite <- app_assoc. split_and!; [done| |done]. by eapply report_continue.
    + ok_inv Hrun. injection Hrun as <- <-. exists [st]. split_and!; [done| |done]. by eapply (report_stop _ m ms st).
    + ok_inv Hrun. injection Hrun as <- <-. exists [st]. split_and!; [done| |done]. by eapply (report_stop _ m ms st).
    + ok_inv Hrun. injection Hrun as <- <-. exists [st]. split_and!; [done| |done]. by eapply (report_stop _ m ms st).
Qed.
End runs.

(** ** Sliding windows *)
Lemma length_filter_impl {A} (P Q : A → Prop) `{!∀ x, Decision (P x), !∀ x, Decision (Q x)} (l : list A) :
  (∀ x, P x → Q x) → (length (filter P l) <= length (filter Q l))%nat.
Proof.
  intros HPQ. induction l as [|x l IH]; [done|]. rewrite !filter_cons.
  destruct (decide (P x)) as [HP|], (decide (Q x)) as [|HQ]; cbn; try lia.
  by destruct HQ; apply HPQ.
Qed.

Lemma filter_filter_impl {A} (P Q : A → Prop) `{!∀ x, Decision (P x), !∀ x, Decision (Q x)} (l : list A) :
  (∀ x, P x → Q x) → filter P (filter Q l) = filter P l.
Proof.
  intros HPQ. induction l as [|x l IH]; [done|]. rewrite !filter_cons.
  destruct (decide (Q x)) as [HQ|HQ], (decide (P x)) as [HP|HP]; rewrite ?filter_cons;
    try destruct (decide (P x)); try done; try by rewrite IH.
  by destruct HQ; apply HPQ.
Qed.

Section window.
Context `{InstantClock}.

(** A history of a limiter: the time reached, the times and verdicts of its requests
    (oldest first) and its state.  The clock does not go back. *)
Inductive requests (w0 : SlidingWindowLimiter)
  : Z → list (Z * bool) → SlidingWindowLimiter → Prop :=
| requests_new t : requests w0 t [] w0
| requests_acquire t h w1 t' granted w2 :
    requests w0 t h w1 → (t <= t')%Z →
    sliding_try_acquire (E:=MiddlewareError) t' w1 = (Ok granted, w2) →
    requests w0 t' (h ++ [(t', granted)]) w2
| requests_look t h w1 t' c w2 :
    requests w0 t h w1 → (t <= t')%Z →
    current_count (E:=MiddlewareError) t' w1 = (Ok c, w2) →
    requests w0 t' h w2.

(** The times of the granted requests, and those inside a window that ends at [u]. *)
Definition grants (h : list (Z * bool)) : list Z := fst <$> filter (λ x, x.2 = true) h.
Definition in_window (window : N) (u : Z) (l : list Z) : list Z :=
  filter (λ x, (u - Z.of_N window < x)%Z ∧ (x <= u)%Z) l.

Lemma grants_snoc h t g : grants (h ++ [(t, g)]) = grants h ++ if g then [t] else [].
Proof. unfold grants. rewrite filter_app, fmap_app. by destruct g. Qed.

Lemma prune_ok t w u w' :
  prune (E:=MiddlewareError) t w = (Ok u, w') →
  w' = set_timestamps (filter (λ x, t - Z.of_N w.(sw_window) < x)%Z w.(sw_timestamps)) w.
Proof.
  unfold prune. rewrite bind_get. cbv zeta. destruct (instant_representable _); [|done].
  by intros [= _ <-].
Qed.

(** The timestamps kept are, within the window, those of the grants. *)
Lemma requests_kept max window t h w :
  requests (SlidingWindowLimiter_new max window) t h w →
  w.(sw_window) = window ∧ w.(sw_max_requests) = max
  ∧ filter (λ x, t - Z.of_N window < x)%Z w.(sw_timestamps)
    = filter (λ x, t - Z.of_N window < x)%Z (grants h).
Proof.
  induction 1 as [t|t h w1 t' g w2 _ (Hw & Hm & Heq) Ht Hrun|t h w1 t' c w2 _ (Hw & Hm & Heq) Ht Hrun].
  - done.
  - unfold sliding_try_acquire in Hrun. apply bind_ok in Hrun as (u & w1' & Hp & Hrun).
    apply prune_ok in Hp as ->. rewrite bind_get in Hrun. rewrite Hw in *.
    rewrite grants_snoc, filter_app, <- (filter_filter_impl _ (λ x, t - Z.of_N window < x)%Z (grants h)),
      <- Heq, filter_filter_impl by (intros; lia).
    case_bool_decide; ok_inv Hrun.
    + split_and!; [done..|]. by rewrite filter_filter_impl, app_nil_r.
    + split_and!; [done..|]. by rewrite filter_app, filter_filter_impl.
  - unfold current_count in Hrun. apply bind_ok in Hrun as (u & w1' & Hp & Hrun).
    apply prune_ok in Hp as ->. ok_inv Hrun. rewrite Hw in *. split_and!; [done..|].
    cbn. rewrite filter_filter_impl by done.
    rewrite <- (filter_filter_impl _ (λ x, t - Z.of_N window < x)%Z (sw_timestamps w1)), Heq,
      filter_filter_impl by (intros; lia). done.
Qed.

Lemma acquire_granted max window t h w t' w2 :
  requests (SlidingWindowLimiter_new max window) t h w → (t <= t')%Z →
  sliding_try_acquire (E:=MiddlewareError) t' w = (Ok true, w2) →
  (N.of_nat (length (filter (λ x, t' - Z.of_N window < x)%Z (grants h))) < max).
Proof.
  intros Hr Ht Hrun. apply requests_kept in Hr as (Hw & Hm & Heq).
  unfold sliding_try_acquire in Hrun. apply bind_ok in Hrun as (u & w1' & Hp & Hrun).
  apply prune_ok in Hp as ->. rewrite bind_get in Hrun. cbn in Hrun. rewrite Hw in *.
  rewrite <- (filter_filter_impl _ (λ x, t - Z.of_N window < x)%Z (grants h)), <- Heq,
    filter_filter_impl by (intros; lia).
  case_bool_decide; [done|lia].
Qed.

(** A window never holds more grants than the limit. *)
Lemma window_bound max window t h w :
  requests (SlidingWindowLimiter_new max window) t h w →
  ∀ u, N.of_nat (length (in_window window u (grants h))) <= max.
Proof.
  induction 1 as [t|t h w1 t' g w2 Hr IH Ht Hrun|t h w1 t' c w2 _ IH _ _]; intros u; [cbn; lia| |done].
  rewrite grants_snoc. destruct g; [|by rewrite app_nil_r]. unfold in_window. rewrite filter_app.
  rewrite length_app, (filter_cons _ t' []).
  destruct (decide _) as [[Hlo Hhi]|_]; cbn [length]; [|specialize (IH u); unfold in_window in IH; cbn; lia].
  pose proof (acquire_granted _ _ _ _ _ _ _ Hr Ht Hrun) as Hlt.
  pose proof (length_filter_impl (λ x, (u - Z.of_N window < x)%Z ∧ (x <= u)%Z)
    (λ x, t' - Z.of_N window < x)%Z (grants h) ltac:(cbn; intros; lia)). cbn. lia.
Qed.
End window.

(** ** What the chain and the window promise *)
Lemma chain_add_all config ms :
  let c := foldl chain_add (MiddlewareChain_new config) ms in
  c.(ch_middlewares) ≡ₚ ms ∧ StronglySorted (λ a b, mw_priority a <= mw_priority b) c.(ch_middlewares)
  ∧ ∀ k, filter (λ m, mw_priority m = k) c.(ch_middlewares) = filter (λ m, mw_priority m = k) ms.
Proof.
  induction ms as [|m ms (IHp & _ & IHk)] using rev_ind; cbv zeta; [repeat constructor|].
  rewrite foldl_app. cbn [foldl chain_add ch_middlewares]. split_and!.
  - by rewrite sort_by_key_perm, IHp.
  - apply sort_by_key_sorted.
  - intros k. by rewrite sort_by_key_stable, !filter_app, IHk.
Qed.

(** A chain holds the middleware that were added, ordered by priority and, within
    one priority, in the order they were added; a finished run reports one step per
    member it ran, in that order: every step but the last said to continue, and the
    result is the one the last step asks for (acceptance when nothing stopped it). *)
Lemma chain_runs_in_order `{InstantClock} config ms tx p r p' :
  let c := foldl chain_add (MiddlewareChain_new config) ms in
  chain_process c tx p = (Ok r, p') →
  c.(ch_middlewares) ≡ₚ ms
  ∧ StronglySorted (λ a b, mw_priority a <= mw_priority b) c.(ch_middlewares)
  ∧ (∀ k, filter (λ m, mw_priority m = k) c.(ch_middlewares) = filter (λ m, mw_priority m = k) ms)
  ∧ run_report c.(ch_middlewares) r.(pr_steps) r.(pr_accepted) r.(pr_rejection_reason).
Proof.
  intros c Hrun. destruct (chain_add_all config ms) as (Hp & Hs & Hk). split_and!; [done..|].
  unfold chain_process in Hrun. apply bind_ok in Hrun as ([] & p1 & _ & Hrun).
  apply process_steps_report in Hrun as (steps & -> & Hrep & _). exact Hrep.
Qed.

(** A sliding window never admits too much: whatever requests and readings a
    limiter has seen, on a clock that does not go back, no window of its length contains
    more granted requests than its limit. *)
Lemma window_never_exceeded `{InstantClock} max window t h w u :
  requests (SlidingWindowLimiter_new max window) t h w →
  N.of_nat (length (in_window window u (grants h))) <= max.
Proof. intros Hr. by apply (window_bound max window t h w). Qed.

(** ** Environments for concrete runs *)

(** A clock that stands still, no regular expression that matches. *)
Definition still_clock : InstantClock := {| instant := λ _, 0%Z; instant_representable := λ _, true |}.
Definition quiet_scan : ScanEnv :=
  {| regex_is_match := λ _ _, false; drain_order := id; unix_now := λ _, Some 1700000000 |}.

Definition pool0 : Pool := {|
  po_ctx := MiddlewareContext_new [] MiddlewareConfig_default;
  po_limits := RateLimitMiddleware_new 0 0 0; po_reads := 0%nat |}.

Definition says (name : string) (priority : N) (a : MiddlewareAction) : Middleware :=
  {| mw_name := name; mw_priority := priority; mw_process := mret a |}.

Lemma chain_runs_in_order_witness :
  ∃ steps, run_report
    [says "first" 10 Continue; says "second" 20 Accept; says "third" 30 (Reject "no")] steps true None.
Proof.
  edestruct (chain_runs_in_order (H := still_clock) MiddlewareConfig_default
    [says "third" 30 (Reject "no"); says "first" 10 Continue; says "second" 20 Accept] [] pool0)
    as (_ & _ & _ & Hrep); [vm_compute; reflexivity|].
  eexists. exact Hrep.
Defined.

Lemma window_never_exceeded_witness :
  N.of_nat (length (in_window 10 105 (grants [(100, true); (101, true); (102, false); (111, true)]%Z))) <= 2.
Proof.
  pose (st ts := set_timestamps ts (SlidingWindowLimiter_new 2 10)).
  apply (window_never_exceeded (H := still_clock) 2 10 111 _ (st [111]%Z)).
  apply (requests_acquire _ 102 [(100, true); (101, true); (102, false)]%Z (st [100; 101]%Z) 111 true);
    [|lia|vm_compute; reflexivity].
  apply (requests_acquire _ 101 [(100, true); (101, true)]%Z (st [100; 101]%Z) 102 false);
    [|lia|vm_compute; reflexivity].
  apply (requests_acquire _ 100 [(100, true)]%Z (st [100]%Z) 101 true); [|lia|vm_compute; reflexivity].
  apply (requests_acquire _ 0 [] (st []) 100 true); [constructor|lia|vm_compute; reflexivity].
Defined.
