(* ===== verification/MempoolAdmission.v ===== *)
(** * Admission to the mempool

    What an accepted transaction has passed: the envelope the signature middleware
    verified is the one whose fields the later checks read, and the chain accepts only
    what its four members let through. *)
From S2P Require Import Samples Prelude SysTypes F64 Precompile ConsensusTypes CoreHash Hybrid HybridSpec CoreTx Mempool MempoolChecks MempoolSpec CoreSamples.
From stdpp Require Import base gmap list strings pretty.
From Stdlib Require Import ZArith Lia SpecFloat.
#[local] Open Scope N_scope.
#[local] Arguments to_le_bytes : simpl never.
#[local] Arguments of_le_bytes : simpl never.

(** ** Reading *)
Lemma slice_ok {E} a b bs x :
  slice (E:=E) a b bs = Ok x ↔ a <= b ∧ b <= blen bs ∧ x = take (N.to_nat (b - a)) (rest bs a).
Proof.
  unfold slice. destruct (decide (a <= b)), (decide (b <= blen bs));
    rewrite ?bool_decide_true, ?bool_decide_false by lia; cbn; naive_solver.
Qed.

Lemma slice_any {E F} a b bs x : slice (E:=E) a b bs = Ok x → slice (E:=F) a b bs = Ok x.
Proof. by rewrite !slice_ok. Qed.

Lemma slice_of_slice {E F} a b c d bs x y :
  slice (E:=E) a b bs = Ok x → slice (E:=F) c d x = Ok y → slice (E:=F) (a + c) (a + d) bs = Ok y.
Proof.
  rewrite !slice_ok. intros (? & ? & ->) (? & Hd & ->).
  unfold blen in *. rewrite length_take, length_drop in Hd. split_and!; [lia..|].
  rewrite skipn_firstn_comm, take_take, drop_drop. f_equal; [|f_equal]; lia.
Qed.

Lemma slice_app {E} a b bs tail x : slice (E:=E) a b bs = Ok x → slice (E:=E) a b (bs ++ tail) = Ok x.
Proof.
  rewrite !slice_ok. intros (? & ? & ->). rewrite blen_app. split_and!; [lia..|].
  unfold blen in *. rewrite drop_app_le, take_app_le by (rewrite ?length_drop; lia). done.
Qed.

Section reading.
Context {E F : Type}.
Lemma le_len_ok a bs n : le_len (E:=E) a bs = Ok n ↔ ∃ w, slice (E:=E) a (a + 4) bs = Ok w ∧ n = of_le_bytes w.
Proof. unfold le_len. rewrite obind_ok. naive_solver. Qed.
Lemma le_u64_ok a bs n : le_u64 (E:=E) a bs = Ok n ↔ ∃ w, slice (E:=E) a (a + 8) bs = Ok w ∧ n = of_le_bytes w.
Proof. unfold le_u64. rewrite obind_ok. naive_solver. Qed.
End reading.

Lemma le_len_any {E F} a bs n : le_len (E:=E) a bs = Ok n → le_len (E:=F) a bs = Ok n.
Proof. rewrite !le_len_ok. intros (w & Hw & ->). eauto using slice_any. Qed.
Lemma le_len_app {E} a bs tail n : le_len (E:=E) a bs = Ok n → le_len (E:=E) a (bs ++ tail) = Ok n.
Proof. rewrite !le_len_ok. intros (w & Hw & ->). eauto using slice_app. Qed.
Lemma le_u64_of_slice {E F} a b c bs x n :
  slice (E:=E) a b bs = Ok x → le_u64 (E:=F) c x = Ok n → le_u64 (E:=F) (a + c) bs = Ok n.
Proof.
  rewrite !le_u64_ok. intros Hx (w & Hw & ->). exists w. split; [|done].
  rewrite <- N.add_assoc. eauto using slice_of_slice.
Qed.
Lemma le_u64_some {E} a bs : a + 8 <= blen bs → ∃ n, le_u64 (E:=E) a bs = Ok n.
Proof.
  intros. setoid_rewrite le_u64_ok. eexists _, _. split; [apply slice_ok; split_and!; [lia..|done]|done].
Qed.
Lemma slice_some {E} a b bs : a <= b → b <= blen bs → ∃ x, slice (E:=E) a b bs = Ok x.
Proof. intros. eexists. apply slice_ok. done. Qed.
Lemma byte_at_some {E} i bs : i < blen bs → ∃ b, byte_at (E:=E) i bs = Ok b.
Proof.
  intros. unfold byte_at. destruct (lookup_lt_is_Some_2 bs (N.to_nat i)) as [b ->];
    [unfold blen in *; lia|eauto].
Qed.

Lemma le_u64_any {E F} a bs n : le_u64 (E:=E) a bs = Ok n → le_u64 (E:=F) a bs = Ok n.
Proof. rewrite !le_u64_ok. intros (w & Hw & ->). eauto using slice_any. Qed.
Lemma byte_at_of_slice {E F G} a b i bs x v :
  slice (E:=E) a b bs = Ok x → byte_at (E:=F) i x = Ok v → byte_at (E:=G) (a + i) bs = Ok v.
Proof.
  rewrite slice_ok. intros (? & ? & ->). unfold byte_at.
  destruct (_ !! N.to_nat i) eqn:Hl; [|done]. intros [= ->].
  apply lookup_take_Some in Hl as [Hl _]. rewrite lookup_drop in Hl.
  replace (N.to_nat (a + i)) with (N.to_nat a + N.to_nat i)%nat by lia. by rewrite Hl.
Qed.

Lemma slice_octets {E} a b bs x : octets bs → slice (E:=E) a b bs = Ok x → octets x.
Proof. intros Ho. rewrite slice_ok. intros (_ & _ & ->). by apply Forall_take, Forall_drop. Qed.
Lemma le_u64_bound {E} a bs n : octets bs → le_u64 (E:=E) a bs = Ok n → n <= U64_MAX.
Proof.
  intros Ho. rewrite le_u64_ok. intros (w & Hw & ->). pose proof (slice_octets _ _ _ _ Ho Hw) as How.
  apply slice_rest in Hw as [_ Hlen]. apply of_le_bytes_bound in How. rewrite Hlen in How.
  replace (a + 8 - a) with 8 in How by lia. cbn in How |- *. lia.
Qed.

(** ** What a verified envelope contains *)
Section envelope.
Context `{CoreLib, ScanEnv}.

Record verified_body (bs : bytes) (threat : N) (clock : option N) (body : bytes)
    (signer : HybridPublicKey) (signature : HybridSignature) : Prop := {
  vb_body : slice (E:=string) 4 (4 + blen body) bs = Ok body;
  vb_length : 55 <= blen body;
  vb_prefix : le_len (E:=string) 0 bs = Ok (blen body);
  vb_room : 4 + blen body + 4 <= blen bs;
  vb_sender : slice (E:=string) 2 23 body = Ok (Address_serialize (Address_from_public_key signer));
  vb_verified : ∃ chain_id, le_u64 (E:=string) 47 body = Ok chain_id
    ∧ verify signature (transaction_hash body) signer (verifier_config chain_id threat) clock = Ok tt;
}.

Lemma describe_ok {A} prefix (o : outcome CryptoError A) a : describe prefix o = Ok a ↔ o = Ok a.
Proof. destruct o; cbn; naive_solver. Qed.

Lemma verify_signature_inv bs threat clock :
  verify_signature bs threat clock = Ok true →
  ∃ body signer signature, verified_body bs threat clock body signer signature.
Proof.
  intros Hok. unfold verify_signature in Hok. cbv zeta in Hok.
  apply refuse_ok in Hok as [_ Hok]. apply obind_ok in Hok as (n & Hn & Hok).
  apply refuse_ok in Hok as [Hroom Hok]. apply obind_ok in Hok as (sl & _ & Hok).
  apply refuse_ok in Hok as [_ Hok]. apply obind_ok in Hok as (kl & _ & Hok).
  apply refuse_ok in Hok as [_ Hok]. apply obind_ok in Hok as (body & Hbody & Hok).
  apply obind_ok in Hok as (sb & _ & Hok). apply obind_ok in Hok as (kb & _ & Hok).
  apply refuse_ok in Hok as [_ Hok].
  apply obind_ok in Hok as (signer & _ & Hok). apply obind_ok in Hok as (signature & _ & Hok).
  apply obind_ok in Hok as (sender & Hsender & Hok).
  case_bool_decide as Haddr; [|done]. cbn [negb] in Hok. subst sender.
  apply refuse_ok in Hok as [Hlen Hok]. apply obind_ok in Hok as (chain & Hchain & Hok).
  apply bind_unit in Hok as [Hok _]. bool_facts.
  apply slice_rest in Hbody as Hb. destruct Hb as [_ Hb]. replace (4 + n - 4) with n in Hb by lia. subst n.
  exists body, signer, signature. split; eauto; lia.
Qed.

(** The fields the parser hands on are those of the verified body. *)
Record fields_of (bs body : bytes) (signer : HybridPublicKey) (p : ParsedTransaction) : Prop := {
  fo_sender : p.(pt_sender) = Address_serialize (Address_from_public_key signer);
  fo_type : byte_at (E:=string) 1 body = Ok p.(pt_tx_type);
  fo_nonce : le_u64 (E:=string) 23 body = Ok p.(pt_nonce);
  fo_gas_price : le_u64 (E:=string) 31 body = Ok p.(pt_gas_price);
  fo_gas_limit : le_u64 (E:=string) 39 body = Ok p.(pt_gas_limit);
  fo_chain_id : le_u64 (E:=string) 47 body = Ok p.(pt_chain_id);
  fo_size : p.(pt_size) = blen bs;
  fo_id : p.(pt_tx_id) = compute_tx_hash bs;
}.

Lemma parse_verified {E} bs threat clock body signer signature :
  100 <= blen bs → verified_body bs threat clock body signer signature →
  ∃ p, parse_transaction (E:=E) bs = Ok (Some p) ∧ fields_of bs body signer p.
Proof.
  intros Hbs [Hbody Hlen Hpre Hroom Hsender _].
  destruct (byte_at_some (E:=string) 1 body) as [ty Hty]; [lia|].
  destruct (le_u64_some (E:=string) 23 body) as [no Hno]; [lia|].
  destruct (le_u64_some (E:=string) 31 body) as [gp Hgp]; [lia|].
  destruct (le_u64_some (E:=string) 39 body) as [gl Hgl]; [lia|].
  destruct (le_u64_some (E:=string) 47 body) as [ch Hch]; [lia|].
  unfold parse_transaction. rewrite bool_decide_false, bool_decide_true by lia.
  rewrite (le_len_any _ _ _ Hpre), obind_ret, !(bool_decide_true (_ < _)) by lia.
  rewrite obind_ret, bool_decide_false by (cbn; lia). cbn [andb].
  rewrite (byte_at_of_slice 4 _ 1 bs body ty Hbody Hty), obind_ret.
  rewrite (slice_any _ _ _ _ (slice_of_slice 4 _ 2 23 bs body _ Hbody Hsender)), obind_ret.
  rewrite (le_u64_any _ _ _ (le_u64_of_slice 4 _ 23 bs body no Hbody Hno)), obind_ret.
  rewrite (le_u64_any _ _ _ (le_u64_of_slice 4 _ 31 bs body gp Hbody Hgp)), obind_ret.
  rewrite (le_u64_any _ _ _ (le_u64_of_slice 4 _ 39 bs body gl Hbody Hgl)), obind_ret.
  rewrite (le_u64_any _ _ _ (le_u64_of_slice 4 _ 47 bs body ch Hbody Hch)), obind_ret.
  eexists. split; [done|]. by split.
Qed.

Lemma parse_length {E} bs p : parse_transaction (E:=E) bs = Ok (Some p) → 100 <= blen bs.
Proof. unfold parse_transaction. case_bool_decide; [done|lia]. Qed.

(** Bytes behind the envelope change neither the verdict nor the fields. *)
Lemma verify_signature_tail bs tail threat clock :
  verify_signature bs threat clock = Ok true → verify_signature (bs ++ tail) threat clock = Ok true.
Proof.
  intros Hok. unfold verify_signature in *. cbv zeta in *.
  apply refuse_ok in Hok as [H1 Hok]. apply obind_ok in Hok as (n & Hn & Hok).
  apply refuse_ok in Hok as [H2 Hok]. apply obind_ok in Hok as (sl & Hsl & Hok).
  apply refuse_ok in Hok as [H3 Hok]. apply obind_ok in Hok as (kl & Hkl & Hok).
  apply refuse_ok in Hok as [H4 Hok]. apply obind_ok in Hok as (body & Hbody & Hok).
  apply obind_ok in Hok as (sb & Hsb & Hok). apply obind_ok in Hok as (kb & Hkb & Hok).
  bool_facts. rewrite (le_len_app _ _ _ _ Hn), obind_ret.
  rewrite (le_len_app _ _ _ _ Hsl), obind_ret, (le_len_app _ _ _ _ Hkl), obind_ret.
  rewrite (slice_app _ _ _ _ _ Hbody), obind_ret, (slice_app _ _ _ _ _ Hsb), obind_ret,
    (slice_app _ _ _ _ _ Hkb), obind_ret.
  rewrite !refuse_false by (apply bool_decide_false; rewrite blen_app; lia). exact Hok.
Qed.
End envelope.

(** ** The members of the chain *)
Definition same_tx (p p' : Pool) : Prop :=
  p'.(po_ctx).(mx_tx_bytes) = p.(po_ctx).(mx_tx_bytes)
  ∧ p'.(po_ctx).(mx_parsed_tx) = p.(po_ctx).(mx_parsed_tx)
  ∧ p'.(po_ctx).(mx_config) = p.(po_ctx).(mx_config).

#[export] Instance same_tx_preorder : PreOrder same_tx.
Proof. split; unfold same_tx; repeat intro; [done|]. destruct_and!. split_and!; congruence. Qed.

(** The values a call can return. *)
Definition answers {E S A} (P : A → Prop) (m : M E S A) : Prop := ∀ s a s', m s = (Ok a, s') → P a.

Lemma answers_ret {E S A} (P : A → Prop) a : P a → answers P (mret a : M E S A).
Proof. by intros HP s ? s' [= <- _]. Qed.
Lemma answers_bind {E S A B} (P : B → Prop) (m : M E S A) (k : A → M E S B) :
  (∀ a, answers P (k a)) → answers P (m ≫= k).
Proof. intros Hk s b s' Hb. apply bind_ok in Hb as (a & s1 & _ & Hb). by eapply Hk. Qed.
Lemma answers_panic {E S A} (P : A → Prop) : answers (E:=E) (S:=S) P (lift Panic).
Proof. by intros s a s' ?. Qed.
Lemma answers_blocked {E S A} (P : A → Prop) : answers (E:=E) (S:=S) P (lift Blocked).
Proof. by intros s a s' ?. Qed.

Ltac answers_go :=
  repeat first
    [ apply answers_ret; done
    | apply answers_panic
    | apply answers_blocked
    | apply answers_bind; intros ?
    | progress case_match ].

Section members.
Context `{Build, InstantClock, CoreLib, ScanEnv}.

Lemma now_same : stable same_tx now.
Proof. done. Qed.
Lemma tag_same k v : stable same_tx (tag k v).
Proof. done. Qed.
Lemma limits_same f : stable same_tx (modify (E:=MiddlewareError) (set_limits f)).
Proof. done. Qed.
Lemma warning_same w : stable same_tx (modify (E:=MiddlewareError) (set_ctx (push_warning w))).
Proof. done. Qed.
Lemma results_same rs : stable same_tx (modify (E:=MiddlewareError) (set_ctx (extend_results rs))).
Proof. done. Qed.
Lemma timestamp_same n t : stable same_tx (modify (E:=MiddlewareError) (set_ctx (push_timestamp n t))).
Proof. done. Qed.
#[local] Hint Resolve now_same tag_same limits_same warning_same results_same timestamp_same : stable.

Lemma retain_same {K} (l : list (K * RateLimiter)) : stable same_tx (retain_fresh l).
Proof. induction l as [|[k x] l IH]; cbn [retain_fresh]; stable_body. Qed.
#[local] Hint Resolve retain_same : stable.

Lemma cleanup_same : stable same_tx cleanup_if_needed.
Proof. unfold cleanup_if_needed. stable_body. apply stable_when; [apply _|]. stable_body. Qed.
Lemma acquire_same l : stable same_tx (acquire l).
Proof. unfold acquire. stable_body. Qed.
Lemma limiter_same o a b : stable same_tx (limiter_or_new o a b).
Proof. unfold limiter_or_new. stable_body. Qed.
#[local] Hint Resolve cleanup_same acquire_same limiter_same : stable.

Lemma rate_limit_same : stable same_tx rate_limit_process.
Proof.
  unfold rate_limit_process, check_global, get_address_limiter, get_type_limiter. stable_body.
Qed.

Lemma fee_same f : stable same_tx (fee_process f).
Proof. unfold fee_process. stable_body. Qed.

Lemma compliance_same : stable same_tx compliance_process.
Proof. unfold compliance_process, check_pii, run_validators. stable_body. Qed.

Lemma signature_no_accept : answers (λ a, a ≠ Accept) signature_process.
Proof. unfold signature_process. answers_go. Qed.
Lemma compliance_no_accept : answers (λ a, a ≠ Accept) compliance_process.
Proof. unfold compliance_process, run_validators. answers_go. Qed.
Lemma rate_limit_no_accept : answers (λ a, a ≠ Accept) rate_limit_process.
Proof. unfold rate_limit_process. answers_go. Qed.
Lemma fee_no_accept f : answers (λ a, a ≠ Accept) (fee_process f).
Proof. unfold fee_process. answers_go. Qed.

(** The tags of the signature middleware, and those of the scan for personal data. *)
Definition signature_tags (config : MiddlewareConfig) : list (string * string) :=
  [("signature_verified", "true"); ("signature_type", "hybrid");
   ("quantum_threat_level", pretty config.(mc_quantum_threat_level))]%string.

Definition pii_tags (config : MiddlewareConfig) (tx : bytes) : list (string * string) :=
  if negb config.(mc_enable_pii_scanning) || bool_decide (pii_scan tx = []) then []
  else [("pii_detected", "true"); ("pii_types", String.concat "," (pii_scan tx))]%string.

(** What the signature middleware lets through. *)
Record authentic (p p' : Pool) (parsed : ParsedTransaction) (body : bytes)
    (signer : HybridPublicKey) (signature : HybridSignature) : Prop := {
  au_size : blen p.(po_ctx).(mx_tx_bytes) <= p.(po_ctx).(mx_config).(mc_max_tx_size);
  au_body : verified_body p.(po_ctx).(mx_tx_bytes) p.(po_ctx).(mx_config).(mc_quantum_threat_level)
              (unix_now p.(po_reads)) body signer signature;
  au_fields : fields_of p.(po_ctx).(mx_tx_bytes) body signer parsed;
  au_flag : parsed.(pt_signature_valid) = true;
  au_blocked : parsed.(pt_sender) ∉ p.(po_ctx).(mx_config).(mc_blocked_addresses);
  au_bytes : p'.(po_ctx).(mx_tx_bytes) = p.(po_ctx).(mx_tx_bytes);
  au_config : p'.(po_ctx).(mx_config) = p.(po_ctx).(mx_config);
  au_parsed : p'.(po_ctx).(mx_parsed_tx) = Some parsed;
  au_tags : tags p'.(po_ctx) = tags p.(po_ctx) ++ signature_tags p.(po_ctx).(mx_config);
}.

Lemma signature_continue p p' :
  signature_process p = (Ok Continue, p') →
  ∃ parsed body signer signature, authentic p p' parsed body signer signature.
Proof.
  unfold signature_process. rewrite bind_get. cbv zeta. case_bool_decide as Hsize; [done|].
  intros Hrun. apply bind_ok in Hrun as (o & p1 & Hparse & Hrun). apply lift_ok in Hparse as [Hparse ->].
  destruct o as [parsed|]; [|done]. destruct (existsb _ _) eqn:Hbl; [done|].
  destruct (verify_signature _ _ _) as [[]| | |] eqn:Hv; [|done..].
  apply verify_signature_inv in Hv as (body & signer & signature & Hvb).
  pose proof (parse_length _ _ Hparse) as Hlen.
  destruct (parse_verified (E:=MiddlewareError) _ _ _ _ _ _ Hlen Hvb) as (parsed' & Hp' & Hf).
  rewrite Hparse in Hp'. injection Hp' as <-. unfold tag in Hrun. ok_inv Hrun. injection Hrun as <-.
  exists (set_signature_valid parsed), body, signer, signature.
  split; try done; [lia|by destruct Hf| |by unfold tags; cbn; rewrite <- !app_assoc].
  intros Hin. apply not_true_iff_false in Hbl. apply Hbl, existsb_exists.
  exists (pt_sender parsed). split; [by apply list_elem_of_In|by apply bool_decide_eq_true].
Qed.

(** What the fee middleware computes, in the range where nothing wraps. *)
Lemma base_gas_bound ty : 21000 <= get_base_gas FeeMiddleware_new ty <= 500000.
Proof.
  unfold get_base_gas.
  assert (map_Forall (λ _ g, 21000 <= g <= 500000) (fm_base_gas FeeMiddleware_new)) as Hall
    by (apply (bool_decide_unpack _); vm_compute; exact I).
  destruct (_ !! ty) as [g|] eqn:Hg; [by apply Hall in Hg|cbn; lia].
Qed.

Definition fee_minimum (ty size : N) : N := get_base_gas FeeMiddleware_new ty + 16 * size.

Lemma estimate_gas_ok {E} ty size :
  size <= U32_MAX → estimate_gas (E:=E) FeeMiddleware_new ty size = Ok (fee_minimum ty size).
Proof.
  intros Hs. pose proof (base_gas_bound ty). unfold estimate_gas, fee_minimum. cbv zeta.
  rewrite u_mul_ok, obind_ret, u_add_ok by lia. f_equal. lia.
Qed.

Lemma calculate_min_fee_ok {E} ty size :
  size <= U32_MAX → calculate_min_fee (E:=E) FeeMiddleware_new ty size = Ok (fee_minimum ty size).
Proof.
  intros Hs. pose proof (base_gas_bound ty). unfold calculate_min_fee, fee_minimum. cbv zeta.
  rewrite u_mul_ok, obind_ret, u_add_ok, obind_ret by lia. cbn [fm_min_gas_price FeeMiddleware_new].
  rewrite u_mul_ok by lia. f_equal. lia.
Qed.

Definition fee_acceptable (config : MiddlewareConfig) (t : ParsedTransaction) : Prop :=
  N.max config.(mc_min_gas_price) 1 <= t.(pt_gas_price)
  ∧ get_base_gas FeeMiddleware_new t.(pt_tx_type) <= t.(pt_gas_limit) <= 10000000
  ∧ fee_minimum t.(pt_tx_type) t.(pt_size) <= t.(pt_gas_price) * t.(pt_gas_limit).

Lemma total_fee_ok {E} price limit :
  price <= U64_MAX → limit <= 10000000 → u_mul (E:=E) U128_MAX price limit = Ok (price * limit).
Proof. intros. apply u_mul_ok. nia. Qed.

Lemma fee_continue p p' parsed :
  p.(po_ctx).(mx_parsed_tx) = Some parsed →
  parsed.(pt_size) <= U32_MAX → parsed.(pt_gas_price) <= U64_MAX →
  fee_process FeeMiddleware_new p = (Ok Continue, p') →
  fee_acceptable p.(po_ctx).(mx_config) parsed.
Proof.
  intros Hp Hs Hgp. unfold fee_process. rewrite bind_get, Hp. cbv zeta.
  change (fm_min_gas_price FeeMiddleware_new) with 1. change (fm_max_gas_limit FeeMiddleware_new) with 10000000.
  case_bool_decide; [done|]. case_bool_decide; [done|]. case_bool_decide; [done|].
  rewrite estimate_gas_ok by done. rewrite bind_lift_ok.
  rewrite total_fee_ok, calculate_min_fee_ok by (done || lia).
  intros Hrun. apply bind_ok in Hrun as ([] & p1 & _ & Hrun). rewrite !bind_lift_ok in Hrun.
  case_bool_decide; [done|]. unfold fee_acceptable. lia.
Qed.

Lemma when_panics {A} b f (k : MW A) p :
  (∀ p1, (k p1).1 = Panic) → ((when b (modify f) ;; k) p).1 = Panic.
Proof. intros Hk. destruct b; apply Hk. Qed.

(** In a build that checks overflow, a price above [u64::MAX / 100] stops the thread. *)
Lemma fee_panics p parsed :
  overflow_checks = true → p.(po_ctx).(mx_parsed_tx) = Some parsed →
  0 < parsed.(pt_size) <= U32_MAX → U64_MAX < parsed.(pt_gas_price) * 100 →
  parsed.(pt_gas_price) <= U64_MAX → fee_acceptable p.(po_ctx).(mx_config) parsed →
  (fee_process FeeMiddleware_new p).1 = Panic.
Proof.
  intros Hov Hp Hs Hgp Hmax (Hf1 & Hf2 & Hf3). unfold fee_process. rewrite bind_get, Hp. cbv zeta.
  change (fm_min_gas_price FeeMiddleware_new) with 1. change (fm_max_gas_limit FeeMiddleware_new) with 10000000.
  rewrite !bool_decide_false by lia.
  rewrite estimate_gas_ok by lia. rewrite bind_lift_ok.
  rewrite total_fee_ok, calculate_min_fee_ok by (done || lia).
  unfold calculate_priority_score. rewrite (bool_decide_true (0 < _)) by lia.
  assert (u_mul (E:=MiddlewareError) U64_MAX parsed.(pt_gas_price) 100 = Panic) as ->.
  { unfold u_mul, overflow. by rewrite bool_decide_false, Hov by lia. }
  apply when_panics. intros p1. rewrite !bind_lift_ok. by rewrite bool_decide_false by lia.
Qed.
(** What the compliance middleware lets through: every validator asked is content. *)
Definition job_metadata (ctx : MiddlewareContext) : ComplianceMetadata :=
  default ComplianceMetadata_default (extract_compliance_metadata ctx).

Definition content (ctx : MiddlewareContext) (md : ComplianceMetadata) (f : string) : Prop :=
  ∃ v, find_validator f = Some v ∧ (v.(fv_validate) ctx md).(ck_passed) = true.

Lemma run_validators_continue md p p' :
  run_validators md p = (Ok Continue, p') →
  Forall (λ r, r.(ck_passed) = true) (validate_frameworks p.(po_ctx) md).
Proof.
  unfold run_validators. rewrite bind_get. cbv zeta. intros Hrun.
  apply bind_ok in Hrun as ([] & p1 & _ & Hrun).
  destruct (filter _ _) as [|r rs] eqn:Hf; [|done].
  apply Forall_forall. intros r Hr. destruct (ck_passed r) eqn:Hp; [done|].
  assert (r ∈ filter (λ r, ck_passed r = false) (validate_frameworks (po_ctx p) md)) as Hin
    by by apply list_elem_of_filter.
  rewrite Hf in Hin. by apply not_elem_of_nil in Hin.
Qed.

Lemma validated_content ctx md f :
  Forall (λ r, r.(ck_passed) = true) (validate_frameworks ctx md) →
  f ∈ md.(md_required_frameworks) ∨ f ∈ ctx.(mx_config).(mc_enabled_frameworks) ∧ is_Some (find_validator f) →
  content ctx md f.
Proof.
  unfold validate_frameworks. rewrite Forall_app, Forall_fmap, Forall_concat, Forall_fmap.
  intros [Hreq Hen] Hf. rewrite Forall_forall in Hreq, Hen.
  assert (f ∈ md_required_frameworks md → content ctx md f) as Hr.
  { intros Hin. apply Hreq in Hin. unfold content. cbn in Hin. unfold check_required in Hin.
    destruct (find_validator f) as [v|] eqn:Hv; [by eauto|done]. }
  destruct Hf as [Hin|[Hin [v Hv]]]; [by apply Hr|].
  destruct (decide (f ∈ md_required_frameworks md)) as [|Hn]; [by apply Hr|].
  apply Hen in Hin. cbn in Hin. unfold check_enabled in Hin. rewrite bool_decide_false, Hv in Hin by done.
  apply Forall_cons in Hin as [Hin _]. exists v. split; [exact Hv|exact Hin].
Qed.

(** A validator reads nothing of the context but its tags and whether the signature of
    the parsed transaction was found valid. *)
Lemma content_tags c c' md f :
  tags c = tags c' → mx_parsed_tx c = mx_parsed_tx c' → content c md f → content c' md f.
Proof.
  intros Ht Hp (v & Hv & Hpass). exists v. split; [done|]. rewrite <- Hpass. f_equal.
  apply List.find_some in Hv as [Hin _].
  repeat destruct Hin as [<-|Hin]; try done;
    cbn [fv_validate GdprValidator HipaaValidator PciDssValidator CcpaValidator];
    unfold has_tag, get_tag, signature_missing; by rewrite ?Ht, ?Hp.
Qed.

Lemma check_pii_same : stable same_tx check_pii.
Proof. unfold check_pii. stable_body. Qed.

Lemma check_pii_tags p findings p' :
  check_pii p = (Ok findings, p') →
  tags p'.(po_ctx) = tags p.(po_ctx) ++ pii_tags p.(po_ctx).(mx_config) p.(po_ctx).(mx_tx_bytes).
Proof.
  unfold check_pii, pii_tags, tag. rewrite bind_get. destruct (mc_enable_pii_scanning _); cbn.
  - destruct (pii_scan _) as [|x l] eqn:Hs; intros Hrun; [injection Hrun as _ <-|].
    + by rewrite bool_decide_true, app_nil_r.
    + rewrite bool_decide_false by done. ok_inv Hrun. subst.
      unfold tags. cbn. by rewrite <- app_assoc.
  - intros [= _ <-]. by rewrite app_nil_r.
Qed.

Lemma compliance_continue p p' parsed :
  p.(po_ctx).(mx_parsed_tx) = Some parsed → needs_compliance parsed.(pt_tx_type) = true →
  compliance_process p = (Ok Continue, p') →
  ∃ q, same_tx p q
    ∧ tags q.(po_ctx) = tags p.(po_ctx) ++ pii_tags p.(po_ctx).(mx_config) p.(po_ctx).(mx_tx_bytes) ∧
    ∀ f, f ∈ (job_metadata p.(po_ctx)).(md_required_frameworks)
         ∨ f ∈ p.(po_ctx).(mx_config).(mc_enabled_frameworks) ∧ is_Some (find_validator f) →
      content q.(po_ctx) (job_metadata p.(po_ctx)) f.
Proof.
  intros Hp Hneed. unfold compliance_process. rewrite bind_get, Hp, Hneed. cbn [negb]. cbv zeta.
  fold (job_metadata (po_ctx p)). intros Hrun. apply bind_ok in Hrun as (findings & p1 & Hpii & Hrun).
  assert (same_tx p p1) as Hs1 by (pose proof (check_pii_same p) as Hs; by rewrite Hpii in Hs).
  apply check_pii_tags in Hpii as Ht1.
  assert (∃ q, same_tx p q ∧ tags (po_ctx q) = tags (po_ctx p1)
    ∧ run_validators (job_metadata (po_ctx p)) q = (Ok Continue, p')) as (q & Hs & Ht & Hv).
  { destruct (_ && _); [|by exists p1]. apply bind_ok in Hrun as ([] & p2 & Hw & Hrun).
    destruct (_ && _); [done|]. exists p2. injection Hw as <-. split_and!; [|done..]. by etrans; [exact Hs1|]. }
  exists q. split_and!; [done|congruence|]. intros f Hf. eapply validated_content; [by eapply run_validators_continue|].
  destruct Hs as (_ & _ & Hc). by rewrite Hc.
Qed.

Lemma verdict_passed f issues : (verdict f issues).(ck_passed) = true ↔ issues = [].
Proof. by destruct issues. Qed.

Lemma issue_nil b t : issue b t = [] ↔ b = false.
Proof. by destruct b. Qed.

(** GDPR and HIPAA together leave no country. *)
Lemma gdpr_content ctx md :
  content ctx md "GDPR" →
  md.(md_audit_required) = true ∧ (has_tag "pii_detected" ctx = true → has_tag "consent_verified" ctx = true)
  ∧ ∀ r, md.(md_data_residency) = Some r → r ∈ eu_countries ∨ r ∈ adequacy_countries.
Proof.
  intros (v & Hv & Hpass). change (find_validator "GDPR") with (Some GdprValidator) in Hv.
  injection Hv as <-. revert Hpass. cbn [fv_validate GdprValidator]. rewrite verdict_passed, !app_nil, !issue_nil. intros (Hr & Ha & Hp).
  split_and!.
  - by bool_facts.
  - intros Ht. rewrite Ht, andb_true_l in Hp. by bool_facts.
  - intros r Heq. rewrite Heq, issue_nil in Hr. apply andb_false_iff in Hr as [?|?]; bool_facts; auto.
Qed.

Lemma hipaa_content ctx md :
  content ctx md "HIPAA" →
  md.(md_audit_required) = true ∧ ∀ r, md.(md_data_residency) = Some r → r = "US"%string.
Proof.
  intros (v & Hv & Hpass). change (find_validator "HIPAA") with (Some HipaaValidator) in Hv.
  injection Hv as <-. revert Hpass. cbn [fv_validate HipaaValidator].
  rewrite verdict_passed, !app_nil, !issue_nil. intros (Hr & Ha & _). split; [by bool_facts|].
  intros r Heq. rewrite Heq, issue_nil in Hr. by bool_facts.
Qed.

Lemma us_not_adequate : ("US"%string ∉ eu_countries) ∧ ("US"%string ∉ adequacy_countries).
Proof. split; apply (bool_decide_unpack _); vm_compute; exact I. Qed.

(** ** The chain *)
Lemma default_members config :
  (create_default_chain config).(ch_middlewares)
  = [signature_middleware; compliance_middleware; rate_limit_middleware; fee_middleware].
Proof. reflexivity. Qed.

(** One member of an accepting run: it ran and said to continue. *)
Lemma accepting_step m ms results p r p' :
  answers (λ a, a ≠ Accept) m.(mw_process) → r.(pr_accepted) = true →
  process_steps (m :: ms) results p = (Ok r, p') →
  ∃ q q' results' p1, q.(po_ctx) = p.(po_ctx) ∧ q.(po_limits) = p.(po_limits)
    ∧ m.(mw_process) q = (Ok Continue, q') ∧ same_tx q' p1 ∧ tags q'.(po_ctx) = tags p1.(po_ctx)
    ∧ process_steps ms results' p1 = (Ok r, p').
Proof.
  intros Hna Hacc Hrun. cbn [process_steps] in Hrun.
  apply bind_ok in Hrun as (start & q & Hq & Hrun). apply bind_ok in Hrun as (action & q' & Hm & Hrun).
  apply bind_ok in Hrun as (t & p3 & Ht & Hrun). apply bind_ok in Hrun as ([] & p4 & Hts & Hrun).
  injection Hq as _ <-. injection Ht as _ <-. injection Hts as <-.
  destruct action as [| |reason|n reason].
  - do 4 eexists. split_and!; [| |exact Hm| | |exact Hrun]; done.
  - by destruct (Hna _ _ _ Hm).
  - ok_inv Hrun. injection Hrun as <- <-. done.
  - ok_inv Hrun. injection Hrun as <- <-. done.
Qed.

(** The context in which the frameworks judge a transaction: its own bytes and fields, and
    the tags of the signature check and of the scan. *)
Definition judged (config : MiddlewareConfig) (tx : bytes) (parsed : ParsedTransaction) : MiddlewareContext := {|
  mx_tx_bytes := tx; mx_parsed_tx := Some parsed;
  mx_metadata := {| mm_tags := signature_tags config ++ pii_tags config tx; mm_timestamps := [];
                    mm_compliance_results := []; mm_warnings := [] |};
  mx_config := config |}.

(** Everything an accepted transaction has passed. *)
Record admitted_tx (config : MiddlewareConfig) (tx : bytes) (parsed : ParsedTransaction) (body : bytes)
    (signer : HybridPublicKey) (signature : HybridSignature) : Prop := {
  at_size : blen tx <= config.(mc_max_tx_size);
  at_body : ∃ n, verified_body tx config.(mc_quantum_threat_level) (unix_now n) body signer signature;
  at_fields : fields_of tx body signer parsed;
  at_blocked : parsed.(pt_sender) ∉ config.(mc_blocked_addresses);
  at_compliance : needs_compliance parsed.(pt_tx_type) = true →
    ∃ md, parse_compliance_section tx = Some md
      ∧ ∀ f, f ∈ md.(md_required_frameworks)
             ∨ f ∈ config.(mc_enabled_frameworks) ∧ is_Some (find_validator f) →
        content (judged config tx parsed) md f;
  at_fee : fee_acceptable config parsed;
}.

Lemma accepted_admitted config tx p r p' :
  octets tx → config.(mc_max_tx_size) <= U32_MAX →
  chain_process (create_default_chain config) tx p = (Ok r, p') → r.(pr_accepted) = true →
  ∃ parsed body signer signature, admitted_tx config tx parsed body signer signature.
Proof.
  intros Ho Hmax Hrun Hacc. unfold chain_process in Hrun. rewrite default_members in Hrun.
  apply bind_ok in Hrun as ([] & p0 & H0' & Hrun). injection H0' as <-. cbn [ch_config create_default_chain chain_add MiddlewareChain_new] in Hrun.
  apply accepting_step in Hrun as (q1 & q1' & res1 & p1 & Hc1 & _ & Hsig & Hs1 & Hg1 & Hrun);
    [|apply signature_no_accept|done].
  apply accepting_step in Hrun as (q2 & q2' & res2 & p2 & Hc2 & _ & Hcomp & Hs2 & Hg2 & Hrun);
    [|apply compliance_no_accept|done].
  apply accepting_step in Hrun as (q3 & q3' & res3 & p3 & Hc3 & _ & Hrate & Hs3 & Hg3 & Hrun);
    [|apply rate_limit_no_accept|done].
  apply accepting_step in Hrun as (q4 & q4' & res4 & p4 & Hc4 & _ & Hfee & _ & _ & _);
    [|apply fee_no_accept|done].
  cbn [mw_process signature_middleware compliance_middleware rate_limit_middleware fee_middleware] in *.
  apply signature_continue in Hsig as (parsed & body & signer & signature & Hau).
  exists parsed, body, signer, signature. destruct Hau as [Hsz Hvb Hfo Hfl Hbl Hb' Hcf Hp' Htg].
  rewrite Hc1 in *. cbn [mx_tx_bytes mx_config MiddlewareContext_new set_ctx po_ctx] in *.
  destruct Hs1 as (Hb1 & Hp1 & Hcf1). rewrite Hb', Hp', Hcf in *. rewrite <- Hc2 in Hb1, Hp1, Hcf1.
  pose proof (compliance_same q2) as Hs2'. rewrite Hcomp in Hs2'. cbn in Hs2'.
  pose proof (rate_limit_same q3) as Hs3'. rewrite Hrate in Hs3'. cbn in Hs3'.
  assert (same_tx q2 q4) as (Hb4 & Hp4 & Hcf4).
  { etrans; [exact Hs2'|]. etrans; [exact Hs2|]. unfold same_tx in *. rewrite <- Hc3, Hc4. 
    destruct_and!. split_and!; congruence. }
  split; [done|by eexists|done|done| |].
  - intros Hneed. apply (compliance_continue _ _ parsed) in Hcomp as (q & Hsq & Htq & Hall); [|done..].
    unfold job_metadata, extract_compliance_metadata in Hall. rewrite Hp1, Hb1, Hcf1 in Hall.
    cbn in Hall. rewrite Hneed in Hall. cbn [negb] in Hall.
    assert (∃ md, parse_compliance_section tx = Some md) as [md Hmd].
    { unfold parse_compliance_section. repeat case_match; eauto. }
    rewrite Hmd in Hall. exists md. split; [done|]. intros f Hf.
    eapply content_tags; [..|by apply Hall]; [by rewrite Htq, Hb1, Hcf1, Hc2, <- Hg1, Htg|].
    destruct Hsq as (_ & -> & _). by rewrite Hp1.
  - apply (fee_continue _ _ parsed) in Hfee; [by rewrite <- Hcf1, <- Hcf4|congruence|..].
    + destruct Hfo as [? ? ? ? ? ? -> ?]. lia.
    + destruct Hfo as [_ _ _ Hgp _ _ _ _]. eapply le_u64_bound; [|exact Hgp].
      by eapply slice_octets, (vb_body _ _ _ _ _ _ Hvb).
Qed.
End members.

(** ** What admission promises *)
Section admission.
Context `{Build, InstantClock, CoreLib, ScanEnv}.

(** C16: under a size limit of at most [2^32 - 1] bytes, a transaction the default chain
    accepts has passed every check on one and the same body: the signer's key hashes to
    the sender the later checks use, the hybrid signature over that body verifies for its
    own chain id, the sender is not blocked, the size is within the limit, the type, nonce
    and gas fields are those of the body, the validator of every framework a compute job
    or seal requires (there is one), and of every framework the configuration enables that
    has a validator, is content with the transaction's own bytes and the result of the
    scan for personal data, and the fee covers base and data gas.  (An enabled framework
    without a validator, such as SOX, is skipped.) *)
Theorem admission_checked config tx p r p' :
  octets tx → config.(mc_max_tx_size) <= U32_MAX →
  chain_process (create_default_chain config) tx p = (Ok r, p') → r.(pr_accepted) = true →
  ∃ parsed body signer signature, admitted_tx config tx parsed body signer signature.
Proof. apply accepted_admitted. Qed.

(** With GDPR and HIPAA enabled, as they are by default, no compute job and no seal
    that names a data residency is admitted, whatever country it names, and none whose
    bytes contain no 0xC0 marker (the core crate's serialisation writes none) or do not
    ask for an audit trail. *)
Lemma residency_never_admitted config tx p r p' :
  octets tx → config.(mc_max_tx_size) <= U32_MAX →
  "GDPR"%string ∈ config.(mc_enabled_frameworks) → "HIPAA"%string ∈ config.(mc_enabled_frameworks) →
  chain_process (create_default_chain config) tx p = (Ok r, p') → r.(pr_accepted) = true →
  ∃ body ty, slice (E:=string) 4 (4 + blen body) tx = Ok body ∧ byte_at (E:=string) 1 body = Ok ty
    ∧ (needs_compliance ty = true →
       ∃ md, parse_compliance_section tx = Some md ∧ md.(md_data_residency) = None
         ∧ md.(md_audit_required) = true ∧ is_Some (from_marker tx)).
Proof.
  intros Ho Hmax Hg Hh Hrun Hacc.
  destruct (accepted_admitted config tx p r p' Ho Hmax Hrun Hacc)
    as (parsed & body & signer & signature & [_ [n Hvb] Hf _ Hcomp _]).
  exists body, (pt_tx_type parsed). split_and!; [apply Hvb|apply Hf|]. intros Hneed.
  destruct (Hcomp Hneed) as (md & Hmd & Hall). exists md. set (ctx := judged _ _ _) in Hall.
  destruct (gdpr_content ctx md) as (Ha & _ & Hr); [apply Hall; right; split; [done|by eexists]|].
  destruct (hipaa_content ctx md) as (_ & Hus); [apply Hall; right; split; [done|by eexists]|].
  split_and!; [done| |done|].
  - destruct (md_data_residency md) as [c|] eqn:Hres; [|done]. pose proof (Hus c eq_refl) as ->.
    destruct us_not_adequate as [? ?]. by destruct (Hr _ eq_refl).
  - unfold parse_compliance_section in Hmd. destruct (from_marker tx); [by eexists|]. by injection Hmd as <-.
Qed.

(** Bytes behind a valid envelope are ignored by verification and by the parser,
    but enter the transaction's identifier and size: one signed transaction passes the
    signature check under as many identifiers as one likes. *)
Lemma envelope_tail_ignored bs tail threat clock :
  verify_signature bs threat clock = Ok true → 100 <= blen bs →
  verify_signature (bs ++ tail) threat clock = Ok true
  ∧ ∃ parsed parsed', parse_transaction (E:=MiddlewareError) bs = Ok (Some parsed)
    ∧ parse_transaction (E:=MiddlewareError) (bs ++ tail) = Ok (Some parsed')
    ∧ parsed'.(pt_sender) = parsed.(pt_sender) ∧ parsed'.(pt_nonce) = parsed.(pt_nonce)
    ∧ parsed'.(pt_tx_type) = parsed.(pt_tx_type) ∧ parsed'.(pt_gas_price) = parsed.(pt_gas_price)
    ∧ parsed'.(pt_gas_limit) = parsed.(pt_gas_limit)
    ∧ parsed.(pt_tx_id) = compute_tx_hash bs ∧ parsed'.(pt_tx_id) = compute_tx_hash (bs ++ tail).
Proof.
  intros Hv Hlen. pose proof (verify_signature_tail bs tail threat clock Hv) as Hv'. split; [done|].
  apply verify_signature_inv in Hv as (body & signer & signature & Hvb).
  apply verify_signature_inv in Hv' as (body' & signer' & signature' & Hvb').
  assert (body' = body) as ->.
  { pose proof (le_len_app _ _ tail _ (vb_prefix _ _ _ _ _ _ Hvb)) as Hp.
    rewrite (vb_prefix _ _ _ _ _ _ Hvb') in Hp. assert (blen body' = blen body) as Heq by congruence.
    pose proof (slice_app _ _ _ tail _ (vb_body _ _ _ _ _ _ Hvb)) as Hb. rewrite <- Heq in Hb.
    rewrite (vb_body _ _ _ _ _ _ Hvb') in Hb. congruence. }
  destruct (parse_verified (E:=MiddlewareError) _ _ _ _ _ _ Hlen Hvb) as (q & Hq & [Hs Ht Hn Hg Hl _ _ Hi]).
  destruct (parse_verified (E:=MiddlewareError) (bs ++ tail) _ _ _ _ _
    ltac:(rewrite blen_app; lia) Hvb') as (q' & Hq' & [Hs' Ht' Hn' Hg' Hl' _ _ Hi']).
  exists q, q'. pose proof (vb_sender _ _ _ _ _ _ Hvb). pose proof (vb_sender _ _ _ _ _ _ Hvb').
  split_and!; congruence.
Qed.

(** A verified transaction can stop a node that checks overflow: the priority score
    multiplies the gas price by 100 in 64 bits, so a price above [u64::MAX / 100] whose
    fee is acceptable panics instead of being scored. *)
Lemma gas_price_panics p parsed :
  overflow_checks = true → p.(po_ctx).(mx_parsed_tx) = Some parsed →
  0 < parsed.(pt_size) <= U32_MAX → U64_MAX < parsed.(pt_gas_price) * 100 →
  parsed.(pt_gas_price) <= U64_MAX → fee_acceptable p.(po_ctx).(mx_config) parsed →
  (fee_process FeeMiddleware_new p).1 = Panic.
Proof. apply fee_panics. Qed.
End admission.

(** ** Alice's transactions *)

(** The envelope of a body of Alice's, signed with her key. *)
Definition alice_body (ty price limit : N) (payload : bytes) : bytes :=
  [1; ty] ++ Address_serialize (Address_from_public_key (H := toy_core) alice.(kp_public_key))
  ++ to_le_bytes 8 0 ++ to_le_bytes 8 price ++ to_le_bytes 8 limit ++ to_le_bytes 8 1 ++ to_le_bytes 8 0 ++ payload.

Definition alice_envelope (ty price limit : N) (payload : bytes) : bytes :=
  let body := alice_body ty price limit payload in
  match HybridKeyPair_sign (H := toy_core) alice (transaction_hash (H := toy_core) body) with
  | Ok sig =>
      match to_bytes (E:=string) sig with
      | Ok sb => part body ++ part sb ++ part (HybridPublicKey_to_bytes alice.(kp_public_key))
      | _ => []
      end
  | _ => []
  end.

Definition accepted_run (o : outcome MiddlewareError ProcessingResult * Pool) : bool :=
  match o.1 with Ok r => r.(pr_accepted) | _ => false end.

Lemma accepted_run_ok o : accepted_run o = true → ∃ r p', o = (Ok r, p') ∧ r.(pr_accepted) = true.
Proof. destruct o as [[r| | |] p']; try done. by exists r, p'. Qed.

(** A compute job whose payload is a compliance section that asks for an audit. *)
Definition alice_job : bytes := alice_envelope TX_TYPE_COMPUTE_JOB 100 1000000 [192; 0; 0; 1].

Lemma alice_job_octets : octets alice_job.
Proof. apply (bool_decide_unpack _). vm_compute. exact I. Qed.

Lemma alice_job_runs : ∃ r p',
  chain_process (H := still_clock)
    (create_default_chain (H := dev_build) (H0 := still_clock) (H1 := toy_core) (H2 := quiet_scan)
       MiddlewareConfig_default) alice_job pool0 = (Ok r, p') ∧ r.(pr_accepted) = true.
Proof. apply accepted_run_ok. vm_compute. reflexivity. Qed.

Lemma admission_checked_witness : ∃ parsed body signer signature,
  admitted_tx (H1 := toy_core) (H2 := quiet_scan) MiddlewareConfig_default alice_job parsed body signer signature.
Proof.
  destruct alice_job_runs as (r & p' & Hrun & Hacc).
  apply (admission_checked (H := dev_build) (H0 := still_clock) (H1 := toy_core) (H2 := quiet_scan)
    MiddlewareConfig_default alice_job pool0 r p'); [apply alice_job_octets|vm_compute; discriminate|exact Hrun|exact Hacc].
Defined.

Lemma residency_never_admitted_witness :
  needs_compliance TX_TYPE_COMPUTE_JOB = true
  ∧ ∃ body ty, slice (E:=string) 4 (4 + blen body) alice_job = Ok body ∧ byte_at (E:=string) 1 body = Ok ty
    ∧ (needs_compliance ty = true →
       ∃ md, parse_compliance_section alice_job = Some md ∧ md.(md_data_residency) = None
         ∧ md.(md_audit_required) = true ∧ is_Some (from_marker alice_job)).
Proof.
  split; [reflexivity|].
  destruct alice_job_runs as (r & p' & Hrun & Hacc).
  apply (residency_never_admitted (H := dev_build) (H0 := still_clock) (H1 := toy_core) (H2 := quiet_scan)
    MiddlewareConfig_default alice_job pool0 r p');
    [apply alice_job_octets|vm_compute; discriminate|clear; cbn; set_solver|clear; cbn; set_solver|exact Hrun|exact Hacc].
Defined.

Lemma envelope_tail_ignored_witness :
  verify_signature (H := toy_core) (alice_job ++ [1; 2; 3]) 0 None = Ok true.
Proof.
  apply (envelope_tail_ignored (H1 := toy_core) alice_job [1; 2; 3] 0 None);
    [vm_compute; reflexivity|vm_compute; discriminate].
Defined.

Definition costly : ParsedTransaction := {|
  pt_tx_id := []; pt_sender := []; pt_tx_type := 1; pt_nonce := 0; pt_gas_price := 2 ^ 60;
  pt_gas_limit := 21000; pt_chain_id := 1; pt_size := 200; pt_signature_valid := true;
  pt_compliance_metadata := None |}.

Lemma gas_price_panics_witness :
  (fee_process (H := dev_build) FeeMiddleware_new
    (set_ctx (set_parsed costly) pool0)).1 = Panic.
Proof.
  apply (gas_price_panics (H := dev_build) _ costly);
    [reflexivity|reflexivity|by vm_compute|by vm_compute|by vm_compute|by vm_compute].
Defined.
