(* ===== verification/MempoolWallet.v ===== *)
(** * From the wallet to the mempool

    The envelope [SignedTransaction_to_bytes] writes is the one the mempool reads: a
    transaction signed with a key pair for its own address verifies, and the verdict
    of the default chain on a transfer is the fee inequality. *)
From S2P Require Import Samples Prelude SysTypes F64 Precompile ConsensusTypes CoreHash Hybrid HybridSpec CoreTx CoreSpec Mempool MempoolChecks MempoolSpec CoreSamples MempoolAdmission F64Bounds.
From stdpp Require Import base gmap list strings pretty.
From Stdlib Require Import ZArith Lia SpecFloat.
#[local] Open Scope N_scope.
#[local] Arguments to_le_bytes : simpl never.
#[local] Arguments of_le_bytes : simpl never.

(** ** The signing header *)
Lemma le_u64_mid {E} pre n post a bs :
  bs = pre ++ to_le_bytes 8 n ++ post → a = blen pre → n <= U64_MAX → le_u64 (E:=E) a bs = Ok n.
Proof.
  intros Hbs Ha Hn. unfold le_u64.
  rewrite (slice_mid pre (to_le_bytes 8 n) post), obind_ret by (done || by rewrite blen_le).
  rewrite of_to_le_bytes; [done|]. cbn. lia.
Qed.

Lemma le_len_mid {E} pre n post a bs :
  bs = pre ++ to_le_bytes 4 n ++ post → a = blen pre → n <= U32_MAX → le_len (E:=E) a bs = Ok n.
Proof.
  intros Hbs Ha Hn. unfold le_len.
  rewrite (slice_mid pre (to_le_bytes 4 n) post), obind_ret by (done || by rewrite blen_le).
  rewrite of_to_le_bytes; [done|]. cbn. lia.
Qed.

Section header.
Context (t : Transaction) (payload body : bytes).
Context (Hwf : header_wf t) (Hbody : body = signing_header t ++ payload).

Lemma header_type : byte_at (E:=string) 1 body = Ok (TransactionType_to_byte t.(tx_type)).
Proof. subst body. done. Qed.

Lemma header_sender : slice (E:=string) 2 23 body = Ok (Address_serialize t.(tx_sender)).
Proof.
  destruct Hwf. unfold signing_header in Hbody. cbn [app] in Hbody. rewrite <- !app_assoc in Hbody.
  eapply (slice_mid [tx_version t; TransactionType_to_byte (tx_type t)]); [exact Hbody|done|].
  unfold Address_serialize. blen_go.
Qed.

Lemma header_field (pre : bytes) n post a :
  n <= U64_MAX → signing_header t = pre ++ to_le_bytes 8 n ++ post → a = blen pre →
  le_u64 (E:=string) a body = Ok n.
Proof.
  intros Hn Hh Ha. apply (le_u64_mid pre n (post ++ payload)); [|done..].
  by rewrite Hbody, Hh, <- !app_assoc.
Qed.

Lemma header_numbers :
  le_u64 (E:=string) 23 body = Ok t.(tx_nonce) ∧ le_u64 (E:=string) 31 body = Ok t.(tx_gas_price)
  ∧ le_u64 (E:=string) 39 body = Ok t.(tx_gas_limit) ∧ le_u64 (E:=string) 47 body = Ok t.(tx_chain_id).
Proof.
  destruct Hwf as [Hs Hn Hp Hl Hc _]. unfold signing_header in *. unfold Address_serialize in *.
  set (pre := [tx_version t; TransactionType_to_byte (tx_type t)]
              ++ AddressType_to_byte (ad_type (tx_sender t)) :: ad_bytes (tx_sender t)).
  assert (blen pre = 23) as Hpre by (unfold pre; blen_go).
  split_and!.
  - apply (header_field pre _ (to_le_bytes 8 (tx_gas_price t) ++ to_le_bytes 8 (tx_gas_limit t)
      ++ to_le_bytes 8 (tx_chain_id t) ++ to_le_bytes 8 (tx_expiry t))); [done|unfold pre; list_eq|done].
  - apply (header_field (pre ++ to_le_bytes 8 (tx_nonce t)) _ (to_le_bytes 8 (tx_gas_limit t)
      ++ to_le_bytes 8 (tx_chain_id t) ++ to_le_bytes 8 (tx_expiry t))); [done|unfold pre; list_eq|].
    rewrite blen_app, Hpre, blen_le. done.
  - apply (header_field (pre ++ to_le_bytes 8 (tx_nonce t) ++ to_le_bytes 8 (tx_gas_price t)) _
      (to_le_bytes 8 (tx_chain_id t) ++ to_le_bytes 8 (tx_expiry t))); [done|unfold pre; list_eq|].
    rewrite !blen_app, Hpre, !blen_le. done.
  - apply (header_field (pre ++ to_le_bytes 8 (tx_nonce t) ++ to_le_bytes 8 (tx_gas_price t)
      ++ to_le_bytes 8 (tx_gas_limit t)) _ (to_le_bytes 8 (tx_expiry t))); [done|unfold pre; list_eq|].
    rewrite !blen_app, Hpre, !blen_le. done.
Qed.
End header.

(** ** The envelope *)
Lemma part_small bs : blen bs <= U32_MAX → part bs = to_le_bytes 4 (blen bs) ++ bs.
Proof. intros. unfold part, cast. by rewrite N.mod_small by lia. Qed.

Section envelope.
Context `{CoreLib, ScanEnv}.

Lemma verify_signature_envelope body sb kb threat clock signer signature chain_id sender :
  55 <= blen body <= U32_MAX → blen sb <= U32_MAX → blen kb <= U32_MAX →
  HybridPublicKey_from_bytes kb = Ok signer → HybridSignature_from_bytes sb = Ok signature →
  slice (E:=string) 2 23 body = Ok sender → sender = Address_serialize (Address_from_public_key signer) →
  le_u64 (E:=string) 47 body = Ok chain_id →
  verify signature (transaction_hash body) signer (verifier_config chain_id threat) clock = Ok tt →
  verify_signature (part body ++ part sb ++ part kb) threat clock = Ok true.
Proof.
  intros Hb Hs Hk Hsigner Hsig Hsend -> Hch Hver. rewrite !part_small by lia.
  remember (_ ++ _) as bs eqn:Hbs.
  assert (blen bs = 12 + blen body + blen sb + blen kb) as Hlen
    by (subst; rewrite !blen_app, !blen_le; lia).
  unfold verify_signature. cbv zeta. rewrite refuse_false by (apply bool_decide_false; lia).
  rewrite (le_len_mid [] (blen body) (body ++ to_le_bytes 4 (blen sb) ++ sb ++ to_le_bytes 4 (blen kb) ++ kb)),
    obind_ret by (lia || list_eq).
  rewrite refuse_false by (apply bool_decide_false; lia).
  rewrite (le_len_mid (to_le_bytes 4 (blen body) ++ body) (blen sb) (sb ++ to_le_bytes 4 (blen kb) ++ kb)),
    obind_ret by (first [lia | list_eq | rewrite blen_app, blen_le; lia]).
  rewrite refuse_false by (apply bool_decide_false; lia).
  rewrite (le_len_mid (to_le_bytes 4 (blen body) ++ body ++ to_le_bytes 4 (blen sb) ++ sb) (blen kb) kb),
    obind_ret by (first [lia | list_eq | rewrite !blen_app, !blen_le; lia]).
  rewrite refuse_false by (apply bool_decide_false; lia).
  read_slice (to_le_bytes 4 (blen body)) body (to_le_bytes 4 (blen sb) ++ sb ++ to_le_bytes 4 (blen kb) ++ kb).
  read_slice (to_le_bytes 4 (blen body) ++ body ++ to_le_bytes 4 (blen sb)) sb (to_le_bytes 4 (blen kb) ++ kb).
  read_slice (to_le_bytes 4 (blen body) ++ body ++ to_le_bytes 4 (blen sb) ++ sb ++ to_le_bytes 4 (blen kb)) kb ([] : bytes).
  rewrite refuse_false by (apply bool_decide_false; lia).
  rewrite Hsigner, Hsig. cbn [describe]. rewrite !obind_ret, Hsend, obind_ret, bool_decide_true by done.
  cbn [negb]. rewrite refuse_false by (apply bool_decide_false; lia).
  by rewrite Hch, obind_ret, Hver, obind_ret.
Qed.
End envelope.

(** ** Signing in the wallet *)
Section wallet.
Context `{CoreLib, !CoreLaws, ScanEnv}.
Context (ecdsa_sk pk sk : bytes) (kp : HybridKeyPair).
Context (Hpqc : full_pqc = true) (Hsecret : secp_secret_error ecdsa_sk = None).
Context (Hpair : dil3_keypair sk pk) (Hkp : generate ecdsa_sk pk sk = Ok kp).

Lemma verifier_level chain_id threat :
  level_u8 (vc_min_dilithium_level (verifier_config chain_id threat)) <= 3.
Proof. unfold verifier_config. by repeat case_bool_decide. Qed.

(** The envelope of a signed transaction: its size, and that the mempool verifies it
    at every threat level and hands on its fields. *)
Lemma signed_envelope t body :
  header_wf t → t.(tx_sender) = Address_from_public_key kp.(kp_public_key) →
  to_signing_bytes (E:=TransactionError) t = Ok body → blen body <= U32_MAX →
  ∃ s bs, Transaction_sign t kp = Ok s ∧ SignedTransaction_to_bytes (E:=TransactionError) s = Ok bs
    ∧ blen bs = 5382 + blen body
    ∧ (∀ threat clock, verify_signature bs threat clock = Ok true)
    ∧ le_len (E:=string) 0 bs = Ok (blen body) ∧ slice (E:=string) 4 (4 + blen body) bs = Ok body.
Proof.
  intros Hwf Hsender Hbody Hsmall.
  destruct (signed_verifies ecdsa_sk pk sk kp (transaction_hash body) None None Hpqc Hsecret Hpair Hkp)
    as (sig & Hsign & Hts & Hci & Hlv & Hcl & Hql & Hkey & Hqok & Hcok).
  assert (sig_encodable sig) as Henc by (split; rewrite ?Hts, ?Hci, ?Hlv; done || (cbn; lia)).
  destruct (signature_v2_decodes sig Henc) as (sb & Hsb & Hsdec).
  assert (blen sb = 3381) as Hsbl.
  { unfold to_bytes in Hsb. rewrite bool_decide_true in Hsb by lia. injection Hsb as <-. rewrite Hts, Hci. cbn [flagged]. blen_go. }
  pose proof (public_key_decodes _ Hkey) as Hkdec.
  assert (blen (HybridPublicKey_to_bytes (kp_public_key kp)) = 1989) as Hkl.
  { destruct (generate_ok ecdsa_sk pk sk kp Hpqc Hsecret Hpair) as [Hg _].
    destruct (Hg Hkp) as [_ ->]. destruct Hpair as (_ & _ & _ & Hpl & _). cbn. unfold HybridPublicKey_to_bytes. cbn.
    pose proof (secp_public_33 ecdsa_sk). blen_go. }
  exists {| st_tx := t; st_signature := sig; st_public_key := kp.(kp_public_key) |}.
  exists (part body ++ part sb ++ part (HybridPublicKey_to_bytes (kp_public_key kp))).
  unfold to_signing_bytes in Hbody. apply obind_ok in Hbody as (payload & Hpay & Hok).
  assert (body = signing_header t ++ payload) as Hbody by congruence. clear Hok.
  assert (63 <= blen body) as Hlong by (rewrite Hbody, blen_app, blen_header by apply Hwf; lia).
  split_and!.
  - unfold Transaction_sign, Transaction_hash, to_signing_bytes. rewrite Hpay, !obind_ret, <- Hbody.
    unfold HybridKeyPair_sign. by rewrite Hsign.
  - unfold SignedTransaction_to_bytes, to_signing_bytes. cbn [st_tx st_signature st_public_key].
    rewrite Hpay, obind_ret, obind_ret, <- Hbody.
    unfold to_bytes in Hsb |- *. rewrite bool_decide_true in Hsb |- * by lia. by injection Hsb as <-.
  - rewrite !part_small by lia. rewrite !blen_app, !blen_le. lia.
  - intros threat clock. eapply verify_signature_envelope; try done; try lia.
    + rewrite <- Hsender. by apply (header_sender t payload).
    + apply (header_numbers t payload); done.
    + apply verify_ok. rewrite Hlv, Hci. split_and!; try done.
      * apply verifier_level.
      * unfold age_ok. by rewrite Hts.
  - rewrite !part_small by lia. eapply (le_len_mid []); [cbn [app]; by rewrite <- app_assoc|done|lia].
  - rewrite !part_small by lia. eapply (slice_mid (to_le_bytes 4 (blen body)));
      [by rewrite <- app_assoc|by rewrite blen_le|done].
Qed.
End wallet.

(** ** Running the chain *)
Section running.
Context `{Build, InstantClock, CoreLib, ScanEnv}.

Definition tick (p : Pool) : Pool :=
  {| po_ctx := p.(po_ctx); po_limits := p.(po_limits); po_reads := S p.(po_reads) |}.

Lemma step_continue m ms results p q' :
  m.(mw_process) (tick p) = (Ok Continue, q') →
  ∃ results' p1, same_tx q' p1 ∧ p1.(po_limits) = q'.(po_limits)
    ∧ process_steps (m :: ms) results p = process_steps ms results' p1.
Proof.
  intros Hm. do 2 eexists. split; [|split]; [| |cbn [process_steps]].
  3: { unfold mbind at 1, M_bind at 1. change (now p) with (Ok (E:=MiddlewareError) (instant (po_reads p)), tick p). cbv beta iota.
       unfold mbind at 1, M_bind at 1. rewrite Hm. cbv beta iota. reflexivity. }
  all: done.
Qed.

Lemma step_reject m ms results p q' reason :
  m.(mw_process) (tick p) = (Ok (Reject reason), q') →
  ∃ r p', process_steps (m :: ms) results p = (Ok r, p') ∧ r.(pr_accepted) = false.
Proof.
  intros Hm. cbn [process_steps]. unfold mbind at 1, M_bind at 1.
  change (now p) with (Ok (E:=MiddlewareError) (instant (po_reads p)), tick p). cbv beta iota.
  unfold mbind at 1, M_bind at 1. rewrite Hm. cbv beta iota. by do 2 eexists.
Qed.

Lemma bind_now {A} (k : Z → MW A) p : (now ≫= k) p = k (instant p.(po_reads)) (tick p).
Proof. done. Qed.

(** A full bucket grants a request, whatever the clock says: what is added for the time
    that has passed is not negative, and the capacity is at least one. *)
Lemma elapsed_nonneg nanos : nonneg (as_secs_f64 nanos).
Proof.
  apply nonneg_add; [apply of_N_nonneg|].
  change (f64_of_N NANOS_PER_SEC) with (f64_lit 8388608000000000 (-23)). apply nonneg_div_lit, of_N_nonneg.
Qed.

Lemma full_grants l m e t1 t2 :
  l.(rl_tokens) = f64_of_N l.(rl_capacity) → 0 < l.(rl_capacity) → l.(rl_refill_rate) = f64_lit m e →
  (try_acquire l t1 t2).1 = true.
Proof.
  intros Ht Hc Hr. unfold try_acquire, refill. cbn [fst rl_tokens]. rewrite Ht, Hr.
  set (n := l.(rl_capacity)) in *. set (y := f64_mul _ _).
  assert (nonneg y ∧ narrow y) as [Hy Hy'] by (split; [apply nonneg_mul, elapsed_nonneg|apply narrow_mul]).
  assert (atleast 0 (f64_of_N n) ∧ narrow (f64_of_N n)) as [Hn Hn']
    by (split; [apply of_N_atleast; cbn; lia|apply of_N_narrow]).
  assert (atleast 0 (f64_add (f64_of_N n) y)) by (by apply atleast_add).
  assert (narrow (f64_add (f64_of_N n) y)) by (by apply narrow_add).
  apply atleast_one; unfold f64_min; repeat case_match; done.
Qed.

(** A bucket that was just made grants its first request. *)
Lemma fresh_type_grants ty t1 t2 t3 t4 :
  (try_acquire (RateLimiter_new (type_limit ty) (from_secs 1) t1 t2) t3 t4).1 = true.
Proof.
  assert (type_limit ty ∈ [1000; 100; 10; 1]) as Hin.
  { unfold type_limit. repeat case_match; set_solver. }
  revert Hin. generalize (type_limit ty). intros n Hin.
  repeat (apply elem_of_cons in Hin as [->|Hin]; [by eapply full_grants; [reflexivity|reflexivity|vm_compute; reflexivity]|]).
  by apply not_elem_of_nil in Hin.
Qed.

Lemma fresh_60_grants t1 t2 t3 t4 : (try_acquire (RateLimiter_new 60 (from_secs 60) t1 t2) t3 t4).1 = true.
Proof. eapply full_grants; [reflexivity|reflexivity|vm_compute; reflexivity]. Qed.
Lemma fresh_global_grants t1 t2 t3 t4 : (try_acquire (RateLimiter_new 10000 (from_secs 1) t1 t2) t3 t4).1 = true.
Proof. eapply full_grants; [reflexivity|reflexivity|vm_compute; reflexivity]. Qed.

(** The buckets as they were made. *)
Record fresh_limits (r : RateLimitMiddleware) : Prop := {
  fl_global : ∃ t1 t2, r.(rm_global_limiter) = RateLimiter_new 10000 (from_secs 1) t1 t2;
  fl_addresses : r.(rm_address_limiters) = ∅;
  fl_types : r.(rm_type_limiters) = ∅;
}.

Lemma cleanup_fresh p :
  fresh_limits p.(po_limits) →
  ∃ p', cleanup_if_needed p = (Ok tt, p') ∧ p'.(po_ctx) = p.(po_ctx) ∧ fresh_limits p'.(po_limits).
Proof.
  intros [Hg Ha Ht]. unfold cleanup_if_needed. rewrite bind_now, bind_get. cbn [po_limits tick]. rewrite Ha.
  unfold when. case_bool_decide; [|by eexists; split_and!; [done..|by split]].
  rewrite map_to_list_empty, Ht, map_to_list_empty. eexists. split_and!; [reflexivity|done|by split].
Qed.

Lemma granted_run {A} l (k : bool → RateLimiter → MW A) p :
  (∀ t1 t2, (try_acquire l t1 t2).1 = true) →
  ∃ l', (acquire l ≫= λ '(granted, l), k granted l) p = k true l' (tick (tick p)).
Proof.
  intros Hg. specialize (Hg (instant p.(po_reads)) (instant (S p.(po_reads)))). 
  destruct (try_acquire l _ _) as [b l'] eqn:Ht in Hg. cbn in Hg. subst b. exists l'.
  unfold acquire, mbind, M_bind, now. cbn -[try_acquire]. by rewrite Ht.
Qed.

Lemma check_global_fresh p :
  fresh_limits p.(po_limits) →
  ∃ p', check_global p = (Ok true, p')
    ∧ p'.(po_limits).(rm_address_limiters) = ∅ ∧ p'.(po_limits).(rm_type_limiters) = ∅.
Proof.
  intros [(t1 & t2 & Hg) Ha Ht]. unfold check_global. rewrite bind_get, Hg.
  destruct (granted_run (RateLimiter_new 10000 (from_secs 1) t1 t2)
    (λ granted l, modify (set_limits (set_global_limiter l)) ;; mret granted) p (fresh_global_grants _ _)) as [l' ->].
  eexists. by split_and!.
Qed.

Lemma limiter_run {A} limit interval (k : RateLimiter → MW A) p :
  (limiter_or_new None limit interval ≫= k) p
  = k (RateLimiter_new limit interval (instant p.(po_reads)) (instant (S p.(po_reads)))) (tick (tick p)).
Proof. done. Qed.

Lemma address_fresh p a :
  p.(po_limits).(rm_address_limiters) = ∅ →
  ∃ p', get_address_limiter a 60 p = (Ok true, p')
    ∧ p'.(po_limits).(rm_type_limiters) = p.(po_limits).(rm_type_limiters).
Proof.
  intros Ha. unfold get_address_limiter. rewrite bind_get, Ha, lookup_empty, limiter_run.
  edestruct (granted_run (RateLimiter_new 60 (from_secs 60) (instant (po_reads p)) (instant (S (po_reads p))))
    (λ granted l, modify (set_limits (λ r, set_address_limiters (<[a := l]> r.(rm_address_limiters)) r)) ;; mret granted))
    as [l' ->]; [apply fresh_60_grants|]. eexists. by split.
Qed.

Lemma type_fresh p ty :
  p.(po_limits).(rm_type_limiters) = ∅ → ∃ p', get_type_limiter ty p = (Ok true, p').
Proof.
  intros Ha. unfold get_type_limiter. rewrite bind_get, Ha, lookup_empty, limiter_run.
  edestruct (granted_run (RateLimiter_new (type_limit ty) (from_secs 1) (instant (po_reads p)) (instant (S (po_reads p))))
    (λ granted l, modify (set_limits (λ r, set_type_limiters (<[ty := l]> r.(rm_type_limiters)) r)) ;; mret granted))
    as [l' ->]; [apply fresh_type_grants|]. by eexists.
Qed.

Lemma bind_run {A B} (m : MW A) (k : A → MW B) p a p1 : m p = (Ok a, p1) → (m ≫= k) p = k a p1.
Proof. intros Hm. unfold mbind, M_bind. by rewrite Hm. Qed.

Lemma rate_limit_fresh p parsed :
  p.(po_ctx).(mx_parsed_tx) = Some parsed → p.(po_ctx).(mx_config).(mc_rate_limit_per_address) = 60 →
  fresh_limits p.(po_limits) →
  ∃ p', rate_limit_process p = (Ok Continue, p') ∧ same_tx p p'.
Proof.
  intros Hp Hl Hfresh.
  assert (∃ p', rate_limit_process p = (Ok Continue, p')) as [p' Hrun].
  { unfold rate_limit_process. destruct (cleanup_fresh p Hfresh) as (p0 & Hc & Hctx & Hf0).
    rewrite (bind_run _ _ _ _ _ Hc), bind_get, Hctx, Hp. cbv zeta. rewrite Hl.
    destruct (check_global_fresh p0 Hf0) as (p1 & Hg & Ha1 & Ht1).
    rewrite (bind_run _ _ _ _ _ Hg). cbn [negb].
    destruct (address_fresh p1 (pt_sender parsed)) as (p2 & Ha & Ht2); [done|].
    rewrite (bind_run _ _ _ _ _ Ha). cbn [negb].
    destruct (type_fresh p2 (pt_tx_type parsed)) as (p3 & Ht); [by rewrite Ht2|].
    rewrite (bind_run _ _ _ _ _ Ht). cbn [negb]. by eexists. }
  exists p'. split; [done|]. pose proof (rate_limit_same p) as Hs. by rewrite Hrun in Hs.
Qed.

(** The fee middleware, when its bounds hold and when they do not. *)
Lemma fee_accepts p parsed :
  p.(po_ctx).(mx_parsed_tx) = Some parsed → 0 < parsed.(pt_size) <= U32_MAX →
  parsed.(pt_gas_price) * 100 <= U64_MAX → fee_acceptable p.(po_ctx).(mx_config) parsed →
  ∃ p', fee_process FeeMiddleware_new p = (Ok Continue, p').
Proof.
  intros Hp Hs Hgp (Hf1 & Hf2 & Hf3). unfold fee_process. rewrite bind_get, Hp. cbv zeta.
  change (fm_min_gas_price FeeMiddleware_new) with 1. change (fm_max_gas_limit FeeMiddleware_new) with 10000000.
  rewrite !bool_decide_false by lia. rewrite estimate_gas_ok, bind_lift_ok by lia.
  rewrite total_fee_ok, calculate_min_fee_ok by lia.
  unfold calculate_priority_score. rewrite (bool_decide_true (0 < _)), u_mul_ok, obind_ret, u_div_ok by lia.
  rewrite obind_ret. unfold when. case_bool_decide; (erewrite bind_run by done); rewrite !bind_lift_ok;
    (rewrite bool_decide_false by lia); by eexists.
Qed.

Lemma fee_rejects p parsed :
  p.(po_ctx).(mx_parsed_tx) = Some parsed → parsed.(pt_size) <= U32_MAX →
  parsed.(pt_gas_price) <= U64_MAX → ¬ fee_acceptable p.(po_ctx).(mx_config) parsed →
  ∃ reason p', fee_process FeeMiddleware_new p = (Ok (Reject reason), p').
Proof.
  intros Hp Hs Hgp Hno. unfold fee_process. rewrite bind_get, Hp. cbv zeta.
  change (fm_min_gas_price FeeMiddleware_new) with 1. change (fm_max_gas_limit FeeMiddleware_new) with 10000000.
  case_bool_decide; [by do 2 eexists|]. case_bool_decide; [by do 2 eexists|].
  case_bool_decide; [by do 2 eexists|]. rewrite estimate_gas_ok, bind_lift_ok by lia.
  rewrite total_fee_ok, calculate_min_fee_ok by lia. unfold fee_acceptable in Hno.
  unfold when. case_bool_decide; (erewrite bind_run by done); rewrite !bind_lift_ok;
    (rewrite bool_decide_true by lia); by do 2 eexists.
Qed.
End running.

Section signature_stage.
Context `{Build, InstantClock, CoreLib, ScanEnv}.

Lemma signature_accepts q parsed :
  blen q.(po_ctx).(mx_tx_bytes) <= q.(po_ctx).(mx_config).(mc_max_tx_size) →
  q.(po_ctx).(mx_config).(mc_blocked_addresses) = [] →
  parse_transaction (E:=MiddlewareError) q.(po_ctx).(mx_tx_bytes) = Ok (Some parsed) →
  (∀ threat clock, verify_signature q.(po_ctx).(mx_tx_bytes) threat clock = Ok true) →
  ∃ q', signature_process q = (Ok Continue, q') ∧ q'.(po_limits) = q.(po_limits)
    ∧ q'.(po_ctx).(mx_parsed_tx) = Some (set_signature_valid parsed)
    ∧ q'.(po_ctx).(mx_config) = q.(po_ctx).(mx_config).
Proof.
  intros Hsz Hbl Hparse Hv. eexists. unfold signature_process. rewrite bind_get. cbv zeta.
  rewrite bool_decide_false by lia. rewrite Hparse, bind_lift_ok, Hbl. cbn [existsb]. rewrite Hv.
  unfold tag. split_and!; done.
Qed.

Lemma compliance_skips p parsed :
  p.(po_ctx).(mx_parsed_tx) = Some parsed → needs_compliance parsed.(pt_tx_type) = false →
  compliance_process p = (Ok Continue, p).
Proof. intros Hp Hn. unfold compliance_process. by rewrite bind_get, Hp, Hn. Qed.
End signature_stage.

(** ** A transfer, end to end *)
Definition TRANSFER_ENVELOPE : N := 5483.

Section transfer.
Context `{Build, InstantClock, CoreLib, !CoreLaws, ScanEnv}.
Context (ecdsa_sk pk sk : bytes) (kp : HybridKeyPair).
Context (Hpqc : full_pqc = true) (Hsecret : secp_secret_error ecdsa_sk = None).
Context (Hpair : dil3_keypair sk pk) (Hkp : generate ecdsa_sk pk sk = Ok kp).

Definition wallet_transfer (to : CoreAddress) (amount nonce price limit : N) : Transaction :=
  with_gas (Transaction_transfer (Address_from_public_key kp.(kp_public_key)) to amount nonce) price limit.

Definition transfer_fee_ok (price limit : N) : Prop :=
  1 <= price ∧ 21000 <= limit <= 10000000 ∧ 21000 + 16 * TRANSFER_ENVELOPE <= price * limit.

(** What the parser reads from the envelope of a transaction. *)
Lemma parse_envelope t payload bs :
  header_wf t → 55 <= blen (signing_header t ++ payload) → 100 <= blen bs →
  (∀ threat clock, verify_signature bs threat clock = Ok true) →
  le_len (E:=string) 0 bs = Ok (blen (signing_header t ++ payload)) →
  slice (E:=string) 4 (4 + blen (signing_header t ++ payload)) bs = Ok (signing_header t ++ payload) →
  ∃ parsed, parse_transaction (E:=MiddlewareError) bs = Ok (Some parsed)
    ∧ parsed.(pt_tx_type) = TransactionType_to_byte t.(tx_type)
    ∧ parsed.(pt_gas_price) = t.(tx_gas_price) ∧ parsed.(pt_gas_limit) = t.(tx_gas_limit)
    ∧ parsed.(pt_size) = blen bs.
Proof.
  intros Hwf Hlen Hbs Hver Hpre Hbody.
  destruct (verify_signature_inv _ _ _ (Hver 0 None)) as (body & signer & signature & Hvb).
  assert (body = signing_header t ++ payload) as ->.
  { pose proof (vb_prefix _ _ _ _ _ _ Hvb) as Hp. pose proof (vb_body _ _ _ _ _ _ Hvb) as Hb.
    assert (blen body = blen (signing_header t ++ payload)) as Heq by congruence. rewrite Heq in Hb. congruence. }
  destruct (parse_verified (E:=MiddlewareError) _ _ _ _ _ _ Hbs Hvb) as (parsed & Hparse & Hf).
  exists parsed. split; [done|]. destruct Hf as [_ Hty _ Hgp Hgl _ Hsz _].
  destruct (header_numbers t payload _ Hwf eq_refl) as (_ & Hp & Hl & _).
  rewrite (header_type t payload _ eq_refl) in Hty. split_and!; congruence.
Qed.

(** A verified envelope of no compliance-relevant type passes the first three members of
    a default chain with fresh buckets; the fee check is left. *)
Lemma run_to_fee bs parsed p :
  blen bs <= MiddlewareConfig_default.(mc_max_tx_size) →
  (∀ threat clock, verify_signature bs threat clock = Ok true) →
  parse_transaction (E:=MiddlewareError) bs = Ok (Some parsed) →
  parsed.(pt_tx_type) = TransactionType_to_byte Transfer →
  fresh_limits p.(po_limits) →
  ∃ steps q, chain_process (create_default_chain MiddlewareConfig_default) bs p
             = process_steps [fee_middleware] steps q
    ∧ q.(po_ctx).(mx_parsed_tx) = Some (set_signature_valid parsed)
    ∧ q.(po_ctx).(mx_config) = MiddlewareConfig_default.
Proof.
  intros Hsize Hver Hparse Hty Hfresh. unfold chain_process. rewrite default_members.
  set (p0 := set_ctx (λ _, MiddlewareContext_new bs MiddlewareConfig_default) p).
  destruct (signature_accepts (tick p0) parsed) as (q1 & Hq1 & Hlim1 & Hpt1 & Hcf1); [done..|].
  destruct (step_continue signature_middleware
    [compliance_middleware; rate_limit_middleware; fee_middleware] [] p0 q1 Hq1) as (r1 & p1 & (Hb1 & Hpp1 & Hc1) & Hl1 & Hrun1).
  destruct (step_continue compliance_middleware [rate_limit_middleware; fee_middleware] r1 p1 (tick p1))
    as (r2 & p2 & (Hb2 & Hpp2 & Hc2) & Hl2 & Hrun2).
  { apply (compliance_skips _ (set_signature_valid parsed)); cbn; [congruence|by rewrite Hty]. }
  destruct (rate_limit_fresh (tick p2) (set_signature_valid parsed)) as (q3 & Hq3 & Hs3).
  { cbn in *. congruence. }
  { cbn in *. rewrite Hc2. cbn. rewrite Hc1, Hcf1. done. }
  { cbn in *. rewrite Hl2. cbn. rewrite Hl1, Hlim1. done. }
  destruct (step_continue rate_limit_middleware [fee_middleware] r2 p2 q3 Hq3) as (r3 & p3 & Hs3' & _ & Hrun3).
  assert (same_tx (tick p2) p3) as (Hb3 & Hpp3 & Hc3) by (by etrans). cbn in Hpp3, Hc3, Hpp2, Hc2.
  exists r3, p3. split_and!; [|congruence|by rewrite Hc3, Hc2, Hc1, Hcf1].
  rewrite <- Hrun3, <- Hrun2, <- Hrun1. done.
Qed.

(** C17: in a build with the full post-quantum library, a transfer (to a 20-byte address,
    with 64-bit nonce and gas limit and a gas price of at most [u64::MAX / 100]) that the
    wallet signs with the key pair it generated reaches the mempool whole: signing and
    encoding succeed, the envelope has 5483 bytes, and a default chain whose buckets are
    as they were made returns a verdict, whatever the clock reads, which accepts exactly
    when the gas price is at least one, the gas limit lies between 21000 and ten million
    and the product of the two covers 108728.  (Above that price the score of an
    acceptable transaction overflows.) *)
Theorem wallet_transfer_verdict to amount nonce price limit p :
  length to.(ad_bytes) = 20%nat → nonce <= U64_MAX → limit <= U64_MAX → price * 100 <= U64_MAX →
  fresh_limits p.(po_limits) →
  ∃ s bs r p', Transaction_sign (wallet_transfer to amount nonce price limit) kp = Ok s
    ∧ SignedTransaction_to_bytes (E:=TransactionError) s = Ok bs ∧ blen bs = TRANSFER_ENVELOPE
    ∧ chain_process (create_default_chain MiddlewareConfig_default) bs p = (Ok r, p')
    ∧ (r.(pr_accepted) = true ↔ transfer_fee_ok price limit).
Proof.
  intros Hto Hnonce Hlimit Hprice Hfresh. set (t := wallet_transfer to amount nonce price limit).
  set (payload := TransferTx_to_bytes (TransferTx_new to amount)).
  assert (header_wf t) as Hwf.
  { split; cbn; try lia. rewrite length_take. unfold sha256_of, Sha256Hasher_hash, Sha256Hasher_finalize.
    rewrite sha256_32. lia. }
  assert (blen (signing_header t ++ payload) = 101) as Hlen.
  { rewrite blen_app, blen_header by apply Hwf. unfold payload, TransferTx_to_bytes, Address_serialize.
    cbn [tf_to tf_amount tf_memo TransferTx_new]. blen_go. }
  destruct (signed_envelope ecdsa_sk pk sk kp Hpqc Hsecret Hpair Hkp t (signing_header t ++ payload))
    as (s & bs & Hs & Hbs & Hsize & Hver & Hpre & Hbody); [done..|by rewrite Hlen|].
  destruct (parse_envelope t payload bs) as (parsed & Hparse & Hty & Hgp & Hgl & Hsz);
    [done|rewrite ?Hlen; lia..|done|done|done|].
  rewrite Hlen in *. exists s, bs.
  assert (fee_acceptable MiddlewareConfig_default (set_signature_valid parsed) ↔ transfer_fee_ok price limit) as Hfee.
  { unfold fee_acceptable, transfer_fee_ok, fee_minimum. cbn [set_signature_valid pt_gas_price pt_tx_type pt_gas_limit pt_size].
    rewrite Hty, Hgp, Hgl, Hsz, Hsize. change (get_base_gas _ _) with 21000. unfold TRANSFER_ENVELOPE. cbn. lia. }
  destruct (run_to_fee bs parsed p) as (r3 & p3 & Hrun & Hp3 & Hcf3); [rewrite Hsize; cbn; lia|done..|].
  rewrite Hrun.
  assert (pt_size (set_signature_valid parsed) = 5483 ∧ pt_gas_price (set_signature_valid parsed) = price)
    as [Hsz' Hgp'] by (cbn; split; [lia|done]).
  destruct (decide (transfer_fee_ok price limit)) as [Hok|Hno].
  - destruct (fee_accepts (tick p3) (set_signature_valid parsed)) as (q4 & Hq4);
      [done|lia|lia|cbn; rewrite Hcf3; by apply Hfee|].
    destruct (step_continue fee_middleware [] r3 p3 q4 Hq4) as (r4 & p4 & _ & _ & Hrun4).
    rewrite Hrun4. cbn [process_steps]. do 2 eexists. split_and!; [done|done|by rewrite Hsize|reflexivity|]. done.
  - destruct (fee_rejects (tick p3) (set_signature_valid parsed)) as (reason & q4 & Hq4);
      [done|lia|lia|cbn; rewrite Hcf3; by rewrite Hfee|].
    destruct (step_reject fee_middleware [] r3 p3 q4 reason Hq4) as (r & p' & Hr & Hacc).
    exists r, p'. split_and!; [done|done|by rewrite Hsize|done|]. by rewrite Hacc.
Qed.
End transfer.

(** With the gas price and limit the constructor sets, the product is too small. *)
Lemma default_transfer_unaffordable : ¬ transfer_fee_ok 1 21000.
Proof. unfold transfer_fee_ok, TRANSFER_ENVELOPE. lia. Qed.

Lemma wallet_transfer_verdict_witness :
  ∃ s bs r p', Transaction_sign (H := toy_core)
      (wallet_transfer (H1 := toy_core) alice {| ad_bytes := replicate 20 5; ad_type := User |} 7 0 10 21000) alice = Ok s
    ∧ SignedTransaction_to_bytes (E:=TransactionError) s = Ok bs ∧ blen bs = TRANSFER_ENVELOPE
    ∧ chain_process (H := still_clock)
        (create_default_chain (H := dev_build) (H0 := still_clock) (H1 := toy_core) (H2 := quiet_scan)
          MiddlewareConfig_default) bs pool0 = (Ok r, p')
    ∧ (r.(pr_accepted) = true ↔ transfer_fee_ok 10 21000).
Proof.
  apply (wallet_transfer_verdict (H := dev_build) (H0 := still_clock) (H1 := toy_core) (H2 := toy_core_laws) (H3 := quiet_scan)
    alice_ecdsa alice_pk alice_sk alice eq_refl eq_refl alice_pair alice_generated).
  - reflexivity.
  - discriminate.
  - discriminate.
  - discriminate.
  - split; [by exists 0%Z, 0%Z|reflexivity|reflexivity].
Defined.
