(* ===== verification/CoreBlock.v ===== *)
(** * Blocks of the core crate

    [crates/core/src/types/block.rs]: the header and its serialisation, the block, the
    compute results and votes it carries, and the builder that packs transactions under
    a gas and a size limit.  Sums of the lengths of values held in memory are exact;
    sums of gas are 64-bit. *)
From S2P Require Import Prelude SysTypes Precompile CoreHash Hybrid CoreTx.
From stdpp Require Import base list strings.
From Stdlib Require Import ZArith Lia.
#[local] Open Scope N_scope.

(** [BlockId]: a hash. *)
Definition BlockId_ZERO : Hash256 := Hash256.ZERO.

Record BlockHeader := {
  bh_version : N;
  bh_height : N;
  bh_timestamp : N;
  bh_prev_block_id : Hash256;
  bh_tx_root : Hash256;
  bh_state_root : Hash256;
  bh_compute_root : Hash256;
  bh_proposer : CoreAddress;
  bh_chain_id : N;
  bh_extra_data : bytes;
}.

Definition BlockHeader_genesis (chain_id timestamp : N) : BlockHeader := {|
  bh_version := 1; bh_height := 0; bh_timestamp := timestamp; bh_prev_block_id := BlockId_ZERO;
  bh_tx_root := Hash256.ZERO; bh_state_root := Hash256.ZERO; bh_compute_root := Hash256.ZERO;
  bh_proposer := Address_ZERO; bh_chain_id := chain_id; bh_extra_data := [] |}.

(** [extra_data.len() as u8] *)
Definition BlockHeader_to_bytes (h : BlockHeader) : bytes :=
  to_le_bytes 4 h.(bh_version) ++ to_le_bytes 8 h.(bh_height) ++ to_le_bytes 8 h.(bh_timestamp)
  ++ h.(bh_prev_block_id) ++ h.(bh_tx_root) ++ h.(bh_state_root) ++ h.(bh_compute_root)
  ++ Address_serialize h.(bh_proposer) ++ to_le_bytes 8 h.(bh_chain_id)
  ++ [cast U8_MAX (blen h.(bh_extra_data))] ++ h.(bh_extra_data).

Definition BlockHeader_is_genesis (h : BlockHeader) : bool :=
  bool_decide (h.(bh_height) = 0) && bool_decide (h.(bh_prev_block_id) = BlockId_ZERO).

Inductive VerificationMethodUsed :=
| UsedTeeOnly (attestation_count : N)
| UsedZkmlOnly
| UsedHybrid (attestation_count : N).

Record ComputeVerificationResult := {
  cv_job_id : Hash256;
  cv_output_hash : Hash256;
  cv_validators : list CoreAddress;
  cv_method : VerificationMethodUsed;
  cv_zkml_proof : option bytes;
}.

Inductive BlockVoteType := PreVote | PreCommit | Commit.

Record ValidatorVote := {
  vo_validator : CoreAddress;
  vo_block_id : Hash256;
  vo_vote_type : BlockVoteType;
  vo_signature : bytes;
  vo_timestamp : N;
}.

Record Block := {
  bk_header : BlockHeader;
  bk_transactions : list SignedTransaction;
  bk_compute_results : list ComputeVerificationResult;
  bk_votes : list ValidatorVote;
}.

Definition Block_genesis (chain_id timestamp : N) : Block := {|
  bk_header := BlockHeader_genesis chain_id timestamp;
  bk_transactions := []; bk_compute_results := []; bk_votes := [] |}.

Section block.
Context `{CoreLib}.

Definition BlockHeader_id (h : BlockHeader) : Hash256 := block_hash (BlockHeader_to_bytes h).
Definition Block_id (b : Block) : Hash256 := BlockHeader_id b.(bk_header).

(** [transactions.iter().map(|tx| tx.hash())]: the hash of the unsigned transaction. *)
Definition tx_hashes {E} (txs : list SignedTransaction) : outcome E (list Hash256) := batch_messages txs.

Definition compute_tx_root {E} (b : Block) : outcome E Hash256 :=
  match b.(bk_transactions) with
  | [] => Ok Hash256.ZERO
  | txs => hs ← tx_hashes txs; merkle_root hs
  end.

Definition verify_tx_root {E} (b : Block) : outcome E bool :=
  root ← compute_tx_root b;
  Ok (bool_decide (root = b.(bk_header).(bh_tx_root))).

Definition tx_count (b : Block) : N := N.of_nat (length b.(bk_transactions)).

Definition tx_ids {E} (b : Block) : outcome E (list Hash256) := tx_hashes b.(bk_transactions).
End block.

(** [iter().map(|tx| tx.size()).sum()] *)
Fixpoint sizes {E} (txs : list SignedTransaction) : outcome E N :=
  match txs with
  | [] => Ok 0
  | s :: txs => n ← SignedTransaction_size s; m ← sizes txs; Ok (n + m)
  end.

Definition Block_size {E} (b : Block) : outcome E N :=
  n ← sizes b.(bk_transactions);
  Ok (blen (BlockHeader_to_bytes b.(bk_header)) + n
      + N.of_nat (length b.(bk_compute_results)) * 256 + N.of_nat (length b.(bk_votes)) * 128).

(** [iter().map(|tx| tx.tx.gas_limit).sum()], in 64 bits from the left. *)
Definition total_gas_used `{Build} {E} (b : Block) : outcome E N :=
  sum_checked U64_MAX (λ s, s.(st_tx).(tx_gas_limit)) b.(bk_transactions) 0.

(** ** The builder *)
Record BlockBuilder := {
  bb_header : BlockHeader;
  bb_transactions : list SignedTransaction;
  bb_compute_results : list ComputeVerificationResult;
  bb_max_size : N;
  bb_max_gas : N;
  bb_current_gas : N;
}.

Definition BlockBuilder_new (height : N) (prev_block_id : Hash256) (proposer : CoreAddress)
    (chain_id timestamp : N) : BlockBuilder := {|
  bb_header := {|
    bh_version := 1; bh_height := height; bh_timestamp := timestamp; bh_prev_block_id := prev_block_id;
    bh_tx_root := Hash256.ZERO; bh_state_root := Hash256.ZERO; bh_compute_root := Hash256.ZERO;
    bh_proposer := proposer; bh_chain_id := chain_id; bh_extra_data := [] |};
  bb_transactions := []; bb_compute_results := [];
  bb_max_size := 1048576; bb_max_gas := 10000000; bb_current_gas := 0 |}.

Definition with_max_size (b : BlockBuilder) (max_size : N) : BlockBuilder := {|
  bb_header := b.(bb_header); bb_transactions := b.(bb_transactions);
  bb_compute_results := b.(bb_compute_results); bb_max_size := max_size;
  bb_max_gas := b.(bb_max_gas); bb_current_gas := b.(bb_current_gas) |}.
Definition with_max_gas (b : BlockBuilder) (max_gas : N) : BlockBuilder := {|
  bb_header := b.(bb_header); bb_transactions := b.(bb_transactions);
  bb_compute_results := b.(bb_compute_results); bb_max_size := b.(bb_max_size);
  bb_max_gas := max_gas; bb_current_gas := b.(bb_current_gas) |}.
Definition add_compute_result (b : BlockBuilder) (r : ComputeVerificationResult) : BlockBuilder := {|
  bb_header := b.(bb_header); bb_transactions := b.(bb_transactions);
  bb_compute_results := b.(bb_compute_results) ++ [r]; bb_max_size := b.(bb_max_size);
  bb_max_gas := b.(bb_max_gas); bb_current_gas := b.(bb_current_gas) |}.
Definition set_header (f : BlockHeader → BlockHeader) (b : BlockBuilder) : BlockBuilder := {|
  bb_header := f b.(bb_header); bb_transactions := b.(bb_transactions);
  bb_compute_results := b.(bb_compute_results); bb_max_size := b.(bb_max_size);
  bb_max_gas := b.(bb_max_gas); bb_current_gas := b.(bb_current_gas) |}.
Definition with_roots (tx_root compute_root : Hash256) (h : BlockHeader) : BlockHeader := {|
  bh_version := h.(bh_version); bh_height := h.(bh_height); bh_timestamp := h.(bh_timestamp);
  bh_prev_block_id := h.(bh_prev_block_id); bh_tx_root := tx_root; bh_state_root := h.(bh_state_root);
  bh_compute_root := compute_root; bh_proposer := h.(bh_proposer); bh_chain_id := h.(bh_chain_id);
  bh_extra_data := h.(bh_extra_data) |}.
Definition with_state_root (b : BlockBuilder) (state_root : Hash256) : BlockBuilder :=
  set_header (λ h, {|
    bh_version := h.(bh_version); bh_height := h.(bh_height); bh_timestamp := h.(bh_timestamp);
    bh_prev_block_id := h.(bh_prev_block_id); bh_tx_root := h.(bh_tx_root); bh_state_root := state_root;
    bh_compute_root := h.(bh_compute_root); bh_proposer := h.(bh_proposer); bh_chain_id := h.(bh_chain_id);
    bh_extra_data := h.(bh_extra_data) |}) b.
Definition with_extra_data (b : BlockBuilder) (extra_data : bytes) : BlockBuilder :=
  set_header (λ h, {|
    bh_version := h.(bh_version); bh_height := h.(bh_height); bh_timestamp := h.(bh_timestamp);
    bh_prev_block_id := h.(bh_prev_block_id); bh_tx_root := h.(bh_tx_root); bh_state_root := h.(bh_state_root);
    bh_compute_root := h.(bh_compute_root); bh_proposer := h.(bh_proposer); bh_chain_id := h.(bh_chain_id);
    bh_extra_data := take 32 extra_data |}) b.

Definition add_transaction `{Build} {E} (tx : SignedTransaction) : M E BlockBuilder bool :=
  b ← get;
  let tx_gas := tx.(st_tx).(tx_gas_limit) in
  gas ← lift (u_add U64_MAX b.(bb_current_gas) tx_gas);
  if bool_decide (b.(bb_max_gas) < gas) then mret false
  else
    current_size ← lift (sizes b.(bb_transactions));
    tx_size ← lift (SignedTransaction_size tx);
    if bool_decide (b.(bb_max_size) < current_size + tx_size) then mret false
    else
      modify (λ b, {|
        bb_header := b.(bb_header); bb_transactions := b.(bb_transactions) ++ [tx];
        bb_compute_results := b.(bb_compute_results); bb_max_size := b.(bb_max_size);
        bb_max_gas := b.(bb_max_gas); bb_current_gas := gas |}) ;;
      mret true.

Definition compute_leaf `{CoreLib} (r : ComputeVerificationResult) : Hash256 :=
  sha256_of (r.(cv_job_id) ++ r.(cv_output_hash)).

Definition BlockBuilder_build `{CoreLib} {E} (b : BlockBuilder) : outcome E Block :=
  hs ← tx_hashes b.(bb_transactions);
  tx_root ← merkle_root hs;
  compute_root ← merkle_root (compute_leaf <$> b.(bb_compute_results));
  Ok {| bk_header := with_roots tx_root compute_root b.(bb_header);
        bk_transactions := b.(bb_transactions); bk_compute_results := b.(bb_compute_results);
        bk_votes := [] |}.
