(* ===== verification/CoreJob.v ===== *)
(** * Compute jobs and digital seals of the core crate

    [crates/core/src/types/job.rs] and [seal.rs]: a job from submission to its results
    with the majority the caller reads off, and the seal that records a finished
    computation.  The system clock is an argument (nanoseconds since the epoch, [None]
    before it), and so is the order in which a [HashMap] yields its entries. *)
From S2P Require Import Prelude SysTypes Precompile CoreHash Hybrid CoreTx.
From stdpp Require Import base list strings pretty.
From Stdlib Require Import ZArith Lia.
#[local] Open Scope N_scope.

(** ** [job.rs] *)
Module Job.
Inductive Status :=
| Pending | Assigned | Computing | Verifying | Sealing | Completed | Failed | Cancelled.

#[export] Instance Status_eq_dec : EqDecision Status.
Proof. solve_decision. Defined.

Definition is_terminal (s : Status) : bool :=
  match s with Completed | Failed | Cancelled => true | _ => false end.
Definition is_active (s : Status) : bool :=
  match s with Pending | Assigned | Computing | Verifying | Sealing => true | _ => false end.

(** [status as u8] *)
Definition status_u8 (s : Status) : N :=
  match s with
  | Pending => 0 | Assigned => 1 | Computing => 2 | Verifying => 3 | Sealing => 4
  | Completed => 5 | Failed => 6 | Cancelled => 7
  end.

Inductive StorageType := Ipfs | S3 | OnChain | Arweave | Filecoin.

Record DataReference := {
  dr_storage_type : StorageType;
  dr_uri : string;
  dr_hash : Hash256;
  dr_size : N;
  dr_encryption_key_hash : option Hash256;
}.

Inductive VerificationRequirement := TeeOnly | ZkmlOnly | HybridReq | Mpc.

Definition requires_zkml (v : VerificationRequirement) : bool :=
  match v with ZkmlOnly | HybridReq => true | _ => false end.
Definition requires_tee (v : VerificationRequirement) : bool :=
  match v with TeeOnly | HybridReq => true | _ => false end.

Inductive TeePlatformRequirement := AnyTee | ReqAwsNitro | ReqIntelSgx | ReqAmdSev.

Record HardwareRequirements := {
  hw_min_memory_mb : N;
  hw_min_compute_units : N;
  hw_tee_platform : option TeePlatformRequirement;
  hw_gpu_required : bool;
  hw_gpu_min_memory_mb : option N;
  hw_fpga_required : bool;
}.

Definition HardwareRequirements_default : HardwareRequirements := {|
  hw_min_memory_mb := 1024; hw_min_compute_units := 1; hw_tee_platform := Some AnyTee;
  hw_gpu_required := false; hw_gpu_min_memory_mb := None; hw_fpga_required := false |}.

Inductive TeePlatformResult := ResAwsNitro | ResIntelSgx | ResAmdSev.

Record TeeAttestationResult := {
  ta_platform : TeePlatformResult;
  ta_attestation_doc : bytes;
  ta_enclave_hash : Hash256;
  ta_pcr_values : list Hash256;
}.

Inductive ProofSystem := Groth16 | Plonk | Halo2 | Ezkl.

Record ZkmlProofResult := {
  zr_proof : bytes;
  zr_public_inputs : bytes;
  zr_circuit_id : Hash256;
  zr_proof_system : ProofSystem;
}.

Record ComputeResult := {
  cr_job_id : Hash256;
  cr_validator : CoreAddress;
  cr_output_hash : Hash256;
  cr_output : option bytes;
  cr_tee_attestation : option TeeAttestationResult;
  cr_zkml_proof : option ZkmlProofResult;
  cr_execution_time_ms : N;
  cr_timestamp : N;
  cr_signature : bytes;
}.

Definition verify_integrity `{CoreLib} (r : ComputeResult) : bool :=
  match r.(cr_output) with
  | Some output => bool_decide (sha256_of output = r.(cr_output_hash))
  | None => true
  end.

Record ComputeJob := {
  jb_id : Hash256;
  jb_version : N;
  jb_model_hash : Hash256;
  jb_input_hash : Hash256;
  jb_model_id : option string;
  jb_input_ref : option DataReference;
  jb_model_ref : option DataReference;
  jb_verification_method : VerificationRequirement;
  jb_min_attestations : N;
  jb_hardware_requirements : HardwareRequirements;
  jb_max_latency_ms : N;
  jb_priority : N;
  jb_expiry : N;
  jb_compliance : list string;
  jb_data_residency : option string;
  jb_audit_required : bool;
  jb_requester : CoreAddress;
  jb_max_fee : N;
  jb_submitted_at : N;
  jb_status : Status;
  jb_assigned_validators : list CoreAddress;
  jb_results : list ComputeResult;
}.

Definition id_data (model_hash input_hash : Hash256) (requester : CoreAddress) (nanos : N) : bytes :=
  model_hash ++ input_hash ++ Address_serialize requester ++ to_le_bytes 16 nanos.

(** [SystemTime::now()], read once; [unwrap] before the epoch. *)
Definition ComputeJob_new `{Build, CoreLib} {E} (model_hash input_hash : Hash256) (requester : CoreAddress)
    (now : option N) : outcome E ComputeJob :=
  match now with
  | None => Panic
  | Some nanos =>
      let timestamp := nanos / 1000000000 in
      expiry ← u_add U64_MAX timestamp 3600;
      Ok {| jb_id := sha256_of (id_data model_hash input_hash requester nanos);
            jb_version := 1; jb_model_hash := model_hash; jb_input_hash := input_hash;
            jb_model_id := None; jb_input_ref := None; jb_model_ref := None;
            jb_verification_method := HybridReq; jb_min_attestations := 2;
            jb_hardware_requirements := HardwareRequirements_default; jb_max_latency_ms := 30000;
            jb_priority := 5; jb_expiry := expiry; jb_compliance := []; jb_data_residency := None;
            jb_audit_required := false; jb_requester := requester; jb_max_fee := 0;
            jb_submitted_at := timestamp; jb_status := Pending; jb_assigned_validators := [];
            jb_results := [] |}
  end.

(** The parameters the [with_] methods set. *)
Definition set_params (method : VerificationRequirement) (min_attestations : N) (hw : HardwareRequirements)
    (latency priority fee : N) (compliance : list string) (residency : option string) (j : ComputeJob)
  : ComputeJob := {|
  jb_id := j.(jb_id); jb_version := j.(jb_version); jb_model_hash := j.(jb_model_hash);
  jb_input_hash := j.(jb_input_hash); jb_model_id := j.(jb_model_id); jb_input_ref := j.(jb_input_ref);
  jb_model_ref := j.(jb_model_ref); jb_verification_method := method;
  jb_min_attestations := min_attestations; jb_hardware_requirements := hw;
  jb_max_latency_ms := latency; jb_priority := priority; jb_expiry := j.(jb_expiry);
  jb_compliance := compliance; jb_data_residency := residency; jb_audit_required := j.(jb_audit_required);
  jb_requester := j.(jb_requester); jb_max_fee := fee; jb_submitted_at := j.(jb_submitted_at);
  jb_status := j.(jb_status); jb_assigned_validators := j.(jb_assigned_validators);
  jb_results := j.(jb_results) |}.

Definition with_verification (m : VerificationRequirement) (j : ComputeJob) : ComputeJob :=
  set_params m j.(jb_min_attestations) j.(jb_hardware_requirements) j.(jb_max_latency_ms)
    j.(jb_priority) j.(jb_max_fee) j.(jb_compliance) j.(jb_data_residency) j.
Definition with_min_attestations (count : N) (j : ComputeJob) : ComputeJob :=
  set_params j.(jb_verification_method) count j.(jb_hardware_requirements) j.(jb_max_latency_ms)
    j.(jb_priority) j.(jb_max_fee) j.(jb_compliance) j.(jb_data_residency) j.
Definition with_hardware (hw : HardwareRequirements) (j : ComputeJob) : ComputeJob :=
  set_params j.(jb_verification_method) j.(jb_min_attestations) hw j.(jb_max_latency_ms)
    j.(jb_priority) j.(jb_max_fee) j.(jb_compliance) j.(jb_data_residency) j.
Definition with_max_latency (ms : N) (j : ComputeJob) : ComputeJob :=
  set_params j.(jb_verification_method) j.(jb_min_attestations) j.(jb_hardware_requirements) ms
    j.(jb_priority) j.(jb_max_fee) j.(jb_compliance) j.(jb_data_residency) j.
Definition with_priority (priority : N) (j : ComputeJob) : ComputeJob :=
  set_params j.(jb_verification_method) j.(jb_min_attestations) j.(jb_hardware_requirements)
    j.(jb_max_latency_ms) priority j.(jb_max_fee) j.(jb_compliance) j.(jb_data_residency) j.
Definition with_max_fee (fee : N) (j : ComputeJob) : ComputeJob :=
  set_params j.(jb_verification_method) j.(jb_min_attestations) j.(jb_hardware_requirements)
    j.(jb_max_latency_ms) j.(jb_priority) fee j.(jb_compliance) j.(jb_data_residency) j.
Definition with_compliance (framework : string) (j : ComputeJob) : ComputeJob :=
  set_params j.(jb_verification_method) j.(jb_min_attestations) j.(jb_hardware_requirements)
    j.(jb_max_latency_ms) j.(jb_priority) j.(jb_max_fee) (j.(jb_compliance) ++ [framework])
    j.(jb_data_residency) j.
Definition with_data_residency (region : string) (j : ComputeJob) : ComputeJob :=
  set_params j.(jb_verification_method) j.(jb_min_attestations) j.(jb_hardware_requirements)
    j.(jb_max_latency_ms) j.(jb_priority) j.(jb_max_fee) j.(jb_compliance) (Some region) j.

Definition is_expired {E} (j : ComputeJob) (now : option N) : outcome E bool :=
  match now with
  | None => Panic
  | Some nanos => Ok (bool_decide (j.(jb_expiry) < nanos / 1000000000))
  end.

Definition has_consensus (j : ComputeJob) : bool :=
  bool_decide (j.(jb_min_attestations) <= N.of_nat (length j.(jb_results))).

(** The counts a [HashMap] holds after the loop, one entry per output hash. *)
Definition votes_for (h : Hash256) (results : list ComputeResult) : N :=
  N.of_nat (length (filter (λ r, r.(cr_output_hash) = h) results)).
Definition counts (results : list ComputeResult) : list (Hash256 * N) :=
  (λ h, (h, votes_for h results)) <$> remove_dups (cr_output_hash <$> results).

Definition threshold (j : ComputeJob) : N := (j.(jb_min_attestations) + 1) / 2.

(** [order]: how the map is iterated. *)
Definition majority_result (order : list (Hash256 * N) → list (Hash256 * N)) (j : ComputeJob)
  : option ComputeResult :=
  match j.(jb_results) with
  | [] => None
  | results =>
      '(majority_hash, _) ← List.find (λ e, bool_decide (threshold j <= e.2)) (order (counts results));
      List.find (λ r, bool_decide (r.(cr_output_hash) = majority_hash)) results
  end.

Definition set_progress (status : Status) (validators : list CoreAddress) (results : list ComputeResult)
    (j : ComputeJob) : ComputeJob := {|
  jb_id := j.(jb_id); jb_version := j.(jb_version); jb_model_hash := j.(jb_model_hash);
  jb_input_hash := j.(jb_input_hash); jb_model_id := j.(jb_model_id); jb_input_ref := j.(jb_input_ref);
  jb_model_ref := j.(jb_model_ref); jb_verification_method := j.(jb_verification_method);
  jb_min_attestations := j.(jb_min_attestations); jb_hardware_requirements := j.(jb_hardware_requirements);
  jb_max_latency_ms := j.(jb_max_latency_ms); jb_priority := j.(jb_priority); jb_expiry := j.(jb_expiry);
  jb_compliance := j.(jb_compliance); jb_data_residency := j.(jb_data_residency);
  jb_audit_required := j.(jb_audit_required); jb_requester := j.(jb_requester);
  jb_max_fee := j.(jb_max_fee); jb_submitted_at := j.(jb_submitted_at);
  jb_status := status; jb_assigned_validators := validators; jb_results := results |}.

Definition assign_validator (validator : CoreAddress) (j : ComputeJob) : ComputeJob :=
  if bool_decide (validator ∈ j.(jb_assigned_validators)) then j
  else set_progress (if bool_decide (j.(jb_status) = Pending) then Assigned else j.(jb_status))
         (j.(jb_assigned_validators) ++ [validator]) j.(jb_results) j.

Definition add_result (result : ComputeResult) (j : ComputeJob) : ComputeJob :=
  if existsb (λ r, bool_decide (r.(cr_validator) = result.(cr_validator))) j.(jb_results) then j
  else set_progress
         (if bool_decide (j.(jb_status) = Assigned) || bool_decide (j.(jb_status) = Computing)
          then Verifying else j.(jb_status))
         j.(jb_assigned_validators) (j.(jb_results) ++ [result]) j.

Definition to_bytes (j : ComputeJob) : bytes :=
  [j.(jb_version)] ++ j.(jb_id) ++ j.(jb_model_hash) ++ j.(jb_input_hash)
  ++ Address_serialize j.(jb_requester) ++ to_le_bytes 8 j.(jb_submitted_at) ++ [status_u8 j.(jb_status)].

(** [Ord]: higher priority first, then earlier submission. *)
Definition cmp (j other : ComputeJob) : comparison :=
  match other.(jb_priority) ?= j.(jb_priority) with
  | Eq => j.(jb_submitted_at) ?= other.(jb_submitted_at)
  | c => c
  end.
End Job.

(** ** [seal.rs] *)
Module Seal.
Inductive SealStatus := Pending | Finalized | Invalidated | Expired.

#[export] Instance SealStatus_eq_dec : EqDecision SealStatus.
Proof. solve_decision. Defined.

Definition seal_status_u8 (s : SealStatus) : N :=
  match s with Pending => 0 | Finalized => 1 | Invalidated => 2 | Expired => 3 end.
Definition status_debug (s : SealStatus) : string :=
  match s with
  | Pending => "Pending" | Finalized => "Finalized" | Invalidated => "Invalidated" | Expired => "Expired"
  end.

Inductive TeePlatform := AwsNitro | IntelSgx | AmdSev | ArmTrustzone.

Definition platform_from_byte (b : N) : option TeePlatform :=
  match b with
  | 0x01 => Some AwsNitro
  | 0x02 => Some IntelSgx
  | 0x03 => Some AmdSev
  | 0x04 => Some ArmTrustzone
  | _ => None
  end.

Definition platform_name (p : TeePlatform) : string :=
  match p with
  | AwsNitro => "AWS Nitro Enclaves" | IntelSgx => "Intel SGX"
  | AmdSev => "AMD SEV-SNP" | ArmTrustzone => "ARM TrustZone"
  end.

Record TeeMeasurements := {
  me_platform : TeePlatform;
  me_enclave_hash : Hash256;
  me_pcr_values : option (list Hash256);
  me_signer_id : option Hash256;
}.

Record TeeAttestation := {
  at_validator : CoreAddress;
  at_platform : TeePlatform;
  at_attestation_doc : bytes;
  at_measurements : TeeMeasurements;
  at_signature : bytes;
  at_timestamp : N;
}.

Inductive SealEvidence :=
| TeeOnly (attestations : list TeeAttestation)
| ZkmlOnly (proof : bytes) (verifying_key_hash : Hash256) (public_inputs : bytes)
| HybridEv (attestations : list TeeAttestation) (zkml_proof : bytes) (verifying_key_hash : Hash256)
    (min_attestations : N).

Definition method_name (e : SealEvidence) : string :=
  match e with
  | TeeOnly _ => "TEE-only"
  | ZkmlOnly _ _ _ => "zkML-only"
  | HybridEv _ _ _ _ => "Hybrid (TEE + zkML)"
  end.

Record DigitalSeal := {
  ds_id : Hash256;
  ds_version : N;
  ds_job_id : Hash256;
  ds_model_commitment : Hash256;
  ds_input_commitment : Hash256;
  ds_output_commitment : Hash256;
  ds_evidence : SealEvidence;
  ds_block_height : N;
  ds_timestamp : N;
  ds_requester : CoreAddress;
  ds_validators : list CoreAddress;
  ds_purpose : string;
  ds_compliance_frameworks : list string;
  ds_data_residency : option string;
  ds_status : SealStatus;
}.

Definition seal_id_data (s : DigitalSeal) : bytes :=
  s.(ds_job_id) ++ s.(ds_model_commitment) ++ s.(ds_input_commitment) ++ s.(ds_output_commitment)
  ++ to_le_bytes 8 s.(ds_timestamp).

Definition compute_id `{CoreLib} (s : DigitalSeal) : Hash256 := sha256_of (seal_id_data s).
Definition verify_id `{CoreLib} (s : DigitalSeal) : bool := bool_decide (s.(ds_id) = compute_id s).
Definition is_finalized (s : DigitalSeal) : bool := bool_decide (s.(ds_status) = Finalized).

Definition nonempty {A} (l : list A) : bool := match l with [] => false | _ => true end.

Definition has_valid_evidence (s : DigitalSeal) : bool :=
  match s.(ds_evidence) with
  | TeeOnly attestations => nonempty attestations
  | ZkmlOnly proof _ _ => nonempty proof
  | HybridEv attestations zkml_proof _ _ => nonempty attestations && nonempty zkml_proof
  end.

Definition min_attestations (s : DigitalSeal) : N :=
  match s.(ds_evidence) with
  | TeeOnly attestations => N.min (N.of_nat (length attestations)) 2
  | ZkmlOnly _ _ _ => 0
  | HybridEv _ _ _ n => n
  end.

Definition seal_to_bytes (s : DigitalSeal) : bytes :=
  [s.(ds_version)] ++ s.(ds_id) ++ s.(ds_job_id) ++ s.(ds_model_commitment) ++ s.(ds_input_commitment)
  ++ s.(ds_output_commitment) ++ to_le_bytes 8 s.(ds_block_height) ++ to_le_bytes 8 s.(ds_timestamp)
  ++ Address_serialize s.(ds_requester) ++ [seal_status_u8 s.(ds_status)].

Record SealAuditReport := {
  ar_seal_id : Hash256;
  ar_job_id : Hash256;
  ar_model_hash : string;
  ar_input_hash : string;
  ar_output_hash : string;
  ar_verification_method : string;
  ar_validator_count : N;
  ar_validators : list string;
  ar_block_height : N;
  ar_timestamp : N;
  ar_purpose : string;
  ar_compliance_frameworks : list string;
  ar_data_residency : option string;
  ar_status : string;
}.

Definition audit_report (s : DigitalSeal) : SealAuditReport := {|
  ar_seal_id := s.(ds_id); ar_job_id := s.(ds_job_id);
  ar_model_hash := hex_encode s.(ds_model_commitment); ar_input_hash := hex_encode s.(ds_input_commitment);
  ar_output_hash := hex_encode s.(ds_output_commitment);
  ar_verification_method := method_name s.(ds_evidence);
  ar_validator_count := N.of_nat (length s.(ds_validators));
  ar_validators := Address_to_bech32 <$> s.(ds_validators);
  ar_block_height := s.(ds_block_height); ar_timestamp := s.(ds_timestamp);
  ar_purpose := s.(ds_purpose); ar_compliance_frameworks := s.(ds_compliance_frameworks);
  ar_data_residency := s.(ds_data_residency); ar_status := status_debug s.(ds_status) |}.

Record SealBuilder := {
  sb_job_id : Hash256;
  sb_model_commitment : Hash256;
  sb_input_commitment : Hash256;
  sb_output_commitment : Hash256;
  sb_evidence : option SealEvidence;
  sb_requester : CoreAddress;
  sb_validators : list CoreAddress;
  sb_purpose : string;
  sb_compliance_frameworks : list string;
  sb_data_residency : option string;
}.

Definition SealBuilder_new (job_id : Hash256) : SealBuilder := {|
  sb_job_id := job_id; sb_model_commitment := Hash256.ZERO; sb_input_commitment := Hash256.ZERO;
  sb_output_commitment := Hash256.ZERO; sb_evidence := None; sb_requester := Address_ZERO;
  sb_validators := []; sb_purpose := EmptyString; sb_compliance_frameworks := [];
  sb_data_residency := None |}.

(** One update of the builder. *)
Inductive BuilderCall :=
| model_commitment (h : Hash256)
| input_commitment (h : Hash256)
| output_commitment (h : Hash256)
| evidence (e : SealEvidence)
| requester (a : CoreAddress)
| add_validator (a : CoreAddress)
| purpose (p : string)
| add_compliance (f : string)
| data_residency (region : string).

Definition builder_call (c : BuilderCall) (b : SealBuilder) : SealBuilder := {|
  sb_job_id := b.(sb_job_id);
  sb_model_commitment := match c with model_commitment h => h | _ => b.(sb_model_commitment) end;
  sb_input_commitment := match c with input_commitment h => h | _ => b.(sb_input_commitment) end;
  sb_output_commitment := match c with output_commitment h => h | _ => b.(sb_output_commitment) end;
  sb_evidence := match c with evidence e => Some e | _ => b.(sb_evidence) end;
  sb_requester := match c with requester a => a | _ => b.(sb_requester) end;
  sb_validators := match c with add_validator a => b.(sb_validators) ++ [a] | _ => b.(sb_validators) end;
  sb_purpose := match c with purpose p => p | _ => b.(sb_purpose) end;
  sb_compliance_frameworks := match c with add_compliance f => b.(sb_compliance_frameworks) ++ [f]
                                         | _ => b.(sb_compliance_frameworks) end;
  sb_data_residency := match c with data_residency r => Some r | _ => b.(sb_data_residency) end |}.

(** The clock is read after the evidence is there; milliseconds, saturated at [u64::MAX]. *)
Definition build `{CoreLib} (b : SealBuilder) (block_height : N) (now : option N)
  : outcome string DigitalSeal :=
  match b.(sb_evidence) with
  | None => Err "Evidence required"
  | Some e =>
      match now with
      | None => Panic
      | Some nanos =>
          let seal := {|
            ds_id := Hash256.ZERO; ds_version := 1; ds_job_id := b.(sb_job_id);
            ds_model_commitment := b.(sb_model_commitment); ds_input_commitment := b.(sb_input_commitment);
            ds_output_commitment := b.(sb_output_commitment); ds_evidence := e;
            ds_block_height := block_height; ds_timestamp := N.min (nanos / 1000000) U64_MAX;
            ds_requester := b.(sb_requester); ds_validators := b.(sb_validators);
            ds_purpose := b.(sb_purpose); ds_compliance_frameworks := b.(sb_compliance_frameworks);
            ds_data_residency := b.(sb_data_residency); ds_status := Finalized |} in
          Ok {| ds_id := compute_id seal; ds_version := seal.(ds_version); ds_job_id := seal.(ds_job_id);
                ds_model_commitment := seal.(ds_model_commitment);
                ds_input_commitment := seal.(ds_input_commitment);
                ds_output_commitment := seal.(ds_output_commitment); ds_evidence := seal.(ds_evidence);
                ds_block_height := seal.(ds_block_height); ds_timestamp := seal.(ds_timestamp);
                ds_requester := seal.(ds_requester); ds_validators := seal.(ds_validators);
                ds_purpose := seal.(ds_purpose); ds_compliance_frameworks := seal.(ds_compliance_frameworks);
                ds_data_residency := seal.(ds_data_residency); ds_status := seal.(ds_status) |}
      end
  end.
End Seal.
