(* ===== verification/CoreBlockSpec.v ===== *)
(** * Theorems on blocks

    What the builder guarantees of the blocks it makes, in a build that checks overflow
    and in one that does not, and what the identifier of a block fixes. *)
From S2P Require Import Samples Prelude SysTypes Precompile CoreHash Hybrid HybridSpec CoreTx CoreSamples CoreSpec CoreBlock.
From stdpp Require Import base list strings.
From Stdlib Require Import ZArith Lia.
#[local] Open Scope N_scope.
#[local] Arguments to_le_bytes : simpl never.
#[local] Arguments of_le_bytes : simpl never.

(** ** The builder *)
Definition gas_sum (txs : list SignedTransaction) : N := sum_of (λ s, s.(st_tx).(tx_gas_limit)) txs.

Lemma gas_sum_snoc txs s : gas_sum (txs ++ [s]) = gas_sum txs + s.(st_tx).(tx_gas_limit).
Proof. unfold gas_sum. rewrite sum_of_app. cbn. lia. Qed.

Lemma sizes_snoc {E} txs s n m :
  sizes (E:=E) txs = Ok n → SignedTransaction_size (E:=E) s = Ok m → sizes (E:=E) (txs ++ [s]) = Ok (n + m).
Proof.
  intros Hn Hm. revert n Hn. induction txs as [|t txs IH]; intros n Hn; cbn in *.
  - injection Hn as <-. rewrite Hm. cbn. f_equal. lia.
  - apply obind_ok in Hn as (a & Ha & Hn). apply obind_ok in Hn as (b & Hb & Hn).
    assert (n = a + b) as -> by congruence. rewrite Ha. cbn. rewrite (IH _ Hb). cbn. f_equal. lia.
Qed.

(** A transaction that was measured can be hashed. *)
Lemma size_hash `{CoreLib} {E} s n :
  SignedTransaction_size (E:=E) s = Ok n → ∃ bs, to_signing_bytes (E:=E) s.(st_tx) = Ok bs
    ∧ Transaction_hash (E:=E) s.(st_tx) = Ok (transaction_hash bs).
Proof.
  intros Hs. apply obind_ok in Hs as (bs & Hs & _). apply obind_ok in Hs as (tx & Htx & _).
  exists tx. split; [done|]. unfold Transaction_hash. by rewrite Htx.
Qed.

Lemma sizes_hashes `{CoreLib} {E} txs n :
  sizes (E:=E) txs = Ok n → ∃ hs, tx_hashes (E:=E) txs = Ok hs ∧ length hs = length txs.
Proof.
  revert n. induction txs as [|s txs IH]; intros n Hn; [by exists []|].
  apply obind_ok in Hn as (a & Ha & Hn). apply obind_ok in Hn as (b & Hb & _).
  destruct (size_hash s a Ha) as (bs & _ & Hh). destruct (IH b Hb) as (hs & Hhs & Hl).
  exists (transaction_hash bs :: hs). unfold tx_hashes in *. cbn. rewrite Hh. cbn. rewrite Hhs.
  split; [done|]. cbn. by rewrite Hl.
Qed.

Section builder.
Context `{Build}.

(** The builders a proposer can reach, by any calls that do not set a limit below what has been
    taken already. *)
Inductive reachable : BlockBuilder → Prop :=
| reach_new height prev proposer chain_id timestamp max_size max_gas :
    reachable (with_max_gas (with_max_size (BlockBuilder_new height prev proposer chain_id timestamp)
                               max_size) max_gas)
| reach_transaction b tx accepted b' :
    reachable b → add_transaction (E:=TransactionError) tx b = (Ok accepted, b') → reachable b'
| reach_max_gas b max_gas :
    reachable b → b.(bb_current_gas) <= max_gas → reachable (with_max_gas b max_gas)
| reach_max_size b max_size n :
    reachable b → sizes (E:=TransactionError) b.(bb_transactions) = Ok n → n <= max_size →
    reachable (with_max_size b max_size)
| reach_result b r : reachable b → reachable (add_compute_result b r)
| reach_state_root b h : reachable b → reachable (with_state_root b h)
| reach_extra_data b d : reachable b → reachable (with_extra_data b d).

(** When a transaction is taken. *)
Lemma add_transaction_exact tx b :
  overflow_checks = true →
  match add_transaction (E:=TransactionError) tx b with
  | (Ok true, b') =>
      ∃ n m, sizes (E:=TransactionError) b.(bb_transactions) = Ok n
        ∧ SignedTransaction_size (E:=TransactionError) tx = Ok m
        ∧ b.(bb_current_gas) + tx.(st_tx).(tx_gas_limit) <= b.(bb_max_gas) ∧ n + m <= b.(bb_max_size)
        ∧ b' = {| bb_header := b.(bb_header); bb_transactions := b.(bb_transactions) ++ [tx];
                  bb_compute_results := b.(bb_compute_results); bb_max_size := b.(bb_max_size);
                  bb_max_gas := b.(bb_max_gas);
                  bb_current_gas := b.(bb_current_gas) + tx.(st_tx).(tx_gas_limit) |}
  | (Ok false, b') =>
      b' = b ∧ (b.(bb_max_gas) < b.(bb_current_gas) + tx.(st_tx).(tx_gas_limit)
                ∨ ∃ n m, sizes (E:=TransactionError) b.(bb_transactions) = Ok n
                    ∧ SignedTransaction_size (E:=TransactionError) tx = Ok m ∧ b.(bb_max_size) < n + m)
  | (_, b') => b' = b
  end.
Proof.
  intros Hov. unfold add_transaction. rewrite bind_get. cbv zeta. unfold u_add, overflow. rewrite Hov.
  case_bool_decide as Hfit; [|done]. rewrite bind_lift_ok. case_bool_decide as Hgas; [by split; [|left]|].
  destruct (sizes (bb_transactions b)) as [n| | |] eqn:Hn; try done. rewrite bind_lift_ok.
  destruct (SignedTransaction_size tx) as [m| | |] eqn:Hm; try done. rewrite bind_lift_ok.
  case_bool_decide as Hsize.
  - split; [done|]. right. by exists n, m.
  - cbn. exists n, m. split_and!; try done; lia.
Qed.

Record builder_inv (b : BlockBuilder) : Prop := {
  bi_gas : b.(bb_current_gas) = gas_sum b.(bb_transactions);
  bi_max_gas : b.(bb_current_gas) <= b.(bb_max_gas);
  bi_size : ∃ n, sizes (E:=TransactionError) b.(bb_transactions) = Ok n ∧ n <= b.(bb_max_size);
  bi_extra : (length b.(bb_header).(bh_extra_data) <= 32)%nat;
}.

Lemma reachable_inv b : overflow_checks = true → reachable b → builder_inv b.
Proof.
  intros Hov. induction 1 as [| b tx accepted b' _ [Hg Hm (n & Hn & Hs) He] Hrun
    |b max_gas _ [] Hle|b max_size n _ [] Hn Hle|b r _ []|b h _ []|b d _ []];
    try (split; cbn; by eauto).
  - split; cbn; try lia. exists 0. split; [done|lia].
  - pose proof (add_transaction_exact tx b Hov) as Hex. rewrite Hrun in Hex. destruct accepted.
    + destruct Hex as (n' & m & Hn' & Hm' & Hgas & Hsize & ->). split; cbn; try done.
      * by rewrite gas_sum_snoc, Hg.
      * exists (n' + m). split; [by apply sizes_snoc|done].
    + destruct Hex as [-> _]. split; eauto.
  - split; cbn; try done. rewrite length_take. lia.
Qed.

Lemma total_gas_sum {E} b :
  gas_sum b.(bk_transactions) <= U64_MAX → total_gas_used (E:=E) b = Ok (gas_sum b.(bk_transactions)).
Proof.
  unfold total_gas_used, gas_sum. intros Hle. by rewrite sum_checked_ok.
Qed.
End builder.

(** ** Identifiers *)
Record block_header_wf (h : BlockHeader) : Prop := {
  hw_version : h.(bh_version) <= U32_MAX;
  hw_height : h.(bh_height) <= U64_MAX;
  hw_timestamp : h.(bh_timestamp) <= U64_MAX;
  hw_roots : hashes [h.(bh_prev_block_id); h.(bh_tx_root); h.(bh_state_root); h.(bh_compute_root)];
  hw_proposer : length h.(bh_proposer).(ad_bytes) = 20%nat;
  hw_chain : h.(bh_chain_id) <= U64_MAX;
}.

Lemma block_header_inj h h' :
  block_header_wf h → block_header_wf h' → BlockHeader_to_bytes h = BlockHeader_to_bytes h' → h = h'.
Proof.
  intros [Hv Hh Ht Hr Hp Hc] [Hv' Hh' Ht' Hr' Hp' Hc']. decompose_Forall. intros Heq.
  unfold BlockHeader_to_bytes in Heq.
  do 3 (apply app_inj_1 in Heq as [? Heq]; [|by rewrite !length_to_le_bytes]).
  do 4 (apply app_inj_1 in Heq as [? Heq]; [|congruence]).
  unfold Address_serialize in Heq.
  apply (app_inj_1 (_ :: _) (_ :: _)) in Heq as [Had Heq]; [|cbn; congruence].
  apply app_inj_1 in Heq as [? Heq]; [|by rewrite !length_to_le_bytes].
  apply app_inj_1 in Heq as [_ Hd]; [|done]. injection Had as Hty Hb.
  repeat match goal with
  | E : to_le_bytes _ _ = to_le_bytes _ _ |- _ => apply to_le_bytes_inj in E; [|cbn; lia..]
  end.
  destruct h as [? ? ? ? ? ? ? [ty ?]], h' as [? ? ? ? ? ? ? [ty' ?]]; cbn in *. subst.
  by destruct ty, ty'.
Qed.

Section identifiers.
Context `{CoreLib}.

Lemma block_hash_binds x y : block_hash x = block_hash y → x = y ∨ sha_collision.
Proof.
  unfold block_hash, Sha256Hasher_hash_many, Sha256Hasher_finalize, Sha256Hasher_update. cbn [foldl].
  rewrite !app_nil_l. intros Heq.
  destruct (decide (string_bytes "aethelred:block:v1:" ++ x = string_bytes "aethelred:block:v1:" ++ y))
    as [He|Hne]; [left; by apply app_inv_head in He|right; by do 2 eexists].
Qed.

Lemma tx_hashes_hashes `{!CoreLaws} {E} txs hs : tx_hashes (E:=E) txs = Ok hs → hashes hs.
Proof.
  revert hs. induction txs as [|s txs IH]; intros hs Hh; unfold tx_hashes in *; cbn in Hh.
  - by injection Hh as <-.
  - apply obind_ok in Hh as (h & H1 & Hh). apply obind_ok in Hh as (hs' & H2 & Hh).
    assert (hs = h :: hs') as -> by congruence. constructor; [|by apply IH].
    apply obind_ok in H1 as (bs & _ & H1). assert (h = transaction_hash bs) as -> by congruence.
    unfold transaction_hash, Sha256Hasher_hash_many, Sha256Hasher_finalize. apply sha256_32.
Qed.

Lemma tx_hashes_length {E} txs hs : tx_hashes (E:=E) txs = Ok hs → length hs = length txs.
Proof.
  revert hs. induction txs as [|s txs IH]; intros hs Hh; unfold tx_hashes in *; cbn in Hh.
  - by injection Hh as <-.
  - apply obind_ok in Hh as (h & _ & Hh). apply obind_ok in Hh as (hs' & H2 & Hh).
    assert (hs = h :: hs') as -> by congruence. cbn. by rewrite (IH hs' H2).
Qed.

(** One list of hashes, one list of signing bytes. *)
Lemma tx_hashes_bind {E} txs txs' hs :
  tx_hashes (E:=E) txs = Ok hs → tx_hashes (E:=E) txs' = Ok hs →
  Forall2 (λ s s', to_signing_bytes (E:=E) s.(st_tx) = to_signing_bytes (E:=E) s'.(st_tx)) txs txs' ∨ sha_collision.
Proof.
  revert txs' hs. induction txs as [|s txs IH]; intros txs' hs Hh Hh';
    pose proof (tx_hashes_length _ _ Hh) as Hl; pose proof (tx_hashes_length _ _ Hh') as Hl'.
  { left. destruct txs'; [constructor|]. by rewrite Hl in Hl'. }
  destruct txs' as [|s' txs']; [by rewrite Hl in Hl'|]. unfold tx_hashes in *; cbn in Hh, Hh'.
  apply obind_ok in Hh as (h & H1 & Hh). apply obind_ok in Hh as (l & H2 & Hh).
  apply obind_ok in Hh' as (h' & H1' & Hh'). apply obind_ok in Hh' as (l' & H2' & Hh').
  assert (h' = h ∧ l' = l) as [-> ->] by (split; congruence).
  destruct (IH txs' l H2 H2') as [Hf|]; [|by right].
  apply obind_ok in H1 as (bs & Hb & Hv), H1' as (bs' & Hb' & Hv').
  assert (transaction_hash bs = transaction_hash bs') as Heq by congruence.
  apply transaction_hash_binds in Heq as [->|]; [left|by right]. constructor; [congruence|done].
Qed.
End identifiers.

(** ** What a block promises *)
Section promises.
Context `{Build, CoreLib}.

(** C32: whatever transactions and results are offered to a builder, in a build that checks
    overflow, and as long as its limits are not set below what it has taken already, the
    block it builds exists, carries the Merkle root of its transactions, which ask for at
    most the gas of the limit and are together at most as long as the limit on the size
    (the header and the results, which the size of a block counts too, are not limited),
    and at most 32 bytes of extra data. *)
Theorem built_block_sound b :
  overflow_checks = true → reachable b →
  ∃ blk n, BlockBuilder_build (E:=TransactionError) b = Ok blk
    ∧ verify_tx_root (E:=TransactionError) blk = Ok true
    ∧ blk.(bk_transactions) = b.(bb_transactions)
    ∧ (b.(bb_max_gas) <= U64_MAX → total_gas_used (E:=TransactionError) blk = Ok (gas_sum b.(bb_transactions)))
    ∧ gas_sum b.(bb_transactions) <= b.(bb_max_gas)
    ∧ sizes (E:=TransactionError) blk.(bk_transactions) = Ok n ∧ n <= b.(bb_max_size)
    ∧ (length blk.(bk_header).(bh_extra_data) <= 32)%nat.
Proof.
  intros Hov Hreach. destruct (reachable_inv b Hov Hreach) as [Hg Hm (n & Hn & Hs) He].
  destruct (sizes_hashes _ _ Hn) as (hs & Hhs & Hlen).
  assert (∀ l, ∃ r, merkle_root (E:=TransactionError) l = Ok r) as Hroot.
  { intros l. destruct (decide (l = [])) as [->|Hne]; [by eexists|].
    destruct (merkle_root_loop (E:=TransactionError) l Hne) as (r & ? & _). by exists r. }
  destruct (Hroot hs) as (root & Hr), (Hroot (compute_leaf <$> b.(bb_compute_results))) as (croot & Hcr).
  eexists _, n. split.
  { unfold BlockBuilder_build. rewrite Hhs, obind_ret, Hr, obind_ret, Hcr, obind_ret. done. }
  cbn [bk_transactions bk_header with_roots bh_extra_data]. split_and!; try done; try lia.
  - unfold verify_tx_root, compute_tx_root. cbn [bk_transactions bk_header with_roots bh_tx_root].
    destruct (bb_transactions b) as [|s txs] eqn:Htx.
    + assert (hs = []) as -> by by destruct hs. injection Hr as <-. by rewrite obind_ret, bool_decide_true.
    + rewrite Hhs, obind_ret, Hr, obind_ret. by rewrite bool_decide_true.
  - intros Hmax. apply total_gas_sum. cbn [bk_transactions]. lia.
Qed.

(** The identifier of a block fixes its header, and with it the transactions: two
    blocks of one identifier whose transaction roots verify and that hold as many
    transactions agree on the signed bytes of each, or a collision of SHA-256 is at
    hand.  (Neither signatures nor votes nor results are covered.) *)
Lemma block_id_binds `{!CoreLaws} b b' :
  block_header_wf b.(bk_header) → block_header_wf b'.(bk_header) → Block_id b = Block_id b' →
  verify_tx_root (E:=TransactionError) b = Ok true → verify_tx_root (E:=TransactionError) b' = Ok true →
  tx_count b = tx_count b' →
  (b.(bk_header) = b'.(bk_header)
   ∧ Forall2 (λ s s', to_signing_bytes (E:=TransactionError) s.(st_tx)
                      = to_signing_bytes (E:=TransactionError) s'.(st_tx))
       b.(bk_transactions) b'.(bk_transactions))
  ∨ sha_collision.
Proof.
  intros Hwf Hwf' Hid Hv Hv' Hn. apply block_hash_binds in Hid as [Hid|]; [|by right].
  apply block_header_inj in Hid; [|done..].
  assert (length b.(bk_transactions) = length b'.(bk_transactions)) as Hl by (unfold tx_count in Hn; lia).
  unfold verify_tx_root in Hv, Hv'. apply obind_ok in Hv as (r & Hr & Hv), Hv' as (r' & Hr' & Hv').
  assert (r = bh_tx_root b.(bk_header) ∧ r' = bh_tx_root b'.(bk_header)) as [-> ->].
  { injection Hv as Hv. injection Hv' as Hv'. by bool_facts. }
  rewrite <- Hid in Hr'. unfold compute_tx_root in Hr, Hr'.
  destruct (bk_transactions b) as [|s txs] eqn:Htx, (bk_transactions b') as [|s' txs'] eqn:Htx'; try done.
  { left. by split. }
  apply obind_ok in Hr as (hs & Hhs & Hr), Hr' as (hs' & Hhs' & Hr').
  pose proof (tx_hashes_length _ _ Hhs) as Hlh. pose proof (tx_hashes_length _ _ Hhs') as Hlh'.
  assert (hs ≠ [] ∧ hs' ≠ []) as [Hne Hne'] by (split; intros ->; done).
  destruct (merkle_root_loop (E:=TransactionError) hs Hne) as (x & Hx & Hloop).
  destruct (merkle_root_loop (E:=TransactionError) hs' Hne') as (x' & Hx' & Hloop').
  assert (hs = hs' ∨ sha_collision) as [->|]; [| |by right].
  { apply (loop_binds (length hs)); [congruence|by eapply tx_hashes_hashes..|].
    rewrite Hloop, Hlh, Hl, <- Hlh', Hloop'. congruence. }
  destruct (tx_hashes_bind _ _ _ Hhs Hhs') as [Hf|?]; [by left|by right].
Qed.
End promises.

(** ** Witnesses *)

(** In a build without overflow checks the gas of a block wraps around: a transaction
    whose gas limit is close to [u64::MAX] is taken into a block that already has gas. *)
Definition plain_tx (gas : N) : SignedTransaction := {|
  st_tx := with_gas (Transaction_transfer Address_ZERO Address_REWARDS 1 0) 1 gas;
  st_signature := HybridSignature_new (replicate 64 0) [] Level3;
  st_public_key := alice.(kp_public_key) |}.

Definition release_build : Build :=
  {| overflow_checks := false; feature_sgx := true; feature_zkp := true |}.

Definition builder1 : BlockBuilder :=
  with_max_gas (with_max_size (BlockBuilder_new 1 BlockId_ZERO Address_ZERO 1 0) 1048576) 10000000.
Definition builder2 : BlockBuilder :=
  (add_transaction (H := dev_build) (E:=TransactionError) (plain_tx 21000) builder1).2.

Lemma block_gas_wraps :
  (add_transaction (H := release_build) (E:=TransactionError) (plain_tx U64_MAX) builder2).1 = Ok true
  ∧ (add_transaction (H := dev_build) (E:=TransactionError) (plain_tx U64_MAX) builder2).1 = Panic.
Proof. split; vm_compute; reflexivity. Qed.

(** The limit on the size is one on the transactions: an empty block under a limit of zero bytes
    has the size of its header. *)
Lemma empty_block_over_limit : ∃ blk n,
  BlockBuilder_build (H := toy_core) (E:=TransactionError) (with_max_size builder1 0) = Ok blk
  ∧ Block_size (E:=TransactionError) blk = Ok n ∧ 0 < n.
Proof. do 2 eexists. split; [vm_compute; reflexivity|]. split; vm_compute; reflexivity. Qed.

Lemma builder2_reachable : reachable (H := dev_build) builder2.
Proof.
  apply (reach_transaction builder1 (plain_tx 21000) true builder2); [constructor|].
  vm_compute. reflexivity.
Qed.

Lemma built_block_sound_witness : ∃ blk,
  BlockBuilder_build (H := toy_core) (E:=TransactionError) builder2 = Ok blk
  ∧ verify_tx_root (H := toy_core) (E:=TransactionError) blk = Ok true.
Proof.
  destruct (built_block_sound (H := dev_build) (H0 := toy_core) builder2 eq_refl builder2_reachable)
    as (blk & n & Hb & Hv & _).
  exists blk. split; [exact Hb|exact Hv].
Defined.

Lemma block_id_binds_witness :
  (Block_genesis 1 5).(bk_header) = (Block_genesis 1 5).(bk_header)
  ∧ ∃ b, b = Block_genesis 1 5 ∧
    ((b.(bk_header) = b.(bk_header)
      ∧ Forall2 (λ s s', to_signing_bytes (E:=TransactionError) s.(st_tx)
                      = to_signing_bytes (E:=TransactionError) s'.(st_tx))
          b.(bk_transactions) b.(bk_transactions)) ∨ sha_collision (H := toy_core)).
Proof.
  split; [reflexivity|]. exists (Block_genesis 1 5). split; [reflexivity|].
  apply (block_id_binds (H0 := toy_core) (Block_genesis 1 5) (Block_genesis 1 5));
    [| |reflexivity|reflexivity|reflexivity|reflexivity]; (split; [vm_compute; discriminate..| | |]);
    (vm_compute; first [discriminate | reflexivity | repeat constructor]).
Defined.
