(* ===== verification/CoreJobSpec.v ===== *)
(** * Theorems on jobs and seals

    Each validator counts once, a majority is a majority of distinct validators, and
    it is unique exactly as far as the threshold makes it so; the identifier of a seal
    fixes what was computed and when, and nothing else. *)
From S2P Require Import Prelude SysTypes Precompile CoreHash Hybrid HybridSpec CoreTx CoreSamples CoreSpec CoreJob.
From stdpp Require Import base list strings.
From Stdlib Require Import ZArith Lia.
#[local] Open Scope N_scope.
#[local] Arguments to_le_bytes : simpl never.

(** ** Jobs *)
Section jobs.
Import Job.

(** A job after its submission: assignments and results in any order. *)
Inductive progress (j0 : ComputeJob) : ComputeJob → Prop :=
| progress_start : progress j0 j0
| progress_assign v j : progress j0 j → progress j0 (assign_validator v j)
| progress_result r j : progress j0 j → progress j0 (add_result r j).

Record job_inv (j : ComputeJob) : Prop := {
  ji_assigned : NoDup j.(jb_assigned_validators);
  ji_results : NoDup (cr_validator <$> j.(jb_results));
  ji_status : j.(jb_status) = Pending ∨ j.(jb_status) = Assigned ∨ j.(jb_status) = Verifying;
  ji_pending : j.(jb_status) = Pending ↔ j.(jb_assigned_validators) = [];
  ji_verifying : j.(jb_status) = Verifying → j.(jb_results) ≠ [];
}.

Lemma assign_inv v j : job_inv j → job_inv (assign_validator v j).
Proof.
  intros Hj. unfold assign_validator. case_bool_decide as Hin; [done|]. destruct Hj as [Ha Hr Hs Hp Hv].
  split; cbn.
  - apply NoDup_app. split_and!; [done| |apply NoDup_singleton]. intros x Hx ->%list_elem_of_singleton. done.
  - done.
  - case_bool_decide; auto.
  - split; [|by destruct (jb_assigned_validators j)]. case_bool_decide; [done|]. tauto.
  - case_bool_decide; [done|]. done.
Qed.

Lemma result_inv r j : job_inv j → job_inv (add_result r j).
Proof.
  intros Hj. unfold add_result. destruct (existsb _ _) eqn:Hin; [done|]. destruct Hj as [Ha Hr Hs Hp Hv].
  split; cbn.
  - done.
  - rewrite fmap_app. apply NoDup_app. split_and!; [done| |apply NoDup_singleton].
    intros x Hx Hxr. apply list_elem_of_singleton in Hxr as ->. apply list_elem_of_fmap in Hx as (r' & Heq & Hr').
    assert (existsb (λ r0, bool_decide (cr_validator r0 = cr_validator r)) (jb_results j) = true) as Hc; [|congruence].
    apply existsb_exists. exists r'. split; [by apply list_elem_of_In|by apply bool_decide_true].
  - destruct Hs as [->|[->| ->]]; cbn; auto.
  - rewrite <- Hp. destruct Hs as [->|[->| ->]]; cbn; split; done.
  - intros _. by destruct (jb_results j).
Qed.

Lemma progress_inv j0 j : job_inv j0 → progress j0 j → job_inv j.
Proof. intros H0. induction 1; auto using assign_inv, result_inv. Qed.

Lemma new_inv `{Build, CoreLib} m i a now j :
  ComputeJob_new (E:=string) m i a now = Ok j → job_inv j.
Proof.
  unfold ComputeJob_new. destruct now; [|done]. intros Hn. apply obind_ok in Hn as (e & _ & Hn).
  injection Hn as <-. split; cbn; auto using NoDup_nil_2; done.
Qed.

(** The threshold is read from a field the assignments do not touch. *)
Lemma progress_threshold j0 j : progress j0 j → threshold j = threshold j0.
Proof.
  induction 1 as [|v j _ IH|r j _ IH]; [done|..]; rewrite <- IH.
  - unfold assign_validator. by case_bool_decide.
  - unfold add_result. by destruct (existsb _ _).
Qed.

(** ** The majority *)
Definition reporters (h : Hash256) (j : ComputeJob) : list CoreAddress :=
  cr_validator <$> filter (λ r, r.(cr_output_hash) = h) j.(jb_results).

Lemma counts_entry results h n :
  (h, n) ∈ counts results ↔ n = votes_for h results ∧ h ∈ cr_output_hash <$> results.
Proof.
  unfold counts. rewrite list_elem_of_fmap. setoid_rewrite elem_of_remove_dups.
  split; [intros (h' & Heq & Hin); by simplify_eq|intros [-> ?]; by exists h].
Qed.

Lemma find_spec {A} (p : A → bool) l x : List.find p l = Some x → p x = true ∧ x ∈ l.
Proof. intros Hf. split; [by eapply List.find_some|]. apply List.find_some in Hf as [Hin _]. by apply list_elem_of_In. Qed.
Lemma find_none {A} (p : A → bool) l : List.find p l = None ↔ ∀ x, x ∈ l → p x = false.
Proof.
  split; [intros Hf x Hx; by eapply List.find_none; [|apply list_elem_of_In]|].
  intros Hall. destruct (List.find p l) as [x|] eqn:Hf; [|done]. apply find_spec in Hf as [Hp Hx].
  by rewrite Hall in Hp.
Qed.

Section majority.
Context (order : list (Hash256 * N) → list (Hash256 * N)) (Horder : ∀ l, order l ≡ₚ l).

Lemma majority_some j r :
  majority_result order j = Some r →
  r ∈ j.(jb_results) ∧ threshold j <= votes_for r.(cr_output_hash) j.(jb_results)
  ∧ List.find (λ r', bool_decide (r'.(cr_output_hash) = r.(cr_output_hash))) j.(jb_results) = Some r.
Proof.
  unfold majority_result. destruct (jb_results j) as [|r0 rs] eqn:Hrs; [done|]. rewrite <- Hrs.
  destruct (List.find _ (order _)) as [[h n]|] eqn:He; [|done]. cbn. intros Hf.
  apply find_spec in He as [Hn He]. cbn in Hn. rewrite Horder in He. apply counts_entry in He as [-> _].
  pose proof Hf as Hf'. apply find_spec in Hf' as [Hh Hin]. bool_facts. subst h. done.
Qed.

Lemma majority_exists j :
  is_Some (majority_result order j)
  ↔ ∃ h, h ∈ cr_output_hash <$> j.(jb_results) ∧ threshold j <= votes_for h j.(jb_results).
Proof.
  split.
  - intros [r Hr]. apply majority_some in Hr as (Hin & Ht & _). exists (cr_output_hash r).
    split; [by apply list_elem_of_fmap_2|done].
  - intros (h & Hin & Ht). unfold majority_result.
    destruct (jb_results j) as [|r0 rs] eqn:Hrs; [by apply not_elem_of_nil in Hin|]. rewrite <- Hrs in *.
    destruct (List.find (λ e, bool_decide (threshold j <= e.2)) _) as [[h' n]|] eqn:He.
    + cbn. apply find_spec in He as [_ He]. rewrite Horder in He. apply counts_entry in He as [_ He].
      destruct (List.find _ _) eqn:Hf; [by eexists|]. rewrite find_none in Hf.
      apply list_elem_of_fmap in He as (r & -> & Hr). specialize (Hf r Hr). by bool_facts.
    + rewrite find_none in He. specialize (He (h, votes_for h (jb_results j))).
      rewrite Horder, counts_entry in He. cbn in He. specialize (He (conj eq_refl Hin)). by bool_facts.
Qed.
End majority.

Lemma votes_disjoint h h' results :
  h ≠ h' → votes_for h results + votes_for h' results <= N.of_nat (length results).
Proof.
  intros Hne. unfold votes_for. induction results as [|r rs IH]; [done|].
  rewrite !filter_cons. repeat case_decide; cbn [length]; try lia. congruence.
Qed.

Lemma majority_unique order order' j :
  (∀ l, order l ≡ₚ l) → (∀ l, order' l ≡ₚ l) →
  N.of_nat (length j.(jb_results)) < 2 * threshold j → majority_result order j = majority_result order' j.
Proof.
  intros Ho Ho' Hlt.
  destruct (majority_result order j) as [r|] eqn:Hr.
  - destruct (majority_exists order' Ho' j) as [_ Hex].
    destruct Hex as [r' Hr'].
    { apply (majority_exists order Ho). by eexists. }
    apply majority_some in Hr as (_ & Ht & Hf); [|done]. pose proof Hr' as Hm. apply majority_some in Hr' as (_ & Ht' & Hf'); [|done].
    assert (cr_output_hash r' = cr_output_hash r) as Heq.
    { destruct (decide (cr_output_hash r' = cr_output_hash r)); [done|].
      pose proof (votes_disjoint (cr_output_hash r') (cr_output_hash r) (jb_results j)) as Hd. specialize (Hd ltac:(done)). lia. }
    rewrite Hm. rewrite Heq in Hf'. congruence.
  - destruct (majority_result order' j) as [r'|] eqn:Hr'; [|done].
    destruct (majority_exists order Ho j) as [_ Hex]. destruct Hex as [? Hc]; [|congruence].
    apply (majority_exists order' Ho'). by eexists.
Qed.

(** A job counts each validator once, so that a majority is one of distinct
    validators: whatever assignments and results arrive and however the hash map is
    iterated, the majority result is one of the results, at least half of the
    attestations asked for (rounded up), by as many validators, report its output, and
    there is one exactly when some output has that many; with fewer results than twice
    the threshold it does not depend on the order. *)
Lemma majority_sound `{Build, CoreLib} m i a now j0 params j order order' :
  ComputeJob_new (E:=string) m i a now = Ok j0 → (∀ l, order l ≡ₚ l) → (∀ l, order' l ≡ₚ l) →
  progress (with_min_attestations params j0) j →
  NoDup (cr_validator <$> j.(jb_results))
  ∧ threshold j = (params + 1) / 2
  ∧ (∀ r, majority_result order j = Some r →
       r ∈ j.(jb_results) ∧ NoDup (reporters r.(cr_output_hash) j)
       ∧ (params + 1) / 2 <= N.of_nat (length (reporters r.(cr_output_hash) j)))
  ∧ (is_Some (majority_result order j) ↔ ∃ h, h ∈ cr_output_hash <$> j.(jb_results)
       ∧ (params + 1) / 2 <= N.of_nat (length (reporters h j)))
  ∧ (N.of_nat (length j.(jb_results)) < 2 * ((params + 1) / 2) →
     majority_result order j = majority_result order' j).
Proof.
  intros Hnew Ho Ho' Hp.
  assert (job_inv (with_min_attestations params j0)) as Hinv.
  { apply new_inv in Hnew as []. by split. }
  pose proof (progress_inv _ _ Hinv Hp) as [_ Hnd _ _ _].
  pose proof (progress_threshold _ _ Hp) as Ht. change (threshold (with_min_attestations params j0)) with ((params + 1) / 2) in Ht.
  assert (∀ h, N.of_nat (length (reporters h j)) = votes_for h (jb_results j)) as Hrep.
  { intros h. unfold reporters, votes_for. by rewrite length_fmap. }
  setoid_rewrite Hrep. rewrite <- Ht. split_and!; try done.
  - intros r Hr. apply majority_some in Hr as (Hin & Hth & _); [|done]. split_and!; [done| |done].
    unfold reporters. eapply sublist_NoDup; [exact Hnd|]. apply fmap_sublist, sublist_filter.
  - by apply majority_exists.
  - by apply majority_unique.
Qed.
End jobs.

(** ** Seals *)
Section seals.
Import Seal.
Context `{CoreLib}.

Record seal_wf (s : DigitalSeal) : Prop := {
  sw_hashes : hashes [s.(ds_job_id); s.(ds_model_commitment); s.(ds_input_commitment); s.(ds_output_commitment)];
  sw_timestamp : s.(ds_timestamp) <= U64_MAX;
}.

Lemma core_sha256_binds x y : sha256_of x = sha256_of y → x = y ∨ sha_collision.
Proof.
  unfold sha256_of, Sha256Hasher_hash, Sha256Hasher_finalize, Sha256Hasher_update. rewrite !app_nil_l. intros Heq.
  destruct (decide (x = y)); [by left|right; by exists x, y].
Qed.

(** A seal is built exactly when there is evidence (and a clock), it is final at
    once and its identifier verifies; the identifier fixes the job, the model, the
    input, the output and the time of the seal, or a collision of SHA-256 is at hand. *)
Lemma seal_id_binds b height now s t :
  (build b height (Some now) = Ok s →
     b.(sb_evidence) = Some s.(ds_evidence) ∧ verify_id s = true ∧ is_finalized s = true
     ∧ s.(ds_timestamp) <= U64_MAX)
  ∧ (b.(sb_evidence) = None → build b height (Some now) = Err "Evidence required"%string)
  ∧ (seal_wf s → seal_wf t → verify_id s = true → verify_id t = true → s.(ds_id) = t.(ds_id) →
     (s.(ds_job_id) = t.(ds_job_id) ∧ s.(ds_model_commitment) = t.(ds_model_commitment)
      ∧ s.(ds_input_commitment) = t.(ds_input_commitment)
      ∧ s.(ds_output_commitment) = t.(ds_output_commitment) ∧ s.(ds_timestamp) = t.(ds_timestamp))
     ∨ sha_collision).
Proof.
  split_and!.
  - unfold build. destruct (sb_evidence b) as [e|]; [|done]. intros [= <-]. cbn. split_and!; [done| |done|lia].
    by apply bool_decide_true.
  - intros He. unfold build. by rewrite He.
  - intros [Hs Hts] [Ht Htt] Hvs Hvt Heq. unfold verify_id, compute_id in *. bool_facts.
    rewrite Hvs, Hvt in Heq. apply core_sha256_binds in Heq as [Heq|]; [left|by right].
    unfold seal_id_data in Heq. clear Hvs Hvt. revert Heq. decompose_Forall. intros Heq.
    do 4 (apply app_inj_1 in Heq as [? Heq]; [|congruence]).
    apply to_le_bytes_inj in Heq; [|cbn; lia..]. done.
Qed.

(** Evidence, validators, requester and status are outside: a seal with other evidence,
    even none at all, has the same identifier. *)
Definition set_evidence (e : SealEvidence) (validators : list CoreAddress) (s : DigitalSeal) : DigitalSeal := {|
  ds_id := s.(ds_id); ds_version := s.(ds_version); ds_job_id := s.(ds_job_id);
  ds_model_commitment := s.(ds_model_commitment); ds_input_commitment := s.(ds_input_commitment);
  ds_output_commitment := s.(ds_output_commitment); ds_evidence := e;
  ds_block_height := s.(ds_block_height); ds_timestamp := s.(ds_timestamp);
  ds_requester := s.(ds_requester); ds_validators := validators; ds_purpose := s.(ds_purpose);
  ds_compliance_frameworks := s.(ds_compliance_frameworks);
  ds_data_residency := s.(ds_data_residency); ds_status := s.(ds_status) |}.

Lemma seal_evidence_unbound s validators :
  verify_id s = true →
  let s' := set_evidence (TeeOnly []) validators s in verify_id s' = true ∧ has_valid_evidence s' = false.
Proof. done. Qed.

Lemma seal_without_evidence job now :
  ∃ s, build (builder_call (evidence (TeeOnly [])) (SealBuilder_new job)) 1 (Some now) = Ok s
    ∧ is_finalized s = true ∧ has_valid_evidence s = false.
Proof. by eexists. Qed.
End seals.

(** ** Witnesses *)
Section split_vote.
Import Job.

Definition result_of (v : N) (h : N) : ComputeResult := {|
  cr_job_id := Hash256.ZERO; cr_validator := {| ad_type := Validator; ad_bytes := replicate 20 v |};
  cr_output_hash := replicate 32 h; cr_output := None; cr_tee_attestation := None; cr_zkml_proof := None;
  cr_execution_time_ms := 0; cr_timestamp := 0; cr_signature := [] |}.

Definition job0 : ComputeJob := {|
  jb_id := sha256_of (H := toy_core) (id_data Hash256.ZERO Hash256.ZERO Address_ZERO 0);
  jb_version := 1; jb_model_hash := Hash256.ZERO; jb_input_hash := Hash256.ZERO; jb_model_id := None;
  jb_input_ref := None; jb_model_ref := None; jb_verification_method := HybridReq;
  jb_min_attestations := 2; jb_hardware_requirements := HardwareRequirements_default;
  jb_max_latency_ms := 30000; jb_priority := 5; jb_expiry := 3600; jb_compliance := [];
  jb_data_residency := None; jb_audit_required := false; jb_requester := Address_ZERO;
  jb_max_fee := 0; jb_submitted_at := 0; jb_status := Pending; jb_assigned_validators := [];
  jb_results := [] |}.

(** With the default of two attestations two validators that disagree, neither of them
    assigned to the job, give consensus, and the hash map decides who wins. *)
Lemma split_vote_ambiguous :
  let j := add_result (result_of 2 9) (add_result (result_of 1 8) job0) in
  has_consensus j = true ∧ j.(jb_assigned_validators) = []
  ∧ majority_result id j = Some (result_of 1 8) ∧ majority_result reverse j = Some (result_of 2 9).
Proof. split_and!; vm_compute; reflexivity. Qed.

Lemma majority_sound_witness :
  let j := add_result (result_of 2 8) (add_result (result_of 1 8) (with_min_attestations 3 job0)) in
  majority_result id j = majority_result reverse j ∧ NoDup (cr_validator <$> j.(jb_results)).
Proof.
  intros j.
  edestruct (majority_sound (H := Samples.dev_build) (H0 := toy_core) Hash256.ZERO Hash256.ZERO Address_ZERO
    (Some 0) job0 3 j id reverse) as (Hnd & _ & _ & _ & Hu).
  - reflexivity.
  - reflexivity.
  - intros l. apply reverse_Permutation.
  - apply progress_result, progress_result, progress_start.
  - split; [apply Hu; vm_compute; reflexivity|exact Hnd].
Defined.
End split_vote.

Section seal_sample.
Import Seal.

Definition sample_builder : SealBuilder :=
  builder_call (evidence (ZkmlOnly [1] Hash256.ZERO [])) (SealBuilder_new Hash256.ZERO).

Definition sample_seal : DigitalSeal := {|
  ds_id := pad 32 []; ds_version := 1; ds_job_id := Hash256.ZERO; ds_model_commitment := Hash256.ZERO;
  ds_input_commitment := Hash256.ZERO; ds_output_commitment := Hash256.ZERO;
  ds_evidence := ZkmlOnly [1] Hash256.ZERO []; ds_block_height := 7; ds_timestamp := 5;
  ds_requester := Address_ZERO; ds_validators := []; ds_purpose := EmptyString;
  ds_compliance_frameworks := []; ds_data_residency := None; ds_status := Finalized |}.

Lemma seal_id_binds_witness :
  verify_id (H := toy_core) sample_seal = true
  ∧ (sample_seal.(ds_timestamp) = (set_evidence (TeeOnly []) [] sample_seal).(ds_timestamp)
     ∨ sha_collision (H := toy_core)).
Proof.
  destruct (seal_id_binds (H := toy_core)
    sample_builder 7 5000000
    sample_seal (set_evidence (TeeOnly []) [] sample_seal)) as (Hb & _ & Hi).
  split.
  - apply Hb. vm_compute. reflexivity.
  - destruct Hi as [(_ & _ & _ & _ & Ht)|Hc]; [| |vm_compute; reflexivity|vm_compute; reflexivity|reflexivity|left; exact Ht|right; exact Hc];
      (split; [repeat constructor|vm_compute; discriminate]).
Defined.
End seal_sample.
