(* ===== verification/VaultReward.v ===== *)
(** * The reward calculator of the vault service

    [crates/vault/src/reward_calculator.rs] and the types of [types.rs] it uses: the
    multiply-and-divide with a 256-bit intermediate, the allocation of an epoch's rewards to stakers
    by performance-weighted stake, and the Merkle tree of claims with its proofs.
    [sha2], [sha3] and [hex] are an instance of [VaultLib]. *)
From S2P Require Import Prelude SysTypes Sorting F64 Precompile ConsensusTypes.
From stdpp Require Import base list strings pretty.
From Stdlib Require Import ZArith Lia Ascii.
#[local] Open Scope N_scope.

Class VaultLib := {
  v_sha256 : bytes → bytes;
  v_keccak256 : bytes → bytes;
  v_hex_decode : string → option bytes;
}.

(** What the libraries document. *)
Class VaultLaws `{VaultLib} : Prop := {
  v_sha256_32 bs : length (v_sha256 bs) = 32%nat;
  v_keccak256_32 bs : length (v_keccak256 bs) = 32%nat;
  v_sha256_octets bs : Forall (λ b, b < 256) (v_sha256 bs);
  v_keccak256_octets bs : Forall (λ b, b < 256) (v_keccak256 bs);
  v_hex_inverse bs : Forall (λ b, b < 256) bs → v_hex_decode (hex_encode bs) = Some bs;
}.

(** ** [types.rs] *)
Record ScoredValidator := {
  sv_address : string;
  sv_stake : N;
  sv_performance_score : N;
  sv_decentralization_score : N;
  sv_reputation_score : N;
  sv_composite_score : N;
  sv_tee_public_key : string;
  sv_commission_bps : N;
  sv_rank : N;
}.

Record RewardAllocation := {
  ra_address : string;
  ra_base_reward : N;
  ra_performance_bonus : N;
  ra_mev_share : N;
  ra_total_reward : N;
}.

Record StakerStake := {
  sk_address : string;
  sk_shares : N;
  sk_delegated_to : string;
}.

Record CalculateRewardsRequest := {
  rq_epoch : N;
  rq_total_rewards : N;
  rq_mev_revenue : N;
  rq_validators : list ScoredValidator;
  rq_staker_stakes : list StakerStake;
  rq_stake_snapshot_hash : string;
  rq_validator_set_hash : string;
}.

Record MerkleProofEntry := {
  pe_address : string;
  pe_amount : N;
  pe_proof : list string;
  pe_leaf : string;
}.

Record AttestationDocument := {
  ad_platform : N;
  ad_timestamp : N;
  ad_nonce : string;
  ad_enclave_hash : string;
  ad_signer_hash : string;
  ad_payload_hash : string;
  ad_platform_evidence : string;
  ad_signature : string;
}.

Definition AttestationDocument_default : AttestationDocument := {|
  ad_platform := 255; ad_timestamp := 0; ad_nonce := EmptyString; ad_enclave_hash := EmptyString;
  ad_signer_hash := EmptyString; ad_payload_hash := EmptyString; ad_platform_evidence := EmptyString;
  ad_signature := EmptyString |}.

Record CalculateRewardsResponse := {
  rs_epoch : N;
  rs_allocations : list RewardAllocation;
  rs_total_distributed : N;
  rs_protocol_fee : N;
  rs_merkle_root : string;
  rs_merkle_proofs : list MerkleProofEntry;
  rs_attestation : AttestationDocument;
  rs_stake_snapshot_hash : string;
  rs_validator_set_hash : string;
}.

(** ** Constants *)
Definition PROTOCOL_FEE_BPS : N := 500.
Definition PERFORMANCE_BONUS_RATE : f64 := f64_lit 7205759403792794 (-56).
Definition MEV_STAKER_SHARE_BPS : N := 9000.
Definition BPS_DENOMINATOR : N := 10000.
Definition BONUS_BPS : N := f64_as U128_MAX (f64_mul PERFORMANCE_BONUS_RATE (f64_of_N BPS_DENOMINATOR)).

(** ** [muldiv] *)
Definition W128 : N := 2 ^ 128.
Definition MASK64 : N := 0xFFFFFFFFFFFFFFFF.

(** [for i in (0..=255).rev()]: [n] bits are left. *)
Fixpoint div_loop (n : nat) (hi lo d rem quotient : N) : N :=
  match n with
  | O => quotient
  | S n =>
      let i := N.of_nat n in
      let rem_msb := N.shiftr rem 127 in
      let rem := N.shiftl rem 1 mod W128 in
      let bit := if bool_decide (128 <= i) then N.land (N.shiftr hi (i - 128)) 1
                 else N.land (N.shiftr lo i) 1 in
      let rem := N.lor rem bit in
      if negb (bool_decide (rem_msb = 0)) || bool_decide (d <= rem) then
        div_loop n hi lo d ((W128 + rem - d) mod W128)
          (if bool_decide (i < 128) then N.lor quotient (N.shiftl 1 i) else quotient)
      else div_loop n hi lo d rem quotient
  end.

Section arith.
Context `{Build} {E : Type}.

(** [debug_assert!] follows the overflow checks. *)
Definition div_u256_by_u128 (hi lo d : N) : outcome E N :=
  if overflow_checks && bool_decide (d = 0) then Panic
  else if bool_decide (hi = 0) then u_div lo d
  else Ok (div_loop 256 hi lo d 0 0).

Definition muldiv (a b c : N) : outcome E N :=
  if bool_decide (c = 0) then Ok 0
  else if bool_decide (a * b <= U128_MAX) then u_div (a * b) c
  else
    let a_lo := N.land a MASK64 in
    let a_hi := N.shiftr a 64 in
    let b_lo := N.land b MASK64 in
    let b_hi := N.shiftr b 64 in
    ll ← u_mul U128_MAX a_lo b_lo;
    lh ← u_mul U128_MAX a_lo b_hi;
    hl ← u_mul U128_MAX a_hi b_lo;
    hh ← u_mul U128_MAX a_hi b_hi;
    m ← u_add U128_MAX (N.shiftr ll 64) (N.land lh MASK64);
    mid ← u_add U128_MAX m (N.land hl MASK64);
    let lo := N.lor (N.land ll MASK64) (N.shiftl (N.land mid MASK64) 64 mod W128) in
    h ← u_add U128_MAX hh (N.shiftr lh 64);
    h ← u_add U128_MAX h (N.shiftr hl 64);
    hi ← u_add U128_MAX h (N.shiftr mid 64);
    div_u256_by_u128 hi lo c.

Fixpoint map_ok {A B} (f : A → outcome E B) (l : list A) : outcome E (list B) :=
  match l with
  | [] => Ok []
  | x :: l => y ← f x; ys ← map_ok f l; Ok (y :: ys)
  end.
End arith.

(** ** The Merkle tree *)
Section merkle.
Context `{VaultLib}.

(** [s.trim_start_matches("0x")]: every leading [0x] *)
Fixpoint trim_0x (s : string) : string :=
  match s with
  | String "0" (String "x" s) => trim_0x s
  | _ => s
  end.

Definition be_pad (width : nat) (bs : bytes) : bytes := replicate (width - length bs) 0 ++ bs.
Definition to_be_bytes (n : nat) (z : N) : bytes := reverse (to_le_bytes n z).

(** An address as up to 32 bytes; what is not hexadecimal is hashed to twenty. *)
Definition address_bytes (address : string) : bytes :=
  match v_hex_decode (trim_0x address) with
  | Some bs => if bool_decide (length bs <= 32)%nat then bs
               else take 20 (v_sha256 (string_bytes address))
  | None => take 20 (v_sha256 (string_bytes address))
  end.

Definition sha256_abi_encode (address : string) (amount epoch : N) : bytes :=
  v_sha256 (be_pad 32 (address_bytes address) ++ be_pad 32 (to_be_bytes 16 amount)
            ++ be_pad 32 (to_be_bytes 8 epoch)).

Definition hash_pair (left right : bytes) : bytes := v_sha256 (left ++ right).

Definition sorted_pair (a b : bytes) : bytes :=
  if bytes_leb a b then hash_pair a b else hash_pair b a.

(** One level; an odd element is promoted. *)
Fixpoint next_layer (l : list bytes) : list bytes :=
  match l with
  | a :: b :: l => sorted_pair a b :: next_layer l
  | [a] => [a]
  | [] => []
  end.

(** [while current.len() > 1]: the layers behind [current], which is one of them. *)
Fixpoint build_layers (fuel : nat) (current : list bytes) : list (list bytes) :=
  match fuel with
  | O => [current]
  | S fuel => if bool_decide (1 < length current)%nat then current :: build_layers fuel (next_layer current)
              else [current]
  end.

Fixpoint generate_proof (layers : list (list bytes)) (index : nat) : list bytes :=
  match layers with
  | [] => []
  | [_] => []
  | layer :: layers =>
      let sibling := if Nat.even index then S index else Nat.pred index in
      match layer !! sibling with
      | Some h => h :: generate_proof layers (Nat.div2 index)
      | None => generate_proof layers (Nat.div2 index)
      end
  end.

Definition hex0x (bs : bytes) : string := "0x" +:+ hex_encode bs.

Definition leaf (epoch : N) (a : RewardAllocation) : bytes :=
  v_sha256 (sha256_abi_encode a.(ra_address) a.(ra_total_reward) epoch).

Definition zero_root : string := "0x" +:+ hex_encode (replicate 32 0).

Definition proof_entry (epoch : N) (layers : list (list bytes)) (index : nat) (a : RewardAllocation)
  : MerkleProofEntry := {|
  pe_address := a.(ra_address); pe_amount := a.(ra_total_reward);
  pe_proof := hex0x <$> generate_proof layers index; pe_leaf := hex0x (leaf epoch a) |}.

Definition build_merkle_tree (allocations : list RewardAllocation) (epoch : N)
  : string * list MerkleProofEntry :=
  match allocations with
  | [] => (zero_root, [])
  | _ =>
      let leaves := leaf epoch <$> allocations in
      let layers := build_layers (length leaves) leaves in
      let root := default (replicate 32 0) (last layers ≫= head) in
      (hex0x root, imap (proof_entry epoch layers) allocations)
  end.
End merkle.

(** ** [calculate_rewards] *)
Section rewards.
Context `{Build, VaultLib}.

(** The first address that occurs a second time. *)
Fixpoint first_duplicate (seen : list string) (l : list string) : option string :=
  match l with
  | [] => None
  | a :: l => if bool_decide (a ∈ seen) then Some a else first_duplicate (a :: seen) l
  end.

(** [validators.iter().map(..).collect()] into a [HashMap]: the last entry wins. *)
Definition validator_score (validators : list ScoredValidator) (address : string) : option N :=
  sv_performance_score <$> last (filter (λ v, v.(sv_address) = address) validators).

Fixpoint check_delegations (validators : list ScoredValidator) (stakers : list StakerStake)
  : outcome string unit :=
  match stakers with
  | [] => Ok tt
  | s :: stakers =>
      if bool_decide (s.(sk_delegated_to) = EmptyString) then
        Err ("staker " +:+ s.(sk_address)
             +:+ " has empty delegated_to: delegation is mandatory for reward weighting")
      else match validator_score validators s.(sk_delegated_to) with
           | None => Err ("staker " +:+ s.(sk_address) +:+ " delegates to validator " +:+ s.(sk_delegated_to)
                          +:+ " which is not in the active validator set")
           | Some _ => check_delegations validators stakers
           end
  end.

Definition weighted_stake (validators : list ScoredValidator) (s : StakerStake) : outcome string N :=
  match validator_score validators s.(sk_delegated_to) with
  | None => Panic
  | Some perf_score =>
      bonus ← muldiv perf_score BONUS_BPS BPS_DENOMINATOR;
      weight_factor ← u_add U128_MAX BPS_DENOMINATOR bonus;
      muldiv s.(sk_shares) weight_factor BPS_DENOMINATOR
  end.

Definition allocation (request : CalculateRewardsRequest) (distributable total_stake total_weighted : N)
    (w : StakerStake * N) : outcome string RewardAllocation :=
  let '(staker, weight) := w in
  total_reward ← muldiv distributable weight total_weighted;
  base_reward ← muldiv distributable staker.(sk_shares) total_stake;
  mev_pool ← muldiv request.(rq_mev_revenue) MEV_STAKER_SHARE_BPS BPS_DENOMINATOR;
  mev_share ← muldiv mev_pool staker.(sk_shares) total_stake;
  Ok {| ra_address := staker.(sk_address); ra_base_reward := base_reward;
        ra_performance_bonus := sat_sub total_reward base_reward; ra_mev_share := mev_share;
        ra_total_reward := total_reward |}.

Definition response (request : CalculateRewardsRequest) (allocations : list RewardAllocation)
    (total_distributed protocol_fee : N) (root : string) (proofs : list MerkleProofEntry)
  : CalculateRewardsResponse := {|
  rs_epoch := request.(rq_epoch); rs_allocations := allocations;
  rs_total_distributed := total_distributed; rs_protocol_fee := protocol_fee;
  rs_merkle_root := root; rs_merkle_proofs := proofs; rs_attestation := AttestationDocument_default;
  rs_stake_snapshot_hash := EmptyString; rs_validator_set_hash := EmptyString |}.

Definition calculate_rewards (request : CalculateRewardsRequest)
  : outcome string CalculateRewardsResponse :=
  match first_duplicate [] (sk_address <$> request.(rq_staker_stakes)) with
  | Some a => Err ("duplicate staker address in reward request: " +:+ a)
  | None =>
      protocol_fee ← muldiv request.(rq_total_rewards) PROTOCOL_FEE_BPS BPS_DENOMINATOR;
      distributable ← u_sub U128_MAX request.(rq_total_rewards) protocol_fee;
      total_stake ← sum_checked U128_MAX sk_shares request.(rq_staker_stakes) 0;
      if bool_decide (total_stake = 0) then Ok (response request [] 0 protocol_fee zero_root [])
      else
        _ ← check_delegations request.(rq_validators) request.(rq_staker_stakes);
        weights ← map_ok (weighted_stake request.(rq_validators)) request.(rq_staker_stakes);
        total_weighted ← sum_checked U128_MAX id weights 0;
        allocations ← map_ok (allocation request distributable total_stake total_weighted)
                        (zip request.(rq_staker_stakes) weights);
        let allocations := sort_by_text ra_address allocations in
        total_distributed ← sum_checked U128_MAX ra_total_reward allocations 0;
        if negb (bool_decide (total_distributed <= distributable)) then Panic
        else
          let '(root, proofs) := build_merkle_tree allocations request.(rq_epoch) in
          Ok (response request allocations total_distributed protocol_fee root proofs)
  end.
End rewards.
