(* ===== verification/VaultArith.v ===== *)
(** * [muldiv] computes the quotient

    The multiplication by 64-bit halves and the long division over 256 bits of the
    reward calculator, proved equal to [a * b / c] reduced to 128 bits: no intermediate
    overflows in any build. *)
From S2P Require Import Prelude SysTypes Precompile VaultReward.
From stdpp Require Import base list.
From Stdlib Require Import ZArith Lia.
#[local] Open Scope N_scope.

(** ** Bits *)
Lemma high_bits_clear a k i : a < 2 ^ k → k <= i → N.testbit a i = false.
Proof.
  intros Ha Hi. destruct (decide (a = 0)) as [->|Hz]; [apply N.bits_0|].
  apply N.bits_above_log2. apply N.log2_lt_pow2; [lia|].
  eapply N.lt_le_trans; [done|]. apply N.pow_le_mono_r; lia.
Qed.

Lemma lor_disjoint a b k : a < 2 ^ k → N.lor a (b * 2 ^ k) = a + b * 2 ^ k.
Proof.
  intros Ha. rewrite <- N.shiftl_mul_pow2.
  assert (N.land a (N.shiftl b k) = 0) as Hz.
  { apply N.bits_inj_0. intros i. rewrite N.land_spec. destruct (decide (i < k)) as [Hi|Hi].
    - rewrite N.shiftl_spec_low by done. apply andb_false_r.
    - by rewrite (high_bits_clear a k i) by lia. }
  by rewrite <- N.lxor_lor, <- N.add_nocarry_lxor.
Qed.

Lemma land_one_bit x i : N.land (N.shiftr x i) 1 = (x / 2 ^ i) mod 2.
Proof. rewrite N.shiftr_div_pow2. change 1 with (N.ones 1). by rewrite N.land_ones. Qed.

Lemma land_mask x : N.land x MASK64 = x mod 2 ^ 64.
Proof. change MASK64 with (N.ones 64). apply N.land_ones. Qed.

(** ** The loop *)
Section division.
Context (hi lo d : N) (Hlo : lo < W128) (Hd : 0 < d < W128).
Abbreviation X := (hi * W128 + lo).

(** The bit the loop looks at is the bit of the dividend. *)
Lemma dividend_bit i :
  (if bool_decide (128 <= i) then N.land (N.shiftr hi (i - 128)) 1 else N.land (N.shiftr lo i) 1)
  = (X / 2 ^ i) mod 2.
Proof.
  case_bool_decide as Hi; rewrite land_one_bit.
  - f_equal. replace (2 ^ i) with (W128 * 2 ^ (i - 128))
      by (unfold W128; rewrite <- N.pow_add_r; f_equal; lia).
    rewrite <- N.Div0.div_div. f_equal. rewrite N.div_add_l by done. rewrite (N.div_small lo) by done. lia.
  - assert (W128 = 2 ^ (128 - i - 1) * 2 * 2 ^ i) as Hw.
    { unfold W128. replace (2 ^ (128 - i - 1) * 2) with (2 ^ (128 - i)).
      - rewrite <- N.pow_add_r. f_equal. lia.
      - replace (128 - i) with (128 - i - 1 + 1) at 1 by lia. by rewrite N.pow_add_r. }
    rewrite Hw. replace (hi * (2 ^ (128 - i - 1) * 2 * 2 ^ i) + lo)
      with (hi * 2 ^ (128 - i - 1) * 2 * 2 ^ i + lo) by lia.
    rewrite N.div_add_l by (apply N.pow_nonzero; lia).
    rewrite N.add_comm, N.Div0.mod_add. done.
Qed.

(** Setting a quotient bit; those from 128 on are dropped. *)
Lemma quotient_bit Q i :
  (if bool_decide (i < 128) then N.lor ((Q * (2 * 2 ^ i)) mod W128) (N.shiftl 1 i)
   else (Q * (2 * 2 ^ i)) mod W128) = ((2 * Q + 1) * 2 ^ i) mod W128.
Proof.
  case_bool_decide as Hi.
  - assert (W128 = 2 ^ (127 - i) * (2 * 2 ^ i)) as Hw.
    { unfold W128. rewrite <- N.pow_succ_r', <- N.pow_add_r. f_equal. lia. }
    rewrite Hw at 1. rewrite N.Div0.mul_mod_distr_r, N.shiftl_mul_pow2, N.mul_1_l, N.lor_comm.
    rewrite <- N.pow_succ_r'.
    assert (2 ^ i < 2 ^ N.succ i) as Hlt by (apply N.pow_lt_mono_r; lia).
    rewrite lor_disjoint by done. rewrite N.pow_succ_r'.
    replace W128 with (2 * 2 ^ (127 - i) * 2 ^ i) by (rewrite Hw; lia).
    rewrite N.Div0.mul_mod_distr_r.
    assert ((2 * Q + 1) mod (2 * 2 ^ (127 - i)) = 2 * (Q mod 2 ^ (127 - i)) + 1) as ->; [|lia].
    symmetry. apply (N.mod_unique _ _ (Q / 2 ^ (127 - i))).
    + pose proof (N.mod_lt Q (2 ^ (127 - i)) ltac:(apply N.pow_nonzero; lia)). lia.
    + pose proof (N.div_mod' Q (2 ^ (127 - i))). lia.
  - assert (2 ^ i = 2 ^ (i - 128) * W128) as -> by (unfold W128; rewrite <- N.pow_add_r; f_equal; lia).
    rewrite !N.mul_assoc, !N.Div0.mod_mul. done.
Qed.

(** The remainder shifted left with the next bit of the dividend inserted *)
Lemma shifted_remainder rem b : b < 2 → N.lor (N.shiftl rem 1 mod W128) b = (2 * rem + b) mod W128.
Proof.
  intros Hb. rewrite N.shiftl_mul_pow2. change (2 ^ 1) with 2.
  assert ((rem * 2) mod W128 = (rem mod 2 ^ 127) * 2 ^ 1) as ->.
  { change W128 with (2 ^ 127 * 2). rewrite N.Div0.mul_mod_distr_r. done. }
  rewrite N.lor_comm, lor_disjoint by done.
  change W128 with (2 ^ 127 * 2). rewrite (N.div_mod' rem (2 ^ 127)) at 2.
  replace (2 * (2 ^ 127 * (rem / 2 ^ 127) + rem mod 2 ^ 127) + b)
    with (b + rem mod 2 ^ 127 * 2 ^ 1 + rem / 2 ^ 127 * (2 ^ 127 * 2)) by lia.
  rewrite N.Div0.mod_add, (N.mod_small (b + _)); [done|].
  pose proof (N.mod_lt rem (2 ^ 127)). change (2 ^ 1) with 2. lia.
Qed.

(** The test of the loop, with the bit shifted out, is the comparison without a width. *)
Lemma remainder_test rem b :
  b < 2 → rem < d →
  negb (bool_decide (rem / 2 ^ 127 = 0)) || bool_decide (d <= (2 * rem + b) mod W128)
  = bool_decide (d <= 2 * rem + b).
Proof.
  intros Hb Hrd. destruct (decide (rem < 2 ^ 127)) as [Hs|Hs].
  - rewrite (N.div_small rem) by done. rewrite (bool_decide_true (0 = 0)) by done. cbn [negb orb].
    rewrite N.mod_small; [done|]. unfold W128 in *. change (2 ^ 128) with (2 * 2 ^ 127). lia.
  - assert (1 <= rem / 2 ^ 127) by (apply N.div_le_lower_bound; lia).
    rewrite (bool_decide_false (_ = 0)) by lia. cbn [negb orb]. symmetry. apply bool_decide_true.
    unfold W128 in *. change (2 ^ 128) with (2 * 2 ^ 127) in *. lia.
Qed.

(** One digit of the schoolbook division by [d] *)
Lemma division_digit P Q r :
  P = d * (2 * Q) + r → r < 2 * d →
  P / d = 2 * Q + (if bool_decide (d <= r) then 1 else 0)
  ∧ P mod d = r - (if bool_decide (d <= r) then d else 0).
Proof.
  intros HP Hr. case_bool_decide.
  - split; [symmetry; apply (N.div_unique _ _ _ (r - d)); lia|
            symmetry; apply (N.mod_unique _ _ (2 * Q + 1)); lia].
  - split; [symmetry; apply (N.div_unique _ _ _ r); lia|symmetry; apply (N.mod_unique _ _ (2 * Q)); lia].
Qed.

(** With [n] bits left, the loop has divided the first [256 - n]. *)
Lemma div_loop_spec n rem quotient :
  rem = (X / 2 ^ N.of_nat n) mod d →
  quotient = (X / 2 ^ N.of_nat n / d * 2 ^ N.of_nat n) mod W128 →
  div_loop n hi lo d rem quotient = (X / d) mod W128.
Proof.
  revert rem quotient. induction n as [|n IH]; intros rem quotient Hr Hq.
  { cbn. subst quotient. change (2 ^ N.of_nat 0) with 1. by rewrite N.div_1_r, N.mul_1_r. }
  cbn [div_loop]. set (i := N.of_nat n) in *. cbv zeta. rewrite dividend_bit.
  set (P := X / 2 ^ i) in *.
  assert (X / 2 ^ N.of_nat (S n) = P / 2) as HP.
  { rewrite Nat2N.inj_succ, N.pow_succ_r', (N.mul_comm 2), <- N.Div0.div_div. done. }
  rewrite HP in Hr, Hq. set (b := P mod 2).
  assert (P = 2 * (P / 2) + b) as HPb by apply N.div_mod'.
  assert (b < 2) as Hb by (by apply N.mod_lt).
  assert (rem < d) as Hrd by (subst; apply N.mod_lt; lia).
  set (Q := P / 2 / d) in *.
  assert (P / 2 = d * Q + rem) as HQ by (subst rem; apply N.div_mod').
  assert (P = d * (2 * Q) + (2 * rem + b)) as HPQ by lia.
  rewrite shifted_remainder, N.shiftr_div_pow2, remainder_test by done.
  destruct (division_digit P Q (2 * rem + b) HPQ) as [Hdiv Hmod]; [lia|].
  assert (2 ^ N.of_nat (S n) = 2 * 2 ^ i) as Hpow by (rewrite Nat2N.inj_succ, N.pow_succ_r'; done).
  rewrite Hpow in Hq.
  case_bool_decide as Hge; apply IH; rewrite ?Hdiv, ?Hmod.
  - rewrite <- (N.mod_small (2 * rem + b - d) W128) by lia.
    assert (∀ x, W128 + x - d = x + (W128 - d)) as -> by (clear -Hd; lia).
    rewrite N.Div0.add_mod_idemp_l.
    replace (2 * rem + b + (W128 - d)) with (2 * rem + b - d + 1 * W128) by lia.
    by rewrite N.Div0.mod_add.
  - rewrite Hq. apply quotient_bit.
  - rewrite N.mod_small; lia.
  - rewrite Hq. f_equal. lia.
Qed.
End division.

(** ** The product *)
Lemma halves x : x = 2 ^ 64 * N.shiftr x 64 + N.land x MASK64 ∧ N.land x MASK64 < 2 ^ 64.
Proof. rewrite N.shiftr_div_pow2, land_mask. split; [apply N.div_mod'|by apply N.mod_lt]. Qed.

Lemma high_half x : x <= U128_MAX → N.shiftr x 64 < 2 ^ 64.
Proof.
  intros Hx. rewrite N.shiftr_div_pow2. apply N.Div0.div_lt_upper_bound.
  change (2 ^ 64 * 2 ^ 64) with (U128_MAX + 1). lia.
Qed.

(** The 256-bit product from the four partial products, as pure arithmetic. *)
Lemma school_product al ah bl bh (ll := al * bl) (lh := al * bh) (hl := ah * bl) (hh := ah * bh)
    (mid := N.shiftr ll 64 + N.land lh MASK64 + N.land hl MASK64) :
  (2 ^ 64 * ah + al) * (2 ^ 64 * bh + bl)
  = (hh + N.shiftr lh 64 + N.shiftr hl 64 + N.shiftr mid 64) * W128
    + (N.land mid MASK64 * 2 ^ 64 + N.land ll MASK64).
Proof.
  destruct (halves ll) as [H1 _], (halves lh) as [H2 _], (halves hl) as [H3 _], (halves mid) as [H4 _].
  transitivity (hh * W128 + (lh + hl) * 2 ^ 64 + ll);
    [subst ll lh hl hh; change W128 with (2 ^ 64 * 2 ^ 64); ring|].
  rewrite H1 at 1. rewrite H2 at 1. rewrite H3 at 1. subst mid.
  change W128 with (2 ^ 64 * 2 ^ 64). clearbody ll lh hl hh.
  set (m := N.shiftr ll 64 + N.land lh MASK64 + N.land hl MASK64) in *.
  transitivity (2 ^ 64 * (m + 2 ^ 64 * (hh + N.shiftr lh 64 + N.shiftr hl 64)) + N.land ll MASK64);
    [subst m; ring|]. rewrite H4 at 1. ring.
Qed.

(** The division of a 256-bit dividend, in every build *)
Lemma long_division `{Build} {E} hi lo c :
  hi <= U128_MAX → lo < W128 → 0 < c <= U128_MAX →
  div_u256_by_u128 (E:=E) hi lo c = Ok (((hi * W128 + lo) / c) mod W128).
Proof.
  intros Hhi Hlo Hc. unfold div_u256_by_u128. rewrite bool_decide_false, andb_false_r by lia.
  case_bool_decide as Hz.
  - rewrite u_div_ok by lia. rewrite Hz, N.mul_0_l, N.add_0_l. f_equal. symmetry. apply N.mod_small.
    eapply N.le_lt_trans; [|exact Hlo]. apply N.Div0.div_le_upper_bound. nia.
  - f_equal. apply div_loop_spec; [done|change W128 with (U128_MAX + 1); lia|..];
      rewrite (N.div_small (hi * W128 + lo)); try done;
      change (2 ^ N.of_nat 256) with (W128 * W128); change W128 with (U128_MAX + 1) in *; nia.
Qed.

Lemma u_add_fits `{Build} {E} a b r : a + b <= r → r <= U128_MAX → u_add (E:=E) U128_MAX a b = Ok (a + b).
Proof. intros. apply u_add_ok. lia. Qed.

(** [muldiv] in every build. *)
Lemma muldiv_correct `{Build} {E} a b c :
  a <= U128_MAX → b <= U128_MAX → 0 < c <= U128_MAX →
  muldiv (E:=E) a b c = Ok ((a * b / c) mod W128).
Proof.
  intros Ha Hb Hc. unfold muldiv. rewrite bool_decide_false by lia.
  case_bool_decide as Hsmall.
  { rewrite u_div_ok by lia. f_equal. symmetry. apply N.mod_small.
    eapply N.le_lt_trans; [apply (N.Div0.div_le_upper_bound _ _ U128_MAX)|done]. nia. }
  cbv zeta.
  destruct (halves a) as [Hae Hal], (halves b) as [Hbe Hbl].
  pose proof (high_half a Ha) as Hah. pose proof (high_half b Hb) as Hbh.
  set (al := N.land a MASK64) in *. set (ah := N.shiftr a 64) in *.
  set (bl := N.land b MASK64) in *. set (bh := N.shiftr b 64) in *.
  assert (∀ x y, x < 2 ^ 64 → y < 2 ^ 64 → x * y <= U128_MAX - 2 * (2 ^ 64 - 1)) as Hmul.
  { intros x y Hx Hy. change (U128_MAX - 2 * (2 ^ 64 - 1)) with ((2 ^ 64 - 1) * (2 ^ 64 - 1)).
    apply N.mul_le_mono; lia. }
  pose proof (Hmul al bl Hal Hbl). pose proof (Hmul al bh Hal Hbh).
  pose proof (Hmul ah bl Hah Hbl). pose proof (Hmul ah bh Hah Hbh).
  rewrite !u_mul_ok by (change (2 ^ 64) with 18446744073709551616 in *; lia). rewrite !obind_ret.
  pose proof (school_product al ah bl bh) as Hprod. cbv zeta in Hprod. rewrite <- Hae, <- Hbe in Hprod.
  set (ll := al * bl) in *. set (lh := al * bh) in *. set (hl := ah * bl) in *. set (hh := ah * bh) in *.
  destruct (halves ll) as [_ L1], (halves lh) as [_ L2], (halves hl) as [_ L3].
  assert (N.shiftr ll 64 < 2 ^ 64) as L4 by (apply high_half; lia).
  change (2 ^ 64) with 18446744073709551616 in *.
  rewrite (u_add_ok _ (N.shiftr ll 64)), obind_ret by lia. rewrite (u_add_ok _ (_ + _) (N.land hl _)), obind_ret by lia.
  set (mid := N.shiftr ll 64 + N.land lh MASK64 + N.land hl MASK64) in *.
  destruct (halves mid) as [_ L5]. change (2 ^ 64) with 18446744073709551616 in L5.
  set (hi := hh + N.shiftr lh 64 + N.shiftr hl 64 + N.shiftr mid 64) in *.
  assert (hi <= U128_MAX) as Hhi.
  { assert (a * b <= U128_MAX * U128_MAX) by (by apply N.mul_le_mono).
    assert (hi * W128 <= U128_MAX * U128_MAX) as Hle by lia. unfold W128 in Hle.
    change (2 ^ 128) with (U128_MAX + 1) in Hle. nia. }
  assert (hh + N.shiftr lh 64 <= hi ∧ hh + N.shiftr lh 64 + N.shiftr hl 64 <= hi) as [? ?] by (unfold hi; lia).
  rewrite (u_add_fits _ _ hi), obind_ret, (u_add_fits _ _ hi), obind_ret, (u_add_fits _ _ hi), obind_ret
    by (lia || (unfold hi; lia)).
  fold hi.
  assert (N.lor (N.land ll MASK64) (N.shiftl (N.land mid MASK64) 64 mod W128)
          = N.land mid MASK64 * 18446744073709551616 + N.land ll MASK64) as ->.
  { rewrite N.mod_small; rewrite N.shiftl_mul_pow2.
    - rewrite lor_disjoint by done. change (2 ^ 64) with 18446744073709551616. lia.
    - unfold W128. change (2 ^ 128) with (18446744073709551616 * 18446744073709551616).
      change (2 ^ 64) with 18446744073709551616. apply N.mul_lt_mono_pos_r; lia. }
  set (lo := N.land mid MASK64 * 18446744073709551616 + N.land ll MASK64) in *.
  assert (lo < W128) as Hlo.
  { unfold lo, W128. change (2 ^ 128) with (18446744073709551616 * 18446744073709551616). lia. }
  rewrite Hprod. by apply long_division.
Qed.

(** Where the quotient fits, [muldiv] is the mathematical floor. *)
Lemma muldiv_floor `{Build} {E} a b c :
  a <= U128_MAX → b <= c → 0 < c <= U128_MAX → muldiv (E:=E) a b c = Ok (a * b / c).
Proof.
  intros Ha Hb Hc. rewrite muldiv_correct by lia. f_equal. apply N.mod_small.
  eapply N.le_lt_trans; [apply (N.Div0.div_le_upper_bound _ _ U128_MAX)|done]. nia.
Qed.
