(* ===== verification/VaultRewardSpec.v ===== *)
(** * Theorems on the reward calculator

    The claims of an epoch never exceed what is set aside for them and leave less than
    one unit per staker behind; every claim has a proof that folds to the root the
    contract holds; malformed requests are refused and nothing else is. *)
From S2P Require Import Samples Prelude SysTypes Sorting F64 Precompile VaultReward VaultArith CoreSamples.
From stdpp Require Import base sets list strings.
From Stdlib Require Import ZArith Lia.
#[local] Open Scope N_scope.

(** ** Merkle proofs *)
Section proofs.
Context `{VaultLib}.

(** What the contract does with a proof: hash the claim upwards, each pair sorted. *)
Definition process_proof (leaf : bytes) (proof : list bytes) : bytes := foldl sorted_pair leaf proof.

Lemma sorted_pair_comm a b : sorted_pair a b = sorted_pair b a.
Proof.
  unfold sorted_pair. destruct (bytes_leb a b) eqn:Hab, (bytes_leb b a) eqn:Hba; try done.
  - by rewrite (bytes_leb_antisym a b).
  - by rewrite (bytes_leb_total _ _ Hab) in Hba.
Qed.

Definition sibling (i : nat) : nat := if Nat.even i then S i else Nat.pred i.

Lemma next_layer_lookup l i x :
  l !! i = Some x →
  next_layer l !! Nat.div2 i
  = Some (match l !! sibling i with Some h => sorted_pair x h | None => x end).
Proof.
  revert i. induction l as [|a|a b l IH] using pairs_ind; intros i Hi; [done|..].
  - destruct i as [|i]; [|done]. by injection Hi as ->.
  - destruct i as [|[|i]]; [by injection Hi as ->|injection Hi as ->; change (Some (sorted_pair a x) = Some (sorted_pair x a)); by rewrite sorted_pair_comm|].
    change (next_layer (a :: b :: l) !! Nat.div2 (S (S i))) with (next_layer l !! Nat.div2 i).
    rewrite (IH i Hi). unfold sibling. cbn [Nat.even].
    destruct (Nat.even i) eqn:He; [done|]. by destruct i.
Qed.

Lemma length_next_layer l : length (next_layer l) = Nat.div2 (S (length l)).
Proof. induction l using pairs_ind; cbn [next_layer length]; [done..|]. by rewrite IHl. Qed.

Lemma build_layers_cons n current : ∃ rest, build_layers n current = current :: rest.
Proof. destruct n; cbn; [by eexists|]. case_bool_decide; by eexists. Qed.

(** A proof folds to the only element of the last layer. *)
Lemma proof_folds n current i x :
  (length current <= n)%nat → current !! i = Some x →
  ∃ root, last (build_layers n current) = Some [root]
    ∧ process_proof x (generate_proof (build_layers n current) i) = root.
Proof.
  revert current i x. induction n as [|n IH]; intros current i x Hlen Hi;
    [destruct current; [done|cbn in Hlen; lia]|].
  cbn [build_layers]. case_bool_decide as Hone.
  - pose proof (next_layer_lookup _ _ _ Hi) as Hnext.
    edestruct (IH (next_layer current) (Nat.div2 i)) as (root & Hlast & Hfold); [|exact Hnext|].
    { rewrite length_next_layer. pose proof (Nat.div2_odd (S (length current))) as Hd.
      destruct (Nat.odd (S (length current))); cbn [Nat.b2n] in Hd; lia. }
    exists root. destruct (build_layers_cons n (next_layer current)) as [rest Hrest].
    rewrite Hrest in *. split; [done|].
    cbn [generate_proof]. fold (sibling i).
    destruct (current !! sibling i) as [h|]; [|done]. done.
  - destruct current as [|r [|]]; [done| |cbn in Hone; lia]. destruct i; [|done]. injection Hi as ->.
    by exists x.
Qed.
End proofs.

(** ** Sums of floors *)
Lemma floor_sum {A} (f : A → N) d w l :
  0 < w →
  sum_of (λ x, d * f x / w) l * w <= d * sum_of f l
  ∧ d * sum_of f l <= sum_of (λ x, d * f x / w) l * w + N.of_nat (length l) * (w - 1).
Proof.
  intros Hw. unfold sum_of. induction l as [|x l [IH1 IH2]]; cbn [foldr length]; [lia|].
  pose proof (N.div_mod' (d * f x) w). pose proof (N.mod_lt (d * f x) w ltac:(lia)).
  rewrite !N.mul_add_distr_r, !N.mul_add_distr_l, Nat2N.inj_succ, N.mul_succ_l, (N.mul_comm (d * f x / w) w).
  set (r := (d * f x) mod w) in *. set (q := w * (d * f x / w)) in *. clearbody r q. lia.
Qed.

Lemma sum_of_map {A B} (f : B → N) (g : A → B) l : sum_of f (g <$> l) = sum_of (λ x, f (g x)) l.
Proof. unfold sum_of. induction l; cbn; congruence. Qed.

Lemma sum_of_ext {A} (f g : A → N) l : (∀ x, x ∈ l → f x = g x) → sum_of f l = sum_of g l.
Proof.
  unfold sum_of. induction l as [|x l IH]; intros Hfg; cbn; [done|].
  rewrite Hfg, IH; [done| |left]. intros y Hy. apply Hfg. by right.
Qed.

Lemma sum_of_elem {A} (f : A → N) l x : x ∈ l → f x <= sum_of f l.
Proof. unfold sum_of. induction 1; cbn; lia. Qed.

(** ** Requests *)
Definition score (request : CalculateRewardsRequest) (s : StakerStake) : N :=
  default 0 (validator_score request.(rq_validators) s.(sk_delegated_to)).

(** The stake of a staker, up to a tenth more for the performance of the validator. *)
Definition weight (request : CalculateRewardsRequest) (s : StakerStake) : N :=
  s.(sk_shares) * (10000 + score request s * 1000 / 10000) / 10000.

Definition fee (request : CalculateRewardsRequest) : N := request.(rq_total_rewards) * 500 / 10000.
Definition reserve (request : CalculateRewardsRequest) : N := request.(rq_total_rewards) - fee request.

Definition delegated (request : CalculateRewardsRequest) (s : StakerStake) : Prop :=
  s.(sk_delegated_to) ≠ EmptyString ∧ is_Some (validator_score request.(rq_validators) s.(sk_delegated_to)).

(** The fields of a request at their widths: what the types of the source say. *)
Record request_typed (request : CalculateRewardsRequest) : Prop := {
  rt_rewards : request.(rq_total_rewards) <= U128_MAX;
  rt_mev : request.(rq_mev_revenue) <= U128_MAX;
  rt_scores : Forall (λ v, v.(sv_performance_score) <= U32_MAX) request.(rq_validators);
}.

(** The weighted stakes add up in 128 bits.  The service does not check it: a request
    beyond it overflows the plain sums of the calculator ([huge_stakes]). *)
Definition weights_fit (request : CalculateRewardsRequest) : Prop :=
  sum_of (weight request) request.(rq_staker_stakes) <= U128_MAX.

Lemma weight_ge request s : s.(sk_shares) <= weight request s.
Proof. unfold weight. apply N.div_le_lower_bound; [done|]. rewrite (N.mul_comm 10000). apply N.mul_le_mono_l, N.le_add_r. Qed.

Lemma bonus_bps : BONUS_BPS = 1000.
Proof. vm_compute. reflexivity. Qed.

Lemma first_duplicate_none seen l :
  first_duplicate seen l = None ↔ NoDup l ∧ ∀ a, a ∈ l → a ∉ seen.
Proof.
  revert seen. induction l as [|a l IH]; intros seen; cbn; [split; [|done]; split; [constructor|set_solver]|].
  case_bool_decide as Hin.
  - split; [done|]. intros [_ Hs]. destruct (Hs a); [left|done].
  - rewrite IH, NoDup_cons. set_solver.
Qed.

Lemma check_delegations_ok request stakers :
  check_delegations request.(rq_validators) stakers = Ok tt ↔ Forall (delegated request) stakers.
Proof.
  induction stakers as [|s l IH]; cbn; [split; [constructor|done]|]. rewrite Forall_cons, <- IH.
  unfold delegated. case_bool_decide as He; [split; [done|]; tauto|].
  destruct (validator_score _ _); [|split; [done|intros [[_ [? ?]] _]; done]].
  split; [intros ->; split; [split; [done|by eexists]|done]|by intros [_ ?]].
Qed.

Lemma check_delegations_err request stakers :
  check_delegations request.(rq_validators) stakers = Ok tt
  ∨ ∃ e, check_delegations request.(rq_validators) stakers = Err e
      ∧ ∃ s, s ∈ stakers ∧ ¬ delegated request s.
Proof.
  induction stakers as [|s l [IH|(e & He & x & Hx & Hd)]]; cbn; [by left|..];
    (case_bool_decide as Hempty; [right; eexists; split; [done|]; exists s; split; [left|by intros []]|]);
    (destruct (validator_score _ _) eqn:Hv;
      [|right; eexists; split; [done|]; exists s; split; [left|intros [_ [? ?]]; congruence]]).
  - by left.
  - right. exists e. split; [done|]. exists x. split; [by right|done].
Qed.

Lemma map_ok_pure {E A B} (f : A → outcome E B) (g : A → B) l :
  (∀ x, x ∈ l → f x = Ok (g x)) → map_ok f l = Ok (g <$> l).
Proof.
  induction l as [|x l IH]; intros Hf; cbn; [done|]. rewrite Hf, obind_ret by left.
  rewrite IH, obind_ret; [done|]. intros y Hy. apply Hf. by right.
Qed.

Section calculator.
Context `{Build, VaultLib} (request : CalculateRewardsRequest) 
  (Hwf : request_typed request) (Hfit : weights_fit request).
Abbreviation stakers := request.(rq_staker_stakes).
Abbreviation total_weight := (sum_of (weight request) stakers).

Lemma score_bound s : score request s <= U32_MAX.
Proof.
  unfold score, validator_score. destruct (last _) as [v|] eqn:Hl; cbn; [|done].
  apply last_Some_elem_of, list_elem_of_filter in Hl as [_ Hv].
  pose proof (rt_scores _ Hwf) as Hs. rewrite Forall_forall in Hs. by apply Hs.
Qed.

Lemma stake_le_weight l : sum_of sk_shares l <= sum_of (weight request) l.
Proof.
  unfold sum_of. induction l as [|s l IH]; cbn [foldr]; [done|]. pose proof (weight_ge request s). lia.
Qed.

Lemma fee_ok {E} : muldiv (E:=E) request.(rq_total_rewards) PROTOCOL_FEE_BPS BPS_DENOMINATOR = Ok (fee request).
Proof. apply muldiv_floor; [apply Hwf|done|done]. Qed.

Lemma fee_le : fee request <= request.(rq_total_rewards).
Proof. unfold fee. apply N.Div0.div_le_upper_bound. lia. Qed.

Lemma weighted_stake_ok s :
  s ∈ stakers → delegated request s → weighted_stake request.(rq_validators) s = Ok (weight request s).
Proof.
  intros Hin [_ [p Hp]]. unfold weighted_stake. rewrite Hp.
  pose proof (score_bound s) as Hs. unfold score in Hs. rewrite Hp in Hs. cbn in Hs.
  rewrite bonus_bps, muldiv_floor, obind_ret by (unfold BPS_DENOMINATOR; lia).
  assert (p * 1000 / BPS_DENOMINATOR <= p) as Hb by (apply N.Div0.div_le_upper_bound; unfold BPS_DENOMINATOR; lia).
  rewrite u_add_ok, obind_ret by (unfold BPS_DENOMINATOR in *; lia).
  pose proof (sum_of_elem (weight request) _ _ Hin) as Hw. pose proof Hfit as Hws; unfold weights_fit in Hws.
  pose proof (weight_ge request s).
  rewrite muldiv_correct by (unfold BPS_DENOMINATOR in *; lia). f_equal.
  unfold weight, score in *. rewrite Hp in *. cbn in Hw |- *. apply N.mod_small.
  change W128 with (U128_MAX + 1). change (BPS_DENOMINATOR) with 10000 in *. lia.
Qed.

(** The claim of a staker, and the informational fields that go with it. *)
Definition claim (s : StakerStake) : N := reserve request * weight request s / total_weight.

Definition allocation_of (s : StakerStake) : RewardAllocation :=
  let base := reserve request * s.(sk_shares) / sum_of sk_shares stakers in
  {| ra_address := s.(sk_address); ra_base_reward := base;
     ra_performance_bonus := claim s - base;
     ra_mev_share := request.(rq_mev_revenue) * 9000 / 10000 * s.(sk_shares) / sum_of sk_shares stakers;
     ra_total_reward := claim s |}.

Lemma allocation_ok s :
  s ∈ stakers → 0 < sum_of sk_shares stakers →
  allocation request (reserve request) (sum_of sk_shares stakers) total_weight (s, weight request s)
  = Ok (allocation_of s).
Proof.
  intros Hin Hpos. unfold allocation.
  pose proof (sum_of_elem (weight request) _ _ Hin). pose proof (sum_of_elem sk_shares _ _ Hin).
  pose proof Hfit as Hws; unfold weights_fit in Hws. pose proof (rt_rewards _ Hwf). pose proof (stake_le_weight stakers).
  assert (reserve request <= U128_MAX) by (unfold reserve; lia).
  rewrite (muldiv_floor (reserve request) (weight request s)), obind_ret by lia.
  rewrite (muldiv_floor (reserve request) (sk_shares s)), obind_ret by lia.
  pose proof (rt_mev _ Hwf). rewrite (muldiv_floor (rq_mev_revenue request)), obind_ret by (done || (unfold BPS_DENOMINATOR; lia)).
  assert (rq_mev_revenue request * MEV_STAKER_SHARE_BPS / BPS_DENOMINATOR <= U128_MAX).
  { apply N.Div0.div_le_upper_bound. unfold MEV_STAKER_SHARE_BPS, BPS_DENOMINATOR. lia. }
  rewrite muldiv_floor, obind_ret by lia. done.
Qed.

Lemma claims_within : 0 < sum_of sk_shares stakers →
  sum_of claim stakers <= reserve request < sum_of claim stakers + N.of_nat (length stakers).
Proof.
  intros Hpos. pose proof (stake_le_weight stakers).
  destruct (floor_sum (weight request) (reserve request) total_weight stakers) as [Hlo Hhi]; [lia|].
  fold claim in Hlo, Hhi. change (sum_of (λ x, reserve request * weight request x / total_weight) stakers)
    with (sum_of claim stakers) in *. split; [nia|].
  assert (stakers ≠ []) as Hne by (intros He; rewrite He in Hpos; done).
  assert (1 <= N.of_nat (length stakers)) by (destruct stakers; [done|cbn; lia]). nia.
Qed.

(** What the calculator returns for a well-formed request. *)
Lemma calculate_rewards_ok :
  NoDup (sk_address <$> stakers) → 0 < sum_of sk_shares stakers → Forall (delegated request) stakers →
  let allocations := sort_by_text ra_address (allocation_of <$> stakers) in
  let tree := build_merkle_tree allocations request.(rq_epoch) in
  calculate_rewards request
  = Ok (response request allocations (sum_of claim stakers) (fee request) tree.1 tree.2).
Proof.
  intros Hnd Hpos Hdel allocations tree. unfold calculate_rewards.
  destruct (first_duplicate_none [] (sk_address <$> stakers)) as [_ Hfd]. rewrite Hfd by (split; [done|set_solver]).
  pose proof Hfit as Hws; unfold weights_fit in Hws. pose proof (stake_le_weight stakers). pose proof fee_le.
  rewrite fee_ok, obind_ret, u_sub_ok, obind_ret by done. fold (reserve request).
  rewrite sum_checked_ok, obind_ret by lia. rewrite N.add_0_l. rewrite bool_decide_false by lia.
  assert (check_delegations (rq_validators request) stakers = Ok tt) as -> by by apply check_delegations_ok.
  rewrite obind_ret. rewrite (map_ok_pure _ (weight request)), obind_ret.
  2: { intros s Hs. rewrite Forall_forall in Hdel. by apply weighted_stake_ok; [|apply Hdel]. }
  rewrite sum_checked_ok, obind_ret by (rewrite N.add_0_l, sum_of_map; done). rewrite N.add_0_l, sum_of_map.
  assert (zip stakers (weight request <$> stakers) = (λ s, (s, weight request s)) <$> stakers) as ->.
  { clear. induction stakers; cbn; [done|]. by f_equal. }
  rewrite (map_ok_pure _ (λ w, allocation_of w.1)), obind_ret.
  2: { intros [s w] Hin. apply list_elem_of_fmap in Hin as (s' & Heq & Hs'). injection Heq as -> ->. by apply allocation_ok. }
  rewrite <- list_fmap_compose. change ((λ w, allocation_of w.1) ∘ (λ s, (s, weight request s))) with allocation_of.
  fold allocations. cbv zeta.
  assert (sum_of ra_total_reward allocations = sum_of claim stakers) as Hsum.
  { unfold allocations. by rewrite (sum_of_perm _ _ _ (sort_by_text_perm _ _)), sum_of_map. }
  pose proof (claims_within Hpos) as [Hc _]. pose proof (rt_rewards _ Hwf).
  assert (reserve request <= U128_MAX) by (unfold reserve; lia).
  rewrite sum_checked_ok, obind_ret by (rewrite N.add_0_l, Hsum; lia). rewrite N.add_0_l, Hsum.
  rewrite bool_decide_true by done. cbn [negb]. fold tree. by destruct tree.
Qed.
End calculator.

(** ** What the calculator promises *)
Section promises.
Context `{Build, VaultLib}.

(** C29: multiply-and-divide is exact: for 128-bit operands and a divisor other than
    zero the result is [a * b / c] reduced to 128 bits, in every build, although the
    product needs 256 bits; where the second factor is at most the divisor, as in every
    proportional share, it is the floor itself. *)
Theorem muldiv_exact a b c :
  a <= U128_MAX → b <= U128_MAX → 0 < c <= U128_MAX →
  muldiv (E:=string) a b c = Ok ((a * b / c) mod 2 ^ 128)
  ∧ (b <= c → muldiv (E:=string) a b c = Ok (a * b / c)).
Proof. intros Ha Hb Hc. split; [by apply muldiv_correct|]. intros. by apply muldiv_floor. Qed.

(** C11: rewards are asset-backed: a request whose weighted stakes add up in 128 bits
    (which the service does not check) is answered or refused, never a panic; it is
    refused exactly when an address occurs twice or (with stake present) a staker
    delegates to nobody or to a validator that is not in the set; an answer charges the
    five percent fee, gives every staker one claim, the floor of its share of the rest
    by performance-weighted stake, and the claims add up to at most the rest and to
    less than one unit per staker below it. *)
Theorem rewards_asset_backed request :
  request_typed request → weights_fit request →
  let stakers := request.(rq_staker_stakes) in
  match calculate_rewards request with
  | Ok r =>
      NoDup (sk_address <$> stakers)
      ∧ r.(rs_protocol_fee) = request.(rq_total_rewards) * 500 / 10000
      ∧ r.(rs_total_distributed) = sum_of ra_total_reward r.(rs_allocations)
      ∧ r.(rs_total_distributed) + r.(rs_protocol_fee) <= request.(rq_total_rewards)
      ∧ (sum_of sk_shares stakers = 0 → r.(rs_allocations) = [])
      ∧ (0 < sum_of sk_shares stakers →
         Forall (delegated request) stakers
         ∧ r.(rs_allocations) ≡ₚ allocation_of request <$> stakers
         ∧ request.(rq_total_rewards)
           < r.(rs_total_distributed) + r.(rs_protocol_fee) + N.of_nat (length stakers))
  | Err _ => ¬ NoDup (sk_address <$> stakers)
             ∨ 0 < sum_of sk_shares stakers ∧ ¬ Forall (delegated request) stakers
  | Panic | Blocked => False
  end.
Proof.
  intros Hwf Hfit stakers.
  destruct (decide (NoDup (sk_address <$> stakers))) as [Hnd|Hnd].
  2: { unfold calculate_rewards. fold stakers.
       destruct (first_duplicate [] (sk_address <$> stakers)) eqn:Hfd; [by left|].
       apply first_duplicate_none in Hfd as [? _]. done. }
  pose proof (fee_le request). pose proof (stake_le_weight request stakers). pose proof Hfit as Hws; unfold weights_fit in Hws.
  assert (fee request + reserve request = request.(rq_total_rewards)) as Hfee by (unfold reserve; lia).
  assert (first_duplicate [] (sk_address <$> stakers) = None) as Hfd by (apply first_duplicate_none; set_solver).
  destruct (decide (sum_of sk_shares stakers = 0)) as [Hz|Hz].
  { unfold calculate_rewards. fold stakers. rewrite Hfd, (fee_ok request Hwf), obind_ret, u_sub_ok, obind_ret by done.
    rewrite sum_checked_ok, obind_ret by (unfold stakers in *; lia). rewrite bool_decide_true by (unfold stakers in *; lia).
    cbn. split_and!; try done; lia. }
  destruct (check_delegations_err request stakers) as [Hdel|(e & He & s & Hs & Hno)].
  - apply check_delegations_ok in Hdel. destruct (claims_within request) as [Hlo Hhi]; [unfold stakers in *; lia|].
    rewrite calculate_rewards_ok by (done || (unfold stakers in *; lia)). cbn [response rs_protocol_fee rs_total_distributed rs_allocations].
    split_and!; try done.
    + rewrite (sum_of_perm _ _ _ (sort_by_text_perm _ _)), sum_of_map. done.
    + lia.
    + intros _. split_and!; [done|apply sort_by_text_perm|]. unfold stakers. lia.
  - unfold calculate_rewards. fold stakers. rewrite Hfd, (fee_ok request Hwf), obind_ret, u_sub_ok, obind_ret by done.
    rewrite sum_checked_ok, obind_ret by (unfold stakers in *; lia). rewrite bool_decide_false by (unfold stakers in *; lia).
    rewrite He. right. split; [unfold stakers in *; lia|]. intros Hall. rewrite Forall_forall in Hall. by apply Hno, Hall.
Qed.

(** C12: every claim can be proved: the entry of an allocation carries its address, its
    amount and the leaf that hashes both with the epoch, and folding the proof over the
    leaf, pairs sorted as the contract sorts them, gives the root of the response. *)
Theorem claims_provable request r i a :
  calculate_rewards request = Ok r → r.(rs_allocations) !! i = Some a →
  ∃ entry proof, r.(rs_merkle_proofs) !! i = Some entry
    ∧ entry.(pe_address) = a.(ra_address) ∧ entry.(pe_amount) = a.(ra_total_reward)
    ∧ entry.(pe_leaf) = hex0x (leaf request.(rq_epoch) a) ∧ entry.(pe_proof) = hex0x <$> proof
    ∧ r.(rs_merkle_root) = hex0x (process_proof (leaf request.(rq_epoch) a) proof).
Proof.
  intros Hrun Hi. unfold calculate_rewards in Hrun. destruct (first_duplicate _ _); [done|].
  apply obind_ok in Hrun as (fee & _ & Hrun). apply obind_ok in Hrun as (dist & _ & Hrun).
  apply obind_ok in Hrun as (stake & _ & Hrun). case_bool_decide; [by injection Hrun as <-|].
  apply obind_ok in Hrun as (_ & _ & Hrun). apply obind_ok in Hrun as (ws & _ & Hrun).
  apply obind_ok in Hrun as (tw & _ & Hrun). apply obind_ok in Hrun as (allocs & _ & Hrun).
  apply obind_ok in Hrun as (td & _ & Hrun). destruct (negb _); [done|].
  set (l := sort_by_text ra_address allocs) in *.
  assert (∃ td' fee', r = response request l td' fee' (build_merkle_tree l (rq_epoch request)).1
    (build_merkle_tree l (rq_epoch request)).2) as (td' & fee' & ->).
  { destruct (build_merkle_tree l (rq_epoch request)). injection Hrun as <-. by do 2 eexists. }
  cbn [response rs_allocations rs_merkle_proofs rs_merkle_root] in *.
  unfold build_merkle_tree. destruct l as [|a0 l0] eqn:Hl; [done|]. rewrite <- Hl in *. cbn [fst snd].
  set (leaves := leaf (rq_epoch request) <$> l).
  assert (leaves !! i = Some (leaf (rq_epoch request) a)) as Hleaf by (unfold leaves; by rewrite list_lookup_fmap, Hi).
  destruct (proof_folds (length leaves) leaves i _ (Nat.le_refl _) Hleaf) as (root & Hlast & Hfold).
  eexists _, (generate_proof (build_layers (length leaves) leaves) i). split; [by rewrite list_lookup_imap, Hi|].
  split_and!; try done. rewrite Hlast. cbn. by rewrite Hfold.
Qed.
End promises.

(** ** Witnesses *)
Definition toy_hash (bs : bytes) : bytes := (λ b, b mod 256) <$> pad 32 bs.

Lemma toy_hash_octets bs : Forall (λ b, b < 256) (toy_hash bs).
Proof. apply Forall_fmap, Forall_forall. intros b _. by apply N.mod_lt. Qed.

Definition toy_vault : VaultLib := {|
  v_sha256 := toy_hash; v_keccak256 := toy_hash;
  v_hex_decode := λ s, match toy_hex_decode s with inl bs => Some bs | inr _ => None end |}.

#[export] Instance toy_vault_laws : VaultLaws (H := toy_vault).
Proof.
  split; cbn; intros; [..|by rewrite toy_hex]; try apply toy_hash_octets;
    unfold toy_hash; rewrite length_fmap; apply length_pad.
Qed.

Definition val1 : ScoredValidator := {|
  sv_address := "v1"; sv_stake := 100; sv_performance_score := 9500; sv_decentralization_score := 8000;
  sv_reputation_score := 10000; sv_composite_score := 9100; sv_tee_public_key := "0a";
  sv_commission_bps := 500; sv_rank := 1 |}.

Definition request1 : CalculateRewardsRequest := {|
  rq_epoch := 1; rq_total_rewards := 1000; rq_mev_revenue := 10; rq_validators := [val1];
  rq_staker_stakes := [ {| sk_address := "b"; sk_shares := 600; sk_delegated_to := "v1" |};
                        {| sk_address := "a"; sk_shares := 401; sk_delegated_to := "v1" |} ];
  rq_stake_snapshot_hash := EmptyString; rq_validator_set_hash := EmptyString |}.

Lemma request1_typed : request_typed request1.
Proof. split; [done|done|by repeat constructor]. Qed.

(** Two stakes of half the range: the sum of the shares overflows, a panic with overflow
    checks; without them it wraps to no stake at all, and nobody is paid. *)
Definition huge_request : CalculateRewardsRequest := {|
  rq_epoch := 1; rq_total_rewards := 1000; rq_mev_revenue := 10; rq_validators := [val1];
  rq_staker_stakes := [ {| sk_address := "b"; sk_shares := 2 ^ 127; sk_delegated_to := "v1" |};
                        {| sk_address := "a"; sk_shares := 2 ^ 127; sk_delegated_to := "v1" |} ];
  rq_stake_snapshot_hash := EmptyString; rq_validator_set_hash := EmptyString |}.

Lemma huge_stakes :
  calculate_rewards (H := dev_build) (H0 := toy_vault) huge_request = Panic
  ∧ ∃ r, calculate_rewards (H := wrapping_build) (H0 := toy_vault) huge_request = Ok r
      ∧ r.(rs_allocations) = [].
Proof. split; [by vm_compute|]. eexists. by vm_compute. Qed.

Lemma muldiv_exact_witness :
  muldiv (H := dev_build) (E:=string) (2 ^ 127) 3 4 = Ok (2 ^ 127 * 3 / 4).
Proof. apply (muldiv_exact (H := dev_build) (2 ^ 127) 3 4); by vm_compute. Defined.

Lemma rewards_asset_backed_witness : ∃ r,
  calculate_rewards (H := dev_build) (H0 := toy_vault) request1 = Ok r
  ∧ r.(rs_total_distributed) + r.(rs_protocol_fee) <= 1000
  ∧ 1000 < r.(rs_total_distributed) + r.(rs_protocol_fee) + 2.
Proof.
  pose proof (rewards_asset_backed (H := dev_build) (H0 := toy_vault) request1
    request1_typed ltac:(by vm_compute)) as Hr.
  destruct (calculate_rewards request1) as [r|e| |] eqn:Hrun; [|by vm_compute in Hrun..].
  exists r. destruct Hr as (_ & _ & _ & Hle & _ & Hpos).
  split; [reflexivity|split; [exact Hle|]]. by apply Hpos.
Defined.

Lemma claims_provable_witness : ∃ r entry,
  calculate_rewards (H := dev_build) (H0 := toy_vault) request1 = Ok r
  ∧ r.(rs_merkle_proofs) !! 1%nat = Some entry ∧ entry.(pe_address) = "b"%string.
Proof.
  destruct (calculate_rewards (H := dev_build) (H0 := toy_vault) request1) as [r|e| |] eqn:Hrun;
    [|by vm_compute in Hrun..].
  destruct (r.(rs_allocations) !! 1%nat) as [a|] eqn:Ha.
  - destruct (claims_provable (H := dev_build) (H0 := toy_vault) request1 r 1 a Hrun Ha)
      as (entry & proof & He & Had & _).
    exists r, entry. split; [reflexivity|split; [exact He|]]. rewrite Had.
    vm_compute in Hrun. injection Hrun as <-. vm_compute in Ha. by injection Ha as <-.
  - vm_compute in Hrun. injection Hrun as <-. by vm_compute in Ha.
Defined.
