(* ===== verification/VaultSelect.v ===== *)
(** * Validator selection and commit-reveal ordering of the vault service

    [crates/vault/src/validator_selection.rs] and [mev_protection.rs] with the types of [types.rs]
    they use.  Scores are [f64] expressions cast to [u32]; the natural logarithm is an instance of
    [VaultMath], the iteration order of a [HashMap] an instance of [VaultOrder]. *)
From S2P Require Import Prelude SysTypes Sorting F64 Precompile ConsensusTypes F64Bounds VaultReward.
From stdpp Require Import base gmap list strings pretty.
From Stdlib Require Import ZArith Lia SpecFloat.
#[local] Open Scope N_scope.

Class VaultMath := { f64_ln : f64 → f64 }.

(** The order in which the keys of a hash map are visited. *)
Class VaultOrder := {
  visit : list string → list string;
  visit_perm l : visit l ≡ₚ l;
}.

(** ** [types.rs] *)
Record ValidatorInput := {
  vi_address : string;
  vi_stake : N;
  vi_uptime_pct : f64;
  vi_avg_response_ms : f64;
  vi_geographic_region : string;
  vi_country_code : string;
  vi_operator_id : string;
  vi_slash_count : N;
  vi_total_jobs_completed : N;
  vi_tee_public_key : string;
  vi_commission_bps : N;
}.

Record SelectionConfig := {
  sc_performance_weight : f64;
  sc_decentralization_weight : f64;
  sc_reputation_weight : f64;
  sc_min_uptime_pct : f64;
  sc_max_commission_bps : N;
  sc_max_per_region : N;
  sc_max_per_operator : N;
  sc_min_stake : N;
}.

Definition F0_3 : f64 := f64_lit 5404319552844595 (-54).
Definition F0_4 : f64 := f64_lit 7205759403792794 (-54).
Definition F0_5 : f64 := f64_lit 4503599627370496 (-53).
Definition F450_0 : f64 := f64_lit 7916483719987200 (-44).
Definition F2000_0 : f64 := f64_lit 8796093022208000 (-42).
Definition F3000_0 : f64 := f64_lit 6597069766656000 (-41).
Definition F4000_0 : f64 := f64_lit 8796093022208000 (-41).
Definition F5000_0 : f64 := f64_lit 5497558138880000 (-40).
Definition F6000_0 : f64 := f64_lit 6597069766656000 (-40).
Definition F7000_0 : f64 := f64_lit 7696581394432000 (-40).
Definition F100000_0 : f64 := f64_lit 6871947673600000 (-36).

Definition SelectionConfig_default : SelectionConfig := {|
  sc_performance_weight := F0_4;
  sc_decentralization_weight := F0_3;
  sc_reputation_weight := F0_3;
  sc_min_uptime_pct := F95_0;
  sc_max_commission_bps := 1000;
  sc_max_per_region := 0;
  sc_max_per_operator := 3;
  sc_min_stake := 32000000000000000000 |}.

Definition MAX_SCORE : N := 10000.

(** ** Scores *)
Section scores.
Context `{Build, VaultMath}.

Definition performance_score (v : ValidatorInput) : outcome string N :=
  let uptime_normalized := clamp01 (f64_div (f64_sub v.(vi_uptime_pct) F95_0) F5_0) in
  let uptime_score := f64_as U32_MAX (f64_mul uptime_normalized F5000_0) in
  let latency_normalized :=
    f64_sub F1_0 (clamp01 (f64_div (f64_sub v.(vi_avg_response_ms) F50_0) F450_0)) in
  let latency_score := f64_as U32_MAX (f64_mul latency_normalized F3000_0) in
  let jobs_log := f64_div (f64_ln (f64_add F1_0 (f64_of_N v.(vi_total_jobs_completed))))
                          (f64_ln (f64_add F1_0 F100000_0)) in
  let jobs_score := f64_as U32_MAX (f64_mul (clamp01 jobs_log) F2000_0) in
  a ← u_add U32_MAX uptime_score latency_score;
  b ← u_add U32_MAX a jobs_score;
  Ok (N.min b MAX_SCORE).

(** [count_by_field] at the geographic region *)
Definition count_region (m : gmap string N) (v : ValidatorInput) : gmap string N :=
  <[v.(vi_geographic_region) := default 0 (m !! v.(vi_geographic_region)) + 1]> m.
Definition count_by_region (items : list ValidatorInput) : gmap string N := foldl count_region ∅ items.

(** [region_counts.values().sum()] *)
Definition values_sum (m : gmap string N) : N := map_fold (λ _ n acc, n + acc) 0 m.

Definition decentralization_score (v : ValidatorInput) (region_counts : gmap string N)
    (total_regions : f64) : outcome string N :=
  let region_count := f64_of_N (default 1 (region_counts !! v.(vi_geographic_region))) in
  let total_validators := f64_of_N (values_sum region_counts) in
  let concentration := f64_div region_count total_validators in
  let rarity := f64_sub F1_0 concentration in
  let rarity_score := f64_as U32_MAX (f64_mul rarity F6000_0) in
  let diversity_bonus :=
    if f64_le region_count F2_0 then 4000
    else if f64_le region_count F5_0 then 2000
    else f64_as U32_MAX (f64_mul (f64_div total_regions (f64_add region_count total_regions)) F4000_0) in
  s ← u_add U32_MAX rarity_score diversity_bonus;
  Ok (N.min s MAX_SCORE).

Definition reputation_score (v : ValidatorInput) : outcome string N :=
  let slash_penalty := f64_div F1_0 (f64_add F1_0 (f64_mul (f64_of_N v.(vi_slash_count)) F2_0)) in
  let slash_score := f64_as U32_MAX (f64_mul slash_penalty F7000_0) in
  let jobs := f64_of_N v.(vi_total_jobs_completed) in
  let reliability :=
    if bool_decide (v.(vi_total_jobs_completed) = 0) then F0_5
    else f64_div jobs (f64_add jobs (f64_of_N v.(vi_slash_count))) in
  let track_score := f64_as U32_MAX (f64_mul reliability F3000_0) in
  s ← u_add U32_MAX slash_score track_score;
  Ok (N.min s MAX_SCORE).

Definition weighted_composite (perf decent rep : N) (perf_weight decent_weight rep_weight : f64) : N :=
  let composite :=
    f64_add (f64_add (f64_mul (f64_of_N perf) perf_weight) (f64_mul (f64_of_N decent) decent_weight))
            (f64_mul (f64_of_N rep) rep_weight) in
  N.min (f64_as U32_MAX composite) MAX_SCORE.

(** The closure of phase 2 *)
Definition score (config : SelectionConfig) (region_counts : gmap string N) (total_regions : f64)
    (v : ValidatorInput) : outcome string ScoredValidator :=
  perf ← performance_score v;
  decent ← decentralization_score v region_counts total_regions;
  rep ← reputation_score v;
  Ok {| sv_address := v.(vi_address); sv_stake := v.(vi_stake); sv_performance_score := perf;
        sv_decentralization_score := decent; sv_reputation_score := rep;
        sv_composite_score := weighted_composite perf decent rep config.(sc_performance_weight)
          config.(sc_decentralization_weight) config.(sc_reputation_weight);
        sv_tee_public_key := v.(vi_tee_public_key); sv_commission_bps := v.(vi_commission_bps);
        sv_rank := 0 |}.
End scores.

(** ** Diversity constraints *)
Section diversity.
Context `{Build}.

(** [candidate_map.get]: the last candidate of an address wins. *)
Definition candidate_of (candidates : list ValidatorInput) (address : string) : option ValidatorInput :=
  last (filter (λ v, v.(vi_address) = address) candidates).

Definition effective_max_region (target_count max_per_region : N) : outcome string N :=
  if bool_decide (max_per_region = 0) then
    t ← u_mul U64_MAX target_count 2; Ok (N.max (t / 5) 2)
  else Ok max_per_region.

Definition bump (m : gmap string N) (key : string) : gmap string N := <[key := default 0 (m !! key) + 1]> m.

(** The loop; the addresses of [selected] are the set [selected_addrs]. *)
Fixpoint select_loop (target_count max_per_region max_per_operator : N) (candidates : list ValidatorInput)
    (region_count operator_count : gmap string N) (selected scored : list ScoredValidator)
  : outcome string (list ScoredValidator) :=
  match scored with
  | [] => Ok selected
  | validator :: scored =>
      let continue := select_loop target_count max_per_region max_per_operator candidates
                        region_count operator_count selected scored in
      if bool_decide (target_count <= N.of_nat (length selected)) then Ok selected
      else if bool_decide (validator.(sv_address) ∈ sv_address <$> selected) then continue
      else match candidate_of candidates validator.(sv_address) with
           | None => continue
           | Some candidate =>
               max_region ← effective_max_region target_count max_per_region;
               let region := candidate.(vi_geographic_region) in
               if bool_decide (max_region <= default 0 (region_count !! region)) then continue
               else
                 let operator := candidate.(vi_operator_id) in
                 if bool_decide (max_per_operator <= default 0 (operator_count !! operator)) then continue
                 else select_loop target_count max_per_region max_per_operator candidates
                        (bump region_count region) (bump operator_count operator)
                        (selected ++ [validator]) scored
           end
  end.

Definition apply_diversity_constraints (scored : list ScoredValidator)
    (target_count max_per_region max_per_operator : N) (candidates : list ValidatorInput)
  : outcome string (list ScoredValidator) :=
  select_loop target_count max_per_region max_per_operator candidates ∅ ∅ [] scored.
End diversity.

(** ** [select_validators] *)
Section select.
Context `{Build, VaultMath}.

(** Phase 0: [seen_addrs.insert] keeps the first occurrence. *)
Fixpoint dedup (seen : list string) (candidates : list ValidatorInput) : list ValidatorInput :=
  match candidates with
  | [] => []
  | v :: candidates =>
      if bool_decide (v.(vi_address) ∈ seen) then dedup seen candidates
      else v :: dedup (v.(vi_address) :: seen) candidates
  end.

Definition is_eligible_candidate (config : SelectionConfig) (v : ValidatorInput) : bool :=
  f64_le config.(sc_min_uptime_pct) v.(vi_uptime_pct)
  && bool_decide (v.(vi_commission_bps) <= config.(sc_max_commission_bps))
  && bool_decide (config.(sc_min_stake) <= v.(vi_stake)).

Definition eligible_candidates (config : SelectionConfig) (candidates : list ValidatorInput) : list ValidatorInput :=
  filter (λ v, is_eligible_candidate config v = true) (dedup [] candidates).

Definition set_rank (i : nat) (v : ScoredValidator) : ScoredValidator :=
  {| sv_address := v.(sv_address); sv_stake := v.(sv_stake);
     sv_performance_score := v.(sv_performance_score);
     sv_decentralization_score := v.(sv_decentralization_score);
     sv_reputation_score := v.(sv_reputation_score); sv_composite_score := v.(sv_composite_score);
     sv_tee_public_key := v.(sv_tee_public_key); sv_commission_bps := v.(sv_commission_bps);
     sv_rank := (N.of_nat i + 1) mod 2 ^ 32 |}.

(** [b.composite_score.cmp(&a.composite_score)] *)
Definition sort_scored (l : list ScoredValidator) : list ScoredValidator :=
  sort_with (λ a b, bool_decide (b.(sv_composite_score) <= a.(sv_composite_score))) l.

Definition select_validators (candidates : list ValidatorInput) (target_count : N)
    (config : SelectionConfig) : outcome string (list ScoredValidator) :=
  match eligible_candidates config candidates with
  | [] => Ok []
  | eligible =>
      let region_counts := count_by_region eligible in
      let total_regions := f64_of_N (N.of_nat (size region_counts)) in
      scored ← map_ok (score config region_counts total_regions) eligible;
      selected ← apply_diversity_constraints (sort_scored scored) target_count
                   config.(sc_max_per_region) config.(sc_max_per_operator) candidates;
      Ok (imap set_rank selected)
  end.
End select.

(** ** [mev_protection.rs] *)
Record Commitment := { cm_validator : string; cm_commitment_hash : string; cm_timestamp : N }.
Record Reveal := { rv_validator : string; rv_block_data : string; rv_nonce : string; rv_timestamp : N }.
Record ValidatedReveal := {
  vr_validator : string;
  vr_block_data : string;
  vr_ordering_timestamp : N;
  vr_position : N;
}.
Record MevAlert := {
  ma_alert_type : string;
  ma_description : string;
  ma_validators : list string;
  ma_severity : string;
  ma_block_data_hash : string;
}.

Section mev.
Context `{VaultLib}.

Definition compute_commitment_hash (block_data nonce : string) : string :=
  hex_encode (v_sha256 (string_bytes block_data ++ string_bytes nonce)).
Definition verify_commitment_hash (block_data nonce expected_hash : string) : bool :=
  bool_decide (compute_commitment_hash block_data nonce = expected_hash).
Definition compute_block_data_hash (block_data : string) : string :=
  hex_encode (v_sha256 (string_bytes block_data)).

(** [commitment_map.get]: the last commitment of a validator wins. *)
Definition commitment_of (commitments : list Commitment) (validator : string) : option Commitment :=
  last (filter (λ c, c.(cm_validator) = validator) commitments).

Definition reveal_valid (commitments : list Commitment) (r : Reveal) : bool :=
  match commitment_of commitments r.(rv_validator) with
  | Some c => verify_commitment_hash r.(rv_block_data) r.(rv_nonce) c.(cm_commitment_hash)
  | None => false
  end.

Definition validated (r : Reveal) : ValidatedReveal :=
  {| vr_validator := r.(rv_validator); vr_block_data := r.(rv_block_data);
     vr_ordering_timestamp := r.(rv_timestamp); vr_position := 0 |}.

Fixpoint reveal_loop (commitments : list Commitment) (reveals : list Reveal)
    (valid_reveals : list ValidatedReveal) (invalid : list string) : list ValidatedReveal * list string :=
  match reveals with
  | [] => (valid_reveals, invalid)
  | r :: reveals =>
      if reveal_valid commitments r then reveal_loop commitments reveals (valid_reveals ++ [validated r]) invalid
      else reveal_loop commitments reveals valid_reveals (invalid ++ [r.(rv_validator)])
  end.

Definition set_position (i : nat) (r : ValidatedReveal) : ValidatedReveal :=
  {| vr_validator := r.(vr_validator); vr_block_data := r.(vr_block_data);
     vr_ordering_timestamp := r.(vr_ordering_timestamp); vr_position := N.of_nat i mod 2 ^ 32 |}.

Definition process_commit_reveal (commitments : list Commitment) (reveals : list Reveal)
  : list ValidatedReveal * list string :=
  let '(valid_reveals, invalid) := reveal_loop commitments reveals [] [] in
  (imap set_position (sort_by_key vr_ordering_timestamp valid_reveals), invalid).

(** The entries of [data_seen]: the block data in the order of the map. *)
Definition data_keys `{VaultOrder} (reveals : list ValidatedReveal) : list string :=
  visit (remove_dups (vr_block_data <$> reveals)).
Definition revealers (reveals : list ValidatedReveal) (data : string) : list string :=
  vr_validator <$> filter (λ r, r.(vr_block_data) = data) reveals.

Definition duplicate_alert (data : string) (validators : list string) : MevAlert := {|
  ma_alert_type := "DUPLICATE_BLOCK_DATA";
  ma_description := "Identical block data submitted by " +:+ pretty (N.of_nat (length validators))
                    +:+ " validators";
  ma_validators := validators;
  ma_severity := if bool_decide (2 < length validators)%nat then "HIGH" else "MEDIUM";
  ma_block_data_hash := compute_block_data_hash data |}.

Definition simultaneous_alert (a b : ValidatedReveal) : MevAlert := {|
  ma_alert_type := "SIMULTANEOUS_SUBMISSION";
  ma_description := "Two reveals with identical timestamps";
  ma_validators := [a.(vr_validator); b.(vr_validator)];
  ma_severity := "LOW";
  ma_block_data_hash := EmptyString |}.

(** [reveals.windows(2)] *)
Fixpoint simultaneous_alerts (reveals : list ValidatedReveal) : list MevAlert :=
  match reveals with
  | a :: ((b :: _) as rest) =>
      let tail := simultaneous_alerts rest in
      if bool_decide (sat_sub b.(vr_ordering_timestamp) a.(vr_ordering_timestamp) = 0)
      then simultaneous_alert a b :: tail else tail
  | _ => []
  end.

Definition detect_mev_patterns `{VaultOrder} (reveals : list ValidatedReveal) : list MevAlert :=
  (data ← data_keys reveals;
   let validators := revealers reveals data in
   if bool_decide (1 < length validators)%nat then [duplicate_alert data validators] else [])
  ++ simultaneous_alerts reveals.
End mev.
