(* ===== verification/VaultSelectSpec.v ===== *)
(** * What validator selection and reveal ordering guarantee

    Scores never overflow, whatever floats a candidate reports; a selection respects its
    size, its eligibility rules and its diversity caps, is ordered by score, and leaves an
    eligible candidate out only when a cap or the size is exhausted.  Ordered reveals are exactly
    those that open their commitment, by time and then in the order received. *)
From S2P Require Import Prelude SysTypes Sorting F64 Precompile ConsensusTypes F64Bounds Samples VaultReward VaultRewardSpec VaultSelect.
From stdpp Require Import base gmap list strings sorting.
From Stdlib Require Import ZArith Lia SpecFloat.
#[local] Open Scope N_scope.

(** ** Scores *)
(** A bounded factor times a weight, cast. *)
Lemma score_part k x m e :
  upto k x → (Zpos m < 2 ^ (13 - e))%Z → (0 <= k <= 12)%Z →
  f64_as U32_MAX (f64_mul x (f64_lit m e)) < 67108864.
Proof.
  intros Hx Hm Hk. pose proof (upto_mul k 13 x m e Hx Hm ltac:(lia)) as Hu.
  apply (upto_mono _ 26) in Hu; [|lia]. apply (as_upto U32_MAX) in Hu; [|lia]. lia.
Qed.

Lemma one_minus y : unsigned y → upto 3 (f64_sub F1_0 y).
Proof. intros Hy. by apply (upto_sub 1). Qed.

Lemma clamped x y : upto 1 (clamp01 (f64_div x y)) ∧ unsigned (clamp01 (f64_div x y)).
Proof. apply clamp01_bounds, narrow_div. Qed.

(** The sum of two parts that are small, capped. *)
Ltac capped := rewrite u_add_ok by lia; cbn [mbind outcome_bind].

Section scores.
Context `{Build, VaultMath}.

Lemma performance_total v : ∃ n, performance_score v = Ok n ∧ n <= MAX_SCORE.
Proof.
  unfold performance_score. cbv zeta. eexists.
  pose proof (score_part 1 _ _ _ (proj1 (clamped (f64_sub v.(vi_uptime_pct) F95_0) F5_0))
                (ltac:(done) : (5497558138880000 < 2 ^ (13 - -40))%Z) ltac:(lia)).
  pose proof (score_part 3 _ _ _ (one_minus _ (proj2 (clamped (f64_sub v.(vi_avg_response_ms) F50_0) F450_0)))
                (ltac:(done) : (6597069766656000 < 2 ^ (13 - -41))%Z) ltac:(lia)).
  pose proof (score_part 1 _ _ _ (proj1 (clamped (f64_ln (f64_add F1_0 (f64_of_N v.(vi_total_jobs_completed))))
                                                  (f64_ln (f64_add F1_0 F100000_0))))
                (ltac:(done) : (8796093022208000 < 2 ^ (13 - -42))%Z) ltac:(lia)).
  unfold F5000_0, F3000_0, F2000_0. capped. capped. split; [done|lia].
Qed.

Lemma decentralization_total v counts n :
  0 < n < 2 ^ 64 → ∃ k, decentralization_score v counts (f64_of_N n) = Ok k ∧ k <= MAX_SCORE.
Proof.
  intros Hn. unfold decentralization_score. cbv zeta.
  set (rc := f64_of_N (default 1 _)). assert (nonneg rc) by apply of_N_nonneg.
  assert (f64_as U32_MAX (f64_mul (f64_sub F1_0 (f64_div rc (f64_of_N (values_sum counts)))) F6000_0) < 67108864).
  { apply (score_part 3); [|done|lia]. apply one_minus, unsigned_div; [done|apply of_N_nonneg]. }
  set (bonus := if f64_le rc F2_0 then _ else _). assert (bonus < 67108864).
  { subst bonus. destruct (f64_le rc F2_0); [done|]. destruct (f64_le rc F5_0); [done|].
    apply (score_part 3); [|done|lia].
    rewrite nonneg_add_comm by (done || apply of_N_nonneg). by apply share_upto. }
  eexists. capped. split; [done|lia].
Qed.

Lemma reputation_total v :
  v.(vi_total_jobs_completed) <= U64_MAX → ∃ n, reputation_score v = Ok n ∧ n <= MAX_SCORE.
Proof.
  intros Hj. unfold reputation_score. cbv zeta.
  set (p := f64_div F1_0 _). set (r := if bool_decide _ then _ else _).
  assert (f64_as U32_MAX (f64_mul p F7000_0) < 67108864).
  { apply (score_part 2); [|done|lia]. apply (upto_div 1 0); [done| |lia].
    apply atleast_add; [done| |lia]. apply nonneg_mul, of_N_nonneg. }
  assert (f64_as U32_MAX (f64_mul r F3000_0) < 67108864).
  { apply (score_part 3); [|done|lia]. subst r. case_bool_decide; [done|].
    apply share_upto; [|apply of_N_nonneg]. change (2 ^ 64) with (U64_MAX + 1). lia. }
  eexists. capped. split; [done|lia].
Qed.

(** Scoring a candidate returns in every build. *)
Lemma score_total config counts n v :
  0 < n < 2 ^ 64 → v.(vi_total_jobs_completed) <= U64_MAX →
  ∃ s, score config counts (f64_of_N n) v = Ok s ∧ s.(sv_composite_score) <= MAX_SCORE.
Proof.
  intros Hn Hj. unfold score.
  destruct (performance_total v) as (p & -> & _), (decentralization_total v counts n Hn) as (d & -> & _),
    (reputation_total v Hj) as (r & -> & _). eexists. split; [done|]. cbn. unfold weighted_composite. lia.
Qed.
End scores.

(** ** Diversity *)
(** How many of the addresses have [k] as their key. *)
Definition members (key : string → option string) (k : string) (addrs : list string) : N :=
  N.of_nat (length (filter (λ a, key a = Some k) addrs)).

Lemma members_snoc key k addrs a :
  members key k (addrs ++ [a]) = members key k addrs + (if bool_decide (key a = Some k) then 1 else 0).
Proof.
  unfold members. rewrite filter_app, length_app, filter_cons, filter_nil.
  case_decide; rewrite ?bool_decide_true, ?bool_decide_false by done; cbn; lia.
Qed.

Lemma members_mono key k l l' : members key k l <= members key k (l ++ l').
Proof. unfold members. rewrite filter_app, length_app. lia. Qed.

Section diversity.
Context `{Build} (candidates : list ValidatorInput) (target max_region max_per_region max_operator : N).
Context (Hmax : effective_max_region target max_per_region = Ok max_region).

Definition region_of (a : string) : option string := vi_geographic_region <$> candidate_of candidates a.
Definition operator_of (a : string) : option string := vi_operator_id <$> candidate_of candidates a.

(** What holds of the addresses selected so far. *)
Record diverse (addrs : list string) : Prop := {
  dv_size : N.of_nat (length addrs) <= target;
  dv_distinct : NoDup addrs;
  dv_region r : members region_of r addrs <= max_region;
  dv_operator o : members operator_of o addrs <= max_operator;
}.

Lemma diverse_nil : diverse [].
Proof. split; [cbn; lia|by apply NoDup_nil|intros; unfold members; cbn; lia..]. Qed.

(** Why an address was left out. *)
Definition left_out (addrs : list string) (a : string) : Prop :=
  target <= N.of_nat (length addrs)
  ∨ (∃ r, region_of a = Some r ∧ max_region <= members region_of r addrs)
  ∨ (∃ o, operator_of a = Some o ∧ max_operator <= members operator_of o addrs).

Lemma left_out_mono addrs more a : left_out addrs a → left_out (addrs ++ more) a.
Proof.
  intros [Ht|[(r & Hr & Hm)|(o & Ho & Hm)]]; [left|right; left; exists r|right; right; exists o].
  - rewrite length_app. lia.
  - split; [done|]. etrans; [exact Hm|apply members_mono].
  - split; [done|]. etrans; [exact Hm|apply members_mono].
Qed.

(** The maps of the loop count the members. *)
Definition counts (key : string → option string) (m : gmap string N) (addrs : list string) : Prop :=
  ∀ k, default 0 (m !! k) = members key k addrs.

Lemma counts_bump key m addrs a k :
  counts key m addrs → key a = Some k → counts key (bump m k) (addrs ++ [a]).
Proof.
  intros Hm Hk j. rewrite members_snoc, Hk. unfold bump. destruct (decide (k = j)) as [->|Hne].
  - rewrite lookup_insert_eq, bool_decide_true by done. cbn. by rewrite Hm.
  - rewrite lookup_insert_ne, bool_decide_false by congruence. rewrite Hm. lia.
Qed.

Lemma bumped_cap key m addrs a k cap :
  counts key m addrs → key a = Some k → default 0 (m !! k) < cap →
  (∀ j, members key j addrs <= cap) → ∀ j, members key j (addrs ++ [a]) <= cap.
Proof.
  intros Hm Hk Hlt Hcap j. rewrite members_snoc, Hk. specialize (Hcap j). case_bool_decide as Hj; [|lia].
  injection Hj as <-. rewrite Hm in Hlt. lia.
Qed.

Lemma diverse_snoc region_count operator_count addrs a r o :
  counts region_of region_count addrs → counts operator_of operator_count addrs → diverse addrs →
  a ∉ addrs → N.of_nat (length addrs) < target →
  region_of a = Some r → default 0 (region_count !! r) < max_region →
  operator_of a = Some o → default 0 (operator_count !! o) < max_operator → diverse (addrs ++ [a]).
Proof.
  intros Hrc Hoc Hdiv Hin Hlen Hr Hrn Ho Hon. split.
  - rewrite length_app. cbn. lia.
  - apply NoDup_app. split_and!; [apply Hdiv| |apply NoDup_singleton]. by intros x Hx ->%list_elem_of_singleton.
  - by eapply bumped_cap; [exact Hrc|..|apply Hdiv].
  - by eapply bumped_cap; [exact Hoc|..|apply Hdiv].
Qed.

(** What the loop returns from [selected] on. *)
Definition loop_post (selected scored : list ScoredValidator) (res : outcome string (list ScoredValidator)) : Prop :=
  ∃ picked, res = Ok (selected ++ picked)
    ∧ picked `sublist_of` scored
    ∧ diverse (sv_address <$> (selected ++ picked))
    ∧ (∀ v, v ∈ scored → v.(sv_address) ∈ sv_address <$> (selected ++ picked)
                         ∨ left_out (sv_address <$> (selected ++ picked)) v.(sv_address)).

Lemma post_skip selected v scored res :
  (v.(sv_address) ∈ sv_address <$> selected ∨ left_out (sv_address <$> selected) v.(sv_address)) →
  loop_post selected scored res → loop_post selected (v :: scored) res.
Proof.
  intros Hv (picked & -> & Hsub & Hd & Hall). exists picked. split_and!; [done|by apply sublist_cons|done|].
  intros w [->|Hw]%elem_of_cons; [|by apply Hall]. rewrite fmap_app.
  destruct Hv as [Hv|Hv]; [left; apply elem_of_app; by left|right; by apply left_out_mono].
Qed.

Lemma post_take selected v scored res :
  loop_post (selected ++ [v]) scored res → loop_post selected (v :: scored) res.
Proof.
  intros (picked & Hl & Hsub & Hd & Hall). exists (v :: picked). rewrite <- app_assoc in Hl, Hd, Hall.
  split_and!; [done|by apply sublist_skip|done|].
  intros w [->|Hw]%elem_of_cons; [|by apply Hall]. left. rewrite fmap_app. apply elem_of_app. right. by left.
Qed.

Lemma post_stop selected scored :
  diverse (sv_address <$> selected) → target <= N.of_nat (length selected) ∨ scored = [] →
  loop_post selected scored (Ok selected).
Proof.
  intros Hdiv Hor. exists []. rewrite app_nil_r. split_and!; [done|apply sublist_nil_l|done|].
  intros w Hw. destruct Hor as [Hfull| ->]; [|by apply elem_of_nil in Hw]. right. left. by rewrite length_fmap.
Qed.

Lemma select_loop_spec scored : ∀ region_count operator_count selected,
  counts region_of region_count (sv_address <$> selected) →
  counts operator_of operator_count (sv_address <$> selected) →
  diverse (sv_address <$> selected) →
  Forall (λ v, is_Some (candidate_of candidates v.(sv_address))) scored →
  loop_post selected scored
    (select_loop target max_per_region max_operator candidates region_count operator_count selected scored).
Proof.
  induction scored as [|v scored IH]; intros rc oc sel Hrc Hoc Hdiv Hsome; cbn [select_loop].
  { apply post_stop; [done|by right]. }
  apply Forall_cons in Hsome as [[c Hc] Hsome].
  case_bool_decide as Hfull; [apply post_stop; [done|by left]|].
  case_bool_decide as Hin; [apply post_skip; auto|]. rewrite Hc, Hmax. cbn [mbind outcome_bind].
  assert (region_of v.(sv_address) = Some c.(vi_geographic_region)) as Hr by (unfold region_of; by rewrite Hc).
  assert (operator_of v.(sv_address) = Some c.(vi_operator_id)) as Ho by (unfold operator_of; by rewrite Hc).
  case_bool_decide as Hregion.
  { apply post_skip; [|auto]. right. right. left. eexists. split; [done|]. by rewrite <- Hrc. }
  case_bool_decide as Hoper.
  { apply post_skip; [|auto]. right. right. right. eexists. split; [done|]. by rewrite <- Hoc. }
  apply post_take, IH; [..|done]; rewrite fmap_app.
  - by apply counts_bump.
  - by apply counts_bump.
  - eapply diverse_snoc; [exact Hrc|exact Hoc|done|done| |exact Hr| |exact Ho|]; rewrite ?length_fmap; lia.
Qed.
End diversity.

(** ** The selection *)
Lemma dedup_sublist seen l : dedup seen l `sublist_of` l.
Proof.
  revert seen. induction l as [|v l IH]; intros seen; cbn; [constructor|].
  case_bool_decide; [by apply sublist_cons|by apply sublist_skip].
Qed.

Lemma map_ok_total {A B} (f : A → outcome string B) l :
  Forall (λ x, ∃ y, f x = Ok y) l → ∃ ys, map_ok f l = Ok ys ∧ Forall2 (λ x y, f x = Ok y) l ys.
Proof.
  induction 1 as [|x l (y & Hy) _ (ys & Hys & Hf)]; cbn; [eauto|]. rewrite Hy, Hys. cbn.
  eexists. split; [done|]. by constructor.
Qed.

Lemma sublist_sorted {A} (R : relation A) (l k : list A) :
  l `sublist_of` k → StronglySorted R k → StronglySorted R l.
Proof.
  induction 1 as [|x l k Hs IH|x l k Hs IH]; intros Hk; [done|..];
    apply StronglySorted_inv in Hk as [Hk Hall]; [|auto].
  constructor; [auto|]. rewrite Forall_forall in *. intros y Hy. eapply Hall, elem_of_sublist; done.
Qed.

(** Best score first. *)
Lemma sort_scored_sorted l :
  StronglySorted (λ a b, b.(sv_composite_score) <= a.(sv_composite_score)) (sort_scored l).
Proof. apply sort_with_sorted; [intros x y z; lia|..]; intros x y Hb; bool_facts; lia. Qed.

Lemma sorted_scores l :
  StronglySorted (λ a b, b.(sv_composite_score) <= a.(sv_composite_score)) l →
  StronglySorted (λ a b, b <= a) (sv_composite_score <$> l).
Proof. induction 1; cbn; constructor; [done|]. by apply Forall_fmap. Qed.

Section select.
Context `{Build, VaultMath} (candidates : list ValidatorInput) (config : SelectionConfig) (target : N).

(** The cap on one region in force. *)
Definition region_cap : N :=
  if bool_decide (config.(sc_max_per_region) = 0) then N.max (target * 2 / 5) 2
  else config.(sc_max_per_region).

(** Without a configured cap on regions the code doubles the target. *)
Definition target_fits : Prop := config.(sc_max_per_region) = 0 → target < 2 ^ 63.

Lemma region_cap_ok :
  target_fits → effective_max_region target config.(sc_max_per_region) = Ok region_cap.
Proof.
  intros Ht. unfold effective_max_region, region_cap. case_bool_decide as Hz; [|done]. specialize (Ht Hz).
  by rewrite u_mul_ok by (change (2 ^ 63) with 9223372036854775808 in Ht; lia).
Qed.

(** A selected validator is an eligible candidate, as it was submitted. *)
Definition stems_from (v : ScoredValidator) (c : ValidatorInput) : Prop :=
  v.(sv_address) = c.(vi_address) ∧ v.(sv_stake) = c.(vi_stake)
  ∧ v.(sv_tee_public_key) = c.(vi_tee_public_key) ∧ v.(sv_commission_bps) = c.(vi_commission_bps).

Lemma score_stems counts n c s : score config counts n c = Ok s → stems_from s c.
Proof. unfold score. intros Hs. ok_inv Hs. by simplify_eq. Qed.

Lemma eligible_in c :
  c ∈ eligible_candidates config candidates →
  c ∈ candidates ∧ is_eligible_candidate config c = true.
Proof.
  intros [He Hd]%list_elem_of_filter. split; [|done]. eapply elem_of_sublist; [done|apply dedup_sublist].
Qed.

Lemma candidate_known c : c ∈ candidates → is_Some (candidate_of candidates c.(vi_address)).
Proof.
  intros Hc. unfold candidate_of. apply last_is_Some. intros Hn.
  assert (c ∈ filter (λ v, v.(vi_address) = c.(vi_address)) candidates) as Hf by (by apply list_elem_of_filter).
  rewrite Hn in Hf. by apply elem_of_nil in Hf.
Qed.

Lemma ranked_addresses l : sv_address <$> imap set_rank l = sv_address <$> l.
Proof. rewrite fmap_imap. apply imap_const. Qed.
Lemma ranked_scores l : sv_composite_score <$> imap set_rank l = sv_composite_score <$> l.
Proof. rewrite fmap_imap. apply imap_const. Qed.

Lemma count_region_size m v : (size m ≤ size (count_region m v) ≤ S (size m))%nat ∧ (0 < size (count_region m v))%nat.
Proof.
  unfold count_region. rewrite map_size_insert. destruct (m !! _) eqn:Hm; cbn; [|lia].
  split; [lia|]. destruct (decide (size m = 0%nat)) as [Hz|]; [|lia].
  apply map_size_empty_iff in Hz as ->. by rewrite lookup_empty in Hm.
Qed.

Lemma count_regions_size l m : (size m ≤ size (foldl count_region m l) ≤ size m + length l)%nat.
Proof.
  revert m. induction l as [|v l IH]; intros m; cbn; [lia|].
  pose proof (count_region_size m v). specialize (IH (count_region m v)). lia.
Qed.

Lemma regions_bounds v l :
  N.of_nat (length (v :: l)) < 2 ^ 63 → 0 < N.of_nat (size (count_by_region (v :: l))) < 2 ^ 64.
Proof.
  intros Hl. unfold count_by_region. cbn [foldl]. pose proof (count_region_size ∅ v) as [? ?].
  pose proof (count_regions_size l (count_region ∅ v)). rewrite map_size_empty in *.
  change (2 ^ 63) with 9223372036854775808 in Hl. change (2 ^ 64) with 18446744073709551616.
  cbn [length] in Hl. lia.
Qed.

Lemma eligible_length : (length (eligible_candidates config candidates) ≤ length candidates)%nat.
Proof.
  unfold eligible_candidates. etrans; [apply length_filter|]. apply sublist_length, dedup_sublist.
Qed.
(** The scores of the eligible candidates. *)
Lemma scores_total v l :
  eligible_candidates config candidates = v :: l → N.of_nat (length candidates) < 2 ^ 63 →
  Forall (λ c, c.(vi_total_jobs_completed) <= U64_MAX) candidates →
  ∃ scored, map_ok (score config (count_by_region (v :: l)) (f64_of_N (N.of_nat (size (count_by_region (v :: l))))))
              (v :: l) = Ok scored
    ∧ Forall2 (λ c s, stems_from s c) (v :: l) scored.
Proof.
  intros He Hlen Hjobs. pose proof eligible_length as Hl. rewrite He in Hl.
  pose proof (regions_bounds v l ltac:(lia)) as Hn.
  destruct (map_ok_total (score config (count_by_region (v :: l))
              (f64_of_N (N.of_nat (size (count_by_region (v :: l)))))) (v :: l)) as (scored & Hs & Hf).
  { apply Forall_forall. intros c Hc. rewrite <- He in Hc. apply eligible_in in Hc as [Hc _].
    rewrite Forall_forall in Hjobs. destruct (score_total config (count_by_region (v :: l)) _ c Hn (Hjobs c Hc))
      as (s & -> & _). eauto. }
  exists scored. split; [exact Hs|]. eapply Forall2_impl; [exact Hf|]. intros c s. apply score_stems.
Qed.

(** What [select_validators] promises of its result. *)
Record selection_ok (selected : list ScoredValidator) : Prop := {
  so_diverse : diverse candidates target region_cap config.(sc_max_per_operator) (sv_address <$> selected);
  so_sorted : StronglySorted (λ a b, b <= a) (sv_composite_score <$> selected);
  so_ranks i v : selected !! i = Some v → v.(sv_rank) = (N.of_nat i + 1) mod 2 ^ 32;
  so_stems v : v ∈ selected →
    ∃ c, c ∈ candidates ∧ is_eligible_candidate config c = true ∧ stems_from v c;
  so_complete c : c ∈ eligible_candidates config candidates → c.(vi_address) ∉ sv_address <$> selected →
    left_out candidates target region_cap config.(sc_max_per_operator) (sv_address <$> selected) c.(vi_address);
}.

Lemma picked_ok scored picked :
  Forall2 (λ c s, stems_from s c) (eligible_candidates config candidates) scored →
  loop_post candidates target region_cap config.(sc_max_per_operator) [] (sort_scored scored) (Ok picked) →
  selection_ok (imap set_rank picked).
Proof.
  intros Hf (picked' & [= <-] & Hsub & Hd & Hall). cbn [app] in *. split.
  - by rewrite ranked_addresses.
  - rewrite ranked_scores. apply sorted_scores. eapply sublist_sorted; [exact Hsub|apply sort_scored_sorted].
  - intros i v. rewrite list_lookup_imap. destruct (picked !! i); cbn; [|done]. by intros [= <-].
  - intros v Hv. apply elem_of_lookup_imap in Hv as (i & w & -> & Hw%list_elem_of_lookup_2).
    eapply elem_of_sublist in Hw; [|exact Hsub]. unfold sort_scored in Hw. rewrite sort_with_perm in Hw.
    apply list_elem_of_lookup in Hw as [j Hj]. destruct (Forall2_lookup_r _ _ _ _ _ Hf Hj) as (c & Hc & Hst).
    apply list_elem_of_lookup_2, eligible_in in Hc as [Hc He]. by exists c.
  - intros c Hc Hout. rewrite ranked_addresses in *.
    apply list_elem_of_lookup in Hc as [j Hj]. destruct (Forall2_lookup_l _ _ _ _ _ Hf Hj) as (s & Hs & Hst).
    destruct (Hall s) as [Hin|Hl].
    + unfold sort_scored. rewrite sort_with_perm. by eapply list_elem_of_lookup_2.
    + destruct Hst as [Ha _]. by rewrite Ha in Hin.
    + destruct Hst as [<- _]. done.
Qed.

Lemma selection_empty : eligible_candidates config candidates = [] → selection_ok [].
Proof.
  intros He. split; cbn.
  - by apply diverse_nil.
  - constructor.
  - by intros i v.
  - by intros v ?%elem_of_nil.
  - rewrite He. by intros c ?%elem_of_nil.
Qed.

(** Where addresses are distinct, as the HTTP handler demands, the entry whose region and operator
    count for a selected validator is the candidate it comes from. *)
Lemma candidate_unique c :
  NoDup (vi_address <$> candidates) → c ∈ candidates → candidate_of candidates c.(vi_address) = Some c.
Proof.
  unfold candidate_of. clear. induction candidates as [|d l IH]; intros Hnd Hc; [by apply not_elem_of_nil in Hc|].
  cbn [fmap list_fmap] in Hnd. apply NoDup_cons in Hnd as [Hd Hnd]. rewrite filter_cons.
  apply elem_of_cons in Hc as [->|Hc].
  - rewrite decide_True by done. destruct (filter _ l) as [|x k] eqn:Hf; [done|].
    assert (x ∈ filter (λ v, v.(vi_address) = d.(vi_address)) l) as Hx by (rewrite Hf; by left).
    apply list_elem_of_filter in Hx as [Heq Hx]. exfalso. apply Hd. rewrite <- Heq. by apply list_elem_of_fmap_2.
  - rewrite decide_False; [by apply IH|]. intros Heq. apply Hd. rewrite Heq. by apply list_elem_of_fmap_2.
Qed.

(** C30: whatever telemetry the candidates report, [select_validators] returns in every build,
    provided that the target is below [2^63] where no cap on regions is configured (the code then
    doubles it), and its result has at most [target_count] distinct validators, none from a region or
    an operator beyond its cap (by the last entry of an address that occurs twice), every one an
    eligible candidate with the stake, key and commission submitted, best score first with ranks
    counted from one in 32 bits; an eligible candidate that is missing was kept out by the size, by
    its region or by its operator. *)
Theorem selection_sound :
  N.of_nat (length candidates) < 2 ^ 63 → target_fits →
  Forall (λ c, c.(vi_total_jobs_completed) <= U64_MAX) candidates →
  ∃ selected, select_validators candidates target config = Ok selected ∧ selection_ok selected.
Proof.
  intros Hlen Ht Hjobs. unfold select_validators.
  destruct (eligible_candidates config candidates) as [|v l] eqn:He; [eauto using selection_empty|].
  destruct (scores_total v l He Hlen Hjobs) as (scored & -> & Hf). cbn [mbind outcome_bind].
  assert (Forall (λ s, is_Some (candidate_of candidates s.(sv_address))) (sort_scored scored)) as Hsome.
  { unfold sort_scored. rewrite sort_with_perm. apply Forall_forall. intros s [j Hj]%list_elem_of_lookup.
    destruct (Forall2_lookup_r _ _ _ _ _ Hf Hj) as (c & Hc%list_elem_of_lookup_2 & -> & _).
    rewrite <- He in Hc. apply candidate_known, eligible_in, Hc. }
  unfold apply_diversity_constraints.
  pose proof (select_loop_spec candidates target region_cap _ config.(sc_max_per_operator) (region_cap_ok Ht)
                (sort_scored scored) ∅ ∅ []) as Hpost.
  destruct Hpost as (picked & -> & Hpost); [done..| |done|].
  { by apply diverse_nil. }
  cbn. eexists. split; [done|]. apply (picked_ok scored); [by rewrite He|]. by exists picked.
Qed.
End select.

(** ** Samples *)
#[export] Instance flat_math : VaultMath := {| f64_ln := λ _, F1_0 |}.
#[export] Instance plain_order : VaultOrder.
Proof. by refine {| visit := λ l, l |}. Defined.

Definition applicant (address region operator : string) (slashes : N) : ValidatorInput := {|
  vi_address := address; vi_stake := 100000000000000000000;
  vi_uptime_pct := f64_of_N 99; vi_avg_response_ms := f64_of_N 50; vi_geographic_region := region;
  vi_country_code := "US"; vi_operator_id := operator; vi_slash_count := slashes;
  vi_total_jobs_completed := 1000; vi_tee_public_key := "key"; vi_commission_bps := 500 |}.
Definition applicants : list ValidatorInput :=
  [applicant "v1" "us" "a" 1; applicant "v2" "us" "a" 0; applicant "v3" "us" "b" 0; applicant "v4" "eu" "b" 0].

(** Two of three in one region, the slashed one is left out. *)
Example applicants_selected :
  (let _ := dev_build in fmap (M := list) sv_address <$>
     match select_validators applicants 3 SelectionConfig_default with Ok l => Some l | _ => None end)
  = Some ["v4"; "v2"; "v3"].
Proof. vm_compute. reflexivity. Qed.

(** A target of [2^63] without a cap on regions: a panic with overflow checks, the smallest cap
    without them. *)
Example huge_target :
  select_validators (H := dev_build) applicants (2 ^ 63) SelectionConfig_default = Panic
  ∧ effective_max_region (H := wrapping_build) (2 ^ 63) 0 = Ok 2.
Proof. split; vm_compute; reflexivity. Qed.

(** The four applicants are selected from under the default configuration. *)
Lemma selection_sound_witness :
  ∃ selected, select_validators (H := dev_build) applicants 3 SelectionConfig_default = Ok selected
    ∧ selection_ok applicants SelectionConfig_default 3 selected.
Proof.
  apply (selection_sound (H := dev_build) applicants SelectionConfig_default 3); [done|done|].
  by repeat constructor.
Defined.

(** ** Commit and reveal *)
Section mev.
Context `{VaultLib}.

Lemma reveal_loop_spec commitments reveals : ∀ valid_reveals invalid,
  reveal_loop commitments reveals valid_reveals invalid
  = (valid_reveals ++ (validated <$> filter (λ r, reveal_valid commitments r = true) reveals),
     invalid ++ (rv_validator <$> filter (λ r, reveal_valid commitments r = false) reveals)).
Proof.
  induction reveals as [|r reveals IH]; intros vs js; [cbn; by rewrite !app_nil_r|]. cbn [reveal_loop].
  rewrite !filter_cons. destruct (reveal_valid commitments r) eqn:Hr; rewrite IH; cbn; by rewrite <- app_assoc.
Qed.

(** [process_commit_reveal] splits the reveals: the ordered ones are exactly those whose data
    and nonce hash to the last commitment of their validator, sorted by the time they declare,
    those of one time in the order received, and their positions count from zero; the
    others are reported, in order. *)
Lemma reveals_ordered commitments reveals :
  ∃ sorted,
    process_commit_reveal commitments reveals
    = (imap set_position sorted, rv_validator <$> filter (λ r, reveal_valid commitments r = false) reveals)
    ∧ sorted ≡ₚ validated <$> filter (λ r, reveal_valid commitments r = true) reveals
    ∧ StronglySorted (λ a b, a.(vr_ordering_timestamp) <= b.(vr_ordering_timestamp)) sorted
    ∧ ∀ t, filter (λ r, r.(vr_ordering_timestamp) = t) sorted
           = filter (λ r, r.(vr_ordering_timestamp) = t)
               (validated <$> filter (λ r, reveal_valid commitments r = true) reveals).
Proof.
  unfold process_commit_reveal. rewrite reveal_loop_spec. cbn [app]. eexists. split; [done|].
  split_and!; [apply sort_by_key_perm|apply sort_by_key_sorted|]. intros t. apply sort_by_key_stable.
Qed.

Definition at_time (t : N) (r : Reveal) : Reveal :=
  {| rv_validator := r.(rv_validator); rv_block_data := r.(rv_block_data); rv_nonce := r.(rv_nonce);
     rv_timestamp := t |}.

(** The head of a sorted list is the one element of the least key. *)
Lemma sorted_head {A} (key : A → N) x others l :
  l ≡ₚ x :: others → StronglySorted (λ a b, key a <= key b) l → key x = 0 →
  Forall (λ y, 0 < key y) others → ∃ rest, l = x :: rest.
Proof.
  intros Hp Hs Hx Ho. destruct l as [|h l]; [by apply Permutation_nil_cons in Hp|]. exists l. f_equal.
  assert (h ∈ x :: others) as Hh by (rewrite <- Hp; by left). apply elem_of_cons in Hh as [->|Hh]; [done|].
  assert (x ∈ h :: l) as Hxl by (rewrite Hp; by left). apply StronglySorted_inv in Hs as [_ Hall].
  rewrite Forall_forall in *. specialize (Ho h Hh).
  apply elem_of_cons in Hxl as [->|Hxl]; [done|]. specialize (Hall x Hxl). cbn in *. lia.
Qed.

(** The time of a reveal is whatever its sender says.  A committed reveal sent again with
    time zero is still valid and comes first, before every reveal that declares a later time,
    wherever it was received. *)
Lemma reveal_time_unbound commitments before after r :
  reveal_valid commitments r = true → Forall (λ o, 0 < o.(rv_timestamp)) (before ++ after) →
  ∃ rest, (process_commit_reveal commitments (before ++ at_time 0 r :: after)).1
          = {| vr_validator := r.(rv_validator); vr_block_data := r.(rv_block_data);
               vr_ordering_timestamp := 0; vr_position := 0 |} :: rest.
Proof.
  intros Hv Hpos. unfold process_commit_reveal. rewrite reveal_loop_spec. cbn [app fst].
  set (valid := validated <$> _).
  assert (valid ≡ₚ validated (at_time 0 r)
            :: (validated <$> filter (λ r, reveal_valid commitments r = true) (before ++ after))) as Hp.
  { subst valid. rewrite !filter_app, !fmap_app, filter_cons, decide_True by done. cbn.
    by rewrite Permutation_middle. }
  destruct (sorted_head vr_ordering_timestamp (validated (at_time 0 r))
              (validated <$> filter (λ r, reveal_valid commitments r = true) (before ++ after))
              (sort_by_key vr_ordering_timestamp valid)) as [rest ->];
    [by rewrite sort_by_key_perm|apply sort_by_key_sorted|done| |by eexists].
  apply Forall_fmap, Forall_forall. intros o [_ Ho]%list_elem_of_filter. rewrite Forall_forall in Hpos. by apply Hpos.
Qed.

Lemma string_bytes_app s t : string_bytes (s +:+ t) = string_bytes s ++ string_bytes t.
Proof. induction s as [|c s IH]; [done|]. cbn. by rewrite <- IH. Qed.

(** A commitment does not fix where the data ends and the nonce begins. *)
Lemma commitment_split data more nonce :
  compute_commitment_hash (data +:+ more) nonce = compute_commitment_hash data (more +:+ nonce).
Proof. unfold compute_commitment_hash. by rewrite !string_bytes_app, app_assoc. Qed.
End mev.

(** Two validators committed; the second reveal claims time zero. *)
Definition sealed (v data : string) : Commitment := {|
  cm_validator := v; cm_commitment_hash := compute_commitment_hash (H := toy_vault) data "n"; cm_timestamp := 5 |}.
Definition opened (v data : string) (t : N) : Reveal := {|
  rv_validator := v; rv_block_data := data; rv_nonce := "n"; rv_timestamp := t |}.

Lemma reveal_time_unbound_witness :
  ∃ rest, (process_commit_reveal (H := toy_vault) [sealed "a" "x"; sealed "b" "y"]
             ([opened "a" "x" 10] ++ at_time 0 (opened "b" "y" 90) :: [])).1
          = {| vr_validator := "b"; vr_block_data := "y"; vr_ordering_timestamp := 0; vr_position := 0 |} :: rest.
Proof.
  apply (reveal_time_unbound (H := toy_vault) [sealed "a" "x"; sealed "b" "y"] [opened "a" "x" 10] []
           (opened "b" "y" 90)); [vm_compute; reflexivity|by repeat constructor].
Defined.
