(* ===== verification/VaultAttest.v ===== *)
(** * Attestation documents of the vault service

    [crates/vault/src/attestation.rs]: the hardware providers (a software one and, behind Cargo
    features, SGX through Gramine, Nitro through the NSM device and SEV-SNP), the authorities that
    certify a platform key, and the generator that signs a document for a payload.

    [k256], [p256], [ciborium] and the error texts of [hex] are an instance of [VaultCrypto]; the
    devices and the relay are an instance of [TeeHardware], the Cargo features of [VaultFeatures].
    The clock and the random draws are arguments. *)
From S2P Require Import Prelude SysTypes Precompile ConsensusTypes VaultReward.
From stdpp Require Import base list strings pretty.
From Stdlib Require Import ZArith Lia.
#[local] Open Scope N_scope.

(** [ciborium::Value], as far as the code looks at it *)
Inductive Cbor :=
  | CInteger (z : Z)
  | CBytes (bs : bytes)
  | CText (s : string)
  | CNull
  | CTag (tag : N) (v : Cbor)
  | CArray (l : list Cbor)
  | CMap (l : list (Cbor * Cbor))
  | COther.

Class VaultFeatures := {
  feature_sgx : bool;
  feature_nitro : bool;
  feature_sev : bool;
  feature_remote_attestation : bool;
  feature_mock_tee : bool;
}.

(** The libraries; an error carries its message. *)
Class VaultCrypto := {
  (** [k256::ecdsa::SigningKey::from_slice(key)] fails, with this message *)
  k256_key_error : bytes → option string;
  k256_public : bytes → bytes;
  (** [sign_prehash_recoverable]: R, S and the recovery id *)
  k256_sign : bytes → bytes → outcome string (bytes * bytes * N);
  k256_signature_error : bytes → option string;
  k256_recovery_error : N → option string;
  k256_recover : bytes → bytes → N → outcome string bytes;
  p256_key_error : bytes → option string;
  p256_public : bytes → bytes * bytes;
  p256_sign : bytes → bytes → outcome string (bytes * bytes);
  hex_error : string → string;
  cbor_encode : Cbor → outcome string bytes;
  cbor_decode : bytes → outcome string Cbor;
  cbor_debug : Cbor → string;
}.

(** The answer of the relay to a request. *)
Inductive RelayAnswer :=
  | RelayUnreachable (message : string)
  | RelayStatus (status : string)
  | RelayUnparsable (message : string)
  | RelayBody (vendor_sig_r vendor_sig_s : option string).

Class TeeHardware := {
  (** [/dev/attestation]: writing the report data, then reading report and quote *)
  gramine_write : bytes → outcome string unit;
  gramine_report : bytes → outcome string bytes;
  gramine_quote : bytes → outcome string bytes;
  (** [/dev/nsm]: a request, with the message of the failed step *)
  nsm_request : bytes → outcome string bytes;
  (** [/dev/sev-guest]: the response and [exitinfo2] *)
  sev_request : bytes → outcome string (bytes * N);
  hex8 : N → string;
  relay_post : string → bytes → bytes → N → bytes → RelayAnswer;
}.

(** What the documentation of the libraries promises. *)
Class VaultCryptoLaws `{VaultCrypto} : Prop := {
  k256_sign_sizes key digest r s v :
    k256_sign key digest = Ok (r, s, v) → length r = 32%nat ∧ length s = 32%nat ∧ v < 4;
  k256_recovers key digest r s v :
    k256_key_error key = None → k256_sign key digest = Ok (r, s, v) →
    k256_signature_error (r ++ s) = None ∧ k256_recovery_error v = None
    ∧ k256_recover digest (r ++ s) v = Ok (k256_public key);
  k256_sign_bytes key digest r s v :
    k256_sign key digest = Ok (r, s, v) → Forall (λ b, b < 256) (r ++ s);
}.

(** ** Types *)
Inductive TEEPlatform := IntelSGX | AWSNitro | AMDSEV | MockPlatform.
#[export] Instance TEEPlatform_eq_dec : EqDecision TEEPlatform.
Proof. solve_decision. Defined.

Definition TEEPlatform_u8 (p : TEEPlatform) : N :=
  match p with IntelSGX => 0 | AWSNitro => 1 | AMDSEV => 2 | MockPlatform => 255 end.
Definition TEEPlatform_to_string (p : TEEPlatform) : string :=
  match p with IntelSGX => "sgx" | AWSNitro => "nitro" | AMDSEV => "sev" | MockPlatform => "mock" end.

Record TEEConfig := {
  tc_platform : TEEPlatform;
  tc_enclave_hash : bytes;
  tc_signer_hash : bytes;
  tc_application_hash : option bytes;
  tc_allow_simulated : bool;
  tc_signing_key : bytes;
}.

Record KeyAttestation := {
  ka_platform_key_x : bytes;
  ka_platform_key_y : bytes;
  ka_platform_id : N;
  ka_vendor_sig_r : bytes;
  ka_vendor_sig_s : bytes;
}.

Inductive AttestationError :=
  | MockDisabled
  | PlatformNotAvailable (p : TEEPlatform)
  | SimulatedHardwareNotAllowed (p : TEEPlatform)
  | MeasurementMismatch (field : string) (expected got : bytes)
  | SigningFailed (msg : string)
  | HardwareUnavailable (msg : string).

Definition AttestationError_to_string (e : AttestationError) : string :=
  match e with
  | MockDisabled => "mock attestation disabled (set allow_simulated = true for testing)"
  | PlatformNotAvailable p => "TEE platform '" +:+ TEEPlatform_to_string p +:+ "' is not available on this host"
  | SimulatedHardwareNotAllowed p =>
      "simulated hardware provider for platform '" +:+ TEEPlatform_to_string p
      +:+ "' is not allowed (running without real TEE hardware; set allow_simulated = true for testing)"
  | MeasurementMismatch field expected got =>
      "hardware report " +:+ field +:+ " mismatch: expected " +:+ hex_encode expected +:+ ", got " +:+ hex_encode got
  | SigningFailed msg => "ECDSA signing failed: " +:+ msg
  | HardwareUnavailable msg => "TEE hardware unavailable: " +:+ msg
  end.

Record HardwareReport := {
  hr_report_hash : bytes;
  hr_enclave_measurement : bytes;
  hr_signer_measurement : bytes;
  hr_application_measurement : option bytes;
}.

Record VendorKeyAttestation := { vk_sig_r : bytes; vk_sig_s : bytes }.

Record PlatformKeyBundle := {
  pb_public_key_x : bytes;
  pb_public_key_y : bytes;
  pb_vendor_attestation : VendorKeyAttestation;
}.

Abbreviation AttestResult A := (outcome AttestationError A).

Definition map_err {E F A} (f : E → F) (o : outcome E A) : outcome F A :=
  match o with Ok a => Ok a | Err e => Err (f e) | Panic => Panic | Blocked => Blocked end.
Definition newline : string := String (Ascii.ascii_of_N 10) EmptyString.
Definition ok_or_else {E A} (o : option A) (e : E) : outcome E A :=
  match o with Some a => Ok a | None => Err e end.

(** ** [HardwareAttestationProvider]

    [generate_platform_key] stores the key in the provider; the draws of the random number
    generator are an argument. *)
Class HardwareAttestationProvider (P : Type) := {
  generate_report : P → bytes → AttestResult HardwareReport;
  generate_platform_key : list (outcome string bytes) → N → M AttestationError P PlatformKeyBundle;
  sign_with_platform_key : P → bytes → AttestResult (bytes * bytes);
  platform : P → TEEPlatform;
}.

Section signing.
Context `{VaultLib, VaultCrypto}.

(** [P256SigningKey::from_slice(key).map_err(..)?.sign_prehash(hash).map_err(..)?] *)
Definition p256_sign_with (key_label sign_label : string) (key hash : bytes) : AttestResult (bytes * bytes) :=
  match p256_key_error key with
  | Some e => Err (SigningFailed (key_label +:+ ": " +:+ e))
  | None => map_err (λ e, SigningFailed (sign_label +:+ ": " +:+ e)) (p256_sign key hash)
  end.

Definition p256_sign_report_body (key_bytes report_body : bytes) : AttestResult (bytes * bytes) :=
  p256_sign_with "invalid P-256 platform key" "P-256 evidence signing failed" key_bytes (v_sha256 report_body).

(** The message an authority signs *)
Definition key_binding (pk_x pk_y : bytes) (platform_id : N) : bytes := v_sha256 (pk_x ++ pk_y ++ [platform_id]).

(** The loop until a valid scalar is drawn; it does not return when none is. *)
Fixpoint draw_key (draws : list (outcome string bytes)) : AttestResult bytes :=
  match draws with
  | [] => Blocked
  | d :: draws =>
      key_bytes ← map_err (λ e, SigningFailed ("OS RNG failed to generate P-256 key: " +:+ e)) d;
      match p256_key_error key_bytes with None => Ok key_bytes | Some _ => draw_key draws end
  end.

Definition generate_p256_platform_key (draws : list (outcome string bytes)) : AttestResult (bytes * bytes * bytes) :=
  key_bytes ← draw_key draws;
  let '(pk_x, pk_y) := p256_public key_bytes in
  Ok (key_bytes, pk_x, pk_y).
End signing.

(** ** [VendorAttester] *)
Inductive VendorAttester :=
  | LocalVendorAttester (vendor_key : bytes)
  | RemoteVendorAttester (relay_url : string).

Section vendor.
Context `{VaultLib, VaultCrypto, TeeHardware}.

Definition local_attest (vendor_key pk_x pk_y : bytes) (platform_id : N) : AttestResult VendorKeyAttestation :=
  '(r, s) ← p256_sign_with "invalid vendor key" "vendor signing failed" vendor_key (key_binding pk_x pk_y platform_id);
  Ok {| vk_sig_r := r; vk_sig_s := s |}.

Definition decode_part (name : string) (text : string) : AttestResult bytes :=
  ok_or_else (v_hex_decode text) (HardwareUnavailable ("invalid " +:+ name +:+ " hex: " +:+ hex_error text)).

Definition remote_attest (relay_url : string) (pk_x pk_y : bytes) (platform_id : N) (hardware_evidence : bytes)
  : AttestResult VendorKeyAttestation :=
  match relay_post relay_url pk_x pk_y platform_id hardware_evidence with
  | RelayUnreachable e =>
      Err (HardwareUnavailable ("attestation relay request to " +:+ relay_url +:+ " failed: " +:+ e))
  | RelayStatus status => Err (HardwareUnavailable ("attestation relay returned HTTP " +:+ status))
  | RelayUnparsable e => Err (HardwareUnavailable ("attestation relay response parse failed: " +:+ e))
  | RelayBody r s =>
      r_hex ← ok_or_else r (HardwareUnavailable "attestation relay response missing 'vendor_sig_r'");
      s_hex ← ok_or_else s (HardwareUnavailable "attestation relay response missing 'vendor_sig_s'");
      r_bytes ← decode_part "vendor_sig_r" r_hex;
      s_bytes ← decode_part "vendor_sig_s" s_hex;
      if negb (bool_decide (length r_bytes = 32%nat)) || negb (bool_decide (length s_bytes = 32%nat)) then
        Err (HardwareUnavailable ("vendor signature components must be 32 bytes each, got r="
             +:+ pretty (N.of_nat (length r_bytes)) +:+ " s=" +:+ pretty (N.of_nat (length s_bytes))))
      else Ok {| vk_sig_r := r_bytes; vk_sig_s := s_bytes |}
  end.

Definition attest_platform_key (a : VendorAttester) (pk_x pk_y : bytes) (platform_id : N)
    (hardware_evidence : bytes) : AttestResult VendorKeyAttestation :=
  match a with
  | LocalVendorAttester key => local_attest key pk_x pk_y platform_id
  | RemoteVendorAttester url => remote_attest url pk_x pk_y platform_id hardware_evidence
  end.
End vendor.

(** ** The software provider *)
Record MockHardwareProvider := {
  mp_enclave_hash : bytes;
  mp_signer_hash : bytes;
  mp_application_hash : option bytes;
  mp_vendor_root_key : bytes;
  mp_platform_key : option bytes;
}.

Definition MockHardwareProvider_new (enclave_hash signer_hash vendor_root_key : bytes) : MockHardwareProvider :=
  {| mp_enclave_hash := enclave_hash; mp_signer_hash := signer_hash; mp_application_hash := None;
     mp_vendor_root_key := vendor_root_key; mp_platform_key := None |}.
Definition with_application_hash (app_hash : bytes) (p : MockHardwareProvider) : MockHardwareProvider :=
  {| mp_enclave_hash := p.(mp_enclave_hash); mp_signer_hash := p.(mp_signer_hash);
     mp_application_hash := Some app_hash; mp_vendor_root_key := p.(mp_vendor_root_key);
     mp_platform_key := p.(mp_platform_key) |}.

(** [OnceLock::set]: the first value stays. *)
Definition set_once {A} (a : A) (o : option A) : option A := match o with None => Some a | Some b => Some b end.

Section mock.
Context `{VaultLib, VaultCrypto}.

Definition mock_generate_report (p : MockHardwareProvider) (report_data : bytes) : AttestResult HardwareReport :=
  let mock_report := v_sha256 (string_bytes "MOCK_HW_REPORT_V1" ++ p.(mp_enclave_hash) ++ p.(mp_signer_hash)
                               ++ report_data) in
  Ok {| hr_report_hash := v_sha256 mock_report; hr_enclave_measurement := p.(mp_enclave_hash);
        hr_signer_measurement := p.(mp_signer_hash); hr_application_measurement := p.(mp_application_hash) |}.

Definition set_mock_key (k : bytes) (p : MockHardwareProvider) : MockHardwareProvider :=
  {| mp_enclave_hash := p.(mp_enclave_hash); mp_signer_hash := p.(mp_signer_hash);
     mp_application_hash := p.(mp_application_hash); mp_vendor_root_key := p.(mp_vendor_root_key);
     mp_platform_key := set_once k p.(mp_platform_key) |}.

(** [rng.fill] cannot fail: the first draw that is a valid scalar. *)
Fixpoint fill_key (draws : list (outcome string bytes)) : AttestResult bytes :=
  match draws with
  | [] => Blocked
  | Ok key_bytes :: draws => match p256_key_error key_bytes with None => Ok key_bytes | Some _ => fill_key draws end
  | _ :: draws => fill_key draws
  end.

Definition mock_generate_platform_key (draws : list (outcome string bytes)) (platform_id : N)
  : M AttestationError MockHardwareProvider PlatformKeyBundle :=
  platform_key ← lift (fill_key draws);
  let '(pk_x, pk_y) := p256_public platform_key in
  p ← get;
  '(r, s) ← lift (p256_sign_with "invalid vendor root key" "vendor signing failed" p.(mp_vendor_root_key)
                    (key_binding pk_x pk_y platform_id));
  _ ← modify (set_mock_key platform_key);
  mret {| pb_public_key_x := pk_x; pb_public_key_y := pk_y;
          pb_vendor_attestation := {| vk_sig_r := r; vk_sig_s := s |} |}.

Definition mock_sign (p : MockHardwareProvider) (report_body : bytes) : AttestResult (bytes * bytes) :=
  key_bytes ← ok_or_else p.(mp_platform_key)
    (SigningFailed "platform key not yet generated; call generate_platform_key() first");
  p256_sign_report_body key_bytes report_body.

#[export] Instance mock_provider : HardwareAttestationProvider MockHardwareProvider := {|
  generate_report := mock_generate_report;
  generate_platform_key := mock_generate_platform_key;
  sign_with_platform_key := mock_sign;
  platform := λ _, MockPlatform |}.
End mock.

(** ** The hardware providers

    The three of them differ in the device; [slot] is their common state. *)
Record ProviderSlot := {
  ps_vendor_attester : option VendorAttester;
  ps_platform_key : option bytes;
}.

Definition with_attester (a : VendorAttester) : ProviderSlot :=
  {| ps_vendor_attester := Some a; ps_platform_key := None |}.
(** [create]: without the feature the key is dropped. *)
Definition create (feature : bool) (vendor_root_key : bytes) : ProviderSlot :=
  {| ps_vendor_attester := if feature then Some (LocalVendorAttester vendor_root_key) else None;
     ps_platform_key := None |}.
Definition set_slot_key (k : bytes) (p : ProviderSlot) : ProviderSlot :=
  {| ps_vendor_attester := p.(ps_vendor_attester); ps_platform_key := set_once k p.(ps_platform_key) |}.

Section devices.
Context `{VaultLib, VaultCrypto, TeeHardware, VaultFeatures}.

Definition unavailable {A} (label : string) (o : outcome string A) (hint : string) : AttestResult A :=
  map_err (λ e, HardwareUnavailable (label +:+ e +:+ hint)) o.

(** [sgx_get_attestation]: quote, MRENCLAVE, MRSIGNER *)
Definition sgx_get_attestation (user_data : bytes) : AttestResult (bytes * bytes * bytes) :=
  let padded := user_data ++ replicate 32 0 in
  _ ← unavailable "SGX write user_report_data: " (gramine_write padded) " (is Gramine configured?)";
  report_bytes ← unavailable "SGX read report: " (gramine_report padded) "";
  if bool_decide (length report_bytes < 384)%nat then
    Err (HardwareUnavailable ("SGX report too short: " +:+ pretty (N.of_nat (length report_bytes))
         +:+ " bytes (expected >= 384)"))
  else
    let mrenclave := take 32 (drop 64 report_bytes) in
    let mrsigner := take 32 (drop 128 report_bytes) in
    quote_bytes ← unavailable "SGX read quote: " (gramine_quote padded) " (is DCAP configured?)";
    if bool_decide (length quote_bytes < 432)%nat then
      Err (HardwareUnavailable ("SGX quote too short: " +:+ pretty (N.of_nat (length quote_bytes)) +:+ " bytes"))
    else Ok (quote_bytes, mrenclave, mrsigner).

(** [as_text() == Some(key)] *)
Definition is_text (key : string) (v : Cbor) : bool :=
  match v with CText t => bool_decide (t = key) | _ => false end.
Definition as_map (v : Cbor) : option (list (Cbor * Cbor)) := match v with CMap l => Some l | _ => None end.
Definition as_bytes (v : Cbor) : option bytes := match v with CBytes b => Some b | _ => None end.

Fixpoint find_document (inner : list (Cbor * Cbor)) : AttestResult bytes :=
  match inner with
  | [] => Err (HardwareUnavailable "no document in Attestation")
  | (ik, iv) :: inner =>
      if is_text "document" ik then ok_or_else (as_bytes iv) (HardwareUnavailable "document field not bytes")
      else find_document inner
  end.
Fixpoint find_attestation (map : list (Cbor * Cbor)) : AttestResult bytes :=
  match map with
  | [] => Err (HardwareUnavailable "no Attestation key in NSM response")
  | (k, v) :: map =>
      if is_text "Attestation" k then
        inner ← ok_or_else (as_map v) (HardwareUnavailable "Attestation not a map");
        find_document inner
      else if is_text "Error" k then Err (HardwareUnavailable ("NSM returned error: " +:+ cbor_debug v))
      else find_attestation map
  end.
Definition extract_cbor_attestation_document (resp : Cbor) : AttestResult bytes :=
  map ← ok_or_else (as_map resp) (HardwareUnavailable "NSM response not a map");
  find_attestation map.

Definition extract_cose_payload (cose : Cbor) : AttestResult bytes :=
  array ← ok_or_else
    (match cose with
     | CTag 18 (CArray l) => Some l
     | CArray l => Some l
     | _ => None
     end) (HardwareUnavailable "COSE_Sign1 not an array");
  if bool_decide (length array < 4)%nat then
    Err (HardwareUnavailable ("COSE_Sign1 array too short: " +:+ pretty (N.of_nat (length array)) +:+ " elements"))
  else ok_or_else (array !! 2%nat ≫= as_bytes) (HardwareUnavailable "COSE_Sign1 payload not bytes").

(** [pcrs]: the first entry of that name *)
Fixpoint find_pcrs (map : list (Cbor * Cbor)) : option (list (Cbor * Cbor)) :=
  match map with
  | [] => None
  | (k, v) :: map => if is_text "pcrs" k then as_map v else find_pcrs map
  end.
(** The last byte string with this index; [try_into::<u64>] refuses a negative one. *)
Definition pcr_value (pcrs : list (Cbor * Cbor)) (idx : Z) : option bytes :=
  last (omap (λ kv, match kv with
                    | (CInteger i, CBytes b) => if bool_decide (i = idx) then Some b else None
                    | _ => None
                    end) pcrs).
Definition extract_pcr_values (payload : Cbor) : AttestResult (bytes * bytes * bytes) :=
  map ← ok_or_else (as_map payload) (HardwareUnavailable "payload not a map");
  pcrs ← ok_or_else (find_pcrs map) (HardwareUnavailable "no pcrs in payload");
  pcr0 ← ok_or_else (pcr_value pcrs 0) (HardwareUnavailable "missing PCR0");
  pcr1 ← ok_or_else (pcr_value pcrs 1) (HardwareUnavailable "missing PCR1");
  pcr2 ← ok_or_else (pcr_value pcrs 2) (HardwareUnavailable "missing PCR2");
  Ok (pcr0, pcr1, pcr2).

Definition nsm_attestation_request (user_data : bytes) : Cbor :=
  CMap [(CText "Attestation",
         CMap [(CText "user_data", CBytes user_data); (CText "nonce", CNull); (CText "public_key", CNull)])].

Definition nitro_get_attestation (user_data : bytes) : AttestResult (bytes * bytes * bytes * bytes) :=
  request_bytes ← unavailable "CBOR encode: " (cbor_encode (nsm_attestation_request user_data)) "";
  resp_bytes ← unavailable "" (nsm_request request_bytes) "";
  resp ← unavailable "CBOR decode response: " (cbor_decode resp_bytes) "";
  document_bytes ← extract_cbor_attestation_document resp;
  cose ← unavailable "CBOR decode COSE: " (cbor_decode document_bytes) "";
  payload_bytes ← extract_cose_payload cose;
  payload ← unavailable "CBOR decode payload: " (cbor_decode payload_bytes) "";
  '(pcr0, pcr1, pcr2) ← extract_pcr_values payload;
  Ok (document_bytes, v_sha256 pcr0, v_sha256 pcr1, v_sha256 pcr2).

Definition SNP_REPORT_SIZE : nat := 1184.

(** [sev_get_attestation]: report, hashed measurement, host data *)
Definition sev_get_attestation (user_data : bytes) : AttestResult (bytes * bytes * bytes) :=
  '(data, exitinfo2) ← unavailable "" (sev_request (user_data ++ replicate 32 0)) "";
  let fw_error := N.land exitinfo2 0xFFFFFFFF in
  if negb (bool_decide (fw_error = 0)) then
    Err (HardwareUnavailable ("SEV firmware error: 0x" +:+ hex8 fw_error))
  else
    let report_bytes := take SNP_REPORT_SIZE data in
    let measurement_raw := take 48 (drop 144 report_bytes) in
    let host_data := take 32 (drop 192 report_bytes) in
    Ok (report_bytes, v_sha256 measurement_raw, host_data).

(** The body of [generate_platform_key] behind a feature; [device] returns the evidence. *)
Definition device_platform_key (label : string) (device : bytes → AttestResult bytes)
    (draws : list (outcome string bytes)) (platform_id : N) : M AttestationError ProviderSlot PlatformKeyBundle :=
  p ← get;
  vendor_attester ← ok_or p.(ps_vendor_attester)
    (HardwareUnavailable (label +:+ " provider requires a VendorAttester for key generation"));
  '(private_key, pk_x, pk_y) ← lift (generate_p256_platform_key draws);
  _ ← modify (set_slot_key private_key);
  hw_evidence ← lift (device (v_sha256 (pk_x ++ pk_y)));
  vendor_attestation ← lift (attest_platform_key vendor_attester pk_x pk_y platform_id hw_evidence);
  mret {| pb_public_key_x := pk_x; pb_public_key_y := pk_y; pb_vendor_attestation := vendor_attestation |}.

Definition slot_sign (label : string) (p : ProviderSlot) (report_body : bytes) : AttestResult (bytes * bytes) :=
  key_bytes ← ok_or_else p.(ps_platform_key)
    (SigningFailed (label +:+ " platform key not yet generated; call generate_platform_key() first"));
  p256_sign_report_body key_bytes report_body.

Definition sgx_generate_report (report_data : bytes) : AttestResult HardwareReport :=
  if feature_sgx then
    '(quote_bytes, mrenclave, mrsigner) ← sgx_get_attestation report_data;
    Ok {| hr_report_hash := v_sha256 quote_bytes; hr_enclave_measurement := mrenclave;
          hr_signer_measurement := mrsigner; hr_application_measurement := None |}
  else Err (PlatformNotAvailable IntelSGX).
Definition sgx_platform_key (draws : list (outcome string bytes)) (platform_id : N)
  : M AttestationError ProviderSlot PlatformKeyBundle :=
  if feature_sgx then
    device_platform_key "SGX" (λ d, '(quote, _, _) ← sgx_get_attestation d; Ok quote) draws platform_id
  else fail (PlatformNotAvailable IntelSGX).

Definition nitro_generate_report (report_data : bytes) : AttestResult HardwareReport :=
  if feature_nitro then
    '(document_bytes, pcr0_hash, pcr1_hash, pcr2_hash) ← nitro_get_attestation report_data;
    Ok {| hr_report_hash := v_sha256 document_bytes; hr_enclave_measurement := pcr0_hash;
          hr_signer_measurement := pcr1_hash; hr_application_measurement := Some pcr2_hash |}
  else Err (PlatformNotAvailable AWSNitro).
Definition nitro_platform_key (draws : list (outcome string bytes)) (platform_id : N)
  : M AttestationError ProviderSlot PlatformKeyBundle :=
  if feature_nitro then
    device_platform_key "Nitro" (λ d, '(document, _, _, _) ← nitro_get_attestation d; Ok document) draws platform_id
  else fail (PlatformNotAvailable AWSNitro).

Definition sev_generate_report (report_data : bytes) : AttestResult HardwareReport :=
  if feature_sev then
    '(report_bytes, measurement_hash, host_data) ← sev_get_attestation report_data;
    Ok {| hr_report_hash := v_sha256 report_bytes; hr_enclave_measurement := measurement_hash;
          hr_signer_measurement := host_data; hr_application_measurement := None |}
  else Err (PlatformNotAvailable AMDSEV).
Definition sev_platform_key (draws : list (outcome string bytes)) (platform_id : N)
  : M AttestationError ProviderSlot PlatformKeyBundle :=
  if feature_sev then
    device_platform_key "SEV" (λ d, '(report, _, _) ← sev_get_attestation d; Ok report) draws platform_id
  else fail (PlatformNotAvailable AMDSEV).

(** [Box<dyn HardwareAttestationProvider>] *)
Inductive BoxedProvider :=
  | BoxMock (p : MockHardwareProvider)
  | BoxSgx (p : ProviderSlot)
  | BoxNitro (p : ProviderSlot)
  | BoxSev (p : ProviderSlot).

Definition boxed_platform_key (draws : list (outcome string bytes)) (platform_id : N)
  : M AttestationError BoxedProvider PlatformKeyBundle := λ b,
  match b with
  | BoxMock p => let '(r, p) := mock_generate_platform_key draws platform_id p in (r, BoxMock p)
  | BoxSgx p => let '(r, p) := sgx_platform_key draws platform_id p in (r, BoxSgx p)
  | BoxNitro p => let '(r, p) := nitro_platform_key draws platform_id p in (r, BoxNitro p)
  | BoxSev p => let '(r, p) := sev_platform_key draws platform_id p in (r, BoxSev p)
  end.

#[export] Instance boxed_provider : HardwareAttestationProvider BoxedProvider := {|
  generate_report := λ b d,
    match b with
    | BoxMock p => mock_generate_report p d
    | BoxSgx _ => sgx_generate_report d
    | BoxNitro _ => nitro_generate_report d
    | BoxSev _ => sev_generate_report d
    end;
  generate_platform_key := boxed_platform_key;
  sign_with_platform_key := λ b body,
    match b with
    | BoxMock p => mock_sign p body
    | BoxSgx p => slot_sign "SGX" p body
    | BoxNitro p => slot_sign "Nitro" p body
    | BoxSev p => slot_sign "SEV" p body
    end;
  platform := λ b,
    match b with BoxMock _ => MockPlatform | BoxSgx _ => IntelSGX | BoxNitro _ => AWSNitro | BoxSev _ => AMDSEV end |}.
End devices.

(** ** Digest, signature and verification *)
Section digest.
Context `{VaultLib, VaultCrypto}.

(** [hex::decode(..).unwrap_or_default()] *)
Definition hex_or_empty (s : string) : bytes := default [] (v_hex_decode s).

Definition digest_preimage (platform timestamp : N) (nonce_hex enclave_hash_hex signer_hash_hex payload_hash_hex : string)
  : bytes :=
  string_bytes "CruzibleTEEAttestation" ++ [platform] ++ to_be_bytes 8 timestamp ++ hex_or_empty nonce_hex
  ++ hex_or_empty enclave_hash_hex ++ hex_or_empty signer_hash_hex ++ hex_or_empty payload_hash_hex.
Definition compute_attestation_digest (platform timestamp : N)
    (nonce_hex enclave_hash_hex signer_hash_hex payload_hash_hex : string) : bytes :=
  v_sha256 (digest_preimage platform timestamp nonce_hex enclave_hash_hex signer_hash_hex payload_hash_hex).

(** [recid.to_byte() + 27]: a recovery id is below four. *)
Definition sign_digest (signing_key_bytes digest : bytes) : AttestResult bytes :=
  match k256_key_error signing_key_bytes with
  | Some e => Err (SigningFailed ("invalid signing key: " +:+ e))
  | None =>
      '(r, s, recid) ← map_err (λ e, SigningFailed ("ECDSA sign failed: " +:+ e)) (k256_sign signing_key_bytes digest);
      Ok (r ++ s ++ [recid + 27])
  end.

Definition sha256_hex (data : bytes) : string := hex_encode (v_sha256 data).

Definition verify_attestation `{Build} (now : N) (attestation : AttestationDocument)
    (expected_enclave_hash : string) (max_age_secs : N) : outcome string string :=
  if negb (bool_decide (attestation.(ad_enclave_hash) = expected_enclave_hash)) then
    Err ("Enclave hash mismatch: expected " +:+ expected_enclave_hash +:+ ", got " +:+ attestation.(ad_enclave_hash))
  else
    deadline ← u_add U64_MAX attestation.(ad_timestamp) max_age_secs;
    if bool_decide (deadline < now) then
      age ← u_sub U64_MAX now attestation.(ad_timestamp);
      Err ("Attestation expired: age " +:+ pretty age +:+ "s > max " +:+ pretty max_age_secs +:+ "s")
    else if bool_decide (attestation.(ad_nonce) = EmptyString) then Err "Empty nonce"
    else
      sig_bytes ← ok_or_else (v_hex_decode attestation.(ad_signature)) "invalid signature hex";
      if negb (bool_decide (length sig_bytes = 65%nat)) then
        Err ("invalid signature length: " +:+ pretty (N.of_nat (length sig_bytes))
             +:+ " (expected 65 bytes / 130 hex chars)")
      else
        let digest := compute_attestation_digest attestation.(ad_platform) attestation.(ad_timestamp)
          attestation.(ad_nonce) attestation.(ad_enclave_hash) attestation.(ad_signer_hash)
          attestation.(ad_payload_hash) in
        match k256_signature_error (take 64 sig_bytes) with
        | Some e => Err ("invalid R||S: " +:+ e)
        | None =>
            let v := default 0 (sig_bytes !! 64%nat) in
            let id := if bool_decide (27 <= v) then v - 27 else v in
            match k256_recovery_error id with
            | Some e => Err ("invalid recovery id (V=" +:+ pretty v +:+ "): " +:+ e)
            | None =>
                recovered ← map_err (λ e, "signature recovery failed: " +:+ e)
                              (k256_recover digest (take 64 sig_bytes) id);
                Ok (hex_encode recovered)
            end
        end.
End digest.

(** ** [AttestationGenerator] *)
Record AttestationGenerator (P : Type) := {
  ag_config : TEEConfig;
  ag_nonce_counter : N;
  ag_hw_provider : P;
  ag_platform_key_attestation : KeyAttestation;
}.
Arguments ag_config {P} _. Arguments ag_nonce_counter {P} _.
Arguments ag_hw_provider {P} _. Arguments ag_platform_key_attestation {P} _.

Section generator.
Context `{VaultLib, VaultCrypto} {P : Type} `{HardwareAttestationProvider P}.

(** The gate of [init] and of [generate] *)
Definition platform_gate (config : TEEConfig) (provider : P) : AttestResult unit :=
  match config.(tc_platform) with
  | MockPlatform => if config.(tc_allow_simulated) then Ok tt else Err MockDisabled
  | real_platform =>
      if negb (bool_decide (platform provider = real_platform)) && negb config.(tc_allow_simulated)
      then Err (SimulatedHardwareNotAllowed real_platform) else Ok tt
  end.

Definition generator_init (draws : list (outcome string bytes)) (config : TEEConfig) (hw_provider : P)
  : AttestResult (AttestationGenerator P) :=
  let platform_id := TEEPlatform_u8 config.(tc_platform) in
  _ ← platform_gate config hw_provider;
  let '(res, hw_provider) := generate_platform_key draws platform_id hw_provider in
  key_bundle ← res;
  Ok {| ag_config := config; ag_nonce_counter := 0; ag_hw_provider := hw_provider;
        ag_platform_key_attestation := {|
          ka_platform_key_x := key_bundle.(pb_public_key_x); ka_platform_key_y := key_bundle.(pb_public_key_y);
          ka_platform_id := platform_id;
          ka_vendor_sig_r := key_bundle.(pb_vendor_attestation).(vk_sig_r);
          ka_vendor_sig_s := key_bundle.(pb_vendor_attestation).(vk_sig_s) |} |}.

Definition operator_pubkey_hex (g : AttestationGenerator P) : AttestResult string :=
  match k256_key_error g.(ag_config).(tc_signing_key) with
  | Some e => Err (SigningFailed ("invalid signing key: " +:+ e))
  | None => Ok (hex_encode (k256_public g.(ag_config).(tc_signing_key)))
  end.
Definition platform_pubkey (g : AttestationGenerator P) : bytes * bytes :=
  (g.(ag_platform_key_attestation).(ka_platform_key_x), g.(ag_platform_key_attestation).(ka_platform_key_y)).

Definition generate_nonce (g : AttestationGenerator P) (counter timestamp : N) : string :=
  hex_encode (v_sha256 (to_be_bytes 8 counter ++ to_be_bytes 8 timestamp ++ g.(ag_config).(tc_enclave_hash))).

Definition compute_binding_hash (raw_report_hash enclave_measurement signer_measurement : bytes) : bytes :=
  v_sha256 (raw_report_hash ++ enclave_measurement ++ signer_measurement).
Definition report_binding (r : HardwareReport) : bytes :=
  compute_binding_hash r.(hr_report_hash) r.(hr_enclave_measurement) r.(hr_signer_measurement).

(** A one in the last byte of a word *)
Definition word_one : bytes := replicate 31 0 ++ [1].

(** The report body an authority key signs, per platform *)
Definition sgx_report_body (digest : bytes) (r : HardwareReport) : bytes :=
  r.(hr_enclave_measurement) ++ r.(hr_signer_measurement) ++ digest ++ to_be_bytes 2 1 ++ to_be_bytes 2 1
  ++ report_binding r.
Definition generate_sgx_evidence (g : AttestationGenerator P) (digest : bytes) (r : HardwareReport) : AttestResult bytes :=
  let evidence := r.(hr_enclave_measurement) ++ r.(hr_signer_measurement) ++ digest ++ word_one ++ word_one
                  ++ r.(hr_report_hash) in
  '(r_bytes, s_bytes) ← sign_with_platform_key g.(ag_hw_provider) (sgx_report_body digest r);
  Ok (evidence ++ r_bytes ++ s_bytes).

Definition pcr2 (r : HardwareReport) : bytes := default (replicate 32 0) r.(hr_application_measurement).
Definition nitro_report_body (digest : bytes) (r : HardwareReport) : bytes :=
  r.(hr_enclave_measurement) ++ r.(hr_signer_measurement) ++ pcr2 r ++ digest ++ report_binding r.
Definition generate_nitro_evidence (g : AttestationGenerator P) (digest : bytes) (r : HardwareReport) : AttestResult bytes :=
  let evidence := r.(hr_enclave_measurement) ++ r.(hr_signer_measurement) ++ pcr2 r ++ digest ++ r.(hr_report_hash) in
  '(r_bytes, s_bytes) ← sign_with_platform_key g.(ag_hw_provider) (nitro_report_body digest r);
  Ok (evidence ++ r_bytes ++ s_bytes).

Definition sev_report_body (digest : bytes) (r : HardwareReport) : bytes :=
  r.(hr_enclave_measurement) ++ r.(hr_signer_measurement) ++ digest ++ [0] ++ report_binding r.
Definition generate_sev_evidence (g : AttestationGenerator P) (digest : bytes) (r : HardwareReport) : AttestResult bytes :=
  let evidence := r.(hr_enclave_measurement) ++ r.(hr_signer_measurement) ++ digest ++ replicate 32 0
                  ++ r.(hr_report_hash) in
  '(r_bytes, s_bytes) ← sign_with_platform_key g.(ag_hw_provider) (sev_report_body digest r);
  Ok (evidence ++ r_bytes ++ s_bytes).

Definition generate_evidence (g : AttestationGenerator P) (digest : bytes) (r : HardwareReport) : AttestResult bytes :=
  match g.(ag_config).(tc_platform) with
  | IntelSGX | MockPlatform => generate_sgx_evidence g digest r
  | AWSNitro => generate_nitro_evidence g digest r
  | AMDSEV => generate_sev_evidence g digest r
  end.

Definition measurement_check (config : TEEConfig) (r : HardwareReport) : AttestResult unit :=
  if negb (bool_decide (r.(hr_enclave_measurement) = config.(tc_enclave_hash))) then
    Err (MeasurementMismatch "enclave_hash" config.(tc_enclave_hash) r.(hr_enclave_measurement))
  else if negb (bool_decide (r.(hr_signer_measurement) = config.(tc_signer_hash))) then
    Err (MeasurementMismatch "signer_hash" config.(tc_signer_hash) r.(hr_signer_measurement))
  else Ok tt.

(** [nonce_counter.fetch_add(1)] wraps around. *)
Definition bump_nonce (g : AttestationGenerator P) : AttestationGenerator P :=
  {| ag_config := g.(ag_config); ag_nonce_counter := (g.(ag_nonce_counter) + 1) mod 2 ^ 64;
     ag_hw_provider := g.(ag_hw_provider); ag_platform_key_attestation := g.(ag_platform_key_attestation) |}.

(** The document for the counter value drawn *)
Definition document (g : AttestationGenerator P) (timestamp nonce_val : N) (payload : bytes)
  : AttestResult AttestationDocument :=
  let config := g.(ag_config) in
  let nonce := generate_nonce g nonce_val timestamp in
  let payload_hash := sha256_hex payload in
  let platform_u8 := TEEPlatform_u8 config.(tc_platform) in
  let enclave_hash_hex := hex_encode config.(tc_enclave_hash) in
  let signer_hash_hex := hex_encode config.(tc_signer_hash) in
  _ ← platform_gate config g.(ag_hw_provider);
  let digest := compute_attestation_digest platform_u8 timestamp nonce enclave_hash_hex signer_hash_hex payload_hash in
  hw_report ← generate_report g.(ag_hw_provider) digest;
  _ ← measurement_check config hw_report;
  sig_bytes ← sign_digest config.(tc_signing_key) digest;
  evidence ← generate_evidence g digest hw_report;
  Ok {| ad_platform := platform_u8; ad_timestamp := timestamp; ad_nonce := nonce;
        ad_enclave_hash := enclave_hash_hex; ad_signer_hash := signer_hash_hex; ad_payload_hash := payload_hash;
        ad_platform_evidence := hex_encode evidence; ad_signature := hex_encode sig_bytes |}.

Definition generate (now : N) (payload : bytes) : M AttestationError (AttestationGenerator P) AttestationDocument :=
  g ← get;
  _ ← modify bump_nonce;
  lift (document g now g.(ag_nonce_counter) payload).
End generator.

(** ** Constructors *)
Section constructors.
Context `{VaultLib, VaultCrypto, TeeHardware, VaultFeatures}.

Definition AttestationGenerator_new (draws : list (outcome string bytes)) (config : TEEConfig) (vendor_root_key : bytes)
  : AttestResult (AttestationGenerator BoxedProvider) :=
  if negb (bool_decide (config.(tc_platform) = MockPlatform)) && bool_decide (vendor_root_key = replicate 32 0) then
    Err (HardwareUnavailable ("real TEE platform '" +:+ TEEPlatform_to_string config.(tc_platform)
         +:+ "' requires vendor attestation. Either:" +:+ newline
         +:+ "  • Set vendor_attestation_key_hex in server config (development/testing only), or" +:+ newline
         +:+ "  • Set attestation_relay_url to use a remote attestation relay (production)" +:+ newline
         +:+ "The vendor key must never be [0; 32]."))
  else
    let hw_provider :=
      match config.(tc_platform) with
      | MockPlatform =>
          let mock := MockHardwareProvider_new config.(tc_enclave_hash) config.(tc_signer_hash) vendor_root_key in
          BoxMock (match config.(tc_application_hash) with Some h => with_application_hash h mock | None => mock end)
      | IntelSGX => BoxSgx (create feature_sgx vendor_root_key)
      | AWSNitro => BoxNitro (create feature_nitro vendor_root_key)
      | AMDSEV => BoxSev (create feature_sev vendor_root_key)
      end in
    generator_init draws config hw_provider.

Definition with_vendor_attester (draws : list (outcome string bytes)) (config : TEEConfig) (vendor_attester : VendorAttester)
  : AttestResult (AttestationGenerator BoxedProvider) :=
  match config.(tc_platform) with
  | MockPlatform => Err (HardwareUnavailable
      "use new() for Mock platform; with_vendor_attester() is for real TEE platforms")
  | IntelSGX => generator_init draws config (BoxSgx (with_attester vendor_attester))
  | AWSNitro => generator_init draws config (BoxNitro (with_attester vendor_attester))
  | AMDSEV => generator_init draws config (BoxSev (with_attester vendor_attester))
  end.
End constructors.
