(* ===== verification/VaultAttestSpec.v ===== *)
(** * What an attestation document proves

    A document the generator returns verifies under its operator key; the signed digest binds
    platform, time, nonce, measurements and payload; nonces do not repeat; a document for a real
    platform needs a provider of that platform and matching measurements.  Also what the
    verification does not bind. *)
From S2P Require Import Prelude SysTypes Precompile ConsensusTypes Samples HybridSpec VaultReward VaultRewardSpec VaultAttest.
From stdpp Require Import base list strings.
From Stdlib Require Import ZArith Lia.
#[local] Open Scope N_scope.

(** ** Bytes *)
Lemma length_to_be_bytes n z : length (to_be_bytes n z) = n.
Proof. unfold to_be_bytes. by rewrite length_reverse, length_to_le_bytes. Qed.

Lemma to_be_bytes_inj n z z' :
  z < 256 ^ N.of_nat n → z' < 256 ^ N.of_nat n → to_be_bytes n z = to_be_bytes n z' → z = z'.
Proof. intros Hz Hz' Heq%(inj reverse). by apply to_le_bytes_inj in Heq. Qed.

Lemma hex_encode_nonempty `{VaultLib, !VaultLaws} bs : octets bs → bs ≠ [] → hex_encode bs ≠ EmptyString.
Proof.
  intros Ho Hne Heq. apply Hne. pose proof (v_hex_inverse bs Ho) as Hd. rewrite Heq in Hd.
  pose proof (v_hex_inverse [] (Forall_nil_2 _)) as Hn. cbn in Hn. congruence.
Qed.

Lemma hex_encode_inj `{VaultLib, !VaultLaws} bs bs' :
  octets bs → octets bs' → hex_encode bs = hex_encode bs' → bs = bs'.
Proof. intros Ho Ho' Heq. apply v_hex_inverse in Ho, Ho'. rewrite Heq in Ho. congruence. Qed.

(** These two inputs are different and have one digest.  Collisions exist; what a
    claim of binding offers is a pair of them among the inputs that were hashed. *)
Definition sha256_clash `{VaultLib} (x y : bytes) : Prop := x ≠ y ∧ v_sha256 x = v_sha256 y.

Lemma sha256_binds `{VaultLib} x y : v_sha256 x = v_sha256 y → x = y ∨ sha256_clash x y.
Proof. intros Heq. destruct (decide (x = y)); [by left|by right]. Qed.

(** ** Generated documents *)
Section documents.
Context `{VaultLib, !VaultLaws, VaultCrypto, !VaultCryptoLaws} {P : Type} `{HardwareAttestationProvider P}.

Record config_wf (c : TEEConfig) : Prop := {
  cw_enclave : length c.(tc_enclave_hash) = 32%nat;
  cw_signer : length c.(tc_signer_hash) = 32%nat;
  cw_enclave_bytes : octets c.(tc_enclave_hash);
  cw_signer_bytes : octets c.(tc_signer_hash);
}.

Lemma generate_inv now payload (g g' : AttestationGenerator P) doc :
  generate now payload g = (Ok doc, g') →
  g' = bump_nonce g ∧ document g now g.(ag_nonce_counter) payload = Ok doc.
Proof. unfold generate. intros Hg. ok_inv Hg. by simplify_eq. Qed.

(** The digest a document carries a signature of, and what is hashed for it. *)
Definition doc_digest (d : AttestationDocument) : bytes :=
  compute_attestation_digest d.(ad_platform) d.(ad_timestamp) d.(ad_nonce) d.(ad_enclave_hash)
    d.(ad_signer_hash) d.(ad_payload_hash).
Definition doc_preimage (d : AttestationDocument) : bytes :=
  digest_preimage d.(ad_platform) d.(ad_timestamp) d.(ad_nonce) d.(ad_enclave_hash)
    d.(ad_signer_hash) d.(ad_payload_hash).

(** The steps behind a document. *)
Record made (g : AttestationGenerator P) (now counter : N) (payload : bytes) (d : AttestationDocument)
    (r : HardwareReport) (sig : bytes) : Prop := {
  md_platform : d.(ad_platform) = TEEPlatform_u8 g.(ag_config).(tc_platform);
  md_timestamp : d.(ad_timestamp) = now;
  md_nonce : d.(ad_nonce) = generate_nonce g counter now;
  md_enclave : d.(ad_enclave_hash) = hex_encode g.(ag_config).(tc_enclave_hash);
  md_signer : d.(ad_signer_hash) = hex_encode g.(ag_config).(tc_signer_hash);
  md_payload : d.(ad_payload_hash) = sha256_hex payload;
  md_gate : platform_gate g.(ag_config) g.(ag_hw_provider) = Ok tt;
  md_report : generate_report g.(ag_hw_provider) (doc_digest d) = Ok r;
  md_measured : measurement_check g.(ag_config) r = Ok tt;
  md_sig : sign_digest g.(ag_config).(tc_signing_key) (doc_digest d) = Ok sig;
  md_signature : d.(ad_signature) = hex_encode sig;
  md_evidence : ∃ e, generate_evidence g (doc_digest d) r = Ok e ∧ d.(ad_platform_evidence) = hex_encode e;
}.

Lemma document_made g now counter payload d :
  document g now counter payload = Ok d → ∃ r sig, made g now counter payload d r sig.
Proof.
  unfold document. intros Hd.
  apply obind_ok in Hd as ([] & Hgate & Hd). apply obind_ok in Hd as (r & Hr & Hd).
  apply obind_ok in Hd as ([] & Hm & Hd). apply obind_ok in Hd as (sig & Hs & Hd).
  apply obind_ok in Hd as (e & He & [= <-]). exists r, sig. by split; [..|exists e].
Qed.

Lemma nonce_octets (g : AttestationGenerator P) counter now :
  v_hex_decode (generate_nonce g counter now)
  = Some (v_sha256 (to_be_bytes 8 counter ++ to_be_bytes 8 now ++ g.(ag_config).(tc_enclave_hash))).
Proof. apply v_hex_inverse, v_sha256_octets. Qed.

Lemma signature_bytes key digest sig :
  sign_digest key digest = Ok sig →
  ∃ r s v, k256_key_error key = None ∧ k256_sign key digest = Ok (r, s, v) ∧ sig = (r ++ s) ++ [v + 27]
    ∧ length (r ++ s) = 64%nat ∧ octets sig ∧ v < 4.
Proof.
  unfold sign_digest. destruct (k256_key_error key) eqn:Hk; [done|]. intros Hs.
  apply obind_ok in Hs as ([[r s] v] & Hsign & [= <-]). exists r, s, v.
  unfold map_err in Hsign. destruct (k256_sign key digest) as [x|e| |] eqn:He; try done. injection Hsign as ->.
  destruct (k256_sign_sizes _ _ _ _ _ He) as (Hr & Hs & Hv). pose proof (k256_sign_bytes _ _ _ _ _ He) as Ho.
  rewrite app_assoc, length_app, Hr, Hs. split_and!; try done.
  apply Forall_app. split; [done|]. apply Forall_singleton. lia.
Qed.

(** C25: a document the generator returns verifies, as long as it is not older than allowed,
    against the configured measurement, and the key recovered from its signature is the operator
    key the generator reports for registration. *)
Theorem attestation_verifies `{Build} now payload (g g' : AttestationGenerator P) doc later max_age :
  generate now payload g = (Ok doc, g') →
  now + max_age <= U64_MAX → later <= now + max_age →
  ∃ key, operator_pubkey_hex g = Ok key
    ∧ verify_attestation later doc (hex_encode g.(ag_config).(tc_enclave_hash)) max_age = Ok key.
Proof.
  intros [_ Hd]%generate_inv Hmax Hlater. apply document_made in Hd as (r & sig & Hd).
  destruct (signature_bytes _ _ _ (md_sig _ _ _ _ _ _ _ Hd)) as (sr & ss & v & Hk & Hsign & -> & Hlen & Ho & Hv).
  destruct (k256_recovers _ _ _ _ _ Hk Hsign) as (He1 & He2 & Hrec).
  exists (hex_encode (k256_public g.(ag_config).(tc_signing_key))). unfold operator_pubkey_hex. rewrite Hk. split; [done|].
  unfold verify_attestation. rewrite (md_enclave _ _ _ _ _ _ _ Hd), bool_decide_true, (md_timestamp _ _ _ _ _ _ _ Hd) by done.
  cbn [negb]. rewrite u_add_ok, obind_ret, bool_decide_false by lia.
  rewrite bool_decide_false; cycle 1.
  { rewrite (md_nonce _ _ _ _ _ _ _ Hd). apply hex_encode_nonempty; [apply v_sha256_octets|].
    intros Hz. pose proof (v_sha256_32 (to_be_bytes 8 (ag_nonce_counter g) ++ to_be_bytes 8 now
      ++ tc_enclave_hash (ag_config g))) as Hl. rewrite Hz in Hl. done. }
  rewrite (md_signature _ _ _ _ _ _ _ Hd), v_hex_inverse by done. cbn [ok_or_else]. rewrite obind_ret.
  rewrite bool_decide_true by (rewrite length_app, Hlen; done). cbn [negb].
  rewrite <- (md_enclave _ _ _ _ _ _ _ Hd), <- (md_timestamp _ _ _ _ _ _ _ Hd).
  fold (doc_digest doc). rewrite take_app_length' by done. rewrite He1.
  assert (((sr ++ ss) ++ [v + 27]) !! 64%nat = Some (v + 27)) as ->
    by (rewrite lookup_app_r, Hlen by (by rewrite Hlen); done).
  cbv beta zeta iota delta [default id]. rewrite bool_decide_true by lia. replace (v + 27 - 27) with v by lia. rewrite He2, Hrec. done.
Qed.
(** ** Binding *)
Lemma TEEPlatform_u8_inj p q : TEEPlatform_u8 p = TEEPlatform_u8 q → p = q.
Proof. by destruct p, q. Qed.

Lemma made_preimage g now counter payload d r sig :
  config_wf g.(ag_config) → made g now counter payload d r sig →
  doc_preimage d
  = string_bytes "CruzibleTEEAttestation" ++ [TEEPlatform_u8 g.(ag_config).(tc_platform)] ++ to_be_bytes 8 now
    ++ v_sha256 (to_be_bytes 8 counter ++ to_be_bytes 8 now ++ g.(ag_config).(tc_enclave_hash))
    ++ g.(ag_config).(tc_enclave_hash) ++ g.(ag_config).(tc_signer_hash) ++ v_sha256 payload.
Proof.
  intros [_ _ He Hs] Hd. unfold doc_preimage, digest_preimage, hex_or_empty.
  rewrite (md_platform _ _ _ _ _ _ _ Hd), (md_timestamp _ _ _ _ _ _ _ Hd), (md_nonce _ _ _ _ _ _ _ Hd),
    (md_enclave _ _ _ _ _ _ _ Hd), (md_signer _ _ _ _ _ _ _ Hd), (md_payload _ _ _ _ _ _ _ Hd).
  unfold sha256_hex. rewrite nonce_octets, !v_hex_inverse by (done || apply v_sha256_octets). done.
Qed.

(** C26: the signed digest determines the document: two documents (of generators with 32-byte
    measurements) with one digest name the same platform, time, nonce, measurements and payload,
    unless SHA-256 takes the two strings hashed for the digests, or the two payloads, to one value
    although they differ. *)
Theorem attestation_binds (g1 g2 g1' g2' : AttestationGenerator P) now1 now2 payload1 payload2 d1 d2 :
  config_wf g1.(ag_config) → config_wf g2.(ag_config) → now1 <= U64_MAX → now2 <= U64_MAX →
  generate now1 payload1 g1 = (Ok d1, g1') → generate now2 payload2 g2 = (Ok d2, g2') →
  doc_digest d1 = doc_digest d2 →
  (g1.(ag_config).(tc_platform) = g2.(ag_config).(tc_platform) ∧ now1 = now2 ∧ d1.(ad_nonce) = d2.(ad_nonce)
   ∧ g1.(ag_config).(tc_enclave_hash) = g2.(ag_config).(tc_enclave_hash)
   ∧ g1.(ag_config).(tc_signer_hash) = g2.(ag_config).(tc_signer_hash) ∧ payload1 = payload2)
  ∨ sha256_clash (doc_preimage d1) (doc_preimage d2) ∨ sha256_clash payload1 payload2.
Proof.
  intros Hw1 Hw2 Hn1 Hn2 [_ D1]%generate_inv [_ D2]%generate_inv Heq.
  apply document_made in D1 as (r1 & s1 & D1), D2 as (r2 & s2 & D2).
  apply sha256_binds in Heq as [Heq|]; [|by right; left]. fold (doc_preimage d1) (doc_preimage d2) in Heq.
  rewrite (made_preimage _ _ _ _ _ _ _ Hw1 D1), (made_preimage _ _ _ _ _ _ _ Hw2 D2) in Heq.
  destruct Hw1 as [He1 Hs1 _ _], Hw2 as [He2 Hs2 _ _].
  apply app_inv_head in Heq. apply (app_inj_1 [_] [_]) in Heq as [Hp Heq]; [|done]. injection Hp as Hp.
  apply app_inj_1 in Heq as [Ht Heq]; [|by rewrite !length_to_be_bytes].
  apply app_inj_1 in Heq as [Hn Heq]; [|by rewrite !v_sha256_32].
  apply app_inj_1 in Heq as [He Heq]; [|congruence]. apply app_inj_1 in Heq as [Hs Hpay]; [|congruence].
  apply to_be_bytes_inj in Ht; [|cbn; lia..]. apply sha256_binds in Hpay as [Hpay|]; [left|by right; right].
  split_and!; try done; [by apply TEEPlatform_u8_inj|].
  rewrite (md_nonce _ _ _ _ _ _ _ D1), (md_nonce _ _ _ _ _ _ _ D2). unfold generate_nonce. by rewrite Hn.
Qed.

(** ** Platforms and measurements *)
(** C27: a generator never vouches for hardware it does not run on: a document for a real platform
    comes from a provider of that platform unless simulation is switched on, one for the mock
    platform only with simulation switched on; and the report of the provider, made for this very
    digest, shows the configured enclave and signer. *)
Theorem attestation_measured now payload (g g' : AttestationGenerator P) doc :
  generate now payload g = (Ok doc, g') →
  (g.(ag_config).(tc_allow_simulated) = true
   ∨ g.(ag_config).(tc_platform) ≠ MockPlatform ∧ platform g.(ag_hw_provider) = g.(ag_config).(tc_platform))
  ∧ ∃ r, generate_report g.(ag_hw_provider) (doc_digest doc) = Ok r
    ∧ r.(hr_enclave_measurement) = g.(ag_config).(tc_enclave_hash)
    ∧ r.(hr_signer_measurement) = g.(ag_config).(tc_signer_hash).
Proof.
  intros [_ Hd]%generate_inv. apply document_made in Hd as (r & sig & Hd).
  pose proof (md_gate _ _ _ _ _ _ _ Hd) as Hg. pose proof (md_measured _ _ _ _ _ _ _ Hd) as Hm. split.
  - unfold platform_gate in Hg. destruct (tc_allow_simulated _); [by left|right].
    destruct (tc_platform _) eqn:Hp; try done; case_bool_decide; done.
  - exists r. split; [apply Hd|]. unfold measurement_check in Hm. by repeat case_bool_decide.
Qed.

(** ** Nonces *)
(** The documents of a run of calls, those that fail left out. *)
Fixpoint generate_all (calls : list (N * bytes)) (g : AttestationGenerator P)
  : list AttestationDocument * AttestationGenerator P :=
  match calls with
  | [] => ([], g)
  | (now, payload) :: calls =>
      let '(o, g) := generate now payload g in
      let '(docs, g) := generate_all calls g in
      (match o with Ok d => d :: docs | _ => docs end, g)
  end.

Lemma generate_counter now payload (g : AttestationGenerator P) :
  (generate now payload g).2 = bump_nonce g.
Proof. done. Qed.

(** Every document of a run carries the nonce of a counter value from the range of the run. *)
Lemma nonces_in_range calls : ∀ g : AttestationGenerator P,
  g.(ag_nonce_counter) + N.of_nat (length calls) < 2 ^ 64 →
  Forall (λ c, c.1 <= U64_MAX) calls →
  Forall (λ d, ∃ c t, g.(ag_nonce_counter) <= c < 2 ^ 64 ∧ t <= U64_MAX ∧ d.(ad_nonce) = generate_nonce g c t)
    (generate_all calls g).1.
Proof.
  induction calls as [|[now payload] calls IH]; intros g Hc Hn; cbn [generate_all]; [constructor|].
  apply Forall_cons in Hn as [Hnow Hn]. cbn [length] in Hc.
  destruct (generate now payload g) as [o g1] eqn:Hg. pose proof (generate_counter now payload g) as Hg1.
  rewrite Hg in Hg1. cbn in Hg1. subst g1.
  assert ((g.(ag_nonce_counter) + 1) mod 2 ^ 64 = g.(ag_nonce_counter) + 1) as Hmod by (apply N.mod_small; lia).
  specialize (IH (bump_nonce g)). cbn [bump_nonce ag_nonce_counter] in IH. rewrite Hmod in IH.
  specialize (IH ltac:(lia) Hn). destruct (generate_all calls (bump_nonce g)) as [docs g2]. cbn [fst] in *.
  assert (Forall (λ d, ∃ c t, g.(ag_nonce_counter) <= c < 2 ^ 64 ∧ t <= U64_MAX ∧ d.(ad_nonce) = generate_nonce g c t) docs).
  { eapply Forall_impl; [exact IH|]. intros d (c & t & Hr & Ht & ->). exists c, t. split_and!; (done || lia). }
  destruct o as [d|e| |]; try done. constructor; [|done].
  apply generate_inv in Hg as [_ Hd]. apply document_made in Hd as (r & sig & Hd).
  exists g.(ag_nonce_counter), now. split_and!; [lia|lia|done|apply Hd].
Qed.

(** What a nonce is the digest of. *)
Definition nonce_preimage (g : AttestationGenerator P) (counter now : N) : bytes :=
  to_be_bytes 8 counter ++ to_be_bytes 8 now ++ g.(ag_config).(tc_enclave_hash).

Lemma nonce_inj (g : AttestationGenerator P) c c' t t' :
  c < 2 ^ 64 → c' < 2 ^ 64 → generate_nonce g c t = generate_nonce g c' t' →
  c = c' ∨ sha256_clash (nonce_preimage g c t) (nonce_preimage g c' t').
Proof.
  intros Hc Hc' Heq%hex_encode_inj; [|apply v_sha256_octets..]. apply sha256_binds in Heq as [Heq|]; [left|by right].
  apply app_inj_1 in Heq as [Heq _]; [|by rewrite !length_to_be_bytes]. by apply to_be_bytes_inj in Heq.
Qed.

(** Whatever happens between its calls, a generator never uses a nonce twice: the documents
    of a run (of fewer than [2^64] calls in all) have distinct nonces, unless two strings hashed for
    nonces differ and have one digest. *)
Lemma nonces_distinct calls (g : AttestationGenerator P) :
  g.(ag_nonce_counter) + N.of_nat (length calls) < 2 ^ 64 →
  Forall (λ c, c.1 <= U64_MAX) calls →
  NoDup (ad_nonce <$> (generate_all calls g).1)
  ∨ ∃ c t c' t', sha256_clash (nonce_preimage g c t) (nonce_preimage g c' t').
Proof.
  revert g. induction calls as [|[now payload] calls IH]; intros g Hc Hn; [left; constructor|].
  pose proof (nonces_in_range calls (bump_nonce g)) as Hrange. cbn [bump_nonce ag_nonce_counter] in Hrange.
  cbn [length] in Hc.
  assert ((g.(ag_nonce_counter) + 1) mod 2 ^ 64 = g.(ag_nonce_counter) + 1) as Hmod by (apply N.mod_small; lia).
  rewrite Hmod in Hrange. apply Forall_cons in Hn as [Hnow Hn]. specialize (Hrange ltac:(lia) Hn).
  destruct (IH (bump_nonce g)) as [Hnd|]; [cbn; rewrite Hmod; lia|done| |by right].
  cbn [generate_all]. destruct (generate now payload g) as [o g1] eqn:Hg.
  pose proof (generate_counter now payload g) as Hg1. rewrite Hg in Hg1. cbn [snd] in Hg1. subst g1.
  destruct (generate_all calls (bump_nonce g)) as [docs g2]. cbn [fst] in *.
  destruct o as [d|e| |]; try by left. cbn [fmap list_fmap].
  destruct (decide (d.(ad_nonce) ∈ ad_nonce <$> docs)) as [Hin|]; [|left; by constructor]. right.
  apply list_elem_of_fmap in Hin as (d' & Heq & Hin). rewrite Forall_forall in Hrange.
  destruct (Hrange d' Hin) as (c & t & Hr & _ & Hd').
  apply generate_inv in Hg as [_ Hd]. apply document_made in Hd as (r & sig & Hd).
  rewrite Hd', (md_nonce _ _ _ _ _ _ _ Hd) in Heq.
  change (generate_nonce (bump_nonce g) c t) with (generate_nonce g c t) in Heq.
  apply nonce_inj in Heq as [|]; [lia|by do 4 eexists|lia..].
Qed.
End documents.

(** ** Constructors *)
Section constructors.
Context `{VaultLib, VaultCrypto, TeeHardware, features : VaultFeatures}.

(** Is the code for a platform compiled in? *)
Definition compiled_in (p : TEEPlatform) : bool :=
  match p with
  | IntelSGX => feature_sgx
  | AWSNitro => feature_nitro
  | AMDSEV => feature_sev
  | MockPlatform => true
  end.

Definition of_platform (p : TEEPlatform) (slot : ProviderSlot) : option BoxedProvider :=
  match p with
  | IntelSGX => Some (BoxSgx slot)
  | AWSNitro => Some (BoxNitro slot)
  | AMDSEV => Some (BoxSev slot)
  | MockPlatform => None
  end.

Lemma init_needs_feature draws config slot b (g : AttestationGenerator BoxedProvider) :
  of_platform config.(tc_platform) slot = Some b → generator_init draws config b = Ok g →
  compiled_in config.(tc_platform) = true ∧ platform g.(ag_hw_provider) = config.(tc_platform)
  ∧ g.(ag_config) = config.
Proof.
  intros Hb Hg. unfold generator_init in Hg. apply obind_ok in Hg as (_ & _ & Hg).
  destruct (tc_platform config) eqn:Hp; cbn in Hb; simplify_eq; cbn -[device_platform_key] in *;
    unfold sgx_platform_key, nitro_platform_key, sev_platform_key in Hg;
    (destruct (feature_sgx), (feature_nitro), (feature_sev)); try done;
    match type of Hg with context [device_platform_key ?l ?d ?dr ?i ?sl] =>
      destruct (device_platform_key l d dr i sl) as [res sl'] end;
    apply obind_ok in Hg as (kb & _ & [= <-]); done.
Qed.

Lemma vendor_attester_hardware draws config attester (g : AttestationGenerator BoxedProvider) :
  with_vendor_attester draws config attester = Ok g →
  compiled_in config.(tc_platform) = true ∧ platform g.(ag_hw_provider) = config.(tc_platform)
  ∧ g.(ag_config) = config.
Proof.
  unfold with_vendor_attester. intros Hg.
  destruct (tc_platform config) eqn:Hp; [..|done]; rewrite <- Hp;
    (eapply init_needs_feature; [|exact Hg]); by rewrite Hp.
Qed.

Lemma mock_needs_simulation draws config key (g : AttestationGenerator BoxedProvider) :
  config.(tc_platform) = MockPlatform → AttestationGenerator_new draws config key = Ok g →
  config.(tc_allow_simulated) = true.
Proof.
  intros Hp Hg. unfold AttestationGenerator_new in Hg. rewrite Hp in Hg. cbn [negb andb] in Hg.
  rewrite bool_decide_true in Hg by done. cbn [negb andb] in Hg.
  unfold generator_init, platform_gate in Hg. rewrite Hp in Hg. by destruct (tc_allow_simulated config).
Qed.

(** C28: both constructors give a generator for a real platform only when the code that talks to
    its hardware is compiled in, and then its provider is the provider of that platform, even
    with simulation switched on. *)
Theorem real_platform_needs_hardware draws config (g : AttestationGenerator BoxedProvider) :
  config.(tc_platform) ≠ MockPlatform →
  (∃ key, AttestationGenerator_new draws config key = Ok g)
  ∨ (∃ attester, with_vendor_attester draws config attester = Ok g) →
  compiled_in config.(tc_platform) = true ∧ platform g.(ag_hw_provider) = config.(tc_platform)
  ∧ g.(ag_config) = config.
Proof.
  intros Hreal [[key Hg]|[att Hg]]; [|by eapply vendor_attester_hardware].
  unfold AttestationGenerator_new in Hg. destruct (_ && _); [done|].
  destruct (tc_platform config) eqn:Hp; [..|done]; rewrite <- Hp;
    (eapply init_needs_feature; [|exact Hg]); by rewrite Hp.
Qed.
End constructors.

(** ** What is not bound *)
Section unbound.
Context `{Build, VaultLib, !VaultLaws, VaultCrypto}.

Definition with_fields (d : AttestationDocument) (signer payload evidence : string) : AttestationDocument := {|
  ad_platform := d.(ad_platform); ad_timestamp := d.(ad_timestamp); ad_nonce := d.(ad_nonce);
  ad_enclave_hash := d.(ad_enclave_hash); ad_signer_hash := signer; ad_payload_hash := payload;
  ad_platform_evidence := evidence; ad_signature := d.(ad_signature) |}.

(** The verification does not bind a document to its payload.  The fields enter the digest
    without lengths, so moving the front of the payload hash to the end of the signer hash (or
    back) keeps the signature valid, and the platform evidence is not looked at: the changed
    document verifies under the same key. *)
Lemma attestation_split_free now d enclave max_age signer front back evidence key :
  octets signer → octets front → octets back →
  d.(ad_signer_hash) = hex_encode signer → d.(ad_payload_hash) = hex_encode (front ++ back) →
  verify_attestation now d enclave max_age = Ok key →
  verify_attestation now (with_fields d (hex_encode (signer ++ front)) (hex_encode back) evidence) enclave max_age
  = Ok key.
Proof.
  intros Hs Hf Hb Hds Hdp Hv. rewrite <- Hv. unfold verify_attestation. cbn [with_fields ad_platform ad_timestamp
    ad_nonce ad_enclave_hash ad_signer_hash ad_payload_hash ad_signature].
  assert (compute_attestation_digest d.(ad_platform) d.(ad_timestamp) d.(ad_nonce) d.(ad_enclave_hash)
            (hex_encode (signer ++ front)) (hex_encode back)
          = compute_attestation_digest d.(ad_platform) d.(ad_timestamp) d.(ad_nonce) d.(ad_enclave_hash)
            d.(ad_signer_hash) d.(ad_payload_hash)) as ->; [|done].
  rewrite Hds, Hdp. unfold compute_attestation_digest, digest_preimage, hex_or_empty.
  rewrite !v_hex_inverse by (repeat (apply Forall_app; split); done). cbv beta iota delta [default id]. by rewrite <- (app_assoc signer).
Qed.
End unbound.

Section application.
Context `{VaultLib, VaultCrypto} {P : Type} `{HardwareAttestationProvider P}.

Definition set_application_hash (h : option bytes) (g : AttestationGenerator P) : AttestationGenerator P :=
  let c := g.(ag_config) in
  {| ag_config := {| tc_platform := c.(tc_platform); tc_enclave_hash := c.(tc_enclave_hash);
                     tc_signer_hash := c.(tc_signer_hash); tc_application_hash := h;
                     tc_allow_simulated := c.(tc_allow_simulated); tc_signing_key := c.(tc_signing_key) |};
     ag_nonce_counter := g.(ag_nonce_counter); ag_hw_provider := g.(ag_hw_provider);
     ag_platform_key_attestation := g.(ag_platform_key_attestation) |}.

(** The configured application hash (PCR2 of a Nitro enclave) is compared with nothing. *)
Lemma application_hash_unchecked h now payload g :
  (generate now payload (set_application_hash h g)).1 = (generate now payload g).1.
Proof. done. Qed.
End application.

(** ** Samples *)
Definition toy_crypto : VaultCrypto := {|
  k256_key_error := λ _, None;
  k256_public := toy_hash;
  k256_sign := λ key digest, Ok (toy_hash key, toy_hash digest, 0);
  k256_signature_error := λ _, None;
  k256_recovery_error := λ _, None;
  k256_recover := λ _ sig _, Ok (take 32 sig);
  p256_key_error := λ _, None;
  p256_public := λ key, (toy_hash key, toy_hash key);
  p256_sign := λ key hash, Ok (toy_hash key, toy_hash hash);
  hex_error := λ _, "bad";
  cbor_encode := λ _, Ok [];
  cbor_decode := λ _, Ok CNull;
  cbor_debug := λ _, "" |}.

Lemma length_toy_hash bs : length (toy_hash bs) = 32%nat.
Proof. exact (v_sha256_32 (H := toy_vault) bs). Qed.

#[export] Instance toy_crypto_laws : VaultCryptoLaws (H := toy_crypto).
Proof.
  split; cbn; intros; simplify_eq.
  - by rewrite !length_toy_hash.
  - split_and!; [done..|]. by rewrite take_app_length' by (by rewrite length_toy_hash).
  - apply Forall_app; split; apply toy_hash_octets.
Qed.

Definition mock_config : TEEConfig := {|
  tc_platform := MockPlatform; tc_enclave_hash := replicate 32 0xAE; tc_signer_hash := replicate 32 0x51;
  tc_application_hash := None; tc_allow_simulated := true; tc_signing_key := replicate 32 7 |}.

Lemma mock_config_wf : config_wf mock_config.
Proof. by split; cbn; repeat constructor. Qed.

Definition mock_generator : AttestationGenerator MockHardwareProvider := {|
  ag_config := mock_config; ag_nonce_counter := 0;
  ag_hw_provider := {| mp_enclave_hash := replicate 32 0xAE; mp_signer_hash := replicate 32 0x51;
    mp_application_hash := None; mp_vendor_root_key := replicate 32 2; mp_platform_key := Some (replicate 32 9) |};
  ag_platform_key_attestation := {| ka_platform_key_x := []; ka_platform_key_y := []; ka_platform_id := 255;
    ka_vendor_sig_r := []; ka_vendor_sig_s := [] |} |}.

#[local] Existing Instance toy_vault.
#[local] Existing Instance toy_crypto.
#[local] Existing Instance dev_build.

Definition doc_of (o : AttestResult AttestationDocument) : AttestationDocument :=
  match o with Ok d => d | _ => AttestationDocument_default end.
Definition mock_doc : AttestationDocument := Eval vm_compute in doc_of (generate 1000 [1; 2; 3] mock_generator).1.
Lemma mock_doc_made : generate 1000 [1; 2; 3] mock_generator = (Ok mock_doc, bump_nonce mock_generator).
Proof. vm_compute. reflexivity. Qed.

Lemma attestation_verifies_witness : ∃ key, operator_pubkey_hex mock_generator = Ok key
  ∧ verify_attestation 1030 mock_doc (hex_encode (replicate 32 0xAE)) 60 = Ok key.
Proof. apply (attestation_verifies 1000 [1; 2; 3] _ _ _ 1030 60 mock_doc_made); done. Defined.

(** Another generator of the platform, with an operator key of its own: the documents differ in
    their signatures and have one digest. *)
Definition other_generator : AttestationGenerator MockHardwareProvider := {|
  ag_config := {| tc_platform := MockPlatform; tc_enclave_hash := replicate 32 0xAE; tc_signer_hash := replicate 32 0x51;
    tc_application_hash := None; tc_allow_simulated := true; tc_signing_key := replicate 32 8 |};
  ag_nonce_counter := 0; ag_hw_provider := mock_generator.(ag_hw_provider);
  ag_platform_key_attestation := mock_generator.(ag_platform_key_attestation) |}.
Definition other_doc : AttestationDocument := Eval vm_compute in doc_of (generate 1000 [1; 2; 3] other_generator).1.
Lemma other_doc_made : generate 1000 [1; 2; 3] other_generator = (Ok other_doc, bump_nonce other_generator).
Proof. vm_compute. reflexivity. Qed.

Lemma attestation_binds_witness :
  mock_doc.(ad_signature) ≠ other_doc.(ad_signature)
  ∧ mock_config.(tc_enclave_hash) = other_generator.(ag_config).(tc_enclave_hash)
  ∧ mock_doc.(ad_nonce) = other_doc.(ad_nonce).
Proof.
  split; [discriminate|].
  destruct (attestation_binds mock_generator other_generator _ _ 1000 1000 _ _ _ _
      mock_config_wf ltac:(by split; cbn; repeat constructor) ltac:(done) ltac:(done)
      mock_doc_made other_doc_made ltac:(reflexivity))
    as [(_ & _ & Hn & He & _)|[[Hx _]|[Hx _]]]; [split; [exact He|exact Hn]|by destruct Hx..].
Defined.

Lemma attestation_measured_witness :
  (mock_config.(tc_allow_simulated) = true
   ∨ mock_config.(tc_platform) ≠ MockPlatform ∧ platform mock_generator.(ag_hw_provider) = mock_config.(tc_platform))
  ∧ ∃ r, generate_report mock_generator.(ag_hw_provider) (doc_digest mock_doc) = Ok r
    ∧ r.(hr_enclave_measurement) = mock_config.(tc_enclave_hash)
    ∧ r.(hr_signer_measurement) = mock_config.(tc_signer_hash).
Proof. apply (attestation_measured 1000 [1; 2; 3] mock_generator _ mock_doc mock_doc_made). Defined.

Lemma nonces_distinct_witness :
  NoDup (ad_nonce <$> (generate_all [(1000, [1]); (1000, [2]); (1001, [])] mock_generator).1)
  ∨ ∃ c t c' t', sha256_clash (nonce_preimage mock_generator c t) (nonce_preimage mock_generator c' t').
Proof. apply (nonces_distinct [(1000, [1]); (1000, [2]); (1001, [])] mock_generator); [done|by repeat constructor]. Defined.

(** A build with the SGX code and a machine that answers. *)
Definition sgx_build : VaultFeatures := {|
  feature_sgx := true; feature_nitro := false; feature_sev := false;
  feature_remote_attestation := false; feature_mock_tee := false |}.
Definition sgx_machine : TeeHardware := {|
  gramine_write := λ _, Ok tt;
  gramine_report := λ d, Ok (replicate 64 0 ++ replicate 32 0xAE ++ replicate 32 0 ++ replicate 32 0x51 ++ replicate 272 0);
  gramine_quote := λ d, Ok (d ++ replicate 400 1);
  nsm_request := λ _, Err "no device";
  sev_request := λ _, Err "no device";
  hex8 := λ _, "";
  relay_post := λ _ _ _ _ _, RelayUnreachable "down" |}.
#[local] Existing Instance sgx_build.
#[local] Existing Instance sgx_machine.

Definition sgx_config : TEEConfig := {|
  tc_platform := IntelSGX; tc_enclave_hash := replicate 32 0xAE; tc_signer_hash := replicate 32 0x51;
  tc_application_hash := None; tc_allow_simulated := true; tc_signing_key := replicate 32 7 |}.
Definition sgx_generator : AttestResult (AttestationGenerator BoxedProvider) :=
  Eval vm_compute in AttestationGenerator_new [Ok (replicate 32 5)] sgx_config (replicate 32 3).

Lemma real_platform_needs_hardware_witness : ∃ g, sgx_generator = Ok g ∧
  compiled_in IntelSGX = true ∧ platform g.(ag_hw_provider) = IntelSGX ∧ g.(ag_config) = sgx_config.
Proof.
  eexists. split; [reflexivity|].
  apply (real_platform_needs_hardware [Ok (replicate 32 5)] sgx_config); [done|].
  left. exists (replicate 32 3). vm_compute. reflexivity.
Defined.

(** The SGX generator attests and its document verifies. *)
Example sgx_attests :
  (g ← sgx_generator;
   d ← (generate 1000 [1] g).1;
   map_err SigningFailed (verify_attestation 1001 d (hex_encode (replicate 32 0xAE)) 5))
  = Ok (hex_encode (replicate 32 7)).
Proof. vm_compute. reflexivity. Qed.

Lemma attestation_split_free_witness :
  verify_attestation 1030
    (with_fields mock_doc (hex_encode (replicate 32 0x51 ++ [1])) (hex_encode ([2; 3] ++ replicate 29 0)) "")
    (hex_encode (replicate 32 0xAE)) 60 = Ok (hex_encode (replicate 32 7)).
Proof.
  apply (attestation_split_free 1030 mock_doc (hex_encode (replicate 32 0xAE)) 60 (replicate 32 0x51) [1]
           ([2; 3] ++ replicate 29 0)); try (by repeat constructor); vm_compute; reflexivity.
Defined.
