(* ===== verification/VaultServer.v ===== *)
(** * The vault service

    [crates/vault/src/server.rs]: the canonical hashes and payloads, the request handlers with the
    state they update, the token bucket, the bearer check and the policy of [start_server].

    A handler is a state computation on [AppState]; an error is an HTTP status with its body.
    The clock readings and random draws of a request are arguments, as is the JSON encoder.
    Requests run one at a time: the locks and atomics of the state are not interleaved here. *)
From S2P Require Import Prelude SysTypes Sorting F64 Precompile ConsensusTypes Mempool VaultReward VaultSelect VaultAttest.
From stdpp Require Import base gmap list strings pretty.
From Stdlib Require Import ZArith Lia SpecFloat Ascii.
#[local] Open Scope N_scope.

(** ** Canonical hashes *)
(** [f64::to_be_bytes]: the IEEE-754 bit pattern; the one NaN is the quiet one. *)
Definition f64_bits (x : f64) : N :=
  let sign (s : bool) := if s then 2 ^ 63 else 0 in
  match x with
  | S754_zero s => sign s
  | S754_infinity s => sign s + 0x7FF0000000000000
  | S754_nan => 0x7FF8000000000000
  | S754_finite s m e =>
      if bool_decide (Zpos m < 2 ^ 52)%Z then sign s + Npos m
      else sign s + Z.to_N (e + 1075) * 2 ^ 52 + (Npos m - 2 ^ 52)
  end.

(** An unsigned integer in the last bytes of a 32-byte word *)
Definition uint256 (width : nat) (z : N) : bytes := be_pad 32 (to_be_bytes width z).

Section hashes.
Context `{Build, VaultLib}.

Definition compute_validator_inner_hash (v : ScoredValidator) : bytes :=
  let key_bytes := hex_or_empty (trim_0x v.(sv_tee_public_key)) in
  v_sha256 (be_pad 32 (address_bytes v.(sv_address)) ++ uint256 16 v.(sv_stake)
    ++ uint256 4 v.(sv_performance_score) ++ uint256 4 v.(sv_decentralization_score)
    ++ uint256 4 v.(sv_reputation_score) ++ uint256 4 v.(sv_composite_score)
    ++ (take 32 key_bytes ++ replicate (32 - length key_bytes) 0)
    ++ uint256 4 v.(sv_commission_bps)).

Definition compute_validator_set_hash (epoch : N) (validators : list ScoredValidator) : bytes :=
  v_sha256 (string_bytes "CruzibleValidatorSet-v1" ++ to_be_bytes 8 epoch
    ++ to_be_bytes 4 (N.of_nat (length validators))
    ++ (validators ≫= compute_validator_inner_hash)).

Definition compute_selection_policy_hash (config : SelectionConfig) : bytes :=
  v_sha256 (string_bytes "CruzibleSelectionPolicy-v1"
    ++ to_be_bytes 8 (f64_bits config.(sc_performance_weight))
    ++ to_be_bytes 8 (f64_bits config.(sc_decentralization_weight))
    ++ to_be_bytes 8 (f64_bits config.(sc_reputation_weight))
    ++ to_be_bytes 8 (f64_bits config.(sc_min_uptime_pct))
    ++ uint256 4 config.(sc_max_commission_bps) ++ uint256 8 config.(sc_max_per_region)
    ++ uint256 8 config.(sc_max_per_operator) ++ uint256 16 config.(sc_min_stake)).

Definition compute_eligible_universe_hash (addresses : list string) : bytes :=
  v_sha256 (sort_by_text id addresses ≫= λ addr, string_bytes addr ++ [0]).

Definition compute_staker_inner_hash (s : StakerStake) : bytes :=
  v_sha256 (be_pad 32 (address_bytes s.(sk_address)) ++ uint256 16 s.(sk_shares)
    ++ be_pad 32 (address_bytes s.(sk_delegated_to))).

Definition compute_stake_snapshot_hash (epoch : N) (stakers : list StakerStake) : bytes :=
  let sorted := sort_by_text sk_address stakers in
  v_sha256 (string_bytes "CruzibleStakeSnapshot-v1" ++ to_be_bytes 8 epoch
    ++ to_be_bytes 4 (N.of_nat (length sorted)) ++ (sorted ≫= compute_staker_inner_hash)).

(** [str::to_lowercase]: what is not ASCII is not hexadecimal in either case. *)
Definition ascii_lower (c : ascii) : ascii :=
  let n := N_of_ascii c in
  if bool_decide (65 <= n) && bool_decide (n <= 90) then ascii_of_N (n + 32) else c.
Fixpoint to_lowercase (s : string) : string :=
  match s with
  | EmptyString => EmptyString
  | String c s => String (ascii_lower c) (to_lowercase s)
  end.

Definition parse_address_bytes (addr : string) : bytes :=
  match v_hex_decode (trim_0x (to_lowercase addr)) with
  | Some bs => if bool_decide (length bs <= 20)%nat then be_pad 20 bs else replicate 20 0
  | None => replicate 20 0
  end.

Definition xor_bytes (a b : bytes) : bytes := zip_with N.lxor a b.

(** The loops of the two registry roots; [entry] is what a staker contributes. *)
Definition xor_root (entry : StakerStake → bytes) (stakers : list StakerStake) : bytes :=
  foldl (λ acc s, if bool_decide (s.(sk_shares) = 0) then acc else xor_bytes acc (entry s))
    (replicate 32 0) stakers.

Definition registry_entry (s : StakerStake) : bytes :=
  v_keccak256 (parse_address_bytes s.(sk_address) ++ uint256 16 s.(sk_shares)).
Definition delegation_entry (s : StakerStake) : bytes :=
  v_keccak256 (parse_address_bytes s.(sk_address) ++ parse_address_bytes s.(sk_delegated_to)).

(** [debug_assert!] on the uniqueness of the addresses *)
Definition assert_unique {E} (stakers : list StakerStake) : outcome E unit :=
  if overflow_checks && bool_decide (first_duplicate [] (sk_address <$> stakers) ≠ None) then Panic else Ok tt.

Definition compute_staker_registry_root {E} (stakers : list StakerStake) : outcome E bytes :=
  _ ← assert_unique stakers; Ok (xor_root registry_entry stakers).
Definition compute_delegation_registry_root {E} (stakers : list StakerStake) : outcome E bytes :=
  _ ← assert_unique stakers; Ok (xor_root delegation_entry stakers).

Definition validate_unique_staker_addresses (stakers : list StakerStake) : outcome string unit :=
  match first_duplicate [] (sk_address <$> stakers) with
  | Some a => Err ("duplicate staker address: " +:+ a)
  | None => Ok tt
  end.

Definition compute_canonical_reward_payload (epoch total_rewards : N) (merkle_root : bytes) (protocol_fee : N)
    (stake_snapshot_hash validator_set_hash staker_registry_root delegation_registry_root : bytes) : bytes :=
  uint256 8 epoch ++ uint256 16 total_rewards ++ merkle_root ++ uint256 16 protocol_fee
  ++ stake_snapshot_hash ++ validator_set_hash ++ staker_registry_root ++ delegation_registry_root.

Definition compute_canonical_delegation_payload (epoch : N) (delegation_root staker_registry_root : bytes) : bytes :=
  uint256 8 epoch ++ delegation_root ++ staker_registry_root.

Definition parse_merkle_root (hex_str : string) : bytes :=
  be_pad 32 (take 32 (hex_or_empty (trim_0x hex_str))).
End hashes.

(** ** State *)
Record MetricsState := {
  mt_validator_selections : N;
  mt_reward_calculations : N;
  mt_mev_orderings : N;
  mt_delegation_attestations : N;
  mt_total_errors : N;
  mt_auth_failures : N;
  mt_last_attestation_at : N;
}.
Definition MetricsState_new : MetricsState := {|
  mt_validator_selections := 0; mt_reward_calculations := 0; mt_mev_orderings := 0;
  mt_delegation_attestations := 0; mt_total_errors := 0; mt_auth_failures := 0; mt_last_attestation_at := 0 |}.

Record VaultServiceConfig := {
  vc_listen_addr : string;
  vc_tee_platform : TEEPlatform;
  vc_allow_simulated : bool;
  vc_max_validators : N;
  vc_max_stakers : N;
  vc_max_commitments : N;
  vc_operator_key_hex : option string;
  vc_vendor_attestation_key_hex : option string;
  vc_attestation_relay_url : option string;
  vc_enclave_hash_hex : option string;
  vc_signer_hash_hex : option string;
  vc_application_hash_hex : option string;
  vc_auth_token : option string;
  vc_rate_limit_rps : N;
  vc_insecure_no_auth : bool;
  vc_insecure_local_vendor_key : bool;
}.
Definition VaultServiceConfig_default : VaultServiceConfig := {|
  vc_listen_addr := "127.0.0.1:8547"; vc_tee_platform := MockPlatform; vc_allow_simulated := true;
  vc_max_validators := 200; vc_max_stakers := 100000; vc_max_commitments := 10000;
  vc_operator_key_hex := None; vc_vendor_attestation_key_hex := None; vc_attestation_relay_url := None;
  vc_enclave_hash_hex := None; vc_signer_hash_hex := None; vc_application_hash_hex := None;
  vc_auth_token := None; vc_rate_limit_rps := 0; vc_insecure_no_auth := false;
  vc_insecure_local_vendor_key := false |}.

Record AppState := {
  as_attestation_gen : AttestationGenerator BoxedProvider;
  as_total_attestations : N;
  as_current_epoch : N;
  as_config : VaultServiceConfig;
  as_metrics : MetricsState;
}.

Definition set_gen (g : AttestationGenerator BoxedProvider) (s : AppState) : AppState :=
  {| as_attestation_gen := g; as_total_attestations := s.(as_total_attestations);
     as_current_epoch := s.(as_current_epoch); as_config := s.(as_config); as_metrics := s.(as_metrics) |}.
Definition set_total (n : N) (s : AppState) : AppState :=
  {| as_attestation_gen := s.(as_attestation_gen); as_total_attestations := n;
     as_current_epoch := s.(as_current_epoch); as_config := s.(as_config); as_metrics := s.(as_metrics) |}.
Definition set_epoch (n : N) (s : AppState) : AppState :=
  {| as_attestation_gen := s.(as_attestation_gen); as_total_attestations := s.(as_total_attestations);
     as_current_epoch := n; as_config := s.(as_config); as_metrics := s.(as_metrics) |}.
Definition update_metrics (f : MetricsState → MetricsState) (s : AppState) : AppState :=
  {| as_attestation_gen := s.(as_attestation_gen); as_total_attestations := s.(as_total_attestations);
     as_current_epoch := s.(as_current_epoch); as_config := s.(as_config); as_metrics := f s.(as_metrics) |}.

(** [fetch_add(1)] wraps around. *)
Definition inc (n : N) : N := (n + 1) mod 2 ^ 64.
Definition count_error (m : MetricsState) : MetricsState := {|
  mt_validator_selections := m.(mt_validator_selections); mt_reward_calculations := m.(mt_reward_calculations);
  mt_mev_orderings := m.(mt_mev_orderings); mt_delegation_attestations := m.(mt_delegation_attestations);
  mt_total_errors := inc m.(mt_total_errors); mt_auth_failures := m.(mt_auth_failures);
  mt_last_attestation_at := m.(mt_last_attestation_at) |}.
Definition count_auth_failure (m : MetricsState) : MetricsState := {|
  mt_validator_selections := m.(mt_validator_selections); mt_reward_calculations := m.(mt_reward_calculations);
  mt_mev_orderings := m.(mt_mev_orderings); mt_delegation_attestations := m.(mt_delegation_attestations);
  mt_total_errors := m.(mt_total_errors); mt_auth_failures := inc m.(mt_auth_failures);
  mt_last_attestation_at := m.(mt_last_attestation_at) |}.

(** The counter of an operation *)
Inductive AttestKind := KSelection | KReward | KOrdering | KDelegation.
Definition count_kind (k : AttestKind) (m : MetricsState) : MetricsState := {|
  mt_validator_selections := match k with KSelection => inc m.(mt_validator_selections) | _ => m.(mt_validator_selections) end;
  mt_reward_calculations := match k with KReward => inc m.(mt_reward_calculations) | _ => m.(mt_reward_calculations) end;
  mt_mev_orderings := match k with KOrdering => inc m.(mt_mev_orderings) | _ => m.(mt_mev_orderings) end;
  mt_delegation_attestations := match k with KDelegation => inc m.(mt_delegation_attestations) | _ => m.(mt_delegation_attestations) end;
  mt_total_errors := m.(mt_total_errors); mt_auth_failures := m.(mt_auth_failures);
  mt_last_attestation_at := m.(mt_last_attestation_at) |}.
Definition record_attestation_time (now : N) (m : MetricsState) : MetricsState := {|
  mt_validator_selections := m.(mt_validator_selections); mt_reward_calculations := m.(mt_reward_calculations);
  mt_mev_orderings := m.(mt_mev_orderings); mt_delegation_attestations := m.(mt_delegation_attestations);
  mt_total_errors := m.(mt_total_errors); mt_auth_failures := m.(mt_auth_failures);
  mt_last_attestation_at := now |}.

(** ** Calendar *)
Section calendar.
Context `{Build} {E : Type}.

Definition days_to_ymd (days : N) : outcome E (N * N * N) :=
  z ← u_add U64_MAX days 719468;
  let era := z / 146097 in
  doe ← u_sub U64_MAX z (era * 146097);
  a ← u_sub U64_MAX doe (doe / 1460);
  b ← u_sub U64_MAX (a + doe / 36524) (doe / 146096);
  let yoe := b / 365 in
  let y := yoe + era * 400 in
  before ← u_sub U64_MAX (365 * yoe + yoe / 4) (yoe / 100);
  doy ← u_sub U64_MAX doe before;
  let mp := (5 * doy + 2) / 153 in
  d0 ← u_sub U64_MAX doy ((153 * mp + 2) / 5);
  let d := d0 + 1 in
  let m := if bool_decide (mp < 10) then mp + 3 else mp - 9 in
  let y := if bool_decide (m <= 2) then y + 1 else y in
  Ok (y, m, d).
End calendar.

(** [{:0width}] *)
Definition zero_padded (width : nat) (n : N) : string :=
  let s := pretty n in String.concat "" (replicate (width - String.length s) "0"%string) +:+ s.

Definition last_attestation_iso `{Build} {E} (m : MetricsState) : outcome E (option string) :=
  let ts := m.(mt_last_attestation_at) in
  if bool_decide (ts = 0) then Ok None
  else
    let days := ts / 86400 in
    let rem := ts mod 86400 in
    '(y, m, d) ← days_to_ymd days;
    Ok (Some (zero_padded 4 y +:+ "-" +:+ zero_padded 2 m +:+ "-" +:+ zero_padded 2 d +:+ "T"
              +:+ zero_padded 2 (rem / 3600) +:+ ":" +:+ zero_padded 2 (rem mod 3600 / 60) +:+ ":"
              +:+ zero_padded 2 (rem mod 60) +:+ "Z")).

(** ** Requests and responses *)
Record SelectValidatorsRequest := {
  sr_validators : list ValidatorInput;
  sr_target_count : N;
  sr_epoch : N;
  sr_config : SelectionConfig;
  sr_eligible_universe_hash : string;
  sr_total_active_count : N;
  sr_eligible_count : N;
  sr_skipped_stale_count : N;
}.
Record SelectValidatorsResponse := {
  sp_selected : list ScoredValidator;
  sp_epoch : N;
  sp_total_candidates : N;
  sp_selection_hash : string;
  sp_attestation : AttestationDocument;
  sp_eligible_universe_hash : string;
}.
Record OrderTransactionsRequest := {
  or_epoch : N;
  or_commitments : list Commitment;
  or_reveals : list Reveal;
}.
Record OrderTransactionsResponse := {
  op_epoch : N;
  op_ordered_blocks : list ValidatedReveal;
  op_invalid_reveals : list string;
  op_attestation : AttestationDocument;
}.
Record AttestDelegationRequest := {
  dr_epoch : N;
  dr_staker_stakes : list StakerStake;
  dr_staker_registry_root : string;
}.
Record AttestDelegationResponse := {
  dp_epoch : N;
  dp_delegation_root : string;
  dp_staker_registry_root : string;
  dp_attestation : AttestationDocument;
}.
Record VerifyCommitmentRequest := { vq_block_data : string; vq_nonce : string; vq_expected_hash : string }.
Record VerifyCommitmentResponse := { vp_valid : bool; vp_computed_hash : string }.

Record HttpError := { he_status : N; he_body : string }.
Definition BAD_REQUEST : N := 400.
Definition UNAUTHORIZED : N := 401.
Definition TOO_MANY_REQUESTS : N := 429.
Definition INTERNAL_SERVER_ERROR : N := 500.
Definition bad_request (body : string) : HttpError := {| he_status := BAD_REQUEST; he_body := body |}.

(** [serde_json::to_vec(&ordered).unwrap_or_default()] *)
Class VaultJson := { json_reveals : list ValidatedReveal → bytes }.

Abbreviation Handler A := (M HttpError AppState A).

(** ** Handlers *)
Section handlers.
Context `{Build, VaultLib, VaultMath, VaultCrypto, TeeHardware, VaultFeatures, VaultOrder, VaultJson}.

(** The hash a request must supply, as 32 bytes *)
Definition required_hash {S} (name text : string) : M HttpError S bytes :=
  _ ← ensure (negb (bool_decide (text = EmptyString))) (bad_request (name +:+ " is required"));
  decoded ← ok_or (v_hex_decode text) (bad_request (name +:+ " is not valid hex"));
  _ ← ensure (bool_decide (length decoded = 32%nat))
        (bad_request (name +:+ " must be 32 bytes, got " +:+ pretty (N.of_nat (length decoded))));
  mret decoded.

(** The supplied hash must be the recomputed one. *)
Definition same_hash {S} (name supplied what : string) (recomputed given : bytes) : M HttpError S unit :=
  ensure (bool_decide (recomputed = given))
    (bad_request (name +:+ " mismatch: supplied " +:+ supplied +:+ " but " +:+ what +:+ " hash to "
                  +:+ hex_encode recomputed)).

(** [state.attestation_gen.generate(..).map_err(..)?] *)
Definition attest (now : N) (payload : bytes) : Handler AttestationDocument := λ s,
  let '(res, g) := generate now payload s.(as_attestation_gen) in
  let s := set_gen g s in
  match res with
  | Ok d => (Ok d, s)
  | Err e => (Err {| he_status := INTERNAL_SERVER_ERROR;
                     he_body := "attestation generation failed: " +:+ AttestationError_to_string e |},
              update_metrics count_error s)
  | Panic => (Panic, s)
  | Blocked => (Blocked, s)
  end.

(** [*state.total_attestations.write().await += 1] *)
Definition count_attestation : Handler unit :=
  s ← get;
  n ← lift (u_add U64_MAX s.(as_total_attestations) 1);
  modify (set_total n).

Definition select_validators_handler (now done_at : N) (request : SelectValidatorsRequest)
  : Handler SelectValidatorsResponse :=
  config ← gets as_config;
  limit ← lift (u_mul U64_MAX config.(vc_max_validators) 10);
  _ ← ensure (bool_decide (N.of_nat (length request.(sr_validators)) <= limit))
        (bad_request "Too many candidate validators");
  _ ← match first_duplicate [] (vi_address <$> request.(sr_validators)) with
      | Some a => fail (bad_request ("duplicate candidate address: " +:+ a))
      | None => mret tt
      end;
  universe_hash_bytes ← required_hash "eligible_universe_hash" request.(sr_eligible_universe_hash);
  let recomputed := compute_eligible_universe_hash (vi_address <$> request.(sr_validators)) in
  _ ← same_hash "eligible_universe_hash" request.(sr_eligible_universe_hash) "candidates" recomputed universe_hash_bytes;
  selected ← lift (map_err bad_request
    (select_validators request.(sr_validators) request.(sr_target_count) request.(sr_config)));
  let canonical_hash := compute_validator_set_hash request.(sr_epoch) selected in
  let policy_hash := compute_selection_policy_hash request.(sr_config) in
  attestation ← attest now (canonical_hash ++ policy_hash ++ universe_hash_bytes);
  _ ← count_attestation;
  _ ← modify (set_epoch request.(sr_epoch));
  _ ← modify (update_metrics (count_kind KSelection));
  _ ← modify (update_metrics (record_attestation_time done_at));
  mret {| sp_selected := selected; sp_epoch := request.(sr_epoch);
          sp_total_candidates := N.of_nat (length request.(sr_validators));
          sp_selection_hash := attestation.(ad_payload_hash); sp_attestation := attestation;
          sp_eligible_universe_hash := request.(sr_eligible_universe_hash) |}.

Definition calculate_rewards_handler (now done_at : N) (request : CalculateRewardsRequest)
  : Handler CalculateRewardsResponse :=
  config ← gets as_config;
  _ ← ensure (bool_decide (N.of_nat (length request.(rq_staker_stakes)) <= config.(vc_max_stakers)))
        (bad_request "Too many stakers");
  _ ← lift (map_err bad_request (validate_unique_staker_addresses request.(rq_staker_stakes)));
  snapshot_hash_bytes ← required_hash "stake_snapshot_hash" request.(rq_stake_snapshot_hash);
  let recomputed_snapshot := compute_stake_snapshot_hash request.(rq_epoch) request.(rq_staker_stakes) in
  _ ← same_hash "stake_snapshot_hash" request.(rq_stake_snapshot_hash) "stakers" recomputed_snapshot snapshot_hash_bytes;
  vs_hash_bytes ← required_hash "validator_set_hash" request.(rq_validator_set_hash);
  let recomputed_vs_hash := compute_validator_set_hash request.(rq_epoch) request.(rq_validators) in
  _ ← same_hash "validator_set_hash" request.(rq_validator_set_hash) "validators" recomputed_vs_hash vs_hash_bytes;
  response ← lift (map_err (λ e, bad_request ("reward calculation failed: " +:+ e)) (calculate_rewards request));
  registry_root ← lift (compute_staker_registry_root request.(rq_staker_stakes));
  delegation_root ← lift (compute_delegation_registry_root request.(rq_staker_stakes));
  let merkle_root := parse_merkle_root response.(rs_merkle_root) in
  attestation ← attest now (compute_canonical_reward_payload request.(rq_epoch) request.(rq_total_rewards) merkle_root
    response.(rs_protocol_fee) recomputed_snapshot recomputed_vs_hash registry_root delegation_root);
  _ ← count_attestation;
  _ ← modify (update_metrics (count_kind KReward));
  _ ← modify (update_metrics (record_attestation_time done_at));
  mret {| rs_epoch := response.(rs_epoch); rs_allocations := response.(rs_allocations);
          rs_total_distributed := response.(rs_total_distributed); rs_protocol_fee := response.(rs_protocol_fee);
          rs_merkle_root := response.(rs_merkle_root); rs_merkle_proofs := response.(rs_merkle_proofs);
          rs_attestation := attestation; rs_stake_snapshot_hash := hex_encode recomputed_snapshot;
          rs_validator_set_hash := hex_encode recomputed_vs_hash |}.

(** The alerts are only logged. *)
Definition order_transactions_handler (now done_at : N) (request : OrderTransactionsRequest)
  : Handler OrderTransactionsResponse :=
  config ← gets as_config;
  let max := config.(vc_max_commitments) in
  let commitments := N.of_nat (length request.(or_commitments)) in
  let reveals := N.of_nat (length request.(or_reveals)) in
  _ ← ensure (bool_decide (commitments <= max))
        (bad_request ("Too many commitments (" +:+ pretty commitments +:+ ", max " +:+ pretty max +:+ ")"));
  _ ← ensure (bool_decide (reveals <= max))
        (bad_request ("Too many reveals (" +:+ pretty reveals +:+ ", max " +:+ pretty max +:+ ")"));
  let '(ordered, invalid) := process_commit_reveal request.(or_commitments) request.(or_reveals) in
  attestation ← attest now (json_reveals ordered);
  _ ← count_attestation;
  _ ← modify (update_metrics (count_kind KOrdering));
  _ ← modify (update_metrics (record_attestation_time done_at));
  mret {| op_epoch := request.(or_epoch); op_ordered_blocks := ordered; op_invalid_reveals := invalid;
          op_attestation := attestation |}.

Definition verify_commitment_handler (request : VerifyCommitmentRequest) : VerifyCommitmentResponse :=
  let computed := compute_commitment_hash request.(vq_block_data) request.(vq_nonce) in
  {| vp_valid := bool_decide (computed = request.(vq_expected_hash)); vp_computed_hash := computed |}.

Definition attest_delegation_handler (now done_at : N) (request : AttestDelegationRequest)
  : Handler AttestDelegationResponse :=
  config ← gets as_config;
  _ ← ensure (bool_decide (N.of_nat (length request.(dr_staker_stakes)) <= config.(vc_max_stakers)))
        (bad_request "Too many stakers");
  _ ← lift (map_err bad_request (validate_unique_staker_addresses request.(dr_staker_stakes)));
  registry_root_bytes ← required_hash "staker_registry_root" request.(dr_staker_registry_root);
  recomputed_registry ← lift (compute_staker_registry_root request.(dr_staker_stakes));
  _ ← same_hash "staker_registry_root" request.(dr_staker_registry_root) "stakers" recomputed_registry registry_root_bytes;
  delegation_root ← lift (compute_delegation_registry_root request.(dr_staker_stakes));
  attestation ← attest now (compute_canonical_delegation_payload request.(dr_epoch) delegation_root recomputed_registry);
  _ ← count_attestation;
  _ ← modify (update_metrics (count_kind KDelegation));
  _ ← modify (update_metrics (record_attestation_time done_at));
  mret {| dp_epoch := request.(dr_epoch); dp_delegation_root := hex_encode delegation_root;
          dp_staker_registry_root := hex_encode recomputed_registry; dp_attestation := attestation |}.
End handlers.

(** ** Middleware *)
Record TokenBucket := { tb_tokens : f64; tb_max_burst : f64; tb_rate : f64; tb_last : N }.

(** Instants are nanoseconds of a monotonic clock. *)
Definition TokenBucket_new (now rps : N) : TokenBucket :=
  let rate := f64_of_N rps in
  {| tb_tokens := rate; tb_max_burst := rate; tb_rate := rate; tb_last := now |}.
Definition bucket_allow (now : N) (b : TokenBucket) : bool * TokenBucket :=
  let elapsed := as_secs_f64 (sat_sub now b.(tb_last)) in
  let tokens := f64_min (f64_add b.(tb_tokens) (f64_mul elapsed b.(tb_rate))) b.(tb_max_burst) in
  let enough := f64_le F1_0 tokens in
  (enough, {| tb_tokens := if enough then f64_sub tokens F1_0 else tokens; tb_max_burst := b.(tb_max_burst);
              tb_rate := b.(tb_rate); tb_last := now |}).

(** What the router sees of a request *)
Record HttpRequest := { hq_path : string; hq_authorization : option string }.

Definition is_exempt (path : string) : bool :=
  bool_decide (path = "/health"%string) || bool_decide (path = "/metrics"%string).

(** What follows [prefix], when the text starts with it *)
Fixpoint strip_text_prefix (prefix s : string) : option string :=
  match prefix, s with
  | EmptyString, _ => Some s
  | String c prefix, String d s => if bool_decide (c = d) then strip_text_prefix prefix s else None
  | String _ _, EmptyString => None
  end.

(** The service: the state and the bucket of the rate limiter, when one is configured *)
Record Service := { sv_state : AppState; sv_bucket : option TokenBucket }.
Definition set_state (s : AppState) (v : Service) : Service := {| sv_state := s; sv_bucket := v.(sv_bucket) |}.
Definition set_bucket (b : TokenBucket) (v : Service) : Service := {| sv_state := v.(sv_state); sv_bucket := Some b |}.

Definition status_error (status : N) : HttpError := {| he_status := status; he_body := EmptyString |}.

(** [rate_limit_middleware] *)
Definition rate_limit (instant : N) (r : HttpRequest) : M HttpError Service unit :=
  v ← get;
  match v.(sv_bucket) with
  | None => mret tt
  | Some b =>
      if is_exempt r.(hq_path) then mret tt
      else
        let '(allowed, b) := bucket_allow instant b in
        _ ← modify (set_bucket b);
        ensure allowed (status_error TOO_MANY_REQUESTS)
  end.

(** The bearer check of [build_router] *)
Definition authenticate (r : HttpRequest) : M HttpError Service unit :=
  v ← get;
  match v.(sv_state).(as_config).(vc_auth_token) with
  | None => mret tt
  | Some expected =>
      if is_exempt r.(hq_path) then mret tt
      else
        let auth_header := default EmptyString r.(hq_authorization) in
        if bool_decide (strip_text_prefix "Bearer " auth_header = Some expected) then mret tt
        else
          _ ← modify (λ v, set_state (update_metrics count_auth_failure v.(sv_state)) v);
          fail (status_error UNAUTHORIZED)
  end.

(** The layers of [build_router], outermost first *)
Definition build_router (instant : N) (state : AppState) : Service :=
  let rps := state.(as_config).(vc_rate_limit_rps) in
  {| sv_state := state; sv_bucket := if bool_decide (0 < rps) then Some (TokenBucket_new instant rps) else None |}.
Definition layers (instant : N) (r : HttpRequest) : M HttpError Service unit :=
  _ ← rate_limit instant r; authenticate r.

(** ** Dispatch *)
Inductive Call :=
  | CallHealth
  | CallCapabilities
  | CallMetrics
  | CallSelect (r : SelectValidatorsRequest)
  | CallRewards (r : CalculateRewardsRequest)
  | CallOrder (r : OrderTransactionsRequest)
  | CallVerify (r : VerifyCommitmentRequest)
  | CallDelegation (r : AttestDelegationRequest).
Definition route (c : Call) : string :=
  match c with
  | CallHealth => "/health"
  | CallCapabilities => "/capabilities"
  | CallMetrics => "/metrics"
  | CallSelect _ => "/select-validators"
  | CallRewards _ => "/calculate-rewards"
  | CallOrder _ => "/order-transactions"
  | CallVerify _ => "/verify-commitment"
  | CallDelegation _ => "/attest-delegation"
  end.

(** What a response carries; the three reports only read the state. *)
Inductive Answer :=
  | AnswerReport
  | AnswerSelect (r : SelectValidatorsResponse)
  | AnswerRewards (r : CalculateRewardsResponse)
  | AnswerOrder (r : OrderTransactionsResponse)
  | AnswerVerify (r : VerifyCommitmentResponse)
  | AnswerDelegation (r : AttestDelegationResponse).

Section dispatch.
Context `{Build, VaultLib, VaultMath, VaultCrypto, TeeHardware, VaultFeatures, VaultJson}.

Definition handle (now done_at : N) (c : Call) : Handler Answer :=
  match c with
  | CallHealth | CallCapabilities | CallMetrics => mret AnswerReport
  | CallSelect r => a ← select_validators_handler now done_at r; mret (AnswerSelect a)
  | CallRewards r => a ← calculate_rewards_handler now done_at r; mret (AnswerRewards a)
  | CallOrder r => a ← order_transactions_handler now done_at r; mret (AnswerOrder a)
  | CallVerify r => mret (AnswerVerify (verify_commitment_handler r))
  | CallDelegation r => a ← attest_delegation_handler now done_at r; mret (AnswerDelegation a)
  end.

(** A request through the router *)
Definition serve (instant now done_at : N) (authorization : option string) (c : Call) : M HttpError Service Answer :=
  _ ← layers instant {| hq_path := route c; hq_authorization := authorization |};
  zoom sv_state set_state (handle now done_at c).
End dispatch.

(** ** [start_server] *)
(** [addr.rsplit_once(':')]: the part before the last colon *)
Fixpoint before_last_colon (s : string) : option string :=
  match s with
  | EmptyString => None
  | String c s =>
      match before_last_colon s with
      | Some h => Some (String c h)
      | None => if bool_decide (c = ":"%char) then Some EmptyString else None
      end
  end.
Definition is_loopback_addr (addr : string) : bool :=
  let host := default addr (before_last_colon addr) in
  bool_decide (host = "127.0.0.1"%string) || bool_decide (host = "::1"%string) || bool_decide (host = "localhost"%string).

(** Why a start is refused *)
Inductive StartError :=
  | AuthRequiredOffLoopback (addr : string)
  | AuthRequiredOnRealPlatform (p : TEEPlatform)
  | InvalidHex (field message : string)
  | WrongLength (field : string)
  | MeasurementRequired (field : string) (p : TEEPlatform)
  | FeatureMissing (feature : string)
  | LocalVendorKeyNotBuilt (p : TEEPlatform)
  | LocalVendorKeyNotAllowed (p : TEEPlatform)
  | LocalVendorKeyOffLoopback (addr : string)
  | VendorAttestationRequired (p : TEEPlatform)
  | GeneratorFailed (e : AttestationError)
  | OperatorKeyFailed (e : AttestationError).

Section start.
Context `{Build, VaultLib, VaultCrypto, TeeHardware, VaultFeatures}.

(** [hex::decode(..)?.try_into()] into 32 bytes *)
Definition hex32 (field text : string) : outcome StartError bytes :=
  match v_hex_decode text with
  | None => Err (InvalidHex field (hex_error text))
  | Some bs => if bool_decide (length bs = 32%nat) then Ok bs else Err (WrongLength field)
  end.

Definition auth_policy (config : VaultServiceConfig) : outcome StartError unit :=
  match config.(vc_auth_token) with
  | Some _ => Ok tt
  | None =>
      let is_loopback := is_loopback_addr config.(vc_listen_addr) in
      let is_mock := bool_decide (config.(vc_tee_platform) = MockPlatform) in
      if negb is_loopback then Err (AuthRequiredOffLoopback config.(vc_listen_addr))
      else if negb is_mock && negb config.(vc_insecure_no_auth)
      then Err (AuthRequiredOnRealPlatform config.(vc_tee_platform))
      else Ok tt
  end.

Definition measurement (config : VaultServiceConfig) (field : string) (text : option string) (placeholder : N)
  : outcome StartError bytes :=
  match text with
  | Some t => hex32 field t
  | None => if bool_decide (config.(vc_tee_platform) = MockPlatform) then Ok (replicate 32 placeholder)
            else Err (MeasurementRequired field config.(vc_tee_platform))
  end.

Definition application_measurement (config : VaultServiceConfig) : outcome StartError (option bytes) :=
  match config.(vc_application_hash_hex) with
  | Some t => bs ← hex32 "application_hash_hex" t; Ok (Some bs)
  | None => if bool_decide (config.(vc_tee_platform) = AWSNitro)
            then Err (MeasurementRequired "application_hash_hex" AWSNitro) else Ok None
  end.

(** [random_key]: what the random number generator fills the operator key with *)
Definition operator_key (random_key : bytes) (config : VaultServiceConfig) : outcome StartError bytes :=
  match config.(vc_operator_key_hex) with
  | Some t => hex32 "operator_key_hex" t
  | None => Ok random_key
  end.

Definition start_generator (draws : list (outcome string bytes)) (config : VaultServiceConfig) (tee_config : TEEConfig)
  : outcome StartError (AttestationGenerator BoxedProvider) :=
  if bool_decide (config.(vc_tee_platform) = MockPlatform) then
    map_err GeneratorFailed (AttestationGenerator_new draws tee_config (replicate 31 0 ++ [2]))
  else match config.(vc_attestation_relay_url), config.(vc_vendor_attestation_key_hex) with
  | Some relay_url, _ =>
      if feature_remote_attestation then
        map_err GeneratorFailed (VaultAttest.with_vendor_attester draws tee_config (RemoteVendorAttester relay_url))
      else Err (FeatureMissing "remote-attestation")
  | None, Some vendor_key_hex =>
      if negb feature_mock_tee then Err (LocalVendorKeyNotBuilt config.(vc_tee_platform))
      else if negb config.(vc_insecure_local_vendor_key) then Err (LocalVendorKeyNotAllowed config.(vc_tee_platform))
      else if negb (is_loopback_addr config.(vc_listen_addr)) then Err (LocalVendorKeyOffLoopback config.(vc_listen_addr))
      else
        vendor_key ← hex32 "vendor_attestation_key_hex" vendor_key_hex;
        map_err GeneratorFailed (VaultAttest.with_vendor_attester draws tee_config (LocalVendorAttester vendor_key))
  | None, None => Err (VendorAttestationRequired config.(vc_tee_platform))
  end.

(** Everything before the listener is bound *)
Definition start_server (random_key : bytes) (draws : list (outcome string bytes)) (config : VaultServiceConfig)
  : outcome StartError AppState :=
  _ ← auth_policy config;
  signing_key ← operator_key random_key config;
  enclave_hash ← measurement config "enclave_hash_hex" config.(vc_enclave_hash_hex) 0xAE;
  signer_hash ← measurement config "signer_hash_hex" config.(vc_signer_hash_hex) 0x51;
  application_hash ← application_measurement config;
  attestation_gen ← start_generator draws config {|
    tc_platform := config.(vc_tee_platform); tc_enclave_hash := enclave_hash; tc_signer_hash := signer_hash;
    tc_application_hash := application_hash; tc_allow_simulated := config.(vc_allow_simulated);
    tc_signing_key := signing_key |};
  _ ← map_err OperatorKeyFailed (operator_pubkey_hex attestation_gen);
  Ok {| as_attestation_gen := attestation_gen; as_total_attestations := 0; as_current_epoch := 1;
        as_config := config; as_metrics := MetricsState_new |}.
End start.
