(* ===== verification/VaultServerSpec.v ===== *)
(** * What the vault service promises

    The handlers attest only what they recomputed; a refused request changes nothing; the
    counters agree; the router lets nobody past the token; the server starts only under the
    documented policy; the calendar is right.  Also how two spellings of one address get past the
    registry root. *)
From S2P Require Import Prelude SysTypes Sorting Precompile ConsensusTypes Samples HybridSpec VaultReward VaultArith VaultRewardSpec F64Bounds VaultSelect VaultSelectSpec VaultAttest VaultAttestSpec VaultServer.
From stdpp Require Import base list strings sorting sets.
From Stdlib Require Import ZArith Lia.
#[local] Open Scope N_scope.

(** ** Statements of a handler *)
Section statements.
Context `{Build, VaultLib, !VaultLaws, VaultMath, VaultCrypto, TeeHardware, VaultFeatures, VaultJson}.

Lemma required_hash_ok {S} name text (s s' : S) bs :
  required_hash name text s = (Ok bs, s') → s' = s ∧ v_hex_decode text = Some bs ∧ length bs = 32%nat.
Proof. unfold required_hash. intros Hr. ok_inv Hr. bool_facts. by simplify_eq. Qed.

Lemma same_hash_ok {S} name supplied what recomputed given (s s' : S) u :
  same_hash name supplied what recomputed given s = (Ok u, s') → s' = s ∧ recomputed = given.
Proof. unfold same_hash. intros Hr. ok_inv Hr. by bool_facts. Qed.

(** The document attests the payload given. *)
Lemma attest_ok now payload (s s' : AppState) doc :
  attest now payload s = (Ok doc, s') →
  s' = set_gen (bump_nonce s.(as_attestation_gen)) s
  ∧ document s.(as_attestation_gen) now s.(as_attestation_gen).(ag_nonce_counter) payload = Ok doc
  ∧ doc.(ad_payload_hash) = sha256_hex payload.
Proof.
  unfold attest. destruct (generate now payload (as_attestation_gen s)) as [[d|e| |] g] eqn:Hg; intros [= -> <-].
  apply generate_inv in Hg as [-> Hd]. split_and!; [done|done|].
  by apply document_made in Hd as (r & sig & []).
Qed.

Lemma count_attestation_ok (s s' : AppState) u :
  count_attestation s = (Ok u, s') →
  s' = set_total ((s.(as_total_attestations) + 1) mod 2 ^ 64) s ∨ s' = set_total (s.(as_total_attestations) + 1) s.
Proof.
  unfold count_attestation. intros Hc. ok_inv Hc. unfold u_add in *. case_bool_decide; simplify_eq; [by right|].
  unfold overflow in *. destruct overflow_checks; simplify_eq. by left.
Qed.
End statements.

(** ** Refused requests *)
(** [polite m]: a computation that answers 400 has changed nothing. *)
Definition polite {A} (m : Handler A) : Prop :=
  ∀ s e s', m s = (Err e, s') → e.(he_status) = BAD_REQUEST → s' = s.
Definition quiet {A} (m : Handler A) : Prop := ∀ s, (m s).2 = s.
Definition no_err {A} (m : Handler A) : Prop := ∀ s e s', m s ≠ (Err e, s').

Create HintDb polite discriminated.

Lemma quiet_polite {A} (m : Handler A) : quiet m → polite m.
Proof. intros Hq s e s' Hm _. specialize (Hq s). by rewrite Hm in Hq. Qed.

Lemma polite_bind {A B} (m : Handler A) (k : A → Handler B) :
  quiet m → (∀ a, polite (k a)) → polite (m ≫= k).
Proof.
  intros Hq Hk s e s' Hm Hs. specialize (Hq s). unfold mbind, M_bind in Hm.
  destruct (m s) as [[a|e1| |] s1]; cbn in Hq; subst; simplify_eq; [|done]. by eapply Hk.
Qed.

Lemma polite_last {A B} (m : Handler A) (k : A → Handler B) :
  polite m → (∀ a, no_err (k a)) → polite (m ≫= k).
Proof.
  intros Hp Hk s e s' Hm Hs. unfold mbind, M_bind in Hm.
  destruct (m s) as [[a|e1| |] s1] eqn:Hm1; simplify_eq; [by apply Hk in Hm|]. by eapply Hp.
Qed.

Lemma err_free_bind {A B} (m : Handler A) (k : A → Handler B) :
  no_err m → (∀ a, no_err (k a)) → no_err (m ≫= k).
Proof.
  intros Hm Hk s e s'. unfold mbind, M_bind. destruct (m s) as [[a|e1| |] s1] eqn:Hm1; try done; [by apply Hk|].
  by apply Hm in Hm1.
Qed.

Lemma no_err_modify f : no_err (modify f : Handler unit).
Proof. done. Qed.
Lemma no_err_ret {A} (a : A) : no_err (mret a : Handler A).
Proof. done. Qed.
Lemma quiet_lift {A} (o : outcome HttpError A) : quiet (lift o).
Proof. done. Qed.
Lemma quiet_gets {A} (f : AppState → A) : quiet (gets f).
Proof. done. Qed.
Lemma quiet_ret {A} (a : A) : quiet (mret a).
Proof. done. Qed.
Lemma quiet_fail {A} e : quiet (fail (A:=A) e).
Proof. done. Qed.
Lemma quiet_ensure b e : quiet (ensure b e).
Proof. by destruct b. Qed.
Lemma quiet_ok_or {A} (o : option A) e : quiet (ok_or o e).
Proof. by destruct o. Qed.
Lemma quiet_bind {A B} (m : Handler A) (k : A → Handler B) : quiet m → (∀ a, quiet (k a)) → quiet (m ≫= k).
Proof.
  intros Hm Hk s. specialize (Hm s). unfold mbind, M_bind.
  destruct (m s) as [[a|e| |] s1]; cbn in *; subst; [apply Hk|done..].
Qed.
#[export] Hint Resolve no_err_modify no_err_ret quiet_lift quiet_gets quiet_ret quiet_fail quiet_ensure
  quiet_ok_or quiet_polite : polite.

(** Walks a handler up to its attestation. *)
Ltac polite_body :=
  repeat match goal with
  | |- polite (mbind _ _) => apply polite_bind; [solve [eauto with polite]|intros ?]
  | |- no_err (mbind _ _) => apply err_free_bind; [solve [eauto with polite]|intros ?]
  | |- quiet (mbind _ _) => apply quiet_bind; [solve [eauto with polite]|intros ?]
  | |- quiet (match ?x with _ => _ end) => destruct x
  | |- polite (let '_ := ?x in _) => destruct x
  | |- _ => solve [eauto with polite]
  end.

Section refused.
Context `{Build, VaultLib, VaultMath, VaultCrypto, TeeHardware, VaultFeatures, VaultJson}.

Lemma quiet_required_hash name text : quiet (required_hash name text).
Proof. unfold required_hash. polite_body. Qed.
Lemma quiet_same_hash name supplied what a b : quiet (same_hash name supplied what a b).
Proof. apply quiet_ensure. Qed.
Lemma polite_attest now payload : polite (attest now payload).
Proof.
  intros s e s' Ha Hs. unfold attest in Ha. destruct (generate _ _ _) as [[d|x| |] g]; by simplify_eq.
Qed.
Lemma no_err_count : no_err count_attestation.
Proof.
  unfold count_attestation. intros s e s' Hc. unfold mbind, M_bind, get, lift, modify in Hc.
  destruct (u_add _ _ _) eqn:Hu; simplify_eq. by apply u_add_no_err in Hu.
Qed.
Hint Resolve quiet_required_hash quiet_same_hash no_err_count : polite.

Lemma quiet_unique l : quiet (match first_duplicate [] l with
                              | Some a => fail (bad_request ("duplicate candidate address: " +:+ a))
                              | None => mret tt
                              end).
Proof. by destruct (first_duplicate [] l). Qed.
Hint Resolve quiet_unique : polite.

(** C31: a request the service answers with 400 leaves the state untouched: no nonce is used, no
    counter moves, no epoch is set. *)
Theorem bad_request_unchanged now done_at c s e s' :
  handle now done_at c s = (Err e, s') → e.(he_status) = BAD_REQUEST → s' = s.
Proof.
  revert s e s'. change (polite (handle now done_at c)).
  destruct c; cbn [handle]; try (by apply quiet_polite, quiet_ret);
    (apply polite_last; [|intros ?; apply no_err_ret]);
    unfold select_validators_handler, calculate_rewards_handler, order_transactions_handler, attest_delegation_handler;
    polite_body;
    (apply polite_last; [apply polite_attest|intros ?; polite_body]).
Qed.
End refused.

(** ** Counters *)
Definition kinds_sum (m : MetricsState) : N :=
  m.(mt_validator_selections) + m.(mt_reward_calculations) + m.(mt_mev_orderings) + m.(mt_delegation_attestations).
(** The total is the sum of the counters by kind, as 64-bit counters. *)
Definition counted (s : AppState) : Prop := s.(as_total_attestations) = kinds_sum s.(as_metrics) mod 2 ^ 64.

Lemma kinds_sum_inc k m : kinds_sum (count_kind k m) mod 2 ^ 64 = (kinds_sum m + 1) mod 2 ^ 64.
Proof.
  unfold kinds_sum, count_kind, inc. destruct k; cbn [mt_validator_selections mt_reward_calculations
    mt_mev_orderings mt_delegation_attestations].
  all: set (a := mt_validator_selections m); set (b := mt_reward_calculations m);
    set (c := mt_mev_orderings m); set (d := mt_delegation_attestations m).
  - rewrite <- !N.add_assoc, N.Div0.add_mod_idemp_l. f_equal. lia.
  - rewrite <- !N.add_assoc, (N.add_comm a), <- !N.add_assoc, N.Div0.add_mod_idemp_l. f_equal. lia.
  - rewrite <- N.add_assoc, (N.add_comm (a + b)), <- !N.add_assoc, N.Div0.add_mod_idemp_l. f_equal. lia.
  - rewrite N.Div0.add_mod_idemp_r. f_equal. lia.
Qed.

Section counters.
Context `{Build, VaultLib, VaultMath, VaultCrypto, TeeHardware, VaultFeatures, VaultJson}.

(** What follows the total: one kind is counted, and nothing fails. *)
Definition counts_one {A} (k : Handler A) : Prop :=
  ∀ s, ∃ a s', k s = (Ok a, s') ∧ s'.(as_total_attestations) = s.(as_total_attestations)
    ∧ kinds_sum s'.(as_metrics) mod 2 ^ 64 = (kinds_sum s.(as_metrics) + 1) mod 2 ^ 64.

Lemma count_then {A} (k : Handler A) :
  counts_one k → stable (maintains counted) (count_attestation ≫= λ _, k).
Proof.
  intros Hk s Hs. unfold count_attestation, mbind, M_bind, get, lift, modify.
  assert (∀ n, n = (kinds_sum s.(as_metrics) + 1) mod 2 ^ 64 → counted (k (set_total n s)).2) as Hgo.
  { intros n ->. destruct (Hk (set_total ((kinds_sum s.(as_metrics) + 1) mod 2 ^ 64) s)) as (a & s' & -> & Ht & Hsum).
    unfold counted. cbn [snd]. by rewrite Ht, Hsum. }
  unfold u_add. rewrite Hs. case_bool_decide as Hle.
  - apply Hgo. rewrite <- (N.Div0.add_mod_idemp_l (kinds_sum _)). symmetry. apply N.mod_small.
    change (2 ^ 64) with (U64_MAX + 1) in *. lia.
  - unfold overflow. destruct overflow_checks; [done|]. apply Hgo.
    change (U64_MAX + 1) with (2 ^ 64). by rewrite N.Div0.add_mod_idemp_l.
Qed.

Lemma quiet_stable {A} (R : relation AppState) `{!Reflexive R} (m : Handler A) : quiet m → stable R m.
Proof. intros Hq s. by rewrite Hq. Qed.

Lemma attest_counted now payload : stable (maintains counted) (attest now payload).
Proof. intros s Hs. unfold attest. by destruct (generate _ _ _) as [[d|e| |] g]. Qed.

(** Statements before the attestation, the attestation, the counters. *)
Ltac counted_body :=
  repeat match goal with
  | |- stable _ (match ?x with _ => _ end) => destruct x
  | |- stable _ (mbind _ (attest _ _)) => apply stable_bind; [apply _|apply attest_counted|intros ?]
  | |- stable _ (mbind _ count_attestation) =>
      apply count_then; intros ?; eexists _, _; split_and!; [reflexivity|reflexivity|apply kinds_sum_inc]
  | |- stable _ (mbind _ _) =>
      apply stable_bind; [apply _|apply quiet_stable; [apply _|solve [eauto with polite]]|intros ?]
  end.
Hint Resolve quiet_required_hash quiet_same_hash quiet_unique : polite.

Lemma handle_counted now done_at c : stable (maintains counted) (handle now done_at c).
Proof.
  destruct c; cbn [handle]; try (apply quiet_stable; [apply _|apply quiet_ret]);
    (apply stable_bind; [apply _| |intros ?; apply quiet_stable; [apply _|apply quiet_ret]]);
    unfold select_validators_handler, calculate_rewards_handler, order_transactions_handler, attest_delegation_handler;
    counted_body.
Qed.
End counters.

(** ** The configuration stays *)
Definition same_config : relation AppState := λ s s', s'.(as_config) = s.(as_config).
#[export] Instance same_config_preorder : PreOrder same_config.
Proof. split; [done|]. intros a b c. unfold same_config. congruence. Qed.

Section config.
Context `{Build, VaultLib, VaultMath, VaultCrypto, TeeHardware, VaultFeatures, VaultJson}.

Lemma attest_config now payload : stable same_config (attest now payload).
Proof. intros s. unfold attest. by destruct (generate _ _ _) as [[d|e| |] g]. Qed.
Lemma modify_config f : (∀ s, as_config (f s) = as_config s) → stable (E:=HttpError) same_config (modify f).
Proof. intros Hf s. apply Hf. Qed.
Lemma count_config : stable same_config count_attestation.
Proof.
  intros s. unfold count_attestation, mbind, M_bind, get, lift, modify. by destruct (u_add _ _ _).
Qed.
Hint Resolve attest_config count_config quiet_required_hash quiet_same_hash quiet_unique : polite.

Ltac config_body :=
  repeat match goal with
  | |- stable _ (match ?x with _ => _ end) => destruct x
  | |- stable _ (mbind _ _) => apply stable_bind; [apply _| |intros ?]
  | |- stable _ (modify _) => by apply modify_config
  | |- stable _ _ => first [solve [eauto with polite]|apply quiet_stable; [apply _|solve [eauto with polite]]]
  end.

Lemma handle_config now done_at c : stable same_config (handle now done_at c).
Proof.
  destruct c; cbn [handle];
    unfold select_validators_handler, calculate_rewards_handler, order_transactions_handler, attest_delegation_handler;
    config_body.
Qed.
End config.

(** ** Running services *)
Section running.
Context `{Build, VaultLib, VaultMath, VaultCrypto, TeeHardware, VaultFeatures, VaultJson}.

(** The states of a service started with [config]; a request may end in any way. *)
Inductive running (config : VaultServiceConfig) : Service → Prop :=
  | run_start random_key draws instant s :
      start_server random_key draws config = Ok s → running config (build_router instant s)
  | run_serve v instant now done_at authorization c :
      running config v → running config (serve instant now done_at authorization c v).2.

Definition over (R : relation AppState) : relation Service := λ v v', R v.(sv_state) v'.(sv_state).
#[export] Instance over_preorder R `{!PreOrder R} : PreOrder (over R).
Proof. split; [intros v; unfold over; reflexivity|]. intros a b c. unfold over. apply transitivity. Qed.

Lemma rate_limit_over R `{!PreOrder R} instant r : stable (over R) (rate_limit instant r).
Proof.
  intros v. unfold rate_limit. rewrite bind_get. destruct (sv_bucket v) as [b|]; [|reflexivity].
  destruct (is_exempt _); [reflexivity|]. destruct (bucket_allow instant b) as [[] b']; unfold over; cbn; reflexivity.
Qed.

Lemma authenticate_over R `{!PreOrder R} r :
  (∀ s, R s (update_metrics count_auth_failure s)) → stable (over R) (authenticate r).
Proof.
  intros HR v. unfold authenticate. rewrite bind_get. destruct (vc_auth_token _); [|reflexivity].
  destruct (is_exempt _); [reflexivity|]. case_bool_decide; [reflexivity|]. apply HR.
Qed.

Lemma layers_over R `{!PreOrder R} instant r :
  (∀ s, R s (update_metrics count_auth_failure s)) → stable (over R) (layers instant r).
Proof.
  intros HR. apply stable_bind; [apply _|by apply rate_limit_over|intros _]. by apply authenticate_over.
Qed.

Lemma serve_over R `{!PreOrder R} instant now done_at authorization c :
  (∀ s, R s (update_metrics count_auth_failure s)) → stable R (handle now done_at c) →
  stable (over R) (serve instant now done_at authorization c).
Proof.
  intros HR Hh. unfold serve. apply stable_bind; [apply _|by apply layers_over|intros _].
  apply (stable_zoom _ R); [done|]. by intros s t Hst.
Qed.

Lemma started_config random_key draws config s :
  start_server random_key draws config = Ok s → s.(as_config) = config ∧ counted s.
Proof.
  unfold start_server. intros Hs. repeat (apply obind_ok in Hs as (? & _ & Hs)). by injection Hs as <-.
Qed.

Lemma running_config config v : running config v → v.(sv_state).(as_config) = config.
Proof.
  induction 1 as [rk dr i s Hs|v i n d a c Hr IH]; [by apply started_config in Hs as [? _]|].
  rewrite <- IH. apply (serve_over same_config); [by unfold same_config|apply handle_config].
Qed.

(** The number of attestations a node reports is the sum of its counters by operation,
    whatever requests it has served, however they ended (as 64-bit counters, which wrap). *)
Lemma counters_agree config v : running config v → counted v.(sv_state).
Proof.
  induction 1 as [rk dr i s Hs|v i n d a c Hr IH]; [by apply started_config in Hs as [_ ?]|].
  apply (serve_over (maintains counted)); [by intros s Hs|apply handle_counted|done].
Qed.
(** ** Authentication *)
Lemma strip_text_prefix_some p s t : strip_text_prefix p s = Some t → s = (p +:+ t)%string.
Proof.
  revert s. induction p as [|c p IH]; intros s; cbn; [by intros [= ->]|].
  destruct s as [|d s]; [done|]. case_bool_decide; [|done]. subst. intros Hs. by rewrite (IH s Hs).
Qed.

Lemma authenticate_ok r v v' u token :
  authenticate r v = (Ok u, v') → v.(sv_state).(as_config).(vc_auth_token) = Some token →
  is_exempt r.(hq_path) = false → r.(hq_authorization) = Some ("Bearer " +:+ token)%string.
Proof.
  unfold authenticate. rewrite bind_get. intros Ha Ht He. rewrite Ht, He in Ha.
  case_bool_decide as Hs; [|done]. apply strip_text_prefix_some in Hs.
  destruct (hq_authorization r); cbn in Hs; [by subst|done].
Qed.

Lemma rate_limit_config instant r v o v' :
  rate_limit instant r v = (o, v') → v'.(sv_state) = v.(sv_state).
Proof.
  intros Hr. pose proof (rate_limit_over eq instant r v) as Ho. unfold over in Ho. by rewrite Hr in Ho.
Qed.

(** C15: a service that listens on a network interface answers nothing but its health and metrics
    without the bearer token, whatever its flag for insecure starts says: whatever was served before,
    a request for any other route that succeeds carries exactly the configured token, and there is
    one.  (The documentation of the flag says the service would start without a token, and that of the
    token that only the health route is exempt.) *)
Theorem network_needs_token config v instant now done_at authorization c answer v' :
  running config v → is_loopback_addr config.(vc_listen_addr) = false → is_exempt (route c) = false →
  serve instant now done_at authorization c v = (Ok answer, v') →
  ∃ token, config.(vc_auth_token) = Some token ∧ authorization = Some ("Bearer " +:+ token)%string.
Proof.
  intros Hr Hl He Hs. pose proof (running_config _ _ Hr) as Hc.
  assert (∃ token, config.(vc_auth_token) = Some token) as [token Ht].
  { clear Hs Hc. induction Hr as [rk dr i s Hs|]; [|done]. unfold start_server in Hs.
    apply obind_ok in Hs as (? & Ha & _). unfold auth_policy in Ha. rewrite Hl in Ha.
    destruct (vc_auth_token config); [by eexists|done]. }
  exists token. split; [done|]. unfold serve, layers in Hs.
  apply bind_ok in Hs as (u & v1 & Hs & _). apply bind_ok in Hs as (u' & v2 & Hlim & Ha).
  apply rate_limit_config in Hlim. eapply authenticate_ok in Ha; [done| |done]. by rewrite Hlim, Hc.
Qed.

(** ** The policy of [start_server] *)
Lemma map_err_ok {E F A} (f : E → F) (o : outcome E A) a : map_err f o = Ok a → o = Ok a.
Proof. by destruct o; cbn; intros; simplify_eq. Qed.

Lemma measurement_configured config field text placeholder bs :
  measurement config field text placeholder = Ok bs → config.(vc_tee_platform) ≠ MockPlatform → is_Some text.
Proof. unfold measurement. intros Hm Hp. destruct text; [eauto|]. by rewrite bool_decide_false in Hm. Qed.

(** The branches of [start_generator] for a real platform. *)
Lemma start_generator_real draws config tee g :
  start_generator draws config tee = Ok g → config.(vc_tee_platform) ≠ MockPlatform →
  (∃ att, VaultAttest.with_vendor_attester draws tee att = Ok g)
  ∧ (is_Some config.(vc_attestation_relay_url) ∧ feature_remote_attestation = true
     ∨ is_Some config.(vc_vendor_attestation_key_hex) ∧ feature_mock_tee = true
       ∧ config.(vc_insecure_local_vendor_key) = true ∧ is_loopback_addr config.(vc_listen_addr) = true).
Proof.
  unfold start_generator. intros Hg Hp. rewrite bool_decide_false in Hg by done.
  destruct (vc_attestation_relay_url config) as [url|].
  - destruct feature_remote_attestation; [|done]. apply map_err_ok in Hg. eauto.
  - destruct (vc_vendor_attestation_key_hex config) as [k|]; [|done].
    destruct feature_mock_tee, (vc_insecure_local_vendor_key config), (is_loopback_addr _); try done.
    apply obind_ok in Hg as (key & _ & Hg). apply map_err_ok in Hg. split; [eauto|right]. by split_and!; [eauto|..].
Qed.

(** The server starts only as its tables say.  Without a token it starts on loopback alone,
    and there on a real platform only with the explicit flag; a real platform needs its hardware
    code, configured measurements, and as authority the remote relay or, in a [mock-tee] build, on
    loopback and with a second explicit flag, a local key. *)
Lemma startup_policy random_key draws config s :
  start_server random_key draws config = Ok s →
  (is_Some config.(vc_auth_token)
   ∨ is_loopback_addr config.(vc_listen_addr) = true
     ∧ (config.(vc_tee_platform) = MockPlatform ∨ config.(vc_insecure_no_auth) = true))
  ∧ (config.(vc_tee_platform) = MockPlatform ∧ config.(vc_allow_simulated) = true
     ∨ compiled_in config.(vc_tee_platform) = true
       ∧ is_Some config.(vc_enclave_hash_hex) ∧ is_Some config.(vc_signer_hash_hex)
       ∧ (is_Some config.(vc_attestation_relay_url) ∧ feature_remote_attestation = true
          ∨ is_Some config.(vc_vendor_attestation_key_hex) ∧ feature_mock_tee = true
            ∧ config.(vc_insecure_local_vendor_key) = true ∧ is_loopback_addr config.(vc_listen_addr) = true)).
Proof.
  unfold start_server. intros Hs. apply obind_ok in Hs as (? & Ha & Hs). apply obind_ok in Hs as (key & _ & Hs).
  apply obind_ok in Hs as (eh & He & Hs). apply obind_ok in Hs as (sh & Hsh & Hs).
  apply obind_ok in Hs as (ah & _ & Hs). apply obind_ok in Hs as (g & Hg & _). split.
  - unfold auth_policy in Ha. destruct (vc_auth_token config); [left; eauto|right].
    destruct (is_loopback_addr _); [|done]. split; [done|]. cbn in Ha. case_bool_decide; [by left|right].
    by destruct (vc_insecure_no_auth config).
  - destruct (decide (config.(vc_tee_platform) = MockPlatform)) as [Hp|Hp]; [left|right].
    + unfold start_generator in Hg. rewrite bool_decide_true in Hg by done. apply map_err_ok in Hg.
      split; [done|]. by apply mock_needs_simulation in Hg.
    + apply measurement_configured in He, Hsh; [|done..].
      destruct (start_generator_real _ _ _ _ Hg Hp) as [[att Hatt] Hauth].
      apply vendor_attester_hardware in Hatt as [Hc _]. by split_and!.
Qed.
End running.

(** ** What an attestation covers *)
(** Texts terminated by a byte they do not contain. *)
Lemma terminated_inj (ls ks : list bytes) :
  Forall (λ l, 0 ∉ l) ls → Forall (λ l, 0 ∉ l) ks →
  (ls ≫= λ l, l ++ [0]) = (ks ≫= λ l, l ++ [0]) → ls = ks.
Proof.
  assert (∀ (l k : bytes) x y, 0 ∉ l → 0 ∉ k → l ++ 0 :: x = k ++ 0 :: y → l = k ∧ x = y) as Hone.
  { induction l as [|a l IH]; intros [|b k] x y Hl Hk; cbn; intros Heq; simplify_eq; try done.
    - exfalso. apply Hk. by left.
    - exfalso. apply Hl. by left.
    - apply not_elem_of_cons in Hl as [_ Hl], Hk as [_ Hk]. destruct (IH k x y Hl Hk) as [-> ->]; done. }
  revert ks. induction ls as [|l ls IH]; intros ks Hl Hk; cbn.
  - destruct ks as [|k ks]; [done|]. cbn. by destruct k.
  - destruct ks as [|k ks]; cbn; [by destruct l|]. rewrite <- !app_assoc. cbn. intros Heq.
    apply Forall_cons in Hl as [Hl Hls], Hk as [Hk Hks]. destruct (Hone _ _ _ _ Hl Hk Heq) as [-> Hx].
    f_equal. by apply IH.
Qed.

Lemma string_bytes_inj s t : string_bytes s = string_bytes t → s = t.
Proof.
  revert t. induction s as [|c s IH]; intros [|d t]; cbn; try done. intros [= Hc Hs].
  rewrite (IH t Hs). f_equal. apply (f_equal Ascii.ascii_of_N) in Hc. by rewrite !Ascii.ascii_N_embedding in Hc.
Qed.

Definition no_nul (s : string) : Prop := 0 ∉ string_bytes s.

(** What the hash of the eligible candidates is the digest of. *)
Definition universe_preimage (addresses : list string) : bytes :=
  sort_by_text id addresses ≫= λ addr, string_bytes addr ++ [0].

Lemma universe_binds `{VaultLib} l k :
  Forall no_nul l → Forall no_nul k →
  compute_eligible_universe_hash l = compute_eligible_universe_hash k →
  l ≡ₚ k ∨ sha256_clash (universe_preimage l) (universe_preimage k).
Proof.
  intros Hl Hk Heq. apply sha256_binds in Heq as [Heq|]; [left|by right].
  assert (∀ m, (m ≫= λ a, string_bytes a ++ [0]) = ((string_bytes <$> m) ≫= λ b, b ++ [0])) as Hf.
  { induction m as [|a m IH]; [done|]. cbn. by rewrite IH. }
  rewrite !Hf in Heq. apply terminated_inj in Heq;
    [|apply Forall_fmap; rewrite sort_by_text_perm; done..].
  rewrite <- (sort_by_text_perm id l), <- (sort_by_text_perm id k).
  assert (sort_by_text id l = sort_by_text id k) as ->; [|done].
  revert Heq. generalize (sort_by_text id l), (sort_by_text id k). intros a. induction a as [|x a IH]; intros [|y b]; cbn; try done.
  intros [= Hx Ha]. rewrite (string_bytes_inj _ _ Hx). f_equal. by apply IH.
Qed.

Lemma length_xor_root entry l : (∀ s, length (entry s) = 32%nat) → length (xor_root entry l) = 32%nat.
Proof.
  intros He. unfold xor_root.
  assert (∀ acc : bytes, length acc = 32%nat →
    length (foldl (λ acc s, if bool_decide (sk_shares s = 0) then acc else xor_bytes acc (entry s)) acc l) = 32%nat) as Hgo.
  { induction l as [|s l IH]; intros acc Ha; cbn; [done|]. apply IH. case_bool_decide; [done|].
    unfold xor_bytes. rewrite length_zip_with, Ha, He. lia. }
  by apply Hgo.
Qed.

(** Both sides are digests. *)
Ltac digests := etrans; [apply v_sha256_32|symmetry; apply v_sha256_32].

Section attested.
Context `{Build, VaultLib, !VaultLaws, VaultMath, VaultCrypto, TeeHardware, VaultFeatures, VaultJson}.

(** What is hashed for the payload of a selection, and for the validator set in it. *)
Definition set_preimage (epoch : N) (validators : list ScoredValidator) : bytes :=
  string_bytes "CruzibleValidatorSet-v1" ++ to_be_bytes 8 epoch
  ++ to_be_bytes 4 (N.of_nat (length validators)) ++ (validators ≫= compute_validator_inner_hash).
Definition selection_payload (request : SelectValidatorsRequest) (selected : list ScoredValidator) : bytes :=
  compute_validator_set_hash request.(sr_epoch) selected ++ compute_selection_policy_hash request.(sr_config)
  ++ compute_eligible_universe_hash (vi_address <$> request.(sr_validators)).

(** What a selection response says, and that it was recomputed. *)
Record selection_attested (request : SelectValidatorsRequest) (resp : SelectValidatorsResponse) : Prop := {
  sa_selected : select_validators request.(sr_validators) request.(sr_target_count) request.(sr_config)
                = Ok resp.(sp_selected);
  sa_universe : v_hex_decode request.(sr_eligible_universe_hash)
                = Some (compute_eligible_universe_hash (vi_address <$> request.(sr_validators)));
  sa_distinct : first_duplicate [] (vi_address <$> request.(sr_validators)) = None;
  sa_epoch : resp.(sp_epoch) = request.(sr_epoch);
  sa_payload : resp.(sp_attestation).(ad_payload_hash)
    = sha256_hex (selection_payload request resp.(sp_selected));
}.

Lemma selection_handler_ok now done_at request s resp s' :
  select_validators_handler now done_at request s = (Ok resp, s') → selection_attested request resp.
Proof.
  unfold select_validators_handler. intros Hh.
  apply bind_ok in Hh as (cfg & s1 & [= <- <-] & Hh). apply bind_ok in Hh as (lim & s1 & Hl & Hh).
  apply lift_ok in Hl as [_ ->]. apply bind_ok in Hh as (u1 & s1 & He & Hh). apply ensure_ok in He as [_ ->].
  apply bind_ok in Hh as (u2 & s1 & Hd & Hh). destruct (first_duplicate _ _) eqn:Hdup; [done|]. injection Hd as <- <-.
  apply bind_ok in Hh as (uh & s1 & Hu & Hh). apply required_hash_ok in Hu as (-> & Hu & _).
  apply bind_ok in Hh as (u3 & s1 & Hsame & Hh). apply same_hash_ok in Hsame as [-> <-].
  apply bind_ok in Hh as (sel & s1 & Hsel & Hh). apply lift_ok in Hsel as [Hsel%map_err_ok ->].
  apply bind_ok in Hh as (doc & s1 & Hdoc & Hh). apply attest_ok in Hdoc as (-> & _ & Hp).
  apply bind_ok in Hh as (u4 & s1 & _ & Hh). injection Hh as <- <-. by split.
Qed.

(** C14: nobody can leave a candidate out unnoticed: if two accepted selection requests (whose
    addresses contain no NUL) carry attestations of one payload, they are for the same epoch, under
    the same policy hash, and their candidates have the same addresses, unless SHA-256 takes the two
    payloads, the two strings hashed for the validator sets or the two hashed for the candidates to
    one value although they differ. *)
Theorem selection_covers_universe now1 done1 r1 s1 resp1 s1' now2 done2 r2 s2 resp2 s2' :
  select_validators_handler now1 done1 r1 s1 = (Ok resp1, s1') →
  select_validators_handler now2 done2 r2 s2 = (Ok resp2, s2') →
  r1.(sr_epoch) <= U64_MAX → r2.(sr_epoch) <= U64_MAX →
  Forall (λ c, no_nul c.(vi_address)) r1.(sr_validators) → Forall (λ c, no_nul c.(vi_address)) r2.(sr_validators) →
  resp1.(sp_attestation).(ad_payload_hash) = resp2.(sp_attestation).(ad_payload_hash) →
  (r1.(sr_epoch) = r2.(sr_epoch)
   ∧ compute_selection_policy_hash r1.(sr_config) = compute_selection_policy_hash r2.(sr_config)
   ∧ vi_address <$> r1.(sr_validators) ≡ₚ vi_address <$> r2.(sr_validators))
  ∨ sha256_clash (selection_payload r1 resp1.(sp_selected)) (selection_payload r2 resp2.(sp_selected))
  ∨ sha256_clash (set_preimage r1.(sr_epoch) resp1.(sp_selected)) (set_preimage r2.(sr_epoch) resp2.(sp_selected))
  ∨ sha256_clash (universe_preimage (vi_address <$> r1.(sr_validators)))
                 (universe_preimage (vi_address <$> r2.(sr_validators))).
Proof.
  intros A1%selection_handler_ok A2%selection_handler_ok He1 He2 Hn1 Hn2 Heq.
  rewrite (sa_payload _ _ A1), (sa_payload _ _ A2) in Heq. apply hex_encode_inj in Heq; [|apply v_sha256_octets..].
  apply sha256_binds in Heq as [Heq|]; [|by right; left].
  apply app_inj_1 in Heq as [Hset Heq]; [|by digests].
  apply app_inj_1 in Heq as [Hpol Hu]; [|by digests].
  apply universe_binds in Hu as [Hu|]; [|by do 3 right|by apply Forall_fmap..].
  apply sha256_binds in Hset as [Hset|]; [left|by right; right; left]. split_and!; [|done..].
  apply app_inv_head in Hset. apply app_inj_1 in Hset as [Hep _]; [|by rewrite !length_to_be_bytes].
  apply to_be_bytes_inj in Hep; [done|cbn; lia..].
Qed.

(** ** Rewards *)
(** What is hashed for the payload of a reward calculation. *)
Definition reward_payload (request : CalculateRewardsRequest) (resp : CalculateRewardsResponse) : bytes :=
  compute_canonical_reward_payload request.(rq_epoch) request.(rq_total_rewards)
    (parse_merkle_root resp.(rs_merkle_root)) resp.(rs_protocol_fee)
    (compute_stake_snapshot_hash request.(rq_epoch) request.(rq_staker_stakes))
    (compute_validator_set_hash request.(rq_epoch) request.(rq_validators))
    (xor_root registry_entry request.(rq_staker_stakes)) (xor_root delegation_entry request.(rq_staker_stakes)).

(** What a reward response attests, and that it was recomputed. *)
Record rewards_attested (request : CalculateRewardsRequest) (resp : CalculateRewardsResponse) : Prop := {
  rt_snapshot : v_hex_decode request.(rq_stake_snapshot_hash)
                = Some (compute_stake_snapshot_hash request.(rq_epoch) request.(rq_staker_stakes));
  rt_validators : v_hex_decode request.(rq_validator_set_hash)
                  = Some (compute_validator_set_hash request.(rq_epoch) request.(rq_validators));
  rt_computed : ∃ base, calculate_rewards request = Ok base
    ∧ resp.(rs_allocations) = base.(rs_allocations) ∧ resp.(rs_protocol_fee) = base.(rs_protocol_fee)
    ∧ resp.(rs_merkle_root) = base.(rs_merkle_root) ∧ resp.(rs_merkle_proofs) = base.(rs_merkle_proofs);
  rt_payload : resp.(rs_attestation).(ad_payload_hash) = sha256_hex (reward_payload request resp);
}.

Lemma rewards_handler_ok now done_at request s resp s' :
  calculate_rewards_handler now done_at request s = (Ok resp, s') →
  rewards_attested request resp.
Proof.
  unfold calculate_rewards_handler. intros Hh.
  apply bind_ok in Hh as (cfg & s1 & [= <- <-] & Hh).
  apply bind_ok in Hh as (u1 & s1 & He & Hh). apply ensure_ok in He as [_ ->].
  apply bind_ok in Hh as (u2 & s1 & Hd & Hh). apply lift_ok in Hd as [_ ->].
  apply bind_ok in Hh as (sh & s1 & Hu & Hh). apply required_hash_ok in Hu as (-> & Hsnap & _).
  apply bind_ok in Hh as (u3 & s1 & Hsame & Hh). apply same_hash_ok in Hsame as [-> <-].
  apply bind_ok in Hh as (vh & s1 & Hu & Hh). apply required_hash_ok in Hu as (-> & Hvs & _).
  apply bind_ok in Hh as (u4 & s1 & Hsame & Hh). apply same_hash_ok in Hsame as [-> <-].
  apply bind_ok in Hh as (base & s1 & Hb & Hh). apply lift_ok in Hb as [Hb%map_err_ok ->].
  apply bind_ok in Hh as (rr & s1 & Hr & Hh). apply lift_ok in Hr as [Hr ->].
  apply bind_ok in Hh as (dr & s1 & Hdr & Hh). apply lift_ok in Hdr as [Hdr ->].
  apply bind_ok in Hh as (doc & s1 & Hdoc & Hh). apply attest_ok in Hdoc as (-> & _ & Hp).
  apply bind_ok in Hh as (u5 & s1 & _ & Hh). injection Hh as <- <-.
  unfold compute_staker_registry_root, compute_delegation_registry_root, assert_unique in Hr, Hdr.
  destruct (_ && _); [done|]. injection Hr as <-. injection Hdr as <-.
  split; [done|done|by exists base|done].
Qed.

Lemma attested_fee request resp :
  request.(rq_total_rewards) <= U128_MAX → rewards_attested request resp → resp.(rs_protocol_fee) <= U128_MAX.
Proof.
  intros Ht [_ _ (base & Hb & _ & -> & _) _]. unfold calculate_rewards in Hb. destruct (first_duplicate _ _); [done|].
  apply obind_ok in Hb as (fee & Hfee & Hb). rewrite muldiv_correct in Hfee by done.
  assert (fee <= U128_MAX) as Hle.
  { injection Hfee as <-. pose proof (N.mod_lt (rq_total_rewards request * PROTOCOL_FEE_BPS / BPS_DENOMINATOR) W128 ltac:(done)).
    change U128_MAX with (W128 - 1). lia. }
  repeat (apply obind_ok in Hb as (? & _ & Hb)). case_bool_decide; [by injection Hb as <-|].
  repeat (apply obind_ok in Hb as (? & _ & Hb)). destruct (negb _); [done|]. destruct (build_merkle_tree _ _). by injection Hb as <-.
Qed.

Lemma length_uint256 width z : (width <= 32)%nat → length (uint256 width z) = 32%nat.
Proof. intros Hw. unfold uint256, be_pad. rewrite length_app, length_replicate, length_to_be_bytes. lia. Qed.

Lemma uint256_inj width z z' :
  (width <= 32)%nat → z < 256 ^ N.of_nat width → z' < 256 ^ N.of_nat width → uint256 width z = uint256 width z' → z = z'.
Proof.
  intros Hw Hz Hz' Heq. unfold uint256, be_pad in Heq. rewrite !length_to_be_bytes in Heq.
  apply app_inv_head in Heq. by apply to_be_bytes_inj in Heq.
Qed.

Lemma length_parse_merkle_root t : length (parse_merkle_root t) = 32%nat.
Proof.
  unfold parse_merkle_root, be_pad. rewrite length_app, length_replicate, length_take. lia.
Qed.

(** C13: the attestation of a reward calculation pins down what is paid and from which data: two
    accepted requests whose attestations are for one payload agree on the epoch, the rewards, the
    protocol fee, the Merkle root of the claims, the hashes of the stake snapshot and of the
    validator set and the two registry roots (each recomputed by the service from the request),
    unless SHA-256 takes the two payloads to one value although they differ. *)
Theorem rewards_pinned now1 done1 r1 s1 resp1 s1' now2 done2 r2 s2 resp2 s2' :
  calculate_rewards_handler now1 done1 r1 s1 = (Ok resp1, s1') →
  calculate_rewards_handler now2 done2 r2 s2 = (Ok resp2, s2') →
  r1.(rq_epoch) <= U64_MAX → r2.(rq_epoch) <= U64_MAX →
  r1.(rq_total_rewards) <= U128_MAX → r2.(rq_total_rewards) <= U128_MAX →
  resp1.(rs_attestation).(ad_payload_hash) = resp2.(rs_attestation).(ad_payload_hash) →
  (r1.(rq_epoch) = r2.(rq_epoch) ∧ r1.(rq_total_rewards) = r2.(rq_total_rewards)
   ∧ resp1.(rs_protocol_fee) = resp2.(rs_protocol_fee)
   ∧ parse_merkle_root resp1.(rs_merkle_root) = parse_merkle_root resp2.(rs_merkle_root)
   ∧ compute_stake_snapshot_hash r1.(rq_epoch) r1.(rq_staker_stakes)
     = compute_stake_snapshot_hash r2.(rq_epoch) r2.(rq_staker_stakes)
   ∧ compute_validator_set_hash r1.(rq_epoch) r1.(rq_validators)
     = compute_validator_set_hash r2.(rq_epoch) r2.(rq_validators)
   ∧ xor_root registry_entry r1.(rq_staker_stakes) = xor_root registry_entry r2.(rq_staker_stakes)
   ∧ xor_root delegation_entry r1.(rq_staker_stakes) = xor_root delegation_entry r2.(rq_staker_stakes))
  ∨ sha256_clash (reward_payload r1 resp1) (reward_payload r2 resp2).
Proof.
  intros A1%rewards_handler_ok A2%rewards_handler_ok He1 He2 Ht1 Ht2 Heq.
  pose proof (attested_fee _ _ Ht1 A1) as Hf1. pose proof (attested_fee _ _ Ht2 A2) as Hf2.
  rewrite (rt_payload _ _ A1), (rt_payload _ _ A2) in Heq.
  apply hex_encode_inj in Heq; [|apply v_sha256_octets..].
  apply sha256_binds in Heq as [Heq|]; [left|by right]. unfold reward_payload, compute_canonical_reward_payload in Heq.
  apply app_inj_1 in Heq as [He Heq]; [|by rewrite !length_uint256 by lia].
  apply app_inj_1 in Heq as [Ht Heq]; [|by rewrite !length_uint256 by lia].
  apply app_inj_1 in Heq as [Hm Heq]; [|by rewrite !length_parse_merkle_root].
  apply app_inj_1 in Heq as [Hf Heq]; [|by rewrite !length_uint256 by lia].
  apply app_inj_1 in Heq as [Hs Heq]; [|by digests].
  apply app_inj_1 in Heq as [Hv Heq]; [|by digests].
  apply app_inj_1 in Heq as [Hr Hd]; [|rewrite !length_xor_root by (intros; apply v_keccak256_32); done].
  apply uint256_inj in He, Ht, Hf; [|cbn; lia..]. done.
Qed.
End attested.

(** ** The registry root *)
Lemma xor_bytes_assoc a b c : xor_bytes (xor_bytes a b) c = xor_bytes a (xor_bytes b c).
Proof.
  revert b c. induction a as [|x a IH]; intros [|y b] [|z c]; cbn; try done.
  by rewrite N.lxor_assoc, IH.
Qed.

Lemma xor_bytes_twice a b : length a = length b → xor_bytes (xor_bytes a b) b = a.
Proof.
  revert b. induction a as [|x a IH]; intros [|y b] Hl; cbn in *; try done.
  rewrite N.lxor_assoc, N.lxor_nilpotent, N.lxor_0_r, IH by lia. done.
Qed.

Lemma xor_root_snoc entry l s :
  s.(sk_shares) ≠ 0 → xor_root entry (l ++ [s]) = xor_bytes (xor_root entry l) (entry s).
Proof. intros Hs. unfold xor_root. rewrite foldl_snoc. by rewrite bool_decide_false. Qed.

Section forgery.
Context `{Build, VaultLib, !VaultLaws}.

Definition phantom (a a' d d' : string) (shares : N) : list StakerStake :=
  [ {| sk_address := a; sk_shares := shares; sk_delegated_to := d |};
    {| sk_address := a'; sk_shares := shares; sk_delegated_to := d' |} ].

(** The registry root does not protect the delegation root.  Uniqueness is checked on the text
    of an address, the root is computed from its bytes: two spellings of one address (upper and
    lower case, with and without [0x]) with equal shares pass the check and cancel in the root.  So
    to any list of stakers a pair of phantom stakers can be added that leaves the registry root as
    it is and moves the attested delegation root by the two entries of the pair. *)
Lemma delegation_root_forgeable {E} stakers a a' d d' shares :
  NoDup (sk_address <$> stakers) → a ≠ a' → a ∉ sk_address <$> stakers → a' ∉ sk_address <$> stakers →
  parse_address_bytes a = parse_address_bytes a' → shares ≠ 0 →
  let padded := stakers ++ phantom a a' d d' shares in
  validate_unique_staker_addresses padded = Ok tt
  ∧ compute_staker_registry_root (E:=E) padded = compute_staker_registry_root stakers
  ∧ compute_delegation_registry_root (E:=E) padded
    = Ok (xor_bytes (xor_root delegation_entry stakers)
            (xor_bytes (v_keccak256 (parse_address_bytes a ++ parse_address_bytes d))
                       (v_keccak256 (parse_address_bytes a ++ parse_address_bytes d')))).
Proof.
  intros Hnd Hne Ha Ha' Hp Hs padded.
  assert (first_duplicate [] (sk_address <$> padded) = None) as Hdup.
  { apply first_duplicate_none. split; [|by intros ? _ ?%elem_of_nil]. unfold padded. rewrite fmap_app. cbn.
    apply NoDup_app. split_and!; [done| |].
    - intros x Hx [->|[->|[]%elem_of_nil]%elem_of_cons]%elem_of_cons; done.
    - apply NoDup_cons. split; [|apply NoDup_singleton]. by intros ->%list_elem_of_singleton. }
  assert (first_duplicate [] (sk_address <$> stakers) = None) as Hdup'.
  { apply first_duplicate_none. split; [done|by intros ? _ ?%elem_of_nil]. }
  unfold validate_unique_staker_addresses, compute_staker_registry_root, compute_delegation_registry_root, assert_unique.
  rewrite Hdup, Hdup'. rewrite bool_decide_false by (by intros ?). rewrite andb_false_r. cbn [mbind outcome_bind].
  unfold padded, phantom.
  assert (∀ entry, xor_root entry (stakers ++ phantom a a' d d' shares)
    = xor_bytes (xor_bytes (xor_root entry stakers) (entry {| sk_address := a; sk_shares := shares; sk_delegated_to := d |}))
        (entry {| sk_address := a'; sk_shares := shares; sk_delegated_to := d' |})) as Hx.
  { intros entry. unfold phantom. rewrite cons_middle, app_assoc. by rewrite !xor_root_snoc by done. }
  unfold phantom in Hx. rewrite !Hx. split_and!; [done| |].
  - f_equal. unfold registry_entry at 2 3. cbn [sk_address sk_shares]. rewrite <- Hp. apply xor_bytes_twice.
    rewrite length_xor_root by (intros; apply v_keccak256_32). by rewrite v_keccak256_32.
  - f_equal. rewrite xor_bytes_assoc. unfold delegation_entry at 2 3. cbn [sk_address sk_delegated_to]. by rewrite <- Hp.
Qed.
End forgery.

(** * Concrete runs of the service *)

#[local] Existing Instance toy_vault.
#[local] Existing Instance toy_crypto.
#[local] Existing Instance dev_build.
#[local] Existing Instance sgx_build.
#[local] Existing Instance sgx_machine.
Definition plain_json : VaultJson := {| json_reveals := λ _, [] |}.
#[local] Existing Instance plain_json.

Definition public_config : VaultServiceConfig := {|
  vc_listen_addr := "0.0.0.0:8547"; vc_tee_platform := MockPlatform; vc_allow_simulated := true;
  vc_max_validators := 200; vc_max_stakers := 100000; vc_max_commitments := 10000;
  vc_operator_key_hex := None; vc_vendor_attestation_key_hex := None; vc_attestation_relay_url := None;
  vc_enclave_hash_hex := None; vc_signer_hash_hex := None; vc_application_hash_hex := None;
  vc_auth_token := Some "secret"; vc_rate_limit_rps := 10; vc_insecure_no_auth := false;
  vc_insecure_local_vendor_key := false |}.

Definition public_state : AppState :=
  ltac:(match eval vm_compute in (start_server (replicate 32 7) [Ok (replicate 32 9)] public_config) with
        | Ok ?s => exact s
        end).
Lemma public_started : start_server (replicate 32 7) [Ok (replicate 32 9)] public_config = Ok public_state.
Proof. vm_compute. reflexivity. Qed.

(** Without its token it would not have started. *)
Example no_token_no_start :
  start_server (replicate 32 7) [Ok (replicate 32 9)]
    {| vc_listen_addr := "0.0.0.0:8547"; vc_tee_platform := MockPlatform; vc_allow_simulated := true;
       vc_max_validators := 200; vc_max_stakers := 100000; vc_max_commitments := 10000;
       vc_operator_key_hex := None; vc_vendor_attestation_key_hex := None; vc_attestation_relay_url := None;
       vc_enclave_hash_hex := None; vc_signer_hash_hex := None; vc_application_hash_hex := None;
       vc_auth_token := None; vc_rate_limit_rps := 0; vc_insecure_no_auth := true;
       vc_insecure_local_vendor_key := true |}
  = Err (AuthRequiredOffLoopback "0.0.0.0:8547").
Proof. vm_compute. reflexivity. Qed.

Definition public_service : Service := build_router 0 public_state.
Lemma public_running : running public_config public_service.
Proof. eapply run_start. exact public_started. Qed.

(** ** Requests *)
Definition pick_request : SelectValidatorsRequest := {|
  sr_validators := applicants; sr_target_count := 3; sr_epoch := 7; sr_config := SelectionConfig_default;
  sr_eligible_universe_hash := hex_encode (compute_eligible_universe_hash (vi_address <$> applicants));
  sr_total_active_count := 4; sr_eligible_count := 4; sr_skipped_stale_count := 0 |}.
Definition truncated_request : SelectValidatorsRequest := {|
  sr_validators := take 3 applicants; sr_target_count := 3; sr_epoch := 7; sr_config := SelectionConfig_default;
  sr_eligible_universe_hash := pick_request.(sr_eligible_universe_hash);
  sr_total_active_count := 4; sr_eligible_count := 4; sr_skipped_stale_count := 0 |}.

Definition reward_request : CalculateRewardsRequest := {|
  rq_epoch := 1; rq_total_rewards := 1000; rq_mev_revenue := 10; rq_validators := [val1];
  rq_staker_stakes := request1.(rq_staker_stakes);
  rq_stake_snapshot_hash := hex_encode (compute_stake_snapshot_hash 1 request1.(rq_staker_stakes));
  rq_validator_set_hash := hex_encode (compute_validator_set_hash 1 [val1]) |}.

Definition ok_of {A} (o : outcome HttpError A) : option A := match o with Ok a => Some a | _ => None end.
Definition picked : SelectValidatorsResponse :=
  ltac:(match eval vm_compute in (select_validators_handler 1000 1001 pick_request public_state).1 with
        | Ok ?r => exact r
        end).
Definition rewarded : CalculateRewardsResponse :=
  ltac:(match eval vm_compute in (calculate_rewards_handler 1000 1001 reward_request public_state).1 with
        | Ok ?r => exact r
        end).

Lemma with_state {A} (p : outcome HttpError A * AppState) o : p.1 = o → p = (o, p.2).
Proof. by destruct p; cbn; intros ->. Qed.

Lemma pick_accepted :
  select_validators_handler 1000 1001 pick_request public_state
  = (Ok picked, (select_validators_handler 1000 1001 pick_request public_state).2).
Proof. apply with_state. vm_compute. reflexivity. Qed.
Lemma reward_accepted :
  calculate_rewards_handler 1000 1001 reward_request public_state
  = (Ok rewarded, (calculate_rewards_handler 1000 1001 reward_request public_state).2).
Proof. apply with_state. vm_compute. reflexivity. Qed.

(** ** Witnesses *)
Lemma bad_request_unchanged_witness :
  (handle 1000 1001 (CallSelect truncated_request) public_state).2 = public_state.
Proof.
  destruct (handle 1000 1001 (CallSelect truncated_request) public_state) as [[a|e| |] s'] eqn:Hh;
    [by vm_compute in Hh| |by vm_compute in Hh..].
  apply (bad_request_unchanged 1000 1001 (CallSelect truncated_request) public_state e s' Hh).
  vm_compute in Hh. by injection Hh as <- _.
Defined.

Lemma counters_agree_witness : counted public_service.(sv_state).
Proof. apply (counters_agree public_config public_service public_running). Defined.

Lemma network_needs_token_witness :
  ∃ token, public_config.(vc_auth_token) = Some token ∧ Some "Bearer secret"%string = Some ("Bearer " +:+ token)%string.
Proof.
  destruct (serve 0 1000 1001 (Some "Bearer secret"%string) (CallSelect pick_request) public_service)
    as [[answer|e| |] v'] eqn:Hs; [|by vm_compute in Hs..].
  apply (network_needs_token public_config public_service 0 1000 1001 (Some "Bearer secret"%string)
           (CallSelect pick_request) answer v' public_running); [reflexivity|reflexivity|exact Hs].
Defined.

Lemma startup_policy_witness :
  is_Some public_config.(vc_auth_token)
  ∨ is_loopback_addr public_config.(vc_listen_addr) = true
    ∧ (public_config.(vc_tee_platform) = MockPlatform ∨ public_config.(vc_insecure_no_auth) = true).
Proof. apply (startup_policy _ _ public_config public_state public_started). Defined.

(** The same candidates in another order, at another time: one payload. *)
Definition rotated_request : SelectValidatorsRequest := {|
  sr_validators := drop 3 applicants ++ take 3 applicants; sr_target_count := 3; sr_epoch := 7; sr_config := SelectionConfig_default;
  sr_eligible_universe_hash := pick_request.(sr_eligible_universe_hash);
  sr_total_active_count := 9; sr_eligible_count := 9; sr_skipped_stale_count := 1 |}.
Definition picked_again : SelectValidatorsResponse :=
  ltac:(match eval vm_compute in (select_validators_handler 2000 2001 rotated_request public_state).1 with
        | Ok ?r => exact r
        end).
Lemma pick_again_accepted :
  select_validators_handler 2000 2001 rotated_request public_state
  = (Ok picked_again, (select_validators_handler 2000 2001 rotated_request public_state).2).
Proof. apply with_state. vm_compute. reflexivity. Qed.

Lemma applicants_no_nul : Forall (λ c, no_nul c.(vi_address)) applicants.
Proof. repeat constructor; unfold no_nul; vm_compute; set_solver. Qed.

Lemma selection_covers_universe_witness :
  picked.(sp_attestation) ≠ picked_again.(sp_attestation)
  ∧ vi_address <$> pick_request.(sr_validators) ≡ₚ vi_address <$> rotated_request.(sr_validators).
Proof.
  split; [discriminate|].
  destruct (selection_covers_universe _ _ pick_request _ _ _ _ _ rotated_request _ _ _ pick_accepted pick_again_accepted)
    as [(_ & _ & Hp)|[[Hx _]|[[Hx _]|[Hx _]]]];
    [done|done|exact applicants_no_nul|apply Forall_app; split; [apply Forall_drop|apply Forall_take]; exact applicants_no_nul|reflexivity|exact Hp| | |];
    destruct Hx; vm_compute; reflexivity.
Defined.

(** The same stakers in another order, at another time. *)
Definition reordered_request : CalculateRewardsRequest := {|
  rq_epoch := 1; rq_total_rewards := 1000; rq_mev_revenue := 10; rq_validators := [val1];
  rq_staker_stakes := reverse request1.(rq_staker_stakes);
  rq_stake_snapshot_hash := reward_request.(rq_stake_snapshot_hash);
  rq_validator_set_hash := reward_request.(rq_validator_set_hash) |}.
Definition rewarded_again : CalculateRewardsResponse :=
  ltac:(match eval vm_compute in (calculate_rewards_handler 2000 2001 reordered_request public_state).1 with
        | Ok ?r => exact r
        end).
Lemma reward_again_accepted :
  calculate_rewards_handler 2000 2001 reordered_request public_state
  = (Ok rewarded_again, (calculate_rewards_handler 2000 2001 reordered_request public_state).2).
Proof. apply with_state. vm_compute. reflexivity. Qed.

Lemma rewards_pinned_witness :
  rewarded.(rs_attestation) ≠ rewarded_again.(rs_attestation)
  ∧ xor_root delegation_entry reward_request.(rq_staker_stakes)
    = xor_root delegation_entry reordered_request.(rq_staker_stakes).
Proof.
  split; [discriminate|].
  destruct (rewards_pinned _ _ reward_request _ _ _ _ _ reordered_request _ _ _ reward_accepted reward_again_accepted)
    as [(_ & _ & _ & _ & _ & _ & _ & Hd)|[Hx _]]; [done|done|done|done|reflexivity|exact Hd|].
  destruct Hx. vm_compute. reflexivity.
Defined.

Lemma delegation_root_forgeable_witness :
  validate_unique_staker_addresses (request1.(rq_staker_stakes) ++ phantom "0xAB" "0xab" "v1" "v2" 5) = Ok tt
  ∧ compute_staker_registry_root (E:=string) (request1.(rq_staker_stakes) ++ phantom "0xAB" "0xab" "v1" "v2" 5)
    = compute_staker_registry_root request1.(rq_staker_stakes).
Proof.
  destruct (delegation_root_forgeable (E:=string) request1.(rq_staker_stakes) "0xAB" "0xab" "v1" "v2" 5)
    as (Hu & Hr & _); [|done|..|by split].
  - cbn. apply NoDup_cons. split; [set_solver|apply NoDup_singleton].
  - cbn. set_solver.
  - cbn. set_solver.
  - vm_compute. reflexivity.
  - done.
Defined.

(** The forged list is attested: the same registry root, another delegation root. *)
Definition delegation_request (stakers : list StakerStake) : AttestDelegationRequest := {|
  dr_epoch := 1; dr_staker_stakes := stakers;
  dr_staker_registry_root := hex_encode (xor_root registry_entry request1.(rq_staker_stakes)) |}.
Example forged_delegation_attested :
  match ok_of (attest_delegation_handler 1000 1001 (delegation_request request1.(rq_staker_stakes)) public_state).1,
        ok_of (attest_delegation_handler 1000 1001
                 (delegation_request (request1.(rq_staker_stakes) ++ phantom "0xAB" "0xab" "0x0100000000000000000000000000000000000000"
                                                                    "0x0200000000000000000000000000000000000000" 5)) public_state).1 with
  | Some honest, Some forged =>
      bool_decide (honest.(dp_staker_registry_root) = forged.(dp_staker_registry_root))
      && negb (bool_decide (honest.(dp_delegation_root) = forged.(dp_delegation_root)))
  | _, _ => false
  end = true.
Proof. vm_compute. reflexivity. Qed.
