(* ===== verification/VaultCalendar.v ===== *)
(** * The calendar of the vault service

    [days_to_ymd] turns a number of days since 1970-01-01 into a date.  The reference is the
    Gregorian calendar as a successor function: the date of day zero is 1970-01-01, and the date of
    the next day is the successor of the date of the day before. *)
From S2P Require Import Prelude Samples VaultServer.
From stdpp Require Import base numbers list.
From Stdlib Require Import ZArith Lia.
#[local] Open Scope N_scope.

(** ** The Gregorian calendar *)
Definition is_leap (y : N) : bool :=
  bool_decide (y mod 4 = 0) && (negb (bool_decide (y mod 100 = 0)) || bool_decide (y mod 400 = 0)).
Definition days_in_month (y m : N) : N :=
  match m with
  | 2 => if is_leap y then 29 else 28
  | 4 | 6 | 9 | 11 => 30
  | _ => 31
  end.
Definition next_day (date : N * N * N) : N * N * N :=
  let '(y, m, d) := date in
  if bool_decide (d < days_in_month y m) then (y, m, d + 1)
  else if bool_decide (m < 12) then (y, m + 1, 1)
  else (y + 1, 1, 1).

(** ** Years from March

    An era is 400 years; a year of the era begins on 1 March, so that its leap day is its last. *)
Definition year_start (y : N) : N := 365 * y + y / 4 - y / 100.
Definition year_len (y : N) : N := if is_leap (y + 1) then 366 else 365.
Definition year_of (doe : N) : N := (doe - doe / 1460 + doe / 36524 - doe / 146096) / 365.

(** The date of a day of a year that begins in March of year [y] *)
Definition date_of (y doy : N) : N * N * N :=
  let mp := (5 * doy + 2) / 153 in
  let d := doy - (153 * mp + 2) / 5 + 1 in
  let m := if bool_decide (mp < 10) then mp + 3 else mp - 9 in
  (if bool_decide (m <= 2) then y + 1 else y, m, d).

Fixpoint all_below (n : nat) (f : N → bool) : bool :=
  match n with O => true | S n => f (N.of_nat n) && all_below n f end.
Lemma all_below_spec n f k : all_below n f = true → k < N.of_nat n → f k = true.
Proof.
  induction n as [|n IH]; [lia|]. cbn [all_below]. intros [Hf Hn]%andb_true_iff Hk.
  destruct (decide (k = N.of_nat n)) as [->|]; [done|]. apply IH; [done|lia].
Qed.

(** Numerator of [year_of]: it never decreases. *)
Definition spread (doe : N) : N := doe - doe / 1460 + doe / 36524 - doe / 146096.

Lemma spread_step d : spread d <= spread (d + 1).
Proof.
  unfold spread. replace 146096 with (36524 * 4) by done. rewrite <- !N.Div0.div_div.
  pose proof (div_bounds d 1460 ltac:(lia)). pose proof (div_bounds (d + 1) 1460 ltac:(lia)).
  pose proof (div_bounds d 36524 ltac:(lia)). pose proof (div_bounds (d + 1) 36524 ltac:(lia)).
  pose proof (div_bounds (d / 36524) 4 ltac:(lia)). pose proof (div_bounds ((d + 1) / 36524) 4 ltac:(lia)).
  lia.
Qed.

Lemma spread_mono d k : d <= k → spread d <= spread k.
Proof.
  intros Hk. replace k with (d + (k - d)) by lia. generalize (k - d). clear k Hk.
  intros n. induction n as [|n IH] using N.peano_ind; [by rewrite N.add_0_r|].
  etrans; [exact IH|]. replace (d + N.succ n) with (d + n + 1) by lia. apply spread_step.
Qed.

(** The first and the last day of every year of an era. *)
Lemma year_ends y :
  y < 400 →
  365 * y <= spread (year_start y) ∧ spread (year_start y + year_len y - 1) < 365 * (y + 1)
  ∧ year_start y + year_len y <= 146097
  ∧ (y < 399 → year_start (y + 1) = year_start y + year_len y).
Proof.
  intros Hy.
  assert (all_below 400 (λ y, bool_decide (365 * y <= spread (year_start y))
    && bool_decide (spread (year_start y + year_len y - 1) < 365 * (y + 1))
    && bool_decide (year_start y + year_len y <= 146097)
    && (bool_decide (399 <= y) || bool_decide (year_start (y + 1) = year_start y + year_len y))) = true) as Hall
    by (vm_compute; reflexivity).
  apply (all_below_spec _ _ y) in Hall; [|done].
  apply andb_true_iff in Hall as [Hall Hnext]. bool_facts. split_and!; try done.
  intros Hlt. apply orb_true_iff in Hnext as [Hn|Hn]; apply bool_decide_eq_true in Hn; [lia|done].
Qed.

Lemma year_len_bounds y : 365 <= year_len y <= 366.
Proof. unfold year_len. destruct (is_leap _); lia. Qed.

Lemma year_of_day y doy : y < 400 → doy < year_len y → year_of (year_start y + doy) = y.
Proof.
  intros Hy Hd. destruct (year_ends y Hy) as (Hlo & Hhi & _).
  pose proof (spread_mono (year_start y) (year_start y + doy) ltac:(lia)).
  pose proof (spread_mono (year_start y + doy) (year_start y + year_len y - 1) ltac:(lia)).
  change (year_of (year_start y + doy)) with (spread (year_start y + doy) / 365).
  pose proof (div_bounds (spread (year_start y + doy)) 365 ltac:(lia)). nia.
Qed.

(** ** The algorithm *)
Section algorithm.
Context `{Build} {E : Type}.

Lemma days_to_ymd_date days era y doy :
  days + 719468 <= U64_MAX → days + 719468 = era * 146097 + year_start y + doy → y < 400 → doy < year_len y →
  days_to_ymd (E:=E) days = Ok (date_of (y + era * 400) doy).
Proof.
  intros Hmax Hz Hy Hd. destruct (year_ends y Hy) as (_ & _ & Hend & _).
  set (doe := year_start y + doy).
  assert ((days + 719468) / 146097 = era) as Hera.
  { symmetry. apply (N.div_unique _ _ _ doe); unfold doe; lia. }
  unfold days_to_ymd. rewrite u_add_ok, obind_ret by done. rewrite Hera.
  rewrite u_sub_ok, obind_ret by lia. replace (days + 719468 - era * 146097) with doe by (unfold doe; lia).
  rewrite u_sub_ok, obind_ret by (apply N.Div0.div_le_upper_bound; lia).
  assert (doe / 146096 <= doe / 36524) by (apply N.div_le_compat_l; lia).
  rewrite u_sub_ok, obind_ret by lia. cbv zeta.
  change ((doe - doe / 1460 + doe / 36524 - doe / 146096) / 365) with (year_of doe).
  assert (year_of doe = y) as -> by (by apply year_of_day).
  assert (y / 100 <= 365 * y + y / 4) 
    by (transitivity y; [apply N.Div0.div_le_upper_bound|generalize (y / 4); intros]; lia).
  rewrite u_sub_ok, obind_ret by done. fold (year_start y).
  rewrite u_sub_ok, obind_ret by (unfold doe; lia). replace (doe - year_start y) with doy by (unfold doe; lia).
  rewrite u_sub_ok, obind_ret; [done|].
  pose proof (div_bounds (5 * doy + 2) 153 ltac:(lia)). set (mp := (5 * doy + 2) / 153) in *. clearbody mp.
  assert ((153 * mp + 2) / 5 < doy + 1); [|lia]. apply N.Div0.div_lt_upper_bound; lia.
Qed.
End algorithm.

(** ** The successor, relative to the year *)
Definition month_len (leap : bool) (m : N) : N :=
  match m with
  | 2 => if leap then 29 else 28
  | 4 | 6 | 9 | 11 => 30
  | _ => 31
  end.
Definition next_off (leap : bool) (date : N * N * N) : N * N * N :=
  let '(o, m, d) := date in
  if bool_decide (d < month_len leap m) then (o, m, d + 1)
  else if bool_decide (m < 12) then (o, m + 1, 1)
  else (o + 1, 1, 1).
Definition shift_year (y : N) (date : N * N * N) : N * N * N := let '(o, m, d) := date in (y + o, m, d).

Lemma date_of_shift y doy : date_of y doy = shift_year y (date_of 0 doy).
Proof. unfold date_of, shift_year. cbv zeta. f_equal. f_equal. case_bool_decide; lia. Qed.

Lemma next_day_shift y leap o m d :
  (m = 2 → is_leap (y + o) = leap) → next_day (shift_year y (o, m, d)) = shift_year y (next_off leap (o, m, d)).
Proof.
  intros Hl. unfold next_day, shift_year, next_off.
  assert (days_in_month (y + o) m = month_len leap m) as ->.
  { destruct (decide (m = 2)) as [->|Hm]; [cbn; by rewrite Hl|].
    destruct m as [|[[]|[]|]]; try done. }
  repeat case_bool_decide; rewrite ?N.add_assoc; done.
Qed.

(** Every day of a year: February lies in the next civil year, and the day after is the next one. *)
Definition check_day (leap : bool) (doy : N) : bool :=
  let '(o, m, d) := date_of 0 doy in
  (negb (bool_decide (m = 2)) || bool_decide (o = 1))
  && (if bool_decide (doy + 1 < (if leap then 366 else 365))
      then bool_decide (next_off leap (o, m, d) = date_of 0 (doy + 1))
      else negb (bool_decide (doy + 1 = (if leap then 366 else 365)))
           || bool_decide (next_off leap (o, m, d) = date_of 1 0)).
Lemma check_days leap doy : doy < 366 → check_day leap doy = true.
Proof.
  intros Hd. apply (all_below_spec 366); [|done]. destruct leap; vm_compute; reflexivity.
Qed.

Lemma is_leap_era y era : is_leap (y + era * 400) = is_leap y.
Proof.
  assert (∀ k q, 400 = q * k → (y + era * 400) mod k = y mod k) as Hk.
  { intros k q ->. rewrite N.mul_assoc. apply N.Div0.mod_add. }
  unfold is_leap. by rewrite (Hk 4 100), (Hk 100 4), (Hk 400 1) by done.
Qed.

(** The day after, within a year and across its end. *)
Lemma next_date era y doy :
  doy < year_len y →
  next_day (date_of (y + era * 400) doy)
  = if bool_decide (doy + 1 < year_len y) then date_of (y + era * 400) (doy + 1) else date_of (y + 1 + era * 400) 0.
Proof.
  intros Hd. pose proof (year_len_bounds y) as Hb.
  pose proof (check_days (is_leap (y + 1)) doy ltac:(lia)) as Hc. unfold check_day in Hc.
  rewrite date_of_shift. destruct (date_of 0 doy) as [[o m] d]. apply andb_true_iff in Hc as [Hm Hc].
  fold (year_len y) in Hc. rewrite (next_day_shift _ (is_leap (y + 1))).
  - case_bool_decide as Hlt; [|rewrite bool_decide_true in Hc by lia; cbn [negb orb] in Hc];
      apply bool_decide_eq_true in Hc; rewrite Hc.
    + by rewrite <- date_of_shift.
    + change (date_of 1 0) with (1, 3, 1). change (date_of (y + 1 + era * 400) 0) with (y + 1 + era * 400, 3, 1).
      cbn [shift_year]. do 2 f_equal. lia.
  - intros ->. rewrite bool_decide_true in Hm by done. cbn [negb orb] in Hm. apply bool_decide_eq_true in Hm as ->.
    replace (y + era * 400 + 1) with (y + 1 + era * 400) by lia. apply is_leap_era.
Qed.

(** ** Every day *)
Definition day_at (days era y doy : N) : Prop :=
  days + 719468 = era * 146097 + year_start y + doy ∧ y < 400 ∧ doy < year_len y.

Lemma day_after days era y doy :
  day_at days era y doy →
  if bool_decide (doy + 1 < year_len y) then day_at (days + 1) era y (doy + 1)
  else if bool_decide (y < 399) then day_at (days + 1) era (y + 1) 0
  else day_at (days + 1) (era + 1) 0 0.
Proof.
  intros (Hz & Hy & Hd). destruct (year_ends y Hy) as (_ & _ & Hend & Hnext).
  pose proof (year_len_bounds (y + 1)). unfold day_at.
  case_bool_decide as Hlt; [split_and!; lia|]. case_bool_decide as Hl.
  - rewrite Hnext by done. split_and!; lia.
  - assert (y = 399) as -> by lia. change (year_start 399 + year_len 399 <= 146097) in Hend.
    split_and!; [|done|done]. change (year_start 399) with 145731 in *. change (year_len 399) with 366 in *.
    change (year_start 0) with 0. lia.
Qed.

Lemma every_day days : ∃ era y doy, day_at days era y doy.
Proof.
  induction days as [|days (era & y & doy & Hd)] using N.peano_ind; [by exists 4, 369, 306|].
  rewrite <- N.add_1_r. apply day_after in Hd. repeat case_bool_decide; eauto.
Qed.

Section theorem.
Context `{Build} {E : Type}.

(** [days_to_ymd] is the Gregorian calendar: day zero is 1 January 1970, and the date of every
    later day (of a [u64], less the 719469 days up to then) is the successor of the date of the
    day before; the checked arithmetic never overflows on the way. *)
Lemma calendar_exact :
  days_to_ymd (E:=E) 0 = Ok (1970, 1, 1)
  ∧ ∀ days, days + 719469 <= U64_MAX →
    ∃ date, days_to_ymd (E:=E) days = Ok date ∧ days_to_ymd (E:=E) (days + 1) = Ok (next_day date).
Proof.
  split; [by rewrite (days_to_ymd_date 0 4 369 306)|]. intros days Hmax.
  destruct (every_day days) as (era & y & doy & Hd). pose proof Hd as (Hz & Hy & Hdoy).
  exists (date_of (y + era * 400) doy). split; [apply days_to_ymd_date; (done || lia)|].
  rewrite next_date by done. apply day_after in Hd.
  case_bool_decide; [destruct Hd as (? & ? & ?); apply days_to_ymd_date; (done || lia)|].
  case_bool_decide; [destruct Hd as (? & ? & ?); apply days_to_ymd_date; (done || lia)|].
  replace (y + 1 + era * 400) with (0 + (era + 1) * 400) by lia.
  destruct Hd as (? & ? & ?); apply days_to_ymd_date; (done || lia).
Qed.
End theorem.

(** The last day of February 2000 and the day after. *)
Lemma calendar_exact_witness :
  ∃ date, days_to_ymd (H := dev_build) (E:=unit) 11016 = Ok date
    ∧ days_to_ymd (H := dev_build) (E:=unit) (11016 + 1) = Ok (next_day date).
Proof. apply (calendar_exact (H := dev_build) (E:=unit)). done. Defined.
Example february_2000 : days_to_ymd (H := dev_build) (E:=unit) 11016 = Ok (2000, 2, 29).
Proof. vm_compute. reflexivity. Qed.
