(* ===== verification/Reputation.v ===== *)
(** * Compute reputation

    [crates/consensus/src/reputation.rs]: jobs of a validator in a sliding window, the score
    they give with decay, penalties and a bonus for activity, the daily limit, snapshots.
    The engine is a state that every call threads, the locks of its fields are taken and
    released within a call.  [f64::powi] is a parameter (class [ConsensusEnv]); what a call
    does to a [HashMap] entry by entry is independent of its order, and where an order
    escapes it is that of [map_to_list]. *)
From S2P Require Import Prelude SysTypes Sorting F64 Precompile ConsensusTypes.
From stdpp Require Import base gmap list strings pretty.
From Stdlib Require Import ZArith Lia SpecFloat.
#[local] Open Scope N_scope.

Definition F0_97 : f64 := f64_lit 8736983277098762 (-53).
Definition F0_1 : f64 := f64_lit 7205759403792794 (-56).
Definition F0_01 : f64 := f64_lit 5764607523034235 (-59).
Definition F0_2 : f64 := f64_lit 7205759403792794 (-55).
Definition F0_0 : f64 := S754_zero false.

(** [x.max(y)]: the other operand when one is NaN. *)
Definition f64_max (x y : f64) : f64 :=
  if f64_is_nan x then y else if f64_is_nan y then x else if f64_le x y then y else x.

(** ** Constants and configuration *)
Definition DEFAULT_DECAY_RATE : f64 := F0_97.
Definition DEFAULT_WINDOW_DAYS : N := 30.
Definition SLOTS_PER_DAY : N := 14400.
Definition MAX_REPUTATION_SCORE : N := U64_MAX / 100.
Definition MAX_COMPLEXITY : N := 1000000000000.
Definition MULTIPLIER_TEE : f64 := F1_0.
Definition MULTIPLIER_ZK : f64 := F1_5.
Definition MULTIPLIER_HYBRID : f64 := F2_0.
Definition MULTIPLIER_REEXEC : f64 := F0_8.

Record ReputationConfig := {
  rc_decay_rate : f64;
  rc_window_days : N;
  rc_min_complexity : N;
  rc_max_jobs_per_day : N;
  rc_failure_penalty_multiplier : f64;
  rc_uptime_bonus_threshold : f64;
  rc_enable_smoothing : bool;
  rc_smoothing_factor : f64;
}.

Definition ReputationConfig_production : ReputationConfig := {|
  rc_decay_rate := DEFAULT_DECAY_RATE; rc_window_days := DEFAULT_WINDOW_DAYS;
  rc_min_complexity := 100; rc_max_jobs_per_day := 10000; rc_failure_penalty_multiplier := F2_0;
  rc_uptime_bonus_threshold := F0_95; rc_enable_smoothing := true; rc_smoothing_factor := F0_1 |}.
Definition ReputationConfig_testnet : ReputationConfig := {|
  rc_decay_rate := F0_9; rc_window_days := 7; rc_min_complexity := 10; rc_max_jobs_per_day := 100000;
  rc_failure_penalty_multiplier := F1_5; rc_uptime_bonus_threshold := F0_8;
  rc_enable_smoothing := false; rc_smoothing_factor := F0_0 |}.
Definition ReputationConfig_devnet : ReputationConfig := {|
  rc_decay_rate := F0_8; rc_window_days := 3; rc_min_complexity := 1; rc_max_jobs_per_day := U32_MAX;
  rc_failure_penalty_multiplier := F1_0; rc_uptime_bonus_threshold := F0_0;
  rc_enable_smoothing := false; rc_smoothing_factor := F0_0 |}.

(** Comparisons with NaN are false, so that NaN passes. *)
Definition ReputationConfig_validate (c : ReputationConfig) : outcome ConsensusError unit :=
  if f64_le c.(rc_decay_rate) F0_0 || f64_lt F1_0 c.(rc_decay_rate)
  then Err (ConfigError "Decay rate must be in (0, 1]")
  else if bool_decide (c.(rc_window_days) = 0) then Err (ConfigError "Window days must be > 0")
  else if f64_lt c.(rc_smoothing_factor) F0_0 || f64_lt F1_0 c.(rc_smoothing_factor)
  then Err (ConfigError "Smoothing factor must be in [0, 1]")
  else Ok tt.

(** ** Jobs *)
Record JobMetadata := {
  jm_execution_time_ms : N;
  jm_memory_used : N;
  jm_model_name : option string;
  jm_request_origin : option string;
}.

Record ComputeJobRecord := {
  rj_job_id : Hash;
  rj_model_hash : Hash;
  rj_input_hash : Hash;
  rj_output_hash : Hash;
  rj_complexity : N;
  rj_verification_method : TraitVerificationMethod;
  rj_verified_at_slot : Slot;
  rj_success : bool;
  rj_metadata : option JobMetadata;
}.

Definition ComputeJobRecord_new (job_id model_hash input_hash output_hash : Hash) (complexity : N)
    (verification_method : TraitVerificationMethod) (verified_at_slot : Slot) (success : bool)
  : ComputeJobRecord := {|
  rj_job_id := job_id; rj_model_hash := model_hash; rj_input_hash := input_hash;
  rj_output_hash := output_hash; rj_complexity := complexity;
  rj_verification_method := verification_method; rj_verified_at_slot := verified_at_slot;
  rj_success := success; rj_metadata := None |}.

Definition multiplier (m : TraitVerificationMethod) : f64 :=
  match m with
  | TTeeAttestation => MULTIPLIER_TEE
  | TZkProof => MULTIPLIER_ZK
  | THybrid => MULTIPLIER_HYBRID
  | TReExecution => MULTIPLIER_REEXEC
  end.
Definition method_multiplier (j : ComputeJobRecord) : f64 := multiplier j.(rj_verification_method).

Definition weighted_score (j : ComputeJobRecord) : f64 :=
  let base := f64_of_N (N.min j.(rj_complexity) MAX_COMPLEXITY) in
  if j.(rj_success) then f64_mul base (method_multiplier j) else F0_0.

Definition age_days (j : ComputeJobRecord) (current_slot : Slot) : N :=
  if bool_decide (current_slot < j.(rj_verified_at_slot)) then 0
  else cast U32_MAX ((current_slot - j.(rj_verified_at_slot)) / SLOTS_PER_DAY).

(** [job.complexity = job.complexity.min(MAX_COMPLEXITY)] *)
Definition clamp_complexity (j : ComputeJobRecord) : ComputeJobRecord := {|
  rj_job_id := j.(rj_job_id); rj_model_hash := j.(rj_model_hash); rj_input_hash := j.(rj_input_hash);
  rj_output_hash := j.(rj_output_hash); rj_complexity := N.min j.(rj_complexity) MAX_COMPLEXITY;
  rj_verification_method := j.(rj_verification_method); rj_verified_at_slot := j.(rj_verified_at_slot);
  rj_success := j.(rj_success); rj_metadata := j.(rj_metadata) |}.

(** ** The state of a validator *)
Record ValidatorReputation := {
  rv_address : Address;
  rv_current_score : N;
  rv_smoothed_score : f64;
  rv_window_jobs : list ComputeJobRecord;
  rv_total_jobs : N;
  rv_successful_jobs : N;
  rv_failed_jobs : N;
  rv_total_complexity : N;
  rv_last_update_slot : Slot;
  rv_daily_job_counts : list (N * N);
  rv_active_streak : N;
  rv_last_active_day : N;
}.

Definition ValidatorReputation_new (address : Address) : ValidatorReputation := {|
  rv_address := address; rv_current_score := 0; rv_smoothed_score := F0_0; rv_window_jobs := [];
  rv_total_jobs := 0; rv_successful_jobs := 0; rv_failed_jobs := 0; rv_total_complexity := 0;
  rv_last_update_slot := 0; rv_daily_job_counts := []; rv_active_streak := 0; rv_last_active_day := 0 |}.

Definition success_rate (s : ValidatorReputation) : f64 :=
  if bool_decide (s.(rv_total_jobs) = 0) then F1_0
  else f64_div (f64_of_N s.(rv_successful_jobs)) (f64_of_N s.(rv_total_jobs)).

Definition average_complexity (s : ValidatorReputation) : N :=
  if bool_decide (s.(rv_total_jobs) = 0) then 0
  else cast U64_MAX (s.(rv_total_complexity) / s.(rv_total_jobs)).

(** Assignments to the fields: the window and the counters, the daily counts and the streak,
    the score. *)
Definition set_counters (jobs : list ComputeJobRecord) (total successful failed complexity : N)
    (s : ValidatorReputation) : ValidatorReputation := {|
  rv_address := s.(rv_address); rv_current_score := s.(rv_current_score);
  rv_smoothed_score := s.(rv_smoothed_score); rv_window_jobs := jobs; rv_total_jobs := total;
  rv_successful_jobs := successful; rv_failed_jobs := failed; rv_total_complexity := complexity;
  rv_last_update_slot := s.(rv_last_update_slot); rv_daily_job_counts := s.(rv_daily_job_counts);
  rv_active_streak := s.(rv_active_streak); rv_last_active_day := s.(rv_last_active_day) |}.
Definition set_activity (counts : list (N * N)) (streak last : N) (s : ValidatorReputation)
  : ValidatorReputation := {|
  rv_address := s.(rv_address); rv_current_score := s.(rv_current_score);
  rv_smoothed_score := s.(rv_smoothed_score); rv_window_jobs := s.(rv_window_jobs);
  rv_total_jobs := s.(rv_total_jobs); rv_successful_jobs := s.(rv_successful_jobs);
  rv_failed_jobs := s.(rv_failed_jobs); rv_total_complexity := s.(rv_total_complexity);
  rv_last_update_slot := s.(rv_last_update_slot); rv_daily_job_counts := counts;
  rv_active_streak := streak; rv_last_active_day := last |}.
Definition set_score (score : N) (smoothed : f64) (slot : Slot) (s : ValidatorReputation)
  : ValidatorReputation := {|
  rv_address := s.(rv_address); rv_current_score := score; rv_smoothed_score := smoothed;
  rv_window_jobs := s.(rv_window_jobs); rv_total_jobs := s.(rv_total_jobs);
  rv_successful_jobs := s.(rv_successful_jobs); rv_failed_jobs := s.(rv_failed_jobs);
  rv_total_complexity := s.(rv_total_complexity); rv_last_update_slot := slot;
  rv_daily_job_counts := s.(rv_daily_job_counts); rv_active_streak := s.(rv_active_streak);
  rv_last_active_day := s.(rv_last_active_day) |}.

(** ** The engine *)
Record ReputationMetrics := {
  rm_total_jobs_processed : N;
  rm_score_recalculations : N;
  rm_window_prunings : N;
}.
Definition ReputationMetrics_default : ReputationMetrics :=
  {| rm_total_jobs_processed := 0; rm_score_recalculations := 0; rm_window_prunings := 0 |}.

Record ReputationEngine := {
  re_config : ReputationConfig;
  re_validators : gmap Address ValidatorReputation;
  re_current_slot : Slot;
  re_decay_factors : list f64;
  re_metrics : ReputationMetrics;
}.

Record ScoreUpdate := {
  su_validator : Address;
  su_old_score : N;
  su_new_score : N;
  su_delta : Z;
  su_job_id : Hash;
}.

Record ReputationSnapshot := {
  rn_slot : Slot;
  rn_validators : gmap Address ValidatorReputation;
  rn_config : ReputationConfig;
}.

(** [(a as i64).saturating_sub(b as i64)] *)
Definition score_delta (new_score old_score : N) : Z :=
  Z.max I64_MIN (Z.min I64_MAX
    (wrap_signed I64_MAX (Z.of_N new_score) - wrap_signed I64_MAX (Z.of_N old_score)))%Z.

Definition set_validators (vs : gmap Address ValidatorReputation) (e : ReputationEngine) : ReputationEngine := {|
  re_config := e.(re_config); re_validators := vs; re_current_slot := e.(re_current_slot);
  re_decay_factors := e.(re_decay_factors); re_metrics := e.(re_metrics) |}.
Definition put_validator (v : Address) (s : ValidatorReputation) (e : ReputationEngine) : ReputationEngine :=
  set_validators (<[v := s]> e.(re_validators)) e.
(** The counters are atomics: they wrap. *)
Definition add_metrics (jobs recalculations prunings : N) (e : ReputationEngine) : ReputationEngine := {|
  re_config := e.(re_config); re_validators := e.(re_validators); re_current_slot := e.(re_current_slot);
  re_decay_factors := e.(re_decay_factors);
  re_metrics := {|
    rm_total_jobs_processed := cast U64_MAX (e.(re_metrics).(rm_total_jobs_processed) + jobs);
    rm_score_recalculations := cast U64_MAX (e.(re_metrics).(rm_score_recalculations) + recalculations);
    rm_window_prunings := cast U64_MAX (e.(re_metrics).(rm_window_prunings) + prunings) |} |}.
Definition update_slot (slot : Slot) (e : ReputationEngine) : ReputationEngine := {|
  re_config := e.(re_config); re_validators := e.(re_validators); re_current_slot := slot;
  re_decay_factors := e.(re_decay_factors); re_metrics := e.(re_metrics) |}.

Section engine.
Context `{Build, ConsensusEnv}.

Definition ReputationEngine_new (config : ReputationConfig) : ReputationEngine := {|
  re_config := config; re_validators := ∅; re_current_slot := 0;
  re_decay_factors := (λ day, f64_powi config.(rc_decay_rate) (wrap_signed I32_MAX (Z.of_nat day)))
                      <$> seq 0 (S (N.to_nat config.(rc_window_days)));
  re_metrics := ReputationMetrics_default |}.

(** ** Internal calculations *)
Definition get_daily_count (s : ValidatorReputation) (day : N) : N :=
  default 0 (snd <$> List.find (λ e, bool_decide (e.1 = day)) s.(rv_daily_job_counts)).

(** [iter_mut().find(..)]: the first entry of the day is counted up. *)
Fixpoint count_up (day : N) (counts : list (N * N)) : option (list (N * N)) :=
  match counts with
  | [] => None
  | (d, count) :: rest =>
      if bool_decide (d = day) then Some ((d, sat_add U32_MAX count 1) :: rest)
      else (λ rest', (d, count) :: rest') <$> count_up day rest
  end.

(** [while len() >= 7 { pop_front() }] *)
Definition keep_six (counts : list (N * N)) : list (N * N) := drop (length counts - 6) counts.

Definition update_daily_count (day : N) (counts : list (N * N)) : list (N * N) :=
  match count_up day counts with
  | Some counts' => counts'
  | None => keep_six counts ++ [(day, 1)]
  end.

Definition update_active_streak (s : ValidatorReputation) (current_day : N) : N :=
  let next_active_day := sat_add U32_MAX s.(rv_last_active_day) 1 in
  if bool_decide (s.(rv_last_active_day) = 0) then 1
  else if bool_decide (current_day = next_active_day) then sat_add U32_MAX s.(rv_active_streak) 1
  else if bool_decide (next_active_day < current_day) then 1
  else s.(rv_active_streak).

(** What a job adds to the sum, [None] outside the window *)
Definition contribution (e : ReputationEngine) (current_slot : Slot) (job : ComputeJobRecord) : option f64 :=
  let age := age_days job current_slot in
  if bool_decide (e.(re_config).(rc_window_days) < age) then None
  else
    let decay := default F0_0 (e.(re_decay_factors) !! N.to_nat age) in
    Some (if job.(rj_success) then f64_mul (weighted_score job) decay
          else SFopp (f64_mul (f64_mul (f64_of_N job.(rj_complexity))
                                 e.(re_config).(rc_failure_penalty_multiplier)) decay)).

Definition window_total (e : ReputationEngine) (current_slot : Slot) (jobs : list ComputeJobRecord) : f64 :=
  foldl (λ total job, match contribution e current_slot job with
                      | Some c => f64_add total c
                      | None => total
                      end) F0_0 jobs.

Definition streak_bonus (s : ValidatorReputation) : f64 :=
  f64_add F1_0 (f64_min (f64_mul (f64_of_N s.(rv_active_streak)) F0_01) F0_2).

Definition reputation_of (e : ReputationEngine) (s : ValidatorReputation) (current_slot : Slot) : N :=
  let total := window_total e current_slot s.(rv_window_jobs) in
  let total := if f64_le e.(re_config).(rc_uptime_bonus_threshold) (success_rate s)
               then f64_mul total (streak_bonus s) else total in
  f64_as U64_MAX (f64_min (f64_max total F0_0) (f64_of_N MAX_REPUTATION_SCORE)).

(** [while let Some(job) = front() { if .. { pop_front() } else { break } }] *)
Fixpoint drop_before (window_start_slot : Slot) (jobs : list ComputeJobRecord) : list ComputeJobRecord :=
  match jobs with
  | [] => []
  | job :: rest => if bool_decide (job.(rj_verified_at_slot) < window_start_slot)
                   then drop_before window_start_slot rest else jobs
  end.

Definition prune_window_jobs (e : ReputationEngine) (current_slot : Slot) (s : ValidatorReputation)
  : ValidatorReputation :=
  let window_start_slot := sat_sub current_slot (e.(re_config).(rc_window_days) * SLOTS_PER_DAY) in
  set_counters (drop_before window_start_slot s.(rv_window_jobs)) s.(rv_total_jobs)
    s.(rv_successful_jobs) s.(rv_failed_jobs) s.(rv_total_complexity) s.

Definition prune_expired_jobs (current_slot : Slot) (e : ReputationEngine) : ReputationEngine :=
  add_metrics 0 0 1 (set_validators (prune_window_jobs e current_slot <$> e.(re_validators)) e).

(** ** Operations *)
Definition day_of (slot : Slot) : N := cast U32_MAX (slot / SLOTS_PER_DAY).

(** The counters of a recorded job: each [+=] leaves the fields before it assigned. *)
Definition count_job (validator : Address) (job : ComputeJobRecord) (s : ValidatorReputation)
  : M ConsensusError ReputationEngine ValidatorReputation :=
  let jobs := s.(rv_window_jobs) ++ [job] in
  let put t ok bad c := put_validator validator (set_counters jobs t ok bad c s) in
  let '(t0, ok0, bad0, c0) :=
    (s.(rv_total_jobs), s.(rv_successful_jobs), s.(rv_failed_jobs), s.(rv_total_complexity)) in
  modify (put t0 ok0 bad0 c0) ;;
  t ← lift (u_add U64_MAX t0 1);
  modify (put t ok0 bad0 c0) ;;
  c ← lift (u_add U128_MAX c0 job.(rj_complexity));
  modify (put t ok0 bad0 c) ;;
  '(ok, bad) ← (if job.(rj_success) then ok ← lift (u_add U64_MAX ok0 1); mret (ok, bad0)
                else bad ← lift (u_add U64_MAX bad0 1); mret (ok0, bad));
  modify (put t ok bad c) ;;
  mret (set_counters jobs t ok bad c s).

Definition smoothed (config : ReputationConfig) (old : f64) (new_score : N) : f64 :=
  if config.(rc_enable_smoothing)
  then f64_add (f64_mul old (f64_sub F1_0 config.(rc_smoothing_factor)))
               (f64_mul (f64_of_N new_score) config.(rc_smoothing_factor))
  else old.

Definition record_job (validator : Address) (job : ComputeJobRecord)
  : M ConsensusError ReputationEngine ScoreUpdate :=
  e ← get;
  let current_slot := e.(re_current_slot) in
  ensure (bool_decide (e.(re_config).(rc_min_complexity) <= job.(rj_complexity)))
    (ReputationUpdateFailed (hex_encode validator) "Job complexity below minimum") ;;
  let job := clamp_complexity job in
  let state := default (ValidatorReputation_new validator) (e.(re_validators) !! validator) in
  modify (put_validator validator state) ;;
  let current_day := day_of current_slot in
  ensure (bool_decide (get_daily_count state current_day < e.(re_config).(rc_max_jobs_per_day)))
    (ReputationUpdateFailed (hex_encode validator) "Daily job limit exceeded") ;;
  let old_score := state.(rv_current_score) in
  state ← count_job validator job state;
  let state := set_activity (update_daily_count current_day state.(rv_daily_job_counts))
                 (update_active_streak state current_day) current_day state in
  let new_score := reputation_of e state current_slot in
  let state := set_score new_score (smoothed e.(re_config) state.(rv_smoothed_score) new_score)
                 current_slot state in
  modify (put_validator validator state) ;;
  modify (add_metrics 1 0 0) ;;
  mret {| su_validator := validator; su_old_score := old_score; su_new_score := new_score;
          su_delta := score_delta new_score old_score; su_job_id := job.(rj_job_id) |}.

(** An error of [record_job] is logged. *)
Fixpoint record_all (results : list (Address * ComputeJobRecord)) : M ConsensusError ReputationEngine (list ScoreUpdate) :=
  match results with
  | [] => mret []
  | (validator, job) :: results =>
      update ← (λ e, match record_job validator job e with
                     | (Ok u, e) => (Ok [u], e)
                     | (Err _, e) => (Ok [], e)
                     | (Panic, e) => (Panic, e)
                     | (Blocked, e) => (Blocked, e)
                     end);
      updates ← record_all results;
      mret (update ++ updates)
  end.

Definition process_block_results (slot : Slot) (results : list (Address * ComputeJobRecord))
  : M ConsensusError ReputationEngine (list ScoreUpdate) :=
  modify (update_slot slot) ;;
  updates ← record_all results;
  modify (prune_expired_jobs slot) ;;
  mret updates.

(** One validator of the daily decay *)
Definition decayed (e : ReputationEngine) (current_slot : Slot) (s : ValidatorReputation) : ValidatorReputation :=
  let s := prune_window_jobs e current_slot s in
  set_score (reputation_of e s current_slot) s.(rv_smoothed_score) current_slot s.
Definition decay_update (e : ReputationEngine) (current_slot : Slot) (entry : Address * ValidatorReputation)
  : option ScoreUpdate :=
  let '(address, s) := entry in
  let new_score := (decayed e current_slot s).(rv_current_score) in
  if bool_decide (s.(rv_current_score) = new_score) then None
  else Some {| su_validator := address; su_old_score := s.(rv_current_score); su_new_score := new_score;
               su_delta := score_delta new_score s.(rv_current_score); su_job_id := bytes32 0 |}.

Definition apply_daily_decay (current_slot : Slot) (e : ReputationEngine) : list ScoreUpdate * ReputationEngine :=
  let updates := omap (decay_update e current_slot) (map_to_list e.(re_validators)) in
  (updates, add_metrics 0 (N.of_nat (length updates)) 0
              (set_validators (decayed e current_slot <$> e.(re_validators)) e)).

(** ** Queries *)
Definition get_score (e : ReputationEngine) (validator : Address) : N :=
  default 0 (rv_current_score <$> e.(re_validators) !! validator).
Definition get_smoothed_score (e : ReputationEngine) (validator : Address) : f64 :=
  default F0_0 (rv_smoothed_score <$> e.(re_validators) !! validator).
Definition get_all_scores (e : ReputationEngine) : gmap Address N := rv_current_score <$> e.(re_validators).
(** [sort_by(|a, b| b.1.cmp(&a.1))]: descending *)
Definition get_top_validators (e : ReputationEngine) (n : nat) : list (Address * N) :=
  take n (sort_with (λ a b, bool_decide (b.2 <= a.2)) (prod_map id rv_current_score <$> map_to_list e.(re_validators))).

Definition snapshot (e : ReputationEngine) : ReputationSnapshot :=
  {| rn_slot := e.(re_current_slot); rn_validators := e.(re_validators); rn_config := e.(re_config) |}.
Definition restore (s : ReputationSnapshot) (e : ReputationEngine) : ReputationEngine :=
  set_validators s.(rn_validators) (update_slot s.(rn_slot) e).
End engine.
