(* ===== verification/ReputationSpec.v ===== *)
(** * Theorems on compute reputation

    What the engine keeps along every history of slots, jobs, blocks and decays whose
    slots do not go back: the daily limit, counters and streak of a validator are
    functions of the jobs that were accepted; scores stay below their cap; a call does
    not panic.  Decaying twice in a slot is decaying once. *)
From S2P Require Import Prelude SysTypes Sorting F64 Precompile ConsensusTypes F64Bounds Reputation ConsensusSamples.
From stdpp Require Import base gmap list strings pretty.
From Stdlib Require Import ZArith Lia SpecFloat.
#[local] Open Scope N_scope.

(** ** The cap of a score *)

(** The source documents [MAX_SCORE] as the maximum; the comparison is with [MAX_SCORE as f64],
    which rounds up: what the code guarantees is four above [MAX_SCORE]. *)
Definition SCORE_CAP : N := MAX_REPUTATION_SCORE + 4.

Lemma max_score_rounds : f64_of_N MAX_REPUTATION_SCORE = S754_finite false 5764607523034235 5.
Proof. reflexivity. Qed.

Lemma compare_cont_le m n :
  match Pos.compare_cont Eq m n with Gt => false | _ => true end = true → (Z.pos m <= Z.pos n)%Z.
Proof.
  unfold Z.le. cbn. change (Pos.compare m n) with (Pos.compare_cont Eq m n).
  by destruct (Pos.compare_cont _ _ _).
Qed.

Lemma capped_below x :
  narrow x → f64_le x (f64_of_N MAX_REPUTATION_SCORE) = true → f64_as U64_MAX x <= SCORE_CAP.
Proof.
  rewrite max_score_rounds. destruct x as [b|[]| |[] m e]; intros Hx Hle;
    [by vm_compute|by vm_compute|by vm_compute in Hle|by vm_compute|by vm_compute|].
  cbn [narrow] in Hx. cbn [f64_as]. transitivity (Z.to_N (Z.shiftl (Z.pos m) e)); [lia|].
  change SCORE_CAP with (Z.to_N 184467440737095520). apply Z2N.inj_le; [by apply Z.shiftl_nonneg|lia|].
  unfold f64_le, SFleb in Hle. cbn [SFcompare] in Hle.
  destruct (Z.compare_spec e 5) as [->|He|He]; [|clear Hle|done].
  - apply compare_cont_le in Hle. rewrite (Z.shiftl_mul_pow2 (Z.pos m) 5) by done.
    change 184467440737095520%Z with (5764607523034235 * 2 ^ 5)%Z. by apply Z.mul_le_mono_nonneg_r.
  - destruct (Z.le_gt_cases 0 e).
    + rewrite Z.shiftl_mul_pow2 by lia. assert (2 ^ e <= 2 ^ 4)%Z by (apply Z.pow_le_mono_r; lia). nia.
    + replace e with (- - e)%Z by lia. rewrite Z.shiftl_opp_r, Z.shiftr_div_pow2 by lia.
      transitivity (Z.pos m / 1)%Z; [|rewrite Z.div_1_r; lia].
      apply Z.div_le_compat_l; [lia|]. pose proof (F64Bounds.pow_pos (- e)%Z ltac:(lia)). lia.
Qed.

Section score.
Context `{Build, ConsensusEnv}.

Lemma window_total_narrow e slot jobs : narrow (window_total e slot jobs).
Proof.
  unfold window_total. assert (narrow F0_0) as Hz by done. revert Hz. generalize F0_0.
  induction jobs as [|j jobs IH]; intros x Hx; cbn [foldl]; [done|]. apply IH.
  unfold contribution. case_bool_decide; [done|]. apply narrow_add; [done|].
  destruct (rj_success j); [apply narrow_mul|apply narrow_opp, narrow_mul].
Qed.

Lemma reputation_capped e s slot : reputation_of e s slot <= SCORE_CAP.
Proof.
  unfold reputation_of. cbv zeta. set (t := if f64_le _ _ then _ else _).
  assert (narrow t) as Ht.
  { subst t. destruct (f64_le _ _); [apply narrow_mul|apply window_total_narrow]. }
  clearbody t. unfold f64_min, f64_max.
  set (y := if f64_is_nan t then _ else _).
  assert (narrow y ∧ f64_is_nan y = false) as [Hy Hn].
  { subst y. destruct (f64_is_nan t) eqn:Hnan; [done|]. cbn [f64_is_nan F0_0]. by destruct (f64_le t F0_0). }
  rewrite Hn. clearbody y. change (f64_is_nan (f64_of_N MAX_REPUTATION_SCORE)) with false. cbv iota.
  destruct (f64_le y _) eqn:Hle; [by apply capped_below|].
  rewrite max_score_rounds. by vm_compute.
Qed.
End score.

(** ** Histories *)

(** The accepted jobs, each with its validator and its day *)
Abbreviation Log := (list (Address * N)).
Definition hits (v : Address) (d : N) (log : Log) : N :=
  N.of_nat (length (filter (λ x, x = (v, d)) log)).
Definition jobs_of (v : Address) (log : Log) : N :=
  N.of_nat (length (filter (λ x, x.1 = v) log)).

(** Days are counted in 32 bits, so that slots from day [2^32] on wrap around to old days; on the
    last day before, [last_active_day + 1] saturates ([last_day_streak]).  The code takes any slot:
    the histories considered end before that day. *)
Definition slot_ok (slot : Slot) : Prop := slot / SLOTS_PER_DAY < U32_MAX.

Definition entry_of (slot : Slot) (u : ScoreUpdate) : Address * N := (u.(su_validator), day_of slot).

Section history.
Context `{Build, ConsensusEnv}.

(** Calls on an engine, with the jobs accepted so far *)
Inductive reached (config : ReputationConfig) : Log → ReputationEngine → Prop :=
| reached_new : reached config [] (ReputationEngine_new config)
| reached_slot log e slot :
    reached config log e → e.(re_current_slot) <= slot → slot_ok slot →
    reached config log (update_slot slot e)
| reached_job log e v job u e' :
    reached config log e → record_job v job e = (Ok u, e') →
    reached config (log ++ [entry_of e.(re_current_slot) u]) e'
| reached_refusal log e v job err e' :
    reached config log e → record_job v job e = (Err err, e') → reached config log e'
| reached_block log e slot results us e' :
    reached config log e → e.(re_current_slot) <= slot → slot_ok slot →
    N.of_nat (length results) <= U32_MAX →
    process_block_results slot results e = (Ok us, e') →
    reached config (log ++ (entry_of slot <$> us)) e'
| reached_decay log e slot :
    reached config log e → reached config log (apply_daily_decay slot e).2.

(** What the log says about a validator *)
Record streak_ok (v : Address) (log : Log) (last streak : N) : Prop := {
  so_latest : ∀ d, hits v d log ≠ 0 → d <= last;
  so_zero : last = 0 → streak = 1;
  so_run : 0 < last → 1 <= streak <= last ∧ ∀ i, i < streak → hits v (last - i) log ≠ 0;
  so_maximal : streak < last → hits v (last - streak) log = 0;
}.

Record tracked (config : ReputationConfig) (v : Address) (log : Log) (today : N) (s : ValidatorReputation) : Prop := {
  tk_total : s.(rv_total_jobs) = jobs_of v log;
  tk_split : s.(rv_successful_jobs) + s.(rv_failed_jobs) = s.(rv_total_jobs);
  tk_complexity : s.(rv_total_complexity) <= s.(rv_total_jobs) * MAX_COMPLEXITY;
  tk_score : s.(rv_current_score) <= SCORE_CAP;
  tk_days : NoDup s.(rv_daily_job_counts).*1;
  tk_week : (length s.(rv_daily_job_counts) <= 7)%nat;
  tk_counts : ∀ d c, (d, c) ∈ s.(rv_daily_job_counts) →
    c = hits v d log ∧ c <= config.(rc_max_jobs_per_day) ∧ d <= today;
  tk_limit : ∀ d, hits v d log <= config.(rc_max_jobs_per_day);
  tk_dropped : ∀ d, hits v d log ≠ 0 → d ∈ s.(rv_daily_job_counts).*1
    ∨ ∃ d', d' ∈ s.(rv_daily_job_counts).*1 ∧ d < d';
  tk_today : s.(rv_last_active_day) <= today;
  tk_streak : s.(rv_total_jobs) = 0 ∧ s.(rv_last_active_day) = 0
    ∨ streak_ok v log s.(rv_last_active_day) s.(rv_active_streak);
}.

Record engine_ok (config : ReputationConfig) (log : Log) (e : ReputationEngine) : Prop := {
  eo_config : e.(re_config) = config;
  eo_slot : slot_ok e.(re_current_slot);
  eo_unknown : ∀ v, e.(re_validators) !! v = None → jobs_of v log = 0;
  eo_tracked : ∀ v s, e.(re_validators) !! v = Some s →
    tracked config v log (day_of e.(re_current_slot)) s;
}.

(** ** Counting *)
Lemma hits_snoc v d log v' d' :
  hits v d (log ++ [(v', d')]) = hits v d log + (if decide (v' = v ∧ d' = d) then 1 else 0).
Proof.
  unfold hits. rewrite filter_app, length_app, filter_cons, filter_nil.
  destruct (decide ((v', d') = (v, d))), (decide (v' = v ∧ d' = d)); try naive_solver; cbn; lia.
Qed.

Lemma jobs_snoc v log v' d' : jobs_of v (log ++ [(v', d')]) = jobs_of v log + (if decide (v' = v) then 1 else 0).
Proof.
  unfold jobs_of. rewrite filter_app, length_app, filter_cons, filter_nil. cbn.
  destruct (decide (v' = v)); cbn; lia.
Qed.

Lemma hits_le_jobs v d log : hits v d log <= jobs_of v log.
Proof.
  unfold hits, jobs_of. induction log as [|[a b] log IH]; [done|]. rewrite !filter_cons.
  destruct (decide ((a, b) = (v, d))), (decide ((a, b).1 = v)); simplify_eq/=; lia.
Qed.

Lemma day_of_ok slot : slot_ok slot → day_of slot = slot / SLOTS_PER_DAY.
Proof. intros Hs. unfold day_of, cast. apply N.mod_small. unfold slot_ok in Hs. lia. Qed.

Lemma day_mono slot slot' : slot_ok slot' → slot <= slot' → day_of slot <= day_of slot'.
Proof.
  intros Hs Hle. assert (slot / SLOTS_PER_DAY <= slot' / SLOTS_PER_DAY) by (by apply N.Div0.div_le_mono).
  rewrite !day_of_ok; unfold slot_ok in *; lia.
Qed.

(** ** The daily counters *)
Lemma count_up_none day counts : count_up day counts = None → day ∉ counts.*1.
Proof.
  induction counts as [|[d c] counts IH]; cbn; [intros _; apply not_elem_of_nil|].
  case_bool_decide; [done|]. destruct (count_up day counts); [done|]. set_solver.
Qed.

Lemma count_up_some day counts counts' :
  count_up day counts = Some counts' →
  counts'.*1 = counts.*1 ∧ day ∈ counts.*1
  ∧ ∀ d c, NoDup counts.*1 → (d, c) ∈ counts' →
      d ≠ day ∧ (d, c) ∈ counts ∨ d = day ∧ ∃ c0, (day, c0) ∈ counts ∧ c = sat_add U32_MAX c0 1.
Proof.
  revert counts'. induction counts as [|[d0 c0] counts IH]; cbn; intros counts' Hup; [done|].
  case_bool_decide as Hd.
  - simplify_eq/=. split_and!; [done|set_solver|]. intros d c Hnd Hin.
    apply NoDup_cons in Hnd as [Hnotin _]. apply elem_of_cons in Hin as [Heq|Hin]; simplify_eq.
    + right. split; [done|]. exists c0. split; [left|done].
    + left. split; [|by apply elem_of_cons; right]. intros ->. apply Hnotin. by apply (list_elem_of_fmap_2 fst _ (_, c)).
  - destruct (count_up day counts) as [l|] eqn:Hl; simplify_eq/=.
    destruct (IH l eq_refl) as (Hf & Hin & Hc). split_and!; [by rewrite Hf|set_solver|].
    intros d c Hnd Hdc. apply NoDup_cons in Hnd as [_ Hnd].
    apply elem_of_cons in Hdc as [Heq|Hdc]; simplify_eq.
    + left. split; [done|left].
    + destruct (Hc d c Hnd Hdc) as [[? ?]|(? & c1 & ? & ?)]; [left|right].
      * split; [done|by right].
      * split; [done|]. exists c1. split; [by right|done].
Qed.

Lemma daily_count_zero day s : day ∉ s.(rv_daily_job_counts).*1 → get_daily_count s day = 0.
Proof.
  unfold get_daily_count. induction (rv_daily_job_counts s) as [|[d c] l IH]; cbn; intros Hn; [done|].
  rewrite bool_decide_false by set_solver. apply IH. set_solver.
Qed.

Lemma daily_count_in day s : day ∈ s.(rv_daily_job_counts).*1 → (day, get_daily_count s day) ∈ s.(rv_daily_job_counts).
Proof.
  unfold get_daily_count. induction (rv_daily_job_counts s) as [|[d c] l IH]; cbn; intros Hn; [set_solver|].
  case_bool_decide as Hd; cbn; [subst; set_solver|]. apply elem_of_cons. right. apply IH. set_solver.
Qed.

(** The counter of the day is the number of jobs accepted that day. *)
Lemma daily_count_exact config v log today s :
  tracked config v log today s → get_daily_count s today = hits v today log.
Proof.
  intros [_ _ _ _ _ _ Hcounts _ Hdropped _ _].
  destruct (decide (today ∈ s.(rv_daily_job_counts).*1)) as [Hin|Hout].
  - by apply Hcounts, daily_count_in.
  - rewrite daily_count_zero by done. destruct (decide (hits v today log = 0)) as [Hz|Hz]; [done|].
    destruct (Hdropped today Hz) as [?|(d' & Hd' & Hlt)]; [done|].
    apply list_elem_of_fmap in Hd' as ([d c] & -> & Hd). destruct (Hcounts d c Hd) as (_ & _ & ?). cbn in Hlt. lia.
Qed.

(** One more job today: the counters stay exact, a week is kept. *)
Record counts_ok (config : ReputationConfig) (v : Address) (log : Log) (today : N) (counts : list (N * N)) : Prop := {
  co_days : NoDup counts.*1;
  co_week : (length counts <= 7)%nat;
  co_counts : ∀ d c, (d, c) ∈ counts → c = hits v d log ∧ c <= config.(rc_max_jobs_per_day) ∧ d <= today;
  co_dropped : ∀ d, hits v d log ≠ 0 → d ∈ counts.*1 ∨ ∃ d', d' ∈ counts.*1 ∧ d < d';
}.

Lemma hits_other v d log today : d ≠ today → hits v d (log ++ [(v, today)]) = hits v d log.
Proof. intros. rewrite hits_snoc. destruct (decide _) as [[]|]; [done|lia]. Qed.
Lemma hits_today v log today : hits v today (log ++ [(v, today)]) = hits v today log + 1.
Proof. rewrite hits_snoc. destruct (decide _) as [|[]]; [lia|done]. Qed.

Lemma counts_step config v log today s :
  config.(rc_max_jobs_per_day) <= U32_MAX →
  tracked config v log today s → get_daily_count s today < config.(rc_max_jobs_per_day) →
  counts_ok config v (log ++ [(v, today)]) today (update_daily_count today s.(rv_daily_job_counts)).
Proof.
  intros Hmax Ht Hlt. rewrite (daily_count_exact _ _ _ _ _ Ht) in Hlt.
  pose proof (daily_count_zero today s) as Hzero. rewrite (daily_count_exact _ _ _ _ _ Ht) in Hzero.
  destruct Ht as [_ _ _ _ Hdays Hweek Hcounts _ Hdropped _ _].
  set (counts := s.(rv_daily_job_counts)) in *. unfold update_daily_count.
  destruct (count_up today counts) as [counts'|] eqn:Hup.
  - destruct (count_up_some _ _ _ Hup) as (Hf & Hin & Hc). constructor.
    + by rewrite Hf.
    + rewrite <- (length_fmap fst counts'), Hf, length_fmap. done.
    + intros d c Hdc. destruct (Hc d c Hdays Hdc) as [[Hne Hold]|(-> & c0 & Hold & ->)].
      * rewrite hits_other by done. eauto.
      * destruct (Hcounts _ _ Hold) as (-> & _ & ?). rewrite hits_today. unfold sat_add. lia.
    + intros d Hd. rewrite Hf. destruct (decide (d = today)) as [->|Hne]; [by left|].
      rewrite hits_other in Hd by done. eauto.
  - apply count_up_none in Hup. constructor.
    + unfold keep_six. rewrite fmap_app, fmap_drop. apply NoDup_app. split_and!.
      * by apply (sublist_NoDup _ counts.*1), sublist_drop.
      * intros d Hd Hd'. apply list_elem_of_singleton in Hd' as ->.
        apply Hup. by apply (subseteq_drop (length counts - 6)).
      * apply NoDup_singleton.
    + unfold keep_six. rewrite length_app, length_drop. cbn. lia.
    + intros d c Hdc. apply elem_of_app in Hdc as [Hdc|Hdc].
      * apply subseteq_drop in Hdc. rewrite hits_other; [by eauto|].
        intros ->. apply Hup. by apply (list_elem_of_fmap_2 fst _ (_, c)).
      * apply list_elem_of_singleton in Hdc as [= -> ->]. rewrite hits_today, Hzero by done. lia.
    + intros d Hd. destruct (decide (d = today)) as [->|Hne].
      { left. rewrite fmap_app. apply elem_of_app. right. by apply list_elem_of_singleton. }
      rewrite hits_other in Hd by done.
      right. exists today. split; [rewrite fmap_app; apply elem_of_app; right; by apply list_elem_of_singleton|].
      assert (∀ d', d' ∈ counts.*1 → d' <= today) as Hle.
      { intros d' Hd'. apply list_elem_of_fmap in Hd' as ([d0 c] & -> & Hd'). by apply Hcounts in Hd' as (_ & _ & ?). }
      destruct (Hdropped d Hd) as [Hin|(d' & Hin & ?)]; apply Hle in Hin; lia.
Qed.

Lemma streak_step v log today s :
  today < U32_MAX → s.(rv_last_active_day) <= today →
  (jobs_of v log = 0 ∧ s.(rv_last_active_day) = 0 ∨ streak_ok v log s.(rv_last_active_day) s.(rv_active_streak)) →
  streak_ok v (log ++ [(v, today)]) today (update_active_streak s today).
Proof.
  intros Hday Hle Hs. set (last := s.(rv_last_active_day)) in *. set (streak := s.(rv_active_streak)) in *.
  assert (∀ d, hits v d log ≠ 0 → d <= last) as Hlatest.
  { destruct Hs as [[Hz _]|[? _ _ _]]; [|done]. intros d Hd. pose proof (hits_le_jobs v d log). lia. }
  assert (∀ d, hits v d (log ++ [(v, today)]) ≠ 0 → d <= today) as Hnew.
  { intros d Hd. destruct (decide (d = today)); [lia|]. rewrite hits_other in Hd by done.
    specialize (Hlatest d Hd). lia. }
  assert (∀ n, n = 1 → last = 0 ∨ last + 1 < today → streak_ok v (log ++ [(v, today)]) today n) as Hone.
  { intros n -> Hgap. constructor; [done|done| |].
    - intros Hpos. split; [lia|]. intros i Hi. replace (today - i) with today by lia. rewrite hits_today. lia.
    - intros Hlt. rewrite hits_other by lia. destruct (decide (hits v (today - 1) log = 0)); [done|].
      assert (today - 1 <= last) by auto. lia. }
  unfold update_active_streak. fold last streak. unfold sat_add.
  case_bool_decide as Hzero; [by apply Hone; auto|].
  destruct Hs as [[_ ?]|[_ _ Hrun Hmaxi]]; [lia|]. destruct (Hrun ltac:(lia)) as [Hb Hr].
  case_bool_decide as Hnext.
  - replace (N.min U32_MAX (last + 1)) with (last + 1) in Hnext by lia.
    replace (N.min U32_MAX (streak + 1)) with (streak + 1) by lia. constructor; [done|lia| |].
    + intros _. split; [lia|]. intros i Hi. destruct (decide (i = 0)) as [->|Hi0].
      * rewrite N.sub_0_r, hits_today. lia.
      * rewrite hits_other by lia. replace (today - i) with (last - (i - 1)) by lia. apply Hr. lia.
    + intros Hlt. rewrite hits_other by lia. replace (today - (streak + 1)) with (last - streak) by lia. apply Hmaxi. lia.
  - case_bool_decide as Hgap; [apply Hone; [done|lia]|].
    assert (today = last) as -> by lia. constructor; [done|lia| |].
    + intros _. split; [done|]. intros i Hi. rewrite hits_snoc. specialize (Hr i Hi). lia.
    + intros Hlt. rewrite hits_other by lia. auto.
Qed.

(** ** Recording a job *)
Definition state_of (e : ReputationEngine) (v : Address) : ValidatorReputation :=
  default (ValidatorReputation_new v) (e.(re_validators) !! v).

Lemma tracked_new config v log today : jobs_of v log = 0 → tracked config v log today (ValidatorReputation_new v).
Proof.
  intros Hz. assert (∀ d, hits v d log = 0) as Hh by (intros d; pose proof (hits_le_jobs v d log); lia).
  constructor; cbn; try lia; try (intros; rewrite ?Hh; lia).
  - apply NoDup_nil_2.
  - intros d c Hin. by apply elem_of_nil in Hin.
  - intros d Hd. by rewrite Hh in Hd.
Qed.

Lemma state_tracked config log e v :
  engine_ok config log e → tracked config v log (day_of e.(re_current_slot)) (state_of e v).
Proof.
  intros [_ _ Hnone Hsome]. unfold state_of. destruct (e.(re_validators) !! v) eqn:Hv; cbn; [eauto|].
  apply tracked_new. eauto.
Qed.

(** The state [record_job] leaves when it accepts *)
Definition counted (job : ComputeJobRecord) (s : ValidatorReputation) : ValidatorReputation :=
  set_counters (s.(rv_window_jobs) ++ [job]) (s.(rv_total_jobs) + 1)
    (s.(rv_successful_jobs) + (if job.(rj_success) then 1 else 0))
    (s.(rv_failed_jobs) + (if job.(rj_success) then 0 else 1))
    (s.(rv_total_complexity) + job.(rj_complexity)) s.
Definition active_on (day : N) (s : ValidatorReputation) : ValidatorReputation :=
  set_activity (update_daily_count day s.(rv_daily_job_counts)) (update_active_streak s day) day s.
Definition scored (e : ReputationEngine) (s : ValidatorReputation) : ValidatorReputation :=
  let score := reputation_of e s e.(re_current_slot) in
  set_score score (smoothed e.(re_config) s.(rv_smoothed_score) score) e.(re_current_slot) s.
Definition job_recorded (e : ReputationEngine) (v : Address) (job : ComputeJobRecord) : ValidatorReputation :=
  scored e (active_on (day_of e.(re_current_slot)) (counted (clamp_complexity job) (state_of e v))).

Lemma put_twice v s s' e : put_validator v s (put_validator v s' e) = put_validator v s e.
Proof. unfold put_validator, set_validators. cbn. by rewrite insert_insert_eq. Qed.

Lemma count_job_run v job s e :
  s.(rv_successful_jobs) + s.(rv_failed_jobs) = s.(rv_total_jobs) → s.(rv_total_jobs) < U64_MAX →
  s.(rv_total_complexity) + job.(rj_complexity) <= U128_MAX →
  count_job v job s e = (Ok (counted job s), put_validator v (counted job s) e).
Proof.
  intros Hsplit Htot Hcomp. unfold count_job, counted.
  rewrite (u_add_ok _ s.(rv_total_jobs) 1), (u_add_ok _ s.(rv_total_complexity)) by lia.
  destruct (rj_success job); rewrite !u_add_ok by lia;
    unfold mbind, M_bind, modify, lift, mret, M_ret; cbn; rewrite !N.add_0_r, !put_twice; done.
Qed.

Lemma record_job_run config log e v job :
  engine_ok config log e → jobs_of v log < U64_MAX →
  (∃ err, record_job v job e = (Err err, e))
  ∨ (∃ err, record_job v job e = (Err err, put_validator v (state_of e v) e))
  ∨ (get_daily_count (state_of e v) (day_of e.(re_current_slot)) < config.(rc_max_jobs_per_day)
     ∧ ∃ u e', record_job v job e = (Ok u, e') ∧ u.(su_validator) = v
       ∧ e' = add_metrics 1 0 0 (put_validator v (job_recorded e v job) e)).
Proof.
  intros He Hn. pose proof (state_tracked _ _ _ v He) as Ht. destruct He as [Hc _ _ _].
  unfold record_job. rewrite bind_get. cbv zeta. fold (state_of e v).
  set (s := state_of e v) in *. set (today := day_of _) in *.
  assert (s.(rv_total_jobs) < U64_MAX) as Htot by (by rewrite (tk_total _ _ _ _ _ Ht)).
  pose proof (tk_split _ _ _ _ _ Ht) as Hsplit. pose proof (tk_complexity _ _ _ _ _ Ht) as Hcomp.
  assert ((clamp_complexity job).(rj_complexity) <= MAX_COMPLEXITY) as Hj by (cbn; lia).
  set (j := clamp_complexity job) in *. assert (MAX_COMPLEXITY = 1000000000000) as HM by done.
  assert (s.(rv_total_complexity) + j.(rj_complexity) <= U128_MAX) as Hcsum by nia.
  destruct (bool_decide (_ <= rj_complexity job)); [right|left; by eexists].
  rewrite Hc. destruct (bool_decide (get_daily_count s today < _)) eqn:Hlim; [right|left].
  - bool_facts. split; [done|]. do 2 eexists. split_and!.
    + unfold mbind, M_bind, modify, ensure, mret, M_ret. cbn -[count_job].
      rewrite (count_job_run v j s (put_validator v s e)) by (done || lia). reflexivity.
    + done.
    + rewrite !put_twice. unfold job_recorded, scored. fold s j today. by rewrite Hc.
  - unfold mbind, M_bind, modify, ensure, fail. cbn. by eexists.
Qed.

Lemma recorded_tracked config log e v job :
  config.(rc_max_jobs_per_day) <= U32_MAX → engine_ok config log e →
  get_daily_count (state_of e v) (day_of e.(re_current_slot)) < config.(rc_max_jobs_per_day) →
  tracked config v (log ++ [(v, day_of e.(re_current_slot))]) (day_of e.(re_current_slot)) (job_recorded e v job).
Proof.
  intros Hmax He Hlt. pose proof (state_tracked _ _ _ v He) as Ht.
  assert (day_of e.(re_current_slot) < U32_MAX) as Hday
    by (rewrite day_of_ok by apply He; apply (eo_slot _ _ _ He)).
  set (today := day_of _) in *. set (s := state_of e v) in *.
  destruct (counts_step _ _ _ _ _ Hmax Ht Hlt) as [Hd Hw Hc Hdr].
  pose proof (daily_count_exact _ _ _ _ _ Ht) as Hcount. rewrite Hcount in Hlt.
  destruct Ht as [Htot Hsplit Hcomp _ _ _ _ Hlimit _ Htoday Hstreak].
  assert (MAX_COMPLEXITY = 1000000000000) as HM by done.
  constructor; cbn; fold today s.
  - rewrite jobs_snoc, decide_True by done. lia.
  - destruct (rj_success job); lia.
  - nia.
  - apply reputation_capped.
  - done.
  - done.
  - done.
  - intros d. destruct (decide (d = today)) as [->|]; [rewrite hits_today; lia|by rewrite hits_other].
  - done.
  - done.
  - right. apply streak_step; [done|done|]. rewrite <- Htot. done.
Qed.

Lemma tracked_other config v log log' today s :
  (∀ d, hits v d log' = hits v d log) → jobs_of v log' = jobs_of v log →
  tracked config v log today s → tracked config v log' today s.
Proof.
  intros Hh Hj [? ? ? ? ? ? Hc Hl Hd ? Hs]. constructor; try done.
  - congruence.
  - intros d c Hin. rewrite Hh. by apply Hc.
  - intros d. rewrite Hh. apply Hl.
  - intros d. rewrite Hh. apply Hd.
  - destruct Hs as [?|[]]; [by left|right]. constructor; intros; rewrite ?Hh in *; eauto.
    destruct so_run0 as [? Hr]; [done|]. split; [done|]. intros i Hi. rewrite Hh. by apply Hr.
Qed.

Lemma tracked_later config v log today today' s :
  today <= today' → tracked config v log today s → tracked config v log today' s.
Proof.
  intros Hle [? ? ? ? ? ? Hc ? ? ? ?]. constructor; try done; [|lia].
  intros d c Hin. destruct (Hc d c Hin) as (? & ? & ?). split_and!; (done || lia).
Qed.

Lemma engine_put config log log' e v s :
  engine_ok config log e →
  (∀ v', v' ≠ v → jobs_of v' log' = jobs_of v' log ∧ ∀ d, hits v' d log' = hits v' d log) →
  tracked config v log' (day_of e.(re_current_slot)) s →
  engine_ok config log' (put_validator v s e).
Proof.
  intros [Hc Hslot Hnone Hsome] Hother Ht. constructor; [done|done|..]; cbn.
  - intros v' Hv'. apply lookup_insert_None in Hv' as [? ?]. rewrite (proj1 (Hother v' ltac:(done))). auto.
  - intros v' s'. rewrite lookup_insert_Some. intros [[<- <-]|[Hne Hl]]; [done|].
    destruct (Hother v' ltac:(done)). eauto using tracked_other.
Qed.

Lemma engine_fmap config log e (f : ValidatorReputation → ValidatorReputation) :
  (∀ v today s, tracked config v log today s → tracked config v log today (f s)) →
  engine_ok config log e → engine_ok config log (set_validators (f <$> e.(re_validators)) e).
Proof.
  intros Hf [Hc Hslot Hnone Hsome]. constructor; [done|done|..]; cbn.
  - intros v. rewrite lookup_fmap. destruct (e.(re_validators) !! v) eqn:?; [done|]. auto.
  - intros v s. rewrite lookup_fmap. intros (s0 & Hs0 & ->)%fmap_Some. eauto.
Qed.

Lemma engine_metrics config log e a b c : engine_ok config log e → engine_ok config log (add_metrics a b c e).
Proof. by intros []. Qed.

Lemma engine_slot config log e slot :
  e.(re_current_slot) <= slot → slot_ok slot → engine_ok config log e → engine_ok config log (update_slot slot e).
Proof.
  intros Hle Hok [Hc Hslot Hnone Hsome]. constructor; [done|done|done|]. cbn. intros v s Hs.
  apply (tracked_later _ _ _ (day_of e.(re_current_slot))); [by apply day_mono|auto].
Qed.

Lemma prune_tracked config log e slot v today s :
  tracked config v log today s → tracked config v log today (prune_window_jobs e slot s).
Proof. by intros []. Qed.
Lemma decay_tracked config log e slot v today s :
  tracked config v log today s → tracked config v log today (decayed e slot s).
Proof. intros []. constructor; try done. cbn. apply reputation_capped. Qed.

(** What a call of [record_job] does to a well-kept engine *)
Lemma record_job_kept config log e v job r e' :
  config.(rc_max_jobs_per_day) <= U32_MAX → engine_ok config log e → jobs_of v log < U64_MAX →
  record_job v job e = (r, e') →
  e'.(re_current_slot) = e.(re_current_slot)
  ∧ match r with
    | Ok u => u.(su_validator) = v ∧ engine_ok config (log ++ [entry_of e.(re_current_slot) u]) e'
    | Err _ => engine_ok config log e'
    | Panic | Blocked => False
    end.
Proof.
  intros Hmax He Hn Hrun.
  destruct (record_job_run config log e v job He Hn) as [[err Heq]|[[err Heq]|(Hlt & u & e1 & Heq & Hu & ->)]];
    rewrite Heq in Hrun; simplify_eq/=.
  - by split.
  - split; [done|]. apply (engine_put _ log); [done|done|]. by apply state_tracked.
  - split; [done|]. split; [done|]. apply engine_metrics. unfold entry_of.
    apply (engine_put _ log); [done| |by apply recorded_tracked].
    intros v' Hne. split; [|intros d]; [rewrite jobs_snoc|rewrite hits_snoc];
      destruct (decide _); naive_solver lia.
Qed.

Lemma jobs_le_length v log : jobs_of v log <= N.of_nat (length log).
Proof. unfold jobs_of. pose proof (length_filter (λ x : Address * N, x.1 = v) log). lia. Qed.

Lemma record_all_kept config log e results :
  config.(rc_max_jobs_per_day) <= U32_MAX → engine_ok config log e →
  N.of_nat (length log + length results) <= U64_MAX →
  ∃ us e', record_all results e = (Ok us, e') ∧ e'.(re_current_slot) = e.(re_current_slot)
    ∧ engine_ok config (log ++ (entry_of e.(re_current_slot) <$> us)) e'.
Proof.
  intros Hmax. revert log e. induction results as [|[v job] results IH]; intros log e He Hlen; cbn [record_all].
  - exists [], e. rewrite app_nil_r. done.
  - cbn [length] in Hlen. unfold mbind, M_bind. destruct (record_job v job e) as [r e1] eqn:Hr.
    pose proof (jobs_le_length v log).
    destruct (record_job_kept config log e v job r e1 Hmax He ltac:(lia) Hr) as [Hs1 Hk].
    destruct r as [u|err| |]; [destruct Hk as [_ Hk]| |done..].
    + destruct (IH _ _ Hk) as (us & e2 & Hall & Hs2 & Hk2); [rewrite length_app; cbn; lia|].
      rewrite Hall. exists (u :: us), e2. rewrite Hs1 in *. split_and!; [done..|]. by rewrite <- app_assoc in Hk2.
    + destruct (IH _ _ Hk) as (us & e2 & Hall & Hs2 & Hk2); [lia|]. rewrite Hall. exists us, e2. rewrite Hs1 in *. done.
Qed.

(** An accepted block leaves the jobs of its updates in the log. *)
Lemma block_kept config log e slot results :
  config.(rc_max_jobs_per_day) <= U32_MAX → engine_ok config log e →
  e.(re_current_slot) <= slot → slot_ok slot → N.of_nat (length log + length results) <= U64_MAX →
  ∃ us e', process_block_results slot results e = (Ok us, e')
    ∧ engine_ok config (log ++ (entry_of slot <$> us)) e'.
Proof.
  intros Hmax He Hle Hok Hlen. unfold process_block_results, mbind, M_bind, modify, mret, M_ret.
  destruct (record_all_kept config log (update_slot slot e) results Hmax) as (us & e' & Hall & Hs & Hk);
    [by apply engine_slot|done|].
  cbn in Hk. rewrite Hall. do 2 eexists. split; [done|].
  apply engine_metrics, engine_fmap; [|done]. intros. by apply prune_tracked.
Qed.

(** The number of jobs accepted stays far below what a [u64] counts. *)
Abbreviation short log := (N.of_nat (length log) < 2 ^ 63).

Lemma reached_ok config log e :
  config.(rc_max_jobs_per_day) <= U32_MAX → reached config log e → short log → engine_ok config log e.
Proof.
  intros Hmax. induction 1 as [|log e slot _ IH Hle Hok|log e v job u e' _ IH Hrun|log e v job err e' _ IH Hrun
    |log e slot results us e' _ IH Hle Hok Hres Hrun|log e slot _ IH]; intros Hlen.
  - constructor; cbn; [done|by vm_compute|done|]. intros v s Hs. by rewrite lookup_empty in Hs.
  - by apply engine_slot; auto.
  - rewrite length_app in Hlen. pose proof (jobs_le_length v log).
    assert (engine_ok config log e) as He by (apply IH; lia).
    by destruct (record_job_kept config log e v job (Ok u) e' Hmax He ltac:(lia) Hrun) as [_ [_ ?]].
  - pose proof (jobs_le_length v log).
    by destruct (record_job_kept config log e v job (Err err) e' Hmax (IH Hlen) ltac:(lia) Hrun) as [_ ?].
  - rewrite length_app in Hlen.
    destruct (block_kept config log e slot results Hmax) as (us' & e1 & Heq & Hk); [apply IH; lia|done|done|lia|].
    rewrite Heq in Hrun. by simplify_eq.
  - apply engine_metrics, engine_fmap; [|auto]. intros. by apply decay_tracked.
Qed.

(** C37: along every history of slots that do not go back, all before day [2^32 - 1] (a slot
    belongs to the day of its number divided by 14400), with fewer than [2^63] jobs accepted
    and blocks of fewer than [2^32] results, whatever jobs are offered: a validator never gets
    more jobs of one day accepted than the daily limit, its counters are the numbers of its
    accepted jobs, its score is at most [MAX_SCORE + 4] (the source's [MAX_SCORE], as it is
    rounded to a float), its streak is the number of consecutive active days (day zero apart)
    up to its last one, and neither recording a job nor a block panics, in any build. *)
Theorem reputation_sound config log e v :
  config.(rc_max_jobs_per_day) <= U32_MAX → reached config log e → short log →
  (let s := state_of e v in
   s.(rv_total_jobs) = jobs_of v log ∧ s.(rv_successful_jobs) + s.(rv_failed_jobs) = s.(rv_total_jobs)
   ∧ s.(rv_current_score) <= MAX_REPUTATION_SCORE + 4
   ∧ (jobs_of v log ≠ 0 → streak_ok v log s.(rv_last_active_day) s.(rv_active_streak)))
  ∧ (∀ d, hits v d log <= config.(rc_max_jobs_per_day))
  ∧ (∀ job, (record_job v job e).1 ≠ Panic ∧ (record_job v job e).1 ≠ Blocked)
  ∧ (∀ slot results, e.(re_current_slot) <= slot → slot_ok slot → N.of_nat (length results) <= U32_MAX →
     ∃ us e', process_block_results slot results e = (Ok us, e')).
Proof.
  intros Hmax Hr Hlen. pose proof (reached_ok _ _ _ Hmax Hr Hlen) as He.
  destruct (state_tracked _ _ _ v He) as [Htot Hsplit _ Hscore _ _ _ Hlimit _ _ Hstreak].
  pose proof (jobs_le_length v log). split_and!; try done.
  - cbv zeta. split_and!; [done..|]. intros Hn. destruct Hstreak as [[Hz _]|]; [lia|done].
  - intros job. destruct (record_job v job e) as [r e'] eqn:Hrun.
    destruct (record_job_kept config log e v job r e' Hmax He ltac:(lia) Hrun) as [_ Hk]. by destruct r.
  - intros slot results Hle Hok Hres.
    destruct (block_kept config log e slot results Hmax He Hle Hok) as (us & e' & ? & _); [lia|eauto].
Qed.

(** ** Decay *)
Lemma drop_before_twice slot jobs : drop_before slot (drop_before slot jobs) = drop_before slot jobs.
Proof.
  induction jobs as [|j jobs IH]; [done|]. cbn [drop_before]. case_bool_decide; [done|].
  cbn [drop_before]. by rewrite bool_decide_false.
Qed.

Lemma decayed_twice e slot s :
  decayed (apply_daily_decay slot e).2 slot (decayed e slot s) = decayed e slot s.
Proof. unfold decayed, prune_window_jobs. cbn. unfold set_score, set_counters. cbn. by rewrite drop_before_twice. Qed.

(** Decaying twice in a slot is decaying once: the second call reports no change and
    leaves every validator as it is. *)
Theorem decay_settles e slot :
  let e1 := (apply_daily_decay slot e).2 in
  (apply_daily_decay slot e1).1 = []
  ∧ (apply_daily_decay slot e1).2.(re_validators) = e1.(re_validators).
Proof.
  cbv zeta. set (e1 := (apply_daily_decay slot e).2).
  assert (∀ v s, e1.(re_validators) !! v = Some s → decayed e1 slot s = s) as Hfix.
  { intros v s. cbn. rewrite lookup_fmap. intros (s0 & _ & ->)%fmap_Some. apply decayed_twice. }
  split.
  - cbn [apply_daily_decay fst]. assert (∀ l, (∀ v s, (v, s) ∈ l → decayed e1 slot s = s) →
      omap (decay_update e1 slot) l = []) as Hnil.
    { induction l as [|[v s] l IH]; intros Hl; [done|]. cbn [omap list_omap].
      assert (decay_update e1 slot (v, s) = None) as ->.
      { unfold decay_update. rewrite (Hl v s) by left. by rewrite bool_decide_true. }
      apply IH. intros. eapply Hl. by right. }
    apply Hnil. intros v s Hin%elem_of_map_to_list. eauto.
  - cbn [apply_daily_decay snd add_metrics re_validators set_validators]. apply map_eq. intros v.
    rewrite lookup_fmap. destruct (e1.(re_validators) !! v) as [s|] eqn:Hs; [|done]. cbn. f_equal. eauto.
Qed.

(** A job in its last partial day counts for the score but is pruned. *)
Lemma window_edge e slot job :
  e.(re_config).(rc_window_days) * SLOTS_PER_DAY < slot - job.(rj_verified_at_slot)
    < (e.(re_config).(rc_window_days) + 1) * SLOTS_PER_DAY →
  e.(re_config).(rc_window_days) <= U32_MAX → job.(rj_verified_at_slot) <= slot →
  contribution e slot job ≠ None
  ∧ drop_before (sat_sub slot (e.(re_config).(rc_window_days) * SLOTS_PER_DAY)) [job] = [].
Proof.
  set (w := e.(re_config).(rc_window_days)). intros [Hlo Hhi] Hw Hle. split.
  - unfold contribution. fold w. rewrite bool_decide_false; [done|]. unfold age_days.
    rewrite bool_decide_false by lia. unfold cast.
    assert ((slot - rj_verified_at_slot job) / SLOTS_PER_DAY = w) as ->.
    { symmetry. apply (N.div_unique _ _ _ (slot - rj_verified_at_slot job - w * SLOTS_PER_DAY)); lia. }
    rewrite N.mod_small; lia.
  - cbn. unfold sat_sub. rewrite bool_decide_true; [done|]. lia.
Qed.
End history.

(** ** A run on concrete inputs *)
Definition sample_job : ComputeJobRecord :=
  ComputeJobRecord_new (bytes32 1) (bytes32 2) (bytes32 3) (bytes32 4) 5000 TZkProof 14400 true.
Definition second_day : ReputationEngine :=
  update_slot 14400 (@ReputationEngine_new cn_env ReputationConfig_devnet).
Definition sample_recorded : ReputationEngine :=
  final (@record_job cn_build peer_address sample_job second_day).

Lemma sample_accepted : ∃ u, @record_job cn_build peer_address sample_job second_day = (Ok u, sample_recorded)
  ∧ u.(su_validator) = peer_address ∧ u.(su_new_score) = 7575.
Proof. eexists. split; [vm_compute; reflexivity|by vm_compute]. Qed.

(** On the last day of 32 bits a second job of the day counts as another day of the streak. *)
Definition last_day_engine : ReputationEngine :=
  update_slot (U32_MAX * SLOTS_PER_DAY) (@ReputationEngine_new cn_env ReputationConfig_devnet).
Definition late_job (k : N) : ComputeJobRecord :=
  ComputeJobRecord_new (bytes32 k) (bytes32 2) (bytes32 3) (bytes32 4) 5000 TZkProof (U32_MAX * SLOTS_PER_DAY) true.
Lemma last_day_streak :
  let e1 := final (@record_job cn_build peer_address (late_job 1) last_day_engine) in
  let e2 := final (@record_job cn_build peer_address (late_job 2) e1) in
  (state_of e1 peer_address).(rv_active_streak) = 1 ∧ (state_of e2 peer_address).(rv_active_streak) = 2.
Proof. split; vm_compute; reflexivity. Qed.

Lemma sample_reached :
  @reached cn_build cn_env ReputationConfig_devnet [(peer_address, 1)] sample_recorded.
Proof.
  destruct sample_accepted as (u & Hrun & Hu & _).
  assert (entry_of 14400 u = (peer_address, 1)) as <- by (unfold entry_of; by rewrite Hu).
  apply (reached_job _ [] second_day peer_address sample_job); [|done].
  apply reached_slot; [apply reached_new|done|done].
Qed.

Lemma reputation_sound_witness :
  (state_of sample_recorded peer_address).(rv_total_jobs) = jobs_of peer_address [(peer_address, 1)]
  ∧ (∀ d, hits peer_address d [(peer_address, 1)] <= U32_MAX)
  ∧ ∃ us e', @process_block_results cn_build 28800 [(peer_address, sample_job)] sample_recorded = (Ok us, e').
Proof.
  destruct (@reputation_sound cn_build cn_env ReputationConfig_devnet [(peer_address, 1)] sample_recorded peer_address)
    as ((Ht & _) & Hlimit & _ & Hblock); [discriminate|exact sample_reached|reflexivity|].
  split; [exact Ht|]. split; [exact Hlimit|]. apply Hblock; [discriminate|reflexivity|discriminate].
Defined.
