(* ===== verification/Governance.v ===== *)
(** * Bicameral governance

    [crates/core/src/pillars/bicameral_governance.rs]: the house of token holders, where
    proposals are made, voted on and finalised, the house of sovereign members, which can
    veto them, and the rule that brings both together.  A vote and a proposal of the
    second house read the machine's clock: the reading is an argument, [None] when the
    clock stands before 1970, which makes [duration_since(..).unwrap()] panic. *)
From S2P Require Import Prelude SysTypes F64 ConsensusTypes.
From stdpp Require Import base gmap list strings pretty.
From Stdlib Require Import ZArith Lia SpecFloat.
#[local] Open Scope N_scope.

Abbreviation Key := (list N).

Definition F0_04 : f64 := f64_lit 5764607523034235 (-57).
Definition F0_10 : f64 := f64_lit 7205759403792794 (-56).
Definition F0_51 : f64 := f64_lit 4593671619917906 (-53).
Definition F0_67 : f64 := f64_lit 6034823500676465 (-53).
Definition F1000_0 : f64 := f64_lit 8796093022208000 (-43).

(** [x.sqrt()], correctly rounded. *)
Definition f64_sqrt : f64 → f64 := SFsqrt 53 1024.

(** ** Roles *)
Inductive EntityType :=
| FinancialInstitution (license_type regulator : string)
| HealthcareProvider (accreditation : string)
| Government (department : string)
| TechnologyCompany (specialization : string)
| ResearchInstitution (focus_area : string)
| ValidatorOperator (nodes_operated : N).

Inductive Jurisdiction :=
| UAE | Singapore | Switzerland | UK | EU | USA | Japan | HongKong | International.

Inductive VerificationStatus :=
| VerificationPending
| VerificationVerified (verified_at : N) (verifier : string) (valid_until : N)
| VerificationExpired
| VerificationSuspended (reason : string) (suspended_at : N).

Record SovereignEntity := {
  se_entity_id : Key;
  se_name : string;
  se_entity_type : EntityType;
  se_jurisdiction : Jurisdiction;
  se_verification : VerificationStatus;
  se_voting_key : Key;
  se_joined_at : N;
  se_stake : N;
}.

(** ** Errors *)
Inductive GovernanceError :=
| NotAHolder
| NotASenator
| InsufficientVotingPower (required actual : N)
| InsufficientMemberStake (required actual : N)
| ProposalNotFound
| VotingNotStarted
| VotingEnded
| VotingNotEnded
| AlreadyVoted
| NotAuthorized
| InvalidProposal (msg : string).

Definition GovernanceError_to_string (e : GovernanceError) : string :=
  match e with
  | NotAHolder => "Address is not a token holder"
  | NotASenator => "Address is not a Senate member"
  | InsufficientVotingPower required actual =>
      "Insufficient voting power: " +:+ pretty required +:+ " required, " +:+ pretty actual +:+ " actual"
  | InsufficientMemberStake required actual =>
      "Insufficient stake: " +:+ pretty required +:+ " required, " +:+ pretty actual +:+ " actual"
  | ProposalNotFound => "Proposal not found"
  | VotingNotStarted => "Voting has not started"
  | VotingEnded => "Voting has ended"
  | VotingNotEnded => "Voting has not ended"
  | AlreadyVoted => "Already voted on this proposal"
  | NotAuthorized => "Not authorized for this action"
  | InvalidProposal msg => "Invalid proposal: " +:+ msg
  end.

(** [SystemTime::now().duration_since(UNIX_EPOCH).unwrap().as_secs()] *)
Definition unix_secs (now : option N) : outcome GovernanceError N :=
  match now with Some t => Ok t | None => Panic end.

(** ** The house of tokens *)
Record TokenHolderInfo := {
  th_address : Key;
  th_balance : N;
  th_staked : N;
  th_voting_power : N;
  th_delegated_to : option Key;
  th_last_vote : option N;
}.

Record CommonsConfig := {
  cc_proposal_threshold : N;
  cc_quorum_percentage : f64;
  cc_voting_period_blocks : N;
  cc_timelock_blocks : N;
  cc_quadratic_voting : bool;
  cc_max_voting_power_percentage : f64;
}.

Definition CommonsConfig_default : CommonsConfig := {|
  cc_proposal_threshold := 10000 * 10 ^ 18; cc_quorum_percentage := F0_04;
  cc_voting_period_blocks := 50400; cc_timelock_blocks := 14400;
  cc_quadratic_voting := true; cc_max_voting_power_percentage := F0_10 |}.

Inductive CommonsProposalType :=
| FeeParameter (parameter old_value new_value : string)
| BurnParameter (parameter old_value new_value : string)
| TreasurySpend (recipient : Key) (amount : N) (purpose : string)
| InflationChange (old_rate new_rate : f64)
| Signal (topic : string).

Inductive VoteChoice := For | Against | Abstain.
#[export] Instance VoteChoice_eq_dec : EqDecision VoteChoice.
Proof. solve_decision. Defined.

Record Vote := {
  vt_voter : Key;
  vt_voting_power : N;
  vt_choice : VoteChoice;
  vt_timestamp : N;
  vt_reason : option string;
}.

Inductive ProposalStatus :=
| Pending | Active | Passed | Failed | Vetoed | Queued | Executed | Cancelled | Expired.
#[export] Instance ProposalStatus_eq_dec : EqDecision ProposalStatus.
Proof. solve_decision. Defined.

Record CommonsProposal := {
  cp_id : N;
  cp_proposer : Key;
  cp_proposal_type : CommonsProposalType;
  cp_title : string;
  cp_description : string;
  cp_payload : list N;
  cp_created_at_block : N;
  cp_voting_start_block : N;
  cp_voting_end_block : N;
  cp_votes_for : N;
  cp_votes_against : N;
  cp_abstentions : N;
  cp_votes : gmap Key Vote;
  cp_status : ProposalStatus;
}.

Record VotingRecord := {
  vr_proposal_id : N;
  vr_passed : bool;
  vr_votes_for : N;
  vr_votes_against : N;
  vr_quorum_reached : bool;
  vr_vetoed : bool;
  vr_executed : bool;
  vr_finalized_at : N;
}.

Record HouseOfTokens := {
  ht_holders : gmap Key TokenHolderInfo;
  ht_delegations : gmap Key Key;
  ht_proposals : gmap N CommonsProposal;
  ht_config : CommonsConfig;
  ht_voting_history : list VotingRecord;
}.

Definition HouseOfTokens_new (config : CommonsConfig) : HouseOfTokens := {|
  ht_holders := ∅; ht_delegations := ∅; ht_proposals := ∅; ht_config := config;
  ht_voting_history := [] |}.

Definition put_proposal (id : N) (p : CommonsProposal) (h : HouseOfTokens) : HouseOfTokens := {|
  ht_holders := h.(ht_holders); ht_delegations := h.(ht_delegations);
  ht_proposals := <[id := p]> h.(ht_proposals); ht_config := h.(ht_config);
  ht_voting_history := h.(ht_voting_history) |}.

Definition set_tally (for_ against abstentions : N) (p : CommonsProposal) : CommonsProposal := {|
  cp_id := p.(cp_id); cp_proposer := p.(cp_proposer); cp_proposal_type := p.(cp_proposal_type);
  cp_title := p.(cp_title); cp_description := p.(cp_description); cp_payload := p.(cp_payload);
  cp_created_at_block := p.(cp_created_at_block); cp_voting_start_block := p.(cp_voting_start_block);
  cp_voting_end_block := p.(cp_voting_end_block); cp_votes_for := for_; cp_votes_against := against;
  cp_abstentions := abstentions; cp_votes := p.(cp_votes); cp_status := p.(cp_status) |}.

Definition set_votes (votes : gmap Key Vote) (p : CommonsProposal) : CommonsProposal := {|
  cp_id := p.(cp_id); cp_proposer := p.(cp_proposer); cp_proposal_type := p.(cp_proposal_type);
  cp_title := p.(cp_title); cp_description := p.(cp_description); cp_payload := p.(cp_payload);
  cp_created_at_block := p.(cp_created_at_block); cp_voting_start_block := p.(cp_voting_start_block);
  cp_voting_end_block := p.(cp_voting_end_block); cp_votes_for := p.(cp_votes_for);
  cp_votes_against := p.(cp_votes_against); cp_abstentions := p.(cp_abstentions);
  cp_votes := votes; cp_status := p.(cp_status) |}.

Definition set_proposal_status (status : ProposalStatus) (p : CommonsProposal) : CommonsProposal := {|
  cp_id := p.(cp_id); cp_proposer := p.(cp_proposer); cp_proposal_type := p.(cp_proposal_type);
  cp_title := p.(cp_title); cp_description := p.(cp_description); cp_payload := p.(cp_payload);
  cp_created_at_block := p.(cp_created_at_block); cp_voting_start_block := p.(cp_voting_start_block);
  cp_voting_end_block := p.(cp_voting_end_block); cp_votes_for := p.(cp_votes_for);
  cp_votes_against := p.(cp_votes_against); cp_abstentions := p.(cp_abstentions);
  cp_votes := p.(cp_votes); cp_status := status |}.

Definition calculate_voting_power (h : HouseOfTokens) (balance : N) : N :=
  if h.(ht_config).(cc_quadratic_voting)
  then f64_as U128_MAX (f64_mul (f64_sqrt (f64_of_N balance)) F1000_0)
  else balance.

Section commons.
Context `{Build}.

(** [holders.values().map(|h| h.balance + h.staked).sum()] *)
Fixpoint supply_from (holders : list TokenHolderInfo) (acc : N) : outcome GovernanceError N :=
  match holders with
  | [] => Ok acc
  | h :: holders =>
      tokens ← u_add U128_MAX h.(th_balance) h.(th_staked);
      acc ← u_add U128_MAX acc tokens;
      supply_from holders acc
  end.

Definition total_supply (h : HouseOfTokens) : outcome GovernanceError N :=
  supply_from (map_to_list h.(ht_holders)).*2 0.

Definition create_proposal (proposer : Key) (proposal_type : CommonsProposalType)
  (title description : string) (payload : list N) (current_block : N)
  : M GovernanceError HouseOfTokens N :=
  h ← get;
  holder ← ok_or (h.(ht_holders) !! proposer) NotAHolder;
  ensure (negb (bool_decide (holder.(th_voting_power) < h.(ht_config).(cc_proposal_threshold))))
    (InsufficientVotingPower h.(ht_config).(cc_proposal_threshold) holder.(th_voting_power)) ;;
  proposal_id ← lift (u_add U64_MAX (cast U64_MAX (N.of_nat (size h.(ht_proposals)))) 1);
  voting_start ← lift (u_add U64_MAX current_block 1);
  voting_end ← lift (u_add U64_MAX voting_start h.(ht_config).(cc_voting_period_blocks));
  modify (put_proposal proposal_id {|
    cp_id := proposal_id; cp_proposer := proposer; cp_proposal_type := proposal_type;
    cp_title := title; cp_description := description; cp_payload := payload;
    cp_created_at_block := current_block; cp_voting_start_block := voting_start;
    cp_voting_end_block := voting_end; cp_votes_for := 0; cp_votes_against := 0;
    cp_abstentions := 0; cp_votes := ∅; cp_status := Pending |}) ;;
  mret proposal_id.

(** The power of a holder's vote, under the cap. *)
Definition effective_power (h : HouseOfTokens) (voter : Key) : outcome GovernanceError N :=
  match h.(ht_holders) !! voter with
  | None => Err NotAHolder
  | Some holder =>
      holder_total ← u_add U128_MAX holder.(th_balance) holder.(th_staked);
      let voting_power := calculate_voting_power h holder_total in
      supply ← total_supply h;
      let max_power :=
        f64_as U128_MAX (f64_mul (f64_of_N supply) h.(ht_config).(cc_max_voting_power_percentage)) in
      Ok (N.min voting_power max_power)
  end.

(** [votes_for += power], or the counter of another choice. *)
Definition add_power (choice : VoteChoice) (power : N) (p : CommonsProposal)
  : outcome GovernanceError CommonsProposal :=
  match choice with
  | For => n ← u_add U128_MAX p.(cp_votes_for) power; Ok (set_tally n p.(cp_votes_against) p.(cp_abstentions) p)
  | Against => n ← u_add U128_MAX p.(cp_votes_against) power; Ok (set_tally p.(cp_votes_for) n p.(cp_abstentions) p)
  | Abstain => n ← u_add U128_MAX p.(cp_abstentions) power; Ok (set_tally p.(cp_votes_for) p.(cp_votes_against) n p)
  end.

Definition vote (proposal_id : N) (voter : Key) (choice : VoteChoice) (current_block : N)
  (reason : option string) (now : option N) : M GovernanceError HouseOfTokens unit :=
  h ← get;
  proposal ← ok_or (h.(ht_proposals) !! proposal_id) ProposalNotFound;
  ensure (negb (bool_decide (current_block < proposal.(cp_voting_start_block)))) VotingNotStarted ;;
  ensure (negb (bool_decide (proposal.(cp_voting_end_block) < current_block))) VotingEnded ;;
  ensure (negb (bool_decide (is_Some (proposal.(cp_votes) !! voter)))) AlreadyVoted ;;
  power ← lift (effective_power h voter);
  timestamp ← lift (unix_secs now);
  let v := {| vt_voter := voter; vt_voting_power := power; vt_choice := choice;
              vt_timestamp := timestamp; vt_reason := reason |} in
  proposal ← lift (add_power choice power proposal);
  modify (put_proposal proposal_id (set_votes (<[voter := v]> proposal.(cp_votes)) proposal)).

Definition finalize (proposal_id current_block : N) : M GovernanceError HouseOfTokens ProposalStatus :=
  h ← get;
  proposal ← ok_or (h.(ht_proposals) !! proposal_id) ProposalNotFound;
  ensure (negb (bool_decide (current_block <= proposal.(cp_voting_end_block)))) VotingNotEnded ;;
  supply ← lift (total_supply h);
  let quorum := f64_as U128_MAX (f64_mul (f64_of_N supply) h.(ht_config).(cc_quorum_percentage)) in
  cast_votes ← lift (u_add U128_MAX proposal.(cp_votes_for) proposal.(cp_votes_against));
  total_votes ← lift (u_add U128_MAX cast_votes proposal.(cp_abstentions));
  let quorum_reached := bool_decide (quorum <= total_votes) in
  let passed := quorum_reached && bool_decide (proposal.(cp_votes_against) < proposal.(cp_votes_for)) in
  let status := if passed then Passed else Failed in
  modify (put_proposal proposal_id (set_proposal_status status proposal)) ;;
  mret status.
End commons.

(** ** The house of sovereigns *)
Inductive SeatType := Founding | Elected | Observer | Technical.

Record SeatInfo := {
  st_seat_id : N;
  st_seat_type : SeatType;
  st_term_expires : N;
  st_removable : bool;
}.

Record SenateVotingRecord := {
  sv_total_votes : N;
  sv_vetoes_cast : N;
  sv_security_proposals_passed : N;
  sv_last_active : N;
}.

Definition SenateVotingRecord_default : SenateVotingRecord := {|
  sv_total_votes := 0; sv_vetoes_cast := 0; sv_security_proposals_passed := 0; sv_last_active := 0 |}.

Record SenateMember := {
  sm_entity : SovereignEntity;
  sm_seat : SeatInfo;
  sm_voting_record : SenateVotingRecord;
}.

(** Participants of either house. *)
Inductive GovernanceRole :=
| TokenHolder (address : Key) (voting_power : N)
| Sovereign (entity : SovereignEntity) (seat_id : N)
| Delegate (address : Key) (delegators : list Key) (total_delegated_power : N).

Record SenateConfig := {
  sc_veto_threshold : f64;
  sc_security_threshold : f64;
  sc_member_addition_threshold : f64;
  sc_max_term_length : N;
  sc_min_stake : N;
}.

Definition SenateConfig_default : SenateConfig := {|
  sc_veto_threshold := F0_51; sc_security_threshold := F0_67; sc_member_addition_threshold := F0_67;
  sc_max_term_length := 2 * 365 * 24 * 3600; sc_min_stake := 100000 * 10 ^ 18 |}.

Inductive VetoCategory := Security | RegulatoryCompliance | TechnicalConcern | Economic | Process.

Inductive VetoStatus := VetoPending | VetoPassed | VetoFailed | VetoExpired.
#[export] Instance VetoStatus_eq_dec : EqDecision VetoStatus.
Proof. solve_decision. Defined.

Record VetoProposal := {
  vp_id : N;
  vp_target_proposal_id : N;
  vp_initiator : Key;
  vp_reason : string;
  vp_veto_category : VetoCategory;
  vp_votes : gmap Key bool;
  vp_status : VetoStatus;
  vp_created_at : N;
  vp_expires_at : N;
}.

(** A [Duration] is its seconds and nanoseconds. *)
Inductive SecurityProposalType :=
| EmergencyPause (duration : N * N) (affected_modules : list string)
| ValidatorSetChange (additions removals : list Key)
| SecurityUpgrade (description : string) (upgrade_hash : Key)
| ComplianceModuleChange (module_name action : string)
| TEEPolicy (policy : string)
| EmergencyFundRelease (amount : N) (recipient : Key) (reason : string).

Record SecurityProposal := {
  sp_id : N;
  sp_proposer : Key;
  sp_proposal_type : SecurityProposalType;
  sp_title : string;
  sp_description : string;
  sp_payload : list N;
  sp_votes : gmap Key bool;
  sp_status : ProposalStatus;
  sp_created_at : N;
  sp_voting_deadline : N;
}.

Record HouseOfSovereigns := {
  hs_members : gmap Key SenateMember;
  hs_min_members : N;
  hs_max_members : N;
  hs_veto_proposals : gmap N VetoProposal;
  hs_security_proposals : gmap N SecurityProposal;
  hs_config : SenateConfig;
}.

Definition HouseOfSovereigns_new (config : SenateConfig) : HouseOfSovereigns := {|
  hs_members := ∅; hs_min_members := 5; hs_max_members := 21; hs_veto_proposals := ∅;
  hs_security_proposals := ∅; hs_config := config |}.

Definition put_member (id : Key) (m : SenateMember) (s : HouseOfSovereigns) : HouseOfSovereigns := {|
  hs_members := <[id := m]> s.(hs_members); hs_min_members := s.(hs_min_members);
  hs_max_members := s.(hs_max_members); hs_veto_proposals := s.(hs_veto_proposals);
  hs_security_proposals := s.(hs_security_proposals); hs_config := s.(hs_config) |}.

Definition put_veto (id : N) (v : VetoProposal) (s : HouseOfSovereigns) : HouseOfSovereigns := {|
  hs_members := s.(hs_members); hs_min_members := s.(hs_min_members);
  hs_max_members := s.(hs_max_members); hs_veto_proposals := <[id := v]> s.(hs_veto_proposals);
  hs_security_proposals := s.(hs_security_proposals); hs_config := s.(hs_config) |}.

Definition put_security (id : N) (p : SecurityProposal) (s : HouseOfSovereigns) : HouseOfSovereigns := {|
  hs_members := s.(hs_members); hs_min_members := s.(hs_min_members);
  hs_max_members := s.(hs_max_members); hs_veto_proposals := s.(hs_veto_proposals);
  hs_security_proposals := <[id := p]> s.(hs_security_proposals); hs_config := s.(hs_config) |}.

Definition set_veto (votes : gmap Key bool) (status : VetoStatus) (v : VetoProposal) : VetoProposal := {|
  vp_id := v.(vp_id); vp_target_proposal_id := v.(vp_target_proposal_id);
  vp_initiator := v.(vp_initiator); vp_reason := v.(vp_reason);
  vp_veto_category := v.(vp_veto_category); vp_votes := votes; vp_status := status;
  vp_created_at := v.(vp_created_at); vp_expires_at := v.(vp_expires_at) |}.

Definition member_count (s : HouseOfSovereigns) : N := N.of_nat (size s.(hs_members)).

(** [votes.values().filter(|&&v| v).count()] *)
Definition support_count (votes : gmap Key bool) : N := map_sum (λ b : bool, if b then 1 else 0) votes.

(** [(total_members as f64 * veto_threshold) as usize] *)
Definition veto_threshold_of (config : SenateConfig) (total_members : N) : N :=
  f64_as U64_MAX (f64_mul (f64_of_N total_members) config.(sc_veto_threshold)).

Section senate.
Context `{Build}.

Definition add_founding_member (entity : SovereignEntity) : M GovernanceError HouseOfSovereigns N :=
  s ← get;
  ensure (negb (bool_decide (entity.(se_stake) < s.(hs_config).(sc_min_stake))))
    (InsufficientMemberStake s.(hs_config).(sc_min_stake) entity.(se_stake)) ;;
  seat_id ← lift (u_add U64_MAX (cast U64_MAX (member_count s)) 1);
  modify (put_member entity.(se_entity_id) {|
    sm_entity := entity;
    sm_seat := {| st_seat_id := seat_id; st_seat_type := Founding; st_term_expires := U64_MAX;
                  st_removable := false |};
    sm_voting_record := SenateVotingRecord_default |}) ;;
  mret seat_id.

Definition initiate_veto (initiator : Key) (target_proposal_id : N) (reason : string)
  (category : VetoCategory) (now : option N) : M GovernanceError HouseOfSovereigns N :=
  s ← get;
  ensure (bool_decide (is_Some (s.(hs_members) !! initiator))) NotASenator ;;
  veto_id ← lift (u_add U64_MAX (cast U64_MAX (N.of_nat (size s.(hs_veto_proposals)))) 1);
  now ← lift (unix_secs now);
  expires_at ← lift (u_add U64_MAX now (7 * 24 * 3600));
  modify (put_veto veto_id {|
    vp_id := veto_id; vp_target_proposal_id := target_proposal_id; vp_initiator := initiator;
    vp_reason := reason; vp_veto_category := category; vp_votes := ∅; vp_status := VetoPending;
    vp_created_at := now; vp_expires_at := expires_at |}) ;;
  mret veto_id.

Definition vote_on_veto (veto_id : N) (voter : Key) (support_veto : bool)
  : M GovernanceError HouseOfSovereigns unit :=
  s ← get;
  ensure (bool_decide (is_Some (s.(hs_members) !! voter))) NotASenator ;;
  veto ← ok_or (s.(hs_veto_proposals) !! veto_id) ProposalNotFound;
  ensure (negb (bool_decide (is_Some (veto.(vp_votes) !! voter)))) AlreadyVoted ;;
  let votes := <[voter := support_veto]> veto.(vp_votes) in
  let threshold := veto_threshold_of s.(hs_config) (member_count s) in
  let status := if bool_decide (threshold <= support_count votes) then VetoPassed else veto.(vp_status) in
  modify (put_veto veto_id (set_veto votes status veto)).

Definition create_security_proposal (proposer : Key) (proposal_type : SecurityProposalType)
  (title description : string) (payload : list N) (now : option N)
  : M GovernanceError HouseOfSovereigns N :=
  s ← get;
  ensure (bool_decide (is_Some (s.(hs_members) !! proposer))) NotASenator ;;
  proposal_id ← lift (u_add U64_MAX (cast U64_MAX (N.of_nat (size s.(hs_security_proposals)))) 1);
  now ← lift (unix_secs now);
  voting_deadline ← lift (u_add U64_MAX now (3 * 24 * 3600));
  modify (put_security proposal_id {|
    sp_id := proposal_id; sp_proposer := proposer; sp_proposal_type := proposal_type;
    sp_title := title; sp_description := description; sp_payload := payload; sp_votes := ∅;
    sp_status := Active; sp_created_at := now; sp_voting_deadline := voting_deadline |}) ;;
  mret proposal_id.
End senate.

(** ** Both houses *)
Record Treasury := { tr_balance : N; tr_reserved : N; tr_emergency_fund : N }.

Record BicameralGovernance := {
  bg_commons : HouseOfTokens;
  bg_senate : HouseOfSovereigns;
  bg_treasury : Treasury;
  bg_next_proposal_id : N;
}.

Definition BicameralGovernance_new : BicameralGovernance := {|
  bg_commons := HouseOfTokens_new CommonsConfig_default;
  bg_senate := HouseOfSovereigns_new SenateConfig_default;
  bg_treasury := {| tr_balance := 0; tr_reserved := 0; tr_emergency_fund := 0 |};
  bg_next_proposal_id := 0 |}.

Definition vetoes (proposal_id : N) (v : VetoProposal) : bool :=
  bool_decide (v.(vp_target_proposal_id) = proposal_id) && bool_decide (v.(vp_status) = VetoPassed).

Definition can_execute (g : BicameralGovernance) (proposal_id : N) : outcome GovernanceError bool :=
  match g.(bg_commons).(ht_proposals) !! proposal_id with
  | None => Err ProposalNotFound
  | Some proposal =>
      if negb (bool_decide (proposal.(cp_status) = Passed)) then Ok false
      else Ok (negb (existsb (vetoes proposal_id) (map_to_list g.(bg_senate).(hs_veto_proposals)).*2))
  end.

Definition set_commons (h : HouseOfTokens) (g : BicameralGovernance) : BicameralGovernance := {|
  bg_commons := h; bg_senate := g.(bg_senate); bg_treasury := g.(bg_treasury);
  bg_next_proposal_id := g.(bg_next_proposal_id) |}.
Definition set_senate (s : HouseOfSovereigns) (g : BicameralGovernance) : BicameralGovernance := {|
  bg_commons := g.(bg_commons); bg_senate := s; bg_treasury := g.(bg_treasury);
  bg_next_proposal_id := g.(bg_next_proposal_id) |}.
Definition on_commons {A} : M GovernanceError HouseOfTokens A → M GovernanceError BicameralGovernance A :=
  zoom bg_commons set_commons.
Definition on_senate {A} : M GovernanceError HouseOfSovereigns A → M GovernanceError BicameralGovernance A :=
  zoom bg_senate set_senate.
