(* ===== verification/GovernanceSpec.v ===== *)
(** * Theorems on the two houses

    Tallies, verdicts and vetoes along every history of calls on blocks that do not go
    back; what the council can do and that it is final; why no proposal passes under the
    default configuration. *)
From S2P Require Import Prelude SysTypes F64 ConsensusTypes F64Bounds Governance.
From stdpp Require Import base gmap list strings relations.
From Stdlib Require Import ZArith Lia SpecFloat.
#[local] Open Scope N_scope.

(** ** Methods that change the state last

    [late m]: a run that does not return [Ok] leaves the state as it was. *)
Definition late {E S A} (m : M E S A) : Prop := ∀ s, (m s).2 = s ∨ is_ok (m s).1 = true.

Lemma late_bind {E S A B} (m : M E S A) (k : A → M E S B) :
  stable (=) m → (∀ a, late (k a)) → late (m ≫= k).
Proof.
  intros Hm Hk s. specialize (Hm s). unfold mbind, M_bind.
  destruct (m s) as [[a|e| |] s'] eqn:Hms; cbn in *; subst; [apply Hk|by left..].
Qed.

Lemma late_modify {E S A} f (a : A) : late (E:=E) (S:=S) (modify f ;; mret a).
Proof. intros s. by right. Qed.
Lemma late_write {E S} f : late (E:=E) (S:=S) (modify f).
Proof. intros s. by right. Qed.

Lemma late_cases {E S A} (m : M E S A) s :
  late m → (m s).2 = s ∨ ∃ a s', m s = (Ok a, s').
Proof. intros Hm. destruct (Hm s) as [|Hok]; [by left|right]. destruct (m s) as [[] s']; eauto; done. Qed.

Ltac late_body :=
  repeat first [apply late_modify | apply late_write
               | apply late_bind; [by eauto with stable typeclass_instances|intros ?]].

Section lates.
Context `{Build}.

Lemma create_proposal_late proposer ty title description payload block :
  late (create_proposal proposer ty title description payload block).
Proof. unfold create_proposal. late_body. Qed.
Lemma vote_late id voter choice block reason now : late (vote id voter choice block reason now).
Proof. unfold vote. late_body. Qed.
Lemma finalize_late id block : late (finalize id block).
Proof. unfold finalize. late_body. Qed.
Lemma add_founding_member_late entity : late (add_founding_member entity).
Proof. unfold add_founding_member. late_body. Qed.
Lemma initiate_veto_late initiator target reason category now :
  late (initiate_veto initiator target reason category now).
Proof. unfold initiate_veto. late_body. Qed.
Lemma vote_on_veto_late id voter support : late (vote_on_veto id voter support).
Proof. unfold vote_on_veto. late_body. Qed.
Lemma create_security_proposal_late proposer ty title description payload now :
  late (create_security_proposal proposer ty title description payload now).
Proof. unfold create_security_proposal. late_body. Qed.
End lates.

(** ** Tokens and powers *)

(** A map whose entries are dominated by those of another has the smaller sum. *)
Lemma map_sum_dominated {K V W} `{Countable K} (f : V → N) (g : W → N) (m : gmap K V) (m' : gmap K W) :
  (∀ k v, m !! k = Some v → ∃ w, m' !! k = Some w ∧ f v <= g w) → map_sum f m <= map_sum g m'.
Proof.
  intros Hdom. apply map_sum_mono. intros k. destruct (m !! k) as [v|] eqn:Hk; cbn; [|lia].
  destruct (Hdom k v Hk) as (w & -> & Hle). done.
Qed.

Lemma map_sum_list {K V} `{Countable K} (f : V → N) (m : gmap K V) :
  map_sum f m = sum_of f (map_to_list m).*2.
Proof.
  induction m as [|k v m Hk IH] using map_ind; [by rewrite map_sum_empty, map_to_list_empty|].
  rewrite map_sum_insert_None, IH by done.
  symmetry. etrans; [apply sum_of_perm, fmap_Permutation, map_to_list_insert, Hk|]. done.
Qed.

Definition tokens (i : TokenHolderInfo) : N := i.(th_balance) + i.(th_staked).
Definition supply (h : HouseOfTokens) : N := map_sum tokens h.(ht_holders).
Definition raw_power (h : HouseOfTokens) (i : TokenHolderInfo) : N := calculate_voting_power h (tokens i).

(** What is held and what it is worth in votes fits 128 bits. *)
Definition fits (h : HouseOfTokens) : Prop :=
  supply h <= U128_MAX ∧ map_sum (raw_power h) h.(ht_holders) <= U128_MAX.

(** The power the code gives a holder's vote. *)
Definition power_of (h : HouseOfTokens) (i : TokenHolderInfo) : N :=
  N.min (raw_power h i)
    (f64_as U128_MAX (f64_mul (f64_of_N (supply h)) h.(ht_config).(cc_max_voting_power_percentage))).

Definition quorum_of (h : HouseOfTokens) : N :=
  f64_as U128_MAX (f64_mul (f64_of_N (supply h)) h.(ht_config).(cc_quorum_percentage)).

Section sums.
Context `{Build}.

Lemma supply_from_ok l acc :
  acc + sum_of tokens l <= U128_MAX → supply_from l acc = Ok (acc + sum_of tokens l).
Proof.
  revert acc. induction l as [|i l IH]; intros acc Hle; cbn in *; [by rewrite N.add_0_r|].
  fold (sum_of tokens l) in *. unfold tokens in Hle at 1.
  rewrite (u_add_ok _ i.(th_balance)) by lia. cbn. rewrite u_add_ok by lia. cbn.
  rewrite IH by lia. f_equal. unfold tokens at 2. lia.
Qed.

Lemma total_supply_ok h : fits h → total_supply h = Ok (supply h).
Proof.
  intros [Hs _]. unfold total_supply, supply in *. rewrite map_sum_list in *. by rewrite supply_from_ok.
Qed.

Lemma effective_power_ok h voter i :
  fits h → h.(ht_holders) !! voter = Some i → effective_power h voter = Ok (power_of h i).
Proof.
  intros Hf Hi. unfold effective_power. rewrite Hi, (total_supply_ok h Hf).
  destruct Hf as [Hs _]. pose proof (map_sum_lookup_le tokens _ _ _ Hi) as Ht. unfold supply, tokens in *.
  rewrite u_add_ok by lia. done.
Qed.
End sums.

(** ** Tallies *)
Definition counted (c : VoteChoice) (v : Vote) : N :=
  if decide (v.(vt_choice) = c) then v.(vt_voting_power) else 0.
Definition tally (c : VoteChoice) (votes : gmap Key Vote) : N := map_sum (counted c) votes.

Lemma tally_total votes :
  tally For votes + tally Against votes + tally Abstain votes = map_sum vt_voting_power votes.
Proof.
  unfold tally. induction votes as [|k v m Hk IH] using map_ind; [by rewrite !map_sum_empty|].
  rewrite !map_sum_insert_None by done.
  assert (counted For v + counted Against v + counted Abstain v = vt_voting_power v); [|lia].
  unfold counted. destruct (vt_choice v); repeat case_decide; congruence || lia.
Qed.

(** A vote is that of a holder, under the holder's key, with the holder's power. *)
Definition votes_ok (h : HouseOfTokens) (votes : gmap Key Vote) : Prop :=
  ∀ k v, votes !! k = Some v →
    v.(vt_voter) = k ∧ ∃ i, h.(ht_holders) !! k = Some i ∧ v.(vt_voting_power) = power_of h i.

Lemma votes_bounded h votes :
  votes_ok h votes → map_sum vt_voting_power votes <= map_sum (raw_power h) h.(ht_holders).
Proof.
  intros Hv. apply map_sum_dominated. intros k v Hk. destruct (Hv k v Hk) as (_ & i & ? & ->).
  exists i. split; [done|]. unfold power_of. lia.
Qed.

Lemma votes_ok_insert h votes k v i :
  votes_ok h votes → v.(vt_voter) = k → h.(ht_holders) !! k = Some i → v.(vt_voting_power) = power_of h i →
  votes_ok h (<[k := v]> votes).
Proof. intros Hv ? ? ? k' v'. rewrite lookup_insert_Some. intros [[<- <-]|[_ ?]]; eauto. Qed.

(** The verdict that the votes of a proposal deserve. *)
Definition carried (h : HouseOfTokens) (p : CommonsProposal) : Prop :=
  quorum_of h <= map_sum vt_voting_power p.(cp_votes)
  ∧ tally Against p.(cp_votes) < tally For p.(cp_votes).
#[export] Instance carried_dec h p : Decision (carried h p).
Proof. unfold carried. apply _. Defined.

Record proposal_ok (h : HouseOfTokens) (block : N) (p : CommonsProposal) : Prop := {
  po_for : p.(cp_votes_for) = tally For p.(cp_votes);
  po_against : p.(cp_votes_against) = tally Against p.(cp_votes);
  po_abstain : p.(cp_abstentions) = tally Abstain p.(cp_votes);
  po_votes : votes_ok h p.(cp_votes);
  po_status : p.(cp_status) = Pending
    ∨ p.(cp_voting_end_block) < block ∧ p.(cp_status) = (if decide (carried h p) then Passed else Failed);
}.

(** ** Histories *)
Inductive call :=
| CallCreate (proposer : Key) (ty : CommonsProposalType) (title description : string) (payload : list N)
| CallVote (id : N) (voter : Key) (choice : VoteChoice) (reason : option string) (now : option N)
| CallFinalize (id : N)
| CallAddMember (entity : SovereignEntity)
| CallInitiateVeto (initiator : Key) (target : N) (reason : string) (category : VetoCategory) (now : option N)
| CallVoteOnVeto (id : N) (voter : Key) (support : bool)
| CallSecurity (proposer : Key) (ty : SecurityProposalType) (title description : string)
    (payload : list N) (now : option N).

Section history.
Context `{Build}.

(** The houses after a call at a block, whatever it returned. *)
Definition after (c : call) (block : N) (g : BicameralGovernance) : BicameralGovernance :=
  match c with
  | CallCreate proposer ty title description payload =>
      (on_commons (create_proposal proposer ty title description payload block) g).2
  | CallVote id voter choice reason now => (on_commons (vote id voter choice block reason now) g).2
  | CallFinalize id => (on_commons (finalize id block) g).2
  | CallAddMember entity => (on_senate (add_founding_member entity) g).2
  | CallInitiateVeto initiator target reason category now =>
      (on_senate (initiate_veto initiator target reason category now) g).2
  | CallVoteOnVeto id voter support => (on_senate (vote_on_veto id voter support) g).2
  | CallSecurity proposer ty title description payload now =>
      (on_senate (create_security_proposal proposer ty title description payload now) g).2
  end.

(** The number of calls, the block of the last one, the houses. *)
Inductive step : relation (N * N * BicameralGovernance) :=
| step_call n block block' g c :
    block <= block' → step (n, block, g) (n + 1, block', after c block' g).

Record commons_ok (h0 : HouseOfTokens) (n block : N) (h : HouseOfTokens) : Prop := {
  co_holders : h.(ht_holders) = h0.(ht_holders);
  co_config : h.(ht_config) = h0.(ht_config);
  co_ids : ∀ i p, h.(ht_proposals) !! i = Some p → i <= N.of_nat (size h.(ht_proposals)) ∧ proposal_ok h0 block p;
  co_size : N.of_nat (size h.(ht_proposals)) <= n;
}.

(** The voters of a veto are members; it is pending or has passed. *)
Definition veto_ok (s : HouseOfSovereigns) (v : VetoProposal) : Prop :=
  (∀ k b, v.(vp_votes) !! k = Some b → is_Some (s.(hs_members) !! k))
  ∧ (v.(vp_status) = VetoPending ∨ v.(vp_status) = VetoPassed).

Record senate_ok (s0 : HouseOfSovereigns) (n : N) (s : HouseOfSovereigns) : Prop := {
  so_config : s.(hs_config) = s0.(hs_config);
  so_ids : ∀ i v, s.(hs_veto_proposals) !! i = Some v →
    i <= N.of_nat (size s.(hs_veto_proposals)) ∧ veto_ok s v;
  so_size : N.of_nat (size s.(hs_veto_proposals)) <= n;
}.

Lemma proposal_later h block block' p : block <= block' → proposal_ok h block p → proposal_ok h block' p.
Proof. intros Hle []. split; try done. destruct po_status0 as [|[? ?]]; [by left|right; split; [lia|done]]. Qed.

Lemma commons_later h0 n n' block block' h :
  n <= n' → block <= block' → commons_ok h0 n block h → commons_ok h0 n' block' h.
Proof.
  intros Hn Hb [? ? Hids ?]. split; try done; [|lia].
  intros i p Hi. destruct (Hids i p Hi). split; [done|]. by eapply proposal_later.
Qed.

Lemma size_put_ge {K V} `{Countable K} (m : gmap K V) k v : (size m ≤ size (<[k := v]> m))%nat.
Proof. rewrite map_size_insert. destruct (m !! k); cbn; lia. Qed.

(** Writing a proposal that is well-formed, under an old key or the next one. *)
Lemma commons_put h0 n block h id p :
  commons_ok h0 n block h → proposal_ok h0 block p →
  id <= N.of_nat (size (<[id := p]> h.(ht_proposals))) →
  N.of_nat (size (<[id := p]> h.(ht_proposals))) <= n + 1 →
  commons_ok h0 (n + 1) block (put_proposal id p h).
Proof.
  intros [? ? Hids ?] Hp Hid Hn. split; cbn; try done.
  intros i q. rewrite lookup_insert_Some. intros [[<- <-]|[Hne Hi]]; [done|].
  destruct (Hids i q Hi). split; [|done]. etrans; [done|]. pose proof (size_put_ge h.(ht_proposals) id p). lia.
Qed.

Lemma size_put_old {V} (m : gmap N V) id v v' : m !! id = Some v → size (<[id := v']> m) = size m.
Proof. intros Hid. rewrite map_size_insert. by rewrite Hid. Qed.

Lemma size_put_next {V} (m : gmap N V) v :
  (∀ i w, m !! i = Some w → i <= N.of_nat (size m)) →
  size (<[N.of_nat (size m) + 1 := v]> m) = S (size m) ∧ m !! (N.of_nat (size m) + 1) = None.
Proof.
  intros Hids. assert (m !! (N.of_nat (size m) + 1) = None) as Hnone.
  { destruct (m !! _) as [w|] eqn:Hw; [|done]. apply Hids in Hw. lia. }
  split; [|done]. rewrite map_size_insert. by rewrite Hnone.
Qed.

Lemma house_same h0 n block h :
  commons_ok h0 n block h →
  supply h = supply h0 ∧ (∀ i, power_of h i = power_of h0 i) ∧ quorum_of h = quorum_of h0
  ∧ (fits h0 → fits h).
Proof.
  intros [Hh Hc _ _]. unfold power_of, quorum_of, fits, supply, raw_power, calculate_voting_power.
  by rewrite Hh, Hc.
Qed.

Lemma next_id {V} (m : gmap N V) n id :
  N.of_nat (size m) <= n → n < U64_MAX →
  u_add (E:=GovernanceError) U64_MAX (cast U64_MAX (N.of_nat (size m))) 1 = Ok id → id = N.of_nat (size m) + 1.
Proof.
  intros Hs Hn. unfold cast. rewrite N.mod_small by lia. rewrite u_add_ok by lia. by intros [= <-].
Qed.

Lemma create_kept h0 n block h proposer ty title description payload :
  commons_ok h0 n block h → n < U64_MAX →
  commons_ok h0 (n + 1) block (create_proposal proposer ty title description payload block h).2.
Proof.
  intros Hok Hn. destruct (late_cases _ h (create_proposal_late proposer ty title description payload block))
    as [->|(id & h' & Hrun)]; [eapply commons_later; [| |done]; lia|].
  rewrite Hrun. unfold create_proposal in Hrun. ok_inv Hrun. simplify_eq.
  match goal with Hid : u_add _ (cast _ _) 1 = _ |- _ => apply (next_id _ n) in Hid; [subst|apply Hok|done] end.
  destruct (size_put_next h.(ht_proposals)
    {| cp_id := N.of_nat (size h.(ht_proposals)) + 1; cp_proposer := proposer; cp_proposal_type := ty;
       cp_title := title; cp_description := description; cp_payload := payload;
       cp_created_at_block := block; cp_voting_start_block := v2; cp_voting_end_block := v3;
       cp_votes_for := 0; cp_votes_against := 0; cp_abstentions := 0; cp_votes := ∅; cp_status := Pending |})
    as [Hsize _]; [intros i w Hi; apply (co_ids _ _ _ _ Hok i w Hi)|].
  pose proof (co_size _ _ _ _ Hok).
  apply commons_put; [done| |rewrite Hsize; lia..].
  split; cbn; try done. by left.
Qed.

(** The counters after a vote that is not there yet. *)
Lemma tally_insert c votes k v :
  votes !! k = None → tally c (<[k := v]> votes) = tally c votes + counted c v.
Proof. intros Hk. unfold tally. rewrite map_sum_insert_None by done. lia. Qed.

Lemma tally_le c votes : tally c votes <= map_sum vt_voting_power votes.
Proof. pose proof (tally_total votes). destruct c; lia. Qed.

Lemma vote_ok h0 block p voter v p1 :
  fits h0 → proposal_ok h0 block p → block <= p.(cp_voting_end_block) → p.(cp_votes) !! voter = None →
  votes_ok h0 (<[voter := v]> p.(cp_votes)) →
  add_power v.(vt_choice) v.(vt_voting_power) p = Ok p1 →
  proposal_ok h0 block (set_votes (<[voter := v]> p1.(cp_votes)) p1).
Proof.
  intros [_ Hfit] Hp Hblock Hnone Hvotes Hadd.
  pose proof (votes_bounded _ _ Hvotes) as Hb.
  pose proof (λ c, tally_le c (<[voter := v]> p.(cp_votes))) as Hle.
  destruct Hp as [Hfor Hagainst Habs Hv Hstatus].
  assert (p.(cp_status) = Pending) as Hpend by (destruct Hstatus as [|[? _]]; [done|lia]).
  assert (∀ c, c ≠ vt_choice v → tally c (<[voter := v]> p.(cp_votes)) = tally c p.(cp_votes)) as Hother.
  { intros c Hc. rewrite tally_insert by done. unfold counted. rewrite decide_False by congruence. lia. }
  assert (tally (vt_choice v) (<[voter := v]> p.(cp_votes)) = tally (vt_choice v) p.(cp_votes) + vt_voting_power v) as Hmine.
  { rewrite tally_insert by done. unfold counted. by rewrite decide_True. }
  specialize (Hle (vt_choice v)).
  unfold add_power in Hadd. destruct (vt_choice v); rewrite u_add_ok in Hadd by lia;
    cbn in Hadd; simplify_eq; split; cbn; rewrite ?Hmine, ?Hother by done; try done; try lia; by left.
Qed.

Lemma vote_kept h0 n block h id voter choice reason now :
  fits h0 → commons_ok h0 n block h →
  commons_ok h0 (n + 1) block (vote id voter choice block reason now h).2.
Proof.
  intros Hfit Hok. destruct (late_cases _ h (vote_late id voter choice block reason now))
    as [->|(u & h' & Hrun)]; [eapply commons_later; [| |done]; lia|].
  rewrite Hrun. unfold vote in Hrun. ok_inv Hrun. bool_facts.
  match goal with Hp : _ !! id = Some ?q |- _ =>
    destruct (co_ids _ _ _ _ Hok _ _ Hp) as [Hid Hpok]; pose proof (size_put_old _ _ _ (set_votes ∅ q) Hp) end.
  destruct (house_same _ _ _ _ Hok) as (_ & Hpow & _ & Hf). specialize (Hf Hfit).
  match goal with He : effective_power h voter = Ok _ |- _ => rename He into Heff end.
  destruct (h.(ht_holders) !! voter) as [i|] eqn:Hi; [|unfold effective_power in Heff; by rewrite Hi in Heff].
  rewrite (effective_power_ok _ _ _ Hf Hi) in Heff. injection Heff as Heff. pose proof (co_size _ _ _ _ Hok).
  apply commons_put; [done| |erewrite size_put_old by done; lia..].
  match goal with Hadd : add_power _ _ ?q = Ok ?q' |- proposal_ok _ _ (set_votes (<[_ := ?v]> _) _) =>
    apply (vote_ok h0 block q voter v q') end; try done; [lia|by apply eq_None_not_Some|].
  apply votes_ok_insert with i; [apply Hpok|done| |cbn; by rewrite <- Heff, Hpow].
  by rewrite <- (co_holders _ _ _ _ Hok).
Qed.

Lemma finalize_kept h0 n block h id :
  fits h0 → commons_ok h0 n block h → commons_ok h0 (n + 1) block (finalize id block h).2.
Proof.
  intros Hfit Hok. destruct (late_cases _ h (finalize_late id block))
    as [->|(u & h' & Hrun)]; [eapply commons_later; [| |done]; lia|].
  rewrite Hrun. unfold finalize in Hrun. ok_inv Hrun. bool_facts.
  match goal with Hp : _ !! id = Some ?q |- _ =>
    destruct (co_ids _ _ _ _ Hok _ _ Hp) as [Hid Hpok]; rename q into p end.
  destruct (house_same _ _ _ _ Hok) as (Hsup & _ & Hq & Hf). specialize (Hf Hfit).
  pose proof (co_size _ _ _ _ Hok). simplify_eq.
  apply commons_put; [done| |erewrite size_put_old by done; lia..].
  destruct Hpok as [Hfor Hagainst Habs Hv Hstatus].
  pose proof (votes_bounded _ _ Hv). destruct Hfit as [_ Hfit]. pose proof (tally_total p.(cp_votes)).
  rewrite (total_supply_ok _ Hf) in *. rewrite u_add_ok in H3 by lia. simplify_eq.
  rewrite u_add_ok in H4 by lia. simplify_eq. fold (quorum_of h). rewrite Hq, Hfor, Hagainst, Habs, tally_total.
  split; cbn; try done. right. split; [lia|].
  set (q := set_proposal_status _ p). assert (carried h0 q ↔ carried h0 p) as Hc by done.
  destruct (_ && _) eqn:Hb; [rewrite decide_True|rewrite decide_False]; try done; rewrite Hc; unfold carried.
  - by bool_facts.
  - intros [? ?]. by rewrite !bool_decide_true in Hb.
Qed.

(** ** The council *)
Lemma senate_later s0 n n' s : n <= n' → senate_ok s0 n s → senate_ok s0 n' s.
Proof. intros Hn []. split; [done..|lia]. Qed.

Lemma veto_members s s' v :
  dom s.(hs_members) ⊆ dom s'.(hs_members) → veto_ok s v → veto_ok s' v.
Proof.
  intros Hsub [Hv Hs]. split.
  - intros k b Hk. apply elem_of_dom, Hsub, elem_of_dom. eauto.
  - done.
Qed.

Lemma senate_put s0 n s id v :
  senate_ok s0 n s → veto_ok s v →
  id <= N.of_nat (size (<[id := v]> s.(hs_veto_proposals))) →
  N.of_nat (size (<[id := v]> s.(hs_veto_proposals))) <= n + 1 →
  senate_ok s0 (n + 1) (put_veto id v s).
Proof.
  intros [? Hids ?] Hv Hid Hn. split; cbn; try done.
  intros i q. rewrite lookup_insert_Some. intros [[<- <-]|[Hne Hi]]; [done|].
  destruct (Hids i q Hi). split; [|done]. etrans; [done|].
  pose proof (size_put_ge s.(hs_veto_proposals) id v). lia.
Qed.

Lemma add_member_kept s0 n s entity :
  senate_ok s0 n s → senate_ok s0 (n + 1) (add_founding_member entity s).2.
Proof.
  intros Hok. apply senate_later with (n' := n + 1) in Hok; [|lia].
  destruct (late_cases _ s (add_founding_member_late entity)) as [->|(u & s' & Hrun)]; [done|].
  rewrite Hrun. unfold add_founding_member in Hrun. ok_inv Hrun. simplify_eq.
  destruct Hok as [? Hids ?]. split; cbn; try done.
  intros i w Hi. destruct (Hids i w Hi) as [? Hw]. split; [done|].
  eapply veto_members, Hw. cbn. rewrite dom_insert. set_solver.
Qed.

Lemma initiate_kept s0 n s initiator target reason category now :
  senate_ok s0 n s → n < U64_MAX →
  senate_ok s0 (n + 1) (initiate_veto initiator target reason category now s).2.
Proof.
  intros Hok Hn. destruct (late_cases _ s (initiate_veto_late initiator target reason category now))
    as [->|(u & s' & Hrun)]; [eapply senate_later; [|done]; lia|].
  rewrite Hrun. unfold initiate_veto in Hrun. ok_inv Hrun. simplify_eq.
  match goal with Hid : u_add _ (cast _ _) 1 = _ |- _ => apply (next_id _ n) in Hid; [subst|apply Hok|done] end.
  pose proof (so_size _ _ _ Hok).
  apply senate_put; [done|split; [done|by left]|..];
    rewrite (proj1 (size_put_next _ _ (λ i w Hi, proj1 (so_ids _ _ _ Hok i w Hi)))); lia.
Qed.

Lemma vote_on_veto_kept s0 n s id voter support :
  senate_ok s0 n s → senate_ok s0 (n + 1) (vote_on_veto id voter support s).2.
Proof.
  intros Hok. destruct (late_cases _ s (vote_on_veto_late id voter support))
    as [->|(u & s' & Hrun)]; [eapply senate_later; [|done]; lia|].
  rewrite Hrun. unfold vote_on_veto in Hrun. ok_inv Hrun. bool_facts.
  match goal with Hp : _ !! id = Some ?q |- _ =>
    destruct (so_ids _ _ _ Hok _ _ Hp) as [Hid [Hv Hs]]; rename q into w end.
  pose proof (so_size _ _ _ Hok).
  apply senate_put; [done| |erewrite size_put_old by done; lia..]. split; cbn.
  - intros k b. rewrite lookup_insert_Some. intros [[<- _]|[_ ?]]; [done|eauto].
  - case_bool_decide; [by right|done].
Qed.

Lemma security_kept s0 n s proposer ty title description payload now :
  senate_ok s0 n s → senate_ok s0 (n + 1) (create_security_proposal proposer ty title description payload now s).2.
Proof.
  intros Hok. apply senate_later with (n' := n + 1) in Hok; [|lia].
  destruct (late_cases _ s (create_security_proposal_late proposer ty title description payload now))
    as [->|(u & s' & Hrun)]; [done|].
  rewrite Hrun. unfold create_security_proposal in Hrun. ok_inv Hrun. simplify_eq. by destruct Hok; split.
Qed.

(** ** Both houses along a history *)
Definition gov_ok (g0 : BicameralGovernance) (x : N * N * BicameralGovernance) : Prop :=
  let '(n, block, g) := x in
  commons_ok g0.(bg_commons) n block g.(bg_commons) ∧ senate_ok g0.(bg_senate) n g.(bg_senate).

Lemma step_kept g0 x y :
  fits g0.(bg_commons) → step x y → y.1.1 <= U64_MAX → gov_ok g0 x → gov_ok g0 y.
Proof.
  intros Hfit Hstep Hn. destruct Hstep as [n block block' g c Hle]. intros [Hc Hs]. cbn in Hn.
  apply (commons_later _ _ n _ block') in Hc; [|lia|done].
  assert (commons_ok g0.(bg_commons) (n + 1) block' g.(bg_commons)) by (eapply commons_later; [| |done]; lia).
  assert (senate_ok g0.(bg_senate) (n + 1) g.(bg_senate)) by (eapply senate_later; [|done]; lia).
  destruct c; (split; [|try done]); try done; cbn.
  - apply create_kept; [done|lia].
  - by apply vote_kept.
  - by apply finalize_kept.
  - by apply add_member_kept.
  - apply initiate_kept; [done|lia].
  - by apply vote_on_veto_kept.
  - by apply security_kept.
Qed.

Lemma steps_grow x y : rtc step x y → x.1.1 <= y.1.1.
Proof. induction 1 as [|x z y Hxz _ IH]; [lia|]. destruct Hxz. cbn in *. lia. Qed.

Lemma steps_kept g0 x y :
  fits g0.(bg_commons) → rtc step x y → y.1.1 <= U64_MAX → gov_ok g0 x → gov_ok g0 y.
Proof.
  intros Hfit. induction 1 as [|x z y Hxz Hzy IH]; intros Hn Hx; [done|]. apply IH; [done|].
  eapply step_kept; [done|done| |done]. pose proof (steps_grow _ _ Hzy). lia.
Qed.

(** A house in which nothing has been proposed yet. *)
Definition founded (g : BicameralGovernance) : Prop :=
  g.(bg_commons).(ht_proposals) = ∅ ∧ g.(bg_senate).(hs_veto_proposals) = ∅.

Lemma founded_ok g block : founded g → gov_ok g (0, block, g).
Proof. intros [Hc Hs]. split; split; rewrite ?Hc, ?Hs; try done. Qed.

Lemma can_execute_iff g i :
  can_execute g i = Ok true ↔
  (∃ p, g.(bg_commons).(ht_proposals) !! i = Some p ∧ p.(cp_status) = Passed)
  ∧ ∀ k v, g.(bg_senate).(hs_veto_proposals) !! k = Some v →
      v.(vp_target_proposal_id) = i → v.(vp_status) ≠ VetoPassed.
Proof.
  unfold can_execute. destruct (_ !! i) as [p|]; [|naive_solver].
  case_bool_decide as Hp; cbn; [|split; [done|naive_solver]].
  destruct (existsb _ _) eqn:Hex; cbn; split; try done.
  - apply existsb_exists in Hex as (v & Hin & Hv). intros [_ Hall]. unfold vetoes in Hv. bool_facts.
    apply list_elem_of_In, list_elem_of_fmap in Hin as ([k w] & -> & Hin%elem_of_map_to_list).
    by destruct (Hall k w).
  - intros _. split; [eauto|]. intros k v Hk Ht Hv. apply not_true_iff_false in Hex. apply Hex.
    apply existsb_exists. exists v. unfold vetoes. rewrite !bool_decide_true by done. split; [|done].
    apply list_elem_of_In, list_elem_of_fmap. exists (k, v). split; [done|]. by apply elem_of_map_to_list.
Qed.

(** ** Vetoes are final *)
Definition vetoed_by (k i : N) (s : HouseOfSovereigns) : Prop :=
  ∃ v, s.(hs_veto_proposals) !! k = Some v ∧ v.(vp_target_proposal_id) = i ∧ v.(vp_status) = VetoPassed.

Lemma vetoed_blocks g k i : vetoed_by k i g.(bg_senate) → can_execute g i ≠ Ok true.
Proof. intros (v & Hk & Hi & Hv) Hx. apply can_execute_iff in Hx as [_ Hall]. by destruct (Hall k v). Qed.

Lemma vetoed_step g0 k i x y :
  step x y → gov_ok g0 x → y.1.1 <= U64_MAX →
  vetoed_by k i x.2.(bg_senate) → vetoed_by k i y.2.(bg_senate).
Proof.
  intros Hstep Hok Hn Hv. destruct Hstep as [n block block' g c Hle]. destruct Hok as [_ Hs]. cbn in *.
  destruct c as [| | |entity|initiator target reason category now|id voter support|proposer ty title description payload now];
    cbn; try done.
  - destruct (late_cases _ g.(bg_senate) (add_founding_member_late entity)) as [->|(u & s' & Hrun)]; [done|].
    rewrite Hrun. unfold add_founding_member in Hrun. by ok_inv Hrun; simplify_eq.
  - destruct (late_cases _ g.(bg_senate) (initiate_veto_late initiator target reason category now))
      as [->|(u & s' & Hrun)]; [done|].
    rewrite Hrun. unfold initiate_veto in Hrun. ok_inv Hrun. simplify_eq.
    match goal with Hid : u_add _ (cast _ _) 1 = _ |- _ => apply (next_id _ n) in Hid; [subst|apply Hs|lia] end.
    destruct Hv as (w & Hk & Hv). exists w. split; [|done]. cbn. rewrite lookup_insert_ne; [done|].
    apply (so_ids _ _ _ Hs) in Hk. lia.
  - destruct (late_cases _ g.(bg_senate) (vote_on_veto_late id voter support)) as [->|(u & s' & Hrun)]; [done|].
    rewrite Hrun. unfold vote_on_veto in Hrun. ok_inv Hrun. destruct Hv as (w & Hk & Hi & Hv). unfold vetoed_by. cbn.
    destruct (decide (id = k)) as [->|]; [|rewrite lookup_insert_ne by done; eauto].
    rewrite lookup_insert_eq. simplify_eq. eexists. split_and!; [done|done|]. cbn. by destruct (bool_decide (veto_threshold_of _ _ <= _)).
  - destruct (late_cases _ g.(bg_senate) (create_security_proposal_late proposer ty title description payload now))
      as [->|(u & s' & Hrun)]; [done|].
    rewrite Hrun. unfold create_security_proposal in Hrun. by ok_inv Hrun; simplify_eq.
Qed.

Lemma vetoed_steps g0 k i x y :
  fits g0.(bg_commons) → rtc step x y → gov_ok g0 x → y.1.1 <= U64_MAX →
  vetoed_by k i x.2.(bg_senate) → vetoed_by k i y.2.(bg_senate).
Proof.
  intros Hfit. induction 1 as [|x z y Hxz Hzy IH]; intros Hok Hn Hv; [done|].
  assert (z.1.1 <= U64_MAX) by (pose proof (steps_grow _ _ Hzy); lia).
  apply IH; [by eapply step_kept|done|by eapply vetoed_step].
Qed.

(** ** Vetoes are decided by the council of the time *)

(** The vote of a member that passes a pending veto: with it, the support reaches the
    threshold for the members the council has when it is cast. *)
Definition vote_decides (s : HouseOfSovereigns) (k : N) (voter : Key) (support : bool) : Prop :=
  is_Some (s.(hs_members) !! voter)
  ∧ ∃ v, s.(hs_veto_proposals) !! k = Some v ∧ v.(vp_status) = VetoPending ∧ v.(vp_votes) !! voter = None
    ∧ veto_threshold_of s.(hs_config) (member_count s) <= support_count (<[voter := support]> v.(vp_votes)).

(** Somewhere on the way from [x] to [y] such a vote was cast. *)
Definition decided_between (x y : N * N * BicameralGovernance) (k : N) : Prop :=
  ∃ n block block' g voter support, rtc step x (n, block, g) ∧ block <= block'
    ∧ vote_decides g.(bg_senate) k voter support
    ∧ rtc step (n + 1, block', after (CallVoteOnVeto k voter support) block' g) y.

Definition passed_in (k : N) (g : BicameralGovernance) : Prop :=
  ∃ v, g.(bg_senate).(hs_veto_proposals) !! k = Some v ∧ v.(vp_status) = VetoPassed.

Lemma passes_by_vote g0 n block g c block' k :
  gov_ok g0 (n, block, g) → passed_in k (after c block' g) →
  passed_in k g ∨ ∃ voter support, c = CallVoteOnVeto k voter support ∧ vote_decides g.(bg_senate) k voter support.
Proof.
  intros [_ Hs] Hv. destruct c as [| | |entity|initiator target reason category now|id voter support|proposer ty title description payload now];
    cbn in Hv; try by left.
  - left. destruct (late_cases _ g.(bg_senate) (add_founding_member_late entity)) as [Heq|(u & s' & Hrun)];
      unfold passed_in in Hv; cbn in Hv; [by rewrite Heq in Hv|].
    rewrite Hrun in Hv. unfold add_founding_member in Hrun. by ok_inv Hrun; simplify_eq.
  - left. destruct (late_cases _ g.(bg_senate) (initiate_veto_late initiator target reason category now)) as [Heq|(u & s' & Hrun)];
      unfold passed_in in Hv; cbn in Hv; [by rewrite Heq in Hv|].
    rewrite Hrun in Hv. unfold initiate_veto in Hrun. ok_inv Hrun. simplify_eq.
    destruct Hv as (w & Hk & Hw). cbn in Hk. apply lookup_insert_Some in Hk as [[_ <-]|[_ Hk]]; [done|by exists w].
  - destruct (late_cases _ g.(bg_senate) (vote_on_veto_late id voter support)) as [Heq|(u & s' & Hrun)];
      unfold passed_in in Hv; cbn in Hv; [left; by rewrite Heq in Hv|].
    rewrite Hrun in Hv. unfold vote_on_veto in Hrun. ok_inv Hrun. bool_facts.
    destruct Hv as (w & Hk & Hw). cbn in Hk. apply lookup_insert_Some in Hk as [[-> <-]|[_ Hk]]; [|left; by exists w].
    match goal with Hp : _ !! k = Some ?q |- _ => destruct (so_ids _ _ _ Hs _ _ Hp) as [_ [_ Hst]]; rename q into w', Hp into Hq end.
    destruct Hst as [Hpend|]; [|left; by exists w']. right. exists voter, support. split; [done|]. split; [done|].
    exists w'. split_and!; [done|done|by apply eq_None_not_Some|]. cbn in Hw. case_bool_decide; [done|congruence].
  - left. destruct (late_cases _ g.(bg_senate) (create_security_proposal_late proposer ty title description payload now))
      as [Heq|(u & s' & Hrun)]; unfold passed_in in Hv; cbn in Hv; [by rewrite Heq in Hv|].
    rewrite Hrun in Hv. unfold create_security_proposal in Hrun. by ok_inv Hrun; simplify_eq.
Qed.

Lemma passed_decided g0 x y k :
  fits g0.(bg_commons) → rtc step x y → gov_ok g0 x → y.1.1 <= U64_MAX →
  passed_in k y.2 → passed_in k x.2 ∨ decided_between x y k.
Proof.
  intros Hfit. induction 1 as [|x z y Hxz Hzy IH]; intros Hok Hn Hv; [by left|].
  assert (z.1.1 <= U64_MAX) by (pose proof (steps_grow _ _ Hzy); lia).
  destruct IH as [Hz|(n & b & b' & g & voter & support & Hr & Hd)]; [by eapply step_kept|done|done| |].
  - destruct Hxz as [n block block' g c Hle].
    destruct (passes_by_vote _ _ _ _ _ _ _ Hok Hz) as [|(voter & support & -> & Hd)]; [by left|right].
    exists n, block, block', g, voter, support. split_and!; [apply rtc_refl|done|done|done].
  - right. exists n, b, b', g, voter, support. split; [by eapply rtc_l|done].
Qed.

(** ** The council can veto *)
Definition calls_at (block : N) (cs : list call) (g : BicameralGovernance) : BicameralGovernance :=
  foldl (λ g c, after c block g) g cs.

Lemma calls_steps block cs n g :
  rtc step (n, block, g) (n + N.of_nat (length cs), block, calls_at block cs g).
Proof.
  revert n g. induction cs as [|c cs IH]; intros n g; cbn.
  - rewrite N.add_0_r. apply rtc_refl.
  - eapply rtc_l; [by apply (step_call n block block)|].
    replace (n + N.of_nat (S (length cs))) with (n + 1 + N.of_nat (length cs)) by lia. apply IH.
Qed.

Definition in_favour (id : N) (voters : list Key) : list call := (λ v, CallVoteOnVeto id v true) <$> voters.

Lemma vote_on_veto_run id voter s v :
  is_Some (s.(hs_members) !! voter) → s.(hs_veto_proposals) !! id = Some v → v.(vp_votes) !! voter = None →
  (vote_on_veto id voter true s).2 = put_veto id (set_veto (<[voter := true]> v.(vp_votes))
    (if bool_decide (veto_threshold_of s.(hs_config) (member_count s) <= support_count v.(vp_votes) + 1)
     then VetoPassed else v.(vp_status)) v) s.
Proof.
  intros Hm Hv Hnone. unfold vote_on_veto. mrun. rewrite bool_decide_true by done. cbn. rewrite Hv. cbn.
  rewrite Hnone. cbn. unfold support_count. rewrite map_sum_insert_None by done.
  by rewrite (N.add_comm _ 1).
Qed.

Lemma votes_pass block id target voters : ∀ g v,
  NoDup voters → voters ≠ [] → Forall (λ k, is_Some (g.(bg_senate).(hs_members) !! k)) voters →
  g.(bg_senate).(hs_veto_proposals) !! id = Some v → v.(vp_target_proposal_id) = target →
  Forall (λ k, v.(vp_votes) !! k = None) voters →
  veto_threshold_of g.(bg_senate).(hs_config) (member_count g.(bg_senate))
    <= support_count v.(vp_votes) + N.of_nat (length voters) →
  vetoed_by id target (calls_at block (in_favour id voters) g).(bg_senate).
Proof.
  induction voters as [|k voters IH]; intros g v Hnd Hne Hm Hv Ht Hnone Hth; [done|].
  apply NoDup_cons in Hnd as [Hk Hnd]. apply Forall_cons in Hm as [Hmk Hm].
  apply Forall_cons in Hnone as [Hnk Hnone]. cbn [in_favour fmap list_fmap calls_at foldl after].
  cbn [on_senate zoom snd]. rewrite (vote_on_veto_run _ _ _ v) by done.
  destruct (decide (voters = [])) as [->|Hne'].
  - cbn. unfold vetoed_by. cbn. rewrite lookup_insert_eq. eexists. split_and!; [done|done|].
    cbn in Hth |- *. by rewrite bool_decide_true.
  - eapply IH; [done|done|done|cbn; by rewrite lookup_insert_eq|done|..]; cbn.
    + apply Forall_forall. intros k' Hk'. rewrite Forall_forall in Hnone.
      rewrite lookup_insert_ne by congruence. auto.
    + unfold support_count in *. rewrite map_sum_insert_None by done. cbn in Hth. unfold member_count in *. cbn. lia.
Qed.
End history.

(** ** Quadratic power against a quorum of plain tokens *)
Definition ONE_TOKEN : N := 10 ^ 18.

Lemma log2_Z n : 0 < n → (2 ^ Z.of_N (N.log2 n) <= Z.of_N n < 2 ^ (Z.of_N (N.log2 n) + 1))%Z.
Proof.
  intros Hn. pose proof (N.log2_spec n Hn) as [H1 H2]. split.
  - rewrite <- (N2Z.inj_pow 2). lia.
  - replace (Z.of_N (N.log2 n) + 1)%Z with (Z.of_N (N.succ (N.log2 n))) by lia. rewrite <- (N2Z.inj_pow 2). lia.
Qed.

Lemma quadratic_small h t :
  h.(ht_config).(cc_quadratic_voting) = true → ONE_TOKEN <= t → t <= U128_MAX →
  calculate_voting_power h t * 128 <= t.
Proof.
  intros Hq Hlo Hhi. unfold calculate_voting_power. rewrite Hq.
  pose proof (log2_Z t ltac:(unfold ONE_TOKEN in *; lia)) as [Ht1 Ht2].
  assert (59 <= N.log2 t) as Hl by (apply N.log2_le_pow2; [unfold ONE_TOKEN in *; lia|etrans; [|exact Hlo]; done]).
  assert (N.log2 t < 128) as Hu by (apply N.log2_lt_pow2; [unfold ONE_TOKEN in *; lia|lia]).
  set (j := (Z.of_N (N.log2 t) + 1)%Z) in *.
  assert (∃ k, j + 1 <= 2 * k <= j + 2)%Z as (k & Hk).
  { exists ((j + 2) / 2)%Z. pose proof (Z.div_mod (j + 2) 2 ltac:(lia)).
    pose proof (Z.mod_pos_bound (j + 2) 2 ltac:(lia)). lia. }
  assert (upto (k + 12) (f64_mul (f64_sqrt (f64_of_N t)) F1000_0)) as Hup.
  { replace (k + 12)%Z with ((k + 1) + 10 + 1)%Z by lia. apply upto_mul; [|done|lia].
    apply upto_sqrt; [|lia]. apply upto_mono with (j + 1)%Z; [lia|]. apply of_N_upto; lia. }
  apply (as_upto U128_MAX) in Hup; [|lia]. set (w := f64_as _ _) in *.
  assert (2 ^ (k + 12) * 2 ^ 7 <= Z.of_N t)%Z; [|lia].
  etrans; [|exact Ht1]. rewrite <- Z.pow_add_r by lia. apply Z.pow_le_mono_r; lia.
Qed.

Lemma quorum_large h :
  h.(ht_config).(cc_quorum_percentage) = F0_04 → ONE_TOKEN <= supply h → supply h <= U128_MAX →
  supply h < 64 * quorum_of h.
Proof.
  intros Hq Hlo Hhi. unfold quorum_of. rewrite Hq. set (t := supply h) in *.
  pose proof (log2_Z t ltac:(unfold ONE_TOKEN in *; lia)) as [Ht1 Ht2].
  assert (59 <= N.log2 t) as Hl by (apply N.log2_le_pow2; [unfold ONE_TOKEN in *; lia|etrans; [|exact Hlo]; done]).
  assert (N.log2 t < 128) as Hu by (apply N.log2_lt_pow2; [unfold ONE_TOKEN in *; lia|lia]).
  set (j := Z.of_N (N.log2 t)) in *.
  assert (atleast (j - 5) (f64_mul (f64_of_N t) F0_04)) as Hat.
  { apply (atleast_mul j (-5)); [|done|lia]. apply of_N_atleast; [done| |lia]. unfold ONE_TOKEN in *. lia. }
  apply (as_atleast U128_MAX) in Hat; [|lia|].
  - set (w := f64_as _ _) in *. assert (2 ^ (j + 1) = 2 ^ (j - 5) * 2 ^ 6)%Z; [|lia].
    rewrite <- Z.pow_add_r by lia. f_equal. lia.
  - etrans; [|apply (Z.le_trans _ (2 ^ 127)); [|done]]; [reflexivity|]. apply Z.pow_le_mono_r; lia.
Qed.

Lemma map_sum_scale {K V} `{Countable K} (f : V → N) (m : gmap K V) c :
  map_sum (λ v, f v * c) m = map_sum f m * c.
Proof.
  induction m as [|k v m Hk IH] using map_ind; [by rewrite !map_sum_empty|].
  rewrite !map_sum_insert_None, IH by done. lia.
Qed.

(** Every holder has a token or more. *)
Definition whole_tokens (h : HouseOfTokens) : Prop :=
  map_Forall (λ _ i, ONE_TOKEN <= tokens i) h.(ht_holders).

Lemma powers_small h :
  h.(ht_config).(cc_quadratic_voting) = true → whole_tokens h → supply h <= U128_MAX →
  map_sum (raw_power h) h.(ht_holders) * 128 <= supply h.
Proof.
  intros Hq Hw Hs. rewrite <- map_sum_scale. apply map_sum_dominated. intros k i Hi. exists i. split; [done|].
  pose proof (map_sum_lookup_le tokens _ _ _ Hi). unfold supply in Hs.
  apply quadratic_small; [done|by apply (Hw k i)|lia].
Qed.

Lemma not_carried h p :
  h.(ht_config) = CommonsConfig_default → whole_tokens h → supply h <= U128_MAX →
  votes_ok h p.(cp_votes) → ¬ carried h p.
Proof.
  intros Hc Hw Hs Hv [Hquorum Hmaj]. pose proof (votes_bounded _ _ Hv).
  pose proof (powers_small h ltac:(by rewrite Hc) Hw Hs). pose proof (tally_le For p.(cp_votes)).
  assert (ONE_TOKEN <= supply h) as Hone.
  { destruct (map_choose_or_empty h.(ht_holders)) as [(k & i & Hi)|He].
    - pose proof (map_sum_lookup_le tokens _ _ _ Hi). pose proof (Hw k i Hi). cbn in *. unfold supply. lia.
    - unfold supply in *. rewrite He, map_sum_empty in *. lia. }
  pose proof (quorum_large h ltac:(by rewrite Hc) Hone Hs). lia.
Qed.

Section claims.
Context `{Build}.

(** C19: along every history of fewer than [2^64] calls on blocks that do not go back, in
    houses whose tokens, and what these weigh in votes, add up in 128 bits, whatever the
    calls return: the counters of a proposal are the sums of the recorded votes, each that
    of a holder under its own key and with its capped power; a proposal is marked passed
    or failed only after its voting period, and then as its votes deserve, quorum and
    majority together; what may be executed has passed and no passed veto is against it;
    the votes of a veto are those of members, and it has passed only by the vote of a
    member with which the support reached the threshold for the number of members the
    council had at that moment (a share of it, rounded down: zero for a council of
    one). *)
Theorem governance_sound g0 n block g :
  founded g0 → fits g0.(bg_commons) → rtc step (0, 0, g0) (n, block, g) → n <= U64_MAX →
  (∀ i p, g.(bg_commons).(ht_proposals) !! i = Some p →
     p.(cp_votes_for) = tally For p.(cp_votes) ∧ p.(cp_votes_against) = tally Against p.(cp_votes)
     ∧ p.(cp_abstentions) = tally Abstain p.(cp_votes) ∧ votes_ok g0.(bg_commons) p.(cp_votes)
     ∧ (p.(cp_status) ≠ Pending → p.(cp_voting_end_block) < block
        ∧ p.(cp_status) = (if decide (carried g0.(bg_commons) p) then Passed else Failed)))
  ∧ (∀ i, can_execute g i = Ok true →
       (∃ p, g.(bg_commons).(ht_proposals) !! i = Some p ∧ carried g0.(bg_commons) p)
       ∧ ∀ k v, g.(bg_senate).(hs_veto_proposals) !! k = Some v →
           v.(vp_target_proposal_id) = i → v.(vp_status) = VetoPending)
  ∧ (∀ k v, g.(bg_senate).(hs_veto_proposals) !! k = Some v → veto_ok g.(bg_senate) v
       ∧ (v.(vp_status) = VetoPassed → decided_between (0, 0, g0) (n, block, g) k)).
Proof.
  intros Hf Hfit Hsteps Hn.
  destruct (steps_kept g0 _ _ Hfit Hsteps Hn (founded_ok g0 0 Hf)) as [Hc Hs]. split_and!.
  - intros i p Hi. destruct (co_ids _ _ _ _ Hc i p Hi) as [_ [? ? ? ? Hst]]. split_and!; try done.
    intros Hne. by destruct Hst.
  - intros i Hi. apply can_execute_iff in Hi as [(p & Hp & Hpass) Hveto]. split.
    + exists p. split; [done|]. destruct (co_ids _ _ _ _ Hc i p Hp) as [_ [_ _ _ _ Hst]].
      destruct Hst as [|[_ Hst]]; [congruence|]. by case_decide; [|congruence].
    + intros k v Hk Ht. destruct (so_ids _ _ _ Hs k v Hk) as [_ [_ [?|?]]]; [done|]. by destruct (Hveto k v).
  - intros k v Hk. split; [by apply (so_ids _ _ _ Hs k v Hk)|]. intros Hp.
    destruct (passed_decided g0 _ _ k Hfit Hsteps (founded_ok g0 0 Hf) Hn) as [(w & Hw & _)|]; [by exists v| |done].
    destruct Hf as [_ Hnone]. cbn in Hw. by rewrite Hnone in Hw.
Qed.

(** C20: members that reach the threshold can veto a proposal, whoever starts it and
    whenever: once they have voted, no later call of anybody makes it executable. *)
Theorem veto_holds g0 n block g initiator voters target reason category t n' block' g'' :
  let id := N.of_nat (size g.(bg_senate).(hs_veto_proposals)) + 1 in
  let calls := CallInitiateVeto initiator target reason category (Some t) :: in_favour id voters in
  founded g0 → fits g0.(bg_commons) → rtc step (0, 0, g0) (n, block, g) →
  is_Some (g.(bg_senate).(hs_members) !! initiator) →
  NoDup voters → voters ≠ [] → Forall (λ k, is_Some (g.(bg_senate).(hs_members) !! k)) voters →
  veto_threshold_of g.(bg_senate).(hs_config) (member_count g.(bg_senate)) <= N.of_nat (length voters) →
  t + 604800 <= U64_MAX →
  rtc step (n + N.of_nat (length calls), block, calls_at block calls g) (n', block', g'') → n' <= U64_MAX →
  can_execute g'' target ≠ Ok true.
Proof.
  intros id calls Hf Hfit Hsteps Hinit Hnd Hne Hmem Hth Ht Hlater Hn'.
  pose proof (steps_grow _ _ Hlater) as Hle. cbn in Hle.
  pose proof (steps_kept g0 _ _ Hfit Hsteps ltac:(cbn; lia) (founded_ok g0 0 Hf)) as Hok.
  pose proof (steps_kept g0 _ _ Hfit (calls_steps block calls n g) ltac:(cbn; lia) Hok) as Hok'.
  apply (vetoed_blocks g'' id). eapply (vetoed_steps g0 id target _ (n', block', g'')); [done|done|done|done|].
  cbn [snd]. destruct Hok as [_ Hs]. pose proof (so_size _ _ _ Hs).
  set (v := {| vp_id := id; vp_target_proposal_id := target; vp_initiator := initiator; vp_reason := reason;
               vp_veto_category := category; vp_votes := ∅; vp_status := VetoPending;
               vp_created_at := t; vp_expires_at := t + 604800 |}).
  assert (after (CallInitiateVeto initiator target reason category (Some t)) block g
          = set_senate (put_veto id v g.(bg_senate)) g) as Hafter.
  { cbn [after on_senate zoom snd]. unfold initiate_veto. mrun. rewrite bool_decide_true by done. cbn.
    unfold cast. rewrite N.mod_small by lia. rewrite u_add_ok by lia. cbn. rewrite u_add_ok by lia. done. }
  unfold calls, calls_at. cbn [foldl]. rewrite Hafter.
  apply (votes_pass block id target voters _ v); cbn; try done.
  - by rewrite lookup_insert_eq.
  - apply Forall_forall. intros k _. by rewrite lookup_empty.
Qed.

(** Under the default configuration the quorum is a share of the plain tokens and the
    votes count their square roots: where every holder has at least one token, no
    proposal passes, along any history. *)
Lemma default_never_passes g0 n block g :
  founded g0 → g0.(bg_commons).(ht_config) = CommonsConfig_default →
  whole_tokens g0.(bg_commons) → supply g0.(bg_commons) <= U128_MAX →
  rtc step (0, 0, g0) (n, block, g) → n <= U64_MAX →
  ∀ i, can_execute g i ≠ Ok true.
Proof.
  intros Hf Hc Hw Hs Hsteps Hn i Hx.
  assert (fits g0.(bg_commons)) as Hfit.
  { split; [done|]. pose proof (powers_small _ ltac:(by rewrite Hc) Hw Hs). lia. }
  destruct (steps_kept g0 _ _ Hfit Hsteps Hn (founded_ok g0 0 Hf)) as [Hok _].
  apply can_execute_iff in Hx as [(p & Hp & Hpass) _].
  destruct (co_ids _ _ _ _ Hok i p Hp) as [_ [_ _ _ Hv Hst]].
  destruct Hst as [|[_ Hst]]; [congruence|]. rewrite decide_False in Hst; [congruence|]. by apply not_carried.
Qed.

(** A council of up to fifty never needs more than half of its members for a veto, ... *)
Lemma veto_without_majority :
  Forall (λ n, 2 * veto_threshold_of SenateConfig_default n <= n) (N.of_nat <$> seq 0 51).
Proof. apply (bool_decide_unpack _). by vm_compute. Qed.

(** ... and a council of one passes a veto by voting against it. *)
Lemma lone_vote_against s k v :
  s.(hs_config) = SenateConfig_default → member_count s = 1 → is_Some (s.(hs_members) !! k) →
  s.(hs_veto_proposals) !! 1 = Some v → v.(vp_votes) !! k = None →
  ∃ s' v', vote_on_veto 1 k false s = (Ok tt, s')
    ∧ s'.(hs_veto_proposals) !! 1 = Some v' ∧ v'.(vp_status) = VetoPassed.
Proof.
  intros Hc Hn Hm Hv Hnone. unfold vote_on_veto. mrun. rewrite bool_decide_true by done. cbn. rewrite Hv. cbn.
  rewrite Hnone. cbn. do 2 eexists. split; [done|]. cbn. rewrite lookup_insert_eq. split; [done|]. cbn.
  rewrite bool_decide_true; [done|]. rewrite Hc, Hn. apply N.le_0_l.
Qed.
End claims.

(** ** A concrete history

    Two holders and two members; the first holder proposes, votes and finalises. *)
Definition gov_build : Build := {| overflow_checks := true; feature_sgx := false; feature_zkp := false |}.

Definition sample_holder (k : N) : TokenHolderInfo := {|
  th_address := [k]; th_balance := 1000; th_staked := 500; th_voting_power := 1500;
  th_delegated_to := None; th_last_vote := None |}.
Definition sample_commons : HouseOfTokens := {|
  ht_holders := {[ [1] := sample_holder 1; [2] := sample_holder 2 ]}; ht_delegations := ∅; ht_proposals := ∅;
  ht_config := {| cc_proposal_threshold := 100; cc_quorum_percentage := F0_04; cc_voting_period_blocks := 10;
                  cc_timelock_blocks := 5; cc_quadratic_voting := false; cc_max_voting_power_percentage := F0_10 |};
  ht_voting_history := [] |}.
Definition sample_entity (k : N) : SovereignEntity := {|
  se_entity_id := [k]; se_name := "member"; se_entity_type := ValidatorOperator 1; se_jurisdiction := UAE;
  se_verification := VerificationPending; se_voting_key := [k]; se_joined_at := 0; se_stake := 100000 * 10 ^ 18 |}.
Definition sample_member (k : N) : SenateMember := {|
  sm_entity := sample_entity k;
  sm_seat := {| st_seat_id := k; st_seat_type := Founding; st_term_expires := U64_MAX; st_removable := false |};
  sm_voting_record := SenateVotingRecord_default |}.
Definition sample_senate : HouseOfSovereigns := {|
  hs_members := {[ [7] := sample_member 7; [8] := sample_member 8 ]}; hs_min_members := 5; hs_max_members := 21;
  hs_veto_proposals := ∅; hs_security_proposals := ∅; hs_config := SenateConfig_default |}.
Definition sample_houses : BicameralGovernance := {|
  bg_commons := sample_commons; bg_senate := sample_senate;
  bg_treasury := {| tr_balance := 0; tr_reserved := 0; tr_emergency_fund := 0 |}; bg_next_proposal_id := 0 |}.

Definition proposed : BicameralGovernance :=
  @after gov_build (CallCreate [1] (Signal "topic") "title" "text" []) 5 sample_houses.
Definition voted : BicameralGovernance := @after gov_build (CallVote 1 [1] For None (Some 100)) 6 proposed.
Definition finalised : BicameralGovernance := @after gov_build (CallFinalize 1) 20 voted.

Lemma sample_fits : fits sample_commons.
Proof. split; by vm_compute. Qed.

Lemma sample_steps : rtc (@step gov_build) (0, 0, sample_houses) (3, 20, finalised).
Proof.
  eapply rtc_l; [by apply (@step_call gov_build 0 0 5 sample_houses (CallCreate [1] (Signal "topic") "title" "text" []))|].
  eapply rtc_l; [by apply (@step_call gov_build 1 5 6 proposed (CallVote 1 [1] For None (Some 100)))|].
  by apply rtc_once, (@step_call gov_build 2 6 20 voted (CallFinalize 1)).
Qed.

Lemma governance_sound_witness :
  can_execute finalised 1 = Ok true
  ∧ ∃ p, finalised.(bg_commons).(ht_proposals) !! 1 = Some p ∧ carried sample_commons p.
Proof.
  assert (can_execute finalised 1 = Ok true) as Hx by (vm_compute; reflexivity). split; [exact Hx|].
  destruct (@governance_sound gov_build sample_houses 3 20 finalised) as (_ & Hexec & _);
    [done|exact sample_fits|exact sample_steps|done|].
  destruct (Hexec 1 Hx) as [Hp _]. exact Hp.
Defined.

Lemma veto_holds_witness :
  can_execute (@calls_at gov_build 20
    (CallInitiateVeto [8] 1 "risk" Security (Some 100) :: in_favour 1 [[7]]) finalised) 1 ≠ Ok true.
Proof.
  apply (@veto_holds gov_build sample_houses 3 20 finalised [8] [[7]] 1 "risk" Security 100 5 20).
  - done.
  - exact sample_fits.
  - exact sample_steps.
  - vm_compute. eauto.
  - apply NoDup_singleton.
  - done.
  - apply Forall_singleton. vm_compute. eauto.
  - vm_compute. done.
  - done.
  - apply rtc_refl.
  - done.
Defined.
