(* ===== verification/Bridge.v ===== *)
(** * The bridge relayer

    [crates/bridge/src]: [types.rs], [error.rs], [config.rs], [storage.rs], [processor.rs],
    [consensus.rs], the counters of [metrics.rs] and the service of [lib.rs].  One record is
    the whole relayer: what its parts share is the stored state, and every call runs to its
    end before the next.  The storage keeps its state in memory and writes the whole of it
    to a file after every change.  What the machine does to a run is part of the state: the
    content of the file, the outcomes of the file operations to come (a text is an error)
    and the readings of the clock to come ([None]: before 1970).  The locks of the storage
    are never poisoned, because no update of the state panics. *)
From S2P Require Import Prelude SysTypes Precompile.
From stdpp Require Import base gmap list strings pretty.
From Stdlib Require Import ZArith Lia.
#[local] Open Scope N_scope.

Abbreviation EthAddress := (list N).
Abbreviation AethelredAddress := (list N).
Abbreviation Hash := (list N).

(** ** Errors *)
Inductive BridgeError :=
| ConfigError (m : string) | EthereumError (m : string) | AethelredError (m : string)
| StorageError (m : string) | ConsensusFault (m : string) | Signing (m : string)
| Verification (m : string) | Duplicate (m : string) | RateLimit (m : string)
| InvalidInput (m : string) | Network (m : string) | Timeout (m : string) | Internal (m : string).

Definition BridgeError_to_string (e : BridgeError) : string :=
  match e with
  | ConfigError m => "Configuration error: " +:+ m
  | EthereumError m => "Ethereum error: " +:+ m
  | AethelredError m => "Aethelred error: " +:+ m
  | StorageError m => "Storage error: " +:+ m
  | ConsensusFault m => "Consensus error: " +:+ m
  | Signing m => "Signing error: " +:+ m
  | Verification m => "Verification error: " +:+ m
  | Duplicate m => "Duplicate event: " +:+ m
  | RateLimit m => "Rate limit exceeded: " +:+ m
  | InvalidInput m => "Invalid input: " +:+ m
  | Network m => "Network error: " +:+ m
  | Timeout m => "Timeout: " +:+ m
  | Internal m => "Internal error: " +:+ m
  end.

(** ** Types *)
Record EthereumDeposit := {
  ed_deposit_id : Hash;
  ed_depositor : EthAddress;
  ed_aethelred_recipient : AethelredAddress;
  ed_token : EthAddress;
  ed_amount : N;
  ed_nonce : N;
  ed_block_number : N;
  ed_block_hash : Hash;
  ed_tx_hash : Hash;
  ed_log_index : N;
  ed_timestamp : N;
}.

Inductive DepositStatus :=
| DepositPending | DepositConfirmed | MintProposed | DepositCompleted | DepositCancelled | DepositFailed.
#[export] Instance DepositStatus_eq_dec : EqDecision DepositStatus.
Proof. solve_decision. Defined.
Definition DepositStatus_debug (s : DepositStatus) : string :=
  match s with
  | DepositPending => "Pending" | DepositConfirmed => "Confirmed" | MintProposed => "MintProposed"
  | DepositCompleted => "Completed" | DepositCancelled => "Cancelled" | DepositFailed => "Failed"
  end.

Inductive TokenType := WrappedETH | WrappedERC20 (token : EthAddress) | NativeAETHEL.

Record AethelredBurn := {
  ab_burn_id : Hash;
  ab_burner : AethelredAddress;
  ab_eth_recipient : EthAddress;
  ab_token_type : TokenType;
  ab_amount : N;
  ab_nonce : N;
  ab_block_height : N;
  ab_block_hash : Hash;
  ab_tx_hash : Hash;
  ab_timestamp : N;
}.

Inductive WithdrawalStatus :=
| WithdrawalPending | WithdrawalConfirmed | WithdrawalProposed | WithdrawalConsensusReached
| WithdrawalReadyToProcess | WithdrawalCompleted | WithdrawalChallenged | WithdrawalFailed.
#[export] Instance WithdrawalStatus_eq_dec : EqDecision WithdrawalStatus.
Proof. solve_decision. Defined.
Definition WithdrawalStatus_debug (s : WithdrawalStatus) : string :=
  match s with
  | WithdrawalPending => "Pending" | WithdrawalConfirmed => "Confirmed"
  | WithdrawalProposed => "WithdrawalProposed" | WithdrawalConsensusReached => "ConsensusReached"
  | WithdrawalReadyToProcess => "ReadyToProcess" | WithdrawalCompleted => "Completed"
  | WithdrawalChallenged => "Challenged" | WithdrawalFailed => "Failed"
  end.

Record RelayerVote := {
  rv_relayer : AethelredAddress;
  rv_approve : bool;
  rv_signature : bytes;
  rv_timestamp : N;
}.

Inductive MintProposalStatus :=
| MintVoting | MintConsensusReached | MintDone | MintExpired | MintRejected.
#[export] Instance MintProposalStatus_eq_dec : EqDecision MintProposalStatus.
Proof. solve_decision. Defined.

Inductive WithdrawalProposalStatus :=
| UnlockVoting | SubmittedToEthereum | InChallengePeriod | UnlockReadyToProcess | UnlockDone
| UnlockChallenged | UnlockExpired.
#[export] Instance WithdrawalProposalStatus_eq_dec : EqDecision WithdrawalProposalStatus.
Proof. solve_decision. Defined.

Record MintProposal := {
  mp_proposal_id : Hash;
  mp_deposit : EthereumDeposit;
  mp_proposer : AethelredAddress;
  mp_votes : list RelayerVote;
  mp_status : MintProposalStatus;
  mp_created_at : N;
  mp_updated_at : N;
}.

Record WithdrawalProposal := {
  wp_proposal_id : Hash;
  wp_burn : AethelredBurn;
  wp_proposer : AethelredAddress;
  wp_votes : list RelayerVote;
  wp_status : WithdrawalProposalStatus;
  wp_created_at : N;
  wp_challenge_end_time : N;
  wp_updated_at : N;
}.

Inductive EthereumEvent :=
| Deposit (deposit : EthereumDeposit)
| DepositFinalized (deposit_id : Hash) (block_number : N)
| WithdrawalProcessed (proposal_id : Hash) (recipient : EthAddress) (amount : N) (tx_hash : Hash)
| Reorg (from_block to_block : N) (affected_deposits : list Hash)
| EthNewBlock (number : N) (hash : Hash) (timestamp : N).

Inductive AethelredEvent :=
| Burn (burn : AethelredBurn)
| BurnFinalized (burn_id : Hash) (block_height : N)
| MintCompleted (proposal_id : Hash) (recipient : AethelredAddress) (amount : N) (tx_hash : Hash)
| AethelredNewBlock (height : N) (hash : Hash) (timestamp : N).

Record RelayerIdentity := {
  ri_address : AethelredAddress;
  ri_eth_address : EthAddress;
  ri_public_key : bytes;
  ri_stake : N;
  ri_active : bool;
}.

Record RelayerSet := {
  rs_relayers : list RelayerIdentity;
  rs_threshold_bps : N;
  rs_version : N;
  rs_total_stake : N;
}.

Definition active_count (s : RelayerSet) : N := N.of_nat (length (filter (λ r, r.(ri_active) = true) s.(rs_relayers))).

(** [a.div_ceil(b)] *)
Definition div_ceil (a b : N) : N := if bool_decide (a mod b = 0) then a / b else a / b + 1.

Section votes_required.
Context `{Build}.

Definition min_votes_required (s : RelayerSet) : outcome BridgeError N :=
  if bool_decide (active_count s = 0) then Ok 1
  else
    numerator ← u_mul U64_MAX (active_count s) s.(rs_threshold_bps);
    Ok (N.max (div_ceil numerator 10000) 1).

Definition has_consensus (s : RelayerSet) (vote_count : N) : outcome BridgeError bool :=
  required ← min_votes_required s; Ok (bool_decide (required <= vote_count)).
End votes_required.

Definition eth_address_to_hex (addr : EthAddress) : string := "0x" +:+ hex_encode addr.
Definition aethelred_address_to_hex (addr : AethelredAddress) : string := "0x" +:+ hex_encode addr.

(** [s.strip_prefix(prefix)] *)
Fixpoint strip_prefix (prefix s : string) : option string :=
  match prefix, s with
  | EmptyString, _ => Some s
  | String c prefix, String d s => if bool_decide (c = d) then strip_prefix prefix s else None
  | String _ _, EmptyString => None
  end.

(** ** Configuration *)
Record RelayerIdentityConfig := {
  ic_private_key_path : string;
  ic_aethelred_address : option string;
  ic_eth_address : option string;
}.
Definition RelayerIdentityConfig_default : RelayerIdentityConfig := {|
  ic_private_key_path := "./keys/relayer.key"; ic_aethelred_address := None; ic_eth_address := None |}.

Inductive GasStrategy := Slow | Medium | Fast | Fixed (price : N).

Record EthereumConfig := {
  ec_rpc_url : string;
  ec_ws_url : option string;
  ec_chain_id : N;
  ec_bridge_address : string;
  ec_confirmations : N;
  ec_poll_interval_secs : N;
  ec_max_blocks_per_scan : N;
  ec_start_block : option N;
  ec_gas_strategy : GasStrategy;
  ec_max_gas_price_gwei : N;
}.
Definition EthereumConfig_testnet : EthereumConfig := {|
  ec_rpc_url := "https://eth-sepolia.g.alchemy.com/v2/YOUR_KEY";
  ec_ws_url := Some "wss://eth-sepolia.g.alchemy.com/v2/YOUR_KEY"; ec_chain_id := 11155111;
  ec_bridge_address := ""; ec_confirmations := 6; ec_poll_interval_secs := 12;
  ec_max_blocks_per_scan := 1000; ec_start_block := None; ec_gas_strategy := Medium;
  ec_max_gas_price_gwei := 100 |}.
Definition EthereumConfig_mainnet : EthereumConfig := {|
  ec_rpc_url := "https://eth-mainnet.g.alchemy.com/v2/YOUR_KEY";
  ec_ws_url := Some "wss://eth-mainnet.g.alchemy.com/v2/YOUR_KEY"; ec_chain_id := 1;
  ec_bridge_address := ""; ec_confirmations := 12; ec_poll_interval_secs := 12;
  ec_max_blocks_per_scan := 1000; ec_start_block := None; ec_gas_strategy := Medium;
  ec_max_gas_price_gwei := 200 |}.

Record AethelredConfig := {
  ac_rpc_url : string;
  ac_ws_url : option string;
  ac_chain_id : string;
  ac_bridge_module_address : string;
  ac_confirmations : N;
  ac_poll_interval_secs : N;
  ac_start_block : option N;
}.
Definition AethelredConfig_testnet : AethelredConfig := {|
  ac_rpc_url := "https://rpc.testnet.aethelred.io"; ac_ws_url := Some "wss://ws.testnet.aethelred.io";
  ac_chain_id := "aethelred-testnet-1";
  ac_bridge_module_address := "0x0000000000000000000000000000000000000006";
  ac_confirmations := 1; ac_poll_interval_secs := 6; ac_start_block := None |}.
Definition AethelredConfig_mainnet : AethelredConfig := {|
  ac_rpc_url := "https://rpc.mainnet.aethelred.io"; ac_ws_url := Some "wss://ws.mainnet.aethelred.io";
  ac_chain_id := "aethelred-mainnet-1";
  ac_bridge_module_address := "0x0000000000000000000000000000000000000006";
  ac_confirmations := 3; ac_poll_interval_secs := 6; ac_start_block := None |}.

Record ConsensusConfig := {
  bc_threshold_bps : N;
  bc_proposal_timeout_secs : N;
  bc_vote_timeout_secs : N;
  bc_max_pending_proposals : N;
}.
Definition ConsensusConfig_default : ConsensusConfig := {|
  bc_threshold_bps := 6700; bc_proposal_timeout_secs := 1800; bc_vote_timeout_secs := 180;
  bc_max_pending_proposals := 500 |}.

Record BridgeConfig := {
  bc_identity : RelayerIdentityConfig;
  bc_ethereum : EthereumConfig;
  bc_aethelred : AethelredConfig;
  bc_consensus : ConsensusConfig;
  bc_storage_path : string;
  bc_metrics_enabled : bool;
  bc_metrics_port : N;
  bc_log_level : string;
}.
Definition BridgeConfig_default : BridgeConfig := {|
  bc_identity := RelayerIdentityConfig_default; bc_ethereum := EthereumConfig_testnet;
  bc_aethelred := AethelredConfig_testnet; bc_consensus := ConsensusConfig_default;
  bc_storage_path := "./data/bridge"; bc_metrics_enabled := true; bc_metrics_port := 9100;
  bc_log_level := "info" |}.
Definition BridgeConfig_testnet : BridgeConfig := {|
  bc_identity := RelayerIdentityConfig_default; bc_ethereum := EthereumConfig_testnet;
  bc_aethelred := AethelredConfig_testnet; bc_consensus := ConsensusConfig_default;
  bc_storage_path := "./data/bridge-testnet"; bc_metrics_enabled := true; bc_metrics_port := 9100;
  bc_log_level := "debug" |}.
Definition BridgeConfig_mainnet : BridgeConfig := {|
  bc_identity := RelayerIdentityConfig_default; bc_ethereum := EthereumConfig_mainnet;
  bc_aethelred := AethelredConfig_mainnet;
  bc_consensus := {| bc_threshold_bps := 6700; bc_proposal_timeout_secs := 3600;
                     bc_vote_timeout_secs := 300; bc_max_pending_proposals := 1000 |};
  bc_storage_path := "./data/bridge-mainnet"; bc_metrics_enabled := true; bc_metrics_port := 9100;
  bc_log_level := "info" |}.

Definition BridgeConfig_validate (c : BridgeConfig) : outcome BridgeError unit :=
  if bool_decide (c.(bc_ethereum).(ec_rpc_url) = EmptyString) then Err (ConfigError "Ethereum RPC URL is required")
  else if bool_decide (c.(bc_ethereum).(ec_bridge_address) = EmptyString)
  then Err (ConfigError "Bridge contract address is required")
  else if bool_decide (c.(bc_aethelred).(ac_rpc_url) = EmptyString) then Err (ConfigError "Aethelred RPC URL is required")
  else if bool_decide (c.(bc_consensus).(bc_threshold_bps) = 0)
          || bool_decide (10000 < c.(bc_consensus).(bc_threshold_bps))
  then Err (ConfigError "Consensus threshold must be between 1 and 10000 basis points")
  else Ok tt.

(** ** The stored state *)
Record PersistedBridgeState := {
  ps_last_eth_block : option N;
  ps_eth_block_hashes : gmap N Hash;
  ps_last_aethelred_block : option N;
  ps_deposits : gmap Hash EthereumDeposit;
  ps_deposit_statuses : gmap Hash DepositStatus;
  ps_pending_deposits : gmap Hash EthereumDeposit;
  ps_burns : gmap Hash AethelredBurn;
  ps_burn_statuses : gmap Hash WithdrawalStatus;
  ps_pending_burns : gmap Hash AethelredBurn;
  ps_mint_proposals : gmap Hash MintProposal;
  ps_withdrawal_proposals : gmap Hash WithdrawalProposal;
}.
Definition PersistedBridgeState_default : PersistedBridgeState := {|
  ps_last_eth_block := None; ps_eth_block_hashes := ∅; ps_last_aethelred_block := None;
  ps_deposits := ∅; ps_deposit_statuses := ∅; ps_pending_deposits := ∅; ps_burns := ∅;
  ps_burn_statuses := ∅; ps_pending_burns := ∅; ps_mint_proposals := ∅; ps_withdrawal_proposals := ∅ |}.

(** The libraries ([sha2], [hex], [bincode]) and which paths exist. *)
Class BridgeLib := {
  br_sha256 : bytes → Hash;
  br_hex_decode : string → bytes + string;
  br_serialize : PersistedBridgeState → bytes + string;
  br_deserialize : bytes → PersistedBridgeState + string;
  br_path_exists : string → bool;
}.

Section deposit_id.
Context `{BridgeLib}.

Definition deposit_preimage (d : EthereumDeposit) : bytes :=
  string_bytes "eth-deposit-v1:" ++ d.(ed_depositor) ++ d.(ed_aethelred_recipient) ++ d.(ed_token)
  ++ to_le_bytes 16 d.(ed_amount) ++ to_le_bytes 8 d.(ed_nonce) ++ d.(ed_tx_hash)
  ++ to_le_bytes 4 d.(ed_log_index).
Definition generate_id (d : EthereumDeposit) : Hash := br_sha256 (deposit_preimage d).

Definition parse_sized (n : nat) (s : string) : option bytes :=
  let s := default s (strip_prefix "0x" s) in
  match br_hex_decode s with
  | inl bs => if bool_decide (length bs = n) then Some bs else None
  | inr _ => None
  end.
Definition parse_eth_address (s : string) : option EthAddress := parse_sized 20 s.
Definition parse_aethelred_address (s : string) : option AethelredAddress := parse_sized 32 s.

Definition decode_fixed_hex (n : nat) (value field_name : string) : outcome BridgeError bytes :=
  let trimmed := match strip_prefix "0x" value with
                 | Some s => s
                 | None => default value (strip_prefix "0X" value)
                 end in
  match br_hex_decode trimmed with
  | inr e => Err (ConfigError ("Invalid " +:+ field_name +:+ " hex encoding: " +:+ e))
  | inl decoded =>
      if bool_decide (length decoded = n) then Ok decoded
      else Err (ConfigError ("Invalid " +:+ field_name +:+ " length: expected " +:+ pretty (N.of_nat n)
                             +:+ " bytes, got " +:+ pretty (N.of_nat (length decoded))))
  end.

Definition aethelred_address_bytes (c : RelayerIdentityConfig) : outcome BridgeError AethelredAddress :=
  match c.(ic_aethelred_address) with
  | None => Err (ConfigError "Relayer Aethelred address is not configured")
  | Some address => decode_fixed_hex 32 address "relayer Aethelred address"
  end.

Definition require_private_key (c : RelayerIdentityConfig) : outcome BridgeError unit :=
  if bool_decide (c.(ic_private_key_path) = EmptyString)
  then Err (ConfigError "Relayer private key path is not configured")
  else if negb (br_path_exists c.(ic_private_key_path))
  then Err (ConfigError ("Relayer private key file not found: " +:+ c.(ic_private_key_path)))
  else Ok tt.
End deposit_id.

(** * Storage, events and votes *)

Definition with_last_eth_block (last_eth_block : option N) (s : PersistedBridgeState) : PersistedBridgeState := {|
  ps_last_eth_block := last_eth_block; ps_eth_block_hashes := s.(ps_eth_block_hashes);
  ps_last_aethelred_block := s.(ps_last_aethelred_block); ps_deposits := s.(ps_deposits);
  ps_deposit_statuses := s.(ps_deposit_statuses); ps_pending_deposits :=
  s.(ps_pending_deposits); ps_burns := s.(ps_burns); ps_burn_statuses := s.(ps_burn_statuses);
  ps_pending_burns := s.(ps_pending_burns); ps_mint_proposals := s.(ps_mint_proposals);
  ps_withdrawal_proposals := s.(ps_withdrawal_proposals) |}.
Definition with_last_aethelred_block (last_aethelred_block : option N) (s : PersistedBridgeState) : PersistedBridgeState := {|
  ps_last_eth_block := s.(ps_last_eth_block); ps_eth_block_hashes := s.(ps_eth_block_hashes);
  ps_last_aethelred_block := last_aethelred_block; ps_deposits := s.(ps_deposits);
  ps_deposit_statuses := s.(ps_deposit_statuses); ps_pending_deposits :=
  s.(ps_pending_deposits); ps_burns := s.(ps_burns); ps_burn_statuses := s.(ps_burn_statuses);
  ps_pending_burns := s.(ps_pending_burns); ps_mint_proposals := s.(ps_mint_proposals);
  ps_withdrawal_proposals := s.(ps_withdrawal_proposals) |}.
Definition with_deposits (eth_block_hashes : gmap N Hash) (deposits : gmap Hash EthereumDeposit) (deposit_statuses : gmap Hash DepositStatus) (pending_deposits : gmap Hash EthereumDeposit) (s : PersistedBridgeState) : PersistedBridgeState := {|
  ps_last_eth_block := s.(ps_last_eth_block); ps_eth_block_hashes := eth_block_hashes;
  ps_last_aethelred_block := s.(ps_last_aethelred_block); ps_deposits := deposits;
  ps_deposit_statuses := deposit_statuses; ps_pending_deposits := pending_deposits; ps_burns :=
  s.(ps_burns); ps_burn_statuses := s.(ps_burn_statuses); ps_pending_burns :=
  s.(ps_pending_burns); ps_mint_proposals := s.(ps_mint_proposals); ps_withdrawal_proposals :=
  s.(ps_withdrawal_proposals) |}.
Definition with_burns (burns : gmap Hash AethelredBurn) (burn_statuses : gmap Hash WithdrawalStatus) (pending_burns : gmap Hash AethelredBurn) (s : PersistedBridgeState) : PersistedBridgeState := {|
  ps_last_eth_block := s.(ps_last_eth_block); ps_eth_block_hashes := s.(ps_eth_block_hashes);
  ps_last_aethelred_block := s.(ps_last_aethelred_block); ps_deposits := s.(ps_deposits);
  ps_deposit_statuses := s.(ps_deposit_statuses); ps_pending_deposits :=
  s.(ps_pending_deposits); ps_burns := burns; ps_burn_statuses := burn_statuses;
  ps_pending_burns := pending_burns; ps_mint_proposals := s.(ps_mint_proposals);
  ps_withdrawal_proposals := s.(ps_withdrawal_proposals) |}.
Definition with_mint_proposals (mint_proposals : gmap Hash MintProposal) (s : PersistedBridgeState) : PersistedBridgeState := {|
  ps_last_eth_block := s.(ps_last_eth_block); ps_eth_block_hashes := s.(ps_eth_block_hashes);
  ps_last_aethelred_block := s.(ps_last_aethelred_block); ps_deposits := s.(ps_deposits);
  ps_deposit_statuses := s.(ps_deposit_statuses); ps_pending_deposits :=
  s.(ps_pending_deposits); ps_burns := s.(ps_burns); ps_burn_statuses := s.(ps_burn_statuses);
  ps_pending_burns := s.(ps_pending_burns); ps_mint_proposals := mint_proposals;
  ps_withdrawal_proposals := s.(ps_withdrawal_proposals) |}.
Definition with_withdrawal_proposals (withdrawal_proposals : gmap Hash WithdrawalProposal) (s : PersistedBridgeState) : PersistedBridgeState := {|
  ps_last_eth_block := s.(ps_last_eth_block); ps_eth_block_hashes := s.(ps_eth_block_hashes);
  ps_last_aethelred_block := s.(ps_last_aethelred_block); ps_deposits := s.(ps_deposits);
  ps_deposit_statuses := s.(ps_deposit_statuses); ps_pending_deposits :=
  s.(ps_pending_deposits); ps_burns := s.(ps_burns); ps_burn_statuses := s.(ps_burn_statuses);
  ps_pending_burns := s.(ps_pending_burns); ps_mint_proposals := s.(ps_mint_proposals);
  ps_withdrawal_proposals := withdrawal_proposals |}.

Record BridgeMetrics := {
  mt_eth_deposits : N;
  mt_eth_withdrawals : N;
  mt_aethelred_mints : N;
  mt_aethelred_burns : N;
  mt_consensus_rounds : N;
  mt_failed_txs : N;
}.
Definition BridgeMetrics_new : BridgeMetrics := {|
  mt_eth_deposits := 0; mt_eth_withdrawals := 0; mt_aethelred_mints := 0; mt_aethelred_burns := 0;
  mt_consensus_rounds := 0; mt_failed_txs := 0 |}.

(** [fetch_add(1)] wraps. *)
Definition bumped (n : N) : N := (n + 1) mod (U64_MAX + 1).
Definition increment_eth_deposits (m : BridgeMetrics) : BridgeMetrics := {|
  mt_eth_deposits := bumped m.(mt_eth_deposits); mt_eth_withdrawals := m.(mt_eth_withdrawals);
  mt_aethelred_mints := m.(mt_aethelred_mints); mt_aethelred_burns := m.(mt_aethelred_burns);
  mt_consensus_rounds := m.(mt_consensus_rounds); mt_failed_txs := m.(mt_failed_txs) |}.
Definition increment_eth_withdrawals (m : BridgeMetrics) : BridgeMetrics := {|
  mt_eth_deposits := m.(mt_eth_deposits); mt_eth_withdrawals := bumped m.(mt_eth_withdrawals);
  mt_aethelred_mints := m.(mt_aethelred_mints); mt_aethelred_burns := m.(mt_aethelred_burns);
  mt_consensus_rounds := m.(mt_consensus_rounds); mt_failed_txs := m.(mt_failed_txs) |}.
Definition increment_aethelred_mints (m : BridgeMetrics) : BridgeMetrics := {|
  mt_eth_deposits := m.(mt_eth_deposits); mt_eth_withdrawals := m.(mt_eth_withdrawals);
  mt_aethelred_mints := bumped m.(mt_aethelred_mints); mt_aethelred_burns := m.(mt_aethelred_burns);
  mt_consensus_rounds := m.(mt_consensus_rounds); mt_failed_txs := m.(mt_failed_txs) |}.
Definition increment_aethelred_burns (m : BridgeMetrics) : BridgeMetrics := {|
  mt_eth_deposits := m.(mt_eth_deposits); mt_eth_withdrawals := m.(mt_eth_withdrawals);
  mt_aethelred_mints := m.(mt_aethelred_mints); mt_aethelred_burns := bumped m.(mt_aethelred_burns);
  mt_consensus_rounds := m.(mt_consensus_rounds); mt_failed_txs := m.(mt_failed_txs) |}.

Record Relayer := {
  rl_config : BridgeConfig;
  rl_state : PersistedBridgeState;
  rl_disk : option bytes;
  rl_io : list (option string);
  rl_clock : list (option N);
  rl_metrics : BridgeMetrics;
  rl_relayer_set : RelayerSet;
  rl_pending_mints : gmap Hash (list RelayerVote);
  rl_pending_withdrawals : gmap Hash (list RelayerVote);
  rl_eth_last_block : N;
  rl_aethelred_last_block : N;
  rl_running : bool;
}.

Definition set_state (state : PersistedBridgeState) (s : Relayer) : Relayer := {|
  rl_config := s.(rl_config); rl_state := state; rl_disk := s.(rl_disk); rl_io := s.(rl_io);
  rl_clock := s.(rl_clock); rl_metrics := s.(rl_metrics); rl_relayer_set := s.(rl_relayer_set);
  rl_pending_mints := s.(rl_pending_mints); rl_pending_withdrawals :=
  s.(rl_pending_withdrawals); rl_eth_last_block := s.(rl_eth_last_block);
  rl_aethelred_last_block := s.(rl_aethelred_last_block); rl_running := s.(rl_running) |}.
Definition set_disk (disk : option bytes) (s : Relayer) : Relayer := {|
  rl_config := s.(rl_config); rl_state := s.(rl_state); rl_disk := disk; rl_io := s.(rl_io);
  rl_clock := s.(rl_clock); rl_metrics := s.(rl_metrics); rl_relayer_set := s.(rl_relayer_set);
  rl_pending_mints := s.(rl_pending_mints); rl_pending_withdrawals :=
  s.(rl_pending_withdrawals); rl_eth_last_block := s.(rl_eth_last_block);
  rl_aethelred_last_block := s.(rl_aethelred_last_block); rl_running := s.(rl_running) |}.
Definition set_io (io : list (option string)) (s : Relayer) : Relayer := {|
  rl_config := s.(rl_config); rl_state := s.(rl_state); rl_disk := s.(rl_disk); rl_io := io;
  rl_clock := s.(rl_clock); rl_metrics := s.(rl_metrics); rl_relayer_set := s.(rl_relayer_set);
  rl_pending_mints := s.(rl_pending_mints); rl_pending_withdrawals :=
  s.(rl_pending_withdrawals); rl_eth_last_block := s.(rl_eth_last_block);
  rl_aethelred_last_block := s.(rl_aethelred_last_block); rl_running := s.(rl_running) |}.
Definition set_clock (clock : list (option N)) (s : Relayer) : Relayer := {|
  rl_config := s.(rl_config); rl_state := s.(rl_state); rl_disk := s.(rl_disk); rl_io :=
  s.(rl_io); rl_clock := clock; rl_metrics := s.(rl_metrics); rl_relayer_set :=
  s.(rl_relayer_set); rl_pending_mints := s.(rl_pending_mints); rl_pending_withdrawals :=
  s.(rl_pending_withdrawals); rl_eth_last_block := s.(rl_eth_last_block);
  rl_aethelred_last_block := s.(rl_aethelred_last_block); rl_running := s.(rl_running) |}.
Definition set_metrics (metrics : BridgeMetrics) (s : Relayer) : Relayer := {|
  rl_config := s.(rl_config); rl_state := s.(rl_state); rl_disk := s.(rl_disk); rl_io :=
  s.(rl_io); rl_clock := s.(rl_clock); rl_metrics := metrics; rl_relayer_set :=
  s.(rl_relayer_set); rl_pending_mints := s.(rl_pending_mints); rl_pending_withdrawals :=
  s.(rl_pending_withdrawals); rl_eth_last_block := s.(rl_eth_last_block);
  rl_aethelred_last_block := s.(rl_aethelred_last_block); rl_running := s.(rl_running) |}.
Definition set_relayer_set (relayer_set : RelayerSet) (s : Relayer) : Relayer := {|
  rl_config := s.(rl_config); rl_state := s.(rl_state); rl_disk := s.(rl_disk); rl_io :=
  s.(rl_io); rl_clock := s.(rl_clock); rl_metrics := s.(rl_metrics); rl_relayer_set :=
  relayer_set; rl_pending_mints := s.(rl_pending_mints); rl_pending_withdrawals :=
  s.(rl_pending_withdrawals); rl_eth_last_block := s.(rl_eth_last_block);
  rl_aethelred_last_block := s.(rl_aethelred_last_block); rl_running := s.(rl_running) |}.
Definition set_pending_mints (pending_mints : gmap Hash (list RelayerVote)) (s : Relayer) : Relayer := {|
  rl_config := s.(rl_config); rl_state := s.(rl_state); rl_disk := s.(rl_disk); rl_io :=
  s.(rl_io); rl_clock := s.(rl_clock); rl_metrics := s.(rl_metrics); rl_relayer_set :=
  s.(rl_relayer_set); rl_pending_mints := pending_mints; rl_pending_withdrawals :=
  s.(rl_pending_withdrawals); rl_eth_last_block := s.(rl_eth_last_block);
  rl_aethelred_last_block := s.(rl_aethelred_last_block); rl_running := s.(rl_running) |}.
Definition set_pending_withdrawals (pending_withdrawals : gmap Hash (list RelayerVote)) (s : Relayer) : Relayer := {|
  rl_config := s.(rl_config); rl_state := s.(rl_state); rl_disk := s.(rl_disk); rl_io :=
  s.(rl_io); rl_clock := s.(rl_clock); rl_metrics := s.(rl_metrics); rl_relayer_set :=
  s.(rl_relayer_set); rl_pending_mints := s.(rl_pending_mints); rl_pending_withdrawals :=
  pending_withdrawals; rl_eth_last_block := s.(rl_eth_last_block); rl_aethelred_last_block :=
  s.(rl_aethelred_last_block); rl_running := s.(rl_running) |}.
Definition set_eth_last_block (eth_last_block : N) (s : Relayer) : Relayer := {|
  rl_config := s.(rl_config); rl_state := s.(rl_state); rl_disk := s.(rl_disk); rl_io :=
  s.(rl_io); rl_clock := s.(rl_clock); rl_metrics := s.(rl_metrics); rl_relayer_set :=
  s.(rl_relayer_set); rl_pending_mints := s.(rl_pending_mints); rl_pending_withdrawals :=
  s.(rl_pending_withdrawals); rl_eth_last_block := eth_last_block; rl_aethelred_last_block :=
  s.(rl_aethelred_last_block); rl_running := s.(rl_running) |}.
Definition set_aethelred_last_block (aethelred_last_block : N) (s : Relayer) : Relayer := {|
  rl_config := s.(rl_config); rl_state := s.(rl_state); rl_disk := s.(rl_disk); rl_io :=
  s.(rl_io); rl_clock := s.(rl_clock); rl_metrics := s.(rl_metrics); rl_relayer_set :=
  s.(rl_relayer_set); rl_pending_mints := s.(rl_pending_mints); rl_pending_withdrawals :=
  s.(rl_pending_withdrawals); rl_eth_last_block := s.(rl_eth_last_block);
  rl_aethelred_last_block := aethelred_last_block; rl_running := s.(rl_running) |}.
Definition set_running (running : bool) (s : Relayer) : Relayer := {|
  rl_config := s.(rl_config); rl_state := s.(rl_state); rl_disk := s.(rl_disk); rl_io :=
  s.(rl_io); rl_clock := s.(rl_clock); rl_metrics := s.(rl_metrics); rl_relayer_set :=
  s.(rl_relayer_set); rl_pending_mints := s.(rl_pending_mints); rl_pending_withdrawals :=
  s.(rl_pending_withdrawals); rl_eth_last_block := s.(rl_eth_last_block);
  rl_aethelred_last_block := s.(rl_aethelred_last_block); rl_running := running |}.

Definition count (f : BridgeMetrics → BridgeMetrics) : M BridgeError Relayer unit :=
  modify (λ r, set_metrics (f r.(rl_metrics)) r).

(** The next reading of the clock. *)
Definition read_clock : M BridgeError Relayer (option N) := λ r,
  match r.(rl_clock) with
  | [] => (Ok None, r)
  | t :: ts => (Ok t, set_clock ts r)
  end.
(** [duration_since(UNIX_EPOCH).unwrap_or_default().as_secs()] *)
Definition now_secs : M BridgeError Relayer N := t ← read_clock; mret (default 0 t).
(** [duration_since(UNIX_EPOCH).unwrap().as_secs()] *)
Definition now_unwrap : M BridgeError Relayer N :=
  t ← read_clock; lift (match t with Some t => Ok t | None => Panic end).

(** A file operation, with the conversion of its error. *)
Definition file_op : M BridgeError Relayer unit := λ r,
  match r.(rl_io) with
  | [] => (Ok tt, r)
  | None :: io => (Ok tt, set_io io r)
  | Some e :: io => (Err (StorageError e), set_io io r)
  end.

Section storage.
Context `{BridgeLib}.
Abbreviation R := (M BridgeError Relayer).

(** ** Storage *)

(** The new file is written beside the old one and renamed over it. *)
Definition persist_state : R unit :=
  r ← get;
  encoded ← lift (match br_serialize r.(rl_state) with inl bs => Ok bs | inr e => Err (StorageError e) end);
  file_op ;;
  file_op ;;
  modify (set_disk (Some encoded)).

Definition mutate_state (update : PersistedBridgeState → PersistedBridgeState) : R unit :=
  modify (λ r, set_state (update r.(rl_state)) r) ;;
  persist_state.

Definition set_last_eth_block (block : N) : R unit := mutate_state (with_last_eth_block (Some block)).
Definition set_last_aethelred_block (block : N) : R unit :=
  mutate_state (with_last_aethelred_block (Some block)).

Definition has_deposit (s : PersistedBridgeState) (id : Hash) : bool :=
  bool_decide (is_Some (s.(ps_deposits) !! id)) || bool_decide (is_Some (s.(ps_pending_deposits) !! id)).
Definition get_deposit (s : PersistedBridgeState) (id : Hash) : option EthereumDeposit :=
  match s.(ps_deposits) !! id with Some d => Some d | None => s.(ps_pending_deposits) !! id end.

Definition stored_deposit (d : EthereumDeposit) (s : PersistedBridgeState) : PersistedBridgeState :=
  with_deposits (<[d.(ed_block_number) := d.(ed_block_hash)]> s.(ps_eth_block_hashes))
    (<[d.(ed_deposit_id) := d]> s.(ps_deposits))
    (match s.(ps_deposit_statuses) !! d.(ed_deposit_id) with
     | Some _ => s.(ps_deposit_statuses)
     | None => <[d.(ed_deposit_id) := DepositConfirmed]> s.(ps_deposit_statuses)
     end)
    (delete d.(ed_deposit_id) s.(ps_pending_deposits)) s.
Definition store_deposit (d : EthereumDeposit) : R unit := mutate_state (stored_deposit d).

Definition store_pending_deposit (d : EthereumDeposit) : R unit :=
  mutate_state (λ s, with_deposits (<[d.(ed_block_number) := d.(ed_block_hash)]> s.(ps_eth_block_hashes))
    s.(ps_deposits) (<[d.(ed_deposit_id) := DepositPending]> s.(ps_deposit_statuses))
    (<[d.(ed_deposit_id) := d]> s.(ps_pending_deposits)) s).

Definition deposit_closed (status : DepositStatus) : bool :=
  match status with DepositCompleted | DepositCancelled | DepositFailed => true | _ => false end.
Definition deposit_updated (id : Hash) (status : DepositStatus) (s : PersistedBridgeState) : PersistedBridgeState :=
  let statuses := <[id := status]> s.(ps_deposit_statuses) in
  match s.(ps_pending_deposits) !! id with
  | Some d =>
      if deposit_closed status
      then with_deposits s.(ps_eth_block_hashes) (<[id := d]> s.(ps_deposits)) statuses
             (delete id s.(ps_pending_deposits)) s
      else with_deposits s.(ps_eth_block_hashes) s.(ps_deposits) statuses s.(ps_pending_deposits) s
  | None => with_deposits s.(ps_eth_block_hashes) s.(ps_deposits) statuses s.(ps_pending_deposits) s
  end.
Definition update_deposit_status (id : Hash) (status : DepositStatus) : R unit :=
  mutate_state (deposit_updated id status).
Definition pending_deposit_count (s : PersistedBridgeState) : N := N.of_nat (size s.(ps_pending_deposits)).

Definition has_burn (s : PersistedBridgeState) (id : Hash) : bool :=
  bool_decide (is_Some (s.(ps_burns) !! id)) || bool_decide (is_Some (s.(ps_pending_burns) !! id)).
Definition get_burn (s : PersistedBridgeState) (id : Hash) : option AethelredBurn :=
  match s.(ps_burns) !! id with Some b => Some b | None => s.(ps_pending_burns) !! id end.

Definition stored_burn (b : AethelredBurn) (s : PersistedBridgeState) : PersistedBridgeState :=
  with_burns (<[b.(ab_burn_id) := b]> s.(ps_burns))
    (match s.(ps_burn_statuses) !! b.(ab_burn_id) with
     | Some _ => s.(ps_burn_statuses)
     | None => <[b.(ab_burn_id) := WithdrawalConfirmed]> s.(ps_burn_statuses)
     end)
    (delete b.(ab_burn_id) s.(ps_pending_burns)) s.
Definition store_burn (b : AethelredBurn) : R unit := mutate_state (stored_burn b).

Definition store_pending_burn (b : AethelredBurn) : R unit :=
  mutate_state (λ s, with_burns s.(ps_burns) (<[b.(ab_burn_id) := WithdrawalPending]> s.(ps_burn_statuses))
    (<[b.(ab_burn_id) := b]> s.(ps_pending_burns)) s).

Definition burn_closed (status : WithdrawalStatus) : bool :=
  match status with WithdrawalCompleted | WithdrawalChallenged | WithdrawalFailed => true | _ => false end.
Definition burn_updated (id : Hash) (status : WithdrawalStatus) (s : PersistedBridgeState) : PersistedBridgeState :=
  let statuses := <[id := status]> s.(ps_burn_statuses) in
  match s.(ps_pending_burns) !! id with
  | Some b =>
      if burn_closed status
      then with_burns (<[id := b]> s.(ps_burns)) statuses (delete id s.(ps_pending_burns)) s
      else with_burns s.(ps_burns) statuses s.(ps_pending_burns) s
  | None => with_burns s.(ps_burns) statuses s.(ps_pending_burns) s
  end.
Definition update_burn_status (id : Hash) (status : WithdrawalStatus) : R unit :=
  mutate_state (burn_updated id status).

Definition store_mint_proposal (p : MintProposal) : R unit :=
  mutate_state (λ s, with_mint_proposals (<[p.(mp_proposal_id) := p]> s.(ps_mint_proposals)) s).
Definition get_pending_mint_proposals (s : PersistedBridgeState) : list MintProposal :=
  (map_to_list s.(ps_mint_proposals)).*2.

Definition set_mint_status (status : MintProposalStatus) (now : N) (p : MintProposal) : MintProposal := {|
  mp_proposal_id := p.(mp_proposal_id); mp_deposit := p.(mp_deposit); mp_proposer := p.(mp_proposer);
  mp_votes := p.(mp_votes); mp_status := status; mp_created_at := p.(mp_created_at); mp_updated_at := now |}.
Definition update_mint_proposal_status (id : Hash) (status : MintProposalStatus) : R unit :=
  r ← get;
  match r.(rl_state).(ps_mint_proposals) !! id with
  | Some p =>
      now ← now_secs;
      mutate_state (λ s, with_mint_proposals (<[id := set_mint_status status now p]> s.(ps_mint_proposals)) s)
  | None => mutate_state (λ s, s)
  end.

Definition store_withdrawal_proposal (p : WithdrawalProposal) : R unit :=
  mutate_state (λ s, with_withdrawal_proposals (<[p.(wp_proposal_id) := p]> s.(ps_withdrawal_proposals)) s).
Definition get_pending_withdrawal_proposals (s : PersistedBridgeState) : list WithdrawalProposal :=
  (map_to_list s.(ps_withdrawal_proposals)).*2.

Definition set_unlock_status (status : WithdrawalProposalStatus) (now : N) (p : WithdrawalProposal)
  : WithdrawalProposal := {|
  wp_proposal_id := p.(wp_proposal_id); wp_burn := p.(wp_burn); wp_proposer := p.(wp_proposer);
  wp_votes := p.(wp_votes); wp_status := status; wp_created_at := p.(wp_created_at);
  wp_challenge_end_time := p.(wp_challenge_end_time); wp_updated_at := now |}.
Definition update_withdrawal_proposal_status (id : Hash) (status : WithdrawalProposalStatus) : R unit :=
  r ← get;
  match r.(rl_state).(ps_withdrawal_proposals) !! id with
  | Some p =>
      now ← now_secs;
      mutate_state (λ s,
        with_withdrawal_proposals (<[id := set_unlock_status status now p]> s.(ps_withdrawal_proposals)) s)
  | None => mutate_state (λ s, s)
  end.

Definition update_withdrawal_status (id : Hash) (status : WithdrawalStatus) : R unit :=
  mutate_state (λ s, with_burns s.(ps_burns) (<[id := status]> s.(ps_burn_statuses)) s.(ps_pending_burns) s).
Definition pending_withdrawal_count (s : PersistedBridgeState) : N := N.of_nat (size s.(ps_pending_burns)).

(** ** Events *)
Definition validate_deposit (d : EthereumDeposit) : R unit :=
  ensure (negb (bool_decide (d.(ed_amount) = 0))) (InvalidInput "Zero amount deposit") ;;
  ensure (negb (bool_decide (d.(ed_aethelred_recipient) = replicate 32 0))) (InvalidInput "Invalid recipient") ;;
  r ← get;
  ensure (negb (has_deposit r.(rl_state) d.(ed_deposit_id))) (Duplicate "Deposit already exists").

Definition validate_burn (b : AethelredBurn) : R unit :=
  ensure (negb (bool_decide (b.(ab_amount) = 0))) (InvalidInput "Zero amount burn") ;;
  ensure (negb (bool_decide (b.(ab_eth_recipient) = replicate 20 0))) (InvalidInput "Invalid ETH recipient") ;;
  r ← get;
  ensure (negb (has_burn r.(rl_state) b.(ab_burn_id))) (Duplicate "Burn already exists").

Definition handle_eth_deposit (d : EthereumDeposit) : R unit :=
  validate_deposit d ;;
  store_pending_deposit d ;;
  count increment_eth_deposits.

Definition handle_eth_deposit_finalized (deposit_id : Hash) (block_number : N) : R unit :=
  r ← get;
  deposit ← ok_or (get_deposit r.(rl_state) deposit_id) (InvalidInput "Deposit not found");
  proposer ← lift (aethelred_address_bytes r.(rl_config).(bc_identity));
  update_deposit_status deposit_id DepositConfirmed ;;
  now ← now_secs;
  store_mint_proposal {|
    mp_proposal_id := generate_id deposit; mp_deposit := deposit; mp_proposer := proposer;
    mp_votes := []; mp_status := MintVoting; mp_created_at := now; mp_updated_at := now |}.

Definition handle_eth_withdrawal_processed (proposal_id : Hash) : R unit :=
  update_withdrawal_status proposal_id WithdrawalCompleted ;;
  count increment_eth_withdrawals.

Definition handle_eth_reorg (affected_deposits : list Hash) : R unit :=
  for_each affected_deposits (λ id, update_deposit_status id DepositPending).

Definition handle_aethelred_burn (b : AethelredBurn) : R unit :=
  validate_burn b ;;
  store_pending_burn b.

Definition handle_aethelred_burn_finalized (burn_id : Hash) (block_height : N) : R unit :=
  r ← get;
  burn ← ok_or (get_burn r.(rl_state) burn_id) (InvalidInput "Burn not found");
  proposer ← lift (aethelred_address_bytes r.(rl_config).(bc_identity));
  update_burn_status burn_id WithdrawalConfirmed ;;
  now ← now_secs;
  store_withdrawal_proposal {|
    wp_proposal_id := burn_id; wp_burn := burn; wp_proposer := proposer; wp_votes := [];
    wp_status := UnlockVoting; wp_created_at := now; wp_challenge_end_time := 0; wp_updated_at := now |}.

Definition handle_aethelred_mint_completed (proposal_id : Hash) : R unit :=
  update_mint_proposal_status proposal_id MintDone ;;
  r ← get;
  match r.(rl_state).(ps_mint_proposals) !! proposal_id with
  | Some proposal => update_deposit_status proposal.(mp_deposit).(ed_deposit_id) DepositCompleted
  | None => mret tt
  end ;;
  count increment_aethelred_mints.

Definition process_ethereum_event (e : EthereumEvent) : R unit :=
  match e with
  | Deposit deposit => handle_eth_deposit deposit
  | DepositFinalized deposit_id block_number => handle_eth_deposit_finalized deposit_id block_number
  | WithdrawalProcessed proposal_id _ _ _ => handle_eth_withdrawal_processed proposal_id
  | Reorg _ _ affected_deposits => handle_eth_reorg affected_deposits
  | EthNewBlock _ _ _ => mret tt
  end.

Definition process_aethelred_event (e : AethelredEvent) : R unit :=
  match e with
  | Burn burn => handle_aethelred_burn burn
  | BurnFinalized burn_id block_height => handle_aethelred_burn_finalized burn_id block_height
  | MintCompleted proposal_id _ _ _ => handle_aethelred_mint_completed proposal_id
  | AethelredNewBlock _ _ _ => mret tt
  end.
End storage.

(** ** Votes *)
Definition short_hex (bs : bytes) : string := hex_encode (take 8 bs).

Definition verify_vote_signature (vote : RelayerVote) : outcome BridgeError unit :=
  if bool_decide (vote.(rv_relayer) = replicate 32 0) then Err (Verification "Vote relayer address is zero")
  else if bool_decide (vote.(rv_signature) = []) then Err (Verification "Empty signature")
  else Err (Verification "Cryptographic vote signature verification backend is not implemented").

Definition submit_mint_to_aethelred (proposal_id : Hash) : outcome BridgeError unit :=
  Err (AethelredError ("Mint submission backend is not implemented for proposal " +:+ short_hex proposal_id)).
Definition submit_withdrawal_to_ethereum (proposal_id : Hash) : outcome BridgeError unit :=
  Err (EthereumError ("Withdrawal submission backend is not implemented for proposal " +:+ short_hex proposal_id)).

Definition in_active_set (s : RelayerSet) (relayer : AethelredAddress) : bool :=
  existsb (λ r, bool_decide (r.(ri_address) = relayer) && r.(ri_active)) s.(rs_relayers).

Definition already_voted (relayer : AethelredAddress) (votes : list RelayerVote) : bool :=
  existsb (λ v, bool_decide (v.(rv_relayer) = relayer)) votes.

Section consensus.
Context `{Build} `{BridgeLib}.
Abbreviation R := (M BridgeError Relayer).

(** What follows the check of the signature: the vote is counted, and the count compared
    with what the relayer set asks for. *)
Definition count_vote (votes_of : Relayer → gmap Hash (list RelayerVote))
  (set_votes_of : gmap Hash (list RelayerVote) → Relayer → Relayer) (proposal_id : Hash) (vote : RelayerVote)
  : R bool :=
  r ← get;
  ensure (in_active_set r.(rl_relayer_set) vote.(rv_relayer)) (ConsensusFault "Relayer not in active set") ;;
  let votes := default [] (votes_of r !! proposal_id) in
  modify (λ r, set_votes_of (<[proposal_id := votes]> (votes_of r)) r) ;;
  ensure (negb (already_voted vote.(rv_relayer) votes)) (Duplicate "Already voted") ;;
  let votes := votes ++ [vote] in
  modify (λ r, set_votes_of (<[proposal_id := votes]> (votes_of r)) r) ;;
  lift (has_consensus r.(rl_relayer_set) (N.of_nat (length votes))).

Definition record_mint_vote (proposal_id : Hash) (vote : RelayerVote) : R unit :=
  reached ← count_vote rl_pending_mints set_pending_mints proposal_id vote;
  when reached (update_mint_proposal_status proposal_id MintConsensusReached ;;
                lift (submit_mint_to_aethelred proposal_id)).
Definition vote_mint (proposal_id : Hash) (vote : RelayerVote) : R unit :=
  lift (verify_vote_signature vote) ;;
  record_mint_vote proposal_id vote.

Definition record_withdrawal_vote (proposal_id : Hash) (vote : RelayerVote) : R unit :=
  reached ← count_vote rl_pending_withdrawals set_pending_withdrawals proposal_id vote;
  when reached (lift (submit_withdrawal_to_ethereum proposal_id) ;;
                update_withdrawal_proposal_status proposal_id SubmittedToEthereum).
Definition vote_withdrawal (proposal_id : Hash) (vote : RelayerVote) : R unit :=
  lift (verify_vote_signature vote) ;;
  record_withdrawal_vote proposal_id vote.

Definition same_deposit (d d' : EthereumDeposit) : bool :=
  bool_decide (d.(ed_tx_hash) = d'.(ed_tx_hash)) && bool_decide (d.(ed_amount) = d'.(ed_amount))
  && bool_decide (d.(ed_aethelred_recipient) = d'.(ed_aethelred_recipient)).
Definition should_vote_mint (p : MintProposal) (s : PersistedBridgeState) : outcome BridgeError bool :=
  match get_deposit s p.(mp_deposit).(ed_deposit_id) with
  | None => Err (ConsensusFault "Mint proposal deposit is missing")
  | Some stored =>
      if negb (same_deposit stored p.(mp_deposit))
      then Err (ConsensusFault "Mint proposal deposit does not match stored deposit")
      else match s.(ps_deposit_statuses) !! p.(mp_deposit).(ed_deposit_id) with
           | Some DepositConfirmed | Some MintProposed => Ok true
           | Some status =>
               Err (ConsensusFault ("Mint proposal deposit is not ready for voting: " +:+ DepositStatus_debug status))
           | None => Err (ConsensusFault "Mint proposal deposit status is missing")
           end
  end.

Definition same_burn (b b' : AethelredBurn) : bool :=
  bool_decide (b.(ab_tx_hash) = b'.(ab_tx_hash)) && bool_decide (b.(ab_amount) = b'.(ab_amount))
  && bool_decide (b.(ab_eth_recipient) = b'.(ab_eth_recipient)).
Definition should_vote_withdrawal (p : WithdrawalProposal) (s : PersistedBridgeState) : outcome BridgeError bool :=
  match get_burn s p.(wp_burn).(ab_burn_id) with
  | None => Err (ConsensusFault "Withdrawal burn is missing")
  | Some stored =>
      if negb (same_burn stored p.(wp_burn))
      then Err (ConsensusFault "Withdrawal proposal burn does not match stored burn")
      else match s.(ps_burn_statuses) !! p.(wp_burn).(ab_burn_id) with
           | Some WithdrawalConfirmed | Some WithdrawalProposed => Ok true
           | Some status =>
               Err (ConsensusFault ("Withdrawal burn is not ready for voting: " +:+ WithdrawalStatus_debug status))
           | None => Err (ConsensusFault "Withdrawal burn status is missing")
           end
  end.

Definition require_local_identity (c : BridgeConfig) : outcome BridgeError AethelredAddress :=
  _ ← require_private_key c.(bc_identity); aethelred_address_bytes c.(bc_identity).

Definition create_mint_vote (c : BridgeConfig) : outcome BridgeError RelayerVote :=
  relayer ← require_local_identity c;
  Err (Signing ("Cryptographic mint-vote signing backend is not implemented for relayer " +:+ short_hex relayer)).
Definition create_withdrawal_vote (c : BridgeConfig) : outcome BridgeError RelayerVote :=
  relayer ← require_local_identity c;
  Err (Signing ("Cryptographic withdrawal-vote signing backend is not implemented for relayer "
                +:+ short_hex relayer)).

Definition process_pending_mints : R unit :=
  r ← get;
  for_each (get_pending_mint_proposals r.(rl_state)) (λ proposal,
    when (bool_decide (proposal.(mp_status) = MintVoting)) (
      r ← get;
      ready ← lift (should_vote_mint proposal r.(rl_state));
      when ready (
        vote ← lift (create_mint_vote r.(rl_config));
        vote_mint proposal.(mp_proposal_id) vote))).

Definition process_pending_withdrawals : R unit :=
  r ← get;
  for_each (get_pending_withdrawal_proposals r.(rl_state)) (λ proposal,
    when (bool_decide (proposal.(wp_status) = UnlockVoting)) (
      r ← get;
      ready ← lift (should_vote_withdrawal proposal r.(rl_state));
      when ready (
        vote ← lift (create_withdrawal_vote r.(rl_config));
        vote_withdrawal proposal.(wp_proposal_id) vote))).

Definition process_pending : R unit := process_pending_mints ;; process_pending_withdrawals.

Definition check_timeouts : R unit :=
  now ← now_unwrap;
  r ← get;
  let timeout := r.(rl_config).(bc_consensus).(bc_proposal_timeout_secs) in
  for_each (get_pending_mint_proposals r.(rl_state)) (λ proposal,
    age ← lift (u_sub U64_MAX now proposal.(mp_created_at));
    when (bool_decide (timeout < age)) (update_mint_proposal_status proposal.(mp_proposal_id) MintExpired)) ;;
  r ← get;
  for_each (get_pending_withdrawal_proposals r.(rl_state)) (λ proposal,
    age ← lift (u_sub U64_MAX now proposal.(wp_created_at));
    when (bool_decide (timeout < age))
      (update_withdrawal_proposal_status proposal.(wp_proposal_id) UnlockExpired)).

Definition update_relayer_set (new_set : RelayerSet) : R unit := modify (set_relayer_set new_set).
Definition participant_count (r : Relayer) : N := N.of_nat (length r.(rl_relayer_set).(rs_relayers)).

(** ** The service *)

(** [BridgeStorage::open]: the directory, then the file of an earlier run. *)
Definition load_state (disk : option bytes) (read_error : option string) : outcome BridgeError PersistedBridgeState :=
  match disk, read_error with
  | None, _ => Ok PersistedBridgeState_default
  | Some _, Some e => Err (StorageError e)
  | Some [], None => Ok PersistedBridgeState_default
  | Some bs, None => match br_deserialize bs with inl s => Ok s | inr e => Err (StorageError e) end
  end.

Definition empty_relayer_set : RelayerSet := {|
  rs_relayers := []; rs_threshold_bps := 6700; rs_version := 0; rs_total_stake := 0 |}.

Definition start_block (stored configured : option N) : N :=
  match stored with Some b => b | None => default 0 configured end.

Definition BridgeRelayer_new (config : BridgeConfig) (disk : option bytes) (dir_error read_error : option string)
  (io : list (option string)) (clock : list (option N)) : outcome BridgeError Relayer :=
  match dir_error with
  | Some e => Err (StorageError e)
  | None =>
      state ← load_state disk read_error;
      Ok {| rl_config := config; rl_state := state; rl_disk := disk; rl_io := io; rl_clock := clock;
            rl_metrics := BridgeMetrics_new; rl_relayer_set := empty_relayer_set; rl_pending_mints := ∅;
            rl_pending_withdrawals := ∅;
            rl_eth_last_block := start_block state.(ps_last_eth_block) config.(bc_ethereum).(ec_start_block);
            rl_aethelred_last_block :=
              start_block state.(ps_last_aethelred_block) config.(bc_aethelred).(ac_start_block);
            rl_running := false |}
  end.

(** Errors of a call are logged by the loops. *)
Definition logged (m : R unit) : R unit := λ r,
  match m r with
  | (Err _, r) => (Ok tt, r)
  | other => other
  end.

(** [start] raises the flag that the three loops read; a second call changes nothing. *)
Definition start : R unit := modify (set_running true).
Definition stop : R unit := modify (set_running false).

(** One round of each loop; with the flag down the loop has ended. *)
Definition eth_round (event : EthereumEvent) : R unit :=
  r ← get; when r.(rl_running) (logged (process_ethereum_event event)).
Definition aethelred_round (event : AethelredEvent) : R unit :=
  r ← get; when r.(rl_running) (logged (process_aethelred_event event)).
Definition consensus_round : R unit :=
  r ← get; when r.(rl_running) (logged process_pending ;; logged check_timeouts).

Record BridgeStatistics := {
  bs_eth_deposits_processed : N;
  bs_eth_withdrawals_processed : N;
  bs_aethelred_mints_processed : N;
  bs_aethelred_burns_processed : N;
  bs_pending_deposits : N;
  bs_pending_withdrawals : N;
  bs_last_eth_block : N;
  bs_last_aethelred_block : N;
  bs_consensus_participants : N;
  bs_uptime_seconds : N;
}.
Definition statistics (r : Relayer) (uptime : N) : BridgeStatistics := {|
  bs_eth_deposits_processed := r.(rl_metrics).(mt_eth_deposits);
  bs_eth_withdrawals_processed := r.(rl_metrics).(mt_eth_withdrawals);
  bs_aethelred_mints_processed := r.(rl_metrics).(mt_aethelred_mints);
  bs_aethelred_burns_processed := r.(rl_metrics).(mt_aethelred_burns);
  bs_pending_deposits := pending_deposit_count r.(rl_state);
  bs_pending_withdrawals := pending_withdrawal_count r.(rl_state);
  bs_last_eth_block := r.(rl_eth_last_block); bs_last_aethelred_block := r.(rl_aethelred_last_block);
  bs_consensus_participants := participant_count r; bs_uptime_seconds := uptime |}.
End consensus.
