(* ===== verification/BridgeListen.v ===== *)
(** * The bridge relayer: listeners

    [crates/bridge/src/ethereum.rs] and [aethelred.rs]: polling the two chains, and reading
    deposits, burns and mints out of the JSON their nodes answer.  A JSON document is a
    tree; the answers of the nodes and the libraries that print a document and read a date
    are the class [BridgeNet]; the error of a request is its whole text. *)
From S2P Require Import Prelude SysTypes Precompile Bridge.
From stdpp Require Import base gmap list strings pretty.
From Stdlib Require Import ZArith Lia Ascii.
#[local] Open Scope N_scope.

(** [serde_json::Value]; the keys of an object are distinct. *)
Inductive Json :=
| JNull
| JBool (b : bool)
| JNumber (text : string)
| JString (s : string)
| JArray (l : list Json)
| JObject (fields : list (string * Json)).

Fixpoint field (key : string) (fields : list (string * Json)) : option Json :=
  match fields with
  | [] => None
  | (k, v) :: fields => if bool_decide (k = key) then Some v else field key fields
  end.
Definition json_get (j : Json) (key : string) : option Json :=
  match j with JObject fields => field key fields | _ => None end.
Definition as_str (j : Json) : option string := match j with JString s => Some s | _ => None end.
Definition as_array (j : Json) : option (list Json) := match j with JArray l => Some l | _ => None end.
Definition get_str (j : Json) (key : string) : option string := json_get j key ≫= as_str.
Definition get_array (j : Json) (key : string) : option (list Json) := json_get j key ≫= as_array.

(** [s.trim_start_matches("0x")]: the prefix as often as it is there. *)
Fixpoint trim_0x (s : string) : string :=
  match s with
  | String "0" (String "x" rest) => trim_0x rest
  | _ => s
  end.

(** ** Numbers *)
Definition digit_of (radix : N) (c : ascii) : option N :=
  let n := N_of_ascii c in
  let d := if bool_decide (48 <= n <= 57) then Some (n - 48)
           else if bool_decide (97 <= n <= 122) then Some (n - 87)
           else if bool_decide (65 <= n <= 90) then Some (n - 55)
           else None in
  match d with Some d => if bool_decide (d < radix) then Some d else None | None => None end.

Fixpoint digits_from (max radix acc : N) (s : string) : N + string :=
  match s with
  | EmptyString => inl acc
  | String c s =>
      match digit_of radix c with
      | None => inr "invalid digit found in string"
      | Some d =>
          if bool_decide (acc * radix + d <= max) then digits_from max radix (acc * radix + d) s
          else inr "number too large to fit in target type"
      end
  end.

(** [uK::from_str_radix]: a sign is allowed, but not alone. *)
Definition from_str_radix (max radix : N) (s : string) : N + string :=
  match s with
  | EmptyString => inr "cannot parse integer from empty string"
  | String "+" EmptyString | String "-" EmptyString => inr "invalid digit found in string"
  | String "+" rest => digits_from max radix 0 rest
  | _ => digits_from max radix 0 s
  end.
Definition parsed {A} (r : A + string) : option A := match r with inl a => Some a | inr _ => None end.

(** [format!("0x{:x}", n)] of a [u64] *)
Definition to_hex_0x (n : N) : string := "0x" +:+ hex_digits 16 n.

(** What the nodes answer, and two libraries. *)
Class BridgeNet := {
  eth_post : string → Json → Json + string;
  aethelred_get : string → Json + string;
  aethelred_post : string → Json → Json + string;
  json_text : Json → string;
  parse_rfc3339 : string → option Z;
}.

Section listeners.
Context `{Build} `{BridgeLib} `{BridgeNet}.
Abbreviation R := (M BridgeError Relayer).

Definition ok_else {A E} (o : option A) (e : E) : outcome E A :=
  match o with Some a => Ok a | None => Err e end.

(** ** Ethereum *)
Definition parse_hash (s : string) : option Hash :=
  bs ← parsed (br_hex_decode (trim_0x s)); if bool_decide (length bs = 32%nat) then Some bs else None.

Definition rpc_call (method : string) (params : list Json) : outcome BridgeError Json :=
  match eth_post method (JArray params) with
  | inr e => Err (EthereumError e)
  | inl json =>
      match json_get json "error" with
      | Some error => Err (EthereumError ("RPC error: " +:+ json_text error))
      | None => ok_else (json_get json "result") (EthereumError "Missing 'result' in response")
      end
  end.

Definition get_block_number : outcome BridgeError N :=
  result ← rpc_call "eth_blockNumber" [];
  hex_str ← ok_else (as_str result) (EthereumError "Invalid block number format");
  match from_str_radix U64_MAX 16 (trim_0x hex_str) with
  | inl n => Ok n
  | inr e => Err (EthereumError ("Failed to parse block number: " +:+ e))
  end.

Definition eth_get_block_hash (block_number : N) : outcome BridgeError Hash :=
  result ← rpc_call "eth_getBlockByNumber" [JString (to_hex_0x block_number); JBool false];
  hash_str ← ok_else (get_str result "hash") (EthereumError "Missing block hash");
  match br_hex_decode (trim_0x hash_str) with
  | inr e => Err (EthereumError ("Invalid block hash hex: " +:+ e))
  | inl hash =>
      if bool_decide (length hash = 32%nat) then Ok hash
      else Err (EthereumError "Block hash must be exactly 32 bytes")
  end.

(** The bytes [from..to] of a slice that is long enough. *)
Definition sub_bytes (bs : bytes) (from to : nat) : bytes := take (to - from) (drop from bs).

Definition topic_hash (topics : list Json) (i : nat) : option Hash :=
  topic ← topics !! i; s ← as_str topic; parse_hash s.
Definition get_hash (j : Json) (key : string) : option Hash := s ← get_str j key; parse_hash s.

Definition parse_deposit_log (log : Json) : option EthereumDeposit :=
  topics ← get_array log "topics";
  if bool_decide (length topics < 4)%nat then None else
  deposit_id ← topic_hash topics 1;
  recipient ← topic_hash topics 3;
  depositor ← topic_hash topics 2;
  data ← get_str log "data";
  data_bytes ← parsed (br_hex_decode (trim_0x data));
  if bool_decide (length data_bytes < 128)%nat then None else
  block_hex ← get_str log "blockNumber";
  block_number ← parsed (from_str_radix U64_MAX 16 (trim_0x block_hex));
  block_hash ← get_hash log "blockHash";
  tx_hash ← get_hash log "transactionHash";
  index_hex ← get_str log "logIndex";
  log_index ← parsed (from_str_radix U32_MAX 16 (trim_0x index_hex));
  Some {| ed_deposit_id := deposit_id; ed_depositor := sub_bytes depositor 12 32;
          ed_aethelred_recipient := recipient; ed_token := sub_bytes data_bytes 12 32;
          ed_amount := of_be_bytes (sub_bytes data_bytes 48 64);
          ed_nonce := of_be_bytes (sub_bytes data_bytes 88 96);
          ed_block_number := block_number; ed_block_hash := block_hash; ed_tx_hash := tx_hash;
          ed_log_index := log_index; ed_timestamp := of_be_bytes (sub_bytes data_bytes 120 128) |}.

Definition DEPOSIT_TOPIC : string := "0x5e3c1311ea442664e90b8c12c1b7a8fa8a3477f7e4a3f5a0b7b1e25e6c3e7b3a".

(** Logs that cannot be read are skipped. *)
Definition get_deposit_events (contract_address : string) (from_block to_block : N)
  : outcome BridgeError (list EthereumDeposit) :=
  result ← rpc_call "eth_getLogs" [JObject [
    ("address", JString contract_address); ("fromBlock", JString (to_hex_0x from_block));
    ("toBlock", JString (to_hex_0x to_block)); ("topics", JArray [JString DEPOSIT_TOPIC])]];
  logs ← ok_else (as_array result) (EthereumError "Expected array of logs");
  Ok (omap (M:=list) parse_deposit_log logs).

(** What one deposit adds to the events of a poll. *)
Definition announce_deposit (current_block : N) (deposit : EthereumDeposit) : R (list EthereumEvent) :=
  r ← get;
  if has_deposit r.(rl_state) deposit.(ed_deposit_id) then mret []
  else
    let confirmations := sat_sub current_block deposit.(ed_block_number) in
    if bool_decide (r.(rl_config).(bc_ethereum).(ec_confirmations) <= confirmations)
    then store_deposit deposit ;;
         count increment_eth_deposits ;;
         mret [DepositFinalized deposit.(ed_deposit_id) deposit.(ed_block_number); Deposit deposit]
    else mret [Deposit deposit].

Fixpoint announce_deposits (current_block : N) (deposits : list EthereumDeposit) : R (list EthereumEvent) :=
  match deposits with
  | [] => mret []
  | d :: deposits =>
      events ← announce_deposit current_block d;
      rest ← announce_deposits current_block deposits;
      mret (events ++ rest)
  end.

Definition eth_poll_events : R (list EthereumEvent) :=
  current_block ← lift get_block_number;
  r ← get;
  let last_block := r.(rl_eth_last_block) in
  if bool_decide (current_block <= last_block) then mret []
  else
    from_block ← lift (u_add U64_MAX last_block 1);
    upper ← lift (u_add U64_MAX from_block r.(rl_config).(bc_ethereum).(ec_max_blocks_per_scan));
    upper ← lift (u_sub U64_MAX upper 1);
    let to_block := N.min current_block upper in
    deposits ← lift (get_deposit_events r.(rl_config).(bc_ethereum).(ec_bridge_address) from_block to_block);
    events ← announce_deposits current_block deposits;
    block_hash ← lift (eth_get_block_hash to_block);
    timestamp ← now_unwrap;
    modify (set_eth_last_block to_block) ;;
    set_last_eth_block to_block ;;
    mret (events ++ [EthNewBlock to_block block_hash timestamp]).

(** The first depth at which the chain has another block than the one stored. *)
Fixpoint reorg_from (state : PersistedBridgeState) (last_block depth : N) (fuel : nat)
  : outcome BridgeError (option N) :=
  match fuel with
  | O => Ok None
  | S fuel =>
      let block_num := sat_sub last_block depth in
      if bool_decide (block_num = 0) then Ok None
      else
        chain_hash ← eth_get_block_hash block_num;
        match state.(ps_eth_block_hashes) !! block_num with
        | Some stored =>
            if bool_decide (stored ≠ chain_hash) then Ok (Some block_num)
            else reorg_from state last_block (depth + 1) fuel
        | None => reorg_from state last_block (depth + 1) fuel
        end
  end.
Definition check_reorg (r : Relayer) : outcome BridgeError (option N) :=
  reorg_from r.(rl_state) r.(rl_eth_last_block) 0 (N.to_nat r.(rl_config).(bc_ethereum).(ec_confirmations)).

(** ** Aethelred *)
Definition fetch (url : string) : outcome BridgeError Json :=
  match aethelred_get url with inl json => Ok json | inr e => Err (AethelredError e) end.

(** [json.pointer("/a/b")] through objects *)
Definition pointer (json : Json) (path : list string) : option Json :=
  foldl (λ j key, j ≫= λ j, json_get j key) (Some json) path.

(** 32 bytes, or zeros when there are more or fewer. *)
Definition hash_or_zero (bs : bytes) : Hash := if bool_decide (length bs = 32%nat) then bs else replicate 32 0.

Definition get_block_height (rpc_url : string) : outcome BridgeError N :=
  json ← fetch (rpc_url +:+ "/cosmos/base/tendermint/v1beta1/blocks/latest");
  height ← ok_else (pointer json ["block"; "header"; "height"] ≫= as_str) (AethelredError "Missing block height");
  match from_str_radix U64_MAX 10 height with
  | inl n => Ok n
  | inr e => Err (AethelredError ("Invalid block height: " +:+ e))
  end.

Definition aethelred_get_block_hash (rpc_url : string) (height : N) : outcome BridgeError Hash :=
  json ← fetch (rpc_url +:+ "/cosmos/base/tendermint/v1beta1/blocks/" +:+ pretty height);
  hash_str ← ok_else (pointer json ["block_id"; "hash"] ≫= as_str) (AethelredError "Missing block hash");
  match br_hex_decode hash_str with
  | inl bs => Ok (hash_or_zero bs)
  | inr e => Err (AethelredError ("Invalid block hash hex: " +:+ e))
  end.

(** The attributes of a burn, as the loop over them leaves the variables. *)
Record BurnAttributes := {
  ba_burn_id : Hash;
  ba_burner : AethelredAddress;
  ba_eth_recipient : EthAddress;
  ba_amount : N;
  ba_nonce : option N;
}.
Definition BurnAttributes_initial : BurnAttributes := {|
  ba_burn_id := replicate 32 0; ba_burner := replicate 32 0; ba_eth_recipient := replicate 20 0;
  ba_amount := 0; ba_nonce := None |}.

(** [copy_from_slice] of a value of 32 bytes. *)
Definition copy32 (old : Hash) (decoded : bytes + string) : Hash :=
  match decoded with inl bs => if bool_decide (length bs = 32%nat) then bs else old | inr _ => old end.
(** The last twenty bytes. *)
Definition copy_last20 (old : EthAddress) (decoded : bytes + string) : EthAddress :=
  match decoded with
  | inl bs => if bool_decide (20 ≤ length bs)%nat then drop (length bs - 20) bs else old
  | inr _ => old
  end.
Definition without_0x (s : string) : string := default s (Bridge.strip_prefix "0x" s).

Definition burn_attribute (key value : string) (a : BurnAttributes) : BurnAttributes :=
  if bool_decide (key = "burn_id"%string) then
    {| ba_burn_id := copy32 a.(ba_burn_id) (br_hex_decode value); ba_burner := a.(ba_burner);
       ba_eth_recipient := a.(ba_eth_recipient); ba_amount := a.(ba_amount); ba_nonce := a.(ba_nonce) |}
  else if bool_decide (key = "sender"%string) || bool_decide (key = "burner"%string) then
    {| ba_burn_id := a.(ba_burn_id); ba_burner := copy32 a.(ba_burner) (br_hex_decode (without_0x value));
       ba_eth_recipient := a.(ba_eth_recipient); ba_amount := a.(ba_amount); ba_nonce := a.(ba_nonce) |}
  else if bool_decide (key = "eth_recipient"%string) then
    {| ba_burn_id := a.(ba_burn_id); ba_burner := a.(ba_burner);
       ba_eth_recipient := copy_last20 a.(ba_eth_recipient) (br_hex_decode (without_0x value));
       ba_amount := a.(ba_amount); ba_nonce := a.(ba_nonce) |}
  else if bool_decide (key = "amount"%string) then
    {| ba_burn_id := a.(ba_burn_id); ba_burner := a.(ba_burner); ba_eth_recipient := a.(ba_eth_recipient);
       ba_amount := default 0 (parsed (from_str_radix U128_MAX 10 value)); ba_nonce := a.(ba_nonce) |}
  else if bool_decide (key = "nonce"%string) || bool_decide (key = "burn_nonce"%string) then
    {| ba_burn_id := a.(ba_burn_id); ba_burner := a.(ba_burner); ba_eth_recipient := a.(ba_eth_recipient);
       ba_amount := a.(ba_amount); ba_nonce := parsed (from_str_radix U64_MAX 10 value) |}
  else a.

Fixpoint burn_attributes (attrs : list Json) (a : BurnAttributes) : option BurnAttributes :=
  match attrs with
  | [] => Some a
  | attr :: attrs =>
      key ← get_str attr "key";
      value ← json_get attr "value";
      burn_attributes attrs (burn_attribute key (default EmptyString (as_str value)) a)
  end.

(** The loops over logs and events return from the function at the first burn, and at
    the first malformed entry: [None] is that return, [Some None] goes on. *)
Fixpoint burn_in_events (tx_hash : Hash) (height timestamp : N) (events : list Json)
  : option (option AethelredBurn) :=
  match events with
  | [] => Some None
  | event :: events =>
      event_type ← get_str event "type";
      if bool_decide (event_type = "burn"%string) || bool_decide (event_type = "bridge_burn"%string) then
        attrs ← get_array event "attributes";
        a ← burn_attributes attrs BurnAttributes_initial;
        nonce ← a.(ba_nonce);
        Some (Some {| ab_burn_id := a.(ba_burn_id); ab_burner := a.(ba_burner);
                      ab_eth_recipient := a.(ba_eth_recipient); ab_token_type := NativeAETHEL;
                      ab_amount := a.(ba_amount); ab_nonce := nonce; ab_block_height := height;
                      ab_block_hash := replicate 32 0; ab_tx_hash := tx_hash; ab_timestamp := timestamp |})
      else burn_in_events tx_hash height timestamp events
  end.

Fixpoint burn_in_logs (tx_hash : Hash) (height timestamp : N) (logs : list Json) : option AethelredBurn :=
  match logs with
  | [] => None
  | log :: logs =>
      events ← get_array log "events";
      found ← burn_in_events tx_hash height timestamp events;
      match found with Some b => Some b | None => burn_in_logs tx_hash height timestamp logs end
  end.

(** [dt.timestamp() as u64] *)
Definition unix_u64 (t : Z) : N := Z.to_N (t mod 2 ^ 64).

Definition parse_burn_tx (tx : Json) : option AethelredBurn :=
  tx_hash_str ← get_str tx "txhash";
  tx_hash_bytes ← parsed (br_hex_decode tx_hash_str);
  height_str ← get_str tx "height";
  height ← parsed (from_str_radix U64_MAX 10 height_str);
  let timestamp := default 0 (unix_u64 <$> (get_str tx "timestamp" ≫= parse_rfc3339)) in
  logs ← get_array tx "logs";
  burn_in_logs (hash_or_zero tx_hash_bytes) height timestamp logs.

Definition tx_height (tx : Json) : N :=
  default 0 (get_str tx "height" ≫= λ h, parsed (from_str_radix U64_MAX 10 h)).
Definition in_range (from_block to_block : N) (tx : Json) : bool :=
  bool_decide (from_block <= tx_height tx) && bool_decide (tx_height tx <= to_block).

Definition tx_responses (url : string) : outcome BridgeError (list Json) :=
  json ← fetch url; Ok (default [] (get_array json "tx_responses")).

Definition get_burn_events (rpc_url : string) (from_block to_block : N) : outcome BridgeError (list AethelredBurn) :=
  txs ← tx_responses (rpc_url +:+ "/cosmos/tx/v1beta1/txs?events=message.module='bridge'&events=message.action='burn'&pagination.limit=100&order_by=ORDER_BY_ASC");
  Ok (omap (M:=list) parse_burn_tx (filter (λ tx, in_range from_block to_block tx = true) txs)).

Record MintEvent := {
  me_proposal_id : Hash;
  me_recipient : AethelredAddress;
  me_amount : N;
  me_tx_hash : Hash;
}.

Definition mint_attribute (e : MintEvent) (attr : Json) : MintEvent :=
  let key := default EmptyString (get_str attr "key") in
  let value := default EmptyString (get_str attr "value") in
  if bool_decide (key = "proposal_id"%string) then
    {| me_proposal_id := copy32 e.(me_proposal_id) (br_hex_decode value); me_recipient := e.(me_recipient);
       me_amount := e.(me_amount); me_tx_hash := e.(me_tx_hash) |}
  else if bool_decide (key = "recipient"%string) then
    {| me_proposal_id := e.(me_proposal_id);
       me_recipient := copy32 e.(me_recipient) (br_hex_decode (without_0x value));
       me_amount := e.(me_amount); me_tx_hash := e.(me_tx_hash) |}
  else if bool_decide (key = "amount"%string) then
    {| me_proposal_id := e.(me_proposal_id); me_recipient := e.(me_recipient);
       me_amount := default 0 (parsed (from_str_radix U128_MAX 10 value)); me_tx_hash := e.(me_tx_hash) |}
  else e.

Definition mint_of_event (tx_hash : Hash) (event : Json) : option MintEvent :=
  let event_type := default EmptyString (get_str event "type") in
  if bool_decide (event_type = "mint"%string) || bool_decide (event_type = "bridge_mint"%string) then
    Some (foldl mint_attribute
      {| me_proposal_id := replicate 32 0; me_recipient := replicate 32 0; me_amount := 0; me_tx_hash := tx_hash |}
      (default [] (get_array event "attributes")))
  else None.

Definition mints_of_tx (tx : Json) : list MintEvent :=
  let tx_hash := hash_or_zero (default [] (parsed (br_hex_decode (default EmptyString (get_str tx "txhash"))))) in
  flat_map (λ log, omap (mint_of_event tx_hash) (default [] (get_array log "events")))
    (default [] (get_array tx "logs")).

Definition get_mint_events (rpc_url : string) (from_block to_block : N) : outcome BridgeError (list MintEvent) :=
  txs ← tx_responses (rpc_url +:+ "/cosmos/tx/v1beta1/txs?events=message.module='bridge'&events=message.action='mint'&pagination.limit=100&order_by=ORDER_BY_ASC");
  Ok (flat_map mints_of_tx (filter (λ tx, in_range from_block to_block tx = true) txs)).

Definition announce_burn (current_block : N) (burn : AethelredBurn) : R (list AethelredEvent) :=
  r ← get;
  if has_burn r.(rl_state) burn.(ab_burn_id) then mret []
  else
    let confirmations := sat_sub current_block burn.(ab_block_height) in
    if bool_decide (r.(rl_config).(bc_aethelred).(ac_confirmations) <= confirmations)
    then store_burn burn ;;
         count increment_aethelred_burns ;;
         mret [BurnFinalized burn.(ab_burn_id) burn.(ab_block_height); Burn burn]
    else mret [Burn burn].

Fixpoint announce_burns (current_block : N) (burns : list AethelredBurn) : R (list AethelredEvent) :=
  match burns with
  | [] => mret []
  | b :: burns =>
      events ← announce_burn current_block b;
      rest ← announce_burns current_block burns;
      mret (events ++ rest)
  end.

Definition mint_completed (m : MintEvent) : AethelredEvent :=
  MintCompleted m.(me_proposal_id) m.(me_recipient) m.(me_amount) m.(me_tx_hash).

Definition aethelred_poll_events : R (list AethelredEvent) :=
  r ← get;
  let rpc_url := r.(rl_config).(bc_aethelred).(ac_rpc_url) in
  current_block ← lift (get_block_height rpc_url);
  let last_block := r.(rl_aethelred_last_block) in
  if bool_decide (current_block <= last_block) then mret []
  else
    from_block ← lift (u_add U64_MAX last_block 1);
    let to_block := current_block in
    burns ← lift (get_burn_events rpc_url from_block to_block);
    events ← announce_burns current_block burns;
    mints ← lift (get_mint_events rpc_url from_block to_block);
    for_each mints (λ _, count increment_aethelred_mints) ;;
    block_hash ← lift (aethelred_get_block_hash rpc_url to_block);
    timestamp ← now_unwrap;
    modify (set_aethelred_last_block to_block) ;;
    set_last_aethelred_block to_block ;;
    mret (events ++ (mint_completed <$> mints) ++ [AethelredNewBlock to_block block_hash timestamp]).

Definition mint_message (p : MintProposal) : Json :=
  JObject [("body", JObject [("messages", JArray [JObject [
      ("@type", JString "/aethelred.bridge.MsgMintProposal");
      ("proposal_id", JString (hex_encode p.(mp_proposal_id)));
      ("recipient", JString (hex_encode p.(mp_deposit).(ed_aethelred_recipient)));
      ("amount", JString (pretty p.(mp_deposit).(ed_amount)));
      ("deposit_tx_hash", JString (hex_encode p.(mp_deposit).(ed_tx_hash)))]])]);
    ("mode", JString "BROADCAST_MODE_SYNC")].

Definition submit_mint_proposal (rpc_url : string) (p : MintProposal) : outcome BridgeError Hash :=
  match aethelred_post (rpc_url +:+ "/cosmos/tx/v1beta1/txs") (mint_message p) with
  | inr e => Err (AethelredError e)
  | inl json =>
      tx_hash_str ← ok_else (pointer json ["tx_response"; "txhash"] ≫= as_str)
                      (AethelredError "Missing tx hash in broadcast response");
      match br_hex_decode tx_hash_str with
      | inl bs => Ok (hash_or_zero bs)
      | inr e => Err (AethelredError ("Invalid tx hash hex: " +:+ e))
      end
  end.
End listeners.
