(* ===== verification/BridgeSpec.v ===== *)
(** * Theorems on the bridge relayer

    What holds along every history of events, polls, votes and restarts, with failing
    files and any clock: where proposals come from, that no vote is accepted and nothing
    is submitted; the storage across a restart; quorums; what a poll announces. *)
From S2P Require Import Prelude SysTypes Precompile Bridge BridgeListen.
From stdpp Require Import base gmap list strings countable relations.
From Stdlib Require Import ZArith Lia Ascii.
#[local] Open Scope N_scope.

(** What [bincode] documents: what it wrote is read back, and the encoding of this state,
    which starts with the tag of an [Option], is not empty. *)
Class BridgeLaws `{BridgeLib} : Prop := {
  serialize_read s bs : br_serialize s = inl bs → bs ≠ [] ∧ br_deserialize bs = inl s;
}.

Lemma stable_with_get {E S A} (I : S → Prop) (k : S → M E S A) :
  (∀ s, I s → stable (maintains I) (k s)) → stable (maintains I) (get ≫= k).
Proof. intros Hk s Hs. by apply (Hk s Hs). Qed.

Lemma stable_with_ok_or {E S A B} (R : relation S) `{!PreOrder R} (o : option A) (e : E) (k : A → M E S B) :
  (∀ a, o = Some a → stable R (k a)) → stable R (ok_or o e ≫= k).
Proof. intros Hk s. destruct o as [a|]; [by apply Hk|]. cbn. reflexivity. Qed.

Lemma stable_with_lift {E S A B} (R : relation S) `{!PreOrder R} (o : outcome E A) (k : A → M E S B) :
  (∀ a, o = Ok a → stable R (k a)) → stable R (lift o ≫= k).
Proof. intros Hk s. destruct o as [a|e| |]; [by apply Hk|cbn; reflexivity..]. Qed.

(** ** Storage *)
Section persistence.
Context `{BridgeLib} `{!BridgeLaws}.

Lemma file_op_run r : ∃ io o, file_op r = (o, set_io io r) ∧ (o = Ok tt ∨ ∃ e, o = Err (StorageError e)).
Proof.
  unfold file_op. destruct (rl_io r) as [|[e|] io] eqn:Hio; eauto 10.
  exists [], (Ok tt). rewrite <- Hio. destruct r; eauto.
Qed.

(** A change touches the state, the file and the file operations to come. *)
Lemma mutate_frame f r o r' :
  mutate_state f r = (o, r') → ∃ disk io, r' = set_disk disk (set_io io (set_state (f r.(rl_state)) r)).
Proof.
  unfold mutate_state, persist_state. mrun.
  destruct (br_serialize (f (rl_state r))) as [bs|e]; cbn; [|intros [= <- <-]; exists (rl_disk r), (rl_io r); by destruct r].
  destruct (file_op_run (set_state (f (rl_state r)) r)) as (io & o1 & -> & [->|[e ->]]);
    [|intros [= <- <-]; exists (rl_disk r), io; by destruct r].
  destruct (file_op_run (set_io io (set_state (f (rl_state r)) r))) as (io' & o2 & -> & [->|[e ->]]);
    intros [= <- <-]; [by exists (Some bs), io'|exists (rl_disk r), io'; by destruct r].
Qed.

(** A change is either in the file as well, or the file is as it was. *)
Lemma mutate_run f r o r' :
  mutate_state f r = (o, r') →
  r'.(rl_state) = f r.(rl_state)
  ∧ (o = Ok tt ∧ (∃ bs, r'.(rl_disk) = Some bs ∧ br_serialize r'.(rl_state) = inl bs)
     ∨ r'.(rl_disk) = r.(rl_disk) ∧ ∃ e, o = Err (StorageError e)).
Proof.
  unfold mutate_state, persist_state. mrun. destruct (br_serialize (f (rl_state r))) as [bs|e] eqn:Hs; cbn.
  2: { intros [= <- <-]. eauto 10. }
  destruct (file_op_run (set_state (f (rl_state r)) r)) as (io & o1 & -> & [->|[e ->]]).
  2: { intros [= <- <-]. cbn. eauto 10. }
  destruct (file_op_run (set_io io (set_state (f (rl_state r)) r))) as (io' & o2 & -> & [->|[e ->]]);
    intros [= <- <-]; cbn; eauto 10.
Qed.

(** A relayer that starts from the file of a successful change has the state of it. *)
Lemma restart_recovers f r r' c io clock :
  mutate_state f r = (Ok tt, r') →
  ∃ r'', BridgeRelayer_new c r'.(rl_disk) None None io clock = Ok r'' ∧ r''.(rl_state) = r'.(rl_state).
Proof.
  intros Hrun. apply mutate_run in Hrun as [Hf [[_ (bs & Hd & Hs)]|[_ [? ?]]]]; [|done].
  destruct (serialize_read _ _ Hs) as [Hne Hread].
  unfold BridgeRelayer_new, load_state. rewrite Hd. destruct bs as [|b bs]; [done|]. rewrite Hread. cbn. eauto.
Qed.
End persistence.

(** ** Where proposals come from *)
Section provenance.
Context `{Build} `{BridgeLib} `{!BridgeLaws}.
(** The deposits and burns that the nodes of the two chains report. *)
Context (reported_deposit : EthereumDeposit → Prop) (reported_burn : AethelredBurn → Prop).

Definition deposit_ok (id : Hash) (d : EthereumDeposit) : Prop := reported_deposit d ∧ d.(ed_deposit_id) = id.
Definition burn_ok (id : Hash) (b : AethelredBurn) : Prop := reported_burn b ∧ b.(ab_burn_id) = id.

(** A proposal to mint is about a reported deposit and filed under the hash of it; it has
    no votes and has not been submitted. *)
Definition mint_ok (id : Hash) (p : MintProposal) : Prop :=
  reported_deposit p.(mp_deposit) ∧ id = generate_id p.(mp_deposit) ∧ p.(mp_proposal_id) = id
  ∧ p.(mp_votes) = [] ∧ p.(mp_status) ≠ MintConsensusReached.
Definition unlock_ok (id : Hash) (p : WithdrawalProposal) : Prop :=
  reported_burn p.(wp_burn) ∧ p.(wp_burn).(ab_burn_id) = id ∧ p.(wp_proposal_id) = id
  ∧ p.(wp_votes) = [] ∧ p.(wp_status) ≠ SubmittedToEthereum.

Record state_ok (s : PersistedBridgeState) : Prop := {
  ok_deposits : map_Forall deposit_ok s.(ps_deposits);
  ok_pending_deposits : map_Forall deposit_ok s.(ps_pending_deposits);
  ok_burns : map_Forall burn_ok s.(ps_burns);
  ok_pending_burns : map_Forall burn_ok s.(ps_pending_burns);
  ok_mints : map_Forall mint_ok s.(ps_mint_proposals);
  ok_unlocks : map_Forall unlock_ok s.(ps_withdrawal_proposals);
}.

Definition file_ok (disk : option bytes) : Prop :=
  ∀ bs, disk = Some bs → ∃ s, br_serialize s = inl bs ∧ state_ok s.

Record relayer_ok (r : Relayer) : Prop := {
  ok_state : state_ok r.(rl_state);
  ok_file : file_ok r.(rl_disk);
  ok_no_mint_votes : r.(rl_pending_mints) = ∅;
  ok_no_unlock_votes : r.(rl_pending_withdrawals) = ∅;
}.
Abbreviation kept := (maintains relayer_ok).

Create HintDb bridge.

Lemma mutate_kept f : (∀ s, state_ok s → state_ok (f s)) → stable kept (mutate_state f).
Proof.
  intros Hf r [Hs Hd Hm Hu]. destruct (mutate_state f r) as [o r'] eqn:Hrun. cbn.
  assert (rl_pending_mints r' = rl_pending_mints r ∧ rl_pending_withdrawals r' = rl_pending_withdrawals r) as [Hm' Hu'].
  { by apply mutate_frame in Hrun as (? & ? & ->). }
  apply mutate_run in Hrun as [Hst Hrun]. split; [rewrite Hst; auto| |congruence|congruence].
  destruct Hrun as [[_ (bs & Hb & Hser)]|[-> _]]; [|done].
  intros bs' Hbs'. rewrite Hb in Hbs'. injection Hbs' as <-. exists (rl_state r'). split; [done|].
  rewrite Hst. auto.
Qed.

Lemma count_kept f : stable kept (count f).
Proof. intros r []. by split. Qed.
Lemma read_clock_kept : stable kept read_clock.
Proof. intros r [? ? ? ?]. unfold read_clock. destruct (rl_clock r); by split. Qed.
Lemma now_secs_kept : stable kept now_secs.
Proof. unfold now_secs. apply stable_bind; [apply _|apply read_clock_kept|]. intros. apply stable_ret, _. Qed.
Lemma now_unwrap_kept : stable kept now_unwrap.
Proof. unfold now_unwrap. apply stable_bind; [apply _|apply read_clock_kept|]. intros. apply stable_lift, _. Qed.
#[local] Hint Resolve count_kept read_clock_kept now_secs_kept now_unwrap_kept : stable.

Ltac walk_step :=
  lazymatch goal with
  | |- stable _ (mbind _ get) => apply stable_with_get; intros ? ?
  | |- stable _ (mbind _ (lift _)) => apply stable_with_lift; [apply _|intros ? ?]
  | |- stable _ (mbind _ (ok_or _ _)) => apply stable_with_ok_or; [apply _|intros ? ?]
  | |- stable _ (mbind _ _) => apply stable_bind; [apply _| |intros ?]
  | |- stable _ _ => solve [eauto with stable typeclass_instances]
  end.
Ltac walk := repeat walk_step.

(** *** Changes of the stored state *)
Lemma stored_deposit_ok d s : reported_deposit d → state_ok s → state_ok (stored_deposit d s).
Proof.
  intros Hd []. split; cbn; try done.
  - by apply map_Forall_insert_2.
  - by apply map_Forall_delete.
Qed.
Lemma pending_deposit_ok d s hashes statuses :
  reported_deposit d → state_ok s →
  state_ok (with_deposits hashes s.(ps_deposits) statuses (<[d.(ed_deposit_id) := d]> s.(ps_pending_deposits)) s).
Proof. intros Hd []. split; cbn; try done. by apply map_Forall_insert_2. Qed.
Lemma deposit_updated_ok id status s : state_ok s → state_ok (deposit_updated id status s).
Proof.
  intros []. unfold deposit_updated. destruct (_ !! id) as [d|] eqn:Hd; [|by split].
  destruct (deposit_closed status); [|by split]. split; cbn; try done.
  - apply map_Forall_insert_2; [|done]. eapply map_Forall_lookup_1; [|exact Hd]. done.
  - by apply map_Forall_delete.
Qed.
Lemma stored_burn_ok b s : reported_burn b → state_ok s → state_ok (stored_burn b s).
Proof.
  intros Hb []. split; cbn; try done.
  - by apply map_Forall_insert_2.
  - by apply map_Forall_delete.
Qed.
Lemma pending_burn_ok b s statuses :
  reported_burn b → state_ok s →
  state_ok (with_burns s.(ps_burns) statuses (<[b.(ab_burn_id) := b]> s.(ps_pending_burns)) s).
Proof. intros Hb []. split; cbn; try done. by apply map_Forall_insert_2. Qed.
Lemma burn_updated_ok id status s : state_ok s → state_ok (burn_updated id status s).
Proof.
  intros []. unfold burn_updated. destruct (_ !! id) as [d|] eqn:Hd; [|by split].
  destruct (burn_closed status); [|by split]. split; cbn; try done.
  - apply map_Forall_insert_2; [|done]. eapply map_Forall_lookup_1; [|exact Hd]. done.
  - by apply map_Forall_delete.
Qed.
Lemma mint_put_ok id p s :
  mint_ok id p → state_ok s → state_ok (with_mint_proposals (<[id := p]> s.(ps_mint_proposals)) s).
Proof. intros Hp []. split; cbn; try done. by apply map_Forall_insert_2. Qed.
Lemma unlock_put_ok id p s :
  unlock_ok id p → state_ok s → state_ok (with_withdrawal_proposals (<[id := p]> s.(ps_withdrawal_proposals)) s).
Proof. intros Hp []. split; cbn; try done. by apply map_Forall_insert_2. Qed.
Lemma get_deposit_ok s id d : state_ok s → get_deposit s id = Some d → deposit_ok id d.
Proof.
  intros [Hs Hp _ _ _ _] Hd. unfold get_deposit in Hd.
  destruct (_ !! id) eqn:Hi; simplify_eq; [by apply (Hs id)|by apply (Hp id)].
Qed.
Lemma get_burn_ok s id b : state_ok s → get_burn s id = Some b → burn_ok id b.
Proof.
  intros [_ _ Hs Hp _ _] Hb. unfold get_burn in Hb.
  destruct (_ !! id) eqn:Hi; simplify_eq; [by apply (Hs id)|by apply (Hp id)].
Qed.

Lemma last_block_ok b s : state_ok s → state_ok (with_last_eth_block b s).
Proof. by intros []. Qed.
Lemma last_height_ok b s : state_ok s → state_ok (with_last_aethelred_block b s).
Proof. by intros []. Qed.

Lemma update_deposit_kept id status : stable kept (update_deposit_status id status).
Proof. apply mutate_kept. intros. by apply deposit_updated_ok. Qed.
Lemma update_burn_kept id status : stable kept (update_burn_status id status).
Proof. apply mutate_kept. intros. by apply burn_updated_ok. Qed.
Lemma update_withdrawal_kept id status : stable kept (update_withdrawal_status id status).
Proof. apply mutate_kept. by intros s []. Qed.
Lemma store_mint_kept p : mint_ok p.(mp_proposal_id) p → stable kept (store_mint_proposal p).
Proof. intros. apply mutate_kept. intros. by apply mint_put_ok. Qed.
Lemma store_unlock_kept p : unlock_ok p.(wp_proposal_id) p → stable kept (store_withdrawal_proposal p).
Proof. intros. apply mutate_kept. intros. by apply unlock_put_ok. Qed.
Lemma update_mint_kept id status :
  status ≠ MintConsensusReached → stable kept (update_mint_proposal_status id status).
Proof.
  intros Hne. unfold update_mint_proposal_status. apply stable_with_get. intros r Hr.
  destruct (_ !! id) as [p|] eqn:Hp; [|by apply mutate_kept].
  apply stable_bind; [apply _|apply now_secs_kept|]. intros now. apply mutate_kept. intros. apply mint_put_ok; [|done].
  destruct (map_Forall_lookup_1 _ _ _ _ (ok_mints _ (ok_state _ Hr)) Hp) as (? & ? & ? & ? & ?). done.
Qed.
Lemma update_unlock_kept id status :
  status ≠ SubmittedToEthereum → stable kept (update_withdrawal_proposal_status id status).
Proof.
  intros Hne. unfold update_withdrawal_proposal_status. apply stable_with_get. intros r Hr.
  destruct (_ !! id) as [p|] eqn:Hp; [|by apply mutate_kept].
  apply stable_bind; [apply _|apply now_secs_kept|]. intros now. apply mutate_kept. intros. apply unlock_put_ok; [|done].
  destruct (map_Forall_lookup_1 _ _ _ _ (ok_unlocks _ (ok_state _ Hr)) Hp) as (? & ? & ? & ? & ?). done.
Qed.
#[local] Hint Resolve update_deposit_kept update_burn_kept update_withdrawal_kept : stable.

(** *** Events *)
Lemma eth_event_kept e :
  (∀ d, e = Deposit d → reported_deposit d) → stable kept (process_ethereum_event e).
Proof.
  intros He. destruct e as [d|id b|id x y z|x y ids|]; cbn [process_ethereum_event].
  - unfold handle_eth_deposit, validate_deposit. walk. apply mutate_kept. intros.
    apply pending_deposit_ok; [by apply He|done].
  - unfold handle_eth_deposit_finalized. walk. apply store_mint_kept.
    match goal with Hd : get_deposit _ id = Some _ |- _ => apply get_deposit_ok in Hd as [? ?]; [done|apply ok_state; done] end.
  - unfold handle_eth_withdrawal_processed. walk.
  - unfold handle_eth_reorg. apply stable_for_each; [apply _|]. intros. walk.
  - apply stable_ret, _.
Qed.

Lemma aethelred_event_kept e :
  (∀ b, e = Burn b → reported_burn b) → stable kept (process_aethelred_event e).
Proof.
  intros He. destruct e as [b|id x|id x y z|]; cbn [process_aethelred_event].
  - unfold handle_aethelred_burn, validate_burn. walk. apply mutate_kept. intros.
    apply pending_burn_ok; [by apply He|done].
  - unfold handle_aethelred_burn_finalized. walk. apply store_unlock_kept.
    match goal with Hb : get_burn _ id = Some _ |- _ => apply get_burn_ok in Hb as [? ?]; [done|apply ok_state; done] end.
  - unfold handle_aethelred_mint_completed. walk; [by apply update_mint_kept|].
    destruct (_ !! id); walk.
  - apply stable_ret, _.
Qed.

(** *** Votes: refused before they are counted *)
Lemma vote_refused vote : ∃ e, verify_vote_signature vote = Err (Verification e).
Proof. unfold verify_vote_signature. repeat case_bool_decide; eauto. Qed.

Lemma vote_mint_refused id vote r : ∃ e, vote_mint id vote r = (Err (Verification e), r).
Proof. unfold vote_mint. mrun. destruct (vote_refused vote) as [e ->]. eauto. Qed.
Lemma vote_withdrawal_refused id vote r : ∃ e, vote_withdrawal id vote r = (Err (Verification e), r).
Proof. unfold vote_withdrawal. mrun. destruct (vote_refused vote) as [e ->]. eauto. Qed.

Lemma vote_mint_kept id vote : stable kept (vote_mint id vote).
Proof. intros r Hr. destruct (vote_mint_refused id vote r) as [e ->]. done. Qed.
Lemma vote_withdrawal_kept id vote : stable kept (vote_withdrawal id vote).
Proof. intros r Hr. destruct (vote_withdrawal_refused id vote r) as [e ->]. done. Qed.
#[local] Hint Resolve vote_mint_kept vote_withdrawal_kept : stable.

Lemma process_pending_kept : stable kept process_pending.
Proof.
  unfold process_pending, process_pending_mints, process_pending_withdrawals. walk;
    (apply stable_for_each; [apply _|]; intros; apply stable_when; [apply _|]; walk; apply stable_when; [apply _|]; walk).
Qed.

Lemma check_timeouts_kept : stable kept check_timeouts.
Proof.
  unfold check_timeouts. walk; (apply stable_for_each; [apply _|]; intros; walk; apply stable_when; [apply _|]);
    [by apply update_mint_kept|by apply update_unlock_kept].
Qed.

(** *** Polls *)

(** The deposits and burns that the nodes answer are reported. *)
Definition net_reports (net : BridgeNet) : Prop :=
  (∀ address from to ds, get_deposit_events address from to = Ok ds → Forall reported_deposit ds)
  ∧ ∀ url from to bs, get_burn_events url from to = Ok bs → Forall reported_burn bs.

Lemma announce_deposits_kept current ds : Forall reported_deposit ds → stable kept (announce_deposits current ds).
Proof.
  induction 1 as [|d ds Hd _ IH]; cbn [announce_deposits]; [apply stable_ret, _|].
  apply stable_bind; [apply _| |intros; walk]. unfold announce_deposit. walk. repeat case_match; walk.
  apply mutate_kept. intros. by apply stored_deposit_ok.
Qed.

Lemma announce_burns_kept current bs : Forall reported_burn bs → stable kept (announce_burns current bs).
Proof.
  induction 1 as [|b bs Hb _ IH]; cbn [announce_burns]; [apply stable_ret, _|].
  apply stable_bind; [apply _| |intros; walk]. unfold announce_burn. walk. repeat case_match; walk.
  apply mutate_kept. intros. by apply stored_burn_ok.
Qed.

Lemma written_kept f : (∀ r, relayer_ok r → relayer_ok (f r)) → stable (E:=BridgeError) kept (modify f).
Proof. intros Hf r Hr. by apply Hf. Qed.

Lemma eth_poll_kept (net : BridgeNet) : net_reports net → stable kept eth_poll_events.
Proof.
  intros [Hnet _]. unfold eth_poll_events. walk. case_match; walk.
  - apply announce_deposits_kept. eauto.
  - apply written_kept. by intros r [].
  - apply mutate_kept. intros. by apply last_block_ok.
Qed.

Lemma aethelred_poll_kept (net : BridgeNet) : net_reports net → stable kept aethelred_poll_events.
Proof.
  intros [_ Hnet]. unfold aethelred_poll_events. walk. case_match; walk.
  - apply announce_burns_kept. eauto.
  - apply written_kept. by intros r [].
  - apply mutate_kept. intros. by apply last_height_ok.
Qed.

(** ** Histories *)
Inductive action :=
| ActEthereumEvent (e : EthereumEvent)
| ActAethelredEvent (e : AethelredEvent)
| ActConsensus
| ActVoteMint (id : Hash) (vote : RelayerVote)
| ActVoteWithdrawal (id : Hash) (vote : RelayerVote)
| ActRelayerSet (s : RelayerSet)
| ActEthPoll (net : BridgeNet)
| ActAethelredPoll (net : BridgeNet)
| ActStart
| ActStop
| ActMachine (io : list (option string)) (clock : list (option N))
| ActRestart (config : BridgeConfig) (dir_error read_error : option string)
    (io : list (option string)) (clock : list (option N)).

Definition act (a : action) (r : Relayer) : Relayer :=
  match a with
  | ActEthereumEvent e => (eth_round e r).2
  | ActAethelredEvent e => (aethelred_round e r).2
  | ActConsensus => (consensus_round r).2
  | ActVoteMint id vote => (vote_mint id vote r).2
  | ActVoteWithdrawal id vote => (vote_withdrawal id vote r).2
  | ActRelayerSet s => (update_relayer_set s r).2
  | ActEthPoll net => (eth_poll_events r).2
  | ActAethelredPoll net => (aethelred_poll_events r).2
  | ActStart => (start r).2
  | ActStop => (stop r).2
  | ActMachine io clock => set_clock clock (set_io io r)
  | ActRestart config dir_error read_error io clock =>
      match BridgeRelayer_new config r.(rl_disk) dir_error read_error io clock with Ok r' => r' | _ => r end
  end.

(** What is announced is what the nodes report. *)
Definition admissible (a : action) : Prop :=
  match a with
  | ActEthereumEvent (Deposit d) => reported_deposit d
  | ActAethelredEvent (Burn b) => reported_burn b
  | ActEthPoll net | ActAethelredPoll net => net_reports net
  | _ => True
  end.

Inductive relayed : relation Relayer :=
| relayed_act r a : admissible a → relayed r (act a r).

Lemma logged_kept m : stable kept m → stable kept (logged m).
Proof. intros Hm r Hr. specialize (Hm r Hr). unfold logged. destruct (m r) as [[] r']; done. Qed.

Lemma new_ok config disk dir_error read_error io clock r :
  file_ok disk → BridgeRelayer_new config disk dir_error read_error io clock = Ok r → relayer_ok r.
Proof.
  intros Hf. unfold BridgeRelayer_new. destruct dir_error; [done|].
  destruct (load_state disk read_error) as [s|e| |] eqn:Hl; try done. intros [= <-]. split; cbn; try done.
  assert (state_ok PersistedBridgeState_default) as Hdef by (split; apply map_Forall_empty).
  unfold load_state in Hl. destruct disk as [bs|]; [|by simplify_eq].
  destruct read_error; [by destruct bs|]. destruct (Hf bs eq_refl) as (s' & Hser & Hok).
  destruct (serialize_read _ _ Hser) as [Hne Hread]. destruct bs; [done|]. by rewrite Hread in Hl; simplify_eq.
Qed.

Lemma act_kept a r : admissible a → relayer_ok r → relayer_ok (act a r).
Proof.
  intros Ha Hr. destruct a; cbn [act].
  - cut (stable kept (eth_round e)); [intros Hk; by apply Hk|]. unfold eth_round. walk. apply stable_when; [apply _|]. apply logged_kept, eth_event_kept.
    by intros d ->.
  - cut (stable kept (aethelred_round e)); [intros Hk; by apply Hk|]. unfold aethelred_round. walk. apply stable_when; [apply _|].
    apply logged_kept, aethelred_event_kept. by intros b ->.
  - cut (stable kept (consensus_round)); [intros Hk; by apply Hk|]. unfold consensus_round. walk. apply stable_when; [apply _|].
    apply stable_bind; [apply _|apply logged_kept, process_pending_kept|].
    intros. apply logged_kept, check_timeouts_kept.
  - by apply vote_mint_kept.
  - by apply vote_withdrawal_kept.
  - by destruct Hr.
  - by apply eth_poll_kept.
  - by apply aethelred_poll_kept.
  - by destruct Hr.
  - by destruct Hr.
  - by destruct Hr.
  - destruct (BridgeRelayer_new _ _ _ _ _ _) eqn:Hn; try done. eapply new_ok; [|exact Hn]. by apply ok_file.
Qed.

Lemma relayed_kept r r' : rtc relayed r r' → relayer_ok r → relayer_ok r'.
Proof. induction 1 as [|r x r' [r0 a Ha] _ IH]; intros Hr; [done|]. by apply IH, act_kept. Qed.

Lemma actions_relayed actions r : Forall admissible actions → rtc relayed r (foldl (λ r a, act a r) r actions).
Proof.
  intros Ha. revert r. induction Ha as [|a actions Ha _ IH]; intros r; cbn [foldl]; [apply rtc_refl|].
  eapply rtc_l; [by apply relayed_act|apply IH].
Qed.

(** C18: a relayer that starts without a file, along every history of events, polls, votes,
    rounds of its loops and restarts, with any clock and file operations that fail at
    any point: every proposal to mint is about a deposit that a node reported and filed
    under the hash of it, every proposal to unlock is about a reported burn and filed
    under its identifier; neither has a vote, none has reached consensus or been
    submitted, and every vote is refused and changes nothing. *)
Theorem bridge_sound config io clock r0 r :
  BridgeRelayer_new config None None None io clock = Ok r0 → rtc relayed r0 r →
  (∀ id p, r.(rl_state).(ps_mint_proposals) !! id = Some p →
     reported_deposit p.(mp_deposit) ∧ id = generate_id p.(mp_deposit)
     ∧ p.(mp_votes) = [] ∧ p.(mp_status) ≠ MintConsensusReached)
  ∧ (∀ id p, r.(rl_state).(ps_withdrawal_proposals) !! id = Some p →
       reported_burn p.(wp_burn) ∧ p.(wp_burn).(ab_burn_id) = id
       ∧ p.(wp_votes) = [] ∧ p.(wp_status) ≠ SubmittedToEthereum)
  ∧ (∀ id vote, (∃ e, vote_mint id vote r = (Err (Verification e), r))
                ∧ ∃ e, vote_withdrawal id vote r = (Err (Verification e), r))
  ∧ r.(rl_pending_mints) = ∅ ∧ r.(rl_pending_withdrawals) = ∅.
Proof.
  intros Hn Hr. apply new_ok in Hn; [|done]. destruct (relayed_kept _ _ Hr Hn) as [Hs _ Hm Hu].
  split_and!; try done.
  - intros id p Hp. by destruct (map_Forall_lookup_1 _ _ _ _ (ok_mints _ Hs) Hp) as (? & ? & ? & ? & ?).
  - intros id p Hp. by destruct (map_Forall_lookup_1 _ _ _ _ (ok_unlocks _ Hs) Hp) as (? & ? & ? & ? & ?).
  - intros id vote. split; [apply vote_mint_refused|apply vote_withdrawal_refused].
Qed.
End provenance.

(** ** Quorums *)
Section quorums.
Context `{Build}.

Lemma div_ceil_le a b k : b ≠ 0 → div_ceil a b <= k ↔ a <= k * b.
Proof.
  intros Hb. unfold div_ceil. pose proof (N.div_mod a b Hb). pose proof (N.mod_lt a b Hb).
  generalize dependent (a mod b). generalize dependent (a / b). intros q r -> Hr.
  case_bool_decide; split; intros; [nia..|]. destruct (N.le_gt_cases k q); [nia|lia].
Qed.

Lemma has_consensus_exact s k :
  active_count s * s.(rs_threshold_bps) <= U64_MAX →
  has_consensus s k = Ok (bool_decide (1 <= k ∧ active_count s * s.(rs_threshold_bps) <= k * 10000)).
Proof.
  intros Hle. unfold has_consensus, min_votes_required. case_bool_decide as H0; cbn.
  - rewrite H0. f_equal. apply bool_decide_ext. lia.
  - rewrite u_mul_ok by done. cbn. f_equal. apply bool_decide_ext.
    pose proof (div_ceil_le (active_count s * rs_threshold_bps s) 10000 k ltac:(done)). lia.
Qed.

Lemma in_active_set_elem s v :
  in_active_set s v = true → v ∈ ri_address <$> filter (λ r, r.(ri_active) = true) s.(rs_relayers).
Proof.
  unfold in_active_set. intros Hv. apply existsb_exists in Hv as (r & Hin & Hr).
  apply andb_true_iff in Hr as [Hr Hact]. bool_facts. apply list_elem_of_fmap. exists r. split; [done|].
  apply list_elem_of_filter. split; [done|]. by apply list_elem_of_In.
Qed.

(** With a threshold above one half, two sets of active relayers that both have consensus
    have a relayer in common. *)
Lemma quorums_intersect s l1 l2 :
  active_count s * s.(rs_threshold_bps) <= U64_MAX → 5000 < s.(rs_threshold_bps) →
  NoDup l1 → NoDup l2 → Forall (λ v, in_active_set s v = true) l1 → Forall (λ v, in_active_set s v = true) l2 →
  has_consensus s (N.of_nat (length l1)) = Ok true → has_consensus s (N.of_nat (length l2)) = Ok true →
  ∃ v, v ∈ l1 ∧ v ∈ l2.
Proof.
  intros Hle Hbps Hn1 Hn2 Ha1 Ha2. rewrite !has_consensus_exact by done. intros [= Hc1] [= Hc2]. bool_facts.
  destruct (decide (Exists (.∈ l2) l1)) as [Hex|Hnex]; [by apply Exists_exists in Hex|exfalso].
  rewrite <- Forall_Exists_neg, Forall_forall in Hnex.
  assert (l1 ++ l2 ⊆+ ri_address <$> filter (λ r, r.(ri_active) = true) s.(rs_relayers)) as Hsub.
  { apply NoDup_submseteq; [by apply NoDup_app|]. rewrite Forall_forall in Ha1, Ha2.
    intros v [Hv|Hv]%elem_of_app; apply in_active_set_elem; auto. }
  apply submseteq_length in Hsub. rewrite length_app, length_fmap in Hsub. unfold active_count in *. nia.
Qed.
End quorums.

(** ** Polling Ethereum *)
Section polls.
Context `{Build} `{BridgeLib} `{BridgeNet}.

Lemma store_deposit_run d r o r' :
  store_deposit d r = (o, r') → r'.(rl_state) = stored_deposit d r.(rl_state).
Proof. unfold store_deposit. intros Hrun. by apply mutate_run in Hrun as [? _]. Qed.

Definition filed (id : Hash) (d : EthereumDeposit) (r : Relayer) : Prop := r.(rl_state).(ps_deposits) !! id = Some d.

Lemma announce_keeps current d id d' : stable (maintains (filed id d')) (announce_deposit current d).
Proof.
  unfold announce_deposit. intros r Hf. cbn. unfold mbind, M_bind, get.
  destruct (has_deposit (rl_state r) (ed_deposit_id d)) eqn:Hh; [done|].
  case_bool_decide; [|done]. destruct (store_deposit d r) as [o r'] eqn:Hs.
  pose proof (store_deposit_run _ _ _ _ Hs) as Hst.
  assert (filed id d' r') as Hf'.
  { unfold filed in *. rewrite Hst. cbn. rewrite lookup_insert_ne; [done|]. intros Heq.
    unfold has_deposit in Hh. apply orb_false_iff in Hh as [Hh _]. bool_facts. apply Hh. rewrite Heq. eauto. }
  by destruct o.
Qed.

Lemma announce_deposits_keeps current ds id d' : stable (maintains (filed id d')) (announce_deposits current ds).
Proof.
  induction ds as [|d ds IH]; cbn [announce_deposits]; [apply stable_ret, _|].
  apply stable_bind; [apply _|apply announce_keeps|]. intros events.
  apply stable_bind; [apply _|done|]. intros. apply stable_ret, _.
Qed.

Definition confirmed (r : Relayer) (current : N) (d : EthereumDeposit) : Prop :=
  r.(rl_config).(bc_ethereum).(ec_confirmations) <= current - d.(ed_block_number).

Lemma announce_config current d : stable (λ r r', r'.(rl_config) = r.(rl_config)) (announce_deposit current d).
Proof.
  intros r. unfold announce_deposit, mbind, M_bind, get.
  destruct (has_deposit _ _); [done|]. case_bool_decide; [|done].
  destruct (store_deposit d r) as [o r'] eqn:Hs. apply mutate_frame in Hs as (? & ? & ->). by destruct o.
Qed.

(** What one deposit contributes. *)
Lemma announce_deposit_events current d r events r' id b :
  announce_deposit current d r = (Ok events, r') → DepositFinalized id b ∈ events →
  id = d.(ed_deposit_id) ∧ b = d.(ed_block_number) ∧ confirmed r current d ∧ filed id d r'.
Proof.
  unfold announce_deposit, mbind, M_bind, get.
  destruct (has_deposit _ _); [intros [= <- <-]; by rewrite elem_of_nil|].
  case_bool_decide as Hc; [|intros [= <- <-]; by rewrite list_elem_of_singleton].
  destruct (store_deposit d r) as [[]  r1] eqn:Hs; try done. cbn. intros [= <- <-].
  rewrite elem_of_cons, list_elem_of_singleton. intros [[= -> ->]|]; [|done]. split_and!; try done.
  unfold filed. cbn. rewrite (store_deposit_run _ _ _ _ Hs). cbn. by rewrite lookup_insert_eq.
Qed.

Lemma announce_deposits_events current ds : ∀ r events r' id b,
  announce_deposits current ds r = (Ok events, r') → DepositFinalized id b ∈ events →
  ∃ d, d ∈ ds ∧ id = d.(ed_deposit_id) ∧ b = d.(ed_block_number) ∧ confirmed r current d ∧ filed id d r'.
Proof.
  induction ds as [|d ds IH]; intros r events r' id b; cbn [announce_deposits].
  { intros [= <- <-]. by rewrite elem_of_nil. }
  intros Hrun Hin. apply bind_ok in Hrun as (ev1 & r1 & Hone & Hrun).
  apply bind_ok in Hrun as (ev2 & r2 & Htwo & [= <- <-]).
  pose proof (announce_config current d r) as Hcfg. rewrite Hone in Hcfg. cbn in Hcfg.
  apply elem_of_app in Hin as [Hin|Hin].
  - destruct (announce_deposit_events _ _ _ _ _ _ _ Hone Hin) as (-> & -> & Hc & Hf).
    exists d. split_and!; try done; [apply list_elem_of_here|].
    pose proof (announce_deposits_keeps current ds (ed_deposit_id d) d r1 Hf) as Hk. by rewrite Htwo in Hk.
  - destruct (IH _ _ _ _ _ Htwo Hin) as (d' & ? & ? & ? & Hc & ?). exists d'.
    split_and!; try done; [by apply list_elem_of_further|]. unfold confirmed in *. by rewrite Hcfg in Hc.
Qed.

Lemma now_unwrap_state r o r' : now_unwrap r = (o, r') → r'.(rl_state) = r.(rl_state).
Proof. unfold now_unwrap, read_clock. mrun. by destruct (rl_clock r) as [|[] ?]; intros [= <- <-]. Qed.

(** A poll never goes back and not past the head of the chain; what it announces as final
    is a deposit in the blocks it scanned, with the confirmations asked for, and filed.
    Hence a deposit in a block that has been scanned is never announced as final later:
    one that had too few confirmations when its block was scanned stays pending. *)
Lemma poll_sound r events r' current :
  get_block_number = Ok current → eth_poll_events r = (Ok events, r') →
  r.(rl_eth_last_block) + 1 + r.(rl_config).(bc_ethereum).(ec_max_blocks_per_scan) <= U64_MAX →
  (∀ address from to ds, get_deposit_events address from to = Ok ds →
     Forall (λ d, from <= d.(ed_block_number) <= to) ds) →
  r.(rl_eth_last_block) <= r'.(rl_eth_last_block)
  ∧ (r'.(rl_eth_last_block) = r.(rl_eth_last_block) ∨ r'.(rl_eth_last_block) <= current)
  ∧ ∀ id b, DepositFinalized id b ∈ events →
      r.(rl_eth_last_block) < b <= r'.(rl_eth_last_block)
      ∧ r.(rl_config).(bc_ethereum).(ec_confirmations) <= current - b
      ∧ ∃ d, filed id d r' ∧ d.(ed_deposit_id) = id ∧ d.(ed_block_number) = b.
Proof.
  intros Hcur Hrun Hmax Hnet. unfold eth_poll_events in Hrun. rewrite Hcur in Hrun.
  ok_inv_step Hrun. simplify_eq. ok_inv_step Hrun. cbv zeta in Hrun.
  destruct (bool_decide (_ <= rl_eth_last_block _)) eqn:Hle.
  { injection Hrun as <- <-. split_and!; [lia|by left|]. intros id b. by rewrite elem_of_nil. }
  bool_facts. ok_inv Hrun. rewrite u_add_ok in H2 by lia. injection H2 as <-.
  rewrite u_add_ok in H3 by lia. injection H3 as <-. rewrite u_sub_ok in H4 by lia. injection H4 as <-.
  apply now_unwrap_state in H8. apply mutate_frame in H9 as (? & ? & ->). cbn in *.
  split_and!; [lia|right; lia|]. intros id b Hin.
  apply elem_of_app in Hin as [Hin|Hin]; [|by apply list_elem_of_singleton in Hin].
  destruct (announce_deposits_events _ _ _ _ _ _ _ H6 Hin) as (d & Hd & -> & -> & Hc & Hf).
  apply Hnet in H5. rewrite Forall_forall in H5. specialize (H5 d Hd). split_and!; [lia|lia|done|].
  exists d. split_and!; try done. unfold filed in *. cbn. by rewrite H8.
Qed.
End polls.

(** * The log of the bridge contract *)

(** [hex::decode] inverts [hex::encode]. *)
Class HexLaw `{BridgeLib} : Prop := {
  hex_read bs : Forall (λ b, b < 256) bs → br_hex_decode (hex_encode bs) = inl bs;
}.

(** ** Hexadecimal numbers *)
Lemma nibble_cases d :
  d < 16 → ∃ c, hex_digit d = String c EmptyString ∧ digit_of 16 c = Some d
    ∧ c ≠ "x"%char ∧ c ≠ "+"%char ∧ c ≠ "-"%char ∧ (c = "0"%char → d = 0).
Proof.
  intros Hd. assert (d = 0 ∨ d = 1 ∨ d = 2 ∨ d = 3 ∨ d = 4 ∨ d = 5 ∨ d = 6 ∨ d = 7 ∨ d = 8 ∨ d = 9 ∨ d = 10
    ∨ d = 11 ∨ d = 12 ∨ d = 13 ∨ d = 14 ∨ d = 15) as Hcases by lia.
  repeat destruct Hcases as [->|Hcases]; [..|subst d]; by eexists.
Qed.

Lemma hex_digit_read max acc d s :
  d < 16 → acc * 16 + d <= max →
  digits_from max 16 acc (hex_digit d +:+ s) = digits_from max 16 (acc * 16 + d) s.
Proof.
  intros Hd Hle. destruct (nibble_cases d Hd) as (c & Hc & Hv & _). rewrite Hc.
  change (String c EmptyString +:+ s) with (String c s). cbn [digits_from].
  by rewrite Hv, bool_decide_true.
Qed.

Lemma append_assoc s t u : (s +:+ t) +:+ u = s +:+ (t +:+ u).
Proof.
  induction s as [|c s IH]; [done|]. change (String c ((s +:+ t) +:+ u) = String c (s +:+ (t +:+ u))). by rewrite IH.
Qed.

Lemma hex_digits_read max k : ∀ n s,
  n < 16 ^ N.of_nat k → n <= max → (0 < k)%nat →
  digits_from max 16 0 (hex_digits k n +:+ s) = digits_from max 16 n s.
Proof.
  induction k as [|k IH]; intros n s Hn Hle Hk; [lia|]. cbn [hex_digits].
  pose proof (N.div_mod n 16 ltac:(done)) as Hdm. pose proof (N.mod_lt n 16 ltac:(done)) as Hlt.
  rewrite append_assoc. case_bool_decide as H0.
  - change (EmptyString +:+ ?x) with x. rewrite hex_digit_read by lia. f_equal. lia.
  - assert (n / 16 < 16 ^ N.of_nat k) as Hq.
    { apply N.Div0.div_lt_upper_bound. rewrite <- N.pow_succ_r'. by replace (N.succ (N.of_nat k)) with (N.of_nat (S k)) by lia. }
    assert (0 < k)%nat. { destruct k; [|lia]. rewrite N.pow_0_r in Hq. lia. }
    clear H0. set (q := n / 16) in *. set (d := n mod 16) in *. clearbody q d.
    rewrite IH by lia. rewrite hex_digit_read by lia. f_equal. lia.
Qed.

(** Text without the characters that the readers treat specially. *)
Fixpoint plain (s : string) : Prop :=
  match s with
  | EmptyString => True
  | String c s => c ≠ "x"%char ∧ c ≠ "+"%char ∧ c ≠ "-"%char ∧ plain s
  end.

Lemma plain_append s t : plain s → plain t → plain (s +:+ t).
Proof.
  induction s as [|c s IH]; intros Hs Ht; [done|]. change (plain (String c (s +:+ t))).
  destruct Hs as (? & ? & ? & ?). cbn [plain]. auto.
Qed.

Lemma plain_digit d : d < 16 → plain (hex_digit d).
Proof. intros Hd. by destruct (nibble_cases d Hd) as (c & -> & _ & ? & ? & ? & _). Qed.

Lemma plain_encode bs : Forall (λ b, b < 256) bs → plain (hex_encode bs).
Proof.
  induction 1 as [|b bs Hb _ IH]; [done|]. cbn [hex_encode].
  repeat apply plain_append; try done; apply plain_digit; [|by apply N.mod_lt].
  by apply N.Div0.div_lt_upper_bound.
Qed.

Lemma plain_digits k n : plain (hex_digits k n).
Proof.
  revert n. induction k as [|k IH]; intros n; [done|]. cbn [hex_digits].
  apply plain_append; [by case_bool_decide|]. by apply plain_digit, N.mod_lt.
Qed.

Lemma trim_plain s : plain s → trim_0x s = s.
Proof.
  destruct s as [|c1 [|c2 s]]; [done|..]; intros Hs.
  - cbn. by repeat case_match.
  - destruct Hs as (_ & _ & _ & Hx & _). cbn [trim_0x]. repeat case_match; congruence.
Qed.
Lemma trim_prefixed s : plain s → trim_0x ("0x" +:+ s) = s.
Proof. intros Hs. change (trim_0x s = s). by apply trim_plain. Qed.

Lemma radix_plain max radix s : plain s → s ≠ EmptyString → from_str_radix max radix s = digits_from max radix 0 s.
Proof.
  destruct s as [|c s]; [done|]. intros (_ & Hp & Hm & _) _. cbn [from_str_radix]. repeat case_match; congruence.
Qed.

Lemma digits_nonempty k n : (0 < k)%nat → hex_digits k n ≠ EmptyString.
Proof.
  destruct k as [|k]; [lia|]. intros _. cbn [hex_digits].
  destruct (nibble_cases (n mod 16) ltac:(by apply N.mod_lt)) as (c & -> & _).
  by destruct (if bool_decide (n / 16 = 0) then EmptyString else hex_digits k (n / 16)).
Qed.

Lemma append_empty s : s +:+ EmptyString = s.
Proof. induction s as [|c s IH]; [done|]. change (String c (s +:+ EmptyString) = String c s). by rewrite IH. Qed.

Lemma number_read max n : n <= max → n <= U64_MAX → from_str_radix max 16 (trim_0x (to_hex_0x n)) = inl n.
Proof.
  intros Hm Hn. unfold to_hex_0x. rewrite trim_prefixed by apply plain_digits.
  rewrite radix_plain; [|apply plain_digits|apply digits_nonempty; lia].
  rewrite <- (append_empty (hex_digits 16 n)), hex_digits_read; [done| |done|lia].
  change (16 ^ N.of_nat 16) with 18446744073709551616. lia.
Qed.

(** ** Words of the log *)
Definition word (z : N) : bytes := reverse (to_le_bytes 32 z).

Lemma take_le_bytes k n z : (k ≤ n)%nat → take k (to_le_bytes n z) = to_le_bytes k z.
Proof.
  revert n z. induction k as [|k IH]; intros n z Hk; [done|]. destruct n as [|n]; [lia|].
  cbn [to_le_bytes take]. f_equal. apply IH. lia.
Qed.

Lemma of_le_mod k z : of_le_bytes (to_le_bytes k z) = z mod 256 ^ N.of_nat k.
Proof.
  revert z. induction k as [|k IH]; intros z; cbn [to_le_bytes of_le_bytes]; [by rewrite N.mod_1_r|].
  rewrite IH. replace (N.of_nat (S k)) with (N.succ (N.of_nat k)) by lia. rewrite N.pow_succ_r'.
  rewrite N.Div0.mod_mul_r. lia.
Qed.

(** The low [k] bytes of a word are its value modulo [256^k]. *)
Lemma word_low k z : (k ≤ 32)%nat → of_be_bytes (drop (32 - k) (word z)) = z mod 256 ^ N.of_nat k.
Proof.
  intros Hk. unfold of_be_bytes, word. rewrite <- of_le_mod, <- (take_le_bytes k 32) by done. f_equal.
  rewrite <- (reverse_involutive (take k (to_le_bytes 32 z))). f_equal.
  rewrite reverse_take, length_to_le_bytes. done.
Qed.

Lemma length_word z : length (word z) = 32%nat.
Proof. unfold word. by rewrite length_reverse, length_to_le_bytes. Qed.

Lemma le_bytes_octets n z : Forall (λ b, b < 256) (to_le_bytes n z).
Proof. revert z. induction n as [|n IH]; intros z; constructor; [by apply N.mod_lt|apply IH]. Qed.
Lemma word_octets z : Forall (λ b, b < 256) (word z).
Proof. unfold word. apply Forall_reverse, le_bytes_octets. Qed.

(** ** The log *)
Definition sized (n : nat) (bs : bytes) : Prop := length bs = n ∧ Forall (λ b, b < 256) bs.

Definition hex_text (bs : bytes) : Json := JString ("0x" +:+ hex_encode bs).

(** The log of [DepositInitiated]: four topics, four words of data, and where it stands. *)
Definition deposit_log (id depositor recipient token : bytes) (amount nonce timestamp : N)
  (block : N) (block_hash tx_hash : bytes) (index : N) : Json :=
  JObject [
    ("topics", JArray [JString DEPOSIT_TOPIC; hex_text id; hex_text (replicate 12 0 ++ depositor); hex_text recipient]);
    ("data", hex_text (replicate 12 0 ++ token ++ word amount ++ word nonce ++ word timestamp));
    ("blockNumber", JString (to_hex_0x block)); ("blockHash", hex_text block_hash);
    ("transactionHash", hex_text tx_hash); ("logIndex", JString (to_hex_0x index))].

Section parse.
Context `{BridgeLib} `{!HexLaw}.

Lemma decode_text bs : Forall (λ b, b < 256) bs → br_hex_decode (trim_0x ("0x" +:+ hex_encode bs)) = inl bs.
Proof. intros Hbs. rewrite trim_prefixed by by apply plain_encode. by apply hex_read. Qed.

Lemma hash_text bs : sized 32 bs → parse_hash ("0x" +:+ hex_encode bs) = Some bs.
Proof. intros [Hl Hbs]. unfold parse_hash. rewrite decode_text by done. cbn. by rewrite bool_decide_true. Qed.

Lemma zeros_octets n : Forall (λ b, b < 256) (replicate n 0).
Proof. by apply Forall_replicate. Qed.

Lemma padded_sized bs : sized 20 bs → sized 32 (replicate 12 0 ++ bs).
Proof.
  intros [Hl Hbs]. split; [by rewrite length_app, length_replicate, Hl|]. apply Forall_app. split; [apply zeros_octets|done].
Qed.

(** The slice [from + 32 - k .. from + 32] of the data lies in one word. *)
Lemma word_slice before z after k :
  (k ≤ 32)%nat →
  of_be_bytes (sub_bytes (before ++ word z ++ after) (length before + (32 - k)) (length before + 32))
  = z mod 256 ^ N.of_nat k.
Proof.
  intros Hk. unfold sub_bytes. replace (length before + 32 - (length before + (32 - k)))%nat with k by lia.
  rewrite <- drop_drop, drop_app_length, drop_app_le by (rewrite length_word; lia).
  rewrite take_app_le, take_ge by (rewrite length_drop, length_word; lia). by apply word_low.
Qed.

Lemma sub_padded bs after : length bs = 20%nat → sub_bytes (replicate 12 0 ++ bs ++ after) 12 32 = bs.
Proof. intros Hl. unfold sub_bytes. rewrite (drop_app_length' (replicate 12 0)) by done. by rewrite take_app_length'. Qed.

(** The relayer reads every field of a deposit from the log of the contract; of the
    amount it keeps the low 128 bits, of nonce and time the low 64. *)
Lemma deposit_log_read id depositor recipient token amount nonce timestamp block block_hash tx_hash index :
  sized 32 id → sized 20 depositor → sized 32 recipient → sized 20 token →
  block <= U64_MAX → sized 32 block_hash → sized 32 tx_hash → index <= U32_MAX →
  parse_deposit_log (deposit_log id depositor recipient token amount nonce timestamp block block_hash tx_hash index)
  = Some {| ed_deposit_id := id; ed_depositor := depositor; ed_aethelred_recipient := recipient;
            ed_token := token; ed_amount := amount mod 2 ^ 128; ed_nonce := nonce mod 2 ^ 64;
            ed_block_number := block; ed_block_hash := block_hash; ed_tx_hash := tx_hash;
            ed_log_index := index; ed_timestamp := timestamp mod 2 ^ 64 |}.
Proof.
  intros Hid Hdep Hrec [Htl Hto] Hblock Hbh Htx Hindex.
  set (data := replicate 12 0 ++ token ++ word amount ++ word nonce ++ word timestamp).
  assert (length data = 128%nat) as Hlen.
  { subst data. rewrite !length_app, length_replicate, !length_word, Htl. done. }
  assert (Forall (λ b, b < 256) data) as Hoct.
  { subst data. repeat apply Forall_app_2; auto using word_octets, zeros_octets. }
  unfold parse_deposit_log.
  match goal with |- context [deposit_log ?a ?b ?c ?d ?e ?f ?g ?h ?i ?j ?k] => set (log := deposit_log a b c d e f g h i j k) end.
  assert (get_array log "topics"
    = Some [JString DEPOSIT_TOPIC; hex_text id; hex_text (replicate 12 0 ++ depositor); hex_text recipient]) as -> by done.
  assert (get_str log "data" = Some ("0x" +:+ hex_encode data)) as -> by done.
  assert (get_str log "blockNumber" = Some (to_hex_0x block)) as -> by done.
  assert (get_str log "logIndex" = Some (to_hex_0x index)) as -> by done.
  assert (get_hash log "blockHash" = parse_hash ("0x" +:+ hex_encode block_hash)) as -> by done.
  assert (get_hash log "transactionHash" = parse_hash ("0x" +:+ hex_encode tx_hash)) as -> by done.
  unfold topic_hash, hex_text.
  cbn -[trim_0x hex_encode to_hex_0x parse_hash from_str_radix sub_bytes of_be_bytes data String.append replicate].
  rewrite !hash_text by (done || by apply padded_sized).
  rewrite decode_text by done. cbn -[sub_bytes of_be_bytes data from_str_radix trim_0x to_hex_0x replicate].
  rewrite Hlen. cbn -[sub_bytes of_be_bytes data from_str_radix trim_0x to_hex_0x replicate].
  rewrite !number_read by lia. cbn -[sub_bytes of_be_bytes data replicate].
  rewrite !bool_decide_false by lia.
  pose proof (word_slice (replicate 12 0 ++ token) amount (word nonce ++ word timestamp) 16 ltac:(lia)) as Ha.
  pose proof (word_slice (replicate 12 0 ++ token ++ word amount) nonce (word timestamp) 8 ltac:(lia)) as Hn.
  pose proof (word_slice (replicate 12 0 ++ token ++ word amount ++ word nonce) timestamp [] 8 ltac:(lia)) as Ht.
  rewrite !length_app, length_replicate, Htl, <- !app_assoc in Ha.
  rewrite !length_app, length_replicate, length_word, Htl, <- !app_assoc in Hn.
  rewrite app_nil_r, !length_app, length_replicate, !length_word, Htl, <- !app_assoc in Ht.
  fold data in Ha, Hn, Ht. cbn -[sub_bytes of_be_bytes data replicate N.modulo N.pow] in Ha, Hn, Ht.
  change (256 ^ 16) with (2 ^ 128) in Ha. change (256 ^ 8) with (2 ^ 64) in Hn, Ht.
  assert (sub_bytes data 12 32 = token) as -> by by apply sub_padded. rewrite Ha, Hn, Ht.
  rewrite <- (app_nil_r depositor) at 1. by rewrite (sub_padded depositor) by apply Hdep.
Qed.
End parse.

(** * A concrete relayer *)

#[local] Instance EthereumDeposit_eq_dec : EqDecision EthereumDeposit.
Proof. solve_decision. Defined.
#[local] Instance EthereumDeposit_countable : Countable EthereumDeposit.
Proof.
  refine (inj_countable'
    (λ d, (ed_deposit_id d, ed_depositor d, ed_aethelred_recipient d, ed_token d, ed_amount d, ed_nonce d,
           ed_block_number d, ed_block_hash d, ed_tx_hash d, ed_log_index d, ed_timestamp d))
    (λ '(a, b, c, d, e, f, g, h, i, j, k), Build_EthereumDeposit a b c d e f g h i j k) _).
  by intros [].
Defined.

#[local] Instance TokenType_eq_dec : EqDecision TokenType.
Proof. solve_decision. Defined.
#[local] Instance TokenType_countable : Countable TokenType.
Proof.
  refine (inj_countable'
    (λ t, match t with WrappedETH => inl true | NativeAETHEL => inl false | WrappedERC20 a => inr a end)
    (λ x, match x with inl true => WrappedETH | inl false => NativeAETHEL | inr a => WrappedERC20 a end) _).
  by intros [].
Defined.

#[local] Instance AethelredBurn_eq_dec : EqDecision AethelredBurn.
Proof. solve_decision. Defined.
#[local] Instance AethelredBurn_countable : Countable AethelredBurn.
Proof.
  refine (inj_countable'
    (λ b, (ab_burn_id b, ab_burner b, ab_eth_recipient b, ab_token_type b, ab_amount b, ab_nonce b,
           ab_block_height b, ab_block_hash b, ab_tx_hash b, ab_timestamp b))
    (λ '(a, b, c, d, e, f, g, h, i, j), Build_AethelredBurn a b c d e f g h i j) _).
  by intros [].
Defined.

#[local] Instance DepositStatus_countable : Countable DepositStatus.
Proof.
  refine (inj_countable'
    (λ s, match s with DepositPending => 0 | DepositConfirmed => 1 | MintProposed => 2 | DepositCompleted => 3
          | DepositCancelled => 4 | DepositFailed => 5 end)
    (λ n, match n with 0 => DepositPending | 1 => DepositConfirmed | 2 => MintProposed | 3 => DepositCompleted
          | 4 => DepositCancelled | _ => DepositFailed end) _).
  by intros [].
Defined.
#[local] Instance WithdrawalStatus_countable : Countable WithdrawalStatus.
Proof.
  refine (inj_countable'
    (λ s, match s with WithdrawalPending => 0 | WithdrawalConfirmed => 1 | WithdrawalProposed => 2
          | WithdrawalConsensusReached => 3 | WithdrawalReadyToProcess => 4 | WithdrawalCompleted => 5
          | WithdrawalChallenged => 6 | WithdrawalFailed => 7 end)
    (λ n, match n with 0 => WithdrawalPending | 1 => WithdrawalConfirmed | 2 => WithdrawalProposed
          | 3 => WithdrawalConsensusReached | 4 => WithdrawalReadyToProcess | 5 => WithdrawalCompleted
          | 6 => WithdrawalChallenged | _ => WithdrawalFailed end) _).
  by intros [].
Defined.
#[local] Instance MintProposalStatus_countable : Countable MintProposalStatus.
Proof.
  refine (inj_countable'
    (λ s, match s with MintVoting => 0 | MintConsensusReached => 1 | MintDone => 2 | MintExpired => 3
          | MintRejected => 4 end)
    (λ n, match n with 0 => MintVoting | 1 => MintConsensusReached | 2 => MintDone | 3 => MintExpired
          | _ => MintRejected end) _).
  by intros [].
Defined.
#[local] Instance WithdrawalProposalStatus_countable : Countable WithdrawalProposalStatus.
Proof.
  refine (inj_countable'
    (λ s, match s with UnlockVoting => 0 | SubmittedToEthereum => 1 | InChallengePeriod => 2
          | UnlockReadyToProcess => 3 | UnlockDone => 4 | UnlockChallenged => 5 | UnlockExpired => 6 end)
    (λ n, match n with 0 => UnlockVoting | 1 => SubmittedToEthereum | 2 => InChallengePeriod
          | 3 => UnlockReadyToProcess | 4 => UnlockDone | 5 => UnlockChallenged | _ => UnlockExpired end) _).
  by intros [].
Defined.

#[local] Instance RelayerVote_eq_dec : EqDecision RelayerVote.
Proof. solve_decision. Defined.
#[local] Instance RelayerVote_countable : Countable RelayerVote.
Proof.
  refine (inj_countable' (λ v, (rv_relayer v, rv_approve v, rv_signature v, rv_timestamp v))
    (λ '(a, b, c, d), Build_RelayerVote a b c d) _).
  by intros [].
Defined.
#[local] Instance MintProposal_eq_dec : EqDecision MintProposal.
Proof. solve_decision. Defined.
#[local] Instance MintProposal_countable : Countable MintProposal.
Proof.
  refine (inj_countable'
    (λ p, (mp_proposal_id p, mp_deposit p, mp_proposer p, mp_votes p, mp_status p, mp_created_at p, mp_updated_at p))
    (λ '(a, b, c, d, e, f, g), Build_MintProposal a b c d e f g) _).
  by intros [].
Defined.
#[local] Instance WithdrawalProposal_eq_dec : EqDecision WithdrawalProposal.
Proof. solve_decision. Defined.
#[local] Instance WithdrawalProposal_countable : Countable WithdrawalProposal.
Proof.
  refine (inj_countable'
    (λ p, (wp_proposal_id p, wp_burn p, wp_proposer p, wp_votes p, wp_status p, wp_created_at p,
           wp_challenge_end_time p, wp_updated_at p))
    (λ '(a, b, c, d, e, f, g, h), Build_WithdrawalProposal a b c d e f g h) _).
  by intros [].
Defined.

#[local] Instance PersistedBridgeState_eq_dec : EqDecision PersistedBridgeState.
Proof. solve_decision. Defined.
#[local] Instance PersistedBridgeState_countable : Countable PersistedBridgeState.
Proof.
  refine (inj_countable'
    (λ s, (ps_last_eth_block s, ps_eth_block_hashes s, ps_last_aethelred_block s, ps_deposits s,
           ps_deposit_statuses s, ps_pending_deposits s, ps_burns s, ps_burn_statuses s, ps_pending_burns s,
           ps_mint_proposals s, ps_withdrawal_proposals s))
    (λ '(a, b, c, d, e, f, g, h, i, j, k), Build_PersistedBridgeState a b c d e f g h i j k) _).
  by intros [].
Defined.

(** The file holds the number that encodes the state. *)
#[local] Instance toy_bridge : BridgeLib := {
  br_sha256 := λ bs, take 4 (reverse bs);
  br_hex_decode := λ _, inl (replicate 32 9);
  br_serialize := λ s, inl [N.pos (encode s)];
  br_deserialize := λ bs, match bs with
                          | [N.pos p] => match decode p with Some s => inl s | None => inr "invalid" end
                          | _ => inr "invalid"
                          end;
  br_path_exists := λ _, true;
}.
#[local] Instance toy_bridge_laws : BridgeLaws.
Proof. split. intros s bs [= <-]. split; [done|]. cbn. by rewrite decode_encode. Qed.

Definition bridge_build : Build := {| overflow_checks := true; feature_sgx := false; feature_zkp := false |}.

Definition witness_config : BridgeConfig := {|
  bc_identity := {| ic_private_key_path := "key"; ic_aethelred_address := Some "09"; ic_eth_address := None |};
  bc_ethereum := EthereumConfig_testnet; bc_aethelred := AethelredConfig_testnet;
  bc_consensus := ConsensusConfig_default; bc_storage_path := "data"; bc_metrics_enabled := false;
  bc_metrics_port := 0; bc_log_level := "info" |}.

Definition witness_deposit : EthereumDeposit := {|
  ed_deposit_id := [1]; ed_depositor := [2]; ed_aethelred_recipient := [3]; ed_token := [0]; ed_amount := 5;
  ed_nonce := 1; ed_block_number := 10; ed_block_hash := [4]; ed_tx_hash := [6]; ed_log_index := 0;
  ed_timestamp := 7 |}.

Definition fresh : Relayer := {|
  rl_config := witness_config; rl_state := PersistedBridgeState_default; rl_disk := None; rl_io := [];
  rl_clock := [Some 100]; rl_metrics := BridgeMetrics_new; rl_relayer_set := empty_relayer_set;
  rl_pending_mints := ∅; rl_pending_withdrawals := ∅; rl_eth_last_block := 0; rl_aethelred_last_block := 0;
  rl_running := false |}.

Definition witness_actions : list action := [
  ActStart; ActEthereumEvent (Deposit witness_deposit); ActEthereumEvent (DepositFinalized [1] 10);
  ActRestart witness_config None None [] [] ].

Definition witness_run : Relayer := foldl (λ r a, @act bridge_build toy_bridge a r) fresh witness_actions.

Lemma bridge_sound_witness :
  ∃ p, witness_run.(rl_state).(ps_mint_proposals) !! generate_id witness_deposit = Some p
    ∧ p.(mp_deposit) = witness_deposit ∧ p.(mp_status) ≠ MintConsensusReached.
Proof.
  destruct (@bridge_sound bridge_build toy_bridge toy_bridge_laws (λ d, d = witness_deposit) (λ _, False)
    witness_config [] [Some 100] fresh witness_run) as (Hmint & _).
  - reflexivity.
  - apply actions_relayed. by repeat constructor.
  - destruct (ps_mint_proposals (rl_state witness_run) !! generate_id witness_deposit) as [p|] eqn:Hp.
    + destruct (Hmint _ _ Hp) as (Hd & _ & _ & Hs). exact (ex_intro _ p (conj eq_refl (conj Hd Hs))).
    + exfalso. revert Hp. vm_compute. discriminate.
Defined.
